(* ===== verification/_CoqProject ===== *)
-Q . S2P
Prelude.v
JsValue.v
Json.v
Utf8.v
Transport.v
Protocol.v
PendingRoutes.v
MemoTable.v
Message.v
ReportBridge.v
Ownership.v
Physical.v
WebSocket.v
Host.v
WebSocketRun.v
Routing.v
HostRpc.v
HostRun.v
DaemonRun.v
Holders.v
HostLife.v
Usb.v
Control.v
Client.v
ClientRun.v
Exchange.v
Entry.v
ProcessLife.v
Prog.v
System.v
FileLock.v
Paths.v
Manager.v
SpawnLock.v
ManagerEnds.v
Mirror.v
Facade.v
Mirroring.v
FacadeRun.v
Requests.v
Trace.v
TraceRun.v
Wiring.v
Watch.v
WatchRun.v
HdcTracker.v
DeviceManagers.v
DeviceRun.v
AdbGuard.v
Hdc.v
HdcSession.v
Forward.v
Lockdown.v
RemoteDriver.v
Utilities.v
Tools.v
Logger.v
DeviceWatch.v
UsbConnection.v
Listeners.v
