(* ===== verification/Prelude.v ===== *)
(** * A verification library for the DebugRouter connector

    DebugRouter connects debugging front ends with runtimes (apps on phones,
    desktops, simulators).  Several connectors on one machine share the devices
    through a daemon, the multiplexer.  This library models the TypeScript code
    of the connector package, [src/debug_router_connector/src], above all its
    [multiplexer] directory, and of the remote debug driver,
    [src/remote_debug_driver/src], and proves what the parts promise each other.

    ** The program

    A user holds a [DebugRouterConnector], which mirrors the devices and clients
    of the daemon and restores what its user asked for after a lost daemon.  Its
    [MultiplexerDaemonClient] finds a daemon ([MultiplexerDiscovery] asks it for
    its protocol version), lets a [MultiplexerDaemonManager] start or replace one
    under a [FileLock], and registers on a local socket.  Both ends wrap the socket in a [MultiplexerControlTransport],
    which frames JSON texts.  In the daemon [MultiplexerControlServer] accepts
    sockets, answers the handshake, gives each registered connection a control
    id, and passes RPCs to the [MultiplexerDaemonHost].  The host owns the
    devices through a [PhysicalConnector], whose USB clients are
    [ClientAdapter]s, and the WebSocket clients of a [WebSocketController].  It
    forwards requests to runtimes under ids of its own, kept in a
    [PendingRouteTable]; answers return to the requester, notifications go to
    everybody; equivalent queries are coalesced in a [MemoizedQueryTable].  A
    [LegacyOwnershipGuard] gives the devices up to older connectors that do not
    know the daemon, and a [DaemonReportServiceBridge] forwards reports.  Apart
    from all this a [RemoteDebugDriver] joins a debug room on a server and talks
    to the clients in it.

    ** The files

    Infrastructure:
    - [Prelude]: record update, JavaScript's insertion-ordered maps and sets as
      association lists, generic lemmas, hint database and tactics.
    - [JsValue]: Numbers (safe integers, or IEEE doubles of [SpecFloat]), UTF-16
      strings, JSON values, property access, truthiness, Node's timer delays.
    - [Json]: [JSON.stringify] and [JSON.parse] on UTF-16 texts; [parse] is fuelled
      by twice the length of the text and more fuel changes nothing
      ([parse_fuel_enough]); [parse (stringify v) = Some v] for the values that
      JSON can express ([wf_json]).
    - [Utf8]: [Buffer.from] and [toString] with replacement characters.

    Components, each named after its source:
    - [Transport]: [transport/MultiplexerControlTransport.ts].
    - [Protocol]: [protocol/validation.ts], [control.ts], [event.ts], [snapshot.ts].
    - [PendingRoutes]: [daemon/PendingRouteTable.ts].
    - [MemoTable]: [daemon/MemoizedQueryTable.ts].
    - [Message]: the envelope helpers at the end of [daemon/MultiplexerDaemonHost.ts].
    - [ReportBridge]: [daemon/DaemonReportServiceBridge.ts].
    - [Ownership]: [daemon/LegacyOwnershipGuard.ts].
    - [Physical]: [physical/PhysicalConnector.ts].
    - [WebSocket]: [websocket/WebSocketServer.ts], [websocket/WebSocketConnection.ts];
      [WebSocketRun]: runs of the server, with its startup and closing.
    - [Host], [Routing], [HostRpc]: [daemon/MultiplexerDaemonHost.ts] (state and
      events; messages; RPC methods and life cycle).
    - [HostRun]: the operations of the host as steps, with their invariant.
    - [DaemonRun]: runs of the host with the RPCs that wait; [Holders]: who holds
      the device managers in such runs.
    - [HostLife]: starting and stopping the host, with the servers, the guard and
      the requests that go on meanwhile.
    - [Usb]: [usb/ClientAdapter.ts], [usb/utils.ts] and parts of [usb/Connection.ts].
    - [Control]: [daemon/MultiplexerControlServer.ts],
      [daemon/MultiplexerControlConnection.ts].
    - [Client]: [client/MultiplexerDaemonClient.ts], [client/MultiplexerDiscovery.ts];
      [ClientRun]: calls from the user to their end, with the loops that connect.
    - [Exchange]: client, control server and host together.
    - [Entry]: [daemon/entry.ts] and the arguments that
      [client/MultiplexerDaemonManager.ts] passes to it; [ProcessLife]: the process
      of a daemon with its host.
    - [Prog], [System]: programs that make calls, interpreted by any environment,
      with a logic for their runs; the calls to files, processes, sockets and
      the clock.
    - [FileLock], [Paths]: [utils/FileLock.ts] and [utils/paths.ts].
    - [Manager], [SpawnLock], [ManagerEnds]: [client/MultiplexerDaemonManager.ts]
      (its programs and what they may do; its lock; that it comes to an end).
    - [Mirror]: [client/MultiplexerDevice.ts], [client/MultiplexerUsbClient.ts],
      [client/MultiplexerWebSocketClient.ts].
    - [Facade]: [connector/DebugRouterConnector.ts]; [Mirroring]: what a snapshot
      leaves in its mirrors; [FacadeRun]: its runs; [Listeners]: the functions its
      user registers; [Requests]: its requests and those of its mirrors, from
      [Client] to the validators of [Protocol].
    - [Wiring]: the constructor of [connector/DebugRouterConnector.ts] and the way
      of its options into the daemon.
    - [Trace], [TraceRun]: [trace/ConnectionTraceRecorder.ts] and its runs.
    - [Watch], [WatchRun]: [usb/ClientController.ts] with the connecting part of
      [usb/ClientAdapter.ts], and runs of a device's watcher.
    - [HdcTracker]: [utils/hdc/tracker.ts] with the list of targets it reads.
    - [DeviceManagers], [DeviceRun]: the managers of [device/] for all platforms,
      and their runs.
    - [DeviceWatch]: [device/BaseDevice.ts], the watchers a device has one after
      the other.
    - [AdbGuard]: [device/android/AdbHealthGuard.ts] and the checks of ports of
      [device/android/AndroidDevice.ts].
    - [Forward]: forwarding of ports of [device/android/AndroidDevice.ts] and
      [device/Harmony/HarmonyDevice.ts], as programs of [Prog].
    - [Hdc]: [utils/hdc]: frames, reader, handshake and commands of its protocol;
      [HdcSession]: one call with its socket ([utils/hdc/client.ts],
      [utils/hdc/connection.ts]).
    - [Lockdown]: the parser of [device/ios/iOSDeviceManager.ts].
    - [UsbConnection]: [usb/Connection.ts], [usb/USBConnection.ts], [usb/Client.ts],
      and what the adapter of [usb/ClientAdapter.ts] does to a connection.
    - [Utilities]: [utils/InternalIpDetector.ts], [utils/adb.validator.ts],
      [utils/hdc.validator.ts], [utils/file_lock.ts], [physical/MonitorUtils.ts].
    - [Tools]: the programs of [utils/adb.validator.ts] and [utils/adb.connection.ts].
    - [Logger]: [utils/logger.ts].
    - [RemoteDriver]: the remote debug driver.

    ** How code becomes definitions

    A class is a record of its fields, a method a function on the record that
    also returns what the method causes: the promises it settles, the messages
    it sends, the listeners it calls, as a list of events or effects.  An
    asynchronous method is split at its [await]s, and the continuation is a
    definition of its own, so other operations can run in between.  A timer is
    an entry of the state with its due time, and its firing is an operation.
    Code that mostly asks the operating system ([FileLock], [Manager]) is a
    program of [Prog]: each call is a node that continues with the answer, so a
    theorem about all answers is a theorem about all environments and all
    interleavings with other processes.  An
    exception is a value ([thrown], [option]).  A [Map] or [Set] keeps insertion
    order, because the code iterates over them.  Time is an argument [now].
    Ids are Numbers; where the code counts up, the theorems bound the length of
    the run by [Number.MAX_SAFE_INTEGER], which no run reaches.

    Code outside the repository is a parameter: the byte packing library of the
    transport ([Bufferpack]) and of the USB packets ([UsbPack]) with their
    documented laws as classes, instantiated for the witnesses; the file system
    of the ownership guard, the sockets of runtimes, [Buffer.allocUnsafe],
    [plist.parse] and [localeCompare] as arguments.  Of detect-port [Forward]
    relies on its documented search: upwards from the port it is given, or a free
    one of the system.

    ** What is proved

    - One request end to end: [request_reply_exchange].
    - Routing: requests go out under fresh ids and responses come back to their
      requester only ([request_forwarded], [response_returns_to_requester],
      [stray_response_dropped], [notification_broadcast]); in every run each RPC
      is answered once, still waits, or was one of the requests the host drops
      ([rpc_accounted]); a disconnecting control takes exactly its own routes
      ([disconnect_clears_own_routes]).
    - The tables: the route table refines a finite map with deadlines, in every
      run, timeouts included, with exactly-once settlement
      ([route_table_refines_map], [settled_at_most_once],
      [route_times_out]); the query table coalesces, caches until expiry and
      stops its retries ([query_coalesced], [notification_reused],
      [retry_timer_owned], [clearClient_exact]).
    - Life cycle: the idle timer follows the connections
      ([idle_timer_tracks_use]) and a device manager is held by exactly those who
      asked for it ([managers_held_by_controls]); a stop comes to an end
      ([stop_comes_to_an_end]), then everything that was opened has been closed
      once and released ([stopped_host_released]) and no request is left behind
      where no socket is ([shutdown_settles_rpcs]), in any interleaving of starts,
      stops, failures and requests; every cause to end, among them the idle and the
      shutdown handler of the host and the signals, starts the one cleanup of the
      process, which ends with its host stopped, late, or after a start that failed
      ([daemon_process_ends]).
    - WebSocket server: the host knows its clients exactly
      ([websocket_clients_known]).
    - Control server: each connection is announced, used and taken back once
      ([control_calls_bracketed]), what the host sends is delivered
      ([effects_delivered]), the handshake decides what a socket is
      ([handshake_answered]).
    - Client: no call is lost and none ends twice ([calls_accounted]), connecting
      ends ([connecting_ends]), every RPC is settled exactly once ([client_rpc_settled_once]), as
      the daemon meant it ([client_response_settles]), and waits long enough
      ([rpc_timeout_covers]); connecting ends ([connect_bounded]); versions are
      arbitrated ([version_arbitration]).
    - Bytes: framing and packing are inverse to parsing under every
      fragmentation, with bounded buffers ([transport_roundtrip],
      [transport_buffer_bounded], [transport_resync], [parseFrames_terminates],
      [usb_buffer_refines_stream], [usb_pack_roundtrip], [usb_messages_forwarded]).
    - Protocol: what one side sends the other accepts: every request of a connector
      and its mirrors ([requests_accepted]), and events ([event_accepted]).
    - Devices, ownership, reports: [registry_events_complete],
      [client_ids_sequential], [monitor_follows_file], [lock_acquired],
      [reports_in_order].
    - The connector: after a snapshot the mirrors are what the daemon has and
      the connector may show ([snapshot_mirrored], a reference definition for
      each map; [mirrors_follow_daemon], with the daemon's own state); the events
      tell every change ([facade_events_complete]) to whoever listens
      ([listener_sees_mirrors]); a lost daemon is recovered
      from ([lost_daemon_recovered]) and a closed connector is over
      ([closed_connector_over]); its options arrive in the daemon
      ([connector_configures_daemon]).
    - The daemon process: a manager starts, stops and replaces daemons only as it
      may ([daemon_handled_safely]) and comes to an end ([ensure_ends]); its lock
      excludes ([file_lock_excludes]) and is taken exactly when it is free or
      stale ([spawn_lock_taken]); the entry reads what the manager wrote
      ([entry_args_roundtrip]) and ends once ([process_cleanup_once]).
    - Watching a device: its clients are those the daemon was told of, one for
      each port ([watched_clients_exact]), and none after closing
      ([closed_watcher_over]); so it stays over all the watchers a device has
      ([device_clients_exact]).
    - Devices: forwarding the ports of an Android device ends with different
      ports of the host, each granted by adb ([android_ports_forwarded]); no check
      of a device that does not respond begins for a while ([adb_health_backoff]),
      and a disconnected one is left alone for good ([disconnected_device_pauses]); the bytes of an
      hdc server are read as the values they are ([hdc_value_reassembled]), a call
      of it is answered however they are cut ([hdc_call_answered]) and settled once
      whatever its socket does ([hdc_call_settled_once]); those
      of an iOS device as its answers ([lockdown_answers_read], with what the
      parser cannot read).
    - Tools: the address of this host ([internal_address_found]), the adb tool
      ([adb_instance_found]), connections to its server given back
      ([adb_connection_given_back]), time stamps that tell the time ([stamp_read]).
    - The remote debug driver: it knows the sessions it was last told of
      ([session_lists_known]), addresses those that show a page
      ([sessions_addressed]), and begins a chain of pings with every join
      ([pings_conserved]).
    - Device managers: a registered device has one open manager
      ([managers_own_devices]), a closed manager is over ([closed_manager_over]),
      a lost tracker is replaced ([lost_tracker_replaced]), and the events of the
      tracker of hdc keep a listener up to date ([tracker_follows_targets]).
    - The trace: numbered without gaps, written unless a write throws, buffered,
      heard by listeners ([trace_log_complete]), and tied together by attempt ids
      ([attempt_correlated]).
    - Behaviour the code does not intend, as theorems: [late_tunnel_leaks],
      [late_device_registered], [unstable_target_removed], [attempt_split], [coalesced_reply_hangs],
      [usb_message_unhandled], [unregistered_blocks_close], [snapshot_accepted_iff], [huge_timeout_fires_first],
      [named_lookup_ignores_device], [lock_outlived], [runtime_event_emitted],
      [process_name_collides], [harmony_rules_removed], [refused_and_answered],
      [name_garbled], [short_beginning_matches], [foreign_unlock],
      [env_port_unused], [request_left_alone], [old_socket_ends_new_connection],
      [signal_during_rollback], [ownership_taken_after_stop],
      [answered_socket_unguarded], [install_in_order], [unknown_level_set].

    ** Bounds and fuel

    The loops of [parseFrames] and of the USB unpacker consume bytes in every
    iteration and run with one unit of fuel more than the buffer has bytes
    ([parseFrames_terminates]; [usb_buffer_refines_stream] compares with the
    packets of the whole stream).  Growing the USB buffer doubles it, with the
    needed size as fuel.  [drain] of the report bridge runs along its queue,
    which the status changes a send may cause never lengthen.  Connecting has the three attempts
    of the code; acquiring the lock has the attempts of
    [LEGACY_LOCK_ACQUIRE_MAX_ATTEMPTS].  The waits of the daemon manager poll
    until a deadline and have one unit of fuel for each poll interval before it
    and two more; making sure of a daemon takes one turn more than the lock is
    refused; [ensure_ends] shows that with this fuel no run is cut off.  The
    search for a port of the host has one turn more than the device has ports,
    as every port that is refused is one of them and the next is above it
    ([android_ports_forwarded] says that it never runs out); the parser of
    lockdown answers calls itself with fewer bytes each time.  A stop of the host
    waits for at most ten answers ([stop_comes_to_an_end]); the runs of [HostLife],
    [ProcessLife] and [HdcSession] are over any list of steps.

    ** What is not modelled

    Where log lines are written and the contents of reports; exceptions of the
    listeners of a trace; the tasks a rejected [Promise.all] leaves behind; the sockets and
    servers of Node themselves, whose events are inputs; the external tools behind
    the device managers (adb, hdc, usbmuxd); listeners that call back into the
    facade; the callbacks with which an application replaces the addresses of the
    remote debug driver; declarations of types. *)

From Stdlib Require Export ZArith Lia.
From stdpp Require Export base list numbers option.

#[export] Set Default Goal Selector "!".

Declare Scope js_scope.
Delimit Scope js_scope with js.
Open Scope Z_scope.

(** ** Record update

    The TypeScript classes of the program are records here and an assignment
    [this.f = e] is the update [s <| f := e |>].  A record type declares its
    eta expansion once; the setter of every field is derived from it. *)

Class Eta (R : Type) := eta : R -> R.

Class SetField {R E : Type} (proj : R -> E) := set_field : (E -> E) -> R -> R.
Arguments set_field {R E} proj {_} f r /.

Ltac derive_set_field R E proj :=
  exact (fun (up : E -> E) (r : R) => ltac:(
    let inst := constr:(_ : Eta R) in
    let body := eval hnf in (inst r) in
    match body with
    | context C [proj r] => let b := context C [up (proj r)] in exact b
    end)).

#[export] Hint Extern 0 (@SetField ?R ?E ?proj) => derive_set_field R E proj : typeclass_instances.

Notation "r <| f := v |>" := (set_field f (fun _ => v) r)
  (at level 1, f at next level, left associativity) : js_scope.
Notation "r <| f ::= g |>" := (set_field f g r)
  (at level 1, f at next level, left associativity) : js_scope.
Open Scope js_scope.

(** ** Tactics *)

Create HintDb mux.

(** Case analysis on the discriminees of the [match]es and [if]s of the goal
    or of a hypothesis, keeping the equation. *)
Ltac split_match :=
  match goal with
  | |- context [match ?x with _ => _ end] => destruct x eqn:?
  | H : context [match ?x with _ => _ end] |- _ => destruct x eqn:?
  end.

(** Boolean tests of the code turned into propositions. *)
Ltac bprop :=
  repeat match goal with
  | H : (_ && _)%bool = true |- _ => apply andb_prop in H as [??]
  | H : (_ || _)%bool = false |- _ => apply orb_false_elim in H as [??]
  | H : negb _ = true |- _ => apply negb_true_iff in H
  | H : negb _ = false |- _ => apply negb_false_iff in H
  | H : bool_decide _ = true |- _ => apply bool_decide_eq_true in H
  | H : bool_decide _ = false |- _ => apply bool_decide_eq_false in H
  | H : (_ =? _)%Z = true |- _ => apply Z.eqb_eq in H
  | H : (_ =? _)%Z = false |- _ => apply Z.eqb_neq in H
  | H : (_ <? _)%Z = true |- _ => apply Z.ltb_lt in H
  | H : (_ <? _)%Z = false |- _ => apply Z.ltb_ge in H
  | H : (_ <=? _)%Z = true |- _ => apply Z.leb_le in H
  | H : (_ <=? _)%Z = false |- _ => apply Z.leb_gt in H
  end.

(** ** ECMAScript [Map]: an insertion-ordered association list

    [Map.prototype.set] replaces the value of an existing key in place and
    appends a new key; iteration follows insertion order, which the program
    relies on for snapshots and broadcasts. *)
Section OMap.
Context {K V : Type} `{EqDecision K}.
Implicit Types (m : list (K * V)) (k : K) (v : V).

Fixpoint mget k m : option V :=
  match m with
  | [] => None
  | (k', v) :: m' => if decide (k = k') then Some v else mget k m'
  end.

Fixpoint mset k v m : list (K * V) :=
  match m with
  | [] => [(k, v)]
  | (k', v') :: m' => if decide (k = k') then (k', v) :: m' else (k', v') :: mset k v m'
  end.

Definition mdel k m : list (K * V) := filter (fun p => p.1 <> k) m.

Definition mhas k m : bool := match mget k m with Some _ => true | None => false end.

Definition mkeys m : list K := m.*1.
Definition mvals m : list V := m.*2.

Lemma mget_mset_eq k v m : mget k (mset k v m) = Some v.
Proof. induction m as [|[k' v'] m IH]; simpl; repeat case_decide; simpl; try case_decide; congruence. Qed.

Lemma mget_mset_ne k k' v m : k <> k' -> mget k (mset k' v m) = mget k m.
Proof.
  intros Hne. induction m as [|[j w] m IH]; simpl; repeat case_decide; simpl;
    repeat case_decide; congruence.
Qed.

Lemma mget_mset k k' v m :
  mget k (mset k' v m) = if decide (k = k') then Some v else mget k m.
Proof. case_decide; [subst; apply mget_mset_eq | by apply mget_mset_ne]. Qed.

Lemma mget_mdel k k' m : mget k (mdel k' m) = if decide (k = k') then None else mget k m.
Proof.
  induction m as [|[j w] m IH]; simpl; [by case_decide|].
  unfold mdel in *. rewrite filter_cons. simpl.
  repeat case_decide; simpl; repeat case_decide; try congruence.
Qed.

Lemma mget_In k v m : mget k m = Some v -> (k, v) ∈ m.
Proof.
  induction m as [|[j w] m IH]; simpl; [done|]. case_decide; intros Hm.
  - injection Hm as <-. subst. left.
  - right. auto.
Qed.

Lemma mkeys_mget k m : k ∈ mkeys m <-> is_Some (mget k m).
Proof.
  induction m as [|[j w] m IH]; simpl.
  - split; [by intros ?%not_elem_of_nil | by intros [??]].
  - rewrite elem_of_cons, IH. destruct (decide (k = j)) as [->|Hne].
    + split; [by eexists | by left].
    + split; [by intros [?|?] | by right].
Qed.

Lemma mget_None_keys k m : mget k m = None <-> k ∉ mkeys m.
Proof. rewrite mkeys_mget, eq_None_not_Some. done. Qed.

Lemma In_mget k v m : NoDup (mkeys m) -> (k, v) ∈ m -> mget k m = Some v.
Proof.
  induction m as [|[j w] m IH]; simpl; [by intros _ ?%not_elem_of_nil|].
  rewrite list.NoDup_cons, elem_of_cons. intros [Hj Hnd] [[= -> ->]|Hin].
  - by rewrite decide_True.
  - case_decide; [subst|auto]. exfalso. apply Hj. apply list_elem_of_fmap. by exists (j, v).
Qed.

Lemma mset_fresh k v m : k ∉ mkeys m -> mset k v m = m ++ [(k, v)].
Proof.
  induction m as [|[j w] m IH]; simpl; [done|].
  rewrite not_elem_of_cons. intros [Hne Hin]. rewrite decide_False by done. by rewrite IH.
Qed.

Lemma mkeys_mset k v m :
  mkeys (mset k v m) = if decide (k ∈ mkeys m) then mkeys m else mkeys m ++ [k].
Proof.
  induction m as [|[j w] m IH]; simpl; [done|].
  destruct (decide (k = j)) as [->|Hne]; simpl.
  - rewrite decide_True; [done|left].
  - rewrite IH. destruct (decide (k ∈ mkeys m)) as [E|E].
    + rewrite decide_True; [done|by right].
    + rewrite decide_False; [done|]. rewrite elem_of_cons. tauto.
Qed.

Lemma NoDup_mset k v m : NoDup (mkeys m) -> NoDup (mkeys (mset k v m)).
Proof.
  intros Hnd. rewrite mkeys_mset. case_decide; [done|].
  apply list.NoDup_app. repeat split; [done| |apply NoDup_singleton].
  intros x Hx ->%list_elem_of_singleton. done.
Qed.

Lemma mkeys_mdel k m : mkeys (mdel k m) = filter (fun x => x <> k) (mkeys m).
Proof.
  induction m as [|[j w] m IH]; [done|]. unfold mdel, mkeys in *.
  destruct (decide (j = k)) as [->|Hne].
  - rewrite filter_cons_False by (simpl; tauto). rewrite fmap_cons. simpl.
    rewrite filter_cons_False by tauto. done.
  - rewrite filter_cons_True by done. rewrite !fmap_cons. simpl.
    rewrite filter_cons_True by done. by rewrite IH.
Qed.

Lemma NoDup_mdel k m : NoDup (mkeys m) -> NoDup (mkeys (mdel k m)).
Proof. intros Hnd. rewrite mkeys_mdel. by apply list.NoDup_filter. Qed.

Lemma elem_of_mdel p k m : p ∈ mdel k m <-> p.1 <> k /\ p ∈ m.
Proof. unfold mdel. by rewrite list_elem_of_filter. Qed.

Lemma mdel_absent k m : k ∉ mkeys m -> mdel k m = m.
Proof.
  intros Hk. unfold mdel. induction m as [|[j w] m IH]; [done|].
  simpl in Hk. apply not_elem_of_cons in Hk as [Hne Hk].
  rewrite filter_cons_True by done. by rewrite IH.
Qed.

Lemma mset_same k v m : mget k m = Some v -> mset k v m = m.
Proof.
  induction m as [|[j w] m IH]; simpl; [done|]. case_decide; [naive_solver|]. intros Hm. by rewrite IH.
Qed.

Lemma mhas_mset k k' v m : mhas k (mset k' v m) = bool_decide (k = k') || mhas k m.
Proof. unfold mhas. rewrite mget_mset. by case_decide; [rewrite bool_decide_eq_true_2|rewrite bool_decide_eq_false_2]. Qed.

Lemma mdel_all (ks : list K) : forall m, (forall k, k ∈ mkeys m -> k ∈ ks) ->
  fold_left (fun m k => mdel k m) ks m = [].
Proof.
  induction ks as [|k ks IH]; intros m Hm; cbn.
  - destruct m as [|[k v] m]; [done|]. exfalso. apply (not_elem_of_nil k), Hm. left.
  - apply IH. intros k' Hk'. rewrite mkeys_mdel, list_elem_of_filter in Hk'. destruct Hk' as [Hne Hk'].
    apply Hm, elem_of_cons in Hk' as [?|?]; done.
Qed.

Lemma mhas_mdel k k' m : mhas k (mdel k' m) = negb (bool_decide (k = k')) && mhas k m.
Proof. unfold mhas. rewrite mget_mdel. by case_decide; [rewrite bool_decide_eq_true_2|rewrite bool_decide_eq_false_2]. Qed.

Lemma mhas_true k m : mhas k m = true <-> is_Some (mget k m).
Proof. unfold mhas. destruct (mget k m); naive_solver. Qed.
End OMap.

#[export] Hint Resolve NoDup_mset NoDup_mdel : mux.

(** ** ECMAScript [Set]: an insertion-ordered list without duplicates *)
Section OSet.
Context {A : Type} `{EqDecision A}.
Implicit Types (s : list A) (x : A).

Definition sadd x s : list A := if decide (x ∈ s) then s else s ++ [x].
Definition sdel x s : list A := filter (fun y => y <> x) s.
Definition shas x s : bool := bool_decide (x ∈ s).

Lemma elem_of_sadd y x s : y ∈ sadd x s <-> y = x \/ y ∈ s.
Proof.
  unfold sadd. case_decide.
  - naive_solver.
  - rewrite elem_of_app, list_elem_of_singleton. tauto.
Qed.

Lemma elem_of_sdel y x s : y ∈ sdel x s <-> y <> x /\ y ∈ s.
Proof. unfold sdel. by rewrite list_elem_of_filter. Qed.

Lemma NoDup_sadd x s : NoDup s -> NoDup (sadd x s).
Proof.
  intros Hnd. unfold sadd. case_decide; [done|].
  apply list.NoDup_app. repeat split; [done| |apply NoDup_singleton].
  intros y Hy ->%list_elem_of_singleton. done.
Qed.

Lemma NoDup_sdel x s : NoDup s -> NoDup (sdel x s).
Proof. apply list.NoDup_filter. Qed.

Lemma sdel_absent x s : x ∉ s -> sdel x s = s.
Proof.
  unfold sdel. induction s as [|y s IH]; [done|].
  rewrite not_elem_of_cons. intros [Hne Hin]. rewrite filter_cons_True by done. by rewrite IH.
Qed.
End OSet.

#[export] Hint Resolve NoDup_sadd NoDup_sdel : mux.

(** ** Numbers *)

(** [Number.MAX_SAFE_INTEGER]. *)
Definition MAX_SAFE : Z := 9007199254740991.

(** [n++] on an integer-valued Number: past [2^53] the sum rounds back. *)
Definition js_succ (n : Z) : Z := if n <=? MAX_SAFE then n + 1 else n.

Lemma js_succ_safe n : n <= MAX_SAFE -> js_succ n = n + 1.
Proof. unfold js_succ. intros. destruct (Z.leb_spec n MAX_SAFE); lia. Qed.

(** ** Lists *)

(** The longest prefix whose elements satisfy [f], and the rest. *)
Fixpoint span {A} (f : A -> bool) (l : list A) : list A * list A :=
  match l with
  | [] => ([], [])
  | x :: l' => if f x then let '(a, b) := span f l' in (x :: a, b) else ([], l)
  end.

Definition head_not {A} (f : A -> bool) (l : list A) : Prop :=
  match l with [] => True | x :: _ => f x = false end.

Lemma span_app {A} (f : A -> bool) (a b : list A) :
  forallb f a = true -> head_not f b -> span f (a ++ b) = (a, b).
Proof.
  intros Ha Hb. induction a as [|x a IH]; simpl in *.
  - destruct b as [|y b]; simpl in *; [done|]. by rewrite Hb.
  - apply andb_prop in Ha as [-> Ha]. by rewrite IH.
Qed.

Lemma span_length {A} (f : A -> bool) (l a b : list A) :
  span f l = (a, b) -> (length b <= length l)%nat.
Proof.
  revert a b. induction l as [|x l IH]; simpl; intros a b H.
  - by injection H as <- <-.
  - destruct (f x).
    + destruct (span f l) as [a' b'] eqn:E. injection H as <- <-. specialize (IH _ _ eq_refl). lia.
    + injection H as <- <-. done.
Qed.

Lemma forallb_rev {A} (f : A -> bool) l : forallb f (rev l) = forallb f l.
Proof. induction l as [|x l IH]; [done|]. cbn. rewrite forallb_app, IH. cbn. by rewrite andb_true_r, andb_comm. Qed.
