(* ===== verification/JsValue.v ===== *)
(** * ECMAScript values as the connector uses them

    Strings are sequences of UTF-16 code units, Numbers are binary64 with the
    safe integers kept as [Z], and the values [JSON.parse] produces are the
    inductive type [json]; [undefined] is [None] of [option json].  The file
    models the language, so its definitions translate no line of the
    repository: they are what the other files compute with. *)

From Stdlib Require Import SpecFloat.
From Stdlib Require Import Ascii String.
From stdpp Require Import strings.
From S2P Require Export Prelude.

(** ** Strings *)

Abbreviation jstr := (list Z) (only parsing).

(** A string literal of the source; all of them are ASCII. *)
Definition js (s : string) : jstr :=
  List.map (fun c => Z.of_N (N_of_ascii c)) (String.list_ascii_of_string s).

(** The code units of a string. *)
Definition wf_str (s : jstr) : bool := forallb (fun c => (0 <=? c) && (c <? 65536))%bool s.

Definition is_digit (c : Z) : bool := (48 <=? c) && (c <=? 57).

(** ** Decimal digits of a natural number *)

Fixpoint digits_fuel (fuel : nat) (n : Z) : jstr :=
  match fuel with
  | O => []
  | S f => if n <? 10 then [48 + n] else digits_fuel f (n / 10) ++ [48 + n mod 10]
  end.

(** [n] has at most [log2 n + 1] decimal digits, so the fuel is enough. *)
Definition digits (n : Z) : jstr := digits_fuel (S (Z.to_nat (Z.log2 n))) n.

Definition digits_value (l : jstr) : Z := fold_left (fun a c => a * 10 + (c - 48)) l 0.

(** A template literal [`${z}`] with an integer in it. *)
Definition show_int (z : Z) : jstr := if z <? 0 then 45 :: digits (- z) else digits z.

(** ** Numbers *)

(** [NInt z] is the safe integer [z] (never [-0]); every other binary64 value
    is [NDbl]: [-0], fractions, integers past [2^53], infinities and NaN. *)
Inductive num :=
  | NInt (z : Z)
  | NDbl (f : spec_float).

#[export] Instance spec_float_eq_dec : EqDecision spec_float.
Proof. solve_decision. Defined.

#[export] Instance num_eq_dec : EqDecision num.
Proof. solve_decision. Defined.

(** The safe integer a binary64 value denotes, if it does. *)
Definition sf_safe_int (f : spec_float) : option Z :=
  match f with
  | S754_zero false => Some 0
  | S754_finite s m e =>
      let v := if 0 <=? e then Some (Zpos m * 2 ^ e)
               else if Zpos m mod 2 ^ (- e) =? 0 then Some (Zpos m / 2 ^ (- e)) else None in
      match v with
      | Some z => if z <=? MAX_SAFE then Some (if s then - z else z) else None
      | None => None
      end
  | _ => None
  end.

Definition num_of_sf (f : spec_float) : num :=
  match sf_safe_int f with Some z => NInt z | None => NDbl f end.

(** The binary64 value nearest to [m * 10^e] (ties to even). *)
Definition round_dec (neg : bool) (m e : Z) : spec_float :=
  if 0 <=? e then binary_round 53 1024 neg (Z.to_pos (m * 10 ^ e)) 0
  else
    let '(q, e', l) := SFdiv_core_binary 53 1024 m 0 (10 ^ (- e)) 0 in
    binary_round_aux 53 1024 neg q e' l.

(** The Number a decimal literal [(-)m * 10^e] denotes.  A safe integer is
    represented exactly, so it needs no rounding. *)
Definition num_of_dec (neg : bool) (m e : Z) : num :=
  if m =? 0 then (if neg then NDbl (S754_zero true) else NInt 0)
  else
    let exact := if 0 <=? e then Some (m * 10 ^ e)
                 else if m mod 10 ^ (- e) =? 0 then Some (m / 10 ^ (- e)) else None in
    match exact with
    | Some z => if z <=? MAX_SAFE then NInt (if neg then - z else z)
                else num_of_sf (round_dec neg m e)
    | None => num_of_sf (round_dec neg m e)
    end.

(** *** [Number::toString] for the values that are not safe integers *)

(** The finite value as a fraction. *)
Definition sf_frac (m : positive) (e : Z) : Z * Z :=
  if 0 <=? e then (Zpos m * 2 ^ e, 1) else (Zpos m, 2 ^ (- e)).

(** The [n] with [10^(n-1) <= v < 10^n]; a binary64 is above [10^-400]. *)
Definition dec_exponent (p q : Z) : Z :=
  Z.of_nat (List.length (digits (p * 10 ^ 400 / q))) - 400.

(** The nearest [k]-digit decimals that round back to [f], if one does. *)
Definition shortest_at (f : spec_float) (s : bool) (p q n k : Z) : option (Z * Z) :=
  let num := if 0 <=? k - n then p * 10 ^ (k - n) else p in
  let den := if 0 <=? k - n then q else q * 10 ^ (n - k) in
  let lo := num / den in
  let r := num mod den in
  let try d := if bool_decide (round_dec s d (n - k) = f) then Some (d, n - k) else None in
  if 2 * r <=? den
  then match try lo with Some x => Some x | None => try (lo + 1) end
  else match try (lo + 1) with Some x => Some x | None => try lo end.

(** Seventeen digits always suffice for binary64. *)
Fixpoint shortest (fuel : nat) (f : spec_float) (s : bool) (p q n k : Z) : option (Z * Z) :=
  match fuel with
  | O => None
  | S fu => match shortest_at f s p q n k with
            | Some x => Some x
            | None => shortest fu f s p q n (k + 1)
            end
  end.

(** Layout of [digits * 10^e] by the clauses of [Number::toString]. *)
Definition layout (ds : jstr) (e : Z) : jstr :=
  let k := Z.of_nat (List.length ds) in
  let n := k + e in
  if (k <=? n) && (n <=? 21) then ds ++ repeat 48 (Z.to_nat (n - k))
  else if (0 <? n) && (n <=? 21) then take (Z.to_nat n) ds ++ 46 :: drop (Z.to_nat n) ds
  else if (-6 <? n) && (n <=? 0) then js "0." ++ repeat 48 (Z.to_nat (- n)) ++ ds
  else
    let ex := (if 0 <=? n - 1 then js "e+" else js "e-") ++ digits (Z.abs (n - 1)) in
    match ds with
    | [d] => d :: ex
    | d :: ds' => d :: 46 :: ds' ++ ex
    | [] => ex
    end.

(** Drop the trailing zero of a carry ([9.99..] rounded up to [10]). *)
Definition norm_carry (de : Z * Z) : Z * Z :=
  let '(d, e) := de in if d mod 10 =? 0 then (d / 10, e + 1) else (d, e).

Definition num_toString (n : num) : jstr :=
  match n with
  | NInt z => show_int z
  | NDbl (S754_zero _) => js "0"
  | NDbl (S754_infinity s) => if s then js "-Infinity" else js "Infinity"
  | NDbl S754_nan => js "NaN"
  | NDbl (S754_finite s m e as f) =>
      let '(p, q) := sf_frac m e in
      match shortest 17 f s p q (dec_exponent p q) 1 with
      | Some de => let '(d, e') := norm_carry de in
                   (if s then js "-" else []) ++ layout (digits d) e'
      | None => js "NaN"
      end
  end.

(** [Number.isFinite], [Number.isSafeInteger], [Number.isInteger]. *)
Definition num_isFinite (n : num) : bool :=
  match n with
  | NInt _ | NDbl (S754_zero _) | NDbl (S754_finite _ _ _) => true
  | _ => false
  end.

Definition num_isSafeInteger (n : num) : bool :=
  match n with
  | NInt _ | NDbl (S754_zero _) => true
  | _ => false
  end.

(** The key a Number is looked up by in a [Map] with integer keys: [Map] keys
    compare by SameValueZero, and no key of the program is fractional. *)
Definition num_key (n : num) : option Z :=
  match n with
  | NInt z => Some z
  | NDbl (S754_zero _) => Some 0
  | _ => None
  end.

(** [n >= 0] and [n < m] on Numbers, exactly on the safe integers and through
    binary64 comparison otherwise. *)
Definition num_to_sf (n : num) : spec_float :=
  match n with
  | NInt z => match z with
              | Z0 => S754_zero false
              | Zpos p => binary_round 53 1024 false p 0
              | Zneg p => binary_round 53 1024 true p 0
              end
  | NDbl f => f
  end.

Definition num_ltb (a b : num) : bool :=
  match a, b with
  | NInt x, NInt y => x <? y
  | _, _ => SFltb (num_to_sf a) (num_to_sf b)
  end.

Definition num_leb (a b : num) : bool :=
  match a, b with
  | NInt x, NInt y => x <=? y
  | _, _ => SFleb (num_to_sf a) (num_to_sf b)
  end.

(** Strict equality [===] of Numbers. *)
Definition num_eqb (a b : num) : bool :=
  match a, b with
  | NInt x, NInt y => x =? y
  | _, _ => SFeqb (num_to_sf a) (num_to_sf b)
  end.

(** ** Values *)

Inductive json :=
  | JNull
  | JBool (b : bool)
  | JNum (n : num)
  | JStr (s : jstr)
  | JArr (l : list json)
  | JObj (kvs : list (jstr * json)).

Abbreviation jsval := (option json) (only parsing).

(** Property read [v.k], also through optional chaining [v?.k]: the property
    names the program reads are inherited by no JSON value. *)
Definition jget (k : jstr) (v : jsval) : jsval :=
  match v with Some (JObj kvs) => mget k kvs | _ => None end.

(** [Object.prototype.hasOwnProperty.call(v, k)]. *)
Definition hasOwn (k : jstr) (v : jsval) : bool :=
  match v with Some (JObj kvs) => mhas k kvs | _ => false end.

(** Assignment [v.k = x] to an object. *)
Definition jset (k : jstr) (x : json) (v : json) : json :=
  match v with JObj kvs => JObj (mset k x kvs) | _ => v end.

(** Update of the property [k], if the object has it. *)
Definition jupd (k : jstr) (f : json -> json) (v : json) : json :=
  match v with
  | JObj kvs => match mget k kvs with Some x => JObj (mset k (f x) kvs) | None => v end
  | _ => v
  end.

(** ToBoolean. *)
Definition truthy (v : jsval) : bool :=
  match v with
  | None | Some JNull => false
  | Some (JBool b) => b
  | Some (JNum n) =>
      match n with
      | NInt z => negb (z =? 0)
      | NDbl (S754_zero _) | NDbl S754_nan => false
      | NDbl _ => true
      end
  | Some (JStr s) => match s with [] => false | _ => true end
  | Some (JArr _) | Some (JObj _) => true
  end.

(** [v === "literal"] and [typeof v === "string"]. *)
Definition jeq_str (v : jsval) (s : jstr) : bool :=
  match v with Some (JStr t) => bool_decide (t = s) | _ => false end.

Definition jint (z : Z) : json := JNum (NInt z).
Definition jstring (s : string) : json := JStr (js s).

(** An optional property of an object literal, [...(x ? { k: x } : {})]; a
    property whose value is [undefined] is dropped by [JSON.stringify]. *)
Definition opt_field (k : string) (v : jsval) : list (jstr * json) :=
  match v with Some x => [(js k, x)] | None => [] end.

(** The array indices among the property keys. *)
Definition index_key (k : jstr) : option Z :=
  match k with
  | [] => None
  | c :: r =>
      if forallb is_digit k && (negb (c =? 48) || bool_decide (r = []))
         && (Z.of_nat (List.length k) <=? 10) && (digits_value k <=? 4294967294)
      then Some (digits_value k) else None
  end.

(** [OrdinaryOwnPropertyKeys]: array indices ascending, then the other keys in
    creation order.  [key_before a b]: an index [a] goes before the key [b]. *)
Definition key_before (a b : jstr) : bool :=
  match index_key a, index_key b with
  | Some i, Some j => i <? j
  | Some _, None => true
  | None, _ => false
  end.

Fixpoint obj_place (k : jstr) (v : json) (kvs : list (jstr * json)) : list (jstr * json) :=
  match kvs with
  | [] => [(k, v)]
  | (k', v') :: r => if key_before k k' then (k, v) :: kvs else (k', v') :: obj_place k v r
  end.

(** Creation of a property, as [JSON.parse] does for every member it reads. *)
Definition obj_create (k : jstr) (v : json) (kvs : list (jstr * json)) : list (jstr * json) :=
  if mhas k kvs then mset k v kvs else obj_place k v kvs.

(** Induction over a value with hypotheses for the elements and members. *)
Section json_induction.
Variable P : json -> Prop.
Hypothesis Hnull : P JNull.
Hypothesis Hbool : forall b, P (JBool b).
Hypothesis Hnum : forall n, P (JNum n).
Hypothesis Hstr : forall s, P (JStr s).
Hypothesis Harr : forall l, Forall P l -> P (JArr l).
Hypothesis Hobj : forall kvs, Forall (fun p => P p.2) kvs -> P (JObj kvs).

Fixpoint json_nested_ind (v : json) : P v :=
  match v with
  | JNull => Hnull
  | JBool b => Hbool b
  | JNum n => Hnum n
  | JStr s => Hstr s
  | JArr l => Harr l ((fix go l := match l return Forall P l with
                                   | [] => Forall_nil_2 _
                                   | x :: r => Forall_cons_2 _ _ _ (json_nested_ind x) (go r)
                                   end) l)
  | JObj kvs => Hobj kvs ((fix go l := match l return Forall (fun p => P p.2) l with
                                       | [] => Forall_nil_2 _
                                       | x :: r => Forall_cons_2 _ _ _ (json_nested_ind x.2) (go r)
                                       end) kvs)
  end.
End json_induction.

(** ** Facts about decimal digits *)

Lemma digits_value_app a b :
  digits_value (a ++ b) = fold_left (fun a c => a * 10 + (c - 48)) b (digits_value a).
Proof. unfold digits_value. apply fold_left_app. Qed.

Lemma digits_fuel_value fuel n :
  0 <= n < 10 ^ Z.of_nat fuel -> digits_value (digits_fuel fuel n) = n.
Proof.
  revert n. induction fuel as [|f IH]; intros n Hn.
  - change (10 ^ Z.of_nat 0) with 1 in Hn. assert (n = 0) as -> by lia. done.
  - rewrite Nat2Z.inj_succ, Z.pow_succ_r in Hn by lia.
    cbn [digits_fuel]. destruct (Z.ltb_spec n 10).
    + unfold digits_value. cbn [fold_left]. lia.
    + rewrite digits_value_app, IH.
      * cbn [fold_left]. pose proof (Z.div_mod n 10). lia.
      * split; [apply Z.div_pos; lia|]. apply Z.div_lt_upper_bound; lia.
Qed.

Lemma digits_fuel_enough n : 0 <= n -> n < 10 ^ Z.of_nat (S (Z.to_nat (Z.log2 n))).
Proof.
  intros Hn. destruct (Z.eq_dec n 0) as [->|Hne]; [done|].
  pose proof (Z.log2_spec n ltac:(lia)) as [_ H].
  rewrite Nat2Z.inj_succ, Z2Nat.id by apply Z.log2_nonneg.
  eapply Z.lt_le_trans; [exact H|]. apply Z.pow_le_mono_l. lia.
Qed.

Lemma digits_value_digits n : 0 <= n -> digits_value (digits n) = n.
Proof. intros Hn. apply digits_fuel_value. split; [done|by apply digits_fuel_enough]. Qed.

Lemma digits_fuel_digit fuel n : 0 <= n -> forallb is_digit (digits_fuel fuel n) = true.
Proof.
  revert n. induction fuel as [|f IH]; intros n Hn; [done|]. cbn [digits_fuel].
  destruct (Z.ltb_spec n 10).
  - cbn. unfold is_digit. rewrite !andb_true_iff, !Z.leb_le. lia.
  - rewrite forallb_app, IH by (apply Z.div_pos; lia). cbn.
    pose proof (Z.mod_pos_bound n 10). unfold is_digit. rewrite !andb_true_iff, !Z.leb_le. lia.
Qed.

(** No leading zero: the first digit of a positive number is positive. *)
Lemma digits_fuel_head fuel n :
  0 < n < 10 ^ Z.of_nat fuel -> exists d r, digits_fuel fuel n = d :: r /\ 48 < d.
Proof.
  revert n. induction fuel as [|f IH]; intros n Hn.
  - change (10 ^ Z.of_nat 0) with 1 in Hn. lia.
  - rewrite Nat2Z.inj_succ, Z.pow_succ_r in Hn by lia.
    cbn [digits_fuel]. destruct (Z.ltb_spec n 10).
    + exists (48 + n), []. split; [done|lia].
    + destruct (IH (n / 10)) as (d & r & -> & Hd).
      * split; [apply Z.div_str_pos; lia | apply Z.div_lt_upper_bound; lia].
      * simpl. eauto.
Qed.

Lemma digits_head n : 0 < n -> exists d r, digits n = d :: r /\ 48 < d.
Proof. intros Hn. apply digits_fuel_head. split; [done|apply digits_fuel_enough; lia]. Qed.

Lemma digits_digit n : 0 <= n -> forallb is_digit (digits n) = true.
Proof. apply digits_fuel_digit. Qed.

(** ** Timers

    The delay Node.js uses for [setTimeout(f, ms)]: truncated to an integer,
    and 1 when it is below 1, not a number, or above [2^31 - 1]. *)
Definition sf_trunc (f : spec_float) : option Z :=
  match f with
  | S754_zero _ => Some 0
  | S754_finite s m e =>
      let a := if 0 <=? e then Zpos m * 2 ^ e else Zpos m / 2 ^ (- e) in
      Some (if s then - a else a)
  | _ => None
  end.

Definition TIMEOUT_MAX : Z := 2147483647.

Definition node_delay (ms : num) : Z :=
  match (match ms with NInt z => Some z | NDbl f => sf_trunc f end) with
  | Some z => if (1 <=? z) && (z <=? TIMEOUT_MAX) then z else 1
  | None => 1
  end.

Lemma node_delay_bounds ms : 1 <= node_delay ms <= TIMEOUT_MAX.
Proof.
  unfold node_delay, TIMEOUT_MAX.
  destruct (match ms with NInt z => Some z | NDbl f => sf_trunc f end) as [z|]; [|lia].
  destruct (Z.leb_spec 1 z), (Z.leb_spec z 2147483647); cbn; lia.
Qed.
