(* ===== verification/Json.v ===== *)
(** * [JSON.stringify] and [JSON.parse]

    The two built-ins the program serialises every message with, over the
    values of [JsValue]: the printer, a recursive-descent parser whose fuel is
    proved sufficient, and the round trip between them. *)

From Stdlib Require Import SpecFloat String.
From S2P Require Import JsValue.

(** ** Strings *)

Definition hex_digit (d : Z) : Z := if d <? 10 then 48 + d else 87 + d.

(** [\uXXXX], with lowercase hexadecimal digits. *)
Definition esc_unit (c : Z) : jstr :=
  [92; 117; hex_digit (c / 4096 mod 16); hex_digit (c / 256 mod 16);
   hex_digit (c / 16 mod 16); hex_digit (c mod 16)].

Definition is_high (c : Z) : bool := (55296 <=? c) && (c <=? 56319).
Definition is_low (c : Z) : bool := (56320 <=? c) && (c <=? 57343).

(** The code units that have a two-character escape, and their letter. *)
Definition short_escape (c : Z) : option Z :=
  if c =? 8 then Some 98 else if c =? 9 then Some 116 else if c =? 10 then Some 110
  else if c =? 12 then Some 102 else if c =? 13 then Some 114
  else if c =? 34 then Some 34 else if c =? 92 then Some 92 else None.

Definition quote_unit (c : Z) : jstr :=
  match short_escape c with
  | Some l => [92; l]
  | None => if c <? 32 then esc_unit c else [c]
  end.

(** [QuoteJSONString]: a surrogate pair is copied, a lone surrogate escaped. *)
Fixpoint quote_units (s : jstr) : jstr :=
  match s with
  | [] => []
  | c :: r =>
      if is_high c then
        match r with
        | d :: r' => if is_low d then c :: d :: quote_units r' else esc_unit c ++ quote_units r
        | [] => esc_unit c
        end
      else if is_low c then esc_unit c ++ quote_units r
      else quote_unit c ++ quote_units r
  end.

Definition quote (s : jstr) : jstr := 34 :: quote_units s ++ [34].

(** ** [JSON.stringify] *)

Definition print_num (n : num) : jstr :=
  if num_isFinite n then num_toString n else js "null".

Fixpoint join (sep : Z) (ls : list jstr) : jstr :=
  match ls with
  | [] => []
  | [x] => x
  | x :: r => x ++ sep :: join sep r
  end.

Fixpoint stringify (v : json) : jstr :=
  match v with
  | JNull => js "null"
  | JBool true => js "true"
  | JBool false => js "false"
  | JNum n => print_num n
  | JStr s => quote s
  | JArr l => 91 :: join 44 (List.map stringify l) ++ [93]
  | JObj kvs => 123 :: join 44 (List.map (fun p => quote p.1 ++ 58 :: stringify p.2) kvs) ++ [125]
  end.

(** ** [JSON.parse] *)

Definition is_ws (c : Z) : bool := (c =? 32) || (c =? 9) || (c =? 10) || (c =? 13).
Definition skip_ws (s : jstr) : jstr := (span is_ws s).2.

Definition hex_value (c : Z) : option Z :=
  if is_digit c then Some (c - 48)
  else if (97 <=? c) && (c <=? 102) then Some (c - 87)
  else if (65 <=? c) && (c <=? 70) then Some (c - 55)
  else None.

Definition hex4 (a b c d : Z) : option Z :=
  match hex_value a, hex_value b, hex_value c, hex_value d with
  | Some a, Some b, Some c, Some d => Some (a * 4096 + b * 256 + c * 16 + d)
  | _, _, _, _ => None
  end.

Definition unescape (l : Z) : option Z :=
  if l =? 98 then Some 8 else if l =? 116 then Some 9 else if l =? 110 then Some 10
  else if l =? 102 then Some 12 else if l =? 114 then Some 13
  else if l =? 34 then Some 34 else if l =? 92 then Some 92 else if l =? 47 then Some 47
  else None.

Definition push_unit (u : Z) (x : option (jstr * jstr)) : option (jstr * jstr) :=
  match x with Some (s, r) => Some (u :: s, r) | None => None end.

(** The characters of a string literal up to the closing quote. *)
Fixpoint parse_chars (s : jstr) : option (jstr * jstr) :=
  match s with
  | [] => None
  | c :: r =>
      if c =? 34 then Some ([], r)
      else if c =? 92 then
        match r with
        | e :: r1 =>
            if e =? 117 then
              match r1 with
              | h1 :: h2 :: h3 :: h4 :: r2 =>
                  match hex4 h1 h2 h3 h4 with
                  | Some u => push_unit u (parse_chars r2)
                  | None => None
                  end
              | _ => None
              end
            else match unescape e with
                 | Some u => push_unit u (parse_chars r1)
                 | None => None
                 end
        | [] => None
        end
      else if c <? 32 then None
      else push_unit c (parse_chars r)
  end.

(** A number token: [-] int [frac] [exp]; the maximal run of the characters
    of a number is read first and then checked as a whole. *)
Definition is_num_char (c : Z) : bool :=
  is_digit c || (c =? 45) || (c =? 43) || (c =? 46) || (c =? 101) || (c =? 69).

Definition parse_exp (s : jstr) : option Z :=
  match s with
  | [] => Some 0
  | c :: r =>
      if (c =? 101) || (c =? 69) then
        let '(neg, ds) := match r with
                          | d :: r' => if d =? 45 then (true, r') else if d =? 43 then (false, r')
                                       else (false, r)
                          | [] => (false, [])
                          end in
        if forallb is_digit ds && negb (bool_decide (ds = []))
        then Some (if neg then - digits_value ds else digits_value ds) else None
      else None
  end.

Definition int_part_ok (ds : jstr) : bool :=
  match ds with
  | [] => false
  | [_] => true
  | c :: _ => negb (c =? 48)
  end.

Definition parse_num_tok (t : jstr) : option num :=
  let '(neg, t1) := match t with
                    | c :: r => if c =? 45 then (true, r) else (false, t)
                    | [] => (false, [])
                    end in
  let '(ip, t2) := span is_digit t1 in
  if negb (int_part_ok ip) then None
  else
    match t2 with
    | c :: r =>
        if c =? 46 then
          let '(fp, t3) := span is_digit r in
          if bool_decide (fp = []) then None
          else match parse_exp t3 with
               | Some e => Some (num_of_dec neg (digits_value (ip ++ fp)) (e - Z.of_nat (List.length fp)))
               | None => None
               end
        else match parse_exp t2 with
             | Some e => Some (num_of_dec neg (digits_value ip) e)
             | None => None
             end
    | [] => Some (num_of_dec neg (digits_value ip) 0)
    end.

(** [strip p s]: the rest of [s] after the literal [p]. *)
Fixpoint strip (p s : jstr) : option jstr :=
  match p, s with
  | [], _ => Some s
  | a :: p', b :: s' => if a =? b then strip p' s' else None
  | _ :: _, [] => None
  end.

Definition parse_lit (p : string) (v : json) (s : jstr) : option (json * jstr) :=
  match strip (js p) s with Some r => Some (v, r) | None => None end.

(** The three mutually recursive productions; [parse_elems] and
    [parse_members] read the rest of a non-empty array or object. *)
Fixpoint parse_value (fuel : nat) (s : jstr) : option (json * jstr) :=
  match fuel with
  | O => None
  | S f =>
      match skip_ws s with
      | [] => None
      | c :: r =>
          if c =? 123 then
            match skip_ws r with
            | d :: r' => if d =? 125 then Some (JObj [], r')
                         else match parse_members f (d :: r') [] with
                              | Some (kvs, r'') => Some (JObj kvs, r'')
                              | None => None
                              end
            | [] => None
            end
          else if c =? 91 then
            match skip_ws r with
            | d :: r' => if d =? 93 then Some (JArr [], r')
                         else match parse_elems f (d :: r') with
                              | Some (l, r'') => Some (JArr l, r'')
                              | None => None
                              end
            | [] => None
            end
          else if c =? 34 then
            match parse_chars r with Some (t, r') => Some (JStr t, r') | None => None end
          else if c =? 110 then parse_lit "null" JNull (c :: r)
          else if c =? 116 then parse_lit "true" (JBool true) (c :: r)
          else if c =? 102 then parse_lit "false" (JBool false) (c :: r)
          else
            let '(tok, r') := span is_num_char (c :: r) in
            match parse_num_tok tok with Some n => Some (JNum n, r') | None => None end
      end
  end
with parse_elems (fuel : nat) (s : jstr) : option (list json * jstr) :=
  match fuel with
  | O => None
  | S f =>
      match parse_value f s with
      | None => None
      | Some (v, r) =>
          match skip_ws r with
          | c :: r' =>
              if c =? 93 then Some ([v], r')
              else if c =? 44 then
                match parse_elems f r' with Some (l, r'') => Some (v :: l, r'') | None => None end
              else None
          | [] => None
          end
      end
  end
with parse_members (fuel : nat) (s : jstr) (acc : list (jstr * json)) : option (list (jstr * json) * jstr) :=
  match fuel with
  | O => None
  | S f =>
      match skip_ws s with
      | q :: r =>
          if negb (q =? 34) then None else
          match parse_chars r with
          | None => None
          | Some (k, r1) =>
              match skip_ws r1 with
              | c :: r2 =>
                  if negb (c =? 58) then None else
                  match parse_value f r2 with
                  | None => None
                  | Some (v, r3) =>
                      match skip_ws r3 with
                      | d :: r4 =>
                          if d =? 125 then Some (obj_create k v acc, r4)
                          else if d =? 44 then parse_members f r4 (obj_create k v acc)
                          else None
                      | [] => None
                      end
                  end
              | [] => None
              end
          end
      | [] => None
      end
  end.

(** Each production consumes a character before it recurses, so the length of
    the text is enough fuel ([parse_fuel_enough] below). *)
Definition parse (s : jstr) : option json :=
  match parse_value (2 * S (List.length s)) s with
  | Some (v, r) => match skip_ws r with [] => Some v | _ => None end
  | None => None
  end.

(** ** Well-formed values

    What a value must satisfy to survive a round trip: code units in range,
    property keys distinct and in property order, and Numbers other than
    [-0], NaN and the infinities, which [JSON.stringify] does not keep. *)

Definition num_ok (n : num) : bool :=
  match n with
  | NInt z => (- MAX_SAFE <=? z) && (z <=? MAX_SAFE)
  | NDbl _ => num_isFinite n && forallb is_num_char (num_toString n)
              && bool_decide (parse_num_tok (num_toString n) = Some n)
  end.

Fixpoint keys_ok (prev ks : list jstr) : bool :=
  match ks with
  | [] => true
  | k :: r => negb (bool_decide (k ∈ prev)) && forallb (fun p => negb (key_before k p)) prev
              && keys_ok (prev ++ [k]) r
  end.

Fixpoint wf_json (v : json) : bool :=
  match v with
  | JNull | JBool _ => true
  | JNum n => num_ok n
  | JStr s => wf_str s
  | JArr l => forallb wf_json l
  | JObj kvs => keys_ok [] (List.map fst kvs) && forallb (fun p => wf_str p.1 && wf_json p.2) kvs
  end.

(** ** Round trip of strings *)

Ltac unit_cases c :=
  unfold short_escape, unescape in *;
  repeat match goal with |- context [c =? ?k] => destruct (Z.eqb_spec c k); [subst; try done; try lia|] end.

Lemma hex_value_digit d : 0 <= d < 16 -> hex_value (hex_digit d) = Some d.
Proof.
  intros Hd. unfold hex_value, hex_digit, is_digit. destruct (Z.ltb_spec d 10).
  - replace ((48 <=? 48 + d) && (48 + d <=? 57)) with true
      by (symmetry; rewrite andb_true_iff, !Z.leb_le; lia). f_equal. lia.
  - replace ((48 <=? 87 + d) && (87 + d <=? 57)) with false
      by (symmetry; rewrite andb_false_iff, !Z.leb_gt; lia).
    replace ((97 <=? 87 + d) && (87 + d <=? 102)) with true
      by (symmetry; rewrite andb_true_iff, !Z.leb_le; lia). f_equal. lia.
Qed.

Lemma hex4_esc c : 0 <= c < 65536 ->
  hex4 (hex_digit (c / 4096 mod 16)) (hex_digit (c / 256 mod 16))
       (hex_digit (c / 16 mod 16)) (hex_digit (c mod 16)) = Some c.
Proof.
  intros Hc. unfold hex4. rewrite !hex_value_digit by (apply Z.mod_pos_bound; lia).
  f_equal. change 4096 with (16 * 16 * 16). change 256 with (16 * 16).
  rewrite <- !Z.div_div by lia.
  pose proof (Z.div_mod c 16 ltac:(lia)). pose proof (Z.div_mod (c / 16) 16 ltac:(lia)).
  pose proof (Z.div_mod (c / 16 / 16) 16 ltac:(lia)).
  pose proof (Z.div_mod (c / 16 / 16 / 16) 16 ltac:(lia)).
  assert (c / 16 / 16 / 16 / 16 = 0); [|lia].
  rewrite !Z.div_div by lia. apply Z.div_small. lia.
Qed.

Lemma parse_chars_esc c s : 0 <= c < 65536 ->
  parse_chars (esc_unit c ++ s) = push_unit c (parse_chars s).
Proof. intros Hc. unfold esc_unit. cbn -[hex4 Z.div Z.modulo]. by rewrite hex4_esc. Qed.

Lemma parse_chars_unit c s : 0 <= c < 65536 ->
  parse_chars (quote_unit c ++ s) = push_unit c (parse_chars s).
Proof.
  intros Hc. unfold quote_unit, short_escape.
  repeat match goal with |- context [c =? ?k] => destruct (Z.eqb_spec c k); [subst; done|] end.
  destruct (Z.ltb_spec c 32); [by apply parse_chars_esc|].
  cbn [app parse_chars].
  repeat match goal with
  | |- context [c =? ?k] => destruct (Z.eqb_spec c k); [lia|]
  | |- context [c <? ?k] => destruct (Z.ltb_spec c k); [lia|]
  end. done.
Qed.

Lemma parse_chars_raw c s : 93 <= c -> parse_chars (c :: s) = push_unit c (parse_chars s).
Proof.
  intros Hc. cbn [parse_chars].
  repeat match goal with
  | |- context [c =? ?k] => destruct (Z.eqb_spec c k); [lia|]
  | |- context [c <? ?k] => destruct (Z.ltb_spec c k); [lia|]
  end. done.
Qed.

Lemma parse_chars_quote s rest :
  wf_str s = true -> parse_chars (quote_units s ++ 34 :: rest) = Some (s, rest).
Proof.
  remember (List.length s) as n eqn:Hn. revert s Hn.
  induction n as [n IH] using lt_wf_ind. intros s -> Hwf.
  destruct s as [|c r]; [done|]. cbn [wf_str forallb] in Hwf. bprop.
  cbn [quote_units]. destruct (is_high c) eqn:Hh; [destruct r as [|d r']|destruct (is_low c)].
  - rewrite parse_chars_esc by lia. done.
  - cbn [forallb] in *. bprop. unfold is_high in Hh. bprop. destruct (is_low d) eqn:Hl.
    + unfold is_low in Hl. bprop. cbn [app]. rewrite !parse_chars_raw by lia.
      rewrite (IH (List.length r')) by (simpl; try lia; done). done.
    + rewrite <- app_assoc, parse_chars_esc by lia.
      rewrite (IH (List.length (d :: r'))) by (simpl; try lia; try done; unfold wf_str; cbn; 
        rewrite !andb_true_iff, !Z.leb_le, !Z.ltb_lt; auto). done.
  - rewrite <- app_assoc, parse_chars_esc by lia.
    rewrite (IH (List.length r)) by (simpl; try lia; done). done.
  - rewrite <- app_assoc, parse_chars_unit by lia.
    rewrite (IH (List.length r)) by (simpl; try lia; done). done.
Qed.

(** ** Round trip of numbers *)

Lemma span_digits n : 0 <= n -> span is_digit (digits n) = (digits n, []).
Proof.
  intros Hn. rewrite <- (app_nil_r (digits n)) at 1. apply span_app; [|done].
  by apply digits_digit.
Qed.

Lemma int_part_digits n : 0 <= n -> int_part_ok (digits n) = true.
Proof.
  intros Hn. destruct (Z.eq_dec n 0) as [->|Hne]; [done|].
  destruct (digits_head n) as (d & [|d' r] & -> & Hd); [lia|done|].
  cbn. apply negb_true_iff, Z.eqb_neq. lia.
Qed.

Lemma num_of_dec_int neg n : 0 < n <= MAX_SAFE ->
  num_of_dec neg n 0 = NInt (if neg then - n else n).
Proof.
  intros Hn. unfold num_of_dec. destruct (Z.eqb_spec n 0); [lia|].
  change (0 <=? 0) with true. cbn match. rewrite Z.pow_0_r, Z.mul_1_r.
  by destruct (Z.leb_spec n MAX_SAFE); [|lia].
Qed.

Lemma digits_not_minus n : 0 <= n -> exists c r, digits n = c :: r /\ (c =? 45) = false.
Proof.
  intros Hn. pose proof (digits_digit n Hn) as Hd. pose proof (int_part_digits n Hn) as Hi.
  destruct (digits n) as [|c r]; [done|]. exists c, r. split; [done|].
  cbn in Hd. bprop. unfold is_digit in *. bprop. apply Z.eqb_neq. lia.
Qed.

Lemma parse_num_tok_int z : - MAX_SAFE <= z <= MAX_SAFE ->
  parse_num_tok (show_int z) = Some (NInt z).
Proof.
  intros Hz. unfold show_int, parse_num_tok. destruct (Z.ltb_spec z 0).
  - change (45 =? 45) with true. cbn match. rewrite span_digits, int_part_digits by lia.
    rewrite digits_value_digits, num_of_dec_int by lia. cbn. do 2 f_equal. lia.
  - destruct (digits_not_minus z) as (c & r & E & Hc); [done|].
    rewrite E, Hc. rewrite <- E. rewrite span_digits, int_part_digits by lia.
    rewrite digits_value_digits by lia. destruct (Z.eq_dec z 0) as [->|]; [done|].
    rewrite num_of_dec_int by lia. done.
Qed.

Lemma show_int_num_chars z : forallb is_num_char (show_int z) = true.
Proof.
  assert (forall n, 0 <= n -> forallb is_num_char (digits n) = true) as Hd.
  { intros n Hn. pose proof (digits_digit n Hn) as H. revert H. generalize (digits n).
    intros l. induction l as [|c l IH]; [done|]. cbn. intros H. bprop.
    unfold is_num_char. rewrite H. cbn. auto. }
  unfold show_int. destruct (Z.ltb_spec z 0); [cbn|]; apply Hd; lia.
Qed.

(** The token of a well-formed Number is read back. *)
Lemma print_num_ok n : num_ok n = true ->
  forallb is_num_char (print_num n) = true /\ parse_num_tok (print_num n) = Some n.
Proof.
  intros H. unfold print_num. destruct n as [z|f].
  - cbn in H. bprop. cbn [num_isFinite num_toString]. split; [apply show_int_num_chars|].
    apply parse_num_tok_int. lia.
  - unfold num_ok in H. bprop. rewrite H. done.
Qed.

Lemma num_tok_head t n : parse_num_tok t = Some n -> exists c r, t = c :: r.
Proof. destruct t as [|c r]; [done|eauto]. Qed.

(** ** Enough fuel *)

Lemma skip_ws_length s : (List.length (skip_ws s) <= List.length s)%nat.
Proof. unfold skip_ws. destruct (span is_ws s) as [a b] eqn:E. exact (span_length _ _ _ _ E). Qed.

Lemma skip_ws_cons s c r : skip_ws s = c :: r -> (List.length r < List.length s)%nat.
Proof. intros H. pose proof (skip_ws_length s) as L. rewrite H in L. simpl in L. lia. Qed.

Lemma parse_chars_length s t r : parse_chars s = Some (t, r) -> (List.length r < List.length s)%nat.
Proof.
  remember (List.length s) as n eqn:Hn. revert s t r Hn.
  induction n as [n IH] using lt_wf_ind. intros s t r -> H.
  assert (forall u s', (List.length s' < List.length s)%nat ->
     push_unit u (parse_chars s') = Some (t, r) -> (List.length r < List.length s)%nat) as K.
  { intros u s' Hl Hp. unfold push_unit in Hp. destruct (parse_chars s') as [[t' r']|] eqn:E; [|done].
    injection Hp as _ <-. pose proof (IH _ Hl s' t' r' eq_refl E). lia. }
  destruct s as [|c s]; [done|]. cbn [parse_chars] in H.
  repeat (match type of H with
          | context [match ?x with _ => _ end] => destruct x eqn:?
          end; try done); try (eapply K; [|exact H]; simpl; lia).
  injection H as <- <-. simpl. lia.
Qed.

Lemma strip_length p s r : strip p s = Some r -> (List.length r <= List.length s)%nat.
Proof.
  revert s. induction p as [|a p IH]; intros [|b s] H; simpl in *; try done.
  - by injection H as <-.
  - by injection H as <-.
  - destruct (a =? b); [|done]. apply IH in H. lia.
Qed.

Lemma parse_lit_length p v s w r :
  js p <> [] -> parse_lit p v s = Some (w, r) -> (List.length r < List.length s)%nat.
Proof.
  unfold parse_lit. intros Hp H. destruct (strip (js p) s) as [r'|] eqn:E; [|done].
  injection H as _ <-. destruct (js p) as [|a l]; [done|]. destruct s as [|b s]; [done|].
  simpl in *. destruct (a =? b); [|done]. apply strip_length in E. lia.
Qed.

Lemma span_num_length s tok r n : span is_num_char s = (tok, r) -> parse_num_tok tok = Some n ->
  (List.length r < List.length s)%nat.
Proof.
  intros Hs Hn. apply num_tok_head in Hn as (c & t & ->).
  destruct s as [|d s]; [done|]. cbn in Hs. destruct (is_num_char d); [|done].
  destruct (span is_num_char s) as [a b] eqn:E. injection Hs as _ <- <-.
  apply span_length in E. simpl. lia.
Qed.

Lemma parse_consumes fuel :
  (forall s v r, parse_value fuel s = Some (v, r) -> (List.length r < List.length s)%nat) /\
  (forall s l r, parse_elems fuel s = Some (l, r) -> (List.length r < List.length s)%nat) /\
  (forall s a l r, parse_members fuel s a = Some (l, r) -> (List.length r < List.length s)%nat).
Proof.
  induction fuel as [|f (IHv & IHe & IHm)]; [done|]. repeat split.
  - intros s v r H. cbn [parse_value] in H. destruct (skip_ws s) as [|c s1] eqn:E; [done|].
    apply skip_ws_cons in E as L.
    repeat (match type of H with
            | context [if ?b then _ else _] => destruct b eqn:?
            | context [match skip_ws ?x with _ => _ end] => destruct (skip_ws x) as [|d s2] eqn:E2; [done|];
                apply skip_ws_cons in E2
            | context [match parse_members ?a ?b ?c with _ => _ end] =>
                destruct (parse_members a b c) as [[kvs r1]|] eqn:E3; [|done]; apply IHm in E3
            | context [match parse_elems ?a ?b with _ => _ end] =>
                destruct (parse_elems a b) as [[l r1]|] eqn:E3; [|done]; apply IHe in E3
            | context [match parse_chars ?a with _ => _ end] =>
                destruct (parse_chars a) as [[t r1]|] eqn:E3; [|done]; apply parse_chars_length in E3
            | Some _ = Some _ => injection H as _ <-
            end; cbn [List.length] in *; try lia).
    1-3: apply parse_lit_length in H; [simpl in H; lia|done].
    destruct (span is_num_char (c :: s1)) as [tok r1] eqn:E1.
    destruct (parse_num_tok tok) eqn:E3; [|done]. injection H as _ <-.
    eapply span_num_length in E1; [|exact E3]. simpl in E1. lia.
  - intros s l r H. cbn [parse_elems] in H.
    destruct (parse_value f s) as [[v r1]|] eqn:E; [|done]. apply IHv in E.
    destruct (skip_ws r1) as [|c r2] eqn:E1; [done|]. apply skip_ws_cons in E1.
    destruct (c =? 93); [injection H as _ <-; lia|]. destruct (c =? 44); [|done].
    destruct (parse_elems f r2) as [[l' r3]|] eqn:E2; [|done]. injection H as _ <-.
    apply IHe in E2. lia.
  - intros s a l r H. cbn [parse_members] in H.
    destruct (skip_ws s) as [|q s1] eqn:E; [done|]. apply skip_ws_cons in E.
    destruct (negb (q =? 34)); [done|].
    destruct (parse_chars s1) as [[k s2]|] eqn:E1; [|done]. apply parse_chars_length in E1.
    destruct (skip_ws s2) as [|c s3] eqn:E2; [done|]. apply skip_ws_cons in E2.
    destruct (negb (c =? 58)); [done|].
    destruct (parse_value f s3) as [[v s4]|] eqn:E3; [|done]. apply IHv in E3.
    destruct (skip_ws s4) as [|d s5] eqn:E4; [done|]. apply skip_ws_cons in E4.
    destruct (d =? 125); [injection H as _ <-; lia|]. destruct (d =? 44); [|done].
    apply IHm in H. lia.
Qed.

Lemma parse_value_consumes fuel s v r :
  parse_value fuel s = Some (v, r) -> (List.length r < List.length s)%nat.
Proof. apply parse_consumes. Qed.

(** Any two amounts of fuel that cover the text give the same result, so the
    bounded parser is the unbounded one. *)
Lemma parse_fuel_irrelevant n :
  (forall s f1 f2, (List.length s <= n)%nat -> (2 * List.length s < f1)%nat -> (2 * List.length s < f2)%nat ->
     parse_value f1 s = parse_value f2 s) /\
  (forall s f1 f2, (List.length s <= n)%nat -> (2 * List.length s + 1 < f1)%nat -> (2 * List.length s + 1 < f2)%nat ->
     parse_elems f1 s = parse_elems f2 s) /\
  (forall s a f1 f2, (List.length s <= n)%nat -> (2 * List.length s + 1 < f1)%nat -> (2 * List.length s + 1 < f2)%nat ->
     parse_members f1 s a = parse_members f2 s a).
Proof.
  induction n as [n IH] using lt_wf_ind.
  assert (forall s f1 f2, (List.length s <= n)%nat -> (2 * List.length s < f1)%nat -> (2 * List.length s < f2)%nat ->
     parse_value f1 s = parse_value f2 s) as Hv.
  { intros s [|f1] [|f2] Hn H1 H2; try lia. cbn [parse_value].
    destruct (skip_ws s) as [|c s1] eqn:E; [done|]. apply skip_ws_cons in E.
    destruct (IH (List.length s1) ltac:(lia)) as (_ & IHe & IHm).
    destruct (skip_ws s1) as [|d s2] eqn:E1; [done|]. apply skip_ws_cons in E1.
    rewrite (IHm (d :: s2) [] f1 f2), (IHe (d :: s2) f1 f2) by (simpl; lia). done. }
  split; [done|]. split.
  - intros s [|f1] [|f2] Hn H1 H2; try lia. cbn [parse_elems].
    rewrite (Hv s f1 f2) by lia.
    destruct (parse_value f2 s) as [[v r]|] eqn:E; [|done]. apply parse_value_consumes in E.
    destruct (skip_ws r) as [|c r1] eqn:E1; [done|]. apply skip_ws_cons in E1.
    destruct (IH (List.length r1) ltac:(lia)) as (_ & IHe & _).
    rewrite (IHe r1 f1 f2) by lia. done.
  - intros s a [|f1] [|f2] Hn H1 H2; try lia. cbn [parse_members].
    destruct (skip_ws s) as [|q s1] eqn:E; [done|]. apply skip_ws_cons in E.
    destruct (negb (q =? 34)); [done|].
    destruct (parse_chars s1) as [[k s2]|] eqn:E1; [|done]. apply parse_chars_length in E1.
    destruct (skip_ws s2) as [|c s3] eqn:E2; [done|]. apply skip_ws_cons in E2.
    destruct (negb (c =? 58)); [done|]. rewrite (Hv s3 f1 f2) by lia.
    destruct (parse_value f2 s3) as [[v s4]|] eqn:E3; [|done]. apply parse_value_consumes in E3.
    destruct (skip_ws s4) as [|d s5] eqn:E4; [done|]. apply skip_ws_cons in E4.
    destruct (IH (List.length s5) ltac:(lia)) as (_ & _ & IHm).
    rewrite (IHm s5 _ f1 f2) by lia. done.
Qed.

Lemma parse_fuel_enough s fuel :
  (2 * List.length s < fuel)%nat -> parse_value fuel s = parse_value (2 * S (List.length s)) s.
Proof. intros H. apply (parse_fuel_irrelevant (List.length s)); lia. Qed.

(** ** Round trip of values *)

Definition delim (s : jstr) : Prop := head_not is_num_char s.

(** [reads v]: after [stringify v] the parser continues with the rest. *)
Definition reads (v : json) : Prop :=
  exists n, forall fuel rest, (n <= fuel)%nat -> delim rest ->
    parse_value fuel (stringify v ++ rest) = Some (v, rest).

(** The first character of a serialised value. *)
Definition starts (v : json) : Prop :=
  exists c r, stringify v = c :: r /\ is_ws c = false /\ c <> 93.

Lemma num_char_other c : is_num_char c = true ->
  is_ws c = false /\ c <> 93 /\ (c =? 123) = false /\ (c =? 91) = false /\ (c =? 34) = false /\
  (c =? 110) = false /\ (c =? 116) = false /\ (c =? 102) = false.
Proof.
  unfold is_num_char, is_ws, is_digit.
  rewrite !orb_true_iff, !andb_true_iff, !orb_false_iff, !Z.leb_le, !Z.eqb_eq, !Z.eqb_neq. lia.
Qed.

Lemma print_num_head n : num_ok n = true ->
  exists c r, print_num n = c :: r /\ is_num_char c = true.
Proof.
  intros [Hc Ht]%print_num_ok. apply num_tok_head in Ht as (c & r & E). rewrite E in *.
  exists c, r. cbn in Hc. bprop. done.
Qed.

Lemma wf_starts v : wf_json v = true -> starts v.
Proof.
  destruct v as [|[]|n|s|l|kvs]; intros H; unfold starts; try (cbn; eauto; done).
  cbn in H. apply print_num_head in H as (c & r & E & Hc). exists c, r.
  apply num_char_other in Hc. by split_and!; [exact E| |]; apply Hc.
Qed.

Lemma skip_ws_nonws c r : is_ws c = false -> skip_ws (c :: r) = c :: r.
Proof. intros H. unfold skip_ws. cbn. by rewrite H. Qed.

Lemma reads_num n : num_ok n = true -> reads (JNum n).
Proof.
  intros Hok. exists 1%nat. intros [|fuel] rest Hf Hd; [lia|].
  pose proof (print_num_ok n Hok) as [Hc Ht]. pose proof (print_num_head n Hok) as (c & r & E & Hcc).
  apply num_char_other in Hcc as (Hw & _ & H1 & H2 & H3 & H4 & H5 & H6).
  cbn [stringify parse_value]. rewrite E. cbn [app]. rewrite skip_ws_nonws by done.
  rewrite H1, H2, H3, H4, H5, H6. rewrite (app_comm_cons r rest c), <- E, span_app by done.
  by rewrite Ht.
Qed.

Lemma reads_str s : wf_str s = true -> reads (JStr s).
Proof.
  intros Hs. exists 1%nat. intros [|fuel] rest Hf Hd; [lia|].
  cbn [stringify quote app parse_value]. rewrite skip_ws_nonws by done.
  change (34 =? 123) with false. change (34 =? 91) with false. change (34 =? 34) with true. cbn match.
  rewrite <- app_assoc. cbn [app]. by rewrite parse_chars_quote.
Qed.

(** [parse_elems] reads the elements printed by [join]. *)
Lemma reads_elems l : Forall reads l -> Forall starts l -> l <> [] ->
  exists n, forall fuel rest, (n <= fuel)%nat ->
    parse_elems fuel (join 44 (List.map stringify l) ++ 93 :: rest) = Some (l, rest).
Proof.
  induction l as [|v l IH]; [done|]. intros [Hv Hl]%list.Forall_cons [Sv Sl]%list.Forall_cons _.
  destruct Hv as [n Hv]. destruct l as [|w l].
  - exists (S n). intros [|fuel] rest Hf; [lia|]. cbn [List.map join parse_elems].
    rewrite Hv by (lia || done). by rewrite skip_ws_nonws.
  - destruct IH as [m IH]; [done..|]. exists (S (n + m)). intros [|fuel] rest Hf; [lia|].
    cbn [List.map join parse_elems] in *. rewrite <- app_assoc. cbn [app].
    rewrite Hv by (lia || done). rewrite skip_ws_nonws by done.
    change (44 =? 93) with false. change (44 =? 44) with true. cbn match.
    rewrite IH by lia. done.
Qed.

Lemma reads_arr l : Forall reads l -> Forall starts l -> reads (JArr l).
Proof.
  intros Hl Sl. destruct l as [|v l].
  - exists 1%nat. intros [|fuel] rest Hf Hd; [lia|]. done.
  - destruct (reads_elems (v :: l)) as [n Hn]; [done..|]. exists (S n).
    intros [|fuel] rest Hf Hd; [lia|]. cbn [stringify].
    apply list.Forall_cons in Sl as [(c & r & E & Hw & Hc) _].
    rewrite <- app_comm_cons, <- app_assoc. cbn [app parse_value]. rewrite skip_ws_nonws by done.
    change (91 =? 123) with false. change (91 =? 91) with true. cbn match.
    specialize (Hn fuel rest ltac:(lia)). 
    assert (exists r', join 44 (List.map stringify (v :: l)) ++ 93 :: rest = c :: r') as [r' E'].
    { cbn [List.map]. rewrite E. destruct l; cbn; eauto. }
    rewrite E' in *. rewrite skip_ws_nonws by done.
    destruct (Z.eqb_spec c 93); [done|]. by rewrite Hn.
Qed.

Lemma obj_place_last k v kvs :
  forallb (fun p => negb (key_before k p)) (List.map fst kvs) = true ->
  obj_place k v kvs = kvs ++ [(k, v)].
Proof.
  induction kvs as [|[k' v'] kvs IH]; [done|]. cbn. intros H. bprop. rewrite H. by rewrite IH.
Qed.

Lemma obj_create_last k v kvs :
  k ∉ List.map fst kvs -> forallb (fun p => negb (key_before k p)) (List.map fst kvs) = true ->
  obj_create k v kvs = kvs ++ [(k, v)].
Proof.
  intros Hk Hb. unfold obj_create, mhas. assert (mget k kvs = None) as ->.
  { apply mget_None_keys. exact Hk. } by apply obj_place_last.
Qed.

Ltac norm_app := repeat progress (rewrite <- ?app_assoc; cbn [app]).

Lemma reads_members kvs : forall acc,
  kvs <> [] -> keys_ok (List.map fst acc) (List.map fst kvs) = true ->
  Forall (fun p => reads p.2 /\ wf_str p.1 = true) kvs ->
  exists n, forall fuel rest, (n <= fuel)%nat ->
    parse_members fuel (join 44 (List.map (fun p => quote p.1 ++ 58 :: stringify p.2) kvs) ++ 125 :: rest) acc
    = Some (acc ++ kvs, rest).
Proof.
  induction kvs as [|[k v] kvs IH]; [done|]. intros acc _ Hk [[[n Hv] Hs] Hl]%list.Forall_cons.
  cbn in Hk. bprop. cbn [fst snd] in *.
  assert (obj_create k v acc = acc ++ [(k, v)]) as Hc by (by apply obj_create_last).
  destruct kvs as [|p kvs].
  - exists (S n). intros [|fuel] rest Hf; [lia|]. cbn [List.map join parse_members fst snd].
    unfold quote. norm_app. rewrite skip_ws_nonws by done.
    change (negb (34 =? 34)) with false. cbn match. norm_app.
    rewrite parse_chars_quote by done. cbn [app]. rewrite skip_ws_nonws by done.
    change (negb (58 =? 58)) with false. cbn match. rewrite Hv by (lia || done).
    rewrite skip_ws_nonws by done. by rewrite Hc.
  - destruct (IH (acc ++ [(k, v)])) as [m Hm]; [done| |done|].
    { rewrite List.map_app. done. }
    exists (S (n + m)). intros [|fuel] rest Hf; [lia|].
    set (f := fun p => quote p.1 ++ 58 :: stringify p.2) in *.
    change (join 44 (List.map f ((k, v) :: p :: kvs)))
      with (f (k, v) ++ 44 :: join 44 (List.map f (p :: kvs))).
    clear IH. generalize dependent (join 44 (List.map f (p :: kvs))). intros J Hm.
    subst f. cbn [parse_members fst snd]. unfold quote at 1. norm_app. rewrite skip_ws_nonws by done.
    change (negb (34 =? 34)) with false. cbn match. norm_app.
    rewrite parse_chars_quote by done. cbn [app]. rewrite skip_ws_nonws by done.
    change (negb (58 =? 58)) with false. cbn match.
    norm_app. rewrite Hv by (lia || done).
    rewrite skip_ws_nonws by done. change (44 =? 125) with false. change (44 =? 44) with true. cbn match.
    rewrite Hc, Hm by lia. by rewrite <- (app_assoc acc).
Qed.

Lemma reads_obj kvs : keys_ok [] (List.map fst kvs) = true ->
  Forall (fun p => reads p.2 /\ wf_str p.1 = true) kvs -> reads (JObj kvs).
Proof.
  intros Hk Hl. destruct kvs as [|[k v] kvs].
  - exists 1%nat. intros [|fuel] rest Hf Hd; [lia|]. done.
  - destruct (reads_members ((k, v) :: kvs) []) as [n Hn]; [done..|]. exists (S n).
    intros [|fuel] rest Hf Hd; [lia|]. specialize (Hn fuel rest ltac:(lia)). cbn [stringify].
    rewrite <- app_comm_cons, <- app_assoc. cbn [app parse_value]. rewrite skip_ws_nonws by done.
    change (123 =? 123) with true. cbn match.
    assert (exists r', join 44 (List.map (fun p => quote p.1 ++ 58 :: stringify p.2) ((k, v) :: kvs))
      ++ 125 :: rest = 34 :: r') as [r' E'] by (destruct kvs; cbn; eauto).
    rewrite E' in *. rewrite skip_ws_nonws by done. change (34 =? 125) with false. cbn match.
    by rewrite Hn.
Qed.

Lemma wf_reads v : wf_json v = true -> reads v.
Proof.
  induction v as [|b|n|s|l IH|kvs IH] using json_nested_ind; intros H.
  - exists 1%nat. intros [|fuel] rest Hf Hd; [lia|]. done.
  - exists 1%nat. intros [|fuel] rest Hf Hd; [lia|]. by destruct b.
  - by apply reads_num.
  - by apply reads_str.
  - cbn in H. rewrite forallb_forall in H.
    apply reads_arr; apply List.Forall_forall; intros x Hx.
    + rewrite List.Forall_forall in IH. auto.
    + apply wf_starts. auto.
  - cbn in H. bprop. apply reads_obj; [done|].
    match goal with H : forallb _ kvs = true |- _ => rewrite forallb_forall in H; rename H into Hk end.
    rewrite List.Forall_forall in *. intros p Hp. specialize (Hk p Hp). bprop. split; [|done]. auto.
Qed.

Theorem parse_stringify v : wf_json v = true -> parse (stringify v) = Some v.
Proof.
  intros [n Hn]%wf_reads. unfold parse.
  set (s := stringify v) in *. rewrite <- (parse_fuel_enough s (n + 2 * S (List.length s))) by lia.
  specialize (Hn (n + 2 * S (List.length s))%nat [] ltac:(lia) I).
  rewrite app_nil_r in Hn. fold s in Hn. by rewrite Hn.
Qed.
