(* ===== verification/Utf8.v ===== *)
(** * UTF-8, as [Buffer.from(s, "utf8")] and [buffer.toString("utf8")]

    Encoding replaces a lone surrogate by U+FFFD; decoding replaces every
    maximal invalid part by U+FFFD.  Text printed by [JSON.stringify] has no
    lone surrogate, so it survives the trip through bytes. *)

From Stdlib Require Import String.
From S2P Require Import JsValue Json.

Definition FFFD : Z := 65533.

Definition cp_of_pair (h l : Z) : Z := 65536 + (h - 55296) * 1024 + (l - 56320).

Definition enc3 (c : Z) : list Z := [224 + c / 4096; 128 + c / 64 mod 64; 128 + c mod 64].
Definition enc4 (c : Z) : list Z :=
  [240 + c / 262144; 128 + c / 4096 mod 64; 128 + c / 64 mod 64; 128 + c mod 64].

Fixpoint utf8_encode (s : jstr) : list Z :=
  match s with
  | [] => []
  | c :: r =>
      if c <? 128 then c :: utf8_encode r
      else if c <? 2048 then [192 + c / 64; 128 + c mod 64] ++ utf8_encode r
      else if is_high c then
        match r with
        | d :: r' => if is_low d then enc4 (cp_of_pair c d) ++ utf8_encode r'
                     else enc3 FFFD ++ utf8_encode r
        | [] => enc3 FFFD
        end
      else if is_low c then enc3 FFFD ++ utf8_encode r
      else enc3 c ++ utf8_encode r
  end.

Definition cont (b : Z) : bool := (128 <=? b) && (b <=? 191).

(** Bounds of the second byte, which exclude overlong forms and surrogates. *)
Definition second_ok (b c : Z) : bool :=
  ((if b =? 224 then 160 else if b =? 240 then 144 else 128) <=? c)
  && (c <=? (if b =? 237 then 159 else if b =? 244 then 143 else 191)).

Definition units_of_cp (c : Z) : jstr :=
  if c <? 65536 then [c] else [55296 + (c - 65536) / 1024; 56320 + (c - 65536) mod 1024].

Fixpoint utf8_decode (l : list Z) : jstr :=
  match l with
  | [] => []
  | b :: r =>
      if b <? 128 then b :: utf8_decode r
      else if (194 <=? b) && (b <=? 223) then
        match r with
        | c1 :: r1 => if cont c1 then ((b - 192) * 64 + (c1 - 128)) :: utf8_decode r1
                      else FFFD :: utf8_decode r
        | [] => [FFFD]
        end
      else if (224 <=? b) && (b <=? 239) then
        match r with
        | c1 :: r1 =>
            if second_ok b c1 then
              match r1 with
              | c2 :: r2 =>
                  if cont c2 then ((b - 224) * 4096 + (c1 - 128) * 64 + (c2 - 128)) :: utf8_decode r2
                  else FFFD :: utf8_decode r1
              | [] => [FFFD]
              end
            else FFFD :: utf8_decode r
        | [] => [FFFD]
        end
      else if (240 <=? b) && (b <=? 244) then
        match r with
        | c1 :: r1 =>
            if second_ok b c1 then
              match r1 with
              | c2 :: r2 =>
                  if cont c2 then
                    match r2 with
                    | c3 :: r3 =>
                        if cont c3 then
                          units_of_cp ((b - 240) * 262144 + (c1 - 128) * 4096 + (c2 - 128) * 64 + (c3 - 128))
                          ++ utf8_decode r3
                        else FFFD :: utf8_decode r2
                    | [] => [FFFD]
                    end
                  else FFFD :: utf8_decode r1
              | [] => [FFFD]
              end
            else FFFD :: utf8_decode r
        | [] => [FFFD]
        end
      else FFFD :: utf8_decode r
  end.

(** No lone surrogate. *)
Fixpoint paired (s : jstr) : bool :=
  match s with
  | [] => true
  | c :: r => if is_high c then match r with d :: r' => is_low d && paired r' | [] => false end
              else negb (is_low c) && paired r
  end.

(** ** Bytes *)

Definition is_byte (b : Z) : bool := (0 <=? b) && (b <? 256).

#[local] Ltac Zify.zify_post_hook ::= Z.to_euclidean_division_equations.

#[local] Ltac btest :=
  repeat match goal with
  | |- context [?a <? ?b] =>
      first [ replace (a <? b) with true by (symmetry; apply Z.ltb_lt; lia)
            | replace (a <? b) with false by (symmetry; apply Z.ltb_ge; lia) ]
  | |- context [?a <=? ?b] =>
      first [ replace (a <=? b) with true by (symmetry; apply Z.leb_le; lia)
            | replace (a <=? b) with false by (symmetry; apply Z.leb_gt; lia) ]
  | |- context [(true && ?x)%bool] => rewrite (andb_true_l x)
  | |- context [(false && ?x)%bool] => rewrite (andb_false_l x)
  end; cbn match.

Lemma decode_1 c r : 0 <= c < 128 -> utf8_decode (c :: r) = c :: utf8_decode r.
Proof. intros H. cbn [utf8_decode]. btest. done. Qed.

Lemma decode_2 c r : 128 <= c < 2048 ->
  utf8_decode ([192 + c / 64; 128 + c mod 64] ++ r) = c :: utf8_decode r.
Proof.
  intros H. cbn [app utf8_decode]. unfold cont. btest. f_equal. lia.
Qed.

Lemma second_ok_3 c : 2048 <= c < 65536 -> ~ 55296 <= c < 57344 ->
  second_ok (224 + c / 4096) (128 + c / 64 mod 64) = true.
Proof.
  intros H1 H2. unfold second_ok. apply andb_true_iff. rewrite !Z.leb_le.
  repeat match goal with |- context [?a =? ?b] => destruct (Z.eqb_spec a b) end; lia.
Qed.

Lemma decode_3 c r : 2048 <= c < 65536 -> ~ 55296 <= c < 57344 ->
  utf8_decode (enc3 c ++ r) = c :: utf8_decode r.
Proof.
  intros H1 H2. unfold enc3. cbn [app utf8_decode].
  rewrite second_ok_3 by done. unfold cont. btest. f_equal. lia.
Qed.

Lemma second_ok_4 c : 65536 <= c < 1114112 ->
  second_ok (240 + c / 262144) (128 + c / 4096 mod 64) = true.
Proof.
  intros H1. unfold second_ok. apply andb_true_iff. rewrite !Z.leb_le.
  repeat match goal with |- context [?a =? ?b] => destruct (Z.eqb_spec a b) end; lia.
Qed.

Lemma decode_4 c r : 65536 <= c < 1114112 ->
  utf8_decode (enc4 c ++ r) = units_of_cp c ++ utf8_decode r.
Proof.
  intros H1. unfold enc4. cbn [app utf8_decode].
  rewrite second_ok_4 by done. unfold cont. btest. do 2 f_equal. lia.
Qed.

Lemma units_of_pair h l : is_high h = true -> is_low l = true ->
  65536 <= cp_of_pair h l < 1114112 /\ units_of_cp (cp_of_pair h l) = [h; l].
Proof.
  unfold is_high, is_low, cp_of_pair, units_of_cp. intros Hh Hl. bprop. split; [lia|].
  btest. f_equal; [lia|]. f_equal. lia.
Qed.

Lemma utf8_roundtrip s : wf_str s = true -> paired s = true -> utf8_decode (utf8_encode s) = s.
Proof.
  remember (List.length s) as n eqn:Hn. revert s Hn.
  induction n as [n IH] using lt_wf_ind. intros s -> Hwf Hp.
  destruct s as [|c r]; [done|]. cbn [wf_str forallb paired utf8_encode] in *. bprop.
  assert (forall r', (List.length r' < S (List.length r))%nat -> wf_str r' = true -> paired r' = true ->
    utf8_decode (utf8_encode r') = r') as K by (intros; eapply IH; [|reflexivity|..]; done).
  clear IH. destruct (Z.ltb_spec c 128).
  { rewrite decode_1 by lia. f_equal. apply K; [simpl; lia|done|].
    destruct (is_high c) eqn:E; [unfold is_high in E; bprop; lia|]. bprop. done. }
  destruct (Z.ltb_spec c 2048).
  { rewrite decode_2 by lia. f_equal. apply K; [simpl; lia|done|].
    destruct (is_high c) eqn:E; [unfold is_high in E; bprop; lia|]. bprop. done. }
  destruct (is_high c) eqn:E.
  - destruct r as [|d r']; [done|]. cbn [forallb] in *. bprop.
    match goal with H : is_low d = true |- _ => rename H into Hl end. rewrite Hl.
    destruct (units_of_pair c d E Hl) as [Hr Hu]. rewrite decode_4, Hu by done. cbn [app].
    do 2 f_equal. apply K; [simpl; lia|done..].
  - bprop. match goal with H : is_low c = false |- _ => rename H into Hl end. rewrite Hl.
    rewrite decode_3 by (unfold is_high, is_low in *; 
      rewrite ?andb_false_iff, ?Z.leb_gt in *; lia).
    f_equal. apply K; [simpl; lia|done..].
Qed.

(** ** Printed JSON has no lone surrogate *)

Lemma paired_app a b : paired a = true -> paired b = true -> paired (a ++ b) = true.
Proof.
  remember (List.length a) as n eqn:Hn. revert a Hn.
  induction n as [n IH] using lt_wf_ind. intros a -> Ha Hb.
  destruct a as [|c r]; [done|]. cbn [paired app] in *. destruct (is_high c).
  - destruct r as [|d r']; [done|]. cbn [app]. bprop. rewrite H. cbn.
    eapply IH; [|reflexivity|..]; [simpl; lia|done..].
  - bprop. rewrite H. cbn. eapply IH; [|reflexivity|..]; [simpl; lia|done..].
Qed.

(** Units below the surrogates. *)
Definition low_unit (c : Z) : bool := c <? 55296.

Lemma paired_low s : forallb low_unit s = true -> paired s = true.
Proof.
  induction s as [|c r IH]; [done|]. cbn [forallb paired]. unfold low_unit at 1. intros H. bprop.
  unfold is_high, is_low. btest. cbn. by apply IH.
Qed.

Lemma hex_digit_low d : 0 <= d < 16 -> low_unit (hex_digit d) = true.
Proof. intros. unfold low_unit, hex_digit. destruct (d <? 10); apply Z.ltb_lt; lia. Qed.

Lemma esc_unit_low c : forallb low_unit (esc_unit c) = true.
Proof.
  unfold esc_unit. cbn [forallb]. rewrite !hex_digit_low by (apply Z.mod_pos_bound; lia). done.
Qed.

Lemma quote_unit_paired c : is_high c = false -> is_low c = false -> paired (quote_unit c) = true.
Proof.
  intros Hh Hl. unfold quote_unit, short_escape.
  repeat match goal with |- context [c =? ?k] => destruct (Z.eqb_spec c k); [done|] end.
  destruct (c <? 32); [apply paired_low, esc_unit_low|]. cbn. rewrite Hh, Hl. done.
Qed.

Lemma quote_units_paired s : paired (quote_units s) = true.
Proof.
  remember (List.length s) as n eqn:Hn. revert s Hn.
  induction n as [n IH] using lt_wf_ind. intros s ->.
  assert (forall r', (List.length r' < List.length s)%nat -> paired (quote_units r') = true) as K
    by (intros; eapply IH; [|reflexivity]; done). clear IH.
  destruct s as [|c r]; [done|]. cbn [quote_units]. destruct (is_high c) eqn:Hh.
  - destruct r as [|d r']; [apply paired_low, esc_unit_low|]. destruct (is_low d) eqn:Hl.
    + cbn [paired]. rewrite Hh, Hl. cbn. apply K. simpl. lia.
    + apply paired_app; [apply paired_low, esc_unit_low|]. apply K. simpl. lia.
  - destruct (is_low c) eqn:Hl.
    + apply paired_app; [apply paired_low, esc_unit_low|]. apply K. simpl. lia.
    + apply paired_app; [by apply quote_unit_paired|]. apply K. simpl. lia.
Qed.

Lemma quote_paired s : paired (quote s) = true.
Proof.
  unfold quote. cbn [paired]. change (is_high 34) with false. change (is_low 34) with false. cbn.
  by apply paired_app; [apply quote_units_paired|].
Qed.

Lemma join_paired sep ls : low_unit sep = true -> Forall (fun s => paired s = true) ls ->
  paired (join sep ls) = true.
Proof.
  intros Hs. induction 1 as [|x ls Hx Hl IH]; [done|]. destruct ls as [|y ls]; [done|].
  cbn [join]. apply paired_app; [done|]. change (sep :: ?l) with ([sep] ++ l).
  apply paired_app; [|done]. apply paired_low. cbn. by rewrite Hs.
Qed.

Lemma num_chars_paired t : forallb is_num_char t = true -> paired t = true.
Proof.
  intros H. apply paired_low. rewrite forallb_forall in *. intros c Hc. specialize (H c Hc).
  unfold is_num_char, is_digit, low_unit in *.
  rewrite !orb_true_iff, !andb_true_iff, !Z.leb_le, !Z.eqb_eq in H. apply Z.ltb_lt. lia.
Qed.

Lemma stringify_paired v : wf_json v = true -> paired (stringify v) = true.
Proof.
  induction v as [|[]|n|s|l IH|kvs IH] using json_nested_ind; intros H; try done.
  - by apply num_chars_paired, print_num_ok.
  - apply quote_paired.
  - cbn [stringify wf_json] in *. change (91 :: ?x) with ([91] ++ x).
    do 2 (apply paired_app; [try done|try done]). apply join_paired; [done|].
    rewrite forallb_forall in H. rewrite List.Forall_forall in *. intros x Hx.
    apply in_map_iff in Hx as (y & <- & Hy). auto.
  - cbn [stringify wf_json] in *. bprop. change (123 :: ?x) with ([123] ++ x).
    do 2 (apply paired_app; [try done|try done]). apply join_paired; [done|].
    match goal with H : forallb _ kvs = true |- _ => rewrite forallb_forall in H; rename H into Hk end.
    rewrite List.Forall_forall in *. intros x Hx. apply in_map_iff in Hx as (y & <- & Hy).
    specialize (Hk y Hy). bprop. apply paired_app; [apply quote_paired|].
    change (58 :: ?x) with ([58] ++ x). apply paired_app; [done|]. auto.
Qed.

(** ** Printed JSON is made of code units *)

Lemma wf_str_app a b : wf_str (a ++ b) = wf_str a && wf_str b.
Proof. apply forallb_app. Qed.

Lemma esc_unit_wf c : wf_str (esc_unit c) = true.
Proof.
  assert (forall d, 0 <= d < 16 -> (0 <=? hex_digit d) && (hex_digit d <? 65536) = true) as Hd.
  { intros d Hd. unfold hex_digit. rewrite andb_true_iff, Z.leb_le, Z.ltb_lt.
    destruct (d <? 10); lia. }
  unfold esc_unit, wf_str. cbn [forallb]. rewrite !Hd by (apply Z.mod_pos_bound; lia). done.
Qed.

Lemma quote_units_wf s : wf_str s = true -> wf_str (quote_units s) = true.
Proof.
  remember (List.length s) as n eqn:Hn. revert s Hn.
  induction n as [n IH] using lt_wf_ind. intros s -> Hs.
  assert (forall r', (List.length r' < List.length s)%nat -> wf_str r' = true ->
    wf_str (quote_units r') = true) as K by (intros; eapply IH; [|reflexivity|]; done). clear IH.
  destruct s as [|c r]; [done|]. cbn [quote_units]. cbn [wf_str forallb] in Hs. bprop.
  destruct (is_high c) eqn:Hh; [destruct r as [|d r']; [apply esc_unit_wf|destruct (is_low d)]|destruct (is_low c)].
  - cbn [forallb] in *. bprop. change (c :: d :: ?x) with ([c; d] ++ x).
    rewrite wf_str_app, (K r') by (simpl; try lia; done). rewrite andb_true_r.
    cbn. rewrite !andb_true_iff, !Z.leb_le, !Z.ltb_lt. lia.
  - rewrite wf_str_app, esc_unit_wf. apply K; [simpl; lia|done].
  - rewrite wf_str_app, esc_unit_wf. apply K; [simpl; lia|done].
  - rewrite wf_str_app, K by (simpl; try lia; done). rewrite andb_true_r.
    unfold quote_unit, short_escape.
    repeat match goal with |- context [c =? ?k] => destruct (Z.eqb_spec c k); [done|] end.
    destruct (c <? 32); [apply esc_unit_wf|]. cbn. rewrite !andb_true_iff, !Z.leb_le, !Z.ltb_lt. lia.
Qed.

Lemma quote_wf s : wf_str s = true -> wf_str (quote s) = true.
Proof.
  intros Hs. unfold quote. change (34 :: ?x) with ([34] ++ x).
  rewrite !wf_str_app, quote_units_wf by done. done.
Qed.

Lemma join_wf sep ls : 0 <= sep < 65536 -> Forall (fun s => wf_str s = true) ls ->
  wf_str (join sep ls) = true.
Proof.
  intros Hs. induction 1 as [|x ls Hx Hl IH]; [done|]. destruct ls as [|y ls]; [done|].
  change (join sep (x :: y :: ls)) with (x ++ sep :: join sep (y :: ls)).
  rewrite wf_str_app, Hx. change (sep :: ?l) with ([sep] ++ l).
  rewrite wf_str_app, IH, andb_true_r. cbn. rewrite !andb_true_iff, !Z.leb_le, !Z.ltb_lt. lia.
Qed.

Lemma num_chars_wf t : forallb is_num_char t = true -> wf_str t = true.
Proof.
  intros H. unfold wf_str. rewrite forallb_forall in *. intros c Hc. specialize (H c Hc).
  unfold is_num_char, is_digit in *.
  rewrite !orb_true_iff, !andb_true_iff, !Z.leb_le, !Z.eqb_eq in H.
  rewrite !andb_true_iff, !Z.leb_le, !Z.ltb_lt. lia.
Qed.

Lemma stringify_wf v : wf_json v = true -> wf_str (stringify v) = true.
Proof.
  induction v as [|[]|n|s|l IH|kvs IH] using json_nested_ind; intros H; try done.
  - by apply num_chars_wf, print_num_ok.
  - by apply quote_wf.
  - cbn [stringify wf_json] in *. change (91 :: ?x) with ([91] ++ x).
    rewrite !wf_str_app, join_wf; [done|lia|].
    rewrite forallb_forall in H. rewrite List.Forall_forall in *. intros x Hx.
    apply in_map_iff in Hx as (y & <- & Hy). auto.
  - cbn [stringify wf_json] in *. bprop. change (123 :: ?x) with ([123] ++ x).
    rewrite !wf_str_app, join_wf; [done|lia|].
    match goal with H : forallb _ kvs = true |- _ => rewrite forallb_forall in H; rename H into Hk end.
    rewrite List.Forall_forall in *. intros x Hx. apply in_map_iff in Hx as (y & <- & Hy).
    specialize (Hk y Hy). bprop. change (58 :: ?x) with ([58] ++ x).
    rewrite !wf_str_app, quote_wf, (IH y Hy) by done. done.
Qed.

(** The text of a value comes back from its bytes. *)
Lemma utf8_stringify v : wf_json v = true -> utf8_decode (utf8_encode (stringify v)) = stringify v.
Proof. intros H. apply utf8_roundtrip; [by apply stringify_wf | by apply stringify_paired]. Qed.

(** Encoded text consists of bytes and is never empty for a value. *)
Lemma utf8_encode_bytes s : wf_str s = true -> forallb is_byte (utf8_encode s) = true.
Proof.
  remember (List.length s) as n eqn:Hn. revert s Hn.
  induction n as [n IH] using lt_wf_ind. intros s -> Hs.
  assert (forall r', (List.length r' < List.length s)%nat -> wf_str r' = true ->
    forallb is_byte (utf8_encode r') = true) as K by (intros; eapply IH; [|reflexivity|]; done). clear IH.
  destruct s as [|c r]; [done|]. cbn [utf8_encode]. cbn [wf_str forallb] in Hs. bprop.
  assert (forall x l, 0 <= x < 256 -> forallb is_byte (x :: l) = forallb is_byte l) as Hb.
  { intros x l Hx. cbn. unfold is_byte. btest. done. }
  destruct (Z.ltb_spec c 128); [rewrite Hb by lia; apply K; [simpl; lia|done]|].
  destruct (Z.ltb_spec c 2048); [cbn [app]; rewrite !Hb by lia; apply K; [simpl; lia|done]|].
  assert (forall l, forallb is_byte (enc3 FFFD ++ l) = forallb is_byte l) as Hf by done.
  destruct (is_high c) eqn:Hh; [destruct r as [|d r']; [done|destruct (is_low d) eqn:Hl]|destruct (is_low c)].
  - match goal with H : forallb _ (d :: _) = true |- _ => cbn [forallb] in H end.
    bprop. unfold is_high, is_low in *. bprop. unfold enc4, cp_of_pair. cbn [app].
    rewrite !Hb by lia. apply K; [simpl; lia|done].
  - rewrite Hf. apply K; [simpl; lia|done].
  - rewrite Hf. apply K; [simpl; lia|done].
  - unfold enc3. cbn [app]. rewrite !Hb by lia. apply K; [simpl; lia|done].
Qed.

Lemma utf8_encode_nil s : utf8_encode s = [] -> s = [].
Proof.
  destruct s as [|c r]; [done|]. cbn [utf8_encode].
  repeat match goal with |- context [if ?b then _ else _] => destruct b end; try done.
  destruct r; [done|]. by destruct (is_low _).
Qed.

Lemma stringify_not_nil v : wf_json v = true -> stringify v <> [].
Proof. intros (c & r & E & _)%wf_starts. by rewrite E. Qed.
