(* ===== verification/Transport.v ===== *)
(** * The control transport: length-prefixed JSON frames over a socket

    Models [multiplexer/transport/MultiplexerControlTransport.ts].  The socket
    is the part of it the class observes: whether it is destroyed or writable
    and the bytes written to it.  The third-party package [bufferpack] is the
    class [Bufferpack] with its documented packing as laws. *)

From Stdlib Require Import String.
From S2P Require Import JsValue Json Utf8.

Open Scope Z_scope.

(** ** The [bufferpack] package *)

(** [bp_pack p n l] is [bufferpack.pack("! 4s I <n>A", [p, n, l])] and
    [bp_unpack b] is [bufferpack.unpack("! 4s I", b, 0)]. *)
Class Bufferpack := {
  bp_pack : list Z -> Z -> list Z -> list Z;
  bp_unpack : list Z -> list Z * Z
}.

Definition be32 (n : Z) : list Z :=
  [n / 16777216 mod 256; n / 65536 mod 256; n / 256 mod 256; n mod 256].

(** "!" is network byte order, "4s" four characters, "I" an unsigned 32-bit
    integer and "A" a byte array. *)
Class BufferpackLaws `{Bufferpack} := {
  bp_pack_spec : forall p n l, List.length p = 4%nat -> 0 <= n < 2 ^ 32 ->
    Z.of_nat (List.length l) = n -> bp_pack p n l = p ++ be32 n ++ l;
  bp_unpack_spec : forall p n l, List.length p = 4%nat -> 0 <= n < 2 ^ 32 ->
    bp_unpack (p ++ be32 n ++ l) = (p, n);
  bp_unpack_range : forall b, (8 <= List.length b)%nat -> 0 <= (bp_unpack b).2 < 2 ^ 32
}.

(** ** State *)

Definition FRAME_PREFIX : list Z := js "$MUX".
Definition FRAME_HEADER_SIZE : Z := 8.
Definition DEFAULT_MULTIPLEXER_CONTROL_MAX_FRAME_SIZE : Z := 16 * 1024 * 1024.
Definition DEFAULT_MULTIPLEXER_CONTROL_MAX_BUFFER_SIZE : Z := 32 * 1024 * 1024.

(** [MultiplexerControlTransportError] with its code, or another [Error]. *)
Inductive terror :=
  | TransportError (code : string)
  | OtherError (message : jstr).

Record transport := mkTransport {
  t_maxFrameSize : Z;
  t_maxBufferSize : Z;
  t_buffer : list Z;
  t_closeError : option terror;
  t_closeListeners : list Z;   (* the close callbacks, by subscription *)
  t_destroyed : bool;          (* socket.destroyed *)
  t_writable : bool;           (* socket.writable *)
  t_ending : bool;             (* the timer end() arms *)
  t_written : list Z           (* bytes given to socket.write, in order *)
}.

#[export] Instance eta_transport : Eta transport := fun t =>
  mkTransport (t_maxFrameSize t) (t_maxBufferSize t) (t_buffer t) (t_closeError t)
    (t_closeListeners t) (t_destroyed t) (t_writable t) (t_ending t) (t_written t).

(** The constructor, on a connected socket. *)
Definition new_transport (maxFrameSize maxBufferSize : option Z) : transport :=
  mkTransport (default DEFAULT_MULTIPLEXER_CONTROL_MAX_FRAME_SIZE maxFrameSize)
    (default DEFAULT_MULTIPLEXER_CONTROL_MAX_BUFFER_SIZE maxBufferSize)
    [] None [] false true false [].

Definition closed (t : transport) : bool := t_destroyed t.
Definition writable (t : transport) : bool := negb (closed t) && t_writable t.

Definition destroy (e : option terror) (t : transport) : transport :=
  if closed t then t
  else t <| t_closeError := match e with Some x => Some x | None => t_closeError t end |>
         <| t_destroyed := true |> <| t_writable := false |>.

(** ** Sending *)

Definition zlen {A} (l : list A) : Z := Z.of_nat (List.length l).

(** The bytes of one frame. *)
Definition frame `{Bufferpack} (m : json) : list Z :=
  let payload := utf8_encode (stringify m) in bp_pack FRAME_PREFIX (zlen payload) payload.

Definition send `{Bufferpack} (m : json) (t : transport) : bool * transport :=
  let payload := utf8_encode (stringify m) in
  if t_maxFrameSize t <? zlen payload then (false, t)
  else if negb (writable t)
  then (false, destroy (Some (OtherError (js "Multiplexer control transport is not writable"))) t)
  else (true, t <| t_written ::= fun b => b ++ frame m |>).

(** ** Receiving *)

(** [buffer.indexOf(prefix)]. *)
Definition prefixb (p l : list Z) : bool := bool_decide (take (List.length p) l = p).

Fixpoint index_of (p l : list Z) : option nat :=
  if prefixb p l then Some O
  else match l with
       | [] => None
       | _ :: l' => match index_of p l' with Some i => Some (S i) | None => None end
       end.

Section Receive.
Context `{BP : Bufferpack} {W : Type}.

(** The message listener: it may use the transport and changes the state [W]
    of the class that subscribed it. *)
Variable listener : json -> transport * W -> transport * W.

(** The loop of [parseFrames]; every iteration consumes a frame. *)
Fixpoint parse_loop (fuel : nat) (tw : transport * W) : transport * W :=
  match fuel with
  | O => tw
  | S f =>
      let '(t, w) := tw in
      if closed t || (zlen (t_buffer t) <? FRAME_HEADER_SIZE) then tw
      else
        match index_of FRAME_PREFIX (t_buffer t) with
        | None => (t <| t_buffer ::= drop (List.length (t_buffer t) - List.length FRAME_PREFIX) |>, w)
        | Some i =>
            let t := t <| t_buffer ::= drop i |> in
            if zlen (t_buffer t) <? FRAME_HEADER_SIZE then (t, w)
            else
              let '(_, payloadLength) := bp_unpack (t_buffer t) in
              if payloadLength =? 0 then (destroy (Some (TransportError "invalid-frame")) t, w)
              else if t_maxFrameSize t <? payloadLength
              then (destroy (Some (TransportError "frame-too-large")) t, w)
              else if zlen (t_buffer t) <? FRAME_HEADER_SIZE + payloadLength then (t, w)
              else
                let payload := take (Z.to_nat payloadLength) (drop 8 (t_buffer t)) in
                match parse (utf8_decode payload) with
                | None => (destroy (Some (TransportError "invalid-frame")) t, w)
                | Some message =>
                    parse_loop f
                      (listener message
                         (t <| t_buffer ::= drop (Z.to_nat (FRAME_HEADER_SIZE + payloadLength)) |>, w))
                end
        end
  end.

Definition parseFrames (tw : transport * W) : transport * W :=
  parse_loop (S (List.length (t_buffer tw.1))) tw.

Definition handleData (chunk : list Z) (tw : transport * W) : transport * W :=
  let '(t, w) := tw in
  if closed t || bool_decide (chunk = []) then tw
  else if t_maxBufferSize t <? zlen (t_buffer t) + zlen chunk
  then (destroy (Some (TransportError "buffer-too-large")) t, w)
  else parseFrames (t <| t_buffer ::= fun b => b ++ chunk |>, w).
End Receive.

(** ** Closing *)

Definition onClose (listener : Z) (t : transport) : option (option terror) * transport :=
  if closed t then (Some (t_closeError t), t)
  else (None, t <| t_closeListeners ::= sadd listener |>).

(** [end()] half-closes the socket and arms the cleanup timer; the listener
    that clears the timer and resolves the promise is [listener]. *)
Definition end_ (listener : Z) (t : transport) : transport :=
  if closed t then t
  else (onClose listener t).2 <| t_ending := true |> <| t_writable := false |>.

(** The timer of [end()]. *)
Definition end_timeout (t : transport) : transport :=
  if t_ending t then destroy None (t <| t_ending := false |>) else t.

Definition handleEnd (t : transport) : transport :=
  let t := match t_buffer t, t_closeError t with
           | _ :: _, None => t <| t_closeError := Some (TransportError "incomplete-frame") |>
           | _, _ => t
           end in
  t <| t_destroyed := true |> <| t_writable := false |>.

Definition handleSocketError (e : terror) (t : transport) : transport :=
  t <| t_closeError := Some e |> <| t_destroyed := true |> <| t_writable := false |>.

(** [notifyClose]: the close callbacks to run, each with the close error. *)
Definition handleSocketClose (t : transport) : list (Z * option terror) * transport :=
  (List.map (fun l => (l, t_closeError t)) (t_closeListeners t),
   t <| t_buffer := [] |> <| t_closeListeners := [] |> <| t_ending := false |>).

(** ** A stream of frames *)

(** The listener that records the messages in order. *)
Definition record_listener (m : json) (tw : transport * list json) : transport * list json :=
  (tw.1, tw.2 ++ [m]).

Definition feed `{Bufferpack} (chunks : list (list Z)) (tw : transport * list json) : transport * list json :=
  fold_left (fun tw c => handleData record_listener c tw) chunks tw.

Definition stream `{Bufferpack} (ms : list json) : list Z := concat (List.map frame ms).

(** A message the sender accepts. *)
Definition sendable (t : transport) (m : json) : bool :=
  wf_json m && (zlen (utf8_encode (stringify m)) <=? t_maxFrameSize t).

Lemma sendable_inv t m : sendable t m = true ->
  wf_json m = true /\ zlen (utf8_encode (stringify m)) <= t_maxFrameSize t.
Proof. unfold sendable. intros Hs. bprop. done. Qed.

Lemma buffer_same t b : b = t_buffer t -> t <| t_buffer := b |> = t.
Proof. intros ->. by destruct t. Qed.

Lemma zlen_app {A} (a b : list A) : zlen (a ++ b) = zlen a + zlen b.
Proof. unfold zlen. rewrite length_app. lia. Qed.

Lemma take_length_app {A} (a b : list A) n : n = List.length a -> take n (a ++ b) = a.
Proof. intros ->. apply take_app_length. Qed.

Lemma drop_length_app {A} (a b : list A) n : n = List.length a -> drop n (a ++ b) = b.
Proof. intros ->. apply drop_app_length. Qed.

(** Two ways to cut the same list. *)
Lemma app_cut {A} (a b c d : list A) :
  a ++ b = c ++ d -> (List.length c <= List.length a)%nat -> exists e, a = c ++ e /\ e ++ b = d.
Proof.
  intros H L. exists (drop (List.length c) a).
  assert (c = take (List.length c) a) as Hc.
  { apply (f_equal (take (List.length c))) in H.
    rewrite take_app_le, take_app_length in H by done. done. }
  assert (a = c ++ drop (List.length c) a) as Ha by (rewrite Hc at 1; symmetry; apply take_drop).
  split; [exact Ha|]. rewrite Ha in H at 1. rewrite <- app_assoc in H. by apply app_inv_head in H.
Qed.

Section Stream.
Context {BP : Bufferpack} {BL : BufferpackLaws}.

Lemma frame_bytes m : zlen (utf8_encode (stringify m)) < 2 ^ 32 ->
  frame m = FRAME_PREFIX ++ be32 (zlen (utf8_encode (stringify m))) ++ utf8_encode (stringify m).
Proof. intros Hl. apply bp_pack_spec; [done| |done]. unfold zlen in *. lia. Qed.

Lemma payload_pos m : wf_json m = true -> 0 < zlen (utf8_encode (stringify m)).
Proof.
  intros H. unfold zlen. destruct (utf8_encode (stringify m)) eqn:E; [|simpl; lia].
  apply utf8_encode_nil in E. by apply stringify_not_nil in E.
Qed.

Lemma index_of_header l : index_of FRAME_PREFIX (FRAME_PREFIX ++ l) = Some O.
Proof. done. Qed.

(** One iteration of the loop on a buffer that starts with a whole frame. *)
Lemma parse_loop_frame {W} (L : json -> transport * W -> transport * W) fuel t w m rest :
  closed t = false -> sendable t m = true -> t_maxFrameSize t < 2 ^ 32 ->
  t_buffer t = frame m ++ rest ->
  parse_loop L (S fuel) (t, w) = parse_loop L fuel (L m (t <| t_buffer := rest |>, w)).
Proof.
  intros Hc Hs Hmax Hb. apply sendable_inv in Hs as [Hwf Hsz]. pose proof (payload_pos m Hwf) as Hp.
  rewrite frame_bytes in Hb by lia. set (p := utf8_encode (stringify m)) in *.
  rewrite <- !app_assoc in Hb.
  cbn [parse_loop]. rewrite Hc, Hb.
  replace (zlen (FRAME_PREFIX ++ be32 (zlen p) ++ p ++ rest) <? FRAME_HEADER_SIZE) with false
    by (symmetry; apply Z.ltb_ge; rewrite !zlen_app; unfold zlen, FRAME_HEADER_SIZE; cbn; lia).
  rewrite index_of_header. cbn [orb set_field t_buffer eta eta_transport]. rewrite Hb, drop_0.
  cbn [t_buffer t_maxFrameSize].
  replace (zlen (FRAME_PREFIX ++ be32 (zlen p) ++ p ++ rest) <? FRAME_HEADER_SIZE) with false
    by (symmetry; apply Z.ltb_ge; rewrite !zlen_app; unfold zlen, FRAME_HEADER_SIZE; cbn; lia).
  rewrite bp_unpack_spec by (try done; lia).
  destruct (Z.eqb_spec (zlen p) 0); [lia|]. destruct (Z.ltb_spec (t_maxFrameSize t) (zlen p)); [lia|].
  destruct (Z.ltb_spec (zlen (FRAME_PREFIX ++ be32 (zlen p) ++ p ++ rest)) (FRAME_HEADER_SIZE + zlen p)) as [Hl|Hl].
  { rewrite !zlen_app in Hl. unfold zlen, FRAME_HEADER_SIZE in Hl. cbn in Hl. lia. }
  change (drop 8 (FRAME_PREFIX ++ be32 (zlen p) ++ p ++ rest)) with (p ++ rest).
  rewrite take_length_app by (unfold zlen; lia). unfold p at 1.
  rewrite utf8_stringify, parse_stringify by done. do 2 f_equal. f_equal.
  change (FRAME_PREFIX ++ be32 (zlen p) ++ p ++ rest) with ((FRAME_PREFIX ++ be32 (zlen p)) ++ p ++ rest).
  rewrite app_assoc, drop_length_app; [done|].
  rewrite length_app. unfold zlen, FRAME_HEADER_SIZE. cbn -[Z.add]. lia.
Qed.

(** The loop stops on a proper prefix of a frame. *)
Lemma parse_loop_partial {W} (L : json -> transport * W -> transport * W) fuel t w m future rest :
  closed t = false -> sendable t m = true -> t_maxFrameSize t < 2 ^ 32 ->
  t_buffer t ++ future = frame m ++ rest -> (List.length (t_buffer t) < List.length (frame m))%nat ->
  parse_loop L (S fuel) (t, w) = (t, w).
Proof.
  intros Hc Hs Hmax Hb Hlt. apply sendable_inv in Hs as [Hwf Hsz]. pose proof (payload_pos m Hwf) as Hp.
  rewrite frame_bytes in Hb, Hlt by lia. set (p := utf8_encode (stringify m)) in *.
  cbn [parse_loop]. rewrite Hc.
  destruct (Z.ltb_spec (zlen (t_buffer t)) FRAME_HEADER_SIZE) as [|Hl8]; [done|].
  rewrite app_assoc, <- (app_assoc _ p) in Hb.
  apply app_cut in Hb as (e & He & _);
    [|rewrite length_app; unfold zlen, FRAME_HEADER_SIZE in Hl8; cbn; lia].
  rewrite <- app_assoc in He. rewrite He in *. rewrite index_of_header.
  cbn [orb set_field t_buffer eta eta_transport]. rewrite He, drop_0. cbn [t_buffer t_maxFrameSize].
  destruct (Z.ltb_spec (zlen (FRAME_PREFIX ++ be32 (zlen p) ++ e)) FRAME_HEADER_SIZE); [lia|].
  rewrite bp_unpack_spec by (try done; lia).
  destruct (Z.eqb_spec (zlen p) 0); [lia|]. destruct (Z.ltb_spec (t_maxFrameSize t) (zlen p)); [lia|].
  destruct (Z.ltb_spec (zlen (FRAME_PREFIX ++ be32 (zlen p) ++ e)) (FRAME_HEADER_SIZE + zlen p)) as [|Hl].
  - f_equal. apply buffer_same. done.
  - exfalso. rewrite !length_app in Hlt. rewrite !zlen_app in Hl.
    unfold zlen, FRAME_HEADER_SIZE in *. cbn in *. lia.
Qed.

(** A buffer that holds no complete frame of the stream still to come. *)
Definition settled (b : list Z) (ms : list json) : Prop :=
  match ms with [] => b = [] | m :: _ => (List.length b < List.length (frame m))%nat end.

Lemma settled_short t b ms : 0 <= t_maxFrameSize t < 2 ^ 32 -> forallb (sendable t) ms = true ->
  settled b ms -> zlen b <= FRAME_HEADER_SIZE + t_maxFrameSize t.
Proof.
  intros Hmax Hs Hb. destruct ms as [|m ms].
  - cbn in Hb. subst. unfold zlen, FRAME_HEADER_SIZE. cbn. lia.
  - cbn [forallb] in Hs. apply andb_prop in Hs as [[Hwf Hsz]%sendable_inv _].
    cbn in Hb. rewrite frame_bytes in Hb by lia. rewrite !length_app in Hb.
    unfold zlen, FRAME_HEADER_SIZE in *. cbn in Hb. lia.
Qed.

(** The loop on a prefix of a stream: it delivers the complete frames and
    keeps the incomplete one. *)
Lemma parse_loop_stream ms : forall fuel t w future,
  closed t = false -> forallb (sendable t) ms = true -> t_maxFrameSize t < 2 ^ 32 ->
  t_buffer t ++ future = stream ms -> (List.length (t_buffer t) < fuel)%nat ->
  exists k b, parse_loop record_listener fuel (t, w) = (t <| t_buffer := b |>, w ++ take k ms)
    /\ b ++ future = stream (drop k ms) /\ settled b (drop k ms).
Proof.
  induction ms as [|m ms IH]; intros [|fuel] t w future Hc Hs Hmax Hb Hf; try lia.
  - change (stream []) with (@nil Z) in Hb. apply app_nil in Hb as [Hb ->].
    exists O, []. split; [|done]. cbn [parse_loop].
    rewrite Hc, Hb. cbn -[set_field]. rewrite app_nil_r. by rewrite buffer_same.
  - cbn [forallb] in Hs. apply andb_prop in Hs as [Hm Hs]. pose proof (sendable_inv _ _ Hm) as [Hwf Hsz].
    change (stream (m :: ms)) with (frame m ++ stream ms) in Hb.
    destruct (decide (List.length (t_buffer t) < List.length (frame m))%nat) as [Hlt|Hge].
    + exists O, (t_buffer t). rewrite (parse_loop_partial _ _ _ _ m future (stream ms)) by done.
      rewrite buffer_same by done. cbn [take drop]. rewrite app_nil_r. done.
    + apply app_cut in Hb as (e & He & Hr); [|lia].
      rewrite (parse_loop_frame _ fuel t w m e) by done.
      destruct (IH fuel (t <| t_buffer := e |>) (w ++ [m]) future) as (k & b & E & Hb' & Hz); try done.
      { cbn -[set_field]. rewrite He in Hf. rewrite length_app in Hf. 
        assert (0 < List.length (frame m))%nat; [|cbn; lia].
        rewrite frame_bytes by lia. rewrite !length_app. cbn. lia. }
      exists (S k), b. unfold record_listener at 2. cbn [fst snd]. rewrite E. 
      split; [|done]. f_equal. cbn [take]. by rewrite <- app_assoc.
Qed.

(** A chunk of a stream delivers the frames it completes. *)
Lemma handleData_stream t w chunk ms future :
  closed t = false -> forallb (sendable t) ms = true -> t_maxFrameSize t < 2 ^ 32 ->
  t_buffer t ++ chunk ++ future = stream ms -> settled (t_buffer t) ms ->
  zlen (t_buffer t) + zlen chunk <= t_maxBufferSize t ->
  exists k b, handleData record_listener chunk (t, w) = (t <| t_buffer := b |>, w ++ take k ms)
    /\ b ++ future = stream (drop k ms) /\ settled b (drop k ms).
Proof.
  intros Hc Hs Hmax Hb Hset Hbuf. unfold handleData. rewrite Hc. cbn [orb].
  case_bool_decide as Hn.
  - subst chunk. exists O, (t_buffer t). rewrite buffer_same by done. cbn [take drop].
    rewrite app_nil_r. done.
  - destruct (Z.ltb_spec (t_maxBufferSize t) (zlen (t_buffer t) + zlen chunk)); [lia|].
    rewrite app_assoc in Hb.
    destruct (parse_loop_stream ms (S (List.length (t_buffer t ++ chunk)))
                (t <| t_buffer := t_buffer t ++ chunk |>) w future) as (k & b & E & Hb' & Hz);
      [done..|cbn; lia|].
    exists k, b. unfold parseFrames. cbn [fst]. done.
Qed.

(** The size condition under which no chunk overflows the buffer. *)
Definition chunk_fits (t : transport) (c : list Z) : bool :=
  FRAME_HEADER_SIZE + t_maxFrameSize t + zlen c <=? t_maxBufferSize t.

Lemma feed_stream chunks : forall t w ms,
  closed t = false -> 0 <= t_maxFrameSize t < 2 ^ 32 -> settled (t_buffer t) ms ->
  forallb (sendable t) ms = true -> forallb (chunk_fits t) chunks = true ->
  t_buffer t ++ concat chunks = stream ms ->
  feed chunks (t, w) = (t <| t_buffer := [] |>, w ++ ms).
Proof.
  induction chunks as [|c chunks IH]; intros t w ms Hc Hmax Hset Hs Hf Hb.
  - cbn [concat] in Hb. rewrite app_nil_r in Hb. cbn [feed fold_left]. destruct ms as [|m ms].
    + cbn in Hset. rewrite app_nil_r. by rewrite buffer_same.
    + exfalso. cbn [settled] in Hset. rewrite Hb in Hset.
      change (stream (m :: ms)) with (frame m ++ stream ms) in Hset. rewrite length_app in Hset. lia.
  - cbn [forallb concat] in *. apply andb_prop in Hf as [Hfc Hf]. apply Z.leb_le in Hfc.
    pose proof (settled_short t _ ms Hmax Hs Hset) as Hbl.
    destruct (handleData_stream t w c ms (concat chunks)) as (k & b & E & Hb' & Hz);
      [done|done|lia|done|done|lia|].
    change (feed (c :: chunks) (t, w)) with (feed chunks (handleData record_listener c (t, w))).
    rewrite E. rewrite (IH _ (w ++ take k ms) (drop k ms)); try done.
    + rewrite <- app_assoc, take_drop. done.
    + rewrite forallb_forall in *. intros m Hm. apply Hs. rewrite <- (take_drop k ms). apply in_or_app. by right.
Qed.
End Stream.

(** ** A concrete [bufferpack] *)

Definition be32_value (l : list Z) : Z :=
  match l with
  | a :: b :: c :: d :: _ =>
      a mod 256 * 16777216 + b mod 256 * 65536 + c mod 256 * 256 + d mod 256
  | _ => 0
  end.

Definition bufferpack_be : Bufferpack := {|
  bp_pack p n l := p ++ be32 n ++ l;
  bp_unpack b := (take 4 b, be32_value (drop 4 b))
|}.

Lemma be32_value_be32 n l : 0 <= n < 2 ^ 32 -> be32_value (be32 n ++ l) = n.
Proof.
  intros Hn. cbn [be32 be32_value app]. rewrite !Zmod_mod. change 16777216 with (256 * 256 * 256).
  change 65536 with (256 * 256). rewrite <- !Z.div_div by lia.
  pose proof (Z.div_mod n 256 ltac:(lia)). pose proof (Z.div_mod (n / 256) 256 ltac:(lia)).
  pose proof (Z.div_mod (n / 256 / 256) 256 ltac:(lia)).
  pose proof (Z.div_mod (n / 256 / 256 / 256) 256 ltac:(lia)).
  assert (n / 256 / 256 / 256 / 256 = 0); [|lia].
  rewrite !Z.div_div by lia. apply Z.div_small. lia.
Qed.

Lemma bufferpack_be_laws : @BufferpackLaws bufferpack_be.
Proof.
  split; [done| |].
  - intros p n l Hp Hn. cbn [bp_unpack bufferpack_be].
    rewrite take_length_app, drop_length_app, be32_value_be32 by done. done.
  - intros b Hb. do 8 (destruct b as [|? b]; [simpl in Hb; lia|]).
    cbn [bp_unpack bufferpack_be snd drop be32_value].
    repeat match goal with |- context [?x mod 256] =>
      pose proof (Z.mod_pos_bound x 256 ltac:(lia)); generalize dependent (x mod 256); intros end.
    lia.
Qed.

(** ** Behaviour of the transport *)

Definition send_all `{Bufferpack} (ms : list json) (t : transport) : transport :=
  fold_left (fun t m => (send m t).2) ms t.

Lemma send_accepts `{Bufferpack} m t : sendable t m = true -> writable t = true ->
  send m t = (true, t <| t_written ::= fun b => b ++ frame m |>).
Proof.
  intros [_ Hsz]%sendable_inv Hw. unfold send. rewrite Hw. cbn [negb].
  by destruct (Z.ltb_spec (t_maxFrameSize t) (zlen (utf8_encode (stringify m)))); [lia|].
Qed.

Lemma send_all_written `{Bufferpack} ms : forall t,
  forallb (sendable t) ms = true -> writable t = true ->
  t_written (send_all ms t) = t_written t ++ stream ms.
Proof.
  induction ms as [|m ms IH]; intros t Hs Hw; cbn [forallb] in *.
  - by rewrite app_nil_r.
  - apply andb_prop in Hs as [Hm Hs].
    change (send_all (m :: ms) t) with (send_all ms (send m t).2).
    rewrite send_accepts by done. cbn [snd]. rewrite IH by done.
    change (stream (m :: ms)) with (frame m ++ stream ms). cbn. by rewrite app_assoc.
Qed.

(** Fuel beyond the length of the buffer does not change the loop, for every
    listener that does not put bytes back: [parseFrames] terminates. *)
Lemma parse_loop_fuel `{BL : BufferpackLaws} {W} (L : json -> transport * W -> transport * W)
  (HL : forall m tw, (List.length (t_buffer (L m tw).1) <= List.length (t_buffer tw.1))%nat) :
  forall f1 f2 tw, (List.length (t_buffer tw.1) < f1)%nat -> (List.length (t_buffer tw.1) < f2)%nat ->
  parse_loop L f1 tw = parse_loop L f2 tw.
Proof.
  induction f1 as [|f1 IH]; intros [|f2] [t w] H1 H2; try lia. cbn [fst] in *. cbn [parse_loop].
  destruct (closed t); [done|]. cbn [orb].
  destruct (Z.ltb_spec (zlen (t_buffer t)) FRAME_HEADER_SIZE) as [|H8]; [done|].
  destruct (index_of FRAME_PREFIX (t_buffer t)) as [i|]; [|done].
  destruct (Z.ltb_spec (zlen (t_buffer (t <| t_buffer ::= drop i |>))) FRAME_HEADER_SIZE) as [|H8']; [done|].
  pose proof (bp_unpack_range (t_buffer (t <| t_buffer ::= drop i |>))) as Hr.
  destruct (bp_unpack (t_buffer (t <| t_buffer ::= drop i |>))) as [p n]. cbn [snd] in Hr.
  repeat (case_match; try done).
  set (tw' := (_, w)). pose proof (HL j tw') as Hl. cbn -[drop] in Hl. rewrite !length_drop in Hl.
  unfold zlen, FRAME_HEADER_SIZE in *. cbn in H8', Hr. rewrite length_drop in H8', Hr.
  specialize (Hr ltac:(lia)). apply IH; lia.
Qed.

Lemma parse_loop_shrinks `{Bufferpack} {W} (L : json -> transport * W -> transport * W)
  (HL : forall m tw, (List.length (t_buffer (L m tw).1) <= List.length (t_buffer tw.1))%nat) :
  forall f tw, (List.length (t_buffer (parse_loop L f tw).1) <= List.length (t_buffer tw.1))%nat.
Proof.
  assert (forall e t, t_buffer (destroy e t) = t_buffer t) as Hd
    by (intros e t; unfold destroy; by destruct (closed t)).
  induction f as [|f IH]; intros [t w]; [done|]. cbn [parse_loop].
  repeat (case_match; cbn [fst]; rewrite ?Hd; cbn -[drop]; rewrite ?length_drop; try lia).
  etrans; [apply IH|]. etrans; [apply HL|]. cbn -[drop]. rewrite !length_drop. lia.
Qed.

(** C7: Whatever is written is what is read.  The bytes a fresh transport
    writes for a list of messages it accepts, cut into chunks in any way that
    respects the buffer limit, make the receiving transport deliver exactly
    those messages in order and end with an empty buffer, still open. *)
Theorem transport_roundtrip `{BL : BufferpackLaws} (t s : transport) (ms : list json)
  (chunks : list (list Z)) :
  closed t = false -> t_buffer t = [] -> 0 <= t_maxFrameSize t < 2 ^ 32 ->
  writable s = true -> t_written s = [] -> t_maxFrameSize s = t_maxFrameSize t ->
  forallb (sendable t) ms = true -> forallb (chunk_fits t) chunks = true ->
  concat chunks = t_written (send_all ms s) ->
  feed chunks (t, []) = (t, ms).
Proof.
  intros Hc Hb Hm Hw Hwr Hsz Hs Hf Hcat.
  rewrite send_all_written, Hwr in Hcat; [|unfold sendable in *; by rewrite Hsz|done].
  rewrite (feed_stream chunks t [] ms); try done.
  - by rewrite buffer_same.
  - rewrite Hb. destruct ms as [|m ms]; [done|]. cbn [settled forallb] in *.
    apply andb_prop in Hs as [[Hwf Hl]%sendable_inv _]. rewrite frame_bytes by lia.
    rewrite !length_app. cbn. lia.
  - by rewrite Hb.
Qed.

Lemma transport_roundtrip_witness :
  let m1 := JObj [(js "kind", jstring "health")] in
  let m2 := JArr [jint (-3); JStr [55357; 56832]] in
  @feed bufferpack_be [[36; 77]; [85]; drop 3 (@stream bufferpack_be [m1; m2])] (new_transport None None, [])
  = (new_transport None None, [m1; m2]).
Proof.
  intros m1 m2.
  apply (@transport_roundtrip bufferpack_be bufferpack_be_laws (new_transport None None)
           (new_transport None None) [m1; m2]
           [[36; 77]; [85]; drop 3 (@stream bufferpack_be [m1; m2])]);
    first [ vm_compute; reflexivity | split; [vm_compute; discriminate | vm_compute; reflexivity] ].
Defined.

Lemma destroy_limits e t : t_maxBufferSize (destroy e t) = t_maxBufferSize t /\ t_buffer (destroy e t) = t_buffer t.
Proof. unfold destroy. by destruct (closed t). Qed.

Lemma parse_loop_limits `{Bufferpack} : forall f t w,
  t_maxBufferSize (parse_loop record_listener f (t, w)).1 = t_maxBufferSize t.
Proof.
  induction f as [|f IH]; intros t w; [done|]. cbn [parse_loop].
  repeat (case_match; cbn [fst]; rewrite ?(proj1 (destroy_limits _ _)); try done).
  unfold record_listener at 2. cbn [fst snd]. by rewrite IH.
Qed.

Lemma handleData_bounded `{Bufferpack} c t w :
  zlen (t_buffer t) <= t_maxBufferSize t ->
  zlen (t_buffer (handleData record_listener c (t, w)).1)
  <= t_maxBufferSize (handleData record_listener c (t, w)).1.
Proof.
  intros Hb. unfold handleData. destruct (closed t || bool_decide (c = [])); [done|].
  destruct (Z.ltb_spec (t_maxBufferSize t) (zlen (t_buffer t) + zlen c)).
  - cbn [fst]. destruct (destroy_limits (Some (TransportError "buffer-too-large")) t) as [-> ->]. done.
  - unfold parseFrames. rewrite parse_loop_limits. cbn [fst].
    etrans; [apply inj_le, parse_loop_shrinks; done|]. cbn. rewrite length_app.
    unfold zlen in *. lia.
Qed.

(** The receive buffer is bounded.  No sequence of chunks, whatever bytes
    it holds, makes the buffer exceed [maxBufferSize], and once the transport
    is closed further data is ignored. *)
Theorem transport_buffer_bounded `{Bufferpack} (chunks : list (list Z)) (t : transport) (w : list json) :
  zlen (t_buffer t) <= t_maxBufferSize t ->
  zlen (t_buffer (feed chunks (t, w)).1) <= t_maxBufferSize (feed chunks (t, w)).1 /\
  (closed t = true -> feed chunks (t, w) = (t, w)).
Proof.
  revert t w. induction chunks as [|c chunks IH]; intros t w Hb; [done|].
  change (feed (c :: chunks) (t, w)) with (feed chunks (handleData record_listener c (t, w))).
  pose proof (handleData_bounded c t w Hb) as Hb'.
  split; [destruct (handleData record_listener c (t, w)); by apply IH|]. intros Hc.
  unfold handleData. rewrite Hc. by apply IH.
Qed.

Lemma transport_buffer_bounded_example :
  let t := new_transport (Some 100) (Some 10) in
  zlen (t_buffer (@feed bufferpack_be [js "abcdefgh"; js "ijklmnop"] (t, [])).1) <= 10.
Proof.
  intros t. exact (proj1 (@transport_buffer_bounded bufferpack_be [js "abcdefgh"; js "ijklmnop"] t []
    ltac:(vm_compute; discriminate))).
Defined.

(** Every chunk is processed in finitely many iterations: with any
    listener that leaves the received bytes alone, more iterations than bytes
    in the buffer change nothing, so the bounded loop of the model computes the
    unbounded [while] of [parseFrames]. *)
Theorem parseFrames_terminates `{BL : BufferpackLaws} {W} (L : json -> transport * W -> transport * W)
  (tw : transport * W) (fuel : nat) :
  (forall m tw, (List.length (t_buffer (L m tw).1) <= List.length (t_buffer tw.1))%nat) ->
  (List.length (t_buffer tw.1) < fuel)%nat ->
  parse_loop L fuel tw = parseFrames L tw.
Proof. intros HL Hf. unfold parseFrames. apply parse_loop_fuel; [done|done|lia]. Qed.

Lemma parseFrames_terminates_example :
  let t := (new_transport None None) <| t_buffer := js "xx$MUX" ++ be32 2 ++ js "{}$MU" |> in
  @parse_loop bufferpack_be (list json) record_listener 100 (t, []) = @parseFrames bufferpack_be (list json) record_listener (t, [])
  /\ @parseFrames bufferpack_be (list json) record_listener (t, []) = (t <| t_buffer := js "$MU" |>, [JObj []]).
Proof.
  intros t. split; [|vm_compute; reflexivity].
  apply (@parseFrames_terminates bufferpack_be bufferpack_be_laws (list json) record_listener (t, []) 100).
  - intros m tw. apply Nat.le_refl.
  - vm_compute. lia.
Defined.

(** Bytes before the first prefix are skipped. *)
Lemma parse_loop_skip `{Bufferpack} {W} (L : json -> transport * W -> transport * W) fuel t w g rest :
  closed t = false -> index_of FRAME_PREFIX (g ++ FRAME_PREFIX ++ rest) = Some (List.length g) ->
  t_buffer t = g ++ FRAME_PREFIX ++ rest -> (4 <= List.length rest)%nat ->
  parse_loop L (S fuel) (t, w) = parse_loop L (S fuel) (t <| t_buffer := FRAME_PREFIX ++ rest |>, w).
Proof.
  intros Hc Hi Hb Hl. cbn [parse_loop]. rewrite Hc.
  change (closed (t <| t_buffer := FRAME_PREFIX ++ rest |>)) with (closed t). rewrite Hc. cbn [orb].
  rewrite Hb, Hi. cbn [set_field t_buffer eta eta_transport].
  assert ((zlen (FRAME_PREFIX ++ rest) <? FRAME_HEADER_SIZE) = false) as H8.
  { apply Z.ltb_ge. unfold zlen, FRAME_HEADER_SIZE. rewrite length_app. cbn. lia. }
  assert ((zlen (g ++ FRAME_PREFIX ++ rest) <? FRAME_HEADER_SIZE) = false) as ->.
  { apply Z.ltb_ge. apply Z.ltb_ge in H8. rewrite zlen_app. unfold zlen at 1. lia. }
  rewrite ?H8. change (index_of FRAME_PREFIX (FRAME_PREFIX ++ rest)) with (Some O).
  rewrite Hb, (drop_length_app g), drop_0 by done. cbn [t_buffer]. rewrite H8. done.
Qed.

Lemma parse_loop_empty `{Bufferpack} {W} (L : json -> transport * W -> transport * W) fuel t w :
  t_buffer t = [] -> parse_loop L fuel (t, w) = (t, w).
Proof. intros Hb. destruct fuel; [done|]. cbn [parse_loop]. rewrite Hb. by rewrite orb_true_r. Qed.

(** The receiver resynchronises.  Bytes that hold no frame prefix before a
    whole frame are discarded and the frame after them is delivered. *)
Theorem transport_resync `{BL : BufferpackLaws} (t : transport) (g : list Z) (m : json) :
  closed t = false -> t_buffer t = [] -> t_maxFrameSize t < 2 ^ 32 -> sendable t m = true ->
  zlen (g ++ frame m) <= t_maxBufferSize t ->
  index_of FRAME_PREFIX (g ++ frame m) = Some (List.length g) ->
  handleData record_listener (g ++ frame m) (t, []) = (t, [m]).
Proof.
  intros Hc Hb Hmax Hs Hsz Hi. pose proof (sendable_inv _ _ Hs) as [Hwf Hl].
  assert (exists rest, frame m = FRAME_PREFIX ++ rest /\ (4 <= List.length rest)%nat) as (rest & Hfr & Hr).
  { rewrite frame_bytes by lia. eexists. split; [reflexivity|]. rewrite length_app. cbn. lia. }
  unfold handleData. rewrite Hc, bool_decide_eq_false_2 by (rewrite Hfr; by destruct g).
  cbn [orb]. rewrite Hb. destruct (Z.ltb_spec (t_maxBufferSize t) (zlen (@nil Z) + zlen (g ++ frame m))) as [Hx|_].
  { unfold zlen in *. cbn in Hx. lia. }
  unfold parseFrames. cbn [fst]. rewrite Hfr in Hi.
  rewrite (parse_loop_skip _ _ _ _ g rest) by (cbn -[FRAME_PREFIX]; rewrite ?Hfr, ?Hb; done).
  rewrite (parse_loop_frame _ _ _ _ m []); [|done|done|done|cbn -[FRAME_PREFIX]; by rewrite app_nil_r, Hfr].
  unfold record_listener at 2. cbn [fst snd app].
  rewrite parse_loop_empty by done. f_equal. destruct t; cbn in *; by subst.
Qed.

Lemma transport_resync_example :
  let m := JObj [(js "kind", jstring "rpc")] in
  @handleData bufferpack_be _ record_listener (js "noise$MU" ++ @frame bufferpack_be m) (new_transport None None, [])
  = (new_transport None None, [m]).
Proof.
  intros m. apply (@transport_resync bufferpack_be bufferpack_be_laws); try reflexivity.
  vm_compute. discriminate.
Defined.
