(* ===== verification/Protocol.v ===== *)
(** * The control protocol: messages and their run-time validation

    Models [multiplexer/protocol/control.ts], [event.ts], [snapshot.ts],
    [debuginfo.ts] and [validation.ts].  A value received from a socket is a
    [json]; the guards of [validation.ts] are boolean functions on
    [option json] ([None] is [undefined]); the message types are inductive
    types with the encoding their object literals have on the wire. *)

From Stdlib Require Import String.
From S2P Require Import JsValue Json.

(** [v.k] on a possibly undefined value. *)
Notation "v @. k" := (jget (js k%string) v) (at level 8, left associativity).

(** ** Basic guards *)

Definition isRecord (v : jsval) : bool := match v with Some (JObj _) => true | _ => false end.
Definition isString (v : jsval) : bool := match v with Some (JStr _) => true | _ => false end.
Definition isNumber (v : jsval) : bool := match v with Some (JNum n) => num_isFinite n | _ => false end.
Definition isBoolean (v : jsval) : bool := match v with Some (JBool _) => true | _ => false end.

(** [Array.isArray(v) && v.every(g)]. *)
Definition arrayOf (g : jsval -> bool) (v : jsval) : bool :=
  match v with Some (JArr l) => forallb (fun x => g (Some x)) l | _ => false end.

Definition isStringArray (v : jsval) : bool := arrayOf isString v.
Definition isNumberArray (v : jsval) : bool := arrayOf isNumber v.

Definition isOptional (v : jsval) (g : jsval -> bool) : bool :=
  match v with None => true | Some _ => g v end.

Definition isOptionalStringOrNull (v : jsval) : bool :=
  match v with None | Some JNull => true | _ => isString v end.

(** [Object.keys(v)] of a record. *)
Definition keys_of (v : jsval) : list jstr := match v with Some (JObj kvs) => mkeys kvs | _ => [] end.

(** [v === true] and [v.length > 0] for a string. *)
Definition isTrue (v : jsval) : bool := match v with Some (JBool true) => true | _ => false end.
Definition nonEmptyString (v : jsval) : bool :=
  match v with Some (JStr s) => negb (bool_decide (s = [])) | _ => false end.

Definition parseJsonValue (text : jstr) : json := match parse text with Some v => v | None => JNull end.
Definition parseJsonObject (text : jstr) : option json :=
  let value := parseJsonValue text in if isRecord (Some value) then Some value else None.

(** ** Methods *)

Inductive ControlRpcMethod :=
  | connectDevices | connectUsbClients | watchNetworkDeviceAtIp
  | startDeviceClientWatcher | stopDeviceClientWatcher | disconnectDevice
  | shutdownDaemon | startWSServer | startAllDeviceClientWatchers
  | stopAllDeviceClientWatchers | sendMessageWithReply
  | sendMessageWithoutReply | closeClient.

#[export] Instance method_eq_dec : EqDecision ControlRpcMethod.
Proof. solve_decision. Defined.

Definition CONTROL_RPC_METHODS : list ControlRpcMethod :=
  [connectDevices; connectUsbClients; watchNetworkDeviceAtIp;
   startDeviceClientWatcher; stopDeviceClientWatcher; disconnectDevice;
   shutdownDaemon; startWSServer; startAllDeviceClientWatchers;
   stopAllDeviceClientWatchers; sendMessageWithReply;
   sendMessageWithoutReply; closeClient].

Definition method_name (m : ControlRpcMethod) : jstr :=
  js match m with
     | connectDevices => "connectDevices"
     | connectUsbClients => "connectUsbClients"
     | watchNetworkDeviceAtIp => "watchNetworkDeviceAtIp"
     | startDeviceClientWatcher => "startDeviceClientWatcher"
     | stopDeviceClientWatcher => "stopDeviceClientWatcher"
     | disconnectDevice => "disconnectDevice"
     | shutdownDaemon => "shutdownDaemon"
     | startWSServer => "startWSServer"
     | startAllDeviceClientWatchers => "startAllDeviceClientWatchers"
     | stopAllDeviceClientWatchers => "stopAllDeviceClientWatchers"
     | sendMessageWithReply => "sendMessageWithReply"
     | sendMessageWithoutReply => "sendMessageWithoutReply"
     | closeClient => "closeClient"
     end.

(** The member of [CONTROL_RPC_METHODS] a string names, if any. *)
Definition method_of (v : jsval) : option ControlRpcMethod :=
  match v with
  | Some (JStr s) => List.find (fun m => bool_decide (method_name m = s)) CONTROL_RPC_METHODS
  | _ => None
  end.

Definition isControlRpcMethod (v : jsval) : bool :=
  match method_of v with Some _ => true | None => false end.

(** ** Snapshots and diagnostics *)

Definition isMultiplexerDebugInfo (v : jsval) : bool :=
  isRecord v &&
  (isOptional (v@."protocolVersion") isNumber && isOptional (v@."clientVersion") isString &&
   isOptional (v@."daemonVersion") isString && isOptional (v@."processId") isNumber &&
   isOptional (v@."timestamp") isNumber).

Definition isDeviceSnapshot (v : jsval) : bool :=
  isRecord v &&
  (isString (v@."os") && isString (v@."title") && isString (v@."serial") &&
   isNumberArray (v@."ports") && isString (v@."host")).

Definition isClientSnapshot (v : jsval) : bool :=
  if negb (isRecord v) || negb (isNumber (v@."port")) || negb (isNumber (v@."id")) then false
  else
    let query := v@."query" in
    isRecord query && isString (query@."app") && isString (query@."os") &&
    isString (query@."device") && isString (query@."device_model") &&
    isString (query@."device_id") && isOptional (query@."sdk_version") isString.

Definition isWebSocketClientSnapshot (v : jsval) : bool :=
  isRecord v && isNumber (v@."id") && isString (v@."app") && isString (v@."debugRouterVersion") &&
  isString (v@."deviceModel") && jeq_str (v@."network") (js "WiFi") && isString (v@."osVersion") &&
  isString (v@."sdkVersion") && isString (v@."type") && hasOwn (js "raw_info") v.

Definition isWebSocketClientSnapshotArray (v : jsval) : bool := arrayOf isWebSocketClientSnapshot v.

Definition isSnapshot (v : jsval) : bool :=
  isRecord v && isNumber (v@."protocolVersion") && isNumber (v@."generatedAt") &&
  arrayOf isDeviceSnapshot (v@."devices") && arrayOf isClientSnapshot (v@."clients") &&
  isOptional (v@."websocketAppClients") isWebSocketClientSnapshotArray &&
  isOptional (v@."websocketWebClients") isWebSocketClientSnapshotArray &&
  isOptional (v@."debugInfo") isMultiplexerDebugInfo.

(** ** Handshake *)

Definition isControlRpcError (v : jsval) : bool :=
  isRecord v && isString (v@."code") && isString (v@."message").

Definition isMultiplexerHealthRequest (v : jsval) : bool :=
  isRecord v && jeq_str (v@."kind") (js "health") && isOptional (v@."debugInfo") isMultiplexerDebugInfo.

Definition isMultiplexerHealthResponse (v : jsval) : bool :=
  isRecord v && jeq_str (v@."kind") (js "health-response") && isTrue (v@."ok") &&
  isNumber (v@."protocolVersion") && isBoolean (v@."isInUse") &&
  isOptional (v@."debugInfo") isMultiplexerDebugInfo.

Definition isMultiplexerHandshakeErrorResponse (v : jsval) : bool :=
  isRecord v && jeq_str (v@."kind") (js "handshake-error-response") && isControlRpcError (v@."error").

Definition isMultiplexerRegisterResponse (v : jsval) : bool :=
  isRecord v && jeq_str (v@."kind") (js "register-response") && isTrue (v@."ok").

(** [n >= 0] for a finite Number. *)
Definition isNonNegative (v : jsval) : bool :=
  match v with Some (JNum n) => num_isFinite n && num_leb (NInt 0) n | _ => false end.

Definition facade_bool_keys : list string :=
  ["manualConnect"; "enableWebSocket"; "enableAndroid"; "enableIOS"; "enableHarmony";
   "enableDesktop"; "enableNetworkDevice"]%string.

Definition isHostPort (v : jsval) : bool :=
  isRecord v && isOptional (v@."host") isString && isOptional (v@."port") isNumber.

Definition isConnectorFacadeOption (v : jsval) : bool :=
  isRecord v &&
  (forallb (fun key => bool_decide (key ∈ List.map js (facade_bool_keys ++
      ["adbHostPort"; "hdcHostPort"; "usbConnectOpt"; "networkDeviceOpt"]%string))) (keys_of v) &&
   forallb (fun key => isOptional (jget (js key) v) isBoolean) facade_bool_keys &&
   isOptional (v@."adbHostPort") isHostPort && isOptional (v@."hdcHostPort") isHostPort &&
   isOptional (v@."usbConnectOpt") (fun o => isRecord o && isNonNegative (o@."retryTime")) &&
   isOptional (v@."networkDeviceOpt")
     (fun o => isRecord o && nonEmptyString (o@."ip") && isOptional (o@."port") isNumberArray)).

Definition isMultiplexerRegisterRequest (v : jsval) : bool :=
  isRecord v && jeq_str (v@."kind") (js "register") && isBoolean (v@."reportServiceEnabled") &&
  isOptional (v@."connectorFacadeOption") isConnectorFacadeOption &&
  isOptional (v@."debugInfo") isMultiplexerDebugInfo.

(** ** RPC requests *)

Definition isRequireMessage (v : jsval) : bool :=
  if negb (isRecord v) || negb (isString (v@."event")) then false
  else if jeq_str (v@."event") (js "Initialize") then isNumber (v@."data")
  else if negb (jeq_str (v@."event") (js "Customized")) || negb (isRecord (v@."data")) then false
  else
    let data := v@."data" in
    let payload := data@."data" in
    isString (data@."type") && isRecord payload && isNumber (payload@."client_id") &&
    isNumber (payload@."session_id") && hasOwn (js "message") payload && isNumber (data@."sender").

Definition isResponseMessage (v : jsval) : bool :=
  if negb (isRecord v) || negb (isString (v@."event")) then false
  else if jeq_str (v@."event") (js "Register") then
    let data := v@."data" in
    let info := data@."info" in
    isRecord data && isNumber (data@."id") && isRecord info && isOptional (info@."app") isString &&
    isOptional (info@."appVersion") isString && isOptional (info@."deviceModel") isString &&
    isOptional (info@."network") isString && isOptional (info@."osVersion") isString &&
    isOptional (info@."sdkVersion") isString
  else jeq_str (v@."event") (js "Customized") && hasOwn (js "data") v.

(** [params.clientId === -1]. *)
Definition isMinusOne (v : jsval) : bool :=
  match v with Some (JNum n) => num_eqb n (NInt (-1)) | _ => false end.

Definition isControlRpcParams (method : ControlRpcMethod) (params : jsval) : bool :=
  isRecord params &&
  match method with
  | connectDevices =>
      isOptional (params@."timeout") isNumber && isOptionalStringOrNull (params@."serial") &&
      isOptional (params@."isAutoListenClients") isBoolean
  | connectUsbClients =>
      isString (params@."deviceId") && isOptional (params@."timeout") isNumber &&
      isOptional (params@."waitTimeout") isBoolean && isOptionalStringOrNull (params@."clientName")
  | watchNetworkDeviceAtIp =>
      nonEmptyString (params@."ip") && isOptional (params@."port") isNumberArray &&
      forallb (fun key => bool_decide (key = js "ip") || bool_decide (key = js "port")) (keys_of params)
  | startDeviceClientWatcher | stopDeviceClientWatcher =>
      nonEmptyString (params@."deviceId") && bool_decide (List.length (keys_of params) = 1%nat)
  | disconnectDevice => isString (params@."deviceId")
  | shutdownDaemon => isOptional (params@."reason") isString
  | startWSServer | startAllDeviceClientWatchers | stopAllDeviceClientWatchers =>
      bool_decide (List.length (keys_of params) = 0%nat)
  | sendMessageWithReply =>
      isNumber (params@."clientId") && isRequireMessage (params@."message") &&
      isOptional (params@."timeout") isNonNegative
  | sendMessageWithoutReply =>
      (jeq_str (params@."target") (js "app") || jeq_str (params@."target") (js "web")) &&
      isNumber (params@."clientId") &&
      negb (jeq_str (params@."target") (js "app") && isMinusOne (params@."clientId")) &&
      hasOwn (js "message") params
  | closeClient => isNumber (params@."clientId")
  end.

Definition isControlRpcRequest (v : jsval) : bool :=
  if negb (isRecord v) || negb (jeq_str (v@."kind") (js "rpc")) || negb (isNumber (v@."id"))
     || negb (isControlRpcMethod (v@."method"))
     || negb (isOptional (v@."debugInfo") isMultiplexerDebugInfo)
  then false
  else match method_of (v@."method") with
       | Some m => isControlRpcParams m (v@."params")
       | None => false
       end.

(** ** RPC responses *)

Definition isEmptyRecord (v : jsval) : bool :=
  isRecord v && bool_decide (List.length (keys_of v) = 0%nat).

Definition isWebSocketServerInfo (v : jsval) : bool :=
  isRecord v && isNumber (v@."port") && isString (v@."host") && isOptional (v@."roomId") isString.

Definition isControlRpcResult (method : option ControlRpcMethod) (result : jsval) : bool :=
  match method with
  | None => true
  | Some m =>
      match m with
      | connectDevices => arrayOf isDeviceSnapshot result
      | connectUsbClients => arrayOf isClientSnapshot result
      | sendMessageWithReply => isResponseMessage result
      | startWSServer => isWebSocketServerInfo result
      | watchNetworkDeviceAtIp | startDeviceClientWatcher | stopDeviceClientWatcher
      | startAllDeviceClientWatchers | stopAllDeviceClientWatchers | disconnectDevice
      | shutdownDaemon | sendMessageWithoutReply | closeClient => isEmptyRecord result
      end
  end.

Definition isControlRpcResponse (v : jsval) (method : option ControlRpcMethod) : bool :=
  if negb (isRecord v) || negb (jeq_str (v@."kind") (js "rpc-response")) || negb (isNumber (v@."id"))
     || negb (isBoolean (v@."ok")) || negb (isOptional (v@."debugInfo") isMultiplexerDebugInfo)
  then false
  else if truthy (v@."ok") then isControlRpcResult method (v@."result")
  else isControlRpcError (v@."error").

(** ** Events *)

Definition isLegacyOwnershipChangedEventData (v : jsval) : bool :=
  isRecord v &&
  ((jeq_str (v@."status") (js "attached") || jeq_str (v@."status") (js "unattached")) &&
   isNumber (v@."ownerPid") && isOptional (v@."previousOwnerPid") isNumber &&
   (jeq_str (v@."reason") (js "daemon-started") || jeq_str (v@."reason") (js "legacy-preempted") ||
    jeq_str (v@."reason") (js "reacquire-requested") || jeq_str (v@."reason") (js "stale-owner") ||
    jeq_str (v@."reason") (js "invalid-owner"))).

Definition isControlEvent (v : jsval) : bool :=
  if negb (isRecord v) || negb (jeq_str (v@."kind") (js "event")) || negb (isString (v@."event"))
     || negb (isOptional (v@."debugInfo") isMultiplexerDebugInfo)
  then false
  else
    let data := v@."data" in
    if jeq_str (v@."event") (js "connector-error") then
      isRecord data && isString (data@."code") && isString (data@."message") &&
      isOptional (data@."deviceSerial") isString && isOptional (data@."clientId") isNumber
    else if jeq_str (v@."event") (js "report") then
      isRecord data && isString (data@."eventName") && hasOwn (js "metrics") data &&
      hasOwn (js "categories") data
    else if jeq_str (v@."event") (js "snapshot") then isSnapshot data
    else if jeq_str (v@."event") (js "legacy-ownership-changed") then
      isLegacyOwnershipChangedEventData data
    else if jeq_str (v@."event") (js "client-message") then
      isRecord data &&
      (jeq_str (data@."source") (js "usb-runtime") || jeq_str (data@."source") (js "websocket-runtime") ||
       jeq_str (data@."source") (js "websocket-driver")) &&
      isNumber (data@."id") && isString (data@."message")
    else false.

(** ** Message types *)

Definition MULTIPLEXER_PROTOCOL_VERSION : Z := 2.

(** An object literal with its properties in order. *)
Definition jobj (kvs : list (list (jstr * json))) : json := JObj (concat kvs).
Definition field (k : string) (v : json) : list (jstr * json) := [(js k, v)].

(** [details] is carried but not part of the validated type. *)
Record ControlRpcError := mkError {
  err_code : jstr;
  err_message : jstr;
  err_details : jsval
}.

Definition error_json (e : ControlRpcError) : json :=
  jobj [field "code" (JStr (err_code e)); field "message" (JStr (err_message e));
        opt_field "details" (err_details e)].

Record DeviceSnapshot := mkDeviceSnapshot {
  ds_os : jstr; ds_title : jstr; ds_serial : jstr; ds_ports : list Z; ds_host : jstr
}.

Definition device_json (d : DeviceSnapshot) : json :=
  jobj [field "os" (JStr (ds_os d)); field "title" (JStr (ds_title d));
        field "serial" (JStr (ds_serial d)); field "ports" (JArr (List.map jint (ds_ports d)));
        field "host" (JStr (ds_host d))].

(** [app], [device_model] and [sdk_version] are copied from what the runtime
    sent when it registered and are not checked to be strings there. *)
Record ClientQuery := mkClientQuery {
  q_app : json; q_os : jstr; q_device : jstr; q_device_model : json;
  q_device_id : jstr; q_sdk_version : jsval; q_raw_info : jsval
}.

Record ClientDescription := mkClientDescription {
  cd_port : Z; cd_id : Z; cd_query : ClientQuery
}.

Definition query_json (q : ClientQuery) : json :=
  jobj [field "app" (q_app q); field "os" (JStr (q_os q)); field "device" (JStr (q_device q));
        field "device_model" (q_device_model q); field "device_id" (JStr (q_device_id q));
        opt_field "sdk_version" (q_sdk_version q); opt_field "raw_info" (q_raw_info q)].

Definition client_json (c : ClientDescription) : json :=
  jobj [field "port" (jint (cd_port c)); field "id" (jint (cd_id c)); field "query" (query_json (cd_query c))].

(** The identity a WebSocket client registered with; also untrusted. *)
Record WebSocketClientInfo := mkWsInfo {
  wi_id : Z; wi_app : json; wi_debugRouterVersion : json; wi_deviceModel : json;
  wi_osVersion : json; wi_sdkVersion : json; wi_type : jsval; wi_raw_info : jsval
}.

Record Snapshot := mkSnapshot {
  sn_protocolVersion : Z;
  sn_generatedAt : Z;
  sn_devices : list DeviceSnapshot;
  sn_clients : list ClientDescription;
  sn_websocketAppClients : option (list WebSocketClientInfo);
  sn_websocketWebClients : option (list WebSocketClientInfo);
  sn_debugInfo : jsval
}.

(** The serialised WebSocket client, [serializeWebSocketClient] of the host:
    [raw_info: cloneJsonValue(info.raw_info) ?? null]. *)
Definition serializeWebSocketClient (i : WebSocketClientInfo) : json :=
  jobj [field "id" (jint (wi_id i)); field "app" (wi_app i);
        field "debugRouterVersion" (wi_debugRouterVersion i); field "deviceModel" (wi_deviceModel i);
        field "network" (jstring "WiFi"); field "osVersion" (wi_osVersion i);
        field "sdkVersion" (wi_sdkVersion i); opt_field "type" (wi_type i);
        field "raw_info" (default JNull (wi_raw_info i))].

Definition snapshot_json (s : Snapshot) : json :=
  jobj [field "protocolVersion" (jint (sn_protocolVersion s));
        field "generatedAt" (jint (sn_generatedAt s));
        field "devices" (JArr (List.map device_json (sn_devices s)));
        field "clients" (JArr (List.map client_json (sn_clients s)));
        opt_field "debugInfo" (sn_debugInfo s);
        opt_field "websocketAppClients"
          ((fun l => JArr (List.map serializeWebSocketClient l)) <$> sn_websocketAppClients s);
        opt_field "websocketWebClients"
          ((fun l => JArr (List.map serializeWebSocketClient l)) <$> sn_websocketWebClients s)].

Inductive OwnershipStatus := attached | unattached | unInit.
#[export] Instance status_eq_dec : EqDecision OwnershipStatus.
Proof. solve_decision. Defined.

Inductive OwnershipReason :=
  | daemon_started | legacy_preempted | reacquire_requested | stale_owner | invalid_owner.
#[export] Instance reason_eq_dec : EqDecision OwnershipReason.
Proof. solve_decision. Defined.

(** [LegacyOwnershipChange]; its status is never [unInit]. *)
Record OwnershipChange := mkChange {
  oc_status : OwnershipStatus; oc_ownerPid : Z; oc_previousOwnerPid : option num;
  oc_reason : OwnershipReason
}.

Definition status_name (s : OwnershipStatus) : string :=
  match s with attached => "attached" | unattached => "unattached" | unInit => "unInit" end.
Definition reason_name (r : OwnershipReason) : string :=
  match r with
  | daemon_started => "daemon-started" | legacy_preempted => "legacy-preempted"
  | reacquire_requested => "reacquire-requested" | stale_owner => "stale-owner"
  | invalid_owner => "invalid-owner"
  end.

Inductive MessageSource := usb_runtime | websocket_runtime | websocket_driver.
#[export] Instance source_eq_dec : EqDecision MessageSource.
Proof. solve_decision. Defined.

Definition source_name (s : MessageSource) : string :=
  match s with
  | usb_runtime => "usb-runtime" | websocket_runtime => "websocket-runtime"
  | websocket_driver => "websocket-driver"
  end.

Inductive ControlEvent :=
  | EvConnectorError (code message : jstr) (deviceSerial : option jstr) (clientId : option Z)
  | EvReport (eventName : jstr) (metrics categories : json)
  | EvSnapshot (s : Snapshot)
  | EvOwnership (c : OwnershipChange)
  | EvClientMessage (source : MessageSource) (id : Z) (message : jstr).

Definition event_name (e : ControlEvent) : string :=
  match e with
  | EvConnectorError _ _ _ _ => "connector-error"
  | EvReport _ _ _ => "report"
  | EvSnapshot _ => "snapshot"
  | EvOwnership _ => "legacy-ownership-changed"
  | EvClientMessage _ _ _ => "client-message"
  end.

Definition event_data (e : ControlEvent) : json :=
  match e with
  | EvConnectorError code message serial cid =>
      jobj [field "code" (JStr code); field "message" (JStr message);
            opt_field "deviceSerial" (JStr <$> serial); opt_field "clientId" (jint <$> cid)]
  | EvReport name metrics categories =>
      jobj [field "eventName" (JStr name); field "metrics" metrics; field "categories" categories]
  | EvSnapshot s => snapshot_json s
  | EvOwnership c =>
      jobj [field "status" (jstring (status_name (oc_status c))); field "ownerPid" (jint (oc_ownerPid c));
            opt_field "previousOwnerPid" (JNum <$> oc_previousOwnerPid c);
            field "reason" (jstring (reason_name (oc_reason c)))]
  | EvClientMessage src id message =>
      jobj [field "source" (jstring (source_name src)); field "id" (jint id); field "message" (JStr message)]
  end.

(** The envelope, with the diagnostics a connection adds when it has any. *)
Definition event_json (debugInfo : jsval) (e : ControlEvent) : json :=
  jobj [field "kind" (jstring "event"); field "event" (jstring (event_name e));
        field "data" (event_data e); opt_field "debugInfo" debugInfo].

(** An RPC response: [ok] with a result or an error. *)
Definition response_json (debugInfo : jsval) (id : num) (r : json + ControlRpcError) : json :=
  match r with
  | inl result =>
      jobj [field "kind" (jstring "rpc-response"); field "id" (JNum id); field "ok" (JBool true);
            field "result" result; opt_field "debugInfo" debugInfo]
  | inr e =>
      jobj [field "kind" (jstring "rpc-response"); field "id" (JNum id); field "ok" (JBool false);
            field "error" (error_json e); opt_field "debugInfo" debugInfo]
  end.

Definition health_response_json (protocolVersion : Z) (isInUse : bool) (debugInfo : jsval) : json :=
  jobj [field "kind" (jstring "health-response"); field "ok" (JBool true);
        field "protocolVersion" (jint protocolVersion); field "isInUse" (JBool isInUse);
        opt_field "debugInfo" debugInfo].

Definition register_response_json : json :=
  jobj [field "kind" (jstring "register-response"); field "ok" (JBool true)].

Definition handshake_error_json (e : ControlRpcError) : json :=
  jobj [field "kind" (jstring "handshake-error-response"); field "error" (error_json e)].

Definition request_json (id : num) (m : ControlRpcMethod) (params : json) (debugInfo : jsval) : json :=
  jobj [field "kind" (jstring "rpc"); field "id" (JNum id); field "method" (JStr (method_name m));
        field "params" params; opt_field "debugInfo" debugInfo].

Definition register_request_json (reportServiceEnabled : bool) (option debugInfo : jsval) : json :=
  jobj [field "kind" (jstring "register"); field "reportServiceEnabled" (JBool reportServiceEnabled);
        opt_field "connectorFacadeOption" option; opt_field "debugInfo" debugInfo].

(** A validated request, as the dispatcher sees it. *)
Record ControlRpcRequest := mkRequest {
  rq_id : num; rq_method : ControlRpcMethod; rq_params : json
}.

Definition decode_request (v : json) : option ControlRpcRequest :=
  if isControlRpcRequest (Some v) then
    match (Some v)@."id", method_of ((Some v)@."method"), (Some v)@."params" with
    | Some (JNum id), Some m, Some params => Some (mkRequest id m params)
    | _, _, _ => None
    end
  else None.

(** ** Reading object literals *)

Lemma jget_here k v l : jget k (Some (JObj ((k, v) :: l))) = Some v.
Proof. cbn. by rewrite decide_True. Qed.

Lemma jget_next k k' v l : k <> k' -> jget k (Some (JObj ((k', v) :: l))) = jget k (Some (JObj l)).
Proof. intros H. cbn. by rewrite decide_False. Qed.

Lemma jget_end k : jget k (Some (JObj [])) = None.
Proof. done. Qed.

Lemma hasOwn_here k v l : hasOwn k (Some (JObj ((k, v) :: l))) = true.
Proof. cbn. unfold mhas. cbn. by rewrite decide_True. Qed.

Lemma hasOwn_next k k' v l : k <> k' -> hasOwn k (Some (JObj ((k', v) :: l))) = hasOwn k (Some (JObj l)).
Proof. intros H. cbn. unfold mhas. cbn. by rewrite decide_False. Qed.

Ltac js_neq := let H := fresh in intros H; vm_compute in H; discriminate H.

(** Evaluate the property reads of an object literal. *)
Ltac jsimp :=
  unfold jobj, field, opt_field, jstring; cbn [concat app];
  repeat first [ rewrite jget_here | rewrite jget_next by js_neq | rewrite jget_end
               | rewrite hasOwn_here | rewrite hasOwn_next by js_neq ].

Lemma jeq_str_eq s t : jeq_str (Some (JStr s)) t = bool_decide (s = t).
Proof. done. Qed.

Lemma method_of_name m : method_of (Some (JStr (method_name m))) = Some m.
Proof. destruct m; vm_compute; reflexivity. Qed.

(** A validated request decodes. *)
Lemma decode_request_total v : isControlRpcRequest (Some v) = true ->
  exists r, decode_request v = Some r /\ num_isFinite (rq_id r) = true /\
    isControlRpcParams (rq_method r) (Some (rq_params r)) = true.
Proof.
  intros H. unfold decode_request. rewrite H. unfold isControlRpcRequest in H.
  destruct (_ || _) eqn:E in H; [done|]. rewrite !orb_false_iff, !negb_false_iff in E.
  destruct E as [[[[_ _] Hid] _] _].
  destruct ((Some v)@."id") as [[| |n| | |]|] eqn:Ei; try done.
  destruct (method_of ((Some v)@."method")) as [m|] eqn:Em; [|done].
  destruct ((Some v)@."params") as [p|] eqn:Ep; [|by destruct m].
  eexists. split; [reflexivity|]. done.
Qed.

(** The daemon reads the request a connector built. *)
Lemma request_decodes (id : Z) (m : ControlRpcMethod) (params : json) (dbg : jsval) :
  isControlRpcParams m (Some params) = true -> isOptional dbg isMultiplexerDebugInfo = true ->
  decode_request (request_json (NInt id) m params dbg) = Some (mkRequest (NInt id) m params).
Proof.
  intros Hp Hd. unfold decode_request, isControlRpcRequest, isControlRpcMethod, request_json.
  destruct dbg as [d|]; jsimp; rewrite method_of_name, ?jeq_str_eq, bool_decide_eq_true_2 by done;
    cbn -[isControlRpcParams]; cbn in Hd; rewrite ?Hd, Hp; done.
Qed.

(** ** What the daemon sends is valid *)

Definition str_or_none (v : jsval) : bool := isOptional v isString.

(** The registration fields the validators require to be strings. *)
Definition query_typed (q : ClientQuery) : bool :=
  isString (Some (q_app q)) && isString (Some (q_device_model q)) && str_or_none (q_sdk_version q).

Definition wsinfo_typed (i : WebSocketClientInfo) : bool :=
  isString (Some (wi_app i)) && isString (Some (wi_debugRouterVersion i)) &&
  isString (Some (wi_deviceModel i)) && isString (Some (wi_osVersion i)) &&
  isString (Some (wi_sdkVersion i)) && isString (wi_type i).

Definition snapshot_typed (s : Snapshot) : bool :=
  forallb (fun c => query_typed (cd_query c)) (sn_clients s) &&
  forallb wsinfo_typed (default [] (sn_websocketAppClients s)) &&
  forallb wsinfo_typed (default [] (sn_websocketWebClients s)) &&
  isOptional (sn_debugInfo s) isMultiplexerDebugInfo.

Definition event_typed (e : ControlEvent) : bool :=
  match e with
  | EvSnapshot s => snapshot_typed s
  | EvOwnership c => negb (bool_decide (oc_status c = unInit)) &&
      match oc_previousOwnerPid c with Some n => num_isFinite n | None => true end
  | _ => true
  end.

Lemma isNumber_jint z : isNumber (Some (jint z)) = true.
Proof. done. Qed.

Lemma isNumberArray_jint l : isNumberArray (Some (JArr (List.map jint l))) = true.
Proof. cbn. by induction l. Qed.

Lemma device_valid d : isDeviceSnapshot (Some (device_json d)) = true.
Proof. unfold isDeviceSnapshot, device_json. jsimp. rewrite isNumberArray_jint. done. Qed.

Lemma isString_JStr s : isString (Some (JStr s)) = true.
Proof. done. Qed.

(** A client entry is valid exactly when its registration data is. *)
Lemma client_valid c : isClientSnapshot (Some (client_json c)) = query_typed (cd_query c).
Proof.
  unfold isClientSnapshot, client_json, query_json, query_typed, str_or_none.
  destruct (cd_query c) as [app os dev model did [sdk|] [raw|]]; cbn [q_app q_os q_device
    q_device_model q_device_id q_sdk_version q_raw_info]; jsimp; rewrite !isNumber_jint, !isString_JStr;
    cbn [isRecord negb orb isOptional]; by rewrite ?andb_true_l, ?andb_true_r.
Qed.

Lemma wsclient_valid i : isWebSocketClientSnapshot (Some (serializeWebSocketClient i)) = wsinfo_typed i.
Proof.
  unfold isWebSocketClientSnapshot, serializeWebSocketClient, wsinfo_typed.
  destruct i as [id app ver model osv sdk [ty|] raw]; cbn [wi_id wi_app wi_debugRouterVersion
    wi_deviceModel wi_osVersion wi_sdkVersion wi_type wi_raw_info]; jsimp; rewrite isNumber_jint,
    jeq_str_eq, bool_decide_eq_true_2 by done; cbn [isRecord]; by rewrite ?andb_true_l, ?andb_true_r.
Qed.

Lemma arrayOf_map {A} (g : jsval -> bool) (f : A -> json) (p : A -> bool) l :
  (forall x, g (Some (f x)) = p x) -> arrayOf g (Some (JArr (List.map f l))) = forallb p l.
Proof. intros H. cbn. induction l as [|x l IH]; [done|]. cbn. by rewrite H, IH. Qed.

(** A snapshot is valid exactly when all registration data in it is. *)
Lemma snapshot_valid s : isSnapshot (Some (snapshot_json s)) = snapshot_typed s.
Proof.
  unfold isSnapshot, snapshot_json, snapshot_typed, isWebSocketClientSnapshotArray.
  assert (forall l, arrayOf isDeviceSnapshot (Some (JArr (List.map device_json l))) = true) as Hd.
  { intros l. rewrite (arrayOf_map _ _ (fun _ => true)) by apply device_valid. by induction l. }
  destruct s as [pv ga devs clients [apps|] [webs|] [dbg|]]; cbn [sn_protocolVersion sn_generatedAt
    sn_devices sn_clients sn_websocketAppClients sn_websocketWebClients sn_debugInfo fmap option_fmap
    option_map default]; jsimp; rewrite Hd, (arrayOf_map _ client_json _ clients client_valid);
    cbn [isOptional]; rewrite ?(arrayOf_map _ _ _ _ wsclient_valid); cbn;
    rewrite ?andb_true_r; try done; rewrite <- ?andb_assoc; try done.
Qed.

Lemma event_valid dbg e : isOptional dbg isMultiplexerDebugInfo = true ->
  event_typed e = true -> isControlEvent (Some (event_json dbg e)) = true.
Proof.
  intros Hd He. unfold isControlEvent, event_json.
  assert (forall d, (Some (jobj [field "kind" (jstring "event"); field "event" (jstring (event_name e));
        field "data" (event_data e); opt_field "debugInfo" d]))@."data" = Some (event_data e)) as Hdata
    by (intros; by jsimp).
  rewrite Hdata. clear Hdata.
  destruct dbg as [d|]; jsimp; cbn [isOptional] in *; rewrite ?Hd;
  (destruct e as [c m [ser|] [cid|]|n me ca|s|[st ow [pr|] re]|so i m];
    [ cbn; reflexivity..|cbn -[isSnapshot]; by rewrite snapshot_valid| | |];
    cbn [event_name event_data event_typed oc_status oc_previousOwnerPid] in *; destruct st || destruct so; try done;
    try (destruct pr as [z|[]]; try done; destruct re; vm_compute; reflexivity);
    try (destruct re; vm_compute; reflexivity); vm_compute; reflexivity).
Qed.

(** Every event the daemon sends is accepted by a connector.  An event
    whose data has the types of the protocol is, after serialisation, framing
    and parsing, the same value, and [isControlEvent] accepts it. *)
Theorem event_accepted dbg e :
  isOptional dbg isMultiplexerDebugInfo = true -> event_typed e = true ->
  wf_json (event_json dbg e) = true ->
  parseJsonValue (stringify (event_json dbg e)) = event_json dbg e /\
  isControlEvent (Some (parseJsonValue (stringify (event_json dbg e)))) = true.
Proof.
  intros Hd He Hwf. unfold parseJsonValue. rewrite parse_stringify by done.
  split; [done|]. by apply event_valid.
Qed.

Lemma event_accepted_example :
  let e := EvOwnership (mkChange unattached 10 (Some (NInt 11)) legacy_preempted) in
  isControlEvent (Some (parseJsonValue (stringify (event_json None e)))) = true.
Proof. intros e. apply (event_accepted None e); vm_compute; reflexivity. Defined.

(** C40: One runtime that registers with data of another type blinds every
    connector: a snapshot event is accepted exactly when the registration data
    of all runtimes in it is well typed, so a single USB runtime whose [App],
    [deviceModel] or [sdkVersion] is not a string, or a WebSocket client with
    such a field or without a [type], makes connectors reject the whole
    snapshot. *)
Theorem snapshot_accepted_iff dbg s :
  isOptional dbg isMultiplexerDebugInfo = true ->
  isControlEvent (Some (event_json dbg (EvSnapshot s))) = snapshot_typed s.
Proof.
  intros Hd. unfold isControlEvent, event_json.
  destruct dbg as [d|]; jsimp; cbn [isOptional] in *; rewrite ?Hd; cbn -[isSnapshot]; apply snapshot_valid.
Qed.

Lemma snapshot_accepted_iff_witness :
  isControlEvent (Some (event_json None (EvSnapshot
    (mkSnapshot 2 0 [] [mkClientDescription 0 1 (mkClientQuery (jint 5) [] [] (JStr []) [] None None)] None None None))))
  = false.
Proof. rewrite snapshot_accepted_iff; [reflexivity|reflexivity]. Defined.
