(* ===== verification/PendingRoutes.v ===== *)
(** * The table of pending routes

    Models [multiplexer/daemon/PendingRouteTable.ts]: requests forwarded to a
    runtime under a global message id, with the requester and original id to
    restore in the response, one timer per route, and bulk removal by
    requester or target.  The [setTimeout] timers of the table are explicit:
    [pr_timers] are those that are armed. *)

From Stdlib Require Import SpecFloat String.
From stdpp Require Import gmap.
From S2P Require Import JsValue.

Definition DEFAULT_PENDING_ROUTE_TIMEOUT_MS : Z := 100000.

Inductive RouteKind := RControl | RWebSocket.

#[export] Instance kind_eq_dec : EqDecision RouteKind.
Proof. solve_decision. Defined.

Section Table.
(** The daemon-side promise callbacks of a control request. *)
Context {CB : Type}.

Record PendingRouteInput := mkInput {
  in_kind : RouteKind;
  in_requesterId : Z;
  in_originalId : num;
  in_clientId : Z;
  in_timeoutMs : option num;
  in_resolve : option CB;
  in_reject : option CB
}.

Record PendingRoute := mkRoute {
  r_input : PendingRouteInput;
  r_globalMessageId : Z;
  r_createdAt : Z;
  r_timer : Z
}.

Record PendingRouteTable := mkTable {
  pr_routes : list (Z * PendingRoute);
  pr_nextGlobalMessageId : Z;
  pr_timeoutMs : num;
  pr_timers : list (Z * (Z * Z));   (* timer -> global id, due time *)
  pr_nextTimer : Z                  (* identity of the next timer object *)
}.

#[export] Instance eta_table : Eta PendingRouteTable := fun t =>
  mkTable (pr_routes t) (pr_nextGlobalMessageId t) (pr_timeoutMs t) (pr_timers t) (pr_nextTimer t).

Definition r_kind (r : PendingRoute) := in_kind (r_input r).
Definition r_requesterId (r : PendingRoute) := in_requesterId (r_input r).
Definition r_originalId (r : PendingRoute) := in_originalId (r_input r).
Definition r_clientId (r : PendingRoute) := in_clientId (r_input r).
Definition r_resolve (r : PendingRoute) := in_resolve (r_input r).
Definition r_reject (r : PendingRoute) := in_reject (r_input r).

Definition new_table (timeoutMs : option num) : PendingRouteTable :=
  mkTable [] 1 (default (NInt DEFAULT_PENDING_ROUTE_TIMEOUT_MS) timeoutMs) [] 0.

Definition createGlobalMessageId (t : PendingRouteTable) : Z * PendingRouteTable :=
  (pr_nextGlobalMessageId t, t <| pr_nextGlobalMessageId ::= js_succ |>).

Definition createTimer (g : Z) (timeoutMs : num) (now : Z) (t : PendingRouteTable) : Z * PendingRouteTable :=
  (pr_nextTimer t,
   t <| pr_timers ::= mset (pr_nextTimer t) (g, now + node_delay timeoutMs) |>
     <| pr_nextTimer := pr_nextTimer t + 1 |>).

Definition add (i : PendingRouteInput) (now : Z) (t : PendingRouteTable) : PendingRoute * PendingRouteTable :=
  let '(g, t) := createGlobalMessageId t in
  let '(timer, t) := createTimer g (default (pr_timeoutMs t) (in_timeoutMs i)) now t in
  let route := mkRoute i g now timer in
  (route, t <| pr_routes ::= mset g route |>).

Definition get (g : Z) (t : PendingRouteTable) : option PendingRoute := mget g (pr_routes t).

Definition remove (g : Z) (shouldClearTimer : bool) (t : PendingRouteTable) : option PendingRoute * PendingRouteTable :=
  match mget g (pr_routes t) with
  | None => (None, t)
  | Some route =>
      let t := t <| pr_routes ::= mdel g |> in
      (Some route, if shouldClearTimer then t <| pr_timers ::= mdel (r_timer route) |> else t)
  end.

Definition take (g : Z) (t : PendingRouteTable) : option PendingRoute * PendingRouteTable := remove g true t.

(** The loop of [clearMatching] over a copy of the values. *)
Fixpoint clear_loop (matches : PendingRoute -> bool) (rs : list PendingRoute) (t : PendingRouteTable)
  : list PendingRoute * PendingRouteTable :=
  match rs with
  | [] => ([], t)
  | r :: rs' =>
      if matches r then
        let '(o, t) := remove (r_globalMessageId r) true t in
        let '(removed, t) := clear_loop matches rs' t in
        (match o with Some route => route :: removed | None => removed end, t)
      else clear_loop matches rs' t
  end.

Definition clearMatching (matches : PendingRoute -> bool) (t : PendingRouteTable) :=
  clear_loop matches (mvals (pr_routes t)) t.

Definition clearByControlId (controlId : Z) (t : PendingRouteTable) :=
  clearMatching (fun r => bool_decide (r_kind r = RControl) && (r_requesterId r =? controlId)) t.

Definition clearByWebClientId (webClientId : Z) (t : PendingRouteTable) :=
  clearMatching (fun r => bool_decide (r_kind r = RWebSocket) && (r_requesterId r =? webClientId)) t.

Definition clearByClientId (clientId : Z) (t : PendingRouteTable) :=
  clearMatching (fun r => r_clientId r =? clientId) t.

Definition clear (t : PendingRouteTable) := clearMatching (fun _ => true) t.

(** The callback of [createTimer]: the route it removes, whose [reject] it
    calls when it is a control route. *)
Definition timer_fires (timer : Z) (t : PendingRouteTable) : option PendingRoute * PendingRouteTable :=
  match mget timer (pr_timers t) with
  | None => (None, t)
  | Some (g, _) => remove g false (t <| pr_timers ::= mdel timer |>)
  end.

Definition timeout_rejects (r : PendingRoute) : option CB :=
  match r_kind r with RControl => r_reject r | RWebSocket => None end.

(** ** Invariant *)

Record table_wf (t : PendingRouteTable) : Prop := {
  wf_routes_nodup : NoDup (mkeys (pr_routes t));
  wf_timers_nodup : NoDup (mkeys (pr_timers t));
  wf_route : forall g r, mget g (pr_routes t) = Some r ->
    r_globalMessageId r = g /\ 1 <= g < pr_nextGlobalMessageId t /\
    exists due, mget (r_timer r) (pr_timers t) = Some (g, due);
  wf_timer : forall tm g due, mget tm (pr_timers t) = Some (g, due) ->
    tm < pr_nextTimer t /\ exists r, mget g (pr_routes t) = Some r /\ r_timer r = tm;
  wf_next : 1 <= pr_nextGlobalMessageId t
}.

Lemma new_table_wf o : table_wf (new_table o).
Proof. split; cbn; try done; apply NoDup_nil_2. Qed.

(** Ids are exhausted only after [2^53] requests. *)
Definition ids_left (t : PendingRouteTable) : Prop := pr_nextGlobalMessageId t <= MAX_SAFE.

Lemma next_not_route t : table_wf t -> mget (pr_nextGlobalMessageId t) (pr_routes t) = None.
Proof.
  intros Hwf. destruct (mget _ _) as [r|] eqn:E; [|done].
  apply (wf_route t Hwf) in E as (_ & ? & _). lia.
Qed.

Lemma next_not_timer t : table_wf t -> mget (pr_nextTimer t) (pr_timers t) = None.
Proof.
  intros Hwf. destruct (mget _ _) as [[g d]|] eqn:E; [|done].
  apply (wf_timer t Hwf) in E as (? & _). lia.
Qed.

Lemma add_wf i now t : table_wf t -> ids_left t -> table_wf (add i now t).2.
Proof.
  intros Hwf Hids. pose proof (next_not_route t Hwf) as Hg. pose proof (next_not_timer t Hwf) as Ht.
  unfold ids_left in Hids. destruct Hwf as [H1 H2 H3 H4 H5].
  cbn -[mset]. split; cbn -[mset].
  - by apply NoDup_mset.
  - by apply NoDup_mset.
  - intros g r. rewrite mget_mset. rewrite js_succ_safe by done. case_decide as E.
    + intros [= <-]. subst. cbn. split; [done|]. split; [lia|]. rewrite mget_mset_eq. eauto.
    + intros Hr. destruct (H3 g r Hr) as (? & ? & due & Hd). split; [done|]. split; [lia|].
      exists due. rewrite mget_mset_ne; [done|]. intros E'. rewrite E' in Hd. congruence.
  - intros tm g due. rewrite mget_mset. case_decide as E.
    + intros [= <- <-]. subst. split; [lia|]. rewrite mget_mset_eq. eauto.
    + intros Hr. destruct (H4 tm g due Hr) as (? & r & Hr' & ?). split; [lia|].
      exists r. rewrite mget_mset_ne; [done|]. congruence.
  - rewrite js_succ_safe by done. lia.
Qed.

(** Removal with [clearTimeout], and the same after the timer fired. *)
Lemma remove_wf g t : table_wf t -> table_wf (remove g true t).2.
Proof.
  intros Hwf. unfold remove. destruct (mget g (pr_routes t)) as [r|] eqn:E; [|done].
  destruct Hwf as [H1 H2 H3 H4 H5]. destruct (H3 g r E) as (Hg & Hlt & due & Hd).
  cbn -[mdel]. split; cbn -[mdel]; [by apply NoDup_mdel..| | |done].
  - intros g' r'. rewrite mget_mdel. case_decide; [done|]. intros Hr'.
    destruct (H3 g' r' Hr') as (? & ? & due' & Hd'). split; [done|]. split; [done|].
    exists due'. rewrite mget_mdel, decide_False; [done|]. intros E'. rewrite E' in Hd'. congruence.
  - intros tm g' due'. rewrite mget_mdel. case_decide; [done|]. intros Ht.
    destruct (H4 tm g' due' Ht) as (? & r' & Hr' & ?). split; [done|].
    exists r'. rewrite mget_mdel, decide_False; [done|]. congruence.
Qed.

Lemma timer_fires_remove tm g due t : table_wf t -> mget tm (pr_timers t) = Some (g, due) ->
  timer_fires tm t = remove g true t.
Proof.
  intros Hwf E. unfold timer_fires, remove. rewrite E. destruct (wf_timer t Hwf _ _ _ E) as (_ & r & Hr & <-).
  cbn -[mdel]. by rewrite Hr.
Qed.

Lemma timer_fires_wf tm t : table_wf t -> table_wf (timer_fires tm t).2.
Proof.
  intros Hwf. destruct (mget tm (pr_timers t)) as [[g due]|] eqn:E.
  - rewrite (timer_fires_remove _ g due) by done. by apply remove_wf.
  - unfold timer_fires. by rewrite E.
Qed.

Lemma clear_loop_wf m rs t : table_wf t -> table_wf (clear_loop m rs t).2.
Proof.
  revert t. induction rs as [|r rs IH]; intros t Hwf; [done|]. cbn [clear_loop].
  destruct (m r); [|auto]. pose proof (remove_wf (r_globalMessageId r) t Hwf) as Hr.
  destruct (remove _ true t) as [o t']. cbn in Hr. specialize (IH t' Hr).
  by destruct (clear_loop m rs t').
Qed.

(** ** Bulk removal is exact *)

Lemma mdel_middle {V} (l1 l2 : list (Z * V)) g r :
  NoDup (mkeys (l1 ++ (g, r) :: l2)) -> mdel g (l1 ++ (g, r) :: l2) = l1 ++ l2.
Proof.
  intros Hnd. unfold mkeys in Hnd. rewrite fmap_app, fmap_cons in Hnd.
  apply list.NoDup_app in Hnd as (_ & Hd & Hn). apply list.NoDup_cons in Hn as [Hg _].
  unfold mdel. rewrite list.filter_app, filter_cons_False by (cbn; tauto).
  change (mdel g l1 ++ mdel g l2 = l1 ++ l2). rewrite !mdel_absent; [done|done|].
  intros Hin. apply (Hd g Hin). left.
Qed.

Lemma clear_loop_spec m : forall rest kept t,
  pr_routes t = kept ++ rest -> NoDup (mkeys (pr_routes t)) ->
  (forall p, p ∈ rest -> r_globalMessageId p.2 = p.1) ->
  (clear_loop m (mvals rest) t).1 = List.filter m (mvals rest) /\
  pr_routes (clear_loop m (mvals rest) t).2 = kept ++ List.filter (fun p => negb (m p.2)) rest /\
  pr_nextGlobalMessageId (clear_loop m (mvals rest) t).2 = pr_nextGlobalMessageId t /\
  pr_timeoutMs (clear_loop m (mvals rest) t).2 = pr_timeoutMs t.
Proof.
  induction rest as [|[g r] rest IH]; intros kept t Hr Hnd Hg; [done|].
  assert (r_globalMessageId r = g) as Hrg by (apply (Hg (g, r)); left).
  assert (forall p, p ∈ rest -> r_globalMessageId p.2 = p.1) as Hg' by (intros; apply Hg; by right).
  unfold mvals. rewrite fmap_cons. cbn [snd clear_loop List.filter]. destruct (m r) eqn:Em.
  - unfold remove. rewrite Hrg.
    assert (mget g (pr_routes t) = Some r) as ->.
    { apply In_mget; [done|]. rewrite Hr. apply elem_of_app. right. left. }
    match goal with |- context [clear_loop m rest.*2 ?t'] => set (t1 := t') end.
    destruct (IH kept t1) as (E1 & E2 & E3 & E4); [|subst t1; cbn; by apply NoDup_mdel|done|].
    { subst t1. cbn. rewrite Hr in *. by apply mdel_middle. }
    unfold mvals in *. destruct (clear_loop m rest.*2 t1) as [removed t2]. cbn in *.
    rewrite E1, E2, E3, E4. done.
  - destruct (IH (kept ++ [(g, r)]) t) as (E1 & E2 & E3); [by rewrite <- app_assoc|done|done|].
    unfold mvals in *. rewrite E1, E2. cbn [negb]. by rewrite <- app_assoc.
Qed.

Lemma clearMatching_spec m t : table_wf t ->
  (clearMatching m t).1 = List.filter m (mvals (pr_routes t)) /\
  pr_routes (clearMatching m t).2 = List.filter (fun p => negb (m p.2)) (pr_routes t) /\
  pr_nextGlobalMessageId (clearMatching m t).2 = pr_nextGlobalMessageId t /\
  pr_timeoutMs (clearMatching m t).2 = pr_timeoutMs t.
Proof.
  intros Hwf. apply (clear_loop_spec m (pr_routes t) [] t); [done|apply Hwf|].
  intros [g r] Hin. cbn. apply In_mget in Hin; [|apply Hwf]. by apply (wf_route t Hwf) in Hin as (? & _).
Qed.

Lemma clearMatching_wf m t : table_wf t -> table_wf (clearMatching m t).2.
Proof. apply clear_loop_wf. Qed.

Lemma filter_get (f : PendingRoute -> bool) (l : list (Z * PendingRoute)) g : NoDup (mkeys l) ->
  mget g (List.filter (fun p => f p.2) l) =
  match mget g l with Some r => if f r then Some r else None | None => None end.
Proof.
  induction l as [|[k r] l IH]; [done|]. unfold mkeys. rewrite fmap_cons, list.NoDup_cons.
  intros [Hk Hnd]. cbn [List.filter snd mget].
  destruct (decide (g = k)) as [->|Hne].
  - destruct (f r) eqn:Ef; cbn [mget]; [by rewrite decide_True|].
    rewrite IH by done. by rewrite (proj2 (mget_None_keys k l) Hk).
  - destruct (f r); cbn [mget]; [rewrite decide_False by done|]; auto.
Qed.

(** What is left of each route after a bulk removal. *)
Lemma clearMatching_get m t g : table_wf t ->
  get g (clearMatching m t).2 =
  match get g t with Some r => if m r then None else Some r | None => None end.
Proof.
  intros Hwf. unfold get. destruct (clearMatching_spec m t Hwf) as (_ & -> & _).
  rewrite (filter_get (fun r => negb (m r))) by apply Hwf.
  destruct (mget g (pr_routes t)) as [r|]; [|done]. by destruct (m r).
Qed.

Lemma clearMatching_removed m t r : table_wf t ->
  r ∈ (clearMatching m t).1 <-> m r = true /\ get (r_globalMessageId r) t = Some r.
Proof.
  intros Hwf. destruct (clearMatching_spec m t Hwf) as (-> & _).
  rewrite list_elem_of_In, filter_In, <- list_elem_of_In. unfold mvals, get.
  rewrite list_elem_of_fmap. split.
  - intros [([g r'] & -> & Hin) Hm]. split; [done|]. apply In_mget in Hin; [|apply Hwf].
    cbn in *. destruct (wf_route t Hwf _ _ Hin) as (-> & _). done.
  - intros [Hm Hg%mget_In]. split; [|done]. by exists (r_globalMessageId r, r).
Qed.

(** ** Operations as a trace *)

Inductive table_op :=
  | OpAdd (i : PendingRouteInput) (now : Z)
  | OpTake (g : Z)
  | OpClearControl (controlId : Z)
  | OpClearWeb (webClientId : Z)
  | OpClearClient (clientId : Z)
  | OpClear
  | OpTimer (timer : Z).

Definition opt_list {A} (o : option A) : list A := match o with Some x => [x] | None => [] end.

(** The routes an operation hands out for settlement, and the table after it. *)
Definition table_step (op : table_op) (t : PendingRouteTable) : list PendingRoute * PendingRouteTable :=
  match op with
  | OpAdd i now => ([], (add i now t).2)
  | OpTake g => let '(o, t) := take g t in (opt_list o, t)
  | OpClearControl c => clearByControlId c t
  | OpClearWeb c => clearByWebClientId c t
  | OpClearClient c => clearByClientId c t
  | OpClear => clear t
  | OpTimer tm => let '(o, t) := timer_fires tm t in (opt_list o, t)
  end.

Fixpoint table_run (ops : list table_op) (t : PendingRouteTable) : list PendingRoute * PendingRouteTable :=
  match ops with
  | [] => ([], t)
  | op :: ops' =>
      let '(out, t) := table_step op t in
      let '(outs, t) := table_run ops' t in
      (out ++ outs, t)
  end.

(** The number of requests a run adds. *)
Fixpoint adds (ops : list table_op) : Z :=
  match ops with [] => 0 | OpAdd _ _ :: r => 1 + adds r | _ :: r => adds r end.

Lemma adds_nonneg ops : 0 <= adds ops.
Proof. induction ops as [|[]]; cbn; lia. Qed.

(** One step: the settled routes were pending and no longer are; pending
    routes stay or are settled; only fresh ids appear. *)
Record step_ok (t : PendingRouteTable) (out : list PendingRoute) (t' : PendingRouteTable) : Prop := {
  so_wf : table_wf t';
  so_nodup : NoDup (r_globalMessageId <$> out);
  so_settled : forall r, r ∈ out -> get (r_globalMessageId r) t = Some r /\ get (r_globalMessageId r) t' = None;
  so_old : forall g r, g < pr_nextGlobalMessageId t -> get g t' = Some r -> get g t = Some r;
  so_next : pr_nextGlobalMessageId t <= pr_nextGlobalMessageId t'
}.

Lemma remove_get g g' t : get g' (remove g true t).2 = if decide (g' = g) then None else get g' t.
Proof.
  unfold remove, get. destruct (mget g (pr_routes t)) as [r|] eqn:E; cbn -[mdel].
  - apply mget_mdel.
  - case_decide; [congruence|done].
Qed.

Lemma remove_next g t : pr_nextGlobalMessageId (remove g true t).2 = pr_nextGlobalMessageId t.
Proof. unfold remove. by destruct (mget g (pr_routes t)). Qed.

Lemma remove_out g t : (remove g true t).1 = get g t.
Proof. unfold remove, get. by destruct (mget g (pr_routes t)). Qed.

Lemma remove_ok g t : table_wf t -> step_ok t (opt_list (remove g true t).1) (remove g true t).2.
Proof.
  intros Hwf. split.
  - by apply remove_wf.
  - destruct (remove g true t).1; [apply NoDup_singleton|apply NoDup_nil_2].
  - rewrite remove_out. unfold get at 1. destruct (mget g (pr_routes t)) as [r|] eqn:E;
      [|by intros r ?%not_elem_of_nil].
    intros r' ->%list_elem_of_singleton. destruct (wf_route t Hwf _ _ E) as (-> & _).
    rewrite remove_get, decide_True by done. done.
  - intros g' r _. rewrite remove_get. by case_decide.
  - by rewrite remove_next.
Qed.

Lemma clearMatching_ok m t : table_wf t -> step_ok t (clearMatching m t).1 (clearMatching m t).2.
Proof.
  intros Hwf. pose proof (clearMatching_spec m t Hwf) as (Hout & _ & Hn & _). split.
  - by apply clearMatching_wf.
  - rewrite Hout. destruct Hwf as [Hnd _ Hr _ _].
    assert (forall p, p ∈ pr_routes t -> r_globalMessageId p.2 = p.1) as Hg.
    { intros [g r] Hin. cbn. apply In_mget in Hin; [|done]. by apply Hr in Hin as (? & _). }
    revert Hnd Hg. generalize (pr_routes t). clear. intros l. unfold mvals, mkeys.
    induction l as [|[g r] l IH]; [intros; apply NoDup_nil_2|].
    rewrite fmap_cons, list.NoDup_cons. intros [Hn Hnd] Hg. cbn [snd fmap list_fmap List.filter].
    specialize (IH Hnd ltac:(intros; apply Hg; by right)). destruct (m r); [|done].
    rewrite fmap_cons, list.NoDup_cons. split; [|done]. intros Hin. apply Hn.
    apply list_elem_of_fmap in Hin as (r' & Hr' & Hin). apply list_elem_of_In, filter_In in Hin as [Hin _].
    apply list_elem_of_In, list_elem_of_fmap in Hin as ([g' r''] & -> & Hin). cbn in Hr'.
    apply list_elem_of_fmap. exists (g', r''). split; [|done]. cbn.
    pose proof (Hg (g, r) ltac:(left)) as E1. pose proof (Hg (g', r'') ltac:(by right)) as E2.
    cbn in E1, E2. congruence.
  - intros r Hin. apply clearMatching_removed in Hin as [Hm Hg]; [|done]. split; [done|].
    rewrite clearMatching_get, Hg, Hm by done. done.
  - intros g r _. rewrite clearMatching_get by done. destruct (get g t) as [r'|]; [|done].
    by destruct (m r').
  - by rewrite Hn.
Qed.

Lemma add_ok i now t : table_wf t -> ids_left t -> step_ok t [] (add i now t).2.
Proof.
  intros Hwf Hids. split.
  - by apply add_wf.
  - apply NoDup_nil_2.
  - by intros r ?%not_elem_of_nil.
  - intros g r Hlt. unfold get. cbn -[mset]. rewrite mget_mset_ne; [done|]. lia.
  - cbn. rewrite js_succ_safe by done. lia.
Qed.

Lemma table_step_ok op t : table_wf t -> ids_left t ->
  step_ok t (table_step op t).1 (table_step op t).2.
Proof.
  intros Hwf Hids. destruct op as [i now|g|c|c|c| |tm]; cbn [table_step];
    try by apply clearMatching_ok.
  - by apply add_ok.
  - unfold take. pose proof (remove_ok g t Hwf). by destruct (remove g true t).
  - destruct (mget tm (pr_timers t)) as [[g due]|] eqn:E.
    + rewrite (timer_fires_remove _ g due) by done.
      pose proof (remove_ok g t Hwf). by destruct (remove g true t).
    + unfold timer_fires. rewrite E. cbn.
      split; [done|apply NoDup_nil_2|by intros r ?%not_elem_of_nil|done|lia].
Qed.

Lemma table_step_next op t : table_wf t -> ids_left t ->
  pr_nextGlobalMessageId (table_step op t).2 = pr_nextGlobalMessageId t + adds [op].
Proof.
  intros Hwf Hids. destruct op as [i now|g|c|c|c| |tm]; cbn [table_step adds];
    rewrite ?Z.add_0_r; try (apply clearMatching_spec; done).
  - cbn. rewrite js_succ_safe by done. lia.
  - unfold take. pose proof (remove_next g t). by destruct (remove g true t).
  - destruct (mget tm (pr_timers t)) as [[g due]|] eqn:E.
    + rewrite (timer_fires_remove _ g due) by done.
      pose proof (remove_next g t). by destruct (remove g true t).
    + unfold timer_fires. by rewrite E.
Qed.

(** Over a run, every id is settled at most once, what is settled is not
    pending at the end, and nothing that was not pending comes back. *)
Record run_ok (t : PendingRouteTable) (outs : list PendingRoute) (t' : PendingRouteTable) : Prop := {
  ro_wf : table_wf t';
  ro_nodup : NoDup (r_globalMessageId <$> outs);
  ro_next : pr_nextGlobalMessageId t <= pr_nextGlobalMessageId t';
  ro_settled : forall r, r ∈ outs -> get (r_globalMessageId r) t' = None;
  ro_old : forall g, g < pr_nextGlobalMessageId t -> get g t = None -> get g t' = None;
  ro_pending : forall r, r ∈ outs -> r_globalMessageId r < pr_nextGlobalMessageId t ->
    get (r_globalMessageId r) t = Some r
}.

Lemma run_ok_cons t out t1 outs t' : step_ok t out t1 -> table_wf t -> run_ok t1 outs t' -> run_ok t (out ++ outs) t'.
Proof.
  intros [S1 S2 S3 S4 S5] Hwf [R1 R2 R3 R4 R5 R6].
  assert (forall r, r ∈ out -> r_globalMessageId r < pr_nextGlobalMessageId t) as Hlt.
  { intros r [Hr _]%S3. apply (wf_route t Hwf) in Hr as (_ & Hr & _). lia. }
  split; [done| |lia| | |].
  - rewrite fmap_app. apply list.NoDup_app. split; [done|]. split; [|done].
    intros g (r & -> & Hr)%list_elem_of_fmap (r' & E & Hr')%list_elem_of_fmap.
    specialize (Hlt r Hr). destruct (S3 r Hr) as [_ Hn]. rewrite E in Hn, Hlt.
    rewrite (R6 r' Hr') in Hn by lia. done.
  - intros r [Hr|Hr]%elem_of_app; [|by apply R4]. apply R5; [|by apply S3].
    specialize (Hlt r Hr). lia.
  - intros g Hg Hn. apply R5; [lia|]. destruct (get g t1) as [r|] eqn:E; [|done].
    apply S4 in E; [congruence|done].
  - intros r [Hr|Hr]%elem_of_app Hl; [by apply S3|]. apply S4; [done|]. apply R6; [done|lia].
Qed.

Lemma table_run_ok ops : forall t,
  table_wf t -> pr_nextGlobalMessageId t + adds ops <= MAX_SAFE ->
  run_ok t (table_run ops t).1 (table_run ops t).2.
Proof.
  induction ops as [|op ops IH]; intros t Hwf Hids.
  - split; cbn; [done|apply NoDup_nil_2|lia|by intros r ?%not_elem_of_nil|done|by intros r ?%not_elem_of_nil].
  - assert (adds (op :: ops) = adds [op] + adds ops) as Ha by (destruct op; cbn; lia).
    pose proof (adds_nonneg ops). pose proof (adds_nonneg [op]).
    assert (ids_left t) as Hl by (unfold ids_left; lia).
    pose proof (table_step_ok op t Hwf Hl) as Hs. pose proof (table_step_next op t Hwf Hl) as Hn.
    cbn [table_run]. destruct (table_step op t) as [out t1]. cbn [fst snd] in *.
    specialize (IH t1 (so_wf _ _ _ Hs) ltac:(lia)). destruct (table_run ops t1) as [outs t2].
    by apply run_ok_cons with t1.
Qed.

(** ** The table as a finite map *)

(** The specification keeps the pending requests by global id, each with the
    deadline its timer is armed for, and the next id. *)
Record spec_table := mkSpec {
  sp_pending : gmap Z (PendingRoute * option Z);
  sp_next : Z
}.

Definition deadline (t : PendingRouteTable) (r : PendingRoute) : option Z :=
  snd <$> mget (r_timer r) (pr_timers t).

Definition entry (t : PendingRouteTable) (r : PendingRoute) : PendingRoute * option Z := (r, deadline t r).

Definition abs (t : PendingRouteTable) : spec_table :=
  mkSpec (entry t <$> (list_to_map (pr_routes t) : gmap Z PendingRoute)) (pr_nextGlobalMessageId t).

Lemma abs_get t g : sp_pending (abs t) !! g = entry t <$> get g t.
Proof.
  cbn. rewrite lookup_fmap. f_equal. unfold get. generalize (pr_routes t). intros l.
  induction l as [|[k r] l IH]; [done|]. cbn. rewrite lookup_insert.
  destruct (decide (k = g)) as [->|]; [by rewrite decide_True|]. rewrite decide_False by congruence. done.
Qed.

(** The requests an operation concerns, for the bulk removals. *)
Definition op_matches (op : table_op) : option (PendingRoute -> Prop) :=
  match op with
  | OpClearControl c => Some (fun r => r_kind r = RControl /\ r_requesterId r = c)
  | OpClearWeb c => Some (fun r => r_kind r = RWebSocket /\ r_requesterId r = c)
  | OpClearClient c => Some (fun r => r_clientId r = c)
  | OpClear => Some (fun _ => True)
  | _ => None
  end.

(** The timer is that of a pending request. *)
Definition armed (tm : Z) (m : gmap Z (PendingRoute * option Z)) : Prop :=
  exists g e, m !! g = Some e /\ r_timer e.1 = tm.

(** The contract of each operation, for a table whose requests wait [T]
    milliseconds unless they say otherwise: [add] uses the next id, a timer of
    its own and the deadline of the request; [take] deletes one entry and
    hands it out; the timer of a pending request deletes and hands out exactly
    that request, and any other timer does nothing; a bulk removal hands out
    exactly the entries it concerns, each once, and leaves the deadlines of
    the others alone. *)
Inductive spec_step (T : num) : table_op -> spec_table -> list PendingRoute -> spec_table -> Prop :=
  | SpecAdd i now m n tm : ~ armed tm m ->
      spec_step T (OpAdd i now) (mkSpec m n) []
        (mkSpec (<[n := (mkRoute i n now tm, Some (now + node_delay (default T (in_timeoutMs i))))]> m) (n + 1))
  | SpecTake g m n :
      spec_step T (OpTake g) (mkSpec m n) (opt_list (fst <$> m !! g)) (mkSpec (delete g m) n)
  | SpecTimer tm g r due m n : m !! g = Some (r, due) -> r_timer r = tm ->
      spec_step T (OpTimer tm) (mkSpec m n) [r] (mkSpec (delete g m) n)
  | SpecNoTimer tm m n : ~ armed tm m -> spec_step T (OpTimer tm) (mkSpec m n) [] (mkSpec m n)
  | SpecClear op (P : PendingRoute -> Prop) m n out m' : op_matches op = Some P ->
      NoDup (r_globalMessageId <$> out) ->
      (forall r, r ∈ out <-> P r /\ fst <$> m !! r_globalMessageId r = Some r) ->
      (forall g e, m' !! g = Some e <-> m !! g = Some e /\ ~ P e.1) ->
      spec_step T op (mkSpec m n) out (mkSpec m' n).

Inductive spec_run (T : num) : list table_op -> spec_table -> list PendingRoute -> spec_table -> Prop :=
  | SpecNil s : spec_run T [] s [] s
  | SpecCons op ops s out s1 outs s2 : spec_step T op s out s1 -> spec_run T ops s1 outs s2 ->
      spec_run T (op :: ops) s (out ++ outs) s2.

(** The deadlines of the routes that stay are untouched. *)
Lemma remove_deadline g t g' r : table_wf t -> get g' (remove g true t).2 = Some r ->
  deadline (remove g true t).2 r = deadline t r.
Proof.
  intros Hwf. rewrite remove_get. case_decide as Hne; [done|]. intros Hr. unfold remove, deadline.
  destruct (mget g (pr_routes t)) as [r0|] eqn:E; [|done]. cbn -[mdel]. f_equal.
  rewrite mget_mdel, decide_False; [done|]. intros Et.
  destruct (wf_route t Hwf _ _ E) as (_ & _ & d & Hd). destruct (wf_route t Hwf _ _ Hr) as (_ & _ & d' & Hd').
  rewrite Et in Hd'. congruence.
Qed.

Lemma clear_loop_deadline m rs : forall t g r, table_wf t -> get g (clear_loop m rs t).2 = Some r ->
  get g t = Some r /\ deadline (clear_loop m rs t).2 r = deadline t r.
Proof.
  induction rs as [|r0 rs IH]; intros t g r Hwf; [done|]. cbn [clear_loop].
  destruct (m r0); [|by apply IH]. set (g0 := r_globalMessageId r0).
  pose proof (remove_wf g0 t Hwf) as Hwf'. pose proof (remove_deadline g0 t) as Hd.
  pose proof (fun g => remove_get g0 g t) as Hg. destruct (remove g0 true t) as [o t'].
  specialize (IH t' g r Hwf'). destruct (clear_loop m rs t') as [removed t2]. cbn in *.
  intros H. destruct (IH H) as [H1 ->]. rewrite (Hd g r Hwf H1). split; [|done].
  rewrite Hg in H1. by case_decide.
Qed.

Lemma clearMatching_refines T op f (P : PendingRoute -> Prop) t : table_wf t -> op_matches op = Some P ->
  (forall r, f r = true <-> P r) ->
  spec_step T op (abs t) (clearMatching f t).1 (abs (clearMatching f t).2).
Proof.
  intros Hwf Hop Hf. unfold abs at 1 2. destruct (clearMatching_spec f t Hwf) as (_ & _ & -> & _).
  apply SpecClear with P; [done|apply (clearMatching_ok f t Hwf)| |].
  - intros r. change (entry t <$> _) with (sp_pending (abs t)).
    rewrite clearMatching_removed, abs_get, Hf by done. destruct (get _ t); cbn; naive_solver.
  - intros g e. change (entry t <$> _) with (sp_pending (abs t)).
    change (entry ?t' <$> list_to_map (pr_routes ?t')) with (sp_pending (abs t')). rewrite !abs_get.
    pose proof (clear_loop_deadline f (mvals (pr_routes t)) t g) as Hd. fold (clearMatching f t) in Hd.
    revert Hd. rewrite clearMatching_get by done. destruct (get g t) as [r'|]; [|naive_solver].
    intros Hd. destruct (f r') eqn:E; [apply Hf in E|rewrite <- not_true_iff_false, Hf in E]; cbn.
    + naive_solver.
    + destruct (Hd r' Hwf eq_refl) as [_ Hd']. unfold entry. rewrite Hd'. naive_solver.
Qed.

Lemma remove_abs g t : table_wf t ->
  abs (remove g true t).2 = mkSpec (delete g (sp_pending (abs t))) (pr_nextGlobalMessageId t).
Proof.
  intros Hwf. unfold abs at 1. rewrite remove_next. f_equal.
  change (sp_pending (abs (remove g true t).2) = delete g (sp_pending (abs t))).
  apply map_eq. intros g'. rewrite lookup_delete, !abs_get. pose proof (remove_deadline g t g') as Hd.
  revert Hd. rewrite remove_get. case_decide as E; [subst; intros; by rewrite decide_True|].
  rewrite decide_False by congruence. destruct (get g' t) as [r|]; [|done]. cbn. intros Hd.
  unfold entry. by rewrite Hd.
Qed.

Lemma armed_timer tm t : table_wf t ->
  armed tm (sp_pending (abs t)) <-> exists g due, mget tm (pr_timers t) = Some (g, due).
Proof.
  intros Hwf. unfold armed. setoid_rewrite abs_get. split.
  - intros (g & e & (r & Hr & ->)%fmap_Some & <-). cbn.
    destruct (wf_route t Hwf _ _ Hr) as (_ & _ & due & Hd). eauto.
  - intros (g & due & Hd). destruct (wf_timer t Hwf _ _ _ Hd) as (_ & r & Hr & Ht).
    exists g, (entry t r). unfold get. by rewrite Hr.
Qed.

Lemma add_abs i now t : table_wf t -> ids_left t ->
  spec_step (pr_timeoutMs t) (OpAdd i now) (abs t) [] (abs (add i now t).2).
Proof.
  intros Hwf Hids. pose proof (next_not_timer t Hwf) as Hnt.
  assert (abs (add i now t).2 = mkSpec
    (<[pr_nextGlobalMessageId t := (mkRoute i (pr_nextGlobalMessageId t) now (pr_nextTimer t),
        Some (now + node_delay (default (pr_timeoutMs t) (in_timeoutMs i))))]> (sp_pending (abs t)))
    (pr_nextGlobalMessageId t + 1)) as ->.
  2: { apply SpecAdd. intros (g & due & Hd)%(armed_timer (pr_nextTimer t) t Hwf). congruence. }
  rewrite <- js_succ_safe by done. unfold abs at 1. f_equal.
  change (sp_pending (abs (add i now t).2) = <[pr_nextGlobalMessageId t :=
    (mkRoute i (pr_nextGlobalMessageId t) now (pr_nextTimer t),
        Some (now + node_delay (default (pr_timeoutMs t) (in_timeoutMs i))))]> (sp_pending (abs t))).
  apply map_eq. intros g. rewrite lookup_insert, !abs_get. unfold get at 1. cbn -[mset]. rewrite mget_mset.
  destruct (decide (g = pr_nextGlobalMessageId t)) as [->|Hne].
  - rewrite decide_True by done. cbn -[mset]. unfold entry, deadline. cbn -[mset]. by rewrite mget_mset_eq.
  - rewrite decide_False by congruence. unfold get. destruct (mget g (pr_routes t)) as [r|] eqn:Hr; [|done].
    cbn -[mset]. unfold entry, deadline. cbn -[mset]. rewrite mget_mset_ne; [done|].
    destruct (wf_route t Hwf _ _ Hr) as (_ & _ & due & Hd). congruence.
Qed.

Lemma table_step_refines op t : table_wf t -> ids_left t ->
  spec_step (pr_timeoutMs t) op (abs t) (table_step op t).1 (abs (table_step op t).2).
Proof.
  intros Hwf Hids. destruct op as [i now|g|c|c|c| |tm]; cbn [table_step].
  - by apply add_abs.
  - unfold take. pose proof (remove_abs g t Hwf) as Ha. pose proof (remove_out g t) as Ho.
    destruct (remove g true t) as [o t']. cbn [fst snd] in *. rewrite Ha.
    assert (o = fst <$> sp_pending (abs t) !! g) as ->; [|apply SpecTake].
    rewrite Ho, abs_get. by destruct (get g t).
  - eapply clearMatching_refines; [done|reflexivity|]. intros r.
    rewrite andb_true_iff, bool_decide_eq_true, Z.eqb_eq. done.
  - eapply clearMatching_refines; [done|reflexivity|]. intros r.
    rewrite andb_true_iff, bool_decide_eq_true, Z.eqb_eq. done.
  - eapply clearMatching_refines; [done|reflexivity|]. intros r. by rewrite Z.eqb_eq.
  - by eapply clearMatching_refines; [done|reflexivity|].
  - destruct (mget tm (pr_timers t)) as [[g due]|] eqn:E.
    + rewrite (timer_fires_remove _ g due) by done. destruct (wf_timer t Hwf _ _ _ E) as (_ & r & Hr & Ht).
      pose proof (remove_abs g t Hwf) as Ha. pose proof (remove_out g t) as Ho.
      destruct (remove g true t) as [o t']. cbn [fst snd] in *. rewrite Ha, Ho. unfold get. rewrite Hr.
      apply SpecTimer with (deadline t r); [|done]. change (sp_pending (abs t) !! g = Some (entry t r)).
      rewrite abs_get. unfold get. by rewrite Hr.
    + unfold timer_fires. rewrite E. apply SpecNoTimer.
      intros (g & due & Hd)%(armed_timer tm t Hwf). congruence.
Qed.

Lemma table_step_timeout op t : table_wf t -> pr_timeoutMs (table_step op t).2 = pr_timeoutMs t.
Proof.
  intros Hwf. destruct op as [i now|g|c|c|c| |tm]; cbn [table_step];
    try (apply clearMatching_spec; done); [done| |].
  - unfold take, remove. by destruct (mget g (pr_routes t)).
  - unfold timer_fires, remove. destruct (mget tm (pr_timers t)) as [[g due]|]; [|done]. cbn -[mdel].
    by destruct (mget g (pr_routes t)).
Qed.

Lemma table_run_refines ops : forall t, table_wf t -> pr_nextGlobalMessageId t + adds ops <= MAX_SAFE ->
  spec_run (pr_timeoutMs t) ops (abs t) (table_run ops t).1 (abs (table_run ops t).2).
Proof.
  induction ops as [|op ops IH]; intros t Hwf Hids; [constructor|].
  assert (adds (op :: ops) = adds [op] + adds ops) as Ha by (destruct op; cbn; lia).
  pose proof (adds_nonneg ops). pose proof (adds_nonneg [op]).
  assert (ids_left t) as Hl by (unfold ids_left; lia).
  pose proof (table_step_ok op t Hwf Hl) as Hs. pose proof (table_step_next op t Hwf Hl) as Hn.
  pose proof (table_step_refines op t Hwf Hl) as Hr. pose proof (table_step_timeout op t Hwf) as Ht.
  cbn [table_run]. destruct (table_step op t) as [out t1]. cbn [fst snd] in *.
  specialize (IH t1 (so_wf _ _ _ Hs) ltac:(lia)). rewrite Ht in IH.
  destruct (table_run ops t1) as [outs t2]. by apply SpecCons with (abs t1).
Qed.
End Table.

Arguments PendingRouteInput : clear implicits.
Arguments PendingRoute : clear implicits.
Arguments PendingRouteTable : clear implicits.

(** ** Properties *)

(** Exactly-once settlement.  Starting from the empty table, whatever
    sequence of additions, lookups with removal, bulk removals and timeouts
    runs, no global message id is handed out for settlement twice, nothing that
    was handed out is still pending, and the table invariant holds: one armed
    timer per pending route and no timer without a route. *)
Theorem settled_at_most_once {CB} (o : option num) (ops : list (@table_op CB)) :
  adds ops < MAX_SAFE ->
  let '(settled, t) := table_run ops (new_table o) in
  NoDup (r_globalMessageId <$> settled) /\
  (forall r, r ∈ settled -> get (r_globalMessageId r) t = None) /\ table_wf t.
Proof.
  intros Ha. pose proof (table_run_ok ops (new_table o) (new_table_wf o) ltac:(cbn; lia)) as H.
  destruct (table_run ops (new_table o)) as [settled t]. destruct H. done.
Qed.

Definition sample_input (kind : RouteKind) (requester client : Z) : PendingRouteInput Z :=
  mkInput kind requester (NInt 7) client None (Some 1) (Some 1).

Lemma settled_at_most_once_example :
  let ops := [OpAdd (sample_input RControl 1 5) 0; OpAdd (sample_input RWebSocket 9 5) 0; OpTake 1;
              OpClearClient 5; OpTimer 0; OpTake 2] in
  let '(settled, t) := table_run ops (new_table None) in
  (r_globalMessageId <$> settled) = [1; 2] /\ NoDup (r_globalMessageId <$> settled) /\ table_wf t.
Proof.
  intros ops.
  pose proof (settled_at_most_once None ops ltac:(vm_compute; reflexivity)) as H.
  destruct (table_run ops (new_table None)) as [settled t] eqn:E. vm_compute in E.
  injection E as <- <-. split; [vm_compute; reflexivity|]. destruct H as (H1 & _ & H2). done.
Defined.

(** C6: The route table implements a finite map of pending requests with
    deadlines.  A run of any operations on a new table, as long as it adds
    fewer than [2^53 - 1] requests, is a run of the abstract map and hands out
    the same requests: each added request gets the next id and the deadline
    its own or the table's timeout asks for; a lookup with removal deletes and
    hands out the entry of its id; the timer of a pending request deletes and
    hands out exactly that request, and a timer that is not armed does nothing;
    a bulk removal hands out exactly the entries of one requester or one
    target, each once.  At the end a timer is armed if and only if it is that
    of a pending request. *)
Theorem route_table_refines_map {CB} (o : option num) (ops : list (@table_op CB)) :
  adds ops < MAX_SAFE ->
  let '(handed, t) := table_run ops (new_table o) in
  spec_run (default (NInt DEFAULT_PENDING_ROUTE_TIMEOUT_MS) o) ops (mkSpec ∅ 1) handed (abs t) /\
  (forall g, get g t = fst <$> sp_pending (abs t) !! g) /\
  (forall tm, (exists g due, mget tm (pr_timers t) = Some (g, due)) <->
    exists g r, get g t = Some r /\ r_timer r = tm).
Proof.
  intros Ha. pose proof (table_run_refines ops (new_table o) (new_table_wf o) ltac:(cbn; lia)) as Hr.
  pose proof (table_run_ok ops (new_table o) (new_table_wf o) ltac:(cbn; lia)) as [Hwf _ _ _ _ _].
  destruct (table_run ops (new_table o)) as [handed t]. cbn [fst snd] in *. split; [done|]. split.
  - intros g. rewrite abs_get. by destruct (get g t).
  - intros tm. rewrite <- (armed_timer tm t Hwf). unfold armed. setoid_rewrite abs_get. split.
    + intros (g & e & (r & Hr' & ->)%fmap_Some & <-). eauto.
    + intros (g & r & Hr' & <-). exists g, (entry t r). by rewrite Hr'.
Qed.

Lemma route_table_refines_map_witness :
  let ops := [OpAdd (sample_input RControl 1 5) 0; OpAdd (sample_input RWebSocket 1 5) 3; OpTimer 7;
              OpTimer 0; OpClearControl 1; OpAdd (sample_input RControl 1 5) 9] in
  let '(handed, t) := table_run ops (new_table None) in
  map r_globalMessageId handed = [1] /\ map fst (pr_routes t) = [2; 3] /\
  spec_run (NInt DEFAULT_PENDING_ROUTE_TIMEOUT_MS) ops (mkSpec ∅ 1) handed (abs t).
Proof.
  intros ops. pose proof (route_table_refines_map None ops ltac:(vm_compute; reflexivity)) as H.
  destruct (table_run ops (new_table None)) as [handed t] eqn:E. destruct H as [H _].
  vm_compute in E. injection E as <- <-. split; [reflexivity|]. split; [reflexivity|exact H].
Defined.

(** No request waits forever.  A route just added is found under its own
    fresh id, its timer is armed at most [2^31 - 1] ms ahead, and if nothing
    removes it first, the firing of that timer removes it and rejects the
    promise of a control request. *)
Theorem route_times_out {CB} (i : PendingRouteInput CB) (now : Z) (t : PendingRouteTable CB) :
  table_wf t -> pr_nextGlobalMessageId t <= MAX_SAFE ->
  let '(r, t') := add i now t in
  get (r_globalMessageId r) t = None /\ get (r_globalMessageId r) t' = Some r /\
  (exists due, mget (r_timer r) (pr_timers t') = Some (r_globalMessageId r, due) /\
     now + 1 <= due <= now + TIMEOUT_MAX) /\
  (timer_fires (r_timer r) t').1 = Some r /\ get (r_globalMessageId r) (timer_fires (r_timer r) t').2 = None /\
  timeout_rejects r = match in_kind i with RControl => in_reject i | RWebSocket => None end.
Proof.
  intros Hwf Hids. pose proof (add_wf i now t Hwf Hids) as Hwf'. pose proof (next_not_route t Hwf) as Hn.
  destruct (add i now t) as [r t'] eqn:E. cbn in Hwf'.
  assert (get (r_globalMessageId r) t' = Some r) as Hget.
  { revert E. cbn -[mset]. intros [= <- <-]. unfold get. cbn -[mset]. by rewrite mget_mset_eq. }
  assert (exists due, mget (r_timer r) (pr_timers t') = Some (r_globalMessageId r, due) /\
     now + 1 <= due <= now + TIMEOUT_MAX) as (due & Hdue & Hb).
  { revert E. cbn -[mset]. intros [= <- <-]. cbn -[mset]. rewrite mget_mset_eq.
    eexists. split; [reflexivity|]. pose proof (node_delay_bounds (default (pr_timeoutMs t) (in_timeoutMs i))). lia. }
  split_and!; [revert E; cbn -[mset]; by intros [= <- <-]|done|by exists due| | |].
  - rewrite (timer_fires_remove _ _ due), remove_out by done. done.
  - rewrite (timer_fires_remove _ _ due), remove_get, decide_True by done. done.
  - revert E. cbn -[mset]. by intros [= <- _].
Qed.

Lemma route_times_out_example :
  let '(r, t') := add (sample_input RControl 1 5) 50 (new_table None) in
  mget (r_timer r) (pr_timers t') = Some (1, 100050) /\ (timer_fires (r_timer r) t').1 = Some r.
Proof.
  pose proof (route_times_out (sample_input RControl 1 5) 50 (new_table None) (new_table_wf None)
    ltac:(vm_compute; discriminate)) as H.
  destruct (add (sample_input RControl 1 5) 50 (new_table None)) as [r t'] eqn:E.
  destruct H as (_ & _ & _ & H & _). split; [|exact H]. vm_compute in E. injection E as <- <-.
  vm_compute. reflexivity.
Defined.

(** A reply timeout longer than Node's timers can express fires at once.
    A request whose [timeoutMs] exceeds [2^31 - 1], which the protocol accepts,
    is due one millisecond after it is added, before a request added at the
    same time with any shorter integer timeout of two milliseconds or more. *)
Theorem huge_timeout_fires_first {CB} (i : PendingRouteInput CB) (now z short : Z) (t : PendingRouteTable CB) :
  TIMEOUT_MAX < z -> 2 <= short <= TIMEOUT_MAX -> in_timeoutMs i = Some (NInt z) ->
  let '(r, t') := add i now t in
  mget (r_timer r) (pr_timers t') = Some (r_globalMessageId r, now + 1) /\
  now + 1 < now + node_delay (NInt short).
Proof.
  intros Hz Hs Hi. cbn -[mset node_delay]. rewrite mget_mset_eq, Hi. cbn -[node_delay].
  assert (node_delay (NInt z) = 1) as ->.
  { unfold node_delay. destruct (Z.leb_spec z TIMEOUT_MAX); [lia|]. by rewrite andb_false_r. }
  split; [done|]. unfold node_delay.
  destruct (Z.leb_spec 1 short), (Z.leb_spec short TIMEOUT_MAX); cbn; lia.
Qed.

Lemma huge_timeout_fires_first_example :
  let i := mkInput RControl 1 (NInt 7) 5 (Some (NInt 3000000000)) (Some 1) (Some 1) in
  let '(r, t') := add i 0 (new_table None) in mget (r_timer r) (pr_timers t') = Some (1, 1).
Proof.
  intros i.
  pose proof (huge_timeout_fires_first i 0 3000000000 1000 (new_table None)
    ltac:(vm_compute; reflexivity) ltac:(unfold TIMEOUT_MAX; lia) eq_refl) as H.
  destruct (add i 0 (new_table None)) as [r t'] eqn:E. destruct H as [H _].
  vm_compute in E. injection E as <- <-. exact H.
Defined.
