(* ===== verification/MemoTable.v ===== *)
(** * Memoized queries

    Models [multiplexer/daemon/MemoizedQueryTable.ts]: equivalent queries to a
    runtime are coalesced while one is pending, and a fresh notification is
    reused instead of asking again.  A [PendingQuery] object is shared between
    the table and the closure of its retry timer, so the timers are explicit
    and the objects live in a store indexed by identity. *)

From Stdlib Require Import SpecFloat String.
From stdpp Require Import sets.
From S2P Require Import JsValue Protocol.

Definition DEFAULT_MEMOIZED_QUERY_TTL_MS : Z := 1000.

Record MemoizedQueryDefinition := mkDefinition { requestType : jstr; notificationType : jstr }.

Definition DEFAULT_QUERY_DEFINITIONS : list MemoizedQueryDefinition :=
  [mkDefinition (js "ListSession") (js "SessionList")].

Inductive MemoizedQueryDecision :=
  | NotMemoized
  | Forward (requestType : jstr)
  | Pending
  | Cached (message : jstr) (parsedValue : json).

Record MemoizedNotification := mkNotification {
  mn_message : jstr; mn_parsedValue : json; mn_receivedAt : Z
}.

(** A pending query object: when it was last sent and its timer, if any. *)
Record PendingQuery := mkPending { pq_sentAt : Z; pq_timer : option Z }.
#[export] Instance eta_pending : Eta PendingQuery := fun q => mkPending (pq_sentAt q) (pq_timer q).

(** What the closure of a retry timer captures: client, request type and the
    pending query object. *)
Record RetryTimer := mkRetry { rt_clientId : Z; rt_requestType : jstr; rt_query : Z; rt_due : Z }.

Record MemoizedQueryTable := mkMemo {
  mq_definitions : list MemoizedQueryDefinition;
  mq_validityPeriodMs : Z;
  mq_notifications : list (Z * list (jstr * MemoizedNotification));
  mq_pendingQueries : list (Z * list (jstr * Z));   (* object identities *)
  mq_store : list (Z * PendingQuery);               (* the pending query objects *)
  mq_timers : list (Z * RetryTimer);                (* armed retry timers *)
  mq_fresh : Z                                      (* next object or timer identity *)
}.

#[export] Instance eta_memo : Eta MemoizedQueryTable := fun t =>
  mkMemo (mq_definitions t) (mq_validityPeriodMs t) (mq_notifications t) (mq_pendingQueries t)
    (mq_store t) (mq_timers t) (mq_fresh t).

Definition new_memo (definitions : option (list MemoizedQueryDefinition)) (validityPeriodMs : option Z)
  : MemoizedQueryTable :=
  mkMemo (default DEFAULT_QUERY_DEFINITIONS definitions)
    (default DEFAULT_MEMOIZED_QUERY_TTL_MS validityPeriodMs) [] [] [] [] 0.

(** [getCustomizedType]: the type of a Customized message. *)
Definition getCustomizedType (message : jsval) : option jstr :=
  if negb (jeq_str (message@."event") (js "Customized")) then None
  else match message@."data"@."type" with Some (JStr s) => Some s | _ => None end.

Definition find_notification (t : MemoizedQueryTable) (request : option jstr) : option jstr :=
  notificationType <$> List.find (fun d => bool_decide (Some (requestType d) = request)) (mq_definitions t).

Definition find_request (t : MemoizedQueryTable) (notification : option jstr) : option jstr :=
  requestType <$> List.find (fun d => bool_decide (Some (notificationType d) = notification)) (mq_definitions t).

(** A string that is present and not empty, as [!x] tests it. *)
Definition present (s : option jstr) : option jstr :=
  match s with Some [] => None | _ => s end.

Definition getFreshNotification (clientId : Z) (notif : jstr) (now : Z) (t : MemoizedQueryTable)
  : option MemoizedNotification :=
  match mget clientId (mq_notifications t) ≫= mget notif with
  | None => None
  | Some n => if mq_validityPeriodMs t <? now - mn_receivedAt n then None else Some n
  end.

Definition clearRetryTimer (q : Z) (t : MemoizedQueryTable) : MemoizedQueryTable :=
  match mget q (mq_store t) with
  | Some pq =>
      match pq_timer pq with
      | None => t
      | Some tm => t <| mq_timers ::= mdel tm |> <| mq_store ::= mset q (pq <| pq_timer := None |>) |>
      end
  | None => t
  end.

Definition clearPending (clientId : Z) (req : jstr) (t : MemoizedQueryTable) : MemoizedQueryTable :=
  match mget clientId (mq_pendingQueries t) with
  | None => t
  | Some byType =>
      match mget req byType with
      | None => t
      | Some q =>
          let t := clearRetryTimer q t in
          let byType := mdel req byType in
          t <| mq_pendingQueries := match byType with
                                    | [] => mdel clientId (mq_pendingQueries t)
                                    | _ => mset clientId byType (mq_pendingQueries t)
                                    end |>
      end
  end.

Definition pending_query (clientId : Z) (req : jstr) (t : MemoizedQueryTable) : option Z :=
  mget clientId (mq_pendingQueries t) ≫= mget req.

Definition isPending (clientId : Z) (req : jstr) (now : Z) (t : MemoizedQueryTable) : bool * MemoizedQueryTable :=
  match pending_query clientId req t ≫= (fun q => mget q (mq_store t)) with
  | None => (false, t)
  | Some pq =>
      if mq_validityPeriodMs t <? now - pq_sentAt pq then (false, clearPending clientId req t)
      else (true, t)
  end.

Definition markPending (clientId : Z) (req : jstr) (now : Z) (t : MemoizedQueryTable) : MemoizedQueryTable :=
  let q := mq_fresh t in
  let byType := default [] (mget clientId (mq_pendingQueries t)) in
  t <| mq_fresh := q + 1 |>
    <| mq_store ::= mset q (mkPending now None) |>
    <| mq_pendingQueries ::= mset clientId (mset req q byType) |>.

Definition query (clientId : Z) (message : jsval) (now : Z) (t : MemoizedQueryTable)
  : MemoizedQueryDecision * MemoizedQueryTable :=
  let req := getCustomizedType message in
  match present req, present (find_notification t req) with
  | Some req, Some notif =>
      match getFreshNotification clientId notif now t with
      | Some n => (Cached (mn_message n) (mn_parsedValue n), t)
      | None =>
          let '(p, t) := isPending clientId req now t in
          if p then (Pending, t) else (Forward req, markPending clientId req now t)
      end
  | _, _ => (NotMemoized, t)
  end.

Definition recordNotification (clientId : Z) (message : jstr) (parsedValue : jsval) (now : Z)
  (t : MemoizedQueryTable) : MemoizedQueryTable :=
  let notif := getCustomizedType parsedValue in
  match present notif, present (find_request t notif), parsedValue with
  | Some notif, Some req, Some value =>
      let byType := default [] (mget clientId (mq_notifications t)) in
      clearPending clientId req
        (t <| mq_notifications ::= mset clientId (mset notif (mkNotification message value now) byType) |>)
  | _, _, _ => t
  end.

Definition handleSendFailure (clientId : Z) (req : jstr) (t : MemoizedQueryTable) : MemoizedQueryTable :=
  clearPending clientId req t.

(** [createRetryTimer] for the query object [q]; the delay of the timer is the
    validity period as Node.js uses it. *)
Definition createRetryTimer (clientId : Z) (req : jstr) (q now : Z) (t : MemoizedQueryTable)
  : Z * MemoizedQueryTable :=
  let tm := mq_fresh t in
  (tm, t <| mq_fresh := tm + 1 |>
         <| mq_timers ::= mset tm (mkRetry clientId req q (now + node_delay (NInt (mq_validityPeriodMs t)))) |>).

Definition set_query (q : Z) (f : PendingQuery -> PendingQuery) (t : MemoizedQueryTable) : MemoizedQueryTable :=
  match mget q (mq_store t) with
  | Some pq => t <| mq_store ::= mset q (f pq) |>
  | None => t
  end.

(** [setRetryTimer]; the caller just marked the query pending, and without it
    the source dereferences [undefined] ([None] here). *)
Definition setRetryTimer (clientId : Z) (req : jstr) (now : Z) (t : MemoizedQueryTable)
  : option MemoizedQueryTable :=
  match pending_query clientId req t with
  | None => None
  | Some q =>
      let '(tm, t) := createRetryTimer clientId req q now t in
      Some (set_query q (fun pq => pq <| pq_timer := Some tm |>) t)
  end.

(** The callback of a retry timer, in two halves around the call of [retry]:
    [sentAt] is updated before it and its result decides what follows. *)
Definition retry_begins (timer now : Z) (t : MemoizedQueryTable) : option (RetryTimer * MemoizedQueryTable) :=
  match mget timer (mq_timers t) with
  | None => None
  | Some rt =>
      Some (rt, set_query (rt_query rt) (fun pq => pq <| pq_sentAt := now |>)
                  (t <| mq_timers ::= mdel timer |>))
  end.

Definition retry_ends (rt : RetryTimer) (sent : bool) (now : Z) (t : MemoizedQueryTable) : MemoizedQueryTable :=
  if negb sent then clearPending (rt_clientId rt) (rt_requestType rt) t
  else
    let '(tm, t) := createRetryTimer (rt_clientId rt) (rt_requestType rt) (rt_query rt) now t in
    set_query (rt_query rt) (fun pq => pq <| pq_timer := Some tm |>) t.

(** [clearClient] and [clear] walk the pending maps while deleting from them. *)
Definition clear_types (clientId : Z) (reqs : list jstr) (t : MemoizedQueryTable) : MemoizedQueryTable :=
  fold_left (fun t req => clearPending clientId req t) reqs t.

Definition clearClient (clientId : Z) (t : MemoizedQueryTable) : MemoizedQueryTable :=
  let t := t <| mq_notifications ::= mdel clientId |> in
  clear_types clientId (mkeys (default [] (mget clientId (mq_pendingQueries t)))) t.

Definition clear_all (t : MemoizedQueryTable) : MemoizedQueryTable :=
  let t := t <| mq_notifications := [] |> in
  fold_left (fun t p => clear_types p.1 (mkeys p.2) t) (mq_pendingQueries t) t.

(** ** Invariant

    Armed retry timers belong to the pending query they were created for, and
    a pending query object is registered under one client and type. *)
Record memo_wf (t : MemoizedQueryTable) : Prop := {
  mw_types : forall cid bt, mget cid (mq_pendingQueries t) = Some bt -> NoDup (mkeys bt);
  mw_store : forall cid req q, pending_query cid req t = Some q -> is_Some (mget q (mq_store t));
  mw_fresh : forall q pq, mget q (mq_store t) = Some pq ->
    q < mq_fresh t /\ forall tm, pq_timer pq = Some tm -> tm < mq_fresh t;
  mw_owner : forall q pq tm rt, mget q (mq_store t) = Some pq -> pq_timer pq = Some tm ->
    mget tm (mq_timers t) = Some rt -> rt_query rt = q;
  mw_inj : forall c r c' r' q, pending_query c r t = Some q -> pending_query c' r' t = Some q ->
    c = c' /\ r = r';
  mw_timer : forall tm rt, mget tm (mq_timers t) = Some rt ->
    tm < mq_fresh t /\ pending_query (rt_clientId rt) (rt_requestType rt) t = Some (rt_query rt) /\
    exists pq, mget (rt_query rt) (mq_store t) = Some pq /\ pq_timer pq = Some tm
}.

Lemma new_memo_wf d v : memo_wf (new_memo d v).
Proof. split; done. Qed.

Lemma clearRetryTimer_pending q t : mq_pendingQueries (clearRetryTimer q t) = mq_pendingQueries t.
Proof. unfold clearRetryTimer. repeat case_match; done. Qed.

Lemma clearPending_lookup cid req t c r :
  pending_query c r (clearPending cid req t) =
  if decide (c = cid /\ r = req) then None else pending_query c r t.
Proof.
  unfold clearPending, pending_query.
  destruct (mget cid (mq_pendingQueries t)) as [bt|] eqn:Ec.
  2: { case_decide as E; [|done]. destruct E as [-> ->]. by rewrite Ec. }
  destruct (mget req bt) as [q|] eqn:Er.
  2: { case_decide as E; [|done]. destruct E as [-> ->]. rewrite Ec. cbn. done. }
  cbn [mq_pendingQueries set_field eta eta_memo]. rewrite clearRetryTimer_pending.
  assert (forall bt', mdel req bt = bt' -> mget r bt' = if decide (r = req) then None else mget r bt) as Hm
    by (intros ? <-; apply mget_mdel).
  destruct (mdel req bt) as [|p bt'] eqn:Ed.
  - rewrite mget_mdel. specialize (Hm _ eq_refl). cbn in Hm.
    destruct (decide (c = cid)) as [->|]; [|by rewrite decide_False by tauto].
    rewrite Ec. cbn. destruct (decide (r = req)); [by rewrite decide_True|].
    rewrite decide_False by tauto. done.
  - rewrite mget_mset. specialize (Hm _ eq_refl).
    destruct (decide (c = cid)) as [->|]; [|by rewrite decide_False by tauto].
    rewrite Ec. cbn [mbind option_bind]. rewrite Hm.
    destruct (decide (r = req)); [by rewrite decide_True|]. by rewrite decide_False by tauto.
Qed.

(** The timers after [clearPending]: only that of the cleared query goes. *)
Lemma clearPending_timers cid req t tm : memo_wf t ->
  mget tm (mq_timers (clearPending cid req t)) =
  match mget tm (mq_timers t) with
  | Some rt => if decide (rt_clientId rt = cid /\ rt_requestType rt = req) then None else Some rt
  | None => None
  end.
Proof.
  intros Hwf. unfold clearPending.
  assert (pending_query cid req t = None -> mget tm (mq_timers t) =
    match mget tm (mq_timers t) with
    | Some rt => if decide (rt_clientId rt = cid /\ rt_requestType rt = req) then None else Some rt
    | None => None end) as Hnone.
  { intros Hp. destruct (mget tm (mq_timers t)) as [rt|] eqn:E; [|done].
    apply (mw_timer t Hwf) in E as (_ & E & _). case_decide as D; [|done].
    destruct D as [D1 D2]. rewrite D1, D2 in E. congruence. }
  destruct (mget cid (mq_pendingQueries t)) as [bt|] eqn:Ec; [|apply Hnone; unfold pending_query; by rewrite Ec].
  destruct (mget req bt) as [q|] eqn:Er; [|apply Hnone; unfold pending_query; rewrite Ec; done].
  assert (pending_query cid req t = Some q) as Hq by (unfold pending_query; rewrite Ec; done).
  cbn [mq_timers set_field eta eta_memo]. unfold clearRetryTimer.
  destruct (mw_store t Hwf _ _ _ Hq) as (pq & Hpq). rewrite Hpq.
  assert (forall rt, mget tm (mq_timers t) = Some rt ->
    rt_clientId rt = cid /\ rt_requestType rt = req <-> pq_timer pq = Some tm) as Hown.
  { intros rt Hrt. destruct (mw_timer t Hwf _ _ Hrt) as (_ & Hp & pq' & Hs & Ht). split.
    - intros [D1 D2]. rewrite D1, D2, Hq in Hp. injection Hp as Hp. congruence.
    - intros Htm. pose proof (mw_owner t Hwf _ _ _ _ Hpq Htm Hrt) as Hqq. rewrite Hqq in Hp.
      by apply (mw_inj t Hwf _ _ _ _ _ Hp Hq). }
  destruct (pq_timer pq) as [tm'|] eqn:Et.
  - cbn [mq_timers set_field eta eta_memo]. rewrite mget_mdel.
    destruct (mget tm (mq_timers t)) as [rt|] eqn:E; [|by case_decide].
    specialize (Hown rt eq_refl). clear -Hown. repeat case_decide; naive_solver.
  - destruct (mget tm (mq_timers t)) as [rt|] eqn:E; [|done].
    rewrite decide_False; [done|]. rewrite (Hown rt eq_refl). done.
Qed.

Lemma clearPending_store cid req t q pq :
  mget q (mq_store (clearPending cid req t)) = Some pq ->
  exists pq', mget q (mq_store t) = Some pq' /\
    (pq = pq' \/ pending_query cid req t = Some q /\ pq_timer pq = None).
Proof.
  unfold clearPending, pending_query.
  destruct (mget cid (mq_pendingQueries t)) as [bt|]; [|eauto]. cbn [mbind option_bind].
  destruct (mget req bt) as [q'|]; [|eauto].
  cbn [mq_store set_field eta eta_memo]. unfold clearRetryTimer.
  destruct (mget q' (mq_store t)) as [pq'|] eqn:E; [|eauto].
  destruct (pq_timer pq') as [tm|]; [|eauto].
  cbn [mq_store set_field eta eta_memo]. rewrite mget_mset. case_decide as D; [|eauto].
  intros [= <-]. subst. exists pq'. split; [done|]. right. done.
Qed.

Lemma clearPending_store_some cid req t q :
  is_Some (mget q (mq_store t)) -> is_Some (mget q (mq_store (clearPending cid req t))).
Proof.
  intros H. unfold clearPending. destruct (mget cid (mq_pendingQueries t)) as [bt|]; [|done].
  destruct (mget req bt) as [q'|]; [|done]. cbn [mq_store set_field eta eta_memo]. unfold clearRetryTimer.
  repeat case_match; try done. cbn [mq_store set_field eta eta_memo]. rewrite mget_mset. by case_decide.
Qed.

Lemma clearPending_fresh cid req t : mq_fresh (clearPending cid req t) = mq_fresh t.
Proof. unfold clearPending, clearRetryTimer. repeat case_match; done. Qed.

Lemma clearPending_types cid req t : memo_wf t -> forall c bt,
  mget c (mq_pendingQueries (clearPending cid req t)) = Some bt -> NoDup (mkeys bt).
Proof.
  intros Hwf c bt. unfold clearPending.
  destruct (mget cid (mq_pendingQueries t)) as [bt0|] eqn:Ec; [|apply (mw_types t Hwf)].
  destruct (mget req bt0) as [q'|]; [|apply (mw_types t Hwf)].
  cbn [mq_pendingQueries set_field eta eta_memo]. rewrite clearRetryTimer_pending.
  destruct (mdel req bt0) as [|p l] eqn:E.
  - rewrite mget_mdel. case_decide; [done|]. apply (mw_types t Hwf).
  - rewrite mget_mset. case_decide; [|apply (mw_types t Hwf)]. intros [= <-]. rewrite <- E.
    apply NoDup_mdel. by apply (mw_types t Hwf) in Ec.
Qed.

Lemma clearPending_wf cid req t : memo_wf t -> memo_wf (clearPending cid req t).
Proof.
  intros Hwf. split.
  - by apply clearPending_types.
  - intros c r q. rewrite clearPending_lookup. case_decide; [done|]. intros Hq.
    apply clearPending_store_some. by apply (mw_store t Hwf) in Hq.
  - intros q pq (pq' & Hpq' & Hor)%clearPending_store. rewrite clearPending_fresh.
    destruct (mw_fresh t Hwf _ _ Hpq') as [H1 H2]. split; [done|].
    destruct Hor as [->|[_ Hn]]; [done|]. intros tm Htm. congruence.
  - intros q pq tm rt (pq' & Hpq' & Hor)%clearPending_store Htm. rewrite clearPending_timers by done.
    destruct (mget tm (mq_timers t)) as [rt'|] eqn:E; [|done]. case_decide; [done|]. intros [= <-].
    destruct Hor as [->|[_ Hn]]; [|congruence]. by apply (mw_owner t Hwf _ _ _ _ Hpq' Htm).
  - intros c r c' r' q. rewrite !clearPending_lookup. repeat case_decide; try done. apply (mw_inj t Hwf).
  - intros tm rt. rewrite clearPending_timers by done. rewrite clearPending_fresh.
    destruct (mget tm (mq_timers t)) as [rt'|] eqn:E; [|done]. case_decide as D; [done|]. intros [= <-].
    destruct (mw_timer t Hwf _ _ E) as (H1 & H2 & pq & H3 & H4). split; [done|].
    rewrite clearPending_lookup, decide_False by done. split; [done|].
    destruct (clearPending_store_some cid req t (rt_query rt')) as [pq1 Hpq1]; [by eexists|].
    exists pq1. split; [done|]. apply clearPending_store in Hpq1 as (pq' & Hp & [->|[Hq _]]); [congruence|].
    exfalso. apply D. by apply (mw_inj t Hwf _ _ _ _ _ H2 Hq).
Qed.

Lemma markPending_lookup cid req now t c r :
  pending_query c r (markPending cid req now t) =
  if decide (c = cid /\ r = req) then Some (mq_fresh t) else pending_query c r t.
Proof.
  unfold markPending, pending_query. cbn [mq_pendingQueries set_field eta eta_memo].
  rewrite mget_mset. destruct (decide (c = cid)) as [->|]; [|by rewrite decide_False by tauto].
  cbn [mbind option_bind]. rewrite mget_mset.
  destruct (decide (r = req)); [by rewrite decide_True|]. rewrite decide_False by tauto.
  by destruct (mget cid (mq_pendingQueries t)).
Qed.

Lemma markPending_wf cid req now t : memo_wf t -> pending_query cid req t = None ->
  memo_wf (markPending cid req now t).
Proof.
  intros Hwf Hnone. pose proof (mw_fresh t Hwf) as Hf.
  assert (forall q, mq_fresh t = q -> mget q (mq_store t) = None) as Hfr.
  { intros q <-. destruct (mget _ (mq_store t)) eqn:E; [|done]. apply Hf in E as [? _]. lia. }
  split.
  - intros c bt. unfold markPending. cbn [mq_pendingQueries set_field eta eta_memo].
    rewrite mget_mset. case_decide; [|apply (mw_types t Hwf)]. intros [= <-]. apply NoDup_mset.
    destruct (mget cid (mq_pendingQueries t)) eqn:E; [by apply (mw_types t Hwf) in E|apply NoDup_nil_2].
  - intros c r q. rewrite markPending_lookup. intros Hq. cbn -[mset]. rewrite mget_mset.
    destruct (decide (q = mq_fresh t)); [done|]. case_decide; [naive_solver|]. by apply (mw_store t Hwf) in Hq.
  - intros q pq. cbn -[mset]. rewrite mget_mset. case_decide.
    + intros [= <-]. subst. split; [lia|done].
    + intros Hq. destruct (Hf q pq Hq) as [? Ht]. split; [lia|]. intros tm ?%Ht. lia.
  - intros q pq tm rt. cbn -[mset]. rewrite mget_mset. case_decide; [by intros [= <-]|]. apply (mw_owner t Hwf).
  - intros c r c' r' q. rewrite !markPending_lookup. 
    assert (forall c r, pending_query c r t = Some (mq_fresh t) -> False) as Hno.
    { intros c0 r0 H0. destruct (mw_store t Hwf _ _ _ H0) as [pq Hpq]. by rewrite Hfr in Hpq. }
    repeat case_decide; try naive_solver. apply (mw_inj t Hwf).
  - intros tm rt E. change (mget tm (mq_timers t) = Some rt) in E.
    destruct (mw_timer t Hwf _ _ E) as (H1 & H2 & pq & H3 & H4). split; [cbn; lia|].
    rewrite markPending_lookup, decide_False by (intros [D1 D2]; rewrite D1, D2 in H2; congruence).
    split; [done|]. exists pq. cbn -[mset]. rewrite mget_mset_ne; [done|]. intros D. rewrite D in H3. by rewrite Hfr in H3.
Qed.

Lemma memo_wf_notifications n t : memo_wf t -> memo_wf (t <| mq_notifications := n |>).
Proof. intros []. by split. Qed.

(** A query that is not pending any more is gone from the table. *)
Lemma isPending_spec cid req now t : memo_wf t ->
  memo_wf (isPending cid req now t).2 /\
  ((isPending cid req now t).1 = false -> pending_query cid req (isPending cid req now t).2 = None) /\
  ((isPending cid req now t).1 = true -> (isPending cid req now t).2 = t).
Proof.
  intros Hwf. unfold isPending. destruct (pending_query cid req t) as [q|] eqn:Eq; [|done].
  cbn [mbind option_bind]. destruct (mw_store t Hwf _ _ _ Eq) as [pq ->].
  case_match; cbn [fst snd]; [|done]. split; [by apply clearPending_wf|]. split; [|done].
  intros _. rewrite clearPending_lookup. by rewrite decide_True.
Qed.

Lemma query_wf cid msg now t : memo_wf t -> memo_wf (query cid msg now t).2.
Proof.
  intros Hwf. unfold query.
  destruct (present (getCustomizedType msg)) as [req|]; [|done].
  destruct (present _) as [notif|]; [|done].
  destruct (getFreshNotification cid notif now t); [done|].
  pose proof (isPending_spec cid req now t Hwf) as (H1 & H2 & _).
  destruct (isPending cid req now t) as [[] t1]; [done|]. by apply markPending_wf; [|apply H2].
Qed.

Lemma recordNotification_wf cid m v now t : memo_wf t -> memo_wf (recordNotification cid m v now t).
Proof.
  intros Hwf. unfold recordNotification. repeat case_match; try done.
  by apply clearPending_wf, memo_wf_notifications.
Qed.

(** Arming a timer for a pending query that has none armed. *)
Lemma arm_wf cid req q pq now t tm t1 : memo_wf t -> pending_query cid req t = Some q ->
  mget q (mq_store t) = Some pq ->
  (forall tm, pq_timer pq = Some tm -> mget tm (mq_timers t) = None) ->
  createRetryTimer cid req q now t = (tm, t1) ->
  memo_wf (set_query q (fun pq => pq <| pq_timer := Some tm |>) t1).
Proof.
  intros Hwf Hq Hpq Hno [= <- <-]. unfold set_query.
  cbn [mq_store set_field eta eta_memo]. rewrite Hpq.
  assert (forall rt, mget (mq_fresh t) (mq_timers t) = Some rt -> False) as Hfr.
  { intros rt Hrt. apply (mw_timer t Hwf) in Hrt as [? _]. lia. }
  split; cbn [mq_store mq_fresh mq_timers mq_pendingQueries set_field eta eta_memo].
  - apply (mw_types t Hwf).
  - intros c r q' Hq'. rewrite mget_mset. case_decide; [done|]. by apply (mw_store t Hwf) in Hq'.
  - intros q' pq'. rewrite mget_mset. destruct (mw_fresh t Hwf _ _ Hpq) as [Hlt _]. case_decide.
    + intros [= <-]. subst. split; [lia|]. intros tm [= <-]. lia.
    + intros H'. destruct (mw_fresh t Hwf _ _ H') as [? Ht]. split; [lia|]. intros tm ?%Ht. lia.
  - intros q' pq' tm rt. rewrite !mget_mset. destruct (decide (q' = q)) as [->|].
    + intros [= <-] [= <-]. rewrite decide_True by done. by intros [= <-].
    + intros Hq' Htm. destruct (mw_fresh t Hwf _ _ Hq') as [_ Ht]. apply Ht in Htm as Hlt.
      rewrite decide_False by lia. by apply (mw_owner t Hwf _ _ _ _ Hq').
  - apply (mw_inj t Hwf).
  - intros tm rt. rewrite mget_mset. case_decide as D.
    + intros [= <-]. subst. cbn [rt_clientId rt_requestType rt_query]. split; [lia|]. split; [done|].
      eexists. by rewrite mget_mset_eq.
    + intros Hrt. destruct (mw_timer t Hwf _ _ Hrt) as (? & Hp & pq' & Hs & Ht). split; [lia|].
      split; [done|]. exists pq'. rewrite mget_mset_ne; [done|]. intros E. rewrite E, Hpq in Hs.
      injection Hs as ->. rewrite (Hno _ Ht) in Hrt. done.
Qed.

(** ** The table as the host drives it

    [MemoAsk] is a query and, when it is forwarded, the outcome of the send:
    [handleSendFailure] or [setRetryTimer].  [MemoRetry] is a retry timer whose
    callback sends again. *)
Inductive memo_op :=
  | MemoAsk (clientId : Z) (message : jsval) (sent : bool) (now : Z)
  | MemoNotify (clientId : Z) (message : jstr) (parsedValue : jsval) (now : Z)
  | MemoRetry (timer : Z) (sent : bool) (now : Z)
  | MemoClearClient (clientId : Z)
  | MemoClear.

Definition memo_step (t : MemoizedQueryTable) (op : memo_op) : MemoizedQueryTable :=
  match op with
  | MemoAsk cid msg sent now =>
      match query cid msg now t with
      | (Forward req, t) =>
          if sent then default t (setRetryTimer cid req now t) else handleSendFailure cid req t
      | (_, t) => t
      end
  | MemoNotify cid m v now => recordNotification cid m v now t
  | MemoRetry tm sent now =>
      match retry_begins tm now t with
      | Some (rt, t) => retry_ends rt sent now t
      | None => t
      end
  | MemoClearClient cid => clearClient cid t
  | MemoClear => clear_all t
  end.

Definition memo_run (ops : list memo_op) (t : MemoizedQueryTable) : MemoizedQueryTable :=
  fold_left memo_step ops t.

Lemma query_forward cid msg now t req t1 : query cid msg now t = (Forward req, t1) ->
  exists notif t0, present (getCustomizedType msg) = Some req /\
    present (find_notification t (getCustomizedType msg)) = Some notif /\
    getFreshNotification cid notif now t = None /\
    isPending cid req now t = (false, t0) /\ t1 = markPending cid req now t0.
Proof.
  unfold query. destruct (present (getCustomizedType msg)) as [r|]; [|done].
  destruct (present (find_notification _ _)) as [notif|] eqn:En; [|done].
  destruct (getFreshNotification cid notif now t) eqn:Ef; [done|].
  destruct (isPending cid r now t) as [[] t0] eqn:Ep; [done|]. intros [= <- <-]. by exists notif, t0.
Qed.

Lemma clear_types_wf cid reqs : forall t, memo_wf t -> memo_wf (clear_types cid reqs t).
Proof. induction reqs as [|r reqs IH]; intros t H; [done|]. by apply IH, clearPending_wf. Qed.

Lemma clear_fold_wf ps : forall t, memo_wf t ->
  memo_wf (fold_left (fun t (p : Z * list (jstr * Z)) => clear_types p.1 (mkeys p.2) t) ps t).
Proof. induction ps as [|p ps IH]; intros t H; [done|]. by apply IH, clear_types_wf. Qed.

Lemma ask_sent_wf cid msg now t req t1 : memo_wf t -> query cid msg now t = (Forward req, t1) ->
  memo_wf (default t1 (setRetryTimer cid req now t1)).
Proof.
  intros Hwf Hq. pose proof (query_wf cid msg now t Hwf) as Hwf1. rewrite Hq in Hwf1. cbn in Hwf1.
  apply query_forward in Hq as (notif & t0 & _ & _ & _ & Ep & ->). unfold setRetryTimer.
  rewrite markPending_lookup, decide_True by done.
  destruct (createRetryTimer _ _ _ _ _) as [tm t2] eqn:Ec. cbn [default from_option].
  eapply arm_wf; [exact Hwf1|..|exact Ec].
  - by rewrite markPending_lookup, decide_True.
  - cbn -[mset]. by rewrite mget_mset_eq.
  - done.
Qed.

Lemma retry_wf tm sent now t : memo_wf t -> memo_wf (memo_step t (MemoRetry tm sent now)).
Proof.
  intros Hwf. cbn [memo_step]. unfold retry_begins. destruct (mget tm (mq_timers t)) as [rt|] eqn:E; [|done].
  destruct (mw_timer t Hwf _ _ E) as (_ & Hq & pq & Hs & Htm).
  set (t1 := set_query _ _ _).
  assert (mq_store t1 = mset (rt_query rt) (pq <| pq_sentAt := now |>) (mq_store t) /\
    mq_timers t1 = mdel tm (mq_timers t) /\ mq_fresh t1 = mq_fresh t /\
    mq_pendingQueries t1 = mq_pendingQueries t) as (F1 & F2 & F3 & F4).
  { subst t1. unfold set_query. cbn [mq_store set_field eta eta_memo]. by rewrite Hs. }
  assert (forall c r, pending_query c r t1 = pending_query c r t) as F5
    by (intros; unfold pending_query; by rewrite F4).
  assert (memo_wf t1) as Hwf1.
  { split.
    - rewrite F4. apply (mw_types t Hwf).
    - intros c r q. rewrite F5, F1, mget_mset. case_decide; [done|]. apply (mw_store t Hwf).
    - intros q pq'. rewrite F1, F3, mget_mset. case_decide as D; [|apply (mw_fresh t Hwf)].
      intros [= <-]. rewrite D. apply (mw_fresh t Hwf _ _ Hs).
    - intros q pq' tm' rt'. rewrite F1, F2, mget_mset, mget_mdel.
      destruct (decide (tm' = tm)); [done|]. case_decide as D; [|apply (mw_owner t Hwf)].
      intros [= <-] Ht. rewrite D. by apply (mw_owner t Hwf _ _ _ _ Hs).
    - intros c r c' r' q. rewrite !F5. apply (mw_inj t Hwf).
    - intros tm' rt'. rewrite F2, F3, mget_mdel. case_decide; [done|]. intros Ht.
      destruct (mw_timer t Hwf _ _ Ht) as (? & Hq' & pq' & Hs' & Ht'). rewrite F5. split; [done|]. split; [done|].
      rewrite F1, mget_mset. case_decide as D; [|by exists pq']. rewrite D in Hs'. exists (pq <| pq_sentAt := now |>).
      split; [done|]. rewrite Hs in Hs'. by injection Hs' as ->. }
  unfold retry_ends. destruct sent; cbn [negb]; [|by apply clearPending_wf].
  destruct (createRetryTimer _ _ _ _ _) as [tm' t2] eqn:Ec.
  eapply arm_wf; [exact Hwf1|..|exact Ec].
  - by rewrite F5.
  - by rewrite F1, mget_mset_eq.
  - cbn. rewrite Htm, F2. intros ? [= <-]. by rewrite mget_mdel, decide_True.
Qed.

Lemma memo_step_wf op t : memo_wf t -> memo_wf (memo_step t op).
Proof.
  intros Hwf. destruct op as [cid msg sent now|cid m v now|tm sent now|cid|].
  - cbn [memo_step]. pose proof (query_wf cid msg now t Hwf) as H.
    destruct (query cid msg now t) as [[|req| |] t1] eqn:E; try done.
    destruct sent; [exact (ask_sent_wf _ _ _ _ _ _ Hwf E)|]. by apply clearPending_wf.
  - by apply recordNotification_wf.
  - by apply retry_wf.
  - by apply clear_types_wf, memo_wf_notifications.
  - by apply clear_fold_wf, memo_wf_notifications.
Qed.

Lemma memo_run_wf ops : forall t, memo_wf t -> memo_wf (memo_run ops t).
Proof. induction ops as [|op ops IH]; intros t H; [done|]. by apply IH, memo_step_wf. Qed.

(** ** What the table promises *)

Lemma getFreshNotification_later cid notif now now' t : now <= now' ->
  getFreshNotification cid notif now t = None -> getFreshNotification cid notif now' t = None.
Proof.
  intros Hle. unfold getFreshNotification.
  destruct (_ ≫= _) as [n|]; [|done]. repeat case_match; bprop; try done. lia.
Qed.

(** Nothing but the notifications, the definitions and the validity period
    decides whether a notification is fresh. *)
Lemma getFreshNotification_frame cid notif now t t' :
  mq_notifications t = mq_notifications t' -> mq_validityPeriodMs t = mq_validityPeriodMs t' ->
  getFreshNotification cid notif now t = getFreshNotification cid notif now t'.
Proof. intros H1 H2. unfold getFreshNotification. by rewrite H1, H2. Qed.

Lemma clearPending_frame cid req t :
  mq_notifications (clearPending cid req t) = mq_notifications t /\
  mq_validityPeriodMs (clearPending cid req t) = mq_validityPeriodMs t /\
  mq_definitions (clearPending cid req t) = mq_definitions t.
Proof. unfold clearPending, clearRetryTimer. repeat case_match; done. Qed.

Lemma isPending_frame cid req now t :
  mq_notifications (isPending cid req now t).2 = mq_notifications t /\
  mq_validityPeriodMs (isPending cid req now t).2 = mq_validityPeriodMs t /\
  mq_definitions (isPending cid req now t).2 = mq_definitions t.
Proof. unfold isPending. repeat case_match; try done. apply clearPending_frame. Qed.

(** Equivalent queries are coalesced.  Once [query] decided to forward a
    query to a runtime, every query of the same type to the same runtime within
    the validity period is answered [Pending], and the table does not change:
    the runtime is asked once. *)
Theorem query_coalesced cid msg msg' now now' t t1 req :
  query cid msg now t = (Forward req, t1) ->
  getCustomizedType msg' = getCustomizedType msg ->
  now <= now' -> now' - now <= mq_validityPeriodMs t ->
  query cid msg' now' t1 = (Pending, t1).
Proof.
  intros Hq Hm Hle Hv. apply query_forward in Hq as (notif & t0 & E1 & E2 & E3 & E4 & ->).
  pose proof (isPending_frame cid req now t) as (F1 & F2 & F3). rewrite E4 in F1, F2, F3. cbn in F1, F2, F3.
  unfold query. rewrite Hm, E1.
  replace (find_notification (markPending cid req now t0)) with (find_notification t)
    by (unfold find_notification; cbn; by rewrite F3).
  rewrite E2, (getFreshNotification_frame _ _ _ _ t) by (cbn; congruence).
  rewrite (getFreshNotification_later _ _ now) by done.
  unfold isPending. rewrite markPending_lookup, decide_True by done. cbn -[mset].
  rewrite mget_mset_eq. cbn. rewrite F2. by destruct (Z.ltb_spec (mq_validityPeriodMs t) (now' - now)); [lia|].
Qed.

Definition list_session : jsval :=
  Some (JObj [(js "event", jstring "Customized");
              (js "data", JObj [(js "type", jstring "ListSession")])]).

Definition session_list : jsval :=
  Some (JObj [(js "event", jstring "Customized");
              (js "data", JObj [(js "type", jstring "SessionList"); (js "data", JArr [])])]).

Lemma query_coalesced_example :
  let t1 := (query 7 list_session 5000 (new_memo None None)).2 in
  query 7 list_session 6000 t1 = (Pending, t1).
Proof.
  intros t1. apply (query_coalesced 7 list_session list_session 5000 6000 (new_memo None None) t1 (js "ListSession")).
  - vm_compute. reflexivity.
  - reflexivity.
  - lia.
  - unfold new_memo, DEFAULT_MEMOIZED_QUERY_TTL_MS. cbn. lia.
Defined.

(** A notification answers later queries until it expires.  After
    [recordNotification] of a recognised notification, a query for it within
    the validity period gets exactly that message and value, with the table
    unchanged; after the period it is forwarded to the runtime again. *)
Theorem notification_reused cid m v now now' t msg req notif :
  getCustomizedType (Some v) = Some notif -> getCustomizedType msg = Some req ->
  find_request t (Some notif) = Some req -> find_notification t (Some req) = Some notif ->
  req <> [] -> notif <> [] ->
  let t1 := recordNotification cid m (Some v) now t in
  query cid msg now' t1 =
  if mq_validityPeriodMs t <? now' - now then (Forward req, markPending cid req now' t1)
  else (Cached m v, t1).
Proof.
  intros Hn Hr Hfr Hfn Hne Hne' t1. subst t1. unfold recordNotification. rewrite Hn, Hfr.
  destruct req as [|x req]; [done|]. destruct notif as [|y notif]; [done|]. cbn [present].
  set (t0 := t <| mq_notifications ::= _ |>).
  pose proof (clearPending_frame cid (x :: req) t0) as (F1 & F2 & F3).
  unfold query. rewrite Hr. cbn [present].
  replace (find_notification (clearPending cid (x :: req) t0) (Some (x :: req))) with (Some (y :: notif))
    by (unfold find_notification in *; rewrite F3; done).
  cbn [present]. rewrite (getFreshNotification_frame _ _ _ _ t0) by done.
  unfold getFreshNotification, t0 at 1. cbn [mq_notifications set_field eta eta_memo].
  rewrite mget_mset_eq. cbn [mbind option_bind]. rewrite mget_mset_eq. cbn [mn_receivedAt].
  change (mq_validityPeriodMs t0) with (mq_validityPeriodMs t).
  destruct (mq_validityPeriodMs t <? now' - now); [|reflexivity]. unfold isPending. rewrite clearPending_lookup, decide_True by done. done.
Qed.

Lemma notification_reused_example :
  let t1 := recordNotification 7 (js "x") session_list 100 (new_memo None None) in
  query 7 list_session 1100 t1 = (Cached (js "x") (default JNull session_list), t1) /\
  query 7 list_session 1101 t1 = (Forward (js "ListSession"), markPending 7 (js "ListSession") 1101 t1).
Proof.
  assert (forall now', let t1 := recordNotification 7 (js "x") session_list 100 (new_memo None None) in
    query 7 list_session now' t1 =
    if 1000 <? now' - 100 then (Forward (js "ListSession"), markPending 7 (js "ListSession") now' t1)
    else (Cached (js "x") (default JNull session_list), t1)) as H.
  { intros now'. apply (notification_reused 7 (js "x") (default JNull session_list) 100 now' (new_memo None None)
      list_session (js "ListSession") (js "SessionList")); try reflexivity; intros ?; discriminate. }
  split; [apply (H 1100)|apply (H 1101)].
Defined.

Lemma clear_types_lookup cid reqs : forall t c r,
  pending_query c r (clear_types cid reqs t) =
  if decide (c = cid /\ r ∈ reqs) then None else pending_query c r t.
Proof.
  induction reqs as [|r0 reqs IH]; intros t c r; cbn [clear_types fold_left].
  { rewrite decide_False; [done|]. set_solver. }
  change (fold_left _ reqs ?t) with (clear_types cid reqs t). rewrite IH, clearPending_lookup.
  repeat case_decide; try done; set_solver.
Qed.

Lemma clear_types_timers cid reqs : forall t tm, memo_wf t ->
  mget tm (mq_timers (clear_types cid reqs t)) =
  match mget tm (mq_timers t) with
  | Some rt => if decide (rt_clientId rt = cid /\ rt_requestType rt ∈ reqs) then None else Some rt
  | None => None
  end.
Proof.
  induction reqs as [|r0 reqs IH]; intros t tm Hwf; cbn [clear_types fold_left].
  { destruct (mget tm (mq_timers t)); [|done]. rewrite decide_False; [done|]. set_solver. }
  change (fold_left _ reqs ?t) with (clear_types cid reqs t).
  rewrite IH, clearPending_timers by auto using clearPending_wf.
  destruct (mget tm (mq_timers t)) as [rt|]; [|done].
  repeat case_decide; try done; set_solver.
Qed.

Lemma clear_types_notifications cid reqs : forall t,
  mq_notifications (clear_types cid reqs t) = mq_notifications t.
Proof.
  induction reqs as [|r0 reqs IH]; intros t; [done|]. cbn [clear_types fold_left].
  change (fold_left _ reqs ?t) with (clear_types cid reqs t). rewrite IH. apply clearPending_frame.
Qed.

(** [clearClient] forgets one runtime and nothing else: afterwards that
    runtime has no cached notification, no pending query and no retry timer,
    while the notifications, pending queries and timers of every other runtime
    are what they were. *)
Theorem clearClient_exact cid t : memo_wf t ->
  mget cid (mq_notifications (clearClient cid t)) = None /\
  (forall req, pending_query cid req (clearClient cid t) = None) /\
  (forall tm rt, mget tm (mq_timers (clearClient cid t)) = Some rt -> rt_clientId rt <> cid) /\
  (forall c, c <> cid -> mget c (mq_notifications (clearClient cid t)) = mget c (mq_notifications t)) /\
  (forall c req, c <> cid -> pending_query c req (clearClient cid t) = pending_query c req t) /\
  (forall tm rt, rt_clientId rt <> cid ->
    mget tm (mq_timers (clearClient cid t)) = Some rt <-> mget tm (mq_timers t) = Some rt).
Proof.
  intros Hwf. unfold clearClient. set (t0 := t <| mq_notifications ::= _ |>).
  assert (memo_wf t0) as Hwf0 by (by apply memo_wf_notifications).
  rewrite clear_types_notifications. change (mq_notifications t0) with (mdel cid (mq_notifications t)).
  set (reqs := mkeys _).
  assert (forall r q, pending_query cid r t = Some q -> r ∈ reqs) as Hin.
  { unfold pending_query, reqs. intros r q H. cbn [t0 mq_pendingQueries set_field eta eta_memo] in *.
    destruct (mget cid (mq_pendingQueries t)) as [bt|]; [|done]. cbn in H |- *. by eapply mkeys_mget. }
  split; [by rewrite mget_mdel, decide_True|]. split; [|split; [|split; [|split]]].
  - intros r. rewrite clear_types_lookup. case_decide as D; [done|]. change (pending_query cid r t = None).
    destruct (pending_query cid r t) eqn:E; [|done]. apply Hin in E. naive_solver.
  - intros tm rt. rewrite clear_types_timers by done. change (mq_timers t0) with (mq_timers t).
    destruct (mget tm (mq_timers t)) as [rt'|] eqn:E; [|done]. case_decide as D; [done|].
    intros [= ->] Hc. apply D. split; [done|]. destruct (mw_timer t Hwf _ _ E) as (_ & Hq & _).
    rewrite Hc in Hq. by apply Hin in Hq.
  - intros c Hc. by rewrite mget_mdel, decide_False.
  - intros c r Hc. by rewrite clear_types_lookup, decide_False by naive_solver.
  - intros tm rt Hc. rewrite clear_types_timers by done. change (mq_timers t0) with (mq_timers t).
    destruct (mget tm (mq_timers t)) as [rt'|]; [|done]. case_decide; naive_solver.
Qed.

Lemma clearClient_exact_example :
  let t := memo_run [MemoAsk 7 list_session true 0; MemoAsk 8 list_session true 0] (new_memo None None) in
  pending_query 7 (js "ListSession") t = Some 0 /\ pending_query 7 (js "ListSession") (clearClient 7 t) = None /\
  pending_query 8 (js "ListSession") (clearClient 7 t) = Some 2.
Proof.
  intros t. split; [reflexivity|].
  destruct (clearClient_exact 7 t) as (_ & H & _ & _ & H' & _); [apply memo_run_wf, new_memo_wf|].
  split; [apply H|]. rewrite H' by discriminate. reflexivity.
Defined.

(** Retries stop with the query.  In every state the host can drive the
    table to, an armed retry timer belongs to a query that is still pending, no
    query has two timers, and so recording the notification, failing a send or
    clearing the client leaves no timer that would send the query again. *)
Theorem retry_timer_owned ops d v tm rt :
  let t := memo_run ops (new_memo d v) in
  mget tm (mq_timers t) = Some rt ->
  pending_query (rt_clientId rt) (rt_requestType rt) t = Some (rt_query rt) /\
  (forall tm' rt', mget tm' (mq_timers t) = Some rt' -> rt_clientId rt' = rt_clientId rt ->
    rt_requestType rt' = rt_requestType rt -> tm' = tm) /\
  (forall tm' rt', mget tm' (mq_timers (clearPending (rt_clientId rt) (rt_requestType rt) t)) = Some rt' ->
    ~ (rt_clientId rt' = rt_clientId rt /\ rt_requestType rt' = rt_requestType rt)).
Proof.
  intros t Hrt. assert (memo_wf t) as Hwf by apply memo_run_wf, new_memo_wf.
  destruct (mw_timer t Hwf _ _ Hrt) as (_ & Hq & pq & Hs & Ht). split; [done|]. split.
  - intros tm' rt' Hrt' Hc Hr. destruct (mw_timer t Hwf _ _ Hrt') as (_ & Hq' & pq' & Hs' & Ht').
    rewrite Hc, Hr, Hq in Hq'. injection Hq' as Hq'. congruence.
  - intros tm' rt'. rewrite clearPending_timers by done.
    destruct (mget tm' (mq_timers t)); [|done]. case_decide; naive_solver.
Qed.

Lemma retry_timer_owned_example :
  let t := memo_run [MemoAsk 7 list_session true 0; MemoRetry 1 true 1000] (new_memo None None) in
  exists rt, mget 2 (mq_timers t) = Some rt /\ pending_query (rt_clientId rt) (rt_requestType rt) t = Some (rt_query rt).
Proof.
  intros t. eexists. split; [reflexivity|].
  exact (proj1 (retry_timer_owned [MemoAsk 7 list_session true 0; MemoRetry 1 true 1000] None None 2 _ eq_refl)).
Defined.
