(* ===== verification/Message.v ===== *)
(** * Message payloads

    Models the payload functions at the end of
    [multiplexer/daemon/MultiplexerDaemonHost.ts]: finding the inner message of
    a Customized envelope, rewriting its id, and normalising responses.  The
    source updates parsed objects in place; each of these objects is reachable
    from one variable only, so an update is a new value of that variable. *)

From Stdlib Require Import SpecFloat String.
From S2P Require Import JsValue Json Protocol.

#[export] Set Default Goal Selector "!".
Arguments js : simpl never.

(** The message is a string inside the container or an object. *)
Record CustomizedPayload := mkPayload {
  container : json;
  message : json;
  messageWasString : bool
}.

Definition parseJsonMessageOrNull (m : jstr) : json := match parse m with Some v => v | None => JNull end.

(** [undefined] and [null] are returned as they are; a value that does not
    survive the copy becomes [undefined]. *)
Definition cloneJsonValue (v : jsval) : jsval :=
  match v with
  | None => None
  | Some JNull => Some JNull
  | Some v => parse (stringify v)
  end.

Definition getCustomizedPayload (data : jsval) : option CustomizedPayload :=
  match data@."data"@."data" with
  | Some c =>
      if negb (truthy (Some c)) || negb (hasOwn (js "message") (Some c)) then None
      else
        let rawMessage := (Some c)@."message" in
        let '(m, wasString) :=
          match rawMessage with
          | Some (JStr s) => (Some (parseJsonMessageOrNull s), true)
          | m => (m, false)
          end in
        match m with
        | Some (JObj kvs) => Some (mkPayload c (JObj kvs) wasString)
        | Some (JArr l) => Some (mkPayload c (JArr l) wasString)
        | _ => None
        end
  | None => None
  end.

(** The id of the inner message when it is a safe integer. *)
Definition getValidMessageId (m : jsval) : option num :=
  match m@."id" with
  | Some (JNum n) => if num_isSafeInteger n then Some n else None
  | _ => None
  end.

Definition getRoutableCustomizedPayload (data : jsval) : option CustomizedPayload :=
  match getCustomizedPayload data with
  | Some c => match getValidMessageId (Some (message c)) with Some _ => Some c | None => None end
  | None => None
  end.

(** [data.data.data = f(data.data.data)], an update of the container. *)
Definition upd_container (f : json -> json) (data : json) : json :=
  jupd (js "data") (jupd (js "data") f) data.

(** [customized.message.id = id; writeCustomizedMessage(customized)], seen from
    the envelope: an object message is updated in place, a string message is
    serialised again into the container. *)
Definition writeCustomizedMessage (c : CustomizedPayload) (id : num) (data : json) : json :=
  let m := jset (js "id") (JNum id) (message c) in
  upd_container (jset (js "message") (if messageWasString c then JStr (stringify m) else m)) data.

(** Properties of a value under object spread: an array and a string have their
    indices, other primitives have none. *)
Definition spread (v : json) : list (jstr * json) :=
  match v with
  | JObj kvs => kvs
  | JArr l => zip (List.map (fun i => digits (Z.of_nat i)) (seq 0 (List.length l))) l
  | JStr s => zip (List.map (fun i => digits (Z.of_nat i)) (seq 0 (List.length s))) (List.map (fun c => JStr [c]) s)
  | _ => []
  end.

Definition normalizeRawResponse (data : json) (clientId : Z) : json :=
  let inner := (Some data)@."data"@."data" in
  match inner with
  | Some v =>
      if negb (truthy (Some v)) then data
      else
        let p := JObj (spread v) in
        let p := if hasOwn (js "client_id") (Some p) then jset (js "client_id") (jint clientId) p else p in
        let p := match (Some p)@."message" with
                 | Some (JStr _) | None => p
                 | Some m => jset (js "message") (JStr (stringify m)) p
                 end in
        upd_container (fun _ => p) data
  | None => data
  end.

Definition rewriteRuntimeClientIdData (data : json) (clientId : Z) : json :=
  let data :=
    if truthy ((Some data)@."data") && hasOwn (js "sender") ((Some data)@."data")
    then jupd (js "data") (jset (js "sender") (jint clientId)) data else data in
  if truthy ((Some data)@."data"@."data") && hasOwn (js "client_id") ((Some data)@."data"@."data")
  then upd_container (jset (js "client_id") (jint clientId)) data else data.

(** ** Reading back an update *)

Lemma jget_jset k x kvs : jget k (Some (jset k x (JObj kvs))) = Some x.
Proof. cbn. apply mget_mset_eq. Qed.

Lemma jget_jset_ne k k' x v : k <> k' -> jget k (Some (jset k' x v)) = jget k (Some v).
Proof. intros H. destruct v; try done. cbn. by apply mget_mset_ne. Qed.

Lemma jget_jupd k f v : jget k (Some (jupd k f v)) = f <$> jget k (Some v).
Proof. destruct v as [| | | | |kvs]; try done. cbn. destruct (mget k kvs) eqn:E; cbn; [apply mget_mset_eq|done]. Qed.

Lemma jget_jupd_ne k k' f v : k <> k' -> jget k (Some (jupd k' f v)) = jget k (Some v).
Proof.
  intros H. destruct v as [| | | | |kvs]; try done. cbn. destruct (mget k' kvs); [|done]. by apply mget_mset_ne.
Qed.

Lemma container_upd f data :
  (Some (upd_container f data))@."data"@."data" = f <$> (Some data)@."data"@."data".
Proof.
  unfold upd_container. rewrite jget_jupd. destruct (jget (js "data") (Some data)) as [d|]; [|done].
  cbn [fmap option_fmap option_map]. by rewrite jget_jupd.
Qed.

Lemma event_upd_container f data : (Some (upd_container f data))@."event" = (Some data)@."event".
Proof. unfold upd_container. by rewrite jget_jupd_ne. Qed.

Lemma hasOwn_jget k v : hasOwn k v = match jget k v with Some _ => true | None => false end.
Proof. destruct v as [[]|]; try done. Qed.

Lemma mset_mset {A} (k : jstr) (x y : A) m : mset k x (mset k y m) = mset k x m.
Proof.
  induction m as [|[k' v] m IH]; cbn; [by rewrite decide_True|].
  destruct (decide (k = k')); cbn; [by rewrite decide_True|]. rewrite decide_False by done. by rewrite IH.
Qed.

Lemma jset_jset k x y v : jset k x (jset k y v) = jset k x v.
Proof. destruct v; try done. cbn. by rewrite mset_mset. Qed.

Lemma jset_same k x v : jget k (Some v) = Some x -> jset k x v = v.
Proof. destruct v; try done. cbn. intros H. by rewrite mset_same. Qed.

Lemma jupd_jupd k f g v : jupd k f (jupd k g v) = jupd k (fun x => f (g x)) v.
Proof.
  destruct v as [| | | | |kvs]; try done. cbn. destruct (mget k kvs) eqn:E; cbn; [|by rewrite E].
  rewrite mget_mset_eq. cbn. by rewrite mset_mset.
Qed.

Lemma jupd_ext k f g v : (forall x, jget k (Some v) = Some x -> f x = g x) -> jupd k f v = jupd k g v.
Proof. intros H. destruct v as [| | | | |kvs]; try done. cbn in *. destruct (mget k kvs); [|done]. by rewrite H. Qed.

Lemma jupd_id k f v : (forall x, jget k (Some v) = Some x -> f x = x) -> jupd k f v = v.
Proof.
  intros H. destruct v as [| | | | |kvs]; try done. cbn in *. destruct (mget k kvs) eqn:E; [|done].
  by rewrite H, mset_same.
Qed.

Lemma upd_container_twice f g data : upd_container f (upd_container g data) = upd_container (fun x => f (g x)) data.
Proof. unfold upd_container. rewrite jupd_jupd. apply jupd_ext. intros x _. apply jupd_jupd. Qed.

Lemma upd_container_id f data :
  (forall c, (Some data)@."data"@."data" = Some c -> f c = c) -> upd_container f data = data.
Proof.
  intros H. unfold upd_container. apply jupd_id. intros d Hd. apply jupd_id. intros c Hc. apply H.
  by rewrite Hd.
Qed.

Lemma upd_container_ext f g data :
  (forall c, (Some data)@."data"@."data" = Some c -> f c = g c) -> upd_container f data = upd_container g data.
Proof.
  intros H. unfold upd_container. apply jupd_ext. intros d Hd. apply jupd_ext. intros c Hc. apply H.
  by rewrite Hd.
Qed.

(** What the payload is in the envelope. *)
Lemma getCustomizedPayload_inv data c : getCustomizedPayload (Some data) = Some c ->
  exists kvs raw, (Some data)@."data"@."data" = Some (JObj kvs) /\ container c = JObj kvs /\
    mget (js "message") kvs = Some raw /\
    (if messageWasString c then exists s, raw = JStr s /\ parse s = Some (message c) else raw = message c) /\
    match message c with JObj _ | JArr _ => True | _ => False end.
Proof.
  unfold getCustomizedPayload. destruct ((Some data)@."data"@."data") as [v|] eqn:Ev; [|done].
  destruct v as [| | | | |kvs]; cbn [hasOwn negb]; rewrite ?orb_true_r; try done.
  cbn [truthy negb orb]. unfold mhas. change (jget (js "message") (Some (JObj kvs))) with (mget (js "message") kvs).
  destruct (mget (js "message") kvs) as [raw|] eqn:Er; [|done]. cbn [negb]. intros H.
  exists kvs, raw. split; [done|].
  destruct raw as [|b|n|s|l|kvs']; try done.
  - unfold parseJsonMessageOrNull in H. destruct (parse s) as [m|] eqn:Ep; [|done].
    destruct m; try done; injection H as <-; cbn; naive_solver.
  - injection H as <-. done.
  - injection H as <-. done.
Qed.

Lemma getCustomizedPayload_intro data kvs raw :
  (Some data)@."data"@."data" = Some (JObj kvs) -> mget (js "message") kvs = Some raw ->
  getCustomizedPayload (Some data) =
  match raw with
  | JStr s => match parse s with
              | Some (JObj _ as m) | Some (JArr _ as m) => Some (mkPayload (JObj kvs) m true)
              | _ => None
              end
  | JObj _ | JArr _ => Some (mkPayload (JObj kvs) raw false)
  | _ => None
  end.
Proof.
  intros Hc Hm. unfold getCustomizedPayload. rewrite Hc. cbn [truthy hasOwn negb orb]. unfold mhas. rewrite Hm.
  change (jget (js "message") (Some (JObj kvs))) with (mget (js "message") kvs). rewrite Hm. cbn [negb].
  destruct raw as [| | |s| |]; try done. unfold parseJsonMessageOrNull. by destruct (parse s) as [[]|].
Qed.

(** Rewriting the id of an inner message object, and reading it back. *)
Lemma write_payload data c id : getRoutableCustomizedPayload (Some data) = Some c ->
  (messageWasString c = true -> wf_json (jset (js "id") (JNum id) (message c)) = true) ->
  exists c', getCustomizedPayload (Some (writeCustomizedMessage c id data)) = Some c' /\
    message c' = jset (js "id") (JNum id) (message c) /\ messageWasString c' = messageWasString c.
Proof.
  unfold getRoutableCustomizedPayload. destruct (getCustomizedPayload (Some data)) as [c0|] eqn:E; [|done].
  destruct (getValidMessageId (Some (message c0))) as [n|] eqn:En; [|done]. intros [= ->] Hwf.
  apply getCustomizedPayload_inv in E as (kvs & raw & H1 & H2 & H3 & H4 & H5).
  unfold writeCustomizedMessage. set (m' := jset (js "id") (JNum id) (message c)) in *.
  destruct (message c) as [| | | | |mk] eqn:Em; try done.
  set (x := if messageWasString c then JStr (stringify m') else m').
  assert ((Some (upd_container (jset (js "message") x) data))@."data"@."data" =
    Some (JObj (mset (js "message") x kvs))) as Hc by (rewrite container_upd, H1; done).
  rewrite (getCustomizedPayload_intro _ _ x Hc) by (apply mget_mset_eq). subst x.
  destruct (messageWasString c); cbn [m' jset].
  - rewrite parse_stringify by (by apply Hwf). eexists. done.
  - eexists. done.
Qed.

Lemma valid_id_set id kvs : num_isSafeInteger id = true ->
  getValidMessageId (Some (jset (js "id") (JNum id) (JObj kvs))) = Some id.
Proof. intros H. unfold getValidMessageId. rewrite jget_jset. by rewrite H. Qed.

(** Rewriting an id and restoring it are inverse.  After the host put a
    global id into the inner message of a routable envelope, reading the
    envelope finds exactly that id, and putting the original id back gives the
    envelope the requester sent: the same value when the inner message is an
    object, and the same up to the formatting of the inner JSON text when it is
    a string. *)
Theorem message_id_roundtrip data c original g :
  getRoutableCustomizedPayload (Some data) = Some c ->
  getValidMessageId (Some (message c)) = Some original ->
  wf_json (message c) = true ->
  wf_json (jset (js "id") (jint g) (message c)) = true ->
  exists c', getCustomizedPayload (Some (writeCustomizedMessage c (NInt g) data)) = Some c' /\
    getValidMessageId (Some (message c')) = Some (NInt g) /\
    writeCustomizedMessage c' original (writeCustomizedMessage c (NInt g) data) =
      (if messageWasString c
       then upd_container (jset (js "message") (JStr (stringify (message c)))) data else data) /\
    (container c = jset (js "message") (JStr (stringify (message c))) (container c) ->
     writeCustomizedMessage c' original (writeCustomizedMessage c (NInt g) data) = data).
Proof.
  intros Hr Ho Hwf Hg.
  destruct (write_payload data c (NInt g) Hr) as (c' & Hc' & Hm' & Hs'); [done|].
  exists c'. split; [done|].
  unfold getRoutableCustomizedPayload in Hr. destruct (getCustomizedPayload (Some data)) as [c0|] eqn:E; [|done].
  destruct (getValidMessageId (Some (message c0))) as [n|] eqn:En; [|done]. injection Hr as ->.
  apply getCustomizedPayload_inv in E as (kvs & raw & H1 & H2 & H3 & H4 & H5).
  assert (jset (js "id") (JNum original) (message c') = message c) as Hback.
  { rewrite Hm', jset_jset. apply jset_same. unfold getValidMessageId in Ho.
    destruct (jget (js "id") (Some (message c))) as [[]|]; try done. case_match; congruence. }
  destruct (message c) as [| | | | |mk] eqn:Em; try done.
  split; [rewrite Hm'; by apply valid_id_set|].
  assert (writeCustomizedMessage c' original (writeCustomizedMessage c (NInt g) data) =
      (if messageWasString c
       then upd_container (jset (js "message") (JStr (stringify (JObj mk)))) data else data)) as Hback2.
  { unfold writeCustomizedMessage at 1. rewrite Hback, Hs'. unfold writeCustomizedMessage.
    rewrite upd_container_twice. revert H4.
    destruct (messageWasString c); intros H4.
    - apply upd_container_ext. intros x _. apply jset_jset.
    - apply upd_container_id. intros x Hx. rewrite H1 in Hx. injection Hx as <-.
      rewrite jset_jset. apply jset_same. cbn. congruence. }
  split; [exact Hback2|]. rewrite Hback2. intros Hcanon. destruct (messageWasString c); [|done].
  apply upd_container_id. intros x Hx. rewrite H1 in Hx. injection Hx as <-. by rewrite <- H2.
Qed.

(** A request as a debugger front end sends it. *)
Definition cdp_envelope (m : json) : json :=
  JObj [(js "event", jstring "Customized");
        (js "data", JObj [(js "type", jstring "CDP");
          (js "data", JObj [(js "client_id", jint 3); (js "session_id", jint 1); (js "message", m)]);
          (js "sender", jint 9)])].

Definition cdp_call (id : Z) : json := JObj [(js "method", jstring "DOM.enable"); (js "id", jint id)].

Definition cdp_payload : CustomizedPayload :=
  mkPayload (JObj [(js "client_id", jint 3); (js "session_id", jint 1);
                   (js "message", JStr (stringify (cdp_call 7)))]) (cdp_call 7) true.

Lemma message_id_roundtrip_example :
  let data := cdp_envelope (JStr (stringify (cdp_call 7))) in
  exists c', getCustomizedPayload (Some (writeCustomizedMessage cdp_payload (NInt 41) data)) = Some c' /\
    getValidMessageId (Some (message c')) = Some (NInt 41) /\
    writeCustomizedMessage c' (NInt 7) (writeCustomizedMessage cdp_payload (NInt 41) data) = data.
Proof.
  intros data.
  destruct (message_id_roundtrip data cdp_payload (NInt 7) 41 ltac:(vm_compute; reflexivity)
    ltac:(reflexivity) ltac:(vm_compute; reflexivity) ltac:(vm_compute; reflexivity)) as (c' & H1 & H2 & _ & H3).
  exists c'. split; [exact H1|]. split; [exact H2|]. apply H3. reflexivity.
Defined.

Lemma data_upd_container k f data : k <> js "data" ->
  jget k ((Some (upd_container f data))@."data") = jget k ((Some data)@."data").
Proof.
  intros Hk. unfold upd_container. rewrite jget_jupd. destruct (jget (js "data") (Some data)) as [d|]; [|done].
  cbn [fmap option_fmap option_map]. by apply jget_jupd_ne.
Qed.

Lemma isRecord_jupd k f v : isRecord (Some (jupd k f v)) = isRecord (Some v).
Proof. destruct v as [| | | | |kvs]; try done. cbn. by destruct (mget k kvs). Qed.

(** Normalising a response changes the client id and the encoding of the inner
    message only: a connector accepts the result when it would accept the
    runtime's own response. *)
Lemma isResponseMessage_upd f data :
  isResponseMessage (Some (upd_container f data)) = isResponseMessage (Some data).
Proof.
  unfold isResponseMessage. rewrite event_upd_container, !hasOwn_jget.
  rewrite !data_upd_container by done.
  assert (isRecord (Some (upd_container f data)) = isRecord (Some data)) as -> by apply isRecord_jupd.
  assert (isRecord ((Some (upd_container f data))@."data") = isRecord ((Some data)@."data") /\
    match (Some (upd_container f data))@."data" with Some _ => true | None => false end =
    match (Some data)@."data" with Some _ => true | None => false end) as [-> ->].
  { unfold upd_container. rewrite jget_jupd. destruct (jget (js "data") (Some data)); [|done].
    cbn [fmap option_fmap option_map]. by rewrite isRecord_jupd. }
  done.
Qed.

Lemma normalize_accepted data clientId :
  isResponseMessage (Some (normalizeRawResponse data clientId)) = isResponseMessage (Some data).
Proof.
  unfold normalizeRawResponse. destruct ((Some data)@."data"@."data") as [v|]; [|done].
  destruct (negb (truthy (Some v))); [done|]. apply isResponseMessage_upd.
Qed.

(** The id of an inner message object survives the normalisation. *)
Lemma normalize_container data clientId kvs :
  (Some data)@."data"@."data" = Some (JObj kvs) ->
  exists kvs', (Some (normalizeRawResponse data clientId))@."data"@."data" = Some (JObj kvs') /\
    mget (js "client_id") kvs' = (if mhas (js "client_id") kvs then Some (jint clientId) else None) /\
    mget (js "message") kvs' =
      (fun m => match m with JStr _ => m | _ => JStr (stringify m) end) <$> mget (js "message") kvs /\
    (forall k, k <> js "client_id" -> k <> js "message" -> mget k kvs' = mget k kvs).
Proof.
  intros H. unfold normalizeRawResponse. rewrite H. cbn [truthy negb spread hasOwn].
  set (p1 := if mhas (js "client_id") kvs then mset (js "client_id") (jint clientId) kvs else kvs).
  assert ((if mhas (js "client_id") kvs then jset (js "client_id") (jint clientId) (JObj kvs) else JObj kvs) = JObj p1)
    as -> by (unfold p1; by destruct (mhas _ kvs)).
  assert (mget (js "client_id") p1 = (if mhas (js "client_id") kvs then Some (jint clientId) else None) /\
    forall k, k <> js "client_id" -> mget k p1 = mget k kvs) as [Hp1 Hp2].
  { unfold p1, mhas. destruct (mget (js "client_id") kvs) eqn:E; [|done]. rewrite mget_mset_eq. split; [done|].
    intros k Hk. by apply mget_mset_ne. }
  change (jget (js "message") (Some (JObj p1))) with (mget (js "message") p1).
  rewrite (Hp2 (js "message")) by done. rewrite container_upd, H. cbn [fmap option_fmap option_map].
  destruct (mget (js "message") kvs) as [m|] eqn:Em.
  2: { exists p1. do 2 (split; [done|]). split; [|intros; by apply Hp2]. by rewrite (Hp2 (js "message")), Em. }
  assert (exists p2, (match m with JStr _ => JObj p1 | _ => jset (js "message") (JStr (stringify m)) (JObj p1) end) = JObj p2
    /\ mget (js "message") p2 = Some (match m with JStr _ => m | _ => JStr (stringify m) end)
    /\ forall k, k <> js "message" -> mget k p2 = mget k p1) as (p2 & E2 & Hm2 & Hk2).
  { destruct m; eexists; (split; [reflexivity|]); cbn [jset];
      first [rewrite mget_mset_eq; split; [done|intros; by apply mget_mset_ne] | rewrite Hp2 by done; by split]. }
  exists p2. split.
  { f_equal. rewrite <- E2. by destruct m. }
  split; [by rewrite Hk2|]. split; [done|]. intros k H1 H2. rewrite Hk2 by done. by apply Hp2.
Qed.
