(* ===== verification/ReportBridge.v ===== *)
(** * The report bridge of the daemon

    Models [multiplexer/daemon/DaemonReportServiceBridge.ts]: telemetry of the
    daemon is forwarded to one connector, or queued (at most
    [MAX_REPORT_QUEUE_LENGTH] reports, oldest dropped) until there is one. *)

From Stdlib Require Import String.
From S2P Require Import JsValue Protocol.

Definition MAX_REPORT_QUEUE_LENGTH : nat := 100.

Inductive ReportStatus := Disconnected | Closed | ForwardTo (controlId : Z).

#[export] Instance report_status_eq_dec : EqDecision ReportStatus.
Proof. solve_decision. Defined.

Record ReportEventData := mkReport { rd_eventName : jstr; rd_metrics : json; rd_categories : json }.

Record Bridge := mkBridge {
  br_status : ReportStatus;
  br_queue : list ReportEventData;
  br_draining : bool
}.

#[export] Instance eta_bridge : Eta Bridge := fun b => mkBridge (br_status b) (br_queue b) (br_draining b).

Definition new_bridge : Bridge := mkBridge Disconnected [] false.

(** A sent report with the control connection it went to. *)
Definition sent_report : Type := Z * ReportEventData.

Section Bridge.

(** What the [send] callback does to the bridge while it runs: the statuses
    that synchronous disconnections set.  A send that throws is logged and
    counts as sent. *)
Variable reenter : Z -> ReportEventData -> list ReportStatus.

Definition close_bridge (b : Bridge) : Bridge := b <| br_status := Closed |> <| br_queue := [] |>.

(** [updateStatus] from inside a [send] of [drain]: the nested [drain] returns
    at once.  [Closed] stands for [close()]. *)
Definition nested_status (b : Bridge) (s : ReportStatus) : Bridge :=
  match br_status b, s with
  | Closed, _ => b
  | _, Closed => close_bridge b
  | _, _ => b <| br_status := s |>
  end.

(** The loop of [drain]: the queue as long as the status is [forward]; a report
    leaves the queue before it is sent. *)
Fixpoint drain_loop (q : list ReportEventData) (b : Bridge) : list sent_report * Bridge :=
  match q, br_status b with
  | d :: q', ForwardTo c =>
      let b := fold_left nested_status (reenter c d) (b <| br_queue := q' |>) in
      match br_status b with
      | Closed => ([(c, d)], b)
      | _ => let '(sent, b) := drain_loop q' b in ((c, d) :: sent, b)
      end
  | _, _ => ([], b)
  end.

Definition drain (b : Bridge) : list sent_report * Bridge :=
  if br_draining b then ([], b)
  else
    let '(sent, b) := drain_loop (br_queue b) (b <| br_draining := true |>) in
    (sent, b <| br_draining := false |>).

Definition updateStatus (s : ReportStatus) (b : Bridge) : list sent_report * Bridge :=
  match br_status b with
  | Closed => ([], b)
  | _ => drain (b <| br_status := s |>)
  end.

(** Outside [drain] the queue is empty whenever the status is [forward], so a
    nested [updateStatus] finds nothing to drain either. *)
Definition forwardReport (controlId : Z) (d : ReportEventData) (b : Bridge) : list sent_report * Bridge :=
  ([(controlId, d)], fold_left nested_status (reenter controlId d) b).

Definition report (eventName : jstr) (metrics categories : jsval) (b : Bridge) : list sent_report * Bridge :=
  let data := mkReport eventName (default JNull metrics) (default JNull categories) in
  match br_status b with
  | Closed => ([], b)
  | ForwardTo c => forwardReport c data b
  | Disconnected =>
      let q := if (MAX_REPORT_QUEUE_LENGTH <=? List.length (br_queue b))%nat then tail (br_queue b) else br_queue b in
      ([], b <| br_queue := q ++ [data] |>)
  end.

(** ** Runs *)

Inductive bridge_op :=
  | BReport (eventName : jstr) (metrics categories : jsval)
  | BStatus (s : ReportStatus)
  | BClose.

Definition bridge_step (op : bridge_op) (b : Bridge) : list sent_report * Bridge :=
  match op with
  | BReport n m c => report n m c b
  | BStatus Closed => ([], b)     (* only [close] closes the bridge *)
  | BStatus s => updateStatus s b
  | BClose => ([], close_bridge b)
  end.

Fixpoint bridge_run (ops : list bridge_op) (b : Bridge) : list sent_report * Bridge :=
  match ops with
  | [] => ([], b)
  | op :: ops' =>
      let '(s1, b) := bridge_step op b in
      let '(s2, b) := bridge_run ops' b in (s1 ++ s2, b)
  end.

Fixpoint reported (ops : list bridge_op) : list ReportEventData :=
  match ops with
  | [] => []
  | BReport n m c :: ops' => mkReport n (default JNull m) (default JNull c) :: reported ops'
  | _ :: ops' => reported ops'
  end.

(** Between operations nothing is draining, and reports wait only while no
    connector takes them. *)
Record bridge_wf (b : Bridge) : Prop := {
  bw_idle : br_draining b = false;
  bw_empty : br_status b <> Disconnected -> br_queue b = [];
  bw_bound : (List.length (br_queue b) <= MAX_REPORT_QUEUE_LENGTH)%nat
}.

Lemma new_bridge_wf : bridge_wf new_bridge.
Proof. split; [done|done|]. cbn. lia. Qed.

Lemma nested_closed ss b : br_status b = Closed -> fold_left nested_status ss b = b.
Proof. revert b. induction ss as [|s ss IH]; intros b H; [done|]. cbn. unfold nested_status at 2. rewrite H. by apply IH. Qed.

(** Nested status changes touch the status, and the queue only to empty it. *)
Lemma nested_spec ss : forall b, br_status b <> Closed ->
  let b' := fold_left nested_status ss b in
  br_draining b' = br_draining b /\
  (br_status b' <> Closed /\ br_queue b' = br_queue b \/ br_status b' = Closed /\ br_queue b' = []).
Proof.
  induction ss as [|s ss IH]; intros b Hb; [cbn; naive_solver|]. cbn [fold_left].
  destruct (decide (s = Closed)) as [->|Hs].
  - assert (nested_status b Closed = close_bridge b) as -> by (unfold nested_status; by destruct (br_status b)).
    rewrite nested_closed by done. cbn. naive_solver.
  - assert (nested_status b s = b <| br_status := s |>) as ->
      by (unfold nested_status; by destruct (br_status b), s).
    exact (IH (b <| br_status := s |>) Hs).
Qed.

(** The loop sends a prefix of the queue, and all of it unless the status
    stopped it. *)
Lemma drain_loop_spec q : forall b, br_status b <> Closed -> br_queue b = q ->
  let '(sent, b') := drain_loop q b in
  br_draining b' = br_draining b /\
  (br_status b' <> Closed /\ sent.*2 ++ br_queue b' = q /\ (br_status b' <> Disconnected -> br_queue b' = []) \/
   br_status b' = Closed /\ br_queue b' = [] /\ sent.*2 `sublist_of` q).
Proof.
  induction q as [|d q IH]; intros b Hb Hq; cbn [drain_loop].
  { split; [done|]. left. by rewrite Hq. }
  destruct (br_status b) as [| |c] eqn:Eb; [|done|].
  { split; [done|]. left. rewrite Eb, Hq. done. }
  destruct (nested_spec (reenter c d) (b <| br_queue := q |>)) as [Hd Hor]; [cbn; congruence|].
  set (b1 := fold_left nested_status _ _) in *. change (br_queue (b <| br_queue := q |>)) with q in Hor.
  destruct Hor as [[Hs1 Hq1]|[Hs1 Hq1]].
  - specialize (IH b1 Hs1 Hq1). destruct (drain_loop q b1) as [sent b']. destruct IH as [Hd' IH].
    destruct (br_status b1); [|done|]; (split; [by rewrite Hd', Hd|]); cbn [fmap list_fmap snd app];
      (destruct IH as [(? & ? & ?)|(? & ? & ?)]; [left; naive_solver congruence | right; naive_solver eauto using sublist_skip]).
  - rewrite Hs1. split; [done|]. right. split; [done|]. split; [done|]. apply sublist_skip, sublist_nil_l.
Qed.

Lemma updateStatus_spec s b : bridge_wf b -> br_status b <> Closed -> s <> Closed ->
  let '(sent, b') := updateStatus s b in
  bridge_wf b' /\ (br_status b' = Closed /\ sent.*2 `sublist_of` br_queue b \/
                   br_status b' <> Closed /\ sent.*2 ++ br_queue b' = br_queue b).
Proof.
  intros [Hi He Hb] Hc Hs. unfold updateStatus.
  destruct (br_status b) eqn:Eb; [|done|];
    unfold drain; cbn [br_draining set_field eta eta_bridge]; rewrite Hi;
    cbn [br_queue set_field eta eta_bridge];
    (pose proof (drain_loop_spec (br_queue b) (b <| br_status := s |> <| br_draining := true |>)) as H;
     cbn [br_status br_queue set_field eta eta_bridge] in H; specialize (H Hs eq_refl);
     destruct (drain_loop _ _) as [sent b']; destruct H as [_ H];
     cbn [br_status br_queue set_field eta eta_bridge];
     (split; [split; cbn [br_status br_queue br_draining set_field eta eta_bridge]; [done| |]|]);
     destruct H as [(H1 & H2 & H3)|(H1 & H2 & H3)]; try naive_solver;
     rewrite ?H2; cbn; rewrite <- ?H2 in Hb; rewrite ?length_app in Hb; lia).
Qed.

(** One operation: what it sends and what it leaves queued, against what was
    queued and reported. *)
Lemma bridge_step_spec op b : bridge_wf b ->
  let '(sent, b') := bridge_step op b in
  bridge_wf b' /\ (br_status b = Closed -> br_status b' = Closed /\ sent = [] /\ br_queue b' = []) /\
  (sent.*2 ++ br_queue b') `sublist_of` (br_queue b ++ reported [op]) /\
  (br_status b' <> Closed -> (List.length (br_queue b ++ reported [op]) <= MAX_REPORT_QUEUE_LENGTH)%nat ->
   sent.*2 ++ br_queue b' = br_queue b ++ reported [op]).
Proof.
  intros Hwf. pose proof Hwf as [Hi He Hb].
  destruct (decide (br_status b = Closed)) as [Hc|Hc].
  { assert (br_queue b = []) as Hq by (apply He; congruence).
    destruct op as [n m c|s|]; cbn [bridge_step].
    - unfold report. rewrite Hc. split; [done|]. split; [done|]. rewrite Hq. split; [apply sublist_nil_l|done].
    - assert (match s with Closed => ([], b) | _ => updateStatus s b end = ([], b)) as ->
        by (unfold updateStatus; rewrite Hc; by destruct s).
      split; [done|]. split; [done|]. rewrite Hq. done.
    - split; [split; cbn; [done|done|lia]|]. split; [done|]. split; [apply sublist_nil_l|done]. }
  destruct op as [n m c|s|]; cbn [bridge_step reported].
  - set (d := mkReport _ _ _). unfold report. destruct (br_status b) as [| |cid] eqn:Eb; [|done|].
    + fold d. cbn [br_queue set_field eta eta_bridge fmap list_fmap app]. case_match eqn:El.
      * apply Nat.leb_le in El. destruct (br_queue b) as [|x q] eqn:Eq; [cbn in El; unfold MAX_REPORT_QUEUE_LENGTH in El; lia|].
        cbn [tail]. split; [split; cbn [br_draining br_status br_queue set_field eta eta_bridge]; [done|congruence|]|].
        { rewrite length_app. cbn [List.length] in *. lia. }
        split; [done|]. split; [cbn; by apply sublist_cons|]. intros _. rewrite length_app. cbn [List.length] in *. lia.
      * apply Nat.leb_gt in El. split; [split; cbn [br_draining br_status br_queue set_field eta eta_bridge]; [done|congruence|]|done].
        rewrite length_app. cbn. lia.
    + fold d. unfold forwardReport. assert (br_queue b = []) as Hq by (apply He; congruence).
      destruct (nested_spec (reenter cid d) b) as [Hd Hor]; [congruence|]. set (b1 := fold_left _ _ _) in *.
      assert (br_queue b1 = []) as Hq1 by (destruct Hor as [[_ ->]|[_ ->]]; done). rewrite Hq1, Hq.
      split; [split; [congruence|done|rewrite Hq1; cbn; lia]|]. split; [done|]. done.
  - rewrite app_nil_r. destruct (decide (s = Closed)) as [->|Hs]; [done|].
    assert (match s with Closed => ([], b) | _ => updateStatus s b end = updateStatus s b) as -> by by destruct s.
    pose proof (updateStatus_spec s b Hwf Hc Hs) as H. destruct (updateStatus s b) as [sent b'].
    destruct H as [Hwf' H]. split; [done|]. split; [done|].
    destruct H as [[H1 H2]|[H1 H2]].
    + rewrite (bw_empty _ Hwf') by congruence. rewrite app_nil_r. done.
    + by rewrite H2.
  - split; [split; cbn; [done|done|lia]|]. split; [done|]. split; [apply sublist_nil_l|done].
Qed.

Lemma reported_cons op ops : reported (op :: ops) = reported [op] ++ reported ops.
Proof. by destruct op. Qed.

Lemma bridge_run_closed ops : forall b, bridge_wf b -> br_status b = Closed ->
  let '(sent, b') := bridge_run ops b in sent = [] /\ br_status b' = Closed.
Proof.
  induction ops as [|op ops IH]; intros b Hwf Hc; [done|]. cbn [bridge_run].
  pose proof (bridge_step_spec op b Hwf) as H. destruct (bridge_step op b) as [s1 b1].
  destruct H as (Hwf1 & H1 & _). destruct (H1 Hc) as (Hc1 & -> & _). specialize (IH b1 Hwf1 Hc1).
  by destruct (bridge_run ops b1).
Qed.

Lemma bridge_run_spec ops : forall b, bridge_wf b ->
  let '(sent, b') := bridge_run ops b in
  bridge_wf b' /\ (sent.*2 ++ br_queue b') `sublist_of` (br_queue b ++ reported ops) /\
  (br_status b' <> Closed -> (List.length (br_queue b ++ reported ops) <= MAX_REPORT_QUEUE_LENGTH)%nat ->
   sent.*2 ++ br_queue b' = br_queue b ++ reported ops).
Proof.
  induction ops as [|op ops IH]; intros b Hwf; [cbn; by rewrite app_nil_r|]. cbn [bridge_run].
  pose proof (bridge_step_spec op b Hwf) as H. destruct (bridge_step op b) as [s1 b1].
  destruct H as (Hwf1 & _ & Hsub & Heq).
  pose proof (IH b1 Hwf1) as H. pose proof (bridge_run_closed ops b1 Hwf1) as Hcl.
  destruct (bridge_run ops b1) as [s2 b2]. destruct H as (Hwf2 & Hsub2 & Heq2). rewrite reported_cons.
  split; [done|]. rewrite fmap_app, <- app_assoc. split.
  - etrans; [apply sublist_app; [done|exact Hsub2]|]. rewrite !app_assoc. by apply sublist_app.
  - intros Hs Hl. assert (br_status b1 <> Closed) as Hs1 by (intros Hc; apply Hs; by apply Hcl).
    rewrite !length_app in Hl. rewrite (app_assoc (br_queue b)), <- (Heq Hs1) by (rewrite length_app; lia).
    rewrite <- app_assoc. f_equal. apply Heq2; [done|].
    assert (List.length (s1.*2 ++ br_queue b1) = List.length (br_queue b ++ reported [op])) as Hlen
      by (rewrite Heq; [done|done|rewrite length_app; lia]).
    rewrite !length_app in Hlen. rewrite length_app. lia.
Qed.

(** Reports are forwarded in order, at most once, and none is lost while
    fewer than [MAX_REPORT_QUEUE_LENGTH] wait.  In every sequence of reports,
    status changes (also those a send itself causes) and closings: what was
    sent followed by what is queued is a subsequence of what was reported, the
    queue never exceeds its bound, and if the bridge is still open and no more
    than the bound was ever reported, nothing was dropped; what a closed bridge
    queued is gone. *)
Theorem reports_in_order ops :
  let '(sent, b) := bridge_run ops new_bridge in
  (sent.*2 ++ br_queue b) `sublist_of` reported ops /\
  (List.length (br_queue b) <= MAX_REPORT_QUEUE_LENGTH)%nat /\
  (br_status b = Closed -> br_queue b = []) /\
  (br_status b <> Closed -> (List.length (reported ops) <= MAX_REPORT_QUEUE_LENGTH)%nat ->
   sent.*2 ++ br_queue b = reported ops).
Proof.
  pose proof (bridge_run_spec ops new_bridge new_bridge_wf) as H.
  destruct (bridge_run ops new_bridge) as [sent b]. destruct H as (Hwf & Hsub & Heq).
  split; [exact Hsub|]. split; [apply Hwf|]. split; [|exact Heq].
  intros Hc. apply Hwf. by rewrite Hc.
Qed.

End Bridge.
