(* ===== verification/Ownership.v ===== *)
(** * The legacy ownership guard

    Models [multiplexer/daemon/LegacyOwnershipGuard.ts]: the daemon shares an
    owner file, protected by a lock directory, with processes of older driver
    versions.  The file system and the other processes are the environment:
    the results of its calls are arguments. *)

From Stdlib Require Import SpecFloat String.
From S2P Require Import JsValue Json Protocol Message.

Definition LEGACY_LOCK_ACQUIRE_MAX_ATTEMPTS : nat := 5.
Definition DEFAULT_LEGACY_OWNERSHIP_MONITOR_INTERVAL : Z := 500.

(** ** [Number(text)] for the text of the owner file *)

(** White space and line terminators of ECMAScript, as [trim] removes them. *)
Definition is_js_space (c : Z) : bool :=
  ((9 <=? c) && (c <=? 13)) || (c =? 32) || (c =? 160) || (c =? 5760) ||
  ((8192 <=? c) && (c <=? 8202)) || (c =? 8232) || (c =? 8233) || (c =? 8239) ||
  (c =? 8287) || (c =? 12288) || (c =? 65279).

Fixpoint trim_start (s : jstr) : jstr :=
  match s with c :: r => if is_js_space c then trim_start r else s | [] => [] end.

Definition trim (s : jstr) : jstr := rev (trim_start (rev (trim_start s))).

(** The exponent part of a decimal literal, if the text is one. *)
Definition decimal_literal (neg : bool) (s : jstr) : option num :=
  if bool_decide (s = js "Infinity") then Some (NDbl (S754_infinity neg))
  else
    let '(ip, r) := span is_digit s in
    let '(fp, r) := match r with
                    | c :: r' => if c =? 46 then span is_digit r' else ([], r)
                    | [] => ([], [])
                    end in
    if bool_decide (ip ++ fp = []) then None
    else match parse_exp r with
         | Some e => Some (num_of_dec neg (digits_value (ip ++ fp)) (e - Z.of_nat (List.length fp)))
         | None => None
         end.

Definition radix_digit (c : Z) : Z :=
  if is_digit c then c - 48
  else if (97 <=? c) && (c <=? 122) then c - 87
  else if (65 <=? c) && (c <=? 90) then c - 55 else 99.

(** [0x], [0o] and [0b] literals; a safe integer is exact and others round. *)
Definition radix_literal (radix : Z) (s : jstr) : option num :=
  if bool_decide (s = []) || negb (forallb (fun c => radix_digit c <? radix) s) then None
  else Some (num_of_dec false (fold_left (fun a c => a * radix + radix_digit c) s 0) 0).

(** [None] is NaN; the text is trimmed and not empty. *)
Definition stringToNumber (s : jstr) : option num :=
  match s with
  | 48 :: c :: r =>
      if (c =? 120) || (c =? 88) then radix_literal 16 r
      else if (c =? 111) || (c =? 79) then radix_literal 8 r
      else if (c =? 98) || (c =? 66) then radix_literal 2 r
      else decimal_literal false s
  | 45 :: r => decimal_literal true r
  | 43 :: r => decimal_literal false r
  | _ => decimal_literal false s
  end.

(** [Number.isInteger(n) && n > 0]. *)
Definition isPositiveInteger (n : num) : bool :=
  match n with
  | NInt z => 0 <? z
  | NDbl (S754_finite false m e) => (0 <=? e) || (Zpos m mod 2 ^ (- e) =? 0)
  | _ => false
  end.

(** The content of the owner file, [None] when it cannot be read. *)
Definition readOwnerPid (file : option jstr) : option num :=
  match file with
  | None => None
  | Some text =>
      match trim text with
      | [] => None
      | raw => match stringToNumber raw with
               | Some n => if isPositiveInteger n then Some n else None
               | None => None
               end
      end
  end.

(** ** State *)

Record Guard := mkGuard {
  g_currentStatus : OwnershipStatus;
  g_monitorTimer : bool;
  g_stopped : bool
}.

#[export] Instance eta_guard : Eta Guard := fun g => mkGuard (g_currentStatus g) (g_monitorTimer g) (g_stopped g).

Definition new_guard : Guard := mkGuard unInit false true.

(** The guard with the owner file and the lock directory it works on. *)
Record GuardState := mkGuardState {
  gs_guard : Guard;
  gs_file : option jstr;
  gs_lock : bool            (* the lock directory exists *)
}.

#[export] Instance eta_guard_state : Eta GuardState := fun s => mkGuardState (gs_guard s) (gs_file s) (gs_lock s).

(** What the process and the operating system provide: the pid, the
    [DriverCloseMultiOpen] switch, [process.kill(pid, 0)] and whether the owner
    file can be written. *)
Record GuardEnv := mkGuardEnv {
  ge_pid : Z;
  ge_closeMultiOpen : bool;
  ge_alive : num -> bool;
  ge_writable : bool
}.

Definition emitStatusChanged (env : GuardEnv) (status : OwnershipStatus) (reason : OwnershipReason)
  (previousOwnerPid : option num) : OwnershipChange := mkChange status (ge_pid env) previousOwnerPid reason.

(** Writing throws when the file cannot be written; otherwise the status is
    [attached], also when it was before, and the host is told. *)
Definition writeOwnerPid (env : GuardEnv) (reason : OwnershipReason) (previousOwnerPid : option num)
  (s : GuardState) : option (list OwnershipChange * GuardState) :=
  if ge_writable env then
    Some ([emitStatusChanged env attached reason previousOwnerPid],
          s <| gs_file := Some (digits (ge_pid env)) |> <| gs_guard ::= (fun g => g <| g_currentStatus := attached |>) |>)
  else None.

(** The critical section of [monitor]. *)
Definition monitor_work (env : GuardEnv) (s : GuardState) : option (list OwnershipChange * GuardState) :=
  let previousOwnerPid := readOwnerPid (gs_file s) in
  match previousOwnerPid with
  | None => writeOwnerPid env invalid_owner None s
  | Some pid =>
      if num_eqb pid (NInt (ge_pid env)) then
        if bool_decide (g_currentStatus (gs_guard s) = attached) then Some ([], s)
        else Some ([emitStatusChanged env attached reacquire_requested None],
                   s <| gs_guard ::= (fun g => g <| g_currentStatus := attached |>) |>)
      else if negb (ge_alive env pid) then writeOwnerPid env stale_owner (Some pid) s
      else if bool_decide (g_currentStatus (gs_guard s) = attached) then
        Some ([emitStatusChanged env unattached legacy_preempted (Some pid)],
              s <| gs_guard ::= (fun g => g <| g_currentStatus := unattached |>) |>)
      else Some ([], s)
  end.

Definition claim_work (env : GuardEnv) (reason : OwnershipReason) (s : GuardState)
  : option (list OwnershipChange * GuardState) :=
  writeOwnerPid env reason (readOwnerPid (gs_file s)) s.

(** ** The lock directory *)

Inductive fs_result := FsOk | FsEEXIST | FsENOENT | FsOther.

(** The result of [fs.mkdirSync] at each attempt is the environment's: between
    attempts other processes take and release the lock. *)
Record LockEnv := mkLockEnv {
  le_mkdir : nat -> fs_result;
  le_rmdir : fs_result;
  le_mkdir_last : fs_result;
  le_release : bool           (* the final [fs.rmSync] succeeds *)
}.

(** The attempts, waiting between them; then the lock is broken. *)
Fixpoint acquire_attempts (env : LockEnv) (attempt left : nat) : bool :=
  match left with
  | O =>
      match le_rmdir env with
      | FsOk | FsENOENT => match le_mkdir_last env with FsOk => true | _ => false end
      | _ => false
      end
  | S left' =>
      match le_mkdir env attempt with
      | FsOk => true
      | FsEEXIST => acquire_attempts env (S attempt) left'
      | _ => false
      end
  end.

Definition acquireLegacyLock (env : LockEnv) : bool := acquire_attempts env 0 LEGACY_LOCK_ACQUIRE_MAX_ATTEMPTS.

(** [withLegacyLock]: the changes reported, the result and the state.  [s] is
    the state when the lock has been acquired. *)
Definition withLegacyLock (lenv : LockEnv) (work : GuardState -> option (list OwnershipChange * GuardState))
  (s : GuardState) : list OwnershipChange * bool * GuardState :=
  if acquireLegacyLock lenv then
    let s := s <| gs_lock := true |> in
    let '(changes, ok, s) := match work s with
                             | Some (changes, s) => (changes, true, s)
                             | None => ([], false, s)
                             end in
    (changes, ok, s <| gs_lock := negb (le_release lenv) |>)
  else ([], false, s).

(** ** Operations

    An operation that awaits the lock is split there: the state may have
    changed when the lock has been acquired. *)

(** [start] before its claim ([claim_work daemon_started] under the lock) and
    after it; [true] when it goes on to claim. *)
Definition start_begins (env : GuardEnv) (s : GuardState) : bool * GuardState :=
  if ge_closeMultiOpen env then (false, s <| gs_guard ::= (fun g => g <| g_currentStatus := attached |>) |>)
  else if g_monitorTimer (gs_guard s) then (false, s)
  else (true, s <| gs_guard ::= (fun g => g <| g_stopped := false |>) |>).

Definition start_ends (s : GuardState) : GuardState :=
  if g_stopped (gs_guard s) then s else s <| gs_guard ::= (fun g => g <| g_monitorTimer := true |>) |>.

Definition stop (s : GuardState) : GuardState :=
  s <| gs_guard ::= (fun g => g <| g_stopped := true |> <| g_monitorTimer := false |>) |>.

Definition claim (env : GuardEnv) (lenv : LockEnv) (reason : OwnershipReason) (s : GuardState)
  : list OwnershipChange * bool * GuardState := withLegacyLock lenv (claim_work env reason) s.

Definition reacquire (env : GuardEnv) (lenv : LockEnv) (s : GuardState)
  : list OwnershipChange * bool * GuardState :=
  if ge_closeMultiOpen env then ([], true, s) else claim env lenv reacquire_requested s.

(** [monitor] checks that the guard runs before it awaits the lock. *)
Definition monitor_begins (s : GuardState) : bool := negb (g_stopped (gs_guard s)).

Definition monitor (env : GuardEnv) (lenv : LockEnv) (s : GuardState)
  : list OwnershipChange * bool * GuardState := withLegacyLock lenv (monitor_work env) s.

(** ** The owner file says what the daemon wrote *)

Lemma digit_not_space c : is_digit c = true -> is_js_space c = false.
Proof. unfold is_digit, is_js_space. intros H. bprop. repeat (apply orb_false_iff; split); bprop; lia. Qed.

Lemma trim_start_digits s : forallb is_digit s = true -> trim_start s = s.
Proof. destruct s as [|c r]; [done|]. cbn. intros [H _]%andb_true_iff. by rewrite digit_not_space. Qed.

Lemma trim_digits s : forallb is_digit s = true -> trim s = s.
Proof. intros H. unfold trim. rewrite (trim_start_digits s H), trim_start_digits by (by rewrite forallb_rev). apply rev_involutive. Qed.

Lemma stringToNumber_digits n : 0 < n <= MAX_SAFE -> stringToNumber (digits n) = Some (NInt n).
Proof.
  intros Hn. destruct (digits_head n) as (d & r & Hd & Hlt); [lia|].
  pose proof (digits_digit n ltac:(lia)) as Hdig. rewrite Hd in Hdig. cbn [forallb] in Hdig.
  apply andb_true_iff in Hdig as [Hdd _]. unfold is_digit in Hdd. bprop.
  assert (stringToNumber (digits n) = decimal_literal false (digits n)) as ->.
  { rewrite Hd. assert (d = 49 \/ d = 50 \/ d = 51 \/ d = 52 \/ d = 53 \/ d = 54 \/ d = 55 \/ d = 56 \/ d = 57) as Hc
      by lia. repeat (destruct Hc as [->|Hc]; [done|]). by subst. }
  unfold decimal_literal. rewrite bool_decide_eq_false_2.
  2: { rewrite Hd. intros [= E _]. vm_compute in E. lia. }
  rewrite span_digits by lia. rewrite app_nil_r, bool_decide_eq_false_2 by (by rewrite Hd).
  cbn [parse_exp List.length]. rewrite digits_value_digits by lia.
  replace (0 - Z.of_nat 0) with 0 by lia. apply f_equal, num_of_dec_int. lia.
Qed.

Lemma readOwnerPid_written n : 0 < n <= MAX_SAFE -> readOwnerPid (Some (digits n)) = Some (NInt n).
Proof.
  intros Hn. unfold readOwnerPid. rewrite trim_digits by (apply digits_digit; lia).
  destruct (digits_head n) as (d & r & Hd & _); [lia|]. rewrite <- (stringToNumber_digits n Hn).
  rewrite Hd. rewrite <- Hd. rewrite stringToNumber_digits by done. cbn. by rewrite (proj2 (Z.ltb_lt 0 n)) by lia.
Qed.

(** ** Correctness *)

Definition is_owner (env : GuardEnv) (file : option jstr) : bool :=
  match readOwnerPid file with Some pid => num_eqb pid (NInt (ge_pid env)) | None => false end.

(** A live process other than the daemon that owns the file. *)
Definition live_rival (env : GuardEnv) (file : option jstr) : option num :=
  match readOwnerPid file with
  | Some pid => if negb (num_eqb pid (NInt (ge_pid env))) && ge_alive env pid then Some pid else None
  | None => None
  end.

Lemma is_owner_written env : 0 < ge_pid env <= MAX_SAFE -> is_owner env (Some (digits (ge_pid env))) = true.
Proof. intros H. unfold is_owner. rewrite readOwnerPid_written by done. cbn. apply Z.eqb_refl. Qed.

(** The guard follows the owner file.  After a check that completed, the
    daemon is attached exactly when the file names it; it is unattached only
    when another live process owns the file, whose claim the check left
    untouched; and the host was told of a loss exactly when the daemon was
    attached and a live process had taken the file over. *)
Theorem monitor_follows_file env lenv s changes s' :
  0 < ge_pid env <= MAX_SAFE -> g_currentStatus (gs_guard s) <> unInit ->
  monitor env lenv s = (changes, true, s') ->
  (g_currentStatus (gs_guard s') = attached <-> is_owner env (gs_file s') = true) /\
  (forall rival, live_rival env (gs_file s) = Some rival ->
     gs_file s' = gs_file s /\ g_currentStatus (gs_guard s') = unattached /\
     changes = if bool_decide (g_currentStatus (gs_guard s) = attached)
               then [mkChange unattached (ge_pid env) (Some rival) legacy_preempted] else []) /\
  (live_rival env (gs_file s) = None -> g_currentStatus (gs_guard s') = attached /\
     (is_owner env (gs_file s) = true -> gs_file s' = gs_file s)).
Proof.
  intros Hpid Hinit. unfold monitor, withLegacyLock. destruct (acquireLegacyLock lenv); [|done].
  unfold monitor_work, live_rival. cbn [gs_file gs_guard set_field eta eta_guard_state].
  pose proof (is_owner_written env Hpid) as Hown.
  destruct (readOwnerPid (gs_file s)) as [pid|] eqn:Er.
  2: { unfold writeOwnerPid. destruct (ge_writable env); [|done]. intros [= <- <-].
       cbn [gs_file gs_guard g_currentStatus set_field eta eta_guard_state eta_guard]. rewrite Hown.
       split; [done|]. split; [done|]. intros _. split; [done|]. unfold is_owner. by rewrite Er. }
  destruct (num_eqb pid (NInt (ge_pid env))) eqn:Ep; cbn [negb andb].
  { assert (is_owner env (gs_file s) = true) as Ho by (unfold is_owner; by rewrite Er).
    case_bool_decide as Hs; intros [= <- <-];
      cbn [gs_file gs_guard g_currentStatus set_field eta eta_guard_state eta_guard]; rewrite ?Hs, Ho; naive_solver. }
  assert (is_owner env (gs_file s) = false) as Ho by (unfold is_owner; by rewrite Er).
  destruct (ge_alive env pid); cbn [negb].
  - destruct (decide (g_currentStatus (gs_guard s) = attached)) as [Ha|Ha];
      [rewrite (bool_decide_eq_true_2 _ Ha)|rewrite (bool_decide_eq_false_2 _ Ha)]; intros [= <- <-];
      cbn [gs_file gs_guard g_currentStatus set_field eta eta_guard_state eta_guard]; rewrite Ho.
    + split; [done|]. split; [|done]. intros r [= <-]. done.
    + assert (g_currentStatus (gs_guard s) = unattached) as Hu by (destruct (g_currentStatus (gs_guard s)); done).
      split; [by rewrite Hu|]. split; [|done]. intros r [= <-]. done.
  - unfold writeOwnerPid. destruct (ge_writable env); [|done]. intros [= <- <-].
    cbn [gs_file gs_guard g_currentStatus set_field eta eta_guard_state eta_guard]. rewrite Hown.
    split; [done|]. split; [done|]. intros _. split; [done|]. congruence.
Qed.

(** The file system of a lock nobody holds, and a daemon that process 20 has
    preempted. *)
Definition free_lock : LockEnv := mkLockEnv (fun _ => FsOk) FsOk FsOk true.
Definition env10 : GuardEnv := mkGuardEnv 10 false (fun n => num_eqb n (NInt 20)) true.

Lemma monitor_follows_file_example :
  let s := mkGuardState (mkGuard attached true false) (Some (digits 20)) false in
  let '(changes, ok, s') := monitor env10 free_lock s in
  ok = true /\ gs_file s' = Some (digits 20) /\
  changes = [mkChange unattached 10 (Some (NInt 20)) legacy_preempted].
Proof.
  intros s. destruct (monitor_follows_file env10 free_lock s
    [mkChange unattached 10 (Some (NInt 20)) legacy_preempted]
    (mkGuardState (mkGuard unattached true false) (Some (digits 20)) false)) as (_ & H & _).
  - split; vm_compute; [reflexivity|discriminate].
  - discriminate.
  - vm_compute. reflexivity.
  - destruct (H (NInt 20)) as (H1 & _ & H2); [vm_compute; reflexivity|].
    split; [vm_compute; reflexivity|]. split; [exact H1|]. rewrite H2. vm_compute. reflexivity.
Defined.

(** The lock is taken within [LEGACY_LOCK_ACQUIRE_MAX_ATTEMPTS] attempts.
    If the directory can be created at some attempt, after attempts that found
    it present, the acquisition succeeds; if all attempts find it present, the
    directory is removed and created once more, so a lock left behind by a dead
    process delays the daemon but does not stop it; and work under an acquired
    lock releases it whatever the work did. *)
Theorem lock_acquired env n :
  (n < LEGACY_LOCK_ACQUIRE_MAX_ATTEMPTS)%nat -> (forall i, (i < n)%nat -> le_mkdir env i = FsEEXIST) ->
  (le_mkdir env n = FsOk -> acquireLegacyLock env = true) /\
  (le_mkdir env n = FsEEXIST -> S n = LEGACY_LOCK_ACQUIRE_MAX_ATTEMPTS ->
   le_rmdir env = FsOk \/ le_rmdir env = FsENOENT -> le_mkdir_last env = FsOk -> acquireLegacyLock env = true) /\
  (forall work s, acquireLegacyLock env = true -> le_release env = true ->
   gs_lock (withLegacyLock env work s).2 = false).
Proof.
  intros Hn Hbusy.
  assert (forall k, (k <= n)%nat ->
    acquireLegacyLock env = acquire_attempts env k (LEGACY_LOCK_ACQUIRE_MAX_ATTEMPTS - k)) as Hskip.
  { induction k as [|k IH]; intros Hk; [unfold acquireLegacyLock; f_equal; lia|]. rewrite IH by lia.
    replace (LEGACY_LOCK_ACQUIRE_MAX_ATTEMPTS - k)%nat with (S (LEGACY_LOCK_ACQUIRE_MAX_ATTEMPTS - S k)) by lia.
    cbn [acquire_attempts]. by rewrite Hbusy by lia. }
  rewrite (Hskip n) by lia.
  replace (LEGACY_LOCK_ACQUIRE_MAX_ATTEMPTS - n)%nat with (S (LEGACY_LOCK_ACQUIRE_MAX_ATTEMPTS - S n)) by lia.
  cbn [acquire_attempts]. split; [by intros ->|]. split.
  - intros -> <- Hr Hm. rewrite Nat.sub_diag. cbn [acquire_attempts]. rewrite Hm. by destruct Hr as [->| ->].
  - intros work s Ha Hrel. unfold withLegacyLock.
    assert (acquireLegacyLock env = true) as ->.
    { rewrite (Hskip n) by lia.
      replace (LEGACY_LOCK_ACQUIRE_MAX_ATTEMPTS - n)%nat with (S (LEGACY_LOCK_ACQUIRE_MAX_ATTEMPTS - S n)) by lia.
      exact Ha. }
    destruct (work _) as [[changes s1]|]; cbn; by rewrite Hrel.
Qed.

Lemma lock_acquired_example :
  acquireLegacyLock (mkLockEnv (fun i => if (i <? 3)%nat then FsEEXIST else FsOk) FsOk FsOk true) = true.
Proof.
  refine (proj1 (lock_acquired _ 3 _ _) _).
  - unfold LEGACY_LOCK_ACQUIRE_MAX_ATTEMPTS. lia.
  - intros i Hi. cbn -[Nat.ltb]. destruct (Nat.ltb_spec i 3); [reflexivity|lia].
  - reflexivity.
Defined.
