(* ===== verification/Physical.v ===== *)
(** * The physical connector

    Models [physical/PhysicalConnector.ts]: the registries of devices, USB
    clients and device managers, the allocation of client ids, and the lookups
    over them.  What devices, clients and managers do in response (open and
    close sockets, run adb) are effects. *)

From Stdlib Require Import SpecFloat String.
From S2P Require Import JsValue Protocol Transport.

Record Device := mkDevice {
  dv_os : jstr; dv_title : jstr; dv_serial : jstr; dv_ports : list Z; dv_host : jstr;
  dv_isAndroid : bool     (* [instanceof AndroidDevice] *)
}.

Record UsbClient := mkUsbClient { uc_info : ClientDescription }.

Definition clientId (c : UsbClient) : Z := cd_id (uc_info c).
Definition deviceId (c : UsbClient) : jstr := q_device_id (cd_query (uc_info c)).

Inductive Platform := android | harmony | ios | desktop | network.
#[export] Instance platform_eq_dec : EqDecision Platform.
Proof. solve_decision. Defined.

(** A device manager with the endpoint it was built for; the defaults of the
    Android and Harmony managers are applied. *)
Record DeviceManager := mkManager {
  dm_platform : Platform;
  dm_host : option jstr;
  dm_port : option num;
  dm_ip : option jstr
}.

Inductive phys_event :=
  | DeviceConnected (d : Device)
  | DeviceDisconnected (d : Device)
  | ClientConnected (c : UsbClient)
  | ClientDisconnected (id : Z).

Inductive phys_effect :=
  | PEmit (e : phys_event)
  | PStopWatchClient (serial : jstr)
  | PStartWatchClient (serial : jstr)
  | PForwards (serial : jstr)
  | PDisconnect (serial : jstr)
  | PCloseClient (id : Z)
  | PWatchDevices (manager : Z)
  | PCloseManager (manager : Z).

Record PhysicalConnector := mkPhysical {
  pc_devices : list (jstr * Device);
  pc_usbClients : list (Z * UsbClient);
  pc_nextClientId : Z;
  pc_manualConnect : bool;
  pc_usbRetryTime : option num;
  pc_closed : bool;
  pc_devicesManager : list (Z * DeviceManager);   (* manager objects by identity *)
  pc_nextManager : Z
}.

#[export] Instance eta_physical : Eta PhysicalConnector := fun p =>
  mkPhysical (pc_devices p) (pc_usbClients p) (pc_nextClientId p) (pc_manualConnect p) (pc_usbRetryTime p)
    (pc_closed p) (pc_devicesManager p) (pc_nextManager p).

Definition new_physical : PhysicalConnector := mkPhysical [] [] 0 true None false [] 0.

Definition usbConnectRetryTime (p : PhysicalConnector) : num := default (NInt 3000) (pc_usbRetryTime p).

(** [Math.max] and [Math.min] of Numbers that are not NaN. *)
Definition num_min (a b : num) : num := if num_ltb b a then b else a.
Definition num_max (a b : num) : num := if num_ltb a b then b else a.

Definition updateUsbConnectOption (retryTime : num) (p : PhysicalConnector) : PhysicalConnector :=
  p <| pc_usbRetryTime := Some (num_max (NInt 3000) (num_min (default retryTime (pc_usbRetryTime p)) retryTime)) |>.

(** ** Managers *)

Definition addDeviceManager (m : DeviceManager) (autoListen : bool) (p : PhysicalConnector)
  : list phys_effect * PhysicalConnector :=
  let id := pc_nextManager p in
  ((if autoListen then [PWatchDevices id] else []),
   p <| pc_devicesManager ::= mset id m |> <| pc_nextManager := id + 1 |>).

Definition closeDeviceManager (id : Z) (p : PhysicalConnector) : list phys_effect * PhysicalConnector :=
  if mhas id (pc_devicesManager p) then ([PCloseManager id], p <| pc_devicesManager ::= mdel id |>) else ([], p).

(** The first manager that matches is closed. *)
Definition closeMatchingDeviceManager (matches : DeviceManager -> bool) (p : PhysicalConnector)
  : list phys_effect * PhysicalConnector :=
  match List.find (fun q => matches q.2) (pc_devicesManager p) with
  | Some (id, _) => closeDeviceManager id p
  | None => ([], p)
  end.

Definition opt_num_eqb (a b : option num) : bool :=
  match a, b with Some x, Some y => num_eqb x y | None, None => true | _, _ => false end.

Definition manager_at (platform : Platform) (host : option jstr) (port : option num) (m : DeviceManager) : bool :=
  bool_decide (dm_platform m = platform) && bool_decide (dm_host m = host) && opt_num_eqb (dm_port m) port.

Definition closeAndroidDeviceManager (host : jstr) (port : num) :=
  closeMatchingDeviceManager (manager_at android (Some host) (Some port)).
Definition closeHarmonyDeviceManager (host : jstr) (port : num) :=
  closeMatchingDeviceManager (manager_at harmony (Some host) (Some port)).
Definition closeIOSDeviceManager := closeMatchingDeviceManager (fun m => bool_decide (dm_platform m = ios)).
Definition closeDesktopDeviceManager := closeMatchingDeviceManager (fun m => bool_decide (dm_platform m = desktop)).
Definition closeNetworkDeviceManager (ip : jstr) :=
  closeMatchingDeviceManager (fun m => bool_decide (dm_platform m = network) && bool_decide (dm_ip m = Some ip)).

(** [connectDevices] starts every manager; the lookup follows when they are
    all started. *)
Definition startDeviceListeners (p : PhysicalConnector) : list phys_effect :=
  List.map (fun q => PWatchDevices q.1) (pc_devicesManager p).

(** ** Registries *)

Definition registerDevice (d : Device) (p : PhysicalConnector) : list phys_effect * PhysicalConnector :=
  if mhas (dv_serial d) (pc_devices p) then ([], p)
  else ([PEmit (DeviceConnected d)], p <| pc_devices ::= mset (dv_serial d) d |>).

Definition unregisterDevice (serial : jstr) (p : PhysicalConnector) : list phys_effect * PhysicalConnector :=
  match mget serial (pc_devices p) with
  | None => ([], p)
  | Some d => ([PDisconnect serial; PEmit (DeviceDisconnected d)], p <| pc_devices ::= mdel serial |>)
  end.

Definition createClientId (p : PhysicalConnector) : Z * PhysicalConnector :=
  if 4294967294 <? pc_nextClientId p then (-1, p)
  else let n := js_succ (pc_nextClientId p) in (n, p <| pc_nextClientId := n |>).

Definition regiserUsbClient (c : UsbClient) (p : PhysicalConnector) : list phys_effect * PhysicalConnector :=
  if mhas (clientId c) (pc_usbClients p) then ([], p)
  else ([PEmit (ClientConnected c)], p <| pc_usbClients ::= mset (clientId c) c |>).

Definition unregiserUsbClient (id : Z) (p : PhysicalConnector) : list phys_effect * PhysicalConnector :=
  if mhas id (pc_usbClients p)
  then ([PEmit (ClientDisconnected id)], p <| pc_usbClients ::= mdel id |>) else ([], p).

Definition getAllUsbClients (p : PhysicalConnector) : list UsbClient := mvals (pc_usbClients p).

Definition disableAllClients (p : PhysicalConnector) : list phys_effect :=
  List.map (fun q => PStopWatchClient q.1) (pc_devices p) ++
  List.map (fun c => PCloseClient (clientId c)) (getAllUsbClients p).

Definition closeClient (id : Z) (p : PhysicalConnector) : list phys_effect :=
  match mget id (pc_usbClients p) with Some c => [PCloseClient (clientId c)] | None => [] end.

Fixpoint close_managers (ids : list Z) (p : PhysicalConnector) : list phys_effect * PhysicalConnector :=
  match ids with
  | [] => ([], p)
  | id :: ids' =>
      let '(e1, p) := closeDeviceManager id p in
      let '(e2, p) := close_managers ids' p in (e1 ++ e2, p)
  end.

Definition close_physical (p : PhysicalConnector) : list phys_effect * PhysicalConnector :=
  if pc_closed p then ([], p)
  else
    let p := p <| pc_closed := true |> in
    let '(e, p) := close_managers (mkeys (pc_devicesManager p)) p in
    (disableAllClients p ++ e, p).

(** [startWatchClient] before and after the port forwarding of an Android
    device; [shouldStart] is asked again after it. *)
Definition startWatchClient (d : Device) (shouldStart : bool) : list phys_effect :=
  if negb shouldStart then []
  else if dv_isAndroid d then [PForwards (dv_serial d)] else [PStartWatchClient (dv_serial d)].

Definition startWatchClient_forwarded (d : Device) (shouldStart : bool) : list phys_effect :=
  if negb shouldStart then [] else [PStartWatchClient (dv_serial d)].

(** ** Lookups *)

Definition findDevice (serial : option jstr) (p : PhysicalConnector) : list Device :=
  match serial with
  | None => mvals (pc_devices p)
  | Some s => List.filter (fun d => bool_decide (dv_serial d = s)) (mvals (pc_devices p))
  end.

(** A promise that a lookup resolved at once, or that waits for a connection or
    its timeout. *)
Inductive wait_result (A : Type) := Resolved (r : A) | Waiting.
Arguments Resolved {A} r.
Arguments Waiting {A}.

Definition num_negative (n : num) : bool := num_ltb n (NInt 0).

Definition getDevices (timeout : num) (serial : option jstr) (p : PhysicalConnector) : wait_result (list Device) :=
  if num_negative timeout then Resolved (findDevice serial p)
  else match serial with
       | None => Waiting
       | Some _ => match findDevice serial p with [] => Waiting | ds => Resolved ds end
       end.

(** The listener that waits for a device with the serial. *)
Definition device_arrives (serial : option jstr) (d : Device) : option (list Device) :=
  if bool_decide (Some (dv_serial d) = serial) then Some [d] else None.

(** [device_model?.indexOf("iPhone") !== -1]; [None] is the TypeError of a
    value without the method. *)
Definition mentions_iphone (model : json) : option bool :=
  match model with
  | JStr s => Some (match index_of (js "iPhone") s with Some _ => true | None => false end)
  | JArr l => Some (existsb (fun v => jeq_str (Some v) (js "iPhone")) l)
  | JNull => Some true
  | _ => None
  end.

Definition isTargetClient (c : UsbClient) (name : option jstr) : option bool :=
  match name with
  | None => Some false
  | Some n =>
      let q := cd_query (uc_info c) in
      if bool_decide (q_os q = js "Android") && jeq_str ((q_raw_info q)@."AppProcessName") n then Some true
      else match mentions_iphone (q_device_model q) with
           | None => None
           | Some b => Some (b && jeq_str ((q_raw_info q)@."App") n)
           end
  end.

(** [clients.filter(...)]; [None] when the test throws. *)
Fixpoint filter_targets (name : option jstr) (cs : list UsbClient) : option (list UsbClient) :=
  match cs with
  | [] => Some []
  | c :: cs' =>
      match isTargetClient c name, filter_targets name cs' with
      | Some b, Some r => Some (if b then c :: r else r)
      | _, _ => None
      end
  end.

Definition findUsbClient (name : option jstr) (cs : list UsbClient) : option (list UsbClient) :=
  match name with None => Some cs | Some _ => filter_targets name cs end.

Definition clients_of (dev : jstr) (p : PhysicalConnector) : list UsbClient :=
  List.filter (fun c => bool_decide (deviceId c = dev)) (mvals (pc_usbClients p)).

(** [getDeviceUsbClients]; [None] when the promise is rejected by a TypeError. *)
Definition getDeviceUsbClients (dev : jstr) (timeout : num) (name : option jstr) (p : PhysicalConnector)
  : option (wait_result (list UsbClient)) :=
  if negb (mhas dev (pc_devices p)) then Some (Resolved [])
  else if num_negative timeout then Resolved <$> findUsbClient name (clients_of dev p)
  else match name with
       | None => Some Waiting
       | Some _ =>
           match findUsbClient name (mvals (pc_usbClients p)) with
           | None => None
           | Some [] => Some Waiting
           | Some cs => Some (Resolved cs)
           end
       end.

Definition client_arrives (dev : jstr) (name : option jstr) (c : UsbClient) : option (option (list UsbClient)) :=
  if negb (bool_decide (deviceId c = dev)) then Some None
  else (fun b : bool => if b then Some [c] else None) <$> isTargetClient c name.

Definition client_wait_ends (dev : jstr) (name : option jstr) (p : PhysicalConnector) : option (list UsbClient) :=
  findUsbClient name (clients_of dev p).

Definition waitDeviceUsbClients (dev : jstr) (timeout : num) (p : PhysicalConnector) : wait_result (list UsbClient) :=
  if negb (mhas dev (pc_devices p)) then Resolved []
  else if num_negative timeout then Resolved (clients_of dev p) else Waiting.

Definition wait_arrives (dev : jstr) (c : UsbClient) : option (list UsbClient) :=
  if bool_decide (deviceId c = dev) then Some [c] else None.

(** ** The registries and their events *)

Inductive registry_op :=
  | RegisterDevice (d : Device)
  | UnregisterDevice (serial : jstr)
  | RegisterClient (c : UsbClient)
  | UnregisterClient (id : Z).

Definition registry_step (op : registry_op) : PhysicalConnector -> list phys_effect * PhysicalConnector :=
  match op with
  | RegisterDevice d => registerDevice d
  | UnregisterDevice s => unregisterDevice s
  | RegisterClient c => regiserUsbClient c
  | UnregisterClient id => unregiserUsbClient id
  end.

Fixpoint registry_run (ops : list registry_op) (p : PhysicalConnector) : list phys_effect * PhysicalConnector :=
  match ops with
  | [] => ([], p)
  | op :: ops' =>
      let '(e1, p) := registry_step op p in
      let '(e2, p) := registry_run ops' p in (e1 ++ e2, p)
  end.

(** What an observer of the events believes is connected. *)
Definition observe (view : list (jstr * Device) * list (Z * UsbClient)) (e : phys_effect) :=
  match e with
  | PEmit (DeviceConnected d) => (mset (dv_serial d) d view.1, view.2)
  | PEmit (DeviceDisconnected d) => (mdel (dv_serial d) view.1, view.2)
  | PEmit (ClientConnected c) => (view.1, mset (clientId c) c view.2)
  | PEmit (ClientDisconnected id) => (view.1, mdel id view.2)
  | _ => view
  end.

(** Every registry entry is stored under its own serial or id. *)
Record physical_wf (p : PhysicalConnector) : Prop := {
  pw_devices : NoDup (mkeys (pc_devices p));
  pw_serial : forall s d, mget s (pc_devices p) = Some d -> dv_serial d = s;
  pw_clients : NoDup (mkeys (pc_usbClients p));
  pw_id : forall i c, mget i (pc_usbClients p) = Some c -> clientId c = i
}.

Lemma new_physical_wf : physical_wf new_physical.
Proof. split; cbn; try done; apply NoDup_nil_2. Qed.

Lemma registry_step_spec op p : physical_wf p ->
  let '(effects, p') := registry_step op p in
  physical_wf p' /\
  fold_left observe effects (pc_devices p, pc_usbClients p) = (pc_devices p', pc_usbClients p').
Proof.
  intros [Hd Hs Hc Hi]. destruct op as [d|s|c|id]; cbn [registry_step].
  - unfold registerDevice. destruct (mhas (dv_serial d) (pc_devices p)); [by split|]. split; [|done].
    split; cbn [pc_devices pc_usbClients set_field eta eta_physical]; try done; [by apply NoDup_mset|].
    intros s d'. rewrite mget_mset. case_decide; [naive_solver|apply Hs].
  - unfold unregisterDevice. destruct (mget s (pc_devices p)) as [d|] eqn:E; [|by split].
    split; [|cbn; by rewrite (Hs _ _ E)].
    split; cbn [pc_devices pc_usbClients set_field eta eta_physical]; try done; [by apply NoDup_mdel|].
    intros s' d'. rewrite mget_mdel. case_decide; [done|apply Hs].
  - unfold regiserUsbClient. destruct (mhas (clientId c) (pc_usbClients p)); [by split|]. split; [|done].
    split; cbn [pc_devices pc_usbClients set_field eta eta_physical]; try done; [by apply NoDup_mset|].
    intros i c'. rewrite mget_mset. case_decide; [naive_solver|apply Hi].
  - unfold unregiserUsbClient. destruct (mhas id (pc_usbClients p)); [|by split]. split; [|done].
    split; cbn [pc_devices pc_usbClients set_field eta eta_physical]; try done; [by apply NoDup_mdel|].
    intros i c'. rewrite mget_mdel. case_decide; [done|apply Hi].
Qed.

Lemma registry_run_spec ops : forall p, physical_wf p ->
  let '(effects, p') := registry_run ops p in
  physical_wf p' /\
  fold_left observe effects (pc_devices p, pc_usbClients p) = (pc_devices p', pc_usbClients p').
Proof.
  induction ops as [|op ops IH]; intros p Hwf; [done|]. cbn [registry_run].
  pose proof (registry_step_spec op p Hwf) as H. destruct (registry_step op p) as [e1 p1].
  destruct H as [Hwf1 H1]. specialize (IH p1 Hwf1). destruct (registry_run ops p1) as [e2 p2].
  destruct IH as [Hwf2 H2]. split; [done|]. by rewrite fold_left_app, H1.
Qed.

(** The events describe the registries completely.  After any sequence of
    registrations and removals, also repeated and unknown ones, an observer
    that followed the connected and disconnected events knows exactly the
    devices and clients of the registries, in their order, and every entry is
    filed under its own serial or id. *)
Theorem registry_events_complete ops :
  let '(effects, p) := registry_run ops new_physical in
  fold_left observe effects ([], []) = (pc_devices p, pc_usbClients p) /\
  (forall s d, mget s (pc_devices p) = Some d -> dv_serial d = s) /\
  (forall i c, mget i (pc_usbClients p) = Some c -> clientId c = i).
Proof.
  pose proof (registry_run_spec ops new_physical new_physical_wf) as H.
  destruct (registry_run ops new_physical) as [effects p]. destruct H as [[] H]. done.
Qed.

(** ** Client ids *)

Fixpoint allocate (n : nat) (p : PhysicalConnector) : list Z * PhysicalConnector :=
  match n with
  | O => ([], p)
  | S n' =>
      let '(id, p) := createClientId p in
      let '(ids, p) := allocate n' p in (id :: ids, p)
  end.

Lemma createClientId_spec p : 0 <= pc_nextClientId p <= 4294967295 ->
  createClientId p = if pc_nextClientId p =? 4294967295 then (-1, p)
                     else (pc_nextClientId p + 1, p <| pc_nextClientId := pc_nextClientId p + 1 |>).
Proof.
  intros H. unfold createClientId. destruct (Z.ltb_spec 4294967294 (pc_nextClientId p)), (Z.eqb_spec (pc_nextClientId p) 4294967295);
    try lia; [done|]. rewrite js_succ_safe; [done|]. unfold MAX_SAFE. lia.
Qed.

Lemma allocate_spec n : forall p, 0 <= pc_nextClientId p <= 4294967295 ->
  forall i, (i < n)%nat ->
  (allocate n p).1 !! i = Some (if pc_nextClientId p + Z.of_nat i <? 4294967295
                                then pc_nextClientId p + Z.of_nat i + 1 else -1).
Proof.
  induction n as [|n IH]; intros p Hp i Hi; [lia|]. cbn [allocate]. rewrite createClientId_spec by done.
  destruct (Z.eqb_spec (pc_nextClientId p) 4294967295) as [E|E].
  - specialize (IH p Hp). destruct (allocate n p) as [ids p']. cbn [fst] in *. rewrite E in *.
    destruct i as [|i]; cbn [lookup list_lookup].
    + by destruct (Z.ltb_spec (4294967295 + Z.of_nat 0) 4294967295); [lia|].
    + rewrite IH by lia. destruct (Z.ltb_spec (4294967295 + Z.of_nat i) 4294967295),
        (Z.ltb_spec (4294967295 + Z.of_nat (S i)) 4294967295); try lia; done.
  - specialize (IH (p <| pc_nextClientId := pc_nextClientId p + 1 |>)).
    cbn [pc_nextClientId set_field eta eta_physical] in IH.
    destruct (allocate n _) as [ids p']. cbn [fst] in *.
    destruct i as [|i]; cbn [lookup list_lookup].
    + destruct (Z.ltb_spec (pc_nextClientId p + Z.of_nat 0) 4294967295); [|lia]. f_equal. lia.
    + rewrite IH by lia. replace (pc_nextClientId p + 1 + Z.of_nat i) with (pc_nextClientId p + Z.of_nat (S i)) by lia.
      done.
Qed.

(** Client ids are the consecutive numbers from 1 up to 4294967295, each
    given out once and shared by USB and WebSocket clients; every allocation
    after these yields -1. *)
Theorem client_ids_sequential n i : (i < n)%nat ->
  (allocate n new_physical).1 !! i = Some (if Z.of_nat i <? 4294967295 then Z.of_nat i + 1 else -1).
Proof. intros Hi. rewrite allocate_spec; [done|cbn; lia|done]. Qed.

Lemma client_ids_sequential_example : (allocate 3 new_physical).1 !! 2%nat = Some 3.
Proof. rewrite client_ids_sequential by lia. reflexivity. Defined.

(** ** Looking a client up by name *)

Lemma filter_targets_In name c cs r : filter_targets name cs = Some r -> c ∈ cs ->
  isTargetClient c name = Some true -> c ∈ r.
Proof.
  revert r. induction cs as [|c' cs IH]; intros r; [by intros _ ?%not_elem_of_nil|]. cbn [filter_targets].
  destruct (isTargetClient c' name) as [b|] eqn:E; [|done]. destruct (filter_targets name cs) as [r'|]; [|done].
  intros [= <-] [->|Hin]%elem_of_cons Ht.
  - rewrite Ht in E. injection E as <-. left.
  - destruct b; [right|]; by apply IH.
Qed.

(** A lookup by name that may wait does not look at the device.  With a
    timeout that is not negative, [getDeviceUsbClients] answers at once with
    the clients of every device that carry the name, so a client of another
    device is returned for the device asked for; the lookup without waiting
    returns clients of that device only. *)
Theorem named_lookup_ignores_device dev timeout name c p r :
  mhas dev (pc_devices p) = true -> num_negative timeout = false ->
  c ∈ mvals (pc_usbClients p) -> isTargetClient c (Some name) = Some true ->
  getDeviceUsbClients dev timeout (Some name) p = Some r ->
  (exists cs, r = Resolved cs /\ c ∈ cs) /\
  (forall cs c', getDeviceUsbClients dev (NInt (-1)) (Some name) p = Some (Resolved cs) -> c' ∈ cs ->
     deviceId c' = dev).
Proof.
  intros Hd Ht Hc Hn. unfold getDeviceUsbClients. rewrite Hd, Ht. cbn [negb num_negative num_ltb Z.ltb Z.compare].
  destruct (findUsbClient (Some name) (mvals (pc_usbClients p))) as [cs|] eqn:E; [|done].
  pose proof (filter_targets_In _ _ _ _ E Hc Hn) as Hin. intros Hr. split.
  - exists cs. split; [|done]. destruct cs; [by apply not_elem_of_nil in Hin|]. by injection Hr as <-.
  - intros cs' c' H Hin'. cbn in H. destruct (filter_targets (Some name) (clients_of dev p)) as [l|] eqn:El; [|done].
    injection H as ->. assert (c' ∈ clients_of dev p) as Hc'.
    { clear -El Hin'. revert cs' El Hin'. induction (clients_of dev p) as [|x l IH]; intros cs'; cbn [filter_targets].
      - intros [= <-] ?%not_elem_of_nil. done.
      - destruct (isTargetClient x (Some name)) as [b|]; [|done]. destruct (filter_targets (Some name) l) as [r|]; [|done].
        intros [= <-]. destruct b; [intros [->|Hr]%elem_of_cons; [left|right; by eapply IH]|intros Hr; right; by eapply IH]. }
    unfold clients_of in Hc'. apply list_elem_of_In, filter_In in Hc' as [_ Hc']. by apply bool_decide_eq_true in Hc'.
Qed.

Definition phone_client : UsbClient :=
  mkUsbClient (mkClientDescription 8901 1 (mkClientQuery (jstring "demo") (js "Android") (js "Pixel") (jstring "Pixel")
    (js "serial-B") None (Some (JObj [(js "AppProcessName", jstring "com.demo")])))).

Lemma named_lookup_ignores_device_example :
  let p := new_physical <| pc_devices := [(js "serial-A", mkDevice (js "Android") [] (js "serial-A") [] [] true)] |>
             <| pc_usbClients := [(1, phone_client)] |> in
  exists cs, getDeviceUsbClients (js "serial-A") (NInt 1000) (Some (js "com.demo")) p = Some (Resolved cs) /\
    phone_client ∈ cs /\ deviceId phone_client <> js "serial-A".
Proof.
  intros p.
  destruct (named_lookup_ignores_device (js "serial-A") (NInt 1000) (js "com.demo") phone_client p
    (Resolved [phone_client])) as [(cs & H1 & H2) _]; try (vm_compute; reflexivity).
  - left.
  - exists cs. split; [rewrite <- H1; vm_compute; reflexivity|]. split; [exact H2|]. discriminate.
Defined.
