(* ===== verification/WebSocket.v ===== *)
(** * The WebSocket controller

    Models [websocket/WebSocketServer.ts] and [websocket/WebSocketConnection.ts]:
    registration of WebSocket clients, the client list sent to Driver front
    ends, and the classification of their messages.  The [ws] sockets are the
    environment; calls into the host are actions of the result. *)

From Stdlib Require Import SpecFloat String.
From S2P Require Import JsValue Json Protocol Message Ownership Physical.

Record WebSocketController := mkController {
  wc_roomId : jstr;
  wc_websocketAppClients : list (Z * WebSocketClientInfo);
  wc_webClients : list (Z * WebSocketClientInfo)
}.

#[export] Instance eta_controller : Eta WebSocketController := fun c =>
  mkController (wc_roomId c) (wc_websocketAppClients c) (wc_webClients c).

Definition new_controller (roomId : option jstr) : WebSocketController := mkController (default [] roomId) [] [].

Definition isDriver (i : WebSocketClientInfo) : bool := jeq_str (wi_type i) (js "Driver").

(** ** Registration *)

Definition initMessage (client_id : Z) : jstr :=
  stringify (JObj [(js "event", jstring "Initialize"); (js "data", jint client_id)]).

(** [x ?? ""]. *)
Definition or_empty (v : jsval) : json := match v with None | Some JNull => JStr [] | Some x => x end.

(** The handler of the messages before the registration: a message that is not
    JSON, or [null], makes it throw. *)
Inductive registration :=
  | RegThrows
  | RegIgnored                     (* the client has five seconds more *)
  | Registered (info : WebSocketClientInfo).

Definition onRegisterMessage (client_id : Z) (text : jstr) : registration :=
  match parse text with
  | None | Some JNull => RegThrows
  | Some response =>
      if negb (jeq_str ((Some response)@."event") (js "Register")) then RegIgnored
      else
        let data := (Some response)@."data" in
        match truthy data, data@."id" with
        | true, Some (JNum n) =>
            if num_eqb n (NInt client_id) then
              let info := data@."info" in
              Registered (mkWsInfo client_id (or_empty (info@."app")) (or_empty (info@."debugRouterVersion"))
                (or_empty (info@."deviceModel")) (or_empty (info@."osVersion")) (or_empty (info@."sdkVersion"))
                (data@."type") info)
            else RegIgnored
        | _, _ => RegIgnored
        end
  end.

Definition roomJoined (c : WebSocketController) (id : Z) : jstr :=
  stringify (JObj [(js "event", jstring "RoomJoined");
                   (js "data", JObj [(js "room", JStr (wc_roomId c)); (js "id", jint id)])]).

(** The registries after a registration; the host is told which it was. *)
Definition add_client (i : WebSocketClientInfo) (c : WebSocketController) : WebSocketController :=
  if isDriver i then c <| wc_webClients ::= mset (wi_id i) i |>
  else c <| wc_websocketAppClients ::= mset (wi_id i) i |>.

(** [handleDisconnect]: whether an App and whether a Driver was removed. *)
Definition handleDisconnect (id : Z) (c : WebSocketController) : bool * bool * WebSocketController :=
  let app := mhas id (wc_websocketAppClients c) in
  let web := mhas id (wc_webClients c) in
  (app, web, c <| wc_websocketAppClients ::= mdel id |> <| wc_webClients ::= mdel id |>).

(** ** The client list *)

(** [{ ...v, k: x, ... }]. *)
Definition spread_with (v : jsval) (kvs : list (jstr * json)) : json :=
  JObj (fold_left (fun acc p => mset p.1 p.2 acc) kvs (match v with Some x => spread x | None => [] end)).

Definition ws_entry (i : WebSocketClientInfo) : json :=
  jobj [field "id" (jint (wi_id i)); opt_field "type" (wi_type i);
        field "info" (spread_with (wi_raw_info i) [(js "network", jstring "WiFi")])].

Definition usb_entry (c : UsbClient) : json :=
  let q := cd_query (uc_info c) in
  jobj [field "id" (jint (clientId c)); field "type" (jstring "runtime");
        field "info" (spread_with (q_raw_info q)
          [(js "deviceName", JStr (q_device q)); (js "osType", JStr (q_os q));
           (js "deviceModel", q_device_model q); (js "network", jstring "USB")])].

(** The message [handleListClients] sends to a Driver. *)
Definition clientList (self : Z) (usbClients : list UsbClient) (c : WebSocketController) : jstr :=
  stringify (jobj [field "event" (jstring "ClientList");
    field "data" (JArr
      (List.map ws_entry (List.filter (fun i => negb (wi_id i =? self)) (mvals (wc_websocketAppClients c))) ++
       List.map usb_entry (List.filter (fun u => negb (clientId u =? self)) usbClients)))]).

(** [sendClientList]: every Driver with the list it gets; the entries of
    [webClients] are Drivers. *)
Definition sendClientList (usbClients : list UsbClient) (c : WebSocketController) : list (Z * jstr) :=
  List.map (fun q => (q.1, clientList q.1 usbClients c)) (List.filter (fun q => isDriver q.2) (wc_webClients c)).

(** ** Messages of registered clients *)

(** [String(v)] of a parsed value, as array elements are joined; an object with
    an own [toString] cannot be converted and the conversion throws. *)
Fixpoint js_to_string (v : json) : option jstr :=
  match v with
  | JNull => Some []
  | JBool b => Some (js (if b then "true" else "false"))
  | JNum n => Some (num_toString n)
  | JStr s => Some s
  | JArr l =>
      (fix join (l : list json) : option jstr :=
         match l with
         | [] => Some []
         | [x] => js_to_string x
         | x :: r => match js_to_string x, join r with
                     | Some a, Some b => Some (a ++ js "," ++ b)
                     | _, _ => None
                     end
         end) l
  | JObj kvs => if mhas (js "toString") kvs then None else Some (js "[object Object]")
  end.

Definition string_is_minus_one (s : jstr) : bool :=
  match trim s with
  | [] => false
  | t => match stringToNumber t with Some n => num_eqb n (NInt (-1)) | None => false end
  end.

(** [v == -1] with the coercions of loose equality; [None] when it throws. *)
Definition loose_minus_one (v : json) : option bool :=
  match v with
  | JNum n => Some (num_eqb n (NInt (-1)))
  | JStr s => Some (string_is_minus_one s)
  | JArr _ => string_is_minus_one <$> js_to_string v
  | JObj kvs => if mhas (js "toString") kvs then None else Some false
  | JNull | JBool _ => Some false
  end.

Inductive ws_action :=
  | EmitWebMessage (id : Z) (message : jstr)       (* ws-web-message *)
  | EmitClientMessage (id : Z) (message : jstr)    (* ws-client-message *)
  | ListClients (id : Z)
  | Pong (id : Z)
  | MessageToApp (target : Z) (message : jstr) (from : Z)
  | AppMessage (id : Z) (message : jstr).

Definition pong : jstr := stringify (JObj [(js "event", jstring "Pong")]).

(** [x ?? -1]. *)
Definition or_minus_one (v : jsval) : json := match v with None | Some JNull => jint (-1) | Some x => x end.

(** A target that is not a number finds no client, and the error of the host is
    caught: nothing happens. *)
Definition handleCustomizedMessage (i : WebSocketClientInfo) (data : json) (text : jstr) : list ws_action :=
  if isDriver i then
    match or_minus_one ((Some data)@."data"@."data"@."client_id") with
    | JNum n => match num_key n with
                | Some id => if id =? -1 then [] else [MessageToApp id text (wi_id i)]
                | None => []
                end
    | _ => []
    end
  else
    match loose_minus_one (or_minus_one ((Some data)@."data"@."sender")) with
    | Some false => [AppMessage (wi_id i) text]
    | _ => []
    end.

(** [handleMessage] on the text of a frame: text that is not JSON is logged, and
    reading [null.event] throws, for a Driver after its message was emitted. *)
Definition handleMessage (i : WebSocketClientInfo) (text : jstr) : list ws_action :=
  match parse text with
  | None => []
  | Some m =>
      let event := (Some m)@."event" in
      (if isDriver i then [EmitWebMessage (wi_id i) text]
       else if match m with JNull => true | _ => false end || jeq_str event (js "Customized") then []
       else [EmitClientMessage (wi_id i) text]) ++
      (if jeq_str event (js "ListClients") then (if isDriver i then [ListClients (wi_id i)] else [])
       else if jeq_str event (js "Ping") then (if isDriver i then [Pong (wi_id i)] else [])
       else if jeq_str event (js "Customized") then handleCustomizedMessage i m text
       else [])
  end.
