(* ===== verification/Host.v ===== *)
(** * The daemon host: state, consumers and snapshots

    Models the first half of [multiplexer/daemon/MultiplexerDaemonHost.ts]: the
    state of the host, the bookkeeping of its consumers (control connections and
    WebSocket front ends), device managers, client watchers, ownership changes,
    snapshots and the idle timer.  An operation returns the effects it has on
    the outside, in order, and the new state. *)

From Stdlib Require Import SpecFloat String.
From S2P Require Import JsValue Json Protocol PendingRoutes MemoTable Message ReportBridge Ownership Physical WebSocket.

Definition DEFAULT_DEV_SERVE_PORT : Z := 19783.
Definition DEFAULT_WEBSOCKET_START_TIMEOUT_MS : Z := 5000.

(** The promise of an RPC: the control connection that asked and the id of its
    request.  [resolve] and [reject] of a route settle this promise. *)
Definition callback : Type := Z * num.

(** What JavaScript code throws here: an object with a code, or an [Error]. *)
Inductive thrown :=
  | ThrowCode (code message : jstr)
  | ThrowError (message : jstr).

(** What an operation does to the outside.  [ToControl] and [Broadcast] go to
    the control server; [Resolve] and [Reject] settle the promise of an RPC. *)
Inductive effect :=
  | ToControl (controlId : Z) (e : ControlEvent)
  | Broadcast (e : ControlEvent)
  | Resolve (cb : callback) (value : json)
  | Reject (cb : callback) (e : thrown)
  | SendUsb (id : Z) (message : json)
  | SendApp (id : Z) (message : jstr)
  | SendWeb (id : Z) (message : jstr)
  | CloseWs (id : Z)
  | Phys (e : phys_effect)
  | CallIdleHandler
  | CallShutdownHandler.

Inductive LifecycleStatus := uninitialized | ready | closed_.
#[export] Instance lifecycle_eq_dec : EqDecision LifecycleStatus.
Proof. solve_decision. Defined.

Record WebSocketServerInfo := mkServerInfo { si_port : Z; si_host : jstr; si_roomId : option jstr }.

(** The options of the host, with the process id. *)
Record HostOption := mkHostOption {
  ho_protocolVersion : Z;
  ho_idleTimeout : num;                 (* multiplexerDaemonIdleTimeout *)
  ho_debugInfo : jsval;
  ho_enableWebSocket : option bool;
  ho_roomId : option jstr;
  ho_memoizedNotificationTtlMs : option Z;
  ho_pid : Z;
  ho_iosSupported : bool                (* the platform is darwin or win32 *)
}.

(** The key of an enabled manager and the controls that need it; its [close]
    closes the manager the key names. *)
Record EnabledManager := mkEnabled { em_key : DeviceManager; em_controlIds : list Z }.

Record Host := mkHost {
  h_option : HostOption;
  h_physicalConnector : PhysicalConnector;
  h_enableWebSocket : bool;
  h_enabledManagers : list EnabledManager;
  h_pendingRoutes : @PendingRouteTable callback;
  h_memoizedQueryTable : MemoizedQueryTable;
  h_retryClosures : list (Z * (bool * json));     (* per pending query: WebSocket client?, message *)
  h_controlServer : bool;                         (* published *)
  h_webSocketController : option WebSocketController;
  h_webSocketServerInfo : option WebSocketServerInfo;
  h_clientWatcherStartedDeviceIds : list jstr;
  h_clientWatcherStartingByDeviceId : list (jstr * Z);   (* startup attempts *)
  h_nextAttempt : Z;                              (* identity of the next attempt *)
  h_webSocketServerStarted : bool;
  h_webSocketServerStarting : bool;
  h_activeControlIds : list Z;
  h_autoConnectControlIds : list Z;
  h_reportControlIds : list Z;
  h_reportBridge : Bridge;
  h_webSocketRequesterControlIds : list Z;
  h_activeWebSocketDriverIds : list Z;
  h_ownershipStatus : OwnershipStatus;            (* legacyOwnershipGuard.currentStatus *)
  h_idleTimer : option Z;                         (* when the armed timer is due *)
  h_idleTimeoutHandler : bool;
  h_shutdownHandler : bool;
  h_lifecycleStatus : LifecycleStatus;
  h_shutdownRequested : bool;
  h_daemonStopReason : option jstr
}.

#[export] Instance eta_host : Eta Host := fun h =>
  mkHost (h_option h) (h_physicalConnector h) (h_enableWebSocket h) (h_enabledManagers h) (h_pendingRoutes h)
    (h_memoizedQueryTable h) (h_retryClosures h) (h_controlServer h) (h_webSocketController h) (h_webSocketServerInfo h)
    (h_clientWatcherStartedDeviceIds h) (h_clientWatcherStartingByDeviceId h) (h_nextAttempt h)
    (h_webSocketServerStarted h) (h_webSocketServerStarting h) (h_activeControlIds h) (h_autoConnectControlIds h)
    (h_reportControlIds h) (h_reportBridge h) (h_webSocketRequesterControlIds h) (h_activeWebSocketDriverIds h)
    (h_ownershipStatus h) (h_idleTimer h) (h_idleTimeoutHandler h) (h_shutdownHandler h) (h_lifecycleStatus h)
    (h_shutdownRequested h) (h_daemonStopReason h).

(** The reduction of record reads and updates of a host. *)
Ltac hcbn := cbn [set_field eta eta_host eta_physical
  h_option h_physicalConnector h_enableWebSocket h_enabledManagers h_pendingRoutes
  h_memoizedQueryTable h_retryClosures h_controlServer h_webSocketController h_webSocketServerInfo
  h_clientWatcherStartedDeviceIds h_clientWatcherStartingByDeviceId h_nextAttempt
  h_webSocketServerStarted h_webSocketServerStarting h_activeControlIds h_autoConnectControlIds
  h_reportControlIds h_reportBridge h_webSocketRequesterControlIds h_activeWebSocketDriverIds
  h_ownershipStatus h_idleTimer h_idleTimeoutHandler h_shutdownHandler h_lifecycleStatus
  h_shutdownRequested h_daemonStopReason fst snd].

Definition new_host (o : HostOption) : Host :=
  mkHost o new_physical (default false (ho_enableWebSocket o)) [] (new_table None)
    (new_memo None (ho_memoizedNotificationTtlMs o)) [] false None None [] [] 0 false false [] [] [] new_bridge [] []
    unInit None false false uninitialized false None.

Definition legacyOwnershipAttached (h : Host) : bool := bool_decide (h_ownershipStatus h = attached).

Definition isInUse (h : Host) : bool :=
  negb (bool_decide (h_activeControlIds h = [])) || negb (bool_decide (h_activeWebSocketDriverIds h = [])).

Definition setIdleTimeoutHandler (h : Host) : Host := h <| h_idleTimeoutHandler := true |>.
Definition setShutdownHandler (h : Host) : Host := h <| h_shutdownHandler := true |>.

(** ** Sending *)

(** Without a published control server nothing is sent. *)
Definition broadcast (e : ControlEvent) (h : Host) : list effect :=
  if h_controlServer h then [Broadcast e] else [].

Definition sendToControl (controlId : Z) (e : ControlEvent) (h : Host) : list effect :=
  if h_controlServer h then [ToControl controlId e] else [].

Definition sendToWebSocketRequesters (e : ControlEvent) (h : Host) : list effect :=
  flat_map (fun id => sendToControl id e h) (h_webSocketRequesterControlIds h).

Definition getWebSocketAppClients (h : Host) : option (list (Z * WebSocketClientInfo)) :=
  wc_websocketAppClients <$> h_webSocketController h.

Definition getWebSocketWebClients (h : Host) : option (list (Z * WebSocketClientInfo)) :=
  wc_webClients <$> h_webSocketController h.

Definition sendMessageToWeb (message : jstr) (h : Host) : list effect :=
  if negb (h_enableWebSocket h) then []
  else match h_webSocketController h with
       | None => []
       | Some c => List.map (fun id => SendWeb id message) (mkeys (wc_webClients c))
       end.

Definition sendMessageToWebClient (webClientId : Z) (message : jstr) (h : Host) : list effect :=
  if negb (h_enableWebSocket h) then []
  else match h_webSocketController h with
       | None => []
       | Some c => if mhas webClientId (wc_webClients c) then [SendWeb webClientId message] else []
       end.

(** ** Snapshots *)

(** [{ ...debugInfo, protocolVersion, processId, timestamp }]. *)
Definition createDebugInfo (timestamp : Z) (h : Host) : jsval :=
  match ho_debugInfo (h_option h) with
  | None => None
  | Some d =>
      if truthy (Some d)
      then Some (spread_with (Some d) [(js "protocolVersion", jint (ho_protocolVersion (h_option h)));
                   (js "processId", jint (ho_pid (h_option h))); (js "timestamp", jint timestamp)])
      else None
  end.

Definition serializeDevice (d : Device) : DeviceSnapshot :=
  mkDeviceSnapshot (dv_os d) (dv_title d) (dv_serial d) (dv_ports d) (dv_host d).

Definition serializeClient (c : UsbClient) : ClientDescription := uc_info c.

(** [raw_info] is copied through JSON. *)
Definition cloneWebSocketClient (i : WebSocketClientInfo) : WebSocketClientInfo :=
  mkWsInfo (wi_id i) (wi_app i) (wi_debugRouterVersion i) (wi_deviceModel i) (wi_osVersion i) (wi_sdkVersion i)
    (wi_type i) (cloneJsonValue (wi_raw_info i)).

Definition createSnapshot (now : Z) (h : Host) : Snapshot :=
  let attached := legacyOwnershipAttached h in
  let devices := if attached then mvals (pc_devices (h_physicalConnector h)) else [] in
  let clients := if attached then getAllUsbClients (h_physicalConnector h) else [] in
  mkSnapshot (ho_protocolVersion (h_option h)) now
    (List.map serializeDevice devices) (List.map serializeClient clients)
    ((fun m => if attached then List.map cloneWebSocketClient (mvals m) else []) <$> getWebSocketAppClients h)
    ((fun m => List.map cloneWebSocketClient (mvals m)) <$> getWebSocketWebClients h)
    (createDebugInfo now h).

(** [sendSnapshot()] and [sendSnapshot(controlIds)]. *)
Definition sendSnapshot (now : Z) (h : Host) : list effect := broadcast (EvSnapshot (createSnapshot now h)) h.

Definition sendSnapshotTo (controlIds : list Z) (now : Z) (h : Host) : list effect :=
  flat_map (fun id => sendToControl id (EvSnapshot (createSnapshot now h)) h) controlIds.

(** The USB clients a WebSocket front end may see. *)
Definition host_getAllUsbClients (h : Host) : list UsbClient :=
  if legacyOwnershipAttached h then getAllUsbClients (h_physicalConnector h) else [].

Definition host_sendClientList (h : Host) : list effect :=
  match h_webSocketController h with
  | None => []
  | Some c => List.map (fun q => SendWeb q.1 q.2) (sendClientList (host_getAllUsbClients h) c)
  end.

Definition publishClientSnapshot (now : Z) (h : Host) : list effect := host_sendClientList h ++ sendSnapshot now h.

(** ** Reports *)

(** A send of the bridge is a message to a control connection, which has no
    synchronous effect on the bridge: the socket reports errors later. *)
Definition no_reenter : Z -> ReportEventData -> list ReportStatus := fun _ _ => [].

Definition report_effects (sent : list sent_report) (h : Host) : list effect :=
  flat_map (fun p => sendToControl p.1 (EvReport (rd_eventName p.2) (rd_metrics p.2) (rd_categories p.2)) h) sent.

Definition updateReportStatus (h : Host) : list effect * Host :=
  let status := match h_reportControlIds h with id :: _ => ForwardTo id | [] => Disconnected end in
  let '(sent, b) := updateStatus no_reenter status (h_reportBridge h) in
  (report_effects sent h, h <| h_reportBridge := b |>).

Definition host_report (eventName : jstr) (metrics categories : jsval) (h : Host) : list effect * Host :=
  let '(sent, b) := report no_reenter eventName metrics categories (h_reportBridge h) in
  (report_effects sent h, h <| h_reportBridge := b |>).

(** ** Idle timer *)

Definition clearIdleTimeout (h : Host) : Host := h <| h_idleTimer := None |>.

Definition scheduleIdleTimeoutIfNeeded (now : Z) (h : Host) : Host :=
  if negb (bool_decide (h_lifecycleStatus h = ready)) || negb (h_idleTimeoutHandler h) then h
  else
    let idleTimeout := ho_idleTimeout (h_option h) in
    if num_negative idleTimeout || isInUse h then h
    else (clearIdleTimeout h) <| h_idleTimer := Some (now + node_delay idleTimeout) |>.

(** The callback of the timer. *)
Definition idle_timer_fires (h : Host) : list effect * Host :=
  match h_idleTimer h with
  | None => ([], h)
  | Some _ =>
      let h := h <| h_idleTimer := None |> in
      if isInUse h then ([], h)
      else ((if h_idleTimeoutHandler h then [CallIdleHandler] else []), h <| h_daemonStopReason := Some (js "idle_timeout") |>)
  end.

(** ** Routes *)

Definition route_rejects (e : thrown) (r : @PendingRoute callback) : list effect :=
  match r_kind r with
  | RControl => match r_reject r with Some cb => [Reject cb e] | None => [] end
  | RWebSocket => []
  end.

Definition rejectRoutes (routes : list (@PendingRoute callback)) (e : thrown) : list effect :=
  flat_map (route_rejects e) routes.

(** ** Device managers *)

Definition key_eqb (a b : DeviceManager) : bool :=
  bool_decide (dm_platform a = dm_platform b) && bool_decide (dm_host a = dm_host b) &&
  opt_num_eqb (dm_port a) (dm_port b) && bool_decide (dm_ip a = dm_ip b).

(** [addManagerControl]: true for a manager that is new. *)
Fixpoint add_to_managers (key : DeviceManager) (controlId : Z) (ms : list EnabledManager) : bool * list EnabledManager :=
  match ms with
  | [] => (true, [mkEnabled key [controlId]])
  | m :: ms' =>
      if key_eqb (em_key m) key then (false, mkEnabled (em_key m) (sadd controlId (em_controlIds m)) :: ms')
      else let '(new, ms') := add_to_managers key controlId ms' in (new, m :: ms')
  end.

Definition addManagerControl (key : DeviceManager) (controlId : Z) (h : Host) : bool * Host :=
  let '(new, ms) := add_to_managers key controlId (h_enabledManagers h) in (new, h <| h_enabledManagers := ms |>).

(** The [close] closure of an enabled manager. *)
Definition close_manager (key : DeviceManager) (p : PhysicalConnector) : list phys_effect * PhysicalConnector :=
  match dm_platform key with
  | android => closeAndroidDeviceManager (default [] (dm_host key)) (default (NInt 0) (dm_port key)) p
  | harmony => closeHarmonyDeviceManager (default [] (dm_host key)) (default (NInt 0) (dm_port key)) p
  | ios => closeIOSDeviceManager p
  | desktop => closeDesktopDeviceManager p
  | network => closeNetworkDeviceManager (default [] (dm_ip key)) p
  end.

(** The loop of [releasePhysicalDeviceManagers]: the managers that stay, the
    effects of closing the others and the connector after it. *)
Fixpoint release_managers (controlId : Z) (ms : list EnabledManager) (p : PhysicalConnector)
  : list phys_effect * list EnabledManager * PhysicalConnector :=
  match ms with
  | [] => ([], [], p)
  | m :: ms' =>
      if negb (shas controlId (em_controlIds m)) then
        let '(e, kept, p) := release_managers controlId ms' p in (e, m :: kept, p)
      else
        match sdel controlId (em_controlIds m) with
        | [] =>
            let '(e1, p) := close_manager (em_key m) p in
            let '(e2, kept, p) := release_managers controlId ms' p in (e1 ++ e2, kept, p)
        | rest =>
            let '(e, kept, p) := release_managers controlId ms' p in (e, mkEnabled (em_key m) rest :: kept, p)
        end
  end.

Definition releasePhysicalDeviceManagers (controlId : Z) (h : Host) : list effect * Host :=
  let '(e, ms, p) := release_managers controlId (h_enabledManagers h) (h_physicalConnector h) in
  (List.map Phys e, h <| h_enabledManagers := ms |> <| h_physicalConnector := p |>).

(** Registers the control with the manager of [key] and, when it is new, adds
    the manager to the connector. *)
Definition add_manager (key : DeviceManager) (controlId : Z) (autoListen supported : bool) (h : Host)
  : list effect * Host :=
  let '(new, h) := addManagerControl key controlId h in
  if new && supported then
    let '(e, p) := addDeviceManager key autoListen (h_physicalConnector h) in
    (List.map Phys e, h <| h_physicalConnector := p |>)
  else ([], h).

Definition str_or (d : string) (v : jsval) : jstr := match v with Some (JStr s) => s | _ => js d end.
Definition num_or (d : Z) (v : jsval) : num := match v with Some (JNum n) => n | _ => NInt d end.

Definition android_key (opt : jsval) : DeviceManager :=
  mkManager android (Some (str_or "127.0.0.1" (opt@."host"))) (Some (num_or 5037 (opt@."port"))) None.
Definition harmony_key (opt : jsval) : DeviceManager :=
  mkManager harmony (Some (str_or "127.0.0.1" (opt@."host"))) (Some (num_or 8710 (opt@."port"))) None.
Definition ios_key : DeviceManager := mkManager ios None None None.
Definition desktop_key : DeviceManager := mkManager desktop None None None.
Definition network_key (opt : jsval) : DeviceManager := mkManager network None None (Some (str_or "" (opt@."ip"))).

Definition addNetworkManager (controlId : Z) (opt : jsval) (autoListen : bool) (h : Host) : list effect * Host :=
  add_manager (network_key opt) controlId autoListen true h.

(** Effects of a list of operations in sequence. *)
Fixpoint seq_ops (ops : list (Host -> list effect * Host)) (h : Host) : list effect * Host :=
  match ops with
  | [] => ([], h)
  | f :: ops' => let '(e1, h) := f h in let '(e2, h) := seq_ops ops' h in (e1 ++ e2, h)
  end.

Definition when (b : bool) (f : Host -> list effect * Host) (h : Host) : list effect * Host :=
  if b then f h else ([], h).

(** The additions start in this order; each runs up to its first [await], which
    is the discovery of a new manager. *)
Definition addPhysicalDeviceManagers (controlId : Z) (option : jsval) (h : Host) : list effect * Host :=
  let h := if truthy (option@."usbConnectOpt")
           then h <| h_physicalConnector ::= updateUsbConnectOption (num_or 0 (option@."usbConnectOpt"@."retryTime")) |>
           else h in
  let auto := negb (pc_manualConnect (h_physicalConnector h)) in
  seq_ops
    [when (truthy (option@."enableAndroid")) (add_manager (android_key (option@."adbHostPort")) controlId auto true);
     when (truthy (option@."enableHarmony")) (add_manager (harmony_key (option@."hdcHostPort")) controlId auto true);
     when (truthy (option@."enableIOS")) (add_manager ios_key controlId auto (ho_iosSupported (h_option h)));
     when (truthy (option@."enableDesktop")) (add_manager desktop_key controlId auto true);
     when (truthy (option@."enableNetworkDevice") && truthy (option@."networkDeviceOpt"))
       (addNetworkManager controlId (option@."networkDeviceOpt") auto)] h.

(** ** Control connections *)

Definition default_facade_option : json :=
  JObj [(js "manualConnect", JBool false); (js "enableAndroid", JBool true); (js "enableIOS", JBool true);
        (js "enableHarmony", JBool true); (js "enableDesktop", JBool false); (js "enableNetworkDevice", JBool false)].

Definition ownership_greeting (h : Host) : option ControlEvent :=
  match h_ownershipStatus h with
  | unInit => None
  | attached => Some (EvOwnership (mkChange attached (ho_pid (h_option h)) None daemon_started))
  | unattached => Some (EvOwnership (mkChange unattached (ho_pid (h_option h)) None legacy_preempted))
  end.

Definition handleControlConnected (controlId : Z) (reportServiceEnabled : bool) (facade : jsval) (now : Z) (h : Host)
  : list effect * Host :=
  let option := Some (default default_facade_option facade) in
  let manual := truthy (option@."manualConnect") in
  let h := h <| h_activeControlIds ::= sadd controlId |> in
  let h := if manual then h else h <| h_autoConnectControlIds ::= sadd controlId |> in
  let h := h <| h_physicalConnector ::= (fun p => p <| pc_manualConnect := bool_decide (h_autoConnectControlIds h = []) |>) |> in
  let h := if reportServiceEnabled then h <| h_reportControlIds ::= sadd controlId |> else h in
  let h := clearIdleTimeout h in
  let e0 := sendSnapshotTo [controlId] now h ++
            match ownership_greeting h with Some ev => sendToControl controlId ev h | None => [] end in
  let msg := js "PhysicalConnectorOption:" ++ stringify (default default_facade_option facade) in
  let '(e1, h) := seq_ops
    [updateReportStatus;
     when (negb manual) (host_report (js "PhysicalConnectorInitOfNoManualConnect") (Some (JObj []))
                           (Some (JObj [(js "option", JStr msg)])));
     (fun h => ([], if truthy (option@."enableWebSocket") then h <| h_enableWebSocket := true |> else h));
     addPhysicalDeviceManagers controlId option;
     when (negb manual) (fun h => (List.map Phys (startDeviceListeners (h_physicalConnector h)), h))] h in
  (e0 ++ e1, h).

Definition disconnected_error (controlId : Z) : thrown :=
  ThrowError (js "Multiplexer control " ++ show_int controlId ++ js " disconnected").

Definition handleControlDisconnected (controlId : Z) (now : Z) (h : Host) : list effect * Host :=
  let h := h <| h_activeControlIds ::= sdel controlId |> <| h_autoConnectControlIds ::= sdel controlId |> in
  let h := h <| h_physicalConnector ::= (fun p => p <| pc_manualConnect := bool_decide (h_autoConnectControlIds h = []) |>) |>
             <| h_reportControlIds ::= sdel controlId |> in
  let '(e1, h) := updateReportStatus h in
  let h := h <| h_webSocketRequesterControlIds ::= sdel controlId |> in
  let '(e2, h) := releasePhysicalDeviceManagers controlId h in
  let '(routes, t) := clearByControlId controlId (h_pendingRoutes h) in
  let h := h <| h_pendingRoutes := t |> in
  (e1 ++ e2 ++ rejectRoutes routes (disconnected_error controlId), scheduleIdleTimeoutIfNeeded now h).

(** ** WebSocket clients *)

Definition runtime_gone (clientId : Z) : thrown :=
  ThrowError (js "Multiplexer runtime client " ++ show_int clientId ++ js " disconnected").

(** Forgetting a runtime: its memoized queries and the routes to it. *)
Definition drop_runtime (clientId : Z) (h : Host) : list effect * Host :=
  let h := h <| h_memoizedQueryTable ::= clearClient clientId |> in
  let '(routes, t) := clearByClientId clientId (h_pendingRoutes h) in
  (rejectRoutes routes (runtime_gone clientId), h <| h_pendingRoutes := t |>).

Definition handleWebSocketClientConnected (clientId : Z) (driver : bool) (now : Z) (h : Host) : list effect * Host :=
  let h := if driver then clearIdleTimeout (h <| h_activeWebSocketDriverIds ::= sadd clientId |>) else h in
  (sendSnapshotTo (h_webSocketRequesterControlIds h) now h, h).

Definition handleWebSocketClientDisconnected (clientId : Z) (driver : bool) (now : Z) (h : Host) : list effect * Host :=
  let '(e, h) :=
    if driver then
      let h := h <| h_activeWebSocketDriverIds ::= sdel clientId |> in
      let '(_, t) := clearByWebClientId clientId (h_pendingRoutes h) in
      ([], scheduleIdleTimeoutIfNeeded now (h <| h_pendingRoutes := t |>))
    else drop_runtime clientId h in
  (e ++ sendSnapshotTo (h_webSocketRequesterControlIds h) now h, h).

(** The events of the WebSocket controller, [emit]. *)
Inductive ws_event :=
  | WsClientMessage (id : Z) (message : jstr)
  | WsWebMessage (id : Z) (message : jstr)
  | WsAppConnected (i : WebSocketClientInfo)
  | WsWebConnected (i : WebSocketClientInfo)
  | WsAppDisconnected (id : Z)
  | WsWebDisconnected (id : Z)
  | WsOther.                       (* the generic app-client events *)

Definition emit (e : ws_event) (now : Z) (h : Host) : list effect * Host :=
  match e with
  | WsClientMessage id m => (sendToWebSocketRequesters (EvClientMessage websocket_runtime id m) h, h)
  | WsWebMessage id m => (sendToWebSocketRequesters (EvClientMessage websocket_driver id m) h, h)
  | WsAppConnected i | WsWebConnected i => handleWebSocketClientConnected (wi_id i) (isDriver i) now h
  | WsAppDisconnected id => handleWebSocketClientDisconnected id false now h
  | WsWebDisconnected id => handleWebSocketClientDisconnected id true now h
  | WsOther => ([], h)
  end.

(** ** Client watchers

    [starting] of [ensureClientWatcher] is a promise; its identity is the
    attempt number.  The promise runs in four steps: the caller registers it,
    it asks the connector to start, the connector may have to forward ports
    first, and it ends. *)

Definition clearClientWatcherStartState (deviceId : jstr) (h : Host) : Host :=
  h <| h_clientWatcherStartedDeviceIds ::= sdel deviceId |>
    <| h_clientWatcherStartingByDeviceId ::= mdel deviceId |>.

Definition clearAllClientWatcherStartState (h : Host) : Host :=
  h <| h_clientWatcherStartedDeviceIds := [] |> <| h_clientWatcherStartingByDeviceId := [] |>.

Inductive watch_outcome :=
  | WatchReady                          (* no device, or the watcher runs *)
  | WatchThrows (e : thrown)
  | WatchAwaits (attempt : Z).          (* shares the attempt *)

Definition not_attached : thrown := ThrowError (js "Multiplexer legacy owner is not attached").

Definition ensureClientWatcher (deviceId : jstr) (h : Host) : watch_outcome * Host :=
  match mget deviceId (pc_devices (h_physicalConnector h)) with
  | None => (WatchReady, h)
  | Some _ =>
      if negb (legacyOwnershipAttached h) then (WatchThrows not_attached, h)
      else if shas deviceId (h_clientWatcherStartedDeviceIds h) then (WatchReady, h)
      else match mget deviceId (h_clientWatcherStartingByDeviceId h) with
           | Some attempt => (WatchAwaits attempt, h)
           | None =>
               let attempt := h_nextAttempt h in
               (WatchAwaits attempt,
                h <| h_nextAttempt := attempt + 1 |>
                  <| h_clientWatcherStartingByDeviceId ::= mset deviceId attempt |>)
           end
  end.

Definition isCurrentAttempt (deviceId : jstr) (attempt : Z) (h : Host) : bool :=
  bool_decide (mget deviceId (h_clientWatcherStartingByDeviceId h) = Some attempt).

Definition shouldStart (deviceId : jstr) (attempt : Z) (h : Host) : bool :=
  legacyOwnershipAttached h && isCurrentAttempt deviceId attempt h.

Definition attempt_starts (d : Device) (attempt : Z) (h : Host) : list effect :=
  List.map Phys (startWatchClient d (shouldStart (dv_serial d) attempt h)).

Definition attempt_forwarded (d : Device) (attempt : Z) (h : Host) : list effect :=
  List.map Phys (startWatchClient_forwarded d (shouldStart (dv_serial d) attempt h)).

(** The attempt ends: with success it marks the device as watched if it is
    still current, and a current attempt is removed in any case. *)
Definition attempt_ends (deviceId : jstr) (attempt : Z) (success : bool) (h : Host) : Host :=
  let current := isCurrentAttempt deviceId attempt h in
  let h := if success && current then h <| h_clientWatcherStartedDeviceIds ::= sadd deviceId |> else h in
  if current then h <| h_clientWatcherStartingByDeviceId ::= mdel deviceId |> else h.

Definition ensure_all (ids : list jstr) (h : Host) : list watch_outcome * Host :=
  fold_left (fun acc id => let '(o, h) := ensureClientWatcher id acc.2 in (acc.1 ++ [o], h)) ids ([], h).

Definition ensureAllClientWatchers (h : Host) : list watch_outcome * Host :=
  ensure_all (mkeys (pc_devices (h_physicalConnector h))) h.

Definition stopWatchClient (deviceId : jstr) (h : Host) : list effect * Host :=
  ((if mhas deviceId (pc_devices (h_physicalConnector h)) then [Phys (PStopWatchClient deviceId)] else []),
   clearClientWatcherStartState deviceId h).

Definition disconnectDevice (deviceId : jstr) (h : Host) : list effect * Host :=
  ((if mhas deviceId (pc_devices (h_physicalConnector h)) then [Phys (PDisconnect deviceId)] else []),
   clearClientWatcherStartState deviceId h).

(** [forceDisableAllClients], after the watcher startups have settled. *)
Definition forceDisableAllClients (now : Z) (h : Host) : list effect * Host :=
  let h := clearAllClientWatcherStartState h in
  (List.map Phys (disableAllClients (h_physicalConnector h)) ++
   List.map CloseWs (mkeys (default [] (getWebSocketAppClients h))) ++ publishClientSnapshot now h, h).

(** ** Events of the physical connector *)

(** A rejection of the watcher started here is not handled. *)
Definition handleDeviceConnected (d : Device) (now : Z) (h : Host) : list effect * Host :=
  if negb (legacyOwnershipAttached h) then ([], h)
  else
    let h := if negb (pc_manualConnect (h_physicalConnector h)) then (ensureClientWatcher (dv_serial d) h).2 else h in
    (sendSnapshot now h, h).

Definition handleDeviceDisconnected (d : Device) (now : Z) (h : Host) : list effect * Host :=
  if negb (legacyOwnershipAttached h) then ([], h)
  else let h := clearClientWatcherStartState (dv_serial d) h in (sendSnapshot now h, h).

Definition handleClientConnected (now : Z) (h : Host) : list effect * Host :=
  if negb (legacyOwnershipAttached h) then ([], h) else (host_sendClientList h ++ sendSnapshot now h, h).

Definition handleClientDisconnected (id : Z) (now : Z) (h : Host) : list effect * Host :=
  if negb (legacyOwnershipAttached h) then ([], h)
  else
    let '(e, h) := drop_runtime id h in
    (e ++ host_sendClientList h ++ sendSnapshot now h, h).

Definition handleConnectorError (code message : jstr) (serial : option jstr) (clientId : option Z) (h : Host)
  : list effect := broadcast (EvConnectorError code message serial clientId) h.

Definition handle_phys_event (e : phys_event) (now : Z) (h : Host) : list effect * Host :=
  match e with
  | DeviceConnected d => handleDeviceConnected d now h
  | DeviceDisconnected d => handleDeviceDisconnected d now h
  | ClientConnected _ => handleClientConnected now h
  | ClientDisconnected id => handleClientDisconnected id now h
  end.

(** ** Ownership *)

Definition preempted : thrown := ThrowError (js "Multiplexer legacy owner was preempted").

Definition handleLegacyOwnershipLost (now : Z) (h : Host) : list effect * Host :=
  let h := clearAllClientWatcherStartState h in
  let h := h <| h_memoizedQueryTable ::= clear_all |> in
  let '(routes, t) := clear (h_pendingRoutes h) in
  let h := h <| h_pendingRoutes := t |> in
  let disable := List.map Phys (disableAllClients (h_physicalConnector h)) in
  let h := h <| h_physicalConnector ::= (fun p => p <| pc_usbClients := [] |>) |> in
  (rejectRoutes routes preempted ++ disable ++
   List.map CloseWs (mkeys (default [] (getWebSocketAppClients h))) ++ sendSnapshot now h ++ host_sendClientList h, h).

(** The guard sets its status before it reports the change. *)
Definition handleLegacyOwnershipChanged (c : OwnershipChange) (now : Z) (h : Host) : list effect * Host :=
  let h := h <| h_ownershipStatus := oc_status c |> in
  let '(e, h) := if bool_decide (oc_status c = unattached) then handleLegacyOwnershipLost now h else ([], h) in
  (e ++ broadcast (EvOwnership c) h, h).

Definition clearRuntimeState (h : Host) : list effect * Host :=
  let h := clearAllClientWatcherStartState h in
  let h := h <| h_memoizedQueryTable ::= clear_all |> in
  let '(routes, t) := clear (h_pendingRoutes h) in
  (rejectRoutes routes (ThrowError (js "Multiplexer host route table was reset")), h <| h_pendingRoutes := t |>).
