(* ===== verification/WebSocketRun.v ===== *)
(** * The WebSocket server over time

    Models the rest of [websocket/WebSocketServer.ts]: its startup, sockets that
    connect and register, the timers of clients that have not registered, and
    closing.  A socket is named by the client id it was given, which is fresh.
    The [ws] server is the environment: it reports connections, messages and
    closed sockets; after [close()] it accepts nothing, and it is closed when its
    last socket is gone. *)

From Stdlib Require Import String.
From stdpp Require Import strings sets.
From S2P Require Import JsValue Json Protocol Message Ownership Physical WebSocket Host.

#[local] Arguments mdel : simpl never.
#[local] Arguments mset : simpl never.
#[local] Arguments mget : simpl never.
#[local] Arguments mhas : simpl never.
#[local] Arguments mkeys : simpl never.

(** ** State *)

(** The promise of [onConnection]: pending, resolved with nothing, or with the
    client that registered. *)
Inductive sock_phase :=
  | SockInit
  | SockRefused
  | SockJoined (i : WebSocketClientInfo).

(** [sk_timers] counts the timers of the messages before the registration that
    are still armed. *)
Record Sock := mkSock { sk_phase : sock_phase; sk_timers : nat }.

#[export] Instance eta_sock : Eta Sock := fun s => mkSock (sk_phase s) (sk_timers s).

(** [closePromise]: not asked for, its task queued by [close] or by the close
    event of the server, run, and settled. *)
Inductive closing :=
  | NotClosing
  | CloseQueued
  | ServerCloseQueued
  | ServerClosing
  | CloseSettled.

Record WsServer := mkWsServer {
  sv_controller : WebSocketController;
  sv_startupSettled : bool;
  sv_sockets : list (Z * Sock);
  sv_closing : closing
}.

#[export] Instance eta_ws_server : Eta WsServer := fun s =>
  mkWsServer (sv_controller s) (sv_startupSettled s) (sv_sockets s) (sv_closing s).

Definition new_ws_server (roomId : option jstr) : WsServer := mkWsServer (new_controller roomId) false [] NotClosing.

Inductive ws_effect :=
  | WSend (id : Z) (text : jstr)
  | WCloseSocket (id : Z)
  | WEmit (e : ws_event)                                   (* an event of the host *)
  | WDriverMessage (fromWebClientId target : Z) (text : jstr)
  | WAppMessage (id : Z) (text : jstr)
  | WReportInit
  | WCallback (error : option jstr)                        (* [option.callback] *)
  | WWarn (error : jstr)
  | WCloseServer                                           (* [server.close(...)] *)
  | WClosed                                                (* the promise of [close] is resolved *)
  | WUncaught.                                             (* an exception in a listener *)

(** ** Startup *)

Definition onListening (s : WsServer) : list ws_effect * WsServer :=
  if sv_startupSettled s then ([], s) else ([WReportInit; WCallback None], s <| sv_startupSettled := true |>).

Definition onError (error : jstr) (s : WsServer) : list ws_effect * WsServer :=
  if sv_startupSettled s then ([WWarn error], s) else ([WCallback (Some error)], s <| sv_startupSettled := true |>).

(** ** Connections *)

(** [shouldHandle]. *)
Definition shouldHandle (url : option jstr) : bool :=
  match url with
  | Some u => bool_decide (firstn (List.length (js "/mdevices/page/android")) u = js "/mdevices/page/android")
  | None => false
  end.

Definition accepting (s : WsServer) : bool :=
  match sv_closing s with NotClosing | CloseQueued => true | _ => false end.

Definition onConnection (id : Z) (s : WsServer) : list ws_effect * WsServer :=
  if accepting s && negb (mhas id (sv_sockets s))
  then ([WSend id (initMessage id)], s <| sv_sockets ::= mset id (mkSock SockInit 0) |>)
  else ([], s).

Definition send_list (usb : list UsbClient) (c : WebSocketController) : list ws_effect :=
  List.map (fun p => WSend p.1 p.2) (sendClientList usb c).

(** [handleConnection] after [onConnection]; the generic events of an App client
    follow its own. *)
Definition joined (i : WebSocketClientInfo) (usb : list UsbClient) (s : WsServer) : list ws_effect * WsServer :=
  let s' := s <| sv_controller ::= add_client i |> in
  (WSend (wi_id i) (roomJoined (sv_controller s) (wi_id i)) ::
   (if isDriver i then [WEmit (WsWebConnected i)] else [WEmit (WsAppConnected i); WEmit WsOther]) ++
   send_list usb (sv_controller s'), s').

(** What [handleMessage] of a registered client asks for. *)
Definition act (usb : list UsbClient) (s : WsServer) (a : ws_action) : ws_effect :=
  match a with
  | EmitWebMessage id m => WEmit (WsWebMessage id m)
  | EmitClientMessage id m => WEmit (WsClientMessage id m)
  | ListClients id => WSend id (clientList id usb (sv_controller s))
  | Pong id => WSend id pong
  | MessageToApp target m from => WDriverMessage from target m
  | AppMessage id m => WAppMessage id m
  end.

Definition set_sock (id : Z) (k : Sock) (s : WsServer) : WsServer := s <| sv_sockets ::= mset id k |>.

(** A message of a socket.  Before the registration each starts a timer, also one
    that is no JSON; the message that registers clears its own timer only, and
    the promise keeps its first result. *)
Definition sock_message (id : Z) (text : jstr) (usb : list UsbClient) (s : WsServer) : list ws_effect * WsServer :=
  match mget id (sv_sockets s) with
  | None => ([], s)
  | Some k =>
      let waiting := set_sock id (k <| sk_timers ::= S |>) s in
      match sk_phase k with
      | SockJoined i => (List.map (act usb s) (handleMessage i text), s)
      | SockInit =>
          match onRegisterMessage id text with
          | RegThrows => ([WUncaught], waiting)
          | RegIgnored => ([], waiting)
          | Registered i => joined i usb (set_sock id (k <| sk_phase := SockJoined i |>) s)
          end
      | SockRefused =>
          match onRegisterMessage id text with
          | RegThrows => ([WUncaught], waiting)
          | RegIgnored => ([], waiting)
          | Registered _ => ([], s)
          end
      end
  end.

(** A timer of [id] fires: [resolve(undefined)], and [handleConnection] closes the
    socket, which does nothing when it is closed already. *)
Definition sock_timer (id : Z) (s : WsServer) : list ws_effect * WsServer :=
  match mget id (sv_sockets s) with
  | Some (mkSock SockInit (S n)) => ([WCloseSocket id], set_sock id (mkSock SockRefused n) s)
  | Some (mkSock p (S n)) => ([], set_sock id (mkSock p n) s)
  | _ => ([], s)
  end.

(** The socket is closed; only a registered client listens. *)
Definition sock_closed (id : Z) (usb : list UsbClient) (s : WsServer) : list ws_effect * WsServer :=
  match mget id (sv_sockets s) with
  | None => ([], s)
  | Some k =>
      let s := s <| sv_sockets ::= mdel id |> in
      match sk_phase k with
      | SockJoined i =>
          let '(app, web, c) := handleDisconnect (wi_id i) (sv_controller s) in
          ((if app then [WEmit (WsAppDisconnected (wi_id i)); WEmit WsOther] else []) ++
           (if web then [WEmit (WsWebDisconnected (wi_id i))] else []) ++ send_list usb c,
           s <| sv_controller := c |>)
      | _ => ([], s)
      end
  end.

(** ** Closing *)

Definition closeClients (c : WebSocketController) : list ws_effect :=
  List.map WCloseSocket (mkeys (wc_websocketAppClients c)) ++ List.map WCloseSocket (mkeys (wc_webClients c)).

Definition ws_close (s : WsServer) : WsServer :=
  match sv_closing s with NotClosing => s <| sv_closing := CloseQueued |> | _ => s end.

(** The queued task of the promise. *)
Definition close_task (s : WsServer) : list ws_effect * WsServer :=
  match sv_closing s with
  | CloseQueued => (closeClients (sv_controller s) ++ [WCloseServer], s <| sv_closing := ServerClosing |>)
  | ServerCloseQueued => (closeClients (sv_controller s) ++ [WClosed], s <| sv_closing := CloseSettled |>)
  | _ => ([], s)
  end.

(** The server's close event, which comes when no socket is left: its listener is
    [handleServerClose], and after [server.close(callback)] the callback. *)
Definition handleServerClose (s : WsServer) : list ws_effect * WsServer :=
  if bool_decide (sv_sockets s = []) then
    match sv_closing s with
    | NotClosing => ([], s <| sv_closing := ServerCloseQueued |>)
    | ServerClosing => ([WClosed], s <| sv_closing := CloseSettled |>)
    | _ => ([], s)
    end
  else ([], s).

(** ** Runs *)

Inductive ws_input :=
  | IListening
  | IServerError (error : jstr)
  | IConnect (id : Z)
  | IMessage (id : Z) (text : jstr) (usb : list UsbClient)
  | ITimer (id : Z)
  | ISocketClosed (id : Z) (usb : list UsbClient)
  | IClose
  | ICloseTask
  | IServerClosed.

Definition ws_step (e : ws_input) (s : WsServer) : list ws_effect * WsServer :=
  match e with
  | IListening => onListening s
  | IServerError err => onError err s
  | IConnect id => onConnection id s
  | IMessage id text usb => sock_message id text usb s
  | ITimer id => sock_timer id s
  | ISocketClosed id usb => sock_closed id usb s
  | IClose => ([], ws_close s)
  | ICloseTask => close_task s
  | IServerClosed => handleServerClose s
  end.

Fixpoint ws_run (es : list ws_input) (s : WsServer) : list ws_effect * WsServer :=
  match es with
  | [] => ([], s)
  | e :: es => let '(f1, s) := ws_step e s in let '(f2, s) := ws_run es s in (f1 ++ f2, s)
  end.

(** ** What the host hears

    The App clients and Drivers the host knows from the events, in the order of
    their registration.  [None] is an event out of turn: a second registration,
    the loss of a client it does not know, a message of one. *)

Definition known_clients : Type := list Z * list Z.

Definition hears (f : ws_effect) (v : known_clients) : option known_clients :=
  match f with
  | WEmit (WsAppConnected i) => if shas (wi_id i) (v.1 ++ v.2) then None else Some (v.1 ++ [wi_id i], v.2)
  | WEmit (WsWebConnected i) => if shas (wi_id i) (v.1 ++ v.2) then None else Some (v.1, v.2 ++ [wi_id i])
  | WEmit (WsAppDisconnected id) => if shas id v.1 then Some (sdel id v.1, v.2) else None
  | WEmit (WsWebDisconnected id) => if shas id v.2 then Some (v.1, sdel id v.2) else None
  | WEmit (WsClientMessage id _) | WAppMessage id _ => if shas id v.1 then Some v else None
  | WEmit (WsWebMessage id _) | WDriverMessage id _ _ => if shas id v.2 then Some v else None
  | _ => Some v
  end.

Fixpoint hear_all (fs : list ws_effect) (v : known_clients) : option known_clients :=
  match fs with
  | [] => Some v
  | f :: fs => v ← hears f v; hear_all fs v
  end.

Lemma hear_all_app fs gs v : hear_all (fs ++ gs) v = v ← hear_all fs v; hear_all gs v.
Proof. revert v. induction fs as [|f fs IH]; intros v; cbn; [done|]. destruct (hears f v); cbn; [apply IH|done]. Qed.

Lemma hear_all_quiet fs v : (forall f, f ∈ fs -> hears f v = Some v) -> hear_all fs v = Some v.
Proof.
  induction fs as [|f fs IH]; intros H; cbn; [done|].
  rewrite (H f) by set_solver. cbn. apply IH. set_solver.
Qed.

Lemma hear_send_list usb c v : hear_all (send_list usb c) v = Some v.
Proof. apply hear_all_quiet. intros f. unfold send_list. rewrite list_elem_of_fmap. by intros (? & -> & _). Qed.

(** A registered client is heard under its own id, in its own role. *)
Lemma hear_message i text usb s v :
  (if isDriver i then wi_id i ∈ v.2 else wi_id i ∈ v.1) -> hear_all (List.map (act usb s) (handleMessage i text)) v = Some v.
Proof.
  intros Hv. apply hear_all_quiet. intros f. rewrite list_elem_of_fmap. intros (a & -> & Ha).
  unfold handleMessage, handleCustomizedMessage, shas in *.
  destruct (isDriver i); repeat split_match; set_unfold in Ha; destruct_or? Ha; subst; try done; cbn; unfold shas; by rewrite bool_decide_true by done.
Qed.

(** ** The invariant *)

Definition joined_as (s : WsServer) (driver : bool) (id : Z) (i : WebSocketClientInfo) : Prop :=
  isDriver i = driver /\ exists n, mget id (sv_sockets s) = Some (mkSock (SockJoined i) n).

Record ws_ok (s : WsServer) (v : known_clients) : Prop := mkWsOk {
  wo_apps : v.1 = mkeys (wc_websocketAppClients (sv_controller s));
  wo_webs : v.2 = mkeys (wc_webClients (sv_controller s));
  wo_app : forall id i, mget id (wc_websocketAppClients (sv_controller s)) = Some i <-> joined_as s false id i;
  wo_web : forall id i, mget id (wc_webClients (sv_controller s)) = Some i <-> joined_as s true id i;
  wo_id : forall id i n, mget id (sv_sockets s) = Some (mkSock (SockJoined i) n) -> wi_id i = id;
  wo_closed : sv_closing s = ServerCloseQueued \/ sv_closing s = CloseSettled -> sv_sockets s = []
}.

Definition hears_ok (v : known_clients) (r : list ws_effect * WsServer) : Prop :=
  exists v', hear_all r.1 v = Some v' /\ ws_ok r.2 v'.

(** Steps that leave the registered clients alone. *)
Lemma ok_same s s' v : ws_ok s v -> sv_controller s' = sv_controller s ->
  (forall id i, (exists n, mget id (sv_sockets s') = Some (mkSock (SockJoined i) n)) <->
                (exists n, mget id (sv_sockets s) = Some (mkSock (SockJoined i) n))) ->
  (sv_closing s' = ServerCloseQueued \/ sv_closing s' = CloseSettled -> sv_sockets s' = []) -> ws_ok s' v.
Proof.
  intros [Ha Hw Happ Hweb Hid Hcl] Hc Hs Hcl'. split; rewrite ?Hc; try done.
  - intros id i. unfold joined_as. rewrite Hs. apply Happ.
  - intros id i. unfold joined_as. rewrite Hs. apply Hweb.
  - intros id i n Hn. destruct (proj1 (Hs id i) (ex_intro _ n Hn)) as (n' & Hn'). eauto.
Qed.

Lemma joined_set_sock s id k k' : mget id (sv_sockets s) = Some k -> sk_phase k' = sk_phase k \/ (sk_phase k = SockInit /\ sk_phase k' = SockRefused) ->
  forall id' i, (exists n, mget id' (sv_sockets (set_sock id k' s)) = Some (mkSock (SockJoined i) n)) <->
                (exists n, mget id' (sv_sockets s) = Some (mkSock (SockJoined i) n)).
Proof.
  intros Hk Hp id' i. cbn. rewrite mget_mset. destruct (decide (id' = id)) as [->|]; [|done]. rewrite Hk.
  destruct k as [p t], k' as [p' t']; cbn in Hp. destruct Hp as [->|[-> ->]]; split; intros (n & [= ]); subst; eauto.
Qed.

Lemma open_sockets s v id k : ws_ok s v -> mget id (sv_sockets s) = Some k -> sv_closing s <> ServerCloseQueued /\ sv_closing s <> CloseSettled.
Proof. intros H Hk. split; intros Hc; rewrite (wo_closed _ _ H) in Hk; auto; done. Qed.

Lemma ok_set_sock s v id k k' : ws_ok s v -> mget id (sv_sockets s) = Some k ->
  sk_phase k' = sk_phase k \/ (sk_phase k = SockInit /\ sk_phase k' = SockRefused) -> ws_ok (set_sock id k' s) v.
Proof.
  intros H Hk Hp. apply (ok_same s); [done|done|by apply joined_set_sock with k|].
  destruct (open_sockets _ _ _ _ H Hk) as [H1 H2]. cbn. by intros [Hc|Hc].
Qed.

(** The clients of one role, when a socket joins or leaves. *)
Lemma registry_joins m s id i driver :
  (forall id' i', mget id' m = Some i' <-> joined_as s driver id' i') -> (forall n, mget id (sv_sockets s) = Some n -> sk_phase n = SockInit) ->
  forall t id' i', mget id' (if Bool.eqb (isDriver i) driver then mset id i m else m) = Some i' <->
                   joined_as (set_sock id (mkSock (SockJoined i) t) s) driver id' i'.
Proof.
  intros Hm Hinit t id' i'. unfold joined_as, set_sock. cbn. rewrite mget_mset.
  assert (Hno : forall i', mget id m = Some i' -> False).
  { intros j Hj. apply Hm in Hj as (_ & n & Hn). by apply Hinit in Hn. }
  destruct (Bool.eqb (isDriver i) driver) eqn:E; [apply eqb_prop in E|apply eqb_false_iff in E].
  - rewrite mget_mset. destruct (decide (id' = id)) as [->|]; [|apply Hm].
    split; [intros [= <-]; eauto|by intros (_ & n & [= -> _])].
  - destruct (decide (id' = id)) as [->|]; [|apply Hm].
    split; [by intros ?%Hno|intros (<- & n & [= -> _]); done].
Qed.

Lemma registry_leaves m s id driver : (forall id' i', mget id' m = Some i' <-> joined_as s driver id' i') ->
  forall id' i', mget id' (mdel id m) = Some i' <-> joined_as (s <| sv_sockets ::= mdel id |>) driver id' i'.
Proof.
  intros Hm id' i'. unfold joined_as. cbn. rewrite !mget_mdel. destruct (decide (id' = id)); [|apply Hm].
  split; [done|by intros (_ & n & ?)].
Qed.

Lemma registered_id id text i : onRegisterMessage id text = Registered i -> wi_id i = id.
Proof. unfold onRegisterMessage. intros H. repeat split_match; simplify_eq; done. Qed.

Lemma join_hears s v id k i usb : ws_ok s v -> mget id (sv_sockets s) = Some k -> sk_phase k = SockInit -> wi_id i = id ->
  hears_ok v (joined i usb (set_sock id (k <| sk_phase := SockJoined i |>) s)).
Proof.
  intros Hok Hk Hp Hid. destruct (open_sockets _ _ _ _ Hok Hk) as [Hc1 Hc2]. destruct k as [p t]. cbn in Hp. subst p.
  pose proof Hok as [Ha Hw Happ Hweb Hids Hcl].
  assert (Hinit : forall n, mget id (sv_sockets s) = Some n -> sk_phase n = SockInit) by (rewrite Hk; by intros n [= <-]).
  pose proof (registry_joins _ _ id i _ Happ Hinit t) as Happ'. pose proof (registry_joins _ _ id i _ Hweb Hinit t) as Hweb'.
  assert (Hna : id ∉ mkeys (wc_websocketAppClients (sv_controller s))).
  { rewrite mkeys_mget. intros [j (_ & n & Hn)%Happ]. by apply Hinit in Hn. }
  assert (Hnw : id ∉ mkeys (wc_webClients (sv_controller s))).
  { rewrite mkeys_mget. intros [j (_ & n & Hn)%Hweb]. by apply Hinit in Hn. }
  assert (Hnew : shas (wi_id i) (v.1 ++ v.2) = false).
  { unfold shas. rewrite Hid, Ha, Hw. apply bool_decide_false. set_solver. }
  assert (Hids' : forall id' i' n, mget id' (sv_sockets (set_sock id (mkSock (SockJoined i) t) s)) = Some (mkSock (SockJoined i') n) -> wi_id i' = id').
  { intros id' i' n. cbn. rewrite mget_mset. destruct (decide (id' = id)) as [->|]; [by intros [= <- _]|apply Hids]. }
  unfold hears_ok, joined, add_client. destruct (isDriver i) eqn:Ed; cbn [fst snd app Bool.eqb] in *;
    cbn [hear_all hears mbind option_bind]; rewrite Hnew; cbn [mbind option_bind];
    (eexists; split; [apply hear_send_list|]); rewrite Ha, Hw, Hid; split; cbn;
    rewrite ?mset_fresh by done; unfold mkeys; rewrite ?fmap_app; try done;
    try (intros id' i'; rewrite <- ?(mset_fresh id i) by done; first [apply Happ'|apply Hweb']);
    try (by intros [?|?]).
Qed.

(** A socket that has not joined leaves nothing behind. *)
Lemma ok_drop s v id k : ws_ok s v -> mget id (sv_sockets s) = Some k -> (forall i, sk_phase k <> SockJoined i) ->
  ws_ok (s <| sv_sockets ::= mdel id |>) v.
Proof.
  intros Hok Hk Hp. destruct (open_sockets _ _ _ _ Hok Hk) as [Hc1 Hc2].
  apply (ok_same s); [done|done| |cbn; by intros [?|?]].
  intros id' i'. cbn. rewrite mget_mdel. destruct (decide (id' = id)) as [->|]; [|done].
  rewrite Hk. split; [by intros (? & ?)|intros (n & [= ->])]. by destruct (Hp i').
Qed.

Lemma joined_role s v id i n : ws_ok s v -> mget id (sv_sockets s) = Some (mkSock (SockJoined i) n) ->
  mhas id (wc_websocketAppClients (sv_controller s)) = negb (isDriver i) /\ mhas id (wc_webClients (sv_controller s)) = isDriver i.
Proof.
  intros [Ha Hw Happ Hweb Hids Hcl] Hk. unfold mhas.
  split; [destruct (mget id (wc_websocketAppClients _)) as [j|] eqn:E|destruct (mget id (wc_webClients _)) as [j|] eqn:E].
  - apply Happ in E as (Hd & m & Hm). rewrite Hk in Hm. injection Hm as <- _. by rewrite Hd.
  - destruct (isDriver i) eqn:Hd; [done|]. assert (joined_as s false id i) as ?%Happ by (unfold joined_as; eauto). congruence.
  - apply Hweb in E as (Hd & m & Hm). rewrite Hk in Hm. injection Hm as <- _. by rewrite Hd.
  - destruct (isDriver i) eqn:Hd; [|done]. assert (joined_as s true id i) as ?%Hweb by (unfold joined_as; eauto). congruence.
Qed.

Lemma leave_hears s v id k usb : ws_ok s v -> mget id (sv_sockets s) = Some k -> hears_ok v (sock_closed id usb s).
Proof.
  intros Hok Hk. unfold sock_closed. rewrite Hk.
  destruct k as [p n]. cbn [sk_phase]. destruct p as [| |i];
    [exists v; split; [done|]; by apply ok_drop with (mkSock SockInit n)|exists v; split; [done|]; by apply ok_drop with (mkSock SockRefused n)|].
  destruct (open_sockets _ _ _ _ Hok Hk) as [Hc1 Hc2]. destruct (joined_role _ _ _ _ _ Hok Hk) as [Hra Hrw].
  destruct Hok as [Ha Hw Happ Hweb Hids Hcl]. rewrite (Hids _ _ _ Hk). unfold handleDisconnect.
  change (sv_controller (s <| sv_sockets ::= mdel id |>)) with (sv_controller s).
  assert (Hnext : ws_ok (s <| sv_sockets ::= mdel id |> <| sv_controller := (sv_controller s) <| wc_websocketAppClients ::= mdel id |> <| wc_webClients ::= mdel id |> |>)
                        (sdel id v.1, sdel id v.2)).
  { split; cbn.
    - rewrite Ha. by rewrite mkeys_mdel.
    - rewrite Hw. by rewrite mkeys_mdel.
    - apply (registry_leaves _ _ id _ Happ).
    - apply (registry_leaves _ _ id _ Hweb).
    - intros id' i' m. rewrite mget_mdel. destruct (decide (id' = id)); [done|apply Hids].
    - by intros [?|?]. }
  assert (Hv : (id ∈ v.1 <-> isDriver i = false) /\ (id ∈ v.2 <-> isDriver i = true)).
  { rewrite Ha, Hw, !mkeys_mget, <- !mhas_true, Hra, Hrw. by destruct (isDriver i). }
  destruct Hv as [Hv1 Hv2]. cbn [fst snd]. rewrite Hra, Hrw. eexists. split; [|exact Hnext].
  destruct (isDriver i); cbn [negb app hear_all hears mbind option_bind fst snd]; unfold shas.
  - rewrite bool_decide_true by tauto. cbn [mbind option_bind]. rewrite hear_send_list, (sdel_absent id v.1); [done|]. by rewrite Hv1.
  - rewrite bool_decide_true by tauto. cbn [mbind option_bind hear_all hears]. rewrite hear_send_list, (sdel_absent id v.2); [done|]. by rewrite Hv2.
Qed.

Lemma hears_nothing s v : hears_ok v ([], s) <-> ws_ok s v.
Proof. unfold hears_ok. cbn. split; [by intros (? & [= <-] & ?)|eauto]. Qed.

Lemma message_hears id text usb s v : ws_ok s v -> hears_ok v (sock_message id text usb s).
Proof.
  intros Hok. unfold sock_message. destruct (mget id (sv_sockets s)) as [k|] eqn:Hk; [|by apply hears_nothing].
  assert (Hwait : ws_ok (set_sock id (k <| sk_timers ::= S |>) s) v) by (apply ok_set_sock with k; auto).
  destruct (sk_phase k) as [| |i] eqn:Hp.
  - destruct (onRegisterMessage id text) as [| |i] eqn:Hr; [by exists v|by exists v|].
    apply join_hears; [done|done|done|by apply registered_id with text].
  - by destruct (onRegisterMessage id text); exists v.
  - exists v. split; [|done]. apply hear_message. destruct k as [p n]. cbn in Hp. subst p.
    destruct (joined_role _ _ _ _ _ Hok Hk) as [Hra Hrw]. pose proof Hok as [Ha Hw _ _ Hids _].
    rewrite (Hids _ _ _ Hk), Ha, Hw. destruct (isDriver i); rewrite mkeys_mget, <- mhas_true; [by rewrite Hrw|by rewrite Hra].
Qed.

Lemma timer_hears id s v : ws_ok s v -> hears_ok v (sock_timer id s).
Proof.
  intros Hok. unfold sock_timer. destruct (mget id (sv_sockets s)) as [[p [|n]]|] eqn:Hk; [by destruct p; apply hears_nothing| |by apply hears_nothing].
  destruct p as [| |i]; exists v; (split; [done|]); eapply ok_set_sock; eauto.
Qed.

Lemma hear_closeClients c v tail : (forall f, f ∈ tail -> hears f v = Some v) -> hear_all (closeClients c ++ tail) v = Some v.
Proof.
  intros Ht. apply hear_all_quiet. intros f. unfold closeClients. rewrite !elem_of_app, !list_elem_of_fmap.
  intros [[(? & -> & _)|(? & -> & _)]|?]; [done|done|by apply Ht].
Qed.

Lemma step_hears e s v : ws_ok s v -> hears_ok v (ws_step e s).
Proof.
  intros Hok. destruct e as [|err|id|id text usb|id|id usb| | |]; cbn [ws_step].
  - unfold onListening. destruct (sv_startupSettled s); exists v; (split; [done|]); [done|by apply (ok_same s); try apply Hok].
  - unfold onError. destruct (sv_startupSettled s); exists v; (split; [done|]); [done|by apply (ok_same s); try apply Hok].
  - unfold onConnection. destruct (accepting s && _) eqn:Ha; [|by apply hears_nothing]. bprop.
    exists v. split; [done|]. unfold mhas in *. destruct (mget id (sv_sockets s)) eqn:Hn; [done|].
    apply (ok_same s); [done|done| |cbn; unfold accepting in *; by intros [Hc|Hc]; rewrite Hc in *].
    intros id' i'. cbn. rewrite mget_mset. destruct (decide (id' = id)) as [->|]; [|done]. rewrite Hn. split; by intros (? & [=]).
  - by apply message_hears.
  - by apply timer_hears.
  - destruct (mget id (sv_sockets s)) as [k|] eqn:Hk; [by eapply leave_hears|]. unfold sock_closed. rewrite Hk. by apply hears_nothing.
  - apply hears_nothing. unfold ws_close. destruct (sv_closing s) eqn:Hc; try done. apply (ok_same s); try done. cbn. by intros [?|?].
  - unfold close_task. destruct (sv_closing s) eqn:Hc; try by apply hears_nothing.
    + exists v. split; [apply hear_closeClients; set_solver|]. apply (ok_same s); try done. cbn. by intros [?|?].
    + exists v. split; [apply hear_closeClients; set_solver|]. apply (ok_same s); try done. cbn. intros _. apply Hok. auto.
  - unfold handleServerClose. case_bool_decide as Hs; [|by apply hears_nothing].
    destruct (sv_closing s); exists v; (split; [done|]); try done; by apply (ok_same s).
Qed.

Lemma new_ok roomId : ws_ok (new_ws_server roomId) ([], []).
Proof. split; try done; intros id i; split; try done; by intros (_ & n & ?). Qed.

Lemma run_hears es : forall s v, ws_ok s v -> hears_ok v (ws_run es s).
Proof.
  induction es as [|e es IH]; intros s v Hok; cbn [ws_run]; [by apply hears_nothing|].
  destruct (step_hears e s v Hok) as (v1 & H1 & Hok1). destruct (ws_step e s) as [f1 s1]. cbn in *.
  destruct (IH s1 v1 Hok1) as (v2 & H2 & Hok2). destruct (ws_run es s1) as [f2 s2]. cbn in *.
  exists v2. split; [|done]. cbn. by rewrite hear_all_app, H1.
Qed.

(** ** Closing waits for every socket *)

(** The event does not come from the socket [id]. *)
Definition silent (id : Z) (e : ws_input) : bool :=
  match e with
  | IMessage id' _ _ | ISocketClosed id' _ => negb (id' =? id)
  | _ => true
  end.

Definition unregistered (id : Z) (s : WsServer) : Prop := mget id (sv_sockets s) = Some (mkSock SockInit 0).

(** It closes the socket [id], or is the end of closing. *)
Definition closes (id : Z) (f : ws_effect) : bool :=
  match f with WCloseSocket k => k =? id | WClosed => true | _ => false end.

(** The socket is left alone and the promise of [close] stays pending. *)
Definition left_alone (id : Z) (s : WsServer) (r : list ws_effect * WsServer) : Prop :=
  unregistered id r.2 /\ (sv_closing s = ServerClosing -> sv_closing r.2 = ServerClosing) /\ existsb (closes id) r.1 = false.

Lemma existsb_map_false {A} (f : A -> ws_effect) id l : (forall a, closes id (f a) = false) -> existsb (closes id) (List.map f l) = false.
Proof. intros H. induction l as [|a l IH]; cbn; [done|]. by rewrite H. Qed.

Lemma send_list_closes id usb c : existsb (closes id) (send_list usb c) = false.
Proof. by apply existsb_map_false. Qed.

Lemma unregistered_other id id' k s : id' <> id -> unregistered id s -> unregistered id (set_sock id' k s).
Proof. intros Hne H. unfold unregistered, set_sock. cbn. by rewrite mget_mset_ne. Qed.

(** No list of sockets to close has it. *)
Lemma closeClients_misses id s v : ws_ok s v -> unregistered id s -> existsb (closes id) (closeClients (sv_controller s)) = false.
Proof.
  intros [_ _ Happ Hweb _ _] Hu. unfold unregistered in Hu. apply not_true_iff_false. rewrite existsb_exists.
  intros (f & Hf & Hc). apply list_elem_of_In in Hf. unfold closeClients in Hf. rewrite elem_of_app, !list_elem_of_fmap in Hf.
  destruct Hf as [(k & -> & Hk)|(k & -> & Hk)]; cbn in Hc; apply Z.eqb_eq in Hc as ->;
    apply mkeys_mget in Hk as [i Hi]; [apply Happ in Hi|apply Hweb in Hi]; destruct Hi as (_ & n & Hn); congruence.
Qed.

Lemma message_left_alone id id' text usb s : unregistered id s -> id' <> id -> left_alone id s (sock_message id' text usb s).
Proof.
  intros Hu Hne. unfold sock_message, left_alone. destruct (mget id' (sv_sockets s)) as [k|]; [|done].
  assert (Hset : forall k', unregistered id (set_sock id' k' s)) by (intros; by apply unregistered_other).
  destruct (sk_phase k) as [| |i]; [destruct (onRegisterMessage id' text) as [| |i]|destruct (onRegisterMessage id' text) as [| |i]|];
    try (split; [apply Hset|done]); try done.
  - unfold joined. cbn [fst snd]. split; [apply Hset|]. split; [done|]. cbn [existsb closes]. rewrite existsb_app, send_list_closes.
    by destruct (isDriver i).
  - split; [done|]. split; [done|]. apply existsb_map_false. by intros [].
Qed.

Lemma closed_left_alone id id' usb s : unregistered id s -> id' <> id -> left_alone id s (sock_closed id' usb s).
Proof.
  intros Hu Hne. unfold sock_closed, left_alone. destruct (mget id' (sv_sockets s)) as [k|]; [|done].
  assert (Hdel : mget id (mdel id' (sv_sockets s)) = Some (mkSock SockInit 0)) by (rewrite mget_mdel; by rewrite decide_False by done).
  destruct (sk_phase k) as [| |i]; [done|done|]. unfold handleDisconnect. cbn [fst snd].
  split; [done|]. split; [done|]. rewrite !existsb_app, send_list_closes. by repeat case_match.
Qed.

Lemma step_left_alone id e s v : ws_ok s v -> unregistered id s -> silent id e = true -> left_alone id s (ws_step e s).
Proof.
  intros Hok Hu He. destruct (open_sockets _ _ _ _ Hok Hu) as [Hc1 Hc2].
  destruct e as [|err|id'|id' text usb|id'|id' usb| | |]; cbn [ws_step silent] in *; bprop.
  - unfold onListening. by destruct (sv_startupSettled s).
  - unfold onError. by destruct (sv_startupSettled s).
  - unfold onConnection. destruct (accepting s && _) eqn:Ha; [|done].
    bprop. split; [|done]. apply unregistered_other; [|done]. intros ->. unfold mhas, unregistered in *. by rewrite Hu in *.
  - by apply message_left_alone.
  - unfold sock_timer. destruct (mget id' (sv_sockets s)) as [[p [|n]]|] eqn:Hk; [by destruct p| |done].
    assert (Hne : id' <> id) by (intros ->; unfold unregistered in Hu; congruence).
    destruct p; (split; [by apply unregistered_other|]); (split; [done|]); cbn; try done. by apply orb_false_iff; rewrite Z.eqb_neq.
  - by apply closed_left_alone.
  - unfold ws_close, left_alone. destruct (sv_closing s) eqn:Hc; cbn; by rewrite ?Hc.
  - unfold close_task. pose proof (closeClients_misses _ _ _ Hok Hu) as Hn.
    unfold left_alone.
    destruct (sv_closing s) eqn:Hc; cbn [fst snd]; rewrite ?existsb_app, ?Hn, ?Hc; done.
  - unfold handleServerClose. rewrite bool_decide_false; [done|]. intros Hs. unfold unregistered in Hu. by rewrite Hs in Hu.
Qed.

Lemma run_left_alone id es : forall s v, ws_ok s v -> unregistered id s -> forallb (silent id) es = true -> left_alone id s (ws_run es s).
Proof.
  induction es as [|e es IH]; intros s v Hok Hu Hes; [done|]. cbn in Hes. bprop.
  destruct (step_left_alone id e s v) as (Hu1 & Hc1 & Hf1); [done..|]. destruct (step_hears e s v Hok) as (v1 & _ & Hok1).
  cbn [ws_run]. destruct (ws_step e s) as [f1 s1]. cbn [fst snd] in *. specialize (IH s1 v1). destruct (ws_run es s1) as [f2 s2].
  destruct IH as (Hu2 & Hc2 & Hf2); [done..|]. split; [done|]. split; [by intros ?%Hc1%Hc2|]. cbn [fst] in *. by rewrite existsb_app, Hf1, Hf2.
Qed.

Lemma sock_closed_gone id usb s : sv_sockets (sock_closed id usb s).2 = mdel id (sv_sockets s) /\ sv_closing (sock_closed id usb s).2 = sv_closing s.
Proof.
  unfold sock_closed. destruct (mget id (sv_sockets s)) as [k|] eqn:Hk; [by destruct (sk_phase k)|].
  cbn. split; [|done]. rewrite mdel_absent; [done|]. by apply mget_None_keys.
Qed.

(** When all sockets have closed, the server has. *)
Lemma sockets_gone usb ks : forall s, sv_closing s = ServerClosing -> (forall k, k ∈ mkeys (sv_sockets s) -> k ∈ ks) ->
  WClosed ∈ (ws_run (List.map (fun k => ISocketClosed k usb) ks ++ [IServerClosed]) s).1.
Proof.
  induction ks as [|k ks IH]; intros s Hc Hks; cbn [List.map app ws_run ws_step].
  - destruct (sv_sockets s) as [|[k x] l] eqn:Hs; [|by destruct (not_elem_of_nil k); apply Hks; left].
    unfold handleServerClose. rewrite Hs, bool_decide_true, Hc by done. set_solver.
  - destruct (sock_closed_gone k usb s) as [Hs1 Hc1]. destruct (sock_closed k usb s) as [f1 s1]. cbn [snd] in *.
    specialize (IH s1). destruct (ws_run _ s1) as [f2 s2]. cbn [fst] in *. apply elem_of_app. right. apply IH; [congruence|].
    intros k'. rewrite Hs1, mkeys_mdel, list_elem_of_filter. intros [Hne Hk']. apply Hks in Hk'. set_solver.
Qed.

(** ** Theorems *)

(** C14: The host knows the clients of the WebSocket server exactly: whatever
    connects, sends, times out and closes in any order, the events tell the host
    of each client once when it registers and once when its socket closes, no
    message comes from a client outside that time, and the registries hold in
    that order exactly the sockets that have registered in their role and are
    open. *)
Theorem websocket_clients_known es roomId :
  let '(fs, s) := ws_run es (new_ws_server roomId) in
  let c := sv_controller s in
  hear_all fs ([], []) = Some (mkeys (wc_websocketAppClients c), mkeys (wc_webClients c)) /\
  forall id i,
    (mget id (wc_websocketAppClients c) = Some i <-> isDriver i = false /\ exists n, mget id (sv_sockets s) = Some (mkSock (SockJoined i) n)) /\
    (mget id (wc_webClients c) = Some i <-> isDriver i = true /\ exists n, mget id (sv_sockets s) = Some (mkSock (SockJoined i) n)).
Proof.
  destruct (run_hears es _ _ (new_ok roomId)) as ([apps webs] & Hh & [Ha Hw Happ Hweb _ _]).
  destruct (ws_run es (new_ws_server roomId)) as [fs s]. cbn in *. subst. split; [done|]. intros id i. split; [apply Happ|apply Hweb].
Qed.

(** C38: Closing waits for clients it does not close: while a socket that has not
    sent anything stays open, [close()] neither closes it nor is ever done,
    whatever the others do; with its last sockets gone it is. *)
Theorem unregistered_blocks_close pre es roomId id usb :
  let s := (ws_run pre (new_ws_server roomId)).2 in
  mget id (sv_sockets s) = Some (mkSock SockInit 0) -> forallb (silent id) es = true ->
  let '(fs, s) := ws_run (IClose :: ICloseTask :: es) s in
  (WCloseSocket id ∉ fs) /\ (WClosed ∉ fs) /\
  WClosed ∈ (ws_run (List.map (fun k => ISocketClosed k usb) (mkeys (sv_sockets s)) ++ [IServerClosed]) s).1.
Proof.
  destruct (run_hears pre _ _ (new_ok roomId)) as (v & _ & Hok). destruct (ws_run pre _) as [f0 s]. cbn [snd] in *.
  intros Hu Hes. pose proof (run_left_alone id (IClose :: ICloseTask :: es) s v Hok Hu Hes) as (_ & _ & Hf).
  destruct (open_sockets _ _ _ _ Hok Hu) as [Hc1 Hc2].
  assert (Hcl : sv_closing (ws_run (IClose :: ICloseTask :: es) s).2 = ServerClosing).
  { cbn [ws_run ws_step]. destruct (step_hears IClose s v Hok) as (v1 & _ & Hok1). cbn [ws_step snd] in Hok1.
    destruct (step_hears ICloseTask _ v1 Hok1) as (v2 & _ & Hok2). cbn [ws_step] in Hok2.
    assert (Hsc : sv_closing (close_task (ws_close s)).2 = ServerClosing /\ unregistered id (close_task (ws_close s)).2)
      by (unfold ws_close, close_task; destruct (sv_closing s) eqn:Hc; cbn; rewrite ?Hc; done).
    destruct Hsc as [Hsc Hu2]. destruct (close_task (ws_close s)) as [f1 s1]. cbn [snd] in *.
    destruct (run_left_alone id es s1 v2) as (_ & Hk & _); [done..|]. destruct (ws_run es s1). cbn in *. auto. }
  destruct (ws_run (IClose :: ICloseTask :: es) s) as [fs s']. cbn [fst snd] in *.
  split; [|split]; [| |by apply sockets_gone].
  - intros Hin%list_elem_of_In. apply not_true_iff_false in Hf. apply Hf, existsb_exists. eexists. split; [done|]. cbn. apply Z.eqb_refl.
  - intros Hin%list_elem_of_In. apply not_true_iff_false in Hf. apply Hf, existsb_exists. by eexists.
Qed.

(** ** Examples *)

Definition register_text (id : Z) (type : string) : jstr :=
  stringify (JObj [(js "event", jstring "Register"); (js "data", JObj [(js "id", jint id); (js "type", jstring type)])]).

(** An App and a Driver register, the App leaves: the Driver gets each list. *)
Example two_clients :
  let '(fs, s) := ws_run [IConnect 1; IMessage 1 (register_text 1 "runtime") []; IConnect 2; IMessage 2 (register_text 2 "Driver") []; ISocketClosed 1 []]
                    (new_ws_server None) in
  List.map (fun f => match f with WSend k _ => (1, k) | WEmit (WsAppConnected i) => (2, wi_id i) | WEmit (WsWebConnected i) => (3, wi_id i)
                     | WEmit (WsAppDisconnected k) => (4, k) | _ => (0, 0) end) fs =
    [(1, 1); (1, 1); (2, 1); (0, 0); (1, 2); (1, 2); (3, 2); (1, 2); (4, 1); (0, 0); (1, 2)] /\
  mkeys (wc_webClients (sv_controller s)) = [2] /\ wc_websocketAppClients (sv_controller s) = [].
Proof. vm_compute. repeat split. Qed.

(** A client that sends something else is closed by the timer of that message;
    its late registration is lost. *)
Example late_registration :
  let '(fs, s) := ws_run [IConnect 1; IMessage 1 (js "{}") []; ITimer 1; IMessage 1 (register_text 1 "Driver") []] (new_ws_server None) in
  List.filter (closes 1) fs = [WCloseSocket 1] /\ wc_webClients (sv_controller s) = [].
Proof. vm_compute. repeat split. Qed.

Definition silent_visitor : list ws_input := [IListening; IConnect 1; IMessage 1 (register_text 1 "Driver") []; IConnect 2].

Lemma unregistered_blocks_close_witness :
  let s := (ws_run silent_visitor (new_ws_server None)).2 in
  let '(fs, s) := ws_run [IClose; ICloseTask; ISocketClosed 1 []; IServerClosed] s in
  (WCloseSocket 2 ∉ fs) /\ (WClosed ∉ fs) /\
  WClosed ∈ (ws_run (List.map (fun k => ISocketClosed k []) (mkeys (sv_sockets s)) ++ [IServerClosed]) s).1.
Proof.
  apply (unregistered_blocks_close silent_visitor [ISocketClosed 1 []; IServerClosed] None 2 []); [vm_compute; reflexivity|reflexivity].
Defined.
