(* ===== verification/Routing.v ===== *)
(** * Routing of messages

    Models the message path of [multiplexer/daemon/MultiplexerDaemonHost.ts]:
    requests of control connections and WebSocket front ends to runtimes, under
    global message ids, and the messages of runtimes back to the requester or,
    without an id, to everyone. *)

From Stdlib Require Import SpecFloat String.
From S2P Require Import JsValue Json Protocol PendingRoutes MemoTable Message Physical WebSocket Host.

(** [PendingTargetSeed]; its [clientId] is the runtime the message goes to. *)
Record PendingTargetSeed := mkSeed {
  ts_kind : RouteKind;
  ts_requesterId : Z;
  ts_clientId : Z;
  ts_timeoutMs : option num;
  ts_resolve : option callback;
  ts_reject : option callback
}.

Definition seed_input (s : PendingTargetSeed) (originalId : num) : @PendingRouteInput callback :=
  mkInput (ts_kind s) (ts_requesterId s) originalId (ts_clientId s) (ts_timeoutMs s) (ts_resolve s) (ts_reject s).

(** A parsed value, or the object of the request. *)
Inductive outbound := Text (s : jstr) | Value (v : json).

Definition client_not_found (shown : jstr) : thrown :=
  ThrowCode (js "multiplexer-client-not-found") (js "Multiplexer client was not found: " ++ shown).

(** The message goes on with the text of the parser's error. *)
Definition invalid_json_message : thrown :=
  ThrowCode (js "invalid-json-message") (js "Invalid JSON message for multiplexer app client: ").

Definition isAppClient (clientId : Z) (h : Host) : bool := mhas clientId (default [] (getWebSocketAppClients h)).
Definition isUsbClient (clientId : Z) (h : Host) : bool := mhas clientId (pc_usbClients (h_physicalConnector h)).

(** Returns a cached notification to the requester. *)
Definition sendMessageToTargetDriver (target : PendingTargetSeed) (clientId : Z) (message : jstr) (parsedValue : json)
  (h : Host) : list effect :=
  match ts_kind target with
  | RControl =>
      match ts_resolve target with
      | Some cb => [Resolve cb (normalizeRawResponse parsedValue clientId)]
      | None => sendToControl (ts_requesterId target)
                  (EvClientMessage (if isAppClient clientId h then websocket_runtime else usb_runtime) clientId message) h
      end
  | RWebSocket => sendMessageToWebClient (ts_requesterId target) message h
  end.

(** Registers the route of a routable request and puts its global id in. *)
Definition rewriteOutboundMessageData (data : json) (target : PendingTargetSeed) (now : Z) (h : Host)
  : option (@PendingRoute callback) * json * Host :=
  match getRoutableCustomizedPayload (Some data) with
  | None => (None, data, h)
  | Some c =>
      match getValidMessageId (Some (message c)) with
      | None => (None, data, h)
      | Some originalId =>
          let '(route, t) := add (seed_input target originalId) now (h_pendingRoutes h) in
          (Some route, writeCustomizedMessage c (NInt (r_globalMessageId route)) data, h <| h_pendingRoutes := t |>)
      end
  end.

(** The id the runtime knows itself by: USB runtimes use -1. *)
Definition rewrite_client_id (isApp : bool) (clientId : Z) (data : json) : json :=
  if truthy ((Some data)@."data"@."data"@."client_id")
  then upd_container (jset (js "client_id") (jint (if isApp then clientId else -1))) data else data.

Definition isUsbHandshake (data : json) : bool :=
  jeq_str ((Some data)@."data"@."type") (js "UsbConnect") || jeq_str ((Some data)@."data"@."type") (js "UsbConnectAck").

(** Sending the prepared message; [sendError] is what the socket of the runtime
    throws, if it does.  A forwarded query is retried later. *)
Definition forward_to_runtime (clientId : Z) (isApp : bool) (decision : MemoizedQueryDecision) (data : json)
  (target : PendingTargetSeed) (sendError : option thrown) (now : Z) (h : Host) : option thrown * list effect * Host :=
  let '(route, data, h) := rewriteOutboundMessageData data target now h in
  match sendError with
  | Some e =>
      let h := match decision with
               | Forward req => h <| h_memoizedQueryTable ::= handleSendFailure clientId req |>
               | _ => h
               end in
      let h := match route with
               | Some r => h <| h_pendingRoutes ::= (fun t => (take (r_globalMessageId r) t).2) |>
               | None => h
               end in
      (Some e, [], h)
  | None =>
      let send := if isApp then SendApp clientId (stringify data) else SendUsb clientId data in
      match decision with
      | Forward req =>
          let h := match pending_query clientId req (h_memoizedQueryTable h) with
                   | Some q => h <| h_retryClosures ::= mset q (isApp, default JNull (cloneJsonValue (Some data))) |>
                   | None => h
                   end in
          (None, [send], h <| h_memoizedQueryTable ::= (fun t => default t (setRetryTimer clientId req now t)) |>)
      | _ => (None, [send], h)
      end
  end.

Definition sendMessageToRuntime (clientId : Z) (m : outbound) (target : PendingTargetSeed)
  (sendError : option thrown) (now : Z) (h : Host) : option thrown * list effect * Host :=
  let isApp := isAppClient clientId h in
  if negb isApp && negb (isUsbClient clientId h) then (Some (client_not_found (show_int clientId)), [], h)
  else
    match (match m with Text s => parse s | Value v => Some (default JNull (cloneJsonValue (Some v))) end) with
    | None => (Some invalid_json_message, [], h)
    | Some data =>
        if isUsbHandshake data then (None, [], h)
        else
          let data := rewrite_client_id isApp clientId data in
          let '(decision, t) := query clientId (Some data) now (h_memoizedQueryTable h) in
          let h := h <| h_memoizedQueryTable := t |> in
          match decision with
          | Cached msg v => (None, sendMessageToTargetDriver target clientId msg v h, h)
          | Pending => (None, [], h)
          | _ => forward_to_runtime clientId isApp decision data target sendError now h
          end
    end.

(** The retry timer of a memoized query: the captured message is sent again. *)
Definition retry_fires (timer : Z) (sendError : bool) (now : Z) (h : Host) : list effect * Host :=
  match retry_begins timer now (h_memoizedQueryTable h) with
  | None => ([], h)
  | Some (rt, t) =>
      let e := match mget (rt_query rt) (h_retryClosures h), sendError with
               | Some (isApp, m), false =>
                   [if isApp then SendApp (rt_clientId rt) (stringify m) else SendUsb (rt_clientId rt) m]
               | _, _ => []
               end in
      (e, h <| h_memoizedQueryTable := retry_ends rt (negb sendError) now t |>)
  end.

(** ** Messages of runtimes *)

(** Claims the one-shot route of a response and restores the original id. *)
Definition restoreInboundMessage (parsedValue : json) (customized : option CustomizedPayload) (sourceClientId : Z)
  (h : Host) : option (@PendingRoute callback * json) * Host :=
  if negb (truthy (Some parsedValue)) then (None, h)
  else
    match customized with
    | None => (None, h)
    | Some c =>
        match getValidMessageId (Some (message c)) ≫= num_key with
        | None => (None, h)
        | Some g =>
            match get g (h_pendingRoutes h) with
            | Some r => if negb (r_clientId r =? sourceClientId) then (None, h)
                        else let '(taken, t) := take g (h_pendingRoutes h) in
                             let h := h <| h_pendingRoutes := t |> in
                             match taken with
                             | None => (None, h)
                             | Some route => (Some (route, writeCustomizedMessage c (r_originalId route) parsedValue), h)
                             end
            | None => (None, h)
            end
        end
    end.

(** Delivers a routed response to its requester. *)
Definition deliver_routed (route : @PendingRoute callback) (value : json) (source : MessageSource) (h : Host)
  : list effect :=
  match r_kind route with
  | RControl =>
      match r_resolve route with
      | Some cb => [Resolve cb (normalizeRawResponse value (r_clientId route))]
      | None => sendToControl (r_requesterId route) (EvClientMessage source (r_clientId route) (stringify value)) h
      end
  | RWebSocket =>
      sendMessageToWebClient (r_requesterId route) (stringify (rewriteRuntimeClientIdData value (r_clientId route))) h
  end.

Definition handleRuntimeMessage (clientId : Z) (message : jstr) (source : MessageSource) (now : Z) (h : Host)
  : list effect * Host :=
  let parsedValue := parseJsonMessageOrNull message in
  let customized := getCustomizedPayload (Some parsedValue) in
  let '(routed, h) := restoreInboundMessage parsedValue customized clientId h in
  match routed with
  | Some (route, value) => (deliver_routed route value source h, h)
  | None =>
      match customized ≫= (fun c => getValidMessageId (Some (Message.message c))) with
      | Some _ => ([], h)
      | None =>
          let truth := truthy (Some parsedValue) in
          let value := if truth then rewriteRuntimeClientIdData parsedValue clientId else parsedValue in
          let broadcastMessage := if truth then stringify value else message in
          let h := h <| h_memoizedQueryTable ::= recordNotification clientId broadcastMessage (Some value) now |> in
          ((if h_enableWebSocket h then sendMessageToWeb broadcastMessage h else []) ++
           broadcast (EvClientMessage source clientId message) h, h)
      end
  end.

Definition handleUsbClientMessage (id : Z) (message : jstr) (now : Z) (h : Host) : list effect * Host :=
  if negb (legacyOwnershipAttached h) then ([], h) else handleRuntimeMessage id message usb_runtime now h.

Definition handleWebSocketAppMessage (id : Z) (message : jstr) (now : Z) (h : Host) : list effect * Host :=
  handleRuntimeMessage id message websocket_runtime now h.

Definition handleWebSocketDriverMessage (webClientId targetClientId : Z) (message : jstr) (sendError : option thrown)
  (now : Z) (h : Host) : option thrown * list effect * Host :=
  sendMessageToRuntime targetClientId (Text message)
    (mkSeed RWebSocket webClientId targetClientId None None None) sendError now h.

(** The timeout of a route. *)
Definition route_timeout_fires (timer : Z) (e : thrown) (h : Host) : list effect * Host :=
  let '(r, t) := timer_fires timer (h_pendingRoutes h) in
  (match r ≫= timeout_rejects with Some cb => [Reject cb e] | None => [] end, h <| h_pendingRoutes := t |>).

(** ** Requests of control connections *)

Definition not_routable : thrown :=
  ThrowCode (js "multiplexer-message-not-routable")
    (js "sendMessageWithReply requires a Customized message with a safe integer inner message id").

(** [sendMessageWithReply]: an exception of the executor rejects the promise,
    like one thrown before there is a promise. *)
Definition sendMessageWithReply (clientId : Z) (m : json) (timeout : option num) (controlId : Z) (rpcId : num)
  (sendError : option thrown) (now : Z) (h : Host) : list effect * Host :=
  let cb := (controlId, rpcId) in
  match getRoutableCustomizedPayload (Some m) with
  | None =>
      let '(e, effects, h) := sendMessageToRuntime clientId (Value m)
        (mkSeed RControl controlId clientId None None None) sendError now h in
      (effects ++ [Reject cb (default not_routable e)], h)
  | Some _ =>
      let '(e, effects, h) := sendMessageToRuntime clientId (Value m)
        (mkSeed RControl controlId clientId timeout (Some cb) (Some cb)) sendError now h in
      (effects ++ match e with Some e => [Reject cb e] | None => [] end, h)
  end.

(** [sendMessageWithoutReply]; the target is [web] or a runtime. *)
Definition sendMessageWithoutReply (toWeb : bool) (clientId : Z) (m : json) (controlId : Z)
  (sendError : option thrown) (now : Z) (h : Host) : option thrown * list effect * Host :=
  let text := match m with JStr s => s | v => stringify v end in
  if toWeb then
    (None, (if clientId =? -1 then sendMessageToWeb text h else sendMessageToWebClient clientId text h), h)
  else sendMessageToRuntime clientId (Text text) (mkSeed RControl controlId clientId None None None) sendError now h.

(** ** Routing is correct *)

(** The id of a payload is that of an object. *)
Lemma payload_truthy v c : getCustomizedPayload (Some v) = Some c -> truthy (Some v) = true.
Proof. intros (kvs & raw & H & _)%getCustomizedPayload_inv. by destruct v. Qed.

Lemma parseOrNull text v : parse text = Some v -> parseJsonMessageOrNull text = v.
Proof. unfold parseJsonMessageOrNull. by intros ->. Qed.

(** The response to a route takes it out of the table. *)
Lemma handleRuntimeMessage_routed g r clientId text v c source now h :
  get g (h_pendingRoutes h) = Some r -> r_clientId r = clientId ->
  parse text = Some v -> getCustomizedPayload (Some v) = Some c ->
  getValidMessageId (Some (message c)) = Some (NInt g) ->
  handleRuntimeMessage clientId text source now h =
  (deliver_routed r (writeCustomizedMessage c (r_originalId r) v) source h,
   h <| h_pendingRoutes := (take g (h_pendingRoutes h)).2 |>).
Proof.
  intros Hg Hc Hp Hcp Hid. unfold handleRuntimeMessage. rewrite (parseOrNull _ _ Hp), Hcp.
  unfold restoreInboundMessage. rewrite (payload_truthy _ _ Hcp), Hid. cbn [negb num_key mbind option_bind].
  rewrite Hg, Hc, Z.eqb_refl. cbn [negb]. unfold take.
  pose proof (remove_out g (h_pendingRoutes h)) as Hout.
  destruct (remove g true (h_pendingRoutes h)) as [taken t]. cbn [fst snd] in *. rewrite Hg in Hout. by subst taken.
Qed.

(** *** What a requester receives

    Stated on the members of the JSON values, apart from the functions that
    rewrite them. *)

(** The inner message of an envelope, which may be a JSON text. *)
Definition inner_message (v : json) : jsval :=
  match (Some v)@."data"@."data"@."message" with Some (JStr s) => parse s | m => m end.

(** The message [m'] is [m] under the id [id]. *)
Definition with_id (id : num) (m m' : json) : Prop :=
  (Some m')@."id" = Some (JNum id) /\ forall k, k <> js "id" -> jget k (Some m') = jget k (Some m).

(** The envelope [out] is the response [v], whose inner message is [m], under
    the id [id]: apart from that id, from the encoding of the inner message and
    from the client ids, every member is the runtime's. *)
Record restored (id : num) (v m out : json) : Prop := {
  re_message : exists m', with_id id m m' /\
    ((Some out)@."data"@."data"@."message" = Some m' \/
     (Some out)@."data"@."data"@."message" = Some (JStr (stringify m')));
  re_container : forall k, k <> js "message" -> k <> js "client_id" ->
    jget k ((Some out)@."data"@."data") = jget k ((Some v)@."data"@."data");
  re_data : forall k, k <> js "data" -> k <> js "sender" ->
    jget k ((Some out)@."data") = jget k ((Some v)@."data");
  re_envelope : forall k, k <> js "data" -> jget k (Some out) = jget k (Some v)
}.

(** A client id is set to [rt] where the runtime sent one. *)
Definition names_client (rt : Z) (o o' : jsval) : Prop := o' = (fun _ => jint rt) <$> o.

(** The front end is connected and may be sent to. *)
Definition front_end_open (webClientId : Z) (h : Host) : bool :=
  h_enableWebSocket h &&
  match h_webSocketController h with Some wc => mhas webClientId (wc_webClients wc) | None => false end.

(** What the requester of [r] gets when its runtime answers [v]. *)
Definition requester_gets (r : @PendingRoute callback) (v out : json) (source : MessageSource) (h : Host)
  (effects : list effect) : Prop :=
  let clientId x := (Some x)@."data"@."data"@."client_id" in
  let sender x := (Some x)@."data"@."sender" in
  match r_kind r, r_resolve r with
  | RControl, Some promise =>
      effects = [Resolve promise out] /\ names_client (r_clientId r) (clientId v) (clientId out) /\
      sender out = sender v /\ exists s, (Some out)@."data"@."data"@."message" = Some (JStr s)
  | RControl, None =>
      effects = (if h_controlServer h
                 then [ToControl (r_requesterId r) (EvClientMessage source (r_clientId r) (stringify out))] else []) /\
      clientId out = clientId v /\ sender out = sender v
  | RWebSocket, _ =>
      effects = (if front_end_open (r_requesterId r) h then [SendWeb (r_requesterId r) (stringify out)] else []) /\
      names_client (r_clientId r) (clientId v) (clientId out) /\ names_client (r_clientId r) (sender v) (sender out)
  end.

Lemma inner_message_payload v m g : inner_message v = Some m -> (Some m)@."id" = Some (jint g) ->
  exists kvs s, (Some v)@."data"@."data" = Some (JObj kvs) /\
    getCustomizedPayload (Some v) = Some (mkPayload (JObj kvs) m s) /\ getValidMessageId (Some m) = Some (NInt g).
Proof.
  unfold inner_message. intros Hm Hid.
  destruct ((Some v)@."data"@."data") as [[| | | | |kvs]|] eqn:Ec; try done.
  destruct m as [| | | | |mk]; try done.
  assert (getValidMessageId (Some (JObj mk)) = Some (NInt g)) as Hv
    by (unfold getValidMessageId; by rewrite Hid).
  change (jget (js "message") (Some (JObj kvs))) with (mget (js "message") kvs) in Hm.
  destruct (mget (js "message") kvs) as [raw|] eqn:Er; [|done]. exists kvs.
  rewrite (getCustomizedPayload_intro v kvs raw Ec Er).
  destruct raw as [| | |s| |]; try done; [rewrite Hm; by exists true|injection Hm as ->; by exists false].
Qed.

(** The id put back, before the client ids are rewritten. *)
Lemma write_restored v kvs c id m :
  (Some v)@."data"@."data" = Some (JObj kvs) -> message c = JObj m ->
  let out := writeCustomizedMessage c id v in
  restored id v (JObj m) out /\
  (Some out)@."data"@."data" = Some (JObj (mset (js "message")
    (if messageWasString c then JStr (stringify (jset (js "id") (JNum id) (message c)))
     else jset (js "id") (JNum id) (message c)) kvs)) /\
  (Some out)@."data"@."data"@."client_id" = (Some v)@."data"@."data"@."client_id" /\
  (Some out)@."data"@."sender" = (Some v)@."data"@."sender".
Proof.
  intros Hk Hm out. unfold out, writeCustomizedMessage. rewrite Hm. cbn [jset].
  rewrite (data_upd_container (js "sender")) by done.
  set (x := if messageWasString c then _ else _). rewrite container_upd, Hk. cbn [fmap option_fmap option_map jset].
  split; [|split; [done|split; [|done]]]; [|cbn -[mset]; by rewrite mget_mset_ne].
  split.
  - exists (JObj (mset (js "id") (JNum id) m)). split.
    + split; [apply mget_mset_eq|]. intros k Hne. cbn -[mset]. by apply mget_mset_ne.
    + rewrite container_upd, Hk. cbn -[mset stringify]. rewrite mget_mset_eq. unfold x.
      destruct (messageWasString c); auto.
  - intros k H1 H2. rewrite container_upd, Hk. cbn -[mset]. by apply mget_mset_ne.
  - intros k H1 H2. by apply data_upd_container.
  - intros k H1. unfold upd_container. by apply jget_jupd_ne.
Qed.

(** Normalising for a promise keeps all but the container's client id and the
    encoding of the message. *)
Lemma normalize_restored id v m out kvs rt : (Some out)@."data"@."data" = Some (JObj kvs) ->
  restored id v m out ->
  let out' := normalizeRawResponse out rt in
  restored id v m out' /\
  names_client rt ((Some out)@."data"@."data"@."client_id") ((Some out')@."data"@."data"@."client_id") /\
  (Some out')@."data"@."sender" = (Some out)@."data"@."sender" /\
  exists s, (Some out')@."data"@."data"@."message" = Some (JStr s).
Proof.
  intros Hk [(m' & [Hid Hm'] & Hmsg) R2 R3 R4] out'.
  destruct (normalize_container out rt kvs Hk) as (kvs' & Hk' & Hc & Hmg & Ho). fold out' in Hk'.
  assert ((forall k, k <> js "data" -> jget k ((Some out')@."data") = jget k ((Some out)@."data")) /\
    forall k, k <> js "data" -> jget k (Some out') = jget k (Some out)) as [Hd He].
  { unfold out', normalizeRawResponse. rewrite Hk. cbn [truthy negb].
    split; intros k Hne; [by apply data_upd_container|]. unfold upd_container. by apply jget_jupd_ne. }
  rewrite Hk in Hmsg, R2 |- *. rewrite Hk'. cbn [jget] in Hmsg, R2 |- *.
  assert (mget (js "message") kvs' = Some (JStr (stringify m'))) as Hs.
  { rewrite Hmg. destruct Hmsg as [->| ->]; [|done]. cbn. by destruct m'. }
  split; [|split; [|split; [by apply Hd|by rewrite Hs; eauto]]].
  - split.
    + exists m'. split; [done|]. rewrite Hk'. by right.
    + intros k H1 H2. rewrite Hk'. cbn [jget]. rewrite Ho by done. by apply R2.
    + intros k H1 H2. rewrite Hd by done. by apply R3.
    + intros k H1. rewrite He by done. by apply R4.
  - unfold names_client. rewrite Hc. unfold mhas. by destruct (mget (js "client_id") kvs).
Qed.

(** Naming the runtime for a front end keeps all but the two ids. *)
Lemma rewrite_ids out d kvs rt : (Some out)@."data" = Some (JObj d) -> mget (js "data") d = Some (JObj kvs) ->
  let out' := rewriteRuntimeClientIdData out rt in
  exists d' kvs', (Some out')@."data" = Some (JObj d') /\ mget (js "data") d' = Some (JObj kvs') /\
    names_client rt (mget (js "client_id") kvs) (mget (js "client_id") kvs') /\
    names_client rt (mget (js "sender") d) (mget (js "sender") d') /\
    (forall k, k <> js "client_id" -> mget k kvs' = mget k kvs) /\
    (forall k, k <> js "data" -> k <> js "sender" -> mget k d' = mget k d) /\
    (forall k, k <> js "data" -> jget k (Some out') = jget k (Some out)).
Proof.
  intros Hd Hk out'. unfold out', rewriteRuntimeClientIdData. rewrite Hd. cbn [truthy hasOwn andb].
  set (out1 := if mhas (js "sender") d then _ else _).
  set (d1 := if mhas (js "sender") d then mset (js "sender") (jint rt) d else d).
  assert ((Some out1)@."data" = Some (JObj d1)) as Hd1.
  { unfold out1, d1. destruct (mhas (js "sender") d); [|done]. by rewrite jget_jupd, Hd. }
  assert (mget (js "data") d1 = Some (JObj kvs)) as Hk1.
  { unfold d1. destruct (mhas (js "sender") d); [|done]. by rewrite mget_mset_ne. }
  rewrite Hd1. change (jget (js "data") (Some (JObj d1))) with (mget (js "data") d1). rewrite Hk1. cbn [truthy hasOwn andb].
  set (kvs' := if mhas (js "client_id") kvs then mset (js "client_id") (jint rt) kvs else kvs).
  set (d' := if mhas (js "client_id") kvs then mset (js "data") (JObj kvs') d1 else d1).
  exists d', kvs'. split_and!.
  - unfold d', kvs'. destruct (mhas (js "client_id") kvs); [|done]. unfold upd_container. rewrite jget_jupd, Hd1.
    cbn. by rewrite Hk1.
  - unfold d', kvs'. destruct (mhas (js "client_id") kvs); [apply mget_mset_eq|done].
  - unfold names_client, kvs', mhas. destruct (mget (js "client_id") kvs) eqn:E; [apply mget_mset_eq|done].
  - assert (mget (js "sender") d' = mget (js "sender") d1) as ->
      by (unfold d'; case_match; [by rewrite mget_mset_ne|done]).
    unfold names_client, d1, mhas. destruct (mget (js "sender") d) eqn:E; [apply mget_mset_eq|done].
  - intros k H1. unfold kvs'. case_match; [by rewrite mget_mset_ne|done].
  - intros k H1 H2. unfold d', d1. repeat case_match; rewrite ?mget_mset_ne by done; done.
  - intros k H1. assert (jget k (Some out1) = jget k (Some out)) as <-
      by (unfold out1; case_match; [by rewrite jget_jupd_ne|done]).
    case_match; [|done]. unfold upd_container. by rewrite jget_jupd_ne.
Qed.

Lemma rewrite_restored id v m out kvs rt : (Some out)@."data"@."data" = Some (JObj kvs) ->
  restored id v m out ->
  let out' := rewriteRuntimeClientIdData out rt in
  restored id v m out' /\
  names_client rt ((Some out)@."data"@."data"@."client_id") ((Some out')@."data"@."data"@."client_id") /\
  names_client rt ((Some out)@."data"@."sender") ((Some out')@."data"@."sender").
Proof.
  intros Hk [(m' & Hm' & Hmsg) R2 R3 R4] out'.
  destruct ((Some out)@."data") as [[| | | | |d]|] eqn:Ed; try done.
  destruct (rewrite_ids out d kvs rt Ed Hk) as (d' & kvs' & Ed' & Hk' & H1 & H2 & H3 & H4 & H5). fold out' in Ed', H5.
  rewrite Hk in Hmsg, R2 |- *. rewrite Ed'. cbn [jget] in Hmsg, R2 |- *. rewrite Hk'. cbn [jget].
  split; [|done]. split.
  - exists m'. rewrite Ed'. cbn [jget]. rewrite Hk'. cbn [jget]. by rewrite H3.
  - intros k Hn1 Hn2. rewrite Ed'. cbn [jget]. rewrite Hk'. cbn [jget]. rewrite H3 by done. by apply R2.
  - intros k Hn1 Hn2. rewrite Ed'. cbn [jget]. rewrite H4 by done. by apply R3.
  - intros k Hn. rewrite H5 by done. by apply R4.
Qed.

Lemma deliver_restored r v kvs c m source h :
  (Some v)@."data"@."data" = Some (JObj kvs) -> message c = JObj m ->
  exists out, restored (r_originalId r) v (JObj m) out /\
    requester_gets r v out source h (deliver_routed r (writeCustomizedMessage c (r_originalId r) v) source h).
Proof.
  intros Hk Hm. destruct (write_restored v kvs c (r_originalId r) m Hk Hm) as (Hr & Hk' & Hci & Hse).
  set (w := writeCustomizedMessage c (r_originalId r) v) in *. unfold requester_gets, deliver_routed.
  rewrite <- Hci, <- Hse. destruct (r_kind r); [destruct (r_resolve r) as [cb|]|].
  - destruct (normalize_restored _ _ _ _ _ (r_clientId r) Hk' Hr) as (H1 & H2 & H3 & H4).
    eexists. split; [exact H1|done].
  - exists w. done.
  - destruct (rewrite_restored _ _ _ _ _ (r_clientId r) Hk' Hr) as (H1 & H2 & H3).
    eexists. split; [exact H1|]. split; [|done]. unfold sendMessageToWebClient, front_end_open.
    destruct (h_enableWebSocket h); [|done]. by destruct (h_webSocketController h).
Qed.


(** A response nobody waits for is dropped.  A message with a valid inner
    id that has no route, or whose route leads to another runtime, causes
    nothing at all: no delivery, no broadcast, and the route of the other
    runtime stays pending. *)
Theorem stray_response_dropped g clientId text v c source now h :
  parse text = Some v -> getCustomizedPayload (Some v) = Some c ->
  getValidMessageId (Some (message c)) = Some (NInt g) ->
  match get g (h_pendingRoutes h) with Some r => r_clientId r <> clientId | None => True end ->
  handleRuntimeMessage clientId text source now h = ([], h).
Proof.
  intros Hp Hcp Hid Hr. unfold handleRuntimeMessage. rewrite (parseOrNull _ _ Hp), Hcp.
  unfold restoreInboundMessage. rewrite (payload_truthy _ _ Hcp), Hid. cbn [negb num_key mbind option_bind].
  destruct (get g (h_pendingRoutes h)) as [r|].
  - destruct (Z.eqb_spec (r_clientId r) clientId); [done|]. cbn [negb]. by rewrite Hid.
  - by rewrite Hid.
Qed.

(** A message without an id reaches every connector as the runtime sent it.
    Such a notification is broadcast once, byte for byte, to the control
    connections; the front ends get it with the runtime's identity filled in;
    no promise is settled and no route is touched. *)
Theorem notification_broadcast clientId text source now h :
  (getCustomizedPayload (Some (parseJsonMessageOrNull text)) ≫= (fun c => getValidMessageId (Some (message c)))) = None ->
  let '(effects, h') := handleRuntimeMessage clientId text source now h in
  let value := parseJsonMessageOrNull text in
  let webText := if truthy (Some value) then stringify (rewriteRuntimeClientIdData value clientId) else text in
  effects = sendMessageToWeb webText h ++ broadcast (EvClientMessage source clientId text) h /\
  h_pendingRoutes h' = h_pendingRoutes h /\
  h_memoizedQueryTable h' =
    recordNotification clientId webText
      (Some (if truthy (Some value) then rewriteRuntimeClientIdData value clientId else value)) now
      (h_memoizedQueryTable h).
Proof.
  intros Hid. unfold handleRuntimeMessage. set (value := parseJsonMessageOrNull text) in *.
  assert (restoreInboundMessage value (getCustomizedPayload (Some value)) clientId h = (None, h)) as ->.
  { unfold restoreInboundMessage. destruct (truthy (Some value)); [|done]. cbn [negb].
    destruct (getCustomizedPayload (Some value)) as [c|]; [|done]. cbn in Hid. by rewrite Hid. }
  rewrite Hid. hcbn. destruct (truthy (Some value)); (split; [|split; reflexivity]); f_equal;
    unfold sendMessageToWeb; hcbn; by destruct (h_enableWebSocket h).
Qed.

(** A routable request that is not a memoised query is sent on and gets a
    route. *)
Lemma sendMessageToRuntime_routes clientId m target now h data c original :
  isAppClient clientId h || isUsbClient clientId h = true ->
  match m with Text s => parse s | Value v => Some (default JNull (cloneJsonValue (Some v))) end = Some data ->
  isUsbHandshake data = false ->
  let d := rewrite_client_id (isAppClient clientId h) clientId data in
  getRoutableCustomizedPayload (Some d) = Some c -> getValidMessageId (Some (message c)) = Some original ->
  (query clientId (Some d) now (h_memoizedQueryTable h)).1 = NotMemoized ->
  let '(r, t) := add (seed_input target original) now (h_pendingRoutes h) in
  sendMessageToRuntime clientId m target None now h =
  (None, [let sent := writeCustomizedMessage c (NInt (r_globalMessageId r)) d in
          if isAppClient clientId h then SendApp clientId (stringify sent) else SendUsb clientId sent],
   h <| h_memoizedQueryTable := (query clientId (Some d) now (h_memoizedQueryTable h)).2 |> <| h_pendingRoutes := t |>).
Proof.
  intros Hcl Hm Hu d Hr Ho Hq. unfold sendMessageToRuntime.
  assert (negb (isAppClient clientId h) && negb (isUsbClient clientId h) = false) as ->
    by (destruct (isAppClient clientId h), (isUsbClient clientId h); done).
  rewrite Hm, Hu. fold d. destruct (query clientId (Some d) now _) as [decision t] eqn:Eq. cbn in Hq. subst decision.
  unfold forward_to_runtime, rewriteOutboundMessageData. rewrite Hr, Ho. hcbn. reflexivity.
Qed.

(** A routable request is forwarded under a fresh id.  The host sends the
    runtime the request with only the inner id, and a client id it carries,
    replaced; the new id belongs to no other pending request, and its route
    remembers the requester, the original id and the runtime. *)
Theorem request_forwarded clientId m target now h data c original :
  table_wf (h_pendingRoutes h) -> ts_clientId target = clientId ->
  isAppClient clientId h || isUsbClient clientId h = true ->
  match m with Text s => parse s | Value v => Some (default JNull (cloneJsonValue (Some v))) end = Some data ->
  isUsbHandshake data = false ->
  let d := rewrite_client_id (isAppClient clientId h) clientId data in
  getRoutableCustomizedPayload (Some d) = Some c -> getValidMessageId (Some (message c)) = Some original ->
  (query clientId (Some d) now (h_memoizedQueryTable h)).1 = NotMemoized ->
  let g := pr_nextGlobalMessageId (h_pendingRoutes h) in
  let '(error, effects, h') := sendMessageToRuntime clientId m target None now h in
  error = None /\
  effects = [let sent := writeCustomizedMessage c (NInt g) d in
             if isAppClient clientId h then SendApp clientId (stringify sent) else SendUsb clientId sent] /\
  get g (h_pendingRoutes h) = None /\
  exists r, get g (h_pendingRoutes h') = Some r /\ r_originalId r = original /\ r_clientId r = clientId /\
    r_kind r = ts_kind target /\ r_requesterId r = ts_requesterId target /\ r_resolve r = ts_resolve target.
Proof.
  intros Hwf Ht Hcl Hm Hu d Hr Ho Hq g.
  pose proof (sendMessageToRuntime_routes clientId m target now h data c original Hcl Hm Hu Hr Ho Hq) as Hs.
  unfold add, createGlobalMessageId, createTimer in Hs. cbn [fst snd] in Hs. rewrite Hs. clear Hs. hcbn.
  split; [done|]. split; [done|]. split; [by apply next_not_route|].
  eexists. split; [unfold get; cbn [pr_routes set_field eta eta_table]; apply mget_mset_eq|].
  by cbn [r_originalId r_clientId r_kind r_requesterId r_resolve r_input seed_input in_originalId in_clientId in_kind
    in_requesterId in_resolve].
Qed.

(** *** A concrete exchange

    A daemon that owns the devices and has one USB runtime with id 1; a control
    asks it under id 7. *)

Definition demo_option : HostOption := mkHostOption 2 (NInt 30000) None None None None 4242 false.

Definition demo_host : Host :=
  (new_host demo_option) <| h_controlServer := true |> <| h_ownershipStatus := attached |>
    <| h_physicalConnector ::= (fun p => p <| pc_usbClients := [(1, phone_client)] |>) |>.

Definition demo_target : PendingTargetSeed := mkSeed RControl 5 1 None (Some (5, NInt 100)) (Some (5, NInt 100)).

Definition demo_route := (add (seed_input demo_target (NInt 7)) 0 (new_table None)).1.

Definition demo_pending : Host :=
  demo_host <| h_pendingRoutes := (add (seed_input demo_target (NInt 7)) 0 (new_table None)).2 |>.

Lemma demo_pending_wf : table_wf (h_pendingRoutes demo_pending).
Proof. apply add_wf; [apply new_table_wf|]. unfold ids_left, MAX_SAFE. cbn. lia. Qed.

Lemma request_forwarded_example :
  let '(error, effects, h') := sendMessageToRuntime 1 (Value (cdp_envelope (cdp_call 7))) demo_target None 0 demo_host in
  error = None /\ List.length effects = 1%nat /\
  exists r, get 1 (h_pendingRoutes h') = Some r /\ r_originalId r = NInt 7.
Proof.
  pose (d := rewrite_client_id false 1 (cdp_envelope (cdp_call 7))).
  pose (c := default (mkPayload JNull JNull false) (getRoutableCustomizedPayload (Some d))).
  pose proof (request_forwarded 1 (Value (cdp_envelope (cdp_call 7))) demo_target 0 demo_host (cdp_envelope (cdp_call 7))
    c (NInt 7) (new_table_wf None) eq_refl ltac:(vm_compute; reflexivity) ltac:(vm_compute; reflexivity)
    ltac:(vm_compute; reflexivity) ltac:(vm_compute; reflexivity) ltac:(vm_compute; reflexivity)
    ltac:(vm_compute; reflexivity)) as H.
  destruct (sendMessageToRuntime _ _ _ _ _ _) as [[error effects] h']. destruct H as (-> & -> & _ & r & H1 & H2 & _).
  split; [reflexivity|]. split; [reflexivity|]. exists r. split; [exact H1|exact H2].
Defined.

(** The response of the runtime, to global id 1. *)
Definition demo_result (id : Z) : json := JObj [(js "id", jint id); (js "result", JObj [])].

Definition demo_response (id : Z) : json := cdp_envelope (JStr (stringify (demo_result id))).


Lemma stray_response_dropped_example :
  handleRuntimeMessage 2 (stringify (demo_response 1)) usb_runtime 50 demo_pending = ([], demo_pending).
Proof.
  pose (c := default (mkPayload JNull JNull false) (getCustomizedPayload (Some (demo_response 1)))).
  apply (stray_response_dropped 1 2 (stringify (demo_response 1)) (demo_response 1) c usb_runtime 50 demo_pending);
    try (vm_compute; reflexivity). vm_compute. discriminate.
Defined.

Lemma notification_broadcast_example :
  let '(effects, h') := handleRuntimeMessage 1 (js "{}") usb_runtime 50 demo_pending in
  effects = [Broadcast (EvClientMessage usb_runtime 1 (js "{}"))] /\ h_pendingRoutes h' = h_pendingRoutes demo_pending.
Proof.
  pose proof (notification_broadcast 1 (js "{}") usb_runtime 50 demo_pending ltac:(vm_compute; reflexivity)) as H.
  destruct (handleRuntimeMessage _ _ _ _ _) as [effects h']. destruct H as (-> & H & _).
  split; [vm_compute; reflexivity|exact H].
Defined.
