(* ===== verification/HostRpc.v ===== *)
(** * Control RPCs and the lifecycle of the host

    Models [handleControlRpc] of [multiplexer/daemon/MultiplexerDaemonHost.ts]
    with the operations behind its thirteen methods, the start of the WebSocket
    server, and [start] and [stop].  An asynchronous operation is split at its
    [await]s: the definition named after the function runs to the first, and
    the ones after it resume when what they wait for has happened. *)

From Stdlib Require Import SpecFloat String.
From S2P Require Import JsValue Json Protocol PendingRoutes MemoTable Message ReportBridge.
From S2P Require Import Ownership Physical WebSocket Host Routing.

(** How a call of an RPC method goes on: it returns ([None] is [undefined]),
    throws, or waits. *)
Inductive rpc_outcome :=
  | Returns (result : option json)
  | Throws (e : thrown)
  | Awaits.

(** [dispatchRpc] answers the request: a missing result is [{}]. *)
Definition settle (cb : callback) (o : rpc_outcome) : list effect :=
  match o with
  | Returns r => [Resolve cb (default (JObj []) r)]
  | Throws e => [Reject cb e]
  | Awaits => []
  end.

Definition str_param (k : string) (params : jsval) : jstr := match jget (js k) params with Some (JStr s) => s | _ => [] end.
Definition opt_str_param (k : string) (params : jsval) : option jstr :=
  match jget (js k) params with Some (JStr s) => Some s | _ => None end.

(** ** Devices and USB clients *)

Definition serializeDevices (ds : list Device) : json := JArr (List.map (fun d => device_json (serializeDevice d)) ds).
Definition serializeClients (cs : list UsbClient) : json := JArr (List.map (fun c => client_json (serializeClient c)) cs).

(** [connectDevices] starts the managers; when they run, the devices are looked
    up, and a lookup that waits ends with a device or its timeout. *)
Definition connectDevices (h : Host) : list effect := List.map Phys (startDeviceListeners (h_physicalConnector h)).

Definition connectDevices_listening (cb : callback) (params : jsval) (h : Host) : list effect :=
  match getDevices (num_or (-1) (params@."timeout")) (opt_str_param "serial" params) (h_physicalConnector h) with
  | Resolved ds => [Resolve cb (serializeDevices ds)]
  | Waiting => []
  end.

Definition connectUsbClients (deviceId : jstr) (h : Host) : rpc_outcome * Host :=
  if negb (mhas deviceId (pc_devices (h_physicalConnector h))) then (Returns (Some (JArr [])), h)
  else match ensureClientWatcher deviceId h with
       | (WatchThrows e, h) => (Throws e, h)
       | (_, h) => (Awaits, h)
       end.

(** The clients are known: the answer and the snapshot that follows it. *)
Definition connectUsbClients_found (cb : callback) (clients : list UsbClient) (now : Z) (h : Host) : list effect :=
  publishClientSnapshot now h ++ [Resolve cb (serializeClients clients)].

(** The lookup of [waitTimeout ?? true]. *)
Definition wait_param (params : jsval) : bool := match params@."waitTimeout" with Some (JBool b) => b | _ => true end.

Definition usb_lookup (params : jsval) (h : Host) : option (wait_result (list UsbClient)) :=
  let deviceId := str_param "deviceId" params in
  let timeout := num_or (-1) (params@."timeout") in
  if wait_param params
  then getDeviceUsbClients deviceId timeout (opt_str_param "clientName" params) (h_physicalConnector h)
  else Some (waitDeviceUsbClients deviceId timeout (h_physicalConnector h)).

(** The watcher runs; a lookup that throws rejects. *)
Definition connectUsbClients_watched (cb : callback) (params : jsval) (now : Z) (h : Host) : list effect :=
  match usb_lookup params h with
  | None => [Reject cb (ThrowError (js "indexOf is not a function"))]
  | Some (Resolved cs) => connectUsbClients_found cb cs now h
  | Some Waiting => []
  end.

Definition startWatchClient_rpc (deviceId : jstr) (h : Host) : rpc_outcome * Host :=
  match ensureClientWatcher deviceId h with
  | (WatchReady, h) => (Returns None, h)
  | (WatchThrows e, h) => (Throws e, h)
  | (WatchAwaits _, h) => (Awaits, h)
  end.

(** [startWatchAllClients] after [reacquire], and after all watchers. *)
Definition startWatchAllClients_owned (h : Host) : list watch_outcome * Host := ensureAllClientWatchers h.
Definition startWatchAllClients_watched (cb : callback) (now : Z) (h : Host) : list effect :=
  publishClientSnapshot now h ++ settle cb (Returns None).

Definition host_closeClient (clientId : Z) (h : Host) : list effect :=
  if mhas clientId (default [] (getWebSocketAppClients h)) then [CloseWs clientId]
  else if mhas clientId (default [] (getWebSocketWebClients h)) then [CloseWs clientId]
  else List.map Phys (closeClient clientId (h_physicalConnector h)).

(** ** Shutdown *)

Definition shutdown_unavailable : thrown :=
  ThrowCode (js "daemon-shutdown-unavailable") (js "Multiplexer daemon shutdown handler is not configured").

(** The handler is called in the next turn of the event loop, after the RPC was
    answered. *)
Definition requestDaemonShutdown (reason : option jstr) (h : Host) : rpc_outcome * list effect * Host :=
  if negb (h_shutdownHandler h) then (Throws shutdown_unavailable, [], h)
  else if h_shutdownRequested h then (Returns None, [], h)
  else
    let h := h <| h_shutdownRequested := true |>
               <| h_daemonStopReason := Some (default (js "control_request") reason) |> in
    (Returns None, [CallShutdownHandler], clearIdleTimeout h).

(** ** The WebSocket server *)

Definition serverInfo_json (i : WebSocketServerInfo) : json :=
  jobj [field "port" (jint (si_port i)); field "host" (JStr (si_host i)); opt_field "roomId" (JStr <$> si_roomId i)].

Definition ws_unavailable : thrown :=
  ThrowCode (js "websocket-server-unavailable")
    (js "The multiplexer daemon WebSocket server is unavailable because the daemon host is closed").
Definition ws_disabled : thrown :=
  ThrowCode (js "websocket-disabled")
    (js "The multiplexer daemon does not support WebSocket because enableWebSocket is disabled").
Definition ws_info_unavailable : thrown :=
  ThrowCode (js "websocket-server-info-unavailable")
    (js "The multiplexer daemon WebSocket server information is unavailable").

Definition startWSServer (controlId : Z) (now : Z) (h : Host) : rpc_outcome * list effect * Host :=
  if bool_decide (h_lifecycleStatus h = closed_) then (Throws ws_unavailable, [], h)
  else if negb (h_enableWebSocket h) then (Throws ws_disabled, [], h)
  else
    let h := h <| h_webSocketRequesterControlIds ::= sadd controlId |> in
    if h_webSocketServerStarted h then
      match h_webSocketServerInfo h with
      | None => (Throws ws_info_unavailable, [], h <| h_webSocketRequesterControlIds ::= sdel controlId |>)
      | Some info => (Returns (Some (serverInfo_json info)), sendSnapshotTo [controlId] now h, h)
      end
    else (Awaits, [], h <| h_webSocketServerStarting := true |>).

(** [startWebSocketServerInternal] has its port and address: the controller is
    created, and its startup settles once, by listening, an error or the
    timeout. *)
Definition ws_controller_created (info : WebSocketServerInfo) (h : Host) : list effect * Host :=
  let '(e, h) := host_report (js "websocket_server_init") None
                   (Some (JObj [(js "port", JStr (js "wssPort:" ++ si_host info))])) h in
  (e, h <| h_webSocketController := Some (new_controller (ho_roomId (h_option h))) |>).

Definition ws_start_succeeds (info : WebSocketServerInfo) (h : Host) : Host :=
  h <| h_webSocketServerStarted := true |> <| h_webSocketServerInfo := Some info |> <| h_webSocketServerStarting := false |>.

(** The clients of a controller that is given up are closed.  The code waits for
    [controller.close()] before it forgets the controller; here both are one
    step, and a stop of the host meanwhile comes before or after it. *)
Definition ws_start_fails (h : Host) : list effect * Host :=
  let clients := match h_webSocketController h with
                 | Some c => mkeys (wc_websocketAppClients c) ++ mkeys (wc_webClients c)
                 | None => []
                 end in
  (List.map CloseWs clients, h <| h_webSocketController := None |> <| h_webSocketServerStarting := false |>).

(** Each caller of [startWSServer] that waited. *)
Definition startWSServer_started (cb : callback) (info : WebSocketServerInfo) (now : Z) (h : Host) : list effect :=
  sendSnapshotTo [cb.1] now h ++ settle cb (Returns (Some (serverInfo_json info))).
Definition startWSServer_failed (cb : callback) (e : thrown) (h : Host) : list effect * Host :=
  (settle cb (Throws e), h <| h_webSocketRequesterControlIds ::= sdel cb.1 |>).

(** ** Dispatch *)

Definition num_param (k : string) (params : jsval) : num := num_or 0 (jget (js k) params).

(** A client id of a request as a map key; other Numbers find no client. *)
Definition client_param (params : jsval) : option Z := num_key (num_param "clientId" params).

Definition answer (cb : callback) (r : rpc_outcome * Host) : list effect * Host := (settle cb r.1, r.2).

Definition answer_after (cb : callback) (o : rpc_outcome) (r : list effect * Host) : list effect * Host :=
  (r.1 ++ settle cb o, r.2).

(** [handleControlRpc]; the methods that wait are resumed by the definitions
    above. *)
Definition handleControlRpc (controlId : Z) (q : ControlRpcRequest) (sendError : option thrown) (now : Z) (h : Host)
  : list effect * Host :=
  let params := Some (rq_params q) in
  let cb := (controlId, rq_id q) in
  let shown := num_toString (num_param "clientId" params) in
  match rq_method q with
  | Protocol.connectDevices => (connectDevices h, h)
  | Protocol.connectUsbClients => answer cb (connectUsbClients (str_param "deviceId" params) h)
  | Protocol.watchNetworkDeviceAtIp =>
      let new := (addManagerControl (network_key params) controlId h).1 in
      answer_after cb (if new then Awaits else Returns None) (addNetworkManager controlId params true h)
  | Protocol.startDeviceClientWatcher => answer cb (startWatchClient_rpc (str_param "deviceId" params) h)
  | Protocol.stopDeviceClientWatcher => answer_after cb (Returns None) (stopWatchClient (str_param "deviceId" params) h)
  | Protocol.startAllDeviceClientWatchers => ([], h)
  | Protocol.stopAllDeviceClientWatchers => ([], h)
  | Protocol.disconnectDevice => answer_after cb (Returns None) (disconnectDevice (str_param "deviceId" params) h)
  | Protocol.shutdownDaemon =>
      let '(o, e, h) := requestDaemonShutdown (opt_str_param "reason" params) h in (e ++ settle cb o, h)
  | Protocol.startWSServer => let '(o, e, h) := startWSServer controlId now h in (e ++ settle cb o, h)
  | Protocol.sendMessageWithReply =>
      match client_param params, params@."message" with
      | Some id, Some m =>
          sendMessageWithReply id m (match params@."timeout" with Some (JNum n) => Some n | _ => None end)
            controlId (rq_id q) sendError now h
      | _, _ => ([Reject cb (client_not_found shown)], h)
      end
  | Protocol.sendMessageWithoutReply =>
      let toWeb := jeq_str (params@."target") (js "web") in
      match client_param params, params@."message" with
      | Some id, Some m =>
          let '(e, effects, h) := sendMessageWithoutReply toWeb id m controlId sendError now h in
          (effects ++ settle cb (match e with Some e => Throws e | None => Returns None end), h)
      | _, _ => (settle cb (if toWeb then Returns None else Throws (client_not_found shown)), h)
      end
  | Protocol.closeClient =>
      (match client_param params with Some id => host_closeClient id h | None => [] end ++ settle cb (Returns None), h)
  end.

(** ** Calls that wait *)

(** The call has ended. *)
Definition known (o : rpc_outcome) : bool := match o with Awaits => false | _ => true end.

(** What a call waits for after its first part. *)
Inductive await :=
  | AwListening (params : jsval)             (* the device managers watch *)
  | AwDevice (serial : option jstr)          (* a device connects, or the timeout *)
  | AwWatcher (params : jsval)               (* the client watcher of the device runs *)
  | AwClients (params : jsval)               (* a client connects, or the timeout *)
  | AwDone                                   (* an operation without a result *)
  | AwOwnership                              (* the legacy ownership is reacquired *)
  | AwAllWatchers                            (* the client watchers of all devices run *)
  | AwAttempts                               (* starting watchers have settled *)
  | AwServer.                                (* the WebSocket server listens *)

Definition rpc_awaits (controlId : Z) (q : ControlRpcRequest) (now : Z) (h : Host) : option await :=
  let params := Some (rq_params q) in
  let watcher := (ensureClientWatcher (str_param "deviceId" params) h).1 in
  match rq_method q with
  | Protocol.connectDevices => Some (AwListening params)
  | Protocol.connectUsbClients =>
      if negb (mhas (str_param "deviceId" params) (pc_devices (h_physicalConnector h))) then None
      else match watcher with WatchThrows _ => None | _ => Some (AwWatcher params) end
  | Protocol.watchNetworkDeviceAtIp =>
      if (addManagerControl (network_key params) controlId h).1 then Some AwDone else None
  | Protocol.startDeviceClientWatcher => match watcher with WatchAwaits _ => Some AwDone | _ => None end
  | Protocol.startAllDeviceClientWatchers => Some AwOwnership
  | Protocol.stopAllDeviceClientWatchers => Some AwAttempts
  | Protocol.startWSServer => if known (startWSServer controlId now h).1.1 then None else Some AwServer
  | _ => None
  end.

(** What happened to a call that waits. *)
Inductive resumption :=
  | RDone                                    (* what it awaits was done *)
  | RFailed (e : thrown)
  | RDevice (d : Device)                     (* a device connected *)
  | RClient (c : UsbClient)                  (* a USB client connected *)
  | RTimeout
  | RServer (info : WebSocketServerInfo).

(** The clients a lookup that waits is answered with: by a client that connects,
    and at its timeout. *)
Definition client_found (params : jsval) (c : UsbClient) : option (list UsbClient) :=
  let deviceId := str_param "deviceId" params in
  if wait_param params then
    match opt_str_param "clientName" params with
    | None => None
    | Some name => client_arrives deviceId (Some name) c ≫= (fun found => found)
    end
  else wait_arrives deviceId c.

Definition clients_at_timeout (params : jsval) (h : Host) : option (list UsbClient) :=
  let deviceId := str_param "deviceId" params in
  if wait_param params then client_wait_ends deviceId (opt_str_param "clientName" params) (h_physicalConnector h)
  else Some (clients_of deviceId (h_physicalConnector h)).

(** The next part of a call, up to its end ([None]) or its next [await]; what it
    does not wait for leaves it waiting. *)
Definition resume (cb : callback) (a : await) (r : resumption) (now : Z) (h : Host)
  : list effect * Host * option await :=
  match a, r with
  | AwListening params, RDone =>
      let serial := opt_str_param "serial" params in
      match getDevices (num_or (-1) (params@."timeout")) serial (h_physicalConnector h) with
      | Resolved _ => (connectDevices_listening cb params h, h, None)
      | Waiting => ([], h, Some (AwDevice serial))
      end
  | AwDevice serial, RDevice d =>
      match device_arrives serial d with
      | Some ds => ([Resolve cb (serializeDevices ds)], h, None)
      | None => ([], h, Some a)
      end
  | AwDevice serial, RTimeout => ([Resolve cb (serializeDevices (findDevice serial (h_physicalConnector h)))], h, None)
  | AwWatcher params, RDone =>
      match usb_lookup params h with
      | Some Waiting => ([], h, Some (AwClients params))
      | _ => (connectUsbClients_watched cb params now h, h, None)
      end
  | AwClients params, RClient c =>
      match client_found params c with
      | Some cs => (connectUsbClients_found cb cs now h, h, None)
      | None => ([], h, Some a)
      end
  | AwClients params, RTimeout =>
      match clients_at_timeout params h with
      | Some cs => (connectUsbClients_found cb cs now h, h, None)
      | None => ([], h, Some a)
      end
  | AwDone, RDone => (settle cb (Returns None), h, None)
  | AwOwnership, RDone =>
      let '(outcomes, h) := startWatchAllClients_owned h in
      match List.find (fun o => match o with WatchThrows _ => true | _ => false end) outcomes with
      | Some (WatchThrows e) => (settle cb (Throws e), h, None)
      | _ => ([], h, Some AwAllWatchers)
      end
  | AwAllWatchers, RDone => (startWatchAllClients_watched cb now h, h, None)
  | AwAttempts, RDone => let '(e, h) := forceDisableAllClients now h in (e ++ settle cb (Returns None), h, None)
  | AwServer, RServer info => (startWSServer_started cb info now h, h, None)
  | AwServer, RFailed e => let '(es, h) := startWSServer_failed cb e h in (es, h, None)
  | AwListening _, RFailed e | AwWatcher _, RFailed e | AwDone, RFailed e
  | AwOwnership, RFailed e | AwAllWatchers, RFailed e => (settle cb (Throws e), h, None)
  | _, _ => ([], h, Some a)
  end.

(** ** Lifecycle *)

(** [start] before the control server listens: a closed or ready host ignores
    it. *)
Definition start_host (h : Host) : bool * Host :=
  match h_lifecycleStatus h with
  | uninitialized => (true, h <| h_shutdownRequested := false |> <| h_daemonStopReason := None |>)
  | _ => (false, h)
  end.

Definition control_server_started (h : Host) : Host := h <| h_controlServer := true |>.

(** After the ownership guard has started; a stop in between has closed the
    host. *)
Definition start_ends_host (now : Z) (h : Host) : Host :=
  match h_lifecycleStatus h with
  | uninitialized => scheduleIdleTimeoutIfNeeded now (h <| h_lifecycleStatus := ready |>)
  | _ => h
  end.

(** [stop] before it waits for a start in progress. *)
Definition stop_host (h : Host) : bool * Host :=
  match h_lifecycleStatus h with
  | closed_ => (false, h)
  | _ => (true, h <| h_lifecycleStatus := closed_ |> <| h_reportBridge ::= close_bridge |> <| h_reportControlIds := [] |>)
  end.

(** [stopInternal] up to the closing of the WebSocket controller. *)
Definition stopInternal (h : Host) : list effect * Host :=
  let clients := match h_webSocketController h with
                 | Some c => mkeys (wc_websocketAppClients c) ++ mkeys (wc_webClients c)
                 | None => []
                 end in
  let h := clearIdleTimeout (h <| h_shutdownRequested := false |>) in
  let h := h <| h_activeControlIds := [] |> <| h_autoConnectControlIds := [] |> <| h_enabledManagers := [] |>
             <| h_webSocketRequesterControlIds := [] |> <| h_activeWebSocketDriverIds := [] |>
             <| h_webSocketController := None |> <| h_webSocketServerInfo := None |>
             <| h_webSocketServerStarted := false |> in
  (List.map CloseWs clients, h).

(** The control server is taken away before it is stopped; the connector is
    closed next, and in any case the runtime state is cleared. *)
Definition stopInternal_control (h : Host) : Host := h <| h_controlServer := false |>.

Definition stopInternal_physical (h : Host) : list effect * Host :=
  let '(e, p) := close_physical (h_physicalConnector h) in (List.map Phys e, h <| h_physicalConnector := p |>).

Definition stopInternal_cleared (h : Host) : list effect * Host :=
  let '(e, h) := clearRuntimeState h in (e, h <| h_daemonStopReason := None |>).
