(* ===== verification/HostRun.v ===== *)
(** * Steps of the host

    The operations of a started host as one step function, with the invariant
    they keep and the account of promises: those of RPCs that are settled by a
    step, wait in the route table after it, or were waiting before it.  The idle
    timer is armed while nobody uses the daemon, and device managers are held by
    connected controls. *)

From Stdlib Require Import SpecFloat String.
From stdpp Require Import sets.
From S2P Require Import JsValue Json Protocol PendingRoutes MemoTable Message ReportBridge.
From S2P Require Import Ownership Physical WebSocket Host Routing HostRpc.

Inductive host_op :=
  | HConnect (controlId : Z) (reportServiceEnabled : bool) (facade : jsval) (now : Z)
  | HDisconnect (controlId : Z) (now : Z)
  | HRpc (controlId : Z) (q : ControlRpcRequest) (sendError : option thrown) (now : Z)
  | HRuntimeMessage (clientId : Z) (text : jstr) (source : MessageSource) (now : Z)
  | HDriverMessage (webClientId target : Z) (text : jstr) (sendError : option thrown) (now : Z)
  | HWsRegistered (i : WebSocketClientInfo) (now : Z)
  | HWsClosed (id : Z) (now : Z)
  | HWsMessage (e : ws_event) (now : Z)
  | HRegistry (op : registry_op) (now : Z)
  | HOwnership (c : OwnershipChange) (now : Z)
  | HRouteTimeout (timer : Z) (e : thrown)
  | HRetry (timer : Z) (sendError : bool) (now : Z)
  | HIdleTimer
  | HAttemptEnds (deviceId : jstr) (attempt : Z) (success : bool)
  | HWsController (info : WebSocketServerInfo)
  | HWsStarted (info : WebSocketServerInfo)
  | HWsFailed.

(** The events of the connector go to the host as it emits them. *)
Fixpoint handle_phys_effects (es : list phys_effect) (now : Z) (h : Host) : list effect * Host :=
  match es with
  | [] => ([], h)
  | PEmit e :: es' =>
      let '(e1, h) := handle_phys_event e now h in
      let '(e2, h) := handle_phys_effects es' now h in (e1 ++ e2, h)
  | e :: es' => let '(e2, h) := handle_phys_effects es' now h in (Phys e :: e2, h)
  end.

(** [handleConnection] after the registration, and [handleDisconnect]. *)
Definition ws_registered (i : WebSocketClientInfo) (now : Z) (h : Host) : list effect * Host :=
  match h_webSocketController h with
  | None => ([], h)
  | Some c =>
      let h := h <| h_webSocketController := Some (add_client i c) |> in
      let '(e, h) := emit (if isDriver i then WsWebConnected i else WsAppConnected i) now h in
      (SendWeb (wi_id i) (roomJoined c (wi_id i)) :: e ++ host_sendClientList h, h)
  end.

Definition ws_closed (id : Z) (now : Z) (h : Host) : list effect * Host :=
  match h_webSocketController h with
  | None => ([], h)
  | Some c =>
      let '(app, web, c) := handleDisconnect id c in
      let h := h <| h_webSocketController := Some c |> in
      let '(e1, h) := if app then emit (WsAppDisconnected id) now h else ([], h) in
      let '(e2, h) := if web then emit (WsWebDisconnected id) now h else ([], h) in
      (e1 ++ e2 ++ host_sendClientList h, h)
  end.

(** Requests come from connected controls only. *)
Definition host_step (op : host_op) (h : Host) : list effect * Host :=
  match op with
  | HConnect id rep facade now => handleControlConnected id rep facade now h
  | HDisconnect id now => handleControlDisconnected id now h
  | HRpc id q err now => if shas id (h_activeControlIds h) then handleControlRpc id q err now h else ([], h)
  | HRuntimeMessage id text src now =>
      match src with
      | usb_runtime => handleUsbClientMessage id text now h
      | _ => handleWebSocketAppMessage id text now h
      end
  | HDriverMessage web target text err now =>
      let '(_, e, h) := handleWebSocketDriverMessage web target text err now h in (e, h)
  | HWsRegistered i now => ws_registered i now h
  | HWsClosed id now => ws_closed id now h
  | HWsMessage (WsClientMessage _ _ as e) now | HWsMessage (WsWebMessage _ _ as e) now => emit e now h
  | HWsMessage _ _ => ([], h)
  | HRegistry op now =>
      let '(es, p) := registry_step op (h_physicalConnector h) in
      handle_phys_effects es now (h <| h_physicalConnector := p |>)
  | HOwnership c now => handleLegacyOwnershipChanged c now h
  | HRouteTimeout tm e => route_timeout_fires tm e h
  | HRetry tm err now => retry_fires tm err now h
  | HIdleTimer => idle_timer_fires h
  | HAttemptEnds d a ok => ([], attempt_ends d a ok h)
  | HWsController info => ws_controller_created info h
  | HWsStarted info => ([], ws_start_succeeds info h)
  | HWsFailed => ws_start_fails h
  end.

(** ** Counting settlements *)

Definition settles (cb : callback) (e : effect) : bool :=
  match e with Resolve c _ | Reject c _ => bool_decide (c = cb) | _ => false end.

Definition settled (cb : callback) (es : list effect) : nat := List.length (List.filter (settles cb) es).

Definition waits (cb : callback) (r : @PendingRoute callback) : bool := bool_decide (r_resolve r = Some cb).

Definition waiting (cb : callback) (rs : list (@PendingRoute callback)) : nat := List.length (List.filter (waits cb) rs).

Definition pending (cb : callback) (t : @PendingRouteTable callback) : nat := waiting cb (mvals (pr_routes t)).

(** One when the two are the same promise. *)
Definition own (a b : callback) : nat := if bool_decide (a = b) then 1 else 0.

(** The two callbacks of a route settle the same promise, and only a control has
    one. *)
Definition input_ok (i : @PendingRouteInput callback) : Prop :=
  in_reject i = in_resolve i /\ (in_kind i = RWebSocket -> in_resolve i = None).

Definition route_ok (r : @PendingRoute callback) : Prop := input_ok (r_input r).

Record routes_wf (t : @PendingRouteTable callback) : Prop := {
  rw_table : table_wf t;
  rw_ok : forall g r, get g t = Some r -> route_ok r
}.

Lemma settled_app cb a b : settled cb (a ++ b) = (settled cb a + settled cb b)%nat.
Proof. unfold settled. by rewrite List.filter_app, length_app. Qed.

Lemma waiting_app cb a b : waiting cb (a ++ b) = (waiting cb a + waiting cb b)%nat.
Proof. unfold waiting. by rewrite List.filter_app, length_app. Qed.

Lemma new_routes_wf o : routes_wf (new_table o).
Proof. split; [apply new_table_wf|done]. Qed.

Lemma add_routes i now t : routes_wf t -> ids_left t -> input_ok i ->
  routes_wf (add i now t).2 /\
  forall cb, pending cb (add i now t).2 = (pending cb t + if bool_decide (in_resolve i = Some cb) then 1 else 0)%nat.
Proof.
  intros [Hwf Hok] Hids Hi. split; [split; [by apply add_wf|]|].
  - intros g r. unfold get, add, createGlobalMessageId, createTimer. cbn [fst snd pr_routes set_field eta eta_table].
    rewrite mget_mset. case_decide; [by intros [= <-]|]. apply Hok.
  - intros cb. unfold pending, add, createGlobalMessageId, createTimer.
    cbn [fst snd pr_routes pr_nextGlobalMessageId set_field eta eta_table].
    rewrite mset_fresh by (apply mget_None_keys; by apply next_not_route).
    unfold mvals. rewrite fmap_app. rewrite waiting_app. f_equal.
    unfold waiting, waits, r_resolve. cbn. by destruct (bool_decide (in_resolve i = Some cb)).
Qed.

Lemma mdel_cons {V} (g k : Z) (r : V) l :
  mdel g ((k, r) :: l) = if decide (k = g) then mdel g l else (k, r) :: mdel g l.
Proof. unfold mdel. rewrite filter_cons. cbn [fst]. repeat case_decide; done. Qed.

Lemma waiting_cons cb r rs : waiting cb (r :: rs) = ((if waits cb r then 1 else 0) + waiting cb rs)%nat.
Proof. unfold waiting. cbn. by destruct (waits cb r). Qed.

Lemma waiting_mdel cb g (l : list (Z * @PendingRoute callback)) : NoDup (mkeys l) ->
  (waiting cb (mvals (mdel g l)) + waiting cb (opt_list (mget g l)))%nat = waiting cb (mvals l).
Proof.
  induction l as [|[k r] l IH]; [done|]. unfold mkeys. rewrite fmap_cons, list.NoDup_cons. intros [Hk Hnd].
  specialize (IH Hnd). rewrite mdel_cons. cbn [mget]. change (mvals ((k, r) :: l)) with (r :: mvals l).
  rewrite waiting_cons. destruct (decide (g = k)) as [->|Hne].
  - rewrite decide_True by done. rewrite mdel_absent by done. cbn [opt_list]. rewrite waiting_cons. cbn. lia.
  - rewrite decide_False by congruence. change (mvals ((k, r) :: mdel g l)) with (r :: mvals (mdel g l)).
    rewrite waiting_cons. lia.
Qed.

Lemma waiting_filter cb (m : @PendingRoute callback -> bool) l :
  (waiting cb (mvals (List.filter (fun p => negb (m p.2)) l)) + waiting cb (List.filter m (mvals l)))%nat =
  waiting cb (mvals (l : list (Z * @PendingRoute callback))).
Proof.
  induction l as [|[k r] l IH]; [done|]. change (mvals ((k, r) :: l)) with (r :: mvals l).
  cbn [List.filter snd]. rewrite waiting_cons. destruct (m r); cbn [negb].
  - rewrite waiting_cons. lia.
  - change (mvals ((k, r) :: ?x)) with (r :: mvals x). rewrite waiting_cons. lia.
Qed.

(** A step that hands routes out. *)
Record hands_out (t : @PendingRouteTable callback) (out : list (@PendingRoute callback))
  (t' : @PendingRouteTable callback) : Prop := {
  ho_wf : routes_wf t';
  ho_ok : forall r, r ∈ out -> route_ok r;
  ho_next : pr_nextGlobalMessageId t' = pr_nextGlobalMessageId t;
  ho_count : forall cb, (pending cb t' + waiting cb out)%nat = pending cb t
}.

Lemma remove_hands_out g t : routes_wf t -> hands_out t (opt_list (remove g true t).1) (remove g true t).2.
Proof.
  intros [Hwf Hok]. split.
  - split; [by apply remove_wf|]. intros g' r. rewrite remove_get. case_decide; [done|]. apply Hok.
  - rewrite remove_out. intros r. destruct (get g t) eqn:E; [|by intros ?%not_elem_of_nil].
    intros ->%list_elem_of_singleton. by apply Hok in E.
  - apply remove_next.
  - intros cb. rewrite remove_out. unfold pending, get. rewrite <- (waiting_mdel cb g (pr_routes t)) by apply Hwf. f_equal.
    unfold remove. destruct (mget g (pr_routes t)) eqn:E; [done|]. cbn [snd].
    rewrite mdel_absent; [done|]. by apply mget_None_keys.
Qed.

Lemma clear_hands_out m t : routes_wf t -> hands_out t (clearMatching m t).1 (clearMatching m t).2.
Proof.
  intros [Hwf Hok]. pose proof (clearMatching_spec m t Hwf) as (H1 & H2 & H3 & _). split.
  - split; [by apply clearMatching_wf|]. intros g r. rewrite clearMatching_get by done.
    destruct (get g t) eqn:E; [|done]. case_match; [done|]. intros [= <-]. by apply Hok in E.
  - intros r Hr. apply clearMatching_removed in Hr as [_ Hr]; [|done]. by apply Hok in Hr.
  - done.
  - intros cb. unfold pending. rewrite H1, H2. apply waiting_filter.
Qed.

Lemma timer_hands_out tm t : routes_wf t -> hands_out t (opt_list (timer_fires tm t).1) (timer_fires tm t).2.
Proof.
  intros Hwf. destruct (mget tm (pr_timers t)) as [[g due]|] eqn:E.
  - rewrite (timer_fires_remove _ _ _ _ (rw_table _ Hwf) E). by apply remove_hands_out.
  - unfold timer_fires. rewrite E. split; [done|by intros r ?%not_elem_of_nil|done|]. intros cb. cbn. lia.
Qed.

(** One if the promise is the one that waits. *)
Lemma own_some (cb' cb : callback) : (if bool_decide (Some cb' = Some cb) then 1 else 0)%nat = own cb' cb.
Proof. unfold own. by rewrite (bool_decide_ext _ (cb' = cb)) by (split; congruence). Qed.

Lemma own_none (cb : callback) `{Decision (@None callback = Some cb)} :
  (if bool_decide (@None callback = Some cb) then 1 else 0)%nat = 0%nat.
Proof. by rewrite bool_decide_eq_false_2. Qed.

Lemma settled_resolve cb cb' v : settled cb [Resolve cb' v] = own cb' cb.
Proof. unfold settled, own. cbn. by destruct (bool_decide (cb' = cb)). Qed.

Lemma settled_rejected cb cb' e : settled cb [Reject cb' e] = own cb' cb.
Proof. unfold settled, own. cbn. by destruct (bool_decide (cb' = cb)). Qed.

(** Rejecting routes settles each waiting promise once. *)
Lemma settled_reject cb rs e : (forall r, r ∈ rs -> route_ok r) -> settled cb (rejectRoutes rs e) = waiting cb rs.
Proof.
  induction rs as [|r rs IH]; intros Hok; [done|]. cbn [rejectRoutes flat_map]. fold (rejectRoutes rs e).
  rewrite settled_app, waiting_cons, IH by (intros; apply Hok; by right). f_equal.
  destruct (Hok r (list_elem_of_here _ _)) as [Hr Hw]. fold (r_reject r) (r_resolve r) (r_kind r) in Hr, Hw.
  unfold route_rejects, waits. rewrite Hr. destruct (r_kind r).
  - destruct (r_resolve r) as [cb'|]; [by rewrite settled_rejected, own_some|by rewrite own_none].
  - by rewrite Hw, own_none.
Qed.

(** Routes of front ends hold no promise. *)
Lemma waiting_web cb rs : (forall r, r ∈ rs -> route_ok r /\ r_kind r = RWebSocket) -> waiting cb rs = 0%nat.
Proof.
  induction rs as [|r rs IH]; intros H; [done|]. rewrite waiting_cons, IH by (intros; apply H; by right).
  destruct (H r (list_elem_of_here _ _)) as [[_ Hw] Hk]. unfold waits. fold (r_resolve r) in Hw.
  by rewrite (Hw Hk), own_none.
Qed.

(** ** Effects that settle nothing *)

Definition quiet (es : list effect) : bool :=
  forallb (fun e => match e with Resolve _ _ | Reject _ _ => false | _ => true end) es.

Create HintDb quiet.

Lemma quiet_settled cb es : quiet es = true -> settled cb es = 0%nat.
Proof.
  unfold settled. induction es as [|e es IH]; [done|]. cbn. intros [He Hes]%andb_true_iff.
  destruct e; try done; by apply IH.
Qed.

Lemma quiet_app a b : quiet a = true -> quiet b = true -> quiet (a ++ b) = true.
Proof. unfold quiet. intros Ha Hb. by rewrite forallb_app, Ha, Hb. Qed.

Lemma quiet_map {A} (f : A -> effect) l : (forall x, quiet [f x] = true) -> quiet (List.map f l) = true.
Proof. intros H. induction l as [|x l IH]; [done|]. cbn [List.map]. apply (quiet_app [f x] _ (H x) IH). Qed.

Lemma quiet_flat_map {A} (f : A -> list effect) l : (forall x, quiet (f x) = true) -> quiet (flat_map f l) = true.
Proof. intros H. induction l as [|x l IH]; [done|]. cbn [flat_map]. by apply quiet_app. Qed.

Lemma quiet_broadcast e h : quiet (broadcast e h) = true.
Proof. unfold broadcast. by case_match. Qed.

Lemma quiet_toControl id e h : quiet (sendToControl id e h) = true.
Proof. unfold sendToControl. by case_match. Qed.

Lemma quiet_toWeb m h : quiet (sendMessageToWeb m h) = true.
Proof. unfold sendMessageToWeb. repeat case_match; try done. by apply quiet_map. Qed.

Lemma quiet_toWebClient id m h : quiet (sendMessageToWebClient id m h) = true.
Proof. unfold sendMessageToWebClient. by repeat case_match. Qed.

Lemma quiet_clientList h : quiet (host_sendClientList h) = true.
Proof. unfold host_sendClientList. case_match; [|done]. by apply quiet_map. Qed.

Lemma quiet_snapshot now h : quiet (sendSnapshot now h) = true.
Proof. apply quiet_broadcast. Qed.

Lemma quiet_snapshotTo ids now h : quiet (sendSnapshotTo ids now h) = true.
Proof. apply quiet_flat_map. intros. apply quiet_toControl. Qed.

Lemma quiet_publish now h : quiet (publishClientSnapshot now h) = true.
Proof. apply quiet_app; [apply quiet_clientList|apply quiet_snapshot]. Qed.

Lemma quiet_reports sent h : quiet (report_effects sent h) = true.
Proof. apply quiet_flat_map. intros. apply quiet_toControl. Qed.

Lemma quiet_phys es : quiet (List.map Phys es) = true.
Proof. by apply quiet_map. Qed.

Lemma quiet_closeWs es : quiet (List.map CloseWs es) = true.
Proof. by apply quiet_map. Qed.

#[export] Hint Resolve quiet_app quiet_broadcast quiet_toControl quiet_toWeb quiet_toWebClient quiet_clientList
  quiet_snapshot quiet_snapshotTo quiet_publish quiet_reports quiet_phys quiet_closeWs : quiet.

(** ** What operations leave alone *)

(** The consumers and what decides about the idle timer. *)
Definition consumers (h : Host) :=
  (h_activeControlIds h, h_activeWebSocketDriverIds h, h_idleTimer h, h_idleTimeoutHandler h, h_lifecycleStatus h,
   h_option h, h_daemonStopReason h).

(** Everything the invariants are about. *)
Definition core (h : Host) := (h_pendingRoutes h, h_memoizedQueryTable h, consumers h).

Record silent (h : Host) (r : list effect * Host) : Prop := {
  sl_quiet : quiet r.1 = true;
  sl_core : core r.2 = core h;
  sl_managers : h_enabledManagers r.2 = h_enabledManagers h
}.

Lemma silent_intro h es : quiet es = true -> silent h (es, h).
Proof. by split. Qed.

Lemma updateReportStatus_silent h : silent h (updateReportStatus h).
Proof. unfold updateReportStatus. destruct (updateStatus _ _ _). split; [apply quiet_reports|done|done]. Qed.

Lemma host_report_silent n m c h : silent h (host_report n m c h).
Proof. unfold host_report. destruct (report _ _ _ _ _). split; [apply quiet_reports|done|done]. Qed.

Lemma ensureClientWatcher_core d h :
  core (ensureClientWatcher d h).2 = core h /\ h_enabledManagers (ensureClientWatcher d h).2 = h_enabledManagers h.
Proof. unfold ensureClientWatcher. repeat case_match; done. Qed.

(** ** Managers *)

Definition managers_ok (active : list Z) (ms : list EnabledManager) : Prop :=
  forall m, m ∈ ms -> em_controlIds m <> [] /\ forall c, c ∈ em_controlIds m -> c ∈ active.

Lemma sadd_not_nil (x : Z) s : sadd x s <> [].
Proof. unfold sadd. case_decide as D; [intros ->; by apply not_elem_of_nil in D|]. by destruct s. Qed.

Lemma add_to_managers_ok key c active ms : c ∈ active -> managers_ok active ms ->
  managers_ok active (add_to_managers key c ms).2.
Proof.
  intros Hc. induction ms as [|m ms IH]; intros Hok; cbn [add_to_managers].
  { intros m ->%list_elem_of_singleton. cbn. split; [done|]. by intros ? ->%list_elem_of_singleton. }
  assert (managers_ok active ms) as Hms by (intros x Hx; apply Hok; by right).
  destruct (key_eqb (em_key m) key).
  - cbn. intros x [->|Hx]%elem_of_cons; [|by apply Hms]. cbn. split; [apply sadd_not_nil|].
    intros c'. rewrite elem_of_sadd. intros [->|Hc']; [done|]. by apply (Hok m (list_elem_of_here _ _)).
  - specialize (IH Hms). destruct (add_to_managers key c ms) as [new ms']. cbn in *.
    intros x [->|Hx]%elem_of_cons; [apply Hok; left|by apply IH].
Qed.

Lemma add_manager_spec key c auto sup h :
  quiet (add_manager key c auto sup h).1 = true /\ core (add_manager key c auto sup h).2 = core h /\
  h_enabledManagers (add_manager key c auto sup h).2 = (add_to_managers key c (h_enabledManagers h)).2.
Proof.
  unfold add_manager, addManagerControl. destruct (add_to_managers key c (h_enabledManagers h)) as [new ms].
  destruct (new && sup); [|done]. destruct (addDeviceManager _ _ _) as [e p] eqn:E. split; [apply quiet_phys|done].
Qed.

Lemma release_managers_ok c active ms : forall p, managers_ok active ms ->
  managers_ok (sdel c active) (release_managers c ms p).1.2.
Proof.
  induction ms as [|m ms IH]; intros p Hok; cbn [release_managers]; [by intros ? ?%not_elem_of_nil|].
  assert (managers_ok active ms) as Hms by (intros x Hx; apply Hok; by right).
  destruct (Hok m (list_elem_of_here _ _)) as [Hne Hin].
  destruct (shas c (em_controlIds m)) eqn:Es; cbn [negb].
  - destruct (sdel c (em_controlIds m)) as [|c0 rest] eqn:Ed.
    + destruct (close_manager (em_key m) p) as [e1 p1]. specialize (IH p1 Hms).
      by destruct (release_managers c ms p1) as [[e2 kept] p2].
    + specialize (IH p Hms). destruct (release_managers c ms p) as [[e2 kept] p2]. cbn in *.
      intros x [->|Hx]%elem_of_cons; [|by apply IH]. cbn. split; [done|]. rewrite <- Ed. intros c'.
      rewrite !elem_of_sdel. intros [? Hc']. split; [done|]. by apply Hin.
  - specialize (IH p Hms). destruct (release_managers c ms p) as [[e2 kept] p2]. cbn in *.
    intros x [->|Hx]%elem_of_cons; [|by apply IH]. split; [done|]. intros c' Hc'. apply elem_of_sdel.
    split; [|by apply Hin]. intros ->. unfold shas in Es. by apply bool_decide_eq_false in Es.
Qed.

(** ** Invariant *)

(** The idle timer is armed only while nobody uses the daemon, and whenever
    nobody does, unless the daemon was told to stop. *)
Record idle_ok (h : Host) : Prop := {
  id_armed : h_idleTimer h <> None -> isInUse h = false;
  id_live : h_lifecycleStatus h = ready -> h_idleTimeoutHandler h = true ->
    num_negative (ho_idleTimeout (h_option h)) = false -> isInUse h = false ->
    h_idleTimer h <> None \/ h_daemonStopReason h <> None
}.

Record host_inv (h : Host) : Prop := {
  hi_routes : routes_wf (h_pendingRoutes h);
  hi_idle : idle_ok h;
  hi_managers : managers_ok (h_activeControlIds h) (h_enabledManagers h)
}.

(** One step of the host: the invariant, at most one more route, and the promises
    that waited or were added are those that were settled or wait now. *)
Record step_fine (h : Host) (n : callback -> nat) (r : list effect * Host) : Prop := {
  sf_inv : host_inv r.2;
  sf_next : pr_nextGlobalMessageId (h_pendingRoutes h) <= pr_nextGlobalMessageId (h_pendingRoutes r.2)
            <= pr_nextGlobalMessageId (h_pendingRoutes h) + 1;
  sf_count : forall cb, (settled cb r.1 + pending cb (h_pendingRoutes r.2)
                         = pending cb (h_pendingRoutes h) + n cb)%nat
}.

(** No promise is added. *)
Definition step_closed (h : Host) (r : list effect * Host) : Prop := step_fine h (fun _ => 0%nat) r.
Arguments step_closed /.

Lemma idle_ok_consumers h h' : consumers h' = consumers h -> idle_ok h -> idle_ok h'.
Proof.
  unfold consumers. intros E [H1 H2].
  injection E as E1 E2 E3 E4 E5 E6 E7.
  assert (isInUse h' = isInUse h) as Eu by (unfold isInUse; by rewrite E1, E2).
  split; [by rewrite E3, Eu|]. rewrite E3, E4, E5, E6, E7, Eu. done.
Qed.

Lemma core_parts h h' : core h' = core h ->
  h_pendingRoutes h' = h_pendingRoutes h /\ h_memoizedQueryTable h' = h_memoizedQueryTable h /\
  consumers h' = consumers h /\ h_activeControlIds h' = h_activeControlIds h.
Proof.
  intros E. split; [exact (f_equal (fun x => x.1.1) E)|]. split; [exact (f_equal (fun x => x.1.2) E)|].
  pose proof (f_equal snd E) as E'. cbn in E'. split; [done|]. by injection E'.
Qed.

Lemma silent_fine h r : host_inv h -> silent h r -> step_closed h r.
Proof.
  intros [Hr Hi Hm] [Hq Hc Hms]. apply core_parts in Hc as (E1 & E2 & E3 & E4).
  split.
  - split; [by rewrite E1|by eapply idle_ok_consumers|]. by rewrite Hms, E4.
  - rewrite E1. lia.
  - intros cb. rewrite quiet_settled, E1 by done. lia.
Qed.

Lemma schedule_spec now h : (h_idleTimer h <> None -> isInUse h = false) ->
  idle_ok (scheduleIdleTimeoutIfNeeded now h) /\
  h_pendingRoutes (scheduleIdleTimeoutIfNeeded now h) = h_pendingRoutes h /\
  h_memoizedQueryTable (scheduleIdleTimeoutIfNeeded now h) = h_memoizedQueryTable h /\
  h_enabledManagers (scheduleIdleTimeoutIfNeeded now h) = h_enabledManagers h /\
  h_activeControlIds (scheduleIdleTimeoutIfNeeded now h) = h_activeControlIds h.
Proof.
  intros Harm. unfold scheduleIdleTimeoutIfNeeded.
  destruct (bool_decide (h_lifecycleStatus h = ready)) eqn:El; cbn [negb orb].
  2: { apply bool_decide_eq_false in El. split; [|done]. split; [done|congruence]. }
  destruct (h_idleTimeoutHandler h) eqn:Eh; cbn [negb].
  2: { split; [|done]. split; [done|congruence]. }
  destruct (num_negative (ho_idleTimeout (h_option h))) eqn:En; cbn [orb].
  { split; [|done]. split; [done|congruence]. }
  destruct (isInUse h) eqn:Eu.
  { split; [|done]. split; [intros Hx; specialize (Harm Hx); congruence|congruence]. }
  change (isInUse h) with (isInUse ((clearIdleTimeout h) <| h_idleTimer := Some (now + node_delay (ho_idleTimeout (h_option h))) |>)) in Eu.
  split; [|done]. split; [done|]. intros. by left.
Qed.

Lemma seq_ops_ok (P : Host -> Prop) ops :
  Forall (fun f => forall h, P h -> quiet (f h).1 = true /\ P (f h).2) ops ->
  forall h, P h -> quiet (seq_ops ops h).1 = true /\ P (seq_ops ops h).2.
Proof.
  induction 1 as [|f ops Hf _ IH]; intros h Hp; [done|]. cbn [seq_ops].
  destruct (Hf h Hp) as [Hq Hp1]. destruct (f h) as [e1 h1]. cbn [fst snd] in *.
  destruct (IH h1 Hp1) as [Hq2 Hp2]. destruct (seq_ops ops h1) as [e2 h2]. cbn [fst snd] in *.
  split; [by apply quiet_app|done].
Qed.

Lemma when_ok (P : Host -> Prop) b f :
  (forall h, P h -> quiet (f h).1 = true /\ P (f h).2) ->
  forall h, P h -> quiet (when b f h).1 = true /\ P (when b f h).2.
Proof. intros Hf h Hp. unfold when. destruct b; [by apply Hf|done]. Qed.

(** The part of a host a connecting control may change, with its managers. *)
Definition connecting (h0 h : Host) : Prop :=
  core h = core h0 /\ managers_ok (h_activeControlIds h0) (h_enabledManagers h).

Lemma connecting_add h0 key c auto sup : c ∈ h_activeControlIds h0 -> forall h, connecting h0 h ->
  quiet (add_manager key c auto sup h).1 = true /\ connecting h0 (add_manager key c auto sup h).2.
Proof.
  intros Hc h [H1 H2]. destruct (add_manager_spec key c auto sup h) as (Hq & Hk & Hm). split; [done|].
  split; [by rewrite Hk|]. rewrite Hm. by apply add_to_managers_ok.
Qed.

Lemma connecting_silent h0 h r : connecting h0 h -> silent h r -> quiet r.1 = true /\ connecting h0 r.2.
Proof. intros [H1 H2] [Hq Hk Hm]. split; [done|]. split; [by rewrite Hk|by rewrite Hm]. Qed.

Lemma connecting_managers h0 c option : c ∈ h_activeControlIds h0 -> forall h, connecting h0 h ->
  quiet (addPhysicalDeviceManagers c option h).1 = true /\ connecting h0 (addPhysicalDeviceManagers c option h).2.
Proof.
  intros Hc h Hh. unfold addPhysicalDeviceManagers. set (h1 := if truthy _ then _ else h).
  assert (connecting h0 h1) as Hh1 by (unfold h1; by case_match).
  apply (seq_ops_ok (connecting h0)); [|done].
  repeat (apply list.Forall_cons; split); try (apply when_ok; intros; by apply connecting_add). apply Forall_nil_2.
Qed.

Lemma connect_fine id rep facade now h : host_inv h -> step_closed h (handleControlConnected id rep facade now h).
Proof.
  intros [Hr Hi Hm]. unfold handleControlConnected.
  set (opt := Some (default default_facade_option facade)). set (manual := truthy (opt@."manualConnect")).
  set (h1 := h <| h_activeControlIds ::= sadd id |>).
  set (h2 := if manual then h1 else h1 <| h_autoConnectControlIds ::= sadd id |>).
  set (h3 := h2 <| h_physicalConnector ::= _ |>).
  set (h4 := if rep then _ else h3). set (h5 := clearIdleTimeout h4).
  assert (h_pendingRoutes h5 = h_pendingRoutes h /\ h_memoizedQueryTable h5 = h_memoizedQueryTable h /\
    h_activeControlIds h5 = sadd id (h_activeControlIds h) /\ h_enabledManagers h5 = h_enabledManagers h /\
    h_idleTimer h5 = None) as (F1 & F2 & F3 & F4 & F5).
  { unfold h5, h4, h3, h2, h1. by destruct manual, rep. }
  assert (isInUse h5 = true) as Fu.
  { unfold isInUse. rewrite F3, bool_decide_eq_false_2 by apply sadd_not_nil. done. }
  assert (id ∈ h_activeControlIds h5) as Hid by (rewrite F3; apply elem_of_sadd; by left).
  assert (connecting h5 h5) as Hc.
  { split; [done|]. rewrite F3, F4. intros m Hmm. destruct (Hm m Hmm) as [? Hs]. split; [done|].
    intros c ?%Hs. apply elem_of_sadd. by right. }
  clearbody h5. clear h4 h3 h2 h1.
  match goal with |- context [seq_ops ?ops h5] => pose proof (seq_ops_ok (connecting h5) ops) as Hops end.
  destruct Hops with (h := h5) as [Hq [Hk Hmo]]; [|done|].
  { repeat (apply list.Forall_cons; split); [|apply when_ok| | |apply when_ok|apply Forall_nil_2].
    - intros h' Hh'. eapply connecting_silent; [done|]. apply updateReportStatus_silent.
    - intros h' Hh'. eapply connecting_silent; [done|]. apply host_report_silent.
    - intros h' Hh'. cbn [fst snd]. split; [done|]. destruct Hh' as [X Y]. destruct (truthy (opt@."enableWebSocket")); (split; [exact X|exact Y]).
    - by apply connecting_managers.
    - intros h' Hh'. cbn [fst snd]. split; [apply quiet_phys|done]. }
  destruct (seq_ops _ h5) as [e1 h6]. cbn [fst snd] in *.
  apply core_parts in Hk as (K1 & K2 & K3 & Ha).
  split; cbn [fst snd].
  - split; [by rewrite K1, F1|eapply idle_ok_consumers; [done|]|by rewrite Ha].
    split; [by rewrite F5|by rewrite Fu].
  - rewrite K1, F1. lia.
  - intros cb. rewrite quiet_settled, K1, F1; [lia|]. apply quiet_app; [|done]. apply quiet_app; [apply quiet_snapshotTo|].
    destruct (ownership_greeting h5); [apply quiet_toControl|done].
Qed.

Lemma disconnect_fine id now h : host_inv h -> step_closed h (handleControlDisconnected id now h).
Proof.
  intros [Hr Hi Hm]. unfold handleControlDisconnected.
  set (h1 := h <| h_activeControlIds ::= sdel id |> <| h_autoConnectControlIds ::= sdel id |>).
  set (h2 := h1 <| h_physicalConnector ::= _ |> <| h_reportControlIds ::= sdel id |>).
  pose proof (updateReportStatus_silent h2) as [Hq2 Hc2 Hm2].
  destruct (updateReportStatus h2) as [e1 h3]. cbn [fst snd] in *. apply core_parts in Hc2 as (C1 & C2 & C3 & C4).
  unfold releasePhysicalDeviceManagers. hcbn. rewrite Hm2.
  change (h_enabledManagers h2) with (h_enabledManagers h).
  pose proof (release_managers_ok id (h_activeControlIds h) (h_enabledManagers h) (h_physicalConnector h3) Hm) as Hrel.
  destruct (release_managers id (h_enabledManagers h) (h_physicalConnector h3)) as [[e2 ms] p]. cbn [fst snd] in Hrel.
  hcbn. rewrite C1. change (h_pendingRoutes h2) with (h_pendingRoutes h).
  pose proof (clear_hands_out (fun r => bool_decide (r_kind r = RControl) && (r_requesterId r =? id)) _ Hr) as Hout.
  unfold clearByControlId. destruct (clearMatching _ (h_pendingRoutes h)) as [routes t]. cbn [fst snd] in Hout.
  match goal with |- context [scheduleIdleTimeoutIfNeeded now ?x] => set (h4 := x) end.
  destruct (schedule_spec now h4) as (Hid & S1 & S2 & S3 & S4).
  { change (h_idleTimer h4) with (h_idleTimer h3). unfold consumers in C3. injection C3 as A1 A2 A3 A4.
    rewrite A3. change (h_idleTimer h2) with (h_idleTimer h). intros Ht. apply (id_armed h Hi) in Ht.
    unfold isInUse in *. change (h_activeControlIds h4) with (h_activeControlIds h3).
    change (h_activeWebSocketDriverIds h4) with (h_activeWebSocketDriverIds h3). rewrite A1, A2.
    change (h_activeWebSocketDriverIds h2) with (h_activeWebSocketDriverIds h).
    change (h_activeControlIds h2) with (sdel id (h_activeControlIds h)).
    apply orb_false_iff in Ht as [Ht1 Ht2]. rewrite Ht2, orb_false_r. apply negb_false_iff, bool_decide_eq_true in Ht1.
    by rewrite Ht1. }
  split; cbn [fst snd].
  - split; [by rewrite S1; apply Hout|done|]. rewrite S3, S4.
    change (h_activeControlIds h4) with (h_activeControlIds h3). rewrite C4. exact Hrel.
  - rewrite S1. change (h_pendingRoutes h4) with t. rewrite (ho_next _ _ _ Hout). lia.
  - intros cb. rewrite S1. change (h_pendingRoutes h4) with t. rewrite !settled_app, !quiet_settled by auto with quiet.
    pose proof (ho_count _ _ _ Hout cb). pose proof (settled_reject cb routes (disconnected_error id) (ho_ok _ _ _ Hout)).
    lia.
Qed.

(** Operations that hand routes out and reject them, and are quiet otherwise. *)
Lemma rejecting_fine h h' routes e es1 es2 : host_inv h ->
  hands_out (h_pendingRoutes h) routes (h_pendingRoutes h') -> idle_ok h' ->
  h_enabledManagers h' = h_enabledManagers h -> h_activeControlIds h' = h_activeControlIds h ->
  quiet es1 = true -> quiet es2 = true ->
  step_closed h (es1 ++ rejectRoutes routes e ++ es2, h').
Proof.
  intros [Hr Hi Hm] Hout Hid Hms Ha Hq1 Hq2. split; cbn [fst snd].
  - split; [apply Hout|done|by rewrite Hms, Ha].
  - rewrite (ho_next _ _ _ Hout). lia.
  - intros cb. rewrite !settled_app, !(quiet_settled _ _ Hq1), !(quiet_settled _ _ Hq2).
    pose proof (ho_count _ _ _ Hout cb). pose proof (settled_reject cb routes e (ho_ok _ _ _ Hout)). lia.
Qed.

Lemma drop_runtime_spec id h : routes_wf (h_pendingRoutes h) ->
  exists routes, (drop_runtime id h).1 = rejectRoutes routes (runtime_gone id) /\
    hands_out (h_pendingRoutes h) routes (h_pendingRoutes (drop_runtime id h).2) /\
    consumers (drop_runtime id h).2 = consumers h /\
    h_enabledManagers (drop_runtime id h).2 = h_enabledManagers h.
Proof.
  intros Hr. unfold drop_runtime, clearByClientId. hcbn.
  pose proof (clear_hands_out (fun r => r_clientId r =? id) _ Hr) as Hout.
  destruct (clearMatching _ _) as [routes t]. cbn [fst snd] in *. hcbn. by exists routes.
Qed.

Lemma consumers_active h h' : consumers h' = consumers h -> h_activeControlIds h' = h_activeControlIds h.
Proof. unfold consumers. by injection 1. Qed.

Lemma runtime_gone_fine id h es : host_inv h -> quiet es = true ->
  step_closed h ((drop_runtime id h).1 ++ es, (drop_runtime id h).2).
Proof.
  intros Hinv Hq. destruct (drop_runtime_spec id h (hi_routes h Hinv)) as (routes & H1 & H2 & H3 & H4).
  rewrite H1. apply (rejecting_fine h _ routes (runtime_gone id) [] es); try done.
  - eapply idle_ok_consumers; [done|]. apply Hinv.
  - by apply consumers_active.
Qed.

Lemma client_disconnected_fine id now h : host_inv h -> step_closed h (handleClientDisconnected id now h).
Proof.
  intros Hinv. unfold handleClientDisconnected. destruct (legacyOwnershipAttached h); cbn [negb].
  - pose proof (runtime_gone_fine id h) as H. destruct (drop_runtime id h) as [e h'].
    apply H; [done|]. auto with quiet.
  - apply silent_fine; [done|by apply silent_intro].
Qed.

(** Losing the ownership clears all routes. *)
Lemma ownership_fine c now h : host_inv h -> step_closed h (handleLegacyOwnershipChanged c now h).
Proof.
  intros Hinv. unfold handleLegacyOwnershipChanged. set (h1 := h <| h_ownershipStatus := oc_status c |>).
  destruct (bool_decide (oc_status c = unattached)).
  - unfold handleLegacyOwnershipLost, clear. hcbn.
    pose proof (clear_hands_out (fun _ => true) _ (hi_routes h Hinv)) as Hout.
    change (h_pendingRoutes (clearAllClientWatcherStartState h1)) with (h_pendingRoutes h).
    destruct (clearMatching _ (h_pendingRoutes h)) as [routes t]. cbn [fst snd] in Hout.
    rewrite <- app_assoc. apply (rejecting_fine h _ routes preempted []); try done.
    + apply (idle_ok_consumers h); [done|apply Hinv].
    + repeat apply quiet_app; auto with quiet.
  - apply silent_fine; [done|]. split; [|done|done]. cbn [fst app]. auto with quiet.
Qed.

(** *** WebSocket clients *)

Lemma in_use_more h h' : consumers h' = consumers h -> isInUse h' = isInUse h.
Proof. unfold consumers, isInUse. intros E. injection E as E1 E2 E3 E4 E5 E6 E7. by rewrite E1, E2. Qed.

Lemma ws_connected_fine id driver now h : host_inv h -> step_closed h (handleWebSocketClientConnected id driver now h).
Proof.
  intros Hinv. unfold handleWebSocketClientConnected. destruct driver.
  - split; cbn [fst snd].
    + split; [apply Hinv| |apply Hinv]. split; [done|]. intros _ _ _ Hu. exfalso. revert Hu.
      unfold isInUse, clearIdleTimeout. hcbn. rewrite (bool_decide_eq_false_2 (sadd id _ = [])) by apply sadd_not_nil.
      cbn [negb]. by rewrite orb_true_r.
    + hcbn. unfold clearIdleTimeout. hcbn. lia.
    + intros cb. rewrite quiet_settled by auto with quiet. unfold clearIdleTimeout. hcbn. lia.
  - apply silent_fine; [done|]. apply silent_intro. auto with quiet.
Qed.

Lemma ws_disconnected_fine id driver now h : host_inv h -> step_closed h (handleWebSocketClientDisconnected id driver now h).
Proof.
  intros Hinv. unfold handleWebSocketClientDisconnected. destruct driver.
  - unfold clearByWebClientId. hcbn.
    pose proof (clear_hands_out (fun r => bool_decide (r_kind r = RWebSocket) && (r_requesterId r =? id)) _
      (hi_routes h Hinv)) as Hout.
    assert (forall r, r ∈ (clearMatching (fun r => bool_decide (r_kind r = RWebSocket) && (r_requesterId r =? id))
      (h_pendingRoutes h)).1 -> r_kind r = RWebSocket) as Hweb.
    { intros r [Hr _]%clearMatching_removed; [|apply Hinv]. apply andb_true_iff in Hr as [Hr _].
      by apply bool_decide_eq_true in Hr. }
    destruct (clearMatching _ (h_pendingRoutes h)) as [routes t]. cbn [fst snd] in Hout, Hweb.
    match goal with |- context [scheduleIdleTimeoutIfNeeded now ?x] => set (h4 := x) end.
    destruct (schedule_spec now h4) as (Hid & S1 & S2 & S3 & S4).
    { change (h_idleTimer h4) with (h_idleTimer h). intros Ht. apply (id_armed h (hi_idle h Hinv)) in Ht.
      unfold isInUse in *. change (h_activeControlIds h4) with (h_activeControlIds h).
      change (h_activeWebSocketDriverIds h4) with (sdel id (h_activeWebSocketDriverIds h)).
      apply orb_false_iff in Ht as [Ht1 Ht2]. rewrite Ht1. cbn [orb].
      apply negb_false_iff, bool_decide_eq_true in Ht2. by rewrite Ht2. }
    split; cbn [fst snd app].
    + split; [by rewrite S1; apply Hout|done|]. rewrite S3, S4. apply Hinv.
    + rewrite S1. change (h_pendingRoutes h4) with t. rewrite (ho_next _ _ _ Hout). lia.
    + intros cb. rewrite S1, quiet_settled by auto with quiet. change (h_pendingRoutes h4) with t.
      pose proof (ho_count _ _ _ Hout cb) as Hcount. rewrite waiting_web in Hcount; [lia|].
      intros r Hin. split; [by apply (ho_ok _ _ _ Hout)|by apply Hweb].
  - pose proof (runtime_gone_fine id h) as H. destruct (drop_runtime id h) as [e h'].
    apply H; [done|]. auto with quiet.
Qed.

(** Steps in sequence, none of which adds a route. *)
Lemma step_fine_ext h n n' r : step_fine h n r -> (forall cb, n cb = n' cb) -> step_fine h n' r.
Proof. intros [H1 H2 H3] Hn. split; [done|done|]. intros cb. specialize (H3 cb). specialize (Hn cb). lia. Qed.

Lemma step_fine_quiet h n es r es' : quiet es = true -> quiet es' = true -> step_fine h n r ->
  step_fine h n (es ++ r.1 ++ es', r.2).
Proof.
  intros Hq Hq' [H1 H2 H3]. split; [done|done|]. intros cb. cbn [fst snd].
  rewrite !settled_app, !(quiet_settled _ es), !(quiet_settled _ es') by done. specialize (H3 cb). lia.
Qed.

(** A host that differs in what the invariants do not mention. *)
Lemma step_fine_from h h0 n r : core h0 = core h -> h_enabledManagers h0 = h_enabledManagers h ->
  step_fine h0 n r -> step_fine h n r.
Proof.
  intros Hc Hm [H1 H2 H3]. apply core_parts in Hc as (E1 & _). rewrite E1 in *. by split.
Qed.

Lemma host_inv_from h h0 : core h0 = core h -> h_enabledManagers h0 = h_enabledManagers h -> host_inv h -> host_inv h0.
Proof.
  intros Hc Hm [H1 H2 H3]. apply core_parts in Hc as (E1 & _ & E3 & E4).
  split; [by rewrite E1|by eapply idle_ok_consumers|by rewrite Hm, E4].
Qed.

Lemma emit_fine e now h : host_inv h -> step_closed h (emit e now h).
Proof.
  intros Hinv. destruct e; cbn [emit];
    try (apply silent_fine; [done|]; apply silent_intro; apply quiet_flat_map; intros; apply quiet_toControl);
    try (by apply ws_connected_fine); try (by apply ws_disconnected_fine).
  apply silent_fine; [done|]. by apply silent_intro.
Qed.

Lemma ws_registered_fine i now h : host_inv h -> step_closed h (ws_registered i now h).
Proof.
  intros Hinv. unfold ws_registered. destruct (h_webSocketController h) as [c|].
  2: { apply silent_fine; [done|]. by apply silent_intro. }
  set (h0 := h <| h_webSocketController := _ |>).
  pose proof (emit_fine (if isDriver i then WsWebConnected i else WsAppConnected i) now h0) as He.
  destruct (emit _ now h0) as [e h1]. 
  apply (step_fine_from h h0); [done|done|].
  apply (step_fine_quiet h0 _ [SendWeb (wi_id i) (roomJoined c (wi_id i))] (e, h1) (host_sendClientList h1));
    [done|auto with quiet|]. apply He. by apply (host_inv_from h).
Qed.

(** Of the two removals of a closed socket the second finds the routes of the
    first. *)
Lemma ws_event_next e now h : host_inv h ->
  match e with WsAppDisconnected _ | WsWebDisconnected _ => True | _ => False end ->
  pr_nextGlobalMessageId (h_pendingRoutes (emit e now h).2) = pr_nextGlobalMessageId (h_pendingRoutes h).
Proof.
  intros Hinv He. destruct e as [| | | |id|id|]; try done; cbn [emit]; unfold handleWebSocketClientDisconnected.
  - destruct (drop_runtime_spec id h (hi_routes h Hinv)) as (routes & _ & H & _).
    destruct (drop_runtime id h) as [e h']. cbn [snd] in *. apply H.
  - unfold clearByWebClientId. hcbn.
    match goal with |- context [clearMatching ?m (h_pendingRoutes h)] =>
      pose proof (clear_hands_out m _ (hi_routes h Hinv)) as H; destruct (clearMatching m (h_pendingRoutes h)) as [routes t] end.
    cbn [fst snd] in *. unfold scheduleIdleTimeoutIfNeeded. repeat case_match; apply H.
Qed.

Lemma ws_closed_fine id now h : host_inv h -> step_closed h (ws_closed id now h).
Proof.
  intros Hinv. unfold ws_closed. destruct (h_webSocketController h) as [c|].
  2: { apply silent_fine; [done|]. by apply silent_intro. }
  destruct (handleDisconnect id c) as [[app web] c']. set (h0 := h <| h_webSocketController := _ |>).
  apply (step_fine_from h h0); [done|done|].
  assert (host_inv h0) as Hinv0 by (by apply (host_inv_from h)). clearbody h0. clear Hinv c c' h.
  set (r1 := if app then emit (WsAppDisconnected id) now h0 else ([], h0)).
  assert (step_closed h0 r1 /\
    pr_nextGlobalMessageId (h_pendingRoutes r1.2) = pr_nextGlobalMessageId (h_pendingRoutes h0)) as [F1 N1].
  { unfold r1. destruct app; [split; [by apply emit_fine|by apply ws_event_next]|].
    split; [|done]. apply silent_fine; [done|]. by apply silent_intro. }
  destruct r1 as [e1 h1]. cbn [snd] in N1. pose proof (sf_inv _ _ _ F1) as Hinv1. cbn [snd] in Hinv1.
  set (r2 := if web then emit (WsWebDisconnected id) now h1 else ([], h1)).
  assert (step_closed h1 r2 /\
    pr_nextGlobalMessageId (h_pendingRoutes r2.2) = pr_nextGlobalMessageId (h_pendingRoutes h1)) as [F2 N2].
  { unfold r2. destruct web; [split; [by apply emit_fine|by apply ws_event_next]|].
    split; [|done]. apply silent_fine; [done|]. by apply silent_intro. }
  destruct r2 as [e2 h2]. cbn [snd] in N2. split; cbn [fst snd].
  - apply (sf_inv _ _ _ F2).
  - lia.
  - intros cb. pose proof (sf_count _ _ _ F1 cb). pose proof (sf_count _ _ _ F2 cb). cbn [fst snd] in *.
    rewrite !settled_app, (quiet_settled _ (host_sendClientList h2)) by auto with quiet. lia.
Qed.

(** *** Requests *)

Definition one_if (b : bool) : nat := if b then 1 else 0.

Definition expects (target : PendingTargetSeed) (cb : callback) : nat :=
  one_if (bool_decide (ts_resolve target = Some cb)).

(** A seed becomes a route that is in order. *)
Definition seed_ok (target : PendingTargetSeed) : Prop :=
  ts_reject target = ts_resolve target /\ (ts_kind target = RWebSocket -> ts_resolve target = None).

Lemma target_driver_settled target id m v h cb : seed_ok target ->
  settled cb (sendMessageToTargetDriver target id m v h) = expects target cb.
Proof.
  intros [_ Hw]. unfold sendMessageToTargetDriver, expects, one_if. destruct (ts_kind target).
  - destruct (ts_resolve target) as [cb'|]; [by rewrite settled_resolve, own_some|].
    rewrite own_none. apply quiet_settled. auto with quiet.
  - rewrite Hw, own_none by done. apply quiet_settled. auto with quiet.
Qed.

(** A request that is neither answered nor remembered: the USB handshake of the
    daemon's own, a query that is pending already, a message that cannot be
    routed once it was copied. *)
Definition request_lost (id : Z) (m : outbound) (err : option thrown) (now : Z) (h : Host) : bool :=
  if negb (isAppClient id h) && negb (isUsbClient id h) then false
  else
    match (match m with Text s => parse s | Value v => Some (default JNull (cloneJsonValue (Some v))) end) with
    | None => false
    | Some data =>
        let d := rewrite_client_id (isAppClient id h) id data in
        isUsbHandshake data ||
        match (query id (Some d) now (h_memoizedQueryTable h)).1, err with
        | Pending, _ => true
        | Cached _ _, _ | _, Some _ => false
        | _, None => match getRoutableCustomizedPayload (Some d) with Some _ => false | None => true end
        end
    end.

(** The promise a request takes on. *)
Definition accepted (target : PendingTargetSeed) (lost : bool) (error : option thrown) (cb : callback) : nat :=
  match error with Some _ => 0 | None => if lost then 0 else expects target cb end.

(** What a request does to the routes: nothing, or one more that waits for the
    response of the requester. *)
Record request_fine (h : Host) (target : PendingTargetSeed) (lost : bool) (error : option thrown) (es : list effect)
  (h' : Host) : Prop := {
  rf_wf : routes_wf (h_pendingRoutes h');
  rf_next : pr_nextGlobalMessageId (h_pendingRoutes h) <= pr_nextGlobalMessageId (h_pendingRoutes h')
            <= pr_nextGlobalMessageId (h_pendingRoutes h) + 1;
  rf_consumers : consumers h' = consumers h;
  rf_managers : h_enabledManagers h' = h_enabledManagers h;
  rf_count : forall cb, (settled cb es + pending cb (h_pendingRoutes h')
    = pending cb (h_pendingRoutes h) + accepted target lost error cb)%nat
}.

Lemma request_nothing h target lost error h' es : routes_wf (h_pendingRoutes h) -> h_pendingRoutes h' = h_pendingRoutes h ->
  consumers h' = consumers h -> h_enabledManagers h' = h_enabledManagers h ->
  (forall cb, settled cb es = accepted target lost error cb) -> request_fine h target lost error es h'.
Proof.
  intros Hwf E Hc Hm Hs. split; [by rewrite E|rewrite E; lia|done|done|].
  intros cb. rewrite E. specialize (Hs cb). lia.
Qed.

Lemma add_next i now (t : @PendingRouteTable callback) : ids_left t ->
  pr_nextGlobalMessageId (add i now t).2 = pr_nextGlobalMessageId t + 1 /\
  get (pr_nextGlobalMessageId t) (add i now t).2 = Some (add i now t).1 /\
  r_globalMessageId (add i now t).1 = pr_nextGlobalMessageId t /\ r_input (add i now t).1 = i.
Proof.
  intros Hids. unfold ids_left in Hids. unfold add, createGlobalMessageId, createTimer, get.
  cbn [fst snd pr_routes pr_nextGlobalMessageId set_field eta eta_table r_globalMessageId r_input].
  rewrite mget_mset_eq. split; [|done]. apply js_succ_safe. lia.
Qed.

(** Adding a route and taking it away again. *)
Lemma add_take i now (t : @PendingRouteTable callback) : routes_wf t -> ids_left t -> input_ok i ->
  let t' := (take (r_globalMessageId (add i now t).1) (add i now t).2).2 in
  routes_wf t' /\ pr_nextGlobalMessageId t' = pr_nextGlobalMessageId t + 1 /\ forall cb, pending cb t' = pending cb t.
Proof.
  intros Hwf Hids Hi t'. destruct (add_routes i now t Hwf Hids Hi) as [Hwf1 Hc].
  destruct (add_next i now t Hids) as (Hn & Hg & Hgid & Hin).
  pose proof (remove_hands_out (r_globalMessageId (add i now t).1) _ Hwf1) as Hout.
  unfold t', take. split; [apply Hout|]. split; [by rewrite (ho_next _ _ _ Hout)|].
  intros cb. pose proof (ho_count _ _ _ Hout cb) as H. rewrite Hc, remove_out, Hgid, Hg in H.
  cbn [opt_list] in H. rewrite waiting_cons in H. unfold waits, r_resolve in H. rewrite Hin in H.
  change (waiting cb []) with 0%nat in H. rewrite Hgid in *. destruct (bool_decide (in_resolve i = Some cb)); lia.
Qed.

Lemma forward_fine id isApp decision data target err now h : routes_wf (h_pendingRoutes h) ->
  ids_left (h_pendingRoutes h) -> seed_ok target ->
  let '(error, es, h') := forward_to_runtime id isApp decision data target err now h in
  request_fine h target (match getRoutableCustomizedPayload (Some data) with Some _ => false | None => true end) error es h'.
Proof.
  intros Hwf Hids Ht. unfold forward_to_runtime, rewriteOutboundMessageData.
  assert (forall e, quiet [if isApp then SendApp id (stringify e) else SendUsb id e] = true) as Hq by (by destruct isApp).
  destruct (getRoutableCustomizedPayload (Some data)) as [c|] eqn:Er.
  2: { destruct err as [e|]; [apply request_nothing; try done; by destruct decision|].
       destruct decision; try (destruct (pending_query _ _ _));
         apply request_nothing; try done; intros cb; by rewrite quiet_settled. }
  assert (exists orig, getValidMessageId (Some (message c)) = Some orig) as [orig ->].
  { unfold getRoutableCustomizedPayload in Er. destruct (getCustomizedPayload (Some data)) as [c0|]; [|done].
    destruct (getValidMessageId (Some (message c0))) as [n|] eqn:En; [|done]. injection Er as <-. by exists n. }
  set (i := seed_input target orig). assert (input_ok i) as Hi by exact Ht.
  pose proof (add_routes i now _ Hwf Hids Hi) as [Hwf1 Hc1]. pose proof (add_next i now _ Hids) as (Hn & _).
  pose proof (add_take i now _ Hwf Hids Hi) as (Hwf2 & Hn2 & Hc2).
  destruct (add i now (h_pendingRoutes h)) as [route t]. cbn [fst snd] in *.
  destruct err as [e|].
  - destruct decision; (split; hcbn; [done|lia|done|done|intros cb; rewrite Hc2; cbn; lia]).
  - assert (forall cb, (settled cb [if isApp then SendApp id (stringify (writeCustomizedMessage c (NInt (r_globalMessageId route)) data))
        else SendUsb id (writeCustomizedMessage c (NInt (r_globalMessageId route)) data)] + pending cb t
        = pending cb (h_pendingRoutes h) + accepted target false None cb)%nat) as Hcount.
    { intros cb. rewrite quiet_settled by done. rewrite Hc1. unfold accepted, expects, one_if. cbn. lia. }
    destruct decision; hcbn; try (destruct (pending_query _ _ _));
      (split; hcbn; [done|lia|done|done|exact Hcount]).
Qed.

Lemma request_fine_at h h0 target lost error es h' :
  h_pendingRoutes h0 = h_pendingRoutes h -> consumers h0 = consumers h ->
  h_enabledManagers h0 = h_enabledManagers h -> request_fine h0 target lost error es h' ->
  request_fine h target lost error es h'.
Proof.
  intros E1 E2 Hm [H1 H2 H3 H4 H5]. rewrite E1 in *. split; [done|done|congruence|congruence|done].
Qed.

(** What is lost matters only when nothing was thrown. *)
Lemma request_fine_error h target lost lost' e es h' :
  request_fine h target lost (Some e) es h' -> request_fine h target lost' (Some e) es h'.
Proof. intros [H1 H2 H3 H4 H5]. by split. Qed.

Lemma forward_error id isApp decision data target e now h :
  exists h', forward_to_runtime id isApp decision data target (Some e) now h = (Some e, [], h').
Proof. unfold forward_to_runtime. destruct (rewriteOutboundMessageData _ _ _ _) as [[r d] h1]. by eexists. Qed.

Lemma send_fine id m target err now h : routes_wf (h_pendingRoutes h) -> ids_left (h_pendingRoutes h) -> seed_ok target ->
  let '(error, es, h') := sendMessageToRuntime id m target err now h in
  request_fine h target (request_lost id m err now h) error es h'.
Proof.
  intros Hwf Hids Ht. unfold sendMessageToRuntime, request_lost.
  destruct (negb _ && _); [by apply request_nothing|].
  destruct (match m with Text s => parse s | Value v => _ end) as [data|]; [|by apply request_nothing].
  destruct (isUsbHandshake data); [by apply request_nothing|]. cbn [orb].
  destruct (query _ _ _ _) as [decision t]. cbn [fst]. set (h0 := h <| h_memoizedQueryTable := t |>).
  set (d := rewrite_client_id (isAppClient id h) id data).
  assert (forall dec, let '(error, es, h') := forward_to_runtime id (isAppClient id h) dec d target err now h0 in
    request_fine h target (match err with Some _ => false | None =>
      match getRoutableCustomizedPayload (Some d) with Some _ => false | None => true end end) error es h') as Hf.
  { intros dec. pose proof (forward_fine id (isAppClient id h) dec d target err now h0 Hwf Hids Ht) as H.
    destruct err as [e|].
    - destruct (forward_error id (isAppClient id h) dec d target e now h0) as [h' E]. rewrite E in *.
      apply (request_fine_at h h0); [done|done|done|]. by eapply request_fine_error.
    - destruct (forward_to_runtime _ _ _ _ _ _ _ _) as [[error es] h']. by apply (request_fine_at h h0). }
  destruct decision as [|req| |msg v]; [apply (Hf NotMemoized)|apply (Hf (Forward req))| |].
  - by destruct err; apply request_nothing.
  - destruct err; (apply request_nothing; try done; intros cb; by apply target_driver_settled).
Qed.

Lemma request_step h target lost error es h' es' n : host_inv h -> request_fine h target lost error es h' ->
  (forall cb, settled cb es' + accepted target lost error cb = n cb)%nat -> step_fine h n (es ++ es', h').
Proof.
  intros [Hr Hi Hm] [H1 H2 H3 H4 H5] Hn. split; cbn [fst snd].
  - split; [done|by eapply idle_ok_consumers|]. by rewrite H4, (consumers_active _ _ H3).
  - done.
  - intros cb. rewrite settled_app. specialize (H5 cb). specialize (Hn cb). lia.
Qed.

(** A request that threw is not lost. *)
Lemma thrown_not_lost id m target err now h e :
  (sendMessageToRuntime id m target err now h).1.1 = Some e -> request_lost id m err now h = false.
Proof.
  unfold sendMessageToRuntime, request_lost. destruct (negb _ && _); [done|].
  destruct (match m with Text s => parse s | Value v => _ end) as [data|]; [|done].
  destruct (isUsbHandshake data); [done|]. cbn [orb]. destruct (query _ _ _ _) as [decision t]. cbn [fst].
  destruct decision as [|req| |msg v]; try done; (destruct err as [e'|]; [done|]);
    unfold forward_to_runtime, rewriteOutboundMessageData; repeat case_match; done.
Qed.

(** The request for a reply that nobody will answer. *)
Definition reply_lost (id : Z) (m : json) (err : option thrown) (now : Z) (h : Host) : bool :=
  match getRoutableCustomizedPayload (Some m) with
  | None => false
  | Some _ => request_lost id (Value m) err now h
  end.

Lemma with_reply_fine id m timeout controlId rpcId err now h : host_inv h -> ids_left (h_pendingRoutes h) ->
  step_fine h (fun cb => if reply_lost id m err now h then 0 else own (controlId, rpcId) cb)%nat
    (sendMessageWithReply id m timeout controlId rpcId err now h).
Proof.
  intros Hinv Hids. unfold sendMessageWithReply, reply_lost. destruct (getRoutableCustomizedPayload (Some m)).
  - set (target := mkSeed _ _ _ _ _ _).
    pose proof (send_fine id (Value m) target err now h (hi_routes h Hinv) Hids ltac:(by split)) as H.
    pose proof (thrown_not_lost id (Value m) target err now h) as Hl.
    destruct (sendMessageToRuntime _ _ _ _ _ _) as [[error es] h']. eapply request_step; [done|exact H|].
    intros cb. destruct error as [e|]; cbn [accepted].
    + rewrite settled_rejected, (Hl e) by done. lia.
    + unfold expects, one_if, target. cbn [ts_resolve]. rewrite own_some. by destruct (request_lost _ _ _ _ _).
  - set (target := mkSeed _ _ _ _ _ _).
    pose proof (send_fine id (Value m) target err now h (hi_routes h Hinv) Hids ltac:(by split)) as H.
    destruct (sendMessageToRuntime _ _ _ _ _ _) as [[error es] h']. eapply request_step; [done|exact H|].
    intros cb. rewrite settled_rejected. unfold accepted, expects, one_if, target. cbn [ts_resolve]. rewrite own_none.
    destruct error, (request_lost _ _ _ _ _); lia.
Qed.

(** *** Messages of runtimes *)

Lemma deliver_settled r v src h cb : route_ok r -> settled cb (deliver_routed r v src h) = one_if (waits cb r).
Proof.
  intros [_ Hw]. unfold deliver_routed, waits, one_if. fold (r_kind r) (r_resolve r) in Hw. destruct (r_kind r).
  - destruct (r_resolve r) as [cb'|]; [by rewrite settled_resolve, own_some|].
    rewrite own_none. apply quiet_settled. auto with quiet.
  - rewrite Hw, own_none by done. apply quiet_settled. auto with quiet.
Qed.

Lemma restore_spec v c id h : routes_wf (h_pendingRoutes h) ->
  let '(o, h') := restoreInboundMessage v c id h in
  hands_out (h_pendingRoutes h) (opt_list (fst <$> o)) (h_pendingRoutes h') /\
  consumers h' = consumers h /\ h_enabledManagers h' = h_enabledManagers h.
Proof.
  intros Hwf.
  assert (hands_out (h_pendingRoutes h) [] (h_pendingRoutes h)) as Hid.
  { split; [done|by intros ? ?%not_elem_of_nil|done|]. intros cb. cbn. lia. }
  unfold restoreInboundMessage. destruct (negb _); [done|]. destruct c as [c|]; [|done].
  destruct (_ ≫= num_key) as [g|]; [|done]. destruct (get g (h_pendingRoutes h)) as [r|] eqn:Eg; [|done].
  destruct (negb _); [done|]. unfold take. pose proof (remove_hands_out g _ Hwf) as Hout.
  destruct (remove g true (h_pendingRoutes h)) as [[taken|] t]; cbn [fst snd opt_list] in Hout; by hcbn.
Qed.

Lemma runtime_fine id text src now h : host_inv h -> step_closed h (handleRuntimeMessage id text src now h).
Proof.
  intros [Hr Hi Hm]. unfold handleRuntimeMessage.
  pose proof (restore_spec (parseJsonMessageOrNull text) (getCustomizedPayload (Some (parseJsonMessageOrNull text))) id h Hr) as H.
  destruct (restoreInboundMessage _ _ _ _) as [o h']. destruct H as (Hout & Hc & Hms).
  assert (host_inv h') as Hinv'.
  { split; [apply Hout|by eapply idle_ok_consumers|]. by rewrite Hms, (consumers_active _ _ Hc). }
  destruct o as [[r v]|]; cbn [fst fmap option_fmap option_map opt_list] in Hout.
  - split; cbn [fst snd]; [done|rewrite (ho_next _ _ _ Hout); lia|]. intros cb.
    pose proof (ho_count _ _ _ Hout cb) as H. rewrite waiting_cons in H. pose proof (deliver_settled r v src h' cb (ho_ok _ _ _ Hout r (list_elem_of_here _ _))) as Hd.
    unfold one_if in Hd. change (waiting cb []) with 0%nat in H. lia.
  - assert (forall es h'', quiet es = true -> core h'' = core h' \/
      (h_pendingRoutes h'' = h_pendingRoutes h' /\ consumers h'' = consumers h') ->
      h_enabledManagers h'' = h_enabledManagers h' -> step_closed h (es, h'')) as Hq.
    { intros es h'' Hes Hk Hms'.
      assert (h_pendingRoutes h'' = h_pendingRoutes h' /\ consumers h'' = consumers h') as [E1 E2].
      { destruct Hk as [Hk|Hk]; [|done]. by apply core_parts in Hk as (? & _ & ? & _). }
      split; cbn [fst snd].
      - destruct Hinv'. split; [by rewrite E1|by eapply idle_ok_consumers|]. by rewrite Hms', (consumers_active _ _ E2).
      - rewrite E1, (ho_next _ _ _ Hout). lia.
      - intros cb. rewrite quiet_settled, E1 by done. pose proof (ho_count _ _ _ Hout cb) as Hn.
        change (waiting cb []) with 0%nat in Hn. lia. }
    destruct (_ ≫= _) as [x|]; [apply Hq; [done|by left|done]|].
    apply Hq; [|by right|done]. destruct (h_enableWebSocket _); auto with quiet.
Qed.

Lemma usb_message_fine id text now h : host_inv h -> step_closed h (handleUsbClientMessage id text now h).
Proof.
  intros Hinv. unfold handleUsbClientMessage. destruct (negb _); [|by apply runtime_fine].
  apply silent_fine; [done|by apply silent_intro].
Qed.

Lemma timeout_fine tm e h : host_inv h -> step_closed h (route_timeout_fires tm e h).
Proof.
  intros [Hr Hi Hm]. unfold route_timeout_fires. pose proof (timer_hands_out tm _ Hr) as Hout.
  destruct (timer_fires tm (h_pendingRoutes h)) as [o t]. cbn [fst snd] in Hout. split; cbn [fst snd].
  - split; [apply Hout|by apply (idle_ok_consumers h)|done].
  - hcbn. rewrite (ho_next _ _ _ Hout). lia.
  - intros cb. hcbn. pose proof (ho_count _ _ _ Hout cb) as Hc. destruct o as [r|]; [|cbn in *; lia].
    cbn [mbind option_bind opt_list] in *. rewrite waiting_cons in Hc. unfold timeout_rejects.
    destruct (ho_ok _ _ _ Hout r (list_elem_of_here _ _)) as [Hrk Hw]. fold (r_kind r) (r_resolve r) (r_reject r) in Hrk, Hw.
    unfold waits in Hc. change (waiting cb []) with 0%nat in Hc. rewrite Hrk. destruct (r_kind r).
    + destruct (r_resolve r) as [cb'|]; [rewrite own_some in Hc; rewrite settled_rejected; lia|].
      rewrite own_none in Hc. cbn. lia.
    + rewrite Hw, own_none in Hc by done. cbn. lia.
Qed.

Lemma retry_fine tm err now h : host_inv h -> step_closed h (retry_fires tm err now h).
Proof.
  intros Hinv. unfold retry_fires. destruct (retry_begins _ _ _) as [[rt t]|].
  - destruct Hinv as [Hr Hi Hm]. split; cbn [fst snd].
    + split; [done|by apply (idle_ok_consumers h)|done].
    + hcbn. lia.
    + intros cb. hcbn. rewrite quiet_settled; [lia|]. by repeat case_match.
  - apply silent_fine; [done|by apply silent_intro].
Qed.

(** *** Events of the physical connector *)

Lemma phys_event_fine e now h : host_inv h -> step_closed h (handle_phys_event e now h) /\
  pr_nextGlobalMessageId (h_pendingRoutes (handle_phys_event e now h).2) = pr_nextGlobalMessageId (h_pendingRoutes h).
Proof.
  intros Hinv. destruct e as [d|d|c|id]; cbn [handle_phys_event].
  - unfold handleDeviceConnected. destruct (negb (legacyOwnershipAttached h)); [split; [apply silent_fine; [done|by apply silent_intro]|done]|].
    destruct (ensureClientWatcher_core (dv_serial d) h) as [Hc Hms].
    destruct (negb _); (split; [apply silent_fine; [done|]; split; cbn [fst snd]; auto with quiet|]); [|done].
    cbn [snd]. by apply core_parts in Hc as (-> & _).
  - unfold handleDeviceDisconnected. destruct (negb _); (split; [apply silent_fine; [done|]|done]); [by apply silent_intro|].
    split; cbn [fst snd]; auto with quiet.
  - unfold handleClientConnected. destruct (negb _); (split; [apply silent_fine; [done|]|done]); [by apply silent_intro|].
    split; cbn [fst snd]; auto with quiet.
  - split; [by apply client_disconnected_fine|]. unfold handleClientDisconnected. destruct (negb _); [done|].
    destruct (drop_runtime_spec id h (hi_routes h Hinv)) as (routes & _ & H & _).
    destruct (drop_runtime id h) as [e h']. cbn [snd] in *. apply H.
Qed.

Lemma phys_effects_fine es now : forall h, host_inv h -> step_closed h (handle_phys_effects es now h) /\
  pr_nextGlobalMessageId (h_pendingRoutes (handle_phys_effects es now h).2) = pr_nextGlobalMessageId (h_pendingRoutes h).
Proof.
  induction es as [|e es IH]; intros h Hinv; cbn [handle_phys_effects].
  { split; [|done]. apply silent_fine; [done|by apply silent_intro]. }
  assert (forall ev, step_closed h (let '(e1, h0) := handle_phys_event ev now h in
      let '(e2, h1) := handle_phys_effects es now h0 in (e1 ++ e2, h1)) /\
    pr_nextGlobalMessageId (h_pendingRoutes (let '(e1, h0) := handle_phys_event ev now h in
      let '(e2, h1) := handle_phys_effects es now h0 in (e1 ++ e2, h1)).2) = pr_nextGlobalMessageId (h_pendingRoutes h)) as Hev.
  { intros ev. destruct (phys_event_fine ev now h Hinv) as [F1 N1].
    destruct (handle_phys_event ev now h) as [e1 h1]. pose proof (sf_inv _ _ _ F1) as Hinv1. cbn [fst snd] in *.
    destruct (IH h1 Hinv1) as [F2 N2]. destruct (handle_phys_effects es now h1) as [e2 h2]. cbn [snd] in *.
    split; [|lia]. split; cbn [fst snd]; [apply (sf_inv _ _ _ F2)|lia|]. intros cb. rewrite settled_app.
    pose proof (sf_count _ _ _ F1 cb). pose proof (sf_count _ _ _ F2 cb). cbn [fst snd] in *. lia. }
  destruct (IH h Hinv) as [F N].
  destruct e; try apply Hev; (destruct (handle_phys_effects es now h) as [e2 h2]; split; [|done];
    destruct F as [F1 F2 F3]; split; [done|done|]; intros cb; specialize (F3 cb); cbn [fst snd] in *; exact F3).
Qed.

(** *** Control RPCs *)

Definition asks (controlId : Z) (q : ControlRpcRequest) (b : bool) (cb : callback) : nat :=
  if b then own (controlId, rq_id q) cb else 0.

Lemma settle_count cb cb' o : settled cb (settle cb' o) = if known o then own cb' cb else 0%nat.
Proof. destruct o; cbn [settle known]; by rewrite ?settled_resolve, ?settled_rejected. Qed.

(** A quiet operation followed by the answer of the request. *)
Lemma answered_fine h es h' o id q : host_inv h -> step_closed h (es, h') ->
  step_fine h (asks id q (known o)) (es ++ settle (id, rq_id q) o, h').
Proof.
  intros Hinv [H1 H2 H3]. split; [done|done|]. intros cb. cbn [fst snd] in *. rewrite settled_app, settle_count.
  specialize (H3 cb). unfold asks. lia.
Qed.

Lemma silent_answered h es h' o id q : host_inv h -> silent h (es, h') ->
  step_fine h (asks id q (known o)) (es ++ settle (id, rq_id q) o, h').
Proof. intros Hinv Hs. apply answered_fine; [done|]. by apply silent_fine. Qed.

Lemma shutdown_fine reason h id q : host_inv h ->
  let '(o, e, h') := requestDaemonShutdown reason h in
  step_fine h (asks id q true) (e ++ settle (id, rq_id q) o, h').
Proof.
  intros Hinv. unfold requestDaemonShutdown.
  destruct (negb (h_shutdownHandler h)); [by apply (silent_answered h [] h (Throws _)), silent_intro|].
  destruct (h_shutdownRequested h); [by apply (silent_answered h [] h (Returns _)), silent_intro|].
  apply (answered_fine h _ _ (Returns None)); [done|]. destruct Hinv as [Hr Hi Hm]. split; cbn [fst snd].
  - split; [done| |done]. split; [done|]. intros. by right.
  - unfold clearIdleTimeout. hcbn. lia.
  - intros cb. unfold clearIdleTimeout. hcbn. cbn. lia.
Qed.

Lemma startWS_fine now h id q : host_inv h ->
  let '(o, e, h') := startWSServer id now h in step_fine h (asks id q (known o)) (e ++ settle (id, rq_id q) o, h').
Proof.
  intros Hinv. unfold startWSServer.
  destruct (bool_decide _); [apply silent_answered; [done|by apply silent_intro]|].
  destruct (negb _); [apply silent_answered; [done|by apply silent_intro]|]. hcbn.
  destruct (h_webSocketServerStarted h).
  - destruct (h_webSocketServerInfo h); apply silent_answered; try done; split; cbn [fst snd]; auto with quiet.
  - apply silent_answered; [done|]. by split.
Qed.

Lemma add_network_fine id opt auto h : host_inv h -> id ∈ h_activeControlIds h ->
  step_closed h (addNetworkManager id opt auto h).
Proof.
  intros [Hr Hi Hm] Hid. unfold addNetworkManager.
  destruct (add_manager_spec (network_key opt) id auto true h) as (Hq & Hc & Hms).
  destruct (add_manager _ _ _ _ _) as [e h']. cbn [fst snd] in *. apply core_parts in Hc as (E1 & _ & E3 & E4).
  split; cbn [fst snd].
  - split; [by rewrite E1|by eapply idle_ok_consumers|]. rewrite Hms, E4. by apply add_to_managers_ok.
  - rewrite E1. lia.
  - intros cb. rewrite quiet_settled, E1 by done. lia.
Qed.

Lemma watcher_answered h o d id q : host_inv h ->
  step_fine h (asks id q (known o)) (settle (id, rq_id q) o, (ensureClientWatcher d h).2).
Proof.
  intros Hinv. destruct (ensureClientWatcher_core d h) as [Hc Hms].
  apply (silent_answered h [] _ o id q Hinv). by split.
Qed.

Lemma without_reply_fine toWeb cid m id err now h q : host_inv h -> ids_left (h_pendingRoutes h) ->
  let '(e, es, h') := sendMessageWithoutReply toWeb cid m id err now h in
  step_fine h (asks id q true) (es ++ settle (id, rq_id q) (match e with Some e => Throws e | None => Returns None end), h').
Proof.
  intros Hinv Hids. unfold sendMessageWithoutReply. destruct toWeb.
  - apply (silent_answered h _ h (Returns None)); [done|]. apply silent_intro. destruct (cid =? -1); auto with quiet.
  - set (target := mkSeed _ _ _ _ _ _).
    pose proof (send_fine cid (Text (match m with JStr s => s | v => stringify v end)) target
      err now h (hi_routes h Hinv) Hids ltac:(by split)) as H.
    destruct (sendMessageToRuntime _ _ _ _ _ _) as [[e es] h']. eapply request_step; [done|exact H|].
    intros cb. rewrite settle_count. unfold accepted, asks, expects, one_if, target. cbn [ts_resolve]. rewrite own_none.
    destruct e; cbn [known]; [lia|]. destruct (request_lost _ _ _ _ _); lia.
Qed.

(** A request that neither waits nor is answered. *)
Definition rpc_lost (q : ControlRpcRequest) (err : option thrown) (now : Z) (h : Host) : bool :=
  let params := Some (rq_params q) in
  match rq_method q, client_param params, params@."message" with
  | Protocol.sendMessageWithReply, Some id, Some m => reply_lost id m err now h
  | _, _, _ => false
  end.

(** The promises the host has to settle, now or through a route. *)
Definition rpc_taken (controlId : Z) (q : ControlRpcRequest) (err : option thrown) (now : Z) (h : Host) : bool :=
  match rpc_awaits controlId q now h with Some _ => false | None => negb (rpc_lost q err now h) end.

Lemma rpc_fine id q err now h : host_inv h -> ids_left (h_pendingRoutes h) -> id ∈ h_activeControlIds h ->
  step_fine h (asks id q (rpc_taken id q err now h)) (handleControlRpc id q err now h).
Proof.
  intros Hinv Hids Hid. pose proof (silent_intro h [] eq_refl) as Hnil.
  unfold handleControlRpc, rpc_taken, rpc_awaits, rpc_lost. destruct (rq_method q).
  - apply silent_fine; [done|]. apply silent_intro. apply quiet_phys.
  - unfold answer, connectUsbClients. destruct (negb _); [by apply (silent_answered h [] h (Returns _))|].
    pose proof (fun o => watcher_answered h o (str_param "deviceId" (Some (rq_params q))) id q Hinv) as H.
    destruct (ensureClientWatcher _ h) as [[|e|] h']; [apply (H Awaits)|apply (H (Throws e))|apply (H Awaits)].
  - destruct (add_network_fine id (Some (rq_params q)) true h Hinv Hid) as [H1 H2 H3].
    unfold answer_after. destruct (addNetworkManager _ _ _ _) as [e h']. cbn [fst snd] in *.
    destruct (addManagerControl _ _ _).1; [apply (answered_fine h e h' Awaits)|apply (answered_fine h e h' (Returns None))];
      try done; by split.
  - unfold answer, startWatchClient_rpc.
    pose proof (fun o => watcher_answered h o (str_param "deviceId" (Some (rq_params q))) id q Hinv) as H.
    destruct (ensureClientWatcher _ h) as [[|e|] h']; [apply (H (Returns None))|apply (H (Throws e))|apply (H Awaits)].
  - apply (silent_answered h _ _ (Returns None)); [done|]. unfold stopWatchClient. split; cbn [fst snd]; [by case_match|done|done].
  - apply (silent_answered h _ _ (Returns None)); [done|]. unfold disconnectDevice. split; cbn [fst snd]; [by case_match|done|done].
  - pose proof (shutdown_fine (opt_str_param "reason" (Some (rq_params q))) h id q Hinv) as H.
    by destruct (requestDaemonShutdown _ h) as [[o e] h'].
  - pose proof (startWS_fine now h id q Hinv) as H. destruct (startWSServer id now h) as [[o e] h']. cbn [fst snd].
    by destruct (known o).
  - apply silent_fine; [done|by apply silent_intro].
  - apply silent_fine; [done|by apply silent_intro].
  - destruct (client_param _) as [cid|]; [destruct (jget _ _) as [m|]|];
      [|by apply (silent_answered h [] h (Throws _))|by apply (silent_answered h [] h (Throws _))].
    eapply step_fine_ext; [by apply with_reply_fine|]. intros cb. unfold asks. by destruct (reply_lost _ _ _ _ _).
  - destruct (client_param _) as [cid|]; [destruct (jget (js "message") _) as [m|]|].
    + match goal with |- context [sendMessageWithoutReply ?w cid m id err now h] =>
        pose proof (without_reply_fine w cid m id err now h q Hinv Hids) as H;
        by destruct (sendMessageWithoutReply w cid m id err now h) as [[e es] h'] end.
    + destruct (jeq_str _ _); [by apply (silent_answered h [] h (Returns _))|by apply (silent_answered h [] h (Throws _))].
    + destruct (jeq_str _ _); [by apply (silent_answered h [] h (Returns _))|by apply (silent_answered h [] h (Throws _))].
  - apply (silent_answered h _ h (Returns None)); [done|]. apply silent_intro. destruct (client_param _) as [cid|]; [|done].
    unfold host_closeClient. repeat case_match; try done. apply quiet_phys.
Qed.

(** *** Every operation *)

Lemma idle_fires_fine h : host_inv h -> step_closed h (idle_timer_fires h).
Proof.
  intros Hinv. unfold idle_timer_fires. destruct (h_idleTimer h) as [due|] eqn:Et.
  2: { apply silent_fine; [done|by apply silent_intro]. }
  destruct Hinv as [Hr Hi Hm].
  assert (isInUse h = false) as Hu by (apply (id_armed h Hi); by rewrite Et).
  change (isInUse (h <| h_idleTimer := None |>)) with (isInUse h). rewrite Hu. split; cbn [fst snd].
  - split; [done| |done]. split; [done|]. intros. by right.
  - hcbn. lia.
  - intros cb. hcbn. rewrite quiet_settled; [lia|]. by case_match.
Qed.

(** The promise a step takes on. *)
Definition taken (op : host_op) (h : Host) (cb : callback) : nat :=
  match op with
  | HRpc id q err now => if shas id (h_activeControlIds h) then asks id q (rpc_taken id q err now h) cb else 0
  | _ => 0
  end.

Lemma host_step_fine op h : host_inv h -> ids_left (h_pendingRoutes h) ->
  step_fine h (taken op h) (host_step op h).
Proof.
  intros Hinv Hids. destruct op as [id rep f now|id now|id q err now|id text src now|web tgt text err now|i now|id now
    |e now|op now|c now|tm e|tm err now| |d a ok|info|info| ]; cbn [host_step taken].
  - by apply connect_fine.
  - by apply disconnect_fine.
  - destruct (shas id (h_activeControlIds h)) eqn:Es.
    + eapply step_fine_ext; [apply (rpc_fine id q err now); [done|done|]|].
      * unfold shas in Es. by apply bool_decide_eq_true in Es.
      * intros cb. unfold taken. by rewrite Es.
    + eapply step_fine_ext; [by apply silent_fine, silent_intro|]. intros cb. unfold taken. by rewrite Es.
  - destruct src; [by apply usb_message_fine|by apply runtime_fine..].
  - unfold handleWebSocketDriverMessage.
    set (target := mkSeed _ _ _ _ _ _).
    pose proof (send_fine tgt (Text text) target err now h (hi_routes h Hinv) Hids ltac:(by split)) as H.
    destruct (sendMessageToRuntime _ _ _ _ _ _) as [[error es] h']. rewrite <- (app_nil_r es).
    eapply request_step; [done|exact H|]. intros cb. unfold accepted, expects, one_if, target. cbn [ts_resolve].
    rewrite own_none. by destruct error, (request_lost _ _ _ _ _).
  - by apply ws_registered_fine.
  - by apply ws_closed_fine.
  - destruct e; try (by apply emit_fine); (apply silent_fine; [done|by apply silent_intro]).
  - destruct (registry_step op (h_physicalConnector h)) as [es p]. set (h0 := h <| h_physicalConnector := p |>).
    apply (step_fine_from h h0); [done|done|]. apply phys_effects_fine. by apply (host_inv_from h).
  - by apply ownership_fine.
  - by apply timeout_fine.
  - by apply retry_fine.
  - by apply idle_fires_fine.
  - apply silent_fine; [done|]. unfold attempt_ends. split; cbn [fst snd]; repeat case_match; done.
  - unfold ws_controller_created. 
    match goal with |- context [host_report ?a ?b ?c h] =>
      pose proof (host_report_silent a b c h) as [Hq Hc Hms]; destruct (host_report a b c h) as [e h'] end.
    apply silent_fine; [done|]. by split.
  - apply silent_fine; [done|]. by split.
  - apply silent_fine; [done|]. unfold ws_start_fails. split; cbn [fst snd]; [apply quiet_closeWs|done|done].
Qed.

(** ** Disconnection *)

Lemma quiet_elem es e : quiet es = true -> e ∈ es -> match e with Resolve _ _ | Reject _ _ => False | _ => True end.
Proof.
  intros Hq He. unfold quiet in Hq. rewrite forallb_forall in Hq. apply list_elem_of_In in He. apply Hq in He.
  by destruct e.
Qed.

(** What rejecting routes of control connections emits. *)
Lemma rejectRoutes_elem routes err : (forall r, r ∈ routes -> r_kind r = RControl) -> forall e,
  e ∈ rejectRoutes routes err <-> exists r cb, r ∈ routes /\ r_reject r = Some cb /\ e = Reject cb err.
Proof.
  intros Hk e. unfold rejectRoutes. rewrite list_elem_of_In, in_flat_map. split.
  - intros (r & Hr1%list_elem_of_In & He). unfold route_rejects in He.
    destruct (r_kind r); [|done]. destruct (r_reject r) as [cb|] eqn:Erj; [|done]. destruct He as [<-|[]].
    by exists r, cb.
  - intros (r & cb & Hr1 & Hrj & ->). exists r. split; [by apply list_elem_of_In|].
    unfold route_rejects. rewrite (Hk r Hr1), Hrj. by left.
Qed.

(** A connection that closes takes its own requests with it and nothing
    else: [handleControlDisconnected] removes exactly the routes that control
    asked for, and rejects exactly the promises among them. *)
Theorem disconnect_clears_own_routes id now h :
  routes_wf (h_pendingRoutes h) ->
  let '(effects, h') := handleControlDisconnected id now h in
  let own_route r := r_kind r = RControl /\ r_requesterId r = id in
  (forall g r, get g (h_pendingRoutes h') = Some r <-> get g (h_pendingRoutes h) = Some r /\ ~ own_route r) /\
  (forall cb e, Reject cb e ∈ effects <->
     e = disconnected_error id /\ exists g r, get g (h_pendingRoutes h) = Some r /\ own_route r /\ r_reject r = Some cb) /\
  (forall cb v, Resolve cb v ∉ effects).
Proof.
  intros Hr. unfold handleControlDisconnected.
  set (h1 := h <| h_activeControlIds ::= sdel id |> <| h_autoConnectControlIds ::= sdel id |>).
  set (h2 := h1 <| h_physicalConnector ::= _ |> <| h_reportControlIds ::= sdel id |>).
  pose proof (updateReportStatus_silent h2) as [Hq2 Hc2 _].
  destruct (updateReportStatus h2) as [e1 h3]. cbn [fst snd] in *. apply core_parts in Hc2 as (C1 & _).
  unfold releasePhysicalDeviceManagers. hcbn.
  destruct (release_managers id (h_enabledManagers h3) (h_physicalConnector h3)) as [[e2 ms] p]. hcbn. rewrite C1.
  change (h_pendingRoutes h2) with (h_pendingRoutes h). unfold clearByControlId.
  set (m := fun r => bool_decide (r_kind r = RControl) && (r_requesterId r =? id)).
  assert (forall r, m r = true <-> r_kind r = RControl /\ r_requesterId r = id) as Hm
    by (intros r; unfold m; rewrite andb_true_iff, bool_decide_eq_true, Z.eqb_eq; done).
  pose proof (fun g => clearMatching_get m (h_pendingRoutes h) g (rw_table _ Hr)) as Hget.
  pose proof (fun r => clearMatching_removed m (h_pendingRoutes h) r (rw_table _ Hr)) as Hout.
  destruct (clearMatching m (h_pendingRoutes h)) as [routes t]. cbn [fst snd] in *.
  assert (forall x, h_pendingRoutes (scheduleIdleTimeoutIfNeeded now x) = h_pendingRoutes x) as Hsch
    by (intros x; unfold scheduleIdleTimeoutIfNeeded; by repeat case_match).
  rewrite Hsch. hcbn.
  pose proof (rejectRoutes_elem routes (disconnected_error id)) as Hrej.
  assert (forall r, r ∈ routes -> r_kind r = RControl) as Hkind by (intros r [Hk%Hm _]%Hout; apply Hk).
  split; [|split].
  - intros g r. rewrite Hget. destruct (get g (h_pendingRoutes h)) as [r'|]; [|naive_solver].
    destruct (m r') eqn:E; [apply Hm in E|assert (~ (r_kind r' = RControl /\ r_requesterId r' = id)) by (rewrite <- Hm; congruence)];
      naive_solver.
  - intros cb e. rewrite !elem_of_app, Hrej by done. split.
    + intros [He|[He|(r & cb' & Hr1 & Hrj & [= -> ->])]].
      * by apply (quiet_elem _ _ Hq2) in He.
      * by apply (quiet_elem _ _ (quiet_phys e2)) in He.
      * apply Hout in Hr1 as [Hk Hg]. apply Hm in Hk. split; [done|]. by exists (r_globalMessageId r), r.
    + intros [-> (g & r & Hg & Hk & Hrj)]. right. right. exists r, cb. split; [|done]. apply Hout. split; [by apply Hm|].
      destruct (wf_route _ (rw_table _ Hr) _ _ Hg) as (-> & _). done.
  - intros cb v. rewrite !elem_of_app, Hrej by done. intros [He|[He|(r & cb' & _ & _ & [=])]].
    + by apply (quiet_elem _ _ Hq2) in He.
    + by apply (quiet_elem _ _ (quiet_phys e2)) in He.
Qed.

Lemma disconnect_clears_own_routes_example :
  exists e, Reject (5, NInt 100) e ∈ (handleControlDisconnected 5 3 demo_pending).1.
Proof.
  pose proof (disconnect_clears_own_routes 5 3 demo_pending) as H.
  destruct (handleControlDisconnected 5 3 demo_pending) as [effects h'].
  destruct H as (_ & H & _).
  - split; [apply demo_pending_wf|]. intros g r Hg. unfold get in Hg. cbn [mget] in Hg. vm_compute in Hg.
    destruct g as [|[]|]; try discriminate. injection Hg as <-. split; [reflexivity|discriminate].
  - eexists. apply H. split; [reflexivity|]. exists 1, demo_route.
    split; [vm_compute; reflexivity|]. split; [split; reflexivity|reflexivity].
Defined.
