(* ===== verification/DaemonRun.v ===== *)
(** * Runs of the daemon

    The host with the RPCs that wait: its operations and the continuations of
    its asynchronous methods in any order.  Every RPC of a run is accounted for,
    and the invariants of the host hold in all its states. *)

From Stdlib Require Import SpecFloat String.
From stdpp Require Import sets.
From S2P Require Import JsValue Json Protocol PendingRoutes MemoTable Message ReportBridge.
From S2P Require Import Ownership Physical WebSocket Host Routing HostRpc HostRun.

(** ** State and steps *)

Record Daemon := mkDaemon {
  d_host : Host;
  d_suspended : list (callback * await)      (* calls of [handleControlRpc] that wait *)
}.

Inductive daemon_op :=
  | DHost (op : host_op)
  | DResume (i : nat) (r : resumption) (now : Z).

(** The call a request starts, if it waits. *)
Definition started (op : host_op) (h : Host) : list (callback * await) :=
  match op with
  | HRpc id q _ now =>
      if shas id (h_activeControlIds h)
      then match rpc_awaits id q now h with Some a => [((id, rq_id q), a)] | None => [] end
      else []
  | _ => []
  end.

Definition daemon_step (op : daemon_op) (d : Daemon) : list effect * Daemon :=
  match op with
  | DHost op =>
      let '(es, h) := host_step op (d_host d) in (es, mkDaemon h (d_suspended d ++ started op (d_host d)))
  | DResume i r now =>
      match d_suspended d !! i with
      | None => ([], d)
      | Some (cb, a) =>
          let '(es, h, a') := resume cb a r now (d_host d) in
          (es, mkDaemon h (match a' with
                           | Some a' => <[i := (cb, a')]> (d_suspended d)
                           | None => delete i (d_suspended d)
                           end))
      end
  end.

Fixpoint daemon_run (ops : list daemon_op) (d : Daemon) : list effect * Daemon :=
  match ops with
  | [] => ([], d)
  | op :: ops' =>
      let '(e1, d) := daemon_step op d in
      let '(e2, d) := daemon_run ops' d in (e1 ++ e2, d)
  end.

(** ** The account of promises *)

Definition suspended (cb : callback) (l : list (callback * await)) : nat :=
  List.length (List.filter (fun q => bool_decide (q.1 = cb)) l).

(** The requests for a promise that a step serves, and those among them that
    are lost. *)
Definition served (cb : callback) (op : daemon_op) (d : Daemon) : nat :=
  match op with
  | DHost (HRpc id q _ _) => if shas id (h_activeControlIds (d_host d)) then own (id, rq_id q) cb else 0
  | _ => 0
  end.

Definition lost (cb : callback) (op : daemon_op) (d : Daemon) : nat :=
  match op with
  | DHost (HRpc id q err now) =>
      if shas id (h_activeControlIds (d_host d)) && rpc_lost q err now (d_host d) then own (id, rq_id q) cb else 0
  | _ => 0
  end.

(** A count over a run. *)
Fixpoint total (count : callback -> daemon_op -> Daemon -> nat) (cb : callback) (ops : list daemon_op) (d : Daemon) : nat :=
  match ops with
  | [] => 0
  | op :: ops' => count cb op d + total count cb ops' (daemon_step op d).2
  end.

Lemma suspended_app cb a b : suspended cb (a ++ b) = (suspended cb a + suspended cb b)%nat.
Proof. unfold suspended. by rewrite List.filter_app, length_app. Qed.

Lemma suspended_cons cb q l : suspended cb (q :: l) = (own q.1 cb + suspended cb l)%nat.
Proof. unfold suspended, own. cbn. by destruct (bool_decide (q.1 = cb)). Qed.

Lemma suspended_delete cb i q l : l !! i = Some q ->
  (own q.1 cb + suspended cb (delete i l))%nat = suspended cb l.
Proof.
  intros H. rewrite <- (take_drop_middle l i q H) at 2. rewrite delete_take_drop, !suspended_app, suspended_cons. lia.
Qed.

Lemma suspended_insert cb i q q' l : l !! i = Some q -> q'.1 = q.1 ->
  suspended cb (<[i := q']> l) = suspended cb l.
Proof.
  intros H E. assert (i < List.length l)%nat as Hi by (by apply lookup_lt_Some in H).
  rewrite <- (take_drop_middle l i q H) at 2. rewrite insert_take_drop by done.
  by rewrite !suspended_app, !suspended_cons, E.
Qed.

(** A step keeps the invariant, adds at most one route, and every promise that
    was owed before it or that it serves is settled, owed or lost after it. *)
Definition owed (cb : callback) (d : Daemon) : nat :=
  pending cb (h_pendingRoutes (d_host d)) + suspended cb (d_suspended d).

Record daemon_fine (d : Daemon) (gain loss : callback -> nat) (r : list effect * Daemon) : Prop := {
  df_inv : host_inv (d_host r.2);
  df_next : pr_nextGlobalMessageId (h_pendingRoutes (d_host d)) <= pr_nextGlobalMessageId (h_pendingRoutes (d_host r.2))
            <= pr_nextGlobalMessageId (h_pendingRoutes (d_host d)) + 1;
  df_count : forall cb, (settled cb r.1 + owed cb r.2 + loss cb = owed cb d + gain cb)%nat
}.

Lemma ensure_all_core ds h :
  core (ensure_all ds h).2 = core h /\ h_enabledManagers (ensure_all ds h).2 = h_enabledManagers h.
Proof.
  unfold ensure_all. change h with ((@nil watch_outcome, h).2) at 2 4. generalize (@nil watch_outcome, h).
  induction ds as [|d ds IH]; intros acc; [done|]. cbn [fold_left].
  destruct (ensureClientWatcher_core d acc.2) as [H1 H2]. destruct (ensureClientWatcher d acc.2) as [o h1].
  destruct (IH (acc.1 ++ [o], h1)) as [H3 H4]. cbn [snd] in *. split; [by rewrite H3|by rewrite H4].
Qed.

(** A continuation settles its promise or leaves the call waiting. *)
Record resumed (cb : callback) (h : Host) (r : list effect * Host * option await) : Prop := {
  rs_core : core r.1.2 = core h;
  rs_managers : h_enabledManagers r.1.2 = h_enabledManagers h;
  rs_count : forall cb', (settled cb' r.1.1 + match r.2 with Some _ => own cb cb' | None => 0 end = own cb cb')%nat
}.

Lemma resumed_waits cb h h' a : core h' = core h -> h_enabledManagers h' = h_enabledManagers h ->
  resumed cb h ([], h', Some a).
Proof. intros. by split. Qed.

Lemma resumed_settles cb h h' es o : core h' = core h -> h_enabledManagers h' = h_enabledManagers h ->
  quiet es = true -> known o = true -> resumed cb h (es ++ settle cb o, h', None).
Proof.
  intros Hc Hm Hq Hk. split; [done|done|]. intros cb'. cbn [fst snd].
  rewrite settled_app, quiet_settled, settle_count, Hk by done. lia.
Qed.

Lemma found_resumed cb h cs now : resumed cb h (connectUsbClients_found cb cs now h, h, None).
Proof. apply (resumed_settles cb h h _ (Returns (Some (serializeClients cs)))); auto with quiet. Qed.

Lemma resume_spec cb a r now h : resumed cb h (resume cb a r now h).
Proof.
  pose proof (fun es o => resumed_settles cb h h es o eq_refl eq_refl) as Hset.
  pose proof (fun a => resumed_waits cb h h a eq_refl eq_refl) as Hwait.
  destruct a as [params|serial|params|params| | | | | ], r as [|e|dv|c| |info]; cbn [resume];
    try (by apply Hwait); try (by apply (Hset [] (Throws e))); try (by apply (Hset [] (Returns None))).
  - unfold connectDevices_listening. destruct (getDevices _ _ _); [|by apply Hwait]. by apply (Hset [] (Returns (Some _))).
  - destruct (device_arrives _ _); [|by apply Hwait]. by apply (Hset [] (Returns (Some _))).
  - by apply (Hset [] (Returns (Some _))).
  - unfold connectUsbClients_watched. destruct (usb_lookup params h) as [[cs|]|]; [apply found_resumed|by apply Hwait|].
    by apply (Hset [] (Throws _)).
  - destruct (client_found _ _); [apply found_resumed|by apply Hwait].
  - destruct (clients_at_timeout _ _); [apply found_resumed|by apply Hwait].
  - unfold startWatchAllClients_owned, ensureAllClientWatchers.
    destruct (ensure_all_core (mkeys (pc_devices (h_physicalConnector h))) h) as [H1 H2].
    destruct (ensure_all _ h) as [os h']. cbn [snd] in *.
    destruct (List.find _ os) as [[|e|]|]; try (by apply resumed_waits). by apply (resumed_settles cb h h' [] (Throws e)).
  - apply Hset; auto with quiet.
  - apply resumed_settles; auto with quiet.
  - by apply (resumed_settles cb h _ [] (Throws e)).
  - apply (Hset _ (Returns (Some _))); auto with quiet.
Qed.

(** ** Runs *)

Lemma host_part op d : host_inv (d_host d) -> ids_left (h_pendingRoutes (d_host d)) ->
  daemon_fine d (fun cb => served cb (DHost op) d) (fun cb => lost cb (DHost op) d) (daemon_step (DHost op) d).
Proof.
  intros Hinv Hids. cbn [daemon_step]. pose proof (host_step_fine op (d_host d) Hinv Hids) as [H1 H2 H3].
  destruct (host_step op (d_host d)) as [es h]. cbn [fst snd] in *. split; cbn [fst snd d_host]; [done|done|].
  intros cb. specialize (H3 cb). unfold owed. cbn [d_host d_suspended]. rewrite suspended_app.
  assert (suspended cb (started op (d_host d)) + taken op (d_host d) cb + lost cb (DHost op) d =
    served cb (DHost op) d)%nat; [|lia].
  destruct op; try done. cbn [started taken lost served]. destruct (shas _ _); [|done]. cbn [andb].
  unfold asks, rpc_taken. destruct (rpc_awaits controlId q now (d_host d)) eqn:Ea.
  - rewrite suspended_cons. assert (rpc_lost q sendError now (d_host d) = false) as ->.
    { unfold rpc_awaits in Ea. unfold rpc_lost. by destruct (rq_method q). }
    change (suspended cb []) with 0%nat. cbn [fst]. lia.
  - change (suspended cb []) with 0%nat. destruct (rpc_lost _ _ _ _); cbn [negb]; lia.
Qed.

Lemma resume_part i r now d : host_inv (d_host d) ->
  daemon_fine d (fun _ => 0%nat) (fun _ => 0%nat) (daemon_step (DResume i r now) d).
Proof.
  intros Hinv. cbn [daemon_step]. destruct (d_suspended d !! i) as [[cb a]|] eqn:El.
  2: { split; cbn [fst snd]; [done|lia|]. intros cb. cbn. lia. }
  destruct (resume_spec cb a r now (d_host d)) as [H1 H2 H3]. destruct (resume cb a r now (d_host d)) as [[es h] a'].
  cbn [fst snd] in *. pose proof H1 as H1'. apply core_parts in H1 as (E1 & _).
  split; cbn [fst snd d_host]; [by apply (host_inv_from (d_host d))|rewrite E1; lia|].
  intros cb'. specialize (H3 cb'). unfold owed. cbn [d_host d_suspended]. rewrite E1. destruct a' as [a'|].
  - rewrite (suspended_insert cb' i (cb, a)) by done. lia.
  - pose proof (suspended_delete cb' i (cb, a) (d_suspended d) El) as Hs. cbn [fst] in Hs. lia.
Qed.

Lemma daemon_step_fine op d : host_inv (d_host d) -> ids_left (h_pendingRoutes (d_host d)) ->
  daemon_fine d (fun cb => served cb op d) (fun cb => lost cb op d) (daemon_step op d).
Proof. intros Hinv Hids. destruct op; [by apply host_part|by apply resume_part]. Qed.

Lemma daemon_run_fine ops : forall d, host_inv (d_host d) ->
  pr_nextGlobalMessageId (h_pendingRoutes (d_host d)) + Z.of_nat (List.length ops) <= MAX_SAFE ->
  let '(es, d') := daemon_run ops d in
  host_inv (d_host d') /\
  forall cb, (settled cb es + owed cb d' + total lost cb ops d = owed cb d + total served cb ops d)%nat.
Proof.
  induction ops as [|op ops IH]; intros d Hinv Hb; cbn [daemon_run].
  { split; [done|]. intros cb. cbn. lia. }
  cbn [List.length] in Hb. destruct (daemon_step_fine op d Hinv) as [H1 H2 H3]; [unfold ids_left; lia|].
  cbn [total]. destruct (daemon_step op d) as [e1 d1]. cbn [fst snd] in *.
  specialize (IH d1 H1 ltac:(lia)). destruct (daemon_run ops d1) as [e2 d2]. destruct IH as [I1 I2].
  split; [done|]. intros cb. rewrite settled_app. specialize (H3 cb). specialize (I2 cb). lia.
Qed.

(** ** What a started daemon guarantees *)

(** The host after [start], with the handlers of the daemon's entry point. *)
Definition ready_host (o : HostOption) (now : Z) : Host :=
  start_ends_host now (control_server_started (start_host (setShutdownHandler (setIdleTimeoutHandler (new_host o)))).2).

Lemma ready_host_inv o now : host_inv (ready_host o now) /\ h_pendingRoutes (ready_host o now) = new_table None.
Proof.
  unfold ready_host, start_ends_host.
  set (h0 := control_server_started _). assert (h_lifecycleStatus h0 = uninitialized) as -> by done.
  match goal with |- context [scheduleIdleTimeoutIfNeeded now ?x] =>
    destruct (schedule_spec now x) as (H1 & H2 & H3 & H4 & H5); [done|] end.
  split; [|done]. split; [rewrite H2; apply new_routes_wf|done|]. rewrite H4. by intros ? ?%not_elem_of_nil.
Qed.

Definition ready_daemon (o : HostOption) (now : Z) : Daemon := mkDaemon (ready_host o now) [].

Lemma ready_daemon_inv o now : host_inv (d_host (ready_daemon o now)) /\
  forall cb, pr_nextGlobalMessageId (h_pendingRoutes (d_host (ready_daemon o now))) = 1 /\ owed cb (ready_daemon o now) = 0%nat.
Proof.
  destruct (ready_host_inv o now) as [Hinv Hn]. unfold owed, ready_daemon. cbn [d_host d_suspended]. rewrite Hn. by split.
Qed.

Lemma run_inv ops o now : Z.of_nat (List.length ops) < MAX_SAFE ->
  let '(es, d) := daemon_run ops (ready_daemon o now) in
  host_inv (d_host d) /\
  forall cb, (settled cb es + owed cb d + total lost cb ops (ready_daemon o now) = total served cb ops (ready_daemon o now))%nat.
Proof.
  intros Hl. destruct (ready_daemon_inv o now) as [Hinv Hn].
  pose proof (daemon_run_fine ops (ready_daemon o now) Hinv) as H. rewrite (proj1 (Hn (0%Z, NInt 0))) in H.
  specialize (H ltac:(lia)). destruct (daemon_run ops (ready_daemon o now)) as [es d]. destruct H as [H1 H2].
  split; [done|]. intros cb. specialize (H2 cb). by rewrite (proj2 (Hn cb)) in H2.
Qed.

(** C2: Every RPC is accounted for.  In any sequence of connections,
    disconnections, requests, messages of runtimes and front ends, timeouts,
    device events, ownership changes, retries and continuations of calls that
    wait, each request for a promise was answered once, waits in the route table
    for a response or a timeout, is a call that waits, or was lost; a request is
    lost only as a message for a reply that the host does not forward.  So a
    request with an id of its own is never answered twice, whatever response,
    timeout, disconnection and preemption race for it. *)
Theorem rpc_accounted ops o now cb :
  Z.of_nat (List.length ops) < MAX_SAFE ->
  let d0 := ready_daemon o now in
  let '(es, d) := daemon_run ops d0 in
  (settled cb es + pending cb (h_pendingRoutes (d_host d)) + suspended cb (d_suspended d) + total lost cb ops d0
   = total served cb ops d0)%nat /\
  (total served cb ops d0 <= 1 -> settled cb es <= 1)%nat.
Proof.
  intros Hl d0. pose proof (run_inv ops o now Hl) as H. fold d0 in H. destruct (daemon_run ops d0) as [es d].
  destruct H as [_ H]. specialize (H cb). unfold owed in H. split; lia.
Qed.

(** C12: The daemon stops when, and only when, nobody uses it.  In every state of
    a run, an armed idle timer means that no control connection and no front
    end is connected; and whenever none is, a daemon whose idle timeout is not
    disabled has the timer armed or has been told to stop. *)
Theorem idle_timer_tracks_use ops o now :
  Z.of_nat (List.length ops) < MAX_SAFE ->
  let h := d_host (daemon_run ops (ready_daemon o now)).2 in
  (h_idleTimer h <> None -> h_activeControlIds h = [] /\ h_activeWebSocketDriverIds h = []) /\
  (h_lifecycleStatus h = ready -> h_idleTimeoutHandler h = true ->
   num_negative (ho_idleTimeout (h_option h)) = false ->
   h_activeControlIds h = [] -> h_activeWebSocketDriverIds h = [] ->
   h_idleTimer h <> None \/ h_daemonStopReason h <> None).
Proof.
  intros Hl h. pose proof (run_inv ops o now Hl) as H. unfold h. destruct (daemon_run _ _) as [es d].
  destruct H as [[_ [H1 H2] _] _]. cbn [snd] in *. clear h. split.
  - intros Ht. apply H1 in Ht. unfold isInUse in Ht. apply orb_false_iff in Ht as [Ha Hb].
    by apply negb_false_iff, bool_decide_eq_true in Ha, Hb.
  - intros Hs Hh Hn Ha Hb. apply H2; try done. unfold isInUse. by rewrite Ha, Hb.
Qed.

(** C37: What becomes of a request for a reply whose query is already pending for
    the runtime depends on its inner message id.  In both cases the host sends
    nothing to the runtime and registers no route and no timeout.  A query without
    a routable id, as the design has them, is answered at once with the
    not-routable error.  One that carries a routable id is never answered by the
    daemon: nothing that happens later settles the promise of the RPC, unless the
    connector uses the id of that RPC again, and the connector is left to its own
    timeout. *)
Theorem coalesced_reply_hangs id m timeout controlId rpcId now h data t calls ops :
  host_inv h -> suspended (controlId, rpcId) calls = 0%nat -> pending (controlId, rpcId) (h_pendingRoutes h) = 0%nat ->
  pr_nextGlobalMessageId (h_pendingRoutes h) + Z.of_nat (List.length ops) <= MAX_SAFE ->
  isAppClient id h || isUsbClient id h = true ->
  default JNull (cloneJsonValue (Some m)) = data -> isUsbHandshake data = false ->
  query id (Some (rewrite_client_id (isAppClient id h) id data)) now (h_memoizedQueryTable h) = (Pending, t) ->
  let '(effects, h') := sendMessageWithReply id m timeout controlId rpcId None now h in
  h_pendingRoutes h' = h_pendingRoutes h /\
  match getRoutableCustomizedPayload (Some m) with
  | None => effects = [Reject (controlId, rpcId) not_routable]
  | Some _ =>
      effects = [] /\
      (total served (controlId, rpcId) ops (mkDaemon h' calls) = 0%nat ->
       settled (controlId, rpcId) (daemon_run ops (mkDaemon h' calls)).1 = 0%nat)
  end.
Proof.
  intros Hinv Hs Hp Hb Hc Hd Hu Hq. unfold Routing.sendMessageWithReply.
  assert (negb (isAppClient id h) && negb (isUsbClient id h) = false) as Hn
    by (destruct (isAppClient id h), (isUsbClient id h); done).
  destruct (getRoutableCustomizedPayload (Some m)); unfold sendMessageToRuntime; rewrite Hn, Hd, Hu, Hq; [|done].
  set (h' := h <| h_memoizedQueryTable := t |>). split; [done|]. split; [done|].
  assert (host_inv h') as Hinv'.
  { destruct Hinv. split; [done|by apply (idle_ok_consumers h)|done]. }
  intros Hi. pose proof (daemon_run_fine ops (mkDaemon h' calls) Hinv' Hb) as H.
  destruct (daemon_run ops (mkDaemon h' calls)) as [es d]. destruct H as [_ H]. specialize (H (controlId, rpcId)).
  rewrite Hi in H. unfold owed at 2 in H. cbn [d_host d_suspended] in H.
  change (h_pendingRoutes h') with (h_pendingRoutes h) in H. rewrite Hp, Hs in H. cbn [fst]. lia.
Qed.

(** A query for the session list that also carries an id. *)
Definition list_session_call : json :=
  JObj [(js "event", jstring "Customized");
        (js "data", JObj [(js "type", jstring "ListSession");
          (js "data", JObj [(js "message", cdp_call 7)])])].

Definition asked_host : Host :=
  demo_host <| h_memoizedQueryTable ::= (fun t => (query 1 (Some list_session_call) 0 t).2) |>.

Lemma asked_host_inv : host_inv asked_host.
Proof.
  split; [apply new_routes_wf| |by intros ? ?%not_elem_of_nil].
  split; [done|]. cbn. done.
Qed.

Lemma coalesced_reply_hangs_witness :
  let '(effects, h') := sendMessageWithReply 1 list_session_call None 5 (NInt 9) None 10 asked_host in
  getRoutableCustomizedPayload (Some list_session_call) <> None /\ effects = [] /\
  settled (5%Z, NInt 9)
    (daemon_run [DHost (HRouteTimeout 0 not_routable); DHost (HDisconnect 5 20)] (mkDaemon h' [])).1 = 0%nat.
Proof.
  pose proof (coalesced_reply_hangs 1 list_session_call None 5 (NInt 9) 10 asked_host list_session_call
    (query 1 (Some list_session_call) 10 (h_memoizedQueryTable asked_host)).2 []
    [DHost (HRouteTimeout 0 not_routable); DHost (HDisconnect 5 20)] asked_host_inv eq_refl eq_refl
    ltac:(vm_compute; discriminate) ltac:(vm_compute; reflexivity)
    ltac:(vm_compute; reflexivity) ltac:(vm_compute; reflexivity) ltac:(vm_compute; reflexivity)) as H.
  destruct (sendMessageWithReply _ _ _ _ _ _ _ _) as [effects h']. destruct (getRoutableCustomizedPayload (Some list_session_call)) eqn:E;
    [|vm_compute in E; discriminate]. destruct H as (_ & H1 & H2). split; [discriminate|]. split; [exact H1|]. apply H2. reflexivity.
Defined.

(** *** A short run: a control connects, asks for the devices and for a reply of
    a runtime, and leaves. *)

Definition demo_request : ControlRpcRequest :=
  mkRequest (NInt 100) Protocol.sendMessageWithReply
    (JObj [(js "clientId", jint 1); (js "message", cdp_envelope (cdp_call 7))]).

Definition demo_run : list daemon_op :=
  [DHost (HOwnership (mkChange attached 4242 None daemon_started) 0); DHost (HRegistry (RegisterClient phone_client) 0);
   DHost (HConnect 5 false None 1); DHost (HRpc 5 (mkRequest (NInt 99) Protocol.connectDevices (JObj [])) None 1);
   DHost (HRpc 5 demo_request None 2); DResume 0 RDone 2; DHost (HDisconnect 5 3); DHost (HRouteTimeout 0 not_routable)].

Lemma rpc_accounted_witness :
  let '(es, d) := daemon_run demo_run (ready_daemon demo_option 0) in
  (settled (5%Z, NInt 99) es <= 1)%nat /\ settled (5%Z, NInt 99) es = 1%nat /\ settled (5%Z, NInt 100) es = 1%nat.
Proof.
  pose proof (rpc_accounted demo_run demo_option 0 (5, NInt 99) ltac:(vm_compute; reflexivity)) as H. cbv zeta in H.
  destruct (daemon_run demo_run (ready_daemon demo_option 0)) as [es d] eqn:E. destruct H as [_ H].
  split; [apply H; vm_compute; lia|]. vm_compute in E. injection E as <- _. split; vm_compute; reflexivity.
Defined.

Lemma idle_timer_tracks_use_witness :
  let h := d_host (daemon_run demo_run (ready_daemon demo_option 0)).2 in
  h_activeControlIds h = [] /\ h_idleTimer h = Some 30003.
Proof.
  intros h. destruct (idle_timer_tracks_use demo_run demo_option 0) as [H _]; [vm_compute; reflexivity|].
  destruct H as [H _]; [vm_compute; discriminate|]. split; [exact H|vm_compute; reflexivity].
Defined.

