(* ===== verification/Holders.v ===== *)
(** * Who holds the device managers

    The device managers of a running daemon: what each connected control has
    asked for, by the options it registered with or by
    [watchNetworkDeviceAtIp], the managers the host has enabled for it
    ([enabledManagers] of [multiplexer/daemon/MultiplexerDaemonHost.ts]) and the
    manager objects of the physical connector
    ([devicesManager] of [physical/PhysicalConnector.ts]). *)

From Stdlib Require Import SpecFloat String.
From stdpp Require Import sets.
From S2P Require Import JsValue Json Protocol PendingRoutes MemoTable Message ReportBridge.
From S2P Require Import Ownership Physical WebSocket Host Routing HostRpc HostRun DaemonRun.

(** ** What the controls ask for *)

(** The managers a registration asks for. *)
Definition requested (facade : jsval) : list DeviceManager :=
  let o := Some (default default_facade_option facade) in
  (if truthy (o@."enableAndroid") then [android_key (o@."adbHostPort")] else []) ++
  (if truthy (o@."enableHarmony") then [harmony_key (o@."hdcHostPort")] else []) ++
  (if truthy (o@."enableIOS") then [ios_key] else []) ++
  (if truthy (o@."enableDesktop") then [desktop_key] else []) ++
  (if truthy (o@."enableNetworkDevice") && truthy (o@."networkDeviceOpt") then [network_key (o@."networkDeviceOpt")] else []).

(** The connected controls, each with what it has asked for since it connected. *)
Abbreviation requests := (list (Z * list DeviceManager)).

Definition ask (c : Z) (ks : list DeviceManager) (a : requests) : requests := mset c (default [] (mget c a) ++ ks) a.

Definition ask_step (op : daemon_op) (a : requests) : requests :=
  match op with
  | DHost (HConnect c _ facade _) => ask c (requested facade) a
  | DHost (HDisconnect c _) => mdel c a
  | DHost (HRpc c q _ _) =>
      match rq_method q with
      | Protocol.watchNetworkDeviceAtIp => if mhas c a then ask c [network_key (Some (rq_params q))] a else a
      | _ => a
      end
  | _ => a
  end.

Definition asked (ops : list daemon_op) : requests := fold_left (fun a op => ask_step op a) ops [].

(** The ports of a registration are integers. *)
Definition integer_port (o : jsval) : Prop := match o@."port" with Some (JNum (NDbl _)) => False | _ => True end.

Definition integer_ports (op : daemon_op) : Prop :=
  match op with
  | DHost (HConnect _ _ (Some f) _) => integer_port ((Some f)@."adbHostPort") /\ integer_port ((Some f)@."hdcHostPort")
  | _ => True
  end.

(** ** Keys *)

Definition holds (ms : list EnabledManager) (k : DeviceManager) (c : Z) : Prop :=
  exists m, m ∈ ms /\ em_key m = k /\ c ∈ em_controlIds m.

(** The keys of each platform. *)
Inductive key_shape : DeviceManager -> Prop :=
  | ShapeAndroid h z : key_shape (mkManager android (Some h) (Some (NInt z)) None)
  | ShapeHarmony h z : key_shape (mkManager harmony (Some h) (Some (NInt z)) None)
  | ShapeIOS : key_shape ios_key
  | ShapeDesktop : key_shape desktop_key
  | ShapeNetwork ip : key_shape (mkManager network None None (Some ip)).
#[local] Hint Constructors key_shape : core.

(** Comparisons of keys, part by part. *)
Ltac key_cases := cbn; rewrite ?andb_true_iff, ?bool_decide_eq_true, ?Z.eqb_eq; split; [intros; destruct_and?; by simplify_eq | by intros [=]; subst].

Lemma key_eqb_eq a b : key_shape a -> key_shape b -> key_eqb a b = true <-> a = b.
Proof. intros Ha Hb. unfold key_eqb. destruct Ha, Hb; key_cases. Qed.

Lemma requested_shape f : match f with Some f => integer_port ((Some f)@."adbHostPort") /\ integer_port ((Some f)@."hdcHostPort") | None => True end ->
  Forall key_shape (requested f).
Proof.
  intros Hf. assert (forall o p k (d : Z), integer_port o -> k = mkManager p (Some (str_or "127.0.0.1" (o@."host"))) (Some (num_or d (o@."port"))) None ->
    p = android \/ p = harmony -> key_shape k) as Hk.
  { intros o p k d Ho -> Hp. unfold integer_port in Ho.
    assert (exists z, num_or d (o@."port") = NInt z) as [z ->].
    { unfold num_or. destruct (o@."port") as [[| |[z|f']| | |]|]; try done; eauto. }
    destruct Hp as [-> | ->]; auto. }
  assert (forall o, integer_port (o@."adbHostPort") -> integer_port (o@."hdcHostPort") ->
    Forall key_shape ((if truthy (o@."enableAndroid") then [android_key (o@."adbHostPort")] else []) ++
      (if truthy (o@."enableHarmony") then [harmony_key (o@."hdcHostPort")] else []) ++
      (if truthy (o@."enableIOS") then [ios_key] else []) ++ (if truthy (o@."enableDesktop") then [desktop_key] else []) ++
      (if truthy (o@."enableNetworkDevice") && truthy (o@."networkDeviceOpt") then [network_key (o@."networkDeviceOpt")] else []))) as Hall.
  { intros o H1 H2. rewrite !Forall_app. split_and!; (match goal with |- Forall _ (if ?b then _ else _) => destruct b end; [|apply Forall_nil_2]); (apply list.Forall_cons; split; [|apply Forall_nil_2]).
    - eapply Hk; [exact H1|reflexivity|by left].
    - eapply Hk; [exact H2|reflexivity|by right].
    - auto.
    - auto.
    - unfold network_key. auto. }
  unfold requested. apply Hall; destruct f as [f|]; cbn [default]; try apply Hf; done.
Qed.

(** ** The enabled managers *)

Record enabled_wf (ms : list EnabledManager) : Prop := {
  ew_keys : NoDup (em_key <$> ms);
  ew_shape : forall m, m ∈ ms -> key_shape (em_key m)
}.

Lemma enabled_wf_cons m ms : enabled_wf (m :: ms) -> enabled_wf ms /\ key_shape (em_key m) /\ em_key m ∉ em_key <$> ms.
Proof.
  intros [H1 H2]. rewrite fmap_cons, list.NoDup_cons in H1. destruct H1 as [H1 H1'].
  split; [split; [done|]; intros x Hx; apply H2; by right|]. split; [apply H2; left|done].
Qed.

Lemma holds_cons m ms k c : holds (m :: ms) k c <-> (em_key m = k /\ c ∈ em_controlIds m) \/ holds ms k c.
Proof.
  unfold holds. split.
  - intros (x & [->|Hx]%elem_of_cons & H); [by left|right; eauto].
  - intros [[H1 H2]|(x & Hx & H)]; [exists m; split; [left|done]|exists x; split; [by right|done]].
Qed.

(** Adding a control to the manager of a key. *)
Lemma add_enabled key c ms : enabled_wf ms -> key_shape key ->
  let '(new, ms') := add_to_managers key c ms in
  (forall k c', holds ms' k c' <-> holds ms k c' \/ (k = key /\ c' = c)) /\
  em_key <$> ms' = (em_key <$> ms) ++ (if new then [key] else []) /\ enabled_wf ms'.
Proof.
  intros Hwf Hs. induction ms as [|m ms IH]; cbn [add_to_managers].
  { split; [|split; [done|split; [apply NoDup_singleton|by intros m ->%list_elem_of_singleton]]].
    intros k c'. rewrite holds_cons. cbn. rewrite list_elem_of_singleton.
    assert (~ holds [] k c') by (by intros (x & ?%not_elem_of_nil & _)). naive_solver. }
  apply enabled_wf_cons in Hwf as (Hwf & Hm & Hn). specialize (IH Hwf). destruct (key_eqb (em_key m) key) eqn:E.
  - apply key_eqb_eq in E; [|done|done]. subst key. cbn. rewrite app_nil_r. split; [|split; [done|]].
    + intros k c'. rewrite !holds_cons. cbn. rewrite elem_of_sadd. naive_solver.
    + split; [rewrite fmap_cons; apply list.NoDup_cons; split; [exact Hn|apply Hwf]|]. intros x [->|Hx]%elem_of_cons; [done|by apply Hwf].
  - assert (em_key m <> key) as Hne by (intros X; rewrite X in E; by rewrite (proj2 (key_eqb_eq key key Hs Hs) eq_refl) in E).
    destruct (add_to_managers key c ms) as [new ms']. destruct IH as (I1 & I2 & [I3 I4]). split; [|split].
    + intros k c'. rewrite !holds_cons, I1. tauto.
    + cbn. by rewrite I2.
    + split.
      * rewrite fmap_cons, list.NoDup_cons. split; [|done]. rewrite I2, elem_of_app. intros [X|X]; [done|].
        destruct new; [apply list_elem_of_singleton in X; congruence|by apply not_elem_of_nil in X].
      * intros x [->|Hx]%elem_of_cons; [done|by apply I4].
Qed.

(** ** The objects of the connector *)

Definition objects (p : PhysicalConnector) : list DeviceManager := mvals (pc_devicesManager p).

Record objects_wf (p : PhysicalConnector) : Prop := {
  ob_ids : NoDup (mkeys (pc_devicesManager p));
  ob_next : forall id, id ∈ mkeys (pc_devicesManager p) -> id < pc_nextManager p
}.

(** The manager of a key the platform supports is created. *)
Definition created (iosSupported : bool) (k : DeviceManager) : bool :=
  match dm_platform k with ios => iosSupported | _ => true end.

Lemma add_object key auto p : objects_wf p ->
  objects_wf (addDeviceManager key auto p).2 /\ objects (addDeviceManager key auto p).2 = objects p ++ [key].
Proof.
  intros [H1 H2]. assert (pc_nextManager p ∉ mkeys (pc_devicesManager p)) as Hf by (intros Hin; specialize (H2 _ Hin); lia).
  unfold addDeviceManager, objects. cbn -[mset]. rewrite mset_fresh by done. split; [split; cbn|unfold mvals; by rewrite fmap_app].
  - rewrite <- mset_fresh by done. by apply NoDup_mset.
  - intros id. unfold mkeys. rewrite fmap_app, elem_of_app. intros [Hin|Hin]; [specialize (H2 _ Hin); lia|].
    apply list_elem_of_singleton in Hin. cbn in Hin. lia.
Qed.

(** The object a [close] closure looks for is that of its key. *)
Lemma close_matches key p : key_shape key ->
  exists f, close_manager key p = closeMatchingDeviceManager f p /\ forall q, key_shape q -> f q = true <-> q = key.
Proof. intros Hk. destruct Hk; (eexists; split; [reflexivity|]); intros q Hq; destruct Hq; unfold manager_at; key_cases. Qed.

Lemma find_object f (d1 d2 : list (Z * DeviceManager)) id k : Forall (fun q => f q = false) (mvals d1) -> f k = true ->
  List.find (fun q => f q.2) (d1 ++ (id, k) :: d2) = Some (id, k).
Proof.
  intros H1 H2. induction d1 as [|[i q] d1 IH]; cbn; [by rewrite H2|].
  apply list.Forall_cons in H1 as [Hq H1]. cbn in Hq. rewrite Hq. by apply IH.
Qed.

Lemma close_object key p l1 l2 : objects_wf p -> key_shape key -> Forall key_shape (objects p) ->
  objects p = l1 ++ key :: l2 -> key ∉ l1 ->
  objects_wf (close_manager key p).2 /\ objects (close_manager key p).2 = l1 ++ l2.
Proof.
  intros [H1 H2] Hk Hall Ho Hn. destruct (close_matches key p Hk) as (f & -> & Hf). unfold objects in *.
  pose proof Ho as Ho'. unfold mvals in Ho'. apply fmap_app_inv in Ho' as (d1 & d' & -> & Hd' & Ed).
  destruct d' as [|[id k'] d2]; [done|]. injection Hd' as <- ->. cbn in Ho.
  rewrite Ho, Forall_app in Hall. destruct Hall as [Hd1 _].
  unfold closeMatchingDeviceManager. rewrite Ed, find_object.
  2: { rewrite list.Forall_forall in Hd1 |- *. intros q Hq. destruct (f q) eqn:E; [|done]. apply Hf in E; [subst q; by destruct Hn|by apply Hd1]. }
  2: { by apply Hf. }
  rewrite Ed in H1. unfold closeDeviceManager, mhas. rewrite Ed.
  assert (mget id (d1 ++ (id, key) :: d2) = Some key) as -> by (apply In_mget; [done|apply elem_of_app; right; left]).
  cbn -[mdel]. rewrite ?Ed, mdel_middle by done. split; [|unfold mvals; by rewrite fmap_app].
  split; cbn [pc_devicesManager pc_nextManager].
  - revert H1. unfold mkeys. rewrite !fmap_app, fmap_cons. cbn. intros X. apply list.NoDup_app in X as (X1 & X2 & X3).
    apply list.NoDup_cons in X3 as [X3 X4]. apply list.NoDup_app. split; [done|]. split; [|done]. intros y Hy Hy2. apply (X2 y Hy). by right.
  - intros i Hi. apply H2. rewrite Ed. revert Hi. unfold mkeys. rewrite !fmap_app, fmap_cons, !elem_of_app. cbn. rewrite elem_of_cons. tauto.
Qed.

Lemma close_absent key p : key_shape key -> Forall key_shape (objects p) -> key ∉ objects p -> (close_manager key p).2 = p.
Proof.
  intros Hk Hall Hn. destruct (close_matches key p Hk) as (f & -> & Hf).
  unfold closeMatchingDeviceManager. destruct (List.find _ _) as [[id q]|] eqn:E; [|done]. exfalso.
  apply find_some in E as [Hin Hq]. cbn in Hq. apply list_elem_of_In in Hin.
  assert (q ∈ objects p) as Hq' by (unfold objects, mvals; apply list_elem_of_fmap; by exists (id, q)).
  apply Hf in Hq; [by subst|]. rewrite list.Forall_forall in Hall. by apply Hall.
Qed.

(** ** The invariant *)

(** The enabled managers are held by the controls that asked for them, and the
    connector has the object of each of them that its platform supports. *)
Record managers_inv (iosSupported : bool) (a : requests) (h : Host) : Prop := {
  mi_option : ho_iosSupported (h_option h) = iosSupported;
  mi_active : forall c, mhas c a = true <-> c ∈ h_activeControlIds h;
  mi_enabled : enabled_wf (h_enabledManagers h);
  mi_held : forall k c, holds (h_enabledManagers h) k c <-> k ∈ default [] (mget c a);
  mi_used : forall m, m ∈ h_enabledManagers h -> em_controlIds m <> [];
  mi_wf : objects_wf (h_physicalConnector h);
  mi_objects : objects (h_physicalConnector h) =
    List.filter (created iosSupported) (em_key <$> h_enabledManagers h)
}.

(** All of a host the invariant is about. *)
Definition held (h : Host) :=
  (h_enabledManagers h, pc_devicesManager (h_physicalConnector h), pc_nextManager (h_physicalConnector h), h_option h, h_activeControlIds h).

Lemma held_inv ios a h h' : held h' = held h -> managers_inv ios a h -> managers_inv ios a h'.
Proof.
  intros E [H0 H1 H2 H3 H4 [H5 H5'] H6]. injection E as E1 E2 E3 E4 E5. unfold objects in *.
  split; rewrite ?E1, ?E4, ?E5; try done; [split; rewrite ?E2, ?E3; done|]. unfold objects. by rewrite E2.
Qed.

Lemma filter_all_shape f ms : enabled_wf ms -> Forall key_shape (List.filter f (em_key <$> ms)).
Proof.
  intros [_ Hs]. apply list.Forall_forall. intros k Hk. apply list_elem_of_In, filter_In in Hk as [Hk _].
  apply list_elem_of_In, list_elem_of_fmap in Hk as (m & -> & Hm). by apply Hs.
Qed.

Lemma add_inv ios key c auto a ks h : managers_inv ios (mset c ks a) h -> key_shape key ->
  managers_inv ios (mset c (ks ++ [key]) a) (add_manager key c auto (created ios key) h).2.
Proof.
  intros [H0 H1 H2 H3 H4 H5 H6] Hk. unfold add_manager, addManagerControl.
  pose proof (add_enabled key c (h_enabledManagers h) H2 Hk) as Hadd.
  assert (forall m, m ∈ (add_to_managers key c (h_enabledManagers h)).2 -> em_controlIds m <> []) as Hu.
  { clear -H4. induction (h_enabledManagers h) as [|m ms IH]; cbn [add_to_managers].
    - by intros x ->%list_elem_of_singleton.
    - destruct (key_eqb _ _); [intros x [->|Hx]%elem_of_cons; [apply sadd_not_nil|apply H4; by right]|].
      specialize (IH ltac:(intros x Hx; apply H4; by right)). destruct (add_to_managers key c ms) as [new ms'].
      intros x [->|Hx]%elem_of_cons; [apply H4; left|by apply IH]. }
  destruct (add_to_managers key c (h_enabledManagers h)) as [new ms]. destruct Hadd as (A1 & A2 & A3). cbn [snd] in Hu.
  assert (forall c', mhas c' (mset c (ks ++ [key]) a) = true <-> c' ∈ h_activeControlIds h) as Hact.
  { intros c'. rewrite <- H1. unfold mhas. rewrite !mget_mset. by case_decide. }
  assert (forall k c', holds ms k c' <-> k ∈ default [] (mget c' (mset c (ks ++ [key]) a))) as Hh.
  { intros k c'. rewrite A1, H3, !mget_mset. case_decide as E; [|tauto]. subst.
    change (k ∈ ks \/ k = key /\ c = c <-> k ∈ ks ++ [key]). rewrite elem_of_app, list_elem_of_singleton. tauto. }
  destruct new; cbn [andb].
  - destruct (created _ key) eqn:Ec; cbn [snd].
    + destruct (add_object key auto (h_physicalConnector h) H5) as [O1 O2].
      change (h_physicalConnector (h <| h_enabledManagers := ms |>)) with (h_physicalConnector h).
      destruct (addDeviceManager key auto (h_physicalConnector h)) as [e p]. cbn [snd] in *. split; hcbn; try done.
      rewrite O2, A2, List.filter_app, H6. cbn. by rewrite Ec.
    + split; hcbn; try done. rewrite A2, List.filter_app, H6. cbn. by rewrite Ec, app_nil_r.
  - split; hcbn; try done. by rewrite A2, app_nil_r.
Qed.

(** Releasing the managers of a control: the keys before them in the list and
    those that stay keep their objects. *)
Lemma release_inv c sup ms : forall pre p, NoDup (pre ++ (em_key <$> ms)) -> (forall m, m ∈ ms -> key_shape (em_key m)) ->
  Forall key_shape pre -> objects_wf p -> objects p = List.filter sup (pre ++ (em_key <$> ms)) ->
  let '(_, kept, p') := release_managers c ms p in
  objects_wf p' /\ objects p' = List.filter sup (pre ++ (em_key <$> kept)) /\
  sublist (em_key <$> kept) (em_key <$> ms) /\ (forall k c', holds kept k c' <-> holds ms k c' /\ c' <> c) /\
  ((forall m, m ∈ ms -> em_controlIds m <> []) -> forall m, m ∈ kept -> em_controlIds m <> []).
Proof.
  induction ms as [|m ms IH]; intros pre p Hnd Hs Hpre Hwf Ho; cbn [release_managers].
  { split_and!; try done. intros k c'. split; [|tauto]. by intros (x & ?%not_elem_of_nil & _). }
  assert (forall x, x ∈ ms -> key_shape (em_key x)) as Hs' by (intros x Hx; apply Hs; by right).
  assert (key_shape (em_key m)) as Hm by (apply Hs; left).
  (* a manager that stays, with its remaining holders *)
  assert (forall m', em_key m' = em_key m -> (forall c', c' ∈ em_controlIds m' <-> c' ∈ em_controlIds m /\ c' <> c) ->
    (em_controlIds m <> [] -> em_controlIds m' <> []) ->
    let '(_, kept, p') := release_managers c ms p in
    objects_wf p' /\ objects p' = List.filter sup (pre ++ (em_key <$> m' :: kept)) /\
    sublist (em_key <$> m' :: kept) (em_key <$> m :: ms) /\ (forall k c', holds (m' :: kept) k c' <-> holds (m :: ms) k c' /\ c' <> c) /\
    ((forall x, x ∈ m :: ms -> em_controlIds x <> []) -> forall x, x ∈ m' :: kept -> em_controlIds x <> [])) as Hstay.
  { intros m' Ek Ec Hne. specialize (IH (pre ++ [em_key m]) p). rewrite <- !app_assoc in IH. cbn [app] in IH.
    specialize (IH Hnd Hs'). specialize (IH ltac:(apply Forall_app; split; [done|by apply list.Forall_singleton]) Hwf Ho).
    destruct (release_managers c ms p) as [[e kept] p']. destruct IH as (I1 & I2 & I3 & I4 & I5).
    split; [done|]. split; [by rewrite fmap_cons, Ek, I2, <- app_assoc|]. split; [rewrite !fmap_cons, Ek; by constructor|]. split.
    - intros k c'. rewrite !holds_cons, I4, Ec, Ek. tauto.
    - intros Hu x [->|Hx]%elem_of_cons; [apply Hne, Hu; left|]. apply I5; [|done]. intros y Hy. apply Hu. by right. }
  destruct (shas c (em_controlIds m)) eqn:Es; cbn [negb].
  - destruct (sdel c (em_controlIds m)) as [|c0 rest] eqn:Ed.
    + assert (forall c', c' ∈ em_controlIds m -> c' = c) as Hone.
      { intros c' Hc'. destruct (decide (c' = c)); [done|]. assert (c' ∈ sdel c (em_controlIds m)) as X by (by apply elem_of_sdel).
        rewrite Ed in X. by apply not_elem_of_nil in X. }
      assert (objects_wf (close_manager (em_key m) p).2 /\ objects (close_manager (em_key m) p).2 = List.filter sup (pre ++ (em_key <$> ms))) as [Hwf' Ho'].
      { rewrite fmap_cons in Ho, Hnd. apply list.NoDup_app in Hnd as (N1 & N2 & N3).
        assert (em_key m ∉ pre) as Hnp by (intros X; apply (N2 _ X); left).
        assert (Forall key_shape (objects p)) as Hall.
        { rewrite Ho. apply list.Forall_forall. intros k [Hk _]%list_elem_of_In%filter_In. apply list_elem_of_In, elem_of_app in Hk as [Hk|[->|Hk]%elem_of_cons]; [|done|].
          - rewrite list.Forall_forall in Hpre. by apply Hpre.
          - apply list_elem_of_fmap in Hk as (x & -> & Hx). by apply Hs'. }
        rewrite List.filter_app in Ho. cbn [List.filter] in Ho. rewrite List.filter_app. destruct (sup (em_key m)).
        - apply close_object; try done. intros [X _]%list_elem_of_In%filter_In. apply Hnp. by apply list_elem_of_In.
        - rewrite close_absent; [done|done|done|]. rewrite Ho, elem_of_app. intros [X|X]; apply list_elem_of_In, filter_In in X as [X _]; apply list_elem_of_In in X.
          + done.
          + apply list.NoDup_cons in N3 as [N3 _]. done. }
      destruct (close_manager (em_key m) p) as [e1 p1]. cbn [snd] in *.
      assert (NoDup (pre ++ (em_key <$> ms))) as Hnd'.
      { rewrite fmap_cons in Hnd. apply list.NoDup_app in Hnd as (N1 & N2 & N3). apply list.NoDup_cons in N3 as [_ N3].
        apply list.NoDup_app. split; [done|]. split; [|done]. intros x Hx Hx2. apply (N2 x Hx). by right. }
      specialize (IH pre p1 Hnd' Hs' Hpre Hwf' Ho'). destruct (release_managers c ms p1) as [[e2 kept] p2].
      destruct IH as (I1 & I2 & I3 & I4 & I5). split; [done|]. split; [done|]. split; [by constructor|]. split.
      * intros k c'. rewrite I4, holds_cons. split; [tauto|]. intros [[[_ X]|X] Hne]; [by apply Hone in X|done].
      * intros Hu. apply I5. intros x Hx. apply Hu. by right.
    + specialize (Hstay (mkEnabled (em_key m) (c0 :: rest)) eq_refl). destruct (release_managers c ms p) as [[e kept] p'].
      apply Hstay; [|done]. intros c'. cbn. rewrite <- Ed, elem_of_sdel. tauto.
  - specialize (Hstay m eq_refl). destruct (release_managers c ms p) as [[e kept] p']. apply Hstay; [|done].
    intros c'. split; [|tauto]. intros Hc'. split; [done|]. intros ->. unfold shas in Es. by apply bool_decide_eq_false in Es.
Qed.

(** ** The other operations *)

Lemma held_schedule now h : held (scheduleIdleTimeoutIfNeeded now h) = held h.
Proof. unfold scheduleIdleTimeoutIfNeeded. repeat case_match; done. Qed.

Lemma held_report n m c h : held (host_report n m c h).2 = held h.
Proof. unfold host_report. by destruct (report _ _ _ _ _). Qed.

Lemma held_report_status h : held (updateReportStatus h).2 = held h.
Proof. unfold updateReportStatus. by destruct (updateStatus _ _ _). Qed.

Lemma held_ws_connected id driver now h : held (handleWebSocketClientConnected id driver now h).2 = held h.
Proof. unfold handleWebSocketClientConnected, clearIdleTimeout. by case_match. Qed.

Lemma held_drop id h : held (drop_runtime id h).2 = held h.
Proof. unfold drop_runtime. by destruct (clearByClientId _ _). Qed.

Lemma held_ws_disconnected id driver now h : held (handleWebSocketClientDisconnected id driver now h).2 = held h.
Proof.
  unfold handleWebSocketClientDisconnected. destruct driver.
  - destruct (clearByWebClientId _ _). cbn [snd]. by rewrite held_schedule.
  - pose proof (held_drop id h) as H. by destruct (drop_runtime id h).
Qed.

Lemma held_emit e now h : held (emit e now h).2 = held h.
Proof. destruct e; cbn [emit snd]; auto using held_ws_connected, held_ws_disconnected. Qed.

Lemma held_ws_registered i now h : held (ws_registered i now h).2 = held h.
Proof.
  unfold ws_registered. destruct (h_webSocketController h) as [c|]; [|done].
  match goal with |- context [emit ?e now ?x] => pose proof (held_emit e now x) as H; destruct (emit e now x) end. exact H.
Qed.

Lemma held_ws_closed id now h : held (ws_closed id now h).2 = held h.
Proof.
  unfold ws_closed. destruct (h_webSocketController h) as [c|]; [|done].
  destruct (handleDisconnect id c) as [[app web] c']. set (h1 := h <| h_webSocketController := Some c' |>).
  assert (forall (b : bool) e h, held (if b then emit e now h else ([], h)).2 = held h) as He
    by (intros []; auto using held_emit).
  pose proof (He app (WsAppDisconnected id) h1) as H1. destruct (if app then _ else _) as [e1 h2].
  pose proof (He web (WsWebDisconnected id) h2) as H2. destruct (if web then _ else _) as [e2 h3].
  cbn [snd] in *. by rewrite H2, H1.
Qed.

Lemma held_watcher d h : held (ensureClientWatcher d h).2 = held h.
Proof. unfold ensureClientWatcher. repeat case_match; done. Qed.

Lemma held_phys_event e now h : held (handle_phys_event e now h).2 = held h.
Proof.
  destruct e; cbn [handle_phys_event].
  - unfold handleDeviceConnected. repeat case_match; cbn [snd]; auto using held_watcher.
  - unfold handleDeviceDisconnected. repeat case_match; done.
  - unfold handleClientConnected. repeat case_match; done.
  - unfold handleClientDisconnected. case_match; [done|]. pose proof (held_drop id h) as Hd. by destruct (drop_runtime id h).
Qed.

Lemma held_phys_effects es now : forall h, held (handle_phys_effects es now h).2 = held h.
Proof.
  induction es as [|e es IH]; intros h; cbn [handle_phys_effects]; [done|].
  destruct e; try (specialize (IH h); by destruct (handle_phys_effects es now h)).
  pose proof (held_phys_event e now h) as H. destruct (handle_phys_event e now h) as [e1 h1]. specialize (IH h1).
  destruct (handle_phys_effects es now h1). cbn [snd] in *. congruence.
Qed.

Lemma held_ownership c now h : held (handleLegacyOwnershipChanged c now h).2 = held h.
Proof.
  unfold handleLegacyOwnershipChanged, handleLegacyOwnershipLost. destruct (bool_decide _); [|done]. by destruct (clear _).
Qed.

Lemma held_send id m target err now h : held (sendMessageToRuntime id m target err now h).2 = held h.
Proof.
  unfold sendMessageToRuntime, forward_to_runtime, rewriteOutboundMessageData.
  repeat (case_match; simplify_eq; cbn [snd]); done.
Qed.

Lemma held_reply id m timeout c rpc err now h : held (sendMessageWithReply id m timeout c rpc err now h).2 = held h.
Proof.
  unfold sendMessageWithReply. case_match; match goal with |- context [sendMessageToRuntime ?a ?b ?c ?d ?e ?f] =>
    pose proof (held_send a b c d e f) as H'; destruct (sendMessageToRuntime a b c d e f) as [[??]?] end; done.
Qed.

Lemma held_without_reply toWeb id m c err now h : held (sendMessageWithoutReply toWeb id m c err now h).2 = held h.
Proof. unfold sendMessageWithoutReply. case_match; [done|apply held_send]. Qed.

Lemma held_rpc c q err now h : rq_method q <> Protocol.watchNetworkDeviceAtIp -> held (handleControlRpc c q err now h).2 = held h.
Proof.
  intros Hq. unfold handleControlRpc. destruct (rq_method q); try done.
  - unfold answer, connectUsbClients. cbn [snd]. case_match; [done|]. pose proof (held_watcher (str_param "deviceId" (Some (rq_params q))) h) as Hw.
    destruct (ensureClientWatcher _ h) as [[]?]; done.
  - unfold answer, startWatchClient_rpc. cbn [snd]. pose proof (held_watcher (str_param "deviceId" (Some (rq_params q))) h) as Hw.
    destruct (ensureClientWatcher _ h) as [[]?]; done.
  - unfold requestDaemonShutdown, clearIdleTimeout. repeat case_match; simplify_eq; done.
  - unfold startWSServer. repeat case_match; simplify_eq; done.
  - repeat case_match; auto using held_reply.
  - destruct (client_param _); [|done]. destruct ((Some (rq_params q))@."message"); [|done].
    match goal with |- context [sendMessageWithoutReply ?a ?b ?c ?d ?e ?f ?g] =>
      pose proof (held_without_reply a b c d e f g) as Hs; destruct (sendMessageWithoutReply a b c d e f g) as [[??]?] end. done.
Qed.

Lemma held_runtime id text src now h : held (handleRuntimeMessage id text src now h).2 = held h.
Proof. unfold handleRuntimeMessage, restoreInboundMessage. repeat (case_match; simplify_eq; cbn [snd]); done. Qed.

Lemma held_registry op now h : held (host_step (HRegistry op now) h).2 = held h.
Proof.
  cbn [host_step]. assert (pc_devicesManager (registry_step op (h_physicalConnector h)).2 = pc_devicesManager (h_physicalConnector h) /\
    pc_nextManager (registry_step op (h_physicalConnector h)).2 = pc_nextManager (h_physicalConnector h)) as [E1 E2].
  { destruct op; cbn [registry_step]; unfold registerDevice, unregisterDevice, regiserUsbClient, unregiserUsbClient; repeat case_match; done. }
  destruct (registry_step op _) as [es p]. rewrite held_phys_effects. unfold held. hcbn. cbn [snd] in *. by rewrite E1, E2.
Qed.

(** The operations that change who holds what. *)
Definition holder_op (op : host_op) : bool :=
  match op with
  | HConnect _ _ _ _ | HDisconnect _ _ => true
  | HRpc _ q _ _ => bool_decide (rq_method q = Protocol.watchNetworkDeviceAtIp)
  | _ => false
  end.

Lemma held_step op h : holder_op op = false -> held (host_step op h).2 = held h.
Proof.
  destruct op as [| | | | | | | |op now| | | | | | | | ]; intros Hs; try done; try apply held_registry; cbn [host_step snd holder_op] in *.
  - case_match; [|done]. apply bool_decide_eq_false in Hs. by apply held_rpc.
  - unfold handleUsbClientMessage, handleWebSocketAppMessage. repeat case_match; auto using held_runtime.
  - unfold handleWebSocketDriverMessage. match goal with |- context [sendMessageToRuntime ?a ?b ?c ?d ?e ?f] =>
      pose proof (held_send a b c d e f) as H'; destruct (sendMessageToRuntime a b c d e f) as [[??]?] end. done.
  - apply held_ws_registered.
  - apply held_ws_closed.
  - case_match; auto using held_emit.
  - apply held_ownership.
  - unfold route_timeout_fires. by destruct (timer_fires _ _).
  - unfold retry_fires. repeat case_match; done.
  - unfold idle_timer_fires. repeat case_match; done.
  - unfold attempt_ends. repeat case_match; done.
  - unfold ws_controller_created. match goal with |- context [host_report ?a ?b ?c h] =>
      pose proof (held_report a b c h) as Hr; destruct (host_report a b c h) end. exact Hr.
Qed.

Lemma held_resume cb a r now h : held (resume cb a r now h).1.2 = held h.
Proof.
  assert (forall ids acc, held (fold_left (fun acc id => let '(o, h) := ensureClientWatcher id acc.2 in (acc.1 ++ [o], h)) ids acc).2 = held acc.2) as Hf.
  { induction ids as [|id ids IH]; intros [os h0]; cbn [fold_left fst snd]; [done|].
    pose proof (held_watcher id h0) as Hw. destruct (ensureClientWatcher id h0) as [o h1]. by rewrite IH. }
  assert (held (startWatchAllClients_owned h).2 = held h) as Ho by apply (Hf _ ([], h)).
  destruct a, r; cbn [resume]; try (repeat case_match; done).
  all: try (destruct (startWatchAllClients_owned h) as [os h1]; repeat case_match; done).
  all: unfold forceDisableAllClients, startWSServer_failed; done.
Qed.

(** ** Connecting and disconnecting *)

Lemma seq_after f ops h : (seq_ops (f :: ops) h).2 = (seq_ops ops (f h).2).2.
Proof. cbn [seq_ops]. destruct (f h) as [e1 h1]. cbn [snd]. by destruct (seq_ops ops h1). Qed.

(** The additions of a registration. *)
Lemma add_all_inv ios c f a ks h : managers_inv ios (mset c ks a) h -> Forall key_shape (requested f) ->
  managers_inv ios (mset c (ks ++ requested f) a) (addPhysicalDeviceManagers c (Some (default default_facade_option f)) h).2.
Proof.
  intros Hi Hs. unfold requested in Hs |- *. set (o := Some (default default_facade_option f)) in *.
  rewrite !Forall_app in Hs. destruct Hs as (S1 & S2 & S3 & S4 & S5).
  unfold addPhysicalDeviceManagers. set (h1 := if truthy _ then _ else h).
  assert (managers_inv ios (mset c ks a) h1) as Hi1 by (eapply (held_inv _ _ h); [unfold h1; destruct (truthy (o@."usbConnectOpt")); reflexivity|done]).
  set (auto := negb _). rewrite !seq_after. cbn [seq_ops snd]. unfold addNetworkManager. rewrite (mi_option _ _ _ Hi1). clearbody h1 auto.
  assert (forall (b : bool) key ks h, managers_inv ios (mset c ks a) h -> Forall key_shape (if b then [key] else []) ->
    managers_inv ios (mset c (ks ++ if b then [key] else []) a) (when b (add_manager key c auto (created ios key)) h).2) as Hadd.
  { intros b key ks0 h0 H0 Hk. destruct b; [apply add_inv; [done|by apply (Forall_inv Hk)]|by rewrite app_nil_r]. }
  pose proof (Hadd _ _ _ _ Hi1 S1) as I1. pose proof (Hadd _ _ _ _ I1 S2) as I2. pose proof (Hadd _ _ _ _ I2 S3) as I3.
  pose proof (Hadd _ _ _ _ I3 S4) as I4. pose proof (Hadd _ _ _ _ I4 S5) as I5. by rewrite <- !app_assoc in I5.
Qed.

Lemma connect_inv ios c rep f now a h : managers_inv ios a h -> Forall key_shape (requested f) ->
  managers_inv ios (ask c (requested f) a) (handleControlConnected c rep f now h).2.
Proof.
  intros Hi Hs. unfold handleControlConnected. set (manual := truthy _).
  match goal with |- context [seq_ops ?ops ?x] => set (h1 := x); set (all := ops) end.
  assert (managers_inv ios (mset c (default [] (mget c a)) a) h1) as H1.
  { assert (h_enabledManagers h1 = h_enabledManagers h /\ pc_devicesManager (h_physicalConnector h1) = pc_devicesManager (h_physicalConnector h) /\
      pc_nextManager (h_physicalConnector h1) = pc_nextManager (h_physicalConnector h) /\ h_option h1 = h_option h /\
      h_activeControlIds h1 = sadd c (h_activeControlIds h)) as (E1 & E2 & E3 & E4 & E5) by (unfold h1; by destruct manual, rep).
    clearbody h1. destruct Hi as [A0 A1 A2 A3 A4 [A5 A5'] A6]. split; rewrite ?E1, ?E4; try done.
    - intros c'. rewrite E5, elem_of_sadd, <- A1. unfold mhas. rewrite mget_mset. case_decide; naive_solver.
    - intros k c'. rewrite A3, mget_mset. by case_decide as E; [subst; destruct (mget c a)|].
    - split; by rewrite ?E2, ?E3.
    - unfold objects. by rewrite E2. }
  clearbody h1. destruct (seq_ops all h1) as [e1 h2] eqn:E. cbn [snd]. change h2 with (e1, h2).2. rewrite <- E. unfold all. clear E.
  rewrite !seq_after. cbn [seq_ops snd]. set (h3 := if truthy _ then _ else _).
  assert (managers_inv ios (mset c (default [] (mget c a)) a) h3) as H3.
  { eapply (held_inv _ _ h1); [|exact H1]. unfold h3. match goal with |- context [when ?b ?g ?x] => assert (held (when b g x).2 = held x) as Ew end.
    { destruct manual; [done|]. apply held_report. }
    rewrite held_report_status in Ew. match goal with |- held (if ?b then _ else _) = _ => destruct b end; exact Ew. }
  pose proof (add_all_inv ios c f a _ h3 H3 Hs) as H4. unfold ask. by destruct manual.
Qed.

Lemma disconnect_inv ios c now a h : managers_inv ios a h -> managers_inv ios (mdel c a) (handleControlDisconnected c now h).2.
Proof.
  intros Hi. unfold handleControlDisconnected. match goal with |- context [updateReportStatus ?x] => set (h2 := x) end.
  pose proof (held_report_status h2) as Hr. destruct (updateReportStatus h2) as [e1 h3]. cbn [snd] in Hr.
  assert (held h2 = (h_enabledManagers h, pc_devicesManager (h_physicalConnector h), pc_nextManager (h_physicalConnector h), h_option h,
    sdel c (h_activeControlIds h))) as E2 by done. rewrite E2 in Hr. clear E2. injection Hr as R1 R2 R3 R4 R5. clearbody h2.
  set (h4 := h3 <| h_webSocketRequesterControlIds ::= sdel c |>). unfold releasePhysicalDeviceManagers.
  change (h_enabledManagers h4) with (h_enabledManagers h3). change (h_physicalConnector h4) with (h_physicalConnector h3). rewrite R1.
  destruct Hi as [A0 A1 A2 A3 A4 [A5 A5'] A6]. unfold objects in A6.
  assert (objects_wf (h_physicalConnector h3)) as Hwf by (split; by rewrite ?R2, ?R3).
  pose proof (release_inv c (created ios) (h_enabledManagers h) [] (h_physicalConnector h3) (ew_keys _ A2) (ew_shape _ A2)
    (Forall_nil_2 _) Hwf ltac:(unfold objects; by rewrite R2)) as Hrel.
  destruct (release_managers c (h_enabledManagers h) (h_physicalConnector h3)) as [[e2 ms] p]. destruct Hrel as (P1 & P2 & P3 & P4 & P5).
  cbn [app] in P2. match goal with |- context [clearByControlId c ?t] => destruct (clearByControlId c t) as [rs t'] end. cbn [snd].
  eapply held_inv; [apply held_schedule|]. split; hcbn.
  - change (ho_iosSupported (h_option h3) = ios). by rewrite R4.
  - change (forall c', mhas c' (mdel c a) = true <-> c' ∈ h_activeControlIds h3). intros c'. rewrite R5, elem_of_sdel, <- A1. unfold mhas. rewrite mget_mdel. case_decide; naive_solver.
  - split; [by eapply sublist_NoDup; [apply A2|]|]. intros m Hm. assert (em_key m ∈ em_key <$> h_enabledManagers h) as Hk
      by (eapply elem_of_submseteq; [by apply list_elem_of_fmap_2|by apply sublist_submseteq]). apply list_elem_of_fmap in Hk as (m' & -> & Hm'). by apply (ew_shape _ A2).
  - intros k c'. rewrite P4, A3, mget_mdel. case_decide as E; [subst; cbn; split; [tauto|by intros ?%not_elem_of_nil]|tauto].
  - by apply P5.
  - done.
  - done.
Qed.

Lemma watch_inv ios c q err now a h : managers_inv ios a h -> c ∈ h_activeControlIds h -> rq_method q = Protocol.watchNetworkDeviceAtIp ->
  managers_inv ios (ask c [network_key (Some (rq_params q))] a) (handleControlRpc c q err now h).2.
Proof.
  intros Hi Hc Hq. unfold handleControlRpc. rewrite Hq. unfold answer_after, addNetworkManager. cbn [snd]. unfold ask.
  apply (add_inv ios (network_key (Some (rq_params q))) c true a (default [] (mget c a)) h); [|unfold network_key; auto].
  assert (exists ks, mget c a = Some ks) as [ks Hks].
  { pose proof (proj2 (mi_active _ a h Hi c) Hc) as X. unfold mhas in X. destruct (mget c a); [eauto|done]. }
  rewrite Hks. cbn [default]. unfold id. by rewrite mset_same.
Qed.

(** ** Runs *)

Lemma managers_step ios op a d : managers_inv ios a (d_host d) -> integer_ports op -> managers_inv ios (ask_step op a) (d_host (daemon_step op d).2).
Proof.
  intros Hi Hp. destruct op as [op|i r now]; cbn [daemon_step].
  - assert (managers_inv ios (ask_step (DHost op) a) (host_step op (d_host d)).2) as H; [|by destruct (host_step op (d_host d))].
    destruct (holder_op op) eqn:Eh.
    + destruct op as [c rep f now|c now|c q err now| | | | | | | | | | | | | | ]; try done; cbn [ask_step host_step].
      * apply connect_inv; [done|]. apply requested_shape. by destruct f.
      * by apply disconnect_inv.
      * cbn [holder_op] in Eh. apply bool_decide_eq_true in Eh. rewrite Eh. pose proof (mi_active _ _ _ Hi c) as Ha.
        destruct (mhas c a) eqn:Em.
        -- pose proof (proj1 Ha eq_refl) as Hc. unfold shas. rewrite bool_decide_eq_true_2 by done. by apply watch_inv.
        -- unfold shas. rewrite bool_decide_eq_false_2; [done|]. intros X. apply Ha in X. congruence.
    + eapply held_inv; [by apply held_step|]. destruct op; try done. cbn [ask_step holder_op] in *.
      apply bool_decide_eq_false in Eh. by destruct (rq_method q).
  - destruct (d_suspended d !! i) as [[cb aw]|]; [|done]. pose proof (held_resume cb aw r now (d_host d)) as H.
    destruct (resume cb aw r now (d_host d)) as [[es h] aw']. by eapply held_inv.
Qed.

Lemma managers_run ios ops : forall a d, managers_inv ios a (d_host d) -> Forall integer_ports ops ->
  managers_inv ios (fold_left (fun a op => ask_step op a) ops a) (d_host (daemon_run ops d).2).
Proof.
  induction ops as [|op ops IH]; intros a d Hi Hp; [done|]. apply list.Forall_cons in Hp as [Hp Hps]. cbn [fold_left daemon_run].
  pose proof (managers_step ios op a d Hi Hp) as H. destruct (daemon_step op d) as [e1 d1]. specialize (IH _ d1 H Hps).
  by destruct (daemon_run ops d1).
Qed.

(** C13: Device managers live exactly as long as a connected control needs them.
    In every state of a run of the daemon, for registrations whose ports are
    integers, a control holds a device manager if and only if it is connected and
    has asked for it since it connected, by the options it registered with or by
    [watchNetworkDeviceAtIp]; no manager is without a holder or listed twice; and
    the manager objects of the physical connector are exactly the listed ones, in
    their order, except that there is none for iOS on a platform that does not
    support it.  So a manager is closed when the last control that asked for it
    disconnects, although the comment on the connector's constructor says that a
    disconnection does not remove listeners. *)
Theorem managers_held_by_controls ops o now : Forall integer_ports ops ->
  let h := d_host (daemon_run ops (ready_daemon o now)).2 in
  (forall c k, (exists m, m ∈ h_enabledManagers h /\ em_key m = k /\ c ∈ em_controlIds m) <->
     exists ks, mget c (asked ops) = Some ks /\ k ∈ ks) /\
  (forall c, c ∈ h_activeControlIds h <-> c ∈ mkeys (asked ops)) /\
  (forall m, m ∈ h_enabledManagers h -> em_controlIds m <> []) /\ NoDup (em_key <$> h_enabledManagers h) /\
  mvals (pc_devicesManager (h_physicalConnector h)) =
    List.filter (fun k => ho_iosSupported o || negb (bool_decide (dm_platform k = ios))) (em_key <$> h_enabledManagers h).
Proof.
  intros Hp h. assert (managers_inv (ho_iosSupported o) [] (d_host (ready_daemon o now))) as H0.
  { assert (held (d_host (ready_daemon o now)) = held (new_host o)) as E by (unfold ready_daemon, ready_host, start_ends_host; cbn [d_host]; set (h0 := control_server_started _); assert (h_lifecycleStatus h0 = uninitialized) as -> by done; by rewrite held_schedule).
    apply (held_inv _ _ _ _ E). clear E. split; [done| |split| |by intros m ?%not_elem_of_nil|split|done]; try apply NoDup_nil_2; try (by intros m ?%not_elem_of_nil).
    - intros c. split; [done|by intros ?%not_elem_of_nil].
    - intros k c. split; [intros (m & ?%not_elem_of_nil & _); done|by intros ?%not_elem_of_nil]. }
  pose proof (managers_run _ ops [] _ H0 Hp) as [A0 A1 A2 A3 A4 A5 A6]. fold h in A1, A2, A3, A4, A5, A6. fold (asked ops) in A1, A3.
  split_and!; [| |done|apply A2|].
  - intros c k. change (holds (h_enabledManagers h) k c <-> exists ks, mget c (asked ops) = Some ks /\ k ∈ ks).
    rewrite A3. destruct (mget c (asked ops)) as [ks|]; cbn; [naive_solver|]. split; [by intros ?%not_elem_of_nil|naive_solver].
  - intros c. rewrite <- A1. unfold mhas. destruct (mget c (asked ops)) as [ks|] eqn:E.
    + split; [intros _|done]. apply mget_In in E. unfold mkeys. apply list_elem_of_fmap. by exists (c, ks).
    + apply mget_None_keys in E. done.
  - unfold objects in A6. rewrite A6. apply List.filter_ext. intros k. unfold created.
    destruct (dm_platform k); cbn; by destruct (ho_iosSupported o).
Qed.

(** Two connectors with the default options, one of which watches an address too;
    the first one leaves. *)
Definition holders_run : list daemon_op :=
  [DHost (HConnect 1 false None 1); DHost (HConnect 2 false (Some (JObj [(js "enableAndroid", JBool true); (js "enableDesktop", JBool true)])) 2);
   DHost (HRpc 2 (mkRequest (NInt 1) Protocol.watchNetworkDeviceAtIp (JObj [(js "ip", jstring "10.0.0.7")])) None 3);
   DHost (HDisconnect 1 4)].

Lemma managers_held_by_controls_witness :
  let h := d_host (daemon_run holders_run (ready_daemon demo_option 0)).2 in
  List.map em_controlIds (h_enabledManagers h) = [[2]; [2]; [2]] /\
  (exists m, m ∈ h_enabledManagers h /\ em_key m = desktop_key /\ 2 ∈ em_controlIds m) /\
  ~ (exists m, m ∈ h_enabledManagers h /\ em_key m = ios_key /\ 1 ∈ em_controlIds m).
Proof.
  destruct (managers_held_by_controls holders_run demo_option 0) as (H & _); [repeat constructor|].
  split; [vm_compute; reflexivity|]. split.
  - apply H. eexists. split; [vm_compute; reflexivity|]. vm_compute. repeat constructor.
  - intros X. apply H in X as (ks & X & _). vm_compute in X. discriminate X.
Defined.
