(* ===== verification/HostLife.v ===== *)
(** * The life of a daemon host

    [start] and [stop] of [daemon/MultiplexerDaemonHost.ts] with what they wait
    for, the legacy ownership guard they start and stop, the service of reports
    of the process, and the calls and events that go on meanwhile.  An answer of
    a server, of the guard's lock or of the connector is a step, so that starts,
    stops, failures and requests interleave in any order. *)

From Stdlib Require Import String.
From stdpp Require Import sets.
From S2P Require Import JsValue Json Protocol PendingRoutes MemoTable Message ReportBridge.
From S2P Require Import Ownership Physical WebSocket Host Routing HostRpc HostRun DaemonRun.

(** ** State *)

(** [startingPromise] is set while a start listens or claims; a start that failed
    waits for the stop it called. *)
Inductive start_phase :=
  | StartIdle
  | StartListens
  | StartClaims
  | StartRollsBack (e : thrown)
  | StartOver (error : option thrown).

Inductive stop_phase :=
  | StopIdle
  | StopAwaitsStart
  | StopAwaitsServer
  | StopClosesServer
  | StopClosesControl
  | StopClosesPhysical
  | StopClosesTrace
  | StopOver.
#[export] Instance stop_phase_eq_dec : EqDecision stop_phase.
Proof. solve_decision. Defined.

(** The control server of a start: it has sockets while it listens, while it is
    being closed and, if that fails, afterwards. *)
Inductive endpoint_state := EpNone | EpOpening | EpOpen | EpClosing | EpClosed | EpStuck.
#[export] Instance endpoint_state_eq_dec : EqDecision endpoint_state.
Proof. solve_decision. Defined.

Record Life := mkLife {
  l_daemon : Daemon;
  l_guard : GuardState;
  l_monitors : nat;                  (* calls of [monitor] that await the lock *)
  l_bound : bool;                    (* listens to the events of the connector *)
  l_control : endpoint_state;
  l_sockets : bool;                  (* there may be sockets of a WebSocket server *)
  l_start : start_phase;
  l_stop : stop_phase;
  l_stopErrors : list thrown;
  l_reportService : bool;            (* the service of the process is the bridge of the host *)
  l_trace : bool                     (* there is a trace recorder *)
}.

#[export] Instance eta_life : Eta Life := fun l =>
  mkLife (l_daemon l) (l_guard l) (l_monitors l) (l_bound l) (l_control l) (l_sockets l) (l_start l) (l_stop l)
    (l_stopErrors l) (l_reportService l) (l_trace l).

Ltac lcbn := cbn [set_field eta eta_life l_daemon l_guard l_monitors l_bound l_control l_sockets l_start l_stop
  l_stopErrors l_reportService l_trace d_host d_suspended fst snd].

Definition l_host (l : Life) : Host := d_host (l_daemon l).
Definition put_host (h : Host) (l : Life) : Life := l <| l_daemon := mkDaemon h (d_suspended (l_daemon l)) |>.

(** [setDriverReportService] and [getDriverReportService]. *)
Definition setDriverReportService (service : bool) (l : Life) : Life := l <| l_reportService := service |>.
Definition getDriverReportService (l : Life) : bool := l_reportService l.

(** The constructor, with the handlers of the entry point. *)
Definition new_life (o : HostOption) (file : option jstr) (lock trace : bool) : Life :=
  setDriverReportService true
    (mkLife (mkDaemon (setShutdownHandler (setIdleTimeoutHandler (new_host o))) []) (mkGuardState new_guard file lock) 0
       false EpNone false StartIdle StopIdle [] false trace).

(** What is done to the outside: effects of the host, and the resources that are
    opened and closed. *)
Inductive life_effect :=
  | Does (e : effect)
  | OpensControl
  | ClosesControl
  | OpensServer
  | ClosesServer
  | ClosesPhysical
  | ClosesTrace.

(** ** Stopping *)

Definition error_text (e : thrown) : jstr :=
  match e with ThrowError m => m | ThrowCode _ _ => js "[object Object]" end.

Fixpoint join_semicolon (l : list jstr) : jstr :=
  match l with
  | [] => []
  | [s] => s
  | s :: l' => s ++ js "; " ++ join_semicolon l'
  end.

Definition createStopError (errors : list thrown) : thrown :=
  ThrowError (js "Failed to stop multiplexer host: " ++ join_semicolon (List.map error_text errors)).

(** The parts of [stopInternal], the last one first. *)
Definition stop_ends (l : Life) : Life := l <| l_stop := StopOver |>.

Definition stop_trace (l : Life) : list life_effect * Life :=
  if l_trace l then ([ClosesTrace], l <| l_stop := StopClosesTrace |>) else ([], stop_ends l).

Definition stop_cleared (l : Life) : list life_effect * Life :=
  let '(e, h) := stopInternal_cleared (l_host l) in
  let '(e', l) := stop_trace (put_host h l) in (List.map Does e ++ e', l).

Definition stop_physical (l : Life) : list life_effect * Life :=
  let '(e, h) := stopInternal_physical (l_host l) in
  (List.map Does e ++ [ClosesPhysical], (put_host h l) <| l_stop := StopClosesPhysical |>).

Definition stop_control (l : Life) : list life_effect * Life :=
  let published := h_controlServer (l_host l) in
  let l := put_host (stopInternal_control (l_host l)) l in
  if published then ([ClosesControl], l <| l_control := EpClosing |> <| l_stop := StopClosesControl |>)
  else stop_physical l.

Definition stop_internal (l : Life) : list life_effect * Life :=
  let controller := h_webSocketController (l_host l) in
  let '(e, h) := stopInternal (l_host l) in
  let l := put_host h (l <| l_guard ::= stop |> <| l_bound := false |>) in
  match controller with
  | Some _ => (ClosesServer :: List.map Does e, l <| l_stop := StopClosesServer |>)
  | None => let '(e', l) := stop_control l in (List.map Does e ++ e', l)
  end.

(** After a start in progress has settled. *)
Definition stop_started (l : Life) : list life_effect * Life :=
  if h_webSocketServerStarting (l_host l) then ([], l <| l_stop := StopAwaitsServer |>) else stop_internal l.

Definition startingPromise (l : Life) : bool := match l_start l with StartListens | StartClaims => true | _ => false end.

(** [stop]; true if it is the first call, which the others do not wait for. *)
Definition life_stop (l : Life) : bool * (list life_effect * Life) :=
  let '(first, h) := stop_host (l_host l) in
  if first then
    let l := setDriverReportService false (put_host h l) in
    (true, if startingPromise l then ([], l <| l_stop := StopAwaitsStart |>) else stop_started l)
  else (false, ([], l)).

(** ** Starting *)

(** [start]; [bindPhysicalConnectorEvents] and the control server up to its
    [listen].  A start in progress is shared. *)
Definition life_start (l : Life) : Life :=
  if startingPromise l then l
  else
    let '(goes, h) := start_host (l_host l) in
    if goes then (put_host h l) <| l_bound := true |> <| l_control := EpOpening |> <| l_start := StartListens |> else l.

Definition start_over (now : Z) (l : Life) : Life :=
  (put_host (start_ends_host now (l_host l)) l) <| l_start := StartOver None |>.

(** The server listens and is published; the guard starts. *)
Definition start_listened (env : GuardEnv) (now : Z) (l : Life) : list life_effect * Life :=
  let '(claims, g) := start_begins env (l_guard l) in
  let h := (control_server_started (l_host l)) <| h_ownershipStatus := g_currentStatus (gs_guard g) |> in
  let l := (put_host h l) <| l_control := EpOpen |> <| l_guard := g |> in
  ([OpensControl], if claims then l <| l_start := StartClaims |> else start_over now l).

(** The rejected start takes the promise away, calls [stop], which waits only if
    it is the first call, and throws. *)
Definition start_fails (e : thrown) (l : Life) : list life_effect * Life :=
  let l := l <| l_control := EpNone |> <| l_start := StartRollsBack e |> in
  let '(first, (es, l)) := life_stop l in
  (es, if first then l else l <| l_start := StartOver (Some e) |>).

Definition rolled_back (e : thrown) (l : Life) : Life :=
  l <| l_start := StartOver (Some (match l_stopErrors l with [] => e | errors => createStopError errors end)) |>.

(** ** Steps *)

Inductive life_op :=
  | LStart
  | LListened (now : Z)
  | LListenFailed (e : thrown)
  | LClaimed (lenv : LockEnv) (now : Z)            (* the claim of [start] has its lock *)
  | LRolledBack                                    (* the stop of a failed start has ended *)
  | LStop
  | LStopResumes                                   (* what [stop] waits for has settled *)
  | LServerClosed (error : option thrown)
  | LControlClosed (error : option thrown)
  | LPhysicalClosed (error : option thrown)
  | LTraceClosed (error : option thrown)
  | LMonitorBegins
  | LMonitorWorks (lenv : LockEnv) (now : Z)
  | LReacquires (lenv : LockEnv) (now : Z)         (* for a call that waits for the ownership *)
  | LOthers (file : option jstr) (lock : bool)     (* other processes write the owner file *)
  | LDaemon (op : daemon_op).

Fixpoint tell_ownership (cs : list OwnershipChange) (now : Z) (h : Host) : list effect * Host :=
  match cs with
  | [] => ([], h)
  | c :: cs' =>
      let '(e1, h) := handleLegacyOwnershipChanged c now h in
      let '(e2, h) := tell_ownership cs' now h in (e1 ++ e2, h)
  end.

(** Work of the guard under the lock; the host hears of its changes. *)
Definition guard_works (r : list OwnershipChange * bool * GuardState) (now : Z) (l : Life) : list life_effect * Life :=
  let '(cs, _, g) := r in
  let '(e, h) := tell_ownership cs now (l_host l) in (List.map Does e, put_host h (l <| l_guard := g |>)).

Definition has_controls (l : Life) : bool :=
  match l_control l with EpOpen | EpClosing | EpStuck => true | _ => false end.

Definition controller_made (h : Host) : bool := match h_webSocketController h with Some _ => true | None => false end.

(** The events of the host there can be: requests need a control connection,
    messages of front ends and apps a socket, events of the connector a listener;
    a WebSocket server is created, listens or fails while it is being started;
    changes of the ownership come from the guard. *)
Definition admits (op : daemon_op) (l : Life) : bool :=
  match op with
  | DHost (HConnect _ _ _ _) | DHost (HRpc _ _ _ _) => has_controls l
  | DHost (HRuntimeMessage _ _ usb_runtime _) => l_bound l
  | DHost (HRuntimeMessage _ _ _ _) | DHost (HDriverMessage _ _ _ _ _) | DHost (HWsRegistered _ _)
  | DHost (HWsClosed _ _) | DHost (HWsMessage _ _) => l_sockets l
  | DHost (HOwnership _ _) => false
  | DHost (HWsController _) => h_webSocketServerStarting (l_host l) && negb (controller_made (l_host l))
  | DHost (HWsStarted _) => h_webSocketServerStarting (l_host l) && controller_made (l_host l)
  | DHost HWsFailed => h_webSocketServerStarting (l_host l)
  | _ => true
  end.

(** The servers a step of the host opens and closes. *)
Definition server_effects (op : daemon_op) (l : Life) : list life_effect :=
  match op with
  | DHost (HWsController _) => [OpensServer]
  | DHost HWsFailed => if controller_made (l_host l) then [ClosesServer] else []
  | _ => []
  end.

Definition opens_sockets (op : daemon_op) : bool := match op with DHost (HWsController _) => true | _ => false end.

Definition is_emit (e : phys_effect) : bool := match e with PEmit _ => true | _ => false end.

(** Without listeners the connector changes on its own. *)
Definition life_daemon (op : daemon_op) (l : Life) : list life_effect * Life :=
  if negb (admits op l) then ([], l)
  else
    match op, l_bound l with
    | DHost (HRegistry r _), false =>
        let '(es, p) := registry_step r (h_physicalConnector (l_host l)) in
        (List.map Does (List.map Phys (List.filter (fun e => negb (is_emit e)) es)),
         put_host ((l_host l) <| h_physicalConnector := p |>) l)
    | _, _ =>
        let '(es, d) := daemon_step op (l_daemon l) in
        (server_effects op l ++ List.map Does es,
         l <| l_daemon := d |> <| l_sockets := l_sockets l || opens_sockets op |>)
    end.

Definition failed (error : option thrown) (l : Life) : Life := l <| l_stopErrors ::= (fun es => es ++ opt_list error) |>.

Definition life_step (env : GuardEnv) (op : life_op) (l : Life) : list life_effect * Life :=
  match op, l_start l, l_stop l with
  | LStart, _, _ => ([], life_start l)
  | LListened now, StartListens, _ => start_listened env now l
  | LListenFailed e, StartListens, _ => start_fails e l
  | LClaimed lenv now, StartClaims, _ =>
      let '(es, l) := guard_works (claim env lenv daemon_started (l_guard l)) now l in
      (es, start_over now (l <| l_guard ::= start_ends |>))
  | LRolledBack, StartRollsBack e, StopOver => ([], rolled_back e l)
  | LStop, _, _ => (life_stop l).2
  | LStopResumes, _, StopAwaitsStart => if startingPromise l then ([], l) else stop_started l
  | LStopResumes, _, StopAwaitsServer => if h_webSocketServerStarting (l_host l) then ([], l) else stop_internal l
  | LServerClosed error, _, StopClosesServer =>
      stop_control (failed error (l <| l_sockets := bool_decide (error <> None) |>))
  | LControlClosed error, _, StopClosesControl =>
      stop_physical (failed error (l <| l_control := match error with None => EpClosed | Some _ => EpStuck end |>))
  | LPhysicalClosed error, _, StopClosesPhysical => stop_cleared (failed error l)
  | LTraceClosed error, _, StopClosesTrace => ([], stop_ends (failed error l))
  | LMonitorBegins, _, _ =>
      ([], if g_monitorTimer (gs_guard (l_guard l)) && monitor_begins (l_guard l) then l <| l_monitors ::= S |> else l)
  | LMonitorWorks lenv now, _, _ =>
      match l_monitors l with
      | O => ([], l)
      | S n => guard_works (monitor env lenv (l_guard l)) now (l <| l_monitors := n |>)
      end
  | LReacquires lenv now, _, _ =>
      if List.existsb (fun q => match q.2 with AwOwnership => true | _ => false end) (d_suspended (l_daemon l))
      then guard_works (reacquire env lenv (l_guard l)) now l else ([], l)
  | LOthers file lock, _, _ => ([], l <| l_guard ::= (fun g => g <| gs_file := file |> <| gs_lock := lock |>) |>)
  | LDaemon op, _, _ => life_daemon op l
  | _, _, _ => ([], l)
  end.

Fixpoint life_run (env : GuardEnv) (ops : list life_op) (l : Life) : list life_effect * Life :=
  match ops with
  | [] => ([], l)
  | op :: ops' =>
      let '(e1, l) := life_step env op l in
      let '(e2, l) := life_run env ops' l in (e1 ++ e2, l)
  end.

(** ** What the operations of the host leave alone *)

(** Nothing but start and stop changes the lifecycle, and a closed host starts no
    timer and no server. *)
Record frame (h h' : Host) : Prop := {
  fr_status : h_lifecycleStatus h' = h_lifecycleStatus h;
  fr_control : h_controlServer h' = h_controlServer h;
  fr_made : controller_made h' = controller_made h;
  fr_closed : h_lifecycleStatus h = closed_ ->
    h_webSocketServerStarted h' = h_webSocketServerStarted h /\
    h_webSocketServerStarting h' = h_webSocketServerStarting h /\
    (h_idleTimer h = None -> h_idleTimer h' = None)
}.

Create HintDb frame.

Lemma life_frame_refl h : frame h h.
Proof. by split. Qed.

Lemma frame_trans h1 h2 h3 : frame h1 h2 -> frame h2 h3 -> frame h1 h3.
Proof.
  intros [A1 A2 A3 A4] [B1 B2 B3 B4]. split; [congruence..|]. intros Hc. destruct (A4 Hc) as (X1 & X2 & X3).
  rewrite <- A1 in Hc. destruct (B4 Hc) as (Y1 & Y2 & Y3). split; [congruence|]. split; [congruence|auto].
Qed.

#[export] Hint Resolve life_frame_refl : frame.

(** Closes the goals in which only other fields differ. *)
Ltac framed := solve [split; [reflexivity..|intros; auto]].
#[export] Hint Extern 1 (frame _ _) => framed : frame.

Lemma frame_schedule now h : frame h (scheduleIdleTimeoutIfNeeded now h).
Proof.
  unfold scheduleIdleTimeoutIfNeeded. destruct (bool_decide (h_lifecycleStatus h = ready)) eqn:E; cbn [negb orb]; [|auto with frame].
  destruct (negb _); [auto with frame|]. case_match; [auto with frame|]. apply bool_decide_eq_true in E.
  split; [reflexivity..|]. congruence.
Qed.

Lemma frame_seq ops : Forall (fun f => forall h, frame h (f h).2) ops -> forall h, frame h (seq_ops ops h).2.
Proof.
  induction 1 as [|f ops Hf _ IH]; intros h; cbn [seq_ops]; [auto with frame|].
  specialize (Hf h). destruct (f h) as [e1 h1]. specialize (IH h1). destruct (seq_ops ops h1). by eapply frame_trans.
Qed.

Lemma frame_when b f : (forall h, frame h (f h).2) -> forall h, frame h (when b f h).2.
Proof. intros Hf h. unfold when. destruct b; [auto|auto with frame]. Qed.

Lemma frame_report n m c h : frame h (host_report n m c h).2.
Proof. unfold host_report. destruct (report _ _ _ _ _). auto with frame. Qed.

Lemma frame_report_status h : frame h (updateReportStatus h).2.
Proof. unfold updateReportStatus. repeat case_match; auto with frame. Qed.

Lemma frame_add_manager key c auto sup h : frame h (add_manager key c auto sup h).2.
Proof.
  unfold add_manager, addManagerControl. destruct (add_to_managers _ _ _). destruct (_ && _); [|auto with frame].
  destruct (addDeviceManager _ _ _). auto with frame.
Qed.
#[export] Hint Resolve frame_schedule frame_report frame_report_status frame_add_manager : frame.

Lemma frame_add_managers c o h : frame h (addPhysicalDeviceManagers c o h).2.
Proof.
  unfold addPhysicalDeviceManagers, addNetworkManager. set (h1 := if truthy _ then _ else _).
  apply (frame_trans h h1); [unfold h1; case_match; auto with frame|].
  apply frame_seq. repeat (apply Forall_cons_2; [intros; apply frame_when; intros; auto with frame|]). apply Forall_nil_2.
Qed.

Lemma frame_connected c rep facade now h : frame h (handleControlConnected c rep facade now h).2.
Proof.
  unfold handleControlConnected. match goal with |- context [seq_ops ?ops ?x] => set (h1 := x);
    assert (Forall (fun f => forall h, frame h (f h).2) ops) as Hs; [|pose proof (frame_seq ops Hs h1) as H;
    destruct (seq_ops ops h1) as [e1 h2]] end.
  - repeat (apply Forall_cons_2; [intros; first [solve [auto using frame_add_managers with frame]
      | apply frame_when; intros; solve [auto with frame] | cbn [snd]; case_match; auto with frame]|]). apply Forall_nil_2.
  - cbn [snd] in *. eapply frame_trans; [|exact H]. unfold h1, clearIdleTimeout. repeat case_match; framed.
Qed.

Lemma frame_release c h : frame h (releasePhysicalDeviceManagers c h).2.
Proof. unfold releasePhysicalDeviceManagers. destruct (release_managers _ _ _) as [[??]?]. auto with frame. Qed.

Lemma frame_disconnected c now h : frame h (handleControlDisconnected c now h).2.
Proof.
  unfold handleControlDisconnected. match goal with |- context [updateReportStatus ?x] => set (h1 := x);
    pose proof (frame_report_status h1) as H1; destruct (updateReportStatus h1) as [e1 h2] end.
  match goal with |- context [releasePhysicalDeviceManagers c ?x] => set (h3 := x);
    pose proof (frame_release c h3) as H3; destruct (releasePhysicalDeviceManagers c h3) as [e2 h4] end.
  destruct (clearByControlId _ _). cbn [snd] in *. apply (frame_trans h h1); [framed|]. apply (frame_trans h1 h2); [done|].
  apply (frame_trans h2 h3); [framed|]. apply (frame_trans h3 h4); [done|]. eapply frame_trans; [|apply frame_schedule]. framed.
Qed.

Lemma frame_ws_connected id driver now h : frame h (handleWebSocketClientConnected id driver now h).2.
Proof. unfold handleWebSocketClientConnected, clearIdleTimeout. case_match; framed. Qed.

Lemma frame_drop id h : frame h (drop_runtime id h).2.
Proof. unfold drop_runtime. destruct (clearByClientId _ _). framed. Qed.

Lemma frame_ws_disconnected id driver now h : frame h (handleWebSocketClientDisconnected id driver now h).2.
Proof.
  unfold handleWebSocketClientDisconnected. destruct driver.
  - destruct (clearByWebClientId _ _). cbn [snd]. eapply frame_trans; [|apply frame_schedule]. framed.
  - pose proof (frame_drop id h) as H. by destruct (drop_runtime id h).
Qed.

Lemma frame_emit e now h : frame h (emit e now h).2.
Proof. destruct e; cbn [emit snd]; auto using frame_ws_connected, frame_ws_disconnected with frame. Qed.

Lemma frame_ws_registered i now h : frame h (ws_registered i now h).2.
Proof.
  unfold ws_registered. destruct (h_webSocketController h) as [c|] eqn:Ec; [|auto with frame].
  match goal with |- context [emit ?e now ?x] => set (h1 := x); pose proof (frame_emit e now h1) as H; destruct (emit e now h1) end.
  cbn [snd] in *. apply (frame_trans h h1); [|done]. split; [done|done| |auto]. unfold controller_made. hcbn. by rewrite Ec.
Qed.

Lemma frame_ws_closed id now h : frame h (ws_closed id now h).2.
Proof.
  unfold ws_closed. destruct (h_webSocketController h) as [c|] eqn:Ec; [|auto with frame].
  destruct (handleDisconnect id c) as [[app web] c']. set (h1 := h <| h_webSocketController := Some c' |>).
  assert (forall (b : bool) e h, frame h (if b then emit e now h else ([], h)).2) as He
    by (intros []; auto using frame_emit with frame).
  pose proof (He app (WsAppDisconnected id) h1) as H1. destruct (if app then _ else _) as [e1 h2].
  pose proof (He web (WsWebDisconnected id) h2) as H2. destruct (if web then _ else _) as [e2 h3].
  cbn [snd] in *. apply (frame_trans h h1); [|by eapply frame_trans]. split; [done|done| |auto]. unfold controller_made. hcbn. by rewrite Ec.
Qed.

Lemma frame_watcher d h : frame h (ensureClientWatcher d h).2.
Proof. unfold ensureClientWatcher. repeat case_match; framed. Qed.

Lemma frame_phys_event e now h : frame h (handle_phys_event e now h).2.
Proof.
  destruct e; cbn [handle_phys_event].
  - unfold handleDeviceConnected. repeat case_match; cbn [snd]; auto using frame_watcher with frame.
  - unfold handleDeviceDisconnected. repeat case_match; framed.
  - unfold handleClientConnected. repeat case_match; framed.
  - unfold handleClientDisconnected. case_match; [framed|]. pose proof (frame_drop id h) as Hd. by destruct (drop_runtime id h).
Qed.

Lemma frame_phys_effects es now : forall h, frame h (handle_phys_effects es now h).2.
Proof.
  induction es as [|e es IH]; intros h; cbn [handle_phys_effects]; [auto with frame|].
  destruct e; try (specialize (IH h); by destruct (handle_phys_effects es now h)).
  pose proof (frame_phys_event e now h) as H. destruct (handle_phys_event e now h) as [e1 h1]. specialize (IH h1).
  destruct (handle_phys_effects es now h1). by eapply frame_trans.
Qed.

Lemma frame_ownership c now h : frame h (handleLegacyOwnershipChanged c now h).2.
Proof.
  unfold handleLegacyOwnershipChanged, handleLegacyOwnershipLost. destruct (bool_decide _); [|framed]. destruct (clear _). framed.
Qed.

Lemma frame_send id m target err now h : frame h (sendMessageToRuntime id m target err now h).2.
Proof.
  unfold sendMessageToRuntime, forward_to_runtime, rewriteOutboundMessageData.
  repeat (case_match; simplify_eq; cbn [snd]); framed.
Qed.

Lemma frame_reply id m timeout c rpc err now h : frame h (sendMessageWithReply id m timeout c rpc err now h).2.
Proof.
  unfold sendMessageWithReply. case_match; match goal with |- context [sendMessageToRuntime ?a ?b ?c ?d ?e ?f] =>
    pose proof (frame_send a b c d e f) as H'; destruct (sendMessageToRuntime a b c d e f) as [[??]?] end; done.
Qed.

Lemma frame_without_reply toWeb id m c err now h : frame h (sendMessageWithoutReply toWeb id m c err now h).2.
Proof. unfold sendMessageWithoutReply. case_match; [auto with frame|apply frame_send]. Qed.

Lemma frame_startWS c now h : frame h (startWSServer c now h).2.
Proof.
  unfold startWSServer. case_bool_decide as E; [auto with frame|]. repeat case_match; cbn [snd]; try framed.
  all: split; [reflexivity..|done].
Qed.

Lemma frame_rpc c q err now h : frame h (handleControlRpc c q err now h).2.
Proof.
  unfold handleControlRpc. destruct (rq_method q).
  - auto with frame.
  - unfold answer, connectUsbClients. cbn [snd]. case_match; [auto with frame|]. pose proof (frame_watcher (str_param "deviceId" (Some (rq_params q))) h) as Hw.
    destruct (ensureClientWatcher _ h) as [[]?]; done.
  - unfold answer_after, addNetworkManager. cbn [snd]. auto with frame.
  - unfold answer, startWatchClient_rpc. cbn [snd]. pose proof (frame_watcher (str_param "deviceId" (Some (rq_params q))) h) as Hw.
    destruct (ensureClientWatcher _ h) as [[]?]; done.
  - framed.
  - framed.
  - unfold requestDaemonShutdown, clearIdleTimeout. repeat case_match; simplify_eq; framed.
  - pose proof (frame_startWS c now h) as Hs. by destruct (startWSServer c now h) as [[??]?].
  - auto with frame.
  - auto with frame.
  - repeat case_match; auto using frame_reply with frame.
  - destruct (client_param _); [|auto with frame]. destruct ((Some (rq_params q))@."message"); [|auto with frame].
    match goal with |- context [sendMessageWithoutReply ?a ?b ?c ?d ?e ?f ?g] =>
      pose proof (frame_without_reply a b c d e f g) as Hs; destruct (sendMessageWithoutReply a b c d e f g) as [[??]?] end. done.
  - auto with frame.
Qed.

Lemma frame_runtime id text src now h : frame h (handleRuntimeMessage id text src now h).2.
Proof.
  unfold handleRuntimeMessage, restoreInboundMessage. repeat (case_match; simplify_eq; cbn [snd]); framed.
Qed.

(** The operations that start a WebSocket server are the exception. *)
Definition starts_server (op : host_op) : bool :=
  match op with HWsController _ | HWsStarted _ | HWsFailed => true | _ => false end.

Lemma frame_step op h : starts_server op = false -> frame h (host_step op h).2.
Proof.
  destruct op; intros Hs; try done; cbn [host_step snd].
  - apply frame_connected.
  - apply frame_disconnected.
  - case_match; [apply frame_rpc|auto with frame].
  - unfold handleUsbClientMessage, handleWebSocketAppMessage. repeat case_match; auto using frame_runtime with frame.
  - unfold handleWebSocketDriverMessage. match goal with |- context [sendMessageToRuntime ?a ?b ?c ?d ?e ?f] =>
      pose proof (frame_send a b c d e f) as H'; destruct (sendMessageToRuntime a b c d e f) as [[??]?] end. done.
  - apply frame_ws_registered.
  - apply frame_ws_closed.
  - case_match; auto using frame_emit with frame.
  - destruct (registry_step _ _) as [es p]. eapply frame_trans; [|apply frame_phys_effects]. framed.
  - apply frame_ownership.
  - unfold route_timeout_fires. destruct (timer_fires _ _). framed.
  - unfold retry_fires. repeat case_match; framed.
  - unfold idle_timer_fires. repeat case_match; cbn [snd]; framed.
  - unfold attempt_ends. repeat case_match; framed.
Qed.

Lemma frame_ensure_all ids : forall acc, frame acc.2 (fold_left (fun acc id =>
  let '(o, h) := ensureClientWatcher id acc.2 in (acc.1 ++ [o], h)) ids acc).2.
Proof.
  induction ids as [|id ids IH]; intros [os h]; cbn [fold_left fst snd]; [auto with frame|].
  pose proof (frame_watcher id h) as Hw. destruct (ensureClientWatcher id h) as [o h1]. specialize (IH (os ++ [o], h1)).
  by eapply frame_trans.
Qed.

Lemma frame_resume cb a r now h : frame h (resume cb a r now h).1.2.
Proof.
  assert (frame h (startWatchAllClients_owned h).2) as Ho by apply (frame_ensure_all _ ([], h)).
  destruct a, r; cbn [resume]; try (repeat case_match; auto with frame; fail).
  all: try (destruct (startWatchAllClients_owned h) as [os h1]; repeat case_match; done).
  all: try (unfold forceDisableAllClients, startWSServer_failed; framed).
Qed.

Lemma frame_daemon op d : (forall o, op = DHost o -> starts_server o = false) -> frame (d_host d) (d_host (daemon_step op d).2).
Proof.
  intros Hs. destruct op as [o|i r now]; cbn [daemon_step].
  - pose proof (frame_step o (d_host d) (Hs o eq_refl)) as H. by destruct (host_step o (d_host d)).
  - destruct (d_suspended d !! i) as [[cb a]|]; [|auto with frame]. pose proof (frame_resume cb a r now (d_host d)) as H.
    by destruct (resume cb a r now (d_host d)) as [[??]?].
Qed.

Lemma frame_tell cs now : forall h, frame h (tell_ownership cs now h).2.
Proof.
  induction cs as [|c cs IH]; intros h; cbn [tell_ownership]; [auto with frame|].
  pose proof (frame_ownership c now h) as H. destruct (handleLegacyOwnershipChanged c now h) as [e1 h1]. specialize (IH h1).
  destruct (tell_ownership cs now h1). by eapply frame_trans.
Qed.

(** ** Invariant *)

Definition stop_rank (p : stop_phase) : nat :=
  match p with
  | StopIdle => 0
  | StopAwaitsStart => 1
  | StopAwaitsServer => 2
  | StopClosesServer => 3
  | StopClosesControl => 4
  | StopClosesPhysical => 5
  | StopClosesTrace => 6
  | StopOver => 7
  end.

(** What [stopInternal] releases before it waits for anything: the WebSocket
    server, the listeners of the connector, the idle timer of the host and the
    timer of the ownership monitor.  The timers of requests go with the routes,
    which are cleared later ([drained]). *)
Record released (l : Life) : Prop := {
  re_made : controller_made (l_host l) = false;
  re_started : h_webSocketServerStarted (l_host l) = false;
  re_starting : h_webSocketServerStarting (l_host l) = false;
  re_idle : h_idleTimer (l_host l) = None;
  re_bound : l_bound l = false;
  re_timer : g_monitorTimer (gs_guard (l_guard l)) = false;
  re_stopped : g_stopped (gs_guard (l_guard l)) = true
}.

(** The control server in the phases of a start. *)
Definition start_ok (l : Life) : Prop :=
  match l_start l with
  | StartIdle => l_control l = EpNone
  | StartListens => l_control l = EpOpening
  | StartClaims => l_control l = EpOpen
  | StartRollsBack _ => l_control l = EpNone /\ h_lifecycleStatus (l_host l) = closed_
  | StartOver _ => l_control l <> EpOpening /\ h_lifecycleStatus (l_host l) <> uninitialized
  end.

(** Before the control server is taken away, and after it. *)
Definition published (l : Life) : Prop :=
  h_controlServer (l_host l) = bool_decide (l_control l = EpOpen) /\ l_control l ∈ [EpNone; EpOpening; EpOpen].

Definition unpublished (l : Life) : Prop :=
  h_controlServer (l_host l) = false /\
  match l_stop l with
  | StopClosesControl => l_control l = EpClosing
  | _ => l_control l ∈ [EpNone; EpClosed; EpStuck]
  end.

Record life_inv (l : Life) : Prop := {
  li_status : l_stop l = StopIdle <-> h_lifecycleStatus (l_host l) <> closed_;
  li_report : l_reportService l = bool_decide (l_stop l = StopIdle);
  li_start : start_ok l;
  li_waits : startingPromise l = true -> (stop_rank (l_stop l) <= 1)%nat;
  li_published : (stop_rank (l_stop l) <= 3)%nat -> published l;
  li_unpublished : (4 <= stop_rank (l_stop l))%nat -> unpublished l;
  li_released : (3 <= stop_rank (l_stop l))%nat -> released l
}.

(** ** The account of resources *)

Definition is_opens_control (e : life_effect) : bool := match e with OpensControl => true | _ => false end.
Definition is_closes_control (e : life_effect) : bool := match e with ClosesControl => true | _ => false end.
Definition is_opens_server (e : life_effect) : bool := match e with OpensServer => true | _ => false end.
Definition is_closes_server (e : life_effect) : bool := match e with ClosesServer => true | _ => false end.
Definition is_closes_physical (e : life_effect) : bool := match e with ClosesPhysical => true | _ => false end.
Definition is_closes_trace (e : life_effect) : bool := match e with ClosesTrace => true | _ => false end.

Definition times (p : life_effect -> bool) (es : list life_effect) : nat := List.length (List.filter p es).

Definition nat_of (b : bool) : nat := if b then 1 else 0.

Definition open_controls (l : Life) : nat := nat_of (bool_decide (l_control l = EpOpen)).
Definition open_servers (l : Life) : nat := nat_of (controller_made (l_host l)).
Definition physical_closed (l : Life) : nat := nat_of (bool_decide (5 <= stop_rank (l_stop l))%nat).
Definition trace_closed (l : Life) : nat := nat_of (l_trace l && bool_decide (6 <= stop_rank (l_stop l))%nat).

(** What a step opens is open after it or closed by it. *)
Record balanced (l : Life) (r : list life_effect * Life) : Prop := {
  ba_control : (times is_opens_control r.1 + open_controls l = times is_closes_control r.1 + open_controls r.2)%nat;
  ba_server : (times is_opens_server r.1 + open_servers l = times is_closes_server r.1 + open_servers r.2)%nat;
  ba_physical : (times is_closes_physical r.1 + physical_closed l = physical_closed r.2)%nat;
  ba_trace : (times is_closes_trace r.1 + trace_closed l = trace_closed r.2)%nat;
  ba_recorder : l_trace r.2 = l_trace l
}.

Lemma effect_times_app p a b : times p (a ++ b) = (times p a + times p b)%nat.
Proof. unfold times. by rewrite filter_app, length_app. Qed.

Lemma times_does p es : (forall e, p (Does e) = false) -> times p (List.map Does es) = 0%nat.
Proof. intros Hp. unfold times. induction es as [|e es IH]; [done|]. cbn. by rewrite Hp. Qed.

Lemma times_cons p e es : times p (e :: es) = (nat_of (p e) + times p es)%nat.
Proof. unfold times. cbn. by destruct (p e). Qed.

Lemma times_nil p : times p [] = 0%nat.
Proof. done. Qed.

Ltac counted := repeat first [rewrite effect_times_app | rewrite times_cons | rewrite times_nil | rewrite times_does by done];
  cbn [nat_of is_opens_control is_closes_control is_opens_server is_closes_server is_closes_physical is_closes_trace Nat.add].

(** Steps of the host that start or stop nothing. *)
Lemma balanced_quiet l l' es : l_control l' = l_control l -> controller_made (l_host l') = controller_made (l_host l) ->
  l_stop l' = l_stop l -> l_trace l' = l_trace l -> balanced l (List.map Does es, l').
Proof.
  intros H1 H2 H3 H4. split; cbn [fst snd]; counted;
    unfold open_controls, open_servers, physical_closed, trace_closed; rewrite ?H1, ?H2, ?H3, ?H4; reflexivity.
Qed.

(** Everything of a life but its host, its errors and its sockets. *)
Definition shell (l : Life) :=
  (g_monitorTimer (gs_guard (l_guard l)), g_stopped (gs_guard (l_guard l)), l_bound l, l_control l, l_start l, l_stop l,
   l_reportService l, l_trace l).

Lemma shell_parts l l' : shell l' = shell l ->
  g_monitorTimer (gs_guard (l_guard l')) = g_monitorTimer (gs_guard (l_guard l)) /\
  g_stopped (gs_guard (l_guard l')) = g_stopped (gs_guard (l_guard l)) /\
  l_bound l' = l_bound l /\ l_control l' = l_control l /\ l_start l' = l_start l /\ l_stop l' = l_stop l /\
  l_reportService l' = l_reportService l /\ l_trace l' = l_trace l.
Proof. intros E. unfold shell in E. injection E. intros. repeat split; assumption. Qed.

Lemma inv_framed l l' : life_inv l -> frame (l_host l) (l_host l') -> shell l' = shell l -> life_inv l'.
Proof.
  intros [I1 I2 I3 I4 I5 I6 I7] [F1 F2 F3 F4] (E1 & E2 & E3 & E4 & E5 & E6 & E7 & E8)%shell_parts.
  split.
  - by rewrite E6, F1.
  - by rewrite E7, E6.
  - unfold start_ok in *. by rewrite E5, E4, F1.
  - unfold startingPromise in *. by rewrite E5, E6.
  - rewrite E6. intros Hr. destruct (I5 Hr) as [P1 P2]. split; [by rewrite F2, E4|by rewrite E4].
  - rewrite E6. intros Hr. destruct (I6 Hr) as [P1 P2]. split; [by rewrite F2|by rewrite E6, E4].
  - rewrite E6. intros Hr. destruct (I7 Hr) as [P1 P2 P3 P4 P5 P6 P7].
    assert (h_lifecycleStatus (l_host l) = closed_) as Hc.
    { destruct (h_lifecycleStatus (l_host l)) eqn:E; [| |done]; exfalso.
      all: assert (l_stop l = StopIdle) as X by (apply I1; congruence); rewrite X in Hr; cbn in Hr; lia. }
    destruct (F4 Hc) as (G1 & G2 & G3). split; try congruence. by apply G3.
Qed.

Lemma framed_step l l' es : life_inv l -> frame (l_host l) (l_host l') -> shell l' = shell l ->
  life_inv l' /\ balanced l (List.map Does es, l').
Proof.
  intros Hi Hf Hs. split; [by eapply inv_framed|]. destruct (shell_parts _ _ Hs) as (_ & _ & _ & E4 & _ & E6 & _ & E8).
  apply balanced_quiet; [done|by destruct Hf|done|done].
Qed.

(** ** Every step keeps it *)

Lemma lock_work lenv work s : (forall s cs s', work s = Some (cs, s') ->
    g_monitorTimer (gs_guard s') = g_monitorTimer (gs_guard s) /\ g_stopped (gs_guard s') = g_stopped (gs_guard s)) ->
  let r := withLegacyLock lenv work s in
  g_monitorTimer (gs_guard r.2) = g_monitorTimer (gs_guard s) /\ g_stopped (gs_guard r.2) = g_stopped (gs_guard s).
Proof.
  intros Hw. unfold withLegacyLock. destruct (acquireLegacyLock lenv); [|done].
  destruct (work (s <| gs_lock := true |>)) as [[cs s']|] eqn:E; [|done]. by apply Hw in E.
Qed.

Lemma claim_guard env lenv reason s : let r := claim env lenv reason s in
  g_monitorTimer (gs_guard r.2) = g_monitorTimer (gs_guard s) /\ g_stopped (gs_guard r.2) = g_stopped (gs_guard s).
Proof. apply lock_work. unfold claim_work, writeOwnerPid. intros ??? H. by case_match; simplify_eq. Qed.

Lemma monitor_guard env lenv s : let r := monitor env lenv s in
  g_monitorTimer (gs_guard r.2) = g_monitorTimer (gs_guard s) /\ g_stopped (gs_guard r.2) = g_stopped (gs_guard s).
Proof.
  apply lock_work. unfold monitor_work, writeOwnerPid. intros ??? H. repeat case_match; by simplify_eq.
Qed.

Lemma reacquire_guard env lenv s : let r := reacquire env lenv s in
  g_monitorTimer (gs_guard r.2) = g_monitorTimer (gs_guard s) /\ g_stopped (gs_guard r.2) = g_stopped (gs_guard s).
Proof. unfold reacquire. case_match; [done|]. apply claim_guard. Qed.

Lemma guard_step r now l : life_inv l -> (let g := gs_guard (l_guard l) in
    g_monitorTimer (gs_guard r.2) = g_monitorTimer g /\ g_stopped (gs_guard r.2) = g_stopped g) ->
  let '(es, l') := guard_works r now l in
  life_inv l' /\ balanced l (es, l') /\ l_start l' = l_start l /\ l_stop l' = l_stop l /\ l_control l' = l_control l /\
  h_lifecycleStatus (l_host l') = h_lifecycleStatus (l_host l) /\ h_controlServer (l_host l') = h_controlServer (l_host l) /\
  g_stopped (gs_guard (l_guard l')) = g_stopped (gs_guard (l_guard l)).
Proof.
  intros Hi Hg. destruct r as [[cs ok] g]. cbn in Hg. destruct Hg as [G1 G2]. unfold guard_works.
  pose proof (frame_tell cs now (l_host l)) as Hf. destruct (tell_ownership cs now (l_host l)) as [e h]. cbn [snd] in Hf.
  assert (shell (put_host h (l <| l_guard := g |>)) = shell l) as Hs by (unfold shell, put_host; lcbn; by rewrite G1, G2).
  destruct (framed_step l (put_host h (l <| l_guard := g |>)) e Hi) as [A B]; [done|done|].
  destruct Hf. split_and!; done.
Qed.

(** A stop past its waits: what holds before its next part whatever phase it is in. *)
Record stopping (l : Life) : Prop := {
  sp_status : h_lifecycleStatus (l_host l) = closed_;
  sp_report : l_reportService l = false;
  sp_start : start_ok l;
  sp_settled : startingPromise l = false
}.

Lemma inv_stopping l : life_inv l -> (2 <= stop_rank (l_stop l))%nat -> stopping l.
Proof.
  intros [I1 I2 I3 I4 _ _ _] Hr. split; [| |done|].
  - destruct (h_lifecycleStatus (l_host l)) eqn:E; [| |done]; exfalso.
    all: assert (l_stop l = StopIdle) as X by (apply I1; congruence); rewrite X in Hr; cbn in Hr; lia.
  - rewrite I2. apply bool_decide_eq_false_2. intros X. rewrite X in Hr. cbn in Hr. lia.
  - destruct (startingPromise l); [|done]. specialize (I4 eq_refl). lia.
Qed.

(** The invariant in the phases after the waits. *)
Lemma late_inv l : stopping l -> (2 <= stop_rank (l_stop l))%nat ->
  ((stop_rank (l_stop l) <= 3)%nat -> published l) -> ((4 <= stop_rank (l_stop l))%nat -> unpublished l) ->
  ((3 <= stop_rank (l_stop l))%nat -> released l) -> life_inv l.
Proof.
  intros [S1 S2 S3 S4] Hr H1 H2 H3. assert (l_stop l <> StopIdle) as Hn by (intros X; rewrite X in Hr; cbn in Hr; lia).
  split; [|by rewrite S2, bool_decide_eq_false_2|done|congruence|done..]. split; [done|congruence].
Qed.

Lemma cleared_host h : frame h (stopInternal_cleared h).2.
Proof. unfold stopInternal_cleared, clearRuntimeState. destruct (clear _). framed. Qed.

Lemma physical_host h : frame h (stopInternal_physical h).2.
Proof. unfold stopInternal_physical. destruct (close_physical _). framed. Qed.

Lemma released_framed l l' : released l -> h_lifecycleStatus (l_host l) = closed_ -> frame (l_host l) (l_host l') ->
  l_bound l' = l_bound l -> l_guard l' = l_guard l -> released l'.
Proof.
  intros [P1 P2 P3 P4 P5 P6 P7] Hc [F1 F2 F3 F4] E1 E2. destruct (F4 Hc) as (G1 & G2 & G3). split; rewrite ?E2; try congruence. by apply G3.
Qed.

(** The ends of a stop. *)
Lemma stop_trace_ok l : stopping l -> released l -> h_controlServer (l_host l) = false ->
  l_control l ∈ [EpNone; EpClosed; EpStuck] -> l_stop l = StopClosesPhysical ->
  life_inv (stop_trace l).2 /\ balanced l (stop_trace l).
Proof.
  intros Hs Hr Hc Hk Hp. unfold stop_trace, stop_ends. destruct (l_trace l) eqn:Et; cbn [fst snd].
  - split; [apply late_inv; [by destruct Hs|cbn; lia|cbn; lia|done|by destruct Hr]|].
    split; lcbn; unfold trace_closed, physical_closed; lcbn; rewrite ?Hp, ?Et; done.
  - split; [apply late_inv; [by destruct Hs|cbn; lia|cbn; lia|done|by destruct Hr]|].
    split; lcbn; unfold trace_closed, physical_closed; lcbn; rewrite ?Hp, ?Et; done.
Qed.

Lemma balanced_trans l l1 e1 e2 l2 : balanced l (e1, l1) -> balanced l1 (e2, l2) -> balanced l (e1 ++ e2, l2).
Proof.
  intros [A1 A2 A3 A4 A5] [B1 B2 B3 B4 B5]. cbn [fst snd] in *. split; cbn [fst snd]; rewrite ?effect_times_app; [lia..|congruence].
Qed.

Lemma stopping_framed l l' : stopping l -> frame (l_host l) (l_host l') -> l_reportService l' = l_reportService l ->
  l_start l' = l_start l -> l_control l' = l_control l -> stopping l'.
Proof.
  intros [S1 S2 S3 S4] [F1 F2 F3 F4] E1 E2 E3. split; [congruence|congruence| |].
  - unfold start_ok in *. by rewrite E2, E3, F1.
  - unfold startingPromise in *. by rewrite E2.
Qed.

Lemma stop_cleared_ok l : stopping l -> released l -> h_controlServer (l_host l) = false ->
  l_control l ∈ [EpNone; EpClosed; EpStuck] -> l_stop l = StopClosesPhysical ->
  life_inv (stop_cleared l).2 /\ balanced l (stop_cleared l).
Proof.
  intros Hs Hr Hc Hk Hp. unfold stop_cleared. pose proof (cleared_host (l_host l)) as Hf.
  destruct (stopInternal_cleared (l_host l)) as [e h]. cbn [snd] in Hf. set (l1 := put_host h l).
  destruct (stop_trace_ok l1) as [A B].
  - by apply (stopping_framed l).
  - by apply (released_framed l); [|destruct Hs| | |].
  - destruct Hf. by change (l_host l1) with h; congruence.
  - done.
  - done.
  - destruct (stop_trace l1) as [e' l']. split; [done|]. eapply balanced_trans; [|exact B].
    apply balanced_quiet; try done. by destruct Hf.
Qed.

Lemma stop_physical_ok l : stopping l -> released l -> h_controlServer (l_host l) = false ->
  l_control l ∈ [EpNone; EpClosed; EpStuck] -> (stop_rank (l_stop l) <= 4)%nat ->
  life_inv (stop_physical l).2 /\ balanced l (stop_physical l).
Proof.
  intros Hs Hr Hc Hk Hp. unfold stop_physical. pose proof (physical_host (l_host l)) as Hf.
  destruct (stopInternal_physical (l_host l)) as [e h]. cbn [snd] in Hf. set (l1 := (put_host h l) <| l_stop := StopClosesPhysical |>).
  assert (h_controlServer (l_host l1) = false) as Hc1 by (destruct Hf; change (l_host l1) with h; congruence).
  split.
  - apply late_inv; [by apply (stopping_framed l)|cbn; lia|cbn; lia|done|].
    intros _. by apply (released_framed l); [|destruct Hs| | |].
  - split; cbn [fst snd]; counted; [done| | | |done].
    + unfold open_servers. change (l_host l1) with h. by destruct Hf as [_ _ -> _].
    + unfold physical_closed. rewrite (bool_decide_eq_false_2 (5 <= stop_rank (l_stop l))%nat) by lia. done.
    + unfold trace_closed. rewrite !bool_decide_eq_false_2 by (cbn; lia). by rewrite !andb_false_r.
Qed.

Lemma stop_control_ok l : stopping l -> released l -> published l -> (stop_rank (l_stop l) <= 3)%nat ->
  life_inv (stop_control l).2 /\ balanced l (stop_control l).
Proof.
  intros Hs Hr [Hc Hk] Hp. unfold stop_control. set (l1 := put_host (stopInternal_control (l_host l)) l).
  assert (stopping l1) as Hs1 by (by destruct Hs). assert (released l1) as Hr1 by (by destruct Hr).
  destruct (h_controlServer (l_host l)) eqn:E.
  - symmetry in Hc. apply bool_decide_eq_true in Hc. split.
    + apply late_inv; [|cbn; lia|cbn; lia|done|by destruct Hr1].
      destruct Hs1 as [S1 S2 S3 S4]. split; [done|done| |done]. unfold start_ok, startingPromise in *.
      change (l_start l1) with (l_start l) in *. change (l_control l1) with (l_control l) in *. unfold l1, put_host. lcbn.
      destruct (l_start l); [congruence|done..|destruct S3; congruence|]. by destruct S3 as [_ S3].
    + split; cbn [fst snd]; counted; [|done| | |done].
      * unfold open_controls. rewrite Hc. done.
      * unfold physical_closed. rewrite bool_decide_eq_false_2 by lia. done.
      * unfold trace_closed. rewrite !bool_decide_eq_false_2 by (cbn; lia). by rewrite !andb_false_r.
  - symmetry in Hc. apply bool_decide_eq_false in Hc.
    assert (l_control l ∈ [EpNone; EpClosed; EpStuck]) as Hk1.
    { destruct Hs as [_ _ S3 S4]. unfold start_ok, startingPromise in *. destruct (l_start l); set_solver. }
    destruct (stop_physical_ok l1) as [A B]; [done..|change (l_stop l1) with (l_stop l); lia|].
    split; [done|]. destruct (stop_physical l1) as [e l']. apply (balanced_trans l l1 [] e l'); [|done].
    by apply (balanced_quiet l l1 []).
Qed.

Lemma stopInternal_spec h : let h' := (stopInternal h).2 in
  h_lifecycleStatus h' = h_lifecycleStatus h /\ h_controlServer h' = h_controlServer h /\ controller_made h' = false /\
  h_webSocketServerStarted h' = false /\ h_webSocketServerStarting h' = h_webSocketServerStarting h /\ h_idleTimer h' = None.
Proof. by split_and!. Qed.

Lemma stop_internal_ok l : stopping l -> h_webSocketServerStarting (l_host l) = false -> published l ->
  (stop_rank (l_stop l) <= 2)%nat -> life_inv (stop_internal l).2 /\ balanced l (stop_internal l).
Proof.
  intros Hs Hw Hp Hr. unfold stop_internal. pose proof (stopInternal_spec (l_host l)) as H.
  destruct (stopInternal (l_host l)) as [e h]. cbn [snd] in H. destruct H as (H1 & H2 & H3 & H4 & H5 & H6).
  set (l1 := put_host h (l <| l_guard ::= stop |> <| l_bound := false |>)).
  assert (stopping l1) as Hs1.
  { destruct Hs as [S1 S2 S3 S4]. unfold start_ok in S3. split; [by rewrite <- H1 in S1|done| |done].
    unfold start_ok, l1, put_host. lcbn. by rewrite <- H1 in S3. }
  assert (published l1) as Hp1 by (destruct Hp as [P1 P2]; split; [by rewrite <- H2 in P1|done]).
  assert (released l1) as Hr1 by (split; try done; by rewrite <- H5 in Hw).
  destruct (h_webSocketController (l_host l)) as [c|] eqn:Ec.
  - split.
    + apply late_inv; [by destruct Hs1|cbn; lia|done|cbn; lia|by destruct Hr1].
    + split; cbn [fst snd]; counted; [done| | | |done].
      * unfold open_servers. change (l_host (l1 <| l_stop := StopClosesServer |>)) with h. rewrite H3. unfold controller_made. by rewrite Ec.
      * unfold physical_closed. rewrite !bool_decide_eq_false_2 by (cbn; lia). done.
      * unfold trace_closed. rewrite !bool_decide_eq_false_2 by (cbn; lia). by rewrite !andb_false_r.
  - destruct (stop_control_ok l1 Hs1 Hr1 Hp1) as [A B]; [change (l_stop l1) with (l_stop l); lia|].
    destruct (stop_control l1) as [e' l']. split; [done|]. eapply balanced_trans; [|exact B].
    apply balanced_quiet; try done. change (l_host l1) with h. rewrite H3. unfold controller_made. by rewrite Ec.
Qed.

Lemma stop_started_ok l : stopping l -> published l -> (stop_rank (l_stop l) <= 1)%nat ->
  life_inv (stop_started l).2 /\ balanced l (stop_started l).
Proof.
  intros Hs Hp Hr. unfold stop_started. destruct (h_webSocketServerStarting (l_host l)) eqn:Ew.
  - split.
    + apply late_inv; [by destruct Hs|cbn; lia|by intros|cbn; lia|cbn; lia].
    + split; cbn [fst snd]; counted; try done.
      * unfold physical_closed. rewrite !bool_decide_eq_false_2 by (cbn; lia). done.
      * unfold trace_closed. rewrite !bool_decide_eq_false_2 by (cbn; lia). by rewrite !andb_false_r.
  - apply stop_internal_ok; try done. lia.
Qed.

(** The first stop closes the host and changes nothing else that the invariant
    is about; later ones do nothing. *)
Lemma stop_host_spec h : let r := stop_host h in
  if r.1 then h_lifecycleStatus h <> closed_ /\ h_lifecycleStatus r.2 = closed_ /\ h_controlServer r.2 = h_controlServer h /\
    controller_made r.2 = controller_made h
  else r.2 = h /\ h_lifecycleStatus h = closed_.
Proof. unfold stop_host. destruct (h_lifecycleStatus h) eqn:E; cbn; rewrite ?E; by split_and!. Qed.

(** The part of [start_ok] about the control server; a start that has just failed
    has no more. *)
Definition start_control (l : Life) : Prop :=
  match l_start l with
  | StartIdle | StartRollsBack _ => l_control l = EpNone
  | StartListens => l_control l = EpOpening
  | StartClaims => l_control l = EpOpen
  | StartOver _ => l_control l <> EpOpening
  end.

Lemma first_stop_ok l h : stop_host (l_host l) = (true, h) -> l_stop l = StopIdle -> published l -> start_control l ->
  life_inv (life_stop l).2.2 /\ balanced l (life_stop l).2.
Proof.
  intros Eh Hz Hp Hs. unfold life_stop. pose proof (stop_host_spec (l_host l)) as H. rewrite Eh in *. cbn [fst snd] in H.
  destruct H as (H1 & H2 & H3 & H4). set (l1 := setDriverReportService false (put_host h l)).
  assert (start_ok l1) as S1.
  { unfold start_ok, start_control in *. change (l_start l1) with (l_start l). change (l_control l1) with (l_control l).
    change (l_host l1) with h. destruct (l_start l); [done..|done|]. split; [done|congruence]. }
  assert (published l1) as P1 by (destruct Hp as [P1 P2]; split; [by change (l_host l1) with h; rewrite H3|done]).
  assert (balanced l ([], l1)) as B1 by (by apply (balanced_quiet l l1 [])).
  change (startingPromise l1) with (startingPromise l). destruct (startingPromise l) eqn:Ep; cbn [snd].
  - split.
    + split; lcbn; try done; try (cbn; lia).
    + apply (balanced_trans l l1 []); [done|]. split; cbn [fst snd]; counted; try done;
        unfold physical_closed, trace_closed; lcbn; change (l_stop l1) with (l_stop l); rewrite Hz; by rewrite ?andb_false_r.
  - destruct (stop_started_ok l1) as [A B]; [by split|done|change (l_stop l1) with (l_stop l); rewrite Hz; cbn; lia|].
    split; [done|]. destruct (stop_started l1) as [e l']. by apply (balanced_trans l l1 [] e l').
Qed.

Lemma life_stop_ok l : life_inv l -> life_inv (life_stop l).2.2 /\ balanced l (life_stop l).2.
Proof.
  intros Hi. pose proof (stop_host_spec (l_host l)) as H. destruct (stop_host (l_host l)) as [[] h] eqn:Eh; cbn [fst snd] in H.
  - destruct H as (H1 & _). assert (l_stop l = StopIdle) as Hz by (by apply (li_status l Hi)).
    apply (first_stop_ok l h); [done|done|apply (li_published l Hi); rewrite Hz; cbn; lia|].
    pose proof (li_start l Hi) as Hs. unfold start_ok, start_control in *. destruct (l_start l); naive_solver.
  - unfold life_stop. rewrite Eh. split; [done|]. by apply (balanced_quiet l l []).
Qed.

Lemma start_fails_ok e l : life_inv l -> l_start l = StartListens ->
  life_inv (start_fails e l).2 /\ balanced l (start_fails e l).
Proof.
  intros Hi El. pose proof (li_start l Hi) as Hs. unfold start_ok in Hs. rewrite El in Hs.
  assert (stop_rank (l_stop l) <= 1)%nat as Hr by (apply (li_waits l Hi); unfold startingPromise; by rewrite El).
  destruct (li_published l Hi ltac:(lia)) as [P1 P2]. rewrite Hs in P1. rewrite bool_decide_eq_false_2 in P1 by done.
  unfold start_fails. set (l1 := l <| l_control := EpNone |> <| l_start := StartRollsBack e |>).
  assert (published l1) as P by (split; [done|set_solver]).
  assert (balanced l ([], l1)) as B1.
  { split; cbn [fst snd]; counted; try done. unfold open_controls. by rewrite Hs. }
  pose proof (stop_host_spec (l_host l1)) as H. destruct (stop_host (l_host l1)) as [[] h] eqn:Eh; cbn [fst snd] in H.
  - destruct H as (H1 & _). assert (l_stop l = StopIdle) as Hz by (by apply (li_status l Hi)).
    destruct (first_stop_ok l1 h) as [A B]; [done|done|done|done|].
    assert ((life_stop l1).1 = true) as E1 by (unfold life_stop; rewrite Eh; done).
    destruct (life_stop l1) as [first [es l']]. cbn [fst snd] in *. subst first. split; [done|].
    by apply (balanced_trans l l1 [] es l').
  - destruct H as [_ H]. unfold life_stop. rewrite Eh. split.
    + destruct Hi as [I1 I2 I3 I4 I5 I6 I7]. split; lcbn; try done.
      * unfold start_ok. lcbn. split; [done|]. change (h_lifecycleStatus (l_host l1) <> uninitialized). congruence.
      * intros X. specialize (I6 X). change (l_stop l1) with (l_stop l) in X. lia.
      * intros X. change (l_stop l1) with (l_stop l) in X. lia.
    + split; cbn [fst snd]; counted; try done. unfold open_controls. by rewrite Hs.
Qed.

Lemma life_start_ok l : life_inv l -> life_inv (life_start l) /\ balanced l ([], life_start l).
Proof.
  intros Hi. assert (balanced l ([], l)) as B0 by (by apply (balanced_quiet l l [])).
  unfold life_start. destruct (startingPromise l) eqn:Ep; [done|]. unfold start_host.
  destruct (h_lifecycleStatus (l_host l)) eqn:Es; [|done..].
  destruct Hi as [I1 I2 I3 I4 I5 I6 I7]. assert (l_stop l = StopIdle) as Hz by (apply I1; congruence).
  rewrite Hz in I5. cbn in I5. destruct (I5 ltac:(lia)) as [P1 P2].
  assert (l_control l = EpNone) as Hc.
  { unfold start_ok, startingPromise in *. destruct (l_start l); [done..|naive_solver|]. destruct I3 as [_ X]. congruence. }
  rewrite Hc in P1. rewrite bool_decide_eq_false_2 in P1 by done.
  match goal with |- life_inv ?x /\ _ => set (l1 := x) end. assert (h_lifecycleStatus (l_host l1) = uninitialized) as Es1 by done.
  split.
  - split; try done.
    + change (l_stop l1) with (l_stop l). rewrite Hz. cbn. lia.
    + intros _. split; [done|]. by right; left.
    + change (l_stop l1) with (l_stop l). rewrite Hz. cbn. lia.
    + change (l_stop l1) with (l_stop l). rewrite Hz. cbn. lia.
  - split; cbn [fst snd]; counted; try done. unfold open_controls. by rewrite Hc.
Qed.

Lemma start_over_ok now l : life_inv l -> (stop_rank (l_stop l) <= 1)%nat -> l_control l = EpOpen ->
  life_inv (start_over now l) /\ balanced l ([], start_over now l).
Proof.
  intros [I1 I2 I3 I4 I5 I6 I7] Hr Hc. unfold start_over. set (h := start_ends_host now (l_host l)).
  assert (h_lifecycleStatus h <> uninitialized /\ (h_lifecycleStatus h = closed_ <-> h_lifecycleStatus (l_host l) = closed_) /\
    h_controlServer h = h_controlServer (l_host l) /\ controller_made h = controller_made (l_host l)) as (H1 & H2 & H3 & H4).
  { unfold h, start_ends_host. destruct (h_lifecycleStatus (l_host l)) eqn:E; [|rewrite ?E; by split_and!..].
    match goal with |- context [scheduleIdleTimeoutIfNeeded now ?x] => destruct (frame_schedule now x) as [F1 F2 F3 _] end.
    rewrite F1, F2, F3. by split_and!. }
  set (l1 := (put_host h l) <| l_start := StartOver None |>). destruct (I5 ltac:(lia)) as [P1 P2]. split.
  - split; lcbn; try done.
    + change (l_stop l1) with (l_stop l). change (l_host l1) with h. rewrite I1. tauto.
    + unfold start_ok. lcbn. change (l_control l1) with (l_control l). split; [by rewrite Hc|done].
    + intros _. split; [|done]. change (l_host l1) with h. by rewrite H3.
    + intros X. change (l_stop l1) with (l_stop l) in X. lia.
    + intros X. change (l_stop l1) with (l_stop l) in X. lia.
  - apply (balanced_quiet l l1 []); done.
Qed.

Lemma start_listened_ok env now l : life_inv l -> l_start l = StartListens ->
  life_inv (start_listened env now l).2 /\ balanced l (start_listened env now l).
Proof.
  intros Hi El. unfold start_listened. destruct (start_begins env (l_guard l)) as [claims g] eqn:Eg.
  set (l1 := (put_host _ _) <| l_control := EpOpen |> <| l_guard := g |>). pose proof (li_start l Hi) as Hs. unfold start_ok in Hs. rewrite El in Hs.
  assert (stop_rank (l_stop l) <= 1)%nat as Hr by (apply (li_waits l Hi); unfold startingPromise; by rewrite El).
  assert (balanced l ([OpensControl], l1 <| l_start := StartClaims |>)) as B.
  { split; cbn [fst snd]; counted; try done. unfold open_controls. by rewrite Hs. }
  assert (life_inv (l1 <| l_start := StartClaims |>)) as I.
  { destruct Hi as [I1 I2 I3 I4 I5 I6 I7]. split; lcbn; try done.
    - intros _. split; [done|]. by right; right; left.
    - intros X. change (l_stop l1) with (l_stop l) in X. lia.
    - intros X. change (l_stop l1) with (l_stop l) in X. lia. }
  destruct claims; [done|]. cbn [snd]. change (start_over now l1) with (start_over now (l1 <| l_start := StartClaims |>)).
  destruct (start_over_ok now (l1 <| l_start := StartClaims |>) I) as [A C]; [done|done|]. split; [done|].
  apply (balanced_trans _ _ _ [] _ B C).
Qed.

Lemma claimed_ok env lenv now l : life_inv l -> l_start l = StartClaims ->
  let r := life_step env (LClaimed lenv now) l in life_inv r.2 /\ balanced l r.
Proof.
  intros Hi El. cbn [life_step]. rewrite El.
  assert (stop_rank (l_stop l) <= 1)%nat as Hr by (apply (li_waits l Hi); unfold startingPromise; by rewrite El).
  pose proof (li_start l Hi) as Hs. unfold start_ok in Hs. rewrite El in Hs.
  pose proof (guard_step (claim env lenv daemon_started (l_guard l)) now l Hi (claim_guard _ _ _ _)) as G.
  destruct (guard_works _ now l) as [es l1]. destruct G as (G1 & G2 & G3 & G4 & G5 & _).
  set (l2 := l1 <| l_guard ::= start_ends |>). assert (life_inv l2) as I2.
  { destruct G1 as [I1 J2 J3 J4 J5 J6 J7]. split; try done. intros X. change (l_stop l2) with (l_stop l1) in X. rewrite G4 in X. lia. }
  destruct (start_over_ok now l2 I2) as [A B].
  - change (l_stop l2) with (l_stop l1). by rewrite G4.
  - change (l_control l2) with (l_control l1). by rewrite G5.
  - cbn [snd]. split; [done|]. rewrite <- (app_nil_r es). apply (balanced_trans l l2 es []); [|done].
    by destruct G2.
Qed.

(** A server is started only while no stop has come so far. *)
Lemma server_step l : life_inv l -> h_webSocketServerStarting (l_host l) = true -> forall h' so sockets,
  h_lifecycleStatus h' = h_lifecycleStatus (l_host l) -> h_controlServer h' = h_controlServer (l_host l) ->
  life_inv (l <| l_daemon := mkDaemon h' so |> <| l_sockets := sockets |>).
Proof.
  intros Hi Hw h' so sockets H1 H2. destruct Hi as [I1 I2 I3 I4 I5 I6 I7]. split; lcbn; try done.
  - change (l_host _) with h'. by rewrite H1.
  - unfold start_ok in *. lcbn. change (l_host _) with h'. by rewrite H1.
  - intros X. destruct (I5 X) as [P1 P2]. split; [|done]. change (l_host _) with h'. by rewrite H2.
  - intros X. destruct (I6 X) as [P1 P2]. split; [|done]. change (l_host _) with h'. by rewrite H2.
  - intros X. destruct (I7 X). congruence.
Qed.

Lemma daemon_part_ok op l : life_inv l -> life_inv (life_daemon op l).2 /\ balanced l (life_daemon op l).
Proof.
  intros Hi. unfold life_daemon. destruct (admits op l) eqn:Ea; cbn [negb].
  2: { split; [done|]. by apply (balanced_quiet l l []). }
  assert ((forall o, op = DHost o -> starts_server o = false) ->
    life_inv (let '(es, d) := daemon_step op (l_daemon l) in (server_effects op l ++ List.map Does es,
       l <| l_daemon := d |> <| l_sockets := l_sockets l || opens_sockets op |>)).2 /\
    balanced l (let '(es, d) := daemon_step op (l_daemon l) in (server_effects op l ++ List.map Does es,
       l <| l_daemon := d |> <| l_sockets := l_sockets l || opens_sockets op |>))) as Hplain.
  { intros Hs. pose proof (frame_daemon op (l_daemon l) Hs) as Hf. destruct (daemon_step op (l_daemon l)) as [es d].
    assert (server_effects op l = []) as -> by (destruct op as [o|]; [|done]; specialize (Hs o eq_refl); by destruct o).
    by apply framed_step. }
  destruct op as [o|i r now]; [|by apply Hplain]. destruct (starts_server o) eqn:Eo.
  - destruct o; try done; cbn [admits] in Ea; cbn [daemon_step host_step server_effects opens_sockets started app].
    + apply andb_true_iff in Ea as [Ew Em]. unfold ws_controller_created.
      match goal with |- context [host_report ?a ?b ?c ?d] => destruct (frame_report a b c d) as [F1 F2 _ _]; destruct (host_report a b c d) as [e h] end.
      cbn [snd] in *. split; [by apply server_step|]. apply negb_true_iff in Em.
      split; cbn [fst snd]; counted; try done. unfold open_servers. by rewrite Em.
    + apply andb_true_iff in Ea as [Ew Em]. cbn [snd]. split; [by apply server_step|]. by apply (balanced_quiet l _ []).
    + unfold ws_start_fails. cbn [snd]. split; [by apply server_step|].
      destruct (controller_made (l_host l)) eqn:Em; split; cbn [fst snd]; counted; try done; unfold open_servers; by rewrite Em.
  - assert (forall o', DHost o = DHost o' -> starts_server o' = false) as Hs by (by intros ? [= <-]).
    destruct o; try (by apply Hplain). destruct (l_bound l) eqn:Eb; [by apply Hplain|].
    destruct (registry_step _ _) as [es p]. apply framed_step; [done|framed|done].
Qed.

Lemma rolled_back_ok e l : life_inv l -> l_start l = StartRollsBack e -> l_stop l = StopOver ->
  life_inv (rolled_back e l) /\ balanced l ([], rolled_back e l).
Proof.
  intros Hi Es Ep. pose proof (inv_stopping l Hi ltac:(rewrite Ep; cbn; lia)) as [S1 S2 S3 S4].
  pose proof (li_unpublished l Hi ltac:(rewrite Ep; cbn; lia)) as Hu. pose proof (li_released l Hi ltac:(rewrite Ep; cbn; lia)) as Hr.
  split; [|by apply (balanced_quiet l _ [])].
  apply late_inv; [|unfold rolled_back; lcbn; rewrite Ep; cbn; lia|unfold rolled_back; lcbn; rewrite Ep; cbn; lia|done|by destruct Hr].
  split; try done. unfold start_ok, rolled_back in *. rewrite Es in S3. lcbn. destruct S3 as [-> S3]. split; [done|].
  change (h_lifecycleStatus (l_host l) <> uninitialized). congruence.
Qed.

(** A stop that waited for a start, or for a server. *)
Lemma resumes_ok l : life_inv l -> l_stop l = StopAwaitsStart -> startingPromise l = false ->
  life_inv (stop_started l).2 /\ balanced l (stop_started l).
Proof.
  intros Hi Ep Est. apply stop_started_ok; [|apply (li_published l Hi); rewrite Ep; cbn; lia|rewrite Ep; cbn; lia].
  split; [|by rewrite (li_report l Hi), Ep|apply (li_start l Hi)|done].
  destruct (h_lifecycleStatus (l_host l)) eqn:E; [| |done]; exfalso.
  all: assert (l_stop l = StopIdle) by (apply (li_status l Hi); congruence); congruence.
Qed.

Lemma server_closed_ok error l : life_inv l -> l_stop l = StopClosesServer ->
  let r := stop_control (failed error (l <| l_sockets := bool_decide (error <> None) |>)) in life_inv r.2 /\ balanced l r.
Proof.
  intros Hi Ep. pose proof (inv_stopping l Hi ltac:(rewrite Ep; cbn; lia)) as Hs.
  pose proof (li_published l Hi ltac:(rewrite Ep; cbn; lia)) as Hp. pose proof (li_released l Hi ltac:(rewrite Ep; cbn; lia)) as Hr.
  set (l1 := failed _ _). destruct (stop_control_ok l1) as [A B]; [by destruct Hs|by destruct Hr|done|by change (l_stop l1) with (l_stop l); rewrite Ep; cbn; lia|].
  split; [done|]. by destruct B.
Qed.

Lemma control_closed_ok error l : life_inv l -> l_stop l = StopClosesControl ->
  let r := stop_physical (failed error (l <| l_control := match error with None => EpClosed | Some _ => EpStuck end |>)) in
  life_inv r.2 /\ balanced l r.
Proof.
  intros Hi Ep. pose proof (inv_stopping l Hi ltac:(rewrite Ep; cbn; lia)) as [S1 S2 S3 S4].
  pose proof (li_unpublished l Hi ltac:(rewrite Ep; cbn; lia)) as [U1 U2]. pose proof (li_released l Hi ltac:(rewrite Ep; cbn; lia)) as Hr.
  rewrite Ep in U2. set (l1 := failed _ _).
  assert (l_control l1 ∈ [EpNone; EpClosed; EpStuck]) as Hk by (unfold l1, failed; lcbn; destruct error; set_solver).
  destruct (stop_physical_ok l1) as [A B]; [|by destruct Hr|done|done|by change (l_stop l1) with (l_stop l); rewrite Ep; cbn; lia|].
  - split; [done..| |done]. unfold start_ok, startingPromise in *.
    change (l_start l1) with (l_start l). change (l_host l1) with (l_host l).
    destruct (l_start l); [congruence|done|done|destruct S3; congruence|destruct S3 as [_ S3]].
    split; [|done]. unfold l1, failed. lcbn. by destruct error.
  - split; [done|]. destruct B as [B1 B2 B3 B4 B5]. split; try done. rewrite <- B1. f_equal.
    unfold open_controls. rewrite U2. unfold l1, failed. lcbn. by destruct error.
Qed.

Lemma ends_ok error l : life_inv l ->
  (l_stop l = StopClosesPhysical -> life_inv (stop_cleared (failed error l)).2 /\ balanced l (stop_cleared (failed error l))) /\
  (l_stop l = StopClosesTrace -> life_inv (stop_ends (failed error l)) /\ balanced l ([], stop_ends (failed error l))).
Proof.
  intros Hi. split; intros Ep; pose proof (inv_stopping l Hi ltac:(rewrite Ep; cbn; lia)) as Hs;
    pose proof (li_unpublished l Hi ltac:(rewrite Ep; cbn; lia)) as [U1 U2]; pose proof (li_released l Hi ltac:(rewrite Ep; cbn; lia)) as Hr;
    rewrite Ep in U2.
  - destruct (stop_cleared_ok (failed error l)) as [A B]; [by destruct Hs|by destruct Hr|done..|]. split; [done|]. by destruct B.
  - split; [apply late_inv; [by destruct Hs|cbn; lia|cbn; lia|done|by destruct Hr]|].
    split; cbn [fst snd]; counted; try done; unfold physical_closed, trace_closed; rewrite Ep; done.
Qed.

Lemma life_step_ok env op l : life_inv l -> life_inv (life_step env op l).2 /\ balanced l (life_step env op l).
Proof.
  intros Hi. assert (life_inv l /\ balanced l ([], l)) as H0 by (split; [done|by apply (balanced_quiet l l [])]).
  destruct op; cbn [life_step].
  - by apply life_start_ok.
  - destruct (l_start l) eqn:Es; try done. by apply start_listened_ok.
  - destruct (l_start l) eqn:Es; try done. by apply start_fails_ok.
  - destruct (l_start l) eqn:Es; try done. pose proof (claimed_ok env lenv now l Hi Es) as H. cbn [life_step] in H. by rewrite Es in H.
  - destruct (l_start l) eqn:Es; try done. destruct (l_stop l) eqn:Ep; try done. by apply rolled_back_ok.
  - by apply life_stop_ok.
  - destruct (l_stop l) eqn:Ep; try done.
    + destruct (startingPromise l) eqn:Est; [done|]. by apply resumes_ok.
    + destruct (h_webSocketServerStarting (l_host l)) eqn:Ew; [done|].
      apply stop_internal_ok; [apply (inv_stopping l Hi)|done|apply (li_published l Hi)|]; rewrite Ep; cbn; lia.
  - destruct (l_stop l) eqn:Ep; try done. by apply server_closed_ok.
  - destruct (l_stop l) eqn:Ep; try done. by apply control_closed_ok.
  - destruct (l_stop l) eqn:Ep; try done. by apply ends_ok.
  - destruct (l_stop l) eqn:Ep; try done. by apply ends_ok.
  - cbn [fst snd]. case_match; [|done]. apply (framed_step l _ [] Hi); [framed|done].
  - destruct (l_monitors l) as [|n]; [done|].
    pose proof (guard_step (monitor env lenv (l_guard l)) now (l <| l_monitors := n |>)) as G.
    destruct (guard_works _ now _) as [es l']. destruct G as (G1 & G2 & _); [|apply monitor_guard|split; [done|by destruct G2]].
    by apply (inv_framed l); [|framed|].
  - destruct (List.existsb _ _); [|done]. pose proof (guard_step (reacquire env lenv (l_guard l)) now l Hi (reacquire_guard _ _ _)) as G.
    destruct (guard_works _ now _) as [es l']. by destruct G as (G1 & G2 & _).
  - apply (framed_step l _ [] Hi); [framed|done].
  - by apply daemon_part_ok.
Qed.

Lemma life_run_ok env ops : forall l, life_inv l -> life_inv (life_run env ops l).2 /\ balanced l (life_run env ops l).
Proof.
  induction ops as [|op ops IH]; intros l Hi; cbn [life_run]; [split; [done|by apply (balanced_quiet l l [])]|].
  destruct (life_step_ok env op l Hi) as [A B]. destruct (life_step env op l) as [e1 l1]. cbn [snd] in A.
  destruct (IH l1 A) as [C D]. destruct (life_run env ops l1) as [e2 l2]. split; [done|]. by eapply balanced_trans.
Qed.

Lemma new_life_inv o file lock trace : life_inv (new_life o file lock trace).
Proof. split; cbn; try done; try lia. intros _. split; [done|]. by left. Qed.

(** ** A stop comes to an end *)

(** The answers a start, and the start of a WebSocket server, still needs. *)
Definition start_due (l : Life) : nat := match l_start l with StartListens => 2 | StartClaims => 1 | _ => 0 end.

Definition server_due (l : Life) : nat :=
  if h_webSocketServerStarting (l_host l) then if controller_made (l_host l) then 1 else 2 else 0.

(** The answers a stop still needs at most, the continuations of its waits
    included. *)
Definition due (l : Life) : nat :=
  match l_stop l with
  | StopIdle | StopOver => 0
  | StopAwaitsStart => start_due l + server_due l + 6
  | StopAwaitsServer => server_due l + 5
  | StopClosesServer => 4
  | StopClosesControl => 3
  | StopClosesPhysical => 2
  | StopClosesTrace => 1
  end.

(** The step is an answer that the stop waits for. *)
Definition awaited (op : life_op) (l : Life) : bool :=
  match l_stop l, op with
  | StopAwaitsStart, LListened _ | StopAwaitsStart, LListenFailed _ =>
      match l_start l with StartListens => true | _ => false end
  | StopAwaitsStart, LClaimed _ _ => match l_start l with StartClaims => true | _ => false end
  | StopAwaitsStart, LStopResumes => negb (startingPromise l)
  | StopAwaitsServer, LStopResumes => negb (h_webSocketServerStarting (l_host l))
  | StopAwaitsServer, LDaemon (DHost (HWsController _) as op) | StopAwaitsServer, LDaemon (DHost (HWsStarted _) as op)
  | StopAwaitsServer, LDaemon (DHost HWsFailed as op) => admits op l
  | StopClosesServer, LServerClosed _ | StopClosesControl, LControlClosed _
  | StopClosesPhysical, LPhysicalClosed _ | StopClosesTrace, LTraceClosed _ => true
  | _, _ => false
  end.

(** The steps of a run that are awaited. *)
Fixpoint answers (env : GuardEnv) (ops : list life_op) (l : Life) : nat :=
  match ops with
  | [] => 0
  | op :: ops' => nat_of (awaited op l) + answers env ops' (life_step env op l).2
  end.

(** A stop that has not ended waits for something. *)
Lemma something_awaited l : life_inv l -> l_stop l <> StopIdle -> l_stop l <> StopOver -> exists op, awaited op l = true.
Proof.
  intros Hi H1 H2. unfold awaited. destruct (l_stop l) eqn:Ep; try done.
  - destruct (startingPromise l) eqn:Es; [|by exists LStopResumes].
    unfold startingPromise in Es. destruct (l_start l) eqn:El; try done.
    + by exists (LListened 0).
    + by exists (LClaimed (mkLockEnv (fun _ => FsOk) FsOk FsOk true) 0).
  - destruct (h_webSocketServerStarting (l_host l)) eqn:Ew; [|by exists LStopResumes].
    by exists (LDaemon (DHost HWsFailed)).
  - by exists (LServerClosed None).
  - by exists (LControlClosed None).
  - by exists (LPhysicalClosed None).
  - by exists (LTraceClosed None).
Qed.

(** The later parts of a stop need fewer answers. *)
Definition within (n : nat) (r : list life_effect * Life) : Prop := l_stop r.2 <> StopIdle /\ (due r.2 <= n)%nat.

Lemma within_more n m r : within n r -> (n <= m)%nat -> within m r.
Proof. intros [H1 H2] H. split; [done|lia]. Qed.

Lemma stop_trace_within l : within 1 (stop_trace l).
Proof. unfold stop_trace. destruct (l_trace l); (split; [done|cbn; lia]). Qed.

Lemma stop_cleared_within l : within 1 (stop_cleared l).
Proof.
  unfold stop_cleared. destruct (stopInternal_cleared (l_host l)) as [e h]. pose proof (stop_trace_within (put_host h l)) as H.
  by destruct (stop_trace (put_host h l)).
Qed.

Lemma stop_physical_within l : within 2 (stop_physical l).
Proof. unfold stop_physical. by destruct (stopInternal_physical (l_host l)). Qed.

Lemma stop_control_within l : within 3 (stop_control l).
Proof. unfold stop_control. case_match; [done|]. eapply within_more; [apply stop_physical_within|lia]. Qed.

Lemma stop_internal_within l : within 4 (stop_internal l).
Proof.
  unfold stop_internal. destruct (stopInternal (l_host l)) as [e h]. case_match; [done|].
  match goal with |- context [stop_control ?x] => pose proof (stop_control_within x) as [A B]; destruct (stop_control x) end.
  split; [done|]. cbn [snd] in *. lia.
Qed.

Lemma stop_started_within l : within (server_due l + 5) (stop_started l).
Proof. unfold stop_started. case_match; [done|]. eapply within_more; [apply stop_internal_within|lia]. Qed.

Lemma due_same l l' : l_stop l' = l_stop l -> l_start l' = l_start l ->
  h_webSocketServerStarting (l_host l') = h_webSocketServerStarting (l_host l) ->
  controller_made (l_host l') = controller_made (l_host l) -> due l' = due l.
Proof. intros H1 H2 H3 H4. unfold due, start_due, server_due. by rewrite H1, H2, H3, H4. Qed.

(** A step of a stopping host: an awaited one brings the end nearer, and none
    takes it away. *)
Definition nearer (op : life_op) (l l' : Life) : Prop :=
  l_stop l' <> StopIdle /\ (nat_of (awaited op l) + due l' <= due l)%nat.

Lemma nearer_same op l l' : awaited op l = false -> h_lifecycleStatus (l_host l) = closed_ -> l_stop l <> StopIdle ->
  frame (l_host l) (l_host l') -> l_stop l' = l_stop l -> l_start l' = l_start l -> nearer op l l'.
Proof.
  intros Ha Hc Hn [F1 F2 F3 F4] E1 E2. destruct (F4 Hc) as (_ & G & _). split; [congruence|].
  rewrite Ha, (due_same l l') by done. done.
Qed.

Lemma closed_of l : life_inv l -> l_stop l <> StopIdle -> h_lifecycleStatus (l_host l) = closed_.
Proof.
  intros Hi Hn. destruct (h_lifecycleStatus (l_host l)) eqn:E; [| |done]; destruct Hn; apply (li_status l Hi); congruence.
Qed.

Lemma guard_nearer op r now l : awaited op l = false -> life_inv l -> l_stop l <> StopIdle ->
  nearer op l (guard_works r now l).2.
Proof.
  intros Ha Hi Hn. unfold guard_works. destruct r as [[cs ok] g]. pose proof (frame_tell cs now (l_host l)) as Hf.
  destruct (tell_ownership cs now (l_host l)) as [e h]. by apply nearer_same; [|apply closed_of| | | |].
Qed.

(** A start that goes on while a stop waits for it. *)
Lemma due_awaits l : l_stop l = StopAwaitsStart -> due l = (start_due l + server_due l + 6)%nat.
Proof. unfold due. by intros ->. Qed.

Lemma awaits_start l : life_inv l -> l_stop l <> StopIdle -> startingPromise l = true -> l_stop l = StopAwaitsStart.
Proof. intros Hi Hn X. apply (li_waits l Hi) in X. destruct (l_stop l); done || (cbn in X; lia). Qed.

(** The server part is untouched and the start is shorter. *)
Lemma shorter_start op l l' : awaited op l = true -> l_stop l = StopAwaitsStart -> l_stop l' = StopAwaitsStart ->
  server_due l' = server_due l -> (start_due l' < start_due l)%nat -> nearer op l l'.
Proof.
  intros Ha Hp Hp' Hs Hd. split; [by rewrite Hp'|]. rewrite Ha, !due_awaits by done. cbn [nat_of]. rewrite Hs. lia.
Qed.

Lemma start_over_same now l : h_lifecycleStatus (l_host l) = closed_ ->
  start_over now l = l <| l_start := StartOver None |>.
Proof. intros Hc. unfold start_over, start_ends_host, put_host. rewrite Hc. unfold l_host. by destruct l as [[]]. Qed.

Lemma listened_nearer env now l : life_inv l -> l_stop l <> StopIdle -> l_start l = StartListens ->
  nearer (LListened now) l (start_listened env now l).2.
Proof.
  intros Hi Hn El. pose proof (closed_of l Hi Hn) as Hc.
  assert (l_stop l = StopAwaitsStart) as Hp by (apply awaits_start; [done|done|unfold startingPromise; by rewrite El]).
  unfold start_listened. destruct (start_begins env (l_guard l)) as [claims g]. set (l1 := (put_host _ _) <| l_control := EpOpen |> <| l_guard := g |>). cbn [snd].
  assert (server_due l1 = server_due l) as Hs by done.
  apply shorter_start; [unfold awaited; by rewrite Hp, El|done|..]; destruct claims;
    rewrite ?start_over_same by done; try done; unfold start_due; rewrite El; cbn; lia.
Qed.

Lemma listen_failed_nearer e l : life_inv l -> l_stop l <> StopIdle -> l_start l = StartListens ->
  nearer (LListenFailed e) l (start_fails e l).2.
Proof.
  intros Hi Hn El. pose proof (closed_of l Hi Hn) as Hc.
  assert (l_stop l = StopAwaitsStart) as Hp by (apply awaits_start; [done|done|unfold startingPromise; by rewrite El]).
  unfold start_fails, life_stop, stop_host. set (l1 := l <| l_control := EpNone |> <| l_start := StartRollsBack e |>).
  assert (h_lifecycleStatus (l_host l1) = closed_) as -> by done. cbn [snd].
  apply shorter_start; [unfold awaited; by rewrite Hp, El|done|done|done|]. unfold start_due. rewrite El. cbn. lia.
Qed.

Lemma claimed_nearer env lenv now l : life_inv l -> l_stop l <> StopIdle -> l_start l = StartClaims ->
  nearer (LClaimed lenv now) l (life_step env (LClaimed lenv now) l).2.
Proof.
  intros Hi Hn El. pose proof (closed_of l Hi Hn) as Hc.
  assert (l_stop l = StopAwaitsStart) as Hp by (apply awaits_start; [done|done|unfold startingPromise; by rewrite El]).
  cbn [life_step]. rewrite El. unfold guard_works. destruct (claim _ _ _ _) as [[cs ok] g].
  pose proof (frame_tell cs now (l_host l)) as [F1 F2 F3 F4]. destruct (tell_ownership cs now (l_host l)) as [e h]. cbn [snd] in *.
  destruct (F4 Hc) as (_ & G & _). rewrite start_over_same by (by cbn; rewrite F1).
  apply shorter_start; [unfold awaited; by rewrite Hp, El|done|done| |].
  - unfold server_due. change (l_host _) with h at 1 2. by rewrite G, F3.
  - unfold start_due. rewrite El. cbn. lia.
Qed.

Lemma daemon_nearer op l : life_inv l -> l_stop l <> StopIdle -> nearer (LDaemon op) l (life_daemon op l).2.
Proof.
  intros Hi Hn. pose proof (closed_of l Hi Hn) as Hc. pose proof (daemon_part_ok op l Hi) as [Hi' _].
  unfold life_daemon in *. destruct (admits op l) eqn:Ea; cbn [negb snd] in *.
  2: { apply nearer_same; try done. unfold awaited. destruct (l_stop l), op as [[]|]; try done. }
  assert ((forall o, op = DHost o -> starts_server o = false) -> awaited (LDaemon op) l = false) as Hna.
  { intros Hs. unfold awaited. destruct (l_stop l), op as [o|]; try done. specialize (Hs o eq_refl). by destruct o. }
  assert ((forall o, op = DHost o -> starts_server o = false) ->
    nearer (LDaemon op) l (let '(es, d) := daemon_step op (l_daemon l) in (server_effects op l ++ List.map Does es,
       l <| l_daemon := d |> <| l_sockets := l_sockets l || opens_sockets op |>)).2) as Hplain.
  { intros Hs. pose proof (frame_daemon op (l_daemon l) Hs) as Hf. destruct (daemon_step op (l_daemon l)) as [es d].
    apply nearer_same; try done. by apply Hna. }
  destruct op as [o|i r now]; [|by apply Hplain]. destruct (starts_server o) eqn:Eo.
  - assert (h_webSocketServerStarting (l_host l) = true) as Ew by (by destruct o; try done; cbn [admits] in Ea; bprop).
    assert ((stop_rank (l_stop l) <= 2)%nat) as Hr.
    { destruct (decide (3 <= stop_rank (l_stop l))%nat) as [X|X]; [|lia]. destruct (li_released l Hi X). congruence. }
    assert (forall l', l_stop l' = l_stop l -> l_start l' = l_start l -> (server_due l' < server_due l)%nat -> nearer (LDaemon (DHost o)) l l') as Hd.
    { intros l' E1 E2 Hlt. split; [congruence|]. unfold due. rewrite E1. unfold start_due. rewrite E2.
      unfold awaited. destruct (l_stop l) eqn:Ep; try done; cbn in Hr; try lia; destruct o; try done; try lia; rewrite ?Ea; cbn [nat_of]; lia. }
    clear Hplain Hna Hi'. destruct o; try done; cbn [daemon_step host_step admits] in *.
    + unfold ws_controller_created. destruct (host_report _ _ _ _) as [e h] eqn:Er.
      apply Hd; [done..|]. cbn [snd]. apply andb_true_iff in Ea as [_ Em]. apply negb_true_iff in Em.
      match goal with |- (server_due ?x < _)%nat => set (l2 := x) end. assert (controller_made (l_host l2) = true) as Em2 by done.
      unfold server_due. rewrite Ew, Em, Em2. case_match; lia.
    + apply Hd; [done..|]. cbn [snd]. unfold server_due. rewrite Ew. cbn. case_match; lia.
    + apply Hd; [done..|]. unfold server_due. rewrite Ew. cbn. case_match; lia.
  - assert (forall o', DHost o = DHost o' -> starts_server o' = false) as Hs by (by intros ? [= <-]).
    destruct o; try (by apply Hplain). destruct (l_bound l) eqn:Eb; [by apply Hplain|].
    destruct (registry_step _ _) as [es p]. apply nearer_same; try done. by apply Hna.
Qed.

(** An answer that a part of the stop follows. *)
Lemma within_nearer op l n r : due l = S n -> within n r -> nearer op l r.2.
Proof. intros Hd [H1 H2]. split; [done|]. rewrite Hd. destruct (awaited op l); cbn; lia. Qed.

Lemma life_step_nearer env op l : life_inv l -> l_stop l <> StopIdle -> nearer op l (life_step env op l).2.
Proof.
  intros Hi Hn. pose proof (closed_of l Hi Hn) as Hc.
  assert (awaited op l = false -> nearer op l l) as H0 by (intros; by apply nearer_same; [| | |apply life_frame_refl| |]).
  destruct op; cbn [life_step].
  - unfold life_start, start_host. rewrite Hc. destruct (startingPromise l); apply H0; unfold awaited; by destruct (l_stop l).
  - destruct (l_start l) eqn:El; try (apply H0; unfold awaited; by rewrite El; destruct (l_stop l)). by apply listened_nearer.
  - destruct (l_start l) eqn:El; try (apply H0; unfold awaited; by rewrite El; destruct (l_stop l)). by apply listen_failed_nearer.
  - destruct (l_start l) eqn:El; try (apply H0; unfold awaited; by rewrite El; destruct (l_stop l)).
    pose proof (claimed_nearer env lenv now l Hi Hn El) as H. cbn [life_step] in H. by rewrite El in H.
  - destruct (l_start l), (l_stop l) eqn:Ep; try (apply H0; unfold awaited; by rewrite Ep).
    split; [cbn; congruence|]. unfold awaited, due. cbn. rewrite Ep. cbn. lia.
  - unfold life_stop, stop_host. rewrite Hc. apply H0. unfold awaited. by destruct (l_stop l).
  - destruct (l_stop l) eqn:Ep; try (apply H0; unfold awaited; by rewrite Ep).
    + destruct (startingPromise l) eqn:Es; [apply H0; unfold awaited; by rewrite Ep, Es|].
      apply (within_nearer _ _ (server_due l + 5)); [|apply stop_started_within].
      rewrite due_awaits by done. unfold start_due, startingPromise in *. destruct (l_start l); done || lia.
    + destruct (h_webSocketServerStarting (l_host l)) eqn:Es; [apply H0; unfold awaited; by rewrite Ep, Es|].
      apply (within_nearer _ _ 4); [|apply stop_internal_within]. unfold due, server_due. by rewrite Ep, Es.
  - destruct (l_stop l) eqn:Ep; try (apply H0; unfold awaited; by rewrite Ep).
    apply (within_nearer _ _ 3); [unfold due; by rewrite Ep|apply stop_control_within].
  - destruct (l_stop l) eqn:Ep; try (apply H0; unfold awaited; by rewrite Ep).
    apply (within_nearer _ _ 2); [unfold due; by rewrite Ep|apply stop_physical_within].
  - destruct (l_stop l) eqn:Ep; try (apply H0; unfold awaited; by rewrite Ep).
    apply (within_nearer _ _ 1); [unfold due; by rewrite Ep|apply stop_cleared_within].
  - destruct (l_stop l) eqn:Ep; try (apply H0; unfold awaited; by rewrite Ep).
    apply (within_nearer _ _ 0 ([], _)); [unfold due; by rewrite Ep|by split].
  - case_match; [|apply H0; unfold awaited; by destruct (l_stop l)]. apply nearer_same; try done. unfold awaited. by destruct (l_stop l).
  - destruct (l_monitors l) as [|n]; [apply H0; unfold awaited; by destruct (l_stop l)|].
    assert (forall l, awaited (LMonitorWorks lenv now) l = false) as Ha by (intros x; unfold awaited; by destruct (l_stop x)).
    assert (life_inv (l <| l_monitors := n |>)) as Hi1 by (by apply (inv_framed l); [|framed|]).
    destruct (guard_nearer (LMonitorWorks lenv now) (monitor env lenv (l_guard l)) now _ (Ha _) Hi1 Hn) as [A B].
    split; [done|]. by rewrite Ha in *.
  - destruct (List.existsb _ _); [|apply H0; unfold awaited; by destruct (l_stop l)].
    apply guard_nearer; [unfold awaited; by destruct (l_stop l)|done|done].
  - apply nearer_same; try done. unfold awaited. by destruct (l_stop l).
  - by apply daemon_nearer.
Qed.

Lemma life_run_nearer env ops : forall l, life_inv l -> l_stop l <> StopIdle ->
  let l' := (life_run env ops l).2 in l_stop l' <> StopIdle /\ (answers env ops l + due l' <= due l)%nat.
Proof.
  induction ops as [|op ops IH]; intros l Hi Hn; cbn [life_run answers]; [split; [done|cbn; lia]|].
  destruct (life_step_ok env op l Hi) as [A _]. destruct (life_step_nearer env op l Hi Hn) as [B C].
  destruct (life_step env op l) as [e1 l1]. cbn [snd] in *. specialize (IH l1 A B).
  destruct (life_run env ops l1) as [e2 l2]. cbn [snd] in *. destruct IH. split; [done|lia].
Qed.

(** ** The promises of RPCs *)

Definition host_effects (es : list life_effect) : list effect :=
  flat_map (fun e => match e with Does e => [e] | _ => [] end) es.

Lemma host_effects_app a b : host_effects (a ++ b) = host_effects a ++ host_effects b.
Proof. apply flat_map_app. Qed.

Lemma host_effects_does es : host_effects (List.map Does es) = es.
Proof. induction es as [|e es IH]; [done|]. cbn. by f_equal. Qed.

(** Parts of start and stop: no promise is added, and those that are no longer
    waiting have been settled. *)
Record kept (h : Host) (es : list effect) (h' : Host) : Prop := {
  ke_inv : host_inv h';
  ke_next : pr_nextGlobalMessageId (h_pendingRoutes h') = pr_nextGlobalMessageId (h_pendingRoutes h);
  ke_count : forall cb, (settled cb es + pending cb (h_pendingRoutes h') = pending cb (h_pendingRoutes h))%nat
}.

Lemma host_kept_trans h h1 h2 e1 e2 : kept h e1 h1 -> kept h1 e2 h2 -> kept h (e1 ++ e2) h2.
Proof.
  intros [A1 A2 A3] [B1 B2 B3]. split; [done|congruence|]. intros cb. rewrite settled_app. specialize (A3 cb). specialize (B3 cb). lia.
Qed.

(** A host that is not ready and has the same routes. *)
Lemma kept_quiet h h' es : host_inv h -> quiet es = true -> h_pendingRoutes h' = h_pendingRoutes h ->
  (h_idleTimer h' <> None -> isInUse h' = false) -> h_lifecycleStatus h' <> ready ->
  managers_ok (h_activeControlIds h') (h_enabledManagers h') -> kept h es h'.
Proof.
  intros [Hr _ _] Hq Er Hi Hl Hm. split; [|by rewrite Er|intros cb; rewrite quiet_settled by done; by rewrite Er].
  split; [by rewrite Er| |done]. by split.
Qed.

Lemma kept_silent h h' es : host_inv h -> silent h (es, h') -> kept h es h'.
Proof.
  intros Hi Hs. pose proof Hs as [_ Hc _]. apply core_parts in Hc as (E & _). cbn [snd] in E. destruct (silent_fine h (es, h') Hi Hs) as [A _ B].
  split; [done|by rewrite E|]. intros cb. specialize (B cb). cbn [fst snd] in B. lia.
Qed.

Lemma kept_refl h : host_inv h -> kept h [] h.
Proof. intros Hi. apply kept_silent; [done|]. by apply silent_intro. Qed.

Lemma kept_ownership c now h : host_inv h ->
  kept h (handleLegacyOwnershipChanged c now h).1 (handleLegacyOwnershipChanged c now h).2.
Proof.
  intros Hi. destruct (ownership_fine c now h Hi) as [A _ B]. split; [done| |].
  - unfold handleLegacyOwnershipChanged, handleLegacyOwnershipLost, clear. destruct (bool_decide _); [|done]. hcbn.
    pose proof (clear_hands_out (fun _ => true) (h_pendingRoutes h) (hi_routes h Hi)) as Hout.
    match goal with |- context [clearMatching ?f ?x] => change x with (h_pendingRoutes h); destruct (clearMatching f (h_pendingRoutes h)) as [rs t] end.
    apply (ho_next _ _ _ Hout).
  - intros cb. specialize (B cb). lia.
Qed.

Lemma kept_tell cs now : forall h, host_inv h -> kept h (tell_ownership cs now h).1 (tell_ownership cs now h).2.
Proof.
  induction cs as [|c cs IH]; intros h Hi; cbn [tell_ownership]; [by apply kept_refl|].
  pose proof (kept_ownership c now h Hi) as A. destruct (handleLegacyOwnershipChanged c now h) as [e1 h1]. cbn [fst snd] in A.
  pose proof (IH h1 (ke_inv _ _ _ A)) as B. destruct (tell_ownership cs now h1). by eapply host_kept_trans.
Qed.

Lemma kept_cleared h : host_inv h -> h_lifecycleStatus h = closed_ ->
  kept h (stopInternal_cleared h).1 (stopInternal_cleared h).2 /\
  forall cb, pending cb (h_pendingRoutes (stopInternal_cleared h).2) = 0%nat.
Proof.
  intros [Hr Hi Hm] Hc. unfold stopInternal_cleared, clearRuntimeState, clear. hcbn.
  match goal with |- context [clearMatching ?f ?x] => change x with (h_pendingRoutes h) end.
  pose proof (clear_hands_out (fun _ => true) (h_pendingRoutes h) Hr) as Hout.
  pose proof (clearMatching_spec (fun _ => true) (h_pendingRoutes h) (rw_table _ Hr)) as (_ & S1 & _).
  destruct (clearMatching _ (h_pendingRoutes h)) as [rs t]. cbn [fst snd] in *. destruct Hout as [O1 O2 O3 O4].
  split.
  - split; [|done|].
    + split; [done| |done]. split; [apply (id_armed h Hi)|]. hcbn. change (h_lifecycleStatus _) with (h_lifecycleStatus h). congruence.
    + intros cb. rewrite settled_reject by done. hcbn. specialize (O4 cb). lia.
  - intros cb. hcbn. unfold pending. rewrite S1. clear. by induction (pr_routes (h_pendingRoutes h)).
Qed.

(** The same for the life of a host; the calls that wait go on waiting. *)
Record life_kept (l : Life) (r : list life_effect * Life) : Prop := {
  lk_host : kept (l_host l) (host_effects r.1) (l_host r.2);
  lk_suspended : d_suspended (l_daemon r.2) = d_suspended (l_daemon l)
}.

Lemma life_kept_refl l : host_inv (l_host l) -> life_kept l ([], l).
Proof. intros Hi. split; [by apply kept_refl|done]. Qed.

Lemma life_kept_trans l l1 l2 e1 e2 : life_kept l (e1, l1) -> life_kept l1 (e2, l2) -> life_kept l (e1 ++ e2, l2).
Proof.
  intros [A1 A2] [B1 B2]. cbn [fst snd] in *. split; cbn [fst snd]; [|congruence]. rewrite host_effects_app. by eapply host_kept_trans.
Qed.

(** From a change of the host to one of its life. *)
Lemma put_kept l l' h es : kept (l_host l) es h -> l_daemon l' = mkDaemon h (d_suspended (l_daemon l)) ->
  life_kept l (List.map Does es, l').
Proof. intros Hk El. split; cbn [fst snd]; [|by rewrite El]. rewrite host_effects_does. unfold l_host at 2. by rewrite El. Qed.

Lemma host_same_kept l l' es : host_inv (l_host l) -> l_daemon l' = l_daemon l -> host_effects es = [] -> life_kept l (es, l').
Proof.
  intros Hi El He. split; cbn [fst snd]; [|by rewrite El]. rewrite He. unfold l_host at 2. rewrite El. by apply kept_refl.
Qed.

Lemma life_kept_from l l1 r : l_daemon l1 = l_daemon l -> life_kept l1 r -> life_kept l r.
Proof. intros E [A B]. split; [unfold l_host in *; by rewrite <- E|by rewrite <- E]. Qed.

Lemma stop_trace_kept l : host_inv (l_host l) -> life_kept l (stop_trace l).
Proof. intros Hi. unfold stop_trace, stop_ends. destruct (l_trace l); by apply host_same_kept. Qed.

Lemma stop_cleared_kept l : host_inv (l_host l) -> h_lifecycleStatus (l_host l) = closed_ -> life_kept l (stop_cleared l) /\
  forall cb, pending cb (h_pendingRoutes (l_host (stop_cleared l).2)) = 0%nat.
Proof.
  intros Hi Hc. unfold stop_cleared. destruct (kept_cleared (l_host l) Hi Hc) as [A B].
  destruct (stopInternal_cleared (l_host l)) as [e h]. cbn [fst snd] in *.
  pose proof (stop_trace_kept (put_host h l) (ke_inv _ _ _ A)) as C.
  assert (l_daemon (stop_trace (put_host h l)).2 = l_daemon (put_host h l)) as E by (unfold stop_trace; by destruct (l_trace _)).
  destruct (stop_trace (put_host h l)) as [e' l']. cbn [fst snd] in *. split.
  - eapply life_kept_trans; [|exact C]. by eapply put_kept.
  - intros cb. unfold l_host. rewrite E. apply B.
Qed.

Lemma stop_physical_kept l : host_inv (l_host l) -> life_kept l (stop_physical l).
Proof.
  intros Hi. unfold stop_physical, stopInternal_physical. destruct (close_physical _) as [e p].
  set (h := (l_host l) <| h_physicalConnector := p |>).
  assert (kept (l_host l) (List.map Phys e) h) as Hk by (apply kept_silent; [done|split; [apply quiet_phys|done..]]).
  apply (life_kept_trans l (put_host h l)); [by apply (put_kept l _ h)|]. apply host_same_kept; [apply Hk|done..].
Qed.

Lemma stop_control_kept l : host_inv (l_host l) -> life_kept l (stop_control l).
Proof.
  intros Hi. unfold stop_control. set (h := stopInternal_control (l_host l)).
  assert (kept (l_host l) [] h) as Hk by (apply kept_silent; [done|by split]).
  assert (life_kept l ([], put_host h l)) as H1 by (by apply (put_kept l _ h [])). case_match.
  - apply (life_kept_trans l (put_host h l) _ [] [ClosesControl]); [done|]. apply host_same_kept; [apply Hk|done..].
  - pose proof (stop_physical_kept (put_host h l) (ke_inv _ _ _ Hk)) as H2. destruct (stop_physical _) as [e l'].
    by apply (life_kept_trans l (put_host h l) _ [] e).
Qed.

Lemma quiet_close ids : quiet (List.map CloseWs ids) = true.
Proof. by apply quiet_map. Qed.

Lemma stop_internal_kept l : host_inv (l_host l) -> h_lifecycleStatus (l_host l) = closed_ -> life_kept l (stop_internal l).
Proof.
  intros Hi Hc. unfold stop_internal.
  assert (kept (l_host l) (stopInternal (l_host l)).1 (stopInternal (l_host l)).2) as Hk.
  { apply kept_quiet; try done; [apply quiet_close|by destruct (stopInternal_spec (l_host l)) as [-> _]; rewrite Hc|].
    intros m Hm. by apply not_elem_of_nil in Hm. }
  destruct (stopInternal (l_host l)) as [e h]. cbn [fst snd] in Hk.
  set (l1 := put_host h _). assert (life_kept l (List.map Does e, l1)) as H1 by (by apply (put_kept l _ h)).
  case_match.
  - split; [|done]. cbn [fst snd]. change (host_effects (ClosesServer :: List.map Does e)) with (host_effects (List.map Does e)).
    by rewrite host_effects_does.
  - pose proof (stop_control_kept l1 (ke_inv _ _ _ Hk)) as H2. destruct (stop_control l1). by eapply life_kept_trans.
Qed.

Lemma stop_started_kept l : host_inv (l_host l) -> h_lifecycleStatus (l_host l) = closed_ -> life_kept l (stop_started l).
Proof. intros Hi Hc. unfold stop_started. case_match; [by apply host_same_kept|by apply stop_internal_kept]. Qed.

Lemma life_stop_kept l : host_inv (l_host l) -> life_kept l (life_stop l).2.
Proof.
  intros Hi. unfold life_stop. pose proof (stop_host_spec (l_host l)) as H.
  assert (kept (l_host l) [] (stop_host (l_host l)).2) as Hk.
  { unfold stop_host. destruct (h_lifecycleStatus (l_host l)); try (by apply kept_refl).
    all: apply kept_quiet; try done; [apply (id_armed _ (hi_idle _ Hi))|apply (hi_managers _ Hi)]. }
  destruct (stop_host (l_host l)) as [[] h]; cbn [fst snd] in *; [|by apply life_kept_refl].
  set (l1 := setDriverReportService false (put_host h l)).
  assert (life_kept l ([], l1)) as H1 by (by apply (put_kept l _ h [])).
  case_match; cbn [snd].
  - apply (life_kept_trans l l1 _ [] []); [done|]. by apply host_same_kept; [apply Hk| |].
  - destruct H as (_ & Hc & _). pose proof (stop_started_kept l1 (ke_inv _ _ _ Hk) Hc) as H2. destruct (stop_started l1) as [e l'].
    by apply (life_kept_trans l l1 l' [] e).
Qed.

Lemma start_ends_kept now h : host_inv h -> kept h [] (start_ends_host now h).
Proof.
  intros Hi. unfold start_ends_host. destruct (h_lifecycleStatus h) eqn:E; try (by apply kept_refl).
  match goal with |- context [scheduleIdleTimeoutIfNeeded now ?x] => destruct (schedule_spec now x) as (H1 & H2 & H3 & H4 & H5) end.
  { apply (id_armed _ (hi_idle _ Hi)). }
  split; [|by rewrite H2|intros cb; by rewrite H2]. split; [by rewrite H2; apply Hi|done|rewrite H4, H5; apply Hi].
Qed.

Lemma start_over_kept now l : host_inv (l_host l) -> life_kept l ([], start_over now l).
Proof. intros Hi. apply (put_kept l _ (start_ends_host now (l_host l)) []); [by apply start_ends_kept|done]. Qed.

Lemma guard_kept r now l : host_inv (l_host l) -> life_kept l (guard_works r now l).
Proof.
  intros Hi. unfold guard_works. destruct r as [[cs ok] g]. pose proof (kept_tell cs now (l_host l) Hi) as Hk.
  destruct (tell_ownership cs now (l_host l)) as [e h]. by apply (put_kept l _ h).
Qed.

(** A count of the requests of a step. *)
Definition life_count (count : callback -> daemon_op -> Daemon -> nat) (cb : callback) (op : life_op) (l : Life) : nat :=
  match op with LDaemon o => if admits o l then count cb o (l_daemon l) else 0 | _ => 0 end.

Fixpoint life_total (env : GuardEnv) (count : callback -> daemon_op -> Daemon -> nat) (cb : callback) (ops : list life_op) (l : Life)
  : nat :=
  match ops with
  | [] => 0
  | op :: ops' => life_count count cb op l + life_total env count cb ops' (life_step env op l).2
  end.

Record life_fine (l : Life) (gain loss : callback -> nat) (r : list life_effect * Life) : Prop := {
  lf_inv : host_inv (l_host r.2);
  lf_next : pr_nextGlobalMessageId (h_pendingRoutes (l_host r.2)) <= pr_nextGlobalMessageId (h_pendingRoutes (l_host l)) + 1;
  lf_count : forall cb, (settled cb (host_effects r.1) + owed cb (l_daemon r.2) + loss cb = owed cb (l_daemon l) + gain cb)%nat
}.

Lemma life_kept_fine l r : life_kept l r -> life_fine l (fun _ => 0%nat) (fun _ => 0%nat) r.
Proof.
  intros [[A B C] D]. split; [done|rewrite B; lia|]. intros cb. specialize (C cb). unfold owed. rewrite D. unfold l_host in C. lia.
Qed.

Lemma daemon_fine_step op l : host_inv (l_host l) -> ids_left (h_pendingRoutes (l_host l)) ->
  life_fine l (fun cb => life_count served cb (LDaemon op) l) (fun cb => life_count lost cb (LDaemon op) l) (life_daemon op l).
Proof.
  intros Hi Hids. unfold life_daemon, life_count. destruct (admits op l) eqn:Ea; cbn [negb]; [|by apply life_kept_fine, life_kept_refl].
  assert (life_fine l (fun cb => served cb op (l_daemon l)) (fun cb => lost cb op (l_daemon l))
    (let '(es, d) := daemon_step op (l_daemon l) in (server_effects op l ++ List.map Does es,
       l <| l_daemon := d |> <| l_sockets := l_sockets l || opens_sockets op |>))) as Hplain.
  { destruct (daemon_step_fine op (l_daemon l) Hi Hids) as [A B C]. destruct (daemon_step op (l_daemon l)) as [es d]. cbn [fst snd] in *.
    assert (host_effects (server_effects op l) = []) as He by (unfold server_effects; repeat case_match; done).
    split; cbn [fst snd]; [done|unfold l_host; lcbn; lia|]. intros cb. rewrite host_effects_app, He, host_effects_does. cbn [app]. apply C. }
  destruct op as [o|i r now]; [|done]. destruct o; try done. destruct (l_bound l); [done|].
  destruct (registry_step _ _) as [es p]. apply life_kept_fine. eapply put_kept; [|done]. apply kept_silent; [done|].
  split; [apply quiet_phys|done..].
Qed.

Lemma life_start_kept l : host_inv (l_host l) -> life_kept l ([], life_start l).
Proof.
  intros Hi. assert (life_kept l ([], l)) as H0 by (by apply life_kept_refl).
  unfold life_start. case_match; [done|]. unfold start_host. destruct (h_lifecycleStatus (l_host l)) eqn:E; [|done..].
  apply (put_kept l _ ((l_host l) <| h_shutdownRequested := false |> <| h_daemonStopReason := None |>) []); [|done].
  apply kept_quiet; try done; [apply (id_armed _ (hi_idle _ Hi))|hcbn; congruence|apply (hi_managers _ Hi)].
Qed.

Lemma start_listened_kept env now l : host_inv (l_host l) -> life_kept l (start_listened env now l).
Proof.
  intros Hi. unfold start_listened. destruct (start_begins env (l_guard l)) as [claims g].
  set (h := (control_server_started (l_host l)) <| h_ownershipStatus := g_currentStatus (gs_guard g) |>).
  assert (kept (l_host l) [] h) as Hk by (apply kept_silent; [done|by split]).
  set (l1 := (put_host h l) <| l_control := EpOpen |> <| l_guard := g |>). assert (life_kept l ([OpensControl], l1)) as H1 by (by split).
  destruct claims; [by split|]. pose proof (start_over_kept now l1 (ke_inv _ _ _ Hk)) as H2.
  by apply (life_kept_trans l l1 _ [OpensControl] []).
Qed.

Lemma start_fails_kept e l : host_inv (l_host l) -> life_kept l (start_fails e l).
Proof.
  intros Hi. unfold start_fails. set (l1 := l <| l_control := EpNone |> <| l_start := StartRollsBack e |>).
  pose proof (life_stop_kept l1 Hi) as [A B]. destruct (life_stop l1) as [first [es l']]. by destruct first; split.
Qed.

(** After the first stop has begun the host is closed. *)
Lemma life_step_fine env op l : host_inv (l_host l) -> ids_left (h_pendingRoutes (l_host l)) ->
  (l_stop l <> StopIdle -> h_lifecycleStatus (l_host l) = closed_) ->
  life_fine l (fun cb => life_count served cb op l) (fun cb => life_count lost cb op l) (life_step env op l).
Proof.
  intros Hi Hids Hc. assert (life_kept l ([], l)) as H0 by (by apply life_kept_refl).
  destruct op; [..|by apply daemon_fine_step]; apply life_kept_fine; cbn [life_step].
  - by apply life_start_kept.
  - destruct (l_start l); try done. by apply start_listened_kept.
  - destruct (l_start l); try done. by apply start_fails_kept.
  - destruct (l_start l); try done. pose proof (guard_kept (claim env lenv daemon_started (l_guard l)) now l Hi) as A.
    destruct (guard_works _ now l) as [es l1]. set (l2 := l1 <| l_guard ::= start_ends |>).
    assert (life_kept l (es, l2)) as B by (by destruct A). rewrite <- (app_nil_r es).
    apply (life_kept_trans l l2); [done|]. apply start_over_kept. apply B.
  - by destruct (l_start l), (l_stop l).
  - by apply life_stop_kept.
  - destruct (l_stop l); try done; case_match; try done; [apply stop_started_kept|apply stop_internal_kept]; auto.
  - destruct (l_stop l); try done. eapply life_kept_from; [|by apply stop_control_kept]. done.
  - destruct (l_stop l); try done. eapply life_kept_from; [|by apply stop_physical_kept]. done.
  - destruct (l_stop l); try done. eapply life_kept_from; [|apply stop_cleared_kept; [done|by apply Hc]]. done.
  - by destruct (l_stop l).
  - case_match; done.
  - case_match; [done|]. eapply life_kept_from; [|by apply guard_kept]. done.
  - case_match; [|done]. by apply guard_kept.
  - by apply host_same_kept.
Qed.

(** *** After the routes are cleared *)

(** The parts of a stop before it. *)
Lemma stop_control_early l : (stop_rank (l_stop (stop_control l).2) <= 5)%nat.
Proof. unfold stop_control, stop_physical. case_match; [cbn; lia|]. by destruct (stopInternal_physical _). Qed.

Lemma stop_started_early l : (stop_rank (l_stop (stop_started l).2) <= 5)%nat /\ (stop_rank (l_stop (stop_internal l).2) <= 5)%nat.
Proof.
  assert (stop_rank (l_stop (stop_internal l).2) <= 5)%nat as H.
  { unfold stop_internal. destruct (stopInternal _). case_match; [cbn; lia|].
    match goal with |- context [stop_control ?x] => pose proof (stop_control_early x); by destruct (stop_control x) end. }
  split; [|done]. unfold stop_started. case_match; [cbn; lia|done].
Qed.

Definition cleared (l : Life) : Prop :=
  (6 <= stop_rank (l_stop l))%nat -> has_controls l = false -> forall cb, pending cb (h_pendingRoutes (l_host l)) = 0%nat.

(** A kept step that leaves the phase alone. *)
Lemma cleared_kept l r : cleared l -> life_kept l r -> l_stop r.2 = l_stop l -> l_control r.2 = l_control l -> cleared r.2.
Proof.
  intros Hc [[_ _ K] _] E1 E2 Hr Hh cb. unfold has_controls in Hh. rewrite E1 in Hr. rewrite E2 in Hh.
  specialize (Hc Hr Hh cb). specialize (K cb). lia.
Qed.

Lemma life_stop_early l : (stop_rank (l_stop (life_stop l).2.2) <= 5)%nat \/ (life_stop l).2 = ([], l).
Proof.
  unfold life_stop. destruct (stop_host (l_host l)) as [[] h]; [left|by right]. case_match; [cbn; lia|].
  by apply stop_started_early.
Qed.

Lemma daemon_cleared op l : life_inv l -> host_inv (l_host l) -> ids_left (h_pendingRoutes (l_host l)) -> cleared l ->
  cleared (life_daemon op l).2.
Proof.
  intros Hl Hi Hids Hc Hr Hh cb.
  assert (l_stop (life_daemon op l).2 = l_stop l /\ l_control (life_daemon op l).2 = l_control l) as [E1 E2].
  { unfold life_daemon. repeat case_match; done. }
  unfold has_controls in Hh. rewrite E2 in Hh. rewrite E1 in Hr. specialize (Hc Hr Hh).
  unfold life_daemon. destruct (admits op l) eqn:Ea; cbn [negb]; [|apply Hc].
  assert (pending cb (h_pendingRoutes (l_host (let '(es, d) := daemon_step op (l_daemon l) in (server_effects op l ++ List.map Does es,
       l <| l_daemon := d |> <| l_sockets := l_sockets l || opens_sockets op |>)).2)) = 0%nat) as Hplain.
  { unfold l_host in Hi, Hids, Hc |- *. destruct op as [o|i r now]; cbn [daemon_step].
    - pose proof (sf_count _ _ _ (host_step_fine o (d_host (l_daemon l)) Hi Hids) cb) as Hs.
      destruct (host_step o (d_host (l_daemon l))) as [es h]. cbn [fst snd] in *. rewrite Hc in Hs.
      assert (taken o (d_host (l_daemon l)) cb = 0%nat) as Ht by (destruct o; try done; cbn [admits] in Ea; unfold has_controls in Ea; congruence).
      lcbn. lia.
    - destruct (d_suspended (l_daemon l) !! i) as [[cb' a]|]; [|apply Hc].
      destruct (resume_spec cb' a r now (d_host (l_daemon l))) as [A _ _]. destruct (resume _ _ _ _ _) as [[es h] a'].
      cbn [fst snd] in *. apply core_parts in A as (E & _). lcbn. rewrite E. apply Hc. }
  destruct op as [o|i r now]; [|done]. destruct o; try done. destruct (l_bound l); [done|]. destruct (registry_step _ _). apply Hc.
Qed.

Lemma life_step_cleared env op l : life_inv l -> host_inv (l_host l) -> ids_left (h_pendingRoutes (l_host l)) -> cleared l ->
  cleared (life_step env op l).2.
Proof.
  intros Hl Hi Hids Hc. assert (forall r, (stop_rank (l_stop r) <= 5)%nat -> cleared r) as Hearly by (intros r Hr X; lia).
  assert (startingPromise l = true -> forall r, l_stop r = l_stop l -> cleared r) as Hst.
  { intros X r E. apply Hearly. rewrite E. pose proof (li_waits l Hl X). lia. }
  destruct op; [..|by apply daemon_cleared]; cbn [life_step].
  - unfold life_start. case_match; [done|]. unfold start_host. destruct (h_lifecycleStatus (l_host l)) eqn:E; [|done..].
    apply Hearly. cbn. assert (l_stop l = StopIdle) as -> by (apply (li_status l Hl); congruence). cbn. lia.
  - destruct (l_start l) eqn:E; try done. apply Hst; [unfold startingPromise; by rewrite E|].
    unfold start_listened. destruct (start_begins _ _) as [[] g]; done.
  - destruct (l_start l) eqn:E; try done. unfold start_fails. set (l1 := l <| l_control := EpNone |> <| l_start := StartRollsBack e |>).
    destruct (life_stop_early l1) as [H|H].
    + destruct (life_stop l1) as [[] [es l']]; by apply Hearly.
    + destruct (life_stop l1) as [first [es l']]. cbn [snd] in H. injection H as -> ->.
      apply Hst; [unfold startingPromise; by rewrite E|by destruct first].
  - destruct (l_start l) eqn:E; try done. unfold guard_works. destruct (claim _ _ _ _) as [[cs ok] g]. destruct (tell_ownership _ _ _).
    apply Hst; [unfold startingPromise; by rewrite E|done].
  - destruct (l_start l), (l_stop l) eqn:E; try done.
  - destruct (life_stop_early l) as [H|H]; [by apply Hearly|by rewrite H].
  - destruct (l_stop l) eqn:E; try done; case_match; try done; apply Hearly, stop_started_early.
  - destruct (l_stop l); try done. apply Hearly, stop_control_early.
  - destruct (l_stop l); try done. apply Hearly. unfold stop_physical. by destruct (stopInternal_physical _).
  - destruct (l_stop l) eqn:E; try done. intros _ _ cb. apply stop_cleared_kept; [done|]. apply (closed_of l Hl). congruence.
  - destruct (l_stop l) eqn:E; try done.
    intros _ Hh cb. apply Hc; [rewrite E; cbn; lia|done].
  - case_match; done.
  - case_match; [done|]. match goal with |- context [guard_works ?r ?n ?x] => pose proof (guard_kept r n x Hi) as K end.
    apply life_kept_from with (l := l) in K; [|done]. apply (cleared_kept l _ Hc K); unfold guard_works; by repeat case_match.
  - case_match; [|done]. apply (cleared_kept l _ Hc (guard_kept _ _ _ Hi)); unfold guard_works; by repeat case_match.
  - done.
Qed.

(** Everything about a run. *)
Lemma life_run_fine env ops : forall l, life_inv l -> host_inv (l_host l) -> cleared l ->
  pr_nextGlobalMessageId (h_pendingRoutes (l_host l)) + Z.of_nat (List.length ops) <= MAX_SAFE ->
  let '(es, l') := life_run env ops l in
  host_inv (l_host l') /\ cleared l' /\
  forall cb, (settled cb (host_effects es) + owed cb (l_daemon l') + life_total env lost cb ops l
              = owed cb (l_daemon l) + life_total env served cb ops l)%nat.
Proof.
  induction ops as [|op ops IH]; intros l Hl Hi Hc Hb; cbn [life_run life_total].
  { split; [done|]. split; [done|]. intros cb. cbn. lia. }
  cbn [List.length] in Hb. assert (ids_left (h_pendingRoutes (l_host l))) as Hids by (unfold ids_left; lia).
  destruct (life_step_ok env op l Hl) as [A _].
  destruct (life_step_fine env op l Hi Hids) as [B1 B2 B3]; [by apply closed_of|].
  pose proof (life_step_cleared env op l Hl Hi Hids Hc) as C.
  destruct (life_step env op l) as [e1 l1]. cbn [fst snd] in *. specialize (IH l1 A B1 C ltac:(lia)).
  destruct (life_run env ops l1) as [e2 l2]. destruct IH as (I1 & I2 & I3). split; [done|]. split; [done|]. intros cb.
  rewrite host_effects_app, settled_app. specialize (B3 cb). specialize (I3 cb). lia.
Qed.

Lemma new_life_fine o file lock trace : let l := new_life o file lock trace in
  host_inv (l_host l) /\ cleared l /\ pr_nextGlobalMessageId (h_pendingRoutes (l_host l)) = 1 /\ forall cb, owed cb (l_daemon l) = 0%nat.
Proof.
  split; [|by split; [intros X; cbn in X; lia|]]. split; [apply new_routes_wf|by split|]. by intros m ?%not_elem_of_nil.
Qed.

(** *** The timers of requests *)

Definition no_routes (h : Host) : Prop := pr_routes (h_pendingRoutes h) = [].

Lemma clear_none f (t : @PendingRouteTable callback) : pr_routes t = [] -> clearMatching f t = ([], t).
Proof. intros E. unfold clearMatching. by rewrite E. Qed.

Lemma disconnect_no_routes id now h : no_routes h -> no_routes (handleControlDisconnected id now h).2.
Proof.
  intros Hn. unfold handleControlDisconnected. match goal with |- context [updateReportStatus ?x] => set (h2 := x) end.
  pose proof (updateReportStatus_silent h2) as [_ Hc _]. destruct (updateReportStatus h2) as [e1 h3]. cbn [fst snd] in *.
  apply core_parts in Hc as (C1 & _). unfold releasePhysicalDeviceManagers. hcbn.
  destruct (release_managers id _ _) as [[e2 ms] p]. hcbn. rewrite C1. change (h_pendingRoutes h2) with (h_pendingRoutes h).
  unfold clearByControlId. rewrite (clear_none _ _ Hn). unfold no_routes, scheduleIdleTimeoutIfNeeded.
  repeat case_match; hcbn; exact Hn.
Qed.

Lemma timeout_no_routes tm e h : no_routes h -> no_routes (route_timeout_fires tm e h).2.
Proof.
  unfold no_routes. intros Hn. unfold route_timeout_fires, timer_fires. destruct (mget tm _) as [[g due]|]; [|done].
  unfold remove. cbn -[mdel]. by rewrite Hn.
Qed.

Lemma tell_no_routes cs now : forall h, no_routes h -> no_routes (tell_ownership cs now h).2.
Proof.
  induction cs as [|c cs IH]; intros h Hn; cbn [tell_ownership]; [done|].
  assert (no_routes (handleLegacyOwnershipChanged c now h).2) as H1.
  { unfold handleLegacyOwnershipChanged, handleLegacyOwnershipLost, clear. destruct (bool_decide _); [|done]. hcbn.
    match goal with |- context [clearMatching ?f ?x] => change x with (h_pendingRoutes h); by rewrite (clear_none f _ Hn) end. }
  destruct (handleLegacyOwnershipChanged c now h) as [e1 h1]. specialize (IH h1 H1). by destruct (tell_ownership cs now h1).
Qed.

Lemma guard_no_routes r now l : no_routes (l_host l) -> no_routes (l_host (guard_works r now l).2).
Proof.
  intros Hn. unfold guard_works. destruct r as [[cs ok] g]. pose proof (tell_no_routes cs now (l_host l) Hn) as H.
  by destruct (tell_ownership cs now (l_host l)).
Qed.

Lemma cleared_no_routes h : host_inv h -> no_routes (stopInternal_cleared h).2.
Proof.
  intros [Hr _ _]. unfold stopInternal_cleared, clearRuntimeState, clear, no_routes. hcbn.
  match goal with |- context [clearMatching ?f ?x] => change x with (h_pendingRoutes h) end.
  pose proof (clearMatching_spec (fun _ => true) (h_pendingRoutes h) (rw_table _ Hr)) as (_ & S1 & _).
  destruct (clearMatching _ (h_pendingRoutes h)) as [rs t]. cbn [fst snd] in *. hcbn. rewrite S1.
  clear. by induction (pr_routes (h_pendingRoutes h)).
Qed.

(** Once the routes are cleared, only a control connection or the socket of a
    front end that could not be closed brings requests. *)
Definition sockets_left (l : Life) : bool := has_controls l || l_sockets l.

Definition drained (l : Life) : Prop :=
  (6 <= stop_rank (l_stop l))%nat -> sockets_left l = false -> no_routes (l_host l).

Lemma daemon_drained op l : life_inv l -> drained l -> drained (life_daemon op l).2.
Proof.
  intros Hl Hd. unfold life_daemon.
  destruct (admits op l) eqn:Ea; cbn [negb]; [|done].
  assert (match op with DHost (HRegistry _ _) => l_bound l = true | _ => True end ->
    drained (let '(es, d) := daemon_step op (l_daemon l) in (server_effects op l ++ List.map Does es,
       l <| l_daemon := d |> <| l_sockets := l_sockets l || opens_sockets op |>)).2) as Hplain.
  { intros Hb Hr Hs.
    assert ((6 <= stop_rank (l_stop l))%nat /\ sockets_left l = false /\ l_sockets l = false /\ has_controls l = false) as (Hr' & Hs' & Hk & Hh).
    { destruct (daemon_step op (l_daemon l)). cbn [snd] in Hr, Hs. unfold sockets_left, has_controls in Hs |- *. revert Hr Hs. lcbn.
      intros Hr [H1 [H2 _]%orb_false_iff]%orb_false_iff. rewrite H1, H2. done. }
    specialize (Hd Hr' Hs'). clear Hr Hs. destruct (li_released l Hl ltac:(lia)) as [R1 _ R3 _ R5 _ _].
    unfold l_host in *. destruct op as [o|i r now]; cbn [daemon_step].
    - destruct o; cbn [admits host_step] in *; try congruence.
      + pose proof (disconnect_no_routes controlId now _ Hd). by destruct (handleControlDisconnected _ _ _).
      + destruct source; congruence.
      + pose proof (timeout_no_routes timer e _ Hd). by destruct (route_timeout_fires _ _ _).
      + unfold retry_fires. destruct (retry_begins _ _ _) as [[rt t]|]; exact Hd.
      + unfold idle_timer_fires. destruct (h_idleTimer _); [|exact Hd]. destruct (isInUse _); exact Hd.
      + unfold attempt_ends. destruct (isCurrentAttempt _ _ _), success; exact Hd.
      + unfold l_host in Ea. by rewrite R3 in Ea.
      + unfold l_host in Ea. by rewrite R3 in Ea.
      + unfold l_host in Ea. by rewrite R3 in Ea.
    - destruct (d_suspended (l_daemon l) !! i) as [[cb' a]|]; [|exact Hd].
      destruct (resume_spec cb' a r now (d_host (l_daemon l))) as [A _ _]. destruct (resume _ _ _ _ _) as [[es h] a'].
      cbn [fst snd] in *. apply core_parts in A as (E & _). unfold no_routes. lcbn. by rewrite E. }
  destruct op as [o|i r now]; [|by apply Hplain]. destruct o; try by apply Hplain.
  destruct (l_bound l); [by apply Hplain|]. destruct (registry_step _ _). intros Hr Hs. apply Hd; [exact Hr|exact Hs].
Qed.

Lemma drained_kept l l' : drained l -> l_stop l' = l_stop l -> l_control l' = l_control l -> l_sockets l' = l_sockets l ->
  (no_routes (l_host l) -> no_routes (l_host l')) -> drained l'.
Proof.
  intros Hd E1 E2 E3 Hn Hr Hs. apply Hn, Hd; [by rewrite <- E1|]. unfold sockets_left, has_controls in *. by rewrite <- E2, <- E3.
Qed.

Lemma life_step_drained env op l : life_inv l -> host_inv (l_host l) -> drained l -> drained (life_step env op l).2.
Proof.
  intros Hl Hi Hd. assert (forall r, (stop_rank (l_stop r) <= 5)%nat -> drained r) as Hearly by (intros r Hr X; lia).
  assert (startingPromise l = true -> forall r, l_stop r = l_stop l -> drained r) as Hst.
  { intros X r E. apply Hearly. rewrite E. pose proof (li_waits l Hl X). lia. }
  destruct op; [..|by apply daemon_drained]; cbn [life_step].
  - unfold life_start. case_match; [done|]. unfold start_host. destruct (h_lifecycleStatus (l_host l)) eqn:E; [|done..].
    apply Hearly. cbn. assert (l_stop l = StopIdle) as -> by (apply (li_status l Hl); congruence). cbn. lia.
  - destruct (l_start l) eqn:E; try done. apply Hst; [unfold startingPromise; by rewrite E|].
    unfold start_listened. destruct (start_begins _ _) as [[] g]; done.
  - destruct (l_start l) eqn:E; try done. unfold start_fails. set (l1 := l <| l_control := EpNone |> <| l_start := StartRollsBack e |>).
    destruct (life_stop_early l1) as [H|H].
    + destruct (life_stop l1) as [[] [es l']]; by apply Hearly.
    + destruct (life_stop l1) as [first [es l']]. cbn [snd] in H. injection H as -> ->.
      apply Hst; [unfold startingPromise; by rewrite E|by destruct first].
  - destruct (l_start l) eqn:E; try done. unfold guard_works. destruct (claim _ _ _ _) as [[cs ok] g]. destruct (tell_ownership _ _ _).
    apply Hst; [unfold startingPromise; by rewrite E|done].
  - destruct (l_start l), (l_stop l) eqn:E; try done.
  - destruct (life_stop_early l) as [H|H]; [by apply Hearly|by rewrite H].
  - destruct (l_stop l) eqn:E; try done; case_match; try done; apply Hearly, stop_started_early.
  - destruct (l_stop l); try done. apply Hearly, stop_control_early.
  - destruct (l_stop l); try done. apply Hearly. unfold stop_physical. by destruct (stopInternal_physical _).
  - destruct (l_stop l) eqn:E; try done. intros _ _. unfold stop_cleared.
    pose proof (cleared_no_routes (l_host (failed error l)) Hi) as H. destruct (stopInternal_cleared _) as [e h].
    unfold stop_trace. by destruct (l_trace _).
  - destruct (l_stop l) eqn:E; try done. intros _ Hs. apply Hd; [rewrite E; cbn; lia|exact Hs].
  - case_match; done.
  - case_match; [done|]. eapply (drained_kept l _ Hd); [by unfold guard_works; repeat case_match..|]. intros Hn. by apply guard_no_routes.
  - case_match; [|done]. eapply (drained_kept l _ Hd); [by unfold guard_works; repeat case_match..|]. intros Hn. by apply guard_no_routes.
  - done.
Qed.

Lemma life_run_drained env ops : forall l, life_inv l -> host_inv (l_host l) -> drained l ->
  pr_nextGlobalMessageId (h_pendingRoutes (l_host l)) + Z.of_nat (List.length ops) <= MAX_SAFE ->
  let l' := (life_run env ops l).2 in host_inv (l_host l') /\ drained l'.
Proof.
  induction ops as [|op ops IH]; intros l Hl Hi Hd Hb; cbn [life_run]; [done|].
  cbn [List.length] in Hb. assert (ids_left (h_pendingRoutes (l_host l))) as Hids by (unfold ids_left; lia).
  destruct (life_step_ok env op l Hl) as [A _].
  destruct (life_step_fine env op l Hi Hids) as [B1 B2 _]; [by apply closed_of|].
  pose proof (life_step_drained env op l Hl Hi Hd) as C.
  destruct (life_step env op l) as [e1 l1]. cbn [fst snd] in *. specialize (IH l1 A B1 C ltac:(lia)).
  by destruct (life_run env ops l1).
Qed.

(** Without routes no timer of one is armed. *)
Lemma no_routes_no_timers h : host_inv h -> no_routes h -> pr_timers (h_pendingRoutes h) = [].
Proof.
  intros [Hr _ _] Hn. destruct (pr_timers (h_pendingRoutes h)) as [|[tm [g due]] ts] eqn:E; [done|].
  destruct (wf_timer _ (rw_table _ Hr) tm g due) as (_ & r & Hg & _); [by rewrite E; cbn; rewrite decide_True|].
  by rewrite Hn in Hg.
Qed.

(** ** What a stop guarantees *)

Definition is_does (e : life_effect) : bool := match e with Does _ => true | _ => false end.

Lemma does_only es : forallb is_does (List.map Does es) = true.
Proof. by induction es. Qed.

Lemma does_times p es : (forall e, p (Does e) = false) -> forallb is_does es = true -> times p es = 0%nat.
Proof.
  intros Hp. induction es as [|e es IH]; [done|]. cbn [forallb]. intros [He Hes]%andb_true_iff. rewrite times_cons, IH by done.
  destruct e; try done. by rewrite Hp.
Qed.

(** After the end nothing is opened or closed. *)
Lemma life_over_step env op l : life_inv l -> l_stop l = StopOver ->
  l_stop (life_step env op l).2 = StopOver /\ forallb is_does (life_step env op l).1 = true.
Proof.
  intros Hl Ho. assert (h_lifecycleStatus (l_host l) = closed_) as Hc by (apply (closed_of l Hl); congruence).
  assert (startingPromise l = false) as Hs.
  { destruct (startingPromise l) eqn:E; [|done]. pose proof (li_waits l Hl E) as X. rewrite Ho in X. cbn in X. lia. }
  assert (forall r now l, l_stop l = StopOver -> l_stop (guard_works r now l).2 = StopOver /\ forallb is_does (guard_works r now l).1 = true) as Hg.
  { intros [[cs ok] g] now l1 E. unfold guard_works. destruct (tell_ownership _ _ _). split; [done|apply does_only]. }
  unfold startingPromise in Hs. destruct op; cbn [life_step].
  - unfold life_start, startingPromise, start_host. by rewrite Hs, Hc.
  - by destruct (l_start l).
  - by destruct (l_start l).
  - by destruct (l_start l).
  - rewrite Ho. by destruct (l_start l).
  - unfold life_stop, stop_host. by rewrite Hc.
  - by rewrite Ho.
  - by rewrite Ho.
  - by rewrite Ho.
  - by rewrite Ho.
  - by rewrite Ho.
  - split; [|done]. cbn [snd]. destruct (_ && _); done.
  - destruct (l_monitors l); [by split|]. by apply Hg.
  - destruct (List.existsb _ _); [|by split]. by apply Hg.
  - by split.
  - destruct (li_released l Hl ltac:(rewrite Ho; cbn; lia)) as [R1 _ R3 _ _ _ _]. unfold life_daemon.
    destruct (admits op l) eqn:Ea; cbn [negb]; [|by split].
    assert (server_effects op l = []) as He by (destruct op as [[]|]; try done; cbn [admits server_effects] in *; rewrite ?R1, ?R3 in *; done).
    assert (l_stop (let '(es, d) := daemon_step op (l_daemon l) in (server_effects op l ++ List.map Does es,
       l <| l_daemon := d |> <| l_sockets := l_sockets l || opens_sockets op |>)).2 = StopOver /\
      forallb is_does (let '(es, d) := daemon_step op (l_daemon l) in (server_effects op l ++ List.map Does es,
       l <| l_daemon := d |> <| l_sockets := l_sockets l || opens_sockets op |>)).1 = true) as Hplain.
    { destruct (daemon_step op (l_daemon l)). rewrite He. split; [done|apply does_only]. }
    destruct op as [o|]; [|done]. destruct o; try done. destruct (l_bound l); [done|]. destruct (registry_step _ _).
    split; [done|apply does_only].
Qed.

Lemma over_run env ops : forall l, life_inv l -> l_stop l = StopOver ->
  l_stop (life_run env ops l).2 = StopOver /\ forallb is_does (life_run env ops l).1 = true.
Proof.
  induction ops as [|op ops IH]; intros l Hl Ho; cbn [life_run]; [done|].
  destruct (life_over_step env op l Hl Ho) as [A B]. destruct (life_step_ok env op l Hl) as [C _].
  destruct (life_step env op l) as [e1 l1]. cbn [fst snd] in *. destruct (IH l1 C A) as [D E].
  destruct (life_run env ops l1) as [e2 l2]. split; [done|]. cbn [fst snd] in *. by rewrite forallb_app, B, E.
Qed.

Lemma not_open c : c ∈ [EpNone; EpClosed; EpStuck] -> c <> EpOpen.
Proof. intros H ->. by repeat match goal with X : _ ∈ _ |- _ => inversion X; subst; clear X end. Qed.

(** C8: A stopped daemon has released what it held.  Whenever a stop has ended, in
    whatever order starts, stops, their failures, requests, connections and the
    guard's work came before: every control server and every WebSocket server
    that was opened has been told to close once, and so have the connector and the
    trace; the idle timer and the timer of the ownership monitor are not armed, no
    server is known or being started, the ownership is no longer monitored, no
    event of the connector is listened to and reports go nowhere; and nothing that
    comes later opens or closes anything.  If no socket was left open by a server
    that failed to close, no request waits in the route table and no timer of a
    request is armed (over fewer than [2^53 - 1] events, which bounds the ids).
    The retry timers of memoised queries are not part of this. *)
Theorem stopped_host_released env ops o file lock trace :
  let '(es, l) := life_run env ops (new_life o file lock trace) in
  l_stop l = StopOver ->
  (times is_opens_control es = times is_closes_control es /\ times is_opens_server es = times is_closes_server es /\
   times is_closes_physical es = 1 /\ times is_closes_trace es = nat_of trace)%nat /\
  released l /\ h_controlServer (l_host l) = false /\ getDriverReportService l = false /\ startingPromise l = false /\
  (Z.of_nat (List.length ops) < MAX_SAFE -> has_controls l = false -> l_sockets l = false ->
   pr_routes (h_pendingRoutes (l_host l)) = [] /\ pr_timers (h_pendingRoutes (l_host l)) = []) /\
  forall later, l_stop (life_run env later l).2 = StopOver /\ forallb is_does (life_run env later l).1 = true.
Proof.
  pose proof (new_life_inv o file lock trace) as H0. destruct (new_life_fine o file lock trace) as (F1 & _ & F3 & _).
  pose proof (life_run_drained env ops _ H0 F1 ltac:(intros X; cbn in X; lia)) as Hdr. rewrite F3 in Hdr.
  destruct (life_run_ok env ops _ H0) as [Hl [B1 B2 B3 B4 B5]].
  destruct (life_run env ops (new_life o file lock trace)) as [es l]. cbn [fst snd] in *. intros Ho.
  pose proof (li_released l Hl ltac:(rewrite Ho; cbn; lia)) as Hr. destruct (li_unpublished l Hl ltac:(rewrite Ho; cbn; lia)) as [U1 U2].
  rewrite Ho in U2. split; [|split_and!; try done; [| | |intros later; by apply over_run]].
  - unfold open_controls, open_servers, physical_closed, trace_closed in *. rewrite Ho in *. rewrite (re_made l Hr) in B2. cbn in B1, B2, B3, B4.
    rewrite (bool_decide_eq_false_2 (l_control l = EpOpen)) in B1 by (by apply not_open). change (l_trace l = trace) in B5. rewrite B5 in B4.
    rewrite (bool_decide_eq_false_2 (EpNone = EpOpen)) in B1 by done. rewrite bool_decide_eq_false_2, bool_decide_eq_true_2 in B3, B4 by lia.
    rewrite andb_false_r, andb_true_r in B4. cbn [nat_of] in *. split_and!; lia.
  - unfold getDriverReportService. rewrite (li_report l Hl), Ho. done.
  - destruct (startingPromise l) eqn:E; [|done]. pose proof (li_waits l Hl E) as X. rewrite Ho in X. cbn in X. lia.
  - intros Hb Hh Hk. destruct (Hdr ltac:(lia)) as [Hi Hd].
    assert (no_routes (l_host l)) as Hn by (apply Hd; [rewrite Ho; cbn; lia|unfold sockets_left; by rewrite Hh, Hk]).
    split; [exact Hn|by apply no_routes_no_timers].
Qed.

(** C9: A stop comes to an end.  Once [stop] has been called, whatever happens
    meanwhile it waits for at most ten answers (a start in progress, a WebSocket
    server that is being started, the closing of four resources); as long as it
    has not ended there is one that it waits for, and when none is left it has
    ended.  No failure of a part keeps the others from being closed. *)
Theorem stop_comes_to_an_end env before later o file lock trace :
  let l := (life_run env before (new_life o file lock trace)).2 in
  l_stop l <> StopIdle ->
  let l' := (life_run env later l).2 in
  (answers env later l + due l' <= 10)%nat /\ (due l' = 0%nat <-> l_stop l' = StopOver) /\
  (l_stop l' <> StopOver -> exists op, awaited op l' = true /\ (due (life_step env op l').2 < due l')%nat).
Proof.
  intros l Hn l'. destruct (life_run_ok env before _ (new_life_inv o file lock trace)) as [Hl _]. fold l in Hl.
  destruct (life_run_nearer env later l Hl Hn) as [Hn' Hd]. fold l' in Hn', Hd.
  destruct (life_run_ok env later l Hl) as [Hl' _]. fold l' in Hl'. split_and!.
  - assert (due l <= 10)%nat; [|lia]. unfold due, start_due, server_due. repeat case_match; lia.
  - unfold due. destruct (l_stop l'); split; intros X; try done; lia.
  - intros Ho. destruct (something_awaited l' Hl' Hn' Ho) as [op Ha]. exists op. split; [done|].
    destruct (life_step_nearer env op l' Hl' Hn') as [_ X]. rewrite Ha in X. cbn in X. lia.
Qed.

(** C10: No request is left behind by a shutdown.  From the construction of the
    host to the end of its stop and beyond, each request for a promise was
    answered once, waits in the route table, is a call that waits, or was lost
    (a message for a reply that is not forwarded); and when the stop has ended and
    no control socket is left, none waits in the route table any more. *)
Theorem shutdown_settles_rpcs env ops o file lock trace cb :
  Z.of_nat (List.length ops) < MAX_SAFE ->
  let l0 := new_life o file lock trace in
  let '(es, l) := life_run env ops l0 in
  (settled cb (host_effects es) + pending cb (h_pendingRoutes (l_host l)) + suspended cb (d_suspended (l_daemon l))
   + life_total env lost cb ops l0 = life_total env served cb ops l0)%nat /\
  (l_stop l = StopOver -> has_controls l = false -> pending cb (h_pendingRoutes (l_host l)) = 0%nat).
Proof.
  intros Hb l0. destruct (new_life_fine o file lock trace) as (H1 & H2 & H3 & H4). fold l0 in H1, H2, H3, H4.
  pose proof (life_run_fine env ops l0 (new_life_inv o file lock trace) H1 H2 ltac:(lia)) as H.
  destruct (life_run env ops l0) as [es l]. destruct H as (_ & Hc & H). specialize (H cb). rewrite H4 in H. unfold owed in H. split.
  - unfold l_host. lia.
  - intros Ho Hh. apply Hc; [rewrite Ho; cbn; lia|done].
Qed.

(** ** A life *)

(** A signal arrives while the daemon still claims the ownership; a connector
    that has connected asks for something, and closing the devices fails. *)
Definition demo_env : GuardEnv := mkGuardEnv 42 false (fun _ => false) true.
Definition demo_lock : LockEnv := mkLockEnv (fun _ => FsOk) FsOk FsOk true.
Definition demo_life : Life :=
  new_life (mkHostOption 1 (NInt 600000) None (Some true) None None 42 true) (Some (js "7")) false true.

Definition demo_started : list life_op :=
  [LStart; LListened 1; LDaemon (DHost (HConnect 1 true None 2));
   LDaemon (DHost (HRpc 1 (mkRequest (NInt 5) Protocol.startWSServer (JObj [])) None 3)); LStop].

Definition demo_ended : list life_op :=
  [LStart; LStop; LClaimed demo_lock 4; LStopResumes; LDaemon (DHost (HWsController (mkServerInfo 19783 (js "10.0.0.1:19783") None)));
   LStopResumes; LDaemon (DHost (HWsStarted (mkServerInfo 19783 (js "10.0.0.1:19783") None)));
   LDaemon (DResume 0 (RServer (mkServerInfo 19783 (js "10.0.0.1:19783") None)) 5); LStopResumes; LServerClosed None;
   LDaemon (DHost (HDisconnect 1 6)); LControlClosed None; LPhysicalClosed (Some (ThrowError (js "usb"))); LTraceClosed None].

Lemma stopped_host_released_witness :
  let '(es, l) := life_run demo_env (demo_started ++ demo_ended) demo_life in
  l_stop l = StopOver /\ times is_opens_control es = times is_closes_control es /\ h_controlServer (l_host l) = false /\
  pr_timers (h_pendingRoutes (l_host l)) = [].
Proof.
  pose proof (stopped_host_released demo_env (demo_started ++ demo_ended)
    (mkHostOption 1 (NInt 600000) None (Some true) None None 42 true) (Some (js "7")) false true) as H.
  fold demo_life in H. assert (l_stop (life_run demo_env (demo_started ++ demo_ended) demo_life).2 = StopOver) as E by (vm_compute; reflexivity).
  assert (sockets_left (life_run demo_env (demo_started ++ demo_ended) demo_life).2 = false) as [S1 S2]%orb_false_iff by (vm_compute; reflexivity).
  destruct (life_run demo_env (demo_started ++ demo_ended) demo_life) as [es l]. cbn [snd] in E, S1, S2.
  destruct (H E) as ((H1 & _) & _ & H2 & _ & _ & H3 & _).
  exact (conj E (conj H1 (conj H2 (proj2 (H3 ltac:(vm_compute; reflexivity) S1 S2))))).
Defined.

Lemma stop_comes_to_an_end_witness :
  let l := (life_run demo_env demo_started demo_life).2 in
  l_stop l <> StopIdle /\ answers demo_env demo_ended l = 9%nat /\ due (life_run demo_env demo_ended l).2 = 0%nat /\
  l_stop (life_run demo_env demo_ended l).2 = StopOver.
Proof.
  assert (l_stop (life_run demo_env demo_started demo_life).2 <> StopIdle) as Hn by (vm_compute; discriminate).
  pose proof (stop_comes_to_an_end demo_env demo_started demo_ended
    (mkHostOption 1 (NInt 600000) None (Some true) None None 42 true) (Some (js "7")) false true Hn) as (_ & H & _).
  split; [exact Hn|]. split; [vm_compute; reflexivity|]. split; [vm_compute; reflexivity|]. apply H. vm_compute. reflexivity.
Defined.

(** A request still waits for its response when the daemon is stopped. *)
Definition demo_shutdown : list life_op :=
  [LStart; LListened 1; LClaimed demo_lock 2; LDaemon (DHost (HRegistry (RegisterClient phone_client) 3));
   LDaemon (DHost (HConnect 5 false None 4)); LDaemon (DHost (HRpc 5 demo_request None 5)); LStop; LControlClosed None;
   LPhysicalClosed None; LTraceClosed None].

Lemma shutdown_settles_rpcs_witness :
  let '(es, l) := life_run demo_env demo_shutdown demo_life in
  l_stop l = StopOver /\ pending (5%Z, NInt 100) (h_pendingRoutes (l_host l)) = 0%nat /\
  settled (5%Z, NInt 100) (host_effects es) = 1%nat /\
  pending (5%Z, NInt 100) (h_pendingRoutes (l_host (life_run demo_env (firstn 7 demo_shutdown) demo_life).2)) = 1%nat.
Proof.
  pose proof (shutdown_settles_rpcs demo_env demo_shutdown (mkHostOption 1 (NInt 600000) None (Some true) None None 42 true)
    (Some (js "7")) false true (5, NInt 100) ltac:(vm_compute; reflexivity)) as H. cbv zeta in H. fold demo_life in H.
  destruct (life_run demo_env demo_shutdown demo_life) as [es l] eqn:E. destruct H as [_ H].
  assert (l_stop l = StopOver /\ has_controls l = false) as [E1 E2].
  { assert (l = (life_run demo_env demo_shutdown demo_life).2) as -> by (by rewrite E). split; vm_compute; reflexivity. }
  split; [exact E1|]. split; [exact (H E1 E2)|]. split; [|vm_compute; reflexivity].
  assert (es = (life_run demo_env demo_shutdown demo_life).1) as -> by (by rewrite E). vm_compute. reflexivity.
Defined.

(** A check of the ownership that waits for the lock while the daemon stops goes
    on afterwards: the stopped host takes the devices of a process that has
    exited, and no monitor watches them any more. *)
Example ownership_taken_after_stop :
  let ops := [LStart; LListened 1; LClaimed demo_lock 2; LMonitorBegins; LStop; LControlClosed None; LPhysicalClosed None; LTraceClosed None;
              LOthers (Some (js "7")) false] in
  let l := (life_run demo_env ops demo_life).2 in
  let l' := (life_step demo_env (LMonitorWorks demo_lock 9) l).2 in
  l_stop l = StopOver /\ gs_file (l_guard l) = Some (js "7") /\ gs_file (l_guard l') = Some (js "42") /\ g_monitorTimer (gs_guard (l_guard l')) = false.
Proof. vm_compute. done. Qed.
