(* ===== verification/Usb.v ===== *)
(** * USB clients: the framing of a runtime's socket and its messages

    Models [usb/ClientAdapter.ts], [usb/utils.ts] and the part of
    [usb/Connection.ts] and [usb/USBConnection.ts] it uses: the receive buffer
    that is moved and grown in place, the packets in it, the registration of a
    runtime and the classification of its messages.  The packages [bufferpack]
    and [utf8] are classes with their documented behaviour as laws. *)

From Stdlib Require Import SpecFloat String.
From S2P Require Import JsValue Json Utf8 Protocol Transport Message Physical WebSocket.

Open Scope Z_scope.

(** ** The packages *)

(** [up_pack ws enc] is [bufferpack.pack("! I I I I I <n>s", [...ws, enc])],
    [up_unpack b] is [bufferpack.unpack("! I I I I I", b, 0)] and [up_utf8 s] is
    [utf8.encode(s)], which throws on a lone surrogate. *)
Class UsbPack := {
  up_pack : list Z -> list Z -> list Z;
  up_unpack : list Z -> option (list Z);
  up_utf8 : jstr -> option (list Z)
}.

Definition words (ws : list Z) : list Z := concat (List.map be32 ws).
Definition word_ok (w : Z) : Prop := 0 <= w < 2 ^ 32.

(** Five unsigned 32-bit integers in network byte order, and a byte string. *)
Class UsbPackLaws `{UsbPack} := {
  up_pack_spec : forall ws enc, List.length ws = 5%nat -> Forall word_ok ws -> up_pack ws enc = words ws ++ enc;
  up_unpack_spec : forall ws l, List.length ws = 5%nat -> Forall word_ok ws -> up_unpack (words ws ++ l) = Some ws;
  up_unpack_prefix : forall b c, (20 <= List.length b)%nat -> up_unpack (b ++ c) = up_unpack b;
  up_unpack_range : forall b ws, up_unpack b = Some ws -> List.length ws = 5%nat /\ Forall word_ok ws;
  up_utf8_spec : forall s, wf_str s = true -> paired s = true -> up_utf8 s = Some (utf8_encode s)
}.

(** [packMessage]; [None] when the encoder throws. *)
Definition packMessage `{UsbPack} (data : json) : option (list Z) :=
  match up_utf8 (stringify data) with
  | None => None
  | Some enc => let n := zlen enc in Some (up_pack [1; 101; 0; n + 4; n] enc)
  end.

(** ** The receive buffer *)

Definition initialBufferCapacity : Z := 1024 * 1024 * 2.
Definition usbmuxdPacketHeaderLength : Z := 20.

Record Receiver := mkReceiver {
  rc_initialBufferCapacity : Z;
  rc_bufferCapacity : Z;
  rc_buffer : option (list Z);    (* all bytes of the allocated buffer *)
  rc_offset : Z;
  rc_end : Z
}.

#[export] Instance eta_receiver : Eta Receiver := fun r =>
  mkReceiver (rc_initialBufferCapacity r) (rc_bufferCapacity r) (rc_buffer r) (rc_offset r) (rc_end r).

Definition new_receiver (capacity : Z) : Receiver := mkReceiver capacity capacity None 0 0.

Definition slice (l : list Z) (from until : Z) : list Z := take (Z.to_nat (until - from)) (drop (Z.to_nat from) l).

(** [source.copy(target, start)]: what does not fit is not copied. *)
Definition copy_to (source target : list Z) (start : Z) : list Z :=
  let s := Z.to_nat start in
  take s target ++ take (List.length target - s) source ++ drop (s + List.length source) target.

(** [while (capacity < need) capacity *= 2]. *)
Fixpoint grow (fuel : nat) (capacity need : Z) : Z :=
  match fuel with
  | O => capacity
  | S f => if capacity <? need then grow f (capacity * 2) need else capacity
  end.

Section Unpack.
Context `{UP : UsbPack} {W : Type}.

(** [Buffer.allocUnsafe]: memory of the given size with any content. *)
Variable allocUnsafe : Z -> list Z.

(** [handleMessage], run up to its end before the loop goes on. *)
Variable handler : jstr -> W -> W.

(** Space for the new bytes, by moving or by growing. *)
Definition make_room (data : list Z) (r : Receiver) (buffer : list Z) : Receiver * list Z :=
  if rc_bufferCapacity r - rc_end r <? zlen data then
    let kept := slice buffer (rc_offset r) (rc_end r) in
    let '(capacity, buffer) :=
      if zlen data <=? rc_bufferCapacity r - (rc_end r - rc_offset r)
      then (rc_bufferCapacity r, copy_to kept buffer 0)
      else
        let need := rc_end r - rc_offset r + zlen data in
        let capacity := grow (Z.to_nat need) (rc_bufferCapacity r * 2) need in
        (capacity, copy_to kept (allocUnsafe capacity) 0) in
    (r <| rc_bufferCapacity := capacity |> <| rc_end := rc_end r - rc_offset r |> <| rc_offset := 0 |>, buffer)
  else (r, buffer).

(** The packets that are complete; each consumes at least its header. *)
Fixpoint unpack_loop (fuel : nat) (buffer : list Z) (r : Receiver) (w : W) : Receiver * W :=
  match fuel with
  | O => (r, w)
  | S f =>
      let length := rc_end r - rc_offset r in
      if length <? usbmuxdPacketHeaderLength then (r, w)
      else
        match up_unpack (drop (Z.to_nat (rc_offset r)) buffer) with
        | None => (r, w)
        | Some header =>
            let size := List.nth 4 header 0 in
            if size + usbmuxdPacketHeaderLength <=? length then
              let start := rc_offset r + usbmuxdPacketHeaderLength in
              let w := handler (utf8_decode (slice buffer start (start + size))) w in
              let offset := rc_offset r + usbmuxdPacketHeaderLength + size in
              let r := if offset =? rc_end r then r <| rc_offset := 0 |> <| rc_end := 0 |>
                       else r <| rc_offset := offset |> in
              unpack_loop f buffer r w
            else (r, w)
        end
  end.

Definition handleUnpackMessage (data : list Z) (r : Receiver) (w : W) : Receiver * W :=
  let buffer := match rc_buffer r with Some b => b | None => allocUnsafe (rc_initialBufferCapacity r) end in
  let '(r, buffer) := make_room data r buffer in
  let buffer := copy_to data buffer (rc_end r) in
  let r := r <| rc_buffer := Some buffer |> <| rc_end ::= Z.add (zlen data) |> in
  unpack_loop (S (Z.to_nat (rc_end r - rc_offset r))) buffer r w.
End Unpack.

(** ** The reference: packets of a byte string *)

Fixpoint packets `{UsbPack} (fuel : nat) (bytes : list Z) : list jstr * list Z :=
  match fuel with
  | O => ([], bytes)
  | S f =>
      if zlen bytes <? usbmuxdPacketHeaderLength then ([], bytes)
      else
        match up_unpack bytes with
        | None => ([], bytes)
        | Some header =>
            let size := List.nth 4 header 0 in
            if size + usbmuxdPacketHeaderLength <=? zlen bytes then
              let body := drop (Z.to_nat usbmuxdPacketHeaderLength) bytes in
              let '(ms, rest) := packets f (drop (Z.to_nat size) body) in
              (utf8_decode (take (Z.to_nat size) body) :: ms, rest)
            else ([], bytes)
        end
  end.

Definition packets_of `{UsbPack} (bytes : list Z) : list jstr * list Z := packets (S (List.length bytes)) bytes.

(** The bytes received and not yet consumed. *)
Definition unread (r : Receiver) : list Z :=
  match rc_buffer r with Some b => slice b (rc_offset r) (rc_end r) | None => [] end.

Record receiver_wf (r : Receiver) : Prop := {
  rw_initial : 0 < rc_initialBufferCapacity r <= rc_bufferCapacity r;
  rw_region : 0 <= rc_offset r <= rc_end r /\ rc_end r <= rc_bufferCapacity r;
  rw_buffer : match rc_buffer r with
              | Some b => zlen b = rc_bufferCapacity r
              | None => rc_end r = 0 /\ rc_bufferCapacity r = rc_initialBufferCapacity r
              end
}.

(** ** Moving and growing *)

Lemma slice_length l a b : 0 <= a <= b -> b <= zlen l -> zlen (slice l a b) = b - a.
Proof. unfold zlen, slice. intros. rewrite length_take, length_drop. lia. Qed.

Lemma slice_split l a b c : 0 <= a <= b -> b <= c -> slice l a c = slice l a b ++ slice l b c.
Proof.
  intros H1 H2. unfold slice. replace (Z.to_nat (c - a)) with (Z.to_nat (b - a) + Z.to_nat (c - b))%nat by lia.
  replace (Z.to_nat b) with (Z.to_nat a + Z.to_nat (b - a))%nat by lia. rewrite <- drop_drop. symmetry. apply take_take_drop.
Qed.

Lemma copy_to_length s t i : 0 <= i -> i + zlen s <= zlen t -> zlen (copy_to s t i) = zlen t.
Proof. unfold zlen, copy_to. intros. rewrite !length_app, !length_take, length_drop. lia. Qed.

Lemma copy_to_fits s t i : 0 <= i -> i + zlen s <= zlen t ->
  copy_to s t i = take (Z.to_nat i) t ++ s ++ drop (Z.to_nat i + List.length s) t.
Proof. unfold zlen, copy_to. intros. by rewrite (take_ge s) by lia. Qed.

Lemma slice_copy_append data b o e : 0 <= o <= e -> e + zlen data <= zlen b ->
  slice (copy_to data b e) o (e + zlen data) = slice b o e ++ data.
Proof.
  intros H1 H2. rewrite (slice_split _ o e) by (unfold zlen; lia). rewrite copy_to_fits by lia. f_equal.
  - unfold slice. rewrite drop_app_le by (rewrite length_take; unfold zlen in *; lia).
    rewrite take_app_le by (rewrite length_drop, length_take; unfold zlen in *; lia).
    replace (Z.to_nat e) with (Z.to_nat o + Z.to_nat (e - o))%nat by lia.
    rewrite <- take_drop_commute, take_take, Nat.min_id. done.
  - unfold slice. rewrite drop_length_app by (rewrite length_take; unfold zlen in *; lia).
    rewrite take_length_app; [done|]. unfold zlen. lia.
Qed.

Lemma slice_copy_front s t : zlen s <= zlen t -> slice (copy_to s t 0) 0 (zlen s) = s.
Proof.
  intros H.
  rewrite copy_to_fits by (unfold zlen in *; lia). change (Z.to_nat 0) with 0%nat. rewrite take_0. cbn [app].
  unfold slice, zlen. change (Z.to_nat 0) with 0%nat. rewrite drop_0. apply take_length_app. lia.
Qed.

Lemma grow_enough fuel : forall capacity need, 0 < capacity -> need <= capacity + Z.of_nat fuel ->
  need <= grow fuel capacity need /\ capacity <= grow fuel capacity need.
Proof.
  induction fuel as [|f IH]; intros c need Hc Hn; cbn [grow]; [lia|].
  destruct (Z.ltb_spec c need) as [Hlt|Hge]; [|lia]. destruct (IH (c * 2) need) as [? ?]; lia.
Qed.

(** ** The buffer refines the byte string *)

Section Refines.
Context `{UL : UsbPackLaws} {W : Type}.
Variable allocUnsafe : Z -> list Z.
Hypothesis allocUnsafe_size : forall n, 0 <= n -> zlen (allocUnsafe n) = n.
Variable handler : jstr -> W -> W.

Definition handle_all (ms : list jstr) (w : W) : W := fold_left (fun w m => handler m w) ms w.

Lemma make_room_spec data r buffer : receiver_wf r -> zlen buffer = rc_bufferCapacity r ->
  let '(r', buffer') := make_room allocUnsafe data r buffer in
  0 <= rc_offset r' <= rc_end r' /\ rc_end r' + zlen data <= rc_bufferCapacity r' /\
  zlen buffer' = rc_bufferCapacity r' /\ rc_bufferCapacity r <= rc_bufferCapacity r' /\
  rc_initialBufferCapacity r' = rc_initialBufferCapacity r /\
  slice buffer' (rc_offset r') (rc_end r') = slice buffer (rc_offset r) (rc_end r).
Proof.
  intros [Hi Hr _] Hl. unfold make_room. assert (0 <= zlen data) as Hd by (unfold zlen; lia).
  destruct (Z.ltb_spec (rc_bufferCapacity r - rc_end r) (zlen data)) as [Hlt|Hge].
  2:{ repeat split; lia. }
  assert (zlen (slice buffer (rc_offset r) (rc_end r)) = rc_end r - rc_offset r) as Hk by (apply slice_length; lia).
  destruct (Z.leb_spec (zlen data) (rc_bufferCapacity r - (rc_end r - rc_offset r))) as [Hfit|Hbig];
    cbn [rc_offset rc_end rc_bufferCapacity rc_initialBufferCapacity set_field eta eta_receiver].
  - rewrite copy_to_length by lia. repeat split; try lia. rewrite <- Hk. apply slice_copy_front. lia.
  - destruct (grow_enough (Z.to_nat (rc_end r - rc_offset r + zlen data)) (rc_bufferCapacity r * 2)
      (rc_end r - rc_offset r + zlen data)) as [H1 H2]; [lia|lia|].
    revert H1 H2. generalize (grow (Z.to_nat (rc_end r - rc_offset r + zlen data)) (rc_bufferCapacity r * 2)
      (rc_end r - rc_offset r + zlen data)). intros capacity H1 H2.
    rewrite copy_to_length by (rewrite ?allocUnsafe_size by lia; lia). rewrite allocUnsafe_size by lia.
    repeat split; try lia. rewrite <- Hk. apply slice_copy_front. rewrite allocUnsafe_size; lia.
Qed.

Lemma unpack_at_slice buffer a b : 0 <= a -> a + usbmuxdPacketHeaderLength <= b -> b <= zlen buffer ->
  up_unpack (drop (Z.to_nat a) buffer) = up_unpack (slice buffer a b).
Proof.
  unfold usbmuxdPacketHeaderLength. intros H1 H2 H3. unfold slice.
  rewrite <- (take_drop (Z.to_nat (b - a)) (drop (Z.to_nat a) buffer)) at 1. apply up_unpack_prefix.
  rewrite length_take, length_drop. unfold zlen in *. lia.
Qed.

Lemma unpack_size_range b ws : up_unpack b = Some ws -> 0 <= List.nth 4 ws 0 < 2 ^ 32.
Proof.
  intros Hu. destruct (up_unpack_range _ _ Hu) as [Hl Hf].
  destruct ws as [|? [|? [|? [|? [|e [|]]]]]]; try discriminate. cbn [List.nth].
  do 4 apply Forall_inv_tail in Hf. exact (Forall_inv Hf).
Qed.

Lemma unpack_loop_spec buffer fuel : forall r w,
  0 <= rc_offset r <= rc_end r -> rc_end r <= zlen buffer ->
  let '(ms, rest) := packets fuel (slice buffer (rc_offset r) (rc_end r)) in
  let '(r', w') := unpack_loop handler fuel buffer r w in
  w' = handle_all ms w /\ slice buffer (rc_offset r') (rc_end r') = rest /\
  0 <= rc_offset r' <= rc_end r' /\ rc_end r' <= rc_end r /\
  rc_buffer r' = rc_buffer r /\ rc_bufferCapacity r' = rc_bufferCapacity r /\
  rc_initialBufferCapacity r' = rc_initialBufferCapacity r.
Proof.
  induction fuel as [|f IH]; intros r w Hr Hb; cbn [packets unpack_loop]; [repeat split; lia || done|].
  rewrite slice_length by lia. unfold usbmuxdPacketHeaderLength.
  destruct (Z.ltb_spec (rc_end r - rc_offset r) 20) as [|H20]; [repeat split; lia || done|].
  rewrite (unpack_at_slice buffer (rc_offset r) (rc_end r)) by (unfold usbmuxdPacketHeaderLength; lia).
  destruct (up_unpack _) as [ws|] eqn:E; [|repeat split; lia || done].
  pose proof (unpack_size_range _ _ E) as Hs. set (size := List.nth 4 ws 0) in *.
  destruct (Z.leb_spec (size + 20) (rc_end r - rc_offset r)) as [Hfit|]; [|repeat split; lia || done].
  rewrite (slice_split buffer (rc_offset r) (rc_offset r + 20) (rc_end r)) by lia.
  rewrite (slice_split buffer (rc_offset r + 20) (rc_offset r + 20 + size) (rc_end r)) by lia.
  assert (forall a b c, 0 <= a <= b -> b <= c -> c <= rc_end r -> List.length (slice buffer a b) = Z.to_nat (b - a)) as Hlen.
  { intros a b c ? ? ?. pose proof (slice_length buffer a b ltac:(lia) ltac:(lia)). unfold zlen in *. lia. }
  rewrite drop_length_app by (rewrite (Hlen _ _ (rc_end r)) by lia; lia).
  rewrite take_length_app by (rewrite (Hlen _ _ (rc_end r)) by lia; lia).
  rewrite drop_length_app by (rewrite (Hlen _ _ (rc_end r)) by lia; lia).
  set (w1 := handler _ w). set (r1 := if _ =? _ then _ else _).
  assert (0 <= rc_offset r1 <= rc_end r1 /\ rc_end r1 <= rc_end r /\ rc_buffer r1 = rc_buffer r /\
    rc_bufferCapacity r1 = rc_bufferCapacity r /\ rc_initialBufferCapacity r1 = rc_initialBufferCapacity r /\
    slice buffer (rc_offset r1) (rc_end r1) = slice buffer (rc_offset r + 20 + size) (rc_end r)) as (Ho & He & H1 & H2 & H3 & Hsl).
  { subst r1. destruct (Z.eqb_spec (rc_offset r + 20 + size) (rc_end r)) as [Heq|]; cbn; repeat split; try lia; try done.
    rewrite Heq. unfold slice. by rewrite !Z.sub_diag. }
  specialize (IH r1 w1 Ho ltac:(lia)). rewrite Hsl in IH.
  destruct (packets f _) as [ms rest]. destruct (unpack_loop handler f buffer r1 w1) as [r' w'].
  destruct IH as (-> & ? & ? & ? & ? & ? & ?). repeat split; try lia; try done; congruence.
Qed.

Lemma handleUnpackMessage_spec data r w : receiver_wf r ->
  let '(ms, rest) := packets_of (unread r ++ data) in
  let '(r', w') := handleUnpackMessage allocUnsafe handler data r w in
  w' = handle_all ms w /\ unread r' = rest /\ receiver_wf r'.
Proof.
  intros Hwf. pose proof Hwf as [Hi Hr Hb]. unfold handleUnpackMessage.
  set (buffer := match rc_buffer r with Some b => b | None => _ end).
  assert (zlen buffer = rc_bufferCapacity r /\ unread r = slice buffer (rc_offset r) (rc_end r)) as [Hl Hu].
  { unfold buffer, unread. destruct (rc_buffer r); [done|]. destruct Hb as [He ->]. split; [apply allocUnsafe_size; lia|].
    unfold slice. replace (Z.to_nat (rc_end r - rc_offset r)) with 0%nat by lia. done. }
  pose proof (make_room_spec data r buffer Hwf Hl) as Hroom.
  destruct (make_room allocUnsafe data r buffer) as [r1 buffer1].
  destruct Hroom as (Hr1 & He1 & Hl1 & Hc1 & Hi1 & Hs1). rewrite Hu, <- Hs1.
  set (buffer2 := copy_to data buffer1 (rc_end r1)).
  assert (zlen buffer2 = zlen buffer1) as Hl2 by (apply copy_to_length; lia).
  assert (0 <= zlen data) as Hd by (unfold zlen; lia).
  set (r2 := (r1 <| rc_buffer := Some buffer2 |>) <| rc_end ::= Z.add (zlen data) |>).
  assert (slice buffer2 (rc_offset r2) (rc_end r2) = slice buffer1 (rc_offset r1) (rc_end r1) ++ data) as Hs2.
  { unfold r2. cbn [rc_offset rc_end set_field eta eta_receiver]. rewrite Z.add_comm. apply slice_copy_append; lia. }
  rewrite <- Hs2.
  pose proof (unpack_loop_spec buffer2 (S (Z.to_nat (rc_end r2 - rc_offset r2))) r2 w) as Hloop.
  unfold packets_of. pose proof (slice_length buffer2 (rc_offset r2) (rc_end r2)) as Hsl.
  assert (0 <= rc_offset r2 <= rc_end r2 /\ rc_end r2 <= zlen buffer2) as [Ha2 Hb2]
    by (unfold r2; cbn [rc_offset rc_end set_field eta eta_receiver]; lia).
  specialize (Hsl Ha2 Hb2). specialize (Hloop Ha2 Hb2).
  replace (List.length (slice buffer2 (rc_offset r2) (rc_end r2))) with (Z.to_nat (rc_end r2 - rc_offset r2))
    by (unfold zlen in Hsl; lia).
  destruct (packets _ _) as [ms rest]. destruct (unpack_loop handler _ buffer2 r2 w) as [r' w'].
  destruct Hloop as (-> & <- & ? & ? & Hbuf & Hcap & Hini).
  assert (rc_buffer r' = Some buffer2) as Hb' by (rewrite Hbuf; done).
  assert (rc_bufferCapacity r' = rc_bufferCapacity r1) as Hc' by (rewrite Hcap; done).
  assert (rc_initialBufferCapacity r' = rc_initialBufferCapacity r1) as Hi' by (rewrite Hini; done).
  split; [done|]. split; [unfold unread; by rewrite Hb'|]. split; [lia|lia|]. rewrite Hb'. lia.
Qed.
End Refines.

(** ** Packets of a string do not depend on how it arrives *)

Section Packets.
Context `{UL : UsbPackLaws}.

Lemma packets_fuel n : forall m bytes, (List.length bytes < n)%nat -> (List.length bytes < m)%nat ->
  packets n bytes = packets m bytes.
Proof.
  induction n as [|n IH]; intros [|m] bytes Hn Hm; try lia. cbn [packets].
  unfold usbmuxdPacketHeaderLength. destruct (Z.ltb_spec (zlen bytes) 20) as [|H20]; [done|].
  destruct (up_unpack bytes) as [ws|]; [|done]. cbv zeta. destruct (_ + 20 <=? zlen bytes); [|done].
  unfold zlen in H20. rewrite (IH m); [done|rewrite !length_drop; lia..].
Qed.

Lemma packets_of_app n : forall a b, (List.length a < n)%nat ->
  packets_of (a ++ b) =
  let '(ms, rest) := packets n a in let '(ms', rest') := packets_of (rest ++ b) in (ms ++ ms', rest').
Proof.
  induction n as [|n IH]; intros a b Hn; [lia|]. cbn [packets].
  assert (packets_of (a ++ b) =
    let '(ms', rest') := packets_of (a ++ b) in ([] ++ ms', rest')) as Hsame by (by destruct (packets_of (a ++ b))).
  unfold usbmuxdPacketHeaderLength. destruct (Z.ltb_spec (zlen a) 20) as [|H20]; [exact Hsame|].
  destruct (up_unpack a) as [ws|] eqn:E; [|exact Hsame]. cbv zeta.
  pose proof (unpack_size_range _ _ E) as Hs. set (size := List.nth 4 ws 0) in *.
  destruct (Z.leb_spec (size + 20) (zlen a)) as [Hfit|]; [|exact Hsame]. clear Hsame.
  unfold packets_of at 1. cbn [packets]. unfold usbmuxdPacketHeaderLength, zlen in *. rewrite length_app.
  destruct (Z.ltb_spec (Z.of_nat (List.length a + List.length b)) 20); [lia|].
  rewrite up_unpack_prefix by lia. rewrite E. cbv zeta. fold size.
  destruct (Z.leb_spec (size + 20) (Z.of_nat (List.length a + List.length b))); [|lia].
  rewrite drop_app_le by lia. rewrite take_app_le by (rewrite length_drop; lia).
  rewrite drop_app_le by (rewrite length_drop; lia).
  rewrite (packets_fuel _ (S (List.length (drop (Z.to_nat size) (drop (Z.to_nat 20) a) ++ b))))
    by (rewrite length_app, !length_drop; lia).
  fold (packets_of (drop (Z.to_nat size) (drop (Z.to_nat 20) a) ++ b)).
  rewrite IH by (rewrite !length_drop; lia).
  destruct (packets n _) as [ms rest]. by destruct (packets_of (rest ++ b)).
Qed.

Lemma packMessage_bytes data : wf_json data = true -> zlen (utf8_encode (stringify data)) < 2 ^ 32 - 4 ->
  let enc := utf8_encode (stringify data) in
  packMessage data = Some (words [1; 101; 0; zlen enc + 4; zlen enc] ++ enc).
Proof.
  intros Hw Hl. unfold packMessage. rewrite up_utf8_spec by (apply stringify_wf || apply stringify_paired; done).
  cbv zeta. rewrite up_pack_spec; [done|done|]. unfold zlen in *.
  repeat constructor; unfold word_ok; lia.
Qed.

Lemma words_length ws : List.length (words ws) = (4 * List.length ws)%nat.
Proof. induction ws as [|w ws IH]; [done|]. unfold words in *. cbn [List.map concat]. rewrite length_app, IH. cbn. lia. Qed.

Lemma packets_of_message data bytes rest : wf_json data = true ->
  zlen (utf8_encode (stringify data)) < 2 ^ 32 - 4 -> packMessage data = Some bytes ->
  packets_of (bytes ++ rest) = let '(ms, r) := packets_of rest in (stringify data :: ms, r).
Proof.
  intros Hw Hl Hp. rewrite (packMessage_bytes data Hw Hl) in Hp. cbv zeta in Hp. apply (inj Some) in Hp as <-.
  set (enc := utf8_encode (stringify data)) in *. rewrite <- app_assoc.
  set (hdr := words _). assert (List.length hdr = 20%nat) as Hh by (unfold hdr; by rewrite words_length).
  assert (up_unpack (hdr ++ enc ++ rest) = Some [1; 101; 0; zlen enc + 4; zlen enc]) as Hu.
  { apply up_unpack_spec; [done|]. unfold zlen in *. repeat constructor; unfold word_ok; lia. }
  unfold packets_of at 1. cbn [packets]. unfold usbmuxdPacketHeaderLength, zlen in *. rewrite !length_app, Hh.
  destruct (Z.ltb_spec (Z.of_nat (20 + (List.length enc + List.length rest))) 20); [lia|].
  rewrite Hu. cbn [List.nth].
  destruct (Z.leb_spec (Z.of_nat (List.length enc) + 20) (Z.of_nat (20 + (List.length enc + List.length rest)))); [|lia].
  rewrite (drop_length_app hdr) by lia. rewrite take_length_app by lia. rewrite drop_length_app by lia.
  rewrite (packets_fuel _ (S (List.length rest))) by lia. fold (packets_of rest).
  unfold enc. rewrite utf8_stringify by done. done.
Qed.
End Packets.

(** A whole stream of chunks. *)
Definition receive_all `{UsbPack} {W} (allocUnsafe : Z -> list Z) (handler : jstr -> W -> W) (chunks : list (list Z))
  (rw : Receiver * W) : Receiver * W :=
  fold_left (fun rw c => handleUnpackMessage allocUnsafe handler c rw.1 rw.2) chunks rw.

(** The stream invariant, chunk by chunk. *)
Lemma receive_all_spec `{UL : UsbPackLaws} {W} (allocUnsafe : Z -> list Z) (handler : jstr -> W -> W)
  chunks : forall r w,
  (forall n, 0 <= n -> zlen (allocUnsafe n) = n) -> receiver_wf r -> packets_of (unread r) = ([], unread r) ->
  let '(ms, rest) := packets_of (unread r ++ concat chunks) in
  let '(r', w') := receive_all allocUnsafe handler chunks (r, w) in
  w' = handle_all handler ms w /\ unread r' = rest /\ receiver_wf r'.
Proof.
  induction chunks as [|c cs IH]; intros r w Ha Hr Hu; cbn [concat receive_all fold_left].
  - rewrite app_nil_r, Hu. done.
  - pose proof (handleUnpackMessage_spec allocUnsafe Ha handler c r w Hr) as Hc. cbn [fst snd].
    rewrite app_assoc, (packets_of_app (S (List.length (unread r ++ c)))) by lia.
    fold (packets_of (unread r ++ c)). destruct (packets_of (unread r ++ c)) as [ms rest] eqn:E.
    destruct (handleUnpackMessage allocUnsafe handler c r w) as [r1 w1]. destruct Hc as (-> & Hrest & Hr1).
    assert (packets_of (unread r1) = ([], unread r1)) as Hu1.
    { pose proof (packets_of_app (S (List.length (unread r ++ c))) (unread r ++ c) [] ltac:(lia)) as Happ.
      fold (packets_of (unread r ++ c)) in Happ. rewrite !app_nil_r, E in Happ. rewrite app_nil_r in Happ.
      rewrite <- Hrest in Happ. destruct (packets_of (unread r1)) as [ms' rest'].
      injection Happ as Hm Hr'. rewrite <- (app_nil_r ms) in Hm at 1. apply app_inv_head in Hm. by subst. }
    specialize (IH r1 (handle_all handler ms w) Ha Hr1 Hu1). rewrite Hrest in IH.
    destruct (packets_of (rest ++ concat cs)) as [ms' rest'].
    change (fold_left _ cs (r1, handle_all handler ms w)) with
      (receive_all allocUnsafe handler cs (r1, handle_all handler ms w)).
    destruct (receive_all allocUnsafe handler cs _) as [r' w']. destruct IH as (-> & ? & ?).
    split; [|done]. unfold handle_all. by rewrite fold_left_app.
Qed.

(** C15: The growing, shifting receive buffer is a byte stream.  However the
    bytes of a runtime are cut into chunks, whatever they are and however often
    the buffer was moved or reallocated, the messages handled are exactly the
    packets of the concatenated bytes, in order and once each, what stays
    unread is exactly the incomplete rest, and the buffer stays well formed. *)
Theorem usb_buffer_refines_stream `{UL : UsbPackLaws} {W} (allocUnsafe : Z -> list Z) (handler : jstr -> W -> W)
  chunks : forall r w,
  (forall n, 0 <= n -> zlen (allocUnsafe n) = n) -> receiver_wf r -> packets_of (unread r) = ([], unread r) ->
  let '(ms, rest) := packets_of (unread r ++ concat chunks) in
  let '(r', w') := receive_all allocUnsafe handler chunks (r, w) in
  w' = handle_all handler ms w /\ unread r' = rest /\ receiver_wf r'.
Proof. exact (receive_all_spec allocUnsafe handler chunks). Qed.

(** What is packed is what is handled.  The packets [packMessage] builds for
    a list of messages, however they are cut into chunks on the way, make an
    adapter handle exactly the JSON texts of these messages in order, and leave
    nothing unread. *)
Theorem usb_pack_roundtrip `{UL : UsbPackLaws} {W} (allocUnsafe : Z -> list Z) (handler : jstr -> W -> W)
  (data : list json) (packed chunks : list (list Z)) (w : W) :
  (forall n, 0 <= n -> zlen (allocUnsafe n) = n) ->
  Forall2 (fun m b => wf_json m = true /\ zlen (utf8_encode (stringify m)) < 2 ^ 32 - 4 /\ packMessage m = Some b)
    data packed ->
  concat chunks = concat packed ->
  let '(r, w') := receive_all allocUnsafe handler chunks (new_receiver initialBufferCapacity, w) in
  w' = handle_all handler (List.map stringify data) w /\ unread r = [].
Proof.
  intros Ha Hd Hc.
  pose proof (receive_all_spec allocUnsafe handler chunks (new_receiver initialBufferCapacity) w Ha) as H1.
  assert (packets_of (concat packed) = (List.map stringify data, [])) as Hp.
  { clear -Hd UL. induction Hd as [|m b data packed (Hw & Hl & Hb) _ IH]; [done|].
    cbn [concat List.map]. rewrite (packets_of_message m b) by done. by rewrite IH. }
  cbn [unread new_receiver rc_buffer app] in H1. rewrite Hc, Hp in H1.
  destruct (receive_all _ _ _ _) as [r w']. destruct H1 as (H1 & H2 & _); [|done|done].
  split; cbn; unfold initialBufferCapacity; lia.
Qed.

(** ** Registration and messages *)

(** What the adapter calls: its listener, the connector, the resolver of a
    pending request, and the process when a promise nobody awaits rejects. *)
Record AdapterListener (W : Type) := mkAdapterListener {
  al_created : Z -> ClientQuery -> W -> Z * W;      (* onConnectionCreated *)
  al_message : Z -> jstr -> W -> W;                 (* usb-client-message *)
  al_resolve : Z -> json -> W -> W;
  al_unhandled : W -> W                             (* unhandledRejection *)
}.
Arguments al_created {W}. Arguments al_message {W}. Arguments al_resolve {W}. Arguments al_unhandled {W}.

Record Adapter := mkAdapter {
  ad_isConnected : bool;
  ad_connection : option (list (jstr * Z));    (* its pending requests *)
  ad_id : Z;
  ad_listener : bool;                          (* not null *)
  ad_port : Z;
  ad_device : jstr;
  ad_device_id : jstr;
  ad_type : jstr
}.

#[export] Instance eta_adapter : Eta Adapter := fun a =>
  mkAdapter (ad_isConnected a) (ad_connection a) (ad_id a) (ad_listener a) (ad_port a) (ad_device a) (ad_device_id a)
    (ad_type a).

Definition new_adapter (port : Z) (device device_id type : jstr) : Adapter :=
  mkAdapter false None 0 true port device device_id type.

(** [v ?? d]. *)
Definition or_else (v : jsval) (d : json) : json := match v with None | Some JNull => d | Some x => x end.

Definition isNullish (v : jsval) : bool := match v with None | Some JNull => true | _ => false end.

(** [JSON.parse(v)] of a value that need not be a string. *)
Definition parse_any (v : jsval) : option json :=
  match v with
  | None => None
  | Some JNull => Some JNull
  | Some v => js_to_string v ≫= parse
  end.

(** The identity a runtime registers with. *)
Definition clientQuery (a : Adapter) (info : json) : ClientQuery :=
  let model := or_else ((Some info)@."deviceModel") (JStr []) in
  let model := if bool_decide (ad_type a = js "Mac") && jeq_str (Some model) (js "iPhone")
               then jstring "iPhone_FromMac" else model in
  mkClientQuery (or_else ((Some info)@."App") (jstring "Unknow")) (ad_type a) (ad_device a) model (ad_device_id a)
    (Some (or_else ((Some info)@."sdkVersion") (jstring "0.0.0"))) (Some info).

Section Messages.
Context {W : Type} (L : AdapterListener W).

(** The result is true when the promise of the call rejects. *)
Definition handleConnection (message : jstr) (a : Adapter) (w : W) : bool * Adapter * W :=
  match parse message with
  | None => (true, a, w)
  | Some response =>
      if negb (jeq_str ((Some response)@."event") (js "Register")) then (false, a, w)
      else
        let info := (Some response)@."data"@."info" in
        match info with
        | None | Some JNull => (true, a, w)
        | Some result =>
            let query := clientQuery a result in
            if negb (ad_listener a) then (false, a, w)
            else
              let '(id, w) := al_created L (ad_port a) query w in
              (false, a <| ad_connection := Some [] |> <| ad_id := id |> <| ad_isConnected := true |>, w)
        end
  end.

(** [matchPendingRequest], with the resolution of the request it finds. *)
Definition matchPendingRequest (key : jsval) (response : json) (a : Adapter) (w : W) : Adapter * W :=
  match ad_connection a, key with
  | Some pending, Some (JStr k) =>
      match mget k pending with
      | Some cb => (a <| ad_connection := Some (mdel k pending) |>, al_resolve L cb response w)
      | None => (a, w)
      end
  | _, _ => (a, w)
  end.

(** A message of type CDP or App.  Emitting an event named "error", which has
    no listener, throws, and so does a name that has no text. *)
Definition handleCdp (response : json) (a : Adapter) (w : W) : bool * Adapter * W :=
  let data := (Some response)@."data"@."data" in
  if isNullish data then (true, a, w)
  else
    match parse_any (data@."message") with
    | None => (true, a, w)
    | Some cdp =>
        if truthy ((Some cdp)@."id") && bool_decide (ad_connection a <> None) then
          match (Some cdp)@."id" ≫= js_to_string with
          | None => (true, a, w)
          | Some key => let '(a, w) := matchPendingRequest (Some (JStr key)) response a w in (false, a, w)
          end
        else (truthy ((Some cdp)@."method") && bool_decide (ad_connection a <> None) &&
              (jeq_str ((Some cdp)@."method") (js "error") || bool_decide ((Some cdp)@."method" ≫= js_to_string = None)), a, w)
    end.

(** [handleMessage] of a connected runtime, after the message was emitted. *)
Definition dispatchMessage (message : jstr) (a : Adapter) (w : W) : bool * Adapter * W :=
  match parse message with
  | None | Some JNull => (true, a, w)
  | Some response =>
      let data := (Some response)@."data" in
      if negb (jeq_str ((Some response)@."event") (js "Customized")) then (false, a, w)
      else if jeq_str (data@."type") (js "CDP") || jeq_str (data@."type") (js "App") then handleCdp response a w
      else if jeq_str (data@."type") (js "SessionList") then (false, a, w)
      else
        match ad_connection a with
        | None => (false, a, w)
        | Some _ =>
            if isNullish data then (true, a, w)
            else let '(a, w) := matchPendingRequest (data@."type") response a w in (false, a, w)
        end
  end.

Definition usb_handleMessage (message : jstr) (aw : Adapter * W) : Adapter * W :=
  let '(a, w) := aw in
  let '(rejects, a, w) :=
    if negb (ad_isConnected a) then handleConnection message a w
    else dispatchMessage message a (al_message L (ad_id a) message w) in
  (a, if rejects then al_unhandled L w else w).
End Messages.

(** ** What a runtime's messages do *)

(** A listener that records what it is told; [id] is what it answers. *)
Inductive adapter_event :=
  | Created (port : Z) (query : ClientQuery)
  | UsbMessage (id : Z) (message : jstr)
  | ResolvedRequest (cb : Z) (response : json)
  | Unhandled.

Definition recorder (id : Z) : AdapterListener (list adapter_event) :=
  mkAdapterListener _ (fun port q w => (id, w ++ [Created port q])) (fun i m w => w ++ [UsbMessage i m])
    (fun cb v w => w ++ [ResolvedRequest cb v]) (fun w => w ++ [Unhandled]).

(** A text that registers the runtime. *)
Definition registers (text : jstr) : option json :=
  match parse text with
  | Some v => if jeq_str ((Some v)@."event") (js "Register") then
                match (Some v)@."data"@."info" with None | Some JNull => None | Some i => Some i end
              else None
  | None => None
  end.

(** The texts after the first registration, with it. *)
Fixpoint after_registration (texts : list jstr) : option (json * list jstr) :=
  match texts with
  | [] => None
  | t :: ts => match registers t with Some info => Some (info, ts) | None => after_registration ts end
  end.

Definition told (es : list adapter_event) : list adapter_event :=
  List.filter (fun e => match e with Created _ _ | UsbMessage _ _ => true | _ => false end) es.

Lemma told_app a b : told (a ++ b) = told a ++ told b.
Proof. unfold told. apply List.filter_app. Qed.

Lemma handleConnection_told id text a w : ad_listener a = true -> ad_isConnected a = false ->
  match registers text with
  | Some info =>
      handleConnection (recorder id) text a w =
      (false, a <| ad_connection := Some [] |> <| ad_id := id |> <| ad_isConnected := true |>,
       w ++ [Created (ad_port a) (clientQuery a info)])
  | None => exists b, handleConnection (recorder id) text a w = (b, a, w)
  end.
Proof.
  intros Hl Hc. unfold registers, handleConnection. destruct (parse text) as [v|]; [|by eexists].
  destruct (jeq_str _ _); cbn [negb]; [|by eexists]. rewrite Hl.
  destruct (_@."info") as [[]|]; try (by eexists); done.
Qed.

Lemma matchPendingRequest_keeps id key v a w :
  let '(a', w') := matchPendingRequest (recorder id) key v a w in
  told w' = told w /\ ad_isConnected a' = ad_isConnected a /\ ad_id a' = ad_id a /\ ad_listener a' = ad_listener a.
Proof.
  unfold matchPendingRequest. destruct (ad_connection a), key as [[]|]; try done.
  destruct (mget _ _); [|done]. cbn. rewrite told_app. cbn. by rewrite app_nil_r.
Qed.

Lemma dispatchMessage_keeps id text a w :
  let '(b, a', w') := dispatchMessage (recorder id) text a w in
  told w' = told w /\ ad_isConnected a' = ad_isConnected a /\ ad_id a' = ad_id a /\ ad_listener a' = ad_listener a.
Proof.
  unfold dispatchMessage, handleCdp.
  repeat (case_match; simplify_eq; try done);
  match goal with H : matchPendingRequest (recorder ?i) ?k ?v ?a ?w = _ |- _ =>
    pose proof (matchPendingRequest_keeps i k v a w) as Hk; rewrite H in Hk; exact Hk end.
Qed.

Lemma connected_told id texts : forall a w, ad_isConnected a = true -> ad_id a = id ->
  told (fold_left (fun aw t => usb_handleMessage (recorder id) t aw) texts (a, w)).2 =
  told w ++ List.map (UsbMessage id) texts.
Proof.
  induction texts as [|t ts IH]; intros a w Hc Hi; cbn [fold_left List.map]; [by rewrite app_nil_r|].
  unfold usb_handleMessage at 2. rewrite Hc. cbn [negb recorder al_message].
  pose proof (dispatchMessage_keeps id t a (w ++ [UsbMessage (ad_id a) t])) as Hk.
  change (mkAdapterListener _ _ _ _ _) with (recorder id).
  destruct (dispatchMessage (recorder id) t a _) as [[b a'] w'] eqn:E. destruct Hk as (Hw & Hc' & Hi' & _).
  rewrite IH by congruence. rewrite told_app in Hw. cbn in Hw. subst id.
  destruct b; cbn [recorder al_unhandled]; rewrite ?told_app, Hw; cbn [told List.filter];
    rewrite ?app_nil_r, <- ?app_assoc; done.
Qed.

(** Every message of a registered runtime is passed on once and in order.
    Until a runtime registers nothing is passed on; its first valid
    registration creates exactly one client, with the identity read from it; and
    from then on each text it sends is reported once, under the id of that
    client, in the order of arrival, whatever the texts are. *)
Theorem usb_messages_forwarded id texts : forall a w,
  ad_listener a = true -> ad_isConnected a = false ->
  told (fold_left (fun aw t => usb_handleMessage (recorder id) t aw) texts (a, w)).2 =
  told w ++ match after_registration texts with
            | None => []
            | Some (info, rest) => Created (ad_port a) (clientQuery a info) :: List.map (UsbMessage id) rest
            end.
Proof.
  induction texts as [|t ts IH]; intros a w Hl Hc; cbn [fold_left after_registration]; [by rewrite app_nil_r|].
  unfold usb_handleMessage at 2. rewrite Hc. cbn [negb].
  pose proof (handleConnection_told id t a w Hl Hc) as Ht. destruct (registers t) as [info|].
  - rewrite Ht, connected_told by done. rewrite told_app, <- app_assoc. done.
  - destruct Ht as [b Ht]. rewrite Ht, IH by done. destruct b; [|done].
    cbn [recorder al_unhandled]. rewrite told_app. cbn. by rewrite app_nil_r.
Qed.

Lemma parse_any_object kvs : parse_any (Some (JObj kvs)) = None.
Proof. unfold parse_any. cbn [js_to_string]. destruct (mhas _ kvs); [done|]. vm_compute. reflexivity. Qed.

Lemma payload_object v c : getCustomizedPayload (Some v) = Some c -> messageWasString c = false ->
  (exists kvs, message c = JObj kvs) ->
  exists d, (Some v)@."data"@."data" = Some d /\ isNullish (Some d) = false /\
    exists kvs, (Some d)@."message" = Some (JObj kvs).
Proof.
  intros Hc Hs [kvs Hm]. unfold getCustomizedPayload in Hc.
  destruct ((Some v)@."data"@."data") as [d|]; [|done]. exists d. split; [done|].
  destruct (truthy (Some d)) eqn:Ht; [|done]. split; [by destruct d|].
  destruct (hasOwn _ _); [|done]. cbn [negb orb] in Hc.
  destruct ((Some d)@."message") as [[]|]; try (simplify_eq; cbn in *; simplify_eq; eauto; fail); eauto.
  destruct (parseJsonMessageOrNull s); try done; injection Hc as <-; done.
Qed.

(** A message the host understands can stop the daemon.  A text of a
    runtime that is not JSON, which the host would broadcast, and a CDP message
    whose inner message is an object, which the host would route, are passed on
    and then make the unawaited promise of [handleMessage] reject; so does a
    text that is not JSON, or a registration without [info], of a runtime that
    has not registered yet.  The daemon's handler of unhandled rejections stops
    the process for all connectors. *)
Theorem usb_message_unhandled {W} (L : AdapterListener W) a w text :
  (parse text = None ->
   usb_handleMessage L text (a, w) =
   (a, al_unhandled L (if ad_isConnected a then al_message L (ad_id a) text w else w))) /\
  (forall v c, parse text = Some v -> jeq_str ((Some v)@."event") (js "Customized") = true ->
   jeq_str ((Some v)@."data"@."type") (js "CDP") = true -> getCustomizedPayload (Some v) = Some c ->
   messageWasString c = false -> (exists kvs, message c = JObj kvs) -> ad_isConnected a = true ->
   usb_handleMessage L text (a, w) = (a, al_unhandled L (al_message L (ad_id a) text w))) /\
  (forall v, parse text = Some v -> jeq_str ((Some v)@."event") (js "Register") = true ->
   isNullish ((Some v)@."data"@."info") = true -> ad_isConnected a = false ->
   usb_handleMessage L text (a, w) = (a, al_unhandled L w)).
Proof.
  unfold usb_handleMessage. split; [|split].
  - intros Hp. unfold handleConnection, dispatchMessage. rewrite Hp. by destruct (ad_isConnected a).
  - intros v c Hp He Ht Hc Hs [kvs Hm] Ha. rewrite Ha. cbn [negb]. unfold dispatchMessage. rewrite Hp.
    destruct v; try discriminate. rewrite He, Ht. cbn [negb orb]. unfold handleCdp.
    apply payload_object in Hc as (d & Hd & Hn & Hmsg); [|done|by eexists]. rewrite Hd, Hn.
    destruct Hmsg as [kvs' Hmsg]. by rewrite Hmsg, parse_any_object.
  - intros v Hp He Hn Ha. rewrite Ha. cbn [negb]. unfold handleConnection. rewrite Hp, He. cbn [negb].
    destruct (_@."info") as [[]|]; done.
Qed.

(** ** A concrete package *)

Definition usb_be : UsbPack := {|
  up_pack ws enc := words ws ++ enc;
  up_unpack b := if (List.length b <? 20)%nat then None
                 else Some (List.map (fun i => be32_value (drop i b)) [0; 4; 8; 12; 16]%nat);
  up_utf8 s := if paired s then Some (utf8_encode s) else None
|}.

Lemma be32_value_range l : word_ok (be32_value l).
Proof.
  unfold word_ok. do 4 (destruct l as [|? l]; [cbn; lia|]). cbn [be32_value].
  repeat match goal with |- context [?x mod 256] =>
    pose proof (Z.mod_pos_bound x 256 ltac:(lia)); generalize dependent (x mod 256); intros end.
  lia.
Qed.

Lemma be32_value_app l r : (4 <= List.length l)%nat -> be32_value (l ++ r) = be32_value l.
Proof. intros. do 4 (destruct l as [|? l]; [cbn in *; lia|]). done. Qed.

Lemma usb_be_laws : @UsbPackLaws usb_be.
Proof.
  split; cbn [up_pack up_unpack up_utf8 usb_be].
  - done.
  - intros ws l Hl Hf. destruct ws as [|a [|b [|c [|d [|e [|]]]]]]; try discriminate.
    rewrite length_app, words_length. cbn [List.length]. destruct (Nat.ltb_spec (4 * 5 + List.length l) 20); [lia|].
    do 4 (pose proof (Forall_inv Hf); apply Forall_inv_tail in Hf). pose proof (Forall_inv Hf).
    unfold words. cbn [List.map concat]. rewrite app_nil_r.
    change (drop 0 ?x) with x. rewrite <- !app_assoc.
    change (drop 4 (be32 a ++ ?x)) with x. change (drop 8 (be32 a ++ be32 b ++ ?x)) with x.
    change (drop 12 (be32 a ++ be32 b ++ be32 c ++ ?x)) with x.
    change (drop 16 (be32 a ++ be32 b ++ be32 c ++ be32 d ++ ?x)) with x.
    rewrite !be32_value_be32 by done. done.
  - intros b c Hb. rewrite length_app. destruct (Nat.ltb_spec (List.length b + List.length c) 20); [lia|].
    destruct (Nat.ltb_spec (List.length b) 20); [lia|]. f_equal. cbn [List.map].
    rewrite !drop_app_le by lia. by rewrite !be32_value_app by (rewrite length_drop; lia).
  - intros b ws. destruct (_ <? _)%nat; [done|]. intros [= <-]. split; [done|].
    repeat constructor; apply be32_value_range.
  - intros s _ ->. done.
Qed.

(** Zeroed memory. *)
Definition alloc_zero (n : Z) : list Z := repeat 0 (Z.to_nat n).

Lemma alloc_zero_size n : 0 <= n -> zlen (alloc_zero n) = n.
Proof. unfold zlen, alloc_zero. rewrite repeat_length. lia. Qed.

(** Two packets and the start of a third through a buffer of sixteen bytes. *)
Definition two_packets : list Z :=
  default [] (@packMessage usb_be (JStr (js "hi"))) ++ default [] (@packMessage usb_be JNull).

Lemma usb_buffer_refines_stream_witness :
  let chunks := [take 10 two_packets; drop 10 two_packets; take 5 two_packets] in
  let '(r, w) := @receive_all usb_be _ alloc_zero (fun m w => w ++ [m]) chunks (new_receiver 16, []) in
  w = [quote (js "hi"); js "null"] /\ unread r = take 5 two_packets /\ rc_bufferCapacity r = 64.
Proof.
  intros chunks.
  pose proof (@usb_buffer_refines_stream usb_be usb_be_laws _ alloc_zero (fun m w => w ++ [m]) chunks
    (new_receiver 16) [] alloc_zero_size ltac:(split; cbn; lia) eq_refl) as H.
  destruct (packets_of _) as [ms rest] eqn:E1. vm_compute in E1. injection E1 as <- <-.
  destruct (receive_all _ _ _ _) as [r w] eqn:E2. destruct H as (H1 & H2 & _).
  vm_compute in E2. injection E2 as <- <-. split; [exact H1|]. split; [exact H2|reflexivity].
Defined.

Lemma usb_pack_roundtrip_example :
  exists chunks, List.length chunks = 2%nat /\
  (let '(r, w') := @receive_all usb_be _ (fun n => alloc_zero n) (fun m w => w ++ [m]) chunks
                     (new_receiver initialBufferCapacity, []) in
   w' = [quote (js "hi"); js "null"] /\ unread r = []).
Proof.
  exists [take 7 two_packets; drop 7 two_packets]. split; [reflexivity|].
  pose proof (@usb_pack_roundtrip usb_be usb_be_laws _ alloc_zero (fun m w => w ++ [m]) [JStr (js "hi"); JNull]
    [default [] (@packMessage usb_be (JStr (js "hi"))); default [] (@packMessage usb_be JNull)]
    [take 7 two_packets; drop 7 two_packets] [] alloc_zero_size) as H.
  apply H; [|vm_compute; reflexivity].
  repeat constructor; vm_compute; reflexivity.
Defined.

Definition phone_adapter : Adapter := new_adapter 8901 (js "Phone") (js "serial") (js "Android").

Definition register_text : jstr :=
  stringify (JObj [(js "event", jstring "Register"); (js "data", JObj [(js "info", JObj [(js "App", jstring "demo")])])]).

Lemma usb_messages_forwarded_example :
  told (fold_left (fun aw t => usb_handleMessage (recorder 3) t aw) [js "{}"; register_text; js "garbage"; js "[]"]
          (phone_adapter, [])).2 =
  [Created 8901 (clientQuery phone_adapter (JObj [(js "App", jstring "demo")]));
   UsbMessage 3 (js "garbage"); UsbMessage 3 (js "[]")].
Proof.
  rewrite (usb_messages_forwarded 3 [js "{}"; register_text; js "garbage"; js "[]"] phone_adapter [] eq_refl eq_refl).
  vm_compute. reflexivity.
Defined.

(** The adapter of a runtime that sends text that is not JSON, a CDP message
    with an object inside, and, before it registers, an empty registration. *)
Lemma usb_message_unhandled_example :
  let a := phone_adapter <| ad_isConnected := true |> <| ad_connection := Some [] |> <| ad_id := 3 |> in
  let cdp := stringify (cdp_envelope (cdp_call 7)) in
  (usb_handleMessage (recorder 3) (js "garbage") (a, [])).2 = [UsbMessage 3 (js "garbage"); Unhandled] /\
  (usb_handleMessage (recorder 3) cdp (a, [])).2 = [UsbMessage 3 cdp; Unhandled] /\
  (usb_handleMessage (recorder 3) (stringify (JObj [(js "event", jstring "Register")])) (phone_adapter, [])).2 =
    [Unhandled].
Proof.
  intros a cdp. split; [|split].
  - destruct (usb_message_unhandled (recorder 3) a [] (js "garbage")) as [H _].
    rewrite H by (vm_compute; reflexivity). reflexivity.
  - destruct (usb_message_unhandled (recorder 3) a [] cdp) as (_ & H & _).
    rewrite (H (cdp_envelope (cdp_call 7)) (mkPayload (JObj [(js "client_id", jint 3); (js "session_id", jint 1);
      (js "message", cdp_call 7)]) (cdp_call 7) false)) by (vm_compute; eauto). reflexivity.
  - destruct (usb_message_unhandled (recorder 3) phone_adapter [] (stringify (JObj [(js "event", jstring "Register")])))
      as (_ & _ & H).
    rewrite (H (JObj [(js "event", jstring "Register")])) by (vm_compute; reflexivity). reflexivity.
Defined.
