(* ===== verification/Control.v ===== *)
(** * The control server

    Models [multiplexer/daemon/MultiplexerControlConnection.ts] and
    [multiplexer/daemon/MultiplexerControlServer.ts]: the handshake of a new
    socket, the registered connections, and the way between them and the host.
    A call of the host is an event of the result; what the host wants sent is
    the list of its effects.  Listening on the endpoint and the socket file are
    the operating system's. *)

From Stdlib Require Import SpecFloat String.
From S2P Require Import JsValue Json Utf8 Protocol Transport WebSocket Host.

Open Scope Z_scope.

Definition INVALID_MESSAGE_RPC_ID : Z := -1.
Definition DEFAULT_CONTROL_HANDSHAKE_TIMEOUT_MS : Z := 1000.

(** ** State *)

(** Who handles the messages of a socket. *)
Inductive listener := LHandshake | LConnection (controlId : Z) | LNone.

Record Socket := mkSocket {
  so_transport : transport;
  so_listener : listener;
  so_timer : bool                  (* the handshake timer is armed *)
}.

#[export] Instance eta_socket : Eta Socket := fun s => mkSocket (so_transport s) (so_listener s) (so_timer s).

(** A connection with its transport's socket. *)
Record Connection := mkConnection { cn_socket : Z; cn_closed : bool }.

#[export] Instance eta_connection : Eta Connection := fun c => mkConnection (cn_socket c) (cn_closed c).

Record Server := mkServer {
  sv_server : bool;                         (* not null *)
  sv_sockets : list (Z * Socket);           (* the sockets that are not closed *)
  sv_nextSocket : Z;                        (* identity of the next socket *)
  sv_provisionalTransports : list Z;
  sv_connections : list (Z * Connection);
  sv_nextControlId : Z
}.

#[export] Instance eta_server : Eta Server := fun s =>
  mkServer (sv_server s) (sv_sockets s) (sv_nextSocket s) (sv_provisionalTransports s) (sv_connections s)
    (sv_nextControlId s).

Definition new_server : Server := mkServer false [] 0 [] [] 1.

(** What the server does: a message accepted for writing, or a call of the
    host. *)
Inductive server_event :=
  | Sent (socket : Z) (message : json)
  | HostConnected (controlId : Z) (reportServiceEnabled : bool) (facade : jsval)
  | HostDisconnected (controlId : Z)
  | HostRpc (controlId : Z) (q : ControlRpcRequest).

Definition server_result : Type := list server_event * Server.

(** One operation after the other. *)
Definition andThen (r : server_result) (f : Server -> server_result) : server_result :=
  let '(e, s) := f r.2 in (r.1 ++ e, s).

Definition upd_socket (s : Z) (f : Socket -> Socket) (sv : Server) : Server :=
  match mget s (sv_sockets sv) with
  | Some so => sv <| sv_sockets ::= mset s (f so) |>
  | None => sv
  end.

(** [{ ...debugInfo, protocolVersion, processId, timestamp }]. *)
Definition server_createDebugInfo (o : HostOption) (timestamp : Z) : jsval :=
  if truthy (ho_debugInfo o)
  then Some (spread_with (ho_debugInfo o) [(js "protocolVersion", jint (ho_protocolVersion o));
               (js "processId", jint (ho_pid o)); (js "timestamp", jint timestamp)])
  else None.

Definition error_with (code message : string) : ControlRpcError := mkError (js code) (js message) None.

(** The error an exception is reported as. *)
Definition createRpcError (e : thrown) : ControlRpcError :=
  match e with
  | ThrowCode code message => mkError code message None
  | ThrowError message => mkError (js "control-rpc-failed") message None
  end.

Section Server.
Context `{BP : Bufferpack}.

(** The options of the host, which the server was built with. *)
Variable o : HostOption.

(** [transport.send] and [transport.end] on the transport of a socket. *)
Definition send_on (s : Z) (m : json) (sv : Server) : bool * server_result :=
  match mget s (sv_sockets sv) with
  | None => (false, ([], sv))
  | Some so =>
      let '(ok, t) := send m (so_transport so) in
      (ok, ((if ok then [Sent s m] else []), upd_socket s (fun so => so <| so_transport := t |>) sv))
  end.

Definition end_on (s : Z) (sv : Server) : server_result :=
  ([], upd_socket s (fun so => so <| so_transport ::= end_ s |>) sv).

(** ** Connections *)

Definition connection_send (controlId : Z) (m : jsval -> json) (now : Z) (sv : Server) : server_result :=
  match mget controlId (sv_connections sv) with
  | None => ([], sv)
  | Some c => if cn_closed c then ([], sv) else (send_on (cn_socket c) (m (server_createDebugInfo o now)) sv).2
  end.

(** [{ kind: "rpc-response", ... }] with a missing result as [{}]. *)
Definition sendResponse (controlId : Z) (rpcId : num) (result : json) (now : Z) : Server -> server_result :=
  connection_send controlId (fun d => response_json d rpcId (inl result)) now.

Definition sendError (controlId : Z) (rpcId : num) (e : ControlRpcError) (now : Z) : Server -> server_result :=
  connection_send controlId (fun d => response_json d rpcId (inr e)) now.

Definition unregisterConnection (controlId : Z) (sv : Server) : server_result :=
  ([HostDisconnected controlId], sv <| sv_connections ::= mdel controlId |>).

(** [handleClose] of a connection; the map forgets it in [onClose]. *)
Definition connection_handleClose (controlId : Z) (c : Connection) (sv : Server) : server_result :=
  if cn_closed c then ([], sv)
  else unregisterConnection controlId
         (upd_socket (cn_socket c) (fun so => so <| so_listener := LNone |>)
            (sv <| sv_connections ::= mset controlId (c <| cn_closed := true |>) |>)).

Definition connection_close (controlId : Z) (c : Connection) (sv : Server) : server_result :=
  andThen (connection_handleClose controlId c sv) (end_on (cn_socket c)).

Definition invalid_message_id (v : json) : num :=
  match isRecord (Some v) && isNumber ((Some v)@."id"), (Some v)@."id" with
  | true, Some (JNum n) => n
  | _, _ => NInt INVALID_MESSAGE_RPC_ID
  end.

(** [handleTransportMessage]; [dispatchRpc] calls the host. *)
Definition handleTransportMessage (controlId : Z) (v : json) (now : Z) (sv : Server) : server_result :=
  match mget controlId (sv_connections sv) with
  | None => ([], sv)
  | Some c =>
      if cn_closed c then ([], sv)
      else match decode_request v with
           | Some q => ([HostRpc controlId q], sv)
           | None => sendError controlId (invalid_message_id v)
                       (error_with "invalid-control-message" "Invalid multiplexer control message") now sv
           end
  end.

(** ** Handshake *)

Definition registerConnection (s : Z) (sv : Server) : Z * Server :=
  let controlId := sv_nextControlId sv in
  (controlId,
   upd_socket s (fun so => so <| so_listener := LConnection controlId |>)
     (sv <| sv_provisionalTransports ::= sdel s |> <| sv_nextControlId := js_succ controlId |>
         <| sv_connections ::= mset controlId (mkConnection s false) |>)).

(** A new socket. *)
Definition handleSocket (sv : Server) : Z * Server :=
  let s := sv_nextSocket sv in
  (s, sv <| sv_nextSocket := s + 1 |> <| sv_sockets ::= mset s (mkSocket (new_transport None None) LHandshake true) |>
         <| sv_provisionalTransports ::= sadd s |>).

Definition refuse (s : Z) (code message : string) (sv : Server) : server_result :=
  andThen (send_on s (handshake_error_json (error_with code message)) sv).2 (end_on s).

(** The first message; [inUse] is what the host answers. *)
Definition handshake_message (s : Z) (m : json) (inUse : bool) (now : Z) (sv : Server) : server_result :=
  let sv := upd_socket s (fun so => so <| so_listener := LNone |> <| so_timer := false |>) sv in
  if isMultiplexerHealthRequest (Some m) then
    andThen (send_on s (health_response_json (ho_protocolVersion o) inUse (server_createDebugInfo o now)) sv).2 (end_on s)
  else if isMultiplexerRegisterRequest (Some m) then
    match send_on s register_response_json sv with
    | (false, r) => r
    | (true, r) =>
        andThen r (fun sv =>
          let '(controlId, sv) := registerConnection s sv in
          ([HostConnected controlId (isTrue ((Some m)@."reportServiceEnabled"))
              ((Some m)@."connectorFacadeOption")], sv))
    end
  else refuse s "invalid-control-handshake" "First control message must be a valid health or register request" sv.

Definition handshake_timeout (s : Z) (sv : Server) : server_result :=
  match mget s (sv_sockets sv) with
  | Some so =>
      if so_timer so then
        refuse s "control-handshake-timeout" "Timed out waiting for the first control message"
          (upd_socket s (fun so => so <| so_listener := LNone |> <| so_timer := false |>) sv)
      else ([], sv)
  | None => ([], sv)
  end.

(** A message the transport of a socket received. *)
Definition receive (s : Z) (m : json) (inUse : bool) (now : Z) (sv : Server) : server_result :=
  match so_listener <$> mget s (sv_sockets sv) with
  | Some LHandshake => handshake_message s m inUse now sv
  | Some (LConnection controlId) => handleTransportMessage controlId m now sv
  | Some LNone | None => ([], sv)
  end.

(** The socket closed: the close listeners of the handshake and of the
    connection run. *)
Definition socket_closed (s : Z) (sv : Server) : server_result :=
  match mget s (sv_sockets sv) with
  | None => ([], sv)
  | Some so =>
      let sv := sv <| sv_provisionalTransports ::= sdel s |> in
      let '(e, sv) :=
        match so_listener so with
        | LConnection controlId =>
            match mget controlId (sv_connections sv) with
            | Some c => connection_handleClose controlId c sv
            | None => ([], sv)
            end
        | _ => ([], sv)
        end in
      (e, sv <| sv_sockets ::= mdel s |>)
  end.

(** ** The host's side *)

Definition server_sendToControl (controlId : Z) (e : ControlEvent) (now : Z) : Server -> server_result :=
  connection_send controlId (fun d => event_json d e) now.

Definition server_broadcast (e : ControlEvent) (now : Z) (sv : Server) : server_result :=
  fold_left (fun r id => andThen r (server_sendToControl id e now)) (mkeys (sv_connections sv)) ([], sv).

(** An effect of the host that concerns the server; a settled promise of an RPC
    is answered by [dispatchRpc]. *)
Definition server_effect (now : Z) (e : effect) (sv : Server) : server_result :=
  match e with
  | ToControl controlId ev => server_sendToControl controlId ev now sv
  | Broadcast ev => server_broadcast ev now sv
  | Resolve cb v => sendResponse cb.1 cb.2 v now sv
  | Reject cb e => sendError cb.1 cb.2 (createRpcError e) now sv
  | _ => ([], sv)
  end.

Definition deliver (es : list effect) (now : Z) (sv : Server) : server_result :=
  fold_left (fun r e => andThen r (server_effect now e)) es ([], sv).

(** ** Start and stop *)

Definition server_started (sv : Server) : Server := sv <| sv_server := true |>.

Definition server_stop (sv : Server) : server_result :=
  let connections := sv_connections sv in
  let r := fold_left (fun r s => andThen r (end_on s)) (sv_provisionalTransports sv)
             ([], sv <| sv_server := false |>) in
  fold_left (fun r q => andThen r (connection_close q.1 q.2)) connections
    (r.1, r.2 <| sv_provisionalTransports := [] |> <| sv_connections := [] |>).
End Server.

(** ** The books of the server *)

(** Who listens to a socket, and whether its handshake timer is armed. *)
Definition listens (s : Z) (sv : Server) : option (listener * bool) :=
  (fun so => (so_listener so, so_timer so)) <$> mget s (sv_sockets sv).

Record server_wf (sv : Server) : Prop := {
  sw_connections : NoDup (mkeys (sv_connections sv));
  sw_open : forall id c, mget id (sv_connections sv) = Some c ->
    cn_closed c = false /\ id < sv_nextControlId sv /\ listens (cn_socket c) sv = Some (LConnection id, false);
  sw_listener : forall s id b, listens s sv = Some (LConnection id, b) ->
    exists c, mget id (sv_connections sv) = Some c /\ cn_socket c = s;
  sw_fresh : forall s, listens s sv <> None -> s < sv_nextSocket sv;
  sw_timer : forall s l, listens s sv = Some (l, true) -> l = LHandshake
}.

(** The same connections, listeners and timers; transports may differ. *)
Record same_books (sv sv' : Server) : Prop := {
  sb_connections : sv_connections sv' = sv_connections sv;
  sb_next : sv_nextControlId sv' = sv_nextControlId sv;
  sb_nextSocket : sv_nextSocket sv' = sv_nextSocket sv;
  sb_listens : forall s, listens s sv' = listens s sv
}.

#[export] Instance same_books_preorder : PreOrder same_books.
Proof.
  split; [by split|]. intros a b c [H1 H2 H3 H4] [H5 H6 H7 H8]. split; congruence.
Qed.

Lemma same_books_wf sv sv' : same_books sv sv' -> server_wf sv -> server_wf sv'.
Proof.
  intros [H1 H2 H3 H4] [W1 W2 W3 W4 W5]. split; rewrite ?H1, ?H2, ?H3.
  - done.
  - intros id c Hc. rewrite H4. by apply W2.
  - intros s id b. rewrite H4. apply W3.
  - intros s. rewrite H4. apply W4.
  - intros s l. rewrite H4. apply W5.
Qed.

Lemma listens_upd s f sv s' : (forall so, so_listener (f so) = so_listener so /\ so_timer (f so) = so_timer so) ->
  listens s' (upd_socket s f sv) = listens s' sv.
Proof.
  intros Hf. unfold listens, upd_socket. destruct (mget s (sv_sockets sv)) as [so|] eqn:E; [|done].
  cbn [sv_sockets set_field eta eta_server]. rewrite mget_mset. case_decide as Hs; [|done]. subst.
  rewrite E. cbn. by destruct (Hf so) as [-> ->].
Qed.

(** A change of who listens. *)
Lemma listens_set s f sv l s' : (forall so, so_listener (f so) = l so /\ so_timer (f so) = so_timer so) ->
  listens s' (upd_socket s f sv) =
  if decide (s' = s) then (fun so => (l so, so_timer so)) <$> mget s (sv_sockets sv) else listens s' sv.
Proof.
  intros Hf. unfold listens, upd_socket. destruct (mget s (sv_sockets sv)) as [so|] eqn:E.
  - cbn [sv_sockets set_field eta eta_server]. rewrite mget_mset. case_decide; [|done]. cbn. by destruct (Hf so) as [-> ->].
  - case_decide; [|done]. subst. by rewrite E.
Qed.

Lemma upd_socket_books s f sv :
  sv_connections (upd_socket s f sv) = sv_connections sv /\ sv_nextControlId (upd_socket s f sv) = sv_nextControlId sv /\
  sv_nextSocket (upd_socket s f sv) = sv_nextSocket sv.
Proof. unfold upd_socket. by destruct (mget s (sv_sockets sv)). Qed.

Lemma upd_transport_same s f sv : same_books sv (upd_socket s (fun so => so <| so_transport ::= f |>) sv).
Proof.
  destruct (upd_socket_books s (fun so => so <| so_transport ::= f |>) sv) as (?&?&?).
  split; try done. intros. by apply listens_upd.
Qed.

(** ** What the host is told about a connection *)

Inductive phase := Fresh | Active | Gone.

#[export] Instance phase_eq_dec : EqDecision phase.
Proof. solve_decision. Defined.

(** The calls a connection may cause: it is connected once, then sends
    requests, then is disconnected once. *)
Definition phase_step (id : Z) (p : option phase) (e : server_event) : option phase :=
  match e with
  | Sent _ _ => p
  | HostConnected i _ _ => if decide (i = id) then match p with Some Fresh => Some Active | _ => None end else p
  | HostRpc i _ => if decide (i = id) then match p with Some Active => p | _ => None end else p
  | HostDisconnected i => if decide (i = id) then match p with Some Active => Some Gone | _ => None end else p
  end.

Definition phase_run (id : Z) (es : list server_event) (p : phase) : option phase :=
  fold_left (phase_step id) es (Some p).

Definition phase_of (id : Z) (sv : Server) : phase :=
  if mhas id (sv_connections sv) then Active else if id <? sv_nextControlId sv then Gone else Fresh.

Definition quiet_event (e : server_event) : bool := match e with Sent _ _ => true | _ => false end.

Lemma phase_quiet id es p : forallb quiet_event es = true -> phase_run id es p = Some p.
Proof.
  unfold phase_run. induction es as [|e es IH]; [done|]. cbn [forallb fold_left].
  intros [He Hes]%andb_true_iff. destruct e; try done. cbn [phase_step]. by apply IH.
Qed.

Lemma phase_run_app id a b p : phase_run id (a ++ b) p = phase_run id a p ≫= phase_run id b.
Proof.
  unfold phase_run. rewrite fold_left_app. destruct (fold_left (phase_step id) a (Some p)); [done|]. cbn.
  induction b as [|e b IH]; [done|]. cbn [fold_left]. replace (phase_step id None e) with (@None phase); [done|].
  destruct e; cbn; try done; by case_decide.
Qed.

(** An operation that only sends. *)
Record sends (sv : Server) (r : server_result) : Prop := {
  ss_quiet : forallb quiet_event r.1 = true;
  ss_books : same_books sv r.2
}.

Lemma sends_nothing sv : sends sv ([], sv).
Proof. by split. Qed.

Lemma sends_then sv r f : sends sv r -> (forall sv', same_books sv sv' -> sends sv' (f sv')) -> sends sv (andThen r f).
Proof.
  intros [H1 H2] Hf. unfold andThen. specialize (Hf r.2 H2). destruct (f r.2) as [e sv']. destruct Hf as [H3 H4].
  split; cbn [fst snd] in *; [by rewrite forallb_app, H1, H3|by etrans].
Qed.

Lemma sends_fold {A} (f : A -> Server -> server_result) l : (forall a sv, sends sv (f a sv)) ->
  forall sv r, sends sv r -> sends sv (fold_left (fun r a => andThen r (f a)) l r).
Proof.
  intros Hf. induction l as [|a l IH]; intros sv r Hr; [done|]. cbn [fold_left]. apply IH.
  by apply sends_then.
Qed.

Section Books.
Context `{BP : Bufferpack}.
Variable o : HostOption.

Lemma send_on_sends s m sv : sends sv (send_on s m sv).2.
Proof.
  unfold send_on. destruct (mget s (sv_sockets sv)) as [so|]; [|apply sends_nothing].
  destruct (send m (so_transport so)) as [ok t]. cbn [snd]. split; [by destruct ok|].
  apply (upd_transport_same s (fun _ => t)).
Qed.

Lemma end_on_sends s sv : sends sv (end_on s sv).
Proof. split; [done|]. apply (upd_transport_same s (end_ s)). Qed.

Lemma connection_send_sends id m now sv : sends sv (connection_send o id m now sv).
Proof.
  unfold connection_send. destruct (mget id (sv_connections sv)) as [c|]; [|apply sends_nothing].
  destruct (cn_closed c); [apply sends_nothing|apply send_on_sends].
Qed.

Lemma server_effect_sends now e sv : sends sv (server_effect o now e sv).
Proof.
  destruct e; cbn [server_effect]; try apply sends_nothing; try apply connection_send_sends.
  unfold server_broadcast. apply (sends_fold (fun id => server_sendToControl o id e now)); [|apply sends_nothing].
  intros. apply connection_send_sends.
Qed.

Lemma deliver_sends es now sv : sends sv (deliver o es now sv).
Proof.
  unfold deliver. apply (sends_fold (server_effect o now)); [|apply sends_nothing]. intros. apply server_effect_sends.
Qed.

Lemma refuse_sends s c m sv : sends sv (refuse s c m sv).
Proof. apply sends_then; [apply send_on_sends|]. intros. apply end_on_sends. Qed.
End Books.

(** ** Every operation keeps the books *)

Record op_fine (sv : Server) (r : server_result) : Prop := {
  of_wf : server_wf r.2;
  of_phase : forall id, phase_run id r.1 (phase_of id sv) = Some (phase_of id r.2);
  of_next : sv_nextControlId sv <= sv_nextControlId r.2 <= sv_nextControlId sv + 1
}.

Lemma same_books_phase sv sv' id : same_books sv sv' -> phase_of id sv' = phase_of id sv.
Proof. intros [H1 H2 _ _]. unfold phase_of. by rewrite H1, H2. Qed.

Lemma sends_fine sv r : server_wf sv -> sends sv r -> op_fine sv r.
Proof.
  intros Hw [Hq Hb]. split; [by eapply same_books_wf| |].
  - intros id. rewrite phase_quiet by done. by rewrite (same_books_phase _ _ _ Hb).
  - rewrite (sb_next _ _ Hb). lia.
Qed.

Lemma fine_after_sends sv r f : sends sv r -> op_fine r.2 (f r.2) -> op_fine sv (andThen r f).
Proof.
  intros [Hq Hb] [H1 H2 H3]. unfold andThen. destruct (f r.2) as [e sv'] eqn:E. cbn [fst snd] in *.
  split; cbn [fst snd]; [done| |rewrite <- (sb_next _ _ Hb); lia].
  intros id. rewrite phase_run_app, phase_quiet by done. cbn. by rewrite <- (same_books_phase _ _ _ Hb).
Qed.

(** Nobody listens to a socket that was in its handshake any more. *)
Lemma unlisten_wf s b sv : server_wf sv -> listens s sv = Some (LHandshake, b) ->
  let sv' := upd_socket s (fun so => so <| so_listener := LNone |> <| so_timer := false |>) sv in
  server_wf sv' /\ (forall id, phase_of id sv' = phase_of id sv) /\ sv_nextControlId sv' = sv_nextControlId sv /\
  listens s sv' = Some (LNone, false).
Proof.
  intros [W1 W2 W3 W4 W5] Hl sv'.
  destruct (upd_socket_books s (fun so => so <| so_listener := LNone |> <| so_timer := false |>) sv) as (B1 & B2 & B3).
  assert (forall s', listens s' sv' = if decide (s' = s) then Some (LNone, false) else listens s' sv) as Hs.
  { intros s'. unfold sv', upd_socket, listens in *. destruct (mget s (sv_sockets sv)) as [so|]; [|done].
    cbn [sv_sockets set_field eta eta_server]. rewrite mget_mset. by case_decide. }
  split; [|split; [|split; [done|rewrite Hs; by case_decide]]].
  - split; unfold sv' in *; rewrite ?B1, ?B2, ?B3; fold sv'.
    + done.
    + intros id c Hc. destruct (W2 id c Hc) as (H1 & H2 & H3). split; [done|]. split; [done|].
      rewrite Hs. case_decide; [congruence|done].
    + intros s' id b'. rewrite Hs. case_decide; [done|apply W3].
    + intros s'. rewrite Hs. case_decide; [|apply W4]. subst. intros _. apply W4. by rewrite Hl.
    + intros s' l. rewrite Hs. case_decide; [done|apply W5].
  - intros id. unfold phase_of, sv'. by rewrite B1, B2.
Qed.

Section Operations.
Context `{BP : Bufferpack}.
Variable o : HostOption.

(** Registration of a socket nobody listens to. *)
Lemma register_fine s sv report facade : server_wf sv -> listens s sv = Some (LNone, false) ->
  sv_nextControlId sv <= MAX_SAFE ->
  op_fine sv (let '(id, sv') := registerConnection s sv in ([HostConnected id report facade], sv')).
Proof.
  intros [W1 W2 W3 W4 W5] Hl Hn. unfold registerConnection.
  set (id := sv_nextControlId sv). set (sv1 := _ <| sv_connections ::= mset id (mkConnection s false) |>).
  set (f := fun so => so <| so_listener := LConnection id |>).
  destruct (upd_socket_books s f sv1) as (B1 & B2 & B3).
  assert (forall s', listens s' (upd_socket s f sv1) = if decide (s' = s) then Some (LConnection id, false) else listens s' sv) as Hs.
  { intros s'. rewrite (listens_set s f sv1 (fun _ => LConnection id)) by done. case_decide; [|done]. subst.
    unfold listens in Hl. change (sv_sockets sv1) with (sv_sockets sv).
    destruct (mget s (sv_sockets sv)) as [so|]; [|done]. cbn in *. by injection Hl as _ ->. }
  assert (forall i, i >= id -> mget i (sv_connections sv) = None) as Hfresh.
  { intros i Hi. destruct (mget i (sv_connections sv)) as [c|] eqn:E; [|done]. destruct (W2 _ _ E) as (_ & ? & _).
    unfold id in Hi. lia. }
  assert (sv_connections sv1 = mset id (mkConnection s false) (sv_connections sv)) as Hc1 by done.
  assert (sv_nextControlId sv1 = id + 1) as Hn1 by (cbn; by apply js_succ_safe).
  split; cbn [fst snd].
  - split.
    + rewrite B1, Hc1. by apply NoDup_mset.
    + intros i c. rewrite B1, B2, Hc1, Hn1, mget_mset. case_decide as Hi.
      * intros [= <-]. subst i. cbn. split; [done|]. split; [lia|]. rewrite Hs. by case_decide.
      * intros Hc. destruct (W2 _ _ Hc) as (H1 & H2 & H3). split; [done|]. unfold id in *. split; [lia|].
        rewrite Hs. case_decide; [congruence|done].
    + intros s' i b. rewrite Hs, B1, Hc1, mget_mset. case_decide.
      * intros [= <- <-]. rewrite decide_True by done. by eexists.
      * intros Hi. destruct (W3 _ _ _ Hi) as (c & Hc & Hcs). rewrite decide_False; [by exists c|].
        intros ->. rewrite Hfresh in Hc by lia. done.
    + intros s'. rewrite Hs, B3. change (sv_nextSocket sv1) with (sv_nextSocket sv). case_decide; [|apply W4].
      subst. intros _. apply W4. by rewrite Hl.
    + intros s' l. rewrite Hs. case_decide; [done|apply W5].
  - intros i. unfold phase_run. cbn [fold_left phase_step]. unfold phase_of, mhas.
    rewrite B1, B2, Hc1, Hn1, mget_mset. case_decide as Hi.
    + subst i. rewrite decide_True by done. rewrite Hfresh by lia. fold id. by rewrite Z.ltb_irrefl.
    + rewrite decide_False by done. fold id.
      destruct (mget i (sv_connections sv)); [done|]. destruct (Z.ltb_spec i id), (Z.ltb_spec i (id + 1)); done || lia.
  - rewrite B2, Hn1. unfold id. lia.
Qed.

Lemma handshake_message_fine s m inUse now sv b : server_wf sv -> listens s sv = Some (LHandshake, b) ->
  sv_nextControlId sv <= MAX_SAFE -> op_fine sv (handshake_message o s m inUse now sv).
Proof.
  intros Hw Hl Hn. unfold handshake_message. destruct (unlisten_wf s b sv Hw Hl) as (Hw' & Hp & Hnx & Hl').
  set (sv' := upd_socket s _ sv) in *.
  assert (forall r, op_fine sv' r -> op_fine sv r) as Hback.
  { intros r [H1 H2 H3]. split; [done| |by rewrite <- Hnx]. intros id. rewrite <- Hp. apply H2. }
  apply Hback. destruct (isMultiplexerHealthRequest _).
  { apply sends_fine; [done|]. apply sends_then; [apply send_on_sends|]. intros. apply end_on_sends. }
  destruct (isMultiplexerRegisterRequest _); [|apply sends_fine; [done|apply refuse_sends]].
  pose proof (send_on_sends s register_response_json sv') as Hsend.
  destruct (send_on s register_response_json sv') as [[] r]; cbn [snd] in Hsend; [|by apply sends_fine].
  pose proof (ss_books _ _ Hsend) as Hb. apply fine_after_sends; [done|]. apply register_fine.
  - by eapply same_books_wf.
  - by rewrite (sb_listens _ _ Hb).
  - rewrite (sb_next _ _ Hb). lia.
Qed.

Lemma handshake_timeout_fine s sv : server_wf sv -> op_fine sv (handshake_timeout s sv).
Proof.
  intros Hw. unfold handshake_timeout. destruct (mget s (sv_sockets sv)) as [so|] eqn:E.
  2:{ apply sends_fine; [done|apply sends_nothing]. }
  destruct (so_timer so) eqn:Et; [|apply sends_fine; [done|apply sends_nothing]].
  assert (listens s sv = Some (LHandshake, true)) as Hl.
  { assert (listens s sv = Some (so_listener so, true)) as Hl by (unfold listens; rewrite E; cbn; by rewrite Et).
    by rewrite (sw_timer _ Hw _ _ Hl) in Hl. }
  destruct (unlisten_wf s true sv Hw Hl) as (Hw' & Hp & Hnx & _).
  destruct (sends_fine _ _ Hw' (refuse_sends s "control-handshake-timeout"
    "Timed out waiting for the first control message" _)) as [H1 H2 H3].
  split; [done| |by rewrite <- Hnx]. intros id. rewrite <- Hp. apply H2.
Qed.

Lemma handleTransportMessage_fine id v now sv : server_wf sv -> op_fine sv (handleTransportMessage o id v now sv).
Proof.
  intros Hw. unfold handleTransportMessage. destruct (mget id (sv_connections sv)) as [c|] eqn:E.
  2:{ apply sends_fine; [done|apply sends_nothing]. }
  destruct (sw_open _ Hw _ _ E) as (-> & _). destruct (decode_request v) as [q|].
  - split; [done| |cbn; lia]. intros i. unfold phase_run. cbn [fst snd fold_left phase_step]. case_decide; [|done]. subst i.
    unfold phase_of, mhas. by rewrite E.
  - apply sends_fine; [done|]. apply connection_send_sends.
Qed.

Lemma handleSocket_fine sv : server_wf sv -> op_fine sv ([], (handleSocket sv).2).
Proof.
  intros Hw. pose proof Hw as [W1 W2 W3 W4 W5]. unfold handleSocket. cbn [snd].
  set (s := sv_nextSocket sv). set (sv' := _ <| sv_provisionalTransports ::= sadd s |>).
  assert (forall s', listens s' sv' = if decide (s' = s) then Some (LHandshake, true) else listens s' sv) as Hs.
  { intros s'. unfold listens, sv'. cbn [sv_sockets set_field eta eta_server]. rewrite mget_mset. by case_decide. }
  assert (listens s sv = None) as Hnone.
  { destruct (listens s sv) eqn:E; [|done]. assert (s < sv_nextSocket sv) by (apply W4; by rewrite E). unfold s in *. lia. }
  split; cbn [fst snd]; [|done|cbn; lia]. split.
  - done.
  - intros id c Hc. destruct (W2 _ _ Hc) as (H1 & H2 & H3). split; [done|]. split; [done|].
    rewrite Hs. case_decide; [congruence|done].
  - intros s' id b. rewrite Hs. case_decide; [done|apply W3].
  - intros s'. rewrite Hs. change (sv_nextSocket sv') with (s + 1). case_decide; [lia|].
    intros Hx. specialize (W4 _ Hx). unfold s. lia.
  - intros s' l. rewrite Hs. case_decide; [congruence|apply W5].
Qed.

(** The socket is forgotten, whoever listened. *)
Lemma listens_mdel s sv s' :
  listens s' (sv <| sv_sockets ::= mdel s |>) = if decide (s' = s) then None else listens s' sv.
Proof. unfold listens. cbn [sv_sockets set_field eta eta_server]. rewrite mget_mdel. by case_decide. Qed.

Lemma socket_closed_fine s sv : server_wf sv -> op_fine sv (socket_closed s sv).
Proof.
  intros Hw. pose proof Hw as [W1 W2 W3 W4 W5]. unfold socket_closed.
  destruct (mget s (sv_sockets sv)) as [so|] eqn:E; [|apply sends_fine; [done|apply sends_nothing]].
  assert (listens s sv = Some (so_listener so, so_timer so)) as Hl by (unfold listens; by rewrite E).
  set (sv0 := sv <| sv_provisionalTransports ::= sdel s |>).
  assert (forall l, so_listener so = l -> (forall id, l <> LConnection id) ->
    op_fine sv ([], sv0 <| sv_sockets ::= mdel s |>)) as Hplain.
  { intros l Hso Hne. rewrite Hso in Hl. split; cbn [fst snd]; [|done|cbn; lia].
    split; [done| | | |]; intros *; rewrite ?listens_mdel; change (listens ?x sv0) with (listens x sv).
    - intros Hc. destruct (W2 _ _ Hc) as (H1 & H2 & H3). split; [done|]. split; [done|].
      case_decide as Hs; [|done]. exfalso. apply (Hne id). congruence.
    - case_decide; [done|apply W3].
    - case_decide; [done|apply W4].
    - case_decide; [done|apply W5]. }
  destruct (so_listener so) as [|id|] eqn:Eso; [by apply (Hplain LHandshake)| |by apply (Hplain LNone)]. clear Hplain.
  destruct (W3 _ _ _ Hl) as (c & Hc & Hcs). destruct (W2 _ _ Hc) as (Hopen & Hid & _).
  change (sv_connections sv0) with (sv_connections sv). rewrite Hc.
  unfold connection_handleClose. rewrite Hopen. unfold unregisterConnection. cbn [fst snd].
  set (f := fun so => so <| so_listener := LNone |>). set (sv1 := sv0 <| sv_connections ::= _ |>).
  destruct (upd_socket_books (cn_socket c) f sv1) as (B1 & B2 & B3). set (sv2 := upd_socket (cn_socket c) f sv1) in *.
  set (sv3 := _ <| sv_sockets ::= mdel s |>).
  assert (forall i, mget i (sv_connections sv3) = if decide (i = id) then None else mget i (sv_connections sv)) as Hconn.
  { intros i. unfold sv3. cbn [sv_connections set_field eta eta_server]. rewrite mget_mdel, B1.
    case_decide as Hi; [done|]. unfold sv1. cbn [sv_connections set_field eta eta_server]. by rewrite mget_mset_ne. }
  assert (sv_nextControlId sv3 = sv_nextControlId sv) as Hn3 by (unfold sv3; cbn; by rewrite B2).
  assert (forall s', listens s' sv3 = if decide (s' = s) then None else listens s' sv) as Hs3.
  { intros s'. unfold sv3. rewrite listens_mdel. case_decide as Hs; [done|].
    change (listens s' (sv2 <| sv_connections ::= mdel id |>)) with (listens s' sv2). unfold sv2.
    rewrite (listens_set _ f sv1 (fun _ => LNone)) by done. rewrite decide_False by congruence. done. }
  split; cbn [fst snd].
  - split.
    + unfold sv3. cbn [sv_connections set_field eta eta_server]. rewrite B1. apply NoDup_mdel. unfold sv1. by apply NoDup_mset.
    + intros i c'. rewrite Hconn. case_decide; [done|]. intros Hc'. destruct (W2 _ _ Hc') as (H1 & H2 & H3).
      split; [done|]. split; [by rewrite Hn3|]. rewrite Hs3. case_decide; [congruence|done].
    + intros s' i b. rewrite Hs3. case_decide; [done|]. intros Hi. destruct (W3 _ _ _ Hi) as (c' & Hc' & Hcs').
      exists c'. split; [|done]. rewrite Hconn. case_decide; [|done]. congruence.
    + intros s'. rewrite Hs3. case_decide; [done|]. intros Hx. assert (sv_nextSocket sv3 = sv_nextSocket sv) as -> by exact B3.
      by apply W4.
    + intros s' l. rewrite Hs3. case_decide; [done|apply W5].
  - intros i. unfold phase_run. cbn [fold_left phase_step]. unfold phase_of, mhas. rewrite Hconn, Hn3.
    destruct (decide (id = i)) as [->|Hne].
    + rewrite Hc. rewrite decide_True by done. by rewrite (proj2 (Z.ltb_lt _ _) Hid).
    + rewrite decide_False by congruence. done.
  - rewrite Hn3. lia.
Qed.

(** Closing the connections one after the other. *)
Lemma close_all l : forall es sv, sv_connections sv = [] -> Forall (fun q => cn_closed q.2 = false) l ->
  let '(es', sv') := fold_left (fun r q => andThen r (connection_close q.1 q.2)) l (es, sv) in
  es' = es ++ List.map HostDisconnected l.*1 /\ sv_connections sv' = [] /\
  sv_nextControlId sv' = sv_nextControlId sv /\ sv_nextSocket sv' = sv_nextSocket sv /\
  forall s, (Exists (fun q => cn_socket q.2 = s) l -> forall id b, listens s sv' <> Some (LConnection id, b)) /\
    (listens s sv' = listens s sv \/
     (Exists (fun q => cn_socket q.2 = s) l /\ exists b, listens s sv' = Some (LNone, b) /\ (snd <$> listens s sv) = Some b)).
Proof.
  induction l as [|[id c] l IH]; intros es sv Hc Hl; cbn [fold_left].
  { repeat split; [by rewrite app_nil_r|done|by intros ?%Exists_nil|by left]. }
  pose proof (Forall_inv Hl) as Ho. apply Forall_inv_tail in Hl. cbn [fst snd] in *.
  unfold andThen at 2. cbn [fst snd]. unfold connection_close, connection_handleClose. rewrite Ho.
  unfold unregisterConnection, andThen at 2, end_on. cbn [fst snd].
  set (f := fun so => so <| so_listener := LNone |>). set (sv1 := sv <| sv_connections ::= _ |>).
  set (sv2 := upd_socket (cn_socket c) f sv1). set (sv3 := sv2 <| sv_connections ::= mdel id |>).
  set (g := fun so => so <| so_transport ::= end_ (cn_socket c) |>). set (sv4 := upd_socket (cn_socket c) g sv3).
  destruct (upd_socket_books (cn_socket c) f sv1) as (B1 & B2 & B3).
  destruct (upd_socket_books (cn_socket c) g sv3) as (D1 & D2 & D3).
  assert (sv_connections sv4 = []) as Hc4.
  { unfold sv4. rewrite D1. unfold sv3. cbn [sv_connections set_field eta eta_server]. unfold sv2. rewrite B1.
    unfold sv1. cbn [sv_connections set_field eta eta_server]. rewrite Hc. unfold mdel. cbn. by rewrite decide_False by tauto. }
  assert (forall s, listens s sv4 = if decide (s = cn_socket c) then (fun q => (LNone, q.2)) <$> listens s sv else listens s sv) as Hs4.
  { intros s. unfold sv4. rewrite (listens_upd _ g) by done. change (listens s sv3) with (listens s sv2). unfold sv2.
    rewrite (listens_set _ f sv1 (fun _ => LNone)) by done. case_decide; [|done]. subst. unfold listens.
    change (sv_sockets sv1) with (sv_sockets sv). by destruct (mget _ _). }
  specialize (IH (es ++ [HostDisconnected id] ++ []) sv4 Hc4 Hl).
  destruct (fold_left _ l _) as [es' sv']. destruct IH as (-> & H1 & H2 & H3 & H4).
  split; [cbn [app List.map fmap list_fmap fst]; rewrite <- !app_assoc; done|]. split; [done|].
  split; [rewrite H2; unfold sv4; rewrite D2; exact B2|]. split; [rewrite H3; unfold sv4; rewrite D3; exact B3|].
  intros s. destruct (H4 s) as [Hgone Hkeep]. rewrite Hs4 in Hkeep. split.
  - intros Hex id' b. apply Exists_cons in Hex as [<-|Hex]; [|by apply Hgone]. cbn [snd] in *.
    rewrite decide_True in Hkeep by done. destruct Hkeep as [->|(_ & b' & -> & _)]; [|done].
    by destruct (listens (cn_socket c) sv).
  - case_decide as Hs; [|destruct Hkeep as [?|[? ?]]; [by left|right; split; [by right|done]]].
    assert (Exists (fun q => cn_socket q.2 = s) ((id, c) :: l)) as Hex by (by left).
    destruct (listens s sv) as [[l0 b0]|]; cbn in Hkeep |- *; naive_solver.
Qed.

Lemma phase_disconnected id ids p : NoDup ids -> (id ∈ ids -> p = Active) ->
  phase_run id (List.map HostDisconnected ids) p = Some (if decide (id ∈ ids) then Gone else p).
Proof.
  unfold phase_run. revert p. induction ids as [|i ids IH]; intros p Hn Hp; [done|].
  apply list.NoDup_cons in Hn as [Hi Hn]. cbn [List.map fold_left phase_step]. destruct (decide (i = id)) as [->|Hne].
  - rewrite (Hp ltac:(by left)). rewrite IH by done. rewrite decide_False by done. rewrite decide_True by (by left). done.
  - rewrite IH; [|done|intros; apply Hp; by right].
    destruct (decide (id ∈ ids)), (decide (id ∈ i :: ids)) as [Hx|Hx]; try done.
    + exfalso. apply Hx. by right.
    + apply elem_of_cons in Hx as [->|]; done.
Qed.

Lemma server_stop_fine sv : server_wf sv -> op_fine sv (server_stop sv) /\ sv_connections (server_stop sv).2 = [].
Proof.
  intros Hw. pose proof Hw as [W1 W2 W3 W4 W5]. unfold server_stop.
  assert (sends (sv <| sv_server := false |>)
    (fold_left (fun r s => andThen r (end_on s)) (sv_provisionalTransports sv) ([], sv <| sv_server := false |>))) as Hends.
  { apply (sends_fold end_on); [intros; apply end_on_sends|apply sends_nothing]. }
  destruct (fold_left _ (sv_provisionalTransports sv) _) as [es1 sv1]. destruct Hends as [Hq [B1 B2 B3 B0]].
  assert (forall s, listens s sv1 = listens s sv) as B4 by exact B0.
  cbn [fst snd] in *. set (sv2 := sv1 <| sv_provisionalTransports := [] |> <| sv_connections := [] |>).
  pose proof (close_all (sv_connections sv) es1 sv2 eq_refl) as Hall.
  assert (Forall (fun q => cn_closed q.2 = false) (sv_connections sv)) as Hopen.
  { apply list.Forall_forall. intros [id c] Hin. by destruct (W2 id c (In_mget _ _ _ W1 Hin)). }
  specialize (Hall Hopen). destruct (fold_left _ (sv_connections sv) _) as [es' sv'].
  destruct Hall as (-> & H1 & H2 & H3 & H4). cbn [fst snd]. split; [|done].
  assert (forall s id b, listens s sv' <> Some (LConnection id, b)) as Hnone.
  { intros s id b Hs. destruct (H4 s) as [Hg [Hk|(_ & b' & Hk & _)]]; [|congruence].
    rewrite Hs in Hk. symmetry in Hk. change (listens s sv2) with (listens s sv1) in Hk. rewrite B4 in Hk.
    destruct (W3 _ _ _ Hk) as (c & Hc & Hcs). apply (Hg (proj2 (list.Exists_exists _ _) (ex_intro _ (id, c) (conj (mget_In _ _ _ Hc) Hcs))) id b Hs). }
  split; cbn [fst snd].
  - split.
    + rewrite H1. apply NoDup_nil_2.
    + intros id c. by rewrite H1.
    + intros s id b Hs. by apply Hnone in Hs.
    + intros s Hs. rewrite H3. change (sv_nextSocket sv2) with (sv_nextSocket sv1). rewrite B3. apply W4.
      destruct (H4 s) as [_ [Hk|(_ & b & Hk & Hb)]].
      * change (listens s sv2) with (listens s sv1) in Hk. rewrite B4 in Hk. rewrite Hk in Hs. exact Hs.
      * change (listens s sv2) with (listens s sv1) in Hb. rewrite B4 in Hb. intros Hx. by rewrite Hx in Hb.
    + intros s l Hs. destruct (H4 s) as [_ [Hk|(Hex & b & Hk & Hb)]].
      * change (listens s sv2) with (listens s sv1) in Hk. rewrite B4 in Hk. apply (W5 s). congruence.
      * apply list.Exists_exists in Hex as ([id c] & Hin & Hcs). apply (In_mget _ _ _ W1) in Hin.
        destruct (W2 _ _ Hin) as (_ & _ & Hl). cbn [snd] in Hcs. subst s.
        change (listens (cn_socket c) sv2) with (listens (cn_socket c) sv1) in Hb.
        rewrite B4 in Hb.
        rewrite Hl in Hb. cbn in Hb. congruence.
  - intros id. rewrite phase_run_app, phase_quiet by done. cbn [mbind option_bind].
    unfold phase_of, mhas. rewrite H1, H2. change (sv_nextControlId sv2) with (sv_nextControlId sv1). rewrite B2.
    change (sv_nextControlId (sv <| sv_server := false |>)) with (sv_nextControlId sv). cbn [mget].
    rewrite phase_disconnected; [|exact W1|intros Hx; apply mkeys_mget in Hx as [c ->]; done].
    destruct (mget id (sv_connections sv)) as [c|] eqn:E.
    + rewrite decide_True by (apply mkeys_mget; by eexists). destruct (W2 _ _ E) as (_ & Hid & _).
      by rewrite (proj2 (Z.ltb_lt _ _) Hid).
    + rewrite decide_False by (by apply mget_None_keys). done.
  - rewrite H2. change (sv_nextControlId sv2) with (sv_nextControlId sv1). rewrite B2. cbn. lia.
Qed.
End Operations.

(** ** Runs of the server *)

Inductive server_op :=
  | SvAccept
  | SvReceive (s : Z) (m : json) (inUse : bool) (now : Z)
  | SvTimeout (s : Z)
  | SvClosed (s : Z)
  | SvDeliver (es : list effect) (now : Z)
  | SvStop.

Definition server_step `{Bufferpack} (o : HostOption) (op : server_op) (sv : Server) : server_result :=
  match op with
  | SvAccept => ([], (handleSocket sv).2)
  | SvReceive s m inUse now => receive o s m inUse now sv
  | SvTimeout s => handshake_timeout s sv
  | SvClosed s => socket_closed s sv
  | SvDeliver es now => deliver o es now sv
  | SvStop => server_stop sv
  end.

Definition server_run `{Bufferpack} (o : HostOption) (ops : list server_op) (sv : Server) : server_result :=
  fold_left (fun r op => andThen r (server_step o op)) ops ([], sv).

Lemma new_server_wf : server_wf new_server.
Proof. split; cbn; try done. apply NoDup_nil_2. Qed.

Lemma server_step_fine `{Bufferpack} o op sv : server_wf sv -> sv_nextControlId sv <= MAX_SAFE ->
  op_fine sv (server_step o op sv).
Proof.
  intros Hw Hn. destruct op as [|s m inUse now|s|s|es now|]; cbn [server_step].
  - by apply handleSocket_fine.
  - unfold receive. destruct (mget s (sv_sockets sv)) as [so|] eqn:E; cbn [fmap option_fmap option_map].
    2:{ apply sends_fine; [done|apply sends_nothing]. }
    destruct (so_listener so) eqn:El; [|by apply handleTransportMessage_fine|apply sends_fine; [done|apply sends_nothing]].
    eapply handshake_message_fine; [done| |done]. unfold listens. rewrite E. cbn. by rewrite El.
  - by apply handshake_timeout_fine.
  - by apply socket_closed_fine.
  - apply sends_fine; [done|apply deliver_sends].
  - by apply server_stop_fine.
Qed.

Lemma server_run_fine `{Bufferpack} o ops : forall es sv, server_wf sv ->
  sv_nextControlId sv + Z.of_nat (List.length ops) <= MAX_SAFE + 1 ->
  let '(es', sv') := fold_left (fun r op => andThen r (server_step o op)) ops (es, sv) in
  exists new, es' = es ++ new /\ server_wf sv' /\ forall id, phase_run id new (phase_of id sv) = Some (phase_of id sv').
Proof.
  induction ops as [|op ops IH]; intros es sv Hw Hn; cbn [fold_left].
  { exists []. by rewrite app_nil_r. }
  cbn [List.length] in Hn. destruct (server_step_fine o op sv Hw ltac:(lia)) as [H1 H2 H3].
  unfold andThen at 2. cbn [fst snd]. destruct (server_step o op sv) as [e1 sv1]. cbn [fst snd] in *.
  specialize (IH (es ++ e1) sv1 H1 ltac:(lia)). destruct (fold_left _ ops _) as [es' sv'].
  destruct IH as (new & -> & Hw' & Hp). exists (e1 ++ new). split; [by rewrite app_assoc|]. split; [done|].
  intros id. rewrite phase_run_app, H2. cbn. apply Hp.
Qed.

(** C5: The host sees each control connection come, work and go.  Whatever
    sockets do (connect, send valid and invalid first messages, time out,
    close at any point) and however the host answers and stops, the calls the
    host gets for a control id are: one [handleControlConnected], then RPCs,
    then at most one [handleControlDisconnected]; no id is used twice, and the
    connections the server still has are exactly those connected and not
    disconnected. *)
Theorem control_calls_bracketed `{Bufferpack} o ops id :
  1 <= id -> Z.of_nat (List.length ops) <= MAX_SAFE ->
  let '(es, sv) := server_run o ops new_server in
  phase_run id es Fresh = Some (phase_of id sv) /\
  (phase_of id sv = Active <-> is_Some (mget id (sv_connections sv))).
Proof.
  intros Hid Hl. unfold server_run.
  pose proof (server_run_fine o ops [] new_server new_server_wf ltac:(cbn [sv_nextControlId new_server]; lia)) as Hrun.
  destruct (fold_left _ ops _) as [es sv]. destruct Hrun as (new & -> & _ & Hp). split.
  - specialize (Hp id). unfold phase_of at 1 in Hp. cbn [mhas mget new_server sv_connections sv_nextControlId] in Hp.
    destruct (Z.ltb_spec id 1); [lia|]. exact Hp.
  - unfold phase_of. rewrite <- mhas_true. destruct (mhas id _); [done|]. by destruct (id <? _).
Qed.

(** ** Delivery *)

(** The transport of a socket accepts a message. *)
Definition accepts (m : json) (so : Socket) : bool :=
  writable (so_transport so) && (zlen (utf8_encode (stringify m)) <=? t_maxFrameSize (so_transport so)).

Lemma send_on_accepted `{Bufferpack} s m sv so : mget s (sv_sockets sv) = Some so -> accepts m so = true ->
  let '(ok, (es, sv')) := send_on s m sv in
  ok = true /\ es = [Sent s m] /\ sv_connections sv' = sv_connections sv /\
  (forall s', s' <> s -> mget s' (sv_sockets sv') = mget s' (sv_sockets sv)) /\
  (exists so', mget s (sv_sockets sv') = Some so' /\ t_written (so_transport so') = t_written (so_transport so) ++ frame m /\
     forall m', accepts m' so' = accepts m' so).
Proof.
  intros Hs [Hw Hl]%andb_true_iff. unfold send_on. rewrite Hs. unfold send.
  destruct (Z.ltb_spec (t_maxFrameSize (so_transport so)) (zlen (utf8_encode (stringify m)))); [lia|]. rewrite Hw.
  cbn [negb]. unfold upd_socket. rewrite Hs. cbn [sv_sockets sv_connections set_field eta eta_server].
  repeat split; [intros; by rewrite mget_mset_ne|]. rewrite mget_mset_eq. eexists. by repeat split.
Qed.

(** The frames an effect of the host should cause: for one connection, if it is
    there, or for all. *)
Definition addressed (o : HostOption) (now : Z) (e : effect) (sv : Server) : list server_event :=
  let d := server_createDebugInfo o now in
  let to id m := match mget id (sv_connections sv) with Some c => [Sent (cn_socket c) m] | None => [] end in
  match e with
  | ToControl id ev => to id (event_json d ev)
  | Broadcast ev => List.map (fun q => Sent (cn_socket q.2) (event_json d ev)) (sv_connections sv)
  | Resolve cb v => to cb.1 (response_json d cb.2 (inl v))
  | Reject cb e => to cb.1 (response_json d cb.2 (inr (createRpcError e)))
  | _ => []
  end.

Definition effect_json (o : HostOption) (now : Z) (e : effect) : json :=
  let d := server_createDebugInfo o now in
  match e with
  | ToControl _ ev | Broadcast ev => event_json d ev
  | Resolve cb v => response_json d cb.2 (inl v)
  | Reject cb e => response_json d cb.2 (inr (createRpcError e))
  | _ => JNull
  end.

(** Every open connection can take the message. *)
Definition all_accept (m : json) (sv : Server) : Prop :=
  forall id c, mget id (sv_connections sv) = Some c ->
  cn_closed c = false /\ exists so, mget (cn_socket c) (sv_sockets sv) = Some so /\ accepts m so = true.

Lemma connection_send_addressed `{Bufferpack} o id m now sv : all_accept (m (server_createDebugInfo o now)) sv ->
  let '(es, sv') := connection_send o id m now sv in
  es = match mget id (sv_connections sv) with
       | Some c => [Sent (cn_socket c) (m (server_createDebugInfo o now))]
       | None => []
       end /\ sv_connections sv' = sv_connections sv /\ all_accept (m (server_createDebugInfo o now)) sv'.
Proof.
  intros Ha. unfold connection_send. destruct (mget id (sv_connections sv)) as [c|] eqn:E; [|done].
  destruct (Ha _ _ E) as (-> & so & Hs & Hacc).
  pose proof (send_on_accepted (cn_socket c) _ sv so Hs Hacc) as Hsend.
  destruct (send_on (cn_socket c) _ sv) as [ok [es sv']]. destruct Hsend as (_ & -> & Hc & Hother & so' & Hs' & _ & Hacc').
  cbn [snd]. split; [done|]. split; [done|]. intros i c'. rewrite Hc. intros Hi.
  destruct (Ha _ _ Hi) as (Ho & so0 & Hso & Haso). split; [done|].
  destruct (decide (cn_socket c' = cn_socket c)) as [Heq|Hne].
  - rewrite Heq in *. exists so'. split; [done|]. by rewrite Hacc'.
  - exists so0. by rewrite Hother.
Qed.

Lemma broadcast_addressed `{Bufferpack} o ev now ids : forall es sv,
  all_accept (event_json (server_createDebugInfo o now) ev) sv ->
  let '(es', sv') := fold_left (fun r id => andThen r (server_sendToControl o id ev now)) ids (es, sv) in
  es' = es ++ flat_map (fun id => match mget id (sv_connections sv) with
    | Some c => [Sent (cn_socket c) (event_json (server_createDebugInfo o now) ev)] | None => [] end) ids.
Proof.
  induction ids as [|id ids IH]; intros es sv Ha; cbn [fold_left flat_map]; [by rewrite app_nil_r|].
  unfold andThen at 2, server_sendToControl at 2. cbn [fst snd].
  pose proof (connection_send_addressed o id (fun d => event_json d ev) now sv Ha) as Hs.
  destruct (connection_send o id _ now sv) as [e1 sv1]. destruct Hs as (-> & Hc & Ha1).
  specialize (IH (es ++ match mget id (sv_connections sv) with
    | Some c => [Sent (cn_socket c) (event_json (server_createDebugInfo o now) ev)] | None => [] end) sv1 Ha1).
  destruct (fold_left _ ids _) as [es' sv']. rewrite IH, Hc. by rewrite app_assoc.
Qed.

(** What the host sends reaches the connections it names and no other.
    While the transports accept frames, an event for one control and the answer
    to an RPC are written once, to the socket of that connection if it is still
    there and to none otherwise, and a broadcast is written once to the socket
    of every connection, in the order they registered. *)
Theorem effects_delivered `{Bufferpack} o now e sv :
  server_wf sv -> all_accept (effect_json o now e) sv ->
  (server_effect o now e sv).1 = addressed o now e sv.
Proof.
  intros Hw Ha. destruct e as [id ev|ev|[id r] v|[id r] e| | | | | | |]; cbn [server_effect addressed effect_json fst snd] in *; try done.
  - pose proof (connection_send_addressed o id (fun d => event_json d ev) now sv Ha) as Hs.
    unfold server_sendToControl. destruct (connection_send o id _ now sv). by destruct Hs.
  - unfold server_broadcast. pose proof (broadcast_addressed o ev now (mkeys (sv_connections sv)) [] sv Ha) as Hb.
    destruct (fold_left _ _ _) as [es sv']. cbn [fst]. rewrite Hb. cbn [app].
    destruct Hw as [W1 _ _ _ _]. unfold mkeys.
    assert (forall l, (forall q, q ∈ l -> mget q.1 (sv_connections sv) = Some q.2) ->
      flat_map (fun id => match mget id (sv_connections sv) with
        | Some c => [Sent (cn_socket c) (event_json (server_createDebugInfo o now) ev)] | None => [] end) l.*1 =
      List.map (fun q => Sent (cn_socket q.2) (event_json (server_createDebugInfo o now) ev)) l) as Hmap.
    { induction l as [|[i c] l IH]; intros Hl; [done|]. cbn [fmap list_fmap fst flat_map List.map snd].
      pose proof (Hl (i, c) ltac:(by left)) as Hic. cbn [fst snd] in Hic. rewrite Hic. cbn [app]. f_equal. apply IH. intros q Hq. apply Hl. by right. }
    apply Hmap. intros [i c] Hq. by apply In_mget.
  - pose proof (connection_send_addressed o id (fun d => response_json d r (inl v)) now sv Ha) as Hs.
    unfold sendResponse. destruct (connection_send o id _ now sv). by destruct Hs.
  - pose proof (connection_send_addressed o id (fun d => response_json d r (inr (createRpcError e))) now sv Ha) as Hs.
    unfold sendError. destruct (connection_send o id _ now sv). by destruct Hs.
Qed.

(** A socket's first message is answered once and decides what the socket
    is.  A health request gets the protocol version and whether the daemon is in
    use; a registration gets its confirmation and becomes the connection with
    the next control id, of which the host is told with the options of the
    request; anything else gets a handshake error; and except after a
    registration nothing further is read from the socket. *)
Theorem handshake_answered `{Bufferpack} o s m inUse now sv so :
  mget s (sv_sockets sv) = Some so -> so_listener so = LHandshake ->
  (forall m', zlen (utf8_encode (stringify m')) <= t_maxFrameSize (so_transport so) -> accepts m' so = true) ->
  let health := health_response_json (ho_protocolVersion o) inUse (server_createDebugInfo o now) in
  zlen (utf8_encode (stringify health)) <= t_maxFrameSize (so_transport so) ->
  DEFAULT_MULTIPLEXER_CONTROL_MAX_FRAME_SIZE <= t_maxFrameSize (so_transport so) ->
  let '(es, sv') := receive o s m inUse now sv in
  if isMultiplexerHealthRequest (Some m) then
    es = [Sent s health] /\ (forall m' u t, receive o s m' u t sv' = ([], sv'))
  else if isMultiplexerRegisterRequest (Some m) then
    let id := sv_nextControlId sv in
    es = [Sent s register_response_json;
          HostConnected id (isTrue ((Some m)@."reportServiceEnabled"))
            ((Some m)@."connectorFacadeOption")] /\
    mget id (sv_connections sv') = Some (mkConnection s false) /\
    (so_listener <$> mget s (sv_sockets sv')) = Some (LConnection id)
  else
    es = [Sent s (handshake_error_json (error_with "invalid-control-handshake"
            "First control message must be a valid health or register request"))] /\
    (forall m' u t, receive o s m' u t sv' = ([], sv')).
Proof.
  intros Hs Hl Hacc health Hh Hmax. unfold receive at 1. rewrite Hs. cbn [fmap option_fmap option_map]. rewrite Hl.
  unfold handshake_message. set (f := fun so => so <| so_listener := LNone |> <| so_timer := false |>).
  set (sv0 := upd_socket s f sv).
  assert (mget s (sv_sockets sv0) = Some (f so) /\ sv_nextControlId sv0 = sv_nextControlId sv) as [Hs0 Hn0].
  { unfold sv0, upd_socket. rewrite Hs. split; [apply mget_mset_eq|done]. }
  assert (forall msg, zlen (utf8_encode (stringify msg)) <= t_maxFrameSize (so_transport so) ->
    let '(es, sv') := andThen (send_on s msg sv0).2 (end_on s) in
    es = [Sent s msg] /\ forall m' u t, receive o s m' u t sv' = ([], sv')) as Hend.
  { intros msg Hmsg. pose proof (send_on_accepted s msg sv0 (f so) Hs0 (Hacc _ Hmsg)) as Hsend.
    pose proof (send_on_sends s msg sv0) as [_ Hb].
    destruct (send_on s msg sv0) as [ok [es sv1]]. destruct Hsend as (_ & -> & _). cbn [snd] in *.
    pose proof (end_on_sends s sv1) as [_ Hb2]. unfold andThen, end_on in *. cbn [fst snd] in *.
    set (sv2 := upd_socket s _ sv1) in *. split; [done|]. intros m' u t. unfold receive.
    assert (listens s sv2 = Some (LNone, false)) as Hls.
    { rewrite (sb_listens _ _ Hb2), (sb_listens _ _ Hb). unfold listens. by rewrite Hs0. }
    unfold listens in Hls. destruct (mget s (sv_sockets sv2)) as [so2|]; [|done].
    cbn [fmap option_fmap option_map] in Hls |- *. injection Hls as Hls _. by rewrite Hls. }
  destruct (isMultiplexerHealthRequest (Some m)); [exact (Hend _ Hh)|].
  destruct (isMultiplexerRegisterRequest (Some m)) eqn:Er.
  2:{ unfold refuse. apply Hend. etrans; [|exact Hmax]. vm_compute. discriminate. }
  assert (zlen (utf8_encode (stringify register_response_json)) <= t_maxFrameSize (so_transport so)) as Hr.
  { etrans; [|exact Hmax]. vm_compute. discriminate. }
  pose proof (send_on_accepted s register_response_json sv0 (f so) Hs0 (Hacc _ Hr)) as Hsend.
  pose proof (send_on_sends s register_response_json sv0) as [_ Hb].
  destruct (send_on s register_response_json sv0) as [ok [es sv1]].
  destruct Hsend as (-> & -> & _ & _ & so1 & Hs1 & _). cbn [snd] in Hb. unfold andThen. cbn [fst snd].
  unfold registerConnection. rewrite (sb_next _ _ Hb), Hn0. set (id := sv_nextControlId sv). cbn [app].
  split; [|split].
  - done.
  - unfold upd_socket. cbn [sv_sockets set_field eta eta_server]. rewrite Hs1. cbn. apply mget_mset_eq.
  - unfold upd_socket. cbn [sv_sockets set_field eta eta_server]. rewrite Hs1. cbn [sv_sockets set_field eta eta_server].
    by rewrite mget_mset_eq.
Qed.

(** ** A short run: a probe, a connector, a stranger. *)

Definition server_option : HostOption := mkHostOption 2 (NInt 30000) None None None None 4242 false.

Definition register_request : json := register_request_json true None None.

Definition server_ops : list server_op :=
  [SvAccept; SvAccept; SvAccept;
   SvReceive 0 (JObj [(js "kind", jstring "health")]) false 1; SvReceive 1 register_request false 2;
   SvReceive 2 (JNum (NInt 5)) true 3; SvReceive 1 (JObj []) true 4; SvClosed 0; SvTimeout 2; SvClosed 1].

Lemma control_calls_bracketed_witness :
  phase_run 1 (@server_run bufferpack_be server_option server_ops new_server).1 Fresh = Some Gone /\
  phase_run 2 (@server_run bufferpack_be server_option server_ops new_server).1 Fresh = Some Fresh.
Proof.
  split.
  - pose proof (@control_calls_bracketed bufferpack_be server_option server_ops 1 ltac:(lia) ltac:(vm_compute; discriminate)) as H.
    destruct (server_run _ _ _) as [es sv] eqn:E. destruct H as [H _]. cbn [fst]. rewrite H.
    vm_compute in E. injection E as <- <-. reflexivity.
  - pose proof (@control_calls_bracketed bufferpack_be server_option server_ops 2 ltac:(lia) ltac:(vm_compute; discriminate)) as H.
    destruct (server_run _ _ _) as [es sv] eqn:E. destruct H as [H _]. cbn [fst]. rewrite H.
    vm_compute in E. injection E as <- <-. reflexivity.
Defined.

(** The server with one connection. *)
Definition one_connection : Server :=
  (@server_run bufferpack_be server_option [SvAccept; SvReceive 0 register_request false 2] new_server).2.

Lemma one_connection_wf : server_wf one_connection.
Proof.
  pose proof (@server_run_fine bufferpack_be server_option [SvAccept; SvReceive 0 register_request false 2] [] new_server
    new_server_wf ltac:(vm_compute; discriminate)) as H. unfold one_connection, server_run.
  destruct (fold_left _ _ _) as [es sv]. by destruct H as (new & _ & H & _).
Qed.

(** One connection whose socket is open takes every message of moderate size. *)
Lemma one_connection_accepts m : zlen (utf8_encode (stringify m)) <= 16777216 -> all_accept m one_connection.
Proof.
  assert (exists so, mget 0 (sv_sockets one_connection) = Some so /\ writable (so_transport so) = true /\
    t_maxFrameSize (so_transport so) = 16777216) as (so & H1 & H2 & H3)
    by (eexists; split; [vm_compute; reflexivity|split; reflexivity]).
  assert (sv_connections one_connection = [(1, mkConnection 0 false)]) as Hc by (vm_compute; reflexivity).
  intros Hm id c. rewrite Hc. cbn [mget]. case_decide; [|done]. intros [= <-]. split; [done|].
  exists so. split; [exact H1|]. unfold accepts. rewrite H2, H3. by apply Z.leb_le.
Qed.

Lemma effects_delivered_example :
  (@server_effect bufferpack_be server_option 5 (Resolve (1, NInt 9) (JObj [])) one_connection).1 =
    [Sent 0 (response_json None (NInt 9) (inl (JObj [])))] /\
  (@server_effect bufferpack_be server_option 5 (Resolve (2, NInt 9) (JObj [])) one_connection).1 = [].
Proof.
  split.
  - rewrite (@effects_delivered bufferpack_be server_option 5 _ one_connection one_connection_wf); [reflexivity|].
    apply one_connection_accepts. vm_compute. discriminate.
  - rewrite (@effects_delivered bufferpack_be server_option 5 _ one_connection one_connection_wf); [reflexivity|].
    apply one_connection_accepts. vm_compute. discriminate.
Defined.

Lemma handshake_answered_example :
  let sv := (handleSocket new_server).2 in
  let '(es, sv') := @receive bufferpack_be server_option 0 register_request false 2 sv in
  es = [Sent 0 register_response_json; HostConnected 1 true None] /\
  mget 1 (sv_connections sv') = Some (mkConnection 0 false).
Proof.
  intros sv.
  pose proof (@handshake_answered bufferpack_be server_option 0 register_request false 2 sv
    (mkSocket (new_transport None None) LHandshake true) eq_refl eq_refl) as H.
  destruct (receive _ _ _ _ _ _) as [es sv'] eqn:E.
  change (isMultiplexerHealthRequest (Some register_request)) with false in H.
  change (isMultiplexerRegisterRequest (Some register_request)) with true in H. cbv iota in H.
  destruct H as (H1 & H2 & _).
  - intros m' Hm. apply andb_true_iff. split; [reflexivity|]. by apply Z.leb_le.
  - vm_compute. discriminate.
  - vm_compute. discriminate.
  - split; [exact H1|exact H2].
Defined.
