(* ===== verification/Client.v ===== *)
(** * The connector's side of the control channel

    Models [multiplexer/client/MultiplexerDaemonClient.ts], which registers
    with the daemon, sends RPCs and settles their promises, and the version
    arbitration of [multiplexer/client/MultiplexerDiscovery.ts].  The daemon
    manager and the sockets are the environment: what they answer is an
    argument of the operation. *)

From Stdlib Require Import SpecFloat String.
From S2P Require Import JsValue Json Protocol WebSocket.

Open Scope Z_scope.

Definition DEFAULT_MULTIPLEXER_RPC_TIMEOUT : Z := 5000.
Definition MULTIPLEXER_CONNECT_MAX_ATTEMPTS : nat := 3.
Definition RPC_TIMEOUT_BUFFER_MS : Z := 1000.

(** ** Number arithmetic *)

Definition num_add (a b : num) : num :=
  match a, b with
  | NInt x, NInt y => if Z.abs (x + y) <=? MAX_SAFE then NInt (x + y)
                      else num_of_sf (SFadd 53 1024 (num_to_sf a) (num_to_sf b))
  | _, _ => num_of_sf (SFadd 53 1024 (num_to_sf a) (num_to_sf b))
  end.

(** ** State *)

(** An [Error]; [name] is set to the code of an error of the daemon. *)
Record client_error := mkClientError { ce_name : option jstr; ce_message : jstr }.

Definition plain_error (m : jstr) : client_error := mkClientError None m.

(** [createRpcError]. *)
Definition client_createRpcError (e : jsval) : client_error :=
  match e@."code", e@."message" with
  | Some (JStr code), Some (JStr m) => mkClientError (Some code) m
  | _, _ => plain_error []
  end.

Record PendingRpc := mkPendingRpc { rp_method : ControlRpcMethod }.

Inductive ClientStatus := cdisconnected | cconnecting | cconnected.
#[export] Instance client_status_eq_dec : EqDecision ClientStatus.
Proof. solve_decision. Defined.

Record DaemonClient := mkDaemonClient {
  dc_rpcTimeout : num;
  dc_reportServiceEnabled : bool;
  dc_connectorFacadeOption : json;
  dc_debugInfo : jsval;
  dc_pid : Z;
  dc_pendingRpc : list (Z * PendingRpc);
  dc_timers : list (Z * Z);               (* armed RPC timers: id and due time *)
  dc_controlTransport : option Z;         (* transports by identity *)
  dc_listening : list Z;                  (* transports with the client's listeners *)
  dc_unsubscribe : option Z;              (* the transport the unsubscribers are of *)
  dc_handshakes : list Z;                 (* registrations that are not settled *)
  dc_nextRpcId : Z;
  dc_connectPromise : bool;
  dc_closed : bool;
  dc_status : ClientStatus
}.

#[export] Instance eta_daemon_client : Eta DaemonClient := fun c =>
  mkDaemonClient (dc_rpcTimeout c) (dc_reportServiceEnabled c) (dc_connectorFacadeOption c) (dc_debugInfo c) (dc_pid c)
    (dc_pendingRpc c) (dc_timers c) (dc_controlTransport c) (dc_listening c) (dc_unsubscribe c) (dc_handshakes c)
    (dc_nextRpcId c) (dc_connectPromise c) (dc_closed c) (dc_status c).

(** [option.debugInfo] with the protocol version filled in. *)
Definition new_client (rpcTimeout : option num) (report : option bool) (facade : json) (debugInfo : jsval) (pid : Z)
  : DaemonClient :=
  let debugInfo :=
    if truthy debugInfo then
      Some (spread_with (Some (JObj [(js "protocolVersion",
        match debugInfo@."protocolVersion" with
        | None | Some JNull => jint MULTIPLEXER_PROTOCOL_VERSION | Some v => v end)]))
        (match debugInfo with Some (JObj kvs) => kvs | _ => [] end))
    else None in
  mkDaemonClient (default (NInt DEFAULT_MULTIPLEXER_RPC_TIMEOUT) rpcTimeout) (default false report) facade debugInfo pid
    [] [] None [] None [] 1 false false cdisconnected.

(** What the client does: settle the promise of an RPC, send on a transport,
    close one, or tell its listeners. *)
Inductive client_event :=
  | Settle (id : Z) (r : json + client_error)
  | SendOn (transport : Z) (message : json)
  | EndTransport (transport : Z)
  | DestroyTransport (transport : Z)
  | EmitConnected
  | EmitDisconnected
  | EmitHostEvent (e : json)
  | UnknownMessage.

Definition client_debugInfo (now : Z) (c : DaemonClient) : jsval :=
  if truthy (dc_debugInfo c)
  then Some (spread_with (dc_debugInfo c) [(js "processId", jint (dc_pid c)); (js "timestamp", jint now)]) else None.

(** ** RPCs *)

Definition getOperationTimeout (params : jsval) : option num :=
  if isRecord params then
    match params@."timeout" with
    | Some (JNum n) => if num_isFinite n && num_leb (NInt 0) n then Some n else None
    | _ => None
    end
  else None.

(** [Math.max] of Numbers that are not NaN. *)
Definition getRpcTimeout (params : jsval) (c : DaemonClient) : num :=
  match getOperationTimeout params with
  | None => dc_rpcTimeout c
  | Some t => let extended := num_add t (NInt RPC_TIMEOUT_BUFFER_MS) in
              if num_ltb (dc_rpcTimeout c) extended then extended else dc_rpcTimeout c
  end.

Definition invalid_params (m : ControlRpcMethod) : client_error :=
  plain_error (js "Invalid multiplexer RPC " ++ method_name m ++ js " params").
Definition client_closed : client_error := plain_error (js "Multiplexer remote client closed").
Definition not_connected : client_error := plain_error (js "Multiplexer control socket is not connected").
Definition rpc_timed_out (m : ControlRpcMethod) : client_error :=
  plain_error (js "Timed out waiting for multiplexer RPC " ++ method_name m ++ js " response").
Definition rpc_not_sent (m : ControlRpcMethod) : client_error :=
  plain_error (js "Failed to send multiplexer RPC " ++ method_name m ++ js " request").
Definition rpc_invalid_payload (m : ControlRpcMethod) : client_error :=
  plain_error (js "Invalid multiplexer RPC " ++ method_name m ++ js " response payload").

(** [assertValidRpcParams], the first step of [call]. *)
Definition assertValidRpcParams (m : ControlRpcMethod) (params : json) : option client_error :=
  if isControlRpcParams m (Some params) then None else Some (invalid_params m).

(** Removing a pending RPC with its timer. *)
Definition drop_rpc (id : Z) (c : DaemonClient) : DaemonClient :=
  c <| dc_pendingRpc ::= mdel id |> <| dc_timers ::= mdel id |>.

(** [sendRpc], after [call] has connected; [sent] is what [transport.send]
    returns.  The first component is the exception of a call that throws; a
    missing transport makes the executor of the promise throw, which rejects
    the promise and leaves the RPC in the table. *)
Definition sendRpc (m : ControlRpcMethod) (params : json) (sent : bool) (now : Z) (c : DaemonClient)
  : option client_error * list client_event * DaemonClient :=
  if dc_closed c then (Some client_closed, [], c)
  else if negb (bool_decide (dc_status c = cconnected)) then (Some not_connected, [], c)
  else
    let id := dc_nextRpcId c in
    let c := c <| dc_nextRpcId := js_succ id |> in
    let request := request_json (NInt id) m params (client_debugInfo now c) in
    let c := c <| dc_timers ::= mset id (now + node_delay (getRpcTimeout (Some params) c)) |>
               <| dc_pendingRpc ::= mset id (mkPendingRpc m) |> in
    match dc_controlTransport c with
    | None => (None, [Settle id (inr (plain_error (js "Cannot read properties of null")))], c)
    | Some t =>
        if sent then (None, [SendOn t request], c)
        else match mget id (dc_pendingRpc c) with
             | Some _ => (None, [Settle id (inr (rpc_not_sent m))], drop_rpc id c)
             | None => (None, [], c)
             end
    end.

(** The timer of an RPC. *)
Definition rpc_timer_fires (id : Z) (c : DaemonClient) : list client_event * DaemonClient :=
  match mget id (dc_timers c) with
  | None => ([], c)
  | Some _ =>
      let e := match mget id (dc_pendingRpc c) with
               | Some p => [Settle id (inr (rpc_timed_out (rp_method p)))]
               | None => []
               end in
      (e, drop_rpc id c)
  end.

Definition handleRpcResponse (response : json) (c : DaemonClient) : list client_event * DaemonClient :=
  match (match (Some response)@."id" with Some (JNum n) => num_key n | _ => None end) with
  | None => ([], c)
  | Some id =>
      match mget id (dc_pendingRpc c) with
      | None => ([], c)
      | Some p =>
          if negb (isControlRpcResponse (Some response) (Some (rp_method p)))
          then ([Settle id (inr (rpc_invalid_payload (rp_method p)))], drop_rpc id c)
          else if truthy ((Some response)@."ok")
          then ([Settle id (inl (default JNull ((Some response)@."result")))], drop_rpc id c)
          else ([Settle id (inr (client_createRpcError ((Some response)@."error")))], drop_rpc id c)
      end
  end.

(** [handleTransportMessage]: the transport must have the client's listener. *)
Definition client_message (t : Z) (v : json) (c : DaemonClient) : list client_event * DaemonClient :=
  if negb (shas t (dc_listening c)) then ([], c)
  else if isControlRpcResponse (Some v) None then handleRpcResponse v c
  else if isControlEvent (Some v) then ([EmitHostEvent v], c)
  else ([UnknownMessage], c).

Definition rejectAllPendingRpc (e : client_error) (c : DaemonClient) : list client_event * DaemonClient :=
  (List.map (fun q => Settle q.1 (inr e)) (dc_pendingRpc c),
   fold_left (fun c id => drop_rpc id c) (mkeys (dc_pendingRpc c)) c).

(** ** The connection *)

Definition closeSocket (e : client_error) (c : DaemonClient) : list client_event * DaemonClient :=
  let transport := dc_controlTransport c in
  let c := c <| dc_controlTransport := None |> <| dc_status := cdisconnected |> in
  let c := c <| dc_listening ::= (fun l => match dc_unsubscribe c with Some t => sdel t l | None => l end) |>
             <| dc_unsubscribe := None |> in
  let '(es, c) := rejectAllPendingRpc e c in
  match transport with
  | None => (es, c)
  | Some t => (es ++ [EmitDisconnected; EndTransport t], c)
  end.

(** [handleTransportClose]. *)
Definition client_transport_closes (t : Z) (e : option client_error) (c : DaemonClient)
  : list client_event * DaemonClient :=
  if negb (shas t (dc_listening c)) then ([], c)
  else closeSocket (default (plain_error (js "Multiplexer control socket closed")) e)
         (c <| dc_listening ::= sdel t |>).

Definition client_close (c : DaemonClient) : list client_event * DaemonClient :=
  closeSocket client_closed (c <| dc_closed := true |> <| dc_connectPromise := false |>).

(** [connect]: what a caller waits for. *)
Inductive connect_outcome := ConnectReady | ConnectShares | ConnectThrows (e : client_error) | ConnectStarts.

Definition connect (c : DaemonClient) : connect_outcome * DaemonClient :=
  if bool_decide (dc_status c = cconnected) then (ConnectReady, c)
  else if dc_connectPromise c then (ConnectShares, c)
  else if dc_closed c then (ConnectThrows client_closed, c)
  else (ConnectStarts, c <| dc_connectPromise := true |>).

(** [registerTransport] with the new transport [t]. *)
Definition registerTransport (t : Z) (c : DaemonClient) : option client_error * DaemonClient :=
  if dc_closed c then (Some client_closed, c)
  else (None, c <| dc_controlTransport := Some t |> <| dc_handshakes ::= sadd t |>).

(** [fail] of a registration. *)
Definition registration_fails (t : Z) (c : DaemonClient) : list client_event * DaemonClient :=
  if negb (shas t (dc_handshakes c)) then ([], c)
  else
    let c := c <| dc_handshakes ::= sdel t |> in
    let c := if bool_decide (dc_controlTransport c = Some t) then c <| dc_controlTransport := None |> else c in
    ([DestroyTransport t], c <| dc_status := cdisconnected |>).

(** The socket is connected: [sent] and [transportClosed] are what the
    transport answers. *)
Definition registration_connects (t : Z) (sent transportClosed : bool) (now : Z) (c : DaemonClient)
  : list client_event * DaemonClient :=
  if negb (shas t (dc_handshakes c)) then ([], c)
  else
    let request := register_request_json (dc_reportServiceEnabled c) (Some (dc_connectorFacadeOption c))
                     (client_debugInfo now c) in
    if sent then ([SendOn t request], c)
    else if transportClosed then ([], c) else registration_fails t c.

Definition registration_message (t : Z) (v : json) (c : DaemonClient) : list client_event * DaemonClient :=
  if negb (shas t (dc_handshakes c)) then ([], c)
  else if isMultiplexerHandshakeErrorResponse (Some v) then registration_fails t c
  else if negb (isMultiplexerRegisterResponse (Some v)) then registration_fails t c
  else ([EmitConnected],
        c <| dc_handshakes ::= sdel t |> <| dc_listening ::= sadd t |> <| dc_unsubscribe := Some t |>
          <| dc_status := cconnected |>).

(** *** [connectInternal] *)

(** What an attempt meets: the daemon manager reports a daemon, asks for a
    retry or throws; the registration succeeds or fails. *)
Record attempt := mkAttempt {
  at_closed : bool;                       (* the client was closed before it *)
  at_daemon : option bool;                (* [None]: [ensureDaemon] throws *)
  at_registers : bool
}.

Inductive connect_result := Connected | NotConnected.

(** The loop; the numbers of calls of [ensureDaemon] and [registerTransport]
    are counted. *)
Fixpoint connect_loop (left : nat) (ensureDaemon : bool) (env : nat -> attempt) (i daemons registrations : nat)
  : connect_result * nat * nat :=
  match left with
  | O => (NotConnected, daemons, registrations)
  | S left' =>
      let a := env i in
      if at_closed a then (NotConnected, daemons, registrations)
      else
        let register (daemons : nat) :=
          if at_registers a then (Connected, daemons, S registrations)
          else connect_loop left' ensureDaemon env (S i) daemons (S registrations) in
        if ensureDaemon then
          match at_daemon a with
          | None => (NotConnected, S daemons, registrations)
          | Some false => connect_loop left' ensureDaemon env (S i) (S daemons) registrations
          | Some true => register (S daemons)
          end
        else register daemons
  end.

Definition connectInternal (ensureDaemon : bool) (env : nat -> attempt) (c : DaemonClient) : connect_result * nat * nat :=
  if bool_decide (dc_status c = cconnected) then (Connected, O, O)
  else connect_loop MULTIPLEXER_CONNECT_MAX_ATTEMPTS ensureDaemon env 0 0 0.

(** ** Discovery *)

Inductive validation :=
  | Usable (sameVersion : bool)
  | ReplaceRequired
  | UpgradeBlocked
  | Unusable (reason : string).

Definition compareProtocolVersion (localVersion : num) (daemonVersion : num) (isInUse : bool) : validation :=
  if num_ltb daemonVersion localVersion then (if isInUse then UpgradeBlocked else ReplaceRequired)
  else Usable (num_eqb daemonVersion localVersion).

(** A message of the daemon in answer to the health request. *)
Definition health_answer (localVersion : num) (v : json) : validation :=
  if isMultiplexerHandshakeErrorResponse (Some v) then Unusable "invalid-response"
  else if negb (isMultiplexerHealthResponse (Some v)) then Unusable "invalid-response"
  else match (Some v)@."protocolVersion" with
       | Some (JNum n) => compareProtocolVersion localVersion n (truthy ((Some v)@."isInUse"))
       | _ => Unusable "invalid-response"
       end.

(** [probeHealth] settles with the first thing that happens. *)
Inductive probe_event :=
  | ProbeConnects (sent : bool)
  | ProbeMessage (v : json)
  | ProbeCloses (transportError : bool)
  | ProbeTimesOut.

Fixpoint probeHealth (localVersion : num) (es : list probe_event) : option validation :=
  match es with
  | [] => None
  | ProbeConnects true :: es => probeHealth localVersion es
  | ProbeConnects false :: _ => Some (Unusable "unreachable")
  | ProbeMessage v :: _ => Some (health_answer localVersion v)
  | ProbeCloses transportError :: _ => Some (Unusable (if transportError then "invalid-frame" else "unreachable"))
  | ProbeTimesOut :: _ => Some (Unusable "timeout")
  end.

(** ** Runs of the client *)

Inductive client_op :=
  | CRpc (m : ControlRpcMethod) (params : json) (sent : bool) (now : Z)
  | CTimer (id : Z)
  | CMessage (t : Z) (v : json)
  | CTransportCloses (t : Z) (e : option client_error)
  | CClose
  | CConnect
  | CRegister (t : Z)
  | CRegistrationConnects (t : Z) (sent transportClosed : bool) (now : Z)
  | CRegistrationMessage (t : Z) (v : json)
  | CRegistrationFails (t : Z).

Definition client_step (op : client_op) (c : DaemonClient) : list client_event * DaemonClient :=
  match op with
  | CRpc m params sent now => let '(_, e, c) := sendRpc m params sent now c in (e, c)
  | CTimer id => rpc_timer_fires id c
  | CMessage t v => client_message t v c
  | CTransportCloses t e => client_transport_closes t e c
  | CClose => client_close c
  | CConnect => ([], (connect c).2)
  | CRegister t => ([], (registerTransport t c).2)
  | CRegistrationConnects t sent closed now => registration_connects t sent closed now c
  | CRegistrationMessage t v => registration_message t v c
  | CRegistrationFails t => registration_fails t c
  end.

Fixpoint client_run (ops : list client_op) (c : DaemonClient) : list client_event * DaemonClient :=
  match ops with
  | [] => ([], c)
  | op :: ops' => let '(e1, c) := client_step op c in let '(e2, c) := client_run ops' c in (e1 ++ e2, c)
  end.

Definition settles_rpc (id : Z) (e : client_event) : bool :=
  match e with Settle i _ => i =? id | _ => false end.

(** How often the promise of an RPC was settled. *)
Definition settlements (id : Z) (es : list client_event) : nat := List.length (List.filter (settles_rpc id) es).

Definition waits_for (id : Z) (c : DaemonClient) : nat := if mhas id (dc_pendingRpc c) then 1 else 0.

(** RPC ids the client has given out. *)
Definition given_out (id : Z) (c : DaemonClient) : nat := if (1 <=? id) && (id <? dc_nextRpcId c) then 1 else 0.

(** [connectInternal] makes one attempt at a time and closes the old transport
    before it registers a new one. *)
Definition allowed (op : client_op) (c : DaemonClient) : bool :=
  match op with
  | CRegister t => bool_decide (dc_handshakes c = []) && bool_decide (dc_controlTransport c = None)
  | _ => true
  end.

Fixpoint disciplined (ops : list client_op) (c : DaemonClient) : bool :=
  match ops with [] => true | op :: ops' => allowed op c && disciplined ops' (client_step op c).2 end.

(** A step that leaves the RPCs alone. *)
Record rpcs_kept (c c' : DaemonClient) : Prop := {
  rk_pending : dc_pendingRpc c' = dc_pendingRpc c;
  rk_timers : dc_timers c' = dc_timers c;
  rk_next : dc_nextRpcId c' = dc_nextRpcId c
}.

Record client_fine (c : DaemonClient) (r : list client_event * DaemonClient) : Prop := {
  cf_keys : NoDup (mkeys (dc_pendingRpc r.2));
  cf_timers : forall id, is_Some (mget id (dc_pendingRpc r.2)) <-> is_Some (mget id (dc_timers r.2));
  cf_ids : forall id, is_Some (mget id (dc_pendingRpc r.2)) -> 1 <= id < dc_nextRpcId r.2;
  cf_next : dc_nextRpcId c <= dc_nextRpcId r.2 <= dc_nextRpcId c + 1;
  cf_count : forall id, (settlements id r.1 + waits_for id r.2 + given_out id c = waits_for id c + given_out id r.2)%nat
}.

Record rpcs_wf (c : DaemonClient) : Prop := {
  rp_keys : NoDup (mkeys (dc_pendingRpc c));
  rp_timers : forall id, is_Some (mget id (dc_pendingRpc c)) <-> is_Some (mget id (dc_timers c));
  rp_ids : forall id, is_Some (mget id (dc_pendingRpc c)) -> 1 <= id < dc_nextRpcId c;
  rp_next : 1 <= dc_nextRpcId c
}.

Lemma kept_fine c c' es : rpcs_wf c -> rpcs_kept c c' -> (forall id, settlements id es = 0%nat) -> client_fine c (es, c').
Proof.
  intros [W1 W2 W3 W4] [K1 K2 K3] Hs. split; cbn [fst snd]; rewrite ?K1, ?K2, ?K3; try done; [lia|].
  intros id. rewrite Hs. unfold waits_for, given_out. rewrite K1, K3. lia.
Qed.

Lemma waits_drop id id' c : waits_for id (drop_rpc id' c) = if decide (id = id') then 0%nat else waits_for id c.
Proof. unfold waits_for, drop_rpc, mhas. cbn. rewrite mget_mdel. by case_decide. Qed.

(** A pending RPC is settled and dropped. *)
Lemma settle_fine c id r : rpcs_wf c -> is_Some (mget id (dc_pendingRpc c)) ->
  client_fine c ([Settle id r], drop_rpc id c).
Proof.
  intros [W1 W2 W3 W4] Hp. split; cbn [fst snd drop_rpc dc_pendingRpc dc_timers dc_nextRpcId set_field eta eta_daemon_client].
  - by apply NoDup_mdel.
  - intros i. rewrite !mget_mdel. case_decide; [by split; intros [? ?]|apply W2].
  - intros i. rewrite mget_mdel. case_decide; [by intros [? ?]|apply W3].
  - lia.
  - intros i. rewrite waits_drop. unfold settlements. cbn [List.filter settles_rpc]. unfold given_out.
    change (dc_nextRpcId (drop_rpc id c)) with (dc_nextRpcId c). unfold waits_for, mhas. case_decide as Hi.
    + subst. rewrite Z.eqb_refl. destruct Hp as [p ->]. cbn. lia.
    + destruct (Z.eqb_spec id i); [congruence|]. cbn. lia.
Qed.

(** The transport of a client that is not closed. *)
Record transport_ok (c : DaemonClient) : Prop := {
  to_handshake : forall t, t ∈ dc_handshakes c -> dc_controlTransport c = Some t /\ t ∉ dc_listening c;
  to_connected : dc_status c = cconnected -> dc_controlTransport c <> None;
  to_listening : forall t, t ∈ dc_listening c -> dc_unsubscribe c = Some t /\ dc_controlTransport c = Some t
}.

Lemma drop_rpc_other id c :
  dc_status (drop_rpc id c) = dc_status c /\ dc_closed (drop_rpc id c) = dc_closed c /\
  dc_controlTransport (drop_rpc id c) = dc_controlTransport c /\ dc_listening (drop_rpc id c) = dc_listening c /\
  dc_unsubscribe (drop_rpc id c) = dc_unsubscribe c /\ dc_handshakes (drop_rpc id c) = dc_handshakes c /\
  dc_nextRpcId (drop_rpc id c) = dc_nextRpcId c.
Proof. done. Qed.

Lemma drop_all ids : forall c,
  let c' := fold_left (fun c id => drop_rpc id c) ids c in
  (forall id, mget id (dc_pendingRpc c') = if decide (id ∈ ids) then None else mget id (dc_pendingRpc c)) /\
  (forall id, mget id (dc_timers c') = if decide (id ∈ ids) then None else mget id (dc_timers c)) /\
  dc_nextRpcId c' = dc_nextRpcId c /\ dc_status c' = dc_status c /\ dc_closed c' = dc_closed c /\
  dc_controlTransport c' = dc_controlTransport c /\ dc_listening c' = dc_listening c /\
  dc_unsubscribe c' = dc_unsubscribe c /\ dc_handshakes c' = dc_handshakes c /\
  (NoDup (mkeys (dc_pendingRpc c)) -> NoDup (mkeys (dc_pendingRpc c'))).
Proof.
  induction ids as [|i ids IH]; intros c; cbn [fold_left].
  { split; [intros; by rewrite decide_False by apply not_elem_of_nil|].
    split; [intros; by rewrite decide_False by apply not_elem_of_nil|by repeat split]. }
  destruct (IH (drop_rpc i c)) as (H1 & H2 & H3 & H4 & H5 & H6 & H7 & H8 & H9 & H10).
  assert (forall A (m : list (Z * A)) id, (if decide (id ∈ ids) then None else mget id (mdel i m)) =
    if decide (id ∈ i :: ids) then None else mget id m) as Hd.
  { intros A m id. rewrite mget_mdel. destruct (decide (id ∈ ids)) as [Hin|Hin].
    - rewrite decide_True by (by right). done.
    - case_decide as Hi; [rewrite decide_True by (subst; by left); done|].
      rewrite decide_False; [done|]. intros [->|?]%elem_of_cons; done. }
  split; [intros id; rewrite H1; apply Hd|]. split; [intros id; rewrite H2; apply Hd|].
  repeat (split; [done|]). intros Hn. apply H10. by apply NoDup_mdel.
Qed.

Lemma settlements_map e id (l : list (Z * PendingRpc)) : NoDup (mkeys l) ->
  settlements id (List.map (fun q => Settle q.1 (inr e)) l) = if mhas id l then 1%nat else 0%nat.
Proof.
  unfold settlements, mhas, mkeys. induction l as [|[k p] l IH]; [done|]. cbn [List.map List.filter settles_rpc fmap list_fmap fst].
  rewrite list.NoDup_cons. intros [Hk Hn]. specialize (IH Hn). cbn [mget].
  destruct (Z.eqb_spec k id) as [->|Hne].
  - rewrite decide_True by done. cbn. rewrite IH. apply mget_None_keys in Hk. unfold mkeys in Hk. by rewrite Hk.
  - rewrite decide_False by congruence. exact IH.
Qed.

Lemma rejectAll_spec e c : rpcs_wf c -> let '(es, c') := rejectAllPendingRpc e c in
  client_fine c (es, c') /\ (forall id, mget id (dc_pendingRpc c') = None) /\
  dc_status c' = dc_status c /\ dc_closed c' = dc_closed c /\ dc_controlTransport c' = dc_controlTransport c /\
  dc_listening c' = dc_listening c /\ dc_unsubscribe c' = dc_unsubscribe c /\ dc_handshakes c' = dc_handshakes c.
Proof.
  intros [W1 W2 W3 W4]. unfold rejectAllPendingRpc.
  destruct (drop_all (mkeys (dc_pendingRpc c)) c) as (H1 & H2 & H3 & H4 & H5 & H6 & H7 & H8 & H9 & H10).
  set (c' := fold_left _ _ c) in *.
  assert (forall id, mget id (dc_pendingRpc c') = None) as Hnone.
  { intros id. rewrite H1. case_decide as Hi; [done|]. by apply mget_None_keys. }
  assert (forall id, mget id (dc_timers c') = None) as Htn.
  { intros id. rewrite H2. case_decide as Hi; [done|]. destruct (mget id (dc_timers c)) eqn:E; [|done].
    exfalso. apply Hi. apply mkeys_mget, W2. by rewrite E. }
  split; [|by repeat split]. split; cbn [fst snd].
  - by apply H10.
  - intros id. rewrite Hnone, Htn. done.
  - intros id. rewrite Hnone. by intros [? ?].
  - rewrite H3. lia.
  - intros id. rewrite settlements_map by done. unfold waits_for, given_out, mhas. rewrite Hnone, H3.
    destruct (mget id (dc_pendingRpc c)); lia.
Qed.

(** The invariant of a client: its RPCs, and its transport until it closes. *)
Definition client_inv (c : DaemonClient) : Prop := rpcs_wf c /\ (dc_closed c = false -> transport_ok c).

Lemma fine_wf c r : rpcs_wf c -> client_fine c r -> rpcs_wf r.2.
Proof. intros [_ _ _ W4] [H1 H2 H3 H4 _]. split; [done..|lia]. Qed.

Lemma sendRpc_fine m params sent now c : client_inv c -> dc_nextRpcId c <= MAX_SAFE ->
  let '(_, e, c') := sendRpc m params sent now c in
  client_fine c (e, c') /\ (dc_closed c' = false -> transport_ok c').
Proof.
  intros [Hw Ht] Hn. pose proof Hw as [W1 W2 W3 W4]. unfold sendRpc. destruct (dc_closed c) eqn:Ec.
  { split; [by apply kept_fine|]. intros Hc. congruence. }
  specialize (Ht eq_refl). case_bool_decide as Hs; cbn [negb]; [|split; [by apply kept_fine|done]].
  set (id := dc_nextRpcId c). set (c1 := _ <| dc_pendingRpc ::= mset id (mkPendingRpc m) |>).
  destruct (dc_controlTransport c1) as [t|] eqn:Et; [|by apply (to_connected _ Ht) in Hs].
  assert (mget id (dc_pendingRpc c) = None) as Hfresh.
  { destruct (mget id (dc_pendingRpc c)) eqn:E; [|done]. destruct (W3 id ltac:(by rewrite E)). unfold id in *. lia. }
  assert (dc_nextRpcId c1 = id + 1) as Hn1 by (cbn; by apply js_succ_safe).
  assert (dc_pendingRpc c1 = mset id (mkPendingRpc m) (dc_pendingRpc c)) as Hp1 by done.
  assert (rpcs_wf c1) as Hw1.
  { split.
    - rewrite Hp1. by apply NoDup_mset.
    - intros i. unfold c1. cbn [dc_pendingRpc dc_timers set_field eta eta_daemon_client]. rewrite !mget_mset.
      case_decide; [by split|apply W2].
    - intros i. rewrite Hp1, Hn1, mget_mset. case_decide; [intros _; unfold id in *; lia|].
      intros Hi. specialize (W3 _ Hi). unfold id in *. lia.
    - rewrite Hn1. unfold id. lia. }
  assert (transport_ok c1) as Ht1 by (destruct Ht; by split).
  assert (forall i, (waits_for i c1 + given_out i c = waits_for i c + given_out i c1)%nat) as Hcount.
  { intros i. unfold waits_for, given_out, mhas. rewrite Hp1, Hn1, mget_mset. fold id. case_decide as Hi.
    - subst i. rewrite Hfresh. destruct (Z.leb_spec 1 id), (Z.ltb_spec id id), (Z.ltb_spec id (id + 1)); cbn; unfold id in *; lia.
    - destruct (Z.leb_spec 1 i), (Z.ltb_spec i id), (Z.ltb_spec i (id + 1)); cbn; lia. }
  destruct sent.
  - split; [|done]. destruct Hw1 as [X1 X2 X3 X4]. split; cbn [fst snd]; [done..|rewrite Hn1; unfold id; lia|].
    intros i. cbn. apply Hcount.
  - rewrite Hp1, mget_mset_eq. split; [|destruct Ht1; by split].
    destruct (settle_fine c1 id (inr (rpc_not_sent m)) Hw1) as [X1 X2 X3 X4 X5]; [by rewrite Hp1, mget_mset_eq|].
    split; cbn [fst snd] in *; [done..|change (dc_nextRpcId (drop_rpc id c1)) with (dc_nextRpcId c1); rewrite Hn1; unfold id; lia|].
    intros i. specialize (X5 i). specialize (Hcount i). change (given_out i (drop_rpc id c1)) with (given_out i c1) in *. lia.
Qed.

Lemma closeSocket_fine e c : rpcs_wf c -> (dc_closed c = false -> transport_ok c) ->
  let '(es, c') := closeSocket e c in
  client_fine c (es, c') /\ (forall id, mget id (dc_pendingRpc c') = None) /\ dc_status c' = cdisconnected /\
  dc_controlTransport c' = None /\ dc_closed c' = dc_closed c /\ dc_handshakes c' = dc_handshakes c /\
  dc_listening c' = match dc_unsubscribe c with Some t => sdel t (dc_listening c) | None => dc_listening c end.
Proof.
  intros Hw Ht. unfold closeSocket.
  set (c1 := _ <| dc_unsubscribe := None |>).
  assert (rpcs_wf c1) as Hw1 by (destruct Hw; by split).
  pose proof (rejectAll_spec e c1 Hw1) as Hr. destruct (rejectAllPendingRpc e c1) as [es c2].
  destruct Hr as ([X1 X2 X3 X4 X5] & Hn & Hs & Hc & Hct & Hl & _ & Hh).
  assert (client_fine c (es, c2)) as Hf by (split; done).
  destruct (dc_controlTransport c) as [t|].
  - split; [|by repeat split]. destruct Hf as [Y1 Y2 Y3 Y4 Y5]. split; cbn [fst snd] in *; try done.
    intros id. specialize (Y5 id). unfold settlements in *. rewrite List.filter_app. cbn. by rewrite app_nil_r.
  - split; [exact Hf|]. by repeat split.
Qed.

Lemma registration_fails_fine t c : client_inv c ->
  let '(es, c') := registration_fails t c in
  client_fine c (es, c') /\ (dc_closed c' = false -> transport_ok c').
Proof.
  intros [Hw Ht]. unfold registration_fails. destruct (shas t (dc_handshakes c)) eqn:Eh; cbn [negb].
  2:{ split; [by apply kept_fine|done]. }
  apply bool_decide_eq_true in Eh. split.
  - apply kept_fine; [done| |done]. by case_bool_decide.
  - intros Hc. assert (dc_closed c = false) as Hc0 by (revert Hc; by case_bool_decide). destruct (Ht Hc0) as [T1 T2 T3].
    destruct (T1 _ Eh) as [Hct Hnl]. cbn [dc_controlTransport set_field eta eta_daemon_client].
    rewrite bool_decide_true by done. split; cbn.
    + intros t'. rewrite elem_of_sdel. intros [Hne Hin]. destruct (T1 _ Hin). congruence.
    + done.
    + intros t' Hin. destruct (T3 _ Hin) as [_ ?]. assert (t' = t) by congruence. subst. done.
Qed.

Lemma handleRpcResponse_fine v c : client_inv c ->
  let '(es, c') := handleRpcResponse v c in
  client_fine c (es, c') /\ (dc_closed c' = false -> transport_ok c').
Proof.
  intros [Hw Ht]. unfold handleRpcResponse.
  destruct (match (Some v)@."id" with Some (JNum n) => num_key n | _ => None end) as [id|];
    [|split; [by apply kept_fine|done]].
  destruct (mget id (dc_pendingRpc c)) as [p|] eqn:E; [|split; [by apply kept_fine|done]].
  repeat case_match; simplify_eq; (split; [apply settle_fine; [done|by rewrite E]|]); intros Hc; destruct (Ht Hc); by split.
Qed.

Lemma client_step_fine op c : client_inv c -> allowed op c = true -> dc_nextRpcId c <= MAX_SAFE ->
  client_fine c (client_step op c) /\ (dc_closed (client_step op c).2 = false -> transport_ok (client_step op c).2).
Proof.
  intros Hi Ha Hn. pose proof Hi as [Hw Ht].
  assert (forall es, (forall id, settlements id es = 0%nat) -> client_fine c (es, c)) as Hkeep
    by (intros; by apply kept_fine).
  destruct op as [m params sent now|id|t v|t e| | |t|t sent tc now|t v|t]; cbn [client_step].
  - pose proof (sendRpc_fine m params sent now c Hi Hn) as H. by destruct (sendRpc m params sent now c) as [[? ?] ?].
  - unfold rpc_timer_fires. destruct (mget id (dc_timers c)) as [due|] eqn:Et; [|by split; [apply Hkeep|]].
    assert (is_Some (mget id (dc_pendingRpc c))) as [p Hp] by (apply (rp_timers _ Hw); by rewrite Et).
    rewrite Hp. split; [apply settle_fine; [done|by rewrite Hp]|]. intros Hc. destruct (Ht Hc). by split.
  - unfold client_message. destruct (shas _ _); cbn [negb]; [|by split; [apply Hkeep|]].
    destruct (isControlRpcResponse _ _); [pose proof (handleRpcResponse_fine v c Hi) as H; by destruct (handleRpcResponse v c)|].
    destruct (isControlEvent _); by split; [apply Hkeep|].
  - unfold client_transport_closes. destruct (shas t (dc_listening c)) eqn:El; cbn [negb]; [|by split; [apply Hkeep|]].
    apply bool_decide_eq_true in El. set (c1 := c <| dc_listening ::= sdel t |>).
    assert (rpcs_wf c1) as Hw1 by (destruct Hw; by split).
    pose proof (closeSocket_fine (default (plain_error (js "Multiplexer control socket closed")) e) c1 Hw1) as Hcs.
    destruct (closeSocket _ c1) as [es c'].
    assert (dc_closed c = false -> transport_ok c1) as Ht1.
    { intros Hc. destruct (Ht Hc) as [T1 T2 T3]. split; cbn.
      - intros t' Hin. destruct (T1 _ Hin). split; [done|]. rewrite elem_of_sdel. tauto.
      - done.
      - intros t'. rewrite elem_of_sdel. intros [_ Hin]. by apply T3. }
    destruct (Hcs Ht1) as (Hf & _ & Hs & Hct & Hcl & Hh & Hl).
    split; [destruct Hf; by split|]. cbn [snd]. intros Hc. rewrite Hcl in Hc. destruct (Ht Hc) as [T1 T2 T3].
    destruct (T3 _ El) as [Hu Hctl]. split.
    + intros t'. rewrite Hh. intros Hin. destruct (T1 _ Hin) as [H1 H2]. assert (t' = t) by congruence. by subst.
    + by rewrite Hs.
    + intros t'. rewrite Hl. change (dc_unsubscribe c1) with (dc_unsubscribe c).
      change (dc_listening c1) with (sdel t (dc_listening c)). rewrite Hu, !elem_of_sdel. intros (H1 & _ & H2). destruct (T3 _ H2). congruence.
  - unfold client_close. set (c1 := c <| dc_closed := true |> <| dc_connectPromise := false |>).
    assert (rpcs_wf c1) as Hw1 by (destruct Hw; by split).
    pose proof (closeSocket_fine client_closed c1 Hw1) as Hcs. destruct (closeSocket _ c1) as [es c'].
    destruct Hcs as (Hf & _ & _ & _ & Hcl & _); [done|]. split; [destruct Hf; by split|]. cbn [snd]. by rewrite Hcl.
  - unfold connect. destruct (bool_decide _); [by split; [apply Hkeep|]|].
    destruct (dc_connectPromise c); [by split; [apply Hkeep|]|]. destruct (dc_closed c) eqn:Ec; cbn [snd].
    + split; [by apply Hkeep|congruence].
    + split; [by apply kept_fine|]. intros _. destruct (Ht eq_refl). by split.
  - cbn [allowed] in Ha. apply andb_true_iff in Ha as [Hh Hct]. apply bool_decide_eq_true in Hh, Hct.
    unfold registerTransport. destruct (dc_closed c) eqn:Ec; cbn [snd]; [split; [by apply Hkeep|congruence]|].
    split; [by apply kept_fine|]. intros _. destruct (Ht eq_refl) as [T1 T2 T3].
    assert (forall t', t' ∉ dc_listening c) as Hnl by (intros t' Hin; destruct (T3 _ Hin); congruence).
    split; cbn.
    + intros t'. rewrite Hh. cbn. intros Hin. apply list_elem_of_singleton in Hin as ->. by split.
    + done.
    + intros t' Hin. by apply Hnl in Hin.
  - unfold registration_connects. destruct (shas _ _); cbn [negb]; [|by split; [apply Hkeep|]].
    destruct sent; [by split; [apply Hkeep|]|]. destruct tc; [by split; [apply Hkeep|]|].
    pose proof (registration_fails_fine t c Hi) as H. by destruct (registration_fails t c).
  - unfold registration_message. destruct (shas t (dc_handshakes c)) eqn:Eh; cbn [negb]; [|by split; [apply Hkeep|]].
    pose proof (registration_fails_fine t c Hi) as H. destruct (registration_fails t c) as [es0 c0].
    destruct (isMultiplexerHandshakeErrorResponse _); [done|]. destruct (isMultiplexerRegisterResponse _); cbn [negb]; [|done].
    apply bool_decide_eq_true in Eh. split; [by apply kept_fine|]. cbn [snd]. intros Hc. destruct (Ht Hc) as [T1 T2 T3].
    destruct (T1 _ Eh) as [Hct Hnl]. split; cbn.
    + intros t'. rewrite elem_of_sdel, elem_of_sadd. intros [Hne Hin]. destruct (T1 _ Hin). split; [done|]. tauto.
    + by rewrite Hct.
    + intros t'. rewrite elem_of_sadd. intros [->|Hin]; [done|]. destruct (T3 _ Hin). split; congruence.
  - pose proof (registration_fails_fine t c Hi) as H. by destruct (registration_fails t c).
Qed.

Lemma new_client_inv a b d e p : client_inv (new_client a b d e p).
Proof.
  split; [split; cbn; [apply NoDup_nil_2|done|by intros ? [? ?]|lia]|]. intros _.
  split; cbn; [by intros ? ?%not_elem_of_nil|done|by intros ? ?%not_elem_of_nil].
Qed.

Lemma client_run_fine ops : forall c, client_inv c -> disciplined ops c = true ->
  dc_nextRpcId c + Z.of_nat (List.length ops) <= MAX_SAFE + 1 ->
  let '(es, c') := client_run ops c in
  client_inv c' /\
  forall id, (settlements id es + waits_for id c' + given_out id c = waits_for id c + given_out id c')%nat.
Proof.
  induction ops as [|op ops IH]; intros c Hi Hd Hn; cbn [client_run].
  { split; [done|]. intros id. cbn. lia. }
  cbn [disciplined List.length] in *. apply andb_true_iff in Hd as [Ha Hd].
  destruct (client_step_fine op c Hi Ha ltac:(lia)) as [Hf Ht]. destruct (client_step op c) as [e1 c1].
  cbn [snd] in *. assert (client_inv c1) as Hi1 by (split; [apply (fine_wf c (e1, c1)); [apply Hi|done]|done]).
  destruct Hf as [_ _ _ F4 F5]. cbn [fst snd] in *. specialize (IH c1 Hi1 Hd ltac:(lia)).
  destruct (client_run ops c1) as [e2 c2]. destruct IH as [Hi2 IH]. split; [done|]. intros id. specialize (IH id).
  specialize (F5 id). unfold settlements in *. rewrite List.filter_app, length_app. lia.
Qed.

(** ** Every call comes to an end *)

(** A promise of the client is settled exactly once.  Whatever responses,
    timeouts, failed sends, lost transports, reconnections and closings happen,
    each RPC id given out is either still pending, with its timer armed, or its
    promise was settled, once; ids never given out are never settled; and when
    the client has been closed nothing is pending and no timer is armed. *)
Theorem client_rpc_settled_once ops a b facade dbg pid id :
  let c0 := new_client a b facade dbg pid in
  disciplined ops c0 = true -> Z.of_nat (List.length ops) <= MAX_SAFE ->
  let '(es, c) := client_run ops c0 in
  (settlements id es + waits_for id c = given_out id c)%nat /\
  (waits_for id c = 1%nat <-> is_Some (mget id (dc_timers c))) /\
  (forall id', waits_for id' (client_close c).2 = 0%nat /\ mget id' (dc_timers (client_close c).2) = None).
Proof.
  intros c0 Hd Hl. pose proof (client_run_fine ops c0 (new_client_inv _ _ _ _ _) Hd ltac:(cbn [dc_nextRpcId c0 new_client]; lia)) as H.
  destruct (client_run ops c0) as [es c]. destruct H as [Hi Hcount]. split; [|split].
  - specialize (Hcount id). unfold waits_for at 2, given_out at 1 in Hcount. cbn [c0 new_client dc_pendingRpc dc_nextRpcId mhas mget] in Hcount.
    assert ((1 <=? id) && (id <? 1) = false) as Hz by lia. rewrite Hz in Hcount. lia.
  - destruct Hi as [[_ W2 _ _] _]. rewrite <- W2, <- mhas_true. unfold waits_for. by destruct (mhas id _).
  - destruct Hi as [Hw _]. unfold client_close. set (c1 := c <| dc_closed := true |> <| dc_connectPromise := false |>).
    assert (rpcs_wf c1) as Hw1 by (destruct Hw; by split).
    pose proof (closeSocket_fine client_closed c1 Hw1 ltac:(done)) as Hcs. destruct (closeSocket _ c1) as [es' c'].
    destruct Hcs as ([_ F2 _ _ _] & Hn & _). cbn [snd] in *. intros id'. unfold waits_for, mhas. rewrite Hn. split; [done|].
    destruct (mget id' (dc_timers c')) eqn:E; [|done]. destruct (proj2 (F2 id') ltac:(by rewrite E)) as [? Hx]. by rewrite Hn in Hx.
Qed.

Lemma num_add_int x y : Z.abs (x + y) <= MAX_SAFE -> num_add (NInt x) (NInt y) = NInt (x + y).
Proof. intros H. cbn. by rewrite (proj2 (Z.leb_le _ _) H). Qed.

(** The client waits longer than the operation it asked for.  For a call
    with an integer timeout that Node's timers can express, the timer of the
    RPC is due at least a second after that timeout, and never before the
    default timeout of the client: a reply, or the daemon's own timeout error,
    sent in time still finds the promise waiting. *)
Theorem rpc_timeout_covers m params sent now c z d t :
  dc_closed c = false -> dc_status c = cconnected -> dc_controlTransport c = Some t ->
  isRecord (Some params) = true -> (Some params)@."timeout" = Some (JNum (NInt z)) ->
  0 <= z -> z + RPC_TIMEOUT_BUFFER_MS <= TIMEOUT_MAX -> dc_rpcTimeout c = NInt d -> 1 <= d <= TIMEOUT_MAX -> sent = true ->
  let '(error, es, c') := sendRpc m params sent now c in
  error = None /\
  mget (dc_nextRpcId c) (dc_timers c') = Some (now + Z.max d (z + RPC_TIMEOUT_BUFFER_MS)).
Proof.
  intros Hc Hs Ht Hr Hz H0 Hmax Hd Hd2 ->. unfold sendRpc. rewrite Hc, Hs. rewrite bool_decide_true by done. cbn [negb].
  cbn [dc_controlTransport set_field eta eta_daemon_client]. rewrite Ht. split; [done|].
  cbn [dc_timers set_field eta eta_daemon_client]. rewrite mget_mset_eq. f_equal. f_equal.
  unfold getRpcTimeout, getOperationTimeout. rewrite Hr, Hz. cbn [num_isFinite num_leb andb].
  rewrite (proj2 (Z.leb_le _ _) H0). rewrite num_add_int by (unfold RPC_TIMEOUT_BUFFER_MS, TIMEOUT_MAX, MAX_SAFE in *; lia).
  cbn [dc_rpcTimeout set_field eta eta_daemon_client]. rewrite Hd. cbn [num_ltb].
  unfold RPC_TIMEOUT_BUFFER_MS, TIMEOUT_MAX in *. destruct (Z.ltb_spec d (z + 1000)); unfold node_delay.
  - rewrite Z.max_r by lia. rewrite (proj2 (Z.leb_le 1 _)) by lia. by rewrite (proj2 (Z.leb_le (z + 1000) _)) by (unfold TIMEOUT_MAX; lia).
  - rewrite Z.max_l by lia. rewrite (proj2 (Z.leb_le 1 _)) by lia. by rewrite (proj2 (Z.leb_le d _)) by (unfold TIMEOUT_MAX; lia).
Qed.

(** The reads of a response. *)
Lemma response_valid dbg id r method : isOptional dbg isMultiplexerDebugInfo = true ->
  isControlRpcResponse (Some (response_json dbg (NInt id) r)) method =
  match r with inl v => isControlRpcResult method (Some v) | inr _ => true end.
Proof.
  intros Hd. unfold isControlRpcResponse, response_json, isControlRpcError.
  destruct r as [v|[code msg [det|]]], dbg as [d|]; unfold error_json; cbn [err_code err_message err_details]; jsimp;
    cbn [isOptional] in *; rewrite ?Hd; reflexivity.
Qed.

Lemma response_fields dbg id r :
  (Some (response_json dbg (NInt id) r))@."id" = Some (JNum (NInt id)) /\
  match r with
  | inl v => (Some (response_json dbg (NInt id) r))@."ok" = Some (JBool true) /\
             (Some (response_json dbg (NInt id) r))@."result" = Some v
  | inr e => (Some (response_json dbg (NInt id) r))@."ok" = Some (JBool false) /\
             (Some (response_json dbg (NInt id) r))@."error" = Some (error_json e)
  end.
Proof. unfold response_json. destruct r; jsimp; done. Qed.

Lemma client_createRpcError_json e :
  client_createRpcError (Some (error_json e)) = mkClientError (Some (err_code e)) (err_message e).
Proof. unfold client_createRpcError, error_json. by jsimp. Qed.

(** The response of a pending RPC settles it. *)
Lemma client_message_response t c id p r dbg :
  shas t (dc_listening c) = true -> mget id (dc_pendingRpc c) = Some p ->
  isOptional dbg isMultiplexerDebugInfo = true ->
  client_message t (response_json dbg (NInt id) r) c =
  ([Settle id match r with
              | inl v => if isControlRpcResult (Some (rp_method p)) (Some v) then inl v
                         else inr (rpc_invalid_payload (rp_method p))
              | inr e => inr (mkClientError (Some (err_code e)) (err_message e))
              end], drop_rpc id c).
Proof.
  intros Hl Hp Hd. unfold client_message. rewrite Hl, response_valid by done. cbn [negb].
  assert (match r with inl v => isControlRpcResult None (Some v) | inr _ => true end = true) as -> by (by destruct r).
  unfold handleRpcResponse. destruct (response_fields dbg id r) as [-> Hr]. cbn [num_key]. rewrite Hp, response_valid by done.
  destruct r as [v|e], Hr as [-> ->].
  - by destruct (isControlRpcResult _ _).
  - cbn [negb truthy]. by rewrite client_createRpcError_json.
Qed.

(** A response settles the call it answers as the daemon meant it.  The
    response the daemon builds for a pending RPC resolves its promise with the
    result if the result fits the method, rejects it if it does not, and an
    error response rejects it with the daemon's code and message; the RPC and
    its timer are gone, and every other RPC stays. *)
Theorem client_response_settles t c id p r dbg :
  shas t (dc_listening c) = true -> mget id (dc_pendingRpc c) = Some p ->
  isOptional dbg isMultiplexerDebugInfo = true ->
  let '(es, c') := client_message t (response_json dbg (NInt id) r) c in
  es = [Settle id match r with
                  | inl v => if isControlRpcResult (Some (rp_method p)) (Some v) then inl v
                             else inr (rpc_invalid_payload (rp_method p))
                  | inr e => inr (mkClientError (Some (err_code e)) (err_message e))
                  end] /\
  mget id (dc_pendingRpc c') = None /\ mget id (dc_timers c') = None /\
  (forall id', id' <> id -> mget id' (dc_pendingRpc c') = mget id' (dc_pendingRpc c) /\
                            mget id' (dc_timers c') = mget id' (dc_timers c)).
Proof.
  intros Hl Hp Hd. rewrite (client_message_response _ _ _ _ r _ Hl Hp Hd). split; [done|].
  cbn [drop_rpc dc_pendingRpc dc_timers set_field eta eta_daemon_client]. rewrite !mget_mdel, !decide_True by done.
  split; [done|]. split; [done|]. intros id' Hne. by rewrite !mget_mdel, !decide_False.
Qed.

(** *** Connecting *)

(** An attempt that goes on to the next. *)
Definition goes_on (a : attempt) : bool :=
  negb (at_closed a) && match at_daemon a with None => false | Some false => true | Some true => negb (at_registers a) end.

Definition succeeds (a : attempt) : bool :=
  negb (at_closed a) && match at_daemon a with Some true => at_registers a | _ => false end.

Lemma connect_loop_spec env left : forall i d r,
  let '(res, d', r') := connect_loop left true env i d r in
  (d' <= d + left)%nat /\ (r' + d <= d' + r)%nat /\
  (res = Connected <-> exists k, (k < left)%nat /\ succeeds (env (i + k)%nat) = true /\
     forall j, (j < k)%nat -> goes_on (env (i + j)%nat) = true).
Proof.
  induction left as [|left IH]; intros i d r; cbn [connect_loop].
  { repeat split; [lia|lia|done|]. intros (k & Hk & _). lia. }
  assert (succeeds (env i) = false -> goes_on (env i) = false ->
    ~ exists k, (k < S left)%nat /\ succeeds (env (i + k)%nat) = true /\ forall j, (j < k)%nat -> goes_on (env (i + j)%nat) = true)
    as Hstop.
  { intros Hs Hg (k & _ & Hk & Hj). destruct k as [|k].
    - rewrite Nat.add_0_r in Hk. congruence.
    - specialize (Hj O ltac:(lia)). rewrite Nat.add_0_r in Hj. congruence. }
  assert (forall P, succeeds (env i) = false -> goes_on (env i) = true ->
    (P <-> exists k, (k < left)%nat /\ succeeds (env (S i + k)%nat) = true /\
       forall j, (j < k)%nat -> goes_on (env (S i + j)%nat) = true) ->
    (P <-> exists k, (k < S left)%nat /\ succeeds (env (i + k)%nat) = true /\
       forall j, (j < k)%nat -> goes_on (env (i + j)%nat) = true)) as Hnext.
  { intros P Hs Hg ->. split.
    - intros (k & Hk & Hks & Hj). exists (S k). split; [lia|]. rewrite Nat.add_succ_r. split; [done|].
      intros [|j] Hlt; [by rewrite Nat.add_0_r|]. rewrite Nat.add_succ_r. apply Hj. lia.
    - intros ([|k] & Hk & Hks & Hj); [rewrite Nat.add_0_r in Hks; congruence|]. exists k. split; [lia|].
      rewrite Nat.add_succ_r in Hks. split; [done|]. intros j Hlt. specialize (Hj (S j) ltac:(lia)). by rewrite Nat.add_succ_r in Hj. }
  unfold succeeds at 1, goes_on at 1 in Hstop. unfold succeeds at 1, goes_on at 1 in Hnext.
  destruct (at_closed (env i)) eqn:Ec; cbn [negb andb] in *.
  { repeat split; [lia|lia|done|]. intros H. by apply Hstop in H. }
  destruct (at_daemon (env i)) as [[]|] eqn:Ed.
  - destruct (at_registers (env i)) eqn:Er; cbn [negb] in *.
    + split; [lia|]. split; [lia|]. split; [intros _|done]. exists O. split; [lia|]. rewrite Nat.add_0_r. unfold succeeds. rewrite Ec, Ed, Er.
      split; [done|]. lia.
    + specialize (IH (S i) (S d) (S r)). destruct (connect_loop left true env (S i) (S d) (S r)) as [[res d'] r'].
      destruct IH as (H1 & H2 & H3). split; [lia|]. split; [lia|]. by apply Hnext.
  - specialize (IH (S i) (S d) r). destruct (connect_loop left true env (S i) (S d) r) as [[res d'] r'].
    destruct IH as (H1 & H2 & H3). split; [lia|]. split; [lia|]. by apply Hnext.
  - repeat split; [lia|lia|done|]. intros H. by apply Hstop in H.
Qed.

(** Connecting ends, after at most three attempts.  [connectInternal] asks
    for a daemon at most three times and registers no more often than it got
    one; it succeeds exactly when one of the attempts meets a daemon and
    registers while every earlier one failed in a way that is retried: a client
    that was closed, or a daemon error that is not transient, ends it. *)
Theorem connect_bounded env c :
  dc_status c <> cconnected ->
  let '(res, daemons, registrations) := connectInternal true env c in
  (daemons <= MULTIPLEXER_CONNECT_MAX_ATTEMPTS)%nat /\ (registrations <= daemons)%nat /\
  (res = Connected <-> exists k, (k < MULTIPLEXER_CONNECT_MAX_ATTEMPTS)%nat /\ succeeds (env k) = true /\
     forall j, (j < k)%nat -> goes_on (env j) = true).
Proof.
  intros Hs. unfold connectInternal. rewrite bool_decide_false by done.
  pose proof (connect_loop_spec env MULTIPLEXER_CONNECT_MAX_ATTEMPTS 0 0 0) as H.
  destruct (connect_loop _ true env 0 0 0) as [[res d] r]. destruct H as (H1 & H2 & H3).
  split; [lia|]. split; [lia|]. exact H3.
Qed.

(** *** Discovery *)

(** A connector never replaces a daemon that others use.  The health
    response of a daemon, after its trip as JSON text, is judged usable exactly
    when its protocol is at least the connector's; an older daemon is to be
    replaced when nobody uses it, and otherwise the upgrade is blocked. *)
Theorem version_arbitration local daemon inUse dbg :
  wf_json (health_response_json daemon inUse dbg) = true -> isOptional dbg isMultiplexerDebugInfo = true ->
  probeHealth (NInt local) [ProbeConnects true; ProbeMessage (parseJsonValue (stringify (health_response_json daemon inUse dbg)));
                            ProbeCloses false; ProbeTimesOut] =
  Some (if local <=? daemon then Usable (daemon =? local) else if inUse then UpgradeBlocked else ReplaceRequired).
Proof.
  intros Hw Hd. cbn [probeHealth]. unfold parseJsonValue. rewrite parse_stringify by done.
  unfold health_answer, isMultiplexerHandshakeErrorResponse, isMultiplexerHealthResponse, health_response_json.
  destruct dbg as [d|]; jsimp; cbn [isOptional] in *; rewrite ?Hd; cbn; unfold compareProtocolVersion; cbn [num_ltb num_eqb];
    (destruct (Z.ltb_spec daemon local), (Z.leb_spec local daemon); [lia| | |lia]; by destruct inUse).
Qed.

(** ** A client that registers, asks and is answered *)

Definition demo_client : DaemonClient := new_client None None (JObj []) None 77.

Definition close_params : json := JObj [(js "clientId", jint 3); (js "timeout", jint 9000)].

Definition client_ops : list client_op :=
  [CConnect; CRegister 1; CRegistrationConnects 1 true false 0; CRegistrationMessage 1 register_response_json;
   CRpc closeClient close_params true 5; CRpc closeClient close_params false 6;
   CMessage 1 (response_json None (NInt 1) (inl (JObj []))); CTimer 1; CTransportCloses 1 None].

Lemma client_rpc_settled_once_example :
  let '(es, c) := client_run client_ops demo_client in
  (settlements 1 es + waits_for 1 c = 1)%nat /\ settlements 1 es = 1%nat /\ settlements 2 es = 1%nat.
Proof.
  pose proof (client_rpc_settled_once client_ops None None (JObj []) None 77 1) as H. cbv zeta in H.
  fold demo_client in H. specialize (H ltac:(vm_compute; reflexivity) ltac:(vm_compute; discriminate)).
  destruct (client_run client_ops demo_client) as [es c] eqn:E. destruct H as [H _].
  vm_compute in E. injection E as <- <-. split; [exact H|split; reflexivity].
Defined.

(** The client after its registration. *)
Definition registered_client : DaemonClient := (client_run (take 4 client_ops) demo_client).2.

Lemma rpc_timeout_covers_example :
  mget 1 (dc_timers (sendRpc closeClient close_params true 5 registered_client).2) = Some 10005.
Proof.
  pose proof (rpc_timeout_covers closeClient close_params true 5 registered_client 9000 5000 1) as H.
  destruct (sendRpc closeClient close_params true 5 registered_client) as [[e es] c'].
  destruct H as [_ H]; try (vm_compute; reflexivity); try (vm_compute; discriminate); [vm_compute; split; discriminate|].
  exact H.
Defined.

Lemma client_response_settles_example :
  (client_message 1 (response_json None (NInt 1) (inl (JObj [])))
     (sendRpc closeClient close_params true 5 registered_client).2).1 = [Settle 1 (inl (JObj []))] /\
  (client_message 1 (response_json None (NInt 1) (inr (mkError (js "c") (js "m") None)))
     (sendRpc closeClient close_params true 5 registered_client).2).1 =
    [Settle 1 (inr (mkClientError (Some (js "c")) (js "m")))].
Proof.
  set (c := (sendRpc closeClient close_params true 5 registered_client).2).
  split.
  - pose proof (client_response_settles 1 c 1 (mkPendingRpc closeClient) (inl (JObj [])) None
      ltac:(vm_compute; reflexivity) ltac:(vm_compute; reflexivity) eq_refl) as H.
    destruct (client_message _ _ _) as [es c']. destruct H as [H _]. exact H.
  - pose proof (client_response_settles 1 c 1 (mkPendingRpc closeClient) (inr (mkError (js "c") (js "m") None)) None
      ltac:(vm_compute; reflexivity) ltac:(vm_compute; reflexivity) eq_refl) as H.
    destruct (client_message _ _ _) as [es c']. destruct H as [H _]. exact H.
Defined.

(** A transient daemon error, a refused registration, then success. *)
Definition attempts (i : nat) : attempt :=
  match i with
  | 0%nat => mkAttempt false (Some false) false
  | 1%nat => mkAttempt false (Some true) false
  | _ => mkAttempt false (Some true) true
  end.

Lemma connect_bounded_example :
  connectInternal true attempts demo_client = (Connected, 3%nat, 2%nat) /\ (3 <= MULTIPLEXER_CONNECT_MAX_ATTEMPTS)%nat.
Proof.
  pose proof (connect_bounded attempts demo_client ltac:(discriminate)) as H.
  split; [reflexivity|]. exact (proj1 H).
Defined.

Lemma version_arbitration_example :
  probeHealth (NInt 2) [ProbeConnects true; ProbeMessage (parseJsonValue (stringify (health_response_json 1 true None)));
                        ProbeCloses false; ProbeTimesOut] = Some UpgradeBlocked.
Proof. rewrite version_arbitration; [reflexivity|vm_compute; reflexivity|reflexivity]. Defined.

(** ** What is said of an unknown message *)

Definition UNKNOWN_CONTROL_MESSAGE_PREVIEW_LIMIT : nat := 500.

Definition messagePreview (messageText : jstr) : jstr :=
  if (List.length messageText <=? UNKNOWN_CONTROL_MESSAGE_PREVIEW_LIMIT)%nat then messageText
  else firstn UNKNOWN_CONTROL_MESSAGE_PREVIEW_LIMIT messageText ++ js "...".

(** A property that is undefined is left out of the text. *)
Definition unknown_categories (value : json) : json :=
  JObj (match (Some value)@."kind" with Some (JStr s) => [(js "kind", JStr s)] | _ => [] end ++
        match (Some value)@."event" with Some (JStr s) => [(js "event", JStr s)] | _ => [] end ++
        match (Some value)@."id" with Some (JNum n) => [(js "id", JNum n)] | _ => [] end ++
        [(js "messagePreview", JStr (messagePreview (stringify value)))]).

Definition reportUnknownControlMessage (value : json) : jstr :=
  js "Unknown multiplexer control message: " ++ stringify (unknown_categories value).

(** However long the message, the preview is short, and it begins like it. *)
Lemma preview_bounded value : (List.length (messagePreview (stringify value)) <= 503)%nat /\
  firstn 500 (messagePreview (stringify value)) = firstn 500 (stringify value).
Proof.
  unfold messagePreview, UNKNOWN_CONTROL_MESSAGE_PREVIEW_LIMIT. generalize (stringify value). intros t.
  destruct (Nat.leb_spec (List.length t) 500); [split; [lia|done]|]. assert (List.length (firstn 500 t) = 500)%nat as Hl by (rewrite length_firstn; lia).
  split; [rewrite length_app, Hl; change (List.length (js "...")) with 3%nat; lia|]. rewrite <- Hl at 1. by rewrite take_app_length.
Qed.

Example unknown_message_told :
  reportUnknownControlMessage (JObj [(js "kind", jstring "x"); (js "id", JNum (NInt 3))]) =
    js "Unknown multiplexer control message: " ++ stringify (JObj [(js "kind", jstring "x"); (js "id", JNum (NInt 3));
      (js "messagePreview", JStr (stringify (JObj [(js "kind", jstring "x"); (js "id", JNum (NInt 3))])))]).
Proof. vm_compute. reflexivity. Qed.
