(* ===== verification/ClientRun.v ===== *)
(** * Calls of a connector

    Models [call] of [multiplexer/client/MultiplexerDaemonClient.ts] from the
    request of the user to its end, with the loops of [connectInternal] that run
    in between.  A call connects first, sharing the promise of [connect], or, for
    the shutdown of a daemon, in a loop of its own that may run while another
    waits for the daemon manager.  The loops are split at their [await]s; every
    interleaving of them with responses, timers, lost sockets and [close] is a
    run.  Microtasks are not interleaved: callers go on in the step that settles
    the promise they wait for. *)

From Stdlib Require Import String.
From stdpp Require Import strings sets.
From S2P Require Import JsValue Json Protocol WebSocket Client.

#[local] Arguments mdel : simpl never.
#[local] Arguments mset : simpl never.
#[local] Arguments mget : simpl never.
#[local] Arguments mkeys : simpl never.
#[local] Arguments mvals : simpl never.

(** ** State *)

Record Call := mkCall { cl_id : Z; cl_method : ControlRpcMethod; cl_params : json }.

(** What a loop of [connectInternal] waits for. *)
Inductive loop_point :=
  | LClosing                        (* [closeSocket] of the old transport *)
  | LEnsuring                       (* [ensureDaemon] *)
  | LRegistering (transport : Z)    (* [registerTransport] *)
  | LDelaying.                      (* the delay before the next attempt *)

(** [lp_left] counts the attempts after the current one. *)
Record Loop := mkLoop { lp_ensure : bool; lp_left : nat; lp_point : loop_point; lp_callers : list Call }.

#[export] Instance eta_loop : Eta Loop := fun l => mkLoop (lp_ensure l) (lp_left l) (lp_point l) (lp_callers l).

(** [cs_promises] maps the RPCs that are not settled to their calls. *)
Record Calls := mkCalls {
  cs_client : DaemonClient;
  cs_loops : list (Z * Loop);
  cs_nextLoop : Z;
  cs_nextTransport : Z;
  cs_promises : list (Z * Z)
}.

#[export] Instance eta_calls : Eta Calls := fun s =>
  mkCalls (cs_client s) (cs_loops s) (cs_nextLoop s) (cs_nextTransport s) (cs_promises s).

Definition new_calls (c : DaemonClient) : Calls := mkCalls c [] 0 0 [].

Inductive call_event :=
  | CallEnds (k : Z) (r : json + client_error)
  | AskDaemon (loop : Z)                      (* [ensureDaemon()] *)
  | Told (e : client_event).                  (* what is no settlement *)

(** The clock, what [transport.send] answers for a call, and whether a socket can
    be created. *)
Record Env := mkEnv { en_now : Z; en_sent : Z -> bool; en_opens : bool }.

(** ** Settling *)

(** A promise that is settled stays so: only the first settlement ends a call. *)
Fixpoint settle_calls (es : list client_event) (ps : list (Z * Z)) : list call_event * list (Z * Z) :=
  match es with
  | [] => ([], ps)
  | Settle id r :: es =>
      match mget id ps with
      | Some k => let '(fs, ps) := settle_calls es (mdel id ps) in (CallEnds k r :: fs, ps)
      | None => settle_calls es ps
      end
  | e :: es => let '(fs, ps) := settle_calls es ps in (Told e :: fs, ps)
  end.

(** What the client does and leaves. *)
Definition client_does (r : list client_event * DaemonClient) (s : Calls) : list call_event * Calls :=
  let '(fs, ps) := settle_calls r.1 (cs_promises s) in (fs, s <| cs_client := r.2 |> <| cs_promises := ps |>).

(** [return this.sendRpc(method, params)]. *)
Definition resume_call (env : Env) (k : Call) (s : Calls) : list call_event * Calls :=
  let id := dc_nextRpcId (cs_client s) in
  match sendRpc (cl_method k) (cl_params k) (en_sent env (cl_id k)) (en_now env) (cs_client s) with
  | (Some e, _, c) => ([CallEnds (cl_id k) (inr e)], s <| cs_client := c |>)
  | (None, es, c) => client_does (es, c) (s <| cs_promises ::= mset id (cl_id k) |>)
  end.

Fixpoint resume_calls (env : Env) (ks : list Call) (s : Calls) : list call_event * Calls :=
  match ks with
  | [] => ([], s)
  | k :: ks => let '(e1, s) := resume_call env k s in let '(e2, s) := resume_calls env ks s in (e1 ++ e2, s)
  end.

(** ** The loops of [connectInternal] *)

Definition put_loop (l : Z) (lp : Loop) (s : Calls) : Calls := s <| cs_loops ::= fun ls => ls ++ [(l, lp)] |>.

Definition put_status (st : ClientStatus) (s : Calls) : Calls := s <| cs_client ::= fun c => c <| dc_status := st |> |>.

(** [.finally(() => this.connectPromise = null)] of [connect]. *)
Definition loop_over (lp : Loop) (s : Calls) : Calls :=
  if lp_ensure lp then s <| cs_client ::= fun c => c <| dc_connectPromise := false |> |> else s.

Definition loop_fails (lp : Loop) (e : client_error) (s : Calls) : list call_event * Calls :=
  (List.map (fun k => CallEnds (cl_id k) (inr e)) (lp_callers lp), loop_over lp (put_status cdisconnected s)).

Definition loop_succeeds (env : Env) (lp : Loop) (s : Calls) : list call_event * Calls := resume_calls env (lp_callers lp) (loop_over lp s).

Definition gave_up : client_error := plain_error (js "Failed to connect to multiplexer daemon after multiple attempts").
Definition replacing : client_error := plain_error (js "Replacing multiplexer control socket").

(** [registerTransport], called in a [try]: a closed client and a socket that
    cannot be created lead to the delay. *)
Definition loop_registers (env : Env) (l : Z) (lp : Loop) (s : Calls) : list call_event * Calls :=
  if dc_closed (cs_client s) then ([], put_loop l (lp <| lp_point := LDelaying |>) s)
  else if negb (en_opens env) then ([], put_loop l (lp <| lp_point := LDelaying |>) (put_status cdisconnected s))
  else
    let t := cs_nextTransport s in
    ([], put_loop l (lp <| lp_point := LRegistering t |>)
           (s <| cs_nextTransport ::= Z.succ |> <| cs_client := (registerTransport t (cs_client s)).2 |>)).

(** An attempt after the old transport is closed. *)
Definition attempt_goes_on (env : Env) (l : Z) (lp : Loop) (s : Calls) : list call_event * Calls :=
  if dc_closed (cs_client s) then loop_fails lp client_closed s
  else
    let s := put_status cconnecting s in
    if lp_ensure lp then ([AskDaemon l], put_loop l (lp <| lp_point := LEnsuring |>) s) else loop_registers env l lp s.

Definition attempt_begins (env : Env) (l : Z) (lp : Loop) (s : Calls) : list call_event * Calls :=
  match lp_left lp with
  | O => loop_fails lp gave_up s
  | S n =>
      let lp := lp <| lp_left := n |> in
      match dc_controlTransport (cs_client s) with
      | Some _ =>
          let '(es, s) := client_does (closeSocket replacing (cs_client s)) s in
          (es, put_loop l (lp <| lp_point := LClosing |>) s)
      | None => attempt_goes_on env l lp s
      end
  end.

(** [connectInternal], for a client that is not connected. *)
Definition loop_starts (env : Env) (ensure : bool) (k : Call) (s : Calls) : list call_event * Calls :=
  let l := cs_nextLoop s in
  attempt_begins env l (mkLoop ensure MULTIPLEXER_CONNECT_MAX_ATTEMPTS LDelaying [k]) (s <| cs_nextLoop ::= Z.succ |>).

(** ** [call] *)

(** Joins the loop behind the promise of [connect]. *)
Fixpoint share_loop (k : Call) (ls : list (Z * Loop)) : list (Z * Loop) :=
  match ls with
  | [] => []
  | (l, lp) :: ls => if lp_ensure lp then (l, lp <| lp_callers ::= fun ks => ks ++ [k] |>) :: ls else (l, lp) :: share_loop k ls
  end.

Definition call (env : Env) (k : Call) (ensureDaemon : bool) (s : Calls) : list call_event * Calls :=
  match assertValidRpcParams (cl_method k) (cl_params k) with
  | Some e => ([CallEnds (cl_id k) (inr e)], s)
  | None =>
      if ensureDaemon then
        match connect (cs_client s) with
        | (ConnectReady, c) => resume_call env k (s <| cs_client := c |>)
        | (ConnectShares, c) => ([], s <| cs_client := c |> <| cs_loops ::= share_loop k |>)
        | (ConnectThrows e, c) => ([CallEnds (cl_id k) (inr e)], s <| cs_client := c |>)
        | (ConnectStarts, c) => loop_starts env true k (s <| cs_client := c |>)
        end
      else if bool_decide (dc_status (cs_client s) = cconnected) then resume_call env k s
      else loop_starts env false k s
  end.

(** ** Steps *)

(** The loop [l], at the point [p], and the state without it. *)
Definition at_point (l : Z) (p : loop_point -> bool) (s : Calls) : option (Loop * Calls) :=
  match mget l (cs_loops s) with
  | Some lp => if p (lp_point lp) then Some (lp, s <| cs_loops ::= mdel l |>) else None
  | None => None
  end.

Definition registers_at (t : Z) (p : loop_point) : bool := match p with LRegistering t' => t' =? t | _ => false end.

Definition registering (t : Z) (s : Calls) : option Z :=
  fst <$> List.find (fun p => registers_at t (lp_point p.2)) (cs_loops s).

(** A registration has ended: the loop behind it goes on. *)
Definition registration_over (env : Env) (t : Z) (success : bool) (s : Calls) : list call_event * Calls :=
  match registering t s with
  | Some l =>
      match at_point l (registers_at t) s with
      | Some (lp, s) => if success then loop_succeeds env lp s else ([], put_loop l (lp <| lp_point := LDelaying |>) s)
      | None => ([], s)
      end
  | None => ([], s)
  end.

Definition is_registered (v : json) : bool :=
  negb (isMultiplexerHandshakeErrorResponse (Some v)) && isMultiplexerRegisterResponse (Some v).

Inductive calls_op :=
  | OCall (k : Call) (ensureDaemon : bool)
  | ODaemon (l : Z) (answer : bool + client_error)     (* [ensureDaemon] *)
  | OEnded (l : Z)                                     (* [transport.end()] *)
  | ODelay (l : Z)
  | OConnects (t : Z) (sent transportClosed : bool)
  | OMessage (t : Z) (v : json)
  | ORegisterTimeout (t : Z)
  | OTransportCloses (t : Z) (e : option client_error)
  | OTimer (rpc : Z)
  | OClose.

Definition chain (r : list call_event * Calls) (f : Calls -> list call_event * Calls) : list call_event * Calls :=
  let '(e1, s) := r in let '(e2, s) := f s in (e1 ++ e2, s).

Definition calls_step (env : Env) (op : calls_op) (s : Calls) : list call_event * Calls :=
  match op with
  | OCall k ensure => call env k ensure s
  | ODaemon l answer =>
      match at_point l (fun p => match p with LEnsuring => true | _ => false end) s with
      | None => ([], s)
      | Some (lp, s) =>
          match answer with
          | inr e => loop_fails lp e s
          | inl false => attempt_begins env l lp s
          | inl true => loop_registers env l lp s
          end
      end
  | OEnded l =>
      match at_point l (fun p => match p with LClosing => true | _ => false end) s with
      | None => ([], s)
      | Some (lp, s) => attempt_goes_on env l lp s
      end
  | ODelay l =>
      match at_point l (fun p => match p with LDelaying => true | _ => false end) s with
      | None => ([], s)
      | Some (lp, s) => attempt_begins env l lp s
      end
  | OConnects t sent closed =>
      let fails := shas t (dc_handshakes (cs_client s)) && negb sent && negb closed in
      chain (client_does (registration_connects t sent closed (en_now env) (cs_client s)) s)
            (fun s => if fails then registration_over env t false s else ([], s))
  | OMessage t v =>
      if shas t (dc_handshakes (cs_client s))
      then chain (client_does (registration_message t v (cs_client s)) s) (registration_over env t (is_registered v))
      else client_does (client_message t v (cs_client s)) s
  | ORegisterTimeout t =>
      if shas t (dc_handshakes (cs_client s))
      then chain (client_does (registration_fails t (cs_client s)) s) (registration_over env t false)
      else ([], s)
  | OTransportCloses t e =>
      if shas t (dc_handshakes (cs_client s))
      then chain (client_does (registration_fails t (cs_client s)) s) (registration_over env t false)
      else client_does (client_transport_closes t e (cs_client s)) s
  | OTimer id => client_does (rpc_timer_fires id (cs_client s)) s
  | OClose => client_does (client_close (cs_client s)) s
  end.

Fixpoint calls_run (ops : list (Env * calls_op)) (s : Calls) : list call_event * Calls :=
  match ops with
  | [] => ([], s)
  | (env, op) :: ops => let '(e1, s) := calls_step env op s in let '(e2, s) := calls_run ops s in (e1 ++ e2, s)
  end.

(** ** Accounting *)

Definition count (k : Z) (l : list Z) : nat := count_occ Z.eq_dec l k.

(** The calls that wait in loops. *)
Definition loop_calls (ls : list (Z * Loop)) : list Z := List.concat (List.map (fun p => List.map cl_id (lp_callers p.2)) ls).

Definition ended (es : list call_event) : list Z :=
  List.concat (List.map (fun e => match e with CallEnds k _ => [k] | _ => [] end) es).

(** The calls that are under way. *)
Definition under_way (s : Calls) : list Z := loop_calls (cs_loops s) ++ mvals (cs_promises s).

Definition made (ops : list (Env * calls_op)) : list Z :=
  List.concat (List.map (fun p => match p.2 with OCall k _ => [cl_id k] | _ => [] end) ops).

#[local] Arguments count : simpl never.
#[local] Arguments loop_calls : simpl never.
#[local] Arguments ended : simpl never.

Lemma count_app k a b : count k (a ++ b) = (count k a + count k b)%nat.
Proof. apply count_occ_app. Qed.

Lemma count_nil k : count k [] = 0%nat.
Proof. done. Qed.

Lemma count_cons k x l : count k (x :: l) = (count k [x] + count k l)%nat.
Proof. apply (count_app k [x]). Qed.

(** Sums of counts. *)
Ltac counts := rewrite ?count_app, ?count_nil in *; lia.

Lemma ended_app a b : ended (a ++ b) = ended a ++ ended b.
Proof. unfold ended. by rewrite List.map_app, List.concat_app. Qed.

Lemma loop_calls_app a b : loop_calls (a ++ b) = loop_calls a ++ loop_calls b.
Proof. unfold loop_calls. by rewrite List.map_app, List.concat_app. Qed.

(** Taking an entry out of a map. *)
Lemma mget_perm {A} k (v : A) (m : list (Z * A)) : NoDup (mkeys m) -> mget k m = Some v -> m ≡ₚ (k, v) :: mdel k m.
Proof.
  unfold mkeys. induction m as [|[k' v'] m IH]; intros Hn Hk; [done|]. cbn in Hn. apply list.NoDup_cons in Hn as [Hnk Hn].
  unfold mget in Hk; fold (mget k m) in Hk. unfold mdel. rewrite filter_cons. cbn. destruct (decide (k = k')) as [->|Hne].
  - injection Hk as ->. destruct (decide (~ _)) as [?|_]; [done|]. f_equiv. fold (mdel k' m). by rewrite mdel_absent.
  - rewrite decide_True by congruence. rewrite (IH Hn Hk) at 1. apply perm_swap.
Qed.

#[export] Instance count_perm k : Proper ((≡ₚ) ==> eq) (count k).
Proof. intros a b H. unfold count. by apply Permutation_count_occ. Qed.

Lemma loop_taken k l lp ls : NoDup (mkeys ls) -> mget l ls = Some lp ->
  count k (loop_calls ls) = (count k (List.map cl_id (lp_callers lp)) + count k (loop_calls (mdel l ls)))%nat.
Proof.
  intros Hn Hl. rewrite <- count_app. apply count_perm. unfold loop_calls. rewrite <- !flat_map_concat_map.
  by rewrite (Permutation_flat_map _ (mget_perm l lp ls Hn Hl)).
Qed.

Lemma promise_taken k (id x : Z) ps : NoDup (mkeys ps) -> mget id ps = Some x ->
  count k (mvals ps) = (count k [x] + count k (mvals (mdel id ps)))%nat.
Proof. intros Hn Hx. rewrite <- count_app. apply count_perm. unfold mvals. by rewrite (mget_perm id x ps Hn Hx) at 1. Qed.

(** ** What the client settles *)

(** The RPCs of the client stay in order, and those it settles are those that
    leave its table. *)
Record settles_right (c : DaemonClient) (r : list client_event * DaemonClient) : Prop := {
  sr_rpcs : rpcs_wf r.2;
  sr_next : dc_nextRpcId r.2 = dc_nextRpcId c;
  sr_gone : forall id, is_Some (mget id (dc_pendingRpc c)) -> settlements id r.1 = 0%nat -> is_Some (mget id (dc_pendingRpc r.2));
  sr_share : dc_connectPromise r.2 = true -> dc_connectPromise c = true
}.

Lemma fine_settles c r : rpcs_wf c -> client_fine c r -> dc_nextRpcId r.2 = dc_nextRpcId c ->
  (dc_connectPromise r.2 = true -> dc_connectPromise c = true) -> settles_right c r.
Proof.
  intros Hw Hf Hn Hp. split; [by apply fine_wf with c|done| |done]. intros id Hid Hs. pose proof (cf_count _ _ Hf id) as Hc.
  unfold waits_for, given_out in Hc. rewrite Hs, Hn in Hc. apply mhas_true. apply mhas_true in Hid. rewrite Hid in Hc.
  by destruct (mhas id (dc_pendingRpc r.2)); [|lia].
Qed.

Lemma kept_settles c c' es : rpcs_wf c -> rpcs_kept c c' -> (forall id, settlements id es = 0%nat) ->
  dc_connectPromise c' = dc_connectPromise c -> settles_right c (es, c').
Proof. intros Hw Hk Hs Hp. apply fine_settles; [done|by apply kept_fine|apply Hk|cbn; congruence]. Qed.

Lemma drop_all_promise ids : forall c, dc_connectPromise (fold_left (fun c id => drop_rpc id c) ids c) = dc_connectPromise c.
Proof. induction ids as [|id ids IH]; intros c; cbn; [done|by rewrite IH]. Qed.

Lemma drop_settles c id r : rpcs_wf c -> is_Some (mget id (dc_pendingRpc c)) -> settles_right c ([Settle id r], drop_rpc id c).
Proof. intros Hw Hp. by apply fine_settles; [|apply settle_fine| |]. Qed.

Lemma closeSocket_settles e c : rpcs_wf c -> settles_right c (closeSocket e c).
Proof.
  intros Hw. unfold closeSocket. set (c1 := _ <| dc_unsubscribe := None |>).
  assert (Hw1 : rpcs_wf c1) by (destruct Hw; by split).
  pose proof (rejectAll_spec e c1 Hw1) as Hr. destruct (rejectAllPendingRpc e c1) as [es c2] eqn:E.
  destruct Hr as (Hf & Hnone & _). assert (Hn : dc_nextRpcId c2 = dc_nextRpcId c /\ dc_connectPromise c2 = dc_connectPromise c).
  { unfold rejectAllPendingRpc in E. injection E as _ <-. split; [|exact (drop_all_promise _ c1)].
    destruct (drop_all (mkeys (dc_pendingRpc c1)) c1) as (_ & _ & Hd & _). exact Hd. }
  destruct Hn as [Hn Hp]. assert (H : settles_right c (es, c2)) by (apply fine_settles; [done|by destruct Hf; split|done|cbn; congruence]).
  destruct (dc_controlTransport c); [|exact H]. destruct H as [H1 H2 H3 H4]. split; [done|done| |done]. cbn [fst snd] in *.
  intros id Hid Hs. apply H3; [done|]. unfold settlements in *. rewrite List.filter_app, length_app in Hs. lia.
Qed.

Lemma transport_closes_settles t e c : rpcs_wf c -> settles_right c (client_transport_closes t e c).
Proof.
  intros Hw. unfold client_transport_closes. destruct (shas _ _); cbn [negb]; [|by apply kept_settles].
  assert (H : settles_right (c <| dc_listening ::= sdel t |>) (closeSocket (default (plain_error (js "Multiplexer control socket closed")) e) (c <| dc_listening ::= sdel t |>)))
    by (apply closeSocket_settles; destruct Hw; by split).
  by destruct H; split.
Qed.

Lemma close_settles c : rpcs_wf c -> settles_right c (client_close c).
Proof.
  intros Hw. unfold client_close. set (c1 := c <| dc_closed := true |> <| dc_connectPromise := false |>).
  assert (H : settles_right c1 (closeSocket client_closed c1)) by (apply closeSocket_settles; destruct Hw; by split).
  destruct H as [H1 H2 H3 H4]. split; [done..|]. by intros ?%H4.
Qed.

Lemma response_settles v c : rpcs_wf c -> settles_right c (handleRpcResponse v c).
Proof.
  intros Hw. unfold handleRpcResponse. destruct (match (Some v)@."id" with Some (JNum n) => num_key n | _ => None end) as [id|]; [|by apply kept_settles].
  destruct (mget id (dc_pendingRpc c)) as [p|] eqn:E; [|by apply kept_settles].
  destruct (negb _); [|destruct (truthy _)]; by apply drop_settles; [|rewrite E].
Qed.

Lemma message_settles t v c : rpcs_wf c -> settles_right c (client_message t v c).
Proof.
  intros Hw. unfold client_message. destruct (negb _); [by apply kept_settles|].
  destruct (isControlRpcResponse _ _); [by apply response_settles|]. destruct (isControlEvent _); by apply kept_settles.
Qed.

Lemma timer_settles id c : rpcs_wf c -> settles_right c (rpc_timer_fires id c).
Proof.
  intros Hw. unfold rpc_timer_fires. destruct (mget id (dc_timers c)) eqn:Et; [|by apply kept_settles].
  assert (is_Some (mget id (dc_pendingRpc c))) as [p Hp] by (apply (rp_timers _ Hw); by rewrite Et).
  rewrite Hp. by apply drop_settles; [|rewrite Hp].
Qed.

Lemma registration_fails_settles t c : rpcs_wf c -> settles_right c (registration_fails t c).
Proof.
  intros Hw. unfold registration_fails. destruct (negb _); [by apply kept_settles|]. apply kept_settles; [done| |done|]; by case_bool_decide.
Qed.

Lemma registration_connects_settles t sent closed now c : rpcs_wf c -> settles_right c (registration_connects t sent closed now c).
Proof.
  intros Hw. unfold registration_connects. destruct (negb _); [by apply kept_settles|]. destruct sent; [by apply kept_settles|].
  destruct closed; [by apply kept_settles|by apply registration_fails_settles].
Qed.

Lemma registration_message_settles t v c : rpcs_wf c -> settles_right c (registration_message t v c).
Proof.
  intros Hw. unfold registration_message. destruct (negb _); [by apply kept_settles|].
  destruct (isMultiplexerHandshakeErrorResponse _); [by apply registration_fails_settles|].
  destruct (negb _); [by apply registration_fails_settles|by apply kept_settles].
Qed.

Create HintDb settles.
#[local] Hint Resolve closeSocket_settles transport_closes_settles close_settles message_settles timer_settles : settles.
#[local] Hint Resolve registration_fails_settles registration_connects_settles registration_message_settles : settles.

(** [sendRpc] after which the call waits, has failed, or was refused. *)
Lemma sendRpc_settles m params sent now c : rpcs_wf c -> dc_nextRpcId c <= MAX_SAFE ->
  match sendRpc m params sent now c with
  | (Some _, _, c') => c' = c
  | (None, es, c') =>
      rpcs_wf c' /\ dc_nextRpcId c' = dc_nextRpcId c + 1 /\ dc_connectPromise c' = dc_connectPromise c /\
      mget (dc_nextRpcId c) (dc_pendingRpc c) = None /\
      forall id, id = dc_nextRpcId c \/ is_Some (mget id (dc_pendingRpc c)) -> settlements id es = 0%nat -> is_Some (mget id (dc_pendingRpc c'))
  end.
Proof.
  intros Hw Hn. pose proof Hw as [W1 W2 W3 W4]. unfold sendRpc. destruct (dc_closed c); [done|]. destruct (negb _); [done|].
  set (id := dc_nextRpcId c). set (c1 := _ <| dc_pendingRpc ::= mset id (mkPendingRpc m) |>).
  assert (Hfresh : mget id (dc_pendingRpc c) = None).
  { destruct (mget id (dc_pendingRpc c)) eqn:E; [|done]. destruct (W3 id ltac:(by rewrite E)). unfold id in *. lia. }
  assert (Hn1 : dc_nextRpcId c1 = id + 1) by (cbn; by apply js_succ_safe).
  assert (Hp1 : forall i, mget i (dc_pendingRpc c1) = if decide (i = id) then Some (mkPendingRpc m) else mget i (dc_pendingRpc c))
    by (intros i; apply mget_mset).
  assert (Hw1 : rpcs_wf c1).
  { split.
    - by apply NoDup_mset.
    - intros i. rewrite Hp1. unfold c1. cbn [dc_timers set_field eta eta_daemon_client]. rewrite mget_mset. case_decide; [by split|apply W2].
    - intros i. rewrite Hp1, Hn1. case_decide; [intros _; unfold id in *; lia|]. intros Hi. specialize (W3 _ Hi). unfold id in *. lia.
    - rewrite Hn1. unfold id. lia. }
  assert (Hhas : forall i, i = id \/ is_Some (mget i (dc_pendingRpc c)) -> is_Some (mget i (dc_pendingRpc c1))).
  { intros i. rewrite Hp1. case_decide; [done|]. by intros [?|?]. }
  assert (Hdone : forall es : list client_event, rpcs_wf c1 /\ dc_nextRpcId c1 = id + 1 /\ dc_connectPromise c1 = dc_connectPromise c /\
    mget id (dc_pendingRpc c) = None /\
    forall i, i = id \/ is_Some (mget i (dc_pendingRpc c)) -> settlements i es = 0%nat -> is_Some (mget i (dc_pendingRpc c1)))
    by (intros es; split; [exact Hw1|split; [exact Hn1|split; [done|split; [exact Hfresh|intros i Hi _; by apply Hhas]]]]).
  destruct (dc_controlTransport c1); [destruct sent|]; [apply Hdone| |apply Hdone].
  rewrite (Hp1 id), decide_True by done. destruct (drop_settles c1 id (inr (rpc_not_sent m)) Hw1) as [D1 D2 D3 D4]; [by rewrite Hp1, decide_True|].
  split; [done|]. split; [etransitivity; [exact D2|done]|]. split; [done|]. split; [done|]. intros i Hi Hs. apply D3; [by apply Hhas|done].
Qed.

(** ** The invariant

    [held] are the calls of a loop that is being moved, which is that of
    [connect] when [shared] is set. *)
Record calls_ok (n : Z) (held : list Call) (shared : bool) (s : Calls) : Prop := mkCallsOk {
  ok_rpcs : rpcs_wf (cs_client s);
  ok_loops : NoDup (mkeys (cs_loops s));
  ok_loopIds : forall l, l ∈ mkeys (cs_loops s) -> l < cs_nextLoop s;
  ok_promises : NoDup (mkeys (cs_promises s));
  ok_waits : forall id, id ∈ mkeys (cs_promises s) -> is_Some (mget id (dc_pendingRpc (cs_client s)));
  ok_share : dc_connectPromise (cs_client s) = true -> shared = true \/ exists p, p ∈ cs_loops s /\ lp_ensure p.2 = true;
  ok_bound : dc_nextRpcId (cs_client s) + Z.of_nat (List.length (loop_calls (cs_loops s)) + List.length held) <= n
}.

(** The calls held before are under way or have ended after. *)
Definition accounted (held : list Call) (s : Calls) (r : list call_event * Calls) : Prop :=
  forall k, (count k (ended r.1) + count k (under_way r.2) = count k (List.map cl_id held) + count k (under_way s))%nat.

Definition well (n : Z) (held : list Call) (s : Calls) (r : list call_event * Calls) : Prop :=
  calls_ok n [] false r.2 /\ accounted held s r.

Lemma settle_calls_spec es : forall ps, NoDup (mkeys ps) ->
  let '(fs, ps') := settle_calls es ps in
  NoDup (mkeys ps') /\ (forall k, (count k (ended fs) + count k (mvals ps') = count k (mvals ps))%nat) /\
  forall id, id ∈ mkeys ps' -> id ∈ mkeys ps /\ settlements id es = 0%nat.
Proof.
  induction es as [|e es IH]; intros ps Hn; cbn [settle_calls]; [done|].
  assert (Hother : (forall id, settles_rpc id e = false) ->
    let '(fs, ps') := settle_calls es ps in
    NoDup (mkeys ps') /\ (forall k, (count k (ended (Told e :: fs)) + count k (mvals ps') = count k (mvals ps))%nat) /\
    forall id, id ∈ mkeys ps' -> id ∈ mkeys ps /\ settlements id (e :: es) = 0%nat).
  { intros He. specialize (IH ps Hn). destruct (settle_calls es ps) as [fs ps']. destruct IH as (H1 & H2 & H3). split; [done|]. split; [done|].
    intros id Hid. destruct (H3 id Hid). split; [done|]. unfold settlements in *. cbn [List.filter]. by rewrite He. }
  destruct e as [id r|t v|t|t| | |v|]; try (specialize (Hother (fun _ => eq_refl)); by destruct (settle_calls es ps) as [fs ps']).
  clear Hother. destruct (mget id ps) as [k|] eqn:Hk.
  - specialize (IH (mdel id ps) (NoDup_mdel _ _ Hn)). destruct (settle_calls es (mdel id ps)) as [fs ps']. destruct IH as (H1 & H2 & H3).
    split; [done|]. split.
    + intros x. rewrite (promise_taken x id k ps Hn Hk), <- H2. unfold ended. cbn [List.map List.concat]. rewrite count_app. lia.
    + intros i Hi. destruct (H3 i Hi) as [Hin Hs]. rewrite mkeys_mdel, list_elem_of_filter in Hin. destruct Hin as [Hne Hin]. split; [done|].
      unfold settlements in *. cbn [List.filter settles_rpc]. destruct (Z.eqb_spec id i); [congruence|done].
  - specialize (IH ps Hn). destruct (settle_calls es ps) as [fs ps']. destruct IH as (H1 & H2 & H3). split; [done|]. split; [done|].
    intros i Hi. destruct (H3 i Hi) as [Hin Hs]. split; [done|]. unfold settlements in *. cbn [List.filter settles_rpc].
    destruct (Z.eqb_spec id i) as [->|]; [|done]. apply mget_None_keys in Hk. done.
Qed.

(** ** What every part of a step keeps *)

Lemma client_does_ok n held sh r s : settles_right (cs_client s) r -> calls_ok n held sh s ->
  calls_ok n held sh (client_does r s).2 /\ accounted [] s (client_does r s) /\
  cs_loops (client_does r s).2 = cs_loops s /\ cs_nextLoop (client_does r s).2 = cs_nextLoop s /\ cs_client (client_does r s).2 = r.2.
Proof.
  intros [S1 S2 S3 S4] [O1 O2 O3 O4 O5 O6 O7]. unfold client_does. pose proof (settle_calls_spec r.1 (cs_promises s) O4) as H.
  destruct (settle_calls r.1 (cs_promises s)) as [fs ps]. destruct H as (H1 & H2 & H3). split; [|split; [|done]].
  - split; cbn; try done.
    + intros id Hid. destruct (H3 id Hid) as [Hin Hs]. apply S3; [by apply O5|done].
    + intros Hp. by apply O6, S4.
    + by rewrite S2.
  - intros k. unfold under_way. cbn. rewrite !count_app, <- (H2 k). counts.
Qed.

Lemma resume_call_ok n held sh env k s : calls_ok n (k :: held) sh s -> n <= MAX_SAFE + 1 ->
  calls_ok n held sh (resume_call env k s).2 /\ accounted [k] s (resume_call env k s).
Proof.
  intros [O1 O2 O3 O4 O5 O6 O7] Hmax. unfold resume_call. cbn [List.length] in O7.
  pose proof (sendRpc_settles (cl_method k) (cl_params k) (en_sent env (cl_id k)) (en_now env) (cs_client s) O1 ltac:(lia)) as H.
  destruct (sendRpc _ _ _ _ _) as [[[e|] es] c].
  - subst c. split; [split; cbn; try done; lia|]. intros x. unfold under_way. cbn. change (ended _) with [cl_id k]. done.
  - destruct H as (S1 & S2 & S3 & S4 & S5).
    assert (Hnew : dc_nextRpcId (cs_client s) ∉ mkeys (cs_promises s)) by (intros Hin; destruct (O5 _ Hin); congruence).
    unfold client_does. cbn [fst snd cs_promises].
    pose proof (settle_calls_spec es (mset (dc_nextRpcId (cs_client s)) (cl_id k) (cs_promises s)) (NoDup_mset _ _ _ O4)) as H.
    cbn [set_field eta eta_calls cs_promises]. destruct (settle_calls es _) as [fs ps]. destruct H as (H1 & H2 & H3). split.
    + split; cbn; try done.
      * intros id Hid. destruct (H3 id Hid) as [Hin Hs]. apply S5; [|done]. rewrite mset_fresh in Hin by done.
        unfold mkeys in Hin. rewrite fmap_app, elem_of_app in Hin. destruct Hin as [Hin|Hin]; [right; by apply O5|left].
        by apply list_elem_of_singleton in Hin.
      * by rewrite S3.
      * rewrite S2. lia.
    + intros x. specialize (H2 x). rewrite mset_fresh in H2 by done. unfold under_way, mvals in *. cbn. rewrite fmap_app in H2. cbn in H2. counts.
Qed.

Lemma resume_calls_ok n env ks : forall held sh s, calls_ok n (ks ++ held) sh s -> n <= MAX_SAFE + 1 ->
  calls_ok n held sh (resume_calls env ks s).2 /\ accounted ks s (resume_calls env ks s).
Proof.
  induction ks as [|k ks IH]; intros held sh s Hok Hmax; cbn [resume_calls]; [by split|].
  destruct (resume_call_ok n (ks ++ held) sh env k s Hok Hmax) as [Hok1 Ha1]. destruct (resume_call env k s) as [e1 s1].
  destruct (IH held sh s1 Hok1 Hmax) as [Hok2 Ha2]. destruct (resume_calls env ks s1) as [e2 s2]. split; [done|].
  intros x. specialize (Ha1 x). specialize (Ha2 x). cbn [fst snd] in *. rewrite ended_app. cbn [List.map] in *.
  rewrite (count_cons x (cl_id k) (List.map cl_id ks)). counts.
Qed.

(** A loop in hand is put back. *)
Lemma put_loop_well n held l lp s : calls_ok n held (lp_ensure lp) s -> l ∉ mkeys (cs_loops s) -> l < cs_nextLoop s -> lp_callers lp = held ->
  well n held s ([], put_loop l lp s).
Proof.
  intros [O1 O2 O3 O4 O5 O6 O7] Hl Hlt <-. split.
  - split; cbn; try done.
    + unfold mkeys. rewrite fmap_app. apply list.NoDup_app. split; [done|]. split; [|apply NoDup_singleton].
      intros x Hx Hs. by apply list_elem_of_singleton in Hs as ->.
    + intros l'. unfold mkeys. rewrite fmap_app, elem_of_app. intros [H|H]; [by apply O3|]. by apply list_elem_of_singleton in H as ->.
    + intros Hp. right. destruct (O6 Hp) as [He|(p & Hin & He)]; [exists (l, lp)|exists p]; split; try done; apply elem_of_app; [right; by left|by left].
    + rewrite loop_calls_app, length_app. unfold loop_calls at 2. cbn. rewrite app_nil_r, length_map. lia.
  - intros k. unfold under_way. cbn. rewrite loop_calls_app. unfold loop_calls at 2. cbn. rewrite app_nil_r. change (ended []) with (@nil Z). counts.
Qed.

(** Only the status of the client changes. *)
Lemma put_status_ok n held sh st s : calls_ok n held sh s -> calls_ok n held sh (put_status st s).
Proof. intros [O1 O2 O3 O4 O5 O6 O7]. split; try done. by destruct O1. Qed.

Lemma loop_over_ok n held lp s : calls_ok n held (lp_ensure lp) s -> calls_ok n held false (loop_over lp s).
Proof.
  intros [O1 O2 O3 O4 O5 O6 O7]. unfold loop_over. destruct (lp_ensure lp); [|by split]. split; cbn; try done. by destruct O1.
Qed.

Lemma under_way_loop_over lp s : under_way (loop_over lp s) = under_way s.
Proof. unfold loop_over. by destruct (lp_ensure lp). Qed.

Lemma ended_map ks (e : client_error) : ended (List.map (fun k => CallEnds (cl_id k) (inr e)) ks) = List.map cl_id ks.
Proof. unfold ended. induction ks as [|k ks IH]; cbn; [done|by rewrite IH]. Qed.

Lemma loop_fails_well n held lp e s : calls_ok n held (lp_ensure lp) s -> lp_callers lp = held -> well n held s (loop_fails lp e s).
Proof.
  intros Hok <-. split.
  - apply (put_status_ok _ _ _ cdisconnected) in Hok. apply loop_over_ok in Hok. destruct Hok. split; try done. cbn in *. lia.
  - intros k. cbn [loop_fails fst snd]. rewrite ended_map, under_way_loop_over. unfold under_way, put_status. cbn. done.
Qed.

Lemma loop_succeeds_well n env lp s : calls_ok n (lp_callers lp) (lp_ensure lp) s -> n <= MAX_SAFE + 1 ->
  well n (lp_callers lp) s (loop_succeeds env lp s).
Proof.
  intros Hok Hmax. apply loop_over_ok in Hok. rewrite <- (app_nil_r (lp_callers lp)) in Hok at 1.
  destruct (resume_calls_ok n env (lp_callers lp) [] false _ Hok Hmax) as [H1 H2]. split; [done|].
  intros k. specialize (H2 k). by rewrite under_way_loop_over in H2.
Qed.

(** ** A loop in hand *)

Record in_hand (n : Z) (l : Z) (lp : Loop) (s : Calls) : Prop := {
  ih_ok : calls_ok n (lp_callers lp) (lp_ensure lp) s;
  ih_out : l ∉ mkeys (cs_loops s);
  ih_id : l < cs_nextLoop s
}.

Lemma in_hand_put n l lp lp' s : in_hand n l lp s -> lp_callers lp' = lp_callers lp -> lp_ensure lp' = lp_ensure lp ->
  well n (lp_callers lp) s ([], put_loop l lp' s).
Proof. intros [H1 H2 H3] Hc He. apply put_loop_well; [by rewrite He|done|done|done]. Qed.

Lemma in_hand_status n l lp st s : in_hand n l lp s -> in_hand n l lp (put_status st s).
Proof. intros [H1 H2 H3]. split; [by apply put_status_ok|done|done]. Qed.

Lemma in_hand_point n l lp m s : in_hand n l lp s -> in_hand n l (lp <| lp_left := m |>) s.
Proof. intros [H1 H2 H3]. by split. Qed.

(** What comes before does not matter for the account. *)
Lemma well_from n held s s' r : under_way s' = under_way s -> well n held s' r -> well n held s r.
Proof. intros Hu [H1 H2]. split; [done|]. intros k. by rewrite <- Hu. Qed.

Lemma registers_well n env l lp s : in_hand n l lp s -> well n (lp_callers lp) s (loop_registers env l lp s).
Proof.
  intros Hih. unfold loop_registers. destruct (dc_closed (cs_client s)) eqn:Hc; [by apply in_hand_put|]. destruct (negb _).
  - eapply well_from; [|by apply in_hand_put; [apply in_hand_status, Hih|..]]. done.
  - unfold registerTransport. rewrite Hc. eapply well_from; [|apply in_hand_put; [|done|done]]; [done|].
    destruct Hih as [[O1 O2 O3 O4 O5 O6 O7] H2 H3]. split; [|done|done]. split; cbn; try done. by destruct O1.
Qed.

Lemma goes_on_well n env l lp s : in_hand n l lp s -> well n (lp_callers lp) s (attempt_goes_on env l lp s).
Proof.
  intros Hih. unfold attempt_goes_on. destruct (dc_closed (cs_client s)); [apply loop_fails_well; [apply Hih|done]|].
  destruct (lp_ensure lp) eqn:He.
  - destruct (in_hand_put n l lp (lp <| lp_point := LEnsuring |>) (put_status cconnecting s)) as [H1 H2]; [by apply in_hand_status|done|done|by split].
  - eapply well_from; [|apply registers_well; by apply in_hand_status]. done.
Qed.

Lemma begins_well n env l lp s : in_hand n l lp s -> well n (lp_callers lp) s (attempt_begins env l lp s).
Proof.
  intros Hih. unfold attempt_begins. destruct (lp_left lp) as [|m]; [apply loop_fails_well; [apply Hih|done]|].
  apply (in_hand_point _ _ _ m) in Hih. change (lp_callers lp) with (lp_callers (lp <| lp_left := m |>)).
  destruct (dc_controlTransport (cs_client s)); [|by apply goes_on_well].
  destruct Hih as [H1 H2 H3].
  destruct (client_does_ok n _ _ (closeSocket replacing (cs_client s)) s (closeSocket_settles _ _ (ok_rpcs _ _ _ _ H1)) H1) as (Hok & Ha & Hl & Hn & _).
  destruct (client_does _ s) as [es s1]. cbn [fst snd] in *.
  destruct (in_hand_put n l (lp <| lp_left := m |>) (lp <| lp_left := m |> <| lp_point := LClosing |>) s1) as [G1 G2];
    [by split; rewrite ?Hl, ?Hn|done|done|]. split; [done|].
  intros k. specialize (Ha k). specialize (G2 k). cbn [fst snd] in *. change (ended []) with (@nil Z) in G2. cbn in *. counts.
Qed.

Lemma starts_well n env ensure k s sh : calls_ok n [k] sh s -> sh = false \/ ensure = true -> well n [k] s (loop_starts env ensure k s).
Proof.
  intros [O1 O2 O3 O4 O5 O6 O7] Hsh. unfold loop_starts. set (lp := mkLoop ensure MULTIPLEXER_CONNECT_MAX_ATTEMPTS LDelaying [k]).
  eapply (well_from n [k] s (s <| cs_nextLoop ::= Z.succ |>)); [done|]. apply (begins_well n env (cs_nextLoop s) lp). split; [split|..]; cbn; try done.
  - intros l Hl. specialize (O3 l Hl). lia.
  - intros Hp. destruct (O6 Hp) as [->|?]; [|by right]. left. by destruct Hsh.
  - intros Hin. specialize (O3 _ Hin). lia.
  - lia.
Qed.

Lemma at_point_in_hand n l p s lp s' : calls_ok n [] false s -> at_point l p s = Some (lp, s') ->
  in_hand n l lp s' /\ forall k, count k (under_way s) = (count k (List.map cl_id (lp_callers lp)) + count k (under_way s'))%nat.
Proof.
  intros [O1 O2 O3 O4 O5 O6 O7]. unfold at_point. destruct (mget l (cs_loops s)) as [lp'|] eqn:Hl; [|done]. destruct (p (lp_point lp')); [|done].
  intros [= <- <-]. pose proof (mget_perm l lp' (cs_loops s) O2 Hl) as Hp. split.
  - split; [split|..]; cbn; try done.
    + by apply NoDup_mdel.
    + intros l'. rewrite mkeys_mdel, list_elem_of_filter. intros [_ ?]. by apply O3.
    + intros Hc. destruct (O6 Hc) as [?|(q & Hq & He)]; [done|]. rewrite Hp in Hq. apply elem_of_cons in Hq as [->|Hq]; [by left|right; by exists q].
    + assert (Hlen : List.length (loop_calls (cs_loops s)) = (List.length (lp_callers lp') + List.length (loop_calls (mdel l (cs_loops s))))%nat).
      { unfold loop_calls. rewrite <- !flat_map_concat_map, (Permutation_flat_map _ Hp). cbn. by rewrite length_app, length_map. }
      cbn in O7. lia.
    + rewrite mkeys_mdel, list_elem_of_filter. by intros [? _].
    + apply O3. apply mkeys_mget. by rewrite Hl.
  - intros k. unfold under_way. rewrite !count_app. cbn. rewrite (loop_taken k l lp' (cs_loops s) O2 Hl). lia.
Qed.

(** A step that takes a loop in hand and leaves it. *)
Lemma taken_well n l p s lp s' r : calls_ok n [] false s -> at_point l p s = Some (lp, s') ->
  (in_hand n l lp s' -> well n (lp_callers lp) s' r) -> well n [] s r.
Proof.
  intros Hok Hp Hr. destruct (at_point_in_hand n l p s lp s' Hok Hp) as [Hih Hc]. destruct (Hr Hih) as [H1 H2]. split; [done|].
  intros k. specialize (H2 k). specialize (Hc k). cbn. counts.
Qed.

Lemma nothing_well n s : calls_ok n [] false s -> well n [] s ([], s).
Proof. intros H. by split. Qed.

Lemma chain_well n r f s : calls_ok n [] false r.2 -> accounted [] s r -> (calls_ok n [] false r.2 -> well n [] r.2 (f r.2)) -> well n [] s (chain r f).
Proof.
  intros Hok Ha Hf. destruct (Hf Hok) as [H1 H2]. destruct r as [e1 s1]. unfold chain. cbn [fst snd] in *. destruct (f s1) as [e2 s2]. split; [done|].
  intros k. specialize (Ha k). specialize (H2 k). cbn [fst snd] in *. rewrite ended_app. counts.
Qed.

(** ** Steps and runs *)

Lemma share_loop_spec k ls : (exists p, p ∈ ls /\ lp_ensure p.2 = true) ->
  mkeys (share_loop k ls) = mkeys ls /\ (exists p, p ∈ share_loop k ls /\ lp_ensure p.2 = true) /\
  loop_calls (share_loop k ls) ≡ₚ cl_id k :: loop_calls ls.
Proof.
  induction ls as [|[l lp] ls IH]; intros (p & Hin & He); [by apply not_elem_of_nil in Hin|]. cbn [share_loop]. destruct (lp_ensure lp) eqn:E.
  - split; [done|]. split; [eexists; split; [by left|done]|]. unfold loop_calls. cbn. rewrite List.map_app, <- app_assoc. symmetry. apply Permutation_middle.
  - apply elem_of_cons in Hin as [->|Hin]; [cbn in He; congruence|]. destruct IH as (H1 & (q & Hq & Hqe) & H3); [by exists p|].
    split; [unfold mkeys in *; cbn; by f_equal|]. split; [exists q; split; [by right|done]|].
    change (loop_calls ((l, lp) :: share_loop k ls)) with (List.map cl_id (lp_callers lp) ++ loop_calls (share_loop k ls)).
    change (loop_calls ((l, lp) :: ls)) with (List.map cl_id (lp_callers lp) ++ loop_calls ls). rewrite H3. symmetry. apply Permutation_middle.
Qed.

Lemma share_well n k s : calls_ok n [k] false s -> dc_connectPromise (cs_client s) = true -> well n [k] s ([], s <| cs_loops ::= share_loop k |>).
Proof.
  intros [O1 O2 O3 O4 O5 O6 O7] Hp. destruct (O6 Hp) as [?|He]; [done|]. destruct (share_loop_spec k _ He) as (H1 & H2 & H3). split.
  - split; cbn; try done; rewrite ?H1; try done; [by right|]. rewrite H3. cbn. cbn in O7. lia.
  - intros x. unfold under_way. cbn. change (ended []) with (@nil Z). rewrite !count_app, H3, count_cons. counts.
Qed.

Lemma refused_well n k e s : calls_ok n [k] false s -> well n [k] s ([CallEnds (cl_id k) (inr e)], s).
Proof.
  intros [O1 O2 O3 O4 O5 O6 O7]. split; [split; try done; cbn in *; lia|]. intros x. cbn. change (ended _) with [cl_id k]. done.
Qed.

Lemma call_well n env k ensure s : calls_ok n [k] false s -> n <= MAX_SAFE + 1 -> well n [k] s (call env k ensure s).
Proof.
  intros Hok Hmax. unfold call. destruct (assertValidRpcParams _ _); [by apply refused_well|].
  destruct ensure; [|case_bool_decide; [by apply (resume_call_ok n [] false)|by eapply starts_well; [exact Hok|left]]].
  assert (Hsame : s <| cs_client := cs_client s |> = s) by by destruct s.
  unfold connect. case_bool_decide; [rewrite Hsame; by apply (resume_call_ok n [] false)|].
  destruct (dc_connectPromise (cs_client s)) eqn:Hp; [rewrite Hsame; by apply share_well|].
  destruct (dc_closed (cs_client s)); [rewrite Hsame; by apply refused_well|].
  set (s' := s <| cs_client := (cs_client s) <| dc_connectPromise := true |> |>).
  apply (well_from n [k] s s'); [done|]. apply (starts_well n env true k s' true); [|by right].
  destruct Hok as [O1 O2 O3 O4 O5 O6 O7]. split; try done; [by destruct O1|by left].
Qed.

Lemma registration_over_well n env t success s : calls_ok n [] false s -> n <= MAX_SAFE + 1 -> well n [] s (registration_over env t success s).
Proof.
  intros Hok Hmax. unfold registration_over. destruct (registering t s) as [l|]; [|by apply nothing_well].
  destruct (at_point l _ s) as [[lp s']|] eqn:Hp; [|by apply nothing_well]. eapply taken_well; [done|exact Hp|]. intros Hih.
  destruct success; [apply loop_succeeds_well; [apply Hih|done]|by apply in_hand_put].
Qed.

Lemma client_does_well n r s : calls_ok n [] false s -> settles_right (cs_client s) r -> well n [] s (client_does r s).
Proof. intros Hok Hr. destruct (client_does_ok n [] false r s Hr Hok) as (H1 & H2 & _). by split. Qed.

Lemma does_then n env t success r s : calls_ok n [] false s -> n <= MAX_SAFE + 1 -> settles_right (cs_client s) r ->
  well n [] s (chain (client_does r s) (registration_over env t success)).
Proof.
  intros Hok Hmax Hr. destruct (client_does_well n r s Hok Hr) as [H1 H2]. apply chain_well; [done|done|]. intros Hok'. by apply registration_over_well.
Qed.

(** The calls a step makes. *)
Definition makes (op : calls_op) : list Call := match op with OCall k _ => [k] | _ => [] end.

Lemma calls_step_well n env op s : calls_ok n (makes op) false s -> n <= MAX_SAFE + 1 -> well n (makes op) s (calls_step env op s).
Proof.
  intros Hok Hmax. pose proof (ok_rpcs _ _ _ _ Hok) as Hw.
  destruct op as [k ensure|l answer|l|l|t sent closed|t v|t|t e|id|]; cbn [makes calls_step] in *.
  - by apply call_well.
  - destruct (at_point l _ s) as [[lp s']|] eqn:Hp; [|by apply nothing_well]. eapply taken_well; [done|exact Hp|]. intros Hih.
    destruct answer as [[]|e]; [by apply registers_well|by apply begins_well|apply loop_fails_well; [apply Hih|done]].
  - destruct (at_point l _ s) as [[lp s']|] eqn:Hp; [|by apply nothing_well]. eapply taken_well; [done|exact Hp|]. intros Hih. by apply goes_on_well.
  - destruct (at_point l _ s) as [[lp s']|] eqn:Hp; [|by apply nothing_well]. eapply taken_well; [done|exact Hp|]. intros Hih. by apply begins_well.
  - destruct (client_does_well n (registration_connects t sent closed (en_now env) (cs_client s)) s) as [H1 H2]; [done|auto with settles|].
    apply chain_well; [done|done|]. intros Hok'. destruct (_ && _); [by apply registration_over_well|by apply nothing_well].
  - destruct (shas _ _); [apply does_then|apply client_does_well]; auto with settles.
  - destruct (shas _ _); [apply does_then; auto with settles|by apply nothing_well].
  - destruct (shas _ _); [apply does_then|apply client_does_well]; auto with settles.
  - apply client_does_well; auto with settles.
  - apply client_does_well; auto with settles.
Qed.

Lemma made_cons env op ops : made ((env, op) :: ops) = List.map cl_id (makes op) ++ made ops.
Proof. unfold made. cbn. by destruct op. Qed.

Lemma calls_run_well ops : forall n s, calls_ok n [] false s -> n + Z.of_nat (List.length ops) <= MAX_SAFE + 1 ->
  calls_ok (n + Z.of_nat (List.length ops)) [] false (calls_run ops s).2 /\
  forall k, (count k (ended (calls_run ops s).1) + count k (under_way (calls_run ops s).2) = count k (made ops) + count k (under_way s))%nat.
Proof.
  induction ops as [|[env op] ops IH]; intros n s Hok Hmax; cbn [calls_run List.length] in *.
  - cbn. rewrite Z.add_0_r. by split.
  - assert (Hok1 : calls_ok (n + 1) (makes op) false s).
    { destruct Hok as [O1 O2 O3 O4 O5 O6 O7]. split; try done. cbn in O7. assert (List.length (makes op) <= 1)%nat by (destruct op; cbn; lia). lia. }
    destruct (calls_step_well (n + 1) env op s Hok1 ltac:(lia)) as [H1 H2]. destruct (calls_step env op s) as [e1 s1]. cbn [fst snd] in *.
    destruct (IH (n + 1) s1 H1 ltac:(lia)) as [H3 H4]. destruct (calls_run ops s1) as [e2 s2]. cbn [fst snd] in *.
    split; [replace (n + Z.of_nat (S (List.length ops))) with (n + 1 + Z.of_nat (List.length ops)) by lia; exact H3|].
    intros k. specialize (H2 k). specialize (H4 k). cbn [fst snd] in *. rewrite ended_app, made_cons. counts.
Qed.

(** ** Loops come to an end *)

Definition point_rank (p : loop_point) : nat := match p with LClosing => 3 | LEnsuring => 2 | LRegistering _ => 1 | LDelaying => 0 end.

(** How many answers the loop [l] can still wait for. *)
Definition loop_rank (l : Z) (s : Calls) : nat :=
  match mget l (cs_loops s) with Some lp => S (4 * lp_left lp + point_rank (lp_point lp)) | None => 0 end.

(** The step is what the loop [l] waits for. *)
Definition answers (l : Z) (op : calls_op) (s : Calls) : bool :=
  match lp_point <$> mget l (cs_loops s), op with
  | Some LClosing, OEnded l' | Some LEnsuring, ODaemon l' _ | Some LDelaying, ODelay l' => l' =? l
  | Some (LRegistering t), (OConnects t' false false | OMessage t' _ | ORegisterTimeout t' | OTransportCloses t' _) => t' =? t
  | _, _ => false
  end.

Fixpoint answered (l : Z) (ops : list (Env * calls_op)) (s : Calls) : nat :=
  match ops with
  | [] => 0
  | (env, op) :: ops => (if answers l op s then 1 else 0) + answered l ops (calls_step env op s).2
  end.

(** The transports loops register, in their order. *)
Definition point_transport (p : loop_point) : list Z := match p with LRegistering t => [t] | _ => [] end.
Definition transports (ls : list (Z * Loop)) : list Z := List.concat (List.map (fun p => point_transport (lp_point p.2)) ls).

#[local] Arguments transports : simpl never.
#[local] Arguments loop_rank : simpl never.

Lemma transports_app a b : transports (a ++ b) = transports a ++ transports b.
Proof. unfold transports. by rewrite List.map_app, List.concat_app. Qed.

Lemma transports_taken l lp ls : NoDup (mkeys ls) -> mget l ls = Some lp -> transports ls ≡ₚ point_transport (lp_point lp) ++ transports (mdel l ls).
Proof. intros Hn Hl. unfold transports. rewrite <- !flat_map_concat_map. by rewrite (Permutation_flat_map _ (mget_perm l lp ls Hn Hl)). Qed.

(** Each registering loop has a handshake of its own that is pending. *)
Record loops_ok (s : Calls) : Prop := {
  lk_keys : NoDup (mkeys (cs_loops s));
  lk_ids : forall l, l ∈ mkeys (cs_loops s) -> l < cs_nextLoop s;
  lk_nodup : NoDup (transports (cs_loops s));
  lk_hand : forall t, t ∈ transports (cs_loops s) -> t ∈ dc_handshakes (cs_client s);
  lk_fresh : forall t, t ∈ transports (cs_loops s) -> t < cs_nextTransport s;
  lk_left : forall p, p ∈ cs_loops s -> (lp_left p.2 < MULTIPLEXER_CONNECT_MAX_ATTEMPTS)%nat
}.

(** A part of a step that leaves the loops and the handshakes alone. *)
Record loops_kept (s s' : Calls) : Prop := {
  kp_loops : cs_loops s' = cs_loops s;
  kp_next : cs_nextLoop s' = cs_nextLoop s;
  kp_transport : cs_nextTransport s' = cs_nextTransport s;
  kp_hand : dc_handshakes (cs_client s') = dc_handshakes (cs_client s)
}.

Lemma kept_ok s s' : loops_kept s s' -> loops_ok s -> loops_ok s'.
Proof. intros [K1 K2 K3 K4] [L1 L2 L3 L4 L5 L6]. by split; rewrite ?K1, ?K2, ?K3, ?K4. Qed.

Lemma status_kept st s : loops_kept s (put_status st s).
Proof. done. Qed.

Lemma kept_trans s1 s2 s3 : loops_kept s1 s2 -> loops_kept s2 s3 -> loops_kept s1 s3.
Proof. intros [A1 A2 A3 A4] [B1 B2 B3 B4]. split; congruence. Qed.

Lemma client_does_kept r s : dc_handshakes r.2 = dc_handshakes (cs_client s) -> loops_kept s (client_does r s).2.
Proof. intros H. unfold client_does. by destruct (settle_calls _ _). Qed.

Lemma drop_all_handshakes ids : forall c, dc_handshakes (fold_left (fun c id => drop_rpc id c) ids c) = dc_handshakes c.
Proof. induction ids as [|id ids IH]; intros c; cbn; [done|by rewrite IH]. Qed.

Lemma closeSocket_handshakes e c : dc_handshakes (closeSocket e c).2 = dc_handshakes c.
Proof. unfold closeSocket, rejectAllPendingRpc. by destruct (dc_controlTransport c); cbn -[fold_left]; rewrite drop_all_handshakes. Qed.

Lemma sendRpc_handshakes m params sent now c : dc_handshakes (sendRpc m params sent now c).2 = dc_handshakes c.
Proof. unfold sendRpc. by repeat case_match. Qed.

Lemma resume_call_kept env k s : loops_kept s (resume_call env k s).2.
Proof.
  unfold resume_call. pose proof (sendRpc_handshakes (cl_method k) (cl_params k) (en_sent env (cl_id k)) (en_now env) (cs_client s)) as H.
  destruct (sendRpc _ _ _ _ _) as [[[e|] es] c]; [done|].
  apply (kept_trans _ (s <| cs_promises ::= mset (dc_nextRpcId (cs_client s)) (cl_id k) |>)); [done|by apply client_does_kept].
Qed.

Lemma resume_calls_kept env ks : forall s, loops_kept s (resume_calls env ks s).2.
Proof.
  induction ks as [|k ks IH]; intros s; cbn [resume_calls]; [done|]. pose proof (resume_call_kept env k s) as H1. destruct (resume_call env k s) as [e1 s1].
  pose proof (IH s1) as H2. destruct (resume_calls env ks s1) as [e2 s2]. by eapply kept_trans.
Qed.

Lemma loop_over_kept lp s : loops_kept s (loop_over lp s).
Proof. unfold loop_over. by destruct (lp_ensure lp). Qed.

Lemma loop_fails_kept lp e s : loops_kept s (loop_fails lp e s).2.
Proof. eapply kept_trans; [|apply loop_over_kept]. done. Qed.

Lemma loop_succeeds_kept env lp s : loops_kept s (loop_succeeds env lp s).2.
Proof. eapply kept_trans; [apply loop_over_kept|apply resume_calls_kept]. Qed.

(** A loop in hand is put back with at most the rank [N], or ends; the others
    stay as they are. *)
Record moves (l : Z) (N : nat) (s s' : Calls) : Prop := {
  mv_ok : loops_ok s';
  mv_rank : (loop_rank l s' <= N)%nat;
  mv_others : forall l', l' <> l -> mget l' (cs_loops s') = mget l' (cs_loops s);
  mv_next : cs_nextLoop s' = cs_nextLoop s
}.

Lemma gone_moves l N s s' : loops_ok s -> l ∉ mkeys (cs_loops s) -> loops_kept s s' -> moves l N s s'.
Proof.
  intros Hok Hl Hk. split; [by apply (kept_ok s)| | |apply Hk].
  - unfold loop_rank. rewrite (kp_loops _ _ Hk). apply mget_None_keys in Hl. rewrite Hl. lia.
  - intros l' _. by rewrite (kp_loops _ _ Hk).
Qed.

Lemma put_moves l lp s s' : loops_ok s -> l ∉ mkeys (cs_loops s) -> l < cs_nextLoop s -> loops_kept s s' ->
  (lp_left lp < MULTIPLEXER_CONNECT_MAX_ATTEMPTS)%nat -> point_transport (lp_point lp) = [] ->
  moves l (S (4 * lp_left lp + point_rank (lp_point lp))) s (put_loop l lp s').
Proof.
  intros Hok Hl Hlt Hk Hn Hp. pose proof (kept_ok _ _ Hk Hok) as [L1 L2 L3 L4 L5 L6]. destruct Hk as [K1 K2 K3 K4].
  assert (Hput : cs_loops (put_loop l lp s') = mset l lp (cs_loops s)) by (rewrite mset_fresh by done; cbn; by rewrite K1).
  assert (Ht : transports (cs_loops (put_loop l lp s')) = transports (cs_loops s')).
  { cbn. rewrite transports_app. unfold transports at 2. cbn. by rewrite Hp, !app_nil_r. }
  split.
  - split; rewrite ?Ht; try done.
    + rewrite Hput. apply NoDup_mset. apply Hok.
    + intros l'. rewrite Hput, mset_fresh by done. unfold mkeys. rewrite fmap_app, elem_of_app. cbn. rewrite K2.
      intros [H|H]; [by apply (lk_ids _ Hok)|]. by apply list_elem_of_singleton in H as ->.
    + intros q. cbn. rewrite elem_of_app. intros [H|H]; [by apply L6|]. by apply list_elem_of_singleton in H as ->.
  - unfold loop_rank. by rewrite Hput, mget_mset_eq.
  - intros l' Hne. by rewrite Hput, mget_mset_ne.
  - cbn. by rewrite K2.
Qed.

Lemma registers_moves env l lp s : loops_ok s -> l ∉ mkeys (cs_loops s) -> l < cs_nextLoop s -> (lp_left lp < MULTIPLEXER_CONNECT_MAX_ATTEMPTS)%nat ->
  moves l (S (4 * lp_left lp + 1)) s (loop_registers env l lp s).2.
Proof.
  intros Hok Hl Hlt Hn. unfold loop_registers.
  assert (Hdelay : forall s', loops_kept s s' -> moves l (S (4 * lp_left lp + 1)) s (put_loop l (lp <| lp_point := LDelaying |>) s')).
  { intros s' Hk. destruct (put_moves l (lp <| lp_point := LDelaying |>) s s') as [M1 M2 M3 M4]; [done..|]. split; try done. cbn in *. lia. }
  destruct (dc_closed (cs_client s)) eqn:Hc; [by apply Hdelay|]. destruct (negb _); [by apply Hdelay|].
  unfold registerTransport. rewrite Hc. cbn [snd]. set (t := cs_nextTransport s). set (lp' := lp <| lp_point := LRegistering t |>).
  destruct Hok as [L1 L2 L3 L4 L5 L6].
  assert (Hput : cs_loops (put_loop l lp' s) = mset l lp' (cs_loops s)) by by rewrite mset_fresh.
  assert (Ht : transports (cs_loops (put_loop l lp' s)) = transports (cs_loops s) ++ [t]) by (cbn; by rewrite transports_app).
  assert (Hnew : t ∉ transports (cs_loops s)) by (intros Hin; specialize (L5 t Hin); unfold t in *; lia).
  split.
  - split.
    + change (NoDup (mkeys (cs_loops (put_loop l lp' s)))). rewrite Hput. by apply NoDup_mset.
    + intros l'. change (l' ∈ mkeys (cs_loops (put_loop l lp' s)) -> l' < cs_nextLoop s). rewrite Hput, mset_fresh by done.
      unfold mkeys. rewrite fmap_app, elem_of_app. intros [H|H]; [by apply L2|]. by apply list_elem_of_singleton in H as ->.
    + change (NoDup (transports (cs_loops (put_loop l lp' s)))). rewrite Ht. apply list.NoDup_app. split; [done|]. split; [|apply NoDup_singleton].
      intros x Hx Hs. by apply list_elem_of_singleton in Hs as ->.
    + intros x. change (x ∈ transports (cs_loops (put_loop l lp' s)) -> x ∈ sadd t (dc_handshakes (cs_client s))).
      rewrite Ht, elem_of_app, elem_of_sadd, list_elem_of_singleton. intros [H| ->]; [right; by apply L4|by left].
    + intros x. change (x ∈ transports (cs_loops (put_loop l lp' s)) -> x < Z.succ (cs_nextTransport s)).
      rewrite Ht, elem_of_app, list_elem_of_singleton. intros [H| ->]; [specialize (L5 x H); lia|unfold t; lia].
    + intros q. cbn. rewrite elem_of_app. intros [H|H]; [by apply L6|]. by apply list_elem_of_singleton in H as ->.
  - unfold loop_rank. change (mget l (cs_loops _)) with (mget l (cs_loops (put_loop l lp' s))). by rewrite Hput, mget_mset_eq.
  - intros l' Hne. change (mget l' (cs_loops (put_loop l lp' s)) = mget l' (cs_loops s)). by rewrite Hput, mget_mset_ne.
  - done.
Qed.

Lemma moves_le l N M s s' : (N <= M)%nat -> moves l N s s' -> moves l M s s'.
Proof. intros Hle [M1 M2 M3 M4]. split; try done. lia. Qed.

Lemma moves_kept l N s s' s'' : loops_kept s s' -> moves l N s' s'' -> moves l N s s''.
Proof. intros [K1 K2 K3 K4] [M1 M2 M3 M4]. split; try done; [|congruence]. intros l' Hne. rewrite <- K1. by apply M3. Qed.

Lemma goes_on_moves env l lp s : loops_ok s -> l ∉ mkeys (cs_loops s) -> l < cs_nextLoop s -> (lp_left lp < MULTIPLEXER_CONNECT_MAX_ATTEMPTS)%nat ->
  moves l (S (4 * lp_left lp + 2)) s (attempt_goes_on env l lp s).2.
Proof.
  intros Hok Hl Hlt Hn. unfold attempt_goes_on. destruct (dc_closed (cs_client s)); [apply gone_moves; [done|done|apply loop_fails_kept]|].
  destruct (lp_ensure lp); [eapply moves_le; [|apply (put_moves l (lp <| lp_point := LEnsuring |>) s (put_status cconnecting s)); try done]; cbn; lia|].
  apply (moves_le l (S (4 * lp_left lp + 1))); [lia|]. apply (moves_kept l _ s (put_status cconnecting s)); [done|]. apply registers_moves; try done.
  by apply (kept_ok s).
Qed.

Lemma begins_moves env l lp s : loops_ok s -> l ∉ mkeys (cs_loops s) -> l < cs_nextLoop s -> (lp_left lp <= MULTIPLEXER_CONNECT_MAX_ATTEMPTS)%nat ->
  moves l (4 * lp_left lp) s (attempt_begins env l lp s).2.
Proof.
  intros Hok Hl Hlt Hn. unfold attempt_begins. destruct (lp_left lp) as [|m] eqn:Hm; [apply gone_moves; [done|done|apply loop_fails_kept]|].
  destruct (dc_controlTransport (cs_client s)).
  - pose proof (client_does_kept (closeSocket replacing (cs_client s)) s (closeSocket_handshakes _ _)) as Hk.
    destruct (client_does _ s) as [es s1]. cbn [snd] in *.
    eapply moves_le; [|apply (put_moves l (lp <| lp_left := m |> <| lp_point := LClosing |>) s s1); try done]; cbn; lia.
  - eapply moves_le; [|apply (goes_on_moves env l (lp <| lp_left := m |>) s); try done]; cbn; lia.
Qed.

(** What a step does to the loops there are. *)
Record loops_step (op : calls_op) (s s' : Calls) : Prop := {
  ls_ok : loops_ok s';
  ls_rank : forall l, l < cs_nextLoop s -> ((if answers l op s then 1 else 0) + loop_rank l s' <= loop_rank l s)%nat;
  ls_next : cs_nextLoop s <= cs_nextLoop s'
}.

Lemma answers_nobody l op s : match op with OCall _ _ | OTimer _ | OClose => True | _ => False end -> answers l op s = false.
Proof. unfold answers. destruct op; try done; destruct (lp_point <$> _) as [[]|]; done. Qed.

Lemma kept_step op s s' : loops_ok s -> loops_kept s s' -> (forall l, answers l op s = false) -> loops_step op s s'.
Proof.
  intros Hok Hk Ha. split; [by apply (kept_ok s)| |rewrite (kp_next _ _ Hk); lia].
  intros l _. rewrite Ha. unfold loop_rank. by rewrite (kp_loops _ _ Hk).
Qed.

Lemma starts_step env ensure k op s s' : loops_ok s -> loops_kept s s' -> (forall l, answers l op s = false) ->
  loops_step op s (loop_starts env ensure k s').2.
Proof.
  intros Hok Hk Ha. pose proof (kept_ok _ _ Hk Hok) as [L1 L2 L3 L4 L5 L6]. unfold loop_starts. set (l := cs_nextLoop s').
  assert (Hl : l ∉ mkeys (cs_loops s')) by (intros Hin; specialize (L2 l Hin); unfold l in *; lia).
  destruct (begins_moves env l (mkLoop ensure MULTIPLEXER_CONNECT_MAX_ATTEMPTS LDelaying [k]) (s' <| cs_nextLoop ::= Z.succ |>)) as [M1 M2 M3 M4];
    [|done|unfold l; cbn; lia|cbn; lia|].
  { split; try done. intros l' Hl'. specialize (L2 l' Hl'). cbn. lia. }
  split; [done| |rewrite M4; cbn; rewrite (kp_next _ _ Hk); lia].
  intros l' Hlt. rewrite Ha. unfold loop_rank. rewrite M3 by (unfold l; rewrite (kp_next _ _ Hk); lia). cbn. by rewrite (kp_loops _ _ Hk).
Qed.

Lemma share_loop_get k ls : forall l, (lp_left <$> mget l (share_loop k ls)) = (lp_left <$> mget l ls) /\ (lp_point <$> mget l (share_loop k ls)) = (lp_point <$> mget l ls).
Proof.
  induction ls as [|[l' lp] ls IH]; intros l; cbn [share_loop]; [done|]. destruct (lp_ensure lp).
  - unfold mget; fold (mget l ls). by destruct (decide (l = l')).
  - unfold mget; fold (mget l ls) (mget l (share_loop k ls)). by destruct (decide (l = l')); [|apply IH].
Qed.

Lemma share_loop_lists k ls : mkeys (share_loop k ls) = mkeys ls /\ transports (share_loop k ls) = transports ls /\
  forall p, p ∈ share_loop k ls -> exists q, q ∈ ls /\ lp_left p.2 = lp_left q.2.
Proof.
  induction ls as [|[l' lp] ls (H1 & H2 & H3)]; cbn [share_loop]; [split; [done|]; split; [done|]; intros p Hp; by apply not_elem_of_nil in Hp|].
  destruct (lp_ensure lp).
  - split; [done|]. split; [done|]. intros p. rewrite elem_of_cons. intros [->|Hp]; [exists (l', lp); by split; [left|]|exists p; by split; [right|]].
  - split; [unfold mkeys in *; cbn; by f_equal|]. split; [unfold transports in *; cbn; by f_equal|].
    intros p. rewrite elem_of_cons. intros [->|Hp]; [exists (l', lp); by split; [left|]|]. destruct (H3 p Hp) as (q & Hq & He). exists q. by split; [right|].
Qed.

Lemma share_step k op s : loops_ok s -> (forall l, answers l op s = false) -> loops_step op s (s <| cs_loops ::= share_loop k |>).
Proof.
  intros [L1 L2 L3 L4 L5 L6] Ha. destruct (share_loop_lists k (cs_loops s)) as (H1 & H2 & H3). split; [split|..]; cbn; rewrite ?H1, ?H2; try done.
  - intros p Hp. destruct (H3 p Hp) as (q & Hq & ->). by apply L6.
  - intros l _. rewrite Ha. unfold loop_rank. cbn. destruct (share_loop_get k (cs_loops s) l) as [G1 G2].
    destruct (mget l (share_loop k (cs_loops s))), (mget l (cs_loops s)); simplify_eq/=; [|done]. rewrite G1, G2. lia.
Qed.

Lemma call_step env k ensure s : loops_ok s -> loops_step (OCall k ensure) s (call env k ensure s).2.
Proof.
  intros Hok. assert (Ha : forall l, answers l (OCall k ensure) s = false) by (intros; by apply answers_nobody).
  unfold call. destruct (assertValidRpcParams _ _); [by apply kept_step|].
  destruct ensure; [|case_bool_decide; [apply kept_step; [done|apply resume_call_kept|done]|by apply starts_step]].
  assert (Hsame : s <| cs_client := cs_client s |> = s) by by destruct s.
  unfold connect. case_bool_decide; [rewrite Hsame; apply kept_step; [done|apply resume_call_kept|done]|].
  destruct (dc_connectPromise (cs_client s)); [rewrite Hsame; by apply share_step|]. destruct (dc_closed (cs_client s)); [by apply kept_step|].
  by apply starts_step.
Qed.

(** The state without the loop in hand. *)
Lemma taken_ok l s lp : loops_ok s -> mget l (cs_loops s) = Some lp ->
  loops_ok (s <| cs_loops ::= mdel l |>) /\ (l ∉ mkeys (mdel l (cs_loops s))) /\ l < cs_nextLoop s /\
  (lp_left lp < MULTIPLEXER_CONNECT_MAX_ATTEMPTS)%nat /\ (forall t, lp_point lp = LRegistering t -> t ∉ transports (mdel l (cs_loops s))).
Proof.
  intros [L1 L2 L3 L4 L5 L6] Hl. pose proof (transports_taken l lp _ L1 Hl) as Hp.
  assert (Hsub : forall t, t ∈ transports (mdel l (cs_loops s)) -> t ∈ transports (cs_loops s)) by (intros t Ht; rewrite Hp; apply elem_of_app; by right).
  assert (Hnd : NoDup (point_transport (lp_point lp) ++ transports (mdel l (cs_loops s)))) by by rewrite <- Hp.
  apply list.NoDup_app in Hnd as (_ & Hdis & Hnd). split; [split; cbn|].
  - by apply NoDup_mdel.
  - intros l'. rewrite mkeys_mdel, list_elem_of_filter. intros [_ ?]. by apply L2.
  - done.
  - intros t Ht. by apply L4, Hsub.
  - intros t Ht. by apply L5, Hsub.
  - intros p. rewrite elem_of_mdel. intros [_ ?]. by apply L6.
  - split; [rewrite mkeys_mdel, list_elem_of_filter; by intros [? _]|]. split; [apply L2, mkeys_mget; by rewrite Hl|].
    split; [by apply (L6 (l, lp)), mget_In|]. intros t Ht. apply Hdis. rewrite Ht. by left.
Qed.

(** The loop [l] is moved by what it waited for. *)
Lemma moved_step op l lp s s'' : loops_ok s -> mget l (cs_loops s) = Some lp -> (forall l', answers l' op s = true -> l' = l) ->
  moves l (4 * lp_left lp + point_rank (lp_point lp)) (s <| cs_loops ::= mdel l |>) s'' -> loops_step op s s''.
Proof.
  intros Hok Hl Ha [M1 M2 M3 M4]. split; [done| |rewrite M4; cbn; lia]. intros l' Hlt. destruct (decide (l' = l)) as [->|Hne].
  - unfold loop_rank at 2. rewrite Hl. destruct (answers l op s); lia.
  - replace (answers l' op s) with false by (symmetry; apply not_true_iff_false; intros H; by apply Ha in H).
    unfold loop_rank. rewrite M3 by done. cbn. rewrite mget_mdel, decide_False by done. lia.
Qed.

Lemma at_point_get l p s lp s' : at_point l p s = Some (lp, s') ->
  mget l (cs_loops s) = Some lp /\ p (lp_point lp) = true /\ s' = s <| cs_loops ::= mdel l |>.
Proof. unfold at_point. destruct (mget l (cs_loops s)) as [x|]; [|done]. destruct (p (lp_point x)) eqn:E; [|done]. by intros [= <- <-]. Qed.

Lemma registering_found s l lp t : loops_ok s -> mget l (cs_loops s) = Some lp -> lp_point lp = LRegistering t -> registering t s = Some l.
Proof.
  intros Hok Hl Hp. unfold registering. destruct (List.find _ (cs_loops s)) as [[l0 lp0]|] eqn:E.
  - apply List.find_some in E as [Hin Hr]. cbn. f_equal. destruct (decide (l0 = l)) as [|Hne]; [done|]. exfalso.
    destruct (taken_ok l s lp Hok Hl) as (_ & _ & _ & _ & Hn). apply (Hn t Hp). unfold transports. rewrite <- flat_map_concat_map. apply list_elem_of_In, in_flat_map.
    exists (l0, lp0). split; [apply list_elem_of_In, elem_of_mdel; split; [done|by apply list_elem_of_In]|]. cbn in *.
    destruct (lp_point lp0); try done. apply Z.eqb_eq in Hr as ->. by left.
  - apply mget_In in Hl. apply list_elem_of_In in Hl. apply (List.find_none _ _ E) in Hl. cbn in Hl. rewrite Hp in Hl. cbn in Hl. by rewrite Z.eqb_refl in Hl.
Qed.

(** A handshake of [t] is over. *)
Lemma over_step op env t success s s1 : loops_ok s -> cs_loops s1 = cs_loops s -> cs_nextLoop s1 = cs_nextLoop s -> cs_nextTransport s1 = cs_nextTransport s ->
  dc_handshakes (cs_client s1) = sdel t (dc_handshakes (cs_client s)) ->
  (forall l, answers l op s = true -> exists lp, mget l (cs_loops s) = Some lp /\ lp_point lp = LRegistering t) ->
  loops_step op s (registration_over env t success s1).2.
Proof.
  intros Hok K1 K2 K3 K4 Ha. pose proof Hok as [L1 L2 L3 L4 L5 L6]. unfold registration_over.
  assert (Hreg : registering t s1 = registering t s) by (unfold registering; by rewrite K1). rewrite Hreg.
  destruct (registering t s) as [l|] eqn:Hr.
  - assert (Hl : exists lp, mget l (cs_loops s) = Some lp /\ lp_point lp = LRegistering t).
    { unfold registering in Hr. destruct (List.find _ (cs_loops s)) as [[l0 lp0]|] eqn:E; [|done]. injection Hr as <-. apply List.find_some in E as [Hin Hr].
      exists lp0. split; [apply In_mget; [done|by apply list_elem_of_In]|]. cbn in *. destruct (lp_point lp0); try done. by apply Z.eqb_eq in Hr as ->. }
    destruct Hl as (lp & Hl & Hp). unfold at_point. rewrite K1, Hl, Hp. cbn [registers_at]. rewrite Z.eqb_refl.
    destruct (taken_ok l s lp Hok Hl) as (Hok2 & Hout & Hlt & Hleft & Hnt). specialize (Hnt t Hp).
    assert (Hok3 : loops_ok (s1 <| cs_loops ::= mdel l |>)).
    { destruct Hok2 as [G1 G2 G3 G4 G5 G6]. split; cbn in *; rewrite ?K1, ?K2, ?K3; try done. intros x Hx. rewrite K4, elem_of_sdel. split; [by intros ->|by apply G4]. }
    apply (moved_step op l lp); [done|done|intros l' Hl'; destruct (Ha l' Hl') as (lp' & Hg & Hp'); by apply (registering_found s l' lp' t Hok) in Hg; simplify_eq|].
    assert (Hm : moves l (4 * lp_left lp + point_rank (lp_point lp)) (s1 <| cs_loops ::= mdel l |>)
      (if success then loop_succeeds env lp (s1 <| cs_loops ::= mdel l |>) else ([], put_loop l (lp <| lp_point := LDelaying |>) (s1 <| cs_loops ::= mdel l |>))).2).
    { destruct success.
      - apply gone_moves; [done|by cbn; rewrite K1|apply loop_succeeds_kept].
      - eapply moves_le; [|apply (put_moves l (lp <| lp_point := LDelaying |>) _ (s1 <| cs_loops ::= mdel l |>)); try done]; cbn; rewrite ?K1, ?K2, ?Hp; cbn; try done; lia. }
    destruct Hm as [M1 M2 M3 M4]. split; try done; [|by rewrite M4; cbn]. intros l' Hne. rewrite M3 by done. cbn. by rewrite K1.
  - assert (Hnone : forall l, answers l op s = false).
    { intros l. apply not_true_iff_false. intros H. destruct (Ha l H) as (lp & Hg & Hp). apply (registering_found s l lp t Hok) in Hg; [congruence|done]. }
    assert (Hnt : t ∉ transports (cs_loops s)).
    { unfold transports. rewrite <- flat_map_concat_map. intros Hin%list_elem_of_In%in_flat_map. destruct Hin as ([l lp] & Hin & Ht). cbn in Ht.
      destruct (lp_point lp) as [| |t'|] eqn:Hp; try done. destruct Ht as [->|[]].
      assert (Hg : mget l (cs_loops s) = Some lp) by (apply In_mget; [done|by apply list_elem_of_In]). apply (registering_found s l lp t Hok) in Hg; [congruence|done]. }
    cbn [snd]. split; [split; rewrite ?K1, ?K2, ?K3; try done| |rewrite K2; lia].
    + intros x Hx. rewrite K4, elem_of_sdel. split; [by intros ->|by apply L4].
    + intros l _. rewrite Hnone. unfold loop_rank. by rewrite K1.
Qed.

Lemma chain_snd r f : (chain r f).2 = (f r.2).2.
Proof. destruct r as [e s]. unfold chain. cbn. by destruct (f s). Qed.

Lemma client_does_snd r s : cs_loops (client_does r s).2 = cs_loops s /\ cs_nextLoop (client_does r s).2 = cs_nextLoop s /\
  cs_nextTransport (client_does r s).2 = cs_nextTransport s /\ cs_client (client_does r s).2 = r.2.
Proof. unfold client_does. by destruct (settle_calls _ _). Qed.

(** Who is answered. *)
Lemma answers_at l op s : answers l op s = true -> exists lp, mget l (cs_loops s) = Some lp /\
  match op with
  | OEnded l' => l' = l /\ lp_point lp = LClosing
  | ODaemon l' _ => l' = l /\ lp_point lp = LEnsuring
  | ODelay l' => l' = l /\ lp_point lp = LDelaying
  | OConnects t sent closed => lp_point lp = LRegistering t /\ sent = false /\ closed = false
  | OMessage t _ | ORegisterTimeout t | OTransportCloses t _ => lp_point lp = LRegistering t
  | _ => False
  end.
Proof.
  unfold answers. destruct (mget l (cs_loops s)) as [lp|]; [|done]. cbn. intros H. exists lp. split; [done|].
  destruct (lp_point lp), op; try done; repeat match type of H with context [if ?b then _ else _] => destruct b; try done end;
    apply Z.eqb_eq in H; by subst.
Qed.

Lemma waiting_has_handshake l lp t s : loops_ok s -> mget l (cs_loops s) = Some lp -> lp_point lp = LRegistering t -> shas t (dc_handshakes (cs_client s)) = true.
Proof.
  intros Hok Hl Hp. apply bool_decide_eq_true, (lk_hand _ Hok). rewrite (transports_taken l lp _ (lk_keys _ Hok) Hl), Hp. by left.
Qed.

(** A loop at the point an operation answers, or nobody is answered. *)
Lemma at_point_step op l p s (f : Loop -> Calls -> list call_event * Calls) : loops_ok s ->
  (forall l', answers l' op s = true -> l' = l /\ exists lp, mget l (cs_loops s) = Some lp /\ p (lp_point lp) = true) ->
  (forall lp, mget l (cs_loops s) = Some lp -> p (lp_point lp) = true ->
     moves l (4 * lp_left lp + point_rank (lp_point lp)) (s <| cs_loops ::= mdel l |>) (f lp (s <| cs_loops ::= mdel l |>)).2) ->
  loops_step op s (match at_point l p s with Some (lp, s') => f lp s' | None => ([], s) end).2.
Proof.
  intros Hok Ha Hf. destruct (at_point l p s) as [[lp s']|] eqn:E.
  - apply at_point_get in E as (Hl & Hp & ->). apply (moved_step op l lp); [done|done|intros l' Hl'; by apply Ha in Hl' as [-> _]|by apply Hf].
  - apply kept_step; [done|done|]. intros l'. apply not_true_iff_false. intros (-> & lp & Hl & Hp)%Ha. unfold at_point in E. by rewrite Hl, Hp in E.
Qed.

Lemma registration_fails_handshakes t c : shas t (dc_handshakes c) = true -> dc_handshakes (registration_fails t c).2 = sdel t (dc_handshakes c).
Proof. intros H. unfold registration_fails. rewrite H. cbn. by case_bool_decide. Qed.

Lemma registration_message_handshakes t v c : shas t (dc_handshakes c) = true -> dc_handshakes (registration_message t v c).2 = sdel t (dc_handshakes c).
Proof.
  intros H. unfold registration_message. pose proof (registration_fails_handshakes t c H) as Hf. rewrite H. cbn [negb].
  destruct (isMultiplexerHandshakeErrorResponse _); [done|]. by destruct (negb _).
Qed.

Lemma other_handshakes c : (forall t e, dc_handshakes (client_transport_closes t e c).2 = dc_handshakes c) /\ dc_handshakes (client_close c).2 = dc_handshakes c /\
  (forall t v, dc_handshakes (client_message t v c).2 = dc_handshakes c) /\ (forall id, dc_handshakes (rpc_timer_fires id c).2 = dc_handshakes c).
Proof.
  split; [intros t e; unfold client_transport_closes; destruct (negb _); [done|by rewrite closeSocket_handshakes]|].
  split; [unfold client_close; by rewrite closeSocket_handshakes|].
  split; [intros t v; unfold client_message, handleRpcResponse; by repeat case_match|intros id; unfold rpc_timer_fires; by case_match].
Qed.

(** The handshake of [t] ends by [r]. *)
Lemma handshake_step op env t success r s : loops_ok s -> dc_handshakes r.2 = sdel t (dc_handshakes (cs_client s)) ->
  (forall l, answers l op s = true -> exists lp, mget l (cs_loops s) = Some lp /\ lp_point lp = LRegistering t) ->
  loops_step op s (chain (client_does r s) (registration_over env t success)).2.
Proof. intros Hok Hh Ha. rewrite chain_snd. destruct (client_does_snd r s) as (K1 & K2 & K3 & K4). apply over_step; try done. by rewrite K4. Qed.

(** Without a handshake nobody waits for [t]. *)
Lemma nobody_waits op t s : loops_ok s -> shas t (dc_handshakes (cs_client s)) = false ->
  (forall l, answers l op s = true -> exists lp, mget l (cs_loops s) = Some lp /\ lp_point lp = LRegistering t) -> forall l, answers l op s = false.
Proof.
  intros Hok Hh Ha l. apply not_true_iff_false. intros (lp & Hl & Hp)%Ha. pose proof (waiting_has_handshake l lp t s Hok Hl Hp). congruence.
Qed.

Lemma calls_step_loops env op s : loops_ok s -> loops_step op s (calls_step env op s).2.
Proof.
  intros Hok. destruct (other_handshakes (cs_client s)) as (Hh1 & Hh2 & Hh3 & Hh4).
  pose proof (fun l => answers_at l op s) as Ha.
  destruct op as [k ensure|l answer|l|l|t sent closed|t v|t|t e|id|]; cbn [calls_step].
  - by apply call_step.
  - apply (at_point_step (ODaemon l answer) l _ s (fun lp s => match answer with inr e => loop_fails lp e s | inl false => attempt_begins env l lp s | inl true => loop_registers env l lp s end)).
    + done.
    + intros l' (lp & Hl & -> & Hp)%Ha. split; [done|]. exists lp. by rewrite Hp.
    + intros lp Hl Hp. destruct (taken_ok l s lp Hok Hl) as (Hok' & Hout & Hlt & Hleft & _). destruct (lp_point lp); try done.
      destruct answer as [[]|e]; [eapply moves_le; [|by apply registers_moves]; cbn; lia|eapply moves_le; [|apply begins_moves; try done; lia]; cbn; lia|].
      apply gone_moves; [done|done|apply loop_fails_kept].
  - apply (at_point_step (OEnded l) l _ s (fun lp s => attempt_goes_on env l lp s)).
    + done.
    + intros l' (lp & Hl & -> & Hp)%Ha. split; [done|]. exists lp. by rewrite Hp.
    + intros lp Hl Hp. destruct (taken_ok l s lp Hok Hl) as (Hok' & Hout & Hlt & Hleft & _). destruct (lp_point lp); try done.
      eapply moves_le; [|by apply goes_on_moves]; cbn; lia.
  - apply (at_point_step (ODelay l) l _ s (fun lp s => attempt_begins env l lp s)).
    + done.
    + intros l' (lp & Hl & -> & Hp)%Ha. split; [done|]. exists lp. by rewrite Hp.
    + intros lp Hl Hp. destruct (taken_ok l s lp Hok Hl) as (Hok' & Hout & Hlt & Hleft & _). destruct (lp_point lp); try done.
      eapply moves_le; [|apply begins_moves; try done; lia]; cbn; lia.
  - unfold registration_connects. destruct (shas t (dc_handshakes (cs_client s))) eqn:Hs; cbn [negb andb].
    2:{ rewrite chain_snd. apply kept_step; [done|by apply client_does_kept|]. apply (nobody_waits _ t); [done|done|]. intros l (lp & Hl & Hp & _)%Ha. by exists lp. }
    destruct sent, closed; cbn [negb andb]; try (rewrite chain_snd; apply kept_step; [done|by apply client_does_kept|]; intros l; apply not_true_iff_false;
      intros (lp & _ & _ & ? & ?)%Ha; done).
    apply handshake_step; [done|by apply registration_fails_handshakes|]. intros l (lp & Hl & Hp & _)%Ha. by exists lp.
  - destruct (shas t (dc_handshakes (cs_client s))) eqn:Hs; [apply handshake_step; [done|by apply registration_message_handshakes|done]|].
    apply kept_step; [done|by apply client_does_kept|]. by apply (nobody_waits _ t).
  - destruct (shas t (dc_handshakes (cs_client s))) eqn:Hs; [apply handshake_step; [done|by apply registration_fails_handshakes|done]|].
    apply kept_step; [done|done|]. by apply (nobody_waits _ t).
  - destruct (shas t (dc_handshakes (cs_client s))) eqn:Hs; [apply handshake_step; [done|by apply registration_fails_handshakes|done]|].
    apply kept_step; [done|by apply client_does_kept|]. by apply (nobody_waits _ t).
  - apply kept_step; [done|by apply client_does_kept|]. intros. by apply answers_nobody.
  - apply kept_step; [done|by apply client_does_kept|]. intros. by apply answers_nobody.
Qed.

Lemma calls_run_loops ops : forall s, loops_ok s -> loops_ok (calls_run ops s).2 /\
  forall l, l < cs_nextLoop s -> (answered l ops s + loop_rank l (calls_run ops s).2 <= loop_rank l s)%nat.
Proof.
  induction ops as [|[env op] ops IH]; intros s Hok; cbn [calls_run answered]; [by split|].
  destruct (calls_step_loops env op s Hok) as [H1 H2 H3]. destruct (calls_step env op s) as [e1 s1]. cbn [snd] in *.
  destruct (IH s1 H1) as [H4 H5]. destruct (calls_run ops s1) as [e2 s2]. cbn [snd] in *. split; [done|].
  intros l Hl. specialize (H2 l Hl). specialize (H5 l ltac:(lia)). lia.
Qed.

Lemma loop_rank_bound l s : loops_ok s -> (loop_rank l s <= 12)%nat.
Proof.
  intros Hok. unfold loop_rank. destruct (mget l (cs_loops s)) as [lp|] eqn:Hl; [|lia].
  pose proof (lk_left _ Hok (l, lp) (mget_In _ _ _ Hl)) as H. cbn in H. unfold MULTIPLEXER_CONNECT_MAX_ATTEMPTS in H.
  destruct (lp_point lp); cbn; lia.
Qed.

Lemma new_calls_ok a b facade dbg pid : calls_ok 1 [] false (new_calls (new_client a b facade dbg pid)) /\ loops_ok (new_calls (new_client a b facade dbg pid)).
Proof.
  destruct (new_client_inv a b facade dbg pid) as [Hw _].
  split; split; cbn; try done; try apply NoDup_nil_2; try lia; intros x Hx; by apply not_elem_of_nil in Hx.
Qed.

(** ** Theorems *)

(** C4: No call is lost and none ends twice.  In every interleaving of calls,
    connection attempts, answers of the daemon manager, registrations, lost
    sockets, responses, timers and closing, the calls that were made are exactly
    those that have ended and those under way, each as often; one under way is
    in a loop that waits for an answer, and if it waits for a registration the
    handshake is pending and its own, or it waits for an RPC whose timer is
    armed. *)
Theorem calls_accounted ops a b facade dbg pid : Z.of_nat (List.length ops) <= MAX_SAFE ->
  let '(es, s) := calls_run ops (new_calls (new_client a b facade dbg pid)) in
  made ops ≡ₚ ended es ++ loop_calls (cs_loops s) ++ mvals (cs_promises s) /\
  (forall id k, mget id (cs_promises s) = Some k -> is_Some (mget id (dc_timers (cs_client s)))) /\
  NoDup (transports (cs_loops s)) /\ (forall t, t ∈ transports (cs_loops s) -> t ∈ dc_handshakes (cs_client s)).
Proof.
  intros Hlen. destruct (new_calls_ok a b facade dbg pid) as [Hok Hl]. set (s0 := new_calls _) in *.
  destruct (calls_run_well ops 1 s0 Hok ltac:(lia)) as [Hok' Hc]. destruct (calls_run_loops ops s0 Hl) as [Hl' _].
  destruct (calls_run ops s0) as [es s]. cbn [fst snd] in *. split; [|split; [|split; apply Hl']].
  - apply (Permutation_count_occ Z.eq_dec). intros k. specialize (Hc k). fold (count k (made ops)) (count k (ended es ++ loop_calls (cs_loops s) ++ mvals (cs_promises s))).
    rewrite count_app. unfold under_way at 2 in Hc. cbn in Hc. change (count k (loop_calls [] ++ mvals [])) with 0%nat in Hc. unfold under_way in Hc. lia.
  - intros id k Hk. apply (rp_timers _ (ok_rpcs _ _ _ _ Hok')). apply (ok_waits _ _ _ _ Hok'). apply mkeys_mget. by rewrite Hk.
Qed.

(** C22: Connecting comes to an end for every call.  Whatever else happens, a loop
    of [connectInternal] waits for at most twelve answers: three attempts with an
    old transport to close, a daemon, a registration and a delay each.  Each
    answer brings it nearer to its end, and after as many as it can still wait
    for it is over, its calls ended or sent. *)
Theorem connecting_ends before ops a b facade dbg pid l :
  let s := (calls_run before (new_calls (new_client a b facade dbg pid))).2 in
  l ∈ mkeys (cs_loops s) ->
  (answered l ops s + loop_rank l (calls_run ops s).2 <= loop_rank l s <= 12)%nat /\
  ((loop_rank l s <= answered l ops s)%nat -> l ∉ mkeys (cs_loops (calls_run ops s).2)).
Proof.
  destruct (new_calls_ok a b facade dbg pid) as [_ Hl]. destruct (calls_run_loops before _ Hl) as [Hok _]. cbn zeta.
  set (s := (calls_run before _).2) in *. intros Hin. destruct (calls_run_loops ops s Hok) as [_ H]. specialize (H l (lk_ids _ Hok l Hin)).
  pose proof (loop_rank_bound l s Hok) as Hb. split; [lia|]. intros Ha. unfold loop_rank in *.
  assert (mget l (cs_loops (calls_run ops s).2) = None) as Hn by (destruct (mget l (cs_loops (calls_run ops s).2)); [lia|done]). by apply mget_None_keys.
Qed.

(** ** Examples *)

Definition calm : Env := mkEnv 0 (fun _ => true) true.
Definition demo_call (k : Z) : Call := mkCall k closeClient close_params.
Definition shutdown_call (k : Z) : Call := mkCall k shutdownDaemon (JObj [(js "reason", jstring "force-stop")]).
Definition demo_calls : Calls := new_calls demo_client.

Definition in_calm (ops : list calls_op) : list (Env * calls_op) := List.map (fun op => (calm, op)) ops.

(** Two calls share a connection; one is answered, the other waits. *)
Definition shared_connection : list (Env * calls_op) :=
  in_calm [OCall (demo_call 7) true; OCall (demo_call 8) true; ODaemon 0 (inl true); OConnects 0 true false;
           OMessage 0 register_response_json; OMessage 0 (response_json None (NInt 1) (inl (JObj [])))].

Lemma calls_accounted_witness :
  let r := calls_run shared_connection demo_calls in
  [7; 8] ≡ₚ ended r.1 ++ loop_calls (cs_loops r.2) ++ mvals (cs_promises r.2) /\ ended r.1 = [7] /\ mget 2 (dc_timers (cs_client r.2)) = Some 10000.
Proof.
  intros r. pose proof (calls_accounted shared_connection None None (JObj []) None 77 ltac:(vm_compute; discriminate)) as H.
  change (calls_run shared_connection (new_calls (new_client None None (JObj []) None 77))) with r in H. rewrite (surjective_pairing r) in H.
  split; [exact (proj1 H)|vm_compute; split; reflexivity].
Defined.

(** A daemon that accepts no registration, while a shutdown opens a transport
    before every attempt: all answers a loop can wait for. *)
Definition one_call : list (Env * calls_op) := in_calm [OCall (demo_call 7) true].

Definition no_registration : list (Env * calls_op) :=
  in_calm [ODaemon 0 (inl true); ORegisterTimeout 0; OCall (shutdown_call 8) false; ODelay 0; OEnded 0;
           ODaemon 0 (inl true); ORegisterTimeout 2; OTransportCloses 1 None; ODelay 1; ODelay 0; OEnded 0;
           ODaemon 0 (inl true); ORegisterTimeout 4; ODelay 0].

Lemma connecting_ends_witness :
  let s := (calls_run one_call demo_calls).2 in
  answered 0 no_registration s = 11%nat /\ loop_rank 0 s = 11%nat /\ 0 ∉ mkeys (cs_loops (calls_run no_registration s).2).
Proof.
  intros s. split; [vm_compute; reflexivity|]. split; [vm_compute; reflexivity|].
  apply (connecting_ends one_call no_registration None None (JObj []) None 77 0); [vm_compute; left|apply Nat.leb_le; vm_compute; reflexivity].
Defined.

(** A call fails after three attempts. *)
Example three_attempts :
  ended (calls_run (one_call ++ in_calm [ODaemon 0 (inl true); ORegisterTimeout 0; ODelay 0; ODaemon 0 (inl false); ODaemon 0 (inl true); ORegisterTimeout 1; ODelay 0])
           demo_calls).1 = [7].
Proof. vm_compute. reflexivity. Qed.

(** The close of an old control socket ends a new connection: a shutdown opens
    the first transport, the manager answers while it is open, and when it closes
    the client ends the second and rejects what waits for the new daemon. *)
Example old_socket_ends_new_connection :
  let r := calls_run (in_calm [OCall (demo_call 7) true; OCall (shutdown_call 8) false; OConnects 0 true false; OMessage 0 register_response_json;
             OMessage 0 (response_json None (NInt 1) (inl (JObj []))); ODaemon 0 (inl true); OConnects 1 true false; OMessage 1 register_response_json;
             OTransportCloses 0 None]) demo_calls in
  ended r.1 = [8; 7] /\ existsb (fun e => match e with Told (EndTransport 1) => true | _ => false end) r.1 = true /\
  dc_status (cs_client r.2) = cdisconnected.
Proof. vm_compute. repeat split. Qed.
