(* ===== verification/Exchange.v ===== *)
(** * A request and its reply, from a connector to a runtime and back

    Composes the client of a connector ([Client]), the control server
    ([Control]) and the host ([Host], [Routing], [HostRpc]): what happens to one
    [sendMessageWithReply] on its way to a runtime and to the answer on its way
    back.  Between the two halves the components may do anything that leaves
    the request pending, so the states of the second half are other states. *)

From Stdlib Require Import SpecFloat String.
From S2P Require Import JsValue Json Utf8 Protocol Transport PendingRoutes MemoTable Message.
From S2P Require Import Physical WebSocket Host Routing HostRpc Control Client.

Open Scope Z_scope.

(** ** Values *)

(** A member of a value that survives the trip as text survives it too. *)
Lemma wf_member k v x : wf_json v = true -> jget k (Some v) = Some x -> wf_json x = true.
Proof.
  destruct v as [| | | | |kvs]; try done. cbn [wf_json jget]. intros [_ H]%andb_true_iff Hg.
  apply mget_In in Hg. rewrite forallb_forall in H. apply list_elem_of_In in Hg. apply H in Hg.
  by apply andb_true_iff in Hg as [_ ?].
Qed.

Lemma clone_wf v : wf_json v = true -> cloneJsonValue (Some v) = Some v.
Proof. intros H. destruct v; try done; by apply parse_stringify. Qed.

(** The client id in the envelope does not matter to the inner message. *)
Lemma rewrite_client_id_payload isApp rt m c : getRoutableCustomizedPayload (Some m) = Some c ->
  exists c', getRoutableCustomizedPayload (Some (rewrite_client_id isApp rt m)) = Some c' /\
    message c' = message c /\ messageWasString c' = messageWasString c.
Proof.
  intros Hr. unfold rewrite_client_id. destruct (truthy _); [|by exists c]. revert Hr.
  unfold getRoutableCustomizedPayload. destruct (getCustomizedPayload (Some m)) as [c0|] eqn:E; [|done].
  destruct (getValidMessageId (Some (message c0))) as [n|] eqn:En; [|done]. intros [= ->].
  pose proof E as (kvs & raw & H1 & H2 & H3 & _)%getCustomizedPayload_inv.
  rewrite (getCustomizedPayload_intro _ _ _ H1 H3) in E.
  assert ((Some (upd_container (jset (js "client_id") (jint (if isApp then rt else -1))) m))@."data"@."data" =
    Some (JObj (mset (js "client_id") (jint (if isApp then rt else -1)) kvs))) as Hc by (by rewrite container_upd, H1).
  rewrite (getCustomizedPayload_intro _ _ raw Hc) by (by rewrite mget_mset_ne).
  destruct raw as [| | |s| |]; try done.
  - destruct (parse s) as [[]|]; try done; injection E as <-; cbn [message messageWasString] in *; rewrite En; eexists; (split; [reflexivity|done]).
  - injection E as <-. cbn [message messageWasString] in *. rewrite En. eexists. split; [reflexivity|done].
  - injection E as <-. cbn [message messageWasString] in *. rewrite En. eexists. split; [reflexivity|done].
Qed.

(** ** To the runtime *)

(** The connector sends the RPC. *)
Lemma sendRpc_sends m params now c t :
  dc_closed c = false -> dc_status c = cconnected -> dc_controlTransport c = Some t ->
  let '(error, es, c') := sendRpc m params true now c in
  error = None /\ es = [SendOn t (request_json (NInt (dc_nextRpcId c)) m params (client_debugInfo now c))] /\
  mget (dc_nextRpcId c) (dc_pendingRpc c') = Some (mkPendingRpc m).
Proof.
  intros Hc Hs Ht. unfold sendRpc. rewrite Hc, Hs, bool_decide_eq_true_2 by done.
  cbn [negb dc_controlTransport set_field eta eta_daemon_client]. rewrite Ht.
  split; [done|]. split; [done|]. apply mget_mset_eq.
Qed.

(** The control server hands the request to the host. *)
Lemma request_dispatched `{Bufferpack} o controlId k m id params dbg now sv :
  mget controlId (sv_connections sv) = Some k -> cn_closed k = false ->
  wf_json (request_json (NInt id) m params dbg) = true ->
  isControlRpcParams m (Some params) = true -> isOptional dbg isMultiplexerDebugInfo = true ->
  handleTransportMessage o controlId (parseJsonValue (stringify (request_json (NInt id) m params dbg))) now sv =
  ([HostRpc controlId (mkRequest (NInt id) m params)], sv).
Proof.
  intros Hk Hc Hwf Hp Hd. unfold parseJsonValue. rewrite parse_stringify by done.
  unfold handleTransportMessage. by rewrite Hk, Hc, request_decodes.
Qed.

(** What the host sends a runtime, and the id in it. *)
Definition to_runtime (rt : Z) (sent : json) (h : Host) : effect :=
  if isAppClient rt h then SendApp rt (stringify sent) else SendUsb rt sent.

Definition inner_id (v : json) : option num :=
  getCustomizedPayload (Some v) ≫= (fun c => getValidMessageId (Some (message c))).

(** The host forwards the message and remembers whom to answer. *)
Lemma reply_request_forwarded controlId id params rt m c original now h :
  client_param (Some params) = Some rt -> (Some params)@."message" = Some m -> wf_json m = true ->
  isAppClient rt h || isUsbClient rt h = true -> isUsbHandshake m = false ->
  getRoutableCustomizedPayload (Some m) = Some c -> getValidMessageId (Some (message c)) = Some original ->
  (query rt (Some (rewrite_client_id (isAppClient rt h) rt m)) now (h_memoizedQueryTable h)).1 = NotMemoized ->
  let g := pr_nextGlobalMessageId (h_pendingRoutes h) in
  wf_json (jset (js "id") (jint g) (message c)) = true ->
  let '(effects, h') := handleControlRpc controlId (mkRequest (NInt id) Protocol.sendMessageWithReply params) None now h in
  (exists sent, effects = [to_runtime rt sent h] /\ inner_id sent = Some (NInt g)) /\
  exists r, get g (h_pendingRoutes h') = Some r /\ r_kind r = RControl /\ r_clientId r = rt /\
    r_originalId r = original /\ r_resolve r = Some (controlId, NInt id).
Proof.
  intros Hp Hm Hwf Hcl Hu Hr Ho Hq g Hg. unfold handleControlRpc. cbn [rq_method rq_params rq_id].
  rewrite Hp, Hm. unfold Routing.sendMessageWithReply. rewrite Hr.
  destruct (rewrite_client_id_payload (isAppClient rt h) rt m c Hr) as (c' & Hr' & Hmc & Hs).
  set (target := mkSeed RControl controlId rt _ _ _).
  pose proof (sendMessageToRuntime_routes rt (Value m) target now h m c' original Hcl) as Hsend.
  specialize (Hsend ltac:(cbv iota beta; by rewrite clone_wf) Hu Hr'). rewrite Hmc in Hsend. specialize (Hsend Ho Hq).
  unfold add, createGlobalMessageId, createTimer in Hsend. cbn [fst snd] in Hsend. rewrite Hsend. clear Hsend. hcbn.
  rewrite app_nil_r. split.
  - eexists. split; [reflexivity|]. unfold inner_id. cbn [r_globalMessageId].
    fold g. destruct (write_payload _ c' (NInt g) Hr') as (c2 & E2 & M2 & _); [by rewrite Hmc|]. rewrite E2. cbn [mbind option_bind].
    rewrite M2, Hmc. destruct (message c) as [| | | | |kvs] eqn:Ec; try done. by apply valid_id_set.
  - eexists. split; [unfold get; cbn [pr_routes set_field eta eta_table]; apply mget_mset_eq|]. done.
Qed.

(** ** Back to the connector *)

(** A text of a runtime that answers the request with id [g]. *)
Record answers (g : Z) (text : jstr) (v : json) (p : CustomizedPayload) : Prop := {
  an_parses : parse text = Some v;
  an_typed : isResponseMessage (Some v) = true;
  an_payload : getCustomizedPayload (Some v) = Some p;
  an_id : getValidMessageId (Some (message p)) = Some (NInt g)
}.

(** The host resolves the promise with the answer under the id of the request. *)
Lemma reply_resolves controlId id g r text v p source now h :
  get g (h_pendingRoutes h) = Some r -> r_kind r = RControl -> r_resolve r = Some (controlId, NInt id) ->
  answers g text v p ->
  let answer := normalizeRawResponse (writeCustomizedMessage p (r_originalId r) v) (r_clientId r) in
  (handleRuntimeMessage (r_clientId r) text source now h).1 = [Resolve (controlId, NInt id) answer] /\
  isResponseMessage (Some answer) = true /\
  (Some answer)@."data"@."data"@."message" = Some (JStr (stringify (jset (js "id") (JNum (r_originalId r)) (message p)))).
Proof.
  intros Hg Hk Hr [A1 A2 A3 A4] answer.
  rewrite (handleRuntimeMessage_routed g r (r_clientId r) text v p source now h) by done.
  unfold deliver_routed. rewrite Hk, Hr. split; [done|]. split.
  { unfold answer. rewrite normalize_accepted. unfold writeCustomizedMessage. by rewrite isResponseMessage_upd. }
  pose proof A3 as (kvs & raw & H1 & H2 & H3 & _ & H5)%getCustomizedPayload_inv.
  set (m' := jset (js "id") (JNum (r_originalId r)) (message p)) in *.
  set (x := if messageWasString p then JStr (stringify m') else m').
  assert ((Some (writeCustomizedMessage p (r_originalId r) v))@."data"@."data" = Some (JObj (mset (js "message") x kvs))) as Hc
    by (unfold writeCustomizedMessage; by rewrite container_upd, H1).
  destruct (normalize_container _ (r_clientId r) _ Hc) as (kvs' & Hn & _ & Hmsg & _).
  unfold answer. rewrite Hn. change (jget (js "message") (Some (JObj kvs'))) with (mget (js "message") kvs').
  rewrite Hmsg, mget_mset_eq. cbn [fmap option_fmap option_map]. unfold x, m'. destruct (messageWasString p); [done|].
  by destruct (message p).
Qed.

(** The answer is written to the connection and settles the RPC. *)
Lemma answer_settles `{Bufferpack} o controlId k id answer now sv t c :
  mget controlId (sv_connections sv) = Some k ->
  isOptional (server_createDebugInfo o now) isMultiplexerDebugInfo = true ->
  isResponseMessage (Some answer) = true ->
  shas t (dc_listening c) = true -> mget id (dc_pendingRpc c) = Some (mkPendingRpc Protocol.sendMessageWithReply) ->
  let response := response_json (server_createDebugInfo o now) (NInt id) (inl answer) in
  wf_json response = true -> all_accept response sv ->
  (server_effect o now (Resolve (controlId, NInt id) answer) sv).1 = [Sent (cn_socket k) response] /\
  client_message t (parseJsonValue (stringify response)) c = ([Settle id (inl answer)], drop_rpc id c).
Proof.
  intros Hk Hd Ha Hl Hp response Hwf Hacc. split.
  - pose proof (connection_send_addressed o controlId (fun d => response_json d (NInt id) (inl answer)) now sv Hacc) as Hs.
    cbn [server_effect fst snd]. unfold sendResponse. destruct (connection_send o controlId _ now sv).
    destruct Hs as [-> _]. cbn [fst]. by rewrite Hk.
  - unfold parseJsonValue. rewrite parse_stringify by done. unfold response.
    rewrite (client_message_response _ _ _ _ (inl answer) _ Hl Hp Hd). cbn [rp_method isControlRpcResult]. by rewrite Ha.
Qed.

(** ** The exchange *)

(** C1: A request for a reply is answered with the runtime's answer.  The call a
    connected client makes reaches, as JSON text, the host as the same request;
    the host sends the runtime the message under a fresh id; and whatever
    happened in between, as long as the route, the connection and the RPC are
    still there, the runtime's answer to that id resolves the promise of the
    RPC, is written once, to the socket of the requester, and settles the
    connector's promise with the answer, under the id the connector gave it. *)
Theorem request_reply_exchange `{Bufferpack} o params m payload original t controlId k rt now c sv h :
  dc_closed c = false -> dc_status c = cconnected -> dc_controlTransport c = Some t ->
  isControlRpcParams Protocol.sendMessageWithReply (Some params) = true ->
  isOptional (client_debugInfo now c) isMultiplexerDebugInfo = true ->
  mget controlId (sv_connections sv) = Some k -> cn_closed k = false ->
  client_param (Some params) = Some rt -> (Some params)@."message" = Some m ->
  isAppClient rt h || isUsbClient rt h = true -> isUsbHandshake m = false ->
  getRoutableCustomizedPayload (Some m) = Some payload -> getValidMessageId (Some (message payload)) = Some original ->
  (query rt (Some (rewrite_client_id (isAppClient rt h) rt m)) now (h_memoizedQueryTable h)).1 = NotMemoized ->
  let g := pr_nextGlobalMessageId (h_pendingRoutes h) in
  wf_json (jset (js "id") (jint g) (message payload)) = true ->
  let id := dc_nextRpcId c in
  let request := request_json (NInt id) Protocol.sendMessageWithReply params (client_debugInfo now c) in
  wf_json request = true ->
  let '(error, es, c1) := sendRpc Protocol.sendMessageWithReply params true now c in
  let q := mkRequest (NInt id) Protocol.sendMessageWithReply params in
  let '(effects, h1) := handleControlRpc controlId q None now h in
  (error = None /\ es = [SendOn t request]) /\
  (handleTransportMessage o controlId (parseJsonValue (stringify request)) now sv).1 = [HostRpc controlId q] /\
  (exists sent, effects = [to_runtime rt sent h] /\ inner_id sent = Some (NInt g)) /\
  forall c2 sv2 h2 text v p source now2,
  mget id (dc_pendingRpc c2) = mget id (dc_pendingRpc c1) -> shas t (dc_listening c2) = true ->
  mget controlId (sv_connections sv2) = Some k -> get g (h_pendingRoutes h2) = get g (h_pendingRoutes h1) ->
  answers g text v p ->
  let answer := normalizeRawResponse (writeCustomizedMessage p original v) rt in
  let debugInfo := server_createDebugInfo o now2 in
  let response := response_json debugInfo (NInt id) (inl answer) in
  isOptional debugInfo isMultiplexerDebugInfo = true -> wf_json response = true -> all_accept response sv2 ->
  (handleRuntimeMessage rt text source now2 h2).1 = [Resolve (controlId, NInt id) answer] /\
  (server_effect o now2 (Resolve (controlId, NInt id) answer) sv2).1 = [Sent (cn_socket k) response] /\
  (client_message t (parseJsonValue (stringify response)) c2).1 = [Settle id (inl answer)] /\
  (Some answer)@."data"@."data"@."message" = Some (JStr (stringify (jset (js "id") (JNum original) (message p)))).
Proof.
  intros Hc Hs Ht Hp Hd Hk Hkc Hrt Hm Hcl Hu Hr Ho Hq g Hg id request Hwf.
  pose proof (sendRpc_sends Protocol.sendMessageWithReply params now c t Hc Hs Ht) as Hsend.
  destruct (sendRpc _ _ _ _ _) as [[error es] c1]. destruct Hsend as (-> & -> & Hpend). intros q.
  assert (wf_json params = true) as Hwp.
  { apply (wf_member (js "params") request); [done|]. unfold request, request_json. by jsimp. }
  pose proof (reply_request_forwarded controlId id params rt m payload original now h Hrt Hm (wf_member _ _ _ Hwp Hm)
    Hcl Hu Hr Ho Hq Hg) as Hf. fold q g in Hf.
  destruct (handleControlRpc controlId q None now h) as [effects h1]. destruct Hf as (Hsent & r & Hget & Hkd & Hcid & Hor & Hres).
  split; [done|]. split; [unfold request; by rewrite (request_dispatched o controlId k)|]. split; [done|].
  intros c2 sv2 h2 text v p source now2 H1 H2 H3 H4 Ha answer debugInfo response Hd2 Hwf2 Hacc.
  rewrite Hget in H4. fold id in Hpend. rewrite Hpend in H1.
  destruct (reply_resolves controlId id g r text v p source now2 h2 H4 Hkd Hres Ha) as (R1 & R2 & R3).
  rewrite Hor, Hcid in R1, R2, R3. fold answer in R1, R2, R3.
  destruct (answer_settles o controlId k id answer now2 sv2 t c2) as [S1 S2]; try done.
  split; [done|]. split; [done|]. fold debugInfo in S2. fold response in S2. by rewrite S2.
Qed.

(** *** A concrete exchange *)

Definition reply_params : json := JObj [(js "clientId", jint 1); (js "message", cdp_envelope (cdp_call 7))].

Lemma request_reply_exchange_witness :
  let c1 := (sendRpc Protocol.sendMessageWithReply reply_params true 5 registered_client).2 in
  let h1 := (handleControlRpc 1 (mkRequest (NInt 1) Protocol.sendMessageWithReply reply_params) None 5 demo_host).2 in
  let answer := normalizeRawResponse (demo_response 7) 1 in
  (handleRuntimeMessage 1 (stringify (demo_response 1)) usb_runtime 9 h1).1 = [Resolve (1, NInt 1) answer] /\
  (client_message 1 (parseJsonValue (stringify (response_json None (NInt 1) (inl answer)))) c1).1 = [Settle 1 (inl answer)].
Proof.
  pose (payload := default (mkPayload JNull JNull false) (getRoutableCustomizedPayload (Some (cdp_envelope (cdp_call 7))))).
  pose (p := default (mkPayload JNull JNull false) (getCustomizedPayload (Some (demo_response 1)))).
  pose proof (@request_reply_exchange bufferpack_be server_option reply_params (cdp_envelope (cdp_call 7)) payload (NInt 7) 1 1
    (mkConnection 0 false) 1 5 registered_client one_connection demo_host
    ltac:(vm_compute; reflexivity) ltac:(vm_compute; reflexivity) ltac:(vm_compute; reflexivity) ltac:(vm_compute; reflexivity)
    ltac:(vm_compute; reflexivity) ltac:(vm_compute; reflexivity) ltac:(vm_compute; reflexivity) ltac:(vm_compute; reflexivity)
    ltac:(vm_compute; reflexivity) ltac:(vm_compute; reflexivity) ltac:(vm_compute; reflexivity) ltac:(vm_compute; reflexivity)
    ltac:(vm_compute; reflexivity) ltac:(vm_compute; reflexivity) ltac:(vm_compute; reflexivity) ltac:(vm_compute; reflexivity)) as H.
  assert (dc_nextRpcId registered_client = 1) as Hid by (vm_compute; reflexivity).
  rewrite Hid in H. intros c1 h1 answer. fold c1 h1 in H.
  destruct (sendRpc Protocol.sendMessageWithReply reply_params true 5 registered_client) as [[e es] c1'] eqn:Ec.
  destruct (handleControlRpc 1 (mkRequest (NInt 1) Protocol.sendMessageWithReply reply_params) None 5 demo_host) as [ef h1'] eqn:Eh.
  destruct H as (_ & _ & _ & H).
  destruct (H c1' one_connection h1' (stringify (demo_response 1)) (demo_response 1) p usb_runtime 9) as (R1 & _ & R2 & _).
  - reflexivity.
  - vm_compute in Ec. injection Ec as <- <- <-. reflexivity.
  - vm_compute. reflexivity.
  - vm_compute in Eh. injection Eh as <- <-. vm_compute. reflexivity.
  - split; vm_compute; reflexivity.
  - reflexivity.
  - vm_compute. reflexivity.
  - apply one_connection_accepts. vm_compute. discriminate.
  - split; [exact R1|exact R2].
Defined.
