(* ===== verification/Entry.v ===== *)
(** * The entry point of the daemon process

    Models [multiplexer/daemon/entry.ts] and the side that writes its command
    line, [createDaemonEntryArgs] of [client/MultiplexerDaemonManager.ts]: the
    parsing of the arguments, the options of the host, and the cleanup that
    every way of ending the process shares. *)

From Stdlib Require Import SpecFloat String.
From S2P Require Import JsValue Json Protocol Message Ownership Host.

(** ** [Number(text)] *)

Definition NaN : num := NDbl S754_nan.

Definition js_Number (s : jstr) : num :=
  match trim s with
  | [] => NInt 0
  | t => default NaN (stringToNumber t)
  end.

(** ** Arguments *)

(** [EntryArgKey]. *)
Inductive EntryArgKey :=
  | controlEndpoint | protocolVersion | multiplexerDaemonIdleTimeout | debugInfo
  | legacyDriverDir | enableWebSocket | connectionTrace | websocketPort | websocketRoomId
  | physicalConnectorOption.

#[export] Instance entry_arg_key_eq_dec : EqDecision EntryArgKey.
Proof. solve_decision. Defined.

Definition OPTION_KEY_MAP : list (jstr * EntryArgKey) := [
  (js "control-endpoint", controlEndpoint);
  (js "protocol-version", protocolVersion);
  (js "debug-info", debugInfo);
  (js "legacy-driver-dir", legacyDriverDir);
  (js "multiplexer-daemon-idle-timeout", multiplexerDaemonIdleTimeout);
  (js "enable-websocket", enableWebSocket);
  (js "connection-trace", connectionTrace);
  (js "websocket-port", websocketPort);
  (js "websocket-room-id", websocketRoomId);
  (js "physical-connector-option", physicalConnectorOption)].

(** The properties every object inherits from [Object.prototype]; reading one
    of them from the map gives a function or an object, which is truthy. *)
Definition inherited_keys : list jstr := List.map js [
  "constructor"; "__defineGetter__"; "__defineSetter__"; "hasOwnProperty"; "__lookupGetter__";
  "__lookupSetter__"; "isPrototypeOf"; "propertyIsEnumerable"; "toString"; "valueOf"; "__proto__";
  "toLocaleString"]%string.

(** [OPTION_KEY_MAP[rawKey]]: a key of the map, a truthy inherited value (under
    which the argument is stored where nothing reads it), or [undefined]. *)
Inductive key_lookup := OwnKey (k : EntryArgKey) | InheritedKey | NoKey.

Definition lookup_key (rawKey : jstr) : key_lookup :=
  match mget rawKey OPTION_KEY_MAP with
  | Some k => OwnKey k
  | None => if bool_decide (rawKey ∈ inherited_keys) then InheritedKey else NoKey
  end.

(** The exceptions of the parser; [JSON.parse] throws a [SyntaxError]. *)
Inductive entry_error :=
  | UnexpectedArgument (arg : jstr)
  | UnknownOption (rawKey : jstr)
  | MissingValue (rawKey : jstr)
  | MissingRequired (key : EntryArgKey)
  | SyntaxError (text : jstr).

Definition dashed (s : jstr) : bool :=
  match s with c :: d :: _ => (c =? 45) && (d =? 45) | _ => false end.

Abbreviation RawEntryArgs := (list (EntryArgKey * jstr)).

(** The loop takes the arguments two at a time; a last one has no value. *)
Fixpoint parse_args (argv : list jstr) (rawArgs : RawEntryArgs) : RawEntryArgs + entry_error :=
  match argv with
  | [] => inl rawArgs
  | arg :: values =>
      if negb (dashed arg) then inr (UnexpectedArgument arg)
      else
        let rawKey := drop 2 arg in
        match lookup_key rawKey with
        | NoKey => inr (UnknownOption rawKey)
        | found =>
            match values with
            | [] => inr (MissingValue rawKey)
            | value :: rest =>
                if dashed value then inr (MissingValue rawKey)
                else parse_args rest (match found with OwnKey k => mset k value rawArgs | _ => rawArgs end)
            end
        end
  end.

Definition parseRawArgs (argv : list jstr) : RawEntryArgs + entry_error := parse_args argv [].

Definition getRequiredArg (rawArgs : RawEntryArgs) (key : EntryArgKey) : jstr + entry_error :=
  match mget key rawArgs with Some v => inl v | None => inr (MissingRequired key) end.

Record WebSocketOption := mkWebSocketOption { wo_port : option num; wo_roomId : option jstr }.

Record MultiplexerDaemonEntryOption := mkEntryOption {
  eo_controlEndpoint : jstr;
  eo_protocolVersion : num;
  eo_multiplexerDaemonIdleTimeout : num;
  eo_debugInfo : jsval;
  eo_legacyDriverDir : option jstr;
  eo_enableWebSocket : option bool;
  eo_connectionTrace : jsval;
  eo_websocketOption : option WebSocketOption;
  eo_physicalConnectorOption : jsval
}.

(** Sequencing of steps that may throw. *)
Definition ebind {A B} (x : A + entry_error) (f : A -> B + entry_error) : B + entry_error :=
  match x with inl a => f a | inr e => inr e end.
Notation "'elet' x := e 'in' f" := (ebind e (fun x => f))
  (at level 10, x pattern, e at level 100, f at level 200) : js_scope.

(** [if (rawArgs.k !== undefined) option.k = JSON.parse(rawArgs.k)]. *)
Definition parsed_arg (rawArgs : RawEntryArgs) (key : EntryArgKey) : jsval + entry_error :=
  match mget key rawArgs with
  | None => inl None
  | Some text => match parse text with Some v => inl (Some v) | None => inr (SyntaxError text) end
  end.

Definition websocket_arg (rawArgs : RawEntryArgs) : option WebSocketOption :=
  match mget websocketPort rawArgs, mget websocketRoomId rawArgs with
  | None, None => None
  | port, roomId => Some (mkWebSocketOption (js_Number <$> port) roomId)
  end.

Definition parseEntryOption (argv : list jstr) : MultiplexerDaemonEntryOption + entry_error :=
  elet rawArgs := parseRawArgs argv in
  elet endpoint := getRequiredArg rawArgs controlEndpoint in
  elet version := getRequiredArg rawArgs protocolVersion in
  elet idle := getRequiredArg rawArgs multiplexerDaemonIdleTimeout in
  elet info := parsed_arg rawArgs debugInfo in
  elet trace := parsed_arg rawArgs connectionTrace in
  elet physical := parsed_arg rawArgs physicalConnectorOption in
  inl (mkEntryOption endpoint (js_Number version) (js_Number idle) info (mget legacyDriverDir rawArgs)
         ((fun s => bool_decide (s = js "true")) <$> mget enableWebSocket rawArgs)
         trace (websocket_arg rawArgs) physical).

(** The host options the entry point sets; the others are left to the host. *)
Record MultiplexerDaemonHostOption := mkDaemonHostOption {
  dh_controlEndpoint : jstr;
  dh_protocolVersion : num;
  dh_multiplexerDaemonIdleTimeout : num;
  dh_debugInfo : jsval;
  dh_legacyDriverDir : option jstr;
  dh_enableWebSocket : option bool;
  dh_connectionTrace : jsval;
  dh_websocketOption : option WebSocketOption;
  dh_physicalConnectorOption : jsval
}.

(** The argument of [new MultiplexerDaemonHost]: debug information that is
    falsy ([null], [0], [""]) is not passed on. *)
Definition createDaemonHost (e : MultiplexerDaemonEntryOption) : MultiplexerDaemonHostOption :=
  mkDaemonHostOption (eo_controlEndpoint e) (eo_protocolVersion e) (eo_multiplexerDaemonIdleTimeout e)
    (if truthy (eo_debugInfo e) then eo_debugInfo e else None)
    (eo_legacyDriverDir e) (eo_enableWebSocket e) (eo_connectionTrace e) (eo_websocketOption e)
    (eo_physicalConnectorOption e).

(** The part of the options that [Host] models, for an integer protocol
    version; [memoizedNotificationTtlMs] is never set by the entry point. *)
Definition host_option (pid : Z) (iosSupported : bool) (o : MultiplexerDaemonHostOption) : option HostOption :=
  match dh_protocolVersion o with
  | NInt v => Some (mkHostOption v (dh_multiplexerDaemonIdleTimeout o) (dh_debugInfo o) (dh_enableWebSocket o)
                      (dh_websocketOption o ≫= wo_roomId) None pid iosSupported)
  | NDbl _ => None
  end.

(** ** The command line the manager writes *)

(** The fields of [MultiplexerDaemonManager] that go to the daemon. *)
Record DaemonConfig := mkDaemonConfig {
  dc_controlEndpoint : jstr;
  dc_localProtocolVersion : num;
  dc_multiplexerDaemonIdleTimeout : num;
  dc_debugInfo : jsval;
  dc_legacyDriverDir : option jstr;
  dc_enableWebSocket : option bool;
  dc_websocketOption : option WebSocketOption;
  dc_connectionTrace : jsval;
  dc_physicalConnectorOption : jsval
}.

Definition bool_toString (b : bool) : jstr := if b then js "true" else js "false".

(** [args.push("--name", value)] when there is a value. *)
Definition push_arg (name : string) (value : option jstr) : list jstr :=
  match value with Some v => [js name; v] | None => [] end.

Definition createDaemonEntryArgs (c : DaemonConfig) : list jstr :=
  [js "--control-endpoint"; dc_controlEndpoint c;
   js "--protocol-version"; num_toString (dc_localProtocolVersion c);
   js "--multiplexer-daemon-idle-timeout"; num_toString (dc_multiplexerDaemonIdleTimeout c)]
  ++ push_arg "--debug-info" (if truthy (dc_debugInfo c) then stringify <$> dc_debugInfo c else None)
  ++ push_arg "--legacy-driver-dir" (dc_legacyDriverDir c)
  ++ push_arg "--enable-websocket" (bool_toString <$> dc_enableWebSocket c)
  ++ push_arg "--websocket-port" (num_toString <$> (dc_websocketOption c ≫= wo_port))
  ++ push_arg "--websocket-room-id" (dc_websocketOption c ≫= wo_roomId)
  ++ push_arg "--connection-trace" (stringify <$> dc_connectionTrace c)
  ++ push_arg "--physical-connector-option" (stringify <$> dc_physicalConnectorOption c).

(** ** Process cleanup *)

Definition ENTRY_CLEANUP_TIMEOUT : Z := 3000.

(** Why the process should end: the host's idle timer, an RPC that asks for
    shutdown, or the process events the entry point listens to. *)
Inductive cause :=
  | Idle
  | Shutdown
  | BeforeExit (exitCode : option Z)
  | SIGINT
  | SIGTERM
  | UncaughtException
  | UnhandledRejection.

(** The exit code the handler of a cause passes to [cleanupAndExit]. *)
Definition cause_code (c : cause) : Z :=
  match c with
  | Idle | Shutdown => 0
  | BeforeExit exitCode => default 0 exitCode
  | SIGINT => 130
  | SIGTERM => 143
  | UncaughtException | UnhandledRejection => 1
  end.

(** The listeners registered with [process.once], by event. *)
Inductive process_event := PBeforeExit | PSigint | PSigterm | PUncaught | PUnhandled.
#[export] Instance process_event_eq_dec : EqDecision process_event.
Proof. solve_decision. Defined.

(** The shared promise: pending since [host.stop()] was called, with the due
    time of the limit, or resolved to the error of the stop, if any. *)
Inductive cleanup_promise := CleanupPending (due : Z) | CleanupSettled (stopError : bool).

(** How the process ended: by [process.exit], or by the default action of
    Node.js on a signal or an uncaught exception. *)
Inductive process_end := ExitCode (code : Z) | DefaultEnd.

Record Process := mkProcess {
  p_cleanupPromise : option cleanup_promise;
  p_awaiting : list Z;               (* exit codes of the calls that await it, in order *)
  p_listeners : list process_event;  (* [once] listeners not yet called *)
  p_exit : option process_end        (* the process has ended *)
}.

#[export] Instance eta_process : Eta Process := fun p =>
  mkProcess (p_cleanupPromise p) (p_awaiting p) (p_listeners p) (p_exit p).

(** [registerProcessCleanup]. *)
Definition registered : Process :=
  mkProcess None [] [PBeforeExit; PSigint; PSigterm; PUncaught; PUnhandled] None.

(** [startMultiplexerDaemonEntry] up to the start of the host: a command line
    that cannot be parsed ends the process with code 1, before any cleanup is
    registered. *)
Definition startMultiplexerDaemonEntry (argv : list jstr) : (MultiplexerDaemonHostOption * Process) + entry_error :=
  elet entryOption := parseEntryOption argv in inl (createDaemonHost entryOption, registered).

Definition entry_main (argv : list jstr) : Process :=
  match startMultiplexerDaemonEntry argv with
  | inl (_, p) => p
  | inr _ => mkProcess None [] [] (Some (ExitCode 1))
  end.

(** [process.exit(stopError && exitCode === 0 ? 1 : exitCode)]. *)
Definition exit_code (stopError : bool) (exitCode : Z) : Z :=
  if stopError && (exitCode =? 0) then 1 else exitCode.

(** [cleanup]: the first call stops the host, later calls share its promise.
    The result says whether [host.stop()] is called. *)
Definition cleanup (now : Z) (p : Process) : bool * Process :=
  match p_cleanupPromise p with
  | Some _ => (false, p)
  | None => (true, p <| p_cleanupPromise := Some (CleanupPending (now + ENTRY_CLEANUP_TIMEOUT)) |>)
  end.

(** [cleanupAndExit] up to its [await]. *)
Definition cleanupAndExit (exitCode now : Z) (p : Process) : bool * Process :=
  let '(stops, p) := cleanup now p in (stops, p <| p_awaiting ::= (fun l => l ++ [exitCode]) |>).

(** The event of the process a cause arrives by. *)
Definition cause_event (c : cause) : option process_event :=
  match c with
  | Idle | Shutdown => None
  | BeforeExit _ => Some PBeforeExit
  | SIGINT => Some PSigint
  | SIGTERM => Some PSigterm
  | UncaughtException => Some PUncaught
  | UnhandledRejection => Some PUnhandled
  end.

(** What Node.js does on an event without a listener: a signal or an uncaught
    exception ends the process, [beforeExit] passes, and a rejection is raised
    as an uncaught exception. *)
Definition default_action (c : cause) (now : Z) (p : Process) : bool * Process :=
  match c with
  | SIGINT | SIGTERM | UncaughtException => (false, p <| p_exit := Some DefaultEnd |>)
  | UnhandledRejection =>
      if bool_decide (PUncaught ∈ p_listeners p)
      then cleanupAndExit 1 now (p <| p_listeners ::= sdel PUncaught |>)
      else (false, p <| p_exit := Some DefaultEnd |>)
  | Idle | Shutdown | BeforeExit _ => (false, p)
  end.

Definition on_cause (c : cause) (now : Z) (p : Process) : bool * Process :=
  match cause_event c with
  | None => cleanupAndExit (cause_code c) now p
  | Some ev =>
      if bool_decide (ev ∈ p_listeners p)
      then cleanupAndExit (cause_code c) now (p <| p_listeners ::= sdel ev |>)
      else default_action c now p
  end.

(** The race of [host.stop()] and the limit is decided: the first call that
    awaits the promise continues first and ends the process. *)
Definition cleanup_settles (stopError : bool) (p : Process) : Process :=
  match p_cleanupPromise p with
  | Some (CleanupPending _) =>
      let p := p <| p_cleanupPromise := Some (CleanupSettled stopError) |> in
      match p_awaiting p with
      | exitCode :: _ => p <| p_exit := Some (ExitCode (exit_code stopError exitCode)) |>
      | [] => p
      end
  | _ => p
  end.

Inductive process_step_input :=
  | Cause (c : cause) (now : Z)
  | StopSettles (failed : bool)      (* the promise of [host.stop()] *)
  | ClockReaches (now : Z).          (* timers due by [now] fire *)

(** A process that has ended does nothing. *)
Definition process_step (i : process_step_input) (p : Process) : bool * Process :=
  match p_exit p with
  | Some _ => (false, p)
  | None =>
      match i with
      | Cause c now => on_cause c now p
      | StopSettles failed => (false, cleanup_settles failed p)
      | ClockReaches now =>
          match p_cleanupPromise p with
          | Some (CleanupPending due) => (false, if due <=? now then cleanup_settles true p else p)
          | _ => (false, p)
          end
      end
  end.

(** A run, with the number of times [host.stop()] is called. *)
Fixpoint process_run (inputs : list process_step_input) (p : Process) : nat * Process :=
  match inputs with
  | [] => (0%nat, p)
  | i :: rest =>
      let '(stops, p) := process_step i p in
      let '(n, p) := process_run rest p in
      ((if stops then S n else n), p)
  end.

(** ** The command line round trip *)

Lemma space_not_num c : is_num_char c = true -> is_js_space c = false.
Proof. unfold is_num_char, is_digit, is_js_space. intros H. lia. Qed.

Lemma trim_start_num s : forallb is_num_char s = true -> trim_start s = s.
Proof. destruct s as [|c r]; [done|]. cbn. intros [H _]%andb_true_iff. by rewrite space_not_num. Qed.

Lemma trim_num s : forallb is_num_char s = true -> trim s = s.
Proof.
  intros H. unfold trim. rewrite (trim_start_num s H), trim_start_num by (by rewrite forallb_rev).
  apply rev_involutive.
Qed.

Lemma decimal_literal_num neg s ip r :
  forallb is_num_char s = true -> span is_digit s = (ip, r) -> int_part_ok ip = true ->
  decimal_literal neg s =
    match r with
    | c :: r' =>
        if c =? 46 then
          let '(fp, t3) := span is_digit r' in
          match parse_exp t3 with
          | Some e => Some (num_of_dec neg (digits_value (ip ++ fp)) (e - Z.of_nat (List.length fp)))
          | None => None
          end
        else match parse_exp r with Some e => Some (num_of_dec neg (digits_value ip) e) | None => None end
    | [] => Some (num_of_dec neg (digits_value ip) 0)
    end.
Proof.
  intros Hs Hip Hok. unfold decimal_literal. rewrite bool_decide_eq_false_2 by (by intros ->).
  rewrite Hip. assert (forall l, bool_decide (ip ++ l = []) = false) as Hne.
  { intros l. apply bool_decide_eq_false_2. by destruct ip. }
  destruct r as [|c r]; [by rewrite Hne, app_nil_r|]. destruct (c =? 46) eqn:Hc.
  - destruct (span is_digit r) as [fp t3]. by rewrite Hne.
  - rewrite Hne, app_nil_r. destruct (parse_exp (c :: r)) as [e|]; [|done]. by replace (e - _) with e by (cbn; lia).
Qed.

(** A JSON number token is a numeric literal of the same value. *)
Lemma js_Number_tok t n : forallb is_num_char t = true -> parse_num_tok t = Some n -> js_Number t = n.
Proof.
  intros Hc Hn. unfold js_Number. rewrite trim_num by done. destruct t as [|c t]; [done|].
  assert (stringToNumber (c :: t) = Some n) as ->; [|done].
  unfold parse_num_tok in Hn. destruct (Z.eqb_spec c 45) as [->|Hc45].
  - cbn [forallb] in Hc. apply andb_true_iff in Hc as [_ Hc]. cbn [stringToNumber].
    destruct (span is_digit t) as [ip r] eqn:Hs. destruct (int_part_ok ip) eqn:Hok; [|done]. cbn [negb] in Hn.
    rewrite (decimal_literal_num _ _ _ _ Hc Hs Hok). destruct r as [|d r]; [done|]. destruct (d =? 46); [|done].
    destruct (span is_digit r) as [fp t3]. by destruct (bool_decide (fp = [])).
  - assert (stringToNumber (c :: t) = decimal_literal false (c :: t)) as ->.
    { cbn [forallb] in Hc. apply andb_true_iff in Hc as [Hc1 Hc].
      assert (c <> 43) as H43 by (intros ->; cbn in Hn; done).
      destruct (decide (c = 48)) as [->|H48].
      - destruct t as [|d t]; [done|]. cbn [forallb] in Hc. apply andb_true_iff in Hc as [Hd _].
        cbn [stringToNumber]. unfold is_num_char, is_digit in Hd.
        replace ((d =? 120) || (d =? 88)) with false by lia.
        replace ((d =? 111) || (d =? 79)) with false by lia.
        by replace ((d =? 98) || (d =? 66)) with false by lia.
      - unfold is_num_char, is_digit in Hc1.
        assert (c = 46 \/ c = 101 \/ c = 69 \/ 48 < c <= 57) as Hcs by lia.
        destruct Hcs as [->|[->|[->|Hcs]]]; [done..|].
        assert (c = 49 \/ c = 50 \/ c = 51 \/ c = 52 \/ c = 53 \/ c = 54 \/ c = 55 \/ c = 56 \/ c = 57) as Hd by lia.
        repeat (destruct Hd as [->|Hd]; [done|]). by subst. }
    destruct (span is_digit (c :: t)) as [ip r] eqn:Hs. destruct (int_part_ok ip) eqn:Hok; [|done]. cbn [negb] in Hn.
    rewrite (decimal_literal_num _ _ _ _ Hc Hs Hok). destruct r as [|d r]; [done|]. destruct (d =? 46); [|done].
    destruct (span is_digit r) as [fp t3]. by destruct (bool_decide (fp = [])).
Qed.

Lemma num_tok_plain t n : parse_num_tok t = Some n -> dashed t = false.
Proof.
  destruct t as [|c [|d t]]; [done..|]. unfold dashed, parse_num_tok. intros H.
  destruct (Z.eqb_spec c 45) as [->|]; [|done]. destruct (Z.eqb_spec d 45) as [->|]; [|done]. done.
Qed.

Lemma num_ok_printed n : num_ok n = true ->
  dashed (num_toString n) = false /\ js_Number (num_toString n) = n.
Proof.
  intros Hn. destruct (print_num_ok n Hn) as [Hc Ht].
  assert (print_num n = num_toString n) as E.
  { unfold print_num. destruct n as [z|f]; [done|]. unfold num_ok in Hn. bprop. by rewrite H. }
  rewrite E in *. split; [by eapply num_tok_plain | by apply js_Number_tok].
Qed.

(** No JSON text starts with two dashes. *)
Lemma json_plain s : is_Some (parse s) -> dashed s = false.
Proof.
  destruct s as [|c [|d t]]; [done..|]. intros [v Hv]. unfold dashed.
  destruct (Z.eqb_spec c 45) as [->|]; [|done]. destruct (Z.eqb_spec d 45) as [->|]; [|done]. exfalso.
  unfold parse in Hv. destruct (2 * S (List.length _))%nat as [|f] in Hv; [done|].
  cbn [parse_value] in Hv. rewrite skip_ws_nonws in Hv by done.
  assert (exists a b, span is_num_char (45 :: 45 :: t) = (45 :: 45 :: a, b)) as (a & b & E).
  { cbn [span]. change (is_num_char 45) with true. destruct (span is_num_char t). by do 2 eexists. }
  rewrite E in Hv. done.
Qed.

Lemma stringify_plain v : wf_json v = true -> dashed (stringify v) = false.
Proof. intros H. apply json_plain. rewrite parse_stringify by done. eauto. Qed.

(** An optional argument is read into its own key. *)
Definition store (k : EntryArgKey) (v : option jstr) (rawArgs : RawEntryArgs) : RawEntryArgs :=
  match v with Some x => mset k x rawArgs | None => rawArgs end.

Definition plain (v : option jstr) : bool := match v with Some x => negb (dashed x) | None => true end.

Lemma mget_store k k' v rawArgs :
  mget k (store k' v rawArgs) = if decide (k = k') then (match v with Some x => Some x | None => mget k rawArgs end) else mget k rawArgs.
Proof. destruct v; cbn; [apply mget_mset|by case_decide]. Qed.

Lemma parse_push name key k v rest rawArgs :
  js name = js "--" ++ key -> lookup_key key = OwnKey k ->
  parse_args (push_arg name v ++ rest) rawArgs =
    if plain v then parse_args rest (store k v rawArgs) else inr (MissingValue key).
Proof.
  intros Hn Hk. destruct v as [x|]; [|done]. cbn [push_arg app parse_args]. rewrite Hn.
  change (dashed (js "--" ++ key)) with true. change (drop 2 (js "--" ++ key)) with key. cbn [negb]. rewrite Hk. cbn [plain]. by destruct (dashed x).
Qed.

(** The values a manager is configured with that a command line can carry. *)
Definition wf_config (c : DaemonConfig) : bool :=
  num_ok (dc_localProtocolVersion c) && num_ok (dc_multiplexerDaemonIdleTimeout c)
  && match dc_debugInfo c with Some v => wf_json v | None => true end
  && match dc_websocketOption c ≫= wo_port with Some n => num_ok n | None => true end
  && match dc_connectionTrace c with Some v => wf_json v | None => true end
  && match dc_physicalConnectorOption c with Some v => wf_json v | None => true end.

(** No configured string looks like an option. *)
Definition plain_config (c : DaemonConfig) : bool :=
  plain (Some (dc_controlEndpoint c)) && plain (dc_legacyDriverDir c) && plain (dc_websocketOption c ≫= wo_roomId).

(** The host options that configuration means: an empty [websocketOption] and
    falsy debug information are the same as none. *)
Definition configured_host (c : DaemonConfig) : MultiplexerDaemonHostOption :=
  mkDaemonHostOption (dc_controlEndpoint c) (dc_localProtocolVersion c) (dc_multiplexerDaemonIdleTimeout c)
    (if truthy (dc_debugInfo c) then dc_debugInfo c else None)
    (dc_legacyDriverDir c) (dc_enableWebSocket c) (dc_connectionTrace c)
    (match dc_websocketOption c with Some (mkWebSocketOption None None) => None | o => o end)
    (dc_physicalConnectorOption c).

Lemma plain_num v : match v with Some n => num_ok n | None => true end = true ->
  plain (num_toString <$> v) = true /\ js_Number <$> (num_toString <$> v) = v.
Proof.
  destruct v as [n|]; [|done]. intros Hn. destruct (num_ok_printed n Hn) as [Hd Hv]. cbn.
  by rewrite Hd, Hv.
Qed.

Lemma plain_json v : match v with Some x => wf_json x | None => true end = true ->
  plain (stringify <$> v) = true.
Proof. destruct v as [x|]; [|done]. intros Hx. cbn. by rewrite stringify_plain. Qed.

Lemma parsed_arg_json rawArgs k v : match v with Some x => wf_json x | None => true end = true ->
  mget k rawArgs = stringify <$> v -> parsed_arg rawArgs k = inl v.
Proof.
  intros Hx Hk. unfold parsed_arg. rewrite Hk. destruct v as [x|]; [|done]. cbn. by rewrite parse_stringify.
Qed.

(** What [parseRawArgs] stores for the command line of a configuration. *)
Definition config_args (c : DaemonConfig) : RawEntryArgs :=
  store physicalConnectorOption (stringify <$> dc_physicalConnectorOption c)
    (store connectionTrace (stringify <$> dc_connectionTrace c)
      (store websocketRoomId (dc_websocketOption c ≫= wo_roomId)
        (store websocketPort (num_toString <$> (dc_websocketOption c ≫= wo_port))
          (store enableWebSocket (bool_toString <$> dc_enableWebSocket c)
            (store legacyDriverDir (dc_legacyDriverDir c)
              (store debugInfo (if truthy (dc_debugInfo c) then stringify <$> dc_debugInfo c else None)
                (store multiplexerDaemonIdleTimeout (Some (num_toString (dc_multiplexerDaemonIdleTimeout c)))
                  (store protocolVersion (Some (num_toString (dc_localProtocolVersion c)))
                    (store controlEndpoint (Some (dc_controlEndpoint c)) []))))))))).

Lemma plain_debug c : match dc_debugInfo c with Some v => wf_json v | None => true end = true ->
  plain (if truthy (dc_debugInfo c) then stringify <$> dc_debugInfo c else None) = true.
Proof. intros H. destruct (truthy _); [by apply plain_json|done]. Qed.

Lemma parseRawArgs_config c : wf_config c = true ->
  (plain_config c = true /\ parseRawArgs (createDaemonEntryArgs c) = inl (config_args c)) \/
  (plain_config c = false /\ exists key, parseRawArgs (createDaemonEntryArgs c) = inr (MissingValue key)).
Proof.
  intros Hw. unfold wf_config in Hw. bprop.
  destruct (num_ok_printed (dc_localProtocolVersion c)) as [Hp1 _]; [done|].
  destruct (num_ok_printed (dc_multiplexerDaemonIdleTimeout c)) as [Hp2 _]; [done|].
  unfold parseRawArgs, createDaemonEntryArgs.
  change ([js "--control-endpoint"; dc_controlEndpoint c; js "--protocol-version"; num_toString (dc_localProtocolVersion c);
     js "--multiplexer-daemon-idle-timeout"; num_toString (dc_multiplexerDaemonIdleTimeout c)])
    with (push_arg "--control-endpoint" (Some (dc_controlEndpoint c)) ++
          push_arg "--protocol-version" (Some (num_toString (dc_localProtocolVersion c))) ++
          push_arg "--multiplexer-daemon-idle-timeout" (Some (num_toString (dc_multiplexerDaemonIdleTimeout c)))).
  rewrite <- !app_assoc. unfold plain_config.
  rewrite (parse_push _ (js "control-endpoint") controlEndpoint) by done.
  destruct (plain (Some (dc_controlEndpoint c))); [|right; eauto].
  rewrite (parse_push _ (js "protocol-version") protocolVersion) by done.
  rewrite (parse_push _ (js "multiplexer-daemon-idle-timeout") multiplexerDaemonIdleTimeout) by done.
  rewrite (parse_push _ (js "debug-info") debugInfo) by done.
  rewrite (parse_push _ (js "legacy-driver-dir") legacyDriverDir) by done.
  rewrite plain_debug by done. change (plain (Some ?x)) with (negb (dashed x)). rewrite Hp1, Hp2. cbn [negb andb].
  destruct (plain (dc_legacyDriverDir c)); [|right; eauto].
  rewrite (parse_push _ (js "enable-websocket") enableWebSocket) by done.
  rewrite (parse_push _ (js "websocket-port") websocketPort) by done.
  rewrite (parse_push _ (js "websocket-room-id") websocketRoomId) by done.
  rewrite (proj1 (plain_num _ ltac:(eassumption))).
  replace (plain (bool_toString <$> dc_enableWebSocket c)) with true by (by destruct (dc_enableWebSocket c) as [[]|]).
  destruct (plain (dc_websocketOption c ≫= wo_roomId)); [|right; eauto].
  rewrite (parse_push _ (js "connection-trace") connectionTrace) by done. rewrite plain_json by done.
  rewrite <- (app_nil_r (push_arg "--physical-connector-option" _)).
  rewrite (parse_push _ (js "physical-connector-option") physicalConnectorOption) by done. rewrite plain_json by done.
  by left.
Qed.

Lemma mget_config k c : mget k (config_args c) =
  match k with
  | controlEndpoint => Some (dc_controlEndpoint c)
  | protocolVersion => Some (num_toString (dc_localProtocolVersion c))
  | multiplexerDaemonIdleTimeout => Some (num_toString (dc_multiplexerDaemonIdleTimeout c))
  | debugInfo => stringify <$> (if truthy (dc_debugInfo c) then dc_debugInfo c else None)
  | legacyDriverDir => dc_legacyDriverDir c
  | enableWebSocket => bool_toString <$> dc_enableWebSocket c
  | connectionTrace => stringify <$> dc_connectionTrace c
  | websocketPort => num_toString <$> (dc_websocketOption c ≫= wo_port)
  | websocketRoomId => dc_websocketOption c ≫= wo_roomId
  | physicalConnectorOption => stringify <$> dc_physicalConnectorOption c
  end.
Proof.
  unfold config_args. rewrite !mget_store.
  destruct k; cbn; try done.
  - destruct (truthy _); [|done]. by destruct (dc_debugInfo c).
  - by destruct (dc_legacyDriverDir c).
  - by destruct (dc_enableWebSocket c).
  - by destruct (dc_connectionTrace c).
  - by destruct (dc_websocketOption c) as [[[]]|].
  - by destruct (dc_websocketOption c) as [[? []]|].
  - by destruct (dc_physicalConnectorOption c).
Qed.

Lemma websocket_arg_config c :
  match dc_websocketOption c ≫= wo_port with Some n => num_ok n | None => true end = true ->
  websocket_arg (config_args c) = match dc_websocketOption c with Some (mkWebSocketOption None None) => None | o => o end.
Proof.
  intros H. unfold websocket_arg. rewrite !mget_config. destruct (plain_num _ H) as [_ Hp].
  destruct (dc_websocketOption c) as [[[port|] [roomId|]]|]; cbn in *; congruence.
Qed.

Lemma entry_args_read c : wf_config c = true ->
  if plain_config c
  then exists e, parseEntryOption (createDaemonEntryArgs c) = inl e /\ createDaemonHost e = configured_host c
  else exists key, parseEntryOption (createDaemonEntryArgs c) = inr (MissingValue key).
Proof.
  intros Hw. unfold parseEntryOption.
  destruct (parseRawArgs_config c Hw) as [[-> ->]|(-> & key & ->)]; [|by exists key].
  unfold wf_config in Hw. bprop.
  destruct (num_ok_printed (dc_localProtocolVersion c)) as [_ Hv1]; [done|].
  destruct (num_ok_printed (dc_multiplexerDaemonIdleTimeout c)) as [_ Hv2]; [done|].
  cbn [ebind]. unfold getRequiredArg. rewrite !mget_config. cbn [ebind].
  rewrite (parsed_arg_json _ debugInfo (if truthy (dc_debugInfo c) then dc_debugInfo c else None));
    [|by destruct (truthy _)|apply mget_config].
  cbn [ebind]. rewrite (parsed_arg_json _ connectionTrace (dc_connectionTrace c)); [|done|apply mget_config].
  cbn [ebind]. rewrite (parsed_arg_json _ physicalConnectorOption (dc_physicalConnectorOption c)); [|done|apply mget_config].
  cbn [ebind]. rewrite websocket_arg_config by done.
  eexists. split; [reflexivity|]. unfold createDaemonHost, configured_host. cbn [eo_controlEndpoint eo_protocolVersion
    eo_multiplexerDaemonIdleTimeout eo_debugInfo eo_legacyDriverDir eo_enableWebSocket eo_connectionTrace
    eo_websocketOption eo_physicalConnectorOption]. rewrite Hv1, Hv2. f_equal.
  - by destruct (truthy (dc_debugInfo c)) eqn:E; [rewrite E|].
  - by destruct (dc_enableWebSocket c) as [[]|].
Qed.

(** The command line is accepted. *)
Lemma entry_roundtrip c : wf_config c = true -> plain_config c = true ->
  exists e, parseEntryOption (createDaemonEntryArgs c) = inl e /\ createDaemonHost e = configured_host c.
Proof. intros Hw Hp. pose proof (entry_args_read c Hw) as H. by rewrite Hp in H. Qed.

(** The daemon reads the configuration its manager wrote: for every
    configuration whose Numbers and JSON values survive printing, parsing the
    arguments of [createDaemonEntryArgs] and passing them to the host gives
    exactly the configured host options, with an empty websocket option and
    falsy debug information counting as none; if one of the configured strings
    (endpoint, legacy directory, room id) starts with two dashes the daemon
    refuses the command line for a missing value instead. *)
Theorem entry_args_roundtrip c : wf_config c = true ->
  if plain_config c
  then exists e, parseEntryOption (createDaemonEntryArgs c) = inl e /\ createDaemonHost e = configured_host c
  else exists key, parseEntryOption (createDaemonEntryArgs c) = inr (MissingValue key).
Proof. apply entry_args_read. Qed.

(** A configuration with every option set. *)
Definition full_config : DaemonConfig :=
  mkDaemonConfig (js "/home/u/.DebugRouterConnector/multiplexer/control.sock") (NInt 2) (NInt 30000)
    (Some (JObj [(js "version", jstring "1.0")])) (Some (js "/home/u/legacy")) (Some false)
    (Some (mkWebSocketOption (Some (NInt 19783)) (Some (js "room")))) (Some (JObj [(js "enabled", JBool true)]))
    (Some (JObj [])).

Lemma entry_args_roundtrip_example :
  wf_config full_config = true /\ plain_config full_config = true /\
  exists e, parseEntryOption (createDaemonEntryArgs full_config) = inl e /\ createDaemonHost e = configured_host full_config.
Proof. split; [vm_compute; reflexivity|]. split; [vm_compute; reflexivity|].
  apply (entry_args_roundtrip full_config). vm_compute. reflexivity. Defined.

(** ** The process ends once *)

Fixpoint first_cause (inputs : list process_step_input) : option (cause * Z) :=
  match inputs with
  | [] => None
  | Cause c now :: _ => Some (c, now)
  | _ :: rest => first_cause rest
  end.

(** The cleanup begun by cause [c] at time [t]: its promise is pending with the
    limit of the first cause, or the process has exited with its code. *)
Definition cleaning (c : cause) (t : Z) (p : Process) : Prop :=
  match p_cleanupPromise p with
  | Some (CleanupPending due) =>
      due = t + ENTRY_CLEANUP_TIMEOUT /\ (p_exit p = None \/ p_exit p = Some DefaultEnd) /\
      head (p_awaiting p) = Some (cause_code c)
  | Some (CleanupSettled stopError) => p_exit p = Some (ExitCode (exit_code stopError (cause_code c)))
  | None => False
  end.

Lemma settles_cleaning c t e p : p_exit p = None -> cleaning c t p ->
  cleaning c t (cleanup_settles e p) /\ is_Some (p_exit (cleanup_settles e p)).
Proof.
  unfold cleaning, cleanup_settles. intros Hx. destruct (p_cleanupPromise p) as [[due|e']|] eqn:E; [|congruence|done].
  intros (_ & _ & Ha). destruct (p_awaiting p) as [|a l] eqn:Ea; [done|]. injection Ha as ->.
  cbn. rewrite Ea. cbn. by split; [|eexists].
Qed.

Lemma cleanupAndExit_cleaning c t code now p : p_exit p = None -> cleaning c t p ->
  exists p', cleanupAndExit code now p = (false, p') /\ cleaning c t p'.
Proof.
  unfold cleaning, cleanupAndExit, cleanup. intros Hx.
  destruct (p_cleanupPromise p) as [[due|e']|] eqn:E; [|congruence|done].
  intros (Hd & _ & Ha). eexists. split; [reflexivity|]. cbn. rewrite E.
  split_and!; [done|by left|]. by destruct (p_awaiting p).
Qed.

Lemma step_cleaning c t i p : cleaning c t p ->
  exists p', process_step i p = (false, p') /\ cleaning c t p'.
Proof.
  intros H. unfold process_step. destruct (p_exit p) eqn:Hx; [eauto|].
  assert (forall ev, cleaning c t (p <| p_listeners ::= sdel ev |>)) as Hl by (intros ev; exact H).
  destruct i as [c' now|e|now].
  - unfold on_cause, default_action.
    destruct (p_cleanupPromise p) as [[due|e']|] eqn:E; [|unfold cleaning in H; rewrite E in H; congruence
      |unfold cleaning in H; by rewrite E in H].
    assert (cleaning c t (p <| p_exit := Some DefaultEnd |>)) as Hd.
    { unfold cleaning in *. cbn. rewrite E in *. naive_solver. }
    destruct (cause_event c') eqn:Ec; [|by apply cleanupAndExit_cleaning].
    case_bool_decide; [by apply cleanupAndExit_cleaning|].
    destruct c'; eauto. case_bool_decide; [by apply cleanupAndExit_cleaning|eauto].
  - eexists. split; [reflexivity|]. by apply settles_cleaning.
  - destruct (p_cleanupPromise p) as [[due|e']|] eqn:E; eauto. eexists. split; [reflexivity|].
    destruct (due <=? now); [by apply settles_cleaning|done].
Qed.

Lemma run_cleaning c t inputs p : cleaning c t p ->
  exists p', process_run inputs p = (0%nat, p') /\ cleaning c t p'.
Proof.
  revert p. induction inputs as [|i rest IH]; intros p H; [by exists p|].
  destruct (step_cleaning c t i p H) as (p1 & E & H1). destruct (IH p1 H1) as (p2 & E2 & H2).
  exists p2. cbn. by rewrite E, E2.
Qed.

(** However often and by whichever of its seven causes the daemon process
    is told to end, [host.stop()] runs exactly once, from the first cause on;
    the process exits with the code of that first cause, with 1 in place of 0
    if stopping failed or passed the limit of 3000 ms, and it has ended as soon
    as the stop settles or the clock reaches the limit; only a second signal or
    uncaught error may end it before that. *)
Theorem process_cleanup_once inputs :
  let '(stops, p) := process_run inputs registered in
  match first_cause inputs with
  | None => stops = 0%nat /\ p = registered
  | Some (c, t) =>
      stops = 1%nat /\
      (forall code, p_exit p = Some (ExitCode code) ->
         exists stopError, p_cleanupPromise p = Some (CleanupSettled stopError) /\
                           code = exit_code stopError (cause_code c)) /\
      (forall failed, is_Some (p_exit (process_step (StopSettles failed) p).2)) /\
      (forall now, t + ENTRY_CLEANUP_TIMEOUT <= now -> is_Some (p_exit (process_step (ClockReaches now) p).2))
  end.
Proof.
  induction inputs as [|i rest IH]; [done|]. cbn [process_run]. destruct i as [c now|e|now].
  2,3: cbn; by destruct (process_run rest registered).
  assert (exists p1, process_step (Cause c now) registered = (true, p1) /\ cleaning c now p1) as (p1 & -> & H1).
  { destruct c; eexists; (split; [vm_compute; reflexivity|]); cbn; auto. }
  destruct (run_cleaning c now rest p1 H1) as (p & -> & H). cbn [first_cause]. clear IH H1. split; [done|].
  unfold cleaning in H. unfold process_step. destruct (p_cleanupPromise p) as [[due|e]|] eqn:E; [| |done].
  - destruct H as (-> & Hx & Ha). split_and!.
    + intros code Hc. destruct Hx; congruence.
    + intros failed. destruct (p_exit p) eqn:Ex; [cbn; rewrite Ex; eauto|]. unfold cleanup_settles. rewrite E. cbn.
      destruct (p_awaiting p); [done|]. by eexists.
    + intros t' Ht. destruct (p_exit p) eqn:Ex; [cbn; rewrite Ex; eauto|]. rewrite (proj2 (Z.leb_le _ _) Ht).
      unfold cleanup_settles. rewrite E. cbn. destruct (p_awaiting p); [done|]. by eexists.
  - rewrite H. split_and!; [|intros; cbn; rewrite H; eauto..]. intros code [= <-]. eauto.
Qed.
