(* ===== verification/ProcessLife.v ===== *)
(** * The process of a daemon

    [startMultiplexerDaemonEntry] of [daemon/entry.ts] with the host it starts:
    the causes that end the process ([Entry]) stop the host ([HostLife]), the
    host's handlers are such causes, the end of the stop or the time limit ends
    the process, and so does a start that fails. *)

From Stdlib Require Import String.
From S2P Require Import JsValue Json Protocol PendingRoutes Ownership Physical WebSocket Host HostRpc HostRun DaemonRun HostLife Entry.

(** ** State and steps *)

Record DaemonProcess := mkDaemonProcess {
  dp_process : Process;
  dp_life : Life;
  dp_stopping : bool;                (* the cleanup waits for [host.stop()] *)
  dp_late : bool                     (* the time limit of the cleanup has ended the process *)
}.

#[export] Instance eta_daemon_process : Eta DaemonProcess := fun d =>
  mkDaemonProcess (dp_process d) (dp_life d) (dp_stopping d) (dp_late d).

Ltac pcbn := cbn [set_field eta eta_daemon_process eta_process dp_process dp_life dp_stopping dp_late
  p_cleanupPromise p_awaiting p_listeners p_exit fst snd].

(** The host is created, the cleanup registered and [start] called. *)
Definition entry_started (o : HostOption) (file : option jstr) (lock trace : bool) : DaemonProcess :=
  mkDaemonProcess registered (life_start (new_life o file lock trace)) false false.

(** [host.stop()] is called by the cleanup; a call that is not the first one
    resolves at once, and with it the cleanup. *)
Definition cleanup_stops (r : bool * Process) (d : DaemonProcess) : list life_effect * DaemonProcess :=
  let '(stops, p) := r in
  let d := d <| dp_process := p |> in
  if stops then
    let '(first, (es, l)) := life_stop (dp_life d) in
    let d := d <| dp_life := l |> in
    (es, if first then d <| dp_stopping := true |> else d <| dp_process := (process_step (StopSettles false) p).2 |>)
  else ([], d).

Definition on_process (c : cause) (now : Z) (d : DaemonProcess) : list life_effect * DaemonProcess :=
  cleanup_stops (process_step (Cause c now) (dp_process d)) d.

(** The handlers the host calls. *)
Definition handler_cause (e : life_effect) : option cause :=
  match e with
  | Does CallIdleHandler => Some Idle
  | Does CallShutdownHandler => Some Shutdown
  | _ => None
  end.

Fixpoint run_handlers (cs : list cause) (now : Z) (d : DaemonProcess) : list life_effect * DaemonProcess :=
  match cs with
  | [] => ([], d)
  | c :: cs' => let '(e1, d) := on_process c now d in let '(e2, d) := run_handlers cs' now d in (e1 ++ e2, d)
  end.

(** The stop the cleanup waits for has settled. *)
Definition stop_settles (d : DaemonProcess) : DaemonProcess :=
  if dp_stopping d && bool_decide (l_stop (dp_life d) = StopOver)
  then d <| dp_stopping := false |>
         <| dp_process := (process_step (StopSettles (negb (bool_decide (l_stopErrors (dp_life d) = [])))) (dp_process d)).2 |>
  else d.

(** The entry point ends the process when the start has failed. *)
Definition start_settles (d : DaemonProcess) : DaemonProcess :=
  match l_start (dp_life d), p_exit (dp_process d) with
  | StartOver (Some _), None => d <| dp_process ::= (fun p => p <| p_exit := Some (ExitCode 1) |>) |>
  | _, _ => d
  end.

Inductive process_op :=
  | OpLife (op : life_op) (now : Z)
  | OpCause (c : cause) (now : Z)            (* a signal or an event of the process *)
  | OpClock (now : Z).

(** Only the entry point starts the host, and only its cleanup stops it. *)
Definition of_entry (op : life_op) : bool := match op with LStart | LStop => true | _ => false end.
Definition of_host (c : cause) : bool := match c with Idle | Shutdown => true | _ => false end.

Definition daemon_process_step (env : GuardEnv) (op : process_op) (d : DaemonProcess) : list life_effect * DaemonProcess :=
  match p_exit (dp_process d) with
  | Some _ => ([], d)
  | None =>
      match op with
      | OpLife op now =>
          if of_entry op then ([], d)
          else
            let '(es, l) := life_step env op (dp_life d) in
            let '(es', d) := run_handlers (omap handler_cause es) now (d <| dp_life := l |>) in
            (es ++ es', start_settles (stop_settles d))
      | OpCause c now => if of_host c then ([], d) else on_process c now d
      | OpClock now =>
          let p := (process_step (ClockReaches now) (dp_process d)).2 in
          ([], d <| dp_process := p |> <| dp_late := match p_exit p with Some _ => true | None => false end |>)
      end
  end.

Fixpoint daemon_process_run (env : GuardEnv) (ops : list process_op) (d : DaemonProcess) : list life_effect * DaemonProcess :=
  match ops with
  | [] => ([], d)
  | op :: ops' =>
      let '(e1, d) := daemon_process_step env op d in
      let '(e2, d) := daemon_process_run env ops' d in (e1 ++ e2, d)
  end.

(** ** Invariant *)

Definition start_failed (l : Life) : Prop :=
  match l_start l with StartRollsBack _ | StartOver (Some _) => True | _ => False end.

(** Who has stopped the host: the cleanup, which then waits for it, or a start
    that failed. *)
Record process_inv (d : DaemonProcess) : Prop := {
  pi_life : life_inv (dp_life d);
  pi_cleanup : p_exit (dp_process d) = None ->
    match p_cleanupPromise (dp_process d) with
    | None => dp_stopping d = false /\ (l_stop (dp_life d) <> StopIdle -> start_failed (dp_life d))
    | Some (CleanupPending _) => dp_stopping d = true /\ l_stop (dp_life d) <> StopIdle /\ p_awaiting (dp_process d) <> []
    | Some (CleanupSettled _) => False
    end;
  pi_exit : forall c, p_exit (dp_process d) = Some (ExitCode c) ->
    l_stop (dp_life d) = StopOver \/ dp_late d = true \/ start_failed (dp_life d)
}.

(** ** Steps keep it *)

Lemma stop_keeps_start l : l_start (stop_started l).2 = l_start l /\ l_start (stop_internal l).2 = l_start l /\
  l_start (stop_control l).2 = l_start l /\ l_start (stop_physical l).2 = l_start l /\ l_start (stop_cleared l).2 = l_start l.
Proof.
  assert (forall l, l_start (stop_physical l).2 = l_start l) as H1 by (intros x; unfold stop_physical; by destruct (stopInternal_physical _)).
  assert (forall l, l_start (stop_control l).2 = l_start l) as H2 by (intros x; unfold stop_control; case_match; [done|by rewrite H1]).
  assert (forall l, l_start (stop_internal l).2 = l_start l) as H3.
  { intros x. unfold stop_internal. destruct (stopInternal _). case_match; [done|].
    match goal with |- context [stop_control ?y] => pose proof (H2 y); by destruct (stop_control y) end. }
  split_and!; [|done|done|done|].
  - unfold stop_started. case_match; done.
  - unfold stop_cleared, stop_trace, stop_ends. destruct (stopInternal_cleared _). by destruct (l_trace _).
Qed.

Lemma life_stop_spec l : life_inv l -> let r := life_stop l in
  life_inv r.2.2 /\ l_start r.2.2 = l_start l /\
  (if r.1 then l_stop r.2.2 <> StopIdle else r.2 = ([], l) /\ l_stop l <> StopIdle).
Proof.
  intros Hl. cbv zeta. destruct (life_stop_ok l Hl) as [A _]. split; [done|].
  pose proof (stop_host_spec (l_host l)) as H. unfold life_stop in *. destruct (stop_host (l_host l)) as [[] h]; cbn [fst snd] in *.
  - case_match; cbn [snd]; [done|]. split; [by rewrite (proj1 (stop_keeps_start _))|]. apply stop_started_within.
  - split; [done|]. split; [done|]. intros X. apply (li_status l Hl) in X. by destruct H.
Qed.

Lemma same_start l l' p s : l_stop l = p -> l_start l = s -> l_start l' = s -> (l_stop l' <> StopIdle -> p <> StopIdle) ->
  (start_failed l -> start_failed l') /\ (l_stop l' <> StopIdle -> p <> StopIdle \/ start_failed l').
Proof. intros E1 E2 E3 H. unfold start_failed. rewrite E2, E3. tauto. Qed.

Lemma noop_start l p s : l_stop l = p -> l_start l = s ->
  (start_failed l -> start_failed l) /\ (l_stop l <> StopIdle -> p <> StopIdle \/ start_failed l).
Proof. intros E1 E2. apply (same_start l l p s); congruence. Qed.

Lemma guard_start r now l : l_start (guard_works r now l).2 = l_start l /\ l_stop (guard_works r now l).2 = l_stop l.
Proof. destruct r as [[cs ok] g]. unfold guard_works. by destruct (tell_ownership _ _ _). Qed.

(** A life goes on without the entry point: the host is stopped by a start that
    fails and by nobody else. *)
Lemma life_step_start env op l : of_entry op = false -> life_inv l ->
  (start_failed l -> start_failed (life_step env op l).2) /\
  (l_stop (life_step env op l).2 <> StopIdle -> l_stop l <> StopIdle \/ start_failed (life_step env op l).2).
Proof.
  intros Ho Hl.
  destruct op; try done; cbn [life_step].
  - destruct (l_start l) eqn:E; try (by eapply noop_start). assert (~ start_failed l) as Hn by (unfold start_failed; rewrite E; tauto).
    assert (l_stop (start_listened env now l).2 = l_stop l) as -> by (unfold start_listened; by destruct (start_begins _ _) as [[] ?]). tauto.
  - destruct (l_start l) eqn:E; try (by eapply noop_start). assert (start_failed (start_fails e l).2) as Hf; [|tauto].
    unfold start_fails. match goal with |- context [life_stop ?x] => set (l1 := x) end.
    assert (l_start (life_stop l1).2.2 = StartRollsBack e) as Es.
    { unfold life_stop. destruct (stop_host _) as [[] h]; [|done]. case_match; [done|]. cbn [snd]. by rewrite (proj1 (stop_keeps_start _)). }
    destruct (life_stop l1) as [[] [es l']]; unfold start_failed; cbn [snd] in *; [by rewrite Es|done].
  - destruct (l_start l) eqn:E; try (by eapply noop_start). assert (~ start_failed l) as Hn by (unfold start_failed; rewrite E; tauto).
    match goal with |- context [guard_works ?r ?n ?x] => destruct (guard_start r n x) as [G1 G2]; destruct (guard_works r n x) as [es l1] end.
    cbn [snd] in *. change (l_stop (start_over now _)) with (l_stop l1). rewrite G2. tauto.
  - destruct (l_start l) eqn:E; try (by eapply noop_start). destruct (l_stop l) eqn:E2; try (by eapply noop_start).
    unfold start_failed. split; [done|]. by intros; left.
  - destruct (l_stop l) eqn:E; try (by eapply noop_start); case_match; try (by eapply noop_start).
    all: eapply (same_start l); [done|done|apply stop_keeps_start|done].
  - destruct (l_stop l) eqn:E; try (by eapply noop_start). eapply (same_start l); [done|done| |done].
    by rewrite (proj1 (proj2 (proj2 (stop_keeps_start _)))).
  - destruct (l_stop l) eqn:E; try (by eapply noop_start). eapply (same_start l); [done|done| |done].
    by rewrite (proj1 (proj2 (proj2 (proj2 (stop_keeps_start _))))).
  - destruct (l_stop l) eqn:E; try (by eapply noop_start). eapply (same_start l); [done|done| |done].
    by rewrite (proj2 (proj2 (proj2 (proj2 (stop_keeps_start _))))).
  - destruct (l_stop l) eqn:E; try (by eapply noop_start). by eapply (same_start l).
  - eapply (same_start l); [done|done|by destruct (_ && _)|by destruct (_ && _)].
  - destruct (l_monitors l) as [|n]; [by eapply noop_start|]. eapply (same_start l); [done|done|by rewrite (proj1 (guard_start _ _ _))|by rewrite (proj2 (guard_start _ _ _))].
  - destruct (List.existsb _ _); [|by eapply noop_start]. eapply (same_start l); [done|done|apply guard_start|]. by rewrite (proj2 (guard_start _ _ l)).
  - by eapply (same_start l).
  - eapply (same_start l); [done|done|unfold life_daemon; repeat case_match; done|unfold life_daemon; repeat case_match; done].
Qed.

(** What a cause does to a process that runs: it ends it the way of Node.js, adds
    a call that waits for the cleanup, or begins the cleanup. *)
Lemma cause_spec c now p : p_exit p = None -> let '(stops, p') := process_step (Cause c now) p in
  (stops = false /\ p_exit p' = Some DefaultEnd) \/
  (stops = false /\ p_exit p' = None /\ p_cleanupPromise p' = p_cleanupPromise p /\ (p_awaiting p <> [] -> p_awaiting p' <> [])) \/
  (stops = true /\ p_exit p' = None /\ p_cleanupPromise p = None /\ p_awaiting p' <> [] /\
   p_cleanupPromise p' = Some (CleanupPending (now + ENTRY_CLEANUP_TIMEOUT))).
Proof.
  intros He. assert (forall code q, p_exit q = None -> let '(stops, p') := cleanupAndExit code now q in
    (stops = false /\ p_exit p' = None /\ p_cleanupPromise p' = p_cleanupPromise q /\ (p_awaiting q <> [] -> p_awaiting p' <> [])) \/
    (stops = true /\ p_exit p' = None /\ p_cleanupPromise q = None /\ p_awaiting p' <> [] /\
     p_cleanupPromise p' = Some (CleanupPending (now + ENTRY_CLEANUP_TIMEOUT)))) as Hc.
  { intros code q Hq. unfold cleanupAndExit, cleanup. destruct (p_cleanupPromise q) eqn:E; [left|right]; cbn; split_and!; try done.
    all: by destruct (p_awaiting q). }
  unfold process_step. rewrite He. unfold on_cause, default_action.
  assert (forall code q, q = p \/ (exists ev, q = p <| p_listeners ::= sdel ev |>) -> let '(stops, p') := cleanupAndExit code now q in
    (stops = false /\ p_exit p' = Some DefaultEnd) \/
    (stops = false /\ p_exit p' = None /\ p_cleanupPromise p' = p_cleanupPromise p /\ (p_awaiting p <> [] -> p_awaiting p' <> [])) \/
    (stops = true /\ p_exit p' = None /\ p_cleanupPromise p = None /\ p_awaiting p' <> [] /\
     p_cleanupPromise p' = Some (CleanupPending (now + ENTRY_CLEANUP_TIMEOUT)))) as Hq.
  { intros code q Hq. assert (p_exit q = None) as Hq' by (by destruct Hq as [->|[ev ->]]). specialize (Hc code q Hq').
    destruct (cleanupAndExit code now q) as [stops p']. right. by destruct Hq as [->|[ev ->]]. }
  destruct c; cbn [cause_event]; repeat case_bool_decide; try (apply Hq; eauto; fail); try (by left); right; left; done.
Qed.

Lemma settle_spec failed p due : p_exit p = None -> p_cleanupPromise p = Some (CleanupPending due) -> p_awaiting p <> [] ->
  exists c, p_exit (process_step (StopSettles failed) p).2 = Some (ExitCode c).
Proof.
  intros He Hp Ha. unfold process_step. rewrite He. unfold cleanup_settles. cbn [snd]. rewrite Hp. pcbn.
  destruct (p_awaiting p) as [|c l]; [done|]. by eexists.
Qed.

Lemma ended_inv d : life_inv (dp_life d) -> p_exit (dp_process d) <> None ->
  (forall c, p_exit (dp_process d) = Some (ExitCode c) -> l_stop (dp_life d) = StopOver \/ dp_late d = true \/ start_failed (dp_life d)) ->
  process_inv d.
Proof. intros H1 H2 H3. by split. Qed.

Lemma on_process_inv c now d : process_inv d -> process_inv (on_process c now d).2.
Proof.
  intros [Hl Hc He]. unfold on_process, cleanup_stops. destruct (p_exit (dp_process d)) as [e|] eqn:Ex.
  { unfold process_step. rewrite Ex. cbn [snd]. apply ended_inv; pcbn; [done|by rewrite Ex|]. intros c'. rewrite Ex. apply He. }
  pose proof (cause_spec c now (dp_process d) Ex) as H. destruct (process_step (Cause c now) (dp_process d)) as [stops p].
  specialize (Hc eq_refl). destruct H as [[-> H]|[(-> & H1 & H2 & H3)|(-> & H1 & H2 & H3 & H4)]]; cbn [snd].
  - apply ended_inv; [done|by pcbn; rewrite H|]. intros c'. pcbn. rewrite H. done.
  - split; [done| |by pcbn; rewrite H1]. pcbn. intros _. rewrite H2.
    destruct (p_cleanupPromise (dp_process d)) as [[]|]; [|done|done]. destruct Hc as (C1 & C2 & C3). by split_and!; [| |apply H3].
  - rewrite H2 in Hc. destruct Hc as [C1 C2]. change (dp_life (d <| dp_process := p |>)) with (dp_life d).
    destruct (life_stop_spec (dp_life d) Hl) as (S1 & S2 & S3). destruct (life_stop (dp_life d)) as [first [es l]]. cbn [fst snd] in *.
    destruct first.
    + split; pcbn; [done| |congruence]. intros _. rewrite H4. by split_and!.
    + destruct S3 as [[= -> ->] S4]. destruct (settle_spec false p _ H1 H4 H3) as [code Hcode].
      apply ended_inv; pcbn; [done|by rewrite Hcode|]. intros _ _. right. right. by apply C2.
Qed.

Lemma run_handlers_inv cs now : forall d, process_inv d -> process_inv (run_handlers cs now d).2.
Proof.
  induction cs as [|c cs IH]; intros d Hd; cbn [run_handlers]; [done|]. pose proof (on_process_inv c now d Hd) as H.
  destruct (on_process c now d) as [e1 d1]. specialize (IH d1 H). by destruct (run_handlers cs now d1).
Qed.

Lemma settles_inv d : process_inv d -> process_inv (start_settles (stop_settles d)).
Proof.
  intros Hd. assert (process_inv (stop_settles d)) as H1.
  { unfold stop_settles. destruct (dp_stopping d) eqn:Es; [|done]. case_bool_decide as Eo; [|done]. cbn [andb].
    destruct Hd as [Hl Hc He]. destruct (p_exit (dp_process d)) as [e|] eqn:Ex.
    - unfold process_step. rewrite Ex. apply ended_inv; pcbn; [done|by rewrite Ex|]. intros c. rewrite Ex. apply He.
    - specialize (Hc eq_refl). destruct (p_cleanupPromise (dp_process d)) as [[due|]|] eqn:Ep; [|done|by destruct Hc; congruence].
      destruct Hc as (C1 & C2 & C3).
      match goal with |- context [StopSettles ?b] => destruct (settle_spec b (dp_process d) due Ex Ep C3) as [code Hcode] end.
      apply ended_inv; pcbn; [done|by rewrite Hcode|]. intros _ _. by left. }
  revert H1. generalize (stop_settles d). clear d Hd. intros d Hd. unfold start_settles.
  destruct (l_start (dp_life d)) as [| | | |[e|]] eqn:Es; try done. destruct (p_exit (dp_process d)) eqn:Ex; [done|].
  apply ended_inv; pcbn; [by destruct Hd|done|]. intros _ _. right. right. unfold start_failed. by rewrite Es.
Qed.

Lemma life_changed_inv env op d : p_exit (dp_process d) = None -> of_entry op = false -> process_inv d ->
  process_inv (d <| dp_life := (life_step env op (dp_life d)).2 |>).
Proof.
  intros Ex Eo [Hl Hc He]. specialize (Hc Ex).
  destruct (life_step_ok env op (dp_life d) Hl) as [Hl' _]. destruct (life_step_start env op (dp_life d) Eo Hl) as [S1 S2].
  pose proof (life_step_nearer env op (dp_life d) Hl) as S3.
  split; pcbn; [done| |by rewrite Ex]. intros _. destruct (p_cleanupPromise (dp_process d)) as [[]|]; [|done|].
  - destruct Hc as (C1 & C2 & C3). split_and!; [done| |done]. by apply S3.
  - destruct Hc as [C1 C2]. split; [done|]. intros X. destruct (S2 X) as [Y|Y]; [|done]. by apply S1, C2.
Qed.

Lemma process_step_inv env op d : process_inv d -> process_inv (daemon_process_step env op d).2.
Proof.
  intros Hd. unfold daemon_process_step. destruct (p_exit (dp_process d)) eqn:Ex; [done|]. destruct op as [op now|c now|now].
  - destruct (of_entry op) eqn:Eo; [done|]. pose proof (life_changed_inv env op d Ex Eo Hd) as H1.
    destruct (life_step env op (dp_life d)) as [es l]. cbn [snd] in H1. pose proof (run_handlers_inv (omap handler_cause es) now _ H1) as H2.
    destruct (run_handlers (omap handler_cause es) now (d <| dp_life := l |>)) as [es' d']. by apply settles_inv.
  - destruct (of_host c); [done|]. by apply on_process_inv.
  - destruct Hd as [Hl Hc He]. specialize (Hc Ex). cbn [snd]. unfold process_step. rewrite Ex.
    destruct (p_cleanupPromise (dp_process d)) as [[due|]|] eqn:Ep; cbn [snd]; [|done|].
    + destruct Hc as (C1 & C2 & C3). destruct (due <=? now).
      * destruct (settle_spec true (dp_process d) due Ex Ep C3) as [code Hcode]. unfold process_step in Hcode. rewrite Ex in Hcode. cbn [snd] in Hcode.
        apply ended_inv; pcbn; rewrite ?Hcode; [done..|]. intros _ _. by right; left.
      * split; pcbn; [done| |by rewrite Ex]. intros _. rewrite Ep. by split_and!.
    + split; pcbn; [done| |by rewrite Ex]. intros _. by rewrite Ep.
Qed.

Lemma process_run_inv env ops : forall d, process_inv d -> process_inv (daemon_process_run env ops d).2.
Proof.
  induction ops as [|op ops IH]; intros d Hd; cbn [daemon_process_run]; [done|]. pose proof (process_step_inv env op d Hd) as H.
  destruct (daemon_process_step env op d) as [e1 d1]. specialize (IH d1 H). by destruct (daemon_process_run env ops d1).
Qed.

Lemma entry_started_inv o file lock trace : process_inv (entry_started o file lock trace).
Proof.
  destruct (life_start_ok _ (new_life_inv o file lock trace)) as [Hl _]. split; [done| |done]. intros _. by split.
Qed.

(** ** A cause ends the process *)

(** The process has ended, or its cleanup runs against a limit: the one it ran
    against in [d0], or three seconds from [now]. *)
Definition ending (d0 : DaemonProcess) (now : Z) (d : DaemonProcess) : Prop :=
  p_exit (dp_process d) <> None \/
  exists due, p_cleanupPromise (dp_process d) = Some (CleanupPending due) /\
    (p_cleanupPromise (dp_process d0) = Some (CleanupPending due) \/ due = now + ENTRY_CLEANUP_TIMEOUT).

(** An event that comes from outside and has not been taken before. *)
Definition takes_effect (c : cause) (p : Process) : Prop :=
  match c with
  | Idle | Shutdown => False
  | BeforeExit _ => PBeforeExit ∈ p_listeners p
  | SIGINT | SIGTERM | UncaughtException | UnhandledRejection => True
  end.

(** Such an event, or a call of one of the two handlers. *)
Lemma cause_taken c now p : p_exit p = None -> of_host c = true \/ takes_effect c p ->
  let '(stops, p') := process_step (Cause c now) p in p_exit p' <> None \/ p_cleanupPromise p' <> None.
Proof.
  intros He Hc. unfold process_step. rewrite He. unfold on_cause, default_action.
  assert (forall code q, p_cleanupPromise (cleanupAndExit code now q).2 <> None) as Hq.
  { intros code q. unfold cleanupAndExit, cleanup. by destruct (p_cleanupPromise q) eqn:E; cbn; rewrite ?E. }
  assert (forall code q, let '(_, p') := cleanupAndExit code now q in p_exit p' <> None \/ p_cleanupPromise p' <> None) as Hq'.
  { intros code q. specialize (Hq code q). destruct (cleanupAndExit code now q). by right. }
  destruct c; cbn [cause_event of_host takes_effect] in *; repeat case_bool_decide; try apply Hq'; try (by left); naive_solver.
Qed.

Lemma on_process_keeps d0 c now d : process_inv d -> ending d0 now d -> ending d0 now (on_process c now d).2.
Proof.
  intros Hd He. unfold on_process, cleanup_stops. destruct (p_exit (dp_process d)) as [e|] eqn:Ex.
  { unfold process_step. rewrite Ex. left. pcbn. by rewrite Ex. }
  pose proof (cause_spec c now (dp_process d) Ex) as H. destruct (process_step (Cause c now) (dp_process d)) as [stops p].
  destruct He as [He|(due & Hp & Hdue)]; [congruence|].
  destruct H as [[-> H]|[(-> & H1 & H2 & H3)|(-> & H1 & H2 & H3 & H4)]]; [left|right|congruence]; pcbn; [by rewrite H|].
  exists due. by rewrite H2.
Qed.

Lemma on_process_ends d0 c now d : process_inv d -> p_exit (dp_process d) = None ->
  p_cleanupPromise (dp_process d) = p_cleanupPromise (dp_process d0) ->
  of_host c = true \/ takes_effect c (dp_process d) -> ending d0 now (on_process c now d).2.
Proof.
  intros [Hl Hc He] Ex E0 Ht. specialize (Hc Ex). unfold on_process, cleanup_stops.
  pose proof (cause_spec c now (dp_process d) Ex) as H. pose proof (cause_taken c now (dp_process d) Ex Ht) as H'.
  destruct (process_step (Cause c now) (dp_process d)) as [stops p].
  destruct H as [[-> H]|[(-> & H1 & H2 & H3)|(-> & H1 & H2 & H3 & H4)]]; [left; pcbn; by rewrite H| |].
  - right. pcbn. rewrite H2. destruct H' as [H'|H']; [congruence|]. rewrite <- E0.
    destruct (p_cleanupPromise (dp_process d)) as [[due|]|]; [|done|congruence]. exists due. tauto.
  - change (dp_life (d <| dp_process := p |>)) with (dp_life d). destruct (life_stop (dp_life d)) as [[] [es l]].
    + right. pcbn. eexists. split; [exact H4|by right].
    + left. destruct (settle_spec false p _ H1 H4 H3) as [code Hcode]. pcbn. by rewrite Hcode.
Qed.

Lemma run_handlers_keeps d0 cs now : forall d, process_inv d -> ending d0 now d -> ending d0 now (run_handlers cs now d).2.
Proof.
  induction cs as [|c cs IH]; intros d Hd He; cbn [run_handlers]; [done|].
  pose proof (on_process_inv c now d Hd) as H1. pose proof (on_process_keeps d0 c now d Hd He) as H2.
  destruct (on_process c now d) as [e1 d1]. specialize (IH d1 H1 H2). by destruct (run_handlers cs now d1).
Qed.

Lemma run_handlers_ends d0 cs now d : process_inv d -> p_exit (dp_process d) = None ->
  p_cleanupPromise (dp_process d) = p_cleanupPromise (dp_process d0) ->
  cs <> [] -> Forall (fun c => of_host c = true) cs -> ending d0 now (run_handlers cs now d).2.
Proof.
  intros Hd Ex E0 Hn Hall. destruct cs as [|c cs]; [done|]. pose proof (Forall_inv Hall) as Hc. cbn [run_handlers].
  pose proof (on_process_inv c now d Hd) as H1. pose proof (on_process_ends d0 c now d Hd Ex E0 (or_introl Hc)) as H2.
  destruct (on_process c now d) as [e1 d1]. pose proof (run_handlers_keeps d0 cs now d1 H1 H2) as H3.
  by destruct (run_handlers cs now d1).
Qed.

Lemma settles_keeps d0 now d : process_inv d -> ending d0 now d -> ending d0 now (start_settles (stop_settles d)).
Proof.
  intros [Hl Hc He] Hn.
  assert (ending d0 now (stop_settles d)) as H1.
  { unfold stop_settles. destruct (_ && _); [|done]. destruct (p_exit (dp_process d)) as [e|] eqn:Ex.
    - unfold process_step. rewrite Ex. left. pcbn. by rewrite Ex.
    - destruct Hn as [Hn|(due & Hp & _)]; [congruence|]. specialize (Hc eq_refl). rewrite Hp in Hc. destruct Hc as (_ & _ & C3).
      match goal with |- context [StopSettles ?b] => destruct (settle_spec b (dp_process d) due Ex Hp C3) as [code Hcode] end.
      left. pcbn. by rewrite Hcode. }
  revert H1. generalize (stop_settles d). intros d1 H1. unfold start_settles. repeat case_match; try done; by left.
Qed.

(** The causes the host's handlers stand for. *)
Lemma handlers_called es : Does CallIdleHandler ∈ es \/ Does CallShutdownHandler ∈ es ->
  omap handler_cause es <> [] /\ Forall (fun c => of_host c = true) (omap handler_cause es).
Proof.
  intros H. split.
  - assert (forall e c, e ∈ es -> handler_cause e = Some c -> omap handler_cause es <> []) as Hin.
    { intros e c Hin Hc. apply list_elem_of_In, in_split in Hin as (l1 & l2 & ->). rewrite omap_app. cbn. rewrite Hc. by destruct (omap handler_cause l1). }
    destruct H as [H|H]; by eapply Hin.
  - clear H. induction es as [|e es IH]; [constructor|]. cbn. destruct (handler_cause e) eqn:E; [|done]. constructor; [|done].
    destruct e as [[]| | | | | |]; try done; by injection E as <-.
Qed.

(** C11: The process of a daemon ends for a reason, and when there is one it
    ends.  When the process has called [process.exit], whatever signals, events,
    requests, timers and failures came in whatever order, its host has been
    stopped to the end (its servers, the listeners of the connector, the idle
    timer and the monitor timer released), or the three seconds of the cleanup
    were over, or the start had failed.  When the host calls its idle handler or
    its shutdown handler, and when a signal, an uncaught exception, an unhandled
    rejection or the first [beforeExit] arrives, the process has ended or its
    cleanup runs: the host is being stopped, and the time limit, three seconds
    after the cleanup began, ends the process whatever the host waits for. *)
Theorem daemon_process_ends env ops o file lock trace :
  let d := (daemon_process_run env ops (entry_started o file lock trace)).2 in
  let l := dp_life d in
  (forall c, p_exit (dp_process d) = Some (ExitCode c) ->
     (l_stop l = StopOver /\ released l /\ h_controlServer (l_host l) = false) \/ dp_late d = true \/ start_failed l) /\
  (forall op now, p_exit (dp_process d) = None -> of_entry op = false ->
     Does CallIdleHandler ∈ (life_step env op l).1 \/ Does CallShutdownHandler ∈ (life_step env op l).1 ->
     ending d now (daemon_process_step env (OpLife op now) d).2) /\
  (forall c now, p_exit (dp_process d) = None -> takes_effect c (dp_process d) ->
     ending d now (daemon_process_step env (OpCause c now) d).2) /\
  (p_exit (dp_process d) = None -> forall due, p_cleanupPromise (dp_process d) = Some (CleanupPending due) ->
     l_stop l <> StopIdle /\
     forall now, due <= now -> exists c, p_exit (dp_process (daemon_process_step env (OpClock now) d).2) = Some (ExitCode c)).
Proof.
  intros d l. pose proof (process_run_inv env ops _ (entry_started_inv o file lock trace)) as Hd. fold d in Hd.
  pose proof Hd as [Hl Hc He]. fold l in Hl, Hc, He. split_and!.
  - intros c Ex. destruct (He c Ex) as [Ho|H]; [left|by right]. split; [done|].
    split; [apply (li_released l Hl)|apply (li_unpublished l Hl)]; rewrite Ho; cbn; lia.
  - intros op now Ex Ho Hh. unfold daemon_process_step. rewrite Ex, Ho. pose proof (life_changed_inv env op d Ex Ho Hd) as Hd'.
    fold l in Hd' |- *. destruct (life_step env op l) as [es l']. cbn [fst snd] in Hh, Hd'.
    destruct (handlers_called es Hh) as [Hn Hall].
    pose proof (run_handlers_ends d (omap handler_cause es) now (d <| dp_life := l' |>) Hd' Ex eq_refl Hn Hall) as H1.
    pose proof (run_handlers_inv (omap handler_cause es) now _ Hd') as H2.
    destruct (run_handlers (omap handler_cause es) now _) as [es' d']. by apply settles_keeps.
  - intros c now Ex Ht. unfold daemon_process_step. rewrite Ex. assert (of_host c = false) as -> by (by destruct c).
    apply on_process_ends; [done|done|done|by right].
  - intros Ex due Ep. specialize (Hc Ex). rewrite Ep in Hc. destruct Hc as (C1 & C2 & C3). split; [done|]. intros now Hn.
    destruct (settle_spec true (dp_process d) due Ex Ep C3) as [code Hcode]. exists code. rewrite <- Hcode.
    unfold daemon_process_step, process_step. rewrite Ex. cbn [snd]. rewrite Ep. by rewrite (proj2 (Z.leb_le due now) Hn).
Qed.

(** ** Two processes *)

(** A connector asks for the shutdown; it is answered, the host is stopped and
    the process ends with code 0. *)
Definition shutdown_run : list process_op :=
  [OpLife (LListened 1) 1; OpLife (LClaimed demo_lock 2) 2; OpLife (LDaemon (DHost (HConnect 5 false None 3))) 3;
   OpLife (LDaemon (DHost (HRpc 5 (mkRequest (NInt 1) Protocol.shutdownDaemon (JObj [])) None 4))) 4;
   OpCause SIGTERM 5; OpLife (LControlClosed None) 6; OpLife (LPhysicalClosed None) 7; OpLife (LTraceClosed None) 8].

Definition demo_entry : DaemonProcess := entry_started (mkHostOption 1 (NInt 600000) None (Some true) None None 42 true) (Some (js "7")) false true.

Lemma daemon_process_ends_witness :
  let d := (daemon_process_run demo_env shutdown_run demo_entry).2 in
  p_exit (dp_process d) = Some (ExitCode 0) /\ l_stop (dp_life d) = StopOver /\
  (exists c, p_exit (dp_process (daemon_process_step demo_env (OpClock 3005) (daemon_process_run demo_env (firstn 5 shutdown_run) demo_entry).2).2)
            = Some (ExitCode c)) /\
  (let d3 := (daemon_process_run demo_env (firstn 3 shutdown_run) demo_entry).2 in
   ending d3 4 (daemon_process_step demo_env (OpLife (LDaemon (DHost (HRpc 5 (mkRequest (NInt 1) Protocol.shutdownDaemon (JObj [])) None 4))) 4) d3).2).
Proof.
  assert (p_exit (dp_process (daemon_process_run demo_env shutdown_run demo_entry).2) = Some (ExitCode 0)) as Ex by (vm_compute; reflexivity).
  split; [exact Ex|]. split; [|split].
  - destruct (daemon_process_ends demo_env shutdown_run (mkHostOption 1 (NInt 600000) None (Some true) None None 42 true) (Some (js "7")) false true) as [H _].
    destruct (H 0 Ex) as [(H1 & _)|[H1|H1]]; [exact H1|vm_compute in H1; discriminate H1|vm_compute in H1; destruct H1].
  - destruct (daemon_process_ends demo_env (firstn 5 shutdown_run) (mkHostOption 1 (NInt 600000) None (Some true) None None 42 true) (Some (js "7")) false true) as (_ & _ & _ & H).
    destruct (H ltac:(vm_compute; reflexivity) 3004 ltac:(vm_compute; reflexivity)) as [_ H1]. apply H1. lia.
  - destruct (daemon_process_ends demo_env (firstn 3 shutdown_run) (mkHostOption 1 (NInt 600000) None (Some true) None None 42 true) (Some (js "7")) false true) as (_ & H & _).
    apply H; [vm_compute; reflexivity|reflexivity|]. right. vm_compute. repeat constructor.
Defined.

(** A signal while a failed start rolls back: [stop] returns at once, and the
    process ends before the host is stopped. *)
Example signal_during_rollback :
  let d := (daemon_process_run demo_env [OpLife (LListenFailed (ThrowError (js "EADDRINUSE"))) 1; OpCause SIGTERM 2] demo_entry).2 in
  p_exit (dp_process d) = Some (ExitCode 143) /\ l_stop (dp_life d) = StopClosesPhysical /\ l_start (dp_life d) = StartRollsBack (ThrowError (js "EADDRINUSE")).
Proof. vm_compute. done. Qed.
