(* ===== verification/Prog.v ===== *)
(** * Programs that call the operating system

    The file lock and the daemon manager are sequences of calls whose results
    they cannot know: files and processes belong to other programs as well.
    Such code is a tree of calls here, [prog]; an environment answers them one
    by one.  [exec] runs a program against an environment, and [sat] is a
    program logic over every environment: a monitor watches the calls and the
    answers, says which calls are allowed and which answers are possible, and
    its final state is what a theorem speaks about.  On top of the trees is the
    monad [M] of code that reads and writes the fields of an object and throws.

    The file holds no code of the repository. *)

From S2P Require Export Prelude.

Section Prog.
Context {call : Type} {reply : call -> Type}.

Inductive prog (A : Type) :=
  | Ret (a : A)
  | Call (c : call) (k : reply c -> prog A).
Arguments Ret {A} a.
Arguments Call {A} c k.

Fixpoint pbind {A B} (p : prog A) (f : A -> prog B) : prog B :=
  match p with
  | Ret a => f a
  | Call c k => Call c (fun r => pbind (k r) f)
  end.

(** ** Running *)

Record event := mkEvent { ev_call : call; ev_reply : reply ev_call }.

(** An environment with states [W] answers every call. *)
Fixpoint exec {A W} (serve : forall c, W -> reply c * W) (p : prog A) (w : W) : list event * A * W :=
  match p with
  | Ret a => ([], a, w)
  | Call c k =>
      let '(r, w) := serve c w in
      let '(tr, a, w) := exec serve (k r) w in
      (mkEvent c r :: tr, a, w)
  end.

(** The result and the final state alone. *)
Definition run {A W} (serve : forall c, W -> reply c * W) (p : prog A) (w : W) : A * W :=
  let '(_, a, w) := exec serve p w in (a, w).

(** ** Monitors *)

Record Monitor (Q : Type) := mkMonitor {
  m_allow : Q -> call -> Prop;
  m_assume : Q -> forall c, reply c -> Prop;
  m_next : Q -> forall c, reply c -> Q
}.

Section Sat.
Context {Q : Type} (m : Monitor Q).

(** Every call of the program is allowed and the result satisfies [Post],
    whatever the environment answers within what is assumed of it. *)
Fixpoint sat {A} (p : prog A) (Post : A -> Q -> Prop) (q : Q) : Prop :=
  match p with
  | Ret a => Post a q
  | Call c k => m_allow _ m q c /\ forall r, m_assume _ m q c r -> sat (k r) Post (m_next _ m q c r)
  end.

Lemma sat_mono {A} (p : prog A) (P1 P2 : A -> Q -> Prop) q :
  (forall a q, P1 a q -> P2 a q) -> sat p P1 q -> sat p P2 q.
Proof.
  intros HP. revert q. induction p as [a|c k IH]; cbn; intros q H; [by apply HP|].
  destruct H as [Ha Hk]. split; [done|]. intros r Hr. apply IH, Hk, Hr.
Qed.

Lemma sat_bind {A B} (p : prog A) (f : A -> prog B) Post q :
  sat (pbind p f) Post q <-> sat p (fun a q => sat (f a) Post q) q.
Proof.
  revert q. induction p as [a|c k IH]; cbn; intros q; [done|].
  split; intros [Ha Hk]; (split; [done|]); intros r Hr; apply IH, Hk, Hr.
Qed.

(** The monitor along a trace. *)
Fixpoint watch (tr : list event) (q : Q) : Q :=
  match tr with [] => q | e :: tr => watch tr (m_next _ m q (ev_call e) (ev_reply e)) end.

Fixpoint allowed (tr : list event) (q : Q) : Prop :=
  match tr with
  | [] => True
  | e :: tr => m_allow _ m q (ev_call e) /\ allowed tr (m_next _ m q (ev_call e) (ev_reply e))
  end.

Fixpoint assumed (tr : list event) (q : Q) : Prop :=
  match tr with
  | [] => True
  | e :: tr => m_assume _ m q (ev_call e) (ev_reply e) /\ assumed tr (m_next _ m q (ev_call e) (ev_reply e))
  end.

(** What the logic proves holds of every run. *)
Lemma sat_exec {A W} (serve : forall c, W -> reply c * W) (p : prog A) Post q w tr a w' :
  sat p Post q -> exec serve p w = (tr, a, w') -> assumed tr q -> allowed tr q /\ Post a (watch tr q).
Proof.
  revert q w tr. induction p as [a0|c k IH]; cbn; intros q w tr Hs E Has.
  - injection E as <- <- <-. done.
  - destruct (serve c w) as [r w1]. destruct (exec serve (k r) w1) as [[tr1 a1] w2] eqn:E1.
    injection E as <- <- <-. cbn in *. destruct Hs as [Ha Hk], Has as [Hr Has].
    destruct (IH r _ w1 _ (Hk r Hr) E1 Has) as [Hal HP]. done.
Qed.
End Sat.

Lemma exec_bind {A B W} (serve : forall c, W -> reply c * W) (p : prog A) (f : A -> prog B) w :
  exec serve (pbind p f) w =
    let '(tr1, a, w) := exec serve p w in
    let '(tr2, b, w) := exec serve (f a) w in (tr1 ++ tr2, b, w).
Proof.
  revert w. induction p as [a|c k IH]; cbn; intros w.
  - by destruct (exec serve (f a) w) as [[??]?].
  - destruct (serve c w) as [r w1]. rewrite IH. destruct (exec serve (k r) w1) as [[tr1 a] w2].
    by destruct (exec serve (f a) w2) as [[??]?].
Qed.

Lemma run_bind {A B W} (serve : forall c, W -> reply c * W) (p : prog A) (f : A -> prog B) w :
  run serve (pbind p f) w = let '(a, w) := run serve p w in run serve (f a) w.
Proof.
  unfold run. rewrite exec_bind. destruct (exec serve p w) as [[tr a] w1].
  by destruct (exec serve (f a) w1) as [[tr' b] w2].
Qed.

Lemma run_call {A W} (serve : forall c, W -> reply c * W) c (k : reply c -> prog A) w :
  run serve (Call c k) w = let '(r, w) := serve c w in run serve (k r) w.
Proof. unfold run. cbn. destruct (serve c w) as [r w1]. by destruct (exec serve (k r) w1) as [[tr a] w2]. Qed.

(** ** Programs that make calls of one kind only *)

Fixpoint only {A} (C : call -> Prop) (p : prog A) : Prop :=
  match p with
  | Ret _ => True
  | Call c k => C c /\ forall r, only C (k r)
  end.

Lemma only_bind {A B} C (p : prog A) (f : A -> prog B) :
  only C p -> (forall a, only C (f a)) -> only C (pbind p f).
Proof. intros Hp Hf. induction p as [a|c k IH]; cbn in *; [apply Hf|]. naive_solver. Qed.

Lemma only_mono {A} (C D : call -> Prop) (p : prog A) : (forall c, C c -> D c) -> only C p -> only D p.
Proof. intros HCD. induction p as [a|c k IH]; cbn; naive_solver. Qed.

(** Calls that an invariant of the monitor allows and survives. *)
Definition keeps_inv {Q} (m : Monitor Q) (Inv : Q -> Prop) (c : call) : Prop :=
  forall q, Inv q -> m_allow _ m q c /\ forall r, Inv (m_next _ m q c r).

Lemma sat_only {A Q} (m : Monitor Q) (Inv : Q -> Prop) C (p : prog A) q :
  (forall c, C c -> keeps_inv m Inv c) -> only C p -> Inv q -> sat m p (fun _ => Inv) q.
Proof.
  intros HC. revert q. induction p as [a|c k IH]; cbn; intros q Hp Hq; [done|].
  destruct Hp as [Hc Hk], (HC c Hc q Hq) as [Ha Hn]. split; [done|]. intros r _. by apply IH.
Qed.

(** ** Objects and exceptions *)

(** How a method ends; [NoFuel] stands for a loop that has not ended after the
    iterations it was given. *)
Inductive outcome (E A : Type) := Returned (a : A) | Thrown (e : E) | NoFuel.
Arguments Returned {E A} a.
Arguments Thrown {E A} e.
Arguments NoFuel {E A}.

(** Methods of an object with fields [S]. *)
Definition M (S E A : Type) : Type := S -> prog (outcome E A * S).

Section Monad.
Context {S E : Type}.

Definition mret {A} (a : A) : M S E A := fun s => Ret (Returned a, s).
Definition mthrow {A} (e : E) : M S E A := fun s => Ret (Thrown e, s).
Definition mspin {A} : M S E A := fun s => Ret (NoFuel, s).
Definition mget_state : M S E S := fun s => Ret (Returned s, s).
Definition mput (s : S) : M S E unit := fun _ => Ret (Returned tt, s).
Definition mcall (c : call) : M S E (reply c) := fun s => Call c (fun r => Ret (Returned r, s)).

Definition mthen {A B} (p : M S E A) (f : A -> M S E B) : M S E B := fun s =>
  pbind (p s) (fun '(o, s) => match o with
                              | Returned a => f a s
                              | Thrown e => Ret (Thrown e, s)
                              | NoFuel => Ret (NoFuel, s)
                              end).

(** [try { p } catch (e) { h(e) }]. *)
Definition mcatch {A} (p : M S E A) (h : E -> M S E A) : M S E A := fun s =>
  pbind (p s) (fun '(o, s) => match o with
                              | Thrown e => h e s
                              | _ => Ret (o, s)
                              end).

(** [try { p } finally { f }]: an exception of [f] replaces the outcome. *)
Definition mfinally {A} (p : M S E A) (f : M S E unit) : M S E A := fun s =>
  pbind (p s) (fun '(o, s) => match o with
                              | NoFuel => Ret (NoFuel, s)
                              | _ => pbind (f s) (fun '(o', s) => match o' with
                                                                  | Returned _ => Ret (o, s)
                                                                  | Thrown e => Ret (Thrown e, s)
                                                                  | NoFuel => Ret (NoFuel, s)
                                                                  end)
                              end).

(** [for (const x of l) f(x)]. *)
Fixpoint mfor {A} (l : list A) (f : A -> M S E unit) : M S E unit :=
  match l with
  | [] => mret tt
  | x :: l => mthen (f x) (fun _ => mfor l f)
  end.

Lemma run_then {A B W} (serve : forall c, W -> reply c * W) (p : M S E A) (f : A -> M S E B) s w :
  run serve (mthen p f s) w =
    let '(o, s, w) := run serve (p s) w in
    match o with
    | Returned a => run serve (f a s) w
    | Thrown e => (Thrown e, s, w)
    | NoFuel => (NoFuel, s, w)
    end.
Proof.
  unfold mthen. rewrite run_bind. destruct (run serve (p s) w) as [[o s'] w']. by destruct o.
Qed.

(** Methods that make calls of one kind only. *)
Definition calls_only {A} (C : call -> Prop) (p : M S E A) : Prop := forall s, only C (p s).

Lemma calls_only_call (C : call -> Prop) c : C c -> calls_only C (mcall c).
Proof. intros Hc s. cbn. auto. Qed.

Lemma calls_only_then {A B} C (p : M S E A) (f : A -> M S E B) :
  calls_only C p -> (forall a, calls_only C (f a)) -> calls_only C (mthen p f).
Proof. intros Hp Hf s. apply only_bind; [apply Hp|]. intros [[a|e|] s']; [apply Hf|done..]. Qed.

(** ** The logic of methods *)

Section Wp.
Context {Q : Type} (m : Monitor Q).

(** [wp p Post s q]: from the fields [s] and the monitor state [q] the method
    makes allowed calls only and ends with an outcome as [Post] says. *)
Definition wp {A} (p : M S E A) (Post : outcome E A -> S -> Q -> Prop) (s : S) (q : Q) : Prop :=
  sat m (p s) (fun '(o, s) q => Post o s q) q.

Lemma wp_mono {A} (p : M S E A) (P1 P2 : outcome E A -> S -> Q -> Prop) s q :
  wp p P1 s q -> (forall o s q, P1 o s q -> P2 o s q) -> wp p P2 s q.
Proof. intros H HP. eapply sat_mono; [|exact H]. intros [o s'] q'. apply HP. Qed.

Lemma wp_ret {A} (a : A) Post s q : Post (Returned a) s q -> wp (mret a) Post s q.
Proof. done. Qed.

Lemma wp_throw {A} e (Post : outcome E A -> S -> Q -> Prop) s q : Post (Thrown e) s q -> wp (mthrow e) Post s q.
Proof. done. Qed.

Lemma wp_spin {A} (Post : outcome E A -> S -> Q -> Prop) s q : Post NoFuel s q -> wp mspin Post s q.
Proof. done. Qed.

Lemma wp_get Post s q : Post (Returned s) s q -> wp mget_state Post s q.
Proof. done. Qed.

Lemma wp_put s' Post s q : Post (Returned tt) s' q -> wp (mput s') Post s q.
Proof. done. Qed.

Lemma wp_call c Post s q :
  m_allow _ m q c -> (forall r, m_assume _ m q c r -> Post (Returned r) s (m_next _ m q c r)) ->
  wp (mcall c) Post s q.
Proof. intros Ha Hr. split; [done|]. intros r Hr'. by apply Hr. Qed.

(** A call that leaves the monitor where it is. *)
Lemma wp_call_neutral c Post s q :
  m_allow _ m q c -> (forall r, m_next _ m q c r = q) -> (forall r, Post (Returned r) s q) ->
  wp (mcall c) Post s q.
Proof. intros Ha Hn Hr. apply wp_call; [done|]. intros r _. rewrite Hn. apply Hr. Qed.

(** What follows [p] after its outcome. *)
Definition and_then {A B} (f : A -> M S E B) (Post : outcome E B -> S -> Q -> Prop)
  : outcome E A -> S -> Q -> Prop := fun o s q =>
  match o with
  | Returned a => wp (f a) Post s q
  | Thrown e => Post (Thrown e) s q
  | NoFuel => Post NoFuel s q
  end.

Lemma wp_then {A B} (p : M S E A) (f : A -> M S E B) Post s q :
  wp p (and_then f Post) s q -> wp (mthen p f) Post s q.
Proof.
  intros H. apply sat_bind. eapply sat_mono; [|exact H]. intros [[a|e|] s'] q'; cbn; done.
Qed.

Lemma wp_catch {A} (p : M S E A) h Post s q :
  wp p (fun o s q => match o with Thrown e => wp (h e) Post s q | _ => Post o s q end) s q ->
  wp (mcatch p h) Post s q.
Proof.
  intros H. apply sat_bind. eapply sat_mono; [|exact H]. intros [[a|e|] s'] q'; cbn; done.
Qed.

Lemma wp_finally {A} (p : M S E A) f Post s q :
  wp p (fun o s q => match o with
                     | NoFuel => Post NoFuel s q
                     | _ => wp f (fun o' s q => match o' with
                                                | Returned _ => Post o s q
                                                | Thrown e => Post (Thrown e) s q
                                                | NoFuel => Post NoFuel s q
                                                end) s q
                     end) s q ->
  wp (mfinally p f) Post s q.
Proof.
  intros H. apply sat_bind. eapply sat_mono; [|exact H].
  intros [[a|e|] s'] q'; cbn; [| |done]; intros Hf; apply sat_bind; (eapply sat_mono; [|exact Hf]);
    intros [[?|?|] s''] q''; cbn; done.
Qed.

(** A loop over a list keeps an invariant that each turn keeps. *)
Lemma wp_for {A} (l : list A) (f : A -> M S E unit) (Inv : S -> Q -> Prop) Post s q :
  (forall x s q, x ∈ l -> Inv s q ->
     wp (f x) (fun o s q => match o with Returned _ => Inv s q | Thrown e => Post (Thrown e) s q | NoFuel => Post NoFuel s q end) s q) ->
  (forall s q, Inv s q -> Post (Returned tt) s q) -> Inv s q -> wp (mfor l f) Post s q.
Proof.
  intros Hf Hend. revert s q. induction l as [|x l IH]; intros s q Hi; cbn; [by apply Hend|].
  apply wp_then. eapply wp_mono; [apply Hf; [left|done]|].
  intros [[]|e|] s' q'; cbn; [|done..]. intros Hi'. apply IH; [|done]. intros. apply Hf; [by right|done].
Qed.
End Wp.
End Monad.
End Prog.

Arguments prog : clear implicits.
Arguments Ret {call reply A} a.
Arguments Call {call reply A} c k.
Arguments event : clear implicits.
Arguments Monitor : clear implicits.
Arguments mkMonitor {call reply Q}.
Arguments M : clear implicits.
Arguments Returned {E A} a.
Arguments Thrown {E A} e.
Arguments NoFuel {E A}.

#[global] Arguments wp {call reply S E Q} m {A} p Post s q : simpl never.
#[global] Arguments mthen {call reply S E A B} p f : simpl never.

Notation "'mlet' x := p 'in' q" := (mthen p (fun x => q))
  (at level 10, x pattern, p at level 100, q at level 200) : js_scope.
Notation "p ';;;' q" := (mthen p (fun _ => q)) (at level 100, right associativity) : js_scope.

(** Symbolic execution of a method up to its next call or loop. *)
Ltac wp_step :=
  match goal with
  | |- wp _ (mthen _ _) _ _ _ => apply wp_then
  | |- wp _ (mret _) _ _ _ => apply wp_ret
  | |- wp _ (mthrow _) _ _ _ => apply wp_throw
  | |- wp _ mspin _ _ _ => apply wp_spin
  | |- wp _ mget_state _ _ _ => apply wp_get
  | |- wp _ (mput _) _ _ _ => apply wp_put
  | |- wp _ (mcatch _ _) _ _ _ => apply wp_catch
  | |- wp _ (mfinally _ _) _ _ _ => apply wp_finally
  | |- and_then _ _ _ _ _ _ => unfold and_then
  end.
Ltac wp_steps := cbn [negb id]; repeat (wp_step; cbn [negb id]).
