(* ===== verification/System.v ===== *)
(** * The system calls of the file lock and the daemon manager

    The signature of the calls to Node.js and to other components, and the
    exceptions the code tells apart.  Paths are named by their role: the code
    builds each of them once, from its options ([Paths]). *)

From Stdlib Require Import String.
From stdpp Require Import strings.
From S2P Require Export JsValue Prog.
From S2P Require Import Json Client.

Inductive path := LockParent | LockPath | OwnerPath | EndpointPath.

Inductive signal := SigTerm | SigKill.
#[export] Instance signal_eq_dec : EqDecision signal.
Proof. solve_decision. Defined.

(** [MultiplexerDaemonReplaceReason]. *)
Inductive MultiplexerDaemonReplaceReason := daemon_protocol_older_than_connector | force_stop.

(** The exceptions: a Node.js error with its code, the manager's own class, and
    errors that nothing inspects. *)
Inductive error :=
  | SysError (code : option string)
  | RetryableDaemonError
  | PlainError (message : string).

Inductive sys_call :=
  (* files *)
  | MkdirSync (p : path)
  | ExistsSync (p : path)
  | ReadFileSync (p : path)
  | WriteFileSync (p : path) (text : jstr)
  | RmSync (p : path)
  | StatSync (p : path)
  (* the process and the clock *)
  | ProcessPid
  | DateNow
  | RandomBytes
  | KillZero (pid : Z)                         (* process.kill(pid, 0) *)
  | ProcessKill (pid : Z) (sig : signal)
  | FindProcesses                              (* pgrep or find-process, by name *)
  | SpawnProcess (args : list jstr)
  | Sleep (duration : Z)
  | Schedule                                   (* which of several promises goes on *)
  (* the daemon *)
  | ProbeHealth
  | ShutdownRpc (reason : MultiplexerDaemonReplaceReason).

(** The answers: an error code where the call throws; modification times in
    whole milliseconds (they are only compared with integers); the random bytes
    as a hexadecimal text. *)
Definition sys_reply (c : sys_call) : Type :=
  match c with
  | MkdirSync _ | WriteFileSync _ _ | RmSync _ | KillZero _ | ProcessKill _ _ | SpawnProcess _ => option error
  | ExistsSync _ | ShutdownRpc _ => bool
  | ReadFileSync _ => option jstr
  | StatSync _ => Z + option string
  | ProcessPid | DateNow => Z
  | RandomBytes => jstr
  | FindProcesses => list Z
  | Sleep _ => unit
  | Schedule => nat
  | ProbeHealth => validation
  end.

Abbreviation sys_prog := (prog sys_call sys_reply).
Abbreviation sys_M := (M sys_call sys_reply).
Abbreviation sys_monitor := (Monitor sys_call sys_reply).

Abbreviation sys c := (@mcall sys_call sys_reply _ error c).

(** [error?.code]. *)
Definition error_code (e : error) : option string := match e with SysError c => c | _ => None end.

Definition has_code (code : string) (e : error) : bool := bool_decide (error_code e = Some code).

(** [isProcessAlive], which both files define alike: a process that may not be
    signalled is alive. *)
Definition isProcessAlive {S} (pid : Z) : sys_M S error bool :=
  if pid <=? 0 then mret false
  else mlet r := sys (KillZero pid) in
       mret (match r with None => true | Some e => has_code "EPERM" e end).

(** A call that throws its error. *)
Definition or_throw {S} (c : sys_call) (f : sys_reply c -> option error) : sys_M S error unit :=
  mlet r := sys c in match f r with None => mret tt | Some e => mthrow e end.

Lemma wp_or_throw {S Q} (m : sys_monitor Q) c f Post (s : S) q :
  m_allow _ m q c ->
  (forall r, m_assume _ m q c r ->
     Post (match f r with None => Returned tt | Some e => Thrown e end) s (m_next _ m q c r)) ->
  wp m (or_throw c f) Post s q.
Proof.
  intros Ha Hr. apply wp_then, wp_call; [done|]. intros r Hr'. specialize (Hr r Hr'). cbn.
  by destruct (f r).
Qed.

Lemma wp_isProcessAlive {S Q} (m : sys_monitor Q) pid Post (s : S) q :
  m_allow _ m q (KillZero pid) ->
  (pid <= 0 -> Post (Returned false) s q) ->
  (forall r, m_assume _ m q (KillZero pid) r ->
     Post (Returned (match r with None => true | Some e => has_code "EPERM" e end)) s (m_next _ m q (KillZero pid) r)) ->
  wp m (isProcessAlive pid) Post s q.
Proof.
  intros Ha H0 Hr. unfold isProcessAlive. destruct (Z.leb_spec pid 0); [by apply wp_ret, H0|].
  apply wp_then, wp_call; [done|]. intros r Hr'. apply wp_ret. by apply Hr.
Qed.
