(* ===== verification/FileLock.v ===== *)
(** * The file lock

    Models [multiplexer/utils/FileLock.ts]: a lock directory with a file that
    names its owner.  The operations are programs over system calls, first run
    alone against a file system, then by several processes at once, their calls
    interleaved. *)

From Stdlib Require Import String.
From stdpp Require Import strings.
From S2P Require Import JsValue Json Prog System.

(** ** State *)

Record FileLockOwner := mkOwner { o_pid : Z; o_createdAt : Z; o_token : jstr }.

#[export] Instance file_lock_owner_eq_dec : EqDecision FileLockOwner.
Proof. solve_decision. Defined.

Record FileLock := mkFileLock { fl_locked : bool; fl_owner : option FileLockOwner }.

Definition new_file_lock : FileLock := mkFileLock false None.

(** The state [clearLocalState] leaves. *)
Definition cleared : FileLock := mkFileLock false None.

(** ** Operations *)

Abbreviation L := (sys_M FileLock error).

Definition clearLocalState : L unit := mput cleared.

(** [JSON.stringify(owner)]. *)
Definition owner_json (o : FileLockOwner) : json :=
  JObj [(js "pid", jint (o_pid o)); (js "createdAt", jint (o_createdAt o)); (js "token", JStr (o_token o))].

(** A positive safe integer, the check on [pid] and [createdAt]. *)
Definition positive_safe (v : jsval) : option Z :=
  match v with
  | Some (JNum (NInt z)) => if (0 <? z) && (z <=? MAX_SAFE) then Some z else None
  | _ => None
  end.

(** The owner a text of [owner.json] names, if it is a valid one. *)
Definition parse_owner (text : jstr) : option FileLockOwner :=
  match parse text with
  | None => None
  | Some owner =>
      match positive_safe (jget (js "pid") (Some owner)), positive_safe (jget (js "createdAt") (Some owner)),
            jget (js "token") (Some owner) with
      | Some pid, Some createdAt, Some (JStr (c :: token)) => Some (mkOwner pid createdAt (c :: token))
      | _, _, _ => None
      end
  end.

Definition readOwner : L (option FileLockOwner) :=
  mlet present := sys (ExistsSync OwnerPath) in
  if negb present then mret None
  else mlet text := sys (ReadFileSync OwnerPath) in
       mret (text ≫= parse_owner).

(** [isSameOwner]: both absent, or the same pid, time and token. *)
Definition isSameOwner (left right : option FileLockOwner) : bool := bool_decide (left = right).

Definition createDefaultToken (pid createdAt : Z) (random : jstr) : jstr :=
  show_int pid ++ [45] ++ show_int createdAt ++ [45] ++ random.

Definition createOwner : L FileLockOwner :=
  mlet pid := sys ProcessPid in
  mlet createdAt := sys DateNow in
  mlet random := sys RandomBytes in
  mret (mkOwner pid createdAt (createDefaultToken pid createdAt random)).

Definition writeOwner (owner : FileLockOwner) : L unit :=
  or_throw (WriteFileSync OwnerPath (stringify (owner_json owner))) id.

(** Whether the lock this object took is still its own. *)
Definition still_owned : L bool :=
  mlet lock := mget_state in
  match fl_owner lock with
  | Some owner => mlet current := readOwner in mret (isSameOwner current (Some owner))
  | None => mret false
  end.

(** The directory is made first and its owner published afterwards; an
    existing directory means that the lock is taken. *)
Definition take_lock : L bool :=
  mlet owner := createOwner in
  mcatch
    (or_throw (MkdirSync LockParent) id ;;;
     or_throw (MkdirSync LockPath) id ;;;
     writeOwner owner ;;;
     mput (mkFileLock true (Some owner)) ;;;
     mret true)
    (fun e => if has_code "EEXIST" e then mret false else mthrow e).

Definition acquire : L bool :=
  mlet lock := mget_state in
  if fl_locked lock then
    mlet owned := still_owned in
    if owned then mret true else clearLocalState ;;; take_lock
  else take_lock.

(** [tryRemove]: remove the directory unless its owner is not the expected
    one; the exceptions of [rmSync] are caught. *)
Definition tryRemove (expectedOwner : option FileLockOwner) : L bool :=
  mlet present := sys (ExistsSync LockPath) in
  if negb present then mret true
  else
    mlet owner := readOwner in
    if negb (isSameOwner expectedOwner owner) then mret false
    else mlet r := sys (RmSync LockPath) in
         mret (match r with None => true | Some _ => false end).

Definition release : L unit :=
  mlet lock := mget_state in
  if negb (fl_locked lock) then mret tt
  else
    match fl_owner lock with
    | None => clearLocalState
    | Some owner =>
        mlet removed := tryRemove (Some owner) in
        if removed then clearLocalState
        else
          mlet current := readOwner in
          if negb (isSameOwner current (Some owner)) then clearLocalState
          else mthrow (PlainError "Failed to release file lock")
    end.

Definition isLockStateStale (owner : option FileLockOwner) (timeout now : Z) : L bool :=
  mlet present := sys (ExistsSync LockPath) in
  if negb present then mret false
  else
    match owner with
    | Some o =>
        mlet alive := isProcessAlive (o_pid o) in
        if negb alive then mret true else mret (timeout <? now - o_createdAt o)
    | None =>
        mlet st := sys (StatSync LockPath) in
        match st with
        | inl mtime => mret (timeout <? now - mtime)
        | inr code => mret (negb (bool_decide (code = Some "ENOENT"%string)))
        end
    end.

Definition cleanupStale (timeout now : Z) : L bool :=
  mlet staleOwner := readOwner in
  mlet stale := isLockStateStale staleOwner timeout now in
  if negb stale then mret false else tryRemove staleOwner.

(** ** The owner file *)

Definition valid_owner (o : FileLockOwner) : Prop :=
  0 < o_pid o <= MAX_SAFE /\ 0 < o_createdAt o <= MAX_SAFE /\ o_token o <> [] /\ wf_str (o_token o) = true.

(** What an owner writes is read back. *)
Lemma parse_owner_written o : valid_owner o -> parse_owner (stringify (owner_json o)) = Some o.
Proof.
  intros (Hp & Hc & Hne & Hw). unfold parse_owner. rewrite parse_stringify.
  - change (jget (js "pid") (Some (owner_json o))) with (Some (jint (o_pid o))).
    change (jget (js "createdAt") (Some (owner_json o))) with (Some (jint (o_createdAt o))).
    change (jget (js "token") (Some (owner_json o))) with (Some (JStr (o_token o))). unfold positive_safe, jint.
    rewrite !(proj2 (Z.ltb_lt 0 _)), !(proj2 (Z.leb_le _ MAX_SAFE)) by lia. by destruct o as [p c [|u t]].
  - destruct o as [p c t]. cbn -[wf_str MAX_SAFE Z.leb] in *. rewrite Hw.
    rewrite !(proj2 (Z.leb_le _ _)) by lia. vm_compute. done.
Qed.

(** ** The lock under any monitor

    Facts for monitors that the reading calls of the lock do not concern. *)

Definition reading (c : sys_call) : bool :=
  match c with
  | ExistsSync _ | ReadFileSync _ | StatSync _ | KillZero _ | ProcessPid | DateNow | RandomBytes | MkdirSync LockParent => true
  | _ => false
  end.

Definition reads_neutral {Q} (m : sys_monitor Q) (q : Q) : Prop :=
  forall c, reading c = true -> m_allow _ m q c /\ forall r, m_next _ m q c r = q.

Section Neutral.
Context {Q : Type} (m : sys_monitor Q).

Lemma wp_reading c Post (s : FileLock) q : reading c = true -> reads_neutral m q ->
  (forall r, Post (Returned r) s q) -> wp m (sys c) Post s q.
Proof. intros Hc Hq H. destruct (Hq c Hc). by apply wp_call_neutral. Qed.

Lemma wp_readOwner_any Post lock q : reads_neutral m q ->
  (forall r, Post (Returned r) lock q) -> wp m readOwner Post lock q.
Proof.
  intros Hq H. unfold readOwner. wp_steps. apply wp_reading; [done..|]. intros []; wp_steps; [|apply H].
  apply wp_reading; [done..|]. intros r. wp_steps. apply H.
Qed.

(** Removal changes the monitor only if the directory is removed. *)
Lemma wp_tryRemove_any o Post lock q : reads_neutral m q -> m_allow _ m q (RmSync LockPath) ->
  (forall e, m_next _ m q (RmSync LockPath) (Some e) = q) ->
  (forall b, Post (Returned b) lock q) -> Post (Returned true) lock (m_next _ m q (RmSync LockPath) None) ->
  wp m (tryRemove o) Post lock q.
Proof.
  intros Hq Ha Hn Hb Ht. unfold tryRemove. wp_steps. apply wp_reading; [done..|]. intros []; wp_steps; [|apply Hb].
  apply wp_readOwner_any; [done|]. intros r. wp_steps. destruct (isSameOwner o r); wp_steps; [|apply Hb].
  apply wp_call; [done|]. intros [e|] _; wp_steps; [rewrite Hn; apply Hb|apply Ht].
Qed.

Lemma wp_cleanupStale_any t now Post lock q : reads_neutral m q -> m_allow _ m q (RmSync LockPath) ->
  (forall r, m_next _ m q (RmSync LockPath) r = q) ->
  (forall b, Post (Returned b) lock q) -> wp m (cleanupStale t now) Post lock q.
Proof.
  intros Hq Ha Hn Hb. unfold cleanupStale, isLockStateStale. wp_steps. apply wp_readOwner_any; [done|].
  intros r. wp_steps. apply wp_reading; [done..|].
  assert (forall b, wp m (if negb b then mret false else tryRemove r) Post lock q) as Hrm.
  { intros []; wp_steps; [|apply Hb]. apply wp_tryRemove_any; try done. rewrite Hn. apply Hb. }
  intros []; wp_steps; [|apply (Hrm false)]. destruct r as [o|]; wp_steps.
  - destruct (Hq (KillZero (o_pid o)) eq_refl) as [Hk Hkn]. apply wp_isProcessAlive; [done| |].
    + intros _. wp_steps. apply (Hrm true).
    + intros r _. rewrite Hkn. destruct r as [e|]; wp_steps; [destruct (has_code _ _)|]; wp_steps;
        first [apply (Hrm true) | apply Hrm].
  - apply wp_reading; [done..|]. intros [mtime|code]; wp_steps; apply Hrm.
Qed.

(** Taking a free lock: the owner is published last. *)
Lemma wp_take_lock_any (Post : outcome error bool -> FileLock -> Q -> Prop) lock q :
  reads_neutral m q -> m_allow _ m q (MkdirSync LockPath) ->
  (forall r, m_next _ m q (MkdirSync LockPath) r = q) ->
  (forall text, m_allow _ m q (WriteFileSync OwnerPath text) /\
                forall e, m_next _ m q (WriteFileSync OwnerPath text) (Some e) = q) ->
  (forall o text, Post (Returned true) (mkFileLock true (Some o)) (m_next _ m q (WriteFileSync OwnerPath text) None)) ->
  Post (Returned false) lock q -> (forall e, Post (Thrown e) lock q) ->
  wp m take_lock Post lock q.
Proof.
  intros Hq Hma Hmn Hw Ht Hf He. unfold take_lock, createOwner, writeOwner. wp_steps.
  apply wp_reading; [done..|]. intros pid. wp_steps. apply wp_reading; [done..|]. intros now. wp_steps.
  apply wp_reading; [done..|]. intros random. wp_steps.
  assert (forall e, wp m (if has_code "EEXIST" e then mret false else mthrow e) Post lock q) as Hcatch.
  { intros e. destruct (has_code _ _); wp_steps; [apply Hf|apply He]. }
  destruct (Hq (MkdirSync LockParent) eq_refl) as [Hpa Hpn].
  apply wp_or_throw; [done|]. intros r _. rewrite Hpn. destruct r as [e|]; wp_steps; [apply Hcatch|].
  apply wp_or_throw; [done|]. intros r _. rewrite Hmn. destruct r as [e|]; wp_steps; [apply Hcatch|].
  apply wp_or_throw; [apply Hw|]. intros [e|] _; wp_steps; [rewrite (proj2 (Hw _)); apply Hcatch|]. apply Ht.
Qed.
End Neutral.

(** ** Several processes

    Every process has its own [FileLock] object on the same path.  An operation
    runs call by call, and between two calls the others may run: a step is the
    start of an operation, one call of a running one, its end, or the passing
    of time. *)

Record LockDir := mkDir {
  d_by : nat;                (* the process that made it (not visible to the code) *)
  d_mtime : Z;
  d_owner : option jstr      (* the text of owner.json *)
}.

Record Files := mkFiles { f_clock : Z; f_dir : option LockDir }.

Inductive lock_op := OpAcquire | OpRelease | OpCleanup (timeout now : Z).

Definition forget {A} (p : L A) (lock : FileLock) : sys_prog FileLock := pbind (p lock) (fun '(_, lock) => Ret lock).

Definition op_prog (op : lock_op) : FileLock -> sys_prog FileLock :=
  match op with
  | OpAcquire => forget acquire
  | OpRelease => forget release
  | OpCleanup timeout now => forget (cleanupStale timeout now)
  end.

Inductive thread := Idle (lock : FileLock) | Running (p : sys_prog FileLock).

Record LockSystem := mkLockSystem { ls_files : Files; ls_threads : nat -> thread }.

Definition set_thread (i : nat) (t : thread) (ts : nat -> thread) : nat -> thread :=
  fun j => if decide (j = i) then t else ts j.

Section Interleaving.
Variable pid_of : nat -> Z.     (* process ids *)
Variable timeout : Z.           (* the age at which a lock counts as stale *)

Definition made_by (i : nat) (f : Files) : Prop := exists d, f_dir f = Some d /\ d_by d = i.

(** The answers of the file system and the operating system to a call of
    process [i]: [mkdir] is atomic, reading, writing and removing may fail
    (removing possibly after deleting the owner file), and all processes of the
    system are alive.  [existsSync] and [statSync] tell what is there: a [statSync]
    that fails for another reason than a missing file, which the code takes for a
    stale lock, is not among the answers. *)
Definition answers (i : nat) (f : Files) (c : sys_call) : sys_reply c -> Files -> Prop :=
  match c return sys_reply c -> Files -> Prop with
  | MkdirSync LockPath => fun r f' =>
      match f_dir f with
      | Some _ => r = Some (SysError (Some "EEXIST"%string)) /\ f' = f
      | None => (r = None /\ f' = mkFiles (f_clock f) (Some (mkDir i (f_clock f) None))) \/ (is_Some r /\ f' = f)
      end
  | ExistsSync LockPath => fun r f' => r = bool_decide (is_Some (f_dir f)) /\ f' = f
  | ExistsSync OwnerPath => fun r f' => r = bool_decide (is_Some (f_dir f ≫= d_owner)) /\ f' = f
  | ReadFileSync OwnerPath => fun r f' => (r = None \/ r = f_dir f ≫= d_owner) /\ f' = f
  | WriteFileSync OwnerPath text => fun r f' =>
      match f_dir f with
      | Some d => (r = None /\ f' = mkFiles (f_clock f) (Some (mkDir (d_by d) (f_clock f) (Some text)))) \/ (is_Some r /\ f' = f)
      | None => is_Some r /\ f' = f
      end
  | RmSync LockPath => fun r f' =>
      (r = None /\ f' = mkFiles (f_clock f) None) \/
      (is_Some r /\ (f' = f \/ exists d, f_dir f = Some d /\ f' = mkFiles (f_clock f) (Some (mkDir (d_by d) (d_mtime d) None))))
  | StatSync LockPath => fun r f' =>
      r = match f_dir f with Some d => inl (d_mtime d) | None => inr (Some "ENOENT"%string) end /\ f' = f
  | ProcessPid => fun r f' => r = pid_of i /\ f' = f
  | DateNow => fun r f' => r = f_clock f /\ f' = f
  | RandomBytes => fun r f' => wf_str r = true /\ f' = f
  | KillZero pid => fun r f' => ((exists j, pid = pid_of j) -> r = None) /\ f' = f
  | _ => fun _ f' => f' = f
  end.

Inductive lock_step : LockSystem -> LockSystem -> Prop :=
  | StepStart i op lock f ts :
      ts i = Idle lock ->
      match op with OpCleanup t now => t = timeout /\ now <= f_clock f | _ => True end ->
      lock_step (mkLockSystem f ts) (mkLockSystem f (set_thread i (Running (op_prog op lock)) ts))
  | StepCall i c k r f f' ts :
      ts i = Running (Call c k) -> answers i f c r f' ->
      lock_step (mkLockSystem f ts) (mkLockSystem f' (set_thread i (Running (k r)) ts))
  | StepEnd i lock f ts :
      ts i = Running (Ret lock) ->
      lock_step (mkLockSystem f ts) (mkLockSystem f (set_thread i (Idle lock) ts))
  | StepTick clock f ts :
      f_clock f <= clock <= MAX_SAFE ->
      lock_step (mkLockSystem f ts) (mkLockSystem (mkFiles clock (f_dir f)) ts).

(** No lock is as old as the limit: critical sections are shorter. *)
Definition fresh (f : Files) : Prop :=
  forall d, f_dir f = Some d ->
    f_clock f - d_mtime d <= timeout /\
    forall o, d_owner d ≫= parse_owner = Some o -> f_clock f - o_createdAt o <= timeout.

Inductive lock_reach (clock : Z) : LockSystem -> Prop :=
  | ReachInit : lock_reach clock (mkLockSystem (mkFiles clock None) (fun _ => Idle new_file_lock))
  | ReachStep s s' : lock_reach clock s -> fresh (ls_files s) -> lock_step s s' -> lock_reach clock s'.

(** Process [i] is past a successful [acquire] and before its [release]. *)
Definition holds (i : nat) (s : LockSystem) : Prop :=
  exists lock, ls_threads s i = Idle lock /\ fl_locked lock = true.

(** *** The logic of one process

    What process [i] knows: whether the present directory is its own, and a
    lower bound of the clock. *)
Record know := mkKnow { k_mine : bool; k_clock : Z }.

Definition lock_monitor (i : nat) : sys_monitor know := mkMonitor
  (fun q c => match c with
              | RmSync LockPath => k_mine q = true
              | WriteFileSync OwnerPath text =>
                  k_mine q = true /\ forall o, parse_owner text = Some o -> o_pid o = pid_of i
              | _ => True
              end)
  (fun q c => match c return sys_reply c -> Prop with
              | ReadFileSync OwnerPath => fun r =>
                  forall o, r ≫= parse_owner = Some o ->
                    (exists j, o_pid o = pid_of j) /\ k_clock q - o_createdAt o <= timeout
              | StatSync LockPath => fun r =>
                  match r with inl mtime => k_clock q - mtime <= timeout | inr code => code = Some "ENOENT"%string end
              | ProcessPid => fun r => r = pid_of i
              | DateNow => fun r => 0 < r <= MAX_SAFE
              | RandomBytes => fun r => wf_str r = true
              | KillZero pid => fun r => (exists j, pid = pid_of j) -> r = None
              | _ => fun _ => True
              end)
  (fun q c => match c return sys_reply c -> know with
              | MkdirSync LockPath => fun r => match r with None => mkKnow true (k_clock q) | Some _ => q end
              | RmSync LockPath => fun r => match r with None => mkKnow false (k_clock q) | Some _ => q end
              | _ => fun _ => q
              end).

Hypothesis pids : forall i, 0 < pid_of i <= MAX_SAFE.

(** A process that keeps the lock made the directory. *)
Definition keeps (lock : FileLock) (q : know) : Prop := fl_locked lock = true -> k_mine q = true.

Definition kept {A} (o : outcome error A) (lock : FileLock) (q : know) : Prop := keeps lock q.

Lemma wp_readOwner i (Post : outcome error (option FileLockOwner) -> FileLock -> know -> Prop) lock q :
  (forall r, (forall o, r = Some o -> (exists j, o_pid o = pid_of j) /\ k_clock q - o_createdAt o <= timeout) ->
     Post (Returned r) lock q) ->
  wp (lock_monitor i) readOwner Post lock q.
Proof.
  intros H. unfold readOwner. wp_steps. apply wp_call; [done|]. intros [] _; cbn.
  - apply wp_then, wp_call; [done|]. intros r Hr. cbn. apply wp_ret. by apply H.
  - apply wp_ret. by apply H.
Qed.

Lemma digits_wf n : 0 <= n -> wf_str (digits n) = true.
Proof.
  intros Hn. pose proof (digits_digit n Hn) as H. revert H. generalize (digits n). intros l.
  induction l as [|c l IH]; [done|]. cbn [forallb]. unfold is_digit at 1. intros Hc. bprop.
  change (wf_str (c :: l)) with ((0 <=? c) && (c <? 65536) && wf_str l)%bool. rewrite IH by done. lia.
Qed.

Lemma token_valid i now random :
  0 < now <= MAX_SAFE -> wf_str random = true -> valid_owner (mkOwner (pid_of i) now (createDefaultToken (pid_of i) now random)).
Proof.
  intros Hn Hr. pose proof (pids i). unfold valid_owner, createDefaultToken, show_int. cbn [o_pid o_createdAt o_token].
  rewrite !(proj2 (Z.ltb_ge _ 0)) by lia. split_and!; try lia.
  - destruct (digits (pid_of i)); done.
  - unfold wf_str in *. rewrite !forallb_app, Hr, andb_true_r. fold (wf_str (digits now)) (wf_str (digits (pid_of i))).
    by rewrite !digits_wf by lia.
Qed.

Lemma wp_take_lock i lock q : fl_locked lock = false -> wp (lock_monitor i) take_lock kept lock q.
Proof.
  intros Hl. unfold take_lock, createOwner, writeOwner. wp_steps.
  apply wp_call; [done|]. intros pid Hpid. cbn in Hpid. subst pid. cbn [and_then]. wp_steps.
  apply wp_call; [done|]. intros now Hnow. cbn in Hnow. cbn [and_then]. wp_steps.
  apply wp_call; [done|]. intros random Hrandom. cbn in Hrandom. cbn [and_then]. wp_steps.
  pose proof (token_valid i now random Hnow Hrandom) as Hv.
  assert (forall (e : error) (q : know), wp (lock_monitor i)
    (if has_code "EEXIST" e then mret false else mthrow e) kept lock q) as Hcatch.
  { intros e q'. destruct (has_code _ _); wp_steps; unfold kept, keeps; congruence. }
  apply wp_or_throw; [done|]. intros [e|] _; cbn [id]; wp_steps; [apply Hcatch|].
  apply wp_or_throw; [done|]. intros [e|] _; cbn [id]; wp_steps; [apply Hcatch|].
  apply wp_or_throw.
  { hnf. split; [done|]. intros o. rewrite parse_owner_written by done. by intros [= <-]. }
  intros [e|] _; cbn [id]; wp_steps; [apply Hcatch|]. done.
Qed.

Lemma wp_acquire i lock q : keeps lock q -> wp (lock_monitor i) acquire kept lock q.
Proof.
  intros Hk. unfold acquire, still_owned. wp_steps. destruct (fl_locked lock) eqn:El; [|by apply wp_take_lock].
  assert (forall o, kept (A := bool) o lock q) as Hkept by done. wp_steps.
  destruct (fl_owner lock) as [o|]; wp_steps.
  - apply wp_readOwner. intros r _. wp_steps. destruct (isSameOwner r (Some o)); wp_steps; [done|].
    unfold clearLocalState. wp_steps. by apply wp_take_lock.
  - unfold clearLocalState. wp_steps. by apply wp_take_lock.
Qed.

(** Removing one's own directory, or none. *)
Lemma wp_tryRemove i o Post lock q :
  k_mine q = true ->
  (forall b, Post (Returned b) lock q) -> Post (Returned true) lock (mkKnow false (k_clock q)) ->
  wp (lock_monitor i) (tryRemove o) Post lock q.
Proof.
  intros Hm Hb Ht. unfold tryRemove. wp_steps. apply wp_call; [done|]. intros [] _; cbn; wp_steps; [|apply Hb].
  apply wp_readOwner. intros r _. cbn. destruct (isSameOwner o r); cbn; wp_steps; [|apply Hb].
  apply wp_call; [done|]. intros [e|] _; cbn; wp_steps; [apply Hb|apply Ht].
Qed.

Lemma wp_lock_release i lock q : keeps lock q -> wp (lock_monitor i) release kept lock q.
Proof.
  intros Hk. unfold release, clearLocalState. wp_steps.
  destruct (fl_locked lock) eqn:El; cbn [negb]; wp_steps; [|done].
  destruct (fl_owner lock) as [o|]; wp_steps; [|done].
  apply wp_tryRemove; [by apply Hk| |done]. intros []; wp_steps; [done|].
  apply wp_readOwner. intros r _. cbn. destruct (isSameOwner r (Some o)); cbn [negb]; wp_steps; [|done].
  unfold kept. done.
Qed.

(** Below the limit nothing is stale, so nothing is removed. *)
Lemma wp_cleanupStale i now lock q :
  now <= k_clock q -> keeps lock q -> wp (lock_monitor i) (cleanupStale timeout now) kept lock q.
Proof.
  intros Hn Hk. unfold cleanupStale, isLockStateStale. wp_steps. apply wp_readOwner. intros r Hr. cbn. wp_steps.
  apply wp_call; [done|]. intros [] _; cbn [negb]; wp_steps; [|done]. destruct r as [o|].
  - destruct (Hr o eq_refl) as [[j Hj] Hc]. wp_steps. apply wp_isProcessAlive; [done| |].
    + intros Hp. pose proof (pids j). lia.
    + intros r Hr'. cbn in Hr'. rewrite Hr' by eauto. cbn [negb]. wp_steps.
      rewrite (proj2 (Z.ltb_ge _ _)) by lia. cbn [negb]. by wp_steps.
  - wp_steps. apply wp_call; [done|]. intros [mtime|code] Hs; cbn in Hs; wp_steps.
    + rewrite (proj2 (Z.ltb_ge _ _)) by lia. cbn [negb]. by wp_steps.
    + subst code. by wp_steps.
Qed.

Lemma op_sat i op lock q : keeps lock q ->
  match op with OpCleanup t now => t = timeout /\ now <= k_clock q | _ => True end ->
  sat (lock_monitor i) (op_prog op lock) keeps q.
Proof.
  intros Hk Hop. destruct op as [| |t now]; cbn; unfold forget; rewrite sat_bind.
  - eapply sat_mono; [|apply (wp_acquire i lock q Hk)]. by intros [o l] q'.
  - eapply sat_mono; [|apply (wp_lock_release i lock q Hk)]. by intros [o l] q'.
  - destruct Hop as [-> Hn]. eapply sat_mono; [|apply (wp_cleanupStale i now lock q Hn Hk)]. by intros [o l] q'.
Qed.

(** *** Soundness of the logic for interleaved runs *)

Definition knows (i : nat) (q : know) (f : Files) : Prop :=
  (k_mine q = true -> made_by i f) /\ k_clock q <= f_clock f.

Definition files_ok (f : Files) : Prop :=
  0 < f_clock f <= MAX_SAFE /\
  forall d o, f_dir f = Some d -> d_owner d ≫= parse_owner = Some o -> o_pid o = pid_of (d_by d).

(** A call of one process keeps the directories of the others. *)
Record call_sound (i : nat) (q : know) (f : Files) (c : sys_call) (r : sys_reply c) (f' : Files) : Prop := {
  cs_assumed : m_assume _ (lock_monitor i) q c r;
  cs_knows : knows i (m_next _ (lock_monitor i) q c r) f';
  cs_files : files_ok f';
  cs_clock : f_clock f' = f_clock f;
  cs_others : forall j, j <> i -> made_by j f -> made_by j f'
}.

Lemma read_only i q f c r : knows i q f -> files_ok f ->
  m_assume _ (lock_monitor i) q c r -> m_next _ (lock_monitor i) q c r = q -> call_sound i q f c r f.
Proof. intros Hk Hf Ha Hn. split; [done|by rewrite Hn|done..]. Qed.

Lemma made_by_dir f d i : f_dir f = Some d -> made_by i f -> d_by d = i.
Proof. intros Hd (d' & Hd' & <-). congruence. Qed.

Lemma sound_mkdir i q f r f' : files_ok f -> knows i q f ->
  answers i f (MkdirSync LockPath) r f' -> call_sound i q f (MkdirSync LockPath) r f'.
Proof.
  intros Hf Hk Hans. cbn in Hans. destruct (f_dir f) as [d|] eqn:Ed.
  - destruct Hans as [-> ->]. by apply read_only.
  - destruct Hans as [[-> ->]|[[e ->] ->]]; [|by apply read_only].
    destruct Hf as [Hc Ho], Hk as [_ Hk]. split; cbn; try done.
    + split; cbn; [|done]. intros _. by eexists.
    + split; [done|]. intros d o [= <-]. done.
    + intros j Hj (d & Hd & _). congruence.
Qed.

Lemma sound_write i q f text r f' : files_ok f -> knows i q f ->
  m_allow _ (lock_monitor i) q (WriteFileSync OwnerPath text) ->
  answers i f (WriteFileSync OwnerPath text) r f' -> call_sound i q f (WriteFileSync OwnerPath text) r f'.
Proof.
  intros Hf Hk [Hm Ht] Hans. destruct (proj1 Hk Hm) as (d & Hd & Hby). cbn in Hans. rewrite Hd in Hans.
  destruct Hans as [[-> ->]|[_ ->]]; [|by apply read_only]. destruct Hf as [Hc Ho], Hk as [_ Hk]. split; cbn; try done.
  - split; cbn; [|done]. intros _. by eexists.
  - split; [done|]. intros d' o [= <-]. cbn. intros E. rewrite Hby. by apply Ht.
  - intros j Hj Hmade. destruct (Hj). by rewrite <- (made_by_dir _ _ _ Hd Hmade).
Qed.

Lemma sound_rm i q f r f' : files_ok f -> knows i q f -> k_mine q = true ->
  answers i f (RmSync LockPath) r f' -> call_sound i q f (RmSync LockPath) r f'.
Proof.
  intros Hf Hk Hm Hans. destruct (proj1 Hk Hm) as (d & Hd & Hby). cbn in Hans.
  assert (forall j, j <> i -> made_by j f -> False) as Hoth.
  { intros j Hj Hmade. apply Hj. by rewrite <- (made_by_dir _ _ _ Hd Hmade). }
  destruct Hf as [Hc Ho], Hk as [Hkm Hk]. destruct Hans as [[-> ->]|[[e ->] [->|(d' & Hd' & ->)]]].
  - split; cbn; try done; try (by split); by intros j Hj Hj'; destruct (Hoth j).
  - split; cbn; done.
  - split; cbn; try done; [| |by intros j Hj Hj'; destruct (Hoth j)].
    + split; [|done]. intros _. eexists. split; [reflexivity|]. cbn. congruence.
    + split; [done|]. intros d2 o [= <-]. done.
Qed.

Lemma answers_sound i q f c r f' : files_ok f -> fresh f -> knows i q f ->
  m_allow _ (lock_monitor i) q c -> answers i f c r f' -> call_sound i q f c r f'.
Proof.
  intros Hf Hfresh Hk Hal Hans.
  destruct c as [[]|[]|[]|[] text|[]|[]| | | |pid|pid sig| |args|d| | |reason]; cbn in Hans;
    try (subst f'; apply read_only; done);
    try (destruct Hans as [Hr ->]; apply read_only; done); try done.
  - by apply sound_mkdir.
  - destruct Hans as [Hr ->]. apply read_only; [done..| |done]. intros o Ho.
    destruct Hr as [->| ->]; [done|]. destruct (f_dir f) as [d|] eqn:Ed; [|done]. cbn in Ho.
    destruct (Hfresh d Ed) as [_ Hfr]. specialize (Hfr o Ho). destruct Hk as [_ Hk]. split; [|lia].
    exists (d_by d). by eapply Hf.
  - by apply sound_write.
  - by apply sound_rm.
  - destruct Hans as [-> ->]. apply read_only; [done..| |done]. cbn. destruct (f_dir f) as [d|] eqn:Ed; [|done].
    destruct (Hfresh d Ed) as [Hm _]. destruct Hk as [_ Hk]. lia.
  - destruct Hans as [-> ->]. apply read_only; [done..| |done]. apply Hf.
Qed.

(** *** The invariant of the system *)

Definition thread_ok (i : nat) (f : Files) (t : thread) : Prop :=
  match t with
  | Idle lock => fl_locked lock = true -> made_by i f
  | Running p => exists q, knows i q f /\ sat (lock_monitor i) p keeps q
  end.

Definition system_ok (s : LockSystem) : Prop :=
  files_ok (ls_files s) /\ forall i, thread_ok i (ls_files s) (ls_threads s i).

Lemma thread_ok_rely i f f' t :
  (made_by i f -> made_by i f') -> f_clock f <= f_clock f' -> thread_ok i f t -> thread_ok i f' t.
Proof.
  intros Hm Hc. destruct t as [lock|p]; cbn; [naive_solver|].
  intros (q & [Hq Hqc] & Hs). exists q. split; [|done]. split; [naive_solver|lia].
Qed.

Lemma lock_step_ok s s' : fresh (ls_files s) -> lock_step s s' -> system_ok s -> system_ok s'.
Proof.
  intros Hfresh Hstep [Hf Ht].
  destruct Hstep as [i op lock f ts Hi Hop|i c k r f f' ts Hi Hans|i lock f ts Hi|clock f ts Hc]; cbn in *.
  - split; [done|]. intros j. cbn. unfold set_thread. case_decide as Hj; [subst j|apply Ht].
    specialize (Ht i). rewrite Hi in Ht. cbn in Ht.
    exists (mkKnow (fl_locked lock) (f_clock f)). split; [split; [done|cbn; lia]|].
    apply op_sat; [by unfold keeps|].
    by destruct op.
  - pose proof (Ht i) as Hti. rewrite Hi in Hti. destruct Hti as (q & Hq & Hs). cbn in Hs. destruct Hs as [Hal Hs].
    destruct (answers_sound i q f c r f' Hf Hfresh Hq Hal Hans) as [Ha Hq' Hf' Hc' Ho].
    split; [done|]. intros j. cbn. unfold set_thread. case_decide as Hj; [subst j|].
    + exists (m_next _ (lock_monitor i) q c r). split; [done|]. by apply Hs.
    + apply (thread_ok_rely j f); [by apply Ho|lia|apply Ht].
  - split; [done|]. intros j. cbn. unfold set_thread. case_decide as Hj; [subst j|apply Ht].
    specialize (Ht i). rewrite Hi in Ht. destruct Ht as (q & [Hq _] & Hs). cbn in Hs. cbn. auto.
  - split.
    + destruct Hf as [Hcl Ho]. split; [cbn; lia|done].
    + intros j. cbn. apply (thread_ok_rely j f); [done|cbn; lia|apply Ht].
Qed.

Lemma lock_reach_ok clock s : 0 < clock <= MAX_SAFE -> lock_reach clock s -> system_ok s.
Proof.
  intros Hc. induction 1 as [|s s' _ IH Hfresh Hstep].
  - split; [split; done|]. intros i. cbn. done.
  - by eapply lock_step_ok.
Qed.
End Interleaving.

(** C34: The file lock excludes: whatever processes use it, and however their
    calls to the file system interleave, with reads, writes and removals that
    may fail, two of them never hold the lock at once, as long as they are
    alive and no lock grows as old as the limit after which [cleanupStale]
    takes it away. *)
Theorem file_lock_excludes pid_of timeout clock s i j :
  (forall k, 0 < pid_of k <= MAX_SAFE) -> 0 < clock <= MAX_SAFE ->
  lock_reach pid_of timeout clock s -> holds i s -> holds j s -> i = j.
Proof.
  intros Hp Hc Hs (li & Hi & Hli) (lj & Hj & Hlj).
  destruct (lock_reach_ok pid_of timeout Hp clock s Hc Hs) as [_ Ht].
  pose proof (Ht i) as Hmi. pose proof (Ht j) as Hmj. rewrite Hi in Hmi. rewrite Hj in Hmj. cbn in *.
  destruct (Hmi Hli) as (d & Hd & <-). by eapply made_by_dir; [|apply Hmj].
Qed.

(** Process 0 takes the lock. *)
Definition demo_pid (k : nat) : Z := if decide (k = 0%nat) then 10 else 20.

(** The lock of the example is new. *)
Ltac demo_fresh :=
  let d := fresh in let E := fresh in let o := fresh in
  intros d E; vm_compute in E;
  first [discriminate E
        | injection E as <-; split; [vm_compute; discriminate|]; intros o E; vm_compute in E;
          first [discriminate E | injection E as <-; vm_compute; discriminate]].
(** One answered call of process 0. *)
Ltac demo_call H c r :=
  let f' := fresh in
  lazymatch type of H with
  | lock_reach ?p ?t ?clk (mkLockSystem ?f ?ts) =>
      evar (f' : Files);
      assert (answers p 0%nat f c r f') as Ha by (subst f'; hnf; first [reflexivity | split; reflexivity | left; split; reflexivity]);
      let H' := fresh in
      pose proof (ReachStep p t clk _ _ H ltac:(demo_fresh) (StepCall p t 0%nat c _ r f f' ts eq_refl Ha)) as H';
      subst f'; clear Ha; clear H; rename H' into H
  end.
Lemma demo_holds : exists s, lock_reach demo_pid 7000 100 s /\ holds 0 s.
Proof.
  pose proof (ReachInit demo_pid 7000 100) as H.
  pose proof (ReachStep _ _ _ _ _ H ltac:(demo_fresh) (StepStart _ _ 0 OpAcquire new_file_lock _ _ eq_refl I)) as H1. clear H. rename H1 into H.
  demo_call H ProcessPid 10. demo_call H DateNow 100. demo_call H RandomBytes (js "ab").
  demo_call H (MkdirSync LockParent) (@None error).
  demo_call H (MkdirSync LockPath) (@None error).
  lazymatch type of H with lock_reach _ _ _ ?s => let t := eval vm_compute in (ls_threads s 0%nat) in
    lazymatch t with Running (Call ?c _) => demo_call H c (@None error) end end.
  pose proof (ReachStep _ _ _ _ _ H ltac:(demo_fresh) (StepEnd _ _ 0 _ _ _ eq_refl)) as H2.
  eexists. split; [exact H2|]. eexists. split; reflexivity.
Qed.

Lemma file_lock_excludes_witness :
  exists s, lock_reach demo_pid 7000 100 s /\ holds 0 s /\ forall j, holds j s -> 0%nat = j.
Proof.
  destruct demo_holds as (s & Hr & Hh). exists s. split; [exact Hr|]. split; [exact Hh|]. intros j Hj.
  apply (file_lock_excludes demo_pid 7000 100 s 0 j); [|vm_compute; split; [reflexivity|discriminate]|exact Hr|exact Hh|exact Hj].
  intros k. unfold demo_pid. case_decide; vm_compute; split; [reflexivity|discriminate|reflexivity|discriminate].
Defined.
