(* ===== verification/Paths.v ===== *)
(** * Where the multiplexer keeps its files

    Models [multiplexer/utils/paths.ts]: the data directory, the names of the
    spawn lock and of the control endpoint, and the process name by which a
    manager finds its daemon.  [path.join] is the POSIX one. *)

From Stdlib Require Import String.
From S2P Require Import JsValue.

Definition DEBUG_ROUTER_CONNECTOR_DATA_DIR_NAME : jstr := js ".DebugRouterConnector".
Definition MULTIPLEXER_DATA_DIR_NAME : jstr := js "multiplexer".
Definition MULTIPLEXER_SPAWN_LOCK_NAME : jstr := js "spawn.lock".
Definition MULTIPLEXER_CONTROL_SOCKET_NAME : jstr := js "control.sock".
Definition MULTIPLEXER_DAEMON_PROCESS_NAME_SUFFIX : jstr := js "muxDaemon".

(** ** [path.join] *)

Definition slash : Z := 47.

(** [s.split("/")]. *)
Fixpoint split_path (s : jstr) : list jstr :=
  match s with
  | [] => [[]]
  | c :: r =>
      let segs := split_path r in
      if c =? slash then [] :: segs
      else match segs with seg :: more => (c :: seg) :: more | [] => [[c]] end
  end.

(** The segments kept so far, last first; [".."] goes up where it can. *)
Definition push_segment (above : bool) (acc : list jstr) (seg : jstr) : list jstr :=
  if bool_decide (seg = []) || bool_decide (seg = js ".") then acc
  else if bool_decide (seg = js "..") then
    match acc with
    | last :: rest => if bool_decide (last = js "..") then seg :: acc else rest
    | [] => if above then [seg] else []
    end
  else seg :: acc.

Fixpoint join_segments (segs : list jstr) : jstr :=
  match segs with
  | [] => []
  | [seg] => seg
  | seg :: more => seg ++ slash :: join_segments more
  end.

Definition is_absolute (s : jstr) : bool := match s with c :: _ => c =? slash | [] => false end.

Definition normalize (s : jstr) : jstr :=
  let absolute := is_absolute s in
  let trailing := is_absolute (rev s) in
  let body := join_segments (rev (fold_left (push_segment (negb absolute)) (split_path s) [])) in
  match s with
  | [] => js "."
  | _ =>
      match body with
      | [] => if absolute then [slash] else if trailing then js "./" else js "."
      | _ => (if absolute then [slash] else []) ++ body ++ (if trailing then [slash] else [])
      end
  end.

Definition path_join (a b : jstr) : jstr :=
  normalize (match a, b with
             | [], _ => b
             | _, [] => a
             | _, _ => a ++ slash :: b
             end).

(** ** Paths *)

Record MultiplexerPathOptions := mkPathOptions { po_rootDir : option jstr; po_dataDir : option jstr }.

Record MultiplexerPaths := mkPaths {
  mp_rootDir : jstr;
  mp_dataDir : jstr;
  mp_controlEndpoint : jstr;
  mp_spawnLockPath : jstr;
  mp_daemonProcessName : jstr
}.

Inductive platform := Win32 | Posix.

Section Home.
Variable homedir : jstr.        (* os.homedir() *)
Variable process_platform : platform.

Definition getDefaultMultiplexerRootDir : jstr := path_join homedir DEBUG_ROUTER_CONNECTOR_DATA_DIR_NAME.

(** An empty [dataDir] counts as none, an empty [rootDir] does not. *)
Definition getMultiplexerDataDir (o : MultiplexerPathOptions) : jstr :=
  match po_dataDir o with
  | Some (c :: d) => c :: d
  | _ => path_join (default getDefaultMultiplexerRootDir (po_rootDir o)) MULTIPLEXER_DATA_DIR_NAME
  end.

Definition getMultiplexerSpawnLockPath (o : MultiplexerPathOptions) : jstr :=
  path_join (getMultiplexerDataDir o) MULTIPLEXER_SPAWN_LOCK_NAME.

Definition getMultiplexerControlEndpoint (o : MultiplexerPathOptions) (p : platform) : jstr :=
  match p with
  | Win32 => js "\\.\pipe\" ++ getMultiplexerDataDir o
  | Posix => path_join (getMultiplexerDataDir o) MULTIPLEXER_CONTROL_SOCKET_NAME
  end.

(** [A-Za-z0-9-] *)
Definition name_char (c : Z) : bool :=
  ((65 <=? c) && (c <=? 90)) || ((97 <=? c) && (c <=? 122)) || is_digit c || (c =? 45).

Fixpoint strip_dashes (s : jstr) : jstr :=
  match s with c :: r => if c =? 45 then strip_dashes r else s | [] => [] end.

(** The three replacements: slashes become dashes, other characters go, and so
    do the dashes at both ends. *)
Definition sanitizedDataDir (dataDir : jstr) : jstr :=
  let s := List.filter name_char (List.map (fun c => if c =? slash then 45 else c) dataDir) in
  rev (strip_dashes (rev (strip_dashes s))).

Definition getMultiplexerDaemonProcessName (dataDir : jstr) : jstr :=
  sanitizedDataDir dataDir ++ [45] ++ MULTIPLEXER_DAEMON_PROCESS_NAME_SUFFIX.

Definition createMultiplexerPaths (o : MultiplexerPathOptions) : MultiplexerPaths :=
  let rootDir := default getDefaultMultiplexerRootDir (po_rootDir o) in
  let dataDir := getMultiplexerDataDir (mkPathOptions (Some rootDir) (po_dataDir o)) in
  mkPaths rootDir dataDir (getMultiplexerControlEndpoint (mkPathOptions None (Some dataDir)) process_platform)
    (path_join dataDir MULTIPLEXER_SPAWN_LOCK_NAME) (getMultiplexerDaemonProcessName dataDir).
End Home.

Example default_paths :
  createMultiplexerPaths (js "/home/u") Posix (mkPathOptions None None) =
  mkPaths (js "/home/u/.DebugRouterConnector") (js "/home/u/.DebugRouterConnector/multiplexer")
    (js "/home/u/.DebugRouterConnector/multiplexer/control.sock")
    (js "/home/u/.DebugRouterConnector/multiplexer/spawn.lock")
    (js "home-u-DebugRouterConnector-multiplexer-muxDaemon").
Proof. vm_compute. reflexivity. Qed.

Example join_normalizes : path_join (js "/a/./b//../c/") (js "../d") = js "/a/d".
Proof. vm_compute. reflexivity. Qed.

(** ** The process name

    The name is put into a regular expression for [pgrep] as it is. *)

Lemma forallb_strip f s : forallb f s = true -> forallb f (strip_dashes s) = true.
Proof.
  induction s as [|c r IH]; [done|]. cbn. intros [Hc Hr]%andb_true_iff. destruct (c =? 45); [auto|].
  cbn. by rewrite Hc, Hr.
Qed.

(** Every character of a process name stands for itself in a regular
    expression. *)
Lemma process_name_literal dataDir : forallb name_char (getMultiplexerDaemonProcessName dataDir) = true.
Proof.
  unfold getMultiplexerDaemonProcessName, sanitizedDataDir. rewrite forallb_app. apply andb_true_iff. split; [|done].
  rewrite forallb_rev. apply forallb_strip. rewrite forallb_rev. apply forallb_strip.
  apply forallb_forall. intros c Hc. by apply filter_In in Hc as [_ Hc].
Qed.

(** Different data directories may share their process name, and with it the
    processes that a manager stops. *)
Example process_name_collides :
  getMultiplexerDaemonProcessName (js "/srv/a/b") = getMultiplexerDaemonProcessName (js "/srv/a-b") /\
  js "/srv/a/b" <> js "/srv/a-b".
Proof. split; [vm_compute; reflexivity|vm_compute; discriminate]. Qed.
