(* ===== verification/Manager.v ===== *)
(** * The daemon manager

    Models [multiplexer/client/MultiplexerDaemonManager.ts]: finding out
    whether a usable daemon runs, and starting, replacing or stopping one under
    the spawn lock.  The methods are programs over system calls; what they do to
    processes and files is what they call. *)

From Stdlib Require Import String.
From stdpp Require Import strings.
From S2P Require Import JsValue Json Client Entry Prog System FileLock.

Definition DEFAULT_MULTIPLEXER_STARTUP_TIMEOUT : Z := 5000.
Definition DEFAULT_MULTIPLEXER_READY_POLL_INTERVAL : Z := 50.
Definition DEFAULT_MULTIPLEXER_REPLACEMENT_TIMEOUT : Z := 1000.
Definition DEFAULT_MULTIPLEXER_SPAWN_LOCK_STALE_BUFFER : Z := 1000.
Definition MULTIPLEXER_HEALTH_PROBE_RETRY_COUNT : nat := 3.

(** ** State *)

(** The options that decide what the manager does; the command line of the
    daemon is made from [mg_config]. *)
Record Manager := mkManager {
  mg_config : DaemonConfig;
  mg_daemonEntry : jstr;
  mg_startupTimeout : Z;
  mg_readyPollInterval : Z;
  mg_replacementTimeout : Z;
  mg_enableDebugMode : bool;
  mg_daemonClient : bool;            (* setDaemonClient was called *)
  mg_win32 : bool
}.

Record ManagerOption := mkManagerOption {
  mo_config : DaemonConfig;
  mo_daemonEntry : jstr;
  mo_startupTimeout : option Z;
  mo_readyPollInterval : option Z;
  mo_replacementTimeout : option Z;
  mo_enableDebugMode : option bool
}.

Definition new_manager (o : ManagerOption) (win32 : bool) : Manager :=
  mkManager (mo_config o) (mo_daemonEntry o)
    (default DEFAULT_MULTIPLEXER_STARTUP_TIMEOUT (mo_startupTimeout o))
    (default DEFAULT_MULTIPLEXER_READY_POLL_INTERVAL (mo_readyPollInterval o))
    (default DEFAULT_MULTIPLEXER_REPLACEMENT_TIMEOUT (mo_replacementTimeout o))
    (default false (mo_enableDebugMode o)) false win32.

#[export] Instance eta_manager : Eta Manager := fun m =>
  mkManager (mg_config m) (mg_daemonEntry m) (mg_startupTimeout m) (mg_readyPollInterval m) (mg_replacementTimeout m)
    (mg_enableDebugMode m) (mg_daemonClient m) (mg_win32 m).

Definition setDaemonClient (m : Manager) : Manager := m <| mg_daemonClient := true |>.

Definition spawnLockStaleTimeout (m : Manager) : Z :=
  mg_startupTimeout m + mg_replacementTimeout m + DEFAULT_MULTIPLEXER_SPAWN_LOCK_STALE_BUFFER.

(** What changes: the spawn lock, and the stops of processes that are still
    under way when [Promise.all] has already rejected. *)
Abbreviation task := (sys_prog (outcome error unit * unit)).

Record ManagerState := mkManagerState { ms_spawnLock : FileLock; ms_background : list task }.

Definition new_manager_state : ManagerState := mkManagerState new_file_lock [].

Abbreviation G := (sys_M ManagerState error).

(** A method of the spawn lock. *)
Definition on_lock {A} (p : sys_M FileLock error A) : G A := fun s =>
  pbind (p (ms_spawnLock s)) (fun '(o, lock) => Ret (o, mkManagerState lock (ms_background s))).

(** ** Results of a probe *)

Definition isRetryableHealthProbeResult (v : validation) : bool :=
  match v with
  | Unusable reason =>
      bool_decide (reason = "unreachable")%string || bool_decide (reason = "timeout")%string ||
      bool_decide (reason = "invalid-frame")%string || bool_decide (reason = "invalid-response")%string
  | _ => false
  end.

Definition isOlderDaemonInUse (v : validation) : bool := match v with UpgradeBlocked => true | _ => false end.

Definition createOlderDaemonInUseError : error := PlainError "the daemon is still in use by a connector or WebSocket frontend".
Definition createDaemonReplacementRequiredError : error := PlainError "Multiplexer daemon protocol is older than current connector protocol".

Definition RETRYABLE_SYSTEM_ERROR_CODES : list string :=
  ["EAGAIN"; "EBUSY"; "EINTR"; "EMFILE"; "ENFILE"; "ENOBUFS"; "ENOMEM"]%string.

Definition isRetryableDaemonError (e : error) : bool :=
  match e with
  | RetryableDaemonError => true
  | _ => bool_decide (default "" (error_code e) ∈ RETRYABLE_SYSTEM_ERROR_CODES)%string
  end.

Section Methods.
Variable m : Manager.
Variable fuel : nat.       (* iterations given to each waiting loop *)

(** ** Probing *)

Fixpoint probe_retries {T} (n : nat) (v : validation) : sys_M T error validation :=
  match n with
  | O => mret v
  | S n =>
      if isRetryableHealthProbeResult v
      then sys (Sleep (mg_readyPollInterval m)) ;;; mlet v := sys ProbeHealth in probe_retries n v
      else mret v
  end.

Definition probeDaemonHealthWithRetry {T} : sys_M T error validation :=
  mlet v := sys ProbeHealth in probe_retries MULTIPLEXER_HEALTH_PROBE_RETRY_COUNT v.

(** ** The spawn lock *)

Definition acquireSpawnLock : G bool :=
  mlet now := sys DateNow in
  on_lock (cleanupStale (spawnLockStaleTimeout m) now) ;;; on_lock acquire.

Definition releaseSpawnLock : G unit := on_lock release.

(** ** Waiting *)

Fixpoint ready_loop {T} (n : nat) (timeout startedAt : Z) : sys_M T error unit :=
  match n with
  | O => mspin
  | S n =>
      mlet now := sys DateNow in
      if now - startedAt <=? timeout then
        mlet v := sys ProbeHealth in
        match v with
        | Usable _ => mret tt
        | ReplaceRequired => mthrow createDaemonReplacementRequiredError
        | UpgradeBlocked => mthrow createOlderDaemonInUseError
        | Unusable _ => sys (Sleep (mg_readyPollInterval m)) ;;; ready_loop n timeout startedAt
        end
      else mthrow RetryableDaemonError
  end.

Definition waitUntilReady {T} (timeout : Z) : sys_M T error unit :=
  mlet startedAt := sys DateNow in ready_loop fuel timeout startedAt.

Fixpoint exit_loop {T} (n : nat) (pid timeout startedAt : Z) : sys_M T error bool :=
  match n with
  | O => mspin
  | S n =>
      mlet now := sys DateNow in
      if now - startedAt <=? timeout then
        mlet alive := isProcessAlive pid in
        if negb alive then mret true
        else sys (Sleep (mg_readyPollInterval m)) ;;; exit_loop n pid timeout startedAt
      else mlet alive := isProcessAlive pid in mret (negb alive)
  end.

Definition waitUntilProcessExits {T} (pid timeout : Z) : sys_M T error bool :=
  mlet startedAt := sys DateNow in exit_loop fuel pid timeout startedAt.

(** ** Stopping *)

(** [tryKillProcess] returns the exception. *)
Definition tryKillProcess {T} (pid : Z) (sig : signal) : sys_M T error (option error) := sys (ProcessKill pid sig).

Definition is_esrch (e : option error) : bool := match e with Some e => has_code "ESRCH" e | None => false end.

(** The exception at the end of [forceStopProcess]. *)
Definition stop_failure (sigkillError sigtermError : option error) : error :=
  match sigkillError, sigtermError with
  | Some e, _ => e
  | None, Some e => e
  | None, None => RetryableDaemonError
  end.

Definition forceStopProcess {T} (pid : Z) : sys_M T error unit :=
  mlet sigtermError := tryKillProcess pid SigTerm in
  if is_esrch sigtermError then mret tt
  else
    waitUntilProcessExits pid (mg_replacementTimeout m) ;;;
    mlet alive := isProcessAlive pid in
    mlet sigkillError :=
      (if alive then
         mlet e := tryKillProcess pid SigKill in
         if is_esrch e then mret (inl tt)
         else waitUntilProcessExits pid (mg_replacementTimeout m) ;;; mret (inr e)
       else mret (inr None)) in
    match sigkillError with
    | inl _ => mret tt
    | inr e =>
        mlet alive := isProcessAlive pid in
        if negb alive then mret tt else mthrow (stop_failure e sigtermError)
    end.

(** [Promise.all]: the promises go on in the order the event loop chooses; the
    first rejection decides, and the others are left running. *)
Definition rejection (t : task) : option error := match t with Ret (Thrown e, _) => Some e | _ => None end.
Definition spins (t : task) : bool := match t with Ret (NoFuel, _) => true | _ => false end.
Definition under_way (t : task) : bool := match t with Call _ _ => true | _ => false end.

Fixpoint pending_from (i : nat) (ts : list task) : list nat :=
  match ts with
  | [] => []
  | t :: ts => (if under_way t then [i] else []) ++ pending_from (S i) ts
  end.

Fixpoint promise_all (n : nat) (ts : list task) : sys_prog (outcome error unit * list task) :=
  match list_find (fun t => is_Some (rejection t)) ts with
  | Some (_, t) => Ret (match rejection t with Some e => Thrown e | None => NoFuel end, List.filter under_way ts)
  | None =>
      match pending_from 0 ts with
      | [] => Ret (if existsb spins ts then NoFuel else Returned tt, [])
      | p :: ps =>
          match n with
          | O => Ret (NoFuel, List.filter under_way ts)
          | S n =>
              Call Schedule (fun choice =>
                let i := List.nth (choice mod List.length (p :: ps)) (p :: ps) p in
                match ts !! i with
                | Some (Call c k) => Call c (fun r => promise_all n (<[i := k r]> ts))
                | _ => Ret (NoFuel, [])
                end)
          end
      end
  end.

(** [await Promise.all(ts)]: when one rejects, the call goes on with its error and
    the others stay behind in [ms_background].  They go on in the code; their
    further calls are not part of the program here. *)
Definition mall (n : nat) (ts : list task) : G unit := fun s =>
  pbind (promise_all n ts) (fun '(o, rest) => Ret (o, mkManagerState (ms_spawnLock s) (ms_background s ++ rest))).

Definition findDaemonProcessIds : G (list Z) := sys FindProcesses.

(** A stale socket is removed where it is a file; failure is ignored. *)
Definition removeDaemonArtifacts : G unit :=
  if mg_win32 m then mret tt else sys (RmSync EndpointPath) ;;; mret tt.

Fixpoint filter_alive (pids : list Z) : G (list Z) :=
  match pids with
  | [] => mret []
  | pid :: pids =>
      mlet alive := isProcessAlive pid in
      mlet rest := filter_alive pids in
      mret (if alive then pid :: rest else rest)
  end.

Definition forceStopDaemon : G unit :=
  mlet daemonPids := findDaemonProcessIds in
  mlet alive := filter_alive daemonPids in
  mall (List.length alive * (6 * fuel + 8)) (List.map (fun pid => forceStopProcess pid tt) alive) ;;;
  removeDaemonArtifacts.

Definition sendDaemonShutdownRpc (reason : MultiplexerDaemonReplaceReason) : G bool :=
  if mg_daemonClient m then sys (ShutdownRpc reason) else mret false.

Definition tryGracefullyStopDaemon (reason : MultiplexerDaemonReplaceReason) : G unit :=
  mlet daemonPids := findDaemonProcessIds in
  if (1 <? List.length daemonPids)%nat then forceStopDaemon
  else
    mlet requested := sendDaemonShutdownRpc reason in
    match daemonPids with
    | [] => mret tt
    | daemonPid :: _ =>
        (if requested then waitUntilProcessExits daemonPid (mg_replacementTimeout m) ;;; mret tt else mret tt) ;;;
        mlet alive := isProcessAlive daemonPid in
        if alive then forceStopProcess daemonPid else mret tt
    end ;;;
    removeDaemonArtifacts.

(** ** Starting *)

Definition spawnDaemon : G unit :=
  or_throw (SpawnProcess (mg_daemonEntry m :: createDaemonEntryArgs (mg_config m))) id.

Definition tryStartDaemon (beforeSpawn : G unit) : G bool :=
  mlet acquired := acquireSpawnLock in
  if negb acquired then mret false
  else
    mfinally
      (beforeSpawn ;;; spawnDaemon ;;; waitUntilReady (mg_startupTimeout m) ;;; mret true)
      releaseSpawnLock.

Definition handleDiscoveryResult (v : validation) : G bool :=
  match v with
  | Usable _ => mret true
  | ReplaceRequired => tryStartDaemon (tryGracefullyStopDaemon daemon_protocol_older_than_connector)
  | _ => if isOlderDaemonInUse v then mthrow createOlderDaemonInUseError else tryStartDaemon forceStopDaemon
  end.

(** The lock is awaited without limit. *)
Fixpoint lock_loop (turns : nat) : G unit :=
  match turns with
  | O => mspin
  | S turns =>
      mlet acquired := acquireSpawnLock in
      if acquired then mret tt else sys (Sleep (mg_readyPollInterval m)) ;;; lock_loop turns
  end.

Definition stopDaemonForDebugging (turns : nat) (withRespawn : bool) : G unit :=
  lock_loop turns ;;;
  mfinally
    (mlet v := probeDaemonHealthWithRetry in
     (match v with
      | Usable _ | ReplaceRequired => tryGracefullyStopDaemon force_stop
      | _ => forceStopDaemon
      end) ;;;
     if withRespawn then spawnDaemon ;;; waitUntilReady (mg_startupTimeout m) else mret tt)
    releaseSpawnLock.

(** The turns of [while (true)]: only a refused lock leads to another. *)
Fixpoint ensure_loop (turns : nat) : G bool :=
  match turns with
  | O => mspin
  | S turns =>
      mlet v := probeDaemonHealthWithRetry in
      mlet ready := handleDiscoveryResult v in
      if ready then mret true else ensure_loop turns
  end.

Definition ensureDaemon (turns : nat) : G bool :=
  if mg_enableDebugMode m then stopDaemonForDebugging turns true ;;; mret true
  else mcatch (ensure_loop turns) (fun e => if isRetryableDaemonError e then mret false else mthrow e).
End Methods.

(** ** What is done to processes, and when

    A monitor of the calls: the last health probe, and, while the spawn lock is
    held, the probe that led to taking it.  Daemons may be asked to shut down,
    signalled, spawned and cleaned up after only under the lock, and only for a
    probe that found none usable and none in use. *)

Record watched := mkWatched {
  w_probe : option validation;
  w_held : option validation;       (* the lock is held since this probe *)
  w_spawned : bool
}.

Definition stoppable (v : validation) : bool :=
  match v with ReplaceRequired | Unusable _ => true | Usable _ | UpgradeBlocked => false end.

Definition may_act (q : watched) : Prop :=
  w_spawned q = false /\ exists v, w_held q = Some v /\ stoppable v = true.

Definition manager_monitor : sys_monitor watched := mkMonitor
  (fun q c => match c with
              | ShutdownRpc reason => may_act q /\ w_held q = Some ReplaceRequired /\ reason = daemon_protocol_older_than_connector
              | ProcessKill _ _ | SpawnProcess _ | RmSync EndpointPath => may_act q
              | _ => True
              end)
  (fun _ _ _ => True)
  (fun q c => match c return sys_reply c -> watched with
              | ProbeHealth => fun v => mkWatched (Some v) (w_held q) (w_spawned q)
              | WriteFileSync OwnerPath _ => fun r =>
                  match r with None => mkWatched (w_probe q) (w_probe q) (w_spawned q) | Some _ => q end
              | RmSync LockPath => fun r =>
                  match r with None => mkWatched (w_probe q) None (w_spawned q) | Some _ => q end
              | SpawnProcess _ => fun _ => mkWatched (w_probe q) (w_held q) true
              | _ => fun _ => q
              end).

(** Calls the monitor ignores. *)
Definition passive (c : sys_call) : bool :=
  reading c || match c with Sleep _ | Schedule | FindProcesses => true | _ => false end.

Lemma passive_neutral c q : passive c = true ->
  m_allow _ manager_monitor q c /\ forall r, m_next _ manager_monitor q c r = q.
Proof. destruct c as [[]|[]|[]|[]|[]|[]| | | | | | | | | | | ]; cbn; done. Qed.

Lemma reads_ignored q : reads_neutral manager_monitor q.
Proof. intros c Hc. apply passive_neutral. unfold passive. by rewrite Hc. Qed.

Section Neutral.
Variable m : Manager.
Context {T : Type}.

Lemma wp_passive c Post (s : T) q : passive c = true ->
  (forall r, Post (Returned r) s q) -> wp manager_monitor (sys c) Post s q.
Proof. intros Hc H. destruct (passive_neutral c q Hc). by apply wp_call_neutral. Qed.

Lemma wp_alive pid Post (s : T) q :
  (forall b, Post (Returned b) s q) -> wp manager_monitor (isProcessAlive pid) Post s q.
Proof. intros H. apply wp_isProcessAlive; [done|intros; apply H|intros r _; apply H]. Qed.

Lemma wp_exits fuel pid timeout Post (s : T) q :
  (forall b, Post (Returned b) s q) -> Post NoFuel s q ->
  wp manager_monitor (waitUntilProcessExits m fuel pid timeout) Post s q.
Proof.
  intros Hb Hn. unfold waitUntilProcessExits. wp_steps. apply wp_passive; [done|]. intros startedAt. wp_steps.
  revert startedAt. induction fuel as [|f IH]; intros startedAt; cbn [exit_loop]; wp_steps; [done|].
  apply wp_passive; [done|]. intros now. wp_steps. destruct (now - startedAt <=? timeout).
  - wp_steps. apply wp_alive. intros []; wp_steps; [|apply Hb]. apply wp_passive; [done|]. intros []. wp_steps. apply IH.
  - wp_steps. apply wp_alive. intros b. wp_steps. apply Hb.
Qed.

Lemma wp_forceStopProcess fuel pid Post (s : T) q : may_act q ->
  (forall o, Post o s q) -> wp manager_monitor (forceStopProcess m fuel pid) Post s q.
Proof.
  intros Hq HP. unfold forceStopProcess, tryKillProcess. wp_steps.
  apply wp_call; [done|]. intros sigterm _. wp_steps. destruct (is_esrch sigterm); wp_steps; [apply HP|].
  apply wp_exits; [|apply HP]. intros b. wp_steps. apply wp_alive. intros [] ; wp_steps.
  - apply wp_call; [done|]. intros sigkill _. wp_steps. destruct (is_esrch sigkill); wp_steps; [apply HP|].
    apply wp_exits; [|apply HP]. intros b'. wp_steps. apply wp_alive. intros []; wp_steps; apply HP.
  - apply wp_alive. intros []; wp_steps; apply HP.
Qed.

Lemma wp_ready fuel timeout Post (s : T) q :
  (forall q' o, w_held q' = w_held q -> w_spawned q' = w_spawned q ->
     (forall u, o = Returned u -> exists b, w_probe q' = Some (Usable b)) -> Post o s q') ->
  wp manager_monitor (waitUntilReady m fuel timeout) Post s q.
Proof.
  intros HP. unfold waitUntilReady. wp_steps. apply wp_passive; [done|]. intros startedAt. wp_steps.
  revert q HP. induction fuel as [|f IH]; intros q HP; cbn [ready_loop]; wp_steps; [by apply HP|].
  apply wp_passive; [done|]. intros now. wp_steps. destruct (now - startedAt <=? timeout); wp_steps.
  - apply wp_call; [done|]. intros v _. wp_steps. destruct v as [b| | |reason]; wp_steps.
    + apply HP; cbn; eauto.
    + by apply HP.
    + by apply HP.
    + apply wp_passive; [done|]. intros []. wp_steps. apply IH. intros q' o Hh Hs. apply HP; done.
  - by apply HP.
Qed.

Lemma wp_probe n v Post (s : T) q : w_probe q = Some v ->
  (forall v', Post (Returned v') s (mkWatched (Some v') (w_held q) (w_spawned q))) ->
  wp manager_monitor (probe_retries m n v) Post s q.
Proof.
  revert v q. induction n as [|n IH]; intros v q Hv HP; cbn [probe_retries].
  - apply wp_ret. specialize (HP v). rewrite <- Hv in HP. by destruct q.
  - destruct (isRetryableHealthProbeResult v); wp_steps.
    + apply wp_passive; [done|]. intros []. wp_steps. apply wp_call; [done|]. intros v' _. wp_steps. by apply IH.
    + specialize (HP v). rewrite <- Hv in HP. by destruct q.
Qed.
End Neutral.

(** ** The stops that run side by side *)

Lemma pending_lookup i j ts : j ∈ pending_from i ts -> exists c k, ts !! (j - i)%nat = Some (Call c k) /\ (i <= j)%nat.
Proof.
  revert i. induction ts as [|t ts IH]; intros i; cbn [pending_from]; [by intros ?%not_elem_of_nil|].
  rewrite elem_of_app. intros [Hj|Hj].
  - destruct t as [?|c k]; cbn in Hj; [by apply not_elem_of_nil in Hj|]. apply list_elem_of_singleton in Hj as ->.
    exists c, k. by rewrite Nat.sub_diag.
  - destruct (IH (S i) Hj) as (c & k & Hl & Hle). exists c, k. split; [|lia].
    replace (j - i)%nat with (S (j - S i)) by lia. done.
Qed.

Lemma promise_all_only C n ts : Forall (only C) ts -> only (fun c => C c \/ c = Schedule) (promise_all n ts).
Proof.
  revert ts. induction n as [|n IH]; intros ts Hts; cbn [promise_all];
    (destruct (list_find _ ts) as [[? t]|]; [done|]); destruct (pending_from 0 ts) as [|p ps] eqn:Ep; try done.
  cbn [only]. split; [by right|]. intros choice. destruct (ts !! _) as [[?|c k]|] eqn:Ei; [done| |done].
  assert (only C (Call c k)) as [Hc Hk] by (by eapply Forall_lookup_1).
  split; [by left|]. intros r. apply IH. apply Forall_insert; [done|apply Hk].
Qed.

Definition stop_call (c : sys_call) : Prop :=
  match c with DateNow | Sleep _ | KillZero _ | ProcessKill _ _ => True | _ => False end.

Ltac only_steps :=
  repeat match goal with
  | |- calls_only _ (mthen _ _) => apply calls_only_then; [|intros ?]
  | |- calls_only _ (mcall _) => intros ?; split; [exact I|intros ?; exact I]
  | |- calls_only _ (mret _) => intros ?; exact I
  | |- calls_only _ (mthrow _) => intros ?; exact I
  | |- calls_only _ mspin => intros ?; exact I
  | |- calls_only _ (if ?b then _ else _) => destruct b
  | |- calls_only _ (match ?x with _ => _ end) => destruct x
  end.

Lemma alive_stop_calls {T} pid : calls_only (S := T) stop_call (isProcessAlive pid).
Proof. unfold isProcessAlive. only_steps. Qed.

Lemma exits_stop_calls {T} m fuel pid timeout : calls_only (S := T) stop_call (waitUntilProcessExits m fuel pid timeout).
Proof.
  unfold waitUntilProcessExits. only_steps. rename a into startedAt.
  induction fuel as [|f IH]; cbn [exit_loop]; only_steps; try apply alive_stop_calls. apply IH.
Qed.

Lemma force_stop_calls {T} m fuel pid : calls_only (S := T) stop_call (forceStopProcess m fuel pid).
Proof.
  unfold forceStopProcess, tryKillProcess. only_steps; try apply exits_stop_calls; apply alive_stop_calls.
Qed.

Section Critical.
Variable m : Manager.
Variable fuel : nat.

Lemma wp_mall n pids Post s q : may_act q ->
  (forall o bg, Post o (mkManagerState (ms_spawnLock s) bg) q) ->
  wp manager_monitor (mall n (List.map (fun pid => forceStopProcess m fuel pid tt) pids)) Post s q.
Proof.
  intros Hq HP. unfold mall, wp. apply sat_bind. eapply sat_mono; [|apply (sat_only _ (fun q' => q' = q)
    (fun c => stop_call c \/ c = Schedule))]; [| | |done].
  - intros [o rest] q' ->. cbn. apply HP.
  - intros c Hc q' ->. destruct Hc as [Hc| ->]; [|by split]. by destruct c.
  - apply promise_all_only. apply list.Forall_forall. intros t Ht. apply list_elem_of_fmap in Ht as (pid & -> & _).
    apply force_stop_calls.
Qed.

Lemma wp_artifacts Post s q : may_act q -> Post (Returned tt) s q ->
  wp manager_monitor (removeDaemonArtifacts m) Post s q.
Proof.
  intros Hq HP. unfold removeDaemonArtifacts. destruct (mg_win32 m); wp_steps; [done|].
  apply wp_call; [done|]. intros r _. by wp_steps.
Qed.

Lemma wp_filter_alive pids Post s q : (forall l, Post (Returned l) s q) ->
  wp manager_monitor (filter_alive pids) Post s q.
Proof.
  revert Post. induction pids as [|pid pids IH]; intros Post HP; cbn [filter_alive]; wp_steps; [apply HP|].
  apply wp_alive. intros b. wp_steps. apply IH. intros l. wp_steps. apply HP.
Qed.

(** A stop leaves the lock alone and the monitor where it is. *)
Definition stopped_with (s : ManagerState) (q : watched) (Post : outcome error unit -> ManagerState -> watched -> Prop) : Prop :=
  forall o bg, Post o (mkManagerState (ms_spawnLock s) bg) q.

Lemma wp_forceStopDaemon Post s q : may_act q -> stopped_with s q Post ->
  wp manager_monitor (forceStopDaemon m fuel) Post s q.
Proof.
  intros Hq HP. unfold forceStopDaemon, findDaemonProcessIds. wp_steps. apply wp_passive; [done|]. intros pids. wp_steps.
  apply wp_filter_alive. intros l. wp_steps. apply wp_mall; [done|]. intros [u|e|] bg; wp_steps; [|apply HP..].
  apply wp_artifacts; [done|]. apply HP.
Qed.

Lemma wp_gracefulStop Post s q : may_act q -> w_held q = Some ReplaceRequired -> stopped_with s q Post ->
  wp manager_monitor (tryGracefullyStopDaemon m fuel daemon_protocol_older_than_connector) Post s q.
Proof.
  intros Hq Hv HP. unfold tryGracefullyStopDaemon, findDaemonProcessIds, sendDaemonShutdownRpc. wp_steps.
  apply wp_passive; [done|]. intros pids. wp_steps.
  destruct (1 <? List.length pids)%nat; [by apply wp_forceStopDaemon|]. wp_steps.
  assert (forall o, Post o s q) as HPs by (intros o; specialize (HP o (ms_background s)); by destruct s).
  assert (forall requested : bool, wp manager_monitor
    (match pids with
     | [] => mret tt
     | daemonPid :: _ =>
         (if requested then waitUntilProcessExits m fuel daemonPid (mg_replacementTimeout m) ;;; mret tt else mret tt) ;;;
         mlet alive := isProcessAlive daemonPid in
         if alive then forceStopProcess m fuel daemonPid else mret tt
     end ;;; removeDaemonArtifacts m) Post s q) as Hrest.
  { intros requested. assert (wp manager_monitor (removeDaemonArtifacts m) Post s q) as Hart by (by apply wp_artifacts).
    wp_steps. destruct pids as [|pid pids]; wp_steps; [done|].
    assert (wp manager_monitor (isProcessAlive pid) (and_then manager_monitor
      (fun alive : bool => if alive then forceStopProcess m fuel pid else mret tt)
      (fun o s q => match o with Returned _ => wp manager_monitor (removeDaemonArtifacts m) Post s q
                    | Thrown e => Post (Thrown e) s q | NoFuel => Post NoFuel s q end)) s q) as Hstop.
    { apply wp_alive. intros []; wp_steps; [|done].
      apply wp_forceStopProcess; [done|]. by intros [u|e|]. }
    destruct requested; wp_steps; [|exact Hstop].
    apply wp_exits; [|apply HPs]. intros b. wp_steps. exact Hstop. }
  destruct (mg_daemonClient m); [|by apply Hrest].
  apply wp_call; [done|]. intros requested _. apply (Hrest requested).
Qed.
End Critical.

(** ** The spawn lock around it all *)

Section Ensure.
Variable m : Manager.
Variable fuel : nat.

Lemma wp_on_lock {Q} (mon : sys_monitor Q) {A} (p : sys_M FileLock error A) Post s q :
  wp mon p (fun o lock q => Post o (mkManagerState lock (ms_background s)) q) (ms_spawnLock s) q ->
  wp mon (on_lock p) Post s q.
Proof. intros H. unfold on_lock, wp. apply sat_bind. eapply sat_mono; [|exact H]. by intros [o lock] q'. Qed.

Lemma wp_acquireSpawnLock Post s v : fl_locked (ms_spawnLock s) = false ->
  (forall o, Post (Returned true) (mkManagerState (mkFileLock true (Some o)) (ms_background s)) (mkWatched (Some v) (Some v) false)) ->
  Post (Returned false) s (mkWatched (Some v) None false) ->
  (forall e, Post (Thrown e) s (mkWatched (Some v) None false)) ->
  wp manager_monitor (acquireSpawnLock m) Post s (mkWatched (Some v) None false).
Proof.
  intros Hl Ht Hf He. assert (mkManagerState (ms_spawnLock s) (ms_background s) = s) as Es by (by destruct s).
  unfold acquireSpawnLock. wp_steps. apply wp_passive; [done|]. intros now. wp_steps.
  apply wp_on_lock, wp_cleanupStale_any; [apply reads_ignored|done|by intros [e|]|]. intros b. rewrite Es. wp_steps.
  apply wp_on_lock. unfold acquire. wp_steps. rewrite Hl.
  apply wp_take_lock_any; rewrite ?Es; try done; apply reads_ignored.
Qed.

Definition release_failed : error := PlainError "Failed to release file lock".

(** Releasing ends with the lock given up, or with the exception that says it
    was not. *)
Lemma wp_release (Post : outcome error unit -> ManagerState -> watched -> Prop) s q o :
  ms_spawnLock s = mkFileLock true (Some o) ->
  (forall q', w_probe q' = w_probe q -> Post (Returned tt) (mkManagerState cleared (ms_background s)) q' /\
                                        Post (Thrown release_failed) s q') ->
  wp manager_monitor releaseSpawnLock Post s q.
Proof.
  intros Hl HP. apply wp_on_lock. rewrite Hl. unfold release, clearLocalState. wp_steps. cbn [fl_locked fl_owner]. wp_steps.
  assert (forall q' (b : bool), w_probe q' = w_probe q -> wp manager_monitor
     (if b then mput cleared else mlet current := readOwner in
        if negb (isSameOwner current (Some o)) then mput cleared else mthrow release_failed)
     (fun o lock q => Post o (mkManagerState lock (ms_background s)) q) (mkFileLock true (Some o)) q') as Hend.
  { intros q' [] Hp; wp_steps; [by apply HP|]. apply wp_readOwner_any; [apply reads_ignored|]. intros r. wp_steps.
    destruct (isSameOwner r (Some o)); wp_steps; [|by apply HP]. rewrite <- Hl. destruct s; by apply HP. }
  apply wp_tryRemove_any; [apply reads_ignored|done|done| |by apply (Hend _ true)]. intros b. by apply Hend.
Qed.

(** How a run of the manager ends: the lock is given up, the result [true]
    stands for a usable daemon, and what is thrown should not be retried. *)
Definition ended (o : outcome error bool) (s : ManagerState) (q : watched) : Prop :=
  match o with
  | Returned true => fl_locked (ms_spawnLock s) = false /\ exists b, w_probe q = Some (Usable b)
  | Returned false => fl_locked (ms_spawnLock s) = false
  | Thrown e => fl_locked (ms_spawnLock s) = false \/ e = release_failed
  | NoFuel => True
  end.

(** A turn that did not get the lock changes nothing. *)
Definition turn_ended (v : validation) (o : outcome error bool) (s : ManagerState) (q : watched) : Prop :=
  match o with
  | Returned false => fl_locked (ms_spawnLock s) = false /\ q = mkWatched (Some v) None false
  | _ => ended o s q
  end.

Lemma wp_tryStartDaemon before s v : fl_locked (ms_spawnLock s) = false -> stoppable v = true ->
  (forall Post s, stopped_with s (mkWatched (Some v) (Some v) false) Post ->
     wp manager_monitor before Post s (mkWatched (Some v) (Some v) false)) ->
  wp manager_monitor (tryStartDaemon m fuel before) (turn_ended v) s (mkWatched (Some v) None false).
Proof.
  intros Hl Hv Hb. unfold tryStartDaemon. wp_steps. apply wp_acquireSpawnLock; [done| | |].
  - intros o. wp_steps. apply Hb.
    assert (forall e bg q, wp manager_monitor releaseSpawnLock
       (fun o' s q => match o' with
                      | Returned _ => turn_ended v (Thrown e) s q
                      | Thrown e => turn_ended v (Thrown e) s q
                      | NoFuel => turn_ended v NoFuel s q end) (mkManagerState (mkFileLock true (Some o)) bg) q) as Hthrow.
    { intros e bg q. eapply wp_release; [reflexivity|]. intros q' _. cbn. auto. }
    intros [u|e|] bg; wp_steps; [|apply Hthrow|done]. unfold spawnDaemon. wp_steps. apply wp_or_throw.
    { split; [done|]. by exists v. }
    intros [e|] _; wp_steps; [apply Hthrow|]. apply wp_ready. intros q' [u'|e|] _ _ Hret; wp_steps; [|apply Hthrow|done].
    eapply wp_release; [reflexivity|]. intros q'' Hp. cbn. rewrite Hp.
    destruct (Hret u' eq_refl) as [b Hb']. eauto.
  - wp_steps. done.
  - intros e. wp_steps. by left.
Qed.

Lemma wp_turn s v : fl_locked (ms_spawnLock s) = false ->
  wp manager_monitor (handleDiscoveryResult m fuel v) (turn_ended v) s (mkWatched (Some v) None false).
Proof.
  intros Hl. unfold handleDiscoveryResult, isOlderDaemonInUse. destruct v as [b| | |reason]; wp_steps.
  - cbn. eauto.
  - apply wp_tryStartDaemon; [done..|]. intros Post s' HP. apply wp_gracefulStop; try done. split; [done|]. by eexists.
  - by left.
  - apply wp_tryStartDaemon; [done..|]. intros Post s' HP. apply wp_forceStopDaemon; try done. split; [done|]. by eexists.
Qed.

Lemma wp_ensure_loop turns s p : fl_locked (ms_spawnLock s) = false ->
  wp manager_monitor (ensure_loop m fuel turns) (fun o s q => o <> Returned false /\ ended o s q) s (mkWatched p None false).
Proof.
  revert s p. induction turns as [|turns IH]; intros s p Hl; cbn [ensure_loop]; wp_steps; [done|].
  unfold probeDaemonHealthWithRetry. wp_steps. apply wp_call; [done|]. intros v0 _. cbn [m_next manager_monitor]. wp_steps.
  apply wp_probe; [done|]. intros v. cbn [w_held w_spawned]. wp_steps.
  eapply wp_mono; [by apply wp_turn|]. intros [[]|e|] s' q'; cbn [turn_ended]; wp_steps; try done.
  intros [Hl' ->]. by apply IH.
Qed.
End Ensure.

(** C20: Whatever the processes, files and other managers around it do, a
    manager (outside its debug mode) that makes sure of a daemon asks one to
    shut down, signals, cleans up after or spawns one only while it holds the
    spawn lock, at most one spawn per call and none of the others after it, and
    only when the health probe before taking the lock found no usable daemon
    and none in use by others; an orderly shutdown is asked of an older daemon
    only.  It returns [true] only after a probe that found a usable daemon,
    throws only what should not be retried, and has given the lock up in the
    end unless the exception says that it could not. *)
Theorem daemon_handled_safely {W} m fuel turns (serve : forall c, W -> sys_reply c * W) s w tr o s' w' :
  mg_enableDebugMode m = false -> fl_locked (ms_spawnLock s) = false ->
  exec serve (ensureDaemon m fuel turns s) w = (tr, (o, s'), w') ->
  let q := mkWatched None None false in
  allowed manager_monitor tr q /\
  match o with
  | Returned true => fl_locked (ms_spawnLock s') = false /\ exists b, w_probe (watch manager_monitor tr q) = Some (Usable b)
  | Returned false => fl_locked (ms_spawnLock s') = false
  | Thrown e => isRetryableDaemonError e = false /\ (fl_locked (ms_spawnLock s') = false \/ e = release_failed)
  | NoFuel => True
  end.
Proof.
  intros Hd Hl E q.
  set (Post := fun (o : outcome error bool) (s : ManagerState) (q : watched) => ended o s q /\
    forall e, o = Thrown e -> isRetryableDaemonError e = false).
  assert (wp manager_monitor (ensureDaemon m fuel turns) Post s q) as Hwp.
  { unfold ensureDaemon. rewrite Hd. wp_steps. eapply wp_mono; [by apply wp_ensure_loop|].
    intros [b|e|] s1 q1 [Hne He]; [by split|destruct (isRetryableDaemonError e) eqn:Er; wp_steps|by split].
    - split; [|done]. cbn in *. destruct He as [He| ->]; [done|]. discriminate Er.
    - split; [done|]. by intros e' [= <-]. }
  assert (assumed manager_monitor tr q) as Has by (clear; generalize q; induction tr; cbn; auto).
  destruct (sat_exec manager_monitor serve _ _ q w tr (o, s') w' Hwp E Has) as [Hal [Hend Hr]].
  split; [done|]. destruct o as [[]|e|]; cbn in Hend; try done. split; [by apply Hr|done].
Qed.

(** An environment without a daemon: probes fail until one was spawned. *)
Record DemoWorld := mkDemoWorld { dw_clock : Z; dw_spawned : bool }.

Definition demo_serve (c : sys_call) (w : DemoWorld) : sys_reply c * DemoWorld :=
  match c return sys_reply c * DemoWorld with
  | MkdirSync _ | WriteFileSync _ _ | RmSync _ | KillZero _ | ProcessKill _ _ => (None, w)
  | SpawnProcess _ => (None, mkDemoWorld (dw_clock w) true)
  | ExistsSync _ | ShutdownRpc _ => (false, w)
  | ReadFileSync _ => (None, w)
  | StatSync _ => (inr (Some "ENOENT"%string), w)
  | ProcessPid => (10, w)
  | DateNow => (dw_clock w, w)
  | RandomBytes => (js "ab", w)
  | FindProcesses => ([], w)
  | Sleep d => (tt, mkDemoWorld (dw_clock w + d) (dw_spawned w))
  | Schedule => (0%nat, w)
  | ProbeHealth => (if dw_spawned w then Usable true else Unusable "unreachable", w)
  end.

Definition demo_manager : Manager := setDaemonClient (new_manager (mkManagerOption full_config (js "entry.js") None None None None) false).

Lemma daemon_handled_safely_witness :
  exists tr s' w', exec demo_serve (ensureDaemon demo_manager 10 1 new_manager_state) (mkDemoWorld 100 false) =
    (tr, (Returned true, s'), w') /\ allowed manager_monitor tr (mkWatched None None false) /\
    fl_locked (ms_spawnLock s') = false.
Proof.
  pose (r := exec demo_serve (ensureDaemon demo_manager 10 1 new_manager_state) (mkDemoWorld 100 false)).
  exists r.1.1, r.1.2.2, r.2. split; [vm_compute; reflexivity|].
  destruct (daemon_handled_safely demo_manager 10 1 demo_serve new_manager_state (mkDemoWorld 100 false)
    r.1.1 (Returned true) r.1.2.2 r.2 eq_refl eq_refl ltac:(vm_compute; reflexivity)) as [Ha [Hl _]].
  split; [exact Ha|exact Hl].
Defined.
