(* ===== verification/SpawnLock.v ===== *)
(** * The spawn lock over time

    The lock of the daemon manager ([MultiplexerDaemonManager.acquireSpawnLock]
    on top of [FileLock]) run against a file system: when it is taken, when a
    stale one is recovered, how long a manager may keep it, and how many probes
    a manager makes. *)

From Stdlib Require Import String.
From stdpp Require Import strings.
From S2P Require Import JsValue Json Client Entry Prog System FileLock Manager.

(** ** Taking the lock alone *)

Section Alone.
Variable pid : Z.
Variable random : jstr.
Variable alive : Z -> bool.

(** A file system without failures, on which nobody else works meanwhile. *)
Definition fs_serve (c : sys_call) (f : Files) : sys_reply c * Files :=
  match c return sys_reply c * Files with
  | MkdirSync LockPath =>
      match f_dir f with
      | Some _ => (Some (SysError (Some "EEXIST"%string)), f)
      | None => (None, mkFiles (f_clock f) (Some (mkDir 0 (f_clock f) None)))
      end
  | MkdirSync _ => (None, f)
  | ExistsSync LockPath => (bool_decide (is_Some (f_dir f)), f)
  | ExistsSync OwnerPath => (bool_decide (is_Some (f_dir f ≫= d_owner)), f)
  | ExistsSync _ => (false, f)
  | ReadFileSync OwnerPath => (f_dir f ≫= d_owner, f)
  | ReadFileSync _ => (None, f)
  | WriteFileSync OwnerPath text =>
      match f_dir f with
      | Some d => (None, mkFiles (f_clock f) (Some (mkDir (d_by d) (f_clock f) (Some text))))
      | None => (Some (SysError (Some "ENOENT"%string)), f)
      end
  | WriteFileSync _ _ => (None, f)
  | RmSync LockPath => (None, mkFiles (f_clock f) None)
  | RmSync _ => (None, f)
  | StatSync LockPath => (match f_dir f with Some d => inl (d_mtime d) | None => inr (Some "ENOENT"%string) end, f)
  | StatSync _ => (inr (Some "ENOENT"%string), f)
  | ProcessPid => (pid, f)
  | DateNow => (f_clock f, f)
  | RandomBytes => (random, f)
  | KillZero p => (if alive p then None else Some (SysError (Some "ESRCH"%string)), f)
  | ProcessKill _ _ | SpawnProcess _ => (None, f)
  | FindProcesses => ([], f)
  | Sleep d => (tt, mkFiles (f_clock f + d) (f_dir f))
  | Schedule => (0%nat, f)
  | ProbeHealth => (Unusable "unreachable", f)
  | ShutdownRpc _ => (false, f)
  end.

(** When the lock can be had: nobody has it, its owner died, or it is older
    than the limit, by the owner file or else by the directory. *)
Definition obtainable (timeout : Z) (f : Files) : bool :=
  match f_dir f with
  | None => true
  | Some d =>
      match d_owner d ≫= parse_owner with
      | Some o => negb (alive (o_pid o)) || (timeout <? f_clock f - o_createdAt o)
      | None => timeout <? f_clock f - d_mtime d
      end
  end.

Lemma parse_owner_pid text o : parse_owner text = Some o -> 0 < o_pid o.
Proof.
  unfold parse_owner. destruct (parse text) as [v|]; [|done]. unfold positive_safe.
  destruct (jget (js "pid") (Some v)) as [[| |[p|]| | |]|]; try done.
  destruct ((0 <? p) && (p <=? MAX_SAFE)) eqn:Ep; [|done].
  destruct (jget (js "createdAt") (Some v)) as [[| |[q|]| | |]|]; try done.
  destruct ((0 <? q) && (q <=? MAX_SAFE)); [|done].
  destruct (jget (js "token") (Some v)) as [[| | |[|u t]| |]|]; try done.
  intros [= <-]. cbn [o_pid]. apply andb_true_iff in Ep as [Ep _]. lia.
Qed.

Definition my_owner (f : Files) : FileLockOwner := mkOwner pid (f_clock f) (createDefaultToken pid (f_clock f) random).

(** The directory after taking the lock. *)
Definition taken_files (f : Files) : Files :=
  mkFiles (f_clock f) (Some (mkDir 0 (f_clock f) (Some (stringify (owner_json (my_owner f)))))).

Lemma run_readOwner f lock :
  run fs_serve (readOwner lock) f = (Returned ((f_dir f ≫= d_owner) ≫= parse_owner), lock, f).
Proof. destruct f as [clock [[by' mt [text|]]|]]; reflexivity. Qed.

Lemma run_isProcessAlive p f (lock : FileLock) : 0 < p ->
  run fs_serve (isProcessAlive p lock) f = (Returned (alive p), lock, f).
Proof.
  intros Hp. unfold isProcessAlive. rewrite (proj2 (Z.leb_gt p 0)) by lia.
  rewrite run_then. unfold mcall. rewrite run_call. cbn [fs_serve]. by destruct (alive p).
Qed.

Lemma run_tryRemove f lock o :
  run fs_serve (tryRemove o lock) f =
    if bool_decide (is_Some (f_dir f)) then
      if bool_decide (o = (f_dir f ≫= d_owner) ≫= parse_owner)
      then (Returned true, lock, mkFiles (f_clock f) None) else (Returned false, lock, f)
    else (Returned true, lock, f).
Proof.
  unfold tryRemove. rewrite run_then. unfold mcall. rewrite run_call. cbn [fs_serve].
  destruct f as [clock [d|]]; [|reflexivity]. cbn [f_dir]. rewrite bool_decide_eq_true_2 by eauto. cbn [run exec negb].
  rewrite run_then, run_readOwner. cbn [f_dir]. unfold isSameOwner. case_bool_decide; reflexivity.
Qed.

Lemma run_cleanupStale timeout f lock :
  exists b, run fs_serve (cleanupStale timeout (f_clock f) lock) f =
    (Returned b, lock, if obtainable timeout f then mkFiles (f_clock f) None else f).
Proof.
  unfold cleanupStale. rewrite run_then, run_readOwner. rewrite run_then. unfold isLockStateStale. rewrite run_then.
  unfold mcall at 1. rewrite run_call. cbn [fs_serve]. destruct f as [clock [d|]]; [|by exists false].
  cbn [f_dir f_clock]. rewrite bool_decide_eq_true_2 by eauto. cbn [run exec negb]. unfold obtainable. cbn [f_dir f_clock].
  change (Some d ≫= d_owner) with (d_owner d). 
  destruct (d_owner d ≫= parse_owner) as [o|] eqn:Eo.
  - assert (0 < o_pid o) as Hpid by (destruct (d_owner d) as [text|]; [by eapply parse_owner_pid|done]).
    assert (bool_decide (Some o = d_owner d ≫= parse_owner) = true) as Hsame by (by apply bool_decide_eq_true_2).
    rewrite run_then, run_isProcessAlive by done. cbn [negb orb].
    destruct (alive (o_pid o)); cbn [run exec negb orb mret];
      [destruct (timeout <? clock - o_createdAt o); cbn [run exec negb mret]; [|by exists false]|];
      (exists true; rewrite run_tryRemove; cbn [f_dir f_clock]; rewrite bool_decide_eq_true_2 by eauto;
       change (Some d ≫= d_owner) with (d_owner d); by rewrite Hsame).
  - rewrite run_then. unfold mcall at 1. rewrite run_call. cbn [fs_serve f_dir run exec mret].
    destruct (timeout <? clock - d_mtime d); cbn [run exec negb mret]; [|by exists false].
    exists true. rewrite run_tryRemove. cbn [f_dir f_clock]. rewrite bool_decide_eq_true_2 by eauto.
    change (Some d ≫= d_owner) with (d_owner d). by rewrite Eo.
Qed.

(** A free lock is taken, a present one refused. *)
Lemma run_take_lock f lock :
  run fs_serve (take_lock lock) f =
    match f_dir f with
    | None => (Returned true, mkFileLock true (Some (my_owner f)), taken_files f)
    | Some _ => (Returned false, lock, f)
    end.
Proof. destruct f as [clock [d|]]; reflexivity. Qed.

Lemma run_on_lock {A} (p : sys_M FileLock error A) s f :
  run fs_serve (on_lock p s) f =
    let '(o, lock, f) := run fs_serve (p (ms_spawnLock s)) f in (o, mkManagerState lock (ms_background s), f).
Proof. unfold on_lock. rewrite run_bind. by destruct (run fs_serve (p (ms_spawnLock s)) f) as [[o lock] f']. Qed.

(** A manager gets the spawn lock exactly when nobody has it, when the
    process that has it is dead, or when it is older than the startup and
    replacement timeouts with their margin, by the owner file or, before that is
    written or when it is unreadable, by the age of the directory.  It then owns
    the directory, with its own owner file in it; otherwise the lock of the
    other is left as it is. *)
Theorem spawn_lock_taken m s f : fl_locked (ms_spawnLock s) = false ->
  run fs_serve (acquireSpawnLock m s) f =
    if obtainable (spawnLockStaleTimeout m) f
    then (Returned true, mkManagerState (mkFileLock true (Some (my_owner f))) (ms_background s), taken_files f)
    else (Returned false, s, f).
Proof.
  intros Hl. unfold acquireSpawnLock. rewrite run_then. unfold mcall at 1. rewrite run_call. cbn [fs_serve run exec].
  rewrite run_then, run_on_lock.
  destruct (run_cleanupStale (spawnLockStaleTimeout m) f (ms_spawnLock s)) as [b ->]. rewrite run_on_lock. cbn [ms_spawnLock].
  assert (forall f', run fs_serve (acquire (ms_spawnLock s)) f' = run fs_serve (take_lock (ms_spawnLock s)) f') as Ha.
  { intros f'. unfold acquire. rewrite run_then. cbn [run exec mget_state]. by rewrite Hl. }
  rewrite Ha, run_take_lock. destruct (obtainable _ f) eqn:Eo; [done|].
  unfold obtainable in Eo. destruct (f_dir f) as [d|]; [|done]. by destruct s.
Qed.
End Alone.

(** The directory of a dead process. *)
Definition dead_lock : Files :=
  mkFiles 5000 (Some (mkDir 1 4000 (Some (stringify (owner_json (mkOwner 77 4000 (js "77-4000-cd"))))))).

Lemma spawn_lock_taken_example :
  (run (fs_serve 10 (js "ab") (Z.eqb 10)) (acquireSpawnLock demo_manager new_manager_state) dead_lock).1.1 = Returned true /\
  (run (fs_serve 10 (js "ab") (Z.eqb 77)) (acquireSpawnLock demo_manager new_manager_state) dead_lock).1.1 = Returned false.
Proof.
  split.
  - rewrite (spawn_lock_taken 10 (js "ab") (Z.eqb 10) demo_manager new_manager_state dead_lock eq_refl).
    vm_compute. reflexivity.
  - rewrite (spawn_lock_taken 10 (js "ab") (Z.eqb 77) demo_manager new_manager_state dead_lock eq_refl).
    vm_compute. reflexivity.
Defined.

(** ** How long the lock is kept

    An old daemon (process 500) that accepts the shutdown request but does not
    end, ignores SIGTERM and takes 900 ms to die of SIGKILL; the new one answers
    4500 ms after its start.  Every wait is within its limit. *)

Record SlowWorld := mkSlow {
  sw_files : Files;
  sw_deadAt : option Z;
  sw_spawnedAt : option Z;
  sw_seen : Files           (* the files at the last probe *)
}.

#[export] Instance eta_slow : Eta SlowWorld := fun w => mkSlow (sw_files w) (sw_deadAt w) (sw_spawnedAt w) (sw_seen w).

Definition slow_serve (c : sys_call) (w : SlowWorld) : sys_reply c * SlowWorld :=
  let now := f_clock (sw_files w) in
  match c return sys_reply c * SlowWorld with
  | FindProcesses => ([500], w)
  | KillZero p =>
      (match sw_deadAt w with
       | Some t => if (p =? 500) && (t <=? now) then Some (SysError (Some "ESRCH"%string)) else None
       | None => None
       end, w)
  | ShutdownRpc _ => (true, w)
  | ProcessKill _ SigTerm => (None, w)
  | ProcessKill _ SigKill => (None, w <| sw_deadAt := Some (now + 900) |>)
  | SpawnProcess _ => (None, w <| sw_spawnedAt := Some now |>)
  | ProbeHealth =>
      (match sw_spawnedAt w with
       | None => ReplaceRequired
       | Some t => if t + 4500 <=? now then Usable true else Unusable "unreachable"
       end, w <| sw_seen := sw_files w |>)
  | c => let '(r, f) := fs_serve 10 (js "ab") (fun _ => true) c (sw_files w) in (r, w <| sw_files := f |>)
  end.

Definition slow_world : SlowWorld := mkSlow (mkFiles 1000 None) None None (mkFiles 0 None).

(** The spawn lock may be taken from a manager at work.  Replacing a
    daemon waits up to three times the replacement timeout (after the shutdown
    request, SIGTERM and SIGKILL) and then for the start, but the lock counts
    as stale after the startup timeout, one replacement timeout and a second.
    In this run, with the default timeouts and every wait within its limit, the
    manager still holds its lock and waits for the new daemon when a second
    manager finds the lock of the living first one stale and takes it. *)
Theorem lock_outlived :
  let '(o, s, w) := run slow_serve (ensureDaemon demo_manager 200 1 new_manager_state) slow_world in
  o = Returned true /\
  (f_dir (sw_seen w) ≫= d_owner) ≫= parse_owner = Some (my_owner 10 (js "ab") (mkFiles 1000 None)) /\
  (run (fs_serve 20 (js "cd") (fun _ => true)) (acquireSpawnLock demo_manager new_manager_state) (sw_seen w)).1.1 = Returned true.
Proof. vm_compute. split_and!; reflexivity. Qed.
