(* ===== verification/ManagerEnds.v ===== *)
(** * The daemon manager comes to an end

    Every loop of [MultiplexerDaemonManager] ends when the clock advances: the
    waits after their timeouts, the probes after three retries, and the turns of
    [ensureDaemon] and [stopDaemonForDebugging] when the spawn lock is no longer
    refused.  The monitor of this file follows the clock and counts down the
    refusals that are still to come. *)

From Stdlib Require Import String.
From stdpp Require Import strings.
From S2P Require Import JsValue Json Client Entry Prog System FileLock Manager.

Record ticking := mkTicking { t_clock : Z; t_refusals : nat }.

(** An answer that means: somebody else has the lock. *)
Definition refused (c : sys_call) : sys_reply c -> bool :=
  match c return sys_reply c -> bool with
  | MkdirSync _ | WriteFileSync _ _ => fun r => match r with Some e => has_code "EEXIST" e | None => false end
  | _ => fun _ => false
  end.

(** The clock does not go back and a sleep takes its time; there is at most one
    daemon process; and the lock is refused finitely often. *)
Definition clock_monitor : sys_monitor ticking := mkMonitor
  (fun _ _ => True)
  (fun q c r => (refused c r = true -> (0 < t_refusals q)%nat) /\
     match c return sys_reply c -> Prop with
     | DateNow => fun r => t_clock q <= r
     | FindProcesses => fun r => (List.length r <= 1)%nat
     | _ => fun _ => True
     end r)
  (fun q c r =>
     mkTicking (match c return sys_reply c -> Z with
                | DateNow => fun r => r
                | Sleep d => fun _ => t_clock q + Z.max 0 d
                | _ => fun _ => t_clock q
                end r)
       (if refused c r then pred (t_refusals q) else t_refusals q)).

(** Later: the clock has advanced and no refusals were added. *)
Definition later (q q' : ticking) : Prop := t_clock q <= t_clock q' /\ (t_refusals q' <= t_refusals q)%nat.

Lemma later_refl q : later q q.
Proof. split; lia. Qed.

Lemma later_trans q1 q2 q3 : later q1 q2 -> later q2 q3 -> later q1 q3.
Proof. intros [??] [??]. split; lia. Qed.

Lemma next_later q c r : m_assume _ clock_monitor q c r -> later q (m_next _ clock_monitor q c r).
Proof.
  intros [_ Ha]. split; cbn; [|destruct (refused c r); lia]. destruct c; cbn in *; lia.
Qed.

(** The method ends, at a later time. *)
Definition ends {A T} (q : ticking) (o : outcome error A) (s : T) (q' : ticking) : Prop := o <> NoFuel /\ later q q'.

Lemma wp_tick {T} c Post (s : T) q :
  (forall r q', m_assume _ clock_monitor q c r -> q' = m_next _ clock_monitor q c r -> later q q' -> Post (Returned r) s q') ->
  wp clock_monitor (sys c) Post s q.
Proof. intros H. apply wp_call; [done|]. intros r Hr. eapply H; [done..|]. by apply next_later. Qed.

Lemma wp_or_throw_tick {T} c f Post (s : T) q :
  (forall r q', m_assume _ clock_monitor q c r -> q' = m_next _ clock_monitor q c r -> later q q' ->
     Post (match f r with None => Returned tt | Some e => Thrown e end) s q') ->
  wp clock_monitor (or_throw c f) Post s q.
Proof. intros H. apply wp_or_throw; [done|]. intros r Hr. eapply H; [done..|]. by apply next_later. Qed.
Lemma wp_readOwner_ends Post lock q :
  (forall r q', later q q' -> Post (Returned r) lock q') -> wp clock_monitor readOwner Post lock q.
Proof.
  intros H. unfold readOwner. wp_steps. apply wp_tick. intros [] q' _ _ Hq; wp_steps.
  - apply wp_tick. intros r q2 _ _ Hq2. wp_steps. apply H. by eapply later_trans.
  - by apply H.
Qed.

Lemma wp_alive_ends {T} pid Post (s : T) q :
  (forall b q', later q q' -> Post (Returned b) s q') -> wp clock_monitor (isProcessAlive pid) Post s q.
Proof.
  intros H. apply wp_isProcessAlive; [done|intros _; apply H, later_refl|].
  intros r Hr. apply H. by apply next_later.
Qed.

Lemma wp_tryRemove_ends o Post lock q :
  (forall b q', later q q' -> Post (Returned b) lock q') -> wp clock_monitor (tryRemove o) Post lock q.
Proof.
  intros H. unfold tryRemove. wp_steps. apply wp_tick. intros [] q1 _ _ H1; wp_steps; [|by apply H].
  apply wp_readOwner_ends. intros r q2 H2. wp_steps. destruct (isSameOwner o r); wp_steps; [|eauto using later_trans].
  apply wp_tick. intros r2 q3 _ _ H3. wp_steps. eauto using later_trans.
Qed.

Lemma wp_cleanupStale_ends t now Post lock q :
  (forall b q', later q q' -> Post (Returned b) lock q') -> wp clock_monitor (cleanupStale t now) Post lock q.
Proof.
  intros H. unfold cleanupStale, isLockStateStale. wp_steps. apply wp_readOwner_ends. intros r q1 H1. wp_steps.
  assert (forall (b : bool) q', later q q' ->
    wp clock_monitor (if negb b then mret false else tryRemove r) Post lock q') as Hrm.
  { intros [] q' Hq'; wp_steps; [|by apply H]. apply wp_tryRemove_ends. intros b q2 H2. apply H. by eapply later_trans. }
  apply wp_tick. intros [] q2 _ _ H2; wp_steps; [|apply (Hrm false); by eapply later_trans].
  destruct r as [o|]; wp_steps.
  - apply wp_alive_ends. intros [] q3 H3; wp_steps; [apply Hrm|apply (Hrm true)]; eauto using later_trans.
  - apply wp_tick. intros [mtime|code] q3 _ _ H3; wp_steps; apply Hrm; eauto using later_trans.
Qed.

(** A refusal counts down. *)
Definition taken_or_refused {T} (q : ticking) (o : outcome error bool) (lock : T) (q' : ticking) : Prop :=
  ends q o lock q' /\ (o = Returned false -> (t_refusals q' < t_refusals q)%nat).

Lemma wp_take_lock_ends lock q : wp clock_monitor take_lock (taken_or_refused q) lock q.
Proof.
  unfold take_lock, createOwner, writeOwner. wp_steps.
  apply wp_tick. intros pid q1 _ _ H1. wp_steps. apply wp_tick. intros now q2 _ _ H2. wp_steps.
  apply wp_tick. intros random q3 _ _ H3. wp_steps.
  assert (later q q3) as Hq3 by eauto using later_trans. clear q1 q2 H1 H2 H3.
  assert (forall e q' q'', later q q' -> (has_code "EEXIST" e = true -> (0 < t_refusals q')%nat) ->
    q'' = mkTicking (t_clock q') (if has_code "EEXIST" e then pred (t_refusals q') else t_refusals q') ->
    wp clock_monitor (if has_code "EEXIST" e then mret false else mthrow e) (taken_or_refused q) lock q'') as Hcatch.
  { intros e q' q'' [Hc Hr] Hpos ->. destruct (has_code "EEXIST" e); wp_steps.
    - specialize (Hpos eq_refl). split; [split; [done|split; cbn; lia]|]. intros _. cbn. lia.
    - split; [split; [done|split; cbn; lia]|done]. }
  apply wp_or_throw_tick. intros [e|] q4 [Ha _] Eq4 H4; wp_steps; [by eapply Hcatch|].
  assert (later q q4) as Hq4 by eauto using later_trans.
  apply wp_or_throw_tick. intros [e|] q5 [Ha5 _] Eq5 H5; wp_steps; [by eapply Hcatch|].
  assert (later q q5) as Hq5 by eauto using later_trans.
  apply wp_or_throw_tick. intros [e|] q6 [Ha6 _] Eq6 H6; wp_steps; [by eapply Hcatch|].
  split; [|done]. split; [done|]. by eapply later_trans.
Qed.

Lemma taken_or_refused_later {T} q1 q2 o (lock : T) q3 :
  later q1 q2 -> taken_or_refused q2 o lock q3 -> taken_or_refused q1 o lock q3.
Proof.
  intros H [[Ho Hl] Hr]. split; [split; [done|by eapply later_trans]|]. intros E. specialize (Hr E). destruct H. lia.
Qed.

Lemma wp_acquire_ends lock q : wp clock_monitor acquire (taken_or_refused q) lock q.
Proof.
  assert (forall lock q', later q q' -> wp clock_monitor take_lock (taken_or_refused q) lock q') as Ht.
  { intros lock' q' Hq'. eapply wp_mono; [apply wp_take_lock_ends|]. intros o s q2. by apply taken_or_refused_later. }
  unfold acquire, still_owned. wp_steps. destruct (fl_locked lock); [|apply Ht, later_refl]. wp_steps.
  destruct (fl_owner lock) as [o|]; wp_steps; [|apply Ht, later_refl].
  apply wp_readOwner_ends. intros r q1 H1. wp_steps. destruct (isSameOwner r (Some o)); wp_steps; [|by apply Ht].
  split; [|done]. by split.
Qed.

Lemma wp_release_ends lock q : wp clock_monitor release (ends q) lock q.
Proof.
  unfold release, clearLocalState. wp_steps. destruct (fl_locked lock); wp_steps; [|split; [done|apply later_refl]].
  destruct (fl_owner lock) as [o|]; wp_steps; [|split; [done|apply later_refl]].
  apply wp_tryRemove_ends. intros [] q1 H1; wp_steps; [by split|].
  apply wp_readOwner_ends. intros r q2 H2. wp_steps.
  destruct (isSameOwner r (Some o)); wp_steps; (split; [done|by eapply later_trans]).
Qed.

(** From an earlier time on. *)
Lemma wp_ends_from {A T} (p : sys_M T error A) s q0 q :
  later q0 q -> wp clock_monitor p (ends q) s q -> wp clock_monitor p (ends q0) s q.
Proof. intros Hq H. eapply wp_mono; [exact H|]. intros o s' q' [Ho Hl]. split; [done|by eapply later_trans]. Qed.

Lemma wp_ends_then {A B T} (p : sys_M T error A) (f : A -> sys_M T error B) s q0 q :
  wp clock_monitor p (ends q0) s q ->
  (forall a s' q', later q0 q' -> wp clock_monitor (f a) (ends q0) s' q') ->
  wp clock_monitor (mthen p f) (ends q0) s q.
Proof.
  intros Hp Hf. apply wp_then. eapply wp_mono; [exact Hp|]. intros [a|e|] s' q' [Ho Hl]; cbn; [by apply Hf|by split|done].
Qed.

Lemma wp_sys_ends {T} c (s : T) q0 q : later q0 q -> wp clock_monitor (sys c) (ends q0) s q.
Proof. intros Hq. apply wp_tick. intros r q' _ _ Hl. split; [done|by eapply later_trans]. Qed.

Lemma wp_alive_ends_from {T} pid (s : T) q0 q : later q0 q -> wp clock_monitor (isProcessAlive pid) (ends q0) s q.
Proof. intros Hq. apply wp_alive_ends. intros b q' Hl. split; [done|by eapply later_trans]. Qed.

(** The number of calls of a stop is bounded by the turns of its waits. *)
Fixpoint bounded {A} (p : sys_prog A) (n : nat) : Prop :=
  match p with
  | Ret _ => True
  | Call c k => match n with O => False | S n => forall r, bounded (k r) n end
  end.

Lemma bounded_more {A} (p : sys_prog A) n n' : bounded p n -> (n <= n')%nat -> bounded p n'.
Proof.
  revert n n'. induction p as [a|c k IH]; intros n n' H Hle; [done|].
  destruct n as [|n]; [done|]. destruct n' as [|n']; [lia|]. cbn in *. intros r. eapply IH; [apply H|lia].
Qed.

Lemma bounded_bind {A B} (p : sys_prog A) (f : A -> sys_prog B) n n' :
  bounded p n -> (forall a, bounded (f a) n') -> bounded (pbind p f) (n + n').
Proof.
  revert n. induction p as [a|c k IH]; intros n Hp Hf; cbn [pbind].
  - eapply bounded_more; [apply Hf|lia].
  - destruct n as [|n]; [done|]. cbn in *. intros r. by apply IH.
Qed.

Definition bounded_by {A T} (n : nat) (p : sys_M T error A) : Prop := forall s, bounded (p s) n.

Lemma bounded_then {A B T} (p : sys_M T error A) (f : A -> sys_M T error B) n n' :
  bounded_by n p -> (forall a, bounded_by n' (f a)) -> bounded_by (n + n') (mthen p f).
Proof. intros Hp Hf s. apply bounded_bind; [apply Hp|]. intros [[a|e|] s']; [apply Hf|done..]. Qed.

Lemma bounded_sys {T} c : bounded_by (T := T) 1 (sys c).
Proof. intros s r. done. Qed.

Lemma bounded_alive {T} pid : bounded_by (T := T) 1 (isProcessAlive pid).
Proof.
  unfold isProcessAlive. destruct (pid <=? 0); [by intros s|]. apply (bounded_then _ _ 1 0); [apply bounded_sys|]. by intros r s.
Qed.

Lemma bounded_exits {T} m fuel pid timeout : bounded_by (T := T) (1 + 3 * fuel) (waitUntilProcessExits m fuel pid timeout).
Proof.
  apply bounded_then; [apply bounded_sys|]. intros startedAt.
  induction fuel as [|n IH]; cbn [exit_loop]; [by intros s|].
  replace (3 * S n)%nat with (1 + (1 + (1 + 3 * n)))%nat by lia. apply bounded_then; [apply bounded_sys|]. intros now.
  destruct (now - startedAt <=? timeout); apply bounded_then; try apply bounded_alive; [|by intros b s].
  intros []; cbn [negb]; [|by intros s]. apply bounded_then; [apply bounded_sys|]. intros _. apply IH.
Qed.

Lemma bounded_forceStop {T} m fuel pid : bounded_by (T := T) (6 * fuel + 8) (forceStopProcess m fuel pid).
Proof.
  replace (6 * fuel + 8)%nat with (1 + ((1 + 3 * fuel) + (1 + ((1 + ((1 + 3 * fuel) + 0)) + 3))))%nat by lia.
  apply bounded_then; [apply bounded_sys|]. intros sigterm. destruct (is_esrch sigterm); [by intros s|].
  apply bounded_then; [apply bounded_exits|]. intros _. apply bounded_then; [apply bounded_alive|]. intros alive.
  apply bounded_then.
  - destruct alive; [|by intros s]. apply bounded_then; [apply bounded_sys|]. intros e.
    destruct (is_esrch e); [by intros s|]. apply bounded_then; [apply bounded_exits|]. by intros b s.
  - intros [u|e]; [by intros s|]. apply (bounded_then _ _ 1 2); [apply bounded_alive|]. by intros [] s.
Qed.

(** One promise alone: the choice of the event loop does not matter. *)
Lemma promise_all_one n (t : task) q0 q : bounded t n ->
  sat clock_monitor t (fun '(o, s) q' => ends q0 o s q') q ->
  sat clock_monitor (promise_all n [t]) (fun '(o, _) q' => ends q0 o tt q') q.
Proof.
  revert t q. induction n as [|n IH]; intros t q Hb Ht.
  - destruct t as [[[[]|e|] []]|c k]; cbn in *; [done..|by destruct Ht|done].
  - destruct t as [[[[]|e|] []]|c k]; cbn in Hb, Ht; [done..|by destruct Ht|].
    split; [done|]. intros choice _. rewrite Nat.mod_1_r. cbn [List.nth lookup list_lookup].
    destruct Ht as [_ Ht]. split; [done|]. intros r Hr. apply IH; [apply Hb|]. destruct q as [clk n']. by apply Ht.
Qed.

Section Ends.
Variable m : Manager.
Variable fuel : nat.
Hypothesis poll : 0 < mg_readyPollInterval m.
Hypothesis fuel_start : mg_startupTimeout m < (Z.of_nat fuel - 1) * mg_readyPollInterval m.
Hypothesis fuel_replace : mg_replacementTimeout m < (Z.of_nat fuel - 1) * mg_readyPollInterval m.
Hypothesis fuel_pos : (0 < fuel)%nat.

Lemma wp_acquireSpawnLock_ends s q : wp clock_monitor (acquireSpawnLock m) (taken_or_refused q) s q.
Proof.
  unfold acquireSpawnLock. wp_steps. apply wp_tick. intros now q1 _ _ H1. wp_steps.
  apply wp_on_lock, wp_cleanupStale_ends. intros b q2 H2. wp_steps. apply wp_on_lock.
  eapply wp_mono; [apply wp_acquire_ends|]. intros o lock q3 H3.
  eapply taken_or_refused_later; [by eapply later_trans|exact H3].
Qed.

(** *** The waits *)

Lemma wp_exit_loop_ends {T} n pid timeout startedAt (s : T) q0 q :
  later q0 q -> (0 < n)%nat ->
  timeout < t_clock q - startedAt + (Z.of_nat n - 1) * mg_readyPollInterval m ->
  wp clock_monitor (exit_loop m n pid timeout startedAt) (ends q0) s q.
Proof.
  revert q. induction n as [|n IH]; intros q Hq Hn Ht; [lia|]. cbn [exit_loop]. wp_steps.
  apply wp_tick. intros now q1 [_ Ha] E1 H1. cbn in Ha. wp_steps.
  assert (later q0 q1) as Hq1 by by eapply later_trans.
  destruct (Z.leb_spec (now - startedAt) timeout); wp_steps.
  - apply wp_alive_ends. intros [] q2 H2; wp_steps; [|split; [done|by eapply later_trans]].
    assert (later q0 q2) as Hq2 by by eapply later_trans.
    apply wp_tick. intros u q3 _ E3 H3. wp_steps.
    assert (t_clock q1 = now) as Hc1 by (by subst q1). assert (t_clock q3 = t_clock q2 + mg_readyPollInterval m) as Hc3 by (subst q3; cbn; lia).
    destruct H2 as [H2 _]. apply IH; [by eapply later_trans| |]; destruct n; lia.
  - apply wp_alive_ends. intros b q2 H2. wp_steps. split; [done|by eapply later_trans].
Qed.

Lemma wp_exits_ends {T} pid (s : T) q :
  wp clock_monitor (waitUntilProcessExits m fuel pid (mg_replacementTimeout m)) (ends q) s q.
Proof.
  unfold waitUntilProcessExits. wp_steps. apply wp_tick. intros startedAt q1 _ E1 H1. wp_steps.
  apply wp_exit_loop_ends; [done..|]. subst q1. cbn. lia.
Qed.

Lemma wp_ready_loop_ends {T} n timeout startedAt (s : T) q0 q :
  later q0 q -> (0 < n)%nat ->
  timeout < t_clock q - startedAt + (Z.of_nat n - 1) * mg_readyPollInterval m ->
  wp clock_monitor (ready_loop m n timeout startedAt) (ends q0) s q.
Proof.
  revert q. induction n as [|n IH]; intros q Hq Hn Ht; [lia|]. cbn [ready_loop]. wp_steps.
  apply wp_tick. intros now q1 [_ Ha] E1 H1. cbn in Ha. wp_steps.
  assert (later q0 q1) as Hq1 by by eapply later_trans.
  destruct (Z.leb_spec (now - startedAt) timeout); wp_steps; [|by split].
  apply wp_tick. intros v q2 _ _ H2. wp_steps. assert (later q0 q2) as Hq2 by by eapply later_trans.
  destruct v; wp_steps; try by split.
  apply wp_tick. intros u q3 _ E3 H3. wp_steps.
  assert (t_clock q1 = now) as Hc1 by (by subst q1). assert (t_clock q3 = t_clock q2 + mg_readyPollInterval m) as Hc3 by (subst q3; cbn; lia).
  destruct H2 as [H2 _]. apply IH; [by eapply later_trans| |]; destruct n; lia.
Qed.

Lemma wp_ready_ends {T} (s : T) q : wp clock_monitor (waitUntilReady m fuel (mg_startupTimeout m)) (ends q) s q.
Proof.
  unfold waitUntilReady. wp_steps. apply wp_tick. intros startedAt q1 _ E1 H1. wp_steps.
  apply wp_ready_loop_ends; [done..|]. subst q1. cbn. lia.
Qed.

(** *** Stopping *)

Lemma wp_forceStopProcess_ends {T} pid (s : T) q0 q : later q0 q ->
  wp clock_monitor (forceStopProcess m fuel pid) (ends q0) s q.
Proof.
  intros Hq. unfold forceStopProcess, tryKillProcess. apply wp_ends_then; [by apply wp_sys_ends|].
  intros sigterm s1 q1 H1. destruct (is_esrch sigterm); [by split|].
  apply wp_ends_then; [apply wp_ends_from, wp_exits_ends; done|]. intros _ s2 q2 H2.
  apply wp_ends_then; [by apply wp_alive_ends_from|]. intros alive s3 q3 H3. apply wp_ends_then.
  - destruct alive; [|by split]. apply wp_ends_then; [by apply wp_sys_ends|]. intros e s4 q4 H4.
    destruct (is_esrch e); [by split|]. apply wp_ends_then; [apply wp_ends_from, wp_exits_ends; done|].
    intros _ s5 q5 H5. by split.
  - intros [u|e] s4 q4 H4; [by split|]. apply wp_ends_then; [by apply wp_alive_ends_from|].
    intros [] s5 q5 H5; by split.
Qed.

Lemma wp_filter_alive_ends pids s q0 q : later q0 q ->
  wp clock_monitor (filter_alive pids)
    (fun o s' q' => ends q0 o s' q' /\ forall l, o = Returned l -> (List.length l <= List.length pids)%nat) s q.
Proof.
  revert s q. induction pids as [|pid pids IH]; intros s q Hq; cbn [filter_alive]; wp_steps.
  - split; [by split|]. by intros l [= <-].
  - apply wp_alive_ends. intros b q1 H1. wp_steps. assert (later q0 q1) as Hq1 by by eapply later_trans.
    eapply wp_mono; [by apply IH|]. intros [l|e|] s2 q2 [[Ho Hl] Hlen]; wp_steps; [|by split|done].
    split; [by split|]. intros l' [= <-]. specialize (Hlen l eq_refl). destruct b; cbn; lia.
Qed.

Lemma wp_mall_ends pids s q0 q : later q0 q -> (List.length pids <= 1)%nat ->
  wp clock_monitor (mall (List.length pids * (6 * fuel + 8)) (List.map (fun pid => forceStopProcess m fuel pid tt) pids))
    (ends q0) s q.
Proof.
  intros Hq Hlen. unfold mall, wp. apply sat_bind. destruct pids as [|pid [|]]; [by split| |cbn in Hlen; lia].
  eapply sat_mono; [|apply (promise_all_one _ _ q0)].
  - intros [o rest] q' [Ho Hl]. by split.
  - eapply bounded_more; [apply bounded_forceStop|cbn; lia].
  - apply (wp_forceStopProcess_ends pid tt q0 q Hq).
Qed.

Lemma wp_artifacts_ends s q0 q : later q0 q -> wp clock_monitor (removeDaemonArtifacts m) (ends q0) s q.
Proof.
  intros Hq. unfold removeDaemonArtifacts. destruct (mg_win32 m); [by split|].
  apply wp_ends_then; [by apply wp_sys_ends|]. intros r s' q' Hq'. by split.
Qed.

Lemma wp_forceStopDaemon_ends s q0 q : later q0 q -> wp clock_monitor (forceStopDaemon m fuel) (ends q0) s q.
Proof.
  intros Hq. unfold forceStopDaemon, findDaemonProcessIds. wp_steps. apply wp_tick. intros pids q1 [_ Hlen] _ H1. wp_steps.
  cbn in Hlen. assert (later q0 q1) as Hq1 by by eapply later_trans.
  eapply wp_mono; [by apply wp_filter_alive_ends|]. intros [l|e|] s2 q2 [[Ho Hl] Hn]; wp_steps; [|by split|done].
  specialize (Hn l eq_refl). eapply wp_mono; [apply wp_mall_ends; [done|lia]|].
  intros [u|e|] s3 q3 [Ho3 Hl3]; wp_steps; [by apply wp_artifacts_ends|by split|done].
Qed.

Lemma wp_gracefulStop_ends reason s q0 q : later q0 q ->
  wp clock_monitor (tryGracefullyStopDaemon m fuel reason) (ends q0) s q.
Proof.
  intros Hq. unfold tryGracefullyStopDaemon, findDaemonProcessIds, sendDaemonShutdownRpc.
  apply wp_ends_then; [by apply wp_sys_ends|]. intros pids s1 q1 H1.
  destruct (1 <? List.length pids)%nat; [by apply wp_forceStopDaemon_ends|].
  apply wp_ends_then; [destruct (mg_daemonClient m); [by apply wp_sys_ends|by split]|]. intros requested s2 q2 H2.
  apply wp_ends_then; [|intros; by apply wp_artifacts_ends]. destruct pids as [|pid pids]; [by split|].
  apply wp_ends_then.
  - destruct requested; [|by split]. apply wp_ends_then; [by apply wp_ends_from, wp_exits_ends|]. intros b s3 q3 H3. by split.
  - intros _ s3 q3 H3. apply wp_ends_then; [by apply wp_alive_ends_from|].
    intros [] s4 q4 H4; [by apply wp_forceStopProcess_ends|by split].
Qed.

(** *** Starting *)

Lemma wp_finally_ends {A T} (p : sys_M T error A) f s q0 q :
  wp clock_monitor p (ends q0) s q -> (forall s' q', later q0 q' -> wp clock_monitor f (ends q0) s' q') ->
  wp clock_monitor (mfinally p f) (ends q0) s q.
Proof.
  intros Hp Hf. apply wp_finally. eapply wp_mono; [exact Hp|]. intros o s' q' [Ho Hl].
  destruct o as [a|e|]; [| |done]; (eapply wp_mono; [by apply Hf|]); intros [u|e'|] s2 q2 [Ho2 Hl2]; by split.
Qed.

Lemma wp_releaseSpawnLock_ends s q0 q : later q0 q -> wp clock_monitor releaseSpawnLock (ends q0) s q.
Proof.
  intros Hq. apply wp_on_lock. eapply wp_mono; [apply wp_release_ends|]. intros o lock q' [Ho Hl].
  split; [done|by eapply later_trans].
Qed.

Lemma wp_spawn_ends s q0 q : later q0 q -> wp clock_monitor (spawnDaemon m) (ends q0) s q.
Proof.
  intros Hq. apply wp_or_throw_tick. intros [e|] q' _ _ Hl; (split; [done|by eapply later_trans]).
Qed.

Definition ends_true (q : ticking) (o : outcome error bool) (s : ManagerState) (q' : ticking) : Prop :=
  ends q o s q' /\ o <> Returned false.

Lemma wp_tryStart_ends before s q :
  (forall s' q0 q', later q0 q' -> wp clock_monitor before (ends q0) s' q') ->
  wp clock_monitor (tryStartDaemon m fuel before) (taken_or_refused q) s q.
Proof.
  intros Hb. unfold tryStartDaemon. wp_steps. eapply wp_mono; [apply wp_acquireSpawnLock_ends|].
  intros [[]|e|] s1 q1 [[Ho Hl] Hr]; unfold and_then; cbn [negb]; [|split; [by split|by intros _; apply Hr]|by split|done].
  assert (wp clock_monitor (mfinally (before ;;; spawnDaemon m ;;; waitUntilReady m fuel (mg_startupTimeout m) ;;; mret true)
    releaseSpawnLock) (ends_true q) s1 q1) as Hf; cycle 1.
  { eapply wp_mono; [exact Hf|]. intros o s2 q2 [He Hne]. by split. }
  apply wp_finally. wp_steps.
  assert (forall (o : outcome error bool) s' q', o <> NoFuel -> o <> Returned false -> later q q' ->
    wp clock_monitor releaseSpawnLock (fun o' s q2 => match o' with
       | Returned _ => ends_true q o s q2
       | Thrown e => ends_true q (Thrown e) s q2
       | NoFuel => ends_true q NoFuel s q2 end) s' q') as Hrel.
  { intros o s' q' Ho' Hne Hq'. eapply wp_mono; [by apply (wp_releaseSpawnLock_ends s' q)|].
    intros [u|e|] s2 q2 [Ho2 Hl2]; [split; [by split|done]..|done]. }
  eapply wp_mono; [by apply (Hb s1 q)|]. intros [u|e|] s2 q2 [Ho2 Hl2]; wp_steps; [|by apply Hrel|done].
  eapply wp_mono; [by apply (wp_spawn_ends s2 q)|]. intros [u3|e|] s3 q3 [Ho3 Hl3]; wp_steps; [|by apply Hrel|done].
  eapply wp_mono; [by apply (wp_ends_from _ s3 q), wp_ready_ends|].
  intros [u4|e|] s4 q4 [Ho4 Hl4]; wp_steps; [by apply Hrel..|done].
Qed.

Lemma wp_probe_ends {T} n v (s : T) q0 q : later q0 q -> wp clock_monitor (probe_retries m n v) (ends q0) s q.
Proof.
  revert v s q. induction n as [|n IH]; intros v s q Hq; cbn [probe_retries]; [by split|].
  destruct (isRetryableHealthProbeResult v); [|by split]. apply wp_ends_then; [by apply wp_sys_ends|].
  intros u s1 q1 H1. wp_steps. apply wp_tick. intros v' q2 _ _ H2. wp_steps. apply IH. by eapply later_trans.
Qed.

Lemma wp_turn_ends v s q : wp clock_monitor (handleDiscoveryResult m fuel v) (taken_or_refused q) s q.
Proof.
  assert (forall (o : outcome error bool) , o <> NoFuel -> o <> Returned false -> taken_or_refused q o s q) as Hdone.
  { intros o Ho Hne. split; [split; [done|apply later_refl]|done]. }
  unfold handleDiscoveryResult, isOlderDaemonInUse. destruct v; wp_steps; try by apply Hdone.
  - apply wp_tryStart_ends. intros. by apply wp_gracefulStop_ends.
  - apply wp_tryStart_ends. intros. by apply wp_forceStopDaemon_ends.
Qed.

Lemma wp_ensure_loop_ends turns s q : (t_refusals q < turns)%nat ->
  wp clock_monitor (ensure_loop m fuel turns) (fun o _ _ => o <> NoFuel) s q.
Proof.
  revert s q. induction turns as [|turns IH]; intros s q Ht; [lia|]. cbn [ensure_loop].
  unfold probeDaemonHealthWithRetry. wp_steps. apply wp_tick. intros v0 q1 _ _ H1. wp_steps.
  eapply wp_mono; [by apply (wp_probe_ends _ _ s q q1)|]. intros [v|e|] s2 q2 [Ho2 [_ Hl2]]; wp_steps; try done.
  eapply wp_mono; [apply wp_turn_ends|]. intros [[]|e|] s3 q3 [[Ho3 _] Hr]; wp_steps; try done.
  apply IH. specialize (Hr eq_refl). lia.
Qed.

Lemma wp_lock_loop_ends turns s q : (t_refusals q < turns)%nat ->
  wp clock_monitor (lock_loop m turns) (ends q) s q.
Proof.
  enough (forall q0 q s, later q0 q -> (t_refusals q < turns)%nat -> wp clock_monitor (lock_loop m turns) (ends q0) s q) as H
    by (intros; apply H; [apply later_refl|done]).
  clear q s. induction turns as [|turns IH]; intros q0 q s Hq Ht; [lia|]. cbn [lock_loop]. wp_steps.
  eapply wp_mono; [apply wp_acquireSpawnLock_ends|]. intros [[]|e|] s1 q1 [[Ho Hl] Hr]; wp_steps; try done.
  - split; [done|by eapply later_trans].
  - apply wp_tick. intros u q2 _ _ H2. wp_steps. apply IH; [by eauto using later_trans|].
    specialize (Hr eq_refl). destruct H2. lia.
  - split; [done|by eapply later_trans].
Qed.

Lemma wp_debug_ends turns respawn s q : (t_refusals q < turns)%nat ->
  wp clock_monitor (stopDaemonForDebugging m fuel turns respawn) (ends q) s q.
Proof.
  intros Ht. apply wp_ends_then; [by apply wp_lock_loop_ends|]. intros _ s1 q1 H1.
  apply wp_finally_ends; [|intros; by apply wp_releaseSpawnLock_ends]. apply wp_ends_then.
  - unfold probeDaemonHealthWithRetry. apply wp_ends_then; [by apply wp_sys_ends|]. intros. by apply wp_probe_ends.
  - intros v s2 q2 H2. apply wp_ends_then.
    + destruct v; (by apply wp_gracefulStop_ends) || (by apply wp_forceStopDaemon_ends).
    + intros _ s3 q3 H3. destruct respawn; [|by split]. apply wp_ends_then; [by apply wp_spawn_ends|].
      intros _ s4 q4 H4. by apply wp_ends_from, wp_ready_ends.
Qed.
End Ends.

(** C21: Making sure of a daemon comes to an end.  With a clock that advances,
    at most one daemon process, and a spawn lock that others refuse at most
    [n] times, [ensureDaemon] (in debug mode too) returns or throws after at
    most [n + 1] turns of its loop, each wait after at most as many turns as
    poll intervals fit into its timeout, and two more. *)
Theorem ensure_ends {W} m fuel n (serve : forall c, W -> sys_reply c * W) s w tr o s' w' :
  0 < mg_readyPollInterval m ->
  Z.max 0 (Z.max (mg_startupTimeout m) (mg_replacementTimeout m)) / mg_readyPollInterval m + 2 <= Z.of_nat fuel ->
  exec serve (ensureDaemon m fuel (S n) s) w = (tr, (o, s'), w') ->
  (exists clock, assumed clock_monitor tr (mkTicking clock n)) -> o <> NoFuel.
Proof.
  intros Hp Hf E [clock Has].
  assert (forall t, t <= Z.max 0 (Z.max (mg_startupTimeout m) (mg_replacementTimeout m)) ->
    t < (Z.of_nat fuel - 1) * mg_readyPollInterval m) as Ht.
  { intros t Ht. pose proof (Z.div_mod t (mg_readyPollInterval m) ltac:(lia)).
    pose proof (Z.mod_pos_bound t (mg_readyPollInterval m) Hp).
    pose proof (Z.div_le_mono _ _ (mg_readyPollInterval m) Hp Ht). nia. }
  assert ((0 < fuel)%nat) as Hpos.
  { assert (0 <= Z.max 0 (Z.max (mg_startupTimeout m) (mg_replacementTimeout m)) / mg_readyPollInterval m) by (apply Z.div_pos; lia). lia. }
  assert (wp clock_monitor (ensureDaemon m fuel (S n)) (fun o _ _ => o <> NoFuel) s (mkTicking clock n)) as Hwp.
  { unfold ensureDaemon. destruct (mg_enableDebugMode m).
    - wp_steps. eapply wp_mono; [apply wp_debug_ends; try done; [apply Ht; lia|apply Ht; lia|cbn; lia]|].
      intros [u|e|] s1 q1 [Ho _]; wp_steps; done.
    - wp_steps. eapply wp_mono; [apply wp_ensure_loop_ends; try done; [apply Ht; lia|apply Ht; lia|cbn; lia]|].
      intros [b|e|] s1 q1 Ho; [done| |done]. destruct (isRetryableDaemonError e); wp_steps; done. }
  by destruct (sat_exec clock_monitor serve _ _ _ w tr (o, s') w' Hwp E Has).
Qed.

Lemma ensure_ends_witness :
  exists tr s' w', exec demo_serve (ensureDaemon demo_manager 102 1 new_manager_state) (mkDemoWorld 100 false) =
    (tr, (Returned true, s'), w') /\ assumed clock_monitor tr (mkTicking 100 0) /\ @Returned error bool true <> NoFuel.
Proof.
  pose (r := exec demo_serve (ensureDaemon demo_manager 102 1 new_manager_state) (mkDemoWorld 100 false)).
  assert (assumed clock_monitor r.1.1 (mkTicking 100 0)) as Ha by (vm_compute; repeat split; first [exact I | discriminate | intros; discriminate | repeat constructor]).
  exists r.1.1, r.1.2.2, r.2. split; [vm_compute; reflexivity|]. split; [exact Ha|].
  apply (ensure_ends demo_manager 102 0 demo_serve new_manager_state (mkDemoWorld 100 false) r.1.1 (Returned true) r.1.2.2 r.2);
    [vm_compute; reflexivity|vm_compute; discriminate|vm_compute; reflexivity|exists 100; exact Ha].
Defined.
