(* ===== verification/Mirror.v ===== *)
(** * Mirrors of devices and clients

    Models [multiplexer/client/MultiplexerDevice.ts],
    [MultiplexerUsbClient.ts] and [MultiplexerWebSocketClient.ts]: the objects a
    connector hands out for what the daemon owns.  Their methods are RPCs of the
    daemon client; a USB client also turns messages of its runtime into events
    for its listeners. *)

From Stdlib Require Import String.
From stdpp Require Import strings.
From S2P Require Import JsValue Json Protocol.

(** A call of [daemonClient.call]. *)
Record rpc_call := mkCall { rc_method : ControlRpcMethod; rc_params : json }.

(** The check at the start of [call]. *)
Definition call_valid (c : rpc_call) : bool := isControlRpcParams (rc_method c) (Some (rc_params c)).

(** ** Devices *)

Record MultiplexerDevice := mkMirrorDevice { md_snapshot : DeviceSnapshot; md_connected : bool }.

(** [fromSnapshot]; [cloneDeviceSnapshot] copies every field. *)
Definition device_fromSnapshot (s : DeviceSnapshot) : MultiplexerDevice :=
  mkMirrorDevice (mkDeviceSnapshot (ds_os s) (ds_title s) (ds_serial s) (ds_ports s) (ds_host s)) true.

Definition md_serial (d : MultiplexerDevice) : jstr := ds_serial (md_snapshot d).
Definition md_info (d : MultiplexerDevice) : jstr * jstr * jstr :=
  (ds_os (md_snapshot d), ds_title (md_snapshot d), ds_serial (md_snapshot d)).
Definition md_ports (d : MultiplexerDevice) : list Z := ds_ports (md_snapshot d).
Definition md_getHost (d : MultiplexerDevice) : jstr := ds_host (md_snapshot d).

Definition device_call (m : ControlRpcMethod) (d : MultiplexerDevice) : rpc_call :=
  mkCall m (jobj [field "deviceId" (JStr (md_serial d))]).

Definition md_startWatchClient (d : MultiplexerDevice) : rpc_call := device_call startDeviceClientWatcher d.
Definition md_stopWatchClient (d : MultiplexerDevice) : rpc_call := device_call stopDeviceClientWatcher d.
Definition md_disconnect (d : MultiplexerDevice) : rpc_call * MultiplexerDevice :=
  (device_call disconnectDevice d, mkMirrorDevice (md_snapshot d) false).

(** ** Messages to runtimes *)

(** The request of [sendCustomizedMessage] with the next message id. *)
Definition customized_request (method : jstr) (params : json) (sessionId : num) (type : jstr) (id : Z) : json :=
  jobj [field "event" (jstring "Customized");
        field "data" (jobj [field "type" (JStr type);
          field "data" (jobj [field "client_id" (jint (-1)); field "session_id" (JNum sessionId);
            field "message" (jobj [field "id" (jint id); field "method" (JStr method); field "params" params])]);
          field "sender" (jint 0)])].

Definition send_with_reply (clientId : Z) (message : json) : rpc_call :=
  mkCall sendMessageWithReply (jobj [field "clientId" (jint clientId); field "message" message; field "timeout" (jint 100000)]).

Definition send_without_reply (target : string) (clientId : Z) (message : json) : rpc_call :=
  mkCall sendMessageWithoutReply
    (jobj [field "target" (jstring target); field "clientId" (jint clientId); field "message" message]).

Definition close_call (clientId : Z) : rpc_call := mkCall closeClient (jobj [field "clientId" (jint clientId)]).

(** ** USB clients *)

(** The client with the events it has listeners for. *)
Record MultiplexerUsbClient := mkMirrorClient { mu_snapshot : ClientDescription; mu_listeners : list jstr }.

Definition client_fromSnapshot (s : ClientDescription) : MultiplexerUsbClient := mkMirrorClient s [].

Definition mu_clientId (c : MultiplexerUsbClient) : Z := cd_id (mu_snapshot c).
Definition mu_deviceId (c : MultiplexerUsbClient) : jstr := q_device_id (cd_query (mu_snapshot c)).
Definition mu_close (c : MultiplexerUsbClient) : rpc_call := close_call (mu_clientId c).

(** [on] and [once]. *)
Definition mu_on (event : jstr) (c : MultiplexerUsbClient) : MultiplexerUsbClient :=
  mkMirrorClient (mu_snapshot c) (mu_listeners c ++ [event]).
Definition mu_onAllEvents (c : MultiplexerUsbClient) : MultiplexerUsbClient := mu_on (js "all-cdp-message") c.

Fixpoint remove_one (event : jstr) (l : list jstr) : list jstr :=
  match l with
  | [] => []
  | e :: l => if bool_decide (e = event) then l else e :: remove_one event l
  end.
Definition mu_off (event : jstr) (c : MultiplexerUsbClient) : MultiplexerUsbClient :=
  mkMirrorClient (mu_snapshot c) (remove_one event (mu_listeners c)).

Definition mu_sendRawMessage (message : json) (c : MultiplexerUsbClient) : rpc_call := send_with_reply (mu_clientId c) message.
Definition mu_sendMessage (message : json) (c : MultiplexerUsbClient) : rpc_call := send_without_reply "app" (mu_clientId c) message.
Definition mu_sendCustomizedMessage (method : jstr) (params : json) (sessionId : num) (type : jstr) (id : Z)
  (c : MultiplexerUsbClient) : rpc_call := mu_sendRawMessage (customized_request method params sessionId type id) c.
Definition mu_sendClientMessage (method : jstr) (params : json) (id : Z) (c : MultiplexerUsbClient) : rpc_call :=
  mu_sendCustomizedMessage method params (NInt (-1)) (js "App") id c.

(** [isTypedSocketMessage] and [isCustomizedEventType]. *)
Definition isTypedSocketMessage (v : jsval) (event : string) : bool := jeq_str (v@."event") (js event).
Definition isCustomizedEventType (v : jsval) (type : string) : bool :=
  isTypedSocketMessage v "Customized" && jeq_str ((v@."data")@."type") (js type).

(** The answer of [sendCustomizedMessage]: the message of a CDP or App
    response, [None] if it throws. *)
Definition mu_response (response : jsval) : option jsval :=
  if negb (isCustomizedEventType response "CDP") && negb (isCustomizedEventType response "App") then None
  else Some (((response@."data")@."data")@."message").

(** Events of the client's own emitter. *)
Inductive client_emit :=
  | EmitSessionList (data : jsval)
  | EmitCdp (event : jstr) (params : jsval) (sessionId : jsval)
  | EmitAllCdp (event : jstr) (params : jsval) (sessionId : jsval).

(** [parseClientMessage], with [null] for texts that are not JSON. *)
Definition parseClientMessage (message : jstr) : jsval := parse message.

(** An emitter throws on an event named "error" without listeners. *)
Definition emit_throws (event : jstr) (c : MultiplexerUsbClient) : bool :=
  bool_decide (event = js "error") && negb (bool_decide (js "error" ∈ mu_listeners c)).

(** [handleClientEvent]: the events emitted, and whether it throws. *)
Definition handleClientEvent (event : jstr) (params sessionId : jsval) (c : MultiplexerUsbClient) : list client_emit * bool :=
  let session := match sessionId with Some v => Some v | None => Some (jint (-1)) end in
  if emit_throws event c then ([], true)
  else ([EmitCdp event params session; EmitAllCdp event params session], false).

Definition mu_handleCustomizedMessage (payload : jsval) (c : MultiplexerUsbClient) : list client_emit * bool :=
  let data := payload@."data" in
  if isCustomizedEventType payload "SessionList" then ([EmitSessionList (data@."data")], false)
  else if negb (isCustomizedEventType payload "CDP") && negb (isCustomizedEventType payload "App") then ([], false)
  else
    match (data@."data")@."message" with
    | Some (JStr message) =>
        let cdpMessage := parseClientMessage message in
        if negb (truthy cdpMessage) || truthy (cdpMessage@."id") then ([], false)
        else match cdpMessage@."method" with
             | Some (JStr method) => handleClientEvent method (cdpMessage@."params") ((data@."data")@."session_id") c
             | _ => ([], false)
             end
    | _ => ([], false)
    end.

Definition mu_handleMessage (message : jstr) (c : MultiplexerUsbClient) : list client_emit * bool :=
  let payload := parseClientMessage message in
  if negb (truthy payload) then ([], false)
  else if negb (isTypedSocketMessage payload "Customized") then ([], false)
  else mu_handleCustomizedMessage payload c.

(** ** WebSocket clients *)

Record MultiplexerWebSocketClient := mkMirrorWs { mw_info : WebSocketClientInfo }.

(** [cloneSnapshot]: the copy a snapshot carries; [raw_info] was serialised as
    [null] when it was missing. *)
Definition ws_fromSnapshot (s : WebSocketClientInfo) : MultiplexerWebSocketClient := mkMirrorWs s.

Definition mw_clientId (c : MultiplexerWebSocketClient) : Z := wi_id (mw_info c).
Definition mw_type (c : MultiplexerWebSocketClient) : jsval := wi_type (mw_info c).
Definition mw_close (c : MultiplexerWebSocketClient) : rpc_call := close_call (mw_clientId c).

(** A driver is reached as a web client, a runtime as an app. *)
Definition mw_sendMessage (message : jstr) (c : MultiplexerWebSocketClient) : rpc_call :=
  send_without_reply (if jeq_str (mw_type c) (js "Driver") then "web" else "app") (mw_clientId c) (JStr message).

Definition mw_sendCustomizedMessage (method : jstr) (params : json) (sessionId : num) (type : jstr) (id : Z)
  (c : MultiplexerWebSocketClient) : rpc_call :=
  send_with_reply (mw_clientId c) (customized_request method params sessionId type id).

Definition mw_response (response : jsval) : option jstr :=
  match ((response@."data")@."data")@."message" with Some (JStr s) => Some s | _ => None end.

(** ** The calls of mirrors are valid requests *)

Lemma customized_request_valid method params sessionId type id : num_isFinite sessionId = true ->
  isRequireMessage (Some (customized_request method params sessionId type id)) = true.
Proof. intros H. unfold isRequireMessage, customized_request. jsimp. cbn. by rewrite H. Qed.

Lemma send_with_reply_valid clientId message : isRequireMessage (Some message) = true ->
  call_valid (send_with_reply clientId message) = true.
Proof. intros H. unfold call_valid, send_with_reply, isControlRpcParams. cbn [rc_method rc_params]. jsimp. by rewrite H. Qed.

Lemma send_without_reply_valid target clientId message :
  (target = "web" \/ target = "app" /\ clientId <> -1)%string -> call_valid (send_without_reply target clientId message) = true.
Proof.
  intros [->|[-> Hne]]; unfold call_valid, send_without_reply, isControlRpcParams; cbn [rc_method rc_params]; jsimp; [done|].
  unfold isMinusOne. cbn. by rewrite (proj2 (Z.eqb_neq clientId (-1))).
Qed.

(** ** Events of a runtime *)

(** The message a runtime sends for a CDP event. *)
Definition cdp_event (type : string) (event : jstr) (params : json) (sessionId : Z) : json :=
  jobj [field "event" (jstring "Customized");
        field "data" (jobj [field "type" (jstring type);
          field "data" (jobj [field "session_id" (jint sessionId);
            field "message" (JStr (stringify (jobj [field "method" (JStr event); field "params" params])))])])].

(** A USB client of a connector turns every CDP or App event of its
    runtime into one call of the listeners of that event and one of the
    listeners of all events, with the parameters and the session of the
    runtime, except for an event named "error": without a listener for it the
    emitter throws, no listener of all events hears of it, and the exception
    leaves the handler of the control connection, so a runtime can end the
    connector's process by its choice of a method name. *)
Theorem runtime_event_emitted c type event params sessionId :
  (type = "CDP" \/ type = "App")%string ->
  wf_json (cdp_event type event params sessionId) = true ->
  wf_json (jobj [field "method" (JStr event); field "params" params]) = true ->
  mu_handleMessage (stringify (cdp_event type event params sessionId)) c =
    if bool_decide (event = js "error") && negb (bool_decide (js "error" ∈ mu_listeners c))
    then ([], true)
    else ([EmitCdp event (Some params) (Some (jint sessionId)); EmitAllCdp event (Some params) (Some (jint sessionId))], false).
Proof.
  intros Ht Hw Hm. unfold mu_handleMessage, parseClientMessage. rewrite parse_stringify by done.
  assert (isTypedSocketMessage (Some (cdp_event type event params sessionId)) "Customized" = true) as Hs
    by (unfold isTypedSocketMessage, cdp_event; jsimp; done).
  assert (forall ty, isCustomizedEventType (Some (cdp_event type event params sessionId)) ty = bool_decide (js type = js ty)) as Hc.
  { intros ty. unfold isCustomizedEventType. rewrite Hs. unfold cdp_event. jsimp. done. }
  change (truthy (Some (cdp_event type event params sessionId))) with true. cbn [negb]. rewrite Hs. cbn [negb].
  unfold mu_handleCustomizedMessage. rewrite !Hc.
  assert (bool_decide (js type = js "SessionList") = false /\
          (negb (bool_decide (js type = js "CDP")) && negb (bool_decide (js type = js "App"))) = false) as [-> ->]
    by (by destruct Ht as [->| ->]).
  unfold cdp_event. jsimp. unfold parseClientMessage. rewrite parse_stringify by (by unfold jobj, field in Hm).
  cbn [truthy negb orb]. jsimp. cbn [truthy]. unfold handleClientEvent, emit_throws. done.
Qed.

Lemma runtime_event_emitted_example :
  mu_handleMessage (stringify (cdp_event "CDP" (js "error") (JObj []) 1)) (mkMirrorClient
    (mkClientDescription 8901 1 (mkClientQuery (jstring "a") (js "Android") (js "d") (jstring "m") (js "s") None None)) []) = ([], true) /\
  mu_handleMessage (stringify (cdp_event "App" (js "Page.loaded") (JObj []) 1)) (mkMirrorClient
    (mkClientDescription 8901 1 (mkClientQuery (jstring "a") (js "Android") (js "d") (jstring "m") (js "s") None None)) []) =
    ([EmitCdp (js "Page.loaded") (Some (JObj [])) (Some (jint 1)); EmitAllCdp (js "Page.loaded") (Some (JObj [])) (Some (jint 1))], false).
Proof.
  split; (rewrite runtime_event_emitted; [reflexivity|by auto|vm_compute; reflexivity|vm_compute; reflexivity]).
Defined.
