(* ===== verification/Facade.v ===== *)
(** * The connector facade

    Models [connector/DebugRouterConnector.ts]: the public object of a
    connector.  It keeps mirrors of the devices and clients of the daemon, turns
    the snapshots of the daemon into connected and disconnected events, and
    restores what its caller asked for after a lost daemon.  Methods return the
    effects they have (events for the caller's listeners, RPCs, reports) and the
    new state; asynchronous ones are split at their RPC. *)

From Stdlib Require Import String.
From stdpp Require Import strings.
From S2P Require Import JsValue Json Protocol Physical Host Mirror.

Definition DEFAULT_DEV_SERVE_PORT_facade : Z := 19783.
Definition DEFAULT_MULTIPLEXER_DAEMON_IDLE_TIMEOUT : Z := 600000.
Definition DESIRED_RECOVERY_RETRY_DELAY_MS : Z := 100.

(** ** Options *)

(** The options that decide how the facade behaves; [DebugRouterConnectorOption]
    also carries the settings of a daemon it may start. *)
Record FacadeOption := mkFacadeOption {
  fo_manualConnect : option bool;
  fo_reportService : bool;                (* a service is supplied *)
  fo_enableWebSocket : option bool;
  fo_enableAndroid : option bool;
  fo_enableIOS : option bool;
  fo_enableHarmony : option bool;
  fo_enableDesktop : option bool;
  fo_enableNetworkDevice : option bool;
  fo_enableDebugMode : option bool;
  fo_roomId : option jstr;
  fo_adbHostPort : jsval;
  fo_hdcHostPort : jsval;
  fo_usbConnectOpt : jsval;
  fo_networkDeviceOpt : jsval
}.

(** [createDaemonPhysicalConnectorOption], as JSON: an absent endpoint is
    [undefined] and is not transmitted. *)
Definition createDaemonPhysicalConnectorOption (o : FacadeOption) : json :=
  jobj [field "manualConnect" (JBool (default false (fo_manualConnect o)));
        field "enableAndroid" (JBool (default true (fo_enableAndroid o)));
        field "enableIOS" (JBool (default true (fo_enableIOS o)));
        field "enableHarmony" (JBool (default true (fo_enableHarmony o)));
        field "enableDesktop" (JBool (default false (fo_enableDesktop o)));
        field "enableNetworkDevice" (JBool (default false (fo_enableNetworkDevice o)));
        opt_field "adbHostPort" (fo_adbHostPort o); opt_field "hdcHostPort" (fo_hdcHostPort o);
        opt_field "usbConnectOpt" (fo_usbConnectOpt o); opt_field "networkDeviceOpt" (fo_networkDeviceOpt o)].

(** The option the daemon client registers with. *)
Definition connectorFacadeOption (o : FacadeOption) : json :=
  match createDaemonPhysicalConnectorOption o with
  | JObj kvs => JObj (kvs ++ field "enableWebSocket" (JBool (default false (fo_enableWebSocket o))))
  | v => v
  end.

(** ** State *)

Record Facade := mkFacade {
  fc_devices : list (jstr * MultiplexerDevice);
  fc_usbClients : list (Z * MultiplexerUsbClient);
  fc_enableWebSocket : bool;
  fc_selectedClient : option MultiplexerUsbClient;
  fc_enableAndroid : bool;
  fc_enableIOS : bool;
  fc_enableHarmony : bool;
  fc_enableDesktop : bool;
  fc_enableNetworkDevice : bool;
  fc_closed : bool;
  fc_wssPort : Z;
  fc_wssHost : option jstr;
  fc_roomId : option jstr;
  fc_wss : option jstr;                        (* the path of the compatibility object *)
  fc_reportService : bool;
  fc_enableDebugMode : bool;
  fc_websocketAppClients : list (Z * MultiplexerWebSocketClient);
  fc_websocketWebClients : list (Z * MultiplexerWebSocketClient);
  fc_multiOpenStatus : OwnershipStatus;
  fc_desiredWSServerStarted : bool;
  fc_desiredDeviceDiscoveryStarted : bool;
  fc_desiredWatchAllClientsStarted : bool;
  fc_desiredRecoveryTimer : option Z;          (* when it is due *)
  fc_subscribed : bool                         (* to the events of the daemon client *)
}.

#[export] Instance eta_facade : Eta Facade := fun f =>
  mkFacade (fc_devices f) (fc_usbClients f) (fc_enableWebSocket f) (fc_selectedClient f) (fc_enableAndroid f) (fc_enableIOS f)
    (fc_enableHarmony f) (fc_enableDesktop f) (fc_enableNetworkDevice f) (fc_closed f) (fc_wssPort f) (fc_wssHost f) (fc_roomId f)
    (fc_wss f) (fc_reportService f) (fc_enableDebugMode f) (fc_websocketAppClients f) (fc_websocketWebClients f)
    (fc_multiOpenStatus f) (fc_desiredWSServerStarted f) (fc_desiredDeviceDiscoveryStarted f)
    (fc_desiredWatchAllClientsStarted f) (fc_desiredRecoveryTimer f) (fc_subscribed f).

(** The events of [DebugerRouterDriverEvents] the facade emits. *)
Inductive facade_event :=
  | DeviceConnected (d : MultiplexerDevice)
  | DeviceDisconnected (d : MultiplexerDevice)
  | ClientConnected (c : MultiplexerUsbClient)
  | ClientDisconnected (id : Z)
  | AppClientConnected (c : MultiplexerUsbClient + MultiplexerWebSocketClient)
  | AppClientDisconnected (id : Z)
  | WebsocketAppClientConnected (c : MultiplexerWebSocketClient)
  | WebsocketAppClientDisconnected (id : Z)
  | WebsocketWebClientConnected (c : MultiplexerWebSocketClient)
  | WebsocketWebClientDisconnected (id : Z)
  | UsbClientMessage (id : Z) (message : jstr)
  | WsClientMessage (id : Z) (message : jstr)
  | WsWebMessage (id : Z) (message : jstr)
  | ConnectorError (code message : jstr) (deviceSerial : option jstr) (clientId : option Z).

Inductive facade_effect :=
  | FEmit (e : facade_event)
  | FCall (c : rpc_call)                                       (* daemonClient.call *)
  | FConnect                                                   (* daemonClient.connect *)
  | FReport (eventName : jstr) (metrics categories : json)
  | FStatusChanged (status : OwnershipStatus)                  (* multiOpenCallback.statusChanged *)
  | FClientEmits (id : Z) (es : list client_emit)              (* listeners of a USB client *)
  | FThrows                                                    (* an exception leaves the handler *)
  | FForceStopDaemon
  | FCloseDaemonClient.

Definition no_params : json := jobj [].

(** ** Mirrors *)

Definition registerDevice (d : MultiplexerDevice) (f : Facade) : list facade_effect * Facade :=
  match mget (md_serial d) (fc_devices f) with
  | Some _ => ([], f)
  | None => ([FEmit (DeviceConnected d)], f <| fc_devices ::= mset (md_serial d) d |>)
  end.

Definition unregisterDeviceInternal (serial : jstr) (force : bool) (f : Facade) : list facade_effect * Facade :=
  match mget serial (fc_devices f) with
  | None => ([], f)
  | Some d =>
      let f := f <| fc_devices ::= mdel serial |> in
      if force then let '(c, d) := md_disconnect d in ([FCall c; FEmit (DeviceDisconnected d)], f)
      else ([FEmit (DeviceDisconnected d)], f)
  end.

Definition unregisterDevice (serial : jstr) (force : bool) (f : Facade) : list facade_effect * Facade :=
  if negb force then ([], f) else unregisterDeviceInternal serial true f.

Definition regiserUsbClient (c : MultiplexerUsbClient) (f : Facade) : list facade_effect * Facade :=
  match mget (mu_clientId c) (fc_usbClients f) with
  | Some _ => ([], f)
  | None => ([FEmit (ClientConnected c); FEmit (AppClientConnected (inl c))], f <| fc_usbClients ::= mset (mu_clientId c) c |>)
  end.

Definition unregisterUsbClientInternal (id : Z) (f : Facade) : list facade_effect * Facade :=
  match mget id (fc_usbClients f) with
  | None => ([], f)
  | Some _ =>
      let f := if bool_decide (mu_clientId <$> fc_selectedClient f = Some id) then f <| fc_selectedClient := None |> else f in
      ([FEmit (ClientDisconnected id); FEmit (AppClientDisconnected id)], f <| fc_usbClients ::= mdel id |>)
  end.

Definition unregiserUsbClient (id : Z) (force : bool) (f : Facade) : list facade_effect * Facade :=
  if negb force then ([], f) else unregisterUsbClientInternal id f.

(** [for (const x of xs) step(x)], collecting the effects. *)
Fixpoint for_each {A} (step : A -> Facade -> list facade_effect * Facade) (l : list A) (f : Facade)
  : list facade_effect * Facade :=
  match l with
  | [] => ([], f)
  | x :: l =>
      let '(e1, f) := step x f in
      let '(e2, f) := for_each step l f in (e1 ++ e2, f)
  end.

Definition isDeviceSnapshotEnabled (s : DeviceSnapshot) (f : Facade) : bool :=
  let os := ds_os s in
  if bool_decide (os = js "Android") then fc_enableAndroid f
  else if bool_decide (os = js "iOS") then fc_enableIOS f
  else if bool_decide (os = js "Harmony") then fc_enableHarmony f
  else if bool_decide (os = js "Mac") || bool_decide (os = js "Windows") || bool_decide (os = js "Linux") then fc_enableDesktop f
  else if bool_decide (os = js "Network") then fc_enableNetworkDevice f
  else true.

Definition isClientSnapshotEnabled (s : ClientDescription) (f : Facade) : bool :=
  mhas (q_device_id (cd_query s)) (fc_devices f).

Definition upsertDeviceSnapshot (s : DeviceSnapshot) (f : Facade) : list facade_effect * Facade :=
  match mget (ds_serial s) (fc_devices f) with
  | Some _ => ([], f)
  | None => registerDevice (device_fromSnapshot s) f
  end.

(** [upsertDeviceSnapshots]; the mirrors it returns are [mirrors_of] below. *)
Definition upsertDeviceSnapshots (ss : list DeviceSnapshot) (f : Facade) : list facade_effect * Facade :=
  for_each upsertDeviceSnapshot (List.filter (fun s => isDeviceSnapshotEnabled s f) ss) f.

Definition upsertClientSnapshot (s : ClientDescription) (f : Facade) : list facade_effect * Facade :=
  match mget (cd_id s) (fc_usbClients f) with
  | Some _ => ([], f)
  | None => regiserUsbClient (client_fromSnapshot s) f
  end.

Definition filterClientSnapshots (ss : list ClientDescription) (f : Facade) : list ClientDescription :=
  List.filter (fun s => isClientSnapshotEnabled s f) ss.

Definition upsertClientSnapshots (ss : list ClientDescription) (f : Facade) : list facade_effect * Facade :=
  for_each upsertClientSnapshot (filterClientSnapshots ss f) f.

(** The active serials with the mirrors added for them. *)
Definition upsertDeviceSnapshotState (ss : list DeviceSnapshot) (f : Facade) : list jstr * (list facade_effect * Facade) :=
  let enabled := List.filter (fun s => isDeviceSnapshotEnabled s f) ss in
  (List.map ds_serial enabled, upsertDeviceSnapshots enabled f).

Definition removeStaleDevices (activeSerials : list jstr) (f : Facade) : list facade_effect * Facade :=
  for_each (fun serial f => if bool_decide (serial ∈ activeSerials) then ([], f) else unregisterDeviceInternal serial false f)
    (mkeys (fc_devices f)) f.

Definition syncClientSnapshots (ss : list ClientDescription) (f : Facade) : list facade_effect * Facade :=
  let enabled := filterClientSnapshots ss f in
  let activeIds := List.map cd_id enabled in
  let '(e1, f) := upsertClientSnapshots enabled f in
  let '(e2, f) := for_each (fun id f => if bool_decide (id ∈ activeIds) then ([], f) else unregisterUsbClientInternal id f)
                    (mkeys (fc_usbClients f)) f in
  (e1 ++ e2, f).

Inductive ws_target := TargetApp | TargetWeb.

Definition ws_clients (t : ws_target) (f : Facade) : list (Z * MultiplexerWebSocketClient) :=
  match t with TargetApp => fc_websocketAppClients f | TargetWeb => fc_websocketWebClients f end.

Definition set_ws_clients (t : ws_target) (g : list (Z * MultiplexerWebSocketClient) -> list (Z * MultiplexerWebSocketClient))
  (f : Facade) : Facade :=
  match t with TargetApp => f <| fc_websocketAppClients ::= g |> | TargetWeb => f <| fc_websocketWebClients ::= g |> end.

(** The events of an arrival and a departure; only apps take part in the
    unified app events. *)
Definition ws_connected (t : ws_target) (c : MultiplexerWebSocketClient) : list facade_effect :=
  match t with
  | TargetApp => [FEmit (WebsocketAppClientConnected c); FEmit (AppClientConnected (inr c))]
  | TargetWeb => [FEmit (WebsocketWebClientConnected c)]
  end.

Definition ws_disconnected (t : ws_target) (id : Z) : list facade_effect :=
  match t with
  | TargetApp => [FEmit (WebsocketAppClientDisconnected id); FEmit (AppClientDisconnected id)]
  | TargetWeb => [FEmit (WebsocketWebClientDisconnected id)]
  end.

Definition upsertWebSocketSnapshot (t : ws_target) (s : WebSocketClientInfo) (f : Facade) : list facade_effect * Facade :=
  match mget (wi_id s) (ws_clients t f) with
  | Some _ => ([], f)
  | None => let c := ws_fromSnapshot s in (ws_connected t c, set_ws_clients t (mset (wi_id s) c) f)
  end.

Definition remove_ws_client (t : ws_target) (id : Z) (f : Facade) : list facade_effect * Facade :=
  (ws_disconnected t id, set_ws_clients t (mdel id) f).

Definition syncWebSocketSnapshots (ss : list WebSocketClientInfo) (t : ws_target) (f : Facade) : list facade_effect * Facade :=
  let activeIds := List.map wi_id ss in
  let '(e1, f) := for_each (upsertWebSocketSnapshot t) ss f in
  let '(e2, f) := for_each (fun id f => if bool_decide (id ∈ activeIds) then ([], f) else remove_ws_client t id f)
                    (mkeys (ws_clients t f)) f in
  (e1 ++ e2, f).

Definition shouldExposeWebSocketState (f : Facade) : bool :=
  negb (fc_closed f) && fc_enableWebSocket f && (bool_decide (is_Some (fc_wss f)) || fc_desiredWSServerStarted f).

(** [if (exposed && clients) sync(clients)]. *)
Definition sync_exposed (ss : option (list WebSocketClientInfo)) (t : ws_target) (f : Facade) : list facade_effect * Facade :=
  match ss with
  | Some ss => if shouldExposeWebSocketState f then syncWebSocketSnapshots ss t f else ([], f)
  | None => ([], f)
  end.

Definition applySnapshot (s : Snapshot) (f : Facade) : list facade_effect * Facade :=
  let '(activeDeviceSerials, (e1, f)) := upsertDeviceSnapshotState (sn_devices s) f in
  let '(e2, f) := syncClientSnapshots (sn_clients s) f in
  let '(e3, f) := sync_exposed (sn_websocketAppClients s) TargetApp f in
  let '(e4, f) := sync_exposed (sn_websocketWebClients s) TargetWeb f in
  let '(e5, f) := removeStaleDevices activeDeviceSerials f in
  (e1 ++ e2 ++ e3 ++ e4 ++ e5, f).

Definition clearWebSocketClientMirrors (f : Facade) : list facade_effect * Facade :=
  let '(e1, f) := for_each (remove_ws_client TargetApp) (mkeys (fc_websocketAppClients f)) f in
  let '(e2, f) := for_each (remove_ws_client TargetWeb) (mkeys (fc_websocketWebClients f)) f in
  (e1 ++ e2, f).

Definition clearDaemonMirrors (f : Facade) : list facade_effect * Facade :=
  let f := f <| fc_wss := None |> in
  let '(e1, f) := for_each unregisterUsbClientInternal (mkeys (fc_usbClients f)) f in
  let '(e2, f) := clearWebSocketClientMirrors f in
  let '(e3, f) := for_each (fun serial => unregisterDeviceInternal serial false) (mkeys (fc_devices f)) f in
  (e1 ++ e2 ++ e3, f).

(** ** Events of the daemon *)

Definition applyLegacyOwnershipChange (status : OwnershipStatus) (f : Facade) : list facade_effect * Facade :=
  let nextStatus := if bool_decide (status = attached) then attached else unattached in
  if bool_decide (fc_multiOpenStatus f = nextStatus) then ([], f)
  else
    let f := f <| fc_multiOpenStatus := nextStatus |> in
    ([FStatusChanged nextStatus],
     if bool_decide (nextStatus = unattached) then f <| fc_selectedClient := None |> else f).

Definition handleUsbMessage (id : Z) (message : jstr) (f : Facade) : list facade_effect * Facade :=
  match mget id (fc_usbClients f) with
  | None => ([], f)
  | Some c =>
      let '(es, throws) := mu_handleMessage message c in
      (FEmit (UsbClientMessage id message) :: FClientEmits id es :: (if throws then [FThrows] else []), f)
  end.

Definition applyHostEvent (e : ControlEvent) (f : Facade) : list facade_effect * Facade :=
  match e with
  | EvConnectorError code message deviceSerial clientId => ([FEmit (ConnectorError code message deviceSerial clientId)], f)
  | EvReport eventName metrics categories =>
      (if fc_reportService f then [FReport eventName metrics categories] else [], f)
  | EvSnapshot s => applySnapshot s f
  | EvOwnership c => applyLegacyOwnershipChange (oc_status c) f
  | EvClientMessage usb_runtime id message => handleUsbMessage id message f
  | EvClientMessage source id message =>
      if negb (shouldExposeWebSocketState f) then ([], f)
      else ([FEmit (if bool_decide (source = websocket_runtime) then WsClientMessage id message else WsWebMessage id message)], f)
  end.

(** ** Recovery *)

Definition clearDesiredRecoveryTimer (f : Facade) : Facade := f <| fc_desiredRecoveryTimer := None |>.

Definition scheduleDesiredRecovery (now : Z) (f : Facade) : Facade :=
  if fc_closed f then f
  else match fc_desiredRecoveryTimer f with
       | Some _ => f
       | None => f <| fc_desiredRecoveryTimer := Some (now + DESIRED_RECOVERY_RETRY_DELAY_MS) |>
       end.

Definition handleDaemonDisconnected (now : Z) (f : Facade) : list facade_effect * Facade :=
  let '(e, f) := clearDaemonMirrors f in (e, scheduleDesiredRecovery now f).

(** *** The WebSocket server *)

Definition startWSServer (f : Facade) : list facade_effect * Facade :=
  if negb (fc_enableWebSocket f) || fc_closed f then ([], f)
  else ([FCall (mkCall Protocol.startWSServer no_params)], f <| fc_desiredWSServerStarted := true |>).

Definition applyWebSocketServerInfo (info : WebSocketServerInfo) (f : Facade) : Facade :=
  f <| fc_wssPort := si_port info |> <| fc_wssHost := Some (si_host info) |> <| fc_roomId := si_roomId info |>
    <| fc_wss := Some (js "ws://" ++ si_host info ++ js "/mdevices/page/android") |>.

Definition startWSServer_answered (info : WebSocketServerInfo) (f : Facade) : Facade :=
  if negb (fc_closed f) then applyWebSocketServerInfo info f else f.

(** The exception is passed on to the caller. *)
Definition startWSServer_failed (now : Z) (f : Facade) : list facade_effect * Facade :=
  let '(e, f) := clearWebSocketClientMirrors f in (e, scheduleDesiredRecovery now f).

(** *** [restoreDesiredState], from await to await *)

Definition connect_devices_call (timeout : num) (serial : option jstr) : rpc_call :=
  mkCall connectDevices (jobj [field "timeout" (JNum timeout);
    field "serial" (match serial with Some s => JStr s | None => JNull end)]).

Definition recovery_fires (f : Facade) : list facade_effect * Facade := ([FConnect], clearDesiredRecoveryTimer f).

Definition restore_server (f : Facade) : list facade_effect * Facade :=
  if fc_desiredWSServerStarted f && bool_decide (fc_wss f = None) then startWSServer f else ([], f).

Definition restore_watchers (f : Facade) : list facade_effect * Facade :=
  if fc_desiredWatchAllClientsStarted f then ([FCall (mkCall startAllDeviceClientWatchers no_params)], f)
  else restore_server f.

Definition restore_connected (f : Facade) : list facade_effect * Facade :=
  if fc_desiredDeviceDiscoveryStarted f then ([FCall (connect_devices_call (NInt (-1)) None)], f)
  else restore_watchers f.

Definition restore_devices (ss : list DeviceSnapshot) (f : Facade) : list facade_effect * Facade :=
  let '(e1, f) := upsertDeviceSnapshots ss f in
  let '(e2, f) := restore_watchers f in (e1 ++ e2, f).

Definition restore_watched (f : Facade) : list facade_effect * Facade := restore_server f.

Definition restore_failed (now : Z) (f : Facade) : Facade := scheduleDesiredRecovery now f.

(** ** The public methods *)

Definition connectDevices_method (timeout : num) (serial : option jstr) (f : Facade) : list facade_effect * Facade :=
  ([FCall (connect_devices_call timeout serial)], f <| fc_desiredDeviceDiscoveryStarted := true |>).

Definition connectDevices_answered (ss : list DeviceSnapshot) (f : Facade) : list facade_effect * Facade :=
  upsertDeviceSnapshots ss f.

(** The mirrors the answer resolves to. *)
Definition mirrors_of (ss : list DeviceSnapshot) (f : Facade) : list MultiplexerDevice :=
  omap (fun s => mget (ds_serial s) (fc_devices f)) (List.filter (fun s => isDeviceSnapshotEnabled s f) ss).

Definition connectUsbClients_method (deviceId : jstr) (timeout : num) (waitTimeout : bool) (clientName : option jstr) : rpc_call :=
  mkCall connectUsbClients (jobj [field "deviceId" (JStr deviceId); field "timeout" (JNum timeout);
    field "waitTimeout" (JBool waitTimeout); field "clientName" (match clientName with Some s => JStr s | None => JNull end)]).

Definition connectUsbClients_answered (ss : list ClientDescription) (f : Facade) : list facade_effect * Facade :=
  upsertClientSnapshots ss f.

Definition watchNetworkDeviceAtIp_method (ip : jstr) (port : option (list Z)) : rpc_call :=
  mkCall watchNetworkDeviceAtIp (jobj [field "ip" (JStr ip); opt_field "port" ((fun l => JArr (List.map jint l)) <$> port)]).

(** The constructor, and the discovery it starts unless [manualConnect]. *)
Definition new_facade (o : FacadeOption) : list facade_effect * Facade :=
  let f := mkFacade [] [] (default false (fo_enableWebSocket o)) None (default true (fo_enableAndroid o))
    (default true (fo_enableIOS o)) (default true (fo_enableHarmony o)) (default false (fo_enableDesktop o))
    (default false (fo_enableNetworkDevice o)) false DEFAULT_DEV_SERVE_PORT_facade None (fo_roomId o) None
    (fo_reportService o) (default false (fo_enableDebugMode o)) [] [] unInit false false false None true in
  if default false (fo_manualConnect o) then ([], f) else connectDevices_method (NInt (-1)) None f.

(** A call that was started in the background fails. *)
Definition background_call_failed (now : Z) (f : Facade) : Facade := scheduleDesiredRecovery now f.

Definition disableAllClients (force : bool) (f : Facade) : list facade_effect * Facade :=
  if negb force then ([], f)
  else ([FCall (mkCall stopAllDeviceClientWatchers no_params)],
        f <| fc_selectedClient := None |> <| fc_desiredWatchAllClientsStarted := false |>).

Definition startWatchAllClients (f : Facade) : list facade_effect * Facade :=
  ([FCall (mkCall startAllDeviceClientWatchers no_params)], f <| fc_desiredWatchAllClientsStarted := true |>).

Definition createClientId : Z := -1.

Definition selecteUsbClient (id : Z) (f : Facade) : Facade :=
  match mget id (fc_usbClients f) with Some c => f <| fc_selectedClient := Some c |> | None => f end.

(** [close]: listeners and recovery end at once; in debug mode the daemon is
    stopped before the connection is closed. *)
Definition close_begins (f : Facade) : list facade_effect * Facade :=
  if fc_closed f then ([], f)
  else
    let f := clearDesiredRecoveryTimer (f <| fc_closed := true |> <| fc_subscribed := false |>) in
    ([if fc_enableDebugMode f then FForceStopDaemon else FCloseDaemonClient], f).

Definition close_stopped (f : Facade) : list facade_effect * Facade := ([FCloseDaemonClient], f).
Definition close_ends (f : Facade) : Facade := f <| fc_wss := None |>.

Definition web_socket_ready (f : Facade) : bool := fc_enableWebSocket f && bool_decide (is_Some (fc_wss f)).

Definition sendMessageToWeb (message : jstr) (f : Facade) : list facade_effect :=
  if web_socket_ready f then [FCall (send_without_reply "web" (-1) (JStr message))] else [].

Definition sendMessageToApp (id : Z) (message : jstr) (f : Facade) : list facade_effect :=
  if web_socket_ready f then [FCall (send_without_reply "app" id (JStr message))] else [].

(** ** Lookups *)

Definition findDevice (serial : option jstr) (f : Facade) : list MultiplexerDevice :=
  match serial with
  | None => mvals (fc_devices f)
  | Some s => List.filter (fun d => bool_decide (md_serial d = s)) (mvals (fc_devices f))
  end.

Definition getDevices (timeout : num) (serial : option jstr) (f : Facade) : wait_result (list MultiplexerDevice) :=
  if num_negative timeout then Resolved (findDevice serial f)
  else match serial with
       | None => Waiting
       | Some _ => match findDevice serial f with [] => Waiting | ds => Resolved ds end
       end.

Definition getAllUsbClients (f : Facade) : list MultiplexerUsbClient := mvals (fc_usbClients f).

(** The test on the description of a client is the one of the physical
    connector; [None] is its TypeError. *)
Definition isTargetClient (c : MultiplexerUsbClient) (name : option jstr) : option bool :=
  Physical.isTargetClient (mkUsbClient (mu_snapshot c)) name.

Fixpoint filter_targets (name : option jstr) (cs : list MultiplexerUsbClient) : option (list MultiplexerUsbClient) :=
  match cs with
  | [] => Some []
  | c :: cs' =>
      match isTargetClient c name, filter_targets name cs' with
      | Some b, Some r => Some (if b then c :: r else r)
      | _, _ => None
      end
  end.

Definition findUsbClient (name : option jstr) (cs : list MultiplexerUsbClient) : option (list MultiplexerUsbClient) :=
  match name with None => Some cs | Some _ => filter_targets name cs end.

Definition clients_of (dev : jstr) (f : Facade) : list MultiplexerUsbClient :=
  List.filter (fun c => bool_decide (mu_deviceId c = dev)) (mvals (fc_usbClients f)).

Definition getDeviceUsbClients (dev : jstr) (timeout : num) (name : option jstr) (f : Facade)
  : option (wait_result (list MultiplexerUsbClient)) :=
  if negb (mhas dev (fc_devices f)) then Some (Resolved [])
  else if num_negative timeout then Resolved <$> findUsbClient name (clients_of dev f)
  else match name with
       | None => Some Waiting
       | Some _ =>
           match findUsbClient name (mvals (fc_usbClients f)) with
           | None => None
           | Some [] => Some Waiting
           | Some cs => Some (Resolved cs)
           end
       end.

Definition getAllWebsocketAppClients (f : Facade) : list MultiplexerWebSocketClient := mvals (fc_websocketAppClients f).

Definition getAllAppClients (f : Facade) : list (MultiplexerUsbClient + MultiplexerWebSocketClient) :=
  List.map inl (mvals (fc_usbClients f)) ++
  (if shouldExposeWebSocketState f then List.map inr (getAllWebsocketAppClients f) else []).
