(* ===== verification/Mirroring.v ===== *)
(** * What the mirrors of a connector show

    Facts about [Facade]: the events a caller sees describe the mirrors, a
    snapshot leaves exactly the part of it the connector exposes, a lost daemon
    clears everything and is recovered from, and a closed connector is silent. *)

From Stdlib Require Import String.
From stdpp Require Import strings.
From S2P Require Import JsValue Json Protocol Physical Host Mirror Facade.

#[local] Arguments mdel : simpl never.
#[local] Arguments mset : simpl never.
#[local] Arguments mget : simpl never.

Lemma find_key_None {K A} `{EqDecision K} (key : A -> K) (l : list A) k : List.find (fun s => bool_decide (key s = k)) l = None <-> k ∉ List.map key l.
Proof.
  induction l as [|s l IH]; cbn; [split; [intros _ ?%not_elem_of_nil; done|done]|].
  rewrite not_elem_of_cons, <- IH. case_bool_decide; [naive_solver congruence|].
  split; [intros H'; split; [congruence|done]|naive_solver].
Qed.

(** ** Reconciling a map with a list

    The loops of the facade over a map are folds over the map alone. *)
Section Reconcile.
Context {K A B : Type} `{EqDecision K} (key : A -> K) (mk : A -> B).
Implicit Types (m : list (K * B)) (l : list A) (k : K).

(** Add what is missing. *)
Definition upsert m (s : A) : list (K * B) :=
  match mget (key s) m with Some _ => m | None => mset (key s) (mk s) m end.

(** Drop what is not active. *)
Definition drop_inactive (active : list K) m (k : K) : list (K * B) :=
  if bool_decide (k ∈ active) then m else mdel k m.

(** The value of the reconciled map at a key: the old one, else that of the
    first entry of the list with the key. *)
Definition reconcile (old : list (K * B)) l k : option B :=
  match List.find (fun s => bool_decide (key s = k)) l with
  | None => None
  | Some s => Some (default (mk s) (mget k old))
  end.

Lemma mget_upserts l m k :
  mget k (fold_left upsert l m) =
    match mget k m with Some b => Some b | None => mk <$> List.find (fun s => bool_decide (key s = k)) l end.
Proof.
  revert m. induction l as [|s l IH]; intros m; cbn; [by destruct (mget k m)|].
  rewrite IH. unfold upsert at 1. case_bool_decide as Hk.
  - subst k. destruct (mget (key s) m) eqn:E; [by rewrite E|]. by rewrite mget_mset_eq.
  - destruct (mget (key s) m); [done|]. by rewrite mget_mset_ne.
Qed.

Lemma mget_drops active ks m k :
  mget k (fold_left (drop_inactive active) ks m) =
    if bool_decide (k ∈ active) then mget k m else if bool_decide (k ∈ ks) then None else mget k m.
Proof.
  revert m. induction ks as [|j ks IH]; intros m; cbn [fold_left].
  - case_bool_decide; [done|]. by rewrite bool_decide_eq_false_2 by apply not_elem_of_nil.
  - rewrite IH. destruct (bool_decide (k ∈ active)) eqn:Ha; bprop.
    + unfold drop_inactive. case_bool_decide as Hj; [done|]. rewrite mget_mdel. by case_decide; [subst|].
    + assert (forall j', k <> j' -> bool_decide (k ∈ j' :: ks) = bool_decide (k ∈ ks)) as Hcons.
      { intros j' Hne. apply bool_decide_ext. rewrite elem_of_cons. naive_solver. }
      unfold drop_inactive. destruct (bool_decide (j ∈ active)) eqn:Hj; bprop; [by rewrite Hcons by (by intros ->)|]. rewrite mget_mdel.
      destruct (decide (k = j)) as [->|Hne]; [|by rewrite Hcons].
      rewrite (bool_decide_eq_true_2 (j ∈ j :: ks)) by left. by case_bool_decide.
Qed.

(** Adding what is missing and then dropping the rest. *)
Definition reconciled l m : list (K * B) :=
  let m := fold_left upsert l m in fold_left (drop_inactive (List.map key l)) (mkeys m) m.

Lemma mget_reconciled l m k : mget k (reconciled l m) = reconcile m l k.
Proof.
  unfold reconciled. cbn zeta. rewrite mget_drops, mget_upserts. unfold reconcile.
  destruct (List.find _ l) as [s|] eqn:Ef.
  - rewrite bool_decide_eq_true_2; [by destruct (mget k m)|].
    destruct (decide (k ∈ List.map key l)) as [|Hn]; [done|]. apply find_key_None in Hn. congruence.
  - rewrite bool_decide_eq_false_2 by (by apply find_key_None). case_bool_decide as Hk; [done|].
    destruct (mget k m) eqn:E; [|done]. exfalso. apply Hk, mkeys_mget. rewrite mget_upserts, E. eauto.
Qed.

Lemma NoDup_upserts l m : NoDup (mkeys m) -> NoDup (mkeys (fold_left upsert l m)).
Proof.
  revert m. induction l as [|s l IH]; intros m Hm; cbn; [done|]. apply IH. unfold upsert.
  destruct (mget (key s) m); [done|by apply NoDup_mset].
Qed.
End Reconcile.

(** ** The loops of the facade *)

Lemma for_each_fold {A} (step : A -> Facade -> list facade_effect * Facade) (P : Facade -> Prop) l f :
  P f -> (forall x f, P f -> P (step x f).2) -> P (for_each step l f).2.
Proof.
  intros Hf Hs. revert f Hf. induction l as [|x l IH]; intros f Hf; cbn; [done|].
  specialize (Hs x f Hf). destruct (step x f) as [e1 f1]. cbn in Hs. specialize (IH f1 Hs).
  by destruct (for_each step l f1) as [e2 f2].
Qed.

Lemma for_each_snd {A} (step : A -> Facade -> list facade_effect * Facade) x l f :
  (for_each step (x :: l) f).2 = (for_each step l (step x f).2).2.
Proof. cbn. destruct (step x f) as [e1 f1]. cbn. by destruct (for_each step l f1) as [e2 f2]. Qed.

(** Each turn of a loop changes one map. *)
Lemma upsert_device s f :
  (upsertDeviceSnapshot s f).2 = f <| fc_devices ::= (fun m => upsert ds_serial device_fromSnapshot m s) |>.
Proof.
  unfold upsertDeviceSnapshot, registerDevice, upsert. change (md_serial (device_fromSnapshot s)) with (ds_serial s).
  destruct f; cbn. by destruct (mget (ds_serial s) _).
Qed.

Lemma upsert_client s f :
  (upsertClientSnapshot s f).2 = f <| fc_usbClients ::= (fun m => upsert cd_id client_fromSnapshot m s) |>.
Proof.
  unfold upsertClientSnapshot, regiserUsbClient, upsert. change (mu_clientId (client_fromSnapshot s)) with (cd_id s).
  destruct f; cbn. by destruct (mget (cd_id s) _).
Qed.

Lemma upsert_ws_client t s f :
  (upsertWebSocketSnapshot t s f).2 = set_ws_clients t (fun m => upsert wi_id ws_fromSnapshot m s) f.
Proof. unfold upsertWebSocketSnapshot, upsert. destruct f, t; cbn; by destruct (mget (wi_id s) _). Qed.

Lemma drop_device active serial f :
  (if bool_decide (serial ∈ active) then ([], f) else unregisterDeviceInternal serial false f).2 =
    f <| fc_devices ::= (fun m => drop_inactive active m serial) |>.
Proof.
  unfold unregisterDeviceInternal, drop_inactive. case_bool_decide; [by destruct f|].
  destruct (mget serial (fc_devices f)) eqn:E; [done|]. destruct f; cbn in *.
  rewrite (mdel_absent serial); [done|by apply mget_None_keys].
Qed.

Lemma drop_ws_client t active id f :
  (if bool_decide (id ∈ active) then ([], f) else remove_ws_client t id f).2 =
    set_ws_clients t (fun m => drop_inactive active m id) f.
Proof. unfold drop_inactive. destruct f, t; cbn; by case_bool_decide. Qed.

Lemma upsert_devices l f :
  (for_each upsertDeviceSnapshot l f).2 = f <| fc_devices ::= fold_left (upsert ds_serial device_fromSnapshot) l |>.
Proof.
  revert f. induction l as [|s l IH]; intros f; [by destruct f|]. by rewrite for_each_snd, IH, upsert_device.
Qed.

Lemma upsert_clients l f :
  (for_each upsertClientSnapshot l f).2 = f <| fc_usbClients ::= fold_left (upsert cd_id client_fromSnapshot) l |>.
Proof.
  revert f. induction l as [|s l IH]; intros f; [by destruct f|]. by rewrite for_each_snd, IH, upsert_client.
Qed.

Lemma upsert_ws t l f :
  (for_each (upsertWebSocketSnapshot t) l f).2 = set_ws_clients t (fold_left (upsert wi_id ws_fromSnapshot) l) f.
Proof.
  revert f. induction l as [|s l IH]; intros f; [by destruct f, t|]. rewrite for_each_snd, IH, upsert_ws_client. by destruct t.
Qed.

Lemma drop_devices active l f :
  (for_each (fun serial f => if bool_decide (serial ∈ active) then ([], f) else unregisterDeviceInternal serial false f) l f).2 =
    f <| fc_devices ::= fold_left (drop_inactive active) l |>.
Proof.
  revert f. induction l as [|s l IH]; intros f; [by destruct f|]. by rewrite for_each_snd, IH, drop_device.
Qed.

Lemma drop_ws t active l f :
  (for_each (fun id f => if bool_decide (id ∈ active) then ([], f) else remove_ws_client t id f) l f).2 =
    set_ws_clients t (fold_left (drop_inactive active) l) f.
Proof.
  revert f. induction l as [|s l IH]; intros f; [by destruct f, t|]. rewrite for_each_snd, IH, drop_ws_client. by destruct t.
Qed.

(** Dropping a client may also drop the selection. *)
Lemma unregister_client id f : exists sel,
  (unregisterUsbClientInternal id f).2 = f <| fc_usbClients ::= mdel id |> <| fc_selectedClient := sel |>.
Proof.
  unfold unregisterUsbClientInternal. destruct (mget id (fc_usbClients f)) eqn:E.
  - case_bool_decide; [by exists None|exists (fc_selectedClient f)]. by destruct f.
  - exists (fc_selectedClient f). destruct f; cbn in *.
    rewrite (mdel_absent id); [done|by apply mget_None_keys].
Qed.

Lemma drop_clients active l f : exists sel,
  (for_each (fun id f => if bool_decide (id ∈ active) then ([], f) else unregisterUsbClientInternal id f) l f).2 =
    f <| fc_usbClients ::= fold_left (drop_inactive active) l |> <| fc_selectedClient := sel |>.
Proof.
  revert f. induction l as [|s l IH]; intros f; [exists (fc_selectedClient f); by destruct f|].
  rewrite for_each_snd. cbn [fold_left].
  assert (exists sel, (if bool_decide (s ∈ active) then ([], f) else unregisterUsbClientInternal s f).2 =
    f <| fc_usbClients ::= (fun m => drop_inactive active m s) |> <| fc_selectedClient := sel |>) as [sel1 ->].
  { unfold drop_inactive. case_bool_decide; [exists (fc_selectedClient f); by destruct f|apply unregister_client]. }
  match goal with |- context [for_each _ l ?g] => destruct (IH g) as [sel ->] end. by exists sel.
Qed.

(** ** Snapshots *)

Lemma filter_twice {A} (g : A -> bool) l : List.filter g (List.filter g l) = List.filter g l.
Proof. induction l as [|x l IH]; cbn; [done|]. destruct (g x) eqn:E; cbn; rewrite ?E, IH; done. Qed.

Lemma upsert_device_state ss f :
  (upsertDeviceSnapshotState ss f).2.2 =
    f <| fc_devices ::= fold_left (upsert ds_serial device_fromSnapshot) (List.filter (fun s => isDeviceSnapshotEnabled s f) ss) |>.
Proof. unfold upsertDeviceSnapshotState, upsertDeviceSnapshots. cbn [snd]. by rewrite filter_twice, upsert_devices. Qed.

Lemma sync_clients ss f : exists sel,
  (syncClientSnapshots ss f).2 =
    f <| fc_usbClients ::= reconciled cd_id client_fromSnapshot (filterClientSnapshots ss f) |> <| fc_selectedClient := sel |>.
Proof.
  unfold syncClientSnapshots, upsertClientSnapshots.
  assert (filterClientSnapshots (filterClientSnapshots ss f) f = filterClientSnapshots ss f) as -> by apply filter_twice.
  destruct (for_each upsertClientSnapshot _ f) as [e1 f1] eqn:E1.
  apply (f_equal snd) in E1. rewrite upsert_clients in E1. cbn [snd] in E1. subst f1.
  match goal with |- context [for_each ?st ?l ?g] =>
    destruct (drop_clients (List.map cd_id (filterClientSnapshots ss f)) l g) as [sel Hs];
    destruct (for_each st l g) as [e2 f2] end.
  cbn [snd] in Hs |- *. exists sel. by rewrite Hs.
Qed.

(** The WebSocket clients the connector shows after a snapshot. *)
Definition exposed_clients (exposed : bool) (ss : option (list WebSocketClientInfo)) (m : list (Z * MultiplexerWebSocketClient))
  : list (Z * MultiplexerWebSocketClient) :=
  match ss with
  | Some ss => if exposed then reconciled wi_id ws_fromSnapshot ss m else m
  | None => m
  end.

Lemma sync_ws t ss f :
  (sync_exposed ss t f).2 = set_ws_clients t (exposed_clients (shouldExposeWebSocketState f) ss) f.
Proof.
  unfold sync_exposed, exposed_clients. destruct ss as [ss|]; [|by destruct f, t].
  destruct (shouldExposeWebSocketState f); [|by destruct f, t]. unfold syncWebSocketSnapshots.
  destruct (for_each (upsertWebSocketSnapshot t) ss f) as [e1 f1] eqn:E1.
  apply (f_equal snd) in E1. rewrite upsert_ws in E1. cbn [snd] in E1. subst f1.
  match goal with |- context [for_each ?st ?l ?g] =>
    pose proof (drop_ws t (List.map wi_id ss) l g) as Hs; destruct (for_each st l g) as [e2 f2] end.
  cbn [snd] in Hs |- *. rewrite Hs. by destruct t.
Qed.

(** The devices and clients of a snapshot a connector may show. *)
Definition shown_devices (s : Snapshot) (f : Facade) : list DeviceSnapshot :=
  List.filter (fun d => isDeviceSnapshotEnabled d f) (sn_devices s).

Definition shown_clients (s : Snapshot) (f : Facade) : list ClientDescription :=
  List.filter (fun c => mhas (q_device_id (cd_query c)) (fc_devices f) ||
                        bool_decide (q_device_id (cd_query c) ∈ List.map ds_serial (shown_devices s f))) (sn_clients s).

Lemma shown_clients_filtered s f :
  filterClientSnapshots (sn_clients s)
    (f <| fc_devices ::= fold_left (upsert ds_serial device_fromSnapshot) (shown_devices s f) |>) = shown_clients s f.
Proof.
  unfold filterClientSnapshots, shown_clients. apply List.filter_ext. intros c. unfold isClientSnapshotEnabled, mhas.
  cbn [fc_devices set_field]. cbn. rewrite mget_upserts. destruct (mget (q_device_id (cd_query c)) (fc_devices f)); [done|]. cbn.
  destruct (List.find _ _) as [d|] eqn:E; cbn.
  - apply List.find_some in E as [Hin Hd]. bprop. rewrite bool_decide_eq_true_2; [done|].
    rewrite <- Hd. apply list_elem_of_In, List.in_map, Hin.
  - apply find_key_None in E. by rewrite bool_decide_eq_false_2.
Qed.

Lemma apply_snapshot_state s f : exists sel,
  (applySnapshot s f).2 =
    f <| fc_devices ::= reconciled ds_serial device_fromSnapshot (shown_devices s f) |>
      <| fc_usbClients ::= reconciled cd_id client_fromSnapshot (shown_clients s f) |> <| fc_selectedClient := sel |>
      <| fc_websocketAppClients ::= exposed_clients (shouldExposeWebSocketState f) (sn_websocketAppClients s) |>
      <| fc_websocketWebClients ::= exposed_clients (shouldExposeWebSocketState f) (sn_websocketWebClients s) |>.
Proof.
  unfold applySnapshot. pose proof (upsert_device_state (sn_devices s) f) as H1. fold (shown_devices s f) in H1.
  destruct (upsertDeviceSnapshotState (sn_devices s) f) as [active [e1 f1]] eqn:E1.
  assert (active = List.map ds_serial (shown_devices s f)) as -> by (unfold upsertDeviceSnapshotState in E1; by simplify_eq).
  cbn [snd] in H1. destruct (sync_clients (sn_clients s) f1) as [sel H2]. rewrite H1 in H2 at 2 3. rewrite shown_clients_filtered in H2.
  destruct (syncClientSnapshots (sn_clients s) f1) as [e2 f2]. cbn [snd] in H2.
  pose proof (sync_ws TargetApp (sn_websocketAppClients s) f2) as H3.
  destruct (sync_exposed (sn_websocketAppClients s) TargetApp f2) as [e3 f3]. cbn [snd] in H3.
  pose proof (sync_ws TargetWeb (sn_websocketWebClients s) f3) as H4.
  destruct (sync_exposed (sn_websocketWebClients s) TargetWeb f3) as [e4 f4]. cbn [snd] in H4.
  pose proof (drop_devices (List.map ds_serial (shown_devices s f)) (mkeys (fc_devices f4)) f4) as H5.
  unfold removeStaleDevices. destruct (for_each _ (mkeys (fc_devices f4)) f4) as [e5 f5]. cbn [snd] in H5 |- *.
  exists sel. subst. by destruct f.
Qed.

(** The reconciled WebSocket clients, as a lookup. *)
Definition exposed_client (exposed : bool) (ss : option (list WebSocketClientInfo)) (m : list (Z * MultiplexerWebSocketClient)) (id : Z)
  : option MultiplexerWebSocketClient :=
  match ss with
  | Some ss => if exposed then reconcile wi_id ws_fromSnapshot m ss id else mget id m
  | None => mget id m
  end.

(** A snapshot of the daemon leaves exactly its own devices and clients in
    the mirrors.  Every device of an enabled platform, every client of a device
    the connector shows (or showed until now), and, where the connector asked
    for them, every WebSocket client of the snapshot is mirrored under its key,
    by the mirror it already had, with its listeners, or by a new one for the
    first entry of the snapshot with that key; nothing else stays. *)
Theorem snapshot_mirrored s f :
  let f' := (applySnapshot s f).2 in
  (forall serial, mget serial (fc_devices f') = reconcile ds_serial device_fromSnapshot (fc_devices f) (shown_devices s f) serial) /\
  (forall id, mget id (fc_usbClients f') = reconcile cd_id client_fromSnapshot (fc_usbClients f) (shown_clients s f) id) /\
  (forall id, mget id (fc_websocketAppClients f') =
     exposed_client (shouldExposeWebSocketState f) (sn_websocketAppClients s) (fc_websocketAppClients f) id) /\
  (forall id, mget id (fc_websocketWebClients f') =
     exposed_client (shouldExposeWebSocketState f) (sn_websocketWebClients s) (fc_websocketWebClients f) id).
Proof.
  cbn zeta. destruct (apply_snapshot_state s f) as [sel ->].
  assert (forall e ss m id, mget id (exposed_clients e ss m) = exposed_client e ss m id) as Hws.
  { intros e [ss|] m id; [|done]. cbn. destruct e; [apply mget_reconciled|done]. }
  repeat split; intros k; [exact (mget_reconciled _ _ _ _ k)|exact (mget_reconciled _ _ _ _ k)|apply Hws|apply Hws].
Qed.

(** ** The daemon's registries *)

Lemma mhas_reconcile {K A B} `{EqDecision K} (key : A -> K) (mk : A -> B) old l m k :
  mget k m = reconcile key mk old l k -> mhas k m = bool_decide (k ∈ List.map key l).
Proof.
  intros H. unfold mhas. rewrite H. unfold reconcile.
  destruct (List.find _ l) as [s|] eqn:E.
  - apply List.find_some in E as [Hin Hk]. bprop. symmetry. apply bool_decide_eq_true_2. rewrite <- Hk.
    by apply list_elem_of_In, List.in_map.
  - apply find_key_None in E. by rewrite bool_decide_eq_false_2.
Qed.

(** The keys of the entries that pass a test, of a registry whose entries are
    under their own keys. *)
Lemma filtered_keys {K V A} `{EqDecision K} (key : A -> K) (ser : V -> A) (g : A -> bool) (m : list (K * V)) k :
  NoDup (mkeys m) -> (forall k v, mget k m = Some v -> key (ser v) = k) ->
  bool_decide (k ∈ List.map key (List.filter g (List.map ser (mvals m)))) =
    match mget k m with Some v => g (ser v) | None => false end.
Proof.
  intros Hnd Hkey. apply Bool.eq_iff_eq_true. rewrite bool_decide_eq_true, list_elem_of_In, List.in_map_iff. split.
  - intros (x & Hx & Hin). apply List.filter_In in Hin as [Hin Hg]. apply List.in_map_iff in Hin as (v & <- & Hv).
    apply list_elem_of_In, list_elem_of_fmap in Hv as ([k' v'] & -> & Hin). cbn in *.
    apply In_mget in Hin as Hm; [|done]. pose proof (Hkey _ _ Hm) as Hk'. subst k. by rewrite Hk', Hm.
  - destruct (mget k m) as [v|] eqn:E; [|done]. intros Hg. exists (ser v). split; [by apply Hkey|].
    apply List.filter_In. split; [|done]. apply List.in_map, list_elem_of_In, list_elem_of_fmap.
    exists (k, v). by split; [|apply mget_In].
Qed.

(** What a connector should show of the daemon's registries, given the
    devices it showed before and those it shows now. *)
Definition device_visible (h : Host) (f : Facade) (serial : jstr) : bool :=
  match mget serial (pc_devices (h_physicalConnector h)) with
  | Some d => legacyOwnershipAttached h && isDeviceSnapshotEnabled (serializeDevice d) f
  | None => false
  end.

Definition client_visible (h : Host) (before now : list (jstr * MultiplexerDevice)) (id : Z) : bool :=
  match mget id (pc_usbClients (h_physicalConnector h)) with
  | Some c => legacyOwnershipAttached h && (mhas (q_device_id (cd_query (uc_info c))) before ||
                                            mhas (q_device_id (cd_query (uc_info c))) now)
  | None => false
  end.

(** C16: The mirrors of a connector follow the registries of the daemon.  The
    registries are assumed to hold each entry once, under its own serial or id,
    which every operation on them keeps.  When the snapshot the daemon builds from
    its state has been applied, a connector shows a device exactly when the daemon
    owns the USB devices, has it and its platform is enabled here, and a USB client
    exactly when the daemon owns the USB devices, has the client, and the client's
    device is shown here now or was shown here before the snapshot. *)
Theorem mirrors_follow_daemon now h f : physical_wf (h_physicalConnector h) ->
  let f' := (applyHostEvent (EvSnapshot (createSnapshot now h)) f).2 in
  (forall serial, mhas serial (fc_devices f') = device_visible h f serial) /\
  (forall id, mhas id (fc_usbClients f') = client_visible h (fc_devices f) (fc_devices f') id).
Proof.
  intros [Hd Hs Hc Hi]. cbn zeta. cbn [applyHostEvent]. unfold device_visible, client_visible.
  destruct (apply_snapshot_state (createSnapshot now h) f) as [sel ->].
  match goal with |- context [mhas _ (fc_devices ?g)] =>
    assert (fc_devices g = reconciled ds_serial device_fromSnapshot (shown_devices (createSnapshot now h) f) (fc_devices f)) as -> by done;
    assert (fc_usbClients g = reconciled cd_id client_fromSnapshot (shown_clients (createSnapshot now h) f) (fc_usbClients f)) as -> by done
  end.
  assert (forall serial, mhas serial (reconciled ds_serial device_fromSnapshot (shown_devices (createSnapshot now h) f) (fc_devices f)) =
    bool_decide (serial ∈ List.map ds_serial (shown_devices (createSnapshot now h) f))) as Hdev
    by (intros serial; apply mhas_reconcile with (1 := mget_reconciled _ _ _ _ serial)).
  split.
  - intros serial. rewrite Hdev. unfold shown_devices, createSnapshot. cbn [sn_devices].
    destruct (legacyOwnershipAttached h); [|by destruct (mget serial _)]. cbn [andb].
    by apply (filtered_keys ds_serial serializeDevice (fun d => isDeviceSnapshotEnabled d f)).
  - intros id. rewrite (mhas_reconcile _ _ _ _ _ _ (mget_reconciled _ _ _ _ id)). unfold shown_clients.
    revert Hdev. generalize (shown_devices (createSnapshot now h) f). intros ds Hdev. unfold createSnapshot. cbn [sn_clients].
    destruct (legacyOwnershipAttached h); [|by destruct (mget id _)]. cbn [andb].
    unfold Physical.getAllUsbClients. rewrite (filtered_keys cd_id serializeClient) by done. destruct (mget id _); [|done]. by rewrite Hdev.
Qed.

(** *** A daemon with a phone of each kind and one runtime *)

Definition phones : PhysicalConnector :=
  (registry_run [RegisterDevice (mkDevice (js "Android") (js "pixel") (js "a") [8901] (js "127.0.0.1") true);
                 RegisterDevice (mkDevice (js "iOS") (js "phone") (js "i") [8901] (js "127.0.0.1") false);
                 RegisterClient (mkUsbClient (mkClientDescription 8901 1
                   (mkClientQuery (jstring "app") (js "Android") (js "pixel") (jstring "m") (js "a") None None)))] new_physical).2.

Definition phones_host : Host :=
  (new_host (mkHostOption 2 (NInt 30000) None None None None 4242 false)) <| h_ownershipStatus := attached |>
    <| h_physicalConnector := phones |>.

Definition android_facade : Facade :=
  (new_facade (mkFacadeOption (Some true) false None None (Some false) None None None None None None None None None)).2.

Lemma mirrors_follow_daemon_witness :
  let f' := (applyHostEvent (EvSnapshot (createSnapshot 0 phones_host)) android_facade).2 in
  mhas (js "a") (fc_devices f') = true /\ mhas (js "i") (fc_devices f') = false /\ mhas 1 (fc_usbClients f') = true.
Proof.
  assert (physical_wf (h_physicalConnector phones_host)) as Hwf.
  { match goal with |- physical_wf ?p => change p with phones end. unfold phones.
    match goal with |- context [registry_run ?ops] => pose proof (registry_run_spec ops _ new_physical_wf) as H end.
    destruct (registry_run _ _). apply H. }
  destruct (mirrors_follow_daemon 0 phones_host android_facade Hwf) as [Hd Hc].
  cbn zeta. rewrite Hc, !Hd. vm_compute. repeat split.
Defined.
