(* ===== verification/FacadeRun.v ===== *)
(** * Runs of a connector

    The connector of [Facade] under any sequence of events of the daemon,
    answers to its calls, timers and calls of its user.  The events its user
    sees describe the mirrors, a lost daemon is recovered from, and a closed
    connector reacts to nothing any more. *)

From Stdlib Require Import String.
From stdpp Require Import strings.
From S2P Require Import JsValue Json Protocol Physical Host Mirror Facade Mirroring.

(** ** Maps *)

Definition mvalues {K A B} (g : A -> B) (m : list (K * A)) : list (K * B) := List.map (fun p => (p.1, g p.2)) m.

Lemma mvalues_mset {K A B} `{EqDecision K} (g : A -> B) (k : K) (v : A) m : mvalues g (mset k v m) = mset k (g v) (mvalues g m).
Proof. induction m as [|[j w] m IH]; [done|]. cbn. case_decide; [done|]. cbn. f_equal. exact IH. Qed.

Lemma mvalues_mdel {K A B} `{EqDecision K} (g : A -> B) (k : K) (m : list (K * A)) : mvalues g (mdel k m) = mdel k (mvalues g m).
Proof.
  induction m as [|[j w] m IH]; [done|]. change (mvalues g ((j, w) :: m)) with ((j, g w) :: mvalues g m). unfold mdel in *.
  rewrite !filter_cons. cbn [fst]. case_decide; [|done]. cbn. by f_equal.
Qed.

#[local] Arguments mdel : simpl never.
#[local] Arguments mset : simpl never.
#[local] Arguments mget : simpl never.
#[local] Arguments mhas : simpl never.
#[local] Arguments mvalues : simpl never.

(** ** Steps *)

(** What can happen to a connector, at the time given where the step may set a
    timer.  Answers arrive in any order, also late ones and repeated ones. *)
Inductive facade_op :=
  | OpHostEvent (e : ControlEvent)
  | OpDisconnected (now : Z)
  | OpTimer (now : Z)
  | OpRestoreConnected | OpRestoreDevices (ss : list DeviceSnapshot) | OpRestoreWatched | OpRestoreFailed (now : Z)
  | OpStartWSServer | OpWSAnswered (info : WebSocketServerInfo) | OpWSFailed (now : Z)
  | OpConnectDevices (timeout : num) (serial : option jstr)
  | OpDevicesAnswered (ss : list DeviceSnapshot)
  | OpClientsAnswered (ss : list ClientDescription)
  | OpBackgroundFailed (now : Z)
  | OpRegisterDevice (d : MultiplexerDevice) | OpUnregisterDevice (serial : jstr) (force : bool)
  | OpRegisterClient (c : MultiplexerUsbClient) | OpUnregisterClient (id : Z) (force : bool)
  | OpDisableAll (force : bool) | OpWatchAll | OpSelect (id : Z)
  | OpListen (id : Z) (event : jstr)
  | OpSendWeb (message : jstr) | OpSendApp (id : Z) (message : jstr)
  | OpClose | OpCloseStopped | OpCloseEnds.

(** The caller adds a listener to a mirror it was given. *)
Definition listen (id : Z) (event : jstr) (f : Facade) : Facade :=
  match mget id (fc_usbClients f) with
  | Some c => f <| fc_usbClients ::= mset id (mu_on event c) |>
  | None => f
  end.

Definition facade_step (op : facade_op) (f : Facade) : list facade_effect * Facade :=
  match op with
  | OpHostEvent e => if fc_subscribed f then applyHostEvent e f else ([], f)
  | OpDisconnected now => if fc_subscribed f then handleDaemonDisconnected now f else ([], f)
  | OpTimer now => match fc_desiredRecoveryTimer f with
                   | Some due => if due <=? now then recovery_fires f else ([], f)
                   | None => ([], f)
                   end
  | OpRestoreConnected => restore_connected f
  | OpRestoreDevices ss => restore_devices ss f
  | OpRestoreWatched => restore_watched f
  | OpRestoreFailed now => ([], restore_failed now f)
  | OpStartWSServer => Facade.startWSServer f
  | OpWSAnswered info => ([], startWSServer_answered info f)
  | OpWSFailed now => startWSServer_failed now f
  | OpConnectDevices timeout serial => connectDevices_method timeout serial f
  | OpDevicesAnswered ss => connectDevices_answered ss f
  | OpClientsAnswered ss => connectUsbClients_answered ss f
  | OpBackgroundFailed now => ([], background_call_failed now f)
  | OpRegisterDevice d => Facade.registerDevice d f
  | OpUnregisterDevice serial force => Facade.unregisterDevice serial force f
  | OpRegisterClient c => Facade.regiserUsbClient c f
  | OpUnregisterClient id force => Facade.unregiserUsbClient id force f
  | OpDisableAll force => disableAllClients force f
  | OpWatchAll => startWatchAllClients f
  | OpSelect id => ([], selecteUsbClient id f)
  | OpListen id event => ([], listen id event f)
  | OpSendWeb message => (sendMessageToWeb message f, f)
  | OpSendApp id message => (sendMessageToApp id message f, f)
  | OpClose => close_begins f
  | OpCloseStopped => close_stopped f
  | OpCloseEnds => ([], close_ends f)
  end.

Definition facade_run : list facade_op -> Facade -> list facade_effect * Facade := for_each facade_step.

(** ** The observer *)

(** What is connected, by the data of each device and client. *)
Record view := mkView {
  v_devices : list (jstr * DeviceSnapshot);
  v_clients : list (Z * ClientDescription);
  v_apps : list (Z * WebSocketClientInfo);
  v_webs : list (Z * WebSocketClientInfo)
}.

Definition view_of (f : Facade) : view :=
  mkView (mvalues md_snapshot (fc_devices f)) (mvalues mu_snapshot (fc_usbClients f))
    (mvalues mw_info (fc_websocketAppClients f)) (mvalues mw_info (fc_websocketWebClients f)).

(** A listener that keeps what it is told. *)
Definition observe (v : view) (e : facade_effect) : view :=
  match e with
  | FEmit (DeviceConnected d) => mkView (mset (md_serial d) (md_snapshot d) (v_devices v)) (v_clients v) (v_apps v) (v_webs v)
  | FEmit (DeviceDisconnected d) => mkView (mdel (md_serial d) (v_devices v)) (v_clients v) (v_apps v) (v_webs v)
  | FEmit (ClientConnected c) => mkView (v_devices v) (mset (mu_clientId c) (mu_snapshot c) (v_clients v)) (v_apps v) (v_webs v)
  | FEmit (ClientDisconnected id) => mkView (v_devices v) (mdel id (v_clients v)) (v_apps v) (v_webs v)
  | FEmit (WebsocketAppClientConnected c) => mkView (v_devices v) (v_clients v) (mset (mw_clientId c) (mw_info c) (v_apps v)) (v_webs v)
  | FEmit (WebsocketAppClientDisconnected id) => mkView (v_devices v) (v_clients v) (mdel id (v_apps v)) (v_webs v)
  | FEmit (WebsocketWebClientConnected c) => mkView (v_devices v) (v_clients v) (v_apps v) (mset (mw_clientId c) (mw_info c) (v_webs v))
  | FEmit (WebsocketWebClientDisconnected id) => mkView (v_devices v) (v_clients v) (v_apps v) (mdel id (v_webs v))
  | _ => v
  end.

(** Arrivals and departures of the unified app events. *)
Definition app_id (c : MultiplexerUsbClient + MultiplexerWebSocketClient) : Z :=
  match c with inl c => mu_clientId c | inr c => mw_clientId c end.

Definition app_change (id : Z) (e : facade_effect) : Z :=
  match e with
  | FEmit (AppClientConnected c) => if app_id c =? id then 1 else 0
  | FEmit (AppClientDisconnected i) => if i =? id then -1 else 0
  | _ => 0
  end.

Definition app_changes (id : Z) (es : list facade_effect) : Z := fold_right (fun e n => app_change id e + n) 0 es.

Definition app_count (id : Z) (f : Facade) : Z :=
  Z.b2z (mhas id (fc_usbClients f)) + Z.b2z (mhas id (fc_websocketAppClients f)).

(** ** Every change of a mirror is told *)

(** Mirrors of devices are stored under their serials, and no id twice. *)
Record facade_wf (f : Facade) : Prop := {
  fw_serial : forall s d, mget s (fc_devices f) = Some d -> md_serial d = s;
  fw_ws : forall t, NoDup (mkeys (ws_clients t f))
}.

Record explained (f : Facade) (r : list facade_effect * Facade) : Prop := {
  ex_wf : facade_wf r.2;
  ex_view : fold_left observe r.1 (view_of f) = view_of r.2;
  ex_apps : forall id, app_count id f + app_changes id r.1 = app_count id r.2
}.

Lemma app_changes_app id es1 es2 : app_changes id (es1 ++ es2) = app_changes id es1 + app_changes id es2.
Proof. unfold app_changes. induction es1 as [|e es1 IH]; cbn; [done|]. rewrite IH. lia. Qed.

Lemma explained_seq f es1 f1 es2 f2 : explained f (es1, f1) -> explained f1 (es2, f2) -> explained f (es1 ++ es2, f2).
Proof.
  intros [W1 V1 A1] [W2 V2 A2]. split; cbn [fst snd] in *; [done|by rewrite fold_left_app, V1|].
  intros id. rewrite app_changes_app, <- A2, <- A1. lia.
Qed.

(** Effects that say nothing about mirrors. *)
Definition silent (e : facade_effect) : bool :=
  match e with
  | FEmit (UsbClientMessage _ _ | WsClientMessage _ _ | WsWebMessage _ _ | ConnectorError _ _ _ _) => true
  | FEmit _ => false
  | _ => true
  end.

Lemma silent_observed e v : silent e = true -> observe v e = v /\ forall id, app_change id e = 0.
Proof. by destruct e as [[]| | | | | | | |]. Qed.

Lemma silent_all es v : forallb silent es = true -> fold_left observe es v = v /\ forall id, app_changes id es = 0.
Proof.
  revert v. induction es as [|e es IH]; intros v; cbn; [done|]. intros [He Hes]%andb_prop.
  destruct (silent_observed e v He) as [-> Ha]. destruct (IH v Hes) as [-> IHa]. split; [done|].
  intros id. change (app_change id e + app_changes id es = 0). by rewrite Ha, IHa.
Qed.

Lemma explained_silent f es f' : facade_wf f -> forallb silent es = true ->
  fc_devices f' = fc_devices f -> fc_usbClients f' = fc_usbClients f ->
  fc_websocketAppClients f' = fc_websocketAppClients f -> fc_websocketWebClients f' = fc_websocketWebClients f ->
  explained f (es, f').
Proof.
  intros [Hs Hn] He H1 H2 H3 H4. destruct (silent_all es (view_of f) He) as [Hv Ha]. split; cbn [fst snd].
  - split; rewrite ?H1; [done|]. intros t. pose proof (Hn t). destruct t; cbn in *; by rewrite ?H3, ?H4.
  - rewrite Hv. unfold view_of. by rewrite H1, H2, H3, H4.
  - intros id. rewrite Ha. unfold app_count. rewrite H2, H3. lia.
Qed.

Lemma explained_then f r (k : Facade -> Facade) : explained f r ->
  (forall g, fc_devices (k g) = fc_devices g /\ fc_usbClients (k g) = fc_usbClients g /\
             fc_websocketAppClients (k g) = fc_websocketAppClients g /\ fc_websocketWebClients (k g) = fc_websocketWebClients g) ->
  explained f (r.1, k r.2).
Proof.
  destruct r as [es f1]. intros E Hk. pose proof (ex_wf _ _ E) as W. destruct (Hk f1) as (H1 & H2 & H3 & H4).
  cbn [fst snd] in *. rewrite <- (app_nil_r es). apply (explained_seq _ _ _ _ _ E). by apply explained_silent.
Qed.

(** One part of an operation, with the rest after it. *)
Ltac part H := match type of H with explained _ ?r => destruct r as [?e ?f]; pose proof (ex_wf _ _ H) end.

Lemma for_each_explained {A} (step : A -> Facade -> list facade_effect * Facade) l f : facade_wf f ->
  (forall x f, facade_wf f -> explained f (step x f)) -> explained f (for_each step l f).
Proof.
  intros W Hs. revert f W. induction l as [|x l IH]; intros f W; cbn; [by apply explained_silent|].
  pose proof (Hs x f W) as E1. destruct (step x f) as [e1 f1]. pose proof (IH f1 (ex_wf _ _ E1)) as E2.
  destruct (for_each step l f1) as [e2 f2]. by apply explained_seq with f1.
Qed.

(** *** Single arrivals and departures *)

Lemma registerDevice_explained d f : facade_wf f -> explained f (Facade.registerDevice d f).
Proof.
  intros W. unfold Facade.registerDevice. destruct (mget (md_serial d) (fc_devices f)) eqn:E; [by apply explained_silent|].
  split; cbn [fst snd].
  - split; [|apply W]. intros s d'. cbn. rewrite mget_mset. case_decide; [naive_solver|apply W].
  - unfold view_of. cbn. by rewrite mvalues_mset.
  - intros id. cbn. unfold app_count. cbn. lia.
Qed.

Lemma unregisterDevice_explained serial force f : facade_wf f -> explained f (unregisterDeviceInternal serial force f).
Proof.
  intros W. unfold unregisterDeviceInternal. destruct (mget serial (fc_devices f)) as [d|] eqn:E; [|by apply explained_silent].
  pose proof (fw_serial _ W _ _ E) as <-.
  destruct force; (split; cbn [fst snd]; [split; [|apply W]| |]).
  all: try (intros s d'; cbn; rewrite mget_mdel; case_decide; [done|apply W]).
  all: try (unfold view_of; cbn; by rewrite mvalues_mdel).
  all: intros id; cbn; unfold app_count; cbn; lia.
Qed.

Lemma b2z_orb_absent (P : Prop) `{Decision P} b : (P -> b = false) ->
  Z.b2z (bool_decide P || b) = Z.b2z b + (if bool_decide P then 1 else 0).
Proof. intros Hb. case_bool_decide; [by rewrite Hb|]. cbn. lia. Qed.

Lemma regiserUsbClient_explained c f : facade_wf f -> explained f (Facade.regiserUsbClient c f).
Proof.
  intros W. unfold Facade.regiserUsbClient.
  destruct (mget (mu_clientId c) (fc_usbClients f)) eqn:E; [by apply explained_silent|].
  split; cbn [fst snd]; [split; apply W|unfold view_of; cbn; by rewrite mvalues_mset|].
  intros id. unfold app_count. cbn. rewrite mhas_mset, b2z_orb_absent by (intros ->; unfold mhas; by rewrite E).
  case_bool_decide; [subst; rewrite Z.eqb_refl|rewrite (proj2 (Z.eqb_neq _ _)) by congruence]; lia.
Qed.

Lemma unregisterUsbClient_explained id f : facade_wf f -> explained f (unregisterUsbClientInternal id f).
Proof.
  intros W. unfold unregisterUsbClientInternal. destruct (mget id (fc_usbClients f)) eqn:E; [|by apply explained_silent].
  match goal with |- context [if ?b then ?f1 else f] => set (g := if b then f1 else f) end.
  assert (fc_devices g = fc_devices f /\ fc_usbClients g = fc_usbClients f /\
          fc_websocketAppClients g = fc_websocketAppClients f /\ fc_websocketWebClients g = fc_websocketWebClients f) as (H1 & H2 & H3 & H4)
    by (subst g; by case_bool_decide).
  split; cbn [fst snd].
  - split; cbn; [rewrite H1; apply W|]. intros t. pose proof (fw_ws _ W t). destruct t; cbn in *; by rewrite ?H3, ?H4.
  - unfold view_of. cbn. rewrite H1, H2, H3, H4. by rewrite mvalues_mdel.
  - intros i. unfold app_count. cbn. rewrite H2, H3, mhas_mdel. case_bool_decide as Hi; cbn.
    + subst. rewrite Z.eqb_refl. unfold mhas at 1. rewrite E. cbn. lia.
    + rewrite (proj2 (Z.eqb_neq _ _)) by congruence. lia.
Qed.

Lemma wf_ws t g f : facade_wf f -> (forall m, NoDup (mkeys m) -> NoDup (mkeys (g m))) -> facade_wf (set_ws_clients t g f).
Proof.
  intros [Hs Hn] Hg. split; [by destruct t|]. intros t'. pose proof (Hn t') as H.
  destruct t, t'; first [exact H|apply Hg; exact H].
Qed.

Lemma upsert_ws_explained t s f : facade_wf f -> explained f (upsertWebSocketSnapshot t s f).
Proof.
  intros W. unfold upsertWebSocketSnapshot. destruct (mget (wi_id s) (ws_clients t f)) eqn:E; [by apply explained_silent|].
  split; cbn [fst snd]; [apply wf_ws; auto with mux|destruct t; unfold view_of; cbn; by rewrite mvalues_mset|].
  intros id. unfold app_count. destruct t; cbn in E |- *; [|lia].
  rewrite mhas_mset, b2z_orb_absent by (intros ->; unfold mhas; by rewrite E). change (mw_clientId (ws_fromSnapshot s)) with (wi_id s).
  case_bool_decide; [subst; rewrite Z.eqb_refl|rewrite (proj2 (Z.eqb_neq _ _)) by congruence]; lia.
Qed.

Lemma remove_ws_explained t id f : facade_wf f -> mhas id (ws_clients t f) = true -> explained f (remove_ws_client t id f).
Proof.
  intros W Hid. split; cbn [fst snd remove_ws_client];
    [apply wf_ws; auto with mux|destruct t; unfold view_of; cbn; by rewrite mvalues_mdel|].
  intros i. unfold app_count. destruct t; cbn in *; [|lia]. rewrite mhas_mdel. case_bool_decide as Hi; cbn.
  - subst. rewrite Z.eqb_refl, Hid. cbn. lia.
  - rewrite (proj2 (Z.eqb_neq _ _)) by congruence. lia.
Qed.

Lemma remove_all_ws_explained t (keep : Z -> bool) l f : facade_wf f -> NoDup l ->
  (forall id, id ∈ l -> mhas id (ws_clients t f) = true) ->
  explained f (for_each (fun id f => if keep id then ([], f) else remove_ws_client t id f) l f).
Proof.
  intros W Hnd Hl. revert f W Hl. induction Hnd as [|id l Hid Hnd IH]; intros f W Hl; cbn [for_each]; [by apply explained_silent|].
  assert (explained f (if keep id then ([], f) else remove_ws_client t id f)) as E1.
  { destruct (keep id); [by apply explained_silent|]. apply remove_ws_explained; [done|]. apply Hl. left. }
  assert (forall i, i ∈ l -> mhas i (ws_clients t (if keep id then ([], f) else remove_ws_client t id f).2) = true) as Hl'.
  { intros i Hi. destruct (keep id); [apply Hl; by right|]. cbn [snd remove_ws_client].
    assert (ws_clients t (set_ws_clients t (mdel id) f) = mdel id (ws_clients t f)) as -> by (by destruct t).
    rewrite mhas_mdel, (Hl i) by (by right). rewrite bool_decide_eq_false_2; [done|]. by intros ->. }
  part E1. cbn [snd] in Hl'. specialize (IH f0 (ex_wf _ _ E1) Hl'). part IH. by apply explained_seq with f0.
Qed.

Lemma remove_keys_explained t (keep : Z -> bool) f : facade_wf f ->
  explained f (for_each (fun id f => if keep id then ([], f) else remove_ws_client t id f) (mkeys (ws_clients t f)) f).
Proof.
  intros W. apply remove_all_ws_explained; [done|apply W|]. intros id. by rewrite mkeys_mget, mhas_true.
Qed.

Lemma remove_every_explained t f : facade_wf f -> explained f (for_each (remove_ws_client t) (mkeys (ws_clients t f)) f).
Proof. exact (remove_keys_explained t (fun _ => false) f). Qed.

(** *** Snapshots, answers and losses *)

Create HintDb facade.
#[local] Hint Resolve registerDevice_explained unregisterDevice_explained regiserUsbClient_explained
  unregisterUsbClient_explained upsert_ws_explained : facade.

Lemma upsert_devices_explained ss f : facade_wf f -> explained f (upsertDeviceSnapshots ss f).
Proof.
  intros W. apply for_each_explained; [done|]. intros s g Wg. unfold upsertDeviceSnapshot.
  destruct (mget _ _); [by apply explained_silent|auto with facade].
Qed.

Lemma upsert_clients_explained ss f : facade_wf f -> explained f (upsertClientSnapshots ss f).
Proof.
  intros W. apply for_each_explained; [done|]. intros s g Wg. unfold upsertClientSnapshot.
  destruct (mget _ _); [by apply explained_silent|auto with facade].
Qed.

Lemma sync_clients_explained ss f : facade_wf f -> explained f (syncClientSnapshots ss f).
Proof.
  intros W. unfold syncClientSnapshots. pose proof (upsert_clients_explained (filterClientSnapshots ss f) f W) as E1. part E1.
  match goal with |- context [for_each ?st ?l ?g] => assert (explained g (for_each st l g)) as E2 end.
  { apply for_each_explained; [done|]. intros id g Wg. case_bool_decide; [by apply explained_silent|auto with facade]. }
  part E2. by apply explained_seq with f0.
Qed.

Lemma sync_exposed_explained ss t f : facade_wf f -> explained f (sync_exposed ss t f).
Proof.
  intros W. unfold sync_exposed. destruct ss as [ss|]; [|by apply explained_silent].
  destruct (shouldExposeWebSocketState f); [|by apply explained_silent]. unfold syncWebSocketSnapshots.
  assert (explained f (for_each (upsertWebSocketSnapshot t) ss f)) as E1 by (apply for_each_explained; auto with facade).
  part E1. pose proof (remove_keys_explained t (fun id => bool_decide (id ∈ List.map wi_id ss)) f0 H) as E2.
  part E2. by apply explained_seq with f0.
Qed.

Lemma applySnapshot_explained s f : facade_wf f -> explained f (applySnapshot s f).
Proof.
  intros W. unfold applySnapshot, upsertDeviceSnapshotState.
  match goal with |- context [upsertDeviceSnapshots ?l f] => pose proof (upsert_devices_explained l f W) as E1 end. part E1.
  pose proof (sync_clients_explained (sn_clients s) f0 H) as E2. part E2.
  pose proof (sync_exposed_explained (sn_websocketAppClients s) TargetApp f1 H0) as E3. part E3.
  pose proof (sync_exposed_explained (sn_websocketWebClients s) TargetWeb f2 H1) as E4. part E4.
  unfold removeStaleDevices. match goal with |- context [for_each ?st ?l ?g] => assert (explained g (for_each st l g)) as E5 end.
  { apply for_each_explained; [done|]. intros id g Wg. case_bool_decide; [by apply explained_silent|auto with facade]. }
  part E5. eauto 8 using explained_seq.
Qed.

Lemma clear_ws_explained f : facade_wf f -> explained f (clearWebSocketClientMirrors f).
Proof.
  intros W. unfold clearWebSocketClientMirrors. pose proof (remove_every_explained TargetApp f W) as E1. cbn [ws_clients] in E1. part E1.
  pose proof (remove_every_explained TargetWeb f0 H) as E2. cbn [ws_clients] in E2. part E2.
  by apply explained_seq with f0.
Qed.

Lemma clear_mirrors_explained f : facade_wf f -> explained f (clearDaemonMirrors f).
Proof.
  intros W. unfold clearDaemonMirrors. set (f0 := f <| fc_wss := None |>).
  assert (explained f ([], f0)) as E0 by (by apply explained_silent). pose proof (ex_wf _ _ E0) as W0. cbn [snd] in W0.
  assert (explained f0 (for_each unregisterUsbClientInternal (mkeys (fc_usbClients f0)) f0)) as E1
    by (apply for_each_explained; auto with facade). part E1.
  pose proof (clear_ws_explained f1 H) as E2. part E2.
  match goal with |- context [for_each ?st ?l ?g] => assert (explained g (for_each st l g)) as E3
    by (apply for_each_explained; auto with facade) end. part E3.
  change (e ++ e0 ++ e1) with ([] ++ e ++ e0 ++ e1). eauto using explained_seq.
Qed.

(** *** All steps *)

Ltac quiet := by apply explained_silent.

Lemma schedule_mirrors now f :
  fc_devices (scheduleDesiredRecovery now f) = fc_devices f /\ fc_usbClients (scheduleDesiredRecovery now f) = fc_usbClients f /\
  fc_websocketAppClients (scheduleDesiredRecovery now f) = fc_websocketAppClients f /\
  fc_websocketWebClients (scheduleDesiredRecovery now f) = fc_websocketWebClients f.
Proof. unfold scheduleDesiredRecovery. destruct (fc_closed f); [done|]. by destruct (fc_desiredRecoveryTimer f). Qed.

Lemma schedule_explained now f : facade_wf f -> explained f ([], scheduleDesiredRecovery now f).
Proof. intros W. destruct (schedule_mirrors now f) as (? & ? & ? & ?). quiet. Qed.

Lemma applyHostEvent_explained e f : facade_wf f -> explained f (applyHostEvent e f).
Proof.
  intros W. destruct e as [code m d i|n m c|s|c|src id m]; cbn [applyHostEvent]; [quiet| |by apply applySnapshot_explained| |].
  - by destruct (fc_reportService f); apply explained_silent.
  - unfold applyLegacyOwnershipChange. repeat case_bool_decide; quiet.
  - assert (explained f (handleUsbMessage id m f)) as Hu.
    { unfold handleUsbMessage. destruct (mget id (fc_usbClients f)); [|quiet]. destruct (mu_handleMessage m _) as [es []]; quiet. }
    destruct src; [done| |]; destruct (shouldExposeWebSocketState f); quiet.
Qed.

Lemma startWSServer_explained f : facade_wf f -> explained f (Facade.startWSServer f).
Proof. intros W. unfold Facade.startWSServer. destruct (negb _ || _); quiet. Qed.

Lemma restore_server_explained f : facade_wf f -> explained f (restore_server f).
Proof. intros W. unfold restore_server. destruct (_ && _); [by apply startWSServer_explained|quiet]. Qed.

Lemma restore_watchers_explained f : facade_wf f -> explained f (restore_watchers f).
Proof. intros W. unfold restore_watchers. destruct (fc_desiredWatchAllClientsStarted f); [quiet|by apply restore_server_explained]. Qed.

Lemma listen_explained id event f : facade_wf f -> explained f ([], listen id event f).
Proof.
  intros W. unfold listen. destruct (mget id (fc_usbClients f)) as [c|] eqn:E; [|quiet]. split; cbn [fst snd fold_left].
  - split; apply W.
  - unfold view_of. cbn. rewrite mvalues_mset. f_equal. symmetry. apply mset_same.
    revert E. generalize (fc_usbClients f). induction l as [|[k w] l IH]; [done|]. unfold mget, mvalues in *. cbn.
    case_decide; [naive_solver|exact IH].
  - intros i. cbn. unfold app_count. cbn. rewrite mhas_mset. unfold mhas at 1 3. case_bool_decide; [subst; rewrite E|]; cbn; lia.
Qed.

#[local] Hint Resolve applySnapshot_explained clear_ws_explained clear_mirrors_explained upsert_devices_explained
  upsert_clients_explained applyHostEvent_explained startWSServer_explained restore_server_explained restore_watchers_explained
  listen_explained schedule_explained : facade.

Lemma facade_step_explained op f : facade_wf f -> explained f (facade_step op f).
Proof.
  intros W. destruct op; cbn [facade_step]; auto with facade; try quiet.
  - destruct (fc_subscribed f); [auto with facade|quiet].
  - destruct (fc_subscribed f); [|quiet]. unfold handleDaemonDisconnected. pose proof (clear_mirrors_explained f W) as E1. part E1.
    apply (explained_then f (e, f0) (scheduleDesiredRecovery now) E1), schedule_mirrors.
  - destruct (fc_desiredRecoveryTimer f); [|quiet]. destruct (_ <=? now); quiet.
  - unfold restore_connected. destruct (fc_desiredDeviceDiscoveryStarted f); [quiet|auto with facade].
  - unfold restore_devices. pose proof (upsert_devices_explained ss f W) as E1. part E1.
    pose proof (restore_watchers_explained f0 H) as E2. part E2. by apply explained_seq with f0.
  - unfold startWSServer_answered. destruct (negb (fc_closed f)); quiet.
  - unfold startWSServer_failed. pose proof (clear_ws_explained f W) as E1. part E1.
    apply (explained_then f (e, f0) (scheduleDesiredRecovery now) E1), schedule_mirrors.
  - unfold Facade.unregisterDevice. destruct force; cbn; [auto with facade|quiet].
  - unfold Facade.unregiserUsbClient. destruct force; cbn; [auto with facade|quiet].
  - unfold disableAllClients. destruct force; quiet.
  - unfold selecteUsbClient. destruct (mget id (fc_usbClients f)); quiet.
  - unfold sendMessageToWeb. destruct (web_socket_ready f); quiet.
  - unfold sendMessageToApp. destruct (web_socket_ready f); quiet.
  - unfold close_begins. destruct (fc_closed f); [quiet|]. cbn. destruct (fc_enableDebugMode f); quiet.
Qed.

Lemma facade_run_explained ops f : facade_wf f -> explained f (facade_run ops f).
Proof. intros W. apply for_each_explained; [done|]. apply facade_step_explained. Qed.

Lemma new_facade_wf o : facade_wf (new_facade o).2.
Proof. unfold new_facade. destruct (default false (fo_manualConnect o)); (split; [done|]; intros []; apply NoDup_nil_2). Qed.

(** C17: The events of a connector tell everything about its mirrors.  Whatever
    the daemon sends, however often it is lost and whatever the user calls, a
    listener that adds on connected events and removes on disconnected ones
    holds at every moment exactly the devices, USB clients, WebSocket runtimes
    and front ends the connector shows, in the same order; and the unified app
    events count each id once for its USB client and once for its WebSocket
    runtime, with as many departures as arrivals that are over. *)
Theorem facade_events_complete o ops :
  let '(e0, f0) := new_facade o in
  let '(es, f) := facade_run ops f0 in
  fold_left observe (e0 ++ es) (mkView [] [] [] []) = view_of f /\
  forall id, app_changes id (e0 ++ es) = app_count id f.
Proof.
  pose proof (facade_run_explained ops _ (new_facade_wf o)) as E. destruct (new_facade o) as [e0 f0] eqn:E0. cbn [snd] in E.
  assert (view_of f0 = mkView [] [] [] [] /\ forallb silent e0 = true /\ forall id, app_count id f0 = 0) as (Hv & He & Hc)
    by (unfold new_facade in E0; destruct (default false (fo_manualConnect o)); injection E0 as <- <-; done).
  destruct (silent_all e0 (mkView [] [] [] []) He) as [Ho Ha]. part E. destruct E as [_ V A]. cbn [fst snd] in *.
  split; [by rewrite fold_left_app, Ho, <- Hv|]. intros id. rewrite app_changes_app, Ha, <- A, Hc. lia.
Qed.

(** ** After closing *)

(** The effects a closed connector may still have: calls (which its daemon client
    refuses once it is closed itself), the end of the closing, and news about
    mirrors from answers that were on their way or from its user. *)
Definition late (e : facade_effect) : bool :=
  match e with
  | FCall _ | FCloseDaemonClient => true
  | FEmit (UsbClientMessage _ _ | WsClientMessage _ _ | WsWebMessage _ _ | ConnectorError _ _ _ _) => false
  | FEmit _ => true
  | FConnect | FReport _ _ _ | FStatusChanged _ | FClientEmits _ _ | FThrows | FForceStopDaemon => false
  end.

(** An operation on the mirrors alone. *)
Record calm (f : Facade) (r : list facade_effect * Facade) : Prop := {
  cm_late : forallb late r.1 = true;
  cm_closed : fc_closed r.2 = fc_closed f;
  cm_subscribed : fc_subscribed r.2 = fc_subscribed f;
  cm_timer : fc_desiredRecoveryTimer r.2 = fc_desiredRecoveryTimer f;
  cm_desired : (fc_desiredDeviceDiscoveryStarted r.2, fc_desiredWatchAllClientsStarted r.2, fc_desiredWSServerStarted r.2,
                fc_enableWebSocket r.2) =
               (fc_desiredDeviceDiscoveryStarted f, fc_desiredWatchAllClientsStarted f, fc_desiredWSServerStarted f,
                fc_enableWebSocket f);
  cm_wss : fc_wss r.2 = fc_wss f
}.

Lemma calm_nil f : calm f ([], f).
Proof. by split. Qed.

Lemma calm_seq f e1 f1 e2 f2 : calm f (e1, f1) -> calm f1 (e2, f2) -> calm f (e1 ++ e2, f2).
Proof.
  intros [] []. cbn [fst snd] in *. split; cbn [fst snd]; try congruence. rewrite forallb_app. by apply andb_true_intro.
Qed.

Lemma for_each_calm {A} (step : A -> Facade -> list facade_effect * Facade) l f :
  (forall x f, calm f (step x f)) -> calm f (for_each step l f).
Proof.
  intros Hs. revert f. induction l as [|x l IH]; intros f; cbn; [apply calm_nil|].
  pose proof (Hs x f) as E1. destruct (step x f) as [e1 f1]. specialize (IH f1).
  destruct (for_each step l f1) as [e2 f2]. by apply calm_seq with f1.
Qed.

Lemma registerDevice_calm d f : calm f (Facade.registerDevice d f).
Proof. unfold Facade.registerDevice. by destruct (mget _ _). Qed.

Lemma unregisterDevice_calm serial force f : calm f (unregisterDeviceInternal serial force f).
Proof. unfold unregisterDeviceInternal. destruct (mget _ _); [by destruct force|done]. Qed.

Lemma regiserUsbClient_calm c f : calm f (Facade.regiserUsbClient c f).
Proof. unfold Facade.regiserUsbClient. by destruct (mget _ _). Qed.

Lemma unregisterUsbClient_calm id f : calm f (unregisterUsbClientInternal id f).
Proof. unfold unregisterUsbClientInternal. destruct (mget _ _); [by case_bool_decide|done]. Qed.

Lemma upsert_device_calm s f : calm f (upsertDeviceSnapshot s f).
Proof. unfold upsertDeviceSnapshot. destruct (mget _ _); [done|apply registerDevice_calm]. Qed.

Lemma upsert_client_calm s f : calm f (upsertClientSnapshot s f).
Proof. unfold upsertClientSnapshot. destruct (mget _ _); [done|apply regiserUsbClient_calm]. Qed.

Lemma remove_ws_calm t id f : calm f (remove_ws_client t id f).
Proof. by destruct t. Qed.

Lemma upsert_devices_calm ss f : calm f (upsertDeviceSnapshots ss f).
Proof. apply for_each_calm, upsert_device_calm. Qed.

Lemma upsert_clients_calm ss f : calm f (upsertClientSnapshots ss f).
Proof. apply for_each_calm, upsert_client_calm. Qed.

Lemma clear_ws_calm f : calm f (clearWebSocketClientMirrors f).
Proof.
  unfold clearWebSocketClientMirrors.
  pose proof (for_each_calm (remove_ws_client TargetApp) (mkeys (fc_websocketAppClients f)) f (remove_ws_calm TargetApp)) as E1.
  destruct (for_each _ _ f) as [e1 f1].
  pose proof (for_each_calm (remove_ws_client TargetWeb) (mkeys (fc_websocketWebClients f1)) f1 (remove_ws_calm TargetWeb)) as E2.
  destruct (for_each _ _ f1) as [e2 f2]. by apply calm_seq with f1.
Qed.

(** A closed connector has no subscription and no timer. *)
Definition ended (f : Facade) : Prop := fc_closed f = true /\ fc_subscribed f = false /\ fc_desiredRecoveryTimer f = None.

Lemma schedule_closed now f : fc_closed f = true -> scheduleDesiredRecovery now f = f.
Proof. intros H. unfold scheduleDesiredRecovery. by rewrite H. Qed.

Lemma calm_ended f r : ended f -> calm f r -> forallb late r.1 = true /\ ended r.2.
Proof. intros (H1 & H2 & H3) []. unfold ended. by rewrite cm_closed0, cm_subscribed0, cm_timer0. Qed.

Lemma startWSServer_ended f : ended f -> Facade.startWSServer f = ([], f).
Proof. intros (H & _). unfold Facade.startWSServer. by rewrite H, orb_true_r. Qed.

Lemma restore_server_ended f : ended f -> restore_server f = ([], f).
Proof. intros H. unfold restore_server. by destruct (_ && _); [apply startWSServer_ended|]. Qed.

Lemma restore_watchers_ended f : ended f -> forallb late (restore_watchers f).1 = true /\ ended (restore_watchers f).2.
Proof. intros H. unfold restore_watchers. destruct (fc_desiredWatchAllClientsStarted f); [done|]. by rewrite restore_server_ended. Qed.

#[local] Hint Resolve registerDevice_calm unregisterDevice_calm regiserUsbClient_calm unregisterUsbClient_calm
  upsert_devices_calm upsert_clients_calm clear_ws_calm calm_nil : facade.

Lemma facade_step_ended op f : ended f -> forallb late (facade_step op f).1 = true /\ ended (facade_step op f).2.
Proof.
  intros Hf. destruct (Hf) as (H1 & H2 & H3). destruct op; cbn [facade_step].
  all: try (apply (calm_ended f); [done|auto with facade; fail]); rewrite ?H2, ?H3; try done.
  - unfold restore_connected. destruct (fc_desiredDeviceDiscoveryStarted f); [done|by apply restore_watchers_ended].
  - unfold restore_devices. pose proof (calm_ended _ _ Hf (upsert_devices_calm ss f)) as [L1 E1].
    destruct (upsertDeviceSnapshots ss f) as [e1 f1]. cbn [fst snd] in *. destruct (restore_watchers_ended f1 E1) as [L2 E2].
    destruct (restore_watchers f1) as [e2 f2]. cbn [fst snd] in *. split; [|done]. by rewrite forallb_app, L1, L2.
  - unfold restore_watched. by rewrite restore_server_ended.
  - unfold restore_failed. by rewrite schedule_closed.
  - by rewrite startWSServer_ended.
  - unfold startWSServer_answered. by rewrite H1.
  - unfold startWSServer_failed. pose proof (calm_ended _ _ Hf (clear_ws_calm f)) as [L1 E1].
    destruct (clearWebSocketClientMirrors f) as [e1 f1]. cbn [fst snd] in *. by rewrite schedule_closed by apply E1.
  - unfold background_call_failed. by rewrite schedule_closed.
  - unfold Facade.unregisterDevice. destruct force; cbn; [|done]. apply (calm_ended f); auto with facade.
  - unfold Facade.unregiserUsbClient. destruct force; cbn; [|done]. apply (calm_ended f); auto with facade.
  - unfold disableAllClients. by destruct force.
  - unfold selecteUsbClient. by destruct (mget _ _).
  - unfold listen. by destruct (mget _ _).
  - unfold sendMessageToWeb. by destruct (web_socket_ready f).
  - unfold sendMessageToApp. by destruct (web_socket_ready f).
  - unfold close_begins. by rewrite H1.
Qed.

Lemma applySnapshot_closed s f : fc_closed (applySnapshot s f).2 = fc_closed f.
Proof. by destruct (apply_snapshot_state s f) as [sel ->]. Qed.

Lemma clear_clients_calm f : calm f (for_each unregisterUsbClientInternal (mkeys (fc_usbClients f)) f).
Proof. apply for_each_calm, unregisterUsbClient_calm. Qed.

Lemma clear_devices_calm f :
  calm f (for_each (fun serial => unregisterDeviceInternal serial false) (mkeys (fc_devices f)) f).
Proof. apply for_each_calm. intros. apply unregisterDevice_calm. Qed.

Lemma clear_mirrors_calm f : calm (f <| fc_wss := None |>) (clearDaemonMirrors f).
Proof.
  unfold clearDaemonMirrors. set (f0 := f <| fc_wss := None |>). pose proof (clear_clients_calm f0) as E1.
  destruct (for_each unregisterUsbClientInternal _ _) as [e1 f1]. pose proof (clear_ws_calm f1) as E2.
  destruct (clearWebSocketClientMirrors f1) as [e2 f2]. pose proof (clear_devices_calm f2) as E3.
  destruct (for_each _ (mkeys (fc_devices f2)) f2) as [e3 f3]. eauto using calm_seq.
Qed.

Lemma schedule_keeps_closed now f : fc_closed (scheduleDesiredRecovery now f) = fc_closed f.
Proof. unfold scheduleDesiredRecovery. destruct (fc_closed f) eqn:E; [done|]. by destruct (fc_desiredRecoveryTimer f). Qed.

Lemma startWSServer_closed f : fc_closed (Facade.startWSServer f).2 = fc_closed f.
Proof. unfold Facade.startWSServer. by destruct (negb _ || _). Qed.

Lemma restore_server_closed f : fc_closed (restore_server f).2 = fc_closed f.
Proof. unfold restore_server. destruct (_ && _); [apply startWSServer_closed|done]. Qed.

Lemma restore_watchers_closed f : fc_closed (restore_watchers f).2 = fc_closed f.
Proof. unfold restore_watchers. destruct (fc_desiredWatchAllClientsStarted f); [done|apply restore_server_closed]. Qed.

Lemma applyHostEvent_closed e f : fc_closed (applyHostEvent e f).2 = fc_closed f.
Proof.
  destruct e as [code m d i|n m c|s|c|src id m]; cbn [applyHostEvent]; [done|by destruct (fc_reportService f)|apply applySnapshot_closed| |].
  - unfold applyLegacyOwnershipChange. by repeat case_bool_decide.
  - assert (fc_closed (handleUsbMessage id m f).2 = fc_closed f)
      by (unfold handleUsbMessage; destruct (mget id (fc_usbClients f)); [by destruct (mu_handleMessage m _)|done]).
    destruct src; [done| |]; by destruct (shouldExposeWebSocketState f).
Qed.

(** Only [close] closes. *)
Lemma facade_step_closed op f : op <> OpClose -> fc_closed (facade_step op f).2 = fc_closed f.
Proof.
  intros Hop. destruct op; cbn [facade_step]; try done; try (apply cm_closed; auto with facade; fail).
  - destruct (fc_subscribed f); [apply applyHostEvent_closed|done].
  - destruct (fc_subscribed f); [|done]. unfold handleDaemonDisconnected. pose proof (cm_closed _ _ (clear_mirrors_calm f)) as E.
    destruct (clearDaemonMirrors f) as [e f1]. cbn [fst snd] in *. by rewrite schedule_keeps_closed.
  - destruct (fc_desiredRecoveryTimer f); [|done]. by destruct (_ <=? now).
  - unfold restore_connected. destruct (fc_desiredDeviceDiscoveryStarted f); [done|apply restore_watchers_closed].
  - unfold restore_devices. pose proof (cm_closed _ _ (upsert_devices_calm ss f)) as E1.
    destruct (upsertDeviceSnapshots ss f) as [e1 f1]. pose proof (restore_watchers_closed f1).
    destruct (restore_watchers f1) as [e2 f2]. cbn [fst snd] in *. congruence.
  - apply restore_server_closed.
  - apply schedule_keeps_closed.
  - apply startWSServer_closed.
  - unfold startWSServer_answered. destruct (fc_closed f) eqn:E; cbn; by rewrite ?E.
  - unfold startWSServer_failed. pose proof (cm_closed _ _ (clear_ws_calm f)) as E.
    destruct (clearWebSocketClientMirrors f) as [e f1]. cbn [fst snd] in *. by rewrite schedule_keeps_closed.
  - apply schedule_keeps_closed.
  - unfold Facade.unregisterDevice. destruct force; cbn; [|done]. apply cm_closed; auto with facade.
  - unfold Facade.unregiserUsbClient. destruct force; cbn; [|done]. apply cm_closed; auto with facade.
  - unfold disableAllClients. by destruct force.
  - unfold selecteUsbClient. by destruct (mget _ _).
  - unfold listen. by destruct (mget _ _).
Qed.

Definition ends_when_closed (f : Facade) : Prop := fc_closed f = true -> ended f.

Lemma facade_step_ends op f : ends_when_closed f -> ends_when_closed (facade_step op f).2.
Proof.
  intros Hf. destruct (fc_closed f) eqn:E; [intros _; apply facade_step_ended; auto|].
  assert (op = OpClose \/ op <> OpClose) as [->|Hop] by (destruct op; by (left; done) || (right; done)).
  - intros _. cbn. unfold close_begins. by rewrite E.
  - intros Hc. rewrite facade_step_closed in Hc by done. congruence.
Qed.

Lemma facade_run_ends ops f : ends_when_closed f -> ends_when_closed (facade_run ops f).2.
Proof. intros Hf. apply (for_each_fold facade_step ends_when_closed); [done|]. intros. by apply facade_step_ends. Qed.

Lemma facade_run_ended ops f : ended f -> forallb late (facade_run ops f).1 = true /\ ended (facade_run ops f).2.
Proof.
  revert f. induction ops as [|op ops IH]; intros f Hf; [done|]. unfold facade_run in *. cbn.
  destruct (facade_step_ended op f Hf) as [L1 E1]. destruct (facade_step op f) as [e1 f1]. cbn [fst snd] in *.
  destruct (IH f1 E1) as [L2 E2]. destruct (for_each facade_step ops f1) as [e2 f2]. cbn [fst snd] in *. split; [|done].
  by rewrite forallb_app, L1, L2.
Qed.

(** C19: A closed connector is over.  The first [close] closes its daemon client
    or, in debug mode, asks for its daemon to be stopped first; another one does
    nothing.  From then on, whatever the daemon still sends and whichever timers,
    answers and calls come, the connector passes on no message, no error, no
    report and no ownership change, does not ask its daemon client to connect nor
    for the daemon to be stopped, and has no recovery timer and no subscription.
    What is left to it is to make the calls its user or an answer on its way asks
    for (in debug mode the daemon client is still open until the daemon has been
    stopped, afterwards it refuses them), to close the daemon client, and to tell
    its user of devices and clients in answers that were on their way. *)
Theorem closed_connector_over o before after :
  let f0 := (facade_run before (new_facade o).2).2 in
  let f := (facade_step OpClose f0).2 in
  (facade_step OpClose f0).1 =
    (if fc_closed f0 then [] else [if fc_enableDebugMode f0 then FForceStopDaemon else FCloseDaemonClient]) /\
  ended f /\ forallb late (facade_run after f).1 = true /\ ended (facade_run after f).2.
Proof.
  intros f0 f. assert (ends_when_closed (new_facade o).2) as H0 by (unfold new_facade; by destruct (default false (fo_manualConnect o))).
  pose proof (facade_run_ends before _ H0) as H1. fold f0 in H1.
  split; [unfold f; cbn [facade_step]; unfold close_begins; by destruct (fc_closed f0)|].
  assert (ended f) as Hf; [|split; [done|by apply facade_run_ended]].
  unfold f. cbn [facade_step]. unfold close_begins. destruct (fc_closed f0) eqn:E; [by apply H1|done].
Qed.

(** ** Recovery *)

(** The calls that bring back what the user asked for, in the order in which
    they are made, and the answers to them. *)
Definition desired_calls (f : Facade) : list rpc_call :=
  (if fc_desiredDeviceDiscoveryStarted f then [connect_devices_call (NInt (-1)) None] else []) ++
  (if fc_desiredWatchAllClientsStarted f then [mkCall startAllDeviceClientWatchers no_params] else []) ++
  (if fc_desiredWSServerStarted f && fc_enableWebSocket f then [mkCall Protocol.startWSServer no_params] else []).

Definition desired_answers (ss : list DeviceSnapshot) (info : WebSocketServerInfo) (f : Facade) : list facade_op :=
  (if fc_desiredDeviceDiscoveryStarted f then [OpRestoreDevices ss] else []) ++
  (if fc_desiredWatchAllClientsStarted f then [OpRestoreWatched] else []) ++
  (if fc_desiredWSServerStarted f && fc_enableWebSocket f then [OpWSAnswered info] else []).

Definition requests (es : list facade_effect) : list facade_effect :=
  List.filter (fun e => match e with FCall _ | FConnect => true | _ => false end) es.

Lemma for_each_requests {A} (step : A -> Facade -> list facade_effect * Facade) l f :
  (forall x f, requests (step x f).1 = []) -> requests (for_each step l f).1 = [].
Proof.
  intros Hs. revert f. induction l as [|x l IH]; intros f; cbn; [done|]. specialize (Hs x f).
  destruct (step x f) as [e1 f1]. specialize (IH f1). destruct (for_each step l f1) as [e2 f2]. cbn [fst] in *.
  unfold requests in *. by rewrite List.filter_app, Hs, IH.
Qed.

Lemma upsert_devices_requests ss f : requests (upsertDeviceSnapshots ss f).1 = [].
Proof.
  apply for_each_requests. intros s g. unfold upsertDeviceSnapshot, Facade.registerDevice.
  destruct (mget (ds_serial s) (fc_devices g)); [done|]. by destruct (mget _ _).
Qed.

(** A loss empties the mirrors. *)
Lemma dropped_all {K V} `{EqDecision K} (m : list (K * V)) : fold_left (drop_inactive []) (mkeys m) m = [].
Proof.
  assert (forall k, mget k (fold_left (drop_inactive []) (mkeys m) m) = None) as H.
  { intros k. rewrite mget_drops, bool_decide_eq_false_2 by apply not_elem_of_nil. case_bool_decide as Hk; [done|]. by apply mget_None_keys. }
  destruct (fold_left _ _ m) as [|[k v] m']; [done|]. specialize (H k). unfold mget in H. by rewrite decide_True in H.
Qed.

Lemma clear_clients_state f : exists sel,
  (for_each unregisterUsbClientInternal (mkeys (fc_usbClients f)) f).2 = f <| fc_usbClients := [] |> <| fc_selectedClient := sel |>.
Proof.
  destruct (drop_clients [] (mkeys (fc_usbClients f)) f) as [sel H]. exists sel. etransitivity; [exact H|].
  pose proof (dropped_all (fc_usbClients f)) as D. destruct f; cbn in *. by rewrite D.
Qed.

Lemma clear_ws_state f :
  (clearWebSocketClientMirrors f).2 = f <| fc_websocketAppClients := [] |> <| fc_websocketWebClients := [] |>.
Proof.
  unfold clearWebSocketClientMirrors.
  pose proof (drop_ws TargetApp [] (mkeys (fc_websocketAppClients f)) f : (for_each (remove_ws_client TargetApp) _ f).2 = _) as E1.
  destruct (for_each _ _ f) as [e1 f1]. cbn [snd] in E1.
  pose proof (drop_ws TargetWeb [] (mkeys (fc_websocketWebClients f1)) f1 : (for_each (remove_ws_client TargetWeb) _ f1).2 = _) as E2.
  destruct (for_each _ _ f1) as [e2 f2]. cbn [snd] in E2 |- *. subst f2 f1.
  pose proof (dropped_all (fc_websocketAppClients f)) as D1. pose proof (dropped_all (fc_websocketWebClients f)) as D2.
  destruct f; cbn in *. by rewrite D1, D2.
Qed.

Lemma clear_devices_state f :
  (for_each (fun serial => unregisterDeviceInternal serial false) (mkeys (fc_devices f)) f).2 = f <| fc_devices := [] |>.
Proof.
  etransitivity; [exact (drop_devices [] (mkeys (fc_devices f)) f)|].
  pose proof (dropped_all (fc_devices f)) as D. destruct f; cbn in *. by rewrite D.
Qed.

Lemma clear_mirrors_state f : exists sel,
  (clearDaemonMirrors f).2 =
    f <| fc_wss := None |> <| fc_usbClients := [] |> <| fc_selectedClient := sel |>
      <| fc_websocketAppClients := [] |> <| fc_websocketWebClients := [] |> <| fc_devices := [] |>.
Proof.
  unfold clearDaemonMirrors. set (f0 := f <| fc_wss := None |>). destruct (clear_clients_state f0) as [sel E1]. exists sel.
  destruct (for_each unregisterUsbClientInternal _ _) as [e1 f1]. cbn [snd] in E1. pose proof (clear_ws_state f1) as E2.
  destruct (clearWebSocketClientMirrors f1) as [e2 f2]. cbn [snd] in E2. pose proof (clear_devices_state f2) as E3.
  destruct (for_each _ _ f2) as [e3 f3]. cbn [snd] in E3 |- *. by subst.
Qed.

(** The attempt that the timer starts, with good answers. *)
Lemma server_restored info f : fc_closed f = false -> fc_wss f = None ->
  let '(es, f') := facade_run (if fc_desiredWSServerStarted f && fc_enableWebSocket f then [OpWSAnswered info] else []) (restore_server f).2 in
  requests ((restore_server f).1 ++ es) =
    List.map FCall (if fc_desiredWSServerStarted f && fc_enableWebSocket f then [mkCall Protocol.startWSServer no_params] else []) /\
  fc_desiredRecoveryTimer f' = fc_desiredRecoveryTimer f /\
  fc_wss f' = (if fc_desiredWSServerStarted f && fc_enableWebSocket f
               then Some (js "ws://" ++ si_host info ++ js "/mdevices/page/android") else None).
Proof.
  intros Hc Hw. unfold restore_server, Facade.startWSServer. rewrite Hw, Hc, (bool_decide_eq_true_2 (None = None)) by done.
  rewrite andb_true_r, orb_false_r. destruct (fc_desiredWSServerStarted f), (fc_enableWebSocket f); cbn; try done.
  unfold startWSServer_answered. cbn. rewrite Hc. done.
Qed.

Lemma requests_app es1 es2 : requests (es1 ++ es2) = requests es1 ++ requests es2.
Proof. unfold requests. apply List.filter_app. Qed.

Lemma facade_run_cons op ops f :
  facade_run (op :: ops) f =
    ((facade_step op f).1 ++ (facade_run ops (facade_step op f).2).1, (facade_run ops (facade_step op f).2).2).
Proof. unfold facade_run. cbn. destruct (facade_step op f) as [e1 f1]. cbn. by destruct (for_each facade_step ops f1). Qed.

Definition watch_part (info : WebSocketServerInfo) (f : Facade) : list facade_op :=
  (if fc_desiredWatchAllClientsStarted f then [OpRestoreWatched] else []) ++
  (if fc_desiredWSServerStarted f && fc_enableWebSocket f then [OpWSAnswered info] else []).

Definition restored_wss (info : WebSocketServerInfo) (f : Facade) : option jstr :=
  if fc_desiredWSServerStarted f && fc_enableWebSocket f then Some (js "ws://" ++ si_host info ++ js "/mdevices/page/android") else None.

Lemma watchers_restored info f : fc_closed f = false -> fc_wss f = None ->
  let r := facade_run (watch_part info f) (restore_watchers f).2 in
  requests ((restore_watchers f).1 ++ r.1) =
    List.map FCall ((if fc_desiredWatchAllClientsStarted f then [mkCall startAllDeviceClientWatchers no_params] else []) ++
      (if fc_desiredWSServerStarted f && fc_enableWebSocket f then [mkCall Protocol.startWSServer no_params] else [])) /\
  fc_desiredRecoveryTimer r.2 = fc_desiredRecoveryTimer f /\ fc_wss r.2 = restored_wss info f.
Proof.
  intros Hc Hw. pose proof (server_restored info f Hc Hw) as H. unfold watch_part, restore_watchers, restored_wss.
  set (ws := if fc_desiredWSServerStarted f && fc_enableWebSocket f then [OpWSAnswered info] else []) in *.
  destruct (fc_desiredWatchAllClientsStarted f).
  - change ([OpRestoreWatched] ++ ws) with (OpRestoreWatched :: ws). rewrite facade_run_cons. cbn [facade_step fst snd].
    unfold restore_watched. destruct (facade_run ws (restore_server f).2) as [es f']. cbn [fst snd].
    destruct H as (H1 & H2 & H3). split; [|done]. rewrite requests_app, H1. done.
  - cbn [app]. destruct (facade_run ws (restore_server f).2) as [es f']. done.
Qed.

Lemma desired_restored ss info f : fc_closed f = false -> fc_wss f = None ->
  let r := facade_run (OpRestoreConnected :: desired_answers ss info f) f in
  requests r.1 = List.map FCall (desired_calls f) /\
  fc_desiredRecoveryTimer r.2 = fc_desiredRecoveryTimer f /\ fc_wss r.2 = restored_wss info f.
Proof.
  intros Hc Hw. unfold desired_answers, desired_calls. fold (watch_part info f). rewrite facade_run_cons. cbn [facade_step].
  unfold restore_connected. destruct (fc_desiredDeviceDiscoveryStarted f).
  - change ([OpRestoreDevices ss] ++ watch_part info f) with (OpRestoreDevices ss :: watch_part info f).
    rewrite facade_run_cons. cbn [facade_step fst snd]. unfold restore_devices.
    pose proof (upsert_devices_calm ss f) as C. pose proof (upsert_devices_requests ss f) as R.
    destruct (upsertDeviceSnapshots ss f) as [e1 f1]. destruct C as [_ C1 _ C3 C4 C5]. cbn [fst snd] in *.
    injection C4 as D1 D2 D3 D4. pose proof (watchers_restored info f1 ltac:(congruence) ltac:(congruence)) as H.
    assert (watch_part info f1 = watch_part info f /\ restored_wss info f1 = restored_wss info f) as [Ep Er]
      by (unfold watch_part, restored_wss; by rewrite D2, D3, D4).
    cbn zeta in H. rewrite Ep, Er, D2, D3, D4 in H. destruct (restore_watchers f1) as [e2 f2]. cbn [fst snd] in *.
    destruct H as (H1 & H2 & H3). split; [|by rewrite H2]. rewrite !requests_app in *. rewrite R. cbn. by f_equal.
  - cbn [app]. apply watchers_restored; done.
Qed.

(** The steps of an attempt after its timer leave the connector open and set no
    timer. *)
Definition attempt_op (op : facade_op) : bool :=
  match op with OpRestoreConnected | OpRestoreDevices _ | OpRestoreWatched | OpWSAnswered _ => true | _ => false end.

Lemma attempt_step_keeps op f : attempt_op op = true ->
  fc_closed (facade_step op f).2 = fc_closed f /\ fc_desiredRecoveryTimer (facade_step op f).2 = fc_desiredRecoveryTimer f.
Proof.
  assert (forall f, fc_closed (restore_server f).2 = fc_closed f /\ fc_desiredRecoveryTimer (restore_server f).2 = fc_desiredRecoveryTimer f) as Hs
    by (intros g; unfold restore_server, Facade.startWSServer; repeat case_match; done).
  assert (forall f, fc_closed (restore_watchers f).2 = fc_closed f /\ fc_desiredRecoveryTimer (restore_watchers f).2 = fc_desiredRecoveryTimer f) as Hw
    by (intros g; unfold restore_watchers; destruct (fc_desiredWatchAllClientsStarted g); [done|apply Hs]).
  destruct op; try done; intros _; cbn [facade_step snd].
  - unfold restore_connected. destruct (fc_desiredDeviceDiscoveryStarted f); [done|apply Hw].
  - unfold restore_devices. destruct (upsert_devices_calm ss f) as [_ C1 _ C3 _ _].
    destruct (upsertDeviceSnapshots ss f) as [e1 f1]. destruct (Hw f1) as [W1 W2]. destruct (restore_watchers f1). cbn [snd] in *. split; congruence.
  - unfold startWSServer_answered. by destruct (negb _).
Qed.

Lemma attempt_keeps ops : forall f, forallb attempt_op ops = true ->
  fc_closed (facade_run ops f).2 = fc_closed f /\ fc_desiredRecoveryTimer (facade_run ops f).2 = fc_desiredRecoveryTimer f.
Proof.
  induction ops as [|op ops IH]; intros f Ho; [done|]. cbn [forallb] in Ho. apply andb_true_iff in Ho as [H1 H2].
  rewrite facade_run_cons. cbn [snd]. destruct (attempt_step_keeps op f H1) as [E1 E2]. destruct (IH (facade_step op f).2 H2) as [I1 I2].
  split; congruence.
Qed.

(** A failed attempt schedules another one. *)
Lemma failure_retried t' t'' f : fc_closed f = false -> fc_desiredRecoveryTimer f = None ->
  fc_desiredRecoveryTimer (facade_run [OpRestoreFailed t'] f).2 = Some (t' + DESIRED_RECOVERY_RETRY_DELAY_MS) /\
  fc_desiredRecoveryTimer (facade_run [OpWSFailed t'; OpRestoreFailed t''] f).2 = Some (t' + DESIRED_RECOVERY_RETRY_DELAY_MS).
Proof.
  intros Hc Ht. split.
  - rewrite facade_run_cons. cbn. unfold restore_failed, scheduleDesiredRecovery. by rewrite Hc, Ht.
  - rewrite !facade_run_cons. cbn [facade_step snd]. unfold startWSServer_failed. destruct (clear_ws_calm f) as [_ C1 _ C3 _ _].
    destruct (clearWebSocketClientMirrors f) as [e1 f1]. cbn [snd] in *. cbn. unfold restore_failed, scheduleDesiredRecovery.
    rewrite C1, Hc, C3, Ht. cbn. by rewrite C1, Hc.
Qed.

Lemma attempt_ops n ss info f : forallb attempt_op (firstn n (OpRestoreConnected :: desired_answers ss info f)) = true.
Proof.
  unfold desired_answers. destruct (fc_desiredDeviceDiscoveryStarted f), (fc_desiredWatchAllClientsStarted f), (fc_desiredWSServerStarted f && fc_enableWebSocket f);
    destruct n as [|[|[|[|n]]]]; try done; by destruct n.
Qed.

(** C18: A connector recovers what its user asked for.  When its daemon is lost,
    all mirrors are emptied and a recovery is due, 100 ms later or at the time
    it was already due; the attempt connects again and then repeats, in this
    order and only as far as the user had asked for them, the discovery of
    devices, the watching of clients and the start of the WebSocket server.
    With good answers the server's address is known again and no timer is left.
    Whichever call of the attempt fails, after however many good answers to the
    ones before it, another attempt is due 100 ms after the failure; the failure
    of the WebSocket start, which is handled twice, still makes one. *)
Theorem lost_daemon_recovered now ss info f :
  fc_closed f = false -> fc_subscribed f = true ->
  let f1 := (facade_step (OpDisconnected now) f).2 in
  let due := default (now + DESIRED_RECOVERY_RETRY_DELAY_MS) (fc_desiredRecoveryTimer f) in
  let answers := OpRestoreConnected :: desired_answers ss info f in
  view_of f1 = mkView [] [] [] [] /\ fc_desiredRecoveryTimer f1 = Some due /\
  (forall t, due <= t ->
     let r := facade_run (OpTimer t :: answers) f1 in
     requests r.1 = FConnect :: List.map FCall (desired_calls f) /\
     fc_desiredRecoveryTimer r.2 = None /\
     fc_wss r.2 = (if fc_desiredWSServerStarted f && fc_enableWebSocket f
                   then Some (js "ws://" ++ si_host info ++ js "/mdevices/page/android") else None)) /\
  (forall t n t' t'', due <= t ->
     let f2 := (facade_run (OpTimer t :: firstn n answers) f1).2 in
     fc_desiredRecoveryTimer (facade_run [OpRestoreFailed t'] f2).2 = Some (t' + DESIRED_RECOVERY_RETRY_DELAY_MS) /\
     fc_desiredRecoveryTimer (facade_run [OpWSFailed t'; OpRestoreFailed t''] f2).2 = Some (t' + DESIRED_RECOVERY_RETRY_DELAY_MS)).
Proof.
  intros Hc Hs. cbn zeta. cbn [facade_step]. rewrite Hs. unfold handleDaemonDisconnected.
  destruct (clear_mirrors_state f) as [sel Hf]. destruct (clearDaemonMirrors f) as [e0 f0]. cbn [fst snd] in *.
  set (due := default _ _).
  assert (scheduleDesiredRecovery now f0 = f0 <| fc_desiredRecoveryTimer := Some due |>) as ->.
  { unfold scheduleDesiredRecovery. subst f0 due. cbn. rewrite Hc. destruct f. cbn in *. by destruct fc_desiredRecoveryTimer. }
  set (f1 := f0 <| fc_desiredRecoveryTimer := Some due |>).
  assert (fc_closed f1 = false /\ fc_wss f1 = None /\ fc_desiredRecoveryTimer f1 = Some due /\ view_of f1 = mkView [] [] [] [] /\
          desired_answers ss info f1 = desired_answers ss info f /\ desired_calls f1 = desired_calls f /\
          restored_wss info f1 = restored_wss info f) as (H1 & H2 & H3 & H4 & H5 & H6 & H7) by (by subst f1 f0).
  assert (forall t, due <= t -> facade_step (OpTimer t) f1 = ([FConnect], clearDesiredRecoveryTimer f1)) as Ht.
  { intros t Hle. cbn [facade_step]. rewrite H3. by rewrite (proj2 (Z.leb_le due t)). }
  split; [done|]. split; [done|]. split.
  - intros t Hle. rewrite facade_run_cons, (Ht t Hle). cbn [fst snd].
    pose proof (desired_restored ss info (clearDesiredRecoveryTimer f1) H1 H2) as R. cbn zeta in R.
    change (desired_answers ss info (clearDesiredRecoveryTimer f1)) with (desired_answers ss info f1) in R. rewrite H5 in R.
    change (desired_calls (clearDesiredRecoveryTimer f1)) with (desired_calls f1) in R. rewrite H6 in R.
    change (restored_wss info (clearDesiredRecoveryTimer f1)) with (restored_wss info f1) in R. rewrite H7 in R.
    destruct R as (R1 & R2 & R3). split; [|done]. rewrite requests_app, R1. done.
  - intros t n t' t'' Hle. rewrite (facade_run_cons (OpTimer t)), (Ht t Hle). cbn [fst snd].
    destruct (attempt_keeps _ (clearDesiredRecoveryTimer f1) (attempt_ops n ss info f)) as [A1 A2].
    apply failure_retried; [by rewrite A1|by rewrite A2].
Qed.

(** A connector that had asked for everything. *)
Definition busy_facade : Facade :=
  (facade_run [OpStartWSServer; OpWatchAll]
     (new_facade (mkFacadeOption (Some false) false (Some true) None None None None None None None None None None None)).2).2.

Lemma lost_daemon_recovered_witness :
  let r := facade_run [OpTimer 110; OpRestoreConnected; OpRestoreDevices []; OpRestoreWatched; OpWSAnswered (mkServerInfo 19783 (js "h") None)]
             (facade_step (OpDisconnected 5) busy_facade).2 in
  requests r.1 = [FConnect; FCall (connect_devices_call (NInt (-1)) None); FCall (mkCall startAllDeviceClientWatchers no_params);
                  FCall (mkCall Protocol.startWSServer no_params)].
Proof.
  destruct (lost_daemon_recovered 5 [] (mkServerInfo 19783 (js "h") None) busy_facade ltac:(vm_compute; reflexivity) ltac:(vm_compute; reflexivity))
    as (_ & _ & H & _).
  apply (H 110). vm_compute. discriminate.
Defined.
