(* ===== verification/Requests.v ===== *)
(** * The requests of a connector

    Every RPC a connector makes, from the calls the facade makes on its own to
    the methods of the mirrors it hands out, followed through the daemon client
    ([sendRpc] of [MultiplexerDaemonClient.ts]) and the text on the control
    socket to the validators of the daemon ([protocol/control.ts]).  The
    arguments are of the types the methods declare. *)

From Stdlib Require Import String.
From stdpp Require Import strings.
From S2P Require Import JsValue Json Protocol Message WebSocket Physical Host Mirror Facade FacadeRun Client.

#[local] Arguments mdel : simpl never.
#[local] Arguments mset : simpl never.
#[local] Arguments mget : simpl never.

(** ** Arguments of the declared types *)

(** A JavaScript string is a list of code units, and a Number that JSON keeps is
    neither NaN nor infinite nor [-0]. *)
Definition typed_opt {A} (f : A -> bool) (v : option A) : bool := match v with Some x => f x | None => true end.

(** [RequireMessageType]. *)
Inductive RequireMessage :=
  | InitializeMessage (data : num)
  | CustomizeMessage (type : jstr) (client_id session_id : num) (message : json) (sender : num).

Definition require_json (m : RequireMessage) : json :=
  match m with
  | InitializeMessage data => jobj [field "event" (jstring "Initialize"); field "data" (JNum data)]
  | CustomizeMessage type client_id session_id message sender =>
      jobj [field "event" (jstring "Customized");
            field "data" (jobj [field "type" (JStr type);
              field "data" (jobj [field "client_id" (JNum client_id); field "session_id" (JNum session_id); field "message" message]);
              field "sender" (JNum sender)])]
  end.

Definition require_typed (m : RequireMessage) : bool :=
  match m with
  | InitializeMessage data => num_ok data
  | CustomizeMessage type client_id session_id message sender =>
      wf_str type && num_ok client_id && num_ok session_id && wf_json message && num_ok sender
  end.

(** [MultiplexerDebugInfo], the diagnostics of the client's option. *)
Record MultiplexerDebugInfo := mkDebugInfo {
  di_protocolVersion : option num;
  di_clientVersion : option jstr;
  di_daemonVersion : option jstr;
  di_processId : option num;
  di_timestamp : option num
}.

Definition debug_json (i : MultiplexerDebugInfo) : json :=
  jobj [opt_field "protocolVersion" (JNum <$> di_protocolVersion i); opt_field "clientVersion" (JStr <$> di_clientVersion i);
        opt_field "daemonVersion" (JStr <$> di_daemonVersion i); opt_field "processId" (JNum <$> di_processId i);
        opt_field "timestamp" (JNum <$> di_timestamp i)].

Definition debug_typed (i : MultiplexerDebugInfo) : bool :=
  typed_opt num_ok (di_protocolVersion i) && typed_opt wf_str (di_clientVersion i) && typed_opt wf_str (di_daemonVersion i) &&
  typed_opt num_ok (di_processId i) && typed_opt num_ok (di_timestamp i).

(** ** The methods that make requests *)

(** The methods of the mirrors and those of the facade that do not change it. *)
Inductive api_call :=
  | DeviceStartWatch (d : MultiplexerDevice)
  | DeviceStopWatch (d : MultiplexerDevice)
  | DeviceDisconnect (d : MultiplexerDevice)
  | UsbSendRaw (message : RequireMessage) (c : MultiplexerUsbClient)
  | UsbSend (message : json) (c : MultiplexerUsbClient)
  | UsbCustomized (method : jstr) (params : json) (sessionId : num) (type : jstr) (id : Z) (c : MultiplexerUsbClient)
  | UsbClient (method : jstr) (params : json) (id : Z) (c : MultiplexerUsbClient)
  | UsbClose (c : MultiplexerUsbClient)
  | WsSend (message : jstr) (c : MultiplexerWebSocketClient)
  | WsCustomized (method : jstr) (params : json) (sessionId : num) (type : jstr) (id : Z) (c : MultiplexerWebSocketClient)
  | WsClose (c : MultiplexerWebSocketClient)
  | ConnectUsbClients (deviceId : jstr) (timeout : num) (waitTimeout : bool) (clientName : option jstr)
  | WatchNetworkDevice (ip : jstr) (port : option (list Z)).

Definition api_request (a : api_call) : rpc_call :=
  match a with
  | DeviceStartWatch d => md_startWatchClient d
  | DeviceStopWatch d => md_stopWatchClient d
  | DeviceDisconnect d => (md_disconnect d).1
  | UsbSendRaw message c => mu_sendRawMessage (require_json message) c
  | UsbSend message c => mu_sendMessage message c
  | UsbCustomized method params sessionId type id c => mu_sendCustomizedMessage method params sessionId type id c
  | UsbClient method params id c => mu_sendClientMessage method params id c
  | UsbClose c => mu_close c
  | WsSend message c => mw_sendMessage message c
  | WsCustomized method params sessionId type id c => mw_sendCustomizedMessage method params sessionId type id c
  | WsClose c => mw_close c
  | ConnectUsbClients deviceId timeout waitTimeout clientName => connectUsbClients_method deviceId timeout waitTimeout clientName
  | WatchNetworkDevice ip port => watchNetworkDeviceAtIp_method ip port
  end.

Definition int_ok (z : Z) : bool := num_ok (NInt z).

(** The types, and what the daemon asks beyond them: a device that is watched has
    a serial, an address is not empty, and no runtime has the id [-1]. *)
Definition api_typed (a : api_call) : bool :=
  match a with
  | DeviceStartWatch d | DeviceStopWatch d => wf_str (md_serial d) && negb (bool_decide (md_serial d = []))
  | DeviceDisconnect d => wf_str (md_serial d)
  | UsbSendRaw message c => require_typed message && int_ok (mu_clientId c)
  | UsbSend message c => wf_json message && int_ok (mu_clientId c) && negb (mu_clientId c =? -1)
  | UsbCustomized method params sessionId type id c =>
      wf_str method && wf_json params && num_ok sessionId && wf_str type && int_ok id && int_ok (mu_clientId c)
  | UsbClient method params id c => wf_str method && wf_json params && int_ok id && int_ok (mu_clientId c)
  | UsbClose c => int_ok (mu_clientId c)
  | WsSend message c => wf_str message && int_ok (mw_clientId c) && (jeq_str (mw_type c) (js "Driver") || negb (mw_clientId c =? -1))
  | WsCustomized method params sessionId type id c =>
      wf_str method && wf_json params && num_ok sessionId && wf_str type && int_ok id && int_ok (mw_clientId c)
  | WsClose c => int_ok (mw_clientId c)
  | ConnectUsbClients deviceId timeout _ clientName => wf_str deviceId && num_ok timeout && typed_opt wf_str clientName
  | WatchNetworkDevice ip port => wf_str ip && negb (bool_decide (ip = [])) && typed_opt (forallb int_ok) port
  end.

(** The arguments of the operations of a run. *)
Definition snapshots_typed (ss : list DeviceSnapshot) : bool := forallb (fun s => wf_str (ds_serial s)) ss.

Definition op_typed (op : facade_op) : bool :=
  match op with
  | OpHostEvent (EvSnapshot s) => snapshots_typed (sn_devices s)
  | OpRestoreDevices ss | OpDevicesAnswered ss => snapshots_typed ss
  | OpRegisterDevice d => wf_str (md_serial d)
  | OpConnectDevices timeout serial => num_ok timeout && typed_opt wf_str serial
  | OpSendWeb message => wf_str message
  | OpSendApp id message => int_ok id && negb (id =? -1) && wf_str message
  | _ => true
  end.

(** ** Single requests *)

(** What a request needs to pass: the client's own check, and JSON that keeps it. *)
Definition request_ok (c : rpc_call) : Prop := call_valid c = true /\ wf_json (rc_params c) = true.

Lemma num_ok_finite n : num_ok n = true -> num_isFinite n = true.
Proof. destruct n; [done|]. cbn -[num_isFinite num_toString parse_num_tok]. by intros [[H _]%andb_prop _]%andb_prop. Qed.

Lemma wf_object kvs : keys_ok [] (List.map fst kvs) = true -> Forall (fun p => wf_str p.1 = true /\ wf_json p.2 = true) kvs -> wf_json (JObj kvs) = true.
Proof.
  intros Hk H. cbn [wf_json]. rewrite Hk. cbn [andb]. apply forallb_forall. intros p Hp. rewrite List.Forall_forall in H. destruct (H p Hp) as [-> ->]. done.
Qed.

(** An object literal of the code: its keys are known, and its values are taken
    from the context. *)
Ltac leaf :=
  lazymatch goal with
  | |- wf_str (js _) = true => vm_compute; reflexivity
  | |- wf_json (JStr (js _)) = true => vm_compute; reflexivity
  | |- wf_json (JBool _) = true => reflexivity
  | |- wf_json JNull = true => reflexivity
  | |- wf_json (JNum ?n) = true => change (num_ok n = true); first [assumption|vm_compute; reflexivity]
  | |- wf_json (JStr ?s) = true => change (wf_str s = true); assumption
  | |- wf_json ?v = true => is_var v; assumption
  end.

Ltac literal :=
  unfold jobj, field, opt_field, jstring, jint in *; cbn [concat app fmap option_fmap option_map] in *;
  repeat (apply wf_object; [vm_compute; reflexivity|repeat first [apply List.Forall_nil|apply List.Forall_cons]; cbn [fst snd]; repeat split]); try leaf.

Ltac typed_args := repeat match goal with
  | H : _ && _ = true |- _ => apply andb_prop in H as [? ?]
  | H : negb _ = true |- _ => apply negb_true_iff in H
  | H : int_ok _ = true |- _ => unfold int_ok in H
  end.

Lemma customized_request_wf method params sessionId type id :
  wf_str method = true -> wf_json params = true -> num_ok sessionId = true -> wf_str type = true -> num_ok (NInt id) = true ->
  wf_json (customized_request method params sessionId type id) = true.
Proof. intros. unfold customized_request. literal. Qed.

Lemma with_reply_ok id message : num_ok (NInt id) = true -> wf_json message = true -> isRequireMessage (Some message) = true -> request_ok (send_with_reply id message).
Proof. intros. split; [by apply send_with_reply_valid|]. unfold send_with_reply. cbn [rc_params]. literal. Qed.

Lemma without_reply_ok target id message : num_ok (NInt id) = true -> wf_json message = true ->
  (target = "web" \/ target = "app" /\ id <> -1)%string -> request_ok (send_without_reply target id message).
Proof.
  intros Hi Hm Ht. split; [by apply send_without_reply_valid|]. unfold send_without_reply. cbn [rc_params]. destruct Ht as [->|[-> _]]; literal.
Qed.

Lemma close_call_ok id : num_ok (NInt id) = true -> request_ok (close_call id).
Proof. intros. split; [done|]. unfold close_call. cbn [rc_params]. literal. Qed.

Lemma require_ok m : require_typed m = true -> wf_json (require_json m) = true /\ isRequireMessage (Some (require_json m)) = true.
Proof.
  destruct m as [n|type cl ses m sender]; cbn [require_typed]; intros; typed_args.
  - split; [cbn [require_json]; literal|]. unfold isRequireMessage. cbn [require_json]. jsimp. cbn -[num_isFinite]. by apply num_ok_finite.
  - split; [cbn [require_json]; literal|]. unfold isRequireMessage. cbn [require_json]. jsimp. cbn -[num_isFinite]. by rewrite !num_ok_finite.
Qed.

Lemma device_ok m d : wf_str (md_serial d) = true -> wf_json (rc_params (device_call m d)) = true.
Proof. intros. unfold device_call. cbn [rc_params]. literal. Qed.

Lemma device_named m d : m = startDeviceClientWatcher \/ m = stopDeviceClientWatcher -> md_serial d <> [] -> call_valid (device_call m d) = true.
Proof. intros [-> | ->] H; unfold call_valid, device_call; cbn; by destruct (md_serial d). Qed.

Lemma connect_devices_ok timeout serial : num_ok timeout = true -> typed_opt wf_str serial = true -> request_ok (connect_devices_call timeout serial).
Proof.
  intros Ht Hs. unfold connect_devices_call. split; [|cbn [rc_params]; destruct serial; literal].
  unfold call_valid, isControlRpcParams. cbn [rc_method rc_params]. jsimp. cbn -[num_isFinite]. rewrite num_ok_finite by done. by destruct serial.
Qed.

Lemma ints_wf l : forallb int_ok l = true -> wf_json (JArr (List.map jint l)) = true /\ isNumberArray (Some (JArr (List.map jint l))) = true.
Proof.
  intros H. split; [|by induction l; [done|]; cbn in *; apply andb_prop in H as [_ H]; auto].
  cbn [wf_json]. induction l as [|z l IH]; [done|]. cbn [forallb List.map] in *. apply andb_prop in H as [H1 H2]. rewrite (IH H2). by rewrite andb_true_r.
Qed.

Lemma api_ok a : api_typed a = true -> request_ok (api_request a).
Proof.
  destruct a as [d|d|d|m c|m c|method params ses type id c|method params id c|c|m c|method params ses type id c|c|dev t w n|ip port];
    cbn [api_typed api_request]; intros; typed_args.
  - split; [apply device_named; [by left|by apply bool_decide_eq_false in H0]|by apply device_ok].
  - split; [apply device_named; [by right|by apply bool_decide_eq_false in H0]|by apply device_ok].
  - split; [done|by apply device_ok].
  - apply with_reply_ok; [done|by apply require_ok..].
  - apply without_reply_ok; [done|done|]. right. split; [done|by apply Z.eqb_neq].
  - apply with_reply_ok; [done|by apply customized_request_wf|by apply customized_request_valid, num_ok_finite].
  - apply with_reply_ok; [done|by apply customized_request_wf|by apply customized_request_valid].
  - by apply close_call_ok.
  - unfold mw_sendMessage. apply without_reply_ok; [done|done|]. destruct (jeq_str (mw_type c) _); [by left|right]. split; [done|]. by apply Z.eqb_neq, negb_true_iff.
  - apply with_reply_ok; [done|by apply customized_request_wf|by apply customized_request_valid, num_ok_finite].
  - by apply close_call_ok.
  - unfold connectUsbClients_method. split; [|cbn [rc_params]; destruct n; literal].
    unfold call_valid, isControlRpcParams. cbn [rc_method rc_params]. jsimp. cbn -[num_isFinite]. rewrite num_ok_finite by done. by destruct n.
  - unfold watchNetworkDeviceAtIp_method. apply bool_decide_eq_false in H1. destruct port as [l|]; cbn [fmap option_fmap option_map typed_opt] in *.
    + destruct (ints_wf l H0) as [W N]. split.
      * unfold call_valid, isControlRpcParams. cbn [rc_method rc_params]. jsimp. cbn [isOptional]. rewrite N. cbn. by destruct ip.
      * cbn [rc_params]. literal. exact W.
    + split; [|cbn [rc_params]; literal]. unfold call_valid. cbn. by destruct ip.
Qed.

(** ** The requests of a run *)

Definition devices_typed (f : Facade) : Prop := forall s d, mget s (fc_devices f) = Some d -> wf_str (md_serial d) = true.

Definition fine (e : facade_effect) : Prop := match e with FCall c => request_ok c | _ => True end.

(** A part of an operation: its requests pass, and the devices keep the strings
    they have. *)
Definition asks (f : Facade) (r : list facade_effect * Facade) : Prop := devices_typed f -> devices_typed r.2 /\ Forall fine r.1.

Lemma asks_quiet f es f' : fc_devices f' = fc_devices f -> Forall fine es -> asks f (es, f').
Proof. intros E H D. split; [|done]. cbn [snd]. intros s d. rewrite E. apply D. Qed.

Lemma asks_nothing f f' : fc_devices f' = fc_devices f -> asks f ([], f').
Proof. intros. by apply asks_quiet. Qed.

Lemma asks_seq f es1 f1 es2 f2 : asks f (es1, f1) -> asks f1 (es2, f2) -> asks f (es1 ++ es2, f2).
Proof. intros H1 H2 D. destruct (H1 D) as [D1 F1]. destruct (H2 D1) as [D2 F2]. split; [done|]. by apply List.Forall_app. Qed.

Lemma asks_each {A} (ok : A -> Prop) (step : A -> Facade -> list facade_effect * Facade) l f :
  (forall x f, ok x -> asks f (step x f)) -> (forall x, x ∈ l -> ok x) -> asks f (for_each step l f).
Proof.
  intros Hs. revert f. induction l as [|x l IH]; intros f Hl; cbn [for_each]; [by apply asks_nothing|].
  pose proof (Hs x f ltac:(apply Hl; left)) as H1. destruct (step x f) as [e1 f1]. pose proof (IH f1 ltac:(intros; apply Hl; by right)) as H2.
  destruct (for_each step l f1) as [e2 f2]. by apply asks_seq with f1.
Qed.

Lemma asks_all {A} (step : A -> Facade -> list facade_effect * Facade) l f : (forall x f, asks f (step x f)) -> asks f (for_each step l f).
Proof. intros H. by apply (asks_each (fun _ => True)). Qed.

(** The first part of an operation is done; the rest goes on. *)
Ltac ask H := match type of H with asks _ ?r => destruct r as [?e ?f] end.

Lemma register_asks d f : wf_str (md_serial d) = true -> asks f (Facade.registerDevice d f).
Proof.
  intros Hd. unfold Facade.registerDevice. destruct (mget (md_serial d) (fc_devices f)); [by apply asks_nothing|].
  intros D. split; [|repeat constructor]. intros s d'. cbn. rewrite mget_mset. case_decide; [naive_solver|apply D].
Qed.

Lemma unregister_asks serial force f : asks f (unregisterDeviceInternal serial force f).
Proof.
  unfold unregisterDeviceInternal. destruct (mget serial (fc_devices f)) as [d|] eqn:E; [|by apply asks_nothing]. intros D.
  assert (devices_typed (f <| fc_devices ::= mdel serial |>)) as D' by (intros s d'; cbn; rewrite mget_mdel; case_decide; [done|apply D]).
  destruct force; (split; [exact D'|]); cbn; repeat constructor. by apply device_ok, (D serial).
Qed.

Lemma unregister_usb_asks id f : asks f (unregisterUsbClientInternal id f).
Proof.
  unfold unregisterUsbClientInternal. destruct (mget id (fc_usbClients f)); [|by apply asks_nothing]. apply asks_quiet; [|repeat constructor].
  cbn. by destruct (bool_decide _).
Qed.

Lemma register_usb_asks c f : asks f (Facade.regiserUsbClient c f).
Proof. unfold Facade.regiserUsbClient. destruct (mget _ _); [by apply asks_nothing|]. apply asks_quiet; [done|repeat constructor]. Qed.

Lemma remove_ws_asks t id f : asks f (remove_ws_client t id f).
Proof. unfold remove_ws_client. apply asks_quiet; destruct t; try done; repeat constructor. Qed.

Lemma upsert_ws_asks t s f : asks f (upsertWebSocketSnapshot t s f).
Proof.
  unfold upsertWebSocketSnapshot. destruct (mget _ _); [by apply asks_nothing|]. apply asks_quiet; destruct t; try done; repeat constructor.
Qed.

Create HintDb requests.
#[local] Hint Resolve register_asks unregister_asks unregister_usb_asks register_usb_asks remove_ws_asks upsert_ws_asks asks_all : requests.
#[local] Hint Extern 1 (asks _ ([], _)) => by apply asks_nothing : requests.

Lemma upsert_devices_asks ss f : snapshots_typed ss = true -> asks f (upsertDeviceSnapshots ss f).
Proof.
  intros Hs. apply (asks_each (fun s => wf_str (ds_serial s) = true)).
  - intros s g Hw. unfold upsertDeviceSnapshot. destruct (mget _ _); auto with requests.
  - intros s Hin%list_elem_of_In%List.filter_In. unfold snapshots_typed in Hs. rewrite forallb_forall in Hs. destruct Hin as [Hin _]. exact (Hs s Hin).
Qed.

Lemma upsert_clients_asks ss f : asks f (upsertClientSnapshots ss f).
Proof. apply asks_all. intros s g. unfold upsertClientSnapshot. destruct (mget _ _); auto with requests. Qed.

Lemma sync_clients_asks ss f : asks f (syncClientSnapshots ss f).
Proof.
  unfold syncClientSnapshots. pose proof (upsert_clients_asks (filterClientSnapshots ss f) f) as H1. ask H1.
  match goal with |- context [for_each ?st ?l ?g] => assert (asks g (for_each st l g)) as H2 end.
  { apply asks_all. intros id g. case_bool_decide; auto with requests. }
  ask H2. by apply asks_seq with f0.
Qed.

Lemma sync_exposed_asks ss t f : asks f (sync_exposed ss t f).
Proof.
  unfold sync_exposed. destruct ss as [ss|]; [|auto with requests]. destruct (shouldExposeWebSocketState f); [|auto with requests].
  unfold syncWebSocketSnapshots. assert (asks f (for_each (upsertWebSocketSnapshot t) ss f)) as H1 by auto with requests. ask H1.
  match goal with |- context [for_each ?st ?l ?g] => assert (asks g (for_each st l g)) as H2 end.
  { apply asks_all. intros id g. case_bool_decide; auto with requests. }
  ask H2. by apply asks_seq with f0.
Qed.

Lemma snapshot_asks s f : snapshots_typed (sn_devices s) = true -> asks f (applySnapshot s f).
Proof.
  intros Hs. unfold applySnapshot, upsertDeviceSnapshotState.
  match goal with |- context [upsertDeviceSnapshots ?l f] => assert (asks f (upsertDeviceSnapshots l f)) as H1 end.
  { apply upsert_devices_asks. unfold snapshots_typed in *. rewrite forallb_forall in *. intros x [Hx _]%List.filter_In. auto. }
  ask H1. pose proof (sync_clients_asks (sn_clients s) f0) as H2. ask H2.
  pose proof (sync_exposed_asks (sn_websocketAppClients s) TargetApp f1) as H3. ask H3.
  pose proof (sync_exposed_asks (sn_websocketWebClients s) TargetWeb f2) as H4. ask H4. unfold removeStaleDevices.
  match goal with |- context [for_each ?st ?l ?g] => assert (asks g (for_each st l g)) as H5 end.
  { apply asks_all. intros id g. case_bool_decide; auto with requests. }
  ask H5. eauto 8 using asks_seq.
Qed.

Lemma clear_ws_asks f : asks f (clearWebSocketClientMirrors f).
Proof.
  unfold clearWebSocketClientMirrors. assert (asks f (for_each (remove_ws_client TargetApp) (mkeys (fc_websocketAppClients f)) f)) as H1 by auto with requests.
  ask H1. match goal with |- context [for_each ?st ?l ?g] => assert (asks g (for_each st l g)) as H2 by auto with requests end. ask H2. by apply asks_seq with f0.
Qed.

Lemma clear_mirrors_asks f : asks f (clearDaemonMirrors f).
Proof.
  unfold clearDaemonMirrors. set (f0 := f <| fc_wss := None |>). assert (asks f ([], f0)) as H0 by auto with requests.
  assert (asks f0 (for_each unregisterUsbClientInternal (mkeys (fc_usbClients f0)) f0)) as H1 by auto with requests. ask H1.
  pose proof (clear_ws_asks f1) as H2. ask H2.
  match goal with |- context [for_each ?st ?l ?g] => assert (asks g (for_each st l g)) as H3 by auto with requests end. ask H3.
  change (e ++ e0 ++ e1) with ([] ++ e ++ e0 ++ e1). eauto using asks_seq.
Qed.

Lemma host_event_asks e f : op_typed (OpHostEvent e) = true -> asks f (applyHostEvent e f).
Proof.
  destruct e as [code m d i|n m c|s|c|src id m]; cbn [op_typed applyHostEvent]; intros Ht; [|..|].
  - apply asks_quiet; [done|repeat constructor].
  - apply asks_quiet; [done|]. destruct (fc_reportService f); repeat constructor.
  - by apply snapshot_asks.
  - unfold applyLegacyOwnershipChange. cbv zeta. destruct (bool_decide (fc_multiOpenStatus f = _)); [by apply asks_nothing|].
    apply asks_quiet; [|repeat constructor]. by destruct (bool_decide (_ = unattached)).
  - assert (asks f (handleUsbMessage id m f)) as Hu.
    { unfold handleUsbMessage. destruct (mget id (fc_usbClients f)); [|by apply asks_nothing].
      destruct (mu_handleMessage m _) as [es []]; (apply asks_quiet; [done|repeat constructor]). }
    destruct src; [done| |]; (destruct (shouldExposeWebSocketState f); [apply asks_quiet; [done|repeat constructor]|by apply asks_nothing]).
Qed.

(** A single request without parameters. *)
Lemma plain_asks m f f' : isControlRpcParams m (Some no_params) = true -> fc_devices f' = fc_devices f -> asks f ([FCall (mkCall m no_params)], f').
Proof. intros Hm Hd. apply asks_quiet; [done|]. repeat constructor. exact Hm. Qed.

Lemma start_ws_asks f : asks f (Facade.startWSServer f).
Proof. unfold Facade.startWSServer. destruct (negb _ || _); [auto with requests|by apply plain_asks]. Qed.

Lemma restore_server_asks f : asks f (restore_server f).
Proof. unfold restore_server. destruct (_ && _); [apply start_ws_asks|auto with requests]. Qed.

Lemma restore_watchers_asks f : asks f (restore_watchers f).
Proof. unfold restore_watchers. destruct (fc_desiredWatchAllClientsStarted f); [by apply plain_asks|apply restore_server_asks]. Qed.

Lemma connect_asks timeout serial f f' : num_ok timeout = true -> typed_opt wf_str serial = true -> fc_devices f' = fc_devices f ->
  asks f ([FCall (connect_devices_call timeout serial)], f').
Proof. intros. apply asks_quiet; [done|]. constructor; [by apply connect_devices_ok|constructor]. Qed.

#[local] Hint Resolve start_ws_asks restore_server_asks restore_watchers_asks upsert_clients_asks clear_ws_asks clear_mirrors_asks : requests.

Lemma schedule_asks now f : asks f ([], scheduleDesiredRecovery now f).
Proof. apply asks_nothing, schedule_mirrors. Qed.

Lemma step_asks op f : op_typed op = true -> asks f (facade_step op f).
Proof.
  destruct op; intros Ht; cbn [facade_step]; auto using schedule_asks, upsert_devices_asks with requests; cbn [op_typed] in Ht; typed_args.
  - destruct (fc_subscribed f); [by apply host_event_asks|auto with requests].
  - destruct (fc_subscribed f); [|auto with requests]. unfold handleDaemonDisconnected. pose proof (clear_mirrors_asks f) as H1. ask H1.
    rewrite <- (app_nil_r e). apply asks_seq with f0; [done|apply schedule_asks].
  - destruct (fc_desiredRecoveryTimer f); [|auto with requests]. destruct (_ <=? now); [|auto with requests]. apply asks_quiet; [done|repeat constructor].
  - unfold restore_connected. destruct (fc_desiredDeviceDiscoveryStarted f); [by apply connect_asks|auto with requests].
  - unfold restore_devices. pose proof (upsert_devices_asks ss f Ht) as H1. ask H1. pose proof (restore_watchers_asks f0) as H2. ask H2. by apply asks_seq with f0.
  - unfold startWSServer_answered. destruct (negb (fc_closed f)); auto with requests.
  - unfold startWSServer_failed. pose proof (clear_ws_asks f) as H1. ask H1. rewrite <- (app_nil_r e). apply asks_seq with f0; [done|apply schedule_asks].
  - by apply connect_asks.
  - unfold Facade.unregisterDevice. destruct (negb force); auto with requests.
  - unfold Facade.unregiserUsbClient. destruct (negb force); auto with requests.
  - unfold disableAllClients. destruct (negb force); [auto with requests|by apply plain_asks].
  - by apply plain_asks.
  - unfold selecteUsbClient. destruct (mget id (fc_usbClients f)); auto with requests.
  - unfold listen. destruct (mget id (fc_usbClients f)); auto with requests.
  - unfold sendMessageToWeb. apply asks_quiet; [done|]. destruct (web_socket_ready f); [|constructor].
    constructor; [|constructor]. apply without_reply_ok; [done|done|by left].
  - unfold sendMessageToApp. apply asks_quiet; [done|]. destruct (web_socket_ready f); [|constructor].
    constructor; [|constructor]. apply without_reply_ok; [done|done|]. right. split; [done|by apply Z.eqb_neq].
  - unfold close_begins. destruct (fc_closed f); [auto with requests|]. cbn. apply asks_quiet; [done|]. destruct (fc_enableDebugMode f); repeat constructor.
  - apply asks_quiet; [done|repeat constructor].
Qed.

Lemma run_asks ops f : forallb op_typed ops = true -> asks f (facade_run ops f).
Proof.
  intros Ho. apply (asks_each (fun op => op_typed op = true)); [intros; by apply step_asks|]. intros op Hin%list_elem_of_In.
  rewrite forallb_forall in Ho. by apply Ho.
Qed.

Lemma new_facade_asks o : devices_typed (new_facade o).2 /\ Forall fine (new_facade o).1.
Proof.
  unfold new_facade. destruct (default false (fo_manualConnect o)); (split; [by intros s d|]); [constructor|].
  cbn. constructor; [by apply connect_devices_ok|constructor].
Qed.

(** ** Diagnostics *)

Definition debug_numbers : list jstr := [js "protocolVersion"; js "processId"; js "timestamp"].
Definition debug_strings : list jstr := [js "clientVersion"; js "daemonVersion"].

Definition debug_field (p : jstr * json) : Prop :=
  wf_json p.2 = true /\ (p.1 ∈ debug_numbers /\ isNumber (Some p.2) = true \/ p.1 ∈ debug_strings /\ isString (Some p.2) = true).

Definition debug_object (kvs : list (jstr * json)) : Prop := NoDup (mkeys kvs) /\ forall k v, mget k kvs = Some v -> debug_field (k, v).

Lemma debug_mset k v kvs : debug_field (k, v) -> debug_object kvs -> debug_object (mset k v kvs).
Proof.
  intros Hf [Hn H]. split; [auto with mux|]. intros j w. rewrite mget_mset. case_decide; [by intros [= <-]; subst|apply H].
Qed.

Lemma debug_keys_ok prev ks : NoDup (prev ++ ks) -> (forall k, k ∈ prev ++ ks -> k ∈ debug_numbers ++ debug_strings) -> keys_ok prev ks = true.
Proof.
  assert (forallb (fun k => forallb (fun p => negb (key_before k p)) (debug_numbers ++ debug_strings)) (debug_numbers ++ debug_strings) = true) as Hb
    by (vm_compute; reflexivity). rewrite forallb_forall in Hb.
  revert prev. induction ks as [|k ks IH]; intros prev Hnd Hk; [done|]. cbn [keys_ok]. rewrite !andb_true_iff, negb_true_iff. split; [split|].
  - apply bool_decide_eq_false. intros Hin. apply list.NoDup_app in Hnd as (_ & Hd & _). apply (Hd k Hin). left.
  - apply forallb_forall. intros p Hp%list_elem_of_In. assert (k ∈ debug_numbers ++ debug_strings) as Hkk by (apply Hk, elem_of_app; right; left).
    apply list_elem_of_In, Hb in Hkk. rewrite forallb_forall in Hkk. apply Hkk, list_elem_of_In, Hk, elem_of_app. by left.
  - apply IH; rewrite <- app_assoc; done.
Qed.

Lemma debug_object_ok kvs : debug_object kvs -> wf_json (JObj kvs) = true /\ isMultiplexerDebugInfo (Some (JObj kvs)) = true.
Proof.
  intros [Hn H]. assert (forall p, p ∈ kvs -> debug_field p) as Hf by (intros [k v] Hin; by apply H, In_mget).
  split.
  - apply wf_object.
    + apply debug_keys_ok; [done|]. intros k Hin. apply list_elem_of_fmap in Hin as ([k' v] & -> & Hin). apply elem_of_app.
      destruct (Hf _ Hin) as [_ [[? _]|[? _]]]; [by left|by right].
    + apply List.Forall_forall. intros p Hin%list_elem_of_In. destruct (Hf _ Hin) as [Hw Hk]. split; [|done].
      assert (forallb wf_str (debug_numbers ++ debug_strings) = true) as Hs by (vm_compute; reflexivity). rewrite forallb_forall in Hs.
      apply Hs, list_elem_of_In, elem_of_app. naive_solver.
  - assert (forall k, k ∈ debug_numbers -> isOptional (jget k (Some (JObj kvs))) isNumber = true) as H1.
    { intros k Hk. unfold jget, isOptional. destruct (mget k kvs) as [v|] eqn:E; [|done]. destruct (H k v E) as [_ [[_ ?]|[Hs _]]]; [done|].
      exfalso. revert Hk Hs. cbn [fst]. unfold debug_numbers, debug_strings. rewrite !elem_of_cons, !elem_of_nil. intros [->|[->|[->|[]]]] [X|[X|[]]]; vm_compute in X; discriminate. }
    assert (forall k, k ∈ debug_strings -> isOptional (jget k (Some (JObj kvs))) isString = true) as H2.
    { intros k Hk. unfold jget, isOptional. destruct (mget k kvs) as [v|] eqn:E; [|done]. destruct (H k v E) as [_ [[Hs _]|[_ ?]]]; [|done].
      exfalso. revert Hk Hs. cbn [fst]. unfold debug_numbers, debug_strings. rewrite !elem_of_cons, !elem_of_nil. intros [->|[->|[]]] [X|[X|[X|[]]]]; vm_compute in X; discriminate. }
    unfold isMultiplexerDebugInfo. cbn [isRecord andb]. rewrite !H1, !H2; [done|..]; unfold debug_numbers, debug_strings; rewrite !elem_of_cons; tauto.
Qed.

Lemma debug_fold kvs acc : Forall debug_field kvs -> debug_object acc -> debug_object (fold_left (fun acc p => mset p.1 p.2 acc) kvs acc).
Proof. intros H. revert acc. induction H as [|[k v] kvs Hp H IH]; intros acc Ha; [done|]. cbn [fold_left]. by apply IH, debug_mset. Qed.

Lemma debug_number k n : k ∈ debug_numbers -> num_ok n = true -> debug_field (k, JNum n).
Proof. intros Hk Hn. split; [done|]. left. split; [done|]. by apply num_ok_finite. Qed.

Lemma debug_string k s : k ∈ debug_strings -> wf_str s = true -> debug_field (k, JStr s).
Proof. intros Hk Hs. split; [done|]. by right. Qed.

Ltac debug_key := unfold debug_numbers, debug_strings; rewrite !elem_of_cons; tauto.

Definition debug_kvs (i : MultiplexerDebugInfo) : list (jstr * json) := match debug_json i with JObj kvs => kvs | _ => [] end.

Lemma debug_json_fields i : debug_typed i = true -> Forall debug_field (debug_kvs i).
Proof.
  destruct i as [a b c d e]. unfold debug_typed. cbn [di_protocolVersion di_clientVersion di_daemonVersion di_processId di_timestamp]. intros. typed_args.
  unfold debug_kvs, debug_json, jobj. cbn [concat di_protocolVersion di_clientVersion di_daemonVersion di_processId di_timestamp]. rewrite app_nil_r.
  assert (forall k o, js k ∈ debug_numbers -> typed_opt num_ok o = true -> Forall debug_field (opt_field k (JNum <$> o))) as Hn
    by (intros k [n|] Hk Ho; [apply List.Forall_cons; [by apply debug_number|]|]; apply List.Forall_nil).
  assert (forall k o, js k ∈ debug_strings -> typed_opt wf_str o = true -> Forall debug_field (opt_field k (JStr <$> o))) as Hs
    by (intros k [n|] Hk Ho; [apply List.Forall_cons; [by apply debug_string|]|]; apply List.Forall_nil).
  repeat (apply List.Forall_app; split); [apply Hn|apply Hs|apply Hs|apply Hn|apply Hn]; try done; debug_key.
Qed.

(** A client whose option carries diagnostics of the declared type. *)
Definition client_typed (dbg : option MultiplexerDebugInfo) (c : DaemonClient) : Prop :=
  typed_opt debug_typed dbg = true /\ int_ok (dc_pid c) = true /\ int_ok (dc_nextRpcId c) = true /\
  exists rpcTimeout report facade pid, dc_debugInfo c = dc_debugInfo (new_client rpcTimeout report facade (debug_json <$> dbg) pid).

Lemma diagnostics_ok dbg c now : client_typed dbg c -> int_ok now = true ->
  match client_debugInfo now c with Some d => wf_json d = true /\ isMultiplexerDebugInfo (Some d) = true | None => True end.
Proof.
  intros (Ht & Hp & _ & (rt & rp & fo & pid & E)) Hnow. unfold client_debugInfo. rewrite E. destruct dbg as [i|]; [|done]. cbn [typed_opt] in Ht.
  cbn [fmap option_fmap option_map new_client dc_debugInfo]. change (truthy (Some (debug_json i))) with true. cbn [truthy spread_with].
  change (match debug_json i with JObj kvs => kvs | _ => [] end) with (debug_kvs i). apply debug_object_ok. cbn [spread]. apply debug_fold.
  { repeat (apply List.Forall_cons; [apply debug_number; [debug_key|done]|]). apply List.Forall_nil. }
  apply debug_fold; [by apply debug_json_fields|]. cbn [spread].
  assert (forall v, debug_field (js "protocolVersion", v) -> debug_object [(js "protocolVersion", v)]) as H1.
  { intros v Hv. apply (debug_mset (js "protocolVersion") v []); [done|]. split; [apply NoDup_nil_2|done]. }
  apply H1. pose proof (debug_json_fields i Ht) as Hf. unfold jget, debug_kvs in *. destruct (debug_json i) as [| | | | |kvs]; try (by apply (debug_number (js _)); [debug_key|]).
  destruct (mget (js "protocolVersion") kvs) as [v|] eqn:Ev; [|by apply (debug_number (js _)); [debug_key|]].
  apply mget_In, list_elem_of_In in Ev. rewrite List.Forall_forall in Hf. specialize (Hf _ Ev). destruct v; try done. by apply (debug_number (js _)); [debug_key|].
Qed.

(** ** What the daemon reads *)

Lemma request_wf id m params dbg : num_ok (NInt id) = true -> wf_json params = true ->
  match dbg with Some d => wf_json d = true | None => True end -> wf_json (request_json (NInt id) m params dbg) = true.
Proof.
  intros Hi Hp Hd. unfold request_json. destruct dbg as [d|]; literal; destruct m; vm_compute; reflexivity.
Qed.

(** The request of one RPC. *)
Lemma request_read c dbg client now : request_ok c -> client_typed dbg client -> int_ok now = true ->
  assertValidRpcParams (rc_method c) (rc_params c) = None /\
  forall t, dc_closed client = false -> dc_status client = cconnected -> dc_controlTransport client = Some t ->
    exists message client', sendRpc (rc_method c) (rc_params c) true now client = (None, [SendOn t message], client') /\
      decode_request (parseJsonValue (stringify message)) = Some (mkRequest (NInt (dc_nextRpcId client)) (rc_method c) (rc_params c)).
Proof.
  intros [Hv Hw] Hc Hnow. split; [unfold assertValidRpcParams; unfold call_valid in Hv; by rewrite Hv|]. intros t H1 H2 H3.
  unfold sendRpc. rewrite H1, H2. cbn [negb bool_decide]. rewrite bool_decide_eq_true_2 by done. cbn [negb].
  set (c1 := client <| dc_nextRpcId := _ |>). change (client_debugInfo now c1) with (client_debugInfo now client).
  match goal with |- context [match dc_controlTransport ?x with _ => _ end] => change (dc_controlTransport x) with (dc_controlTransport client) end. rewrite H3. do 2 eexists. split; [reflexivity|].
  pose proof (diagnostics_ok dbg client now Hc Hnow) as Hd. unfold parseJsonValue. rewrite parse_stringify.
  - cbn [default]. apply request_decodes; [done|]. unfold isOptional. by destruct (client_debugInfo now client); [apply Hd|].
  - apply request_wf; [apply Hc|done|]. destruct (client_debugInfo now client); [apply Hd|done].
Qed.

(** The requests of a connector that was made with [o] and has come through
    [ops]: those of the facade itself, and those of the methods the application
    calls on it and on the mirrors. *)
Inductive connector_request (o : FacadeOption) (ops : list facade_op) : rpc_call -> Prop :=
  | by_facade c : forallb op_typed ops = true -> FCall c ∈ (new_facade o).1 ++ (facade_run ops (new_facade o).2).1 -> connector_request o ops c
  | by_method a : api_typed a = true -> connector_request o ops (api_request a).

(** C36: The daemon accepts every request a connector makes.  Whatever happens to
    a connector, each RPC that the facade makes on its own and each that a method
    of the facade or of a device or client mirror makes passes the client's own
    check, and a client that is connected sends for it one message on its
    transport, which the daemon, reading the text of it, validates and decodes to
    the client's next id, the same method and the same parameters.  The arguments
    are of their declared types: strings, JSON values, and Numbers that JSON keeps
    (not NaN, an infinity or [-0]; ids and times within the safe integers),
    messages of [RequireMessageType] and diagnostics of [MultiplexerDebugInfo].
    Beyond the types, a device that is watched has a serial that is not empty, an
    address that is watched is not empty, and a message without reply is for no
    runtime of id [-1]. *)
Theorem requests_accepted o ops c dbg client now : connector_request o ops c -> client_typed dbg client -> int_ok now = true ->
  assertValidRpcParams (rc_method c) (rc_params c) = None /\
  forall t, dc_closed client = false -> dc_status client = cconnected -> dc_controlTransport client = Some t ->
    exists message client', sendRpc (rc_method c) (rc_params c) true now client = (None, [SendOn t message], client') /\
      decode_request (parseJsonValue (stringify message)) = Some (mkRequest (NInt (dc_nextRpcId client)) (rc_method c) (rc_params c)).
Proof.
  intros Hr Hc Hnow. apply (request_read c dbg); [|done|done]. destruct Hr as [c Ho Hin|a Ha]; [|by apply api_ok].
  destruct (new_facade_asks o) as [D F0]. destruct (run_asks ops (new_facade o).2 Ho D) as [_ F1].
  assert (fine (FCall c)) as H; [|exact H]. apply elem_of_app in Hin as [Hin|Hin]; apply list_elem_of_In in Hin.
  - rewrite List.Forall_forall in F0. by apply F0.
  - rewrite List.Forall_forall in F1. by apply F1.
Qed.

Definition web_option : FacadeOption :=
  mkFacadeOption (Some false) false (Some true) None None None None None None None None None None None.

(** A server that is up, and messages to a runtime and to the front ends. *)
Definition messaging : list facade_op :=
  [OpStartWSServer; OpWSAnswered (mkServerInfo 19783 (js "10.0.0.2:19783") None); OpSendApp 5 (js "x"); OpSendWeb (js "y")].

Definition diagnosing_client : DaemonClient :=
  (new_client None None (JObj []) (debug_json <$> Some (mkDebugInfo None (Some (js "1.0")) None None None)) 7)
    <| dc_status := cconnected |> <| dc_controlTransport := Some 3 |>.

Lemma requests_accepted_witness :
  let c := send_without_reply "app" 5 (JStr (js "x")) in
  connector_request web_option messaging c /\
  exists message client', sendRpc (rc_method c) (rc_params c) true 100 diagnosing_client = (None, [SendOn 3 message], client') /\
    decode_request (parseJsonValue (stringify message)) = Some (mkRequest (NInt 1) (rc_method c) (rc_params c)).
Proof.
  intros c. assert (connector_request web_option messaging c) as Hc.
  { apply by_facade; [vm_compute; reflexivity|]. right. right. left. }
  split; [exact Hc|].
  refine (proj2 (requests_accepted web_option messaging c (Some (mkDebugInfo None (Some (js "1.0")) None None None)) diagnosing_client 100 Hc _ _) 3 _ _ _);
    [|vm_compute; reflexivity|reflexivity|reflexivity|reflexivity].
  split; [vm_compute; reflexivity|]. split; [vm_compute; reflexivity|]. split; [vm_compute; reflexivity|]. exists None, None, (JObj []), 7. reflexivity.
Defined.
