(* ===== verification/Trace.v ===== *)
(** * The connection trace recorder

    Models [trace/ConnectionTraceRecorder.ts]: the numbered nodes the daemon
    writes about devices, sockets and clients, the buffer of recent ones, and
    the ids that tie the nodes of one connection attempt together.  The text of
    the clock and the ids of [randomUUID] are arguments; what a recorder writes
    and whom it calls are effects. *)

From Stdlib Require Import SpecFloat String.
From stdpp Require Import strings.
From S2P Require Import JsValue Json Protocol Physical Entry.

Definition TRACE_SCHEMA_VERSION : jstr := js "0.1".
Definition DEFAULT_TRACE_BUFFER_SIZE : num := NInt 2000.

(** ** Data *)

(** An object literal before it is compacted: values may be [undefined]. *)
Abbreviation metadata := (list (jstr * jsval)) (only parsing).

Record ConnectionTraceNode := mkNode {
  tn_sequence : Z;
  tn_deviceId : option jstr;
  tn_event : jstr;
  tn_timestamp : jstr;
  tn_traceSchemaVersion : jstr;
  tn_connectionAttemptId : option jstr;
  tn_metadata : option (list (jstr * json))
}.

(** The line of a sink. *)
Definition node_json (n : ConnectionTraceNode) : json :=
  jobj [field "sequence" (jint (tn_sequence n)); opt_field "deviceId" (JStr <$> tn_deviceId n); field "event" (JStr (tn_event n));
        field "timestamp" (JStr (tn_timestamp n)); field "traceSchemaVersion" (JStr (tn_traceSchemaVersion n));
        opt_field "connectionAttemptId" (JStr <$> tn_connectionAttemptId n); opt_field "metadata" (JObj <$> tn_metadata n)].

Definition trace_line (n : ConnectionTraceNode) : jstr := stringify (node_json n) ++ [10].

Inductive sink_kind := StreamTraceSink | FileTraceSink.

(** [sk_throws] says for which nodes [stream.write] or the [JSON.stringify] before
    it throws; it may tell any node from any other, by their numbers. *)
Record ConnectionTraceSink := mkSink { sk_kind : sink_kind; sk_closed : bool; sk_throws : ConnectionTraceNode -> bool }.

Record ClientTraceInfo := mkTraceInfo {
  ti_deviceId : option jstr; ti_port : option Z; ti_connectionAttemptId : option jstr }.

Record UsbConnectionContext := mkUsbContext {
  ux_deviceId : option jstr; ux_port : option Z; ux_clientId : option Z; ux_connectionAttemptId : option jstr }.

Record Recorder := mkRecorder {
  tr_sink : ConnectionTraceSink;
  tr_maxBufferedNodes : num;
  tr_nextSequenceValue : Z;
  tr_connectionAttemptByPort : list (jstr * jstr);
  tr_usbClientConnections : list (Z * ClientTraceInfo);
  tr_appClientConnections : list (Z * ClientTraceInfo);
  tr_listeners : list Z;
  tr_recentNodes : list ConnectionTraceNode;
  tr_closed : bool;
  tr_closePromise : bool
}.

#[export] Instance eta_recorder : Eta Recorder := fun r =>
  mkRecorder (tr_sink r) (tr_maxBufferedNodes r) (tr_nextSequenceValue r) (tr_connectionAttemptByPort r)
    (tr_usbClientConnections r) (tr_appClientConnections r) (tr_listeners r) (tr_recentNodes r) (tr_closed r) (tr_closePromise r).

Inductive trace_effect :=
  | TWrite (n : ConnectionTraceNode)               (* a line of the sink *)
  | TWriteError (n : ConnectionTraceNode)          (* the warning for a write that threw *)
  | TNotify (listener : Z) (n : ConnectionTraceNode)
  | TEndSink.                                      (* stream.end of a file *)

(** [Math.max(0, n)]. *)
Definition max0 (n : num) : num :=
  match n with
  | NDbl S754_nan => n
  | _ => if num_leb n (NInt 0) then NInt 0 else n
  end.

Definition new_recorder (sink : ConnectionTraceSink) (maxBufferedNodes : num) : Recorder :=
  mkRecorder sink (max0 maxBufferedNodes) 0 [] [] [] [] [] false false.

Definition R := Recorder -> list trace_effect * Recorder.

(** ** Listeners and recent nodes *)

Definition addListener (l : Z) (r : Recorder) : Recorder := r <| tr_listeners ::= sadd l |>.
Definition removeListener (l : Z) (r : Recorder) : Recorder := r <| tr_listeners ::= sdel l |>.

(** [slice(-limit)] for a positive limit. *)
Definition getRecentNodes (limit : option Z) (r : Recorder) : list ConnectionTraceNode :=
  match limit with
  | Some k => if 0 <? k then drop (List.length (tr_recentNodes r) - Z.to_nat k) (tr_recentNodes r) else tr_recentNodes r
  | None => tr_recentNodes r
  end.

(** [sink.write(node)]; [None] is an exception. *)
Definition sink_write (n : ConnectionTraceNode) (s : ConnectionTraceSink) : option (list trace_effect) :=
  let write := if sk_throws s n then None else Some [TWrite n] in
  match sk_kind s with
  | StreamTraceSink => write
  | FileTraceSink => if sk_closed s then Some [] else write
  end.

Definition sink_close (s : ConnectionTraceSink) : list trace_effect * ConnectionTraceSink :=
  match sk_kind s with
  | StreamTraceSink => ([], s)
  | FileTraceSink => if sk_closed s then ([], s) else ([TEndSink], mkSink FileTraceSink true (sk_throws s))
  end.

Definition close_recorder : R := fun r =>
  if tr_closePromise r then ([], r)
  else
    let '(es, sink) := sink_close (tr_sink r) in
    (es, r <| tr_closed := true |> <| tr_listeners := [] |> <| tr_connectionAttemptByPort := [] |>
           <| tr_usbClientConnections := [] |> <| tr_appClientConnections := [] |> <| tr_recentNodes := [] |>
           <| tr_sink := sink |> <| tr_closePromise := true |>).

(** ** Nodes *)

Definition nextSequence (r : Recorder) : Z * Recorder :=
  let r := r <| tr_nextSequenceValue ::= js_succ |> in (tr_nextSequenceValue r, r).

(** [{ ...base, ...metadata }]. *)
Definition spread_metadata (base : metadata) (more : option metadata) : option metadata :=
  Some (fold_left (fun m kv => mset kv.1 kv.2 m) (default [] more) base).

Definition compactMetadata (m : option metadata) : option (list (jstr * json)) :=
  match omap (fun kv => (fun v => (kv.1, v)) <$> kv.2) (default [] m) with
  | [] => None
  | compacted => Some compacted
  end.

Definition pushRecentNode (n : ConnectionTraceNode) (r : Recorder) : Recorder :=
  if num_leb (tr_maxBufferedNodes r) (NInt 0) then r
  else
    let r := r <| tr_recentNodes ::= (fun l => l ++ [n]) |> in
    if num_ltb (tr_maxBufferedNodes r) (NInt (Z.of_nat (List.length (tr_recentNodes r))))
    then r <| tr_recentNodes ::= tail |> else r.

Definition emitNode (n : ConnectionTraceNode) (r : Recorder) : list trace_effect :=
  List.map (fun l => TNotify l n) (tr_listeners r).

Definition recordNode (now : jstr) (event : string) (deviceId : option jstr) (meta : option metadata) (attempt : option jstr) : R := fun r =>
  let '(sequence, r) := nextSequence r in
  let node := mkNode sequence deviceId (js event) now TRACE_SCHEMA_VERSION attempt (compactMetadata meta) in
  if tr_closed r then ([], r)
  else
    let r' := pushRecentNode node r in
    let es := match sink_write node (tr_sink r) with Some es => es | None => [TWriteError node] end in
    (es ++ emitNode node r', r').

(** ** Connection attempts *)

Definition portKey (deviceId : jstr) (port : Z) : jstr := deviceId ++ js ":" ++ show_int port.

Definition startConnectionAttempt (uuid : jstr) (deviceId : jstr) (port : Z) (r : Recorder) : jstr * Recorder :=
  (uuid, r <| tr_connectionAttemptByPort ::= mset (portKey deviceId port) uuid |>).

Definition findConnectionAttempt (deviceId : jstr) (port : Z) (r : Recorder) : option jstr :=
  mget (portKey deviceId port) (tr_connectionAttemptByPort r).

Definition resolveConnectionAttempt (uuid : jstr) (deviceId : jstr) (port : Z) (r : Recorder) : jstr * Recorder :=
  match findConnectionAttempt deviceId port r with
  | Some a => (a, r)
  | None => startConnectionAttempt uuid deviceId port r
  end.

Fixpoint startsWith (s p : jstr) : bool :=
  match p, s with
  | [], _ => true
  | c :: p, d :: s => (c =? d) && startsWith s p
  | _ :: _, [] => false
  end.

Definition info_of (deviceId : jstr) (p : Z * ClientTraceInfo) : bool := bool_decide (ti_deviceId p.2 = Some deviceId).

Definition clearStaleDeviceTraceState (deviceId : jstr) (r : Recorder) : Recorder :=
  r <| tr_connectionAttemptByPort ::= List.filter (fun p => negb (startsWith p.1 (deviceId ++ js ":"))) |>
    <| tr_usbClientConnections ::= List.filter (fun p => negb (info_of deviceId p)) |>
    <| tr_appClientConnections ::= List.filter (fun p => negb (info_of deviceId p)) |>.

(** ** The recorded events *)

Section Events.
Context (now : jstr) (uuid : jstr).

Definition recordDevicePlug (deviceId : jstr) (m : option metadata) : R := fun r =>
  recordNode now "device_plugged" (Some deviceId) m None (clearStaleDeviceTraceState deviceId r).
Definition recordDeviceUnplug (deviceId : jstr) (m : option metadata) : R := recordNode now "device_unplugged" (Some deviceId) m None.
Definition recordDeviceRegistered (deviceId : jstr) (m : option metadata) : R := recordNode now "device_registered" (Some deviceId) m None.
Definition recordDeviceUnregistered (deviceId : jstr) (m : option metadata) : R := recordNode now "device_unregistered" (Some deviceId) m None.
Definition recordWatchClientStart (deviceId : jstr) (m : option metadata) : R := recordNode now "client_watch_started" (Some deviceId) m None.
Definition recordWatchClientStop (deviceId : jstr) (m : option metadata) : R := recordNode now "client_watch_stopped" (Some deviceId) m None.
Definition recordDaemonStarted (m : option metadata) : R := recordNode now "daemon_started" None m None.
Definition recordDaemonStopped (m : option metadata) : R := recordNode now "daemon_stopped" None m None.
Definition recordDaemonShutdownRequested (m : option metadata) : R := recordNode now "daemon_shutdown_requested" None m None.
Definition recordDaemonIdleTimeoutReached (m : option metadata) : R := recordNode now "daemon_idle_timeout_reached" None m None.

Definition control_metadata (controlId : Z) (m : option metadata) : option metadata :=
  spread_metadata [(js "controlId", Some (jint controlId))] m.

Definition recordControlSocketConnected (controlId : Z) (m : option metadata) : R :=
  recordNode now "control_socket_connected" None (control_metadata controlId m) None.
Definition recordControlSocketDisconnected (controlId : Z) (m : option metadata) : R :=
  recordNode now "control_socket_disconnected" None (control_metadata controlId m) None.

Definition recordWebsocketServerStarted (m : option metadata) : R := recordNode now "websocket_server_started" None m None.
Definition recordWebsocketServerStopped (m : option metadata) : R := recordNode now "websocket_server_stopped" None m None.
Definition recordLegacyOwnershipAttached (m : option metadata) : R := recordNode now "legacy_ownership_attached" None m None.
Definition recordLegacyOwnershipLost (m : option metadata) : R := recordNode now "legacy_ownership_lost" None m None.

Definition port_metadata (port : Z) (m : option metadata) : option metadata := spread_metadata [(js "port", Some (jint port))] m.

(** The id is handed to the adapter, which passes it on with later events. *)
Definition recordSocketConnected (deviceId : jstr) (port : Z) (m : option metadata) (r : Recorder)
  : jstr * (list trace_effect * Recorder) :=
  let '(attempt, r) := startConnectionAttempt uuid deviceId port r in
  (attempt, recordNode now "socket_connected" (Some deviceId) (port_metadata port m) (Some attempt) r).

Definition recordSocketDisconnected (deviceId : jstr) (port : Z) (m : option metadata) (attempt : option jstr) : R := fun r =>
  let resolved := match attempt with Some a => Some a | None => findConnectionAttempt deviceId port r end in
  let '(es, r) := recordNode now "socket_disconnected" (Some deviceId) (port_metadata port m) resolved r in
  (es, r <| tr_connectionAttemptByPort ::= mdel (portKey deviceId port) |>).

Definition recordSdkRegister (deviceId : jstr) (port : Z) (m : option metadata) (attempt : option jstr) : R := fun r =>
  let '(resolved, r) := match attempt with Some a => (a, r) | None => resolveConnectionAttempt uuid deviceId port r end in
  recordNode now "sdk_register_received" (Some deviceId) (port_metadata port m) (Some resolved) r.

Definition client_metadata (c : UsbClient) : metadata :=
  let q := cd_query (uc_info c) in
  [(js "clientId", Some (jint (clientId c))); (js "port", Some (jint (cd_port (uc_info c)))); (js "app", Some (q_app q));
   (js "os", Some (JStr (q_os q))); (js "device", Some (JStr (q_device q))); (js "deviceModel", Some (q_device_model q));
   (js "sdkVersion", q_sdk_version q)].

Definition recordUsbClientConnected (c : UsbClient) : R := fun r =>
  let '(attempt, r) := resolveConnectionAttempt uuid (deviceId c) (cd_port (uc_info c)) r in
  let '(es, r) := recordNode now "usb_client_connected" (Some (deviceId c)) (Some (client_metadata c)) (Some attempt) r in
  (es, r <| tr_usbClientConnections ::= mset (clientId c) (mkTraceInfo (Some (deviceId c)) (Some (cd_port (uc_info c))) (Some attempt)) |>).

Definition recordUsbClientDisconnected (c : UsbClient) : R := fun r =>
  let attempt := match mget (clientId c) (tr_usbClientConnections r) ≫= ti_connectionAttemptId with
                 | Some a => Some a
                 | None => findConnectionAttempt (deviceId c) (cd_port (uc_info c)) r
                 end in
  let '(es, r) := recordNode now "usb_client_disconnected" (Some (deviceId c)) (Some (client_metadata c)) attempt r in
  (es, r <| tr_usbClientConnections ::= mdel (clientId c) |>).

(** [a ?? b]. *)
Definition nullish {A} (a b : option A) : option A := match a with Some _ => a | None => b end.

Definition truthy_str (s : jstr) : bool := match s with [] => false | _ => true end.

Definition recordUsbConnectionClosed (x : UsbConnectionContext) : R := fun r =>
  let entry := match ux_clientId x with
               | Some id => if id =? 0 then None else mget id (tr_usbClientConnections r)
               | None => None
               end in
  let deviceId := nullish (entry ≫= ti_deviceId) (ux_deviceId x) in
  let port := nullish (entry ≫= ti_port) (ux_port x) in
  let found := match deviceId, port with
               | Some d, Some p => if truthy_str d && negb (p =? 0) then findConnectionAttempt d p r else None
               | _, _ => None
               end in
  let attempt := nullish (ux_connectionAttemptId x) (nullish (entry ≫= ti_connectionAttemptId) found) in
  recordNode now "usb_connection_closed" deviceId
    (Some [(js "clientId", jint <$> ux_clientId x); (js "port", jint <$> port)]) attempt r.

(** Of a client that is not a USB client nothing is recorded. *)
Definition recordAppClientConnected (client : UsbClient + WebSocketClientInfo) : R := fun r =>
  match client with
  | inr _ => ([], r)
  | inl c =>
      let '(attempt, r) := match mget (clientId c) (tr_usbClientConnections r) ≫= ti_connectionAttemptId with
                           | Some a => (a, r)
                           | None => resolveConnectionAttempt uuid (deviceId c) (cd_port (uc_info c)) r
                           end in
      let '(es, r) := recordNode now "app_client_connected" (Some (deviceId c)) (Some (client_metadata c)) (Some attempt) r in
      (es, r <| tr_appClientConnections ::= mset (clientId c) (mkTraceInfo (Some (deviceId c)) (Some (cd_port (uc_info c))) (Some attempt)) |>)
  end.

Definition recordAppClientDisconnected (id : Z) : R := fun r =>
  let entry := mget id (tr_appClientConnections r) in
  let '(es, r) := recordNode now "app_client_disconnected" (entry ≫= ti_deviceId)
    (Some [(js "clientId", Some (jint id)); (js "port", jint <$> (entry ≫= ti_port))]) (entry ≫= ti_connectionAttemptId) r in
  (es, r <| tr_appClientConnections ::= mdel id |>).

Definition recordWebsocketAppClientConnected (c : WebSocketClientInfo) : R :=
  recordNode now "websocket_app_client_connected" None
    (Some [(js "clientId", Some (jint (wi_id c))); (js "app", Some (wi_app c)); (js "deviceModel", Some (wi_deviceModel c));
           (js "sdkVersion", Some (wi_sdkVersion c)); (js "osVersion", Some (wi_osVersion c)); (js "type", wi_type c)]) None.
Definition recordWebsocketAppClientDisconnected (id : Z) : R :=
  recordNode now "websocket_app_client_disconnected" None (Some [(js "clientId", Some (jint id))]) None.
Definition recordWebsocketWebClientConnected (c : WebSocketClientInfo) : R :=
  recordNode now "websocket_web_client_connected" None (Some [(js "clientId", Some (jint (wi_id c))); (js "type", wi_type c)]) None.
Definition recordWebsocketWebClientDisconnected (id : Z) : R :=
  recordNode now "websocket_web_client_disconnected" None (Some [(js "clientId", Some (jint id))]) None.
End Events.

(** ** Creation *)

(** [Math.floor]. *)
Definition num_floor (n : num) : num :=
  match n with
  | NDbl (S754_finite s m e) =>
      if 0 <=? e then n
      else
        let q := Zpos m / 2 ^ (- e) in
        NInt (if s then (if Zpos m mod 2 ^ (- e) =? 0 then - q else - q - 1) else q)
  | _ => n
  end.

(** [envValue] is [process.env.DriverConnectionTraceBufferSize]. *)
Definition parseTraceBufferSize (optionBufferSize : option num) (envValue : option jstr) : num :=
  let from_env := match envValue with
                  | None | Some [] => DEFAULT_TRACE_BUFFER_SIZE
                  | Some v =>
                      let parsed := js_Number v in
                      if negb (num_isFinite parsed) || num_ltb parsed (NInt 0) then DEFAULT_TRACE_BUFFER_SIZE else num_floor parsed
                  end in
  match optionBufferSize with
  | Some n => if num_isFinite n && num_leb (NInt 0) n then num_floor n else from_env
  | None => from_env
  end.

Inductive trace_output := OutputPath (path : jstr) | OutputStream.

Record ConnectionTraceOptions := mkTraceOptions {
  to_enabled : option bool; to_output : option trace_output; to_bufferSize : option num }.

(** [opened] says whether the file's stream could be created; an exception of
    it means no recorder.  [throws] is how the stream behaves. *)
Definition createConnectionTraceRecorder (options : option ConnectionTraceOptions) (envPath envSize : option jstr) (opened : bool)
    (throws : ConnectionTraceNode -> bool) : option Recorder :=
  if bool_decide ((options ≫= to_enabled) = Some false) then None
  else
    let size := parseTraceBufferSize (options ≫= to_bufferSize) envSize in
    match nullish (options ≫= to_output) (OutputPath <$> envPath) with
    | None | Some (OutputPath []) => None
    | Some (OutputPath _) => if opened then Some (new_recorder (mkSink FileTraceSink false throws) size) else None
    | Some OutputStream => Some (new_recorder (mkSink StreamTraceSink false throws) size)
    end.
