(* ===== verification/TraceRun.v ===== *)
(** * Runs of the connection trace recorder

    What a trace shows, for any sequence of recorded events: its numbers and
    recent nodes, what listeners hear, and which nodes share the id of a
    connection attempt. *)

From Stdlib Require Import String.
From stdpp Require Import strings.
From S2P Require Import JsValue Json Protocol Physical Trace.

#[local] Arguments mdel : simpl never.
#[local] Arguments mset : simpl never.
#[local] Arguments mget : simpl never.

(** ** Steps *)

(** [TPlain]: the events that only record a node. *)
Inductive trace_op :=
  | TPlain (event : string) (deviceId : option jstr) (m : option (list (jstr * jsval)))
  | TPlug (deviceId : jstr) (m : option (list (jstr * jsval)))
  | TSocketConnected (uuid : jstr) (deviceId : jstr) (port : Z) (m : option (list (jstr * jsval)))
  | TSocketDisconnected (deviceId : jstr) (port : Z) (m : option (list (jstr * jsval))) (attempt : option jstr)
  | TSdkRegister (uuid : jstr) (deviceId : jstr) (port : Z) (m : option (list (jstr * jsval))) (attempt : option jstr)
  | TUsbConnected (uuid : jstr) (c : UsbClient)
  | TUsbDisconnected (c : UsbClient)
  | TUsbClosed (x : UsbConnectionContext)
  | TAppConnected (uuid : jstr) (c : UsbClient + WebSocketClientInfo)
  | TAppDisconnected (id : Z)
  | TListen (l : Z)
  | TUnlisten (l : Z)
  | TClose.

Definition trace_step (now : jstr) (op : trace_op) : R :=
  match op with
  | TPlain event d m => recordNode now event d m None
  | TPlug d m => recordDevicePlug now d m
  | TSocketConnected uuid d p m => fun r => (recordSocketConnected now uuid d p m r).2
  | TSocketDisconnected d p m a => recordSocketDisconnected now d p m a
  | TSdkRegister uuid d p m a => recordSdkRegister now uuid d p m a
  | TUsbConnected uuid c => recordUsbClientConnected now uuid c
  | TUsbDisconnected c => recordUsbClientDisconnected now c
  | TUsbClosed x => recordUsbConnectionClosed now x
  | TAppConnected uuid c => recordAppClientConnected now uuid c
  | TAppDisconnected id => recordAppClientDisconnected now id
  | TListen l => fun r => ([], addListener l r)
  | TUnlisten l => fun r => ([], removeListener l r)
  | TClose => close_recorder
  end.

Fixpoint trace_run (ops : list (jstr * trace_op)) (r : Recorder) : list trace_effect * Recorder :=
  match ops with
  | [] => ([], r)
  | (now, op) :: ops =>
      let '(e1, r) := trace_step now op r in
      let '(e2, r) := trace_run ops r in (e1 ++ e2, r)
  end.

(** The nodes that are made: those the sink gets and those whose write throws. *)
Definition made (es : list trace_effect) : list ConnectionTraceNode :=
  omap (fun e => match e with TWrite n | TWriteError n => Some n | _ => None end) es.

(** What the sink gets and what a listener hears. *)
Definition written (es : list trace_effect) : list ConnectionTraceNode :=
  omap (fun e => match e with TWrite n => Some n | _ => None end) es.

Definition heard (l : Z) (es : list trace_effect) : list ConnectionTraceNode :=
  omap (fun e => match e with TNotify l' n => if l' =? l then Some n else None | _ => None end) es.

Lemma written_app es1 es2 : written (es1 ++ es2) = written es1 ++ written es2.
Proof. apply omap_app. Qed.

Lemma made_app es1 es2 : made (es1 ++ es2) = made es1 ++ made es2.
Proof. apply omap_app. Qed.

Lemma heard_app l es1 es2 : heard l (es1 ++ es2) = heard l es1 ++ heard l es2.
Proof. apply omap_app. Qed.

(** ** The log *)

(** The part of a recorder that nodes go through. *)
Definition log_of (r : Recorder) : ConnectionTraceSink * num * Z * list Z * list ConnectionTraceNode * bool * bool :=
  (tr_sink r, tr_maxBufferedNodes r, tr_nextSequenceValue r, tr_listeners r, tr_recentNodes r, tr_closed r, tr_closePromise r).

(** An event that records touches the log only through [recordNode]. *)
Definition records (now : jstr) (r : Recorder) (res : list trace_effect * Recorder) : Prop :=
  exists event d m a r0, log_of r0 = log_of r /\ res.1 = (recordNode now event d m a r0).1 /\
    log_of res.2 = log_of (recordNode now event d m a r0).2.

Lemma records_node now r r0 event d m a : log_of r0 = log_of r -> records now r (recordNode now event d m a r0).
Proof. intros H. by exists event, d, m, a, r0. Qed.

Lemma records_then now r es q1 q2 : log_of q2 = log_of q1 -> records now r (es, q1) -> records now r (es, q2).
Proof.
  intros Hq (ev & d & m & a & r0 & H1 & H2 & H3). unfold records. cbn [fst snd] in *. rewrite Hq.
  by exists ev, d, m, a, r0.
Qed.

(** A node, and bookkeeping after it. *)
Ltac node_then H :=
  match goal with |- context [recordNode ?n ?e ?d ?m ?a ?q] =>
    match goal with |- records _ ?r _ =>
      let H' := fresh in pose proof (records_node n r q e d m a H) as H'; destruct (recordNode n e d m a q) as [?es ?q];
      refine (records_then _ _ _ _ _ _ H'); reflexivity
    end
  end.

Lemma resolve_log uuid d p r : log_of (resolveConnectionAttempt uuid d p r).2 = log_of r.
Proof. unfold resolveConnectionAttempt. by destruct (findConnectionAttempt d p r). Qed.

(** The events that record a node: all but the connection of an app client that
    is no USB client, which is recorded as a WebSocket client. *)
Definition is_event (op : trace_op) : bool :=
  match op with TListen _ | TUnlisten _ | TClose | TAppConnected _ (inr _) => false | _ => true end.

Lemma trace_step_records now op r : is_event op = true -> records now r (trace_step now op r).
Proof.
  destruct op as [ev d m|d m|u d p m|d p m a|u d p m a|u c|c|x|u [c|w]|id|l|l|]; cbn [is_event trace_step]; intros Hop; try done.
  all: try (by apply records_node).
  - unfold recordSocketDisconnected. node_then (eq_refl (log_of r)).
  - unfold recordSdkRegister. destruct a as [a|]; [by apply records_node|].
    pose proof (resolve_log u d p r) as H. destruct (resolveConnectionAttempt u d p r) as [b q]. by apply records_node.
  - unfold recordUsbClientConnected. pose proof (resolve_log u (deviceId c) (cd_port (uc_info c)) r) as H.
    destruct (resolveConnectionAttempt u _ _ r) as [b q]. cbn [snd] in H. node_then H.
  - unfold recordUsbClientDisconnected. node_then (eq_refl (log_of r)).
  - unfold recordAppClientConnected. match goal with |- context [let '(attempt, r) := ?m in _] =>
      assert (log_of m.2 = log_of r) as H by (destruct (_ ≫= ti_connectionAttemptId); [done|apply resolve_log]); destruct m as [b q] end.
    cbn [snd] in H. node_then H.
  - unfold recordAppClientDisconnected. node_then (eq_refl (log_of r)).
Qed.

(** The last [z] elements. *)
Definition lastn {A} (z : Z) (l : list A) : list A := drop (List.length l - Z.to_nat z) l.

Lemma lastn_snoc {A} z (l : list A) x : 0 < z ->
  lastn z (l ++ [x]) =
    (if z <? Z.of_nat (List.length (lastn z l ++ [x])) then tail (lastn z l ++ [x]) else lastn z l ++ [x]).
Proof.
  intros Hz. unfold lastn. rewrite !length_app, length_drop. cbn [List.length].
  destruct (Z.ltb_spec z (Z.of_nat (List.length l - (List.length l - Z.to_nat z) + 1))) as [Hl|Hl].
  - assert (List.length l + 1 - Z.to_nat z = S (List.length l - Z.to_nat z))%nat as -> by lia.
    destruct (drop (List.length l - Z.to_nat z) l) as [|y l'] eqn:E.
    + apply (f_equal List.length) in E. rewrite length_drop in E. cbn in E. lia.
    + cbn. rewrite drop_app_le by lia. f_equal. rewrite <- Nat.add_1_r, <- drop_drop, E. done.
  - assert (List.length l + 1 - Z.to_nat z = 0)%nat as -> by lia. assert (List.length l - Z.to_nat z = 0)%nat as -> by lia. done.
Qed.

Lemma push_recent n r w z : tr_maxBufferedNodes r = NInt z -> 0 <= z -> tr_recentNodes r = lastn z w ->
  tr_recentNodes (pushRecentNode n r) = lastn z (w ++ [n]) /\
  log_of (pushRecentNode n r) = log_of (r <| tr_recentNodes := lastn z (w ++ [n]) |>).
Proof.
  intros Hm Hz Hr. unfold pushRecentNode. rewrite Hm. cbn [num_leb num_ltb].
  destruct (Z.leb_spec z 0) as [H0|H0].
  - assert (z = 0) as -> by lia. assert (forall l : list ConnectionTraceNode, lastn 0 l = []) as Hn
      by (intros l; unfold lastn; apply drop_ge; lia).
    rewrite Hn in *. split; [done|]. destruct r; cbn in *; by subst.
  - destruct r; cbn in *. subst. rewrite (lastn_snoc z w n H0). cbn [num_ltb].
    by destruct (z <? Z.of_nat (List.length (lastn z w ++ [n]))).
Qed.

Section Log.
Context (f : ConnectionTraceNode -> bool) (z : Z) (Hz : 0 <= z).

(** The recorder after the nodes [w], with a sink that throws as [f] says. *)
Record log_ok (w : list ConnectionTraceNode) (r : Recorder) : Prop := {
  lk_throws : sk_throws (tr_sink r) = f;
  lk_max : tr_maxBufferedNodes r = NInt z;
  lk_sink : sk_closed (tr_sink r) = true -> tr_closed r = true;
  lk_sequence : List.map tn_sequence w = List.map Z.of_nat (seq 1 (List.length w));
  lk_next : tr_closed r = false -> tr_nextSequenceValue r = Z.of_nat (List.length w);
  lk_recent : tr_recentNodes r = if tr_closed r then [] else lastn z w;
  lk_promise : tr_closePromise r = tr_closed r
}.

Lemma log_ok_same w r r' : log_of r' = log_of r -> log_ok w r -> log_ok w r'.
Proof. intros H []. unfold log_of in H. injection H as H1 H2 H3 H4 H5 H6 H7. split; rewrite ?H1, ?H2, ?H3, ?H4, ?H5, ?H6, ?H7; done. Qed.

(** What a listener hears in a step. *)
Definition hears (l : Z) (r : Recorder) (es : list trace_effect) : Prop :=
  NoDup (tr_listeners r) -> heard l es = if bool_decide (l ∈ tr_listeners r) then made es else [].

Lemma heard_emit l ls n : NoDup ls -> heard l (List.map (fun l' => TNotify l' n) ls) = if bool_decide (l ∈ ls) then [n] else [].
Proof.
  induction 1 as [|l' ls Hl Hnd IH]; cbn; [by rewrite bool_decide_eq_false_2 by apply not_elem_of_nil|].
  unfold heard in IH. destruct (Z.eqb_spec l' l) as [->|Hne].
  - rewrite IH, bool_decide_eq_false_2 by done. rewrite bool_decide_eq_true_2 by left. done.
  - rewrite IH. assert (bool_decide (l ∈ l' :: ls) = bool_decide (l ∈ ls)) as ->; [|done].
    apply bool_decide_ext. rewrite elem_of_cons. naive_solver.
Qed.

Lemma made_emit ls n : made (List.map (fun l => TNotify l n) ls) = [].
Proof. induction ls as [|l ls IH]; [done|exact IH]. Qed.

Lemma written_emit ls n : written (List.map (fun l => TNotify l n) ls) = [].
Proof. induction ls as [|l ls IH]; [done|exact IH]. Qed.

(** The effect of writing a node to a sink that is not closed. *)
Definition write_effect (n : ConnectionTraceNode) (s : ConnectionTraceSink) : trace_effect := if sk_throws s n then TWriteError n else TWrite n.

Lemma sink_write_open n s : sk_closed s = false ->
  match sink_write n s with Some es => es | None => [TWriteError n] end = [write_effect n s].
Proof. intros H. unfold sink_write, write_effect. rewrite H. by destruct (sk_kind s), (sk_throws s n). Qed.

(** The lines among the nodes made. *)
Definition lines_of (es : list trace_effect) : Prop := written es = List.filter (fun n => negb (f n)) (made es).

Lemma lines_of_app es1 es2 : lines_of es1 -> lines_of es2 -> lines_of (es1 ++ es2).
Proof. unfold lines_of. rewrite written_app, made_app, List.filter_app. by intros -> ->. Qed.

Lemma recordNode_open now event d m a w r : log_ok w r -> tr_closed r = false -> Z.of_nat (List.length w) < MAX_SAFE ->
  let '(es, r') := recordNode now event d m a r in
  exists n, made es = [n] /\ lines_of es /\ (forall l, hears l r es) /\ log_ok (w ++ [n]) r' /\ tr_closed r' = false.
Proof.
  intros L Ec Hw. unfold recordNode, nextSequence. set (r1 := r <| tr_nextSequenceValue ::= js_succ |>). cbn zeta beta iota.
  change (tr_closed r1) with (tr_closed r). change (tr_sink r1) with (tr_sink r). rewrite Ec.
  change (tr_nextSequenceValue r1) with (js_succ (tr_nextSequenceValue r)). set (n := mkNode _ d (js event) now _ a _).
  destruct L as [L0 L1 L2 L3 L4 L5 L6]. specialize (L4 Ec). rewrite Ec in L2, L5, L6.
  destruct (push_recent n r1 w z L1 Hz L5) as [P1 P2].
  assert (tr_listeners (pushRecentNode n r1) = tr_listeners r) as P3 by (unfold log_of in P2; by injection P2).
  assert (tr_closed (pushRecentNode n r1) = false) as P4 by (unfold log_of in P2; injection P2 as _ _ _ _ _ P2 _; by rewrite P2).
  rewrite sink_write_open by (destruct (sk_closed (tr_sink r)); [by specialize (L2 eq_refl)|done]).
  unfold emitNode. rewrite P3. exists n. unfold lines_of, hears. rewrite made_app, written_app, made_emit, written_emit, !app_nil_r.
  assert (made [write_effect n (tr_sink r)] = [n]) as Hm by (unfold write_effect; by destruct (sk_throws _ _)). rewrite Hm.
  split; [done|]. split; [|split; [|split; [|done]]].
  - unfold write_effect. rewrite L0. cbn [List.filter]. by destruct (f n).
  - intros l Hnd. rewrite heard_app, heard_emit by done. assert (heard l [write_effect n (tr_sink r)] = []) as ->; [|done].
    unfold write_effect. by destruct (sk_throws _ _).
  - apply (log_ok_same _ _ _ P2). split; cbn; try done.
    + by rewrite Ec.
    + rewrite map_app, length_app, L3. cbn [List.length]. rewrite Nat.add_1_r, seq_S, map_app. cbn. do 2 f_equal.
      rewrite js_succ_safe by lia. lia.
    + intros _. rewrite js_succ_safe by lia. rewrite length_app. cbn [List.length]. lia.
    + by rewrite Ec.
    + by rewrite L6, Ec.
Qed.

(** Whether an operation makes a node. *)
Definition counts (r : Recorder) (op : trace_op) : nat := if tr_closed r then 0 else if is_event op then 1 else 0.

(** What a step does to the log, and what is heard of it. *)
Record step_logs (w : list ConnectionTraceNode) (op : trace_op) (r : Recorder) (res : list trace_effect * Recorder) : Prop := {
  sl_ok : log_ok (w ++ made res.1) res.2;
  sl_count : List.length (made res.1) = counts r op;
  sl_lines : lines_of res.1;
  sl_hears : forall l, hears l r res.1;
  sl_silent : tr_closed r = true -> res.1 = [];
  sl_closed : tr_closed res.2 = tr_closed r || match op with TClose => true | _ => false end
}.

Lemma step_logs_nothing w op r r' : log_ok w r' -> counts r op = 0%nat ->
  tr_closed r' = tr_closed r || match op with TClose => true | _ => false end -> step_logs w op r ([], r').
Proof. intros L Hc Hcl. split; cbn; [by rewrite app_nil_r|done|done|intros l _; by case_bool_decide|done|done]. Qed.

Lemma event_logs now op w r : is_event op = true -> log_ok w r -> Z.of_nat (List.length w) < MAX_SAFE -> step_logs w op r (trace_step now op r).
Proof.
  intros Ho L Hw. destruct (trace_step_records now op r Ho) as (ev & d & m & a & r0 & H0 & H1 & H2).
  assert (tr_listeners r0 = tr_listeners r /\ tr_closed r0 = tr_closed r) as [El Ec] by (unfold log_of in H0; by injection H0 as _ _ _ -> _ -> _).
  assert (tr_closed r = tr_closed r || match op with TClose => true | _ => false end) as Hop by (destruct op; try done; by rewrite orb_false_r).
  destruct (trace_step now op r) as [es r']. cbn [fst snd] in *. destruct (tr_closed r) eqn:Ecl.
  - unfold recordNode, nextSequence in H1, H2. cbn in H1, H2. rewrite Ec in H1, H2. subst es. apply step_logs_nothing; [|by unfold counts; rewrite Ecl|].
    + apply (log_ok_same _ _ _ H2). apply (log_ok_same _ _ _ H0) in L. destruct L as [L0 L1 L2 L3 L4 L5 L6]. by split; cbn; rewrite ?Ec in *.
    + rewrite Ecl. unfold log_of in H2. cbn in H2. by injection H2 as _ _ _ _ _ -> _.
  - pose proof (recordNode_open now ev d m a w r0 (log_ok_same _ _ _ H0 L) Ec Hw) as R.
    destruct (recordNode now ev d m a r0) as [es0 r1]. cbn [fst snd] in *. subst es0. destruct R as (n & R1 & R2 & R3 & R4 & R5).
    assert (tr_closed r' = tr_closed r1) as Ec1 by (unfold log_of in H2; by injection H2 as _ _ _ _ _ -> _).
    split; cbn [fst snd]; rewrite ?R1; [by apply (log_ok_same _ r1)|by unfold counts; rewrite Ecl, Ho|done| |by rewrite Ecl|by rewrite Ec1, R5, Ecl].
    intros l Hnd. specialize (R3 l). unfold hears in R3. rewrite El in R3. auto.
Qed.

Lemma close_logs now w r : log_ok w r -> step_logs w TClose r (trace_step now TClose r).
Proof.
  intros L. cbn [trace_step]. unfold close_recorder. pose proof (lk_promise _ _ L) as Hp. destruct (tr_closePromise r) eqn:Ep.
  { apply step_logs_nothing; [done|unfold counts; by rewrite <- Hp|by rewrite <- Hp]. }
  assert (exists s es, sink_close (tr_sink r) = (es, s) /\ made es = [] /\ written es = [] /\ (forall l, heard l es = []) /\ sk_throws s = f)
    as (s & es & -> & Hm & Hw' & Hh & Hs)
    by (pose proof (lk_throws _ _ L); unfold sink_close; destruct (sk_kind _); [by eauto 10|]; destruct (sk_closed _); eauto 10).
  destruct L as [L0 L1 L2 L3 L4 L5 L6]. split; cbn [fst snd]; rewrite ?Hm, ?app_nil_r.
  - by split.
  - unfold counts. by rewrite <- Hp.
  - unfold lines_of. by rewrite Hm, Hw'.
  - intros l _. rewrite Hh, Hm. by case_bool_decide.
  - by rewrite <- Hp.
  - by rewrite <- Hp.
Qed.

Lemma trace_step_logs now op w r : log_ok w r -> Z.of_nat (List.length w) < MAX_SAFE -> step_logs w op r (trace_step now op r).
Proof.
  intros L Hw. destruct (is_event op) eqn:Ho; [by apply event_logs|].
  assert (counts r op = 0%nat) as Hc by (unfold counts; rewrite Ho; by destruct (tr_closed r)).
  destruct op as [| | | | | | | |u [|w']| |l|l|]; try done; cbn [trace_step]; try (apply step_logs_nothing; [|done|by rewrite orb_false_r]).
  - done.
  - destruct L. by split.
  - destruct L. by split.
  - by apply (close_logs (js "")).
Qed.

(** The operations up to the first [close] that make a node. *)
Fixpoint events_before_close (ops : list (jstr * trace_op)) : nat :=
  match ops with
  | [] => 0
  | (_, TClose) :: _ => 0
  | (_, op) :: ops => (if is_event op then 1 else 0) + events_before_close ops
  end.

Lemma trace_run_logs ops : forall w r, log_ok w r -> Z.of_nat (List.length w + List.length ops) < MAX_SAFE ->
  let '(es, r') := trace_run ops r in
  log_ok (w ++ made es) r' /\ lines_of es /\ (tr_closed r = true -> es = []) /\
  List.length (made es) = (if tr_closed r then 0 else events_before_close ops)%nat /\
  tr_closed r' = tr_closed r || existsb (fun p => match p.2 with TClose => true | _ => false end) ops.
Proof.
  induction ops as [|[now op] ops IH]; intros w r L Hb.
  { cbn. rewrite app_nil_r, orb_false_r. split; [done|]. split; [done|]. split; [done|]. split; [by destruct (tr_closed r)|done]. }
  cbn [List.length] in Hb. cbn [trace_run existsb snd].
  destruct (trace_step_logs now op w r L ltac:(lia)) as [S1 S2 S3 _ S5 S6]. destruct (trace_step now op r) as [e1 r1]. cbn [fst snd] in *.
  assert (Z.of_nat (List.length (w ++ made e1) + List.length ops) < MAX_SAFE) as Hb'
    by (rewrite length_app, S2; unfold counts; destruct (tr_closed r), (is_event op); lia).
  specialize (IH _ r1 S1 Hb'). destruct (trace_run ops r1) as [e2 r2]. destruct IH as (I1 & I2 & I3 & I4 & I5).
  rewrite made_app, app_assoc, length_app, S2, I4, S6. split; [done|]. split; [by apply lines_of_app|]. split; [|split; [|by rewrite I5, S6, orb_assoc]].
  - intros Hc. rewrite S5 by done. rewrite I3; [done|]. by rewrite S6, Hc.
  - unfold counts. destruct (tr_closed r); [done|]. cbn [orb events_before_close]. destruct op; try lia. done.
Qed.

(** Operations that leave a listener where it is. *)
Definition keeps_listener (l : Z) (op : trace_op) : bool :=
  match op with TUnlisten l' => negb (l' =? l) | TClose => false | _ => true end.

Lemma log_listeners r r' : log_of r' = log_of r -> tr_listeners r' = tr_listeners r.
Proof. unfold log_of. by intros [= _ _ _ -> _ _ _]. Qed.

Lemma recordNode_listeners now ev d m a r : tr_listeners (recordNode now ev d m a r).2 = tr_listeners r.
Proof.
  unfold recordNode, nextSequence. cbn zeta beta iota. destruct (tr_closed _); [done|]. cbn [snd]. unfold pushRecentNode.
  destruct (num_leb _ _); [done|]. by destruct (num_ltb _ _).
Qed.

Lemma event_listeners now op r : is_event op = true -> tr_listeners (trace_step now op r).2 = tr_listeners r.
Proof.
  intros Ho. destruct (trace_step_records now op r Ho) as (ev & d & m & a & r0 & H0 & _ & H2).
  by rewrite (log_listeners _ _ H2), recordNode_listeners, (log_listeners _ _ H0).
Qed.

Lemma listener_kept l now op r : NoDup (tr_listeners r) -> l ∈ tr_listeners r -> keeps_listener l op = true ->
  l ∈ tr_listeners (trace_step now op r).2.
Proof.
  intros Hnd Hl Hk. destruct (is_event op) eqn:Ho; [by rewrite event_listeners|].
  destruct op as [| | | | | | | |u [|w']| |l'|l'|]; try done; cbn [trace_step snd addListener removeListener] in *.
  - apply elem_of_sadd. auto.
  - cbn [keeps_listener] in Hk. apply negb_true_iff, Z.eqb_neq in Hk. apply elem_of_sdel. auto.
Qed.

Lemma NoDup_step now op r : NoDup (tr_listeners r) -> NoDup (tr_listeners (trace_step now op r).2).
Proof.
  intros Hnd. destruct (is_event op) eqn:Ho; [by rewrite event_listeners|].
  destruct op as [| | | | | | | |u [|w']| |l'|l'|]; try done; cbn [trace_step snd addListener removeListener]; [by apply NoDup_sadd|by apply NoDup_sdel|].
  unfold close_recorder. destruct (tr_closePromise r); [done|]. destruct (sink_close _). apply NoDup_nil_2.
Qed.

Lemma NoDup_listeners ops : forall r, NoDup (tr_listeners r) -> NoDup (tr_listeners (trace_run ops r).2).
Proof.
  induction ops as [|[now op] ops IH]; intros r Hnd; [done|]. cbn [trace_run]. pose proof (NoDup_step now op r Hnd) as H.
  destruct (trace_step now op r) as [e1 r1]. specialize (IH r1 H). by destruct (trace_run ops r1).
Qed.

Lemma listener_hears_all ops : forall l w r, log_ok w r -> Z.of_nat (List.length w + List.length ops) < MAX_SAFE ->
  NoDup (tr_listeners r) -> l ∈ tr_listeners r -> forallb (fun p => keeps_listener l p.2) ops = true ->
  heard l (trace_run ops r).1 = made (trace_run ops r).1.
Proof.
  induction ops as [|[now op] ops IH]; intros l w r L Hb Hnd Hl; [done|]. cbn [forallb snd trace_run]. intros [Hk Hks]%andb_prop.
  cbn [List.length] in Hb. destruct (trace_step_logs now op w r L ltac:(lia)) as [S1 S2 _ S3 _ _].
  pose proof (listener_kept l now op r Hnd Hl Hk) as Hl1. pose proof (NoDup_step now op r Hnd) as Hnd1.
  specialize (S3 l Hnd). rewrite bool_decide_eq_true_2 in S3 by done. destruct (trace_step now op r) as [e1 r1]. cbn [fst snd] in *.
  assert (Z.of_nat (List.length (w ++ made e1) + List.length ops) < MAX_SAFE) as Hb'
    by (rewrite length_app, S2; unfold counts; destruct (tr_closed r), (is_event op); lia).
  specialize (IH l _ r1 S1 Hb' Hnd1 Hl1 Hks). destruct (trace_run ops r1) as [e2 r2]. cbn [fst] in *.
  by rewrite heard_app, made_app, S3, IH.
Qed.

Lemma new_recorder_log k : log_ok [] (new_recorder (mkSink k false f) (NInt z)).
Proof.
  split; try done. unfold new_recorder. cbn. destruct (Z.leb_spec z 0); [|done]. by assert (z = 0) as -> by lia.
Qed.

End Log.

(** C33: A trace is complete and in order.  Every event recorded before [close]
    makes one node, and the nodes carry the numbers 1, 2, 3, ... without a gap.
    The lines the sink gets are those of the nodes whose write does not throw, in
    order; a write that throws costs that line and nothing else.  Until [close]
    the recent nodes are the last ones, as many as the buffer holds, and a
    listener hears, as long as it is subscribed, exactly the nodes that are made,
    also those whose write throws.  From [close] on there are no recent nodes and
    there is no line, no warning and no call of a listener any more, whatever is
    recorded and whoever subscribes. *)
Theorem trace_log_complete k throws z ops : 0 <= z -> Z.of_nat (List.length ops) < MAX_SAFE ->
  let closed := existsb (fun p => match p.2 with TClose => true | _ => false end) ops in
  let '(es, r) := trace_run ops (new_recorder (mkSink k false throws) (NInt z)) in
  List.length (made es) = events_before_close ops /\
  List.map tn_sequence (made es) = List.map Z.of_nat (seq 1 (List.length (made es))) /\
  written es = List.filter (fun n => negb (throws n)) (made es) /\
  tr_recentNodes r = (if closed then [] else lastn z (made es)) /\
  (forall after, Z.of_nat (List.length ops + List.length after) < MAX_SAFE ->
     (closed = true -> (trace_run after r).1 = []) /\
     forall l, forallb (fun p => keeps_listener l p.2) after = true ->
       heard l (trace_run after (addListener l r)).1 = made (trace_run after (addListener l r)).1).
Proof.
  intros Hz Hb. pose proof (trace_run_logs throws z Hz ops [] _ (new_recorder_log throws z Hz k) Hb) as H. cbn zeta.
  pose proof (NoDup_listeners ops (new_recorder (mkSink k false throws) (NInt z)) (NoDup_nil_2)) as Hnd.
  destruct (trace_run ops _) as [es r]. cbn [fst snd app] in *. destruct H as (L & H1 & _ & H3 & H4). cbn [new_recorder tr_closed orb] in H3, H4. rewrite <- H4.
  split; [done|]. split; [apply L|]. split; [done|]. split; [apply L|]. intros after Ha.
  assert (Z.of_nat (List.length (made es) + List.length after) < MAX_SAFE) as Hb'
    by (assert (events_before_close ops <= List.length ops)%nat; [|lia]; clear; induction ops as [|[? op] ops IH]; cbn; [lia|destruct op as [| | | | | | | |? []| | | |]; cbn; lia]).
  split.
  - intros Hc. pose proof (trace_run_logs throws z Hz after (made es) r L Hb') as R. destruct (trace_run after r). by apply R.
  - intros l Hk. apply (listener_hears_all throws z Hz after l (made es)); try done; [by destruct L|by apply NoDup_sadd|].
    apply elem_of_sadd. auto.
Qed.

Lemma trace_log_complete_witness :
  let ops := [(js "t", TPlain "daemon_started" None None); (js "t", TPlain "daemon_stopped" None None); (js "t", TPlug (js "d") None)] in
  let '(es, r) := trace_run ops (new_recorder (mkSink FileTraceSink false (fun n => tn_sequence n =? 2)) (NInt 2)) in
  List.map tn_sequence (tr_recentNodes r) = [2; 3] /\ List.map tn_sequence (written es) = [1; 3].
Proof.
  cbv zeta.
  pose proof (trace_log_complete FileTraceSink (fun n => tn_sequence n =? 2) 2
    [(js "t", TPlain "daemon_started" None None); (js "t", TPlain "daemon_stopped" None None); (js "t", TPlug (js "d") None)]
    ltac:(lia) ltac:(vm_compute; reflexivity)) as H. cbv zeta in H.
  destruct (trace_run _ _) as [es r] eqn:E. destruct H as (_ & _ & H1 & H2 & _). rewrite H1, H2. vm_compute in E. injection E as <- <-.
  vm_compute. split; reflexivity.
Defined.

(** ** Connection attempts *)

Lemma startsWith_app s p : startsWith (p ++ s) p = true.
Proof. induction p as [|c p IH]; [by destruct s|]. cbn. by rewrite Z.eqb_refl. Qed.

(** A port of a device has one key. *)
Lemma last_colon a b a' b' : 58 ∉ b -> 58 ∉ b' -> a ++ 58 :: b = a' ++ 58 :: b' -> a = a' /\ b = b'.
Proof.
  revert a'. induction a as [|x a IH]; intros [|x' a'] Hb Hb'; cbn; intros [= E].
  - done.
  - subst b. exfalso. apply Hb. apply elem_of_app. right. left.
  - subst b'. exfalso. apply Hb'. apply elem_of_app. right. left.
  - destruct (IH a' Hb Hb' ltac:(done)) as [-> ->]. by subst.
Qed.

Lemma show_int_no_colon z : 0 <= z -> 58 ∉ show_int z.
Proof.
  intros Hz. unfold show_int. rewrite (proj2 (Z.ltb_ge z 0)) by done. intros Hin.
  pose proof (digits_digit z Hz) as H. rewrite forallb_forall in H. specialize (H 58 (proj1 (list_elem_of_In _ _) Hin)). done.
Qed.

Lemma show_int_inj a b : 0 <= a -> 0 <= b -> show_int a = show_int b -> a = b.
Proof.
  intros Ha Hb. unfold show_int. rewrite !(proj2 (Z.ltb_ge _ 0)) by done. intros E.
  by rewrite <- (digits_value_digits a Ha), <- (digits_value_digits b Hb), E.
Qed.

Lemma portKey_inj d p d' p' : 0 <= p -> 0 <= p' -> portKey d p = portKey d' p' -> d = d' /\ p = p'.
Proof.
  intros Hp Hp' E. unfold portKey in E. destruct (last_colon d (show_int p) d' (show_int p')) as [-> E2]; auto using show_int_no_colon.
  split; [done|by apply show_int_inj].
Qed.

Definition attempt_ids (es : list trace_effect) : list (option jstr) := List.map tn_connectionAttemptId (made es).

(** Operations that do not concern the connection to the port [p] of [d] by the
    client [id]; plugging in counts for every device whose key would match. *)
Definition undisturbed (d : jstr) (p : Z) (id : Z) (op : trace_op) : bool :=
  match op with
  | TPlug d' _ => negb (startsWith (portKey d p) (d' ++ js ":"))
  | TSocketConnected _ d' p' _ | TSocketDisconnected d' p' _ _ => negb (bool_decide (portKey d' p' = portKey d p))
  | TUsbConnected _ c | TUsbDisconnected c | TAppConnected _ (inl c) => negb (clientId c =? id)
  | TAppDisconnected i => negb (i =? id)
  | TClose => false
  | _ => true
  end.

Definition live (r : Recorder) : Prop := tr_closed r = false /\ sk_closed (tr_sink r) = false.

Section Tied.
Context (u d : jstr) (p id : Z).

Definition of_device (e : option ClientTraceInfo) : Prop := match e with Some i => ti_deviceId i = Some d | None => True end.

Record tied (eu ea : option ClientTraceInfo) (r : Recorder) : Prop := {
  td_live : live r;
  td_attempt : findConnectionAttempt d p r = Some u;
  td_usb : mget id (tr_usbClientConnections r) = eu;
  td_app : mget id (tr_appClientConnections r) = ea
}.

(** The books of attempts and clients. *)
Definition books (r : Recorder) := (tr_sink r, tr_connectionAttemptByPort r, tr_usbClientConnections r, tr_appClientConnections r, tr_closed r).

Lemma tied_books eu ea r r' : books r' = books r -> tied eu ea r -> tied eu ea r'.
Proof.
  unfold books. intros [= H1 H2 H3 H4 H5] [[T1 T2] T3 T4 T5]. unfold findConnectionAttempt in *.
  by split; unfold live, findConnectionAttempt; rewrite ?H1, ?H2, ?H3, ?H4, ?H5.
Qed.

Lemma recordNode_books now ev dv m a r : books (recordNode now ev dv m a r).2 = books r.
Proof.
  unfold recordNode, nextSequence. cbn zeta beta iota. destruct (tr_closed _); [done|]. cbn [snd]. unfold pushRecentNode.
  destruct (num_leb _ _); [done|]. by destruct (num_ltb _ _).
Qed.

Lemma recordNode_attempt now ev dv m a r : live r -> attempt_ids (recordNode now ev dv m a r).1 = [a].
Proof.
  intros [H1 H2]. unfold recordNode, nextSequence. cbn zeta beta iota. change (tr_closed (r <| tr_nextSequenceValue ::= js_succ |>)) with (tr_closed r).
  rewrite H1. cbn [fst]. unfold attempt_ids, emitNode. rewrite made_app, made_emit, app_nil_r.
  change (tr_sink (r <| tr_nextSequenceValue ::= js_succ |>)) with (tr_sink r). rewrite sink_write_open by done.
  unfold write_effect. by destruct (sk_throws _ _).
Qed.

(** Resolving an attempt never overwrites one. *)
Lemma resolve_kept uuid d' p' r : findConnectionAttempt d p r = Some u ->
  findConnectionAttempt d p (resolveConnectionAttempt uuid d' p' r).2 = Some u /\
  tr_sink (resolveConnectionAttempt uuid d' p' r).2 = tr_sink r /\ tr_closed (resolveConnectionAttempt uuid d' p' r).2 = tr_closed r /\
  tr_usbClientConnections (resolveConnectionAttempt uuid d' p' r).2 = tr_usbClientConnections r /\
  tr_appClientConnections (resolveConnectionAttempt uuid d' p' r).2 = tr_appClientConnections r.
Proof.
  intros H. unfold resolveConnectionAttempt. destruct (findConnectionAttempt d' p' r) eqn:E; [done|]. split; [|done]. cbn [snd startConnectionAttempt].
  unfold findConnectionAttempt in *. cbn. rewrite mget_mset_ne; [done|]. congruence.
Qed.

Lemma tied_resolve eu ea uuid d' p' r : tied eu ea r -> tied eu ea (resolveConnectionAttempt uuid d' p' r).2.
Proof.
  intros [[T1 T2] T3 T4 T5]. destruct (resolve_kept uuid d' p' r T3) as (R1 & R2 & R3 & R4 & R5). split; [split| | |]; congruence.
Qed.
End Tied.

Lemma mget_filter {K V} `{EqDecision K} (f : K * V -> bool) (m : list (K * V)) k :
  (forall v, mget k m = Some v -> f (k, v) = true) -> mget k (List.filter f m) = mget k m.
Proof.
  induction m as [|[j w] m IH]; intros H; [done|]. cbn [List.filter]. unfold mget in *; fold (@mget K V _) in *.
  destruct (decide (k = j)) as [->|Hne].
  - rewrite (H w) by done. unfold mget. by rewrite decide_True.
  - destruct (f (j, w)); [unfold mget; fold (@mget K V _); rewrite decide_False by done|]; by apply IH.
Qed.

Section TiedSteps.
Context (u d : jstr) (p id : Z).

Lemma tied_after eu ea now ev dv m a r0 : tied u d p id eu ea r0 -> tied u d p id eu ea (recordNode now ev dv m a r0).2.
Proof. apply tied_books. apply recordNode_books. Qed.

(** Bookkeeping on other keys. *)
Lemma tied_key eu ea g r : (forall m, mget (portKey d p) (g m) = mget (portKey d p) m) ->
  tied u d p id eu ea r -> tied u d p id eu ea (r <| tr_connectionAttemptByPort ::= g |>).
Proof. intros Hg [T1 T2 T3 T4]. split; try done. unfold findConnectionAttempt in *. cbn. by rewrite Hg. Qed.

Lemma tied_usb eu ea g r : (forall m, mget id (g m) = mget id m) ->
  tied u d p id eu ea r -> tied u d p id eu ea (r <| tr_usbClientConnections ::= g |>).
Proof. intros Hg [T1 T2 T3 T4]. split; try done. cbn. by rewrite Hg. Qed.

Lemma tied_app eu ea g r : (forall m, mget id (g m) = mget id m) ->
  tied u d p id eu ea r -> tied u d p id eu ea (r <| tr_appClientConnections ::= g |>).
Proof. intros Hg [T1 T2 T3 T4]. split; try done. cbn. by rewrite Hg. Qed.

Lemma plug_kept eu ea d' r : of_device d eu -> of_device d ea -> startsWith (portKey d p) (d' ++ js ":") = false ->
  tied u d p id eu ea r -> tied u d p id eu ea (clearStaleDeviceTraceState d' r).
Proof.
  intros Hu Ha Hd [T1 T2 T3 T4].
  assert (d' <> d) as Hne.
  { intros ->. unfold portKey in Hd. rewrite app_assoc, startsWith_app in Hd. done. }
  assert (forall e m, mget id m = e -> of_device d e -> mget id (List.filter (fun q => negb (info_of d' q)) m) = e) as Hf.
  { intros e m Hm He. rewrite mget_filter; [done|]. intros v Hv. unfold info_of. cbn. subst e. rewrite Hv in He. unfold of_device in He.
    rewrite He. rewrite bool_decide_eq_false_2; [done|]. congruence. }
  split; [done| |by apply Hf|by apply Hf].
  unfold findConnectionAttempt in *. cbn. rewrite mget_filter; [done|]. intros v _. cbn [fst]. by rewrite Hd.
Qed.

Lemma mget_set_other {K V} `{EqDecision K} (k k' : K) (v : V) m : k' <> k -> mget k (mset k' v m) = mget k m.
Proof. intros H. by apply mget_mset_ne. Qed.

Lemma mget_del_other {K V} `{EqDecision K} (k k' : K) (m : list (K * V)) : k' <> k -> mget k (mdel k' m) = mget k m.
Proof. intros H. rewrite mget_mdel. by rewrite decide_False. Qed.

(** A node, and bookkeeping on other keys after it. *)
Ltac tied_node T :=
  match type of T with tied _ _ _ _ ?eu ?ea _ =>
    match goal with |- context [recordNode ?n ?e ?dv ?m ?a ?q] =>
      let H := fresh in pose proof (tied_after eu ea n e dv m a q T) as H; destruct (recordNode n e dv m a q) as [?es ?q]; cbn [snd] in H |- *;
      (apply tied_key || apply tied_usb || apply tied_app); [intros; first [by apply mget_set_other|by apply mget_del_other]|exact H]
    end
  end.

Lemma tied_step eu ea now op r : of_device d eu -> of_device d ea -> undisturbed d p id op = true ->
  tied u d p id eu ea r -> tied u d p id eu ea (trace_step now op r).2.
Proof.
  intros Hu Ha Ho T. destruct op as [ev dv m|d' m|uu d' p' m|d' p' m a|uu d' p' m a|uu c|c|x|uu [c|w]|i|l|l|];
    cbn [undisturbed trace_step] in *; try (apply negb_true_iff in Ho); try apply bool_decide_eq_false in Ho; try apply Z.eqb_neq in Ho; try done.
  - by apply tied_after.
  - apply tied_after, plug_kept; done.
  - unfold recordSocketConnected, startConnectionAttempt. cbn [snd]. apply tied_after, tied_key; [|done]. intros. by apply mget_set_other.
  - unfold recordSocketDisconnected. tied_node T.
  - unfold recordSdkRegister. destruct a as [a|]; [by apply tied_after|].
    pose proof (tied_resolve u d p id eu ea uu d' p' r T) as H. destruct (resolveConnectionAttempt uu d' p' r) as [b q]. by apply tied_after.
  - unfold recordUsbClientConnected. pose proof (tied_resolve u d p id eu ea uu (deviceId c) (cd_port (uc_info c)) r T) as H.
    destruct (resolveConnectionAttempt uu _ _ r) as [b q]. cbn [snd] in H. tied_node H.
  - unfold recordUsbClientDisconnected. tied_node T.
  - by apply tied_after.
  - unfold recordAppClientConnected. match goal with |- context [let '(attempt, r) := ?m in _] => assert (tied u d p id eu ea m.2) as H
      by (destruct (_ ≫= ti_connectionAttemptId); [done|by apply tied_resolve]); destruct m as [b q] end. cbn [snd] in H. tied_node H.
  - unfold recordAppClientDisconnected. tied_node T.
  - by apply (tied_books u d p id eu ea r).
  - by apply (tied_books u d p id eu ea r).
Qed.

Lemma tied_run eu ea ops : forall r, of_device d eu -> of_device d ea -> forallb (fun q => undisturbed d p id q.2) ops = true ->
  tied u d p id eu ea r -> tied u d p id eu ea (trace_run ops r).2.
Proof.
  induction ops as [|[now op] ops IH]; intros r Hu Ha Ho T; [done|]. cbn [forallb snd] in Ho. apply andb_prop in Ho as [Ho Hos].
  cbn [trace_run]. pose proof (tied_step eu ea now op r Hu Ha Ho T) as T1. destruct (trace_step now op r) as [e1 r1].
  specialize (IH r1 Hu Ha Hos T1). by destruct (trace_run ops r1).
Qed.
End TiedSteps.

(** The three ways in, and their nodes. *)
Lemma tied_connected now u d p id m r : live r ->
  mget id (tr_usbClientConnections r) = None -> mget id (tr_appClientConnections r) = None ->
  attempt_ids (trace_step now (TSocketConnected u d p m) r).1 = [Some u] /\
  tied u d p id None None (trace_step now (TSocketConnected u d p m) r).2.
Proof.
  intros Hl Hu Ha. cbn [trace_step]. unfold recordSocketConnected, startConnectionAttempt. cbn [snd].
  split; [by apply recordNode_attempt|]. apply tied_after. split; try done. unfold findConnectionAttempt. cbn. apply mget_mset_eq.
Qed.

Lemma resolve_found uuid d p u r : findConnectionAttempt d p r = Some u -> resolveConnectionAttempt uuid d p r = (u, r).
Proof. intros H. unfold resolveConnectionAttempt. by rewrite H. Qed.

Lemma usb_connected_tied now u d p c uu ea r : deviceId c = d -> cd_port (uc_info c) = p ->
  tied u d p (clientId c) None ea r ->
  attempt_ids (trace_step now (TUsbConnected uu c) r).1 = [Some u] /\
  tied u d p (clientId c) (Some (mkTraceInfo (Some d) (Some p) (Some u))) ea (trace_step now (TUsbConnected uu c) r).2.
Proof.
  intros Hd Hp T. cbn [trace_step]. unfold recordUsbClientConnected. rewrite Hd, Hp, (resolve_found uu d p u r) by apply T.
  match goal with |- context [recordNode ?n ?e ?dv ?m ?a r] => pose proof (recordNode_attempt n e dv m a r (td_live _ _ _ _ _ _ _ T)) as A;
    pose proof (tied_after u d p (clientId c) None ea n e dv m a r T) as T'; destruct (recordNode n e dv m a r) as [es q] end.
  cbn [fst snd] in *. split; [done|]. destruct T' as [T1 T2 T3 T4]. split; try done. cbn. apply mget_mset_eq.
Qed.

Lemma app_connected_tied now u d p c uu eu r : deviceId c = d -> cd_port (uc_info c) = p ->
  tied u d p (clientId c) eu None r -> (eu ≫= ti_connectionAttemptId) = Some u ->
  attempt_ids (trace_step now (TAppConnected uu (inl c)) r).1 = [Some u] /\
  tied u d p (clientId c) eu (Some (mkTraceInfo (Some d) (Some p) (Some u))) (trace_step now (TAppConnected uu (inl c)) r).2.
Proof.
  intros Hd Hp T He. cbn [trace_step]. unfold recordAppClientConnected. rewrite Hd, Hp, (td_usb _ _ _ _ _ _ _ T), He.
  match goal with |- context [recordNode ?n ?e ?dv ?m ?a r] => pose proof (recordNode_attempt n e dv m a r (td_live _ _ _ _ _ _ _ T)) as A;
    pose proof (tied_after u d p (clientId c) eu None n e dv m a r T) as T'; destruct (recordNode n e dv m a r) as [es q] end.
  cbn [fst snd] in *. split; [done|]. destruct T' as [T1 T2 T3 T4]. split; try done. cbn. apply mget_mset_eq.
Qed.

(** The ways out. *)
Lemma tied_attempt_out now u d p c m eu ea r : deviceId c = d -> cd_port (uc_info c) = p -> tied u d p (clientId c) eu ea r ->
  (eu ≫= ti_connectionAttemptId) = Some u -> (ea ≫= ti_connectionAttemptId) = Some u ->
  attempt_ids (trace_step now (TUsbDisconnected c) r).1 = [Some u] /\
  attempt_ids (trace_step now (TAppDisconnected (clientId c)) r).1 = [Some u] /\
  attempt_ids (trace_step now (TSocketDisconnected d p m None) r).1 = [Some u].
Proof.
  intros Hd Hp [Hl T2 T3 T4] Hu Ha. cbn [trace_step]. unfold recordUsbClientDisconnected, recordAppClientDisconnected, recordSocketDisconnected.
  rewrite T2, T3, T4, Hu, Ha.
  repeat split; match goal with |- context [recordNode ?n ?e ?dv ?m ?a r] => pose proof (recordNode_attempt n e dv m a r Hl) as A;
    destruct (recordNode n e dv m a r) as [es q] end; exact A.
Qed.

(** The nodes of one connection share its attempt id.  The id that a
    connected socket was given is found by the registration of the runtime, by
    the USB and the app client it becomes, and by all three disconnections,
    whatever else happens in between on other ports and with other clients, as
    long as no device is plugged in whose serial followed by a colon begins the
    key of this port. *)
Theorem attempt_correlated now u d p m r c ops1 ops2 ops3 u1 u2 :
  live r -> mget (clientId c) (tr_usbClientConnections r) = None -> mget (clientId c) (tr_appClientConnections r) = None ->
  deviceId c = d -> cd_port (uc_info c) = p ->
  forallb (fun q => undisturbed d p (clientId c) q.2) (ops1 ++ ops2 ++ ops3) = true ->
  let r1 := (trace_run ops1 (trace_step now (TSocketConnected u d p m) r).2).2 in
  let r2 := (trace_run ops2 (trace_step now (TUsbConnected u1 c) r1).2).2 in
  let r3 := (trace_run ops3 (trace_step now (TAppConnected u2 (inl c)) r2).2).2 in
  attempt_ids (trace_step now (TSocketConnected u d p m) r).1 = [Some u] /\
  attempt_ids (trace_step now (TSdkRegister u1 d p m None) r1).1 = [Some u] /\
  attempt_ids (trace_step now (TUsbConnected u1 c) r1).1 = [Some u] /\
  attempt_ids (trace_step now (TAppConnected u2 (inl c)) r2).1 = [Some u] /\
  attempt_ids (trace_step now (TUsbDisconnected c) r3).1 = [Some u] /\
  attempt_ids (trace_step now (TAppDisconnected (clientId c)) r3).1 = [Some u] /\
  attempt_ids (trace_step now (TSocketDisconnected d p m None) r3).1 = [Some u].
Proof.
  intros Hl Hu Ha Hd Hp Hops. cbn zeta. rewrite !forallb_app in Hops. apply andb_prop in Hops as [Ho1 [Ho2 Ho3]%andb_prop].
  destruct (tied_connected now u d p (clientId c) m r Hl Hu Ha) as [A0 T0]. split; [exact A0|].
  pose proof (tied_run u d p (clientId c) None None ops1 _ I I Ho1 T0) as T1. revert T1. generalize (trace_run ops1 (trace_step now (TSocketConnected u d p m) r).2).2.
  intros r1 T1. split.
  { cbn [trace_step]. unfold recordSdkRegister. rewrite (resolve_found u1 d p u r1) by apply T1. apply recordNode_attempt, T1. }
  destruct (usb_connected_tied now u d p c u1 None r1 Hd Hp T1) as [A1 T2]. split; [exact A1|].
  pose proof (tied_run u d p (clientId c) (Some (mkTraceInfo (Some d) (Some p) (Some u))) None ops2 _ eq_refl I Ho2 T2) as T3. revert T3. generalize (trace_run ops2 (trace_step now (TUsbConnected u1 c) r1).2).2.
  intros r2 T3. destruct (app_connected_tied now u d p c u2 _ r2 Hd Hp T3 eq_refl) as [A2 T4]. split; [exact A2|].
  refine (tied_attempt_out now u d p c m _ _ _ Hd Hp (tied_run u d p (clientId c) _ _ ops3 _ _ _ Ho3 T4) _ _); done.
Qed.

Definition trace_phone : UsbClient :=
  mkUsbClient (mkClientDescription 8901 1 (mkClientQuery (jstring "app") (js "Android") (js "pixel") (jstring "m") (js "192.168.0.5:5555") None None)).

Lemma attempt_correlated_example :
  let r := new_recorder (mkSink StreamTraceSink false (fun _ => false)) (NInt 10) in
  let r1 := (trace_run [(js "t", TPlug (js "other") None)] (trace_step (js "t") (TSocketConnected (js "u") (js "192.168.0.5:5555") 8901 None) r).2).2 in
  attempt_ids (trace_step (js "t") (TUsbConnected (js "v") trace_phone) r1).1 = [Some (js "u")].
Proof.
  intros r r1.
  apply (attempt_correlated (js "t") (js "u") (js "192.168.0.5:5555") 8901 None r trace_phone [(js "t", TPlug (js "other") None)] [] [] (js "v") (js "w"));
    vm_compute; repeat split.
Defined.

Lemma mget_filter_out {K V} `{EqDecision K} (f : K * V -> bool) (m : list (K * V)) k :
  (forall v, f (k, v) = false) -> mget k (List.filter f m) = None.
Proof.
  intros H. induction m as [|[j w] m IH]; [done|]. cbn [List.filter]. destruct (f (j, w)) eqn:E; [|done].
  unfold mget; fold (@mget K V _). case_decide; [subst; by rewrite H in E|done].
Qed.

Lemma recordNode_live now ev dv m a r : live r -> live (recordNode now ev dv m a r).2.
Proof. pose proof (recordNode_books now ev dv m a r) as [= H1 _ _ _ H5]. unfold live. by rewrite H1, H5. Qed.

Lemma recordNode_find now ev dv m a r d p : findConnectionAttempt d p (recordNode now ev dv m a r).2 = findConnectionAttempt d p r.
Proof. pose proof (recordNode_books now ev dv m a r) as [= _ H _ _ _]. unfold findConnectionAttempt. by rewrite H. Qed.

(** The id of an attempt can be lost while it is in use.  Plugging in a
    device forgets the attempts of all devices whose serials begin with its own
    and a colon: a network device named by its address takes those of an
    Android device that adb reaches at the same address and a port.  And a late
    disconnection of an earlier socket of a port forgets the attempt of the
    socket that replaced it.  In both cases the client that then registers is
    recorded under an id that no socket was given. *)
Theorem attempt_split now u u' d x p m m' r c : live r -> deviceId c = d ++ js ":" ++ x -> cd_port (uc_info c) = p ->
  let r1 := (trace_step now (TSocketConnected u (d ++ js ":" ++ x) p m) r).2 in
  attempt_ids (trace_step now (TUsbConnected u' c) (trace_step now (TPlug d m') r1).2).1 = [Some u'] /\
  forall old, attempt_ids (trace_step now (TUsbConnected u' c)
    (trace_step now (TSocketDisconnected (d ++ js ":" ++ x) p m' (Some old)) r1).2).1 = [Some u'].
Proof.
  intros Hl Hd Hp. cbn zeta.
  assert (forall r, live r -> findConnectionAttempt (deviceId c) p r = None ->
    attempt_ids (trace_step now (TUsbConnected u' c) r).1 = [Some u']) as Hnew.
  { intros q Hq Hf. cbn [trace_step]. unfold recordUsbClientConnected, resolveConnectionAttempt. rewrite Hp, Hf. unfold startConnectionAttempt.
    match goal with |- context [recordNode ?n ?e ?dv ?mm ?a ?q] => pose proof (recordNode_attempt n e dv mm a q Hq) as A;
      destruct (recordNode n e dv mm a q) as [es q1] end. exact A. }
  assert (live (trace_step now (TSocketConnected u (d ++ js ":" ++ x) p m) r).2) as H1 by (by apply recordNode_live).
  revert H1. generalize (trace_step now (TSocketConnected u (d ++ js ":" ++ x) p m) r).2. intros r1 H1. split.
  - apply Hnew; cbn [trace_step]; unfold recordDevicePlug; [by apply recordNode_live|]. rewrite recordNode_find.
    unfold findConnectionAttempt. cbn. apply mget_filter_out. intros v. cbn [fst]. rewrite Hd. unfold portKey.
    rewrite (app_assoc d), <- app_assoc, startsWith_app. done.
  - intros old. apply Hnew; cbn [trace_step]; unfold recordSocketDisconnected;
      match goal with |- context [recordNode ?n ?e ?dv ?mm ?a r1] => pose proof (recordNode_live n e dv mm a r1 H1) as A;
        destruct (recordNode n e dv mm a r1) as [es q1] end; [exact A|].
    unfold findConnectionAttempt. cbn. rewrite Hd, mget_mdel. by rewrite decide_True.
Qed.

Lemma attempt_split_example :
  let r1 := (trace_step (js "t") (TSocketConnected (js "u") (js "192.168.0.5" ++ js ":" ++ js "5555") 8901 None)
               (new_recorder (mkSink StreamTraceSink false (fun _ => false)) (NInt 10))).2 in
  attempt_ids (trace_step (js "t") (TUsbConnected (js "v") trace_phone) (trace_step (js "t") (TPlug (js "192.168.0.5") None) r1).2).1 =
    [Some (js "v")].
Proof.
  refine (proj1 (attempt_split (js "t") (js "u") (js "v") (js "192.168.0.5") (js "5555") 8901 None None
    (new_recorder (mkSink StreamTraceSink false (fun _ => false)) (NInt 10)) trace_phone _ _ _)); vm_compute; repeat split.
Defined.
