(* ===== verification/Wiring.v ===== *)
(** * From the options of a connector to its daemon

    Models the constructor of [connector/DebugRouterConnector.ts]: the paths, the
    daemon manager and the daemon client it makes from its options, and
    [initDriverReportService].  The theorem follows the options through the
    command line and the registration into the host of the daemon.  The home and
    working directories and the platform are parameters. *)

From Stdlib Require Import String.
From stdpp Require Import strings.
From S2P Require Import Trace JsValue Json Protocol Physical Ownership ReportBridge Host HostRun Holders Client Paths Mirror Facade System FileLock Entry Manager.

(** ** Options *)

(** [DebugRouterConnectorOption].  [co_facade] are the options the facade itself
    uses; its room is that of [co_websocketOption].  [co_printable] says whether
    [JSON.stringify] can print the options, the report service among them. *)
Record ConnectorOption := mkConnectorOption {
  co_facade : FacadeOption;
  co_printable : bool;
  co_connectionTrace : option ConnectionTraceOptions;
  co_multiplexerDaemonIdleTimeout : option num;
  co_multiplexerStartupTimeout : option Z;
  co_multiplexerRpcTimeout : option num;
  co_multiplexerRootDir : option jstr;
  co_multiplexerDataDir : option jstr;
  co_multiplexerDaemonEntry : option jstr;
  co_multiplexerLegacyDriverDir : option jstr;
  co_websocketPort : option num;
  co_websocketOption : bool                        (* [websocketOption] is given *)
}.

(** [initDriverReportService]: the service this facade reports to, and whether
    it is initialised. *)
Definition initDriverReportService (service : bool) : bool * bool := (service, service).

Section Process.
Variables (homedir cwd : jstr) (process_platform : platform) (entryPath : jstr) (pid : Z).

(** [path.resolve(p)] of a POSIX path. *)
Definition path_resolve (p : jstr) : jstr :=
  slash :: join_segments (rev (fold_left (push_segment false) (split_path (if is_absolute p then p else cwd ++ slash :: p)) [])).

Definition createDaemonConnectionTraceOption (o : ConnectorOption) : jsval :=
  match co_connectionTrace o with
  | None => None
  | Some t => Some (jobj [opt_field "enabled" (JBool <$> to_enabled t); opt_field "bufferSize" (JNum <$> to_bufferSize t);
      opt_field "output" (match to_output t with Some (OutputPath p) => Some (JStr (path_resolve p)) | _ => None end)])
  end.

(** A stream is ignored with a warning. *)
Definition trace_output_ignored (o : ConnectorOption) : bool :=
  match co_connectionTrace o ≫= to_output with Some OutputStream => true | _ => false end.

Definition driver_dir : jstr := homedir ++ js "/.DebugRouterConnector".

(** ** The constructor *)

Definition connector_paths (o : ConnectorOption) : MultiplexerPaths :=
  createMultiplexerPaths homedir process_platform (mkPathOptions (co_multiplexerRootDir o) (co_multiplexerDataDir o)).

Definition connector_config (o : ConnectorOption) : DaemonConfig :=
  mkDaemonConfig (mp_controlEndpoint (connector_paths o)) (NInt MULTIPLEXER_PROTOCOL_VERSION)
    (default (NInt DEFAULT_MULTIPLEXER_DAEMON_IDLE_TIMEOUT) (co_multiplexerDaemonIdleTimeout o)) None
    (Some (default driver_dir (co_multiplexerLegacyDriverDir o))) (Some (default false (fo_enableWebSocket (co_facade o))))
    (if co_websocketOption o then Some (mkWebSocketOption (co_websocketPort o) (fo_roomId (co_facade o))) else None)
    (createDaemonConnectionTraceOption o) (Some (createDaemonPhysicalConnectorOption (co_facade o))).

Definition connector_manager (o : ConnectorOption) : Manager :=
  setDaemonClient (new_manager (mkManagerOption (connector_config o) (default entryPath (co_multiplexerDaemonEntry o))
    (Some (default DEFAULT_MULTIPLEXER_STARTUP_TIMEOUT (co_multiplexerStartupTimeout o))) None None
    (Some (default false (fo_enableDebugMode (co_facade o))))) (match process_platform with Win32 => true | Posix => false end)).

Definition connector_client (o : ConnectorOption) : DaemonClient :=
  new_client (co_multiplexerRpcTimeout o) (Some (initDriverReportService (fo_reportService (co_facade o))).1)
    (connectorFacadeOption (co_facade o)) None pid.

Record Connector := mkConnector { cn_facade : Facade; cn_manager : Manager; cn_daemonClient : DaemonClient; cn_endpoint : jstr }.

(** [None] when printing the options throws. *)
Definition new_connector (o : ConnectorOption) : option (list facade_effect * Connector) :=
  if co_printable o then
    let '(es, f) := new_facade (co_facade o) in
    Some (es, mkConnector f (connector_manager o) (connector_client o) (mp_controlEndpoint (connector_paths o)))
  else None.
End Process.

(** ** What the user enabled *)

(** The managers the options ask for, in the order they are added; there is one
    for iOS only where the platform of the daemon supports it. *)
Definition wanted_managers (iosSupported : bool) (o : FacadeOption) : list DeviceManager :=
  (if default true (fo_enableAndroid o) then [android_key (fo_adbHostPort o)] else []) ++
  (if default true (fo_enableHarmony o) then [harmony_key (fo_hdcHostPort o)] else []) ++
  (if iosSupported && default true (fo_enableIOS o) then [ios_key] else []) ++
  (if default false (fo_enableDesktop o) then [desktop_key] else []) ++
  (if default false (fo_enableNetworkDevice o) && truthy (fo_networkDeviceOpt o) then [network_key (fo_networkDeviceOpt o)] else []).

(** The endpoints are of their types. *)
Definition valid_endpoints (o : FacadeOption) : bool :=
  isOptional (fo_adbHostPort o) isHostPort && isOptional (fo_hdcHostPort o) isHostPort &&
  isOptional (fo_usbConnectOpt o) (fun v => isRecord v && isNonNegative (v@."retryTime")) &&
  isOptional (fo_networkDeviceOpt o) (fun v => isRecord v && nonEmptyString (v@."ip") && isOptional (v@."port") isNumberArray).

(** What the host reads of the option it is registered with. *)
Record facade_reads (o : FacadeOption) (v : jsval) : Prop := {
  fr_manual : v@."manualConnect" = Some (JBool (default false (fo_manualConnect o)));
  fr_android : v@."enableAndroid" = Some (JBool (default true (fo_enableAndroid o)));
  fr_ios : v@."enableIOS" = Some (JBool (default true (fo_enableIOS o)));
  fr_harmony : v@."enableHarmony" = Some (JBool (default true (fo_enableHarmony o)));
  fr_desktop : v@."enableDesktop" = Some (JBool (default false (fo_enableDesktop o)));
  fr_network : v@."enableNetworkDevice" = Some (JBool (default false (fo_enableNetworkDevice o)));
  fr_adb : v@."adbHostPort" = fo_adbHostPort o;
  fr_hdc : v@."hdcHostPort" = fo_hdcHostPort o;
  fr_usb : v@."usbConnectOpt" = fo_usbConnectOpt o;
  fr_net : v@."networkDeviceOpt" = fo_networkDeviceOpt o;
  fr_ws : v@."enableWebSocket" = Some (JBool (default false (fo_enableWebSocket o)))
}.

Lemma connector_option_reads o : facade_reads o (Some (connectorFacadeOption o)).
Proof.
  unfold connectorFacadeOption, createDaemonPhysicalConnectorOption, jobj. split;
    destruct (fo_adbHostPort o), (fo_hdcHostPort o), (fo_usbConnectOpt o), (fo_networkDeviceOpt o); jsimp; done.
Qed.

Lemma connector_option_accepted o : valid_endpoints o = true -> isConnectorFacadeOption (Some (connectorFacadeOption o)) = true.
Proof.
  intros Hv. destruct (connector_option_reads o) as [R1 R2 R3 R4 R5 R6 R7 R8 R9 R10 R11]. unfold isConnectorFacadeOption.
  cbn [forallb facade_bool_keys]. rewrite R1, R2, R3, R4, R5, R6, R7, R8, R9, R10, R11. unfold valid_endpoints in Hv.
  apply andb_prop in Hv as [Hv ->]. apply andb_prop in Hv as [Hv ->]. apply andb_prop in Hv as [-> ->]. rewrite !andb_true_r. cbn [isOptional isBoolean andb].
  unfold connectorFacadeOption, createDaemonPhysicalConnectorOption, jobj.
  destruct (fo_adbHostPort o), (fo_hdcHostPort o), (fo_usbConnectOpt o), (fo_networkDeviceOpt o); vm_compute; reflexivity.
Qed.

(** ** The host after the registration *)

(** The settings of the host that the connector decides: the manager objects of
    the physical connector, whether WebSockets are served, and whether devices
    are connected manually. *)
Definition settings (h : Host) : list DeviceManager * bool * bool :=
  (mvals (pc_devicesManager (h_physicalConnector h)), h_enableWebSocket h, pc_manualConnect (h_physicalConnector h)).

(** A host with the managers of the keys [ks], of which the connector has those
    that are supported. *)
Record configured (iosSupported : bool) (h : Host) (ks : list DeviceManager) (ws manual : bool) : Prop := {
  cf_ios : ho_iosSupported (h_option h) = iosSupported;
  cf_keys : List.map em_key (h_enabledManagers h) = ks;
  cf_wf : objects_wf (h_physicalConnector h);
  cf_objects : objects (h_physicalConnector h) = List.filter (created iosSupported) ks;
  cf_ws : h_enableWebSocket h = ws;
  cf_manual : pc_manualConnect (h_physicalConnector h) = manual
}.

(** What does not touch the managers. *)
Lemma configured_from ios h h' ks ws manual : held h' = held h -> h_enableWebSocket h' = h_enableWebSocket h ->
  pc_manualConnect (h_physicalConnector h') = pc_manualConnect (h_physicalConnector h) ->
  configured ios h ks ws manual -> configured ios h' ks ws manual.
Proof.
  intros E E6 E7 [C1 C2 [C3 C3'] C4 C5 C6]. injection E as E1 E2 E3 E4 _. unfold objects in *.
  split; rewrite ?E1, ?E4, ?E6, ?E7; try done; [split; rewrite ?E2, ?E3; done|]. unfold objects. by rewrite E2.
Qed.

Lemma add_new_manager key c ms : dm_platform key ∉ List.map (fun m => dm_platform (em_key m)) ms ->
  add_to_managers key c ms = (true, ms ++ [mkEnabled key [c]]).
Proof.
  induction ms as [|m ms IH]; intros Hn; [done|]. cbn in Hn. apply not_elem_of_cons in Hn as [Hne Hn]. cbn [add_to_managers].
  unfold key_eqb. rewrite bool_decide_false by congruence. cbn [andb]. by rewrite IH.
Qed.

Lemma when_add_manager ios b key c auto sup h ks ws manual : configured ios h ks ws manual ->
  dm_platform key ∉ List.map dm_platform ks -> sup = created ios key ->
  configured ios (when b (add_manager key c auto sup) h).2 (ks ++ (if b then [key] else [])) ws manual.
Proof.
  intros Hc Hn ->. destruct b; [|by rewrite app_nil_r]. destruct Hc as [C1 C2 C3 C4 C5 C6]. cbn [when]. unfold add_manager, addManagerControl.
  rewrite add_new_manager by (by rewrite <- C2, List.map_map in Hn). cbn [andb].
  destruct (created ios key) eqn:Ec.
  - destruct (add_object key auto (h_physicalConnector h) C3) as [O1 O2].
    change (h_physicalConnector (h <| h_enabledManagers := _ |>)) with (h_physicalConnector h).
    assert (pc_manualConnect (addDeviceManager key auto (h_physicalConnector h)).2 = pc_manualConnect (h_physicalConnector h)) as Em by done.
    destruct (addDeviceManager key auto (h_physicalConnector h)) as [e p]. cbn [snd] in *.
    split; hcbn; rewrite ?List.map_app, ?List.filter_app, ?O2, ?Em, ?C2, ?C4; try done. cbn. by rewrite Ec.
  - split; hcbn; rewrite ?List.map_app, ?List.filter_app, ?C2, ?C4; try done. cbn. by rewrite Ec, app_nil_r.
Qed.

(** The platforms of a list of managers each of which may be left out. *)
Ltac platforms := rewrite ?List.map_app; repeat match goal with |- context [if ?b then _ else _] => destruct b end; cbn; apply (bool_decide_unpack _); vm_compute; exact I.

(** The keys the options ask for, whether their managers are supported or not. *)
Abbreviation wanted_keys := (wanted_managers true).

Lemma wanted_created ios o : List.filter (created ios) (wanted_keys o) = wanted_managers ios o.
Proof.
  unfold wanted_managers. destruct (default true (fo_enableAndroid o)), (default true (fo_enableHarmony o)), (default true (fo_enableIOS o)),
    (default false (fo_enableDesktop o)), (default false (fo_enableNetworkDevice o) && truthy (fo_networkDeviceOpt o)), ios; reflexivity.
Qed.

Lemma addPhysical_settings ios c v o h ws manual : facade_reads o v -> configured ios h [] ws manual ->
  configured ios (addPhysicalDeviceManagers c v h).2 (wanted_keys o) ws manual.
Proof.
  intros [R1 R2 R3 R4 R5 R6 R7 R8 R9 R10 R11] Hs. unfold addPhysicalDeviceManagers. rewrite R2, R3, R4, R5, R6, R7, R8, R9, R10. cbn [truthy].
  set (h1 := if truthy (fo_usbConnectOpt o) then _ else h).
  assert (Hs1 : configured ios h1 [] ws manual) by (apply (configured_from ios h); try done; unfold h1; by destruct (truthy (fo_usbConnectOpt o))).
  rewrite !seq_after. cbn [seq_ops snd]. unfold addNetworkManager. rewrite (cf_ios _ _ _ _ _ Hs1). set (auto := negb _).
  pose proof (when_add_manager ios (default true (fo_enableAndroid o)) (android_key (fo_adbHostPort o)) c auto true h1 [] ws manual Hs1 ltac:(apply not_elem_of_nil) eq_refl) as Hs2.
  pose proof (when_add_manager ios (default true (fo_enableHarmony o)) (harmony_key (fo_hdcHostPort o)) c auto true _ _ ws manual Hs2 ltac:(platforms) eq_refl) as Hs3.
  pose proof (when_add_manager ios (default true (fo_enableIOS o)) ios_key c auto ios _ _ ws manual Hs3 ltac:(platforms) eq_refl) as Hs4.
  pose proof (when_add_manager ios (default false (fo_enableDesktop o)) desktop_key c auto true _ _ ws manual Hs4 ltac:(platforms) eq_refl) as Hs5.
  pose proof (when_add_manager ios (default false (fo_enableNetworkDevice o) && truthy (fo_networkDeviceOpt o)) (network_key (fo_networkDeviceOpt o)) c auto true _ _ ws manual Hs5 ltac:(platforms) eq_refl) as Hs6.
  rewrite <- !app_assoc in Hs6. exact Hs6.
Qed.

Lemma connected_settings c report o v now h : facade_reads o v -> is_Some v ->
  h_enabledManagers h = [] -> pc_devicesManager (h_physicalConnector h) = [] -> h_autoConnectControlIds h = [] ->
  settings (handleControlConnected c report v now h).2 =
    (wanted_managers (ho_iosSupported (h_option h)) o, default false (fo_enableWebSocket o) || h_enableWebSocket h, default false (fo_manualConnect o)).
Proof.
  intros R [x ->] Hm Hp Ha. pose proof R as [R1 R2 R3 R4 R5 R6 R7 R8 R9 R10 R11]. unfold handleControlConnected. cbv zeta. cbn [default]. unfold id.
  rewrite R1, R11. cbn [truthy]. set (ios := ho_iosSupported (h_option h)).
  match goal with |- context [seq_ops ?ops ?h0] => set (h1 := h0); set (all := ops) end.
  assert (Hs : configured ios h1 [] (h_enableWebSocket h) (default false (fo_manualConnect o))).
  { assert (objects_wf (h_physicalConnector h)) as Hw by (split; rewrite Hp; [apply NoDup_nil_2|by intros i ?%not_elem_of_nil]).
    unfold h1. destruct (default false (fo_manualConnect o)), report; (split; unfold objects; hcbn; rewrite ?Hm, ?Ha; try done; [by destruct Hw|cbn; by rewrite Hp]). }
  clearbody h1. destruct (seq_ops all h1) as [e1 h2] eqn:E. cbn [snd]. change h2 with (e1, h2).2. rewrite <- E. unfold all. clear E. rewrite !seq_after. cbn [seq_ops snd].
  set (h3 := (when _ _ (updateReportStatus h1).2).2).
  assert (Hs3 : configured ios h3 [] (h_enableWebSocket h) (default false (fo_manualConnect o))).
  { apply (configured_from ios h1); try done; unfold h3; destruct (negb _); cbn [when]; rewrite ?held_report, ?held_report_status; try done;
      unfold updateReportStatus, host_report; by repeat destruct (updateStatus _ _ _), (ReportBridge.report _ _ _ _ _) || destruct (updateStatus _ _ _). }
  clearbody h3. set (h4 := if default false (fo_enableWebSocket o) then _ else h3).
  assert (Hs4 : configured ios h4 [] (default false (fo_enableWebSocket o) || h_enableWebSocket h) (default false (fo_manualConnect o))).
  { unfold h4. destruct (default false (fo_enableWebSocket o)); [|done]. by destruct Hs3; split. }
  destruct (addPhysical_settings ios c (Some x) o h4 _ _ R Hs4) as [_ _ _ C4 C5 C6]. rewrite wanted_created in C4. unfold settings, objects in *.
  by destruct (negb _); cbn [when snd]; rewrite C4, C5, C6.
Qed.

(** C35: The options of a connector arrive in its daemon.  From options that JSON
    can carry, whose strings do not look like options and whose endpoints (adb and
    hdc addresses, network address, USB options) are of their types, the daemon
    the manager starts listens where the client connects, with the protocol
    version, idle timeout, room, trace and device options of the connector,
    defaults applied; the client's registration is accepted; and with it the
    physical connector of the daemon has exactly the device managers the user
    enabled, in their order, the one for iOS only where the platform supports it;
    the daemon serves WebSockets only if the user said so, and watches devices of
    its own accord unless the user connects manually. *)
Theorem connector_configures_daemon homedir cwd pl entryPath pid o hpid iosSupported controlId now :
  let cfg := connector_config homedir cwd pl o in
  let c := connector_client pid o in
  wf_config cfg = true -> plain_config cfg = true -> valid_endpoints (co_facade o) = true ->
  exists e ho,
    parseEntryOption (createDaemonEntryArgs (mg_config (connector_manager homedir cwd pl entryPath o))) = inl e /\
    host_option hpid iosSupported (createDaemonHost e) = Some ho /\
    eo_controlEndpoint e = mp_controlEndpoint (connector_paths homedir pl o) /\
    ho_protocolVersion ho = MULTIPLEXER_PROTOCOL_VERSION /\
    ho_idleTimeout ho = default (NInt 600000) (co_multiplexerDaemonIdleTimeout o) /\
    ho_roomId ho = (if co_websocketOption o then fo_roomId (co_facade o) else None) /\
    eo_connectionTrace e = createDaemonConnectionTraceOption cwd o /\
    eo_physicalConnectorOption e = Some (createDaemonPhysicalConnectorOption (co_facade o)) /\
    let request := Some (register_request_json (dc_reportServiceEnabled c) (Some (dc_connectorFacadeOption c)) (client_debugInfo now c)) in
    isMultiplexerRegisterRequest request = true /\
    settings (handleControlConnected controlId (isTrue (request@."reportServiceEnabled")) (request@."connectorFacadeOption") now (new_host ho)).2 =
      (wanted_managers iosSupported (co_facade o), default false (fo_enableWebSocket (co_facade o)), default false (fo_manualConnect (co_facade o))).
Proof.
  cbn zeta. intros Hw Hp Hv. pose proof (entry_roundtrip _ Hw Hp) as (e & He & Hh).
  exists e. eexists. split; [exact He|]. split; [rewrite Hh; reflexivity|].
  assert (Hparts : eo_controlEndpoint e = dh_controlEndpoint (createDaemonHost e) /\ eo_connectionTrace e = dh_connectionTrace (createDaemonHost e) /\
    eo_physicalConnectorOption e = dh_physicalConnectorOption (createDaemonHost e)) by done.
  destruct Hparts as (-> & -> & ->). rewrite Hh. cbn [configured_host connector_config dh_controlEndpoint dh_connectionTrace dh_physicalConnectorOption].
  split; [done|]. split; [done|]. split; [done|]. split; [unfold configured_host, connector_config; cbn; by destruct (co_websocketOption o), (co_websocketPort o), (fo_roomId (co_facade o))|].
  split; [done|]. split; [done|].
  assert (Hdbg : client_debugInfo now (connector_client pid o) = None) by done. rewrite Hdbg.
  change (dc_connectorFacadeOption (connector_client pid o)) with (connectorFacadeOption (co_facade o)). unfold register_request_json. split.
  - unfold isMultiplexerRegisterRequest. jsimp. cbn [isOptional jeq_str]. rewrite connector_option_accepted by done. done.
  - jsimp. rewrite (connected_settings controlId _ (co_facade o)); [|apply connector_option_reads|done|done|done|done].
    f_equal. f_equal. cbn. by destruct (default false (fo_enableWebSocket (co_facade o))).
Qed.

(** ** Examples *)

Definition sample_option : ConnectorOption :=
  mkConnectorOption
    (mkFacadeOption (Some true) true (Some true) None (Some false) None None (Some true) None (Some (js "room"))
       (Some (JObj [(js "port", jint 5038)])) None None (Some (JObj [(js "ip", jstring "10.0.0.7")])))
    true (Some (mkTraceOptions (Some true) (Some (OutputPath (js "logs/../trace.jsonl"))) None)) None None None None None None None None true.

Lemma connector_configures_daemon_witness :
  exists e ho,
    parseEntryOption (createDaemonEntryArgs (mg_config (connector_manager (js "/home/u") (js "/work") Posix (js "/entry.js") sample_option))) = inl e /\
    host_option 5 false (createDaemonHost e) = Some ho /\
    eo_connectionTrace e = Some (JObj [(js "enabled", JBool true); (js "output", jstring "/work/trace.jsonl")]) /\
    settings (handleControlConnected 1 true (Some (connectorFacadeOption (co_facade sample_option))) 0 (new_host ho)).2 =
      ([Physical.mkManager android (Some (js "127.0.0.1")) (Some (NInt 5038)) None; Physical.mkManager harmony (Some (js "127.0.0.1")) (Some (NInt 8710)) None;
        Physical.mkManager network None None (Some (js "10.0.0.7"))], true, true).
Proof.
  destruct (connector_configures_daemon (js "/home/u") (js "/work") Posix (js "/entry.js") 9 sample_option 5 false 1 0) as (e & ho & H1 & H2 & _ & _ & _ & _ & H3 & _ & _ & H4);
    [vm_compute; reflexivity..|].
  exists e, ho. split; [exact H1|]. split; [exact H2|]. split; [rewrite H3; vm_compute; reflexivity|]. exact H4.
Defined.
