(* ===== verification/Watch.v ===== *)
(** * Watching for clients of a device

    Models [usb/ClientController.ts] with the connecting part of
    [usb/ClientAdapter.ts]: the adapters that try the debugging ports of a device
    again and again, and the clients that register through them.  Adapters are
    objects of a store, because retired ones stay reachable from their sockets.
    Client ids come from the physical connector and are arguments; registering
    and unregistering clients there are effects. *)

From Stdlib Require Import String.
From stdpp Require Import strings.
From S2P Require Import JsValue Json Protocol Physical.

(** ** State *)

(** The socket of an adapter: new, connecting, open, or destroyed. *)
Inductive socket_state := SockNew | SockConnecting | SockOpen | SockDestroyed.

#[export] Instance socket_state_eq_dec : EqDecision socket_state.
Proof. solve_decision. Defined.

Record ClientAdapter := mkClientAdapter {
  ad_port : Z;
  ad_listener : bool;           (* not [null] *)
  ad_isConnected : bool;
  ad_id : Z;
  ad_tcpClient : socket_state;
  ad_tunnel : bool              (* [getTunnel] has not answered yet *)
}.

Record ClientController := mkController {
  cc_timer : bool;              (* an interval is running *)
  cc_watching : bool;
  cc_scanning : bool;
  cc_scan : option (Z * list Z);   (* the port whose check is awaited, and the ports after it *)
  cc_sockets : list (Z * Z);    (* port to adapter *)
  cc_ports : list (Z * bool);
  cc_clientInfos : list (Z * Z);
  cc_connections : list (Z * UsbClient);
  cc_adapters : list (Z * ClientAdapter);   (* the store *)
  cc_nextAdapter : Z
}.

#[export] Instance eta_adapter_obj : Eta ClientAdapter := fun a =>
  mkClientAdapter (ad_port a) (ad_listener a) (ad_isConnected a) (ad_id a) (ad_tcpClient a) (ad_tunnel a).

#[export] Instance eta_controller : Eta ClientController := fun c =>
  mkController (cc_timer c) (cc_watching c) (cc_scanning c) (cc_scan c) (cc_sockets c) (cc_ports c) (cc_clientInfos c)
    (cc_connections c) (cc_adapters c) (cc_nextAdapter c).

(** Calls of the physical connector. *)
Inductive watch_effect :=
  | RegisterUsbClient (c : UsbClient)
  | UnregisterUsbClient (id : Z).

Inductive port_check := PortReady | PortSkip | PortPause.

(** ** Adapters *)

Definition upd_adapter (aid : Z) (g : ClientAdapter -> ClientAdapter) (c : ClientController) : ClientController :=
  match mget aid (cc_adapters c) with
  | Some a => c <| cc_adapters ::= mset aid (g a) |>
  | None => c
  end.

(** [new ClientAdapter(...)] for a port. *)
Definition createAdapter (port : Z) (c : ClientController) : Z * ClientController :=
  (cc_nextAdapter c,
   c <| cc_adapters ::= mset (cc_nextAdapter c) (mkClientAdapter port true false 0 SockNew false) |>
     <| cc_nextAdapter ::= Z.succ |>).

Definition destroyed (a : ClientAdapter) : ClientAdapter :=
  a <| ad_listener := false |> <| ad_tcpClient := SockDestroyed |>.

Definition destroy_adapter (aid : Z) : ClientController -> ClientController := upd_adapter aid destroyed.

Definition destroy_opt (aid : option Z) (c : ClientController) : ClientController :=
  match aid with Some aid => destroy_adapter aid c | None => c end.

Section Device.
(** The platform of the device, and whether [DriverAutoFindClientsEnv]
    allows to look for clients again and again. *)
Context (os : jstr) (autoFind : bool).

Definition isIOS : bool := bool_decide (os = js "iOS").
Definition isAndroid : bool := bool_decide (os = js "Android").

(** [connect]: on iOS through a tunnel that opens later, else at once. *)
Definition adapter_connect (a : ClientAdapter) : ClientAdapter :=
  if ad_isConnected a || bool_decide (ad_tcpClient a = SockConnecting) then a
  else if isIOS then a <| ad_tunnel := true |>
  else a <| ad_tcpClient := SockConnecting |>.

Definition connect_adapter (aid : Z) : ClientController -> ClientController := upd_adapter aid adapter_connect.

(** The constructor makes an adapter for every port and connects none. *)
Definition new_controller (ports : list Z) : ClientController :=
  fold_left (fun c port =>
    let '(aid, c) := createAdapter port c in
    c <| cc_sockets ::= mset port aid |> <| cc_ports ::= mset port false |>)
    ports (mkController false false false None [] [] [] [] [] 0).

(** ** Clients *)

(** [onConnectionCreated]; [id] is the answer of [createClientId]. *)
Definition addConnection (id : Z) (port : Z) (query : ClientQuery) (c : ClientController) : list watch_effect * ClientController :=
  match mget id (cc_connections c) with
  | Some _ => ([], c)
  | None =>
      let client := mkUsbClient (mkClientDescription port id query) in
      ([RegisterUsbClient client],
       c <| cc_connections ::= mset id client |> <| cc_ports ::= mset port true |> <| cc_clientInfos ::= mset id port |>)
  end.

(** [onConnectionDeleted]. *)
Definition removeConnection (id : Z) (c : ClientController) : list watch_effect * ClientController :=
  let c := match mget id (cc_connections c) with Some _ => c <| cc_connections ::= mdel id |> | None => c end in
  let c := match mget id (cc_clientInfos c) with
           | Some port => if port =? 0 then c
                          else c <| cc_ports ::= mset port false |> <| cc_clientInfos ::= mdel id |>
           | None => c
           end in
  ([UnregisterUsbClient id], c).

(** ** What happens to an adapter *)

Definition socket_connects (aid : Z) (c : ClientController) : ClientController :=
  upd_adapter aid (fun a => if bool_decide (ad_tcpClient a = SockConnecting) then a <| ad_tcpClient := SockOpen |> else a) c.

(** The tunnel's socket replaces [tcpClient], also after [destroy]. *)
Definition tunnel_opens (aid : Z) (c : ClientController) : ClientController :=
  upd_adapter aid (fun a => if ad_tunnel a then a <| ad_tcpClient := SockOpen |> <| ad_tunnel := false |> else a) c.

Definition tunnel_fails (aid : Z) (c : ClientController) : ClientController :=
  upd_adapter aid (fun a => a <| ad_tunnel := false |>) c.

(** A registration arrives on an open socket: [handleConnection]. *)
Definition runtime_registers (aid id : Z) (query : ClientQuery) (c : ClientController) : list watch_effect * ClientController :=
  match mget aid (cc_adapters c) with
  | Some a =>
      if negb (bool_decide (ad_tcpClient a = SockOpen)) || ad_isConnected a || negb (ad_listener a) then ([], c)
      else
        let '(es, c) := addConnection id (ad_port a) query c in
        (es, upd_adapter aid (fun a => a <| ad_id := id |> <| ad_isConnected := true |>) c)
  | None => ([], c)
  end.

(** An error or the end of the socket: [handleOff]. *)
Definition socket_off (aid : Z) (c : ClientController) : list watch_effect * ClientController :=
  match mget aid (cc_adapters c) with
  | Some a =>
      let c := upd_adapter aid (fun a => a <| ad_isConnected := false |> <| ad_tcpClient := SockDestroyed |>) c in
      if ad_listener a then removeConnection (ad_id a) c else ([], c)
  | None => ([], c)
  end.

(** ** Watching *)

Definition port_connected (port : Z) (c : ClientController) : bool := default false (mget port (cc_ports c)).

(** A new attempt in the place of the old one. *)
Definition replace_adapter (port : Z) (c : ClientController) : ClientController :=
  let old := mget port (cc_sockets c) in
  let '(aid, c) := createAdapter port c in
  let c := destroy_opt old c in
  connect_adapter aid (c <| cc_sockets ::= mset port aid |>).

Definition try_port (c : ClientController) (port : Z) : ClientController :=
  if port_connected port c then c else replace_adapter port c.

(** [watchAndroidClients] up to the next port to be checked. *)
Fixpoint scan (ports : list Z) (c : ClientController) : ClientController :=
  match ports with
  | [] => c <| cc_scan := None |> <| cc_scanning := false |>
  | port :: ports =>
      if negb (cc_watching c) then c <| cc_scan := None |> <| cc_scanning := false |>
      else if port_connected port c then scan ports c
      else
        let c := destroy_opt (mget port (cc_sockets c)) c in
        c <| cc_sockets ::= mdel port |> <| cc_scan := Some (port, ports) |>
  end.

(** The awaited check answers. *)
Definition port_checked (result : port_check) (c : ClientController) : ClientController :=
  match cc_scan c with
  | None => c
  | Some (port, ports) =>
      let ended := c <| cc_scan := None |> <| cc_scanning := false |> in
      if negb (cc_watching c) then ended
      else match result with
           | PortPause => ended
           | PortSkip => scan ports c
           | PortReady =>
               let '(aid, c) := createAdapter port c in
               scan ports (connect_adapter aid (c <| cc_sockets ::= mset port aid |>))
           end
  end.

Definition watchClient (c : ClientController) : ClientController :=
  if negb (cc_watching c) then c
  else if isAndroid then (if cc_scanning c then c else scan (mkeys (cc_ports c)) (c <| cc_scanning := true |>))
  else fold_left try_port (mkeys (cc_ports c)) c.

Definition startWatchClient (c : ClientController) : ClientController :=
  if cc_watching c then c
  else
    let c := watchClient (c <| cc_watching := true |>) in
    if autoFind then c <| cc_timer := true |> else c.

Definition stopWatchClient (c : ClientController) : ClientController := c <| cc_watching := false |> <| cc_timer := false |>.

Definition watch_tick (c : ClientController) : ClientController := if cc_timer c then watchClient c else c.

Fixpoint remove_all (ids : list Z) (c : ClientController) : list watch_effect * ClientController :=
  match ids with
  | [] => ([], c)
  | id :: ids => let '(e1, c) := removeConnection id c in let '(e2, c) := remove_all ids c in (e1 ++ e2, c)
  end.

Definition closeAllConnection (c : ClientController) : list watch_effect * ClientController := remove_all (mkeys (cc_connections c)) c.

Definition close_controller (c : ClientController) : list watch_effect * ClientController :=
  let c := stopWatchClient c in
  let c := fold_left (fun c aid => destroy_adapter aid c) (mvals (cc_sockets c)) c in
  closeAllConnection (c <| cc_sockets := [] |>).
End Device.
