(* ===== verification/WatchRun.v ===== *)
(** * Runs of the watcher of a device

    However sockets connect, register, fail and close, and however often
    watching starts, stops and is repeated, each port has at most one client,
    and the physical connector is told exactly of the clients there are. *)

From Stdlib Require Import String.
From stdpp Require Import strings.
From S2P Require Import JsValue Json Protocol Physical Watch.

#[local] Arguments mdel : simpl never.
#[local] Arguments mset : simpl never.
#[local] Arguments mget : simpl never.

(** ** Steps *)

Inductive watch_op :=
  | WStart | WStop | WTick | WClose
  | WConnects (aid : Z) | WTunnel (aid : Z) | WTunnelFails (aid : Z)
  | WRegisters (aid id : Z) (query : ClientQuery)
  | WOff (aid : Z)
  | WChecked (result : port_check).

Definition watch_step (os : jstr) (autoFind : bool) (op : watch_op) (c : ClientController) : list watch_effect * ClientController :=
  match op with
  | WStart => ([], startWatchClient os autoFind c)
  | WStop => ([], stopWatchClient c)
  | WTick => ([], watch_tick os c)
  | WClose => close_controller c
  | WConnects aid => ([], socket_connects aid c)
  | WTunnel aid => ([], tunnel_opens aid c)
  | WTunnelFails aid => ([], tunnel_fails aid c)
  | WRegisters aid id query => runtime_registers aid id query c
  | WOff aid => socket_off aid c
  | WChecked result => ([], port_checked os result c)
  end.

Fixpoint watch_run (os : jstr) (autoFind : bool) (ops : list watch_op) (c : ClientController) : list watch_effect * ClientController :=
  match ops with
  | [] => ([], c)
  | op :: ops =>
      let '(e1, c) := watch_step os autoFind op c in
      let '(e2, c) := watch_run os autoFind ops c in (e1 ++ e2, c)
  end.

(** The ids of [createClientId] count up. *)
Fixpoint ids_increase (last : Z) (ops : list watch_op) : bool :=
  match ops with
  | [] => true
  | WRegisters _ id _ :: ops => (last <? id) && ids_increase id ops
  | _ :: ops => ids_increase last ops
  end.

(** The clients the physical connector has been told of. *)
Definition told_of (m : list (Z * UsbClient)) (e : watch_effect) : list (Z * UsbClient) :=
  match e with
  | RegisterUsbClient c => mset (clientId c) c m
  | UnregisterUsbClient id => mdel id m
  end.

(** ** The invariant *)

(** The adapter [aid] serves its port. *)
Definition serves (c : ClientController) (aid : Z) (a : ClientAdapter) : Prop :=
  mget aid (cc_adapters c) = Some a /\ ad_listener a = true.

(** While a check is awaited, its port has no adapter. *)
Definition scan_ok (android : bool) (c : ClientController) : Prop :=
  forall port ports, cc_scan c = Some (port, ports) ->
    android = true /\ cc_scanning c = true /\ mget port (cc_sockets c) = None /\ port ∈ mkeys (cc_ports c) /\
    forall p, p ∈ ports -> p ∈ mkeys (cc_ports c).

Record watch_ok (android ios : bool) (last : Z) (c : ClientController) : Prop := {
  wk_store : forall aid a, mget aid (cc_adapters c) = Some a -> aid < cc_nextAdapter c;
  wk_socket : forall aid a, serves c aid a -> mget (ad_port a) (cc_sockets c) = Some aid;
  wk_port : forall port aid, mget port (cc_sockets c) = Some aid -> exists a, serves c aid a /\ ad_port a = port;
  wk_connected : forall aid a, serves c aid a -> ad_isConnected a = true ->
    ad_tcpClient a = SockOpen /\ exists cl, mget (ad_id a) (cc_connections c) = Some cl /\ cd_port (uc_info cl) = ad_port a;
  wk_idle : forall aid a, serves c aid a -> ad_isConnected a = false -> mget (ad_id a) (cc_connections c) = None;
  wk_client : forall id cl, mget id (cc_connections c) = Some cl -> clientId cl = id /\
    exists aid a, serves c aid a /\ ad_isConnected a = true /\ ad_id a = id;
  wk_infos : forall id, mget id (cc_clientInfos c) = (fun cl => cd_port (uc_info cl)) <$> mget id (cc_connections c);
  wk_ports : forall port, port_connected port c = true <-> exists id cl, mget id (cc_connections c) = Some cl /\ cd_port (uc_info cl) = port;
  wk_known : forall port, port ∈ mkeys (cc_ports c) -> 0 < port;
  wk_keys : forall port, is_Some (mget port (cc_sockets c)) -> port ∈ mkeys (cc_ports c);
  wk_scan : scan_ok android c;
  wk_ids : 0 <= last /\ (forall aid a, mget aid (cc_adapters c) = Some a -> ad_id a <= last) /\
           (forall id cl, mget id (cc_connections c) = Some cl -> 0 < id <= last);
  wk_retired : ios = false -> forall aid a, mget aid (cc_adapters c) = Some a ->
    ad_tunnel a = false /\ (ad_tcpClient a = SockConnecting \/ ad_tcpClient a = SockOpen -> ad_listener a = true)
}.

Section Proofs.
Context (android ios : bool).
Implicit Types (c : ClientController) (a : ClientAdapter).

Lemma unconnected_idle last c aid a : watch_ok android ios last c -> serves c aid a -> port_connected (ad_port a) c = false ->
  ad_isConnected a = false.
Proof.
  intros K S Hp. destruct (ad_isConnected a) eqn:E; [|done]. destruct (wk_connected _ _ _ _ K aid a S E) as (_ & cl & Hc & Hcl).
  assert (port_connected (ad_port a) c = true) as H by (apply (wk_ports _ _ _ _ K); eauto). congruence.
Qed.

(** A fresh adapter that has been asked to connect. *)
Definition attempt (port : Z) : ClientAdapter :=
  if ios then mkClientAdapter port true false 0 SockNew true else mkClientAdapter port true false 0 SockConnecting false.

(** The adapter of a port without client is retired, with or without a new
    attempt in its place. *)
Lemma reshape_ok last port (renew : bool) c c' :
  watch_ok android ios last c -> port ∈ mkeys (cc_ports c) -> port_connected port c = false ->
  (forall x, mget x (cc_adapters c') =
     if renew && (x =? cc_nextAdapter c) then Some (attempt port)
     else if bool_decide (mget port (cc_sockets c) = Some x) then destroyed <$> mget x (cc_adapters c) else mget x (cc_adapters c)) ->
  (forall q, mget q (cc_sockets c') = if q =? port then (if renew then Some (cc_nextAdapter c) else None) else mget q (cc_sockets c)) ->
  cc_nextAdapter c' = (if renew then Z.succ (cc_nextAdapter c) else cc_nextAdapter c) ->
  cc_ports c' = cc_ports c -> cc_clientInfos c' = cc_clientInfos c -> cc_connections c' = cc_connections c ->
  scan_ok android c' -> watch_ok android ios last c'.
Proof.
  intros K Hport Hoff Ha Hs Hn Hp Hi Hc Hscan.
  (* the adapters that serve afterwards *)
  assert (forall x a, serves c' x a -> (renew = true /\ x = cc_nextAdapter c /\ a = attempt port) \/ (serves c x a /\ ad_port a <> port)) as Hserves.
  { intros x a [Hx Hl]. rewrite Ha in Hx. destruct (renew && (x =? cc_nextAdapter c)) eqn:En.
    - apply andb_prop in En as [-> En%Z.eqb_eq]. left. by simplify_eq.
    - case_bool_decide as Ho.
      + destruct (mget x (cc_adapters c)); cbn in Hx; by simplify_eq.
      + right. split; [done|]. intros <-. apply Ho. by apply (wk_socket _ _ _ _ K x a). }
  assert (forall x a, serves c x a -> ad_port a <> port -> serves c' x a) as Hkeep.
  { intros x a [Hx Hl] Hne. split; [|done]. rewrite Ha.
    pose proof (wk_store _ _ _ _ K x a Hx). rewrite (proj2 (Z.eqb_neq x (cc_nextAdapter c))), andb_false_r by lia.
    rewrite bool_decide_eq_false_2; [done|]. intros Ho. destruct (wk_port _ _ _ _ K port x Ho) as (a' & [Hx' _] & Hp'). congruence. }
  assert (ad_port (attempt port) = port /\ ad_listener (attempt port) = true /\ ad_isConnected (attempt port) = false /\ ad_id (attempt port) = 0)
    as (Fp & Fl & Fc & Fi) by (unfold attempt; by destruct ios).
  assert (forall x a, mget x (cc_adapters c') = Some a -> (renew = true /\ x = cc_nextAdapter c /\ a = attempt port) \/
            exists a0, mget x (cc_adapters c) = Some a0 /\ (a = a0 \/ a = destroyed a0)) as Hstore.
  { intros x a Hx. rewrite Ha in Hx. destruct (renew && (x =? cc_nextAdapter c)) eqn:En.
    - apply andb_prop in En as [-> En%Z.eqb_eq]. left. by simplify_eq.
    - right. case_bool_decide; [|eauto]. destruct (mget x (cc_adapters c)) as [a0|]; [|done]. cbn in Hx. simplify_eq. eauto. }
  split.
  - intros x a Hx. rewrite Hn. destruct (Hstore x a Hx) as [(-> & -> & _)|(a0 & Hx0 & _)]; [lia|].
    pose proof (wk_store _ _ _ _ K x a0 Hx0). destruct renew; lia.
  - intros x a S. rewrite Hs. destruct (Hserves x a S) as [(-> & -> & ->)|[S0 Hne]]; [by rewrite Fp, Z.eqb_refl|].
    rewrite (proj2 (Z.eqb_neq (ad_port a) port)) by done. by apply (wk_socket _ _ _ _ K).
  - intros q x Hq. rewrite Hs in Hq. destruct (Z.eqb_spec q port) as [->|Hne].
    + destruct renew; [|done]. injection Hq as <-. exists (attempt port). split; [|done]. split; [|done]. rewrite Ha. by rewrite Z.eqb_refl.
    + destruct (wk_port _ _ _ _ K q x Hq) as (a & S & <-). exists a. auto.
  - intros x a S Hcon. destruct (Hserves x a S) as [(_ & _ & ->)|[S0 _]]; [congruence|]. rewrite Hc. by apply (wk_connected _ _ _ _ K x).
  - intros x a S Hcon. rewrite Hc. destruct (Hserves x a S) as [(_ & _ & ->)|[S0 _]]; [|by apply (wk_idle _ _ _ _ K x)].
    rewrite Fi. destruct (mget 0 (cc_connections c)) eqn:E; [|done]. apply (wk_ids _ _ _ _ K) in E. lia.
  - intros id cl Hcl. rewrite Hc in Hcl. destruct (wk_client _ _ _ _ K id cl Hcl) as (Hid & x & a & S & Hcon & Hida). split; [done|].
    exists x, a. split; [|done]. apply Hkeep; [done|]. intros <-. by rewrite (unconnected_idle last c x a K S Hoff) in Hcon.
  - intros id. rewrite Hi, Hc. apply (wk_infos _ _ _ _ K).
  - intros q. unfold port_connected. rewrite Hp, Hc. apply (wk_ports _ _ _ _ K).
  - rewrite Hp. apply (wk_known _ _ _ _ K).
  - intros q. rewrite Hs, Hp. destruct (Z.eqb_spec q port) as [->|]; [done|]. apply (wk_keys _ _ _ _ K).
  - done.
  - destruct (wk_ids _ _ _ _ K) as (H0 & H1 & H2). split; [done|]. rewrite Hc. split; [|done]. intros x a Hx.
    destruct (Hstore x a Hx) as [(_ & _ & ->)|(a0 & Hx0 & [->| ->])]; [lia|eauto|]. cbn. eauto.
  - intros Hios x a Hx. destruct (Hstore x a Hx) as [(_ & _ & ->)|(a0 & Hx0 & [->| ->])].
    + unfold attempt. by rewrite Hios.
    + by apply (wk_retired _ _ _ _ K Hios x).
    + destruct (wk_retired _ _ _ _ K Hios x a0 Hx0) as [Ht _]. cbn. split; [done|]. by intros [?|?].
Qed.

(** *** Reads of a changed controller *)

Lemma upd_lookup aid g c x :
  mget x (cc_adapters (upd_adapter aid g c)) = if x =? aid then g <$> mget x (cc_adapters c) else mget x (cc_adapters c).
Proof.
  unfold upd_adapter. destruct (mget aid (cc_adapters c)) as [a|] eqn:E.
  - cbn. rewrite mget_mset. destruct (Z.eqb_spec x aid) as [->|Hne]; [by rewrite decide_True, E|by rewrite decide_False].
  - destruct (Z.eqb_spec x aid) as [->|]; [by rewrite E|done].
Qed.

(** Everything but the store of adapters. *)
Definition around (c : ClientController) :=
  (cc_timer c, cc_watching c, cc_scanning c, cc_scan c, cc_sockets c, cc_ports c, cc_clientInfos c, cc_connections c, cc_nextAdapter c).

Lemma upd_around aid g c : around (upd_adapter aid g c) = around c.
Proof. unfold upd_adapter. by destruct (mget aid (cc_adapters c)). Qed.

Lemma upd_sockets aid g c : cc_sockets (upd_adapter aid g c) = cc_sockets c.
Proof. unfold upd_adapter. by destruct (mget aid (cc_adapters c)). Qed.

Lemma upd_next aid g c : cc_nextAdapter (upd_adapter aid g c) = cc_nextAdapter c.
Proof. unfold upd_adapter. by destruct (mget aid (cc_adapters c)). Qed.

Lemma destroy_opt_lookup o c x :
  mget x (cc_adapters (destroy_opt o c)) = if bool_decide (o = Some x) then destroyed <$> mget x (cc_adapters c) else mget x (cc_adapters c).
Proof.
  destruct o as [aid|]; [|by rewrite bool_decide_eq_false_2]. cbn. unfold destroy_adapter. rewrite upd_lookup.
  destruct (Z.eqb_spec x aid) as [->|Hne]; [by rewrite bool_decide_eq_true_2|rewrite bool_decide_eq_false_2 by congruence; done].
Qed.

Lemma destroy_opt_around o c : around (destroy_opt o c) = around c.
Proof. destruct o; [apply upd_around|done]. Qed.

(** *** Changes of an adapter that do not concern its client *)

Definition mild (g : ClientAdapter -> ClientAdapter) : Prop := forall a,
  ad_port (g a) = ad_port a /\ ad_listener (g a) = ad_listener a /\ ad_isConnected (g a) = ad_isConnected a /\ ad_id (g a) = ad_id a /\
  (ad_tcpClient a = SockOpen -> ad_tcpClient (g a) = SockOpen) /\
  (ad_tunnel a = false /\ (ad_tcpClient a = SockConnecting \/ ad_tcpClient a = SockOpen -> ad_listener a = true) ->
   ad_tunnel (g a) = false /\ (ad_tcpClient (g a) = SockConnecting \/ ad_tcpClient (g a) = SockOpen -> ad_listener a = true)).

Lemma mild_ok last aid g c : mild g -> watch_ok android ios last c -> watch_ok android ios last (upd_adapter aid g c).
Proof.
  intros Hg K. pose proof (upd_around aid g c) as A. pose proof (upd_lookup aid g c) as L. revert A L.
  generalize (upd_adapter aid g c). intros c' A L. unfold around in A. injection A as _ _ Asg Asc As Ap Ai Ac An.
  assert (forall x a, mget x (cc_adapters c') = Some a -> exists a0, mget x (cc_adapters c) = Some a0 /\ (a = a0 \/ a = g a0)) as Hold.
  { intros x a Hx. rewrite L in Hx. destruct (x =? aid); [|eauto]. destruct (mget x (cc_adapters c)); [|done]. cbn in Hx. simplify_eq. eauto. }
  assert (forall x a, serves c' x a -> exists a0, serves c x a0 /\ ad_port a = ad_port a0 /\ ad_isConnected a = ad_isConnected a0 /\ ad_id a = ad_id a0 /\
            (ad_tcpClient a0 = SockOpen -> ad_tcpClient a = SockOpen)) as Hs.
  { intros x a [Hx Hl]. destruct (Hold x a Hx) as (a0 & Hx0 & [->| ->]); exists a0; [done|].
    destruct (Hg a0) as (G1 & G2 & G3 & G4 & G5 & _). split; [split; [done|congruence]|done]. }
  assert (forall x a0, serves c x a0 -> exists a, serves c' x a /\ ad_port a = ad_port a0 /\ ad_isConnected a = ad_isConnected a0 /\ ad_id a = ad_id a0) as Hs'.
  { intros x a0 [Hx Hl]. exists (if x =? aid then g a0 else a0). destruct (Hg a0) as (G1 & G2 & G3 & G4 & _). unfold serves. rewrite L, Hx.
    destruct (x =? aid); cbn; repeat split; congruence. }
  split.
  - intros x a Hx. rewrite An. destruct (Hold x a Hx) as (a0 & Hx0 & _). by apply (wk_store _ _ _ _ K x a0).
  - intros x a S. destruct (Hs x a S) as (a0 & S0 & -> & _). rewrite As. by apply (wk_socket _ _ _ _ K).
  - intros q x Hq. rewrite As in Hq. destruct (wk_port _ _ _ _ K q x Hq) as (a0 & S0 & <-). destruct (Hs' x a0 S0) as (a & S & Hp & _). eauto.
  - intros x a S Hcon. destruct (Hs x a S) as (a0 & S0 & -> & Hc0 & -> & Ht). rewrite Ac.
    destruct (wk_connected _ _ _ _ K x a0 S0 ltac:(congruence)) as [H1 H2]. auto.
  - intros x a S Hcon. destruct (Hs x a S) as (a0 & S0 & _ & Hc0 & -> & _). rewrite Ac. apply (wk_idle _ _ _ _ K x a0 S0). congruence.
  - intros id cl Hcl. rewrite Ac in Hcl. destruct (wk_client _ _ _ _ K id cl Hcl) as (Hid & x & a0 & S0 & Hcon & Hida). split; [done|].
    destruct (Hs' x a0 S0) as (a & S & _ & Hc1 & Hi1). exists x, a. split; [done|]. split; congruence.
  - intros id. rewrite Ai, Ac. apply (wk_infos _ _ _ _ K).
  - intros q. unfold port_connected. rewrite Ap, Ac. apply (wk_ports _ _ _ _ K).
  - rewrite Ap. apply (wk_known _ _ _ _ K).
  - intros q. rewrite As, Ap. apply (wk_keys _ _ _ _ K).
  - intros q qs. rewrite Asc, Asg, As, Ap. apply (wk_scan _ _ _ _ K).
  - destruct (wk_ids _ _ _ _ K) as (H0 & H1 & H2). split; [done|]. rewrite Ac. split; [|done]. intros x a Hx.
    destruct (Hold x a Hx) as (a0 & Hx0 & [->| ->]); [eauto|]. destruct (Hg a0) as (_ & _ & _ & -> & _). eauto.
  - intros Hios x a Hx. destruct (Hold x a Hx) as (a0 & Hx0 & [->| ->]); [by apply (wk_retired _ _ _ _ K Hios x)|].
    destruct (Hg a0) as (_ & -> & _ & _ & _ & G). apply G. by apply (wk_retired _ _ _ _ K Hios x).
Qed.
End Proofs.

Section Watching.
Context (os : jstr) (autoFind : bool).
#[local] Abbreviation ok := (watch_ok (isAndroid os) (isIOS os)).
Implicit Types (c : ClientController).

Lemma connect_new port : adapter_connect os (mkClientAdapter port true false 0 SockNew false) = attempt (isIOS os) port.
Proof. unfold adapter_connect, attempt. cbn. by destruct (isIOS os). Qed.

(** The store and the sockets after a new attempt. *)
Lemma renewed c c1 port :
  (forall x, mget x (cc_adapters c1) = if x =? cc_nextAdapter c then Some (mkClientAdapter port true false 0 SockNew false)
     else if bool_decide (mget port (cc_sockets c) = Some x) then destroyed <$> mget x (cc_adapters c) else mget x (cc_adapters c)) ->
  cc_sockets c1 = cc_sockets c -> cc_nextAdapter c1 = Z.succ (cc_nextAdapter c) ->
  let c' := connect_adapter os (cc_nextAdapter c) (c1 <| cc_sockets ::= mset port (cc_nextAdapter c) |>) in
  (forall x, mget x (cc_adapters c') = if true && (x =? cc_nextAdapter c) then Some (attempt (isIOS os) port)
     else if bool_decide (mget port (cc_sockets c) = Some x) then destroyed <$> mget x (cc_adapters c) else mget x (cc_adapters c)) /\
  (forall q, mget q (cc_sockets c') = if q =? port then Some (cc_nextAdapter c) else mget q (cc_sockets c)) /\
  cc_nextAdapter c' = Z.succ (cc_nextAdapter c) /\ around c' = around (c1 <| cc_sockets ::= mset port (cc_nextAdapter c) |>).
Proof.
  intros Ha Hs Hn. cbn zeta. unfold connect_adapter.
  repeat split; [| | |apply upd_around].
  - intros x. rewrite upd_lookup. change (cc_adapters (c1 <| cc_sockets ::= _ |>)) with (cc_adapters c1). rewrite Ha. cbn [andb].
    destruct (x =? cc_nextAdapter c); [|done]. cbn. by rewrite connect_new.
  - intros q. rewrite upd_sockets. cbn. rewrite mget_mset, Hs. destruct (Z.eqb_spec q port) as [->|]; [by rewrite decide_True|by rewrite decide_False].
  - rewrite upd_next. exact Hn.
Qed.

Lemma fresh_adapter last c x : ok last c -> x = cc_nextAdapter c -> mget x (cc_adapters c) = None.
Proof. intros K ->. destruct (mget _ _) eqn:E; [|done]. apply (wk_store _ _ _ _ K) in E. lia. Qed.

Lemma replace_ok last port c : ok last c -> port ∈ mkeys (cc_ports c) -> port_connected port c = false -> cc_scan c = None ->
  ok last (replace_adapter os port c) /\ mkeys (cc_ports (replace_adapter os port c)) = mkeys (cc_ports c) /\
  cc_ports (replace_adapter os port c) = cc_ports c /\ cc_scan (replace_adapter os port c) = None /\
  cc_connections (replace_adapter os port c) = cc_connections c.
Proof.
  intros K Hp Hoff Hsc. unfold replace_adapter, createAdapter.
  match goal with |- context [destroy_opt _ ?c0] => set (cn := c0) end.
  pose proof (destroy_opt_around (mget port (cc_sockets c)) cn) as A. pose proof (destroy_opt_lookup (mget port (cc_sockets c)) cn) as L.
  revert A L. generalize (destroy_opt (mget port (cc_sockets c)) cn). intros c1 A L. unfold around in A. injection A as _ _ Asg Asc As Ap Ai Ac An.
  destruct (renewed c c1 port) as (R1 & R2 & R3 & R4); [|done|done|].
  { intros x. rewrite L. unfold cn. cbn. rewrite mget_mset. destruct (Z.eqb_spec x (cc_nextAdapter c)) as [->|Hne].
    - rewrite decide_True by done. rewrite bool_decide_eq_false_2; [done|]. intros Ho.
      destruct (wk_port _ _ _ _ K port _ Ho) as (a & [Hx _] & _). by rewrite (fresh_adapter last c _ K eq_refl) in Hx.
    - by rewrite decide_False. }
  cbn zeta in *. revert R1 R2 R3 R4. generalize (connect_adapter os (cc_nextAdapter c) (c1 <| cc_sockets ::= mset port (cc_nextAdapter c) |>)).
  intros c' R1 R2 R3 R4. unfold around in R4. cbn in R4. injection R4 as _ _ Rsg Rsc _ Rp Ri Rc _.
  assert (cc_ports c' = cc_ports c) as Ep by (by rewrite Rp, Ap). rewrite Ep.
  assert (cc_scan c' = None) as Es by (by rewrite Rsc, Asc). assert (cc_connections c' = cc_connections c) as Ec by (by rewrite Rc, Ac).
  split; [|done]. apply (reshape_ok _ _ last port true c c' K Hp Hoff R1 R2 R3 Ep); [by rewrite Ri, Ai|done|]. intros q qs. by rewrite Es.
Qed.

Lemma try_ports_ok last ports : forall c, ok last c -> (forall p, p ∈ ports -> p ∈ mkeys (cc_ports c)) -> cc_scan c = None ->
  ok last (fold_left (try_port os) ports c) /\ cc_connections (fold_left (try_port os) ports c) = cc_connections c.
Proof.
  induction ports as [|port ports IH]; intros c K Hp Hs; [done|]. cbn [fold_left].
  assert (port ∈ mkeys (cc_ports c)) as Hport by (apply Hp; left).
  assert (forall p, p ∈ ports -> p ∈ mkeys (cc_ports c)) as Hps by (intros p ?; apply Hp; by right).
  unfold try_port at 2 4. destruct (port_connected port c) eqn:E; [by apply IH|].
  destruct (replace_ok last port c K Hport E Hs) as (K1 & E1 & _ & S1 & C1).
  destruct (IH _ K1) as [K2 C2]; [by rewrite E1|done|]. split; [done|congruence].
Qed.

(** Flags. *)
Lemma flags_ok last c c' : cc_scan c' = None -> cc_sockets c' = cc_sockets c -> cc_ports c' = cc_ports c -> cc_clientInfos c' = cc_clientInfos c ->
  cc_connections c' = cc_connections c -> cc_adapters c' = cc_adapters c -> cc_nextAdapter c' = cc_nextAdapter c -> ok last c -> ok last c'.
Proof.
  intros Hs H1 H2 H3 H4 H5 H6 [K1 K2 K3 K4 K5 K6 K7 K8 K9 K10 K11 K12 K13]. unfold serves, port_connected in *.
  split; unfold serves, port_connected; rewrite ?H1, ?H2, ?H3, ?H4, ?H5, ?H6; try done. intros q qs. by rewrite Hs.
Qed.

Lemma watching_ok last b t c : ok last c -> ok last (c <| cc_watching := b |> <| cc_timer := t |>).
Proof. intros [K1 K2 K3 K4 K5 K6 K7 K8 K9 K10 K11 K12 K13]. by split. Qed.

Lemma scan_forgets ports : forall c, scan ports (c <| cc_scan := None |>) = scan ports c.
Proof.
  induction ports as [|port ports IH]; intros c; [done|]. cbn [scan].
  change (cc_watching (c <| cc_scan := None |>)) with (cc_watching c). destruct (negb (cc_watching c)); [done|].
  change (port_connected port (c <| cc_scan := None |>)) with (port_connected port c). destruct (port_connected port c); [apply IH|].
  change (cc_sockets (c <| cc_scan := None |>)) with (cc_sockets c). destruct (mget port (cc_sockets c)) as [aid|]; [|done].
  cbv zeta. unfold destroy_opt, destroy_adapter, upd_adapter. change (cc_adapters (c <| cc_scan := None |>)) with (cc_adapters c).
  by destruct (mget aid (cc_adapters c)).
Qed.

Lemma scan_steps_ok last ports : forall c, ok last c -> cc_scan c = None -> cc_scanning c = true -> isAndroid os = true ->
  (forall p, p ∈ ports -> p ∈ mkeys (cc_ports c)) -> ok last (scan ports c) /\ cc_connections (scan ports c) = cc_connections c.
Proof.
  induction ports as [|port ports IH]; intros c K Hs Hg Hand Hp; cbn [scan].
  - split; [|done]. by apply (flags_ok last c).
  - destruct (negb (cc_watching c)); [split; [|done]; by apply (flags_ok last c)|].
    assert (forall p, p ∈ ports -> p ∈ mkeys (cc_ports c)) as Hps by (intros p ?; apply Hp; by right).
    destruct (port_connected port c) eqn:E; [by apply IH|].
    pose proof (destroy_opt_around (mget port (cc_sockets c)) c) as A. pose proof (destroy_opt_lookup (mget port (cc_sockets c)) c) as L.
    revert A L. generalize (destroy_opt (mget port (cc_sockets c)) c). intros c1 A L. unfold around in A. injection A as _ _ Asg Asc As Ap Ai Ac An.
    split; [|done]. apply (reshape_ok _ _ last port false c); try done; [apply Hp; left| |].
    + intros q. cbn. rewrite mget_mdel, As. destruct (Z.eqb_spec q port) as [->|]; [by rewrite decide_True|by rewrite decide_False].
    + intros q qs. cbn. intros [= <- <-]. split; [done|]. split; [by rewrite Asg|]. rewrite mget_mdel, decide_True, Ap by done. split; [done|].
      split; [apply Hp; left|done].
Qed.

Lemma checked_ok last result c : ok last c ->
  ok last (port_checked os result c) /\ cc_connections (port_checked os result c) = cc_connections c.
Proof.
  intros K. unfold port_checked. destruct (cc_scan c) as [[port ports]|] eqn:Es; [|done].
  destruct (wk_scan _ _ _ _ K port ports Es) as (Hand & Hg & Hnone & Hport & Hps).
  assert (ok last (c <| cc_scan := None |>)) as K0 by (by apply (flags_ok last c)).
  destruct (negb (cc_watching c)); [split; [|done]; by apply (flags_ok last c)|].
  destruct result.
  - unfold createAdapter. destruct (renewed c (c <| cc_adapters ::= mset (cc_nextAdapter c) (mkClientAdapter port true false 0 SockNew false) |>
      <| cc_nextAdapter ::= Z.succ |>) port) as (R1 & R2 & R3 & R4); [|done|done|].
    { intros x. cbn. rewrite mget_mset, Hnone, (bool_decide_eq_false_2 (None = Some x)) by done.
      destruct (Z.eqb_spec x (cc_nextAdapter c)) as [->|]; [by rewrite decide_True|by rewrite decide_False]. }
    cbn zeta in *. revert R1 R2 R3 R4. match goal with |- context [connect_adapter os ?n ?c0] => generalize (connect_adapter os n c0) end.
    intros c' R1 R2 R3 R4. unfold around in R4. cbn in R4. injection R4 as _ _ Rsg Rsc _ Rp Ri Rc _.
    rewrite <- scan_forgets, <- Rc. change (cc_connections c') with (cc_connections (c' <| cc_scan := None |>)).
    apply scan_steps_ok; try done; [|by rewrite <- Hg, <- Rsg|cbn; by rewrite Rp].
    assert (port_connected port c = false) as Hoff.
    { destruct (port_connected port c) eqn:E; [|done]. apply (wk_ports _ _ _ _ K) in E as (id & cl & Hcl & Hpt).
      destruct (wk_client _ _ _ _ K id cl Hcl) as (_ & x & a & S & Hcon & Hid).
      destruct (wk_connected _ _ _ _ K x a S Hcon) as (_ & cl' & Hcl' & Hpt'). pose proof (wk_socket _ _ _ _ K x a S). congruence. }
    apply (reshape_ok _ _ last port true c); try done.
  - rewrite <- scan_forgets. change (cc_connections c) with (cc_connections (c <| cc_scan := None |>)). by apply scan_steps_ok.
  - split; [|done]. by apply (flags_ok last c).
Qed.

Lemma watchClient_ok last c : ok last c -> ok last (watchClient os c) /\ cc_connections (watchClient os c) = cc_connections c.
Proof.
  intros K. unfold watchClient. destruct (negb (cc_watching c)); [done|].
  assert (isAndroid os = true /\ cc_scanning c = true \/ cc_scan c = None) as [[Ha Hg]|Hs];
    [|revert K; generalize ok; intros P K; by rewrite Ha, Hg|].
  { destruct (cc_scan c) as [[q qs]|] eqn:E; [|by right]. destruct (wk_scan _ _ _ _ K q qs E) as (H1 & H2 & _). auto. }
  assert (ok last (c <| cc_scanning := true |>)) as K1 by (by apply (flags_ok last c)).
  assert (isAndroid os = true -> ok last (scan (mkeys (cc_ports c)) (c <| cc_scanning := true |>)) /\
    cc_connections (scan (mkeys (cc_ports c)) (c <| cc_scanning := true |>)) = cc_connections c) as H1
    by (intros Ha; exact (scan_steps_ok last (mkeys (cc_ports c)) (c <| cc_scanning := true |>) K1 Hs eq_refl Ha (fun p Hp => Hp))).
  pose proof (try_ports_ok last (mkeys (cc_ports c)) c K ltac:(done) Hs) as H2.
  revert K H1 H2. generalize ok. intros P K H1 H2. destruct (isAndroid os); [|done]. destruct (cc_scanning c); [done|by apply H1].
Qed.

(** *** Clients come and go *)

Lemma upd_connections aid g c : cc_connections (upd_adapter aid g c) = cc_connections c.
Proof. unfold upd_adapter. by destruct (mget aid (cc_adapters c)). Qed.

Lemma other_port last c aid a x a' : ok last c -> serves c aid a -> serves c x a' -> x <> aid -> ad_port a' <> ad_port a.
Proof. intros K S S' Hne Hp. pose proof (wk_socket _ _ _ _ K _ _ S). pose proof (wk_socket _ _ _ _ K _ _ S'). congruence. Qed.

Lemma client_added_ok last aid id a cl c c' : ok last c -> last < id -> serves c aid a -> ad_tcpClient a = SockOpen -> ad_isConnected a = false ->
  clientId cl = id -> cd_port (uc_info cl) = ad_port a ->
  (forall x, mget x (cc_adapters c') =
     if x =? aid then (fun a => a <| ad_id := id |> <| ad_isConnected := true |>) <$> mget x (cc_adapters c) else mget x (cc_adapters c)) ->
  around c' = around (c <| cc_connections ::= mset id cl |> <| cc_ports ::= mset (ad_port a) true |> <| cc_clientInfos ::= mset id (ad_port a) |>) ->
  ok id c'.
Proof.
  intros K Hid S Ho Hc Hcl Hpt L A. unfold around in A. cbn in A. injection A as _ _ Asg Asc As Ap Ai Ac An.
  set (a' := a <| ad_id := id |> <| ad_isConnected := true |>).
  assert (mget aid (cc_adapters c') = Some a') as La by (rewrite L, Z.eqb_refl, (proj1 S); done).
  assert (forall x b, x <> aid -> mget x (cc_adapters c') = Some b <-> mget x (cc_adapters c) = Some b) as Lo
    by (intros x b Hne; rewrite L, (proj2 (Z.eqb_neq x aid)) by done; done).
  assert (mkeys (cc_ports c') = mkeys (cc_ports c)) as Ek.
  { rewrite Ap, mkeys_mset, decide_True; [done|]. apply (wk_keys _ _ _ _ K). rewrite (wk_socket _ _ _ _ K aid a S). eauto. }
  assert (forall x b, serves c' x b -> x = aid /\ b = a' \/ x <> aid /\ serves c x b) as Hs.
  { intros x b [Hx Hl]. destruct (decide (x = aid)) as [->|Hne]; [left; split; congruence|right]. split; [done|]. split; [by apply Lo|done]. }
  assert (forall i b, mget i (cc_connections c) = Some b -> i <> id) as Hold by (intros i b Hi ->; apply (wk_ids _ _ _ _ K) in Hi; lia).
  split.
  - intros x b Hx. rewrite An. destruct (decide (x = aid)) as [->|Hne]; [by apply (wk_store _ _ _ _ K _ _ (proj1 S))|].
    apply Lo in Hx; [|done]. by apply (wk_store _ _ _ _ K x b).
  - intros x b Sx. rewrite As. destruct (Hs x b Sx) as [[-> ->]|[_ S0]]; [exact (wk_socket _ _ _ _ K aid a S)|by apply (wk_socket _ _ _ _ K)].
  - intros q x Hq. rewrite As in Hq. destruct (wk_port _ _ _ _ K q x Hq) as (b & S0 & Hp). destruct (decide (x = aid)) as [->|Hne].
    + exists a'. split; [by split; [|apply S]|]. destruct S, S0. cbn. congruence.
    + exists b. split; [|done]. destruct S0. split; [by apply Lo|done].
  - intros x b Sx Hcon. rewrite Ac. destruct (Hs x b Sx) as [[-> ->]|[Hne S0]].
    + split; [done|]. exists cl. by rewrite mget_mset_eq.
    + destruct (wk_connected _ _ _ _ K x b S0 Hcon) as (H1 & cl' & H2 & H3). split; [done|]. exists cl'. rewrite mget_mset_ne; [done|]. by apply (Hold _ cl').
  - intros x b Sx Hcon. destruct (Hs x b Sx) as [[_ ->]|[Hne S0]]; [done|]. rewrite Ac, mget_mset_ne; [by apply (wk_idle _ _ _ _ K x b)|].
    destruct (wk_ids _ _ _ _ K) as (_ & H & _). specialize (H x b (proj1 S0)). lia.
  - intros i b. rewrite Ac, mget_mset. case_decide as Hi; [intros [= <-]|].
    + split; [congruence|]. exists aid, a'. split; [by split; [|apply S]|]. by subst i.
    + intros Hb. destruct (wk_client _ _ _ _ K i b Hb) as (H1 & x & b0 & S0 & H2 & H3). split; [done|]. exists x, b0. split; [|done].
      assert (x <> aid) as Hne by (intros ->; destruct S, S0; congruence). destruct S0. split; [by apply Lo|done].
  - intros i. rewrite Ai, Ac, !mget_mset. case_decide; [by rewrite <- Hpt|]. apply (wk_infos _ _ _ _ K).
  - intros q. unfold port_connected. rewrite Ap, Ac, mget_mset. case_decide as Hq; cbn.
    + split; [|done]. intros _. exists id, cl. rewrite mget_mset_eq. by rewrite Hpt.
    + rewrite (wk_ports _ _ _ _ K q). split; intros (i & b & Hb & Hbp); exists i, b.
      * rewrite mget_mset_ne; [done|]. by apply (Hold _ b).
      * rewrite mget_mset in Hb. case_decide; [simplify_eq; congruence|done].
  - rewrite Ek. apply (wk_known _ _ _ _ K).
  - intros q. rewrite As, Ek. apply (wk_keys _ _ _ _ K).
  - intros q qs. rewrite Asc, Asg, As, Ek. apply (wk_scan _ _ _ _ K).
  - destruct (wk_ids _ _ _ _ K) as (H0 & H1 & H2). split; [lia|]. split.
    + intros x b Hx. destruct (decide (x = aid)) as [->|Hne]; [by simplify_eq|]. apply Lo in Hx; [|done]. specialize (H1 x b Hx). lia.
    + intros i b. rewrite Ac, mget_mset. case_decide; [lia|]. intros Hb. destruct (H2 i b Hb). lia.
  - intros Hios x b Hx. destruct (decide (x = aid)) as [->|Hne].
    + assert (b = a') as -> by congruence. exact (wk_retired _ _ _ _ K Hios aid a (proj1 S)).
    + apply Lo in Hx; [|done]. by apply (wk_retired _ _ _ _ K Hios x b).
Qed.

(** A client registers on the open socket of an adapter that serves its port. *)
Lemma registers_ok last aid id query c : ok last c -> last < id ->
  let '(es, c') := runtime_registers aid id query c in
  ok id c' /\ fold_left told_of es (cc_connections c) = cc_connections c'.
Proof.
  intros K Hid. assert (ok id c) as Kid.
  { destruct K as [K1 K2 K3 K4 K5 K6 K7 K8 K9 K10 K11 (K12 & K13 & K14) K15]. split; try done. split; [lia|]. split; [|intros; split]; intros.
    - specialize (K13 _ _ H). lia.
    - by apply (K14 _ _ H).
    - destruct (K14 _ _ H). lia. }
  unfold runtime_registers. destruct (mget aid (cc_adapters c)) as [a|] eqn:Ea; [|done].
  destruct (negb (bool_decide (ad_tcpClient a = SockOpen)) || ad_isConnected a || negb (ad_listener a)) eqn:Eg; [done|].
  apply orb_false_iff in Eg as [[Eo%negb_false_iff Ec]%orb_false_iff El%negb_false_iff]. apply bool_decide_eq_true in Eo.
  assert (serves c aid a) as S by done.
  assert (mget id (cc_connections c) = None) as Hnew.
  { destruct (mget id (cc_connections c)) eqn:E; [|done]. apply (wk_ids _ _ _ _ K) in E. lia. }
  unfold addConnection. rewrite Hnew. set (cl := mkUsbClient (mkClientDescription (ad_port a) id query)). split; [|by rewrite upd_connections].
  apply (client_added_ok last aid id a cl c); try done; [intros x; by rewrite upd_lookup|by rewrite upd_around].
Qed.

(** The client of an adapter leaves with its socket. *)
Record removed (id : Z) (c c' : ClientController) : Prop := {
  rm_connections : cc_connections c' = mdel id (cc_connections c);
  rm_infos : cc_clientInfos c' = match mget id (cc_clientInfos c) with
                                 | Some q => if q =? 0 then cc_clientInfos c else mdel id (cc_clientInfos c)
                                 | None => cc_clientInfos c end;
  rm_ports : cc_ports c' = match mget id (cc_clientInfos c) with
                           | Some q => if q =? 0 then cc_ports c else mset q false (cc_ports c)
                           | None => cc_ports c end;
  rm_rest : (cc_timer c', cc_watching c', cc_scanning c', cc_scan c', cc_sockets c', cc_adapters c', cc_nextAdapter c') =
            (cc_timer c, cc_watching c, cc_scanning c, cc_scan c, cc_sockets c, cc_adapters c, cc_nextAdapter c)
}.

Lemma removeConnection_spec id c : removed id c (removeConnection id c).2.
Proof.
  unfold removeConnection. cbn [snd].
  assert (mget id (cc_connections c) = None -> mdel id (cc_connections c) = cc_connections c) as D
    by (intros E; apply mdel_absent; by apply mget_None_keys).
  destruct (mget id (cc_connections c)) eqn:E; cbn.
  - destruct (mget id (cc_clientInfos c)) as [q|] eqn:Eq; [destruct (q =? 0) eqn:E0|]; split; cbn; by rewrite ?Eq, ?E0.
  - specialize (D eq_refl). destruct (mget id (cc_clientInfos c)) as [q|] eqn:Eq; [destruct (q =? 0) eqn:E0|]; split; cbn; by rewrite ?Eq, ?E0.
Qed.

Lemma removed_told id c : fold_left told_of (removeConnection id c).1 (cc_connections c) = cc_connections (removeConnection id c).2.
Proof. by rewrite (rm_connections _ _ _ (removeConnection_spec id c)). Qed.

Definition off_adapter (a : ClientAdapter) : ClientAdapter := a <| ad_isConnected := false |> <| ad_tcpClient := SockDestroyed |>.

(** The books on clients without that of an adapter. *)
Lemma client_books last aid a c c' : ok last c -> serves c aid a ->
  cc_clientInfos c' = match mget (ad_id a) (cc_clientInfos c) with
                      | Some q => if q =? 0 then cc_clientInfos c else mdel (ad_id a) (cc_clientInfos c)
                      | None => cc_clientInfos c end ->
  cc_ports c' = match mget (ad_id a) (cc_clientInfos c) with
                | Some q => if q =? 0 then cc_ports c else mset q false (cc_ports c)
                | None => cc_ports c end ->
  (forall i, mget i (cc_clientInfos c') = if decide (i = ad_id a) then None else mget i (cc_clientInfos c)) /\
  mkeys (cc_ports c') = mkeys (cc_ports c) /\
  forall q, port_connected q c' = port_connected q c && negb (ad_isConnected a && (q =? ad_port a)).
Proof.
  intros K S Hi Hp. pose proof (wk_infos _ _ _ _ K (ad_id a)) as Ei. unfold port_connected. destruct (ad_isConnected a) eqn:Ea.
  - destruct (wk_connected _ _ _ _ K aid a S Ea) as (_ & cl & H1 & H2). rewrite H1 in Ei. cbn in Ei. rewrite H2 in Ei. rewrite Ei in Hi, Hp.
    assert (ad_port a ∈ mkeys (cc_ports c)) as Hk by (apply (wk_keys _ _ _ _ K); rewrite (wk_socket _ _ _ _ K aid a S); eauto).
    pose proof (wk_known _ _ _ _ K _ Hk) as Hpos. rewrite (proj2 (Z.eqb_neq (ad_port a) 0)) in Hi, Hp by lia. rewrite Hi, Hp.
    split; [intros i; apply mget_mdel|]. split; [rewrite mkeys_mset; by rewrite decide_True|]. intros q. rewrite mget_mset. cbn.
    destruct (Z.eqb_spec q (ad_port a)) as [->|Hne]; [rewrite decide_True by done; by rewrite andb_false_r|].
    rewrite decide_False by done. by rewrite andb_true_r.
  - rewrite (wk_idle _ _ _ _ K aid a S Ea) in Ei. cbn in Ei. rewrite Ei in Hi, Hp. rewrite Hi, Hp. cbn. split; [|split; [done|]].
    + intros i. case_decide; [by subst|done].
    + intros q. by rewrite andb_true_r.
Qed.

Lemma client_gone_ok last aid a c c1 c' : ok last c -> serves c aid a ->
  (forall x, mget x (cc_adapters c1) = if x =? aid then off_adapter <$> mget x (cc_adapters c) else mget x (cc_adapters c)) ->
  around c1 = around c -> removed (ad_id a) c1 c' -> ok last c'.
Proof.
  intros K S L1 A [Rc Ri Rp Rr]. unfold around in A. injection A as _ _ Asg Asc As Ap Ai Ac An. injection Rr as _ _ Rsg Rsc Rs Ra Rn.
  rewrite Ac in Rc. rewrite Ai in Ri, Rp. rewrite Ap in Rp.
  assert (forall x, mget x (cc_adapters c') = if x =? aid then off_adapter <$> mget x (cc_adapters c) else mget x (cc_adapters c)) as L by (intros x; by rewrite Ra).
  assert (mget aid (cc_adapters c') = Some (off_adapter a)) as La by (rewrite L, Z.eqb_refl, (proj1 S); done).
  assert (forall x b, x <> aid -> mget x (cc_adapters c') = Some b <-> mget x (cc_adapters c) = Some b) as Lo
    by (intros x b Hne; rewrite L, (proj2 (Z.eqb_neq x aid)) by done; done).
  assert (forall x b, serves c' x b -> x = aid /\ b = off_adapter a \/ x <> aid /\ serves c x b) as Hs.
  { intros x b [Hx Hl]. destruct (decide (x = aid)) as [->|Hne]; [left; split; congruence|right]. split; [done|]. split; [by apply Lo|done]. }
  (* no other adapter has the client *)
  assert (forall x b, x <> aid -> serves c x b -> ad_isConnected b = true -> ad_id b <> ad_id a) as Hid.
  { intros x b Hne S0 Hb E. destruct (wk_connected _ _ _ _ K x b S0 Hb) as (_ & cl & H1 & H2). rewrite E in H1.
    destruct (ad_isConnected a) eqn:Ea; [|rewrite (wk_idle _ _ _ _ K aid a S Ea) in H1; done].
    destruct (wk_connected _ _ _ _ K aid a S Ea) as (_ & cl' & H3 & H4). apply (other_port last c aid a x b K S S0 Hne). congruence. }
  destruct (client_books last aid a c c' K S Ri Rp) as (HI & HK & HP).
  split.
  - intros x b Hx. rewrite Rn, An. destruct (decide (x = aid)) as [->|Hne]; [by apply (wk_store _ _ _ _ K _ _ (proj1 S))|].
    apply Lo in Hx; [|done]. by apply (wk_store _ _ _ _ K x b).
  - intros x b Sx. rewrite Rs, As. destruct (Hs x b Sx) as [[-> ->]|[_ S0]]; [exact (wk_socket _ _ _ _ K aid a S)|by apply (wk_socket _ _ _ _ K)].
  - intros q x Hq. rewrite Rs, As in Hq. destruct (wk_port _ _ _ _ K q x Hq) as (b & S0 & Hp). destruct (decide (x = aid)) as [->|Hne].
    + exists (off_adapter a). split; [by split; [|apply S]|]. destruct S, S0. cbn. congruence.
    + exists b. split; [|done]. destruct S0. split; [by apply Lo|done].
  - intros x b Sx Hcon. rewrite Rc. destruct (Hs x b Sx) as [[_ ->]|[Hne S0]]; [done|].
    destruct (wk_connected _ _ _ _ K x b S0 Hcon) as (H1 & cl & H2 & H3). split; [done|]. exists cl.
    rewrite mget_mdel, decide_False by (by apply (Hid x b)). done.
  - intros x b Sx Hcon. rewrite Rc, mget_mdel. case_decide; [done|]. destruct (Hs x b Sx) as [[_ ->]|[Hne S0]]; [done|by apply (wk_idle _ _ _ _ K x b)].
  - intros i b. rewrite Rc, mget_mdel. case_decide as Hi; [done|]. intros Hb.
    destruct (wk_client _ _ _ _ K i b Hb) as (H1 & x & b0 & S0 & H2 & H3). split; [done|]. exists x, b0. split; [|done].
    assert (x <> aid) as Hne by (intros ->; destruct S, S0; congruence). destruct S0. split; [by apply Lo|done].
  - intros i. rewrite HI, Rc, mget_mdel. case_decide; [done|]. apply (wk_infos _ _ _ _ K).
  - intros q. rewrite HP, Rc. split.
    + intros [Hq Hn]%andb_prop. apply (wk_ports _ _ _ _ K) in Hq as (i & b & Hb & Hbp). exists i, b. split; [|done]. rewrite mget_mdel, decide_False; [done|].
      intros ->. destruct (ad_isConnected a) eqn:Ea; [|by rewrite (wk_idle _ _ _ _ K aid a S Ea) in Hb].
      destruct (wk_connected _ _ _ _ K aid a S Ea) as (_ & cl & H1 & H2). assert (q = ad_port a) as -> by congruence.
      by rewrite Z.eqb_refl in Hn.
    + intros (i & b & Hb & Hbp). rewrite mget_mdel in Hb. case_decide as Hi; [done|]. apply andb_true_intro. split; [apply (wk_ports _ _ _ _ K); eauto|].
      destruct (ad_isConnected a) eqn:Ea; [|done]. cbn. apply negb_true_iff, Z.eqb_neq. intros ->.
      destruct (wk_client _ _ _ _ K i b Hb) as (_ & x & b0 & S0 & H2 & H3).
      destruct (wk_connected _ _ _ _ K x b0 S0 H2) as (_ & cl & H4 & H5). assert (x <> aid) as Hne by (intros ->; destruct S, S0; congruence).
      apply (other_port last c aid a x b0 K S S0 Hne). congruence.
  - rewrite HK. apply (wk_known _ _ _ _ K).
  - intros q. rewrite Rs, As, HK. apply (wk_keys _ _ _ _ K).
  - intros q qs. rewrite Rsc, Asc, Rsg, Asg, Rs, As, HK. apply (wk_scan _ _ _ _ K).
  - destruct (wk_ids _ _ _ _ K) as (H0 & H1 & H2). split; [lia|]. split.
    + intros x b Hx. destruct (decide (x = aid)) as [->|Hne]; [simplify_eq; exact (H1 aid a (proj1 S))|]. apply Lo in Hx; [|done]. eauto.
    + intros i b. rewrite Rc, mget_mdel. case_decide; [done|]. apply H2.
  - intros Hios x b Hx. destruct (decide (x = aid)) as [->|Hne].
    + simplify_eq. destruct (wk_retired _ _ _ _ K Hios aid a (proj1 S)) as [H1 _]. split; [done|]. by intros [?|?].
    + apply Lo in Hx; [|done]. by apply (wk_retired _ _ _ _ K Hios x b).
Qed.

(** Nothing depends on an adapter that was retired. *)
Lemma retired_ok last aid g c : ok last c -> (forall a, mget aid (cc_adapters c) = Some a -> ad_listener a = false) ->
  (forall a, ad_listener (g a) = ad_listener a /\ ad_id (g a) = ad_id a /\ ad_tunnel (g a) = ad_tunnel a /\
             (ad_tcpClient (g a) = ad_tcpClient a \/ ad_tcpClient (g a) = SockDestroyed)) ->
  ok last (upd_adapter aid g c).
Proof.
  intros K Hl Hg. pose proof (upd_around aid g c) as A. pose proof (upd_lookup aid g c) as L. revert A L.
  generalize (upd_adapter aid g c). intros c' A L. unfold around in A. injection A as _ _ Asg Asc As Ap Ai Ac An.
  assert (forall x a, serves c' x a <-> serves c x a) as Hs.
  { intros x a. unfold serves. rewrite L. destruct (Z.eqb_spec x aid) as [->|]; [|done]. destruct (mget aid (cc_adapters c)) as [a0|] eqn:E; [|done].
    cbn. specialize (Hl a0 eq_refl). destruct (Hg a0) as (G & _). split; intros [[= <-] H]; congruence. }
  assert (forall x a, mget x (cc_adapters c') = Some a -> exists a0, mget x (cc_adapters c) = Some a0 /\ (a = a0 \/ a = g a0)) as Hold.
  { intros x a Hx. rewrite L in Hx. destruct (x =? aid); [|eauto]. destruct (mget x (cc_adapters c)); [|done]. cbn in Hx. simplify_eq. eauto. }
  destruct K as [K1 K2 K3 K4 K5 K6 K7 K8 K9 K10 K11 (K12 & K13 & K14) K15]. split; try setoid_rewrite Hs; rewrite ?As, ?Ap, ?Ai, ?Ac, ?An; try done.
  - intros x a Hx. destruct (Hold x a Hx) as (a0 & Hx0 & _). eauto.
  - intros q. unfold port_connected. rewrite Ap. apply K8.
  - intros q qs. rewrite Asc, Asg, As, Ap. apply K11.
  - split; [done|]. split; [|done]. intros x a Hx. destruct (Hold x a Hx) as (a0 & Hx0 & [->| ->]); [eauto|].
    destruct (Hg a0) as (_ & -> & _). eauto.
  - intros Hios x a Hx. destruct (Hold x a Hx) as (a0 & Hx0 & [->| ->]); [by apply (K15 Hios x)|].
    destruct (K15 Hios x a0 Hx0) as [H1 H2]. destruct (Hg a0) as (-> & _ & -> & Ht). split; [done|]. destruct Ht as [->| ->]; [done|by intros [?|?]].
Qed.

Lemma off_ok last aid c : ok last c ->
  let '(es, c') := socket_off aid c in ok last c' /\ fold_left told_of es (cc_connections c) = cc_connections c'.
Proof.
  intros K. unfold socket_off. destruct (mget aid (cc_adapters c)) as [a|] eqn:Ea; [|done].
  change (fun a : ClientAdapter => _) with off_adapter. destruct (ad_listener a) eqn:El.
  - pose proof (removeConnection_spec (ad_id a) (upd_adapter aid off_adapter c)) as R.
    pose proof (removed_told (ad_id a) (upd_adapter aid off_adapter c)) as T. rewrite upd_connections in T.
    destruct (removeConnection (ad_id a) (upd_adapter aid off_adapter c)) as [es c']. cbn [fst snd] in *. split; [|done].
    by apply (client_gone_ok last aid a c (upd_adapter aid off_adapter c) c' K); [|apply upd_lookup|apply upd_around|].
  - split; [|by rewrite upd_connections]. apply retired_ok; [done|congruence|]. intros b. cbn. auto.
Qed.

(** *** Closing *)

Record books_ok (c : ClientController) : Prop := {
  bk_infos : forall id, mget id (cc_clientInfos c) = (fun cl => cd_port (uc_info cl)) <$> mget id (cc_connections c);
  bk_ports : forall port, port_connected port c = true -> exists id cl, mget id (cc_connections c) = Some cl /\ cd_port (uc_info cl) = port;
  bk_known : forall port, port ∈ mkeys (cc_ports c) -> 0 < port;
  bk_clients : forall id cl, mget id (cc_connections c) = Some cl -> cd_port (uc_info cl) ∈ mkeys (cc_ports c)
}.

Lemma ok_books last c : ok last c -> books_ok c.
Proof.
  intros K. split; [apply K|intros q Hq; by apply (wk_ports _ _ _ _ K)|apply K|]. intros id cl Hcl.
  destruct (wk_client _ _ _ _ K id cl Hcl) as (_ & x & a & S & H1 & H2). destruct (wk_connected _ _ _ _ K x a S H1) as (_ & cl' & H3 & H4).
  assert (cd_port (uc_info cl) = ad_port a) as -> by congruence. apply (wk_keys _ _ _ _ K). rewrite (wk_socket _ _ _ _ K x a S). eauto.
Qed.

Lemma removed_books id c c' : books_ok c -> removed id c c' -> books_ok c'.
Proof.
  intros [B1 B2 B3 B4] [Rc Ri Rp _]. rewrite B1 in Ri, Rp.
  assert (mkeys (cc_ports c') = mkeys (cc_ports c) /\
    (forall i, mget i (cc_clientInfos c') = if decide (i = id) then None else mget i (cc_clientInfos c)) /\
    (forall q, port_connected q c' = true -> port_connected q c = true /\ forall cl, mget id (cc_connections c) = Some cl -> cd_port (uc_info cl) <> q))
    as (Hk & Hi & Hq).
  { unfold port_connected. destruct (mget id (cc_connections c)) as [cl|] eqn:E; cbn in Ri, Rp.
    - pose proof (B3 _ (B4 id cl E)) as Hpos. rewrite (proj2 (Z.eqb_neq _ 0)) in Ri, Rp by lia. rewrite Ri, Rp.
      split; [rewrite mkeys_mset, decide_True; [done|by apply (B4 id)]|]. split; [intros i; apply mget_mdel|]. intros q. rewrite mget_mset.
      case_decide as Hne; [done|]. intros Hq. split; [done|]. intros cl' [= <-]. congruence.
    - rewrite Ri, Rp. split; [done|]. split; [|done]. intros i. case_decide; [|done]. subst. by rewrite B1, E. }
  split.
  - intros i. rewrite Hi, Rc, mget_mdel. case_decide; [done|apply B1].
  - intros q Hq'. apply Hq in Hq' as [H1 H2]. destruct (B2 q H1) as (i & cl & Hcl & Hp). exists i, cl. split; [|done]. rewrite Rc, mget_mdel, decide_False; [done|].
    intros ->. by apply (H2 cl).
  - by rewrite Hk.
  - intros i cl. rewrite Rc, mget_mdel. case_decide; [done|]. rewrite Hk. apply B4.
Qed.

Lemma remove_all_spec ids : forall c, books_ok c ->
  let '(es, c') := remove_all ids c in
  books_ok c' /\ cc_connections c' = fold_left (fun m id => mdel id m) ids (cc_connections c) /\
  fold_left told_of es (cc_connections c) = cc_connections c' /\
  (cc_timer c', cc_watching c', cc_scanning c', cc_scan c', cc_sockets c', cc_adapters c', cc_nextAdapter c', mkeys (cc_ports c')) =
  (cc_timer c, cc_watching c, cc_scanning c, cc_scan c, cc_sockets c, cc_adapters c, cc_nextAdapter c, mkeys (cc_ports c)).
Proof.
  induction ids as [|id ids IH]; intros c B; [done|]. cbn [remove_all].
  pose proof (removeConnection_spec id c) as R. pose proof (removed_told id c) as T. destruct (removeConnection id c) as [e1 c1]. cbn [fst snd] in *.
  pose proof (removed_books id c c1 B R) as B1. specialize (IH c1 B1). destruct (remove_all ids c1) as [e2 c2].
  destruct IH as (I1 & I2 & I3 & I4). split; [done|]. cbn [fold_left]. rewrite fold_left_app, T, I3. rewrite I2, (rm_connections _ _ _ R).
  split; [done|]. split; [done|].
  assert (mkeys (cc_ports c1) = mkeys (cc_ports c)) as Hk.
  { rewrite (rm_ports _ _ _ R), (bk_infos _ B). destruct (mget id (cc_connections c)) as [cl|] eqn:E; [|done].
    cbn [fmap option_fmap option_map]. destruct (cd_port (uc_info cl) =? 0); [done|]. rewrite mkeys_mset, decide_True; [done|]. by apply (bk_clients _ B id). }
  etransitivity; [exact I4|]. pose proof (rm_rest _ _ _ R) as H. injection H as -> -> -> -> -> -> ->. by rewrite Hk.
Qed.

(** Destroying the adapters of the sockets leaves none that serves. *)
Lemma destroy_all_around aids : forall c, around (fold_left (fun c aid => destroy_adapter aid c) aids c) = around c.
Proof. induction aids as [|aid aids IH]; intros c; [done|]. cbn. rewrite IH. apply upd_around. Qed.

Lemma destroy_all_lookup aids : forall c x,
  mget x (cc_adapters (fold_left (fun c aid => destroy_adapter aid c) aids c)) = mget x (cc_adapters c) \/
  exists a, mget x (cc_adapters c) = Some a /\ mget x (cc_adapters (fold_left (fun c aid => destroy_adapter aid c) aids c)) = Some (destroyed a).
Proof.
  induction aids as [|aid aids IH]; intros c x; [by left|]. cbn [fold_left].
  pose proof (upd_lookup aid destroyed c x) as L. fold (destroy_adapter aid c) in L.
  destruct (IH (destroy_adapter aid c) x) as [->|(b & Hb & ->)]; rewrite L in *; destruct (x =? aid); try (by left); try (by right; eauto).
  - destruct (mget x (cc_adapters c)) as [a|]; [right; by exists a|by left].
  - destruct (mget x (cc_adapters c)) as [a|]; [|done]. cbn in Hb. right. exists a. by simplify_eq.
Qed.

Lemma destroy_all_silent aids : forall c x a, x ∈ aids ->
  mget x (cc_adapters (fold_left (fun c aid => destroy_adapter aid c) aids c)) = Some a -> ad_listener a = false.
Proof.
  induction aids as [|aid aids IH]; intros c x a Hx; [by apply not_elem_of_nil in Hx|]. cbn [fold_left].
  apply elem_of_cons in Hx as [->|Hx]; [|by apply IH]. intros Ha.
  pose proof (upd_lookup aid destroyed c aid) as L. fold (destroy_adapter aid c) in L. rewrite Z.eqb_refl in L.
  destruct (destroy_all_lookup aids (destroy_adapter aid c) aid) as [H|(b & _ & H)]; rewrite H in Ha.
  - rewrite L in Ha. destruct (mget aid (cc_adapters c)); [|done]. cbn in Ha. by simplify_eq.
  - by simplify_eq.
Qed.

(** A controller without sockets and clients. *)
Record deserted (c : ClientController) : Prop := {
  ds_serves : forall x a, mget x (cc_adapters c) = Some a -> ad_listener a = false;
  ds_sockets : cc_sockets c = [];
  ds_connections : cc_connections c = [];
  ds_watching : cc_watching c = false;
  ds_timer : cc_timer c = false
}.

Lemma close_ok last c : ok last c ->
  let '(es, c') := close_controller c in
  deserted c' /\ ok last c' /\ fold_left told_of es (cc_connections c) = cc_connections c'.
Proof.
  intros K. unfold close_controller, closeAllConnection. set (c1 := stopWatchClient c).
  set (c2 := fold_left (fun c aid => destroy_adapter aid c) (mvals (cc_sockets c1)) c1).
  pose proof (destroy_all_around (mvals (cc_sockets c1)) c1) as A. fold c2 in A. unfold around in A. injection A as At Aw Asg Asc As Ap Ai Ac An.
  pose proof (fun x => destroy_all_lookup (mvals (cc_sockets c1)) c1 x) as L. fold c2 in L.
  assert (forall x a, mget x (cc_adapters c2) = Some a -> ad_listener a = false) as Hsil.
  { intros x a Hx. destruct (ad_listener a) eqn:El; [|done]. destruct (L x) as [H|(b & _ & H)]; rewrite H in Hx; [|by simplify_eq].
    pose proof (wk_socket _ _ _ _ K x a (conj Hx El)) as Hso. rewrite <- El.
    apply (destroy_all_silent (mvals (cc_sockets c1)) c1 x a); [|by fold c2; rewrite H].
    apply mget_In in Hso. apply list_elem_of_fmap. by exists (ad_port a, x). }
  clearbody c2. assert (books_ok (c2 <| cc_sockets := [] |>)) as B.
  { destruct (ok_books last c K) as [B1 B2 B3 B4]. unfold port_connected in *. split; unfold port_connected; cbn; rewrite ?Ap, ?Ai, ?Ac; done. }
  pose proof (remove_all_spec (mkeys (cc_connections (c2 <| cc_sockets := [] |>))) _ B) as R.
  destruct (remove_all _ _) as [es c']. destruct R as (R1 & R2 & R3 & R4). cbn in R4. injection R4 as Rt Rw Rsg Rsc Rs Ra Rn Rk.
  rewrite mdel_all in R2 by done. cbn in R3. rewrite Ac in R3.
  assert (deserted c') as D by (split; [rewrite Ra; exact Hsil|done|done|by rewrite Rw, Aw|by rewrite Rt, At]). split; [done|]. split; [|done].
  destruct D as [D1 D2 D3 _ _]. destruct R1 as [B1 B2 B3 B4].
  assert (forall x a, ~ serves c' x a) as Hno by (intros x a [Hx Hl]; specialize (D1 x a Hx); congruence).
  assert (forall x a, mget x (cc_adapters c') = Some a -> exists a0, mget x (cc_adapters c) = Some a0 /\ (a = a0 \/ a = destroyed a0)) as Hold.
  { intros x a Hx. rewrite Ra in Hx. destruct (L x) as [H|(b & Hb & H)]; rewrite H in Hx; [eauto|]. simplify_eq. eauto. }
  split.
  - intros x a Hx. rewrite Rn, An. destruct (Hold x a Hx) as (a0 & Hx0 & _). exact (wk_store _ _ _ _ K x a0 Hx0).
  - intros x a S. by destruct (Hno x a).
  - intros q x. by rewrite D2.
  - intros x a S. by destruct (Hno x a).
  - intros x a S. by destruct (Hno x a).
  - intros id cl. by rewrite D3.
  - exact B1.
  - intros q. split; [apply B2|]. intros (id & cl & Hcl & _). by rewrite D3 in Hcl.
  - exact B3.
  - intros q. rewrite D2. by intros [? ?].
  - intros q qs. rewrite Rsc, Asc. intros E. destruct (wk_scan _ _ _ _ K q qs E) as (H1 & H2 & _ & H4 & H5).
    rewrite Rsg, Asg, D2, Rk, Ap. done.
  - destruct (wk_ids _ _ _ _ K) as (H0 & H1 & H2). split; [done|]. split; [|intros id cl; by rewrite D3]. intros x a Hx.
    destruct (Hold x a Hx) as (a0 & Hx0 & [->| ->]); [eauto|]. exact (H1 x a0 Hx0).
  - intros Hios x a Hx. destruct (Hold x a Hx) as (a0 & Hx0 & [->| ->]); [by apply (wk_retired _ _ _ _ K Hios x)|].
    destruct (wk_retired _ _ _ _ K Hios x a0 Hx0) as [H1 _]. split; [done|]. by intros [?|?].
Qed.

(** *** All steps *)

Definition next_id (last : Z) (op : watch_op) : Z := match op with WRegisters _ id _ => id | _ => last end.

Lemma watch_step_ok last op c : ok last c -> (forall aid id q, op = WRegisters aid id q -> last < id) ->
  let '(es, c') := watch_step os autoFind op c in
  ok (next_id last op) c' /\ fold_left told_of es (cc_connections c) = cc_connections c'.
Proof.
  intros K Hid. destruct op as [| | | |aid|aid|aid|aid id q|aid|r]; cbn [watch_step next_id].
  - unfold startWatchClient. destruct (cc_watching c); [done|].
    destruct (watchClient_ok last (c <| cc_watching := true |>) (watching_ok last true (cc_timer c) c K)) as [K1 C1].
    destruct autoFind; [|done]. split; [|done]. apply (watching_ok last (cc_watching (watchClient os (c <| cc_watching := true |>))) true) in K1.
    by destruct (watchClient os (c <| cc_watching := true |>)).
  - split; [by apply watching_ok|done].
  - unfold watch_tick. destruct (cc_timer c); [|done]. destruct (watchClient_ok last c K) as [K1 C1]. done.
  - pose proof (close_ok last c K) as H. destruct (close_controller c) as [es c']. by destruct H as (_ & H).
  - unfold socket_connects. split; [|by rewrite upd_connections]. apply mild_ok; [|done]. intros a. case_bool_decide as E; [|done]. cbn. rewrite E. repeat split; try done; naive_solver.
  - unfold tunnel_opens. split; [|by rewrite upd_connections]. apply mild_ok; [|done]. intros a. destruct (ad_tunnel a) eqn:E; cbn; rewrite ?E; repeat split; try done; naive_solver.
  - unfold tunnel_fails. split; [|by rewrite upd_connections]. apply mild_ok; [|done]. intros a. cbn. repeat split; try done; naive_solver.
  - by apply (registers_ok last); [|apply (Hid aid id q)].
  - by apply off_ok.
  - destruct (checked_ok last r c K) as [K1 C1]. done.
Qed.

Fixpoint last_id (last : Z) (ops : list watch_op) : Z := match ops with [] => last | op :: ops => last_id (next_id last op) ops end.

Lemma watch_run_ok ops : forall last c, ok last c -> ids_increase last ops = true ->
  ok (last_id last ops) (watch_run os autoFind ops c).2 /\
  fold_left told_of (watch_run os autoFind ops c).1 (cc_connections c) = cc_connections (watch_run os autoFind ops c).2.
Proof.
  induction ops as [|op ops IH]; intros last c K Hi; [done|]. cbn [watch_run last_id].
  assert ((forall aid id q, op = WRegisters aid id q -> last < id) /\ ids_increase (next_id last op) ops = true) as [H1 H2].
  { destruct op; cbn in Hi |- *; try (by split; [intros; done|]). apply andb_prop in Hi as [H ?]. split; [|done]. intros ? ? ? [= <- <- <-]. lia. }
  pose proof (watch_step_ok last op c K H1) as S. destruct (watch_step os autoFind op c) as [e1 c1]. destruct S as [K1 T1].
  destruct (IH _ c1 K1 H2) as [K2 T2]. destruct (watch_run os autoFind ops c1) as [e2 c2]. cbn [fst snd] in *.
  split; [done|]. by rewrite fold_left_app, T1.
Qed.

(** The constructor. *)
Lemma port_added_ok c port : ok 0 c -> 0 < port -> port ∉ mkeys (cc_ports c) -> cc_connections c = [] -> cc_scan c = None ->
  let '(aid, c1) := createAdapter port c in
  ok 0 (c1 <| cc_sockets ::= mset port aid |> <| cc_ports ::= mset port false |>).
Proof.
  intros K Hpos Hnew Hc Hs. unfold createAdapter. set (a := mkClientAdapter port true false 0 SockNew false). set (n := cc_nextAdapter c).
  match goal with |- ok 0 ?c0 => set (c' := c0) end.
  assert (forall x b, mget x (cc_adapters c') = Some b -> x = n /\ b = a \/ x <> n /\ mget x (cc_adapters c) = Some b) as Hold.
  { intros x b. subst c'. cbn. rewrite mget_mset. case_decide; [subst; intros [= <-]; auto|auto]. }
  assert (mget n (cc_adapters c') = Some a) as Hn by (subst c'; cbn; by rewrite mget_mset_eq).
  assert (forall x b, serves c x b -> serves c' x b /\ ad_port b <> port) as Hkeep.
  { intros x b [Hx Hl]. pose proof (wk_store _ _ _ _ K x b Hx). split.
    - split; [|done]. subst c'. cbn. rewrite mget_mset_ne; [done|]. subst n. lia.
    - intros <-. apply Hnew, (wk_keys _ _ _ _ K). rewrite (wk_socket _ _ _ _ K x b (conj Hx Hl)). eauto. }
  assert (mkeys (cc_ports c') = mkeys (cc_ports c) ++ [port]) as Hk by (subst c'; cbn -[mkeys]; rewrite mkeys_mset; by rewrite decide_False).
  split.
  - intros x b Hx. change (cc_nextAdapter c') with (Z.succ n). destruct (Hold x b Hx) as [[-> _]|[_ Hx0]]; [lia|].
    pose proof (wk_store _ _ _ _ K x b Hx0). subst n. lia.
  - intros x b [Hx Hl]. subst c'. cbn. destruct (Hold x b Hx) as [[-> ->]|[_ Hx0]]; [by rewrite mget_mset_eq|].
    destruct (Hkeep x b (conj Hx0 Hl)) as [_ Hne]. rewrite mget_mset_ne by done. by apply (wk_socket _ _ _ _ K x b).
  - intros q x. change (cc_sockets c') with (mset port n (cc_sockets c)). rewrite mget_mset. case_decide as Hq.
    + intros [= <-]. exists a. split; [done|by subst].
    + intros Hx. destruct (wk_port _ _ _ _ K q x Hx) as (b & S & Hb). exists b. split; [by apply Hkeep|done].
  - intros x b [Hx Hl] Hcon. destruct (Hold x b Hx) as [[_ ->]|[_ Hx0]]; [done|]. exact (wk_connected _ _ _ _ K x b (conj Hx0 Hl) Hcon).
  - intros x b _ _. change (cc_connections c') with (cc_connections c). by rewrite Hc.
  - intros id cl. change (cc_connections c') with (cc_connections c). by rewrite Hc.
  - exact (wk_infos _ _ _ _ K).
  - intros q. unfold port_connected. change (cc_ports c') with (mset port false (cc_ports c)). change (cc_connections c') with (cc_connections c).
    rewrite mget_mset. case_decide as Hq; [|apply (wk_ports _ _ _ _ K)]. cbn. split; [done|]. intros (id & cl & Hcl & _). by rewrite Hc in Hcl.
  - intros q. rewrite Hk, elem_of_app, list_elem_of_singleton. intros [Hq| ->]; [by apply (wk_known _ _ _ _ K)|done].
  - intros q. rewrite Hk. change (cc_sockets c') with (mset port n (cc_sockets c)). rewrite mget_mset, elem_of_app, list_elem_of_singleton.
    case_decide; [auto|]. intros Hq. left. by apply (wk_keys _ _ _ _ K).
  - intros q qs. change (cc_scan c') with (cc_scan c). by rewrite Hs.
  - destruct (wk_ids _ _ _ _ K) as (H0 & H1 & H2). split; [done|]. split; [|done]. intros x b Hx. destruct (Hold x b Hx) as [[_ ->]|[_ Hx0]]; [done|eauto].
  - intros Hios x b Hx. destruct (Hold x b Hx) as [[_ ->]|[_ Hx0]]; [by split|]. by apply (wk_retired _ _ _ _ K Hios x).
Qed.

Lemma new_controller_ok ports : NoDup ports -> Forall (fun p => 0 < p) ports -> ok 0 (new_controller ports) /\ cc_connections (new_controller ports) = [].
Proof.
  intros Hnd Hpos. unfold new_controller.
  assert (forall c, ok 0 c -> cc_connections c = [] -> cc_scan c = None -> (forall p, p ∈ ports -> p ∉ mkeys (cc_ports c)) ->
    ok 0 (fold_left (fun c port => let '(aid, c) := createAdapter port c in
      c <| cc_sockets ::= mset port aid |> <| cc_ports ::= mset port false |>) ports c) /\
    cc_connections (fold_left (fun c port => let '(aid, c) := createAdapter port c in
      c <| cc_sockets ::= mset port aid |> <| cc_ports ::= mset port false |>) ports c) = []) as H.
  { induction Hnd as [|port ports Hin Hnd IH]; intros c K Hc Hs Hf; [done|]. inversion_clear Hpos as [|? ? Hp Hps]. cbn [fold_left].
    pose proof (port_added_ok c port K Hp (Hf port ltac:(left)) Hc Hs) as K1. unfold createAdapter in *. apply IH; try done.
    intros p Hin'. cbn -[mkeys]. rewrite mkeys_mset, decide_False by (apply Hf; left). rewrite elem_of_app, list_elem_of_singleton.
    intros [Hk| ->]; [by apply (Hf p ltac:(by right))|done]. }
  apply H; try done; [|intros p _; apply not_elem_of_nil].
  split; try done; try (by intros ? ? [? ?]); [by intros q; split; [|intros (? & ? & ? & _)]|by intros q Hq%not_elem_of_nil|by intros q [? ?]].
Qed.
End Watching.

(** A device's watcher and the daemon agree on its clients.  However its
    sockets connect, register, fail and close, whatever its ports answer, and
    however often watching is started, repeated, stopped and closed, the clients
    it has told the physical connector of are at every moment those it has; each
    is served by the open socket of the one live adapter of its port, no two
    share a port, and a port counts as connected, and so is not tried again,
    exactly while it has a client. *)
Theorem watched_clients_exact os autoFind ports ops : NoDup ports -> Forall (fun p => 0 < p) ports -> ids_increase 0 ops = true ->
  let '(es, c) := watch_run os autoFind ops (new_controller ports) in
  fold_left told_of es [] = cc_connections c /\
  (forall id cl, mget id (cc_connections c) = Some cl -> clientId cl = id /\
     exists aid a, mget (cd_port (uc_info cl)) (cc_sockets c) = Some aid /\ mget aid (cc_adapters c) = Some a /\
       ad_tcpClient a = SockOpen /\ ad_listener a = true /\ ad_id a = id) /\
  (forall id cl id' cl', mget id (cc_connections c) = Some cl -> mget id' (cc_connections c) = Some cl' ->
     cd_port (uc_info cl) = cd_port (uc_info cl') -> id = id') /\
  (forall port, port_connected port c = true <-> exists id cl, mget id (cc_connections c) = Some cl /\ cd_port (uc_info cl) = port).
Proof.
  intros Hnd Hpos Hi. destruct (new_controller_ok os ports Hnd Hpos) as [K0 C0].
  destruct (watch_run_ok os autoFind ops 0 (new_controller ports) K0 Hi) as [K T]. rewrite C0 in T.
  destruct (watch_run os autoFind ops (new_controller ports)) as [es c]. cbn [fst snd] in *.
  assert (forall id cl, mget id (cc_connections c) = Some cl -> exists aid a, serves c aid a /\ ad_id a = id /\ ad_tcpClient a = SockOpen /\
    ad_port a = cd_port (uc_info cl)) as H.
  { intros id cl Hcl. destruct (wk_client _ _ _ _ K id cl Hcl) as (_ & aid & a & S & Hcon & Hid). exists aid, a.
    destruct (wk_connected _ _ _ _ K aid a S Hcon) as (Ho & cl' & Hcl' & Hp). split; [done|]. split; [done|]. split; [done|]. congruence. }
  split; [done|]. split; [|split; [|apply (wk_ports _ _ _ _ K)]].
  - intros id cl Hcl. split; [apply (wk_client _ _ _ _ K id cl Hcl)|]. destruct (H id cl Hcl) as (aid & a & S & Hid & Ho & Hp). exists aid, a.
    rewrite <- Hp, (wk_socket _ _ _ _ K aid a S). by destruct S.
  - intros id cl id' cl' Hcl Hcl' Hp. destruct (H id cl Hcl) as (x & a & S & <- & _ & Pa). destruct (H id' cl' Hcl') as (y & b & S' & <- & _ & Pb).
    pose proof (wk_socket _ _ _ _ K x a S) as E1. pose proof (wk_socket _ _ _ _ K y b S') as E2. assert (x = y) as -> by congruence.
    destruct S, S'. congruence.
Qed.

Definition sample_query : ClientQuery := mkClientQuery (JStr (js "app")) (js "Android") (js "Pixel") (JStr (js "model")) (js "serial") None None.

(** One port fails and is tried again, two register, one of them goes away. *)
Definition sample_watch : list watch_op :=
  [WStart; WConnects 2; WOff 2; WConnects 3; WTick; WConnects 4; WRegisters 4 1 sample_query; WConnects 5; WRegisters 5 2 sample_query; WOff 4].

Lemma watched_clients_exact_example :
  mkeys (cc_connections (watch_run (js "Harmony") true sample_watch (new_controller [8901; 8902])).2) = [2] /\
  let '(es, c) := watch_run (js "Harmony") true sample_watch (new_controller [8901; 8902]) in
  fold_left told_of es [] = cc_connections c.
Proof.
  split; [vm_compute; reflexivity|].
  pose proof (watched_clients_exact (js "Harmony") true [8901; 8902] sample_watch
    ltac:(apply (bool_decide_unpack _); vm_compute; reflexivity) ltac:(repeat constructor; lia) ltac:(vm_compute; reflexivity)) as H.
  destruct (watch_run _ _ _ _) as [es c]. destruct H as [H _]. exact H.
Defined.

(** ** After closing *)

Definition is_start (op : watch_op) : bool := match op with WStart => true | _ => false end.

Lemma upd_deserted aid g c : (forall a, ad_listener (g a) = ad_listener a) -> deserted c -> deserted (upd_adapter aid g c).
Proof.
  intros Hg [D1 D2 D3 D4 D5]. pose proof (upd_around aid g c) as A. unfold around in A. injection A as At Aw _ _ As _ _ Ac _.
  split; try congruence. intros x a. rewrite upd_lookup. destruct (x =? aid); [|apply D1].
  destruct (mget x (cc_adapters c)) as [a0|] eqn:E; [|done]. cbn. intros [= <-]. rewrite Hg. by apply (D1 x).
Qed.

Lemma deserted_step os autoFind op c : is_start op = false -> deserted c ->
  (watch_step os autoFind op c).1 = [] /\ deserted (watch_step os autoFind op c).2.
Proof.
  intros Hop D. destruct op as [| | | |aid|aid|aid|aid id q|aid|r]; cbn [watch_step]; try done.
  - split; [done|]. by destruct D; split.
  - unfold watch_tick. by rewrite (ds_timer _ D).
  - unfold close_controller, closeAllConnection. destruct D as [D1 D2 D3 D4 D5]. cbn. rewrite D2. cbn. rewrite D3. by split.
  - split; [done|]. apply upd_deserted; [|done]. intros a. by case_bool_decide.
  - split; [done|]. apply upd_deserted; [|done]. intros a. by destruct (ad_tunnel a).
  - split; [done|]. by apply upd_deserted.
  - unfold runtime_registers. destruct (mget aid (cc_adapters c)) as [a|] eqn:E; [|done].
    by rewrite (ds_serves _ D aid a E), orb_true_r.
  - unfold socket_off. destruct (mget aid (cc_adapters c)) as [a|] eqn:E; [|done]. rewrite (ds_serves _ D aid a E).
    split; [done|]. by apply upd_deserted.
  - split; [done|]. unfold port_checked. destruct (cc_scan c) as [[port ports]|]; [|done]. rewrite (ds_watching _ D). cbn. by destruct D; split.
Qed.

Lemma deserted_run os autoFind ops : forall c, Forall (fun op => is_start op = false) ops -> deserted c ->
  (watch_run os autoFind ops c).1 = [] /\ deserted (watch_run os autoFind ops c).2.
Proof.
  induction ops as [|op ops IH]; intros c Hops D; [done|]. inversion_clear Hops as [|? ? Hop Hops']. cbn [watch_run].
  pose proof (deserted_step os autoFind op c Hop D) as S. destruct (watch_step os autoFind op c) as [e1 c1]. cbn in S. destruct S as [-> D1].
  specialize (IH c1 Hops' D1). by destruct (watch_run os autoFind ops c1).
Qed.

Lemma watch_run_app os autoFind ops ops' : forall c,
  watch_run os autoFind (ops ++ ops') c =
  ((watch_run os autoFind ops c).1 ++ (watch_run os autoFind ops' (watch_run os autoFind ops c).2).1,
   (watch_run os autoFind ops' (watch_run os autoFind ops c).2).2).
Proof.
  induction ops as [|op ops IH]; intros c; [cbn; by destruct (watch_run _ _ ops' c)|]. cbn [app watch_run].
  destruct (watch_step os autoFind op c) as [e1 c1]. rewrite IH. destruct (watch_run os autoFind ops c1) as [e2 c2]. cbn. by rewrite (assoc app).
Qed.

Lemma ids_increase_prefix ops ops' : forall last, ids_increase last (ops ++ ops') = true -> ids_increase last ops = true.
Proof.
  induction ops as [|op ops IH]; intros last; [done|]. destruct op; cbn; try apply IH. intros [H1 H2]%andb_prop. rewrite H1. by apply (IH id).
Qed.

(** A closed watcher is over.  Closing it unregisters every client it had
    told the physical connector of; whatever its sockets, timers and port checks
    do from then on, it registers and unregisters nothing, holds no socket and
    no client, and, unless the device is reached through a tunnel (iOS), no
    socket of any adapter it ever made is connecting or open. *)
Theorem closed_watcher_over os autoFind ports ops later : NoDup ports -> Forall (fun p => 0 < p) ports ->
  ids_increase 0 (ops ++ [WClose] ++ later) = true -> Forall (fun op => is_start op = false) later ->
  let '(es, c) := watch_run os autoFind (ops ++ [WClose]) (new_controller ports) in
  let '(es', c') := watch_run os autoFind later c in
  fold_left told_of es [] = [] /\ es' = [] /\ cc_sockets c' = [] /\ cc_connections c' = [] /\
  (os <> js "iOS" -> forall aid a, mget aid (cc_adapters c') = Some a -> ad_tcpClient a <> SockConnecting /\ ad_tcpClient a <> SockOpen).
Proof.
  intros Hnd Hpos Hi Hl. destruct (new_controller_ok os ports Hnd Hpos) as [K0 C0]. rewrite (assoc app) in Hi.
  destruct (watch_run_ok os autoFind _ 0 _ K0 Hi) as [K2 _]. rewrite watch_run_app in K2.
  apply ids_increase_prefix in Hi. destruct (watch_run_ok os autoFind _ 0 _ K0 Hi) as [_ T1]. rewrite C0 in T1.
  destruct (watch_run_ok os autoFind _ 0 _ K0 (ids_increase_prefix _ _ 0 Hi)) as [K _].
  assert (deserted (watch_run os autoFind (ops ++ [WClose]) (new_controller ports)).2) as D.
  { rewrite watch_run_app. cbn [watch_run watch_step]. pose proof (close_ok os _ _ K) as Hc.
    destruct (close_controller (watch_run os autoFind ops (new_controller ports)).2) as [e c]. apply Hc. }
  destruct (watch_run os autoFind (ops ++ [WClose]) (new_controller ports)) as [es c]. cbn [fst snd] in *.
  destruct (deserted_run os autoFind later c Hl D) as [He D']. destruct (watch_run os autoFind later c) as [es' c']. cbn [fst snd] in *.
  split; [rewrite T1; apply (ds_connections _ D)|]. split; [done|]. split; [apply (ds_sockets _ D')|]. split; [apply (ds_connections _ D')|].
  intros Hos aid a Ha. pose proof (ds_serves _ D' aid a Ha) as Hsil.
  destruct (wk_retired _ _ _ _ K2 ltac:(by apply bool_decide_eq_false_2) aid a Ha) as [_ Hr].
  split; intros E; rewrite Hr in Hsil; auto; done.
Qed.

Lemma closed_watcher_over_example :
  let '(es, c) := watch_run (js "Harmony") true (sample_watch ++ [WClose]) (new_controller [8901; 8902]) in
  let '(es', c') := watch_run (js "Harmony") true [WConnects 4; WTick; WOff 5] c in
  fold_left told_of es [] = [] /\ es' = [].
Proof.
  pose proof (closed_watcher_over (js "Harmony") true [8901; 8902] sample_watch [WConnects 4; WTick; WOff 5]
    ltac:(apply (bool_decide_unpack _); vm_compute; reflexivity) ltac:(repeat constructor; lia) ltac:(vm_compute; reflexivity)
    ltac:(repeat constructor)) as H.
  destruct (watch_run _ _ (_ ++ _) _) as [es c]. destruct (watch_run _ _ _ c) as [es' c']. destruct H as (H1 & H2 & _). exact (conj H1 H2).
Defined.

(** ** Tunnels *)

(** An adapter that holds no port is left alone by everything that is not about it. *)
Record aloof (aid : Z) (a : option ClientAdapter) (c : ClientController) : Prop := {
  al_same : mget aid (cc_adapters c) = a;
  al_out : forall port, mget port (cc_sockets c) <> Some aid;
  al_old : aid < cc_nextAdapter c;
  al_keys : NoDup (mkeys (cc_sockets c))
}.

Section Aloof.
Context (aid : Z) (a : option ClientAdapter).
Implicit Types c : ClientController.

Lemma aloof_upd x g c : (x = aid -> g <$> a = a) -> aloof aid a c -> aloof aid a (upd_adapter x g c).
Proof.
  intros Hx [H1 H2 H3 H4]. split; rewrite ?upd_sockets, ?upd_next; try done. rewrite upd_lookup, H1.
  destruct (Z.eqb_spec aid x) as [->|]; auto.
Qed.

Lemma aloof_same c c' : cc_adapters c' = cc_adapters c -> cc_sockets c' = cc_sockets c -> cc_nextAdapter c' = cc_nextAdapter c ->
  aloof aid a c -> aloof aid a c'.
Proof. intros E1 E2 E3 [H1 H2 H3 H4]. split; rewrite ?E1, ?E2, ?E3; done. Qed.

Lemma aloof_destroy o c : o <> Some aid -> aloof aid a c -> aloof aid a (destroy_opt o c).
Proof. intros Ho H. destruct o as [x|]; [|done]. apply aloof_upd; [congruence|done]. Qed.

Lemma aloof_create port c : aloof aid a c -> aloof aid a (createAdapter port c).2.
Proof. intros [H1 H2 H3 H4]. split; cbn; [|done|lia|done]. rewrite mget_mset_ne; [done|lia]. Qed.

Lemma aloof_socket port x c : x <> aid -> aloof aid a c -> aloof aid a (c <| cc_sockets ::= mset port x |>).
Proof.
  intros Hx [H1 H2 H3 H4]. split; cbn -[mkeys]; [done|intros p|done|by apply NoDup_mset]. rewrite mget_mset. case_decide; [congruence|apply H2].
Qed.

(** The fresh adapter [x] takes a port and connects. *)
Lemma aloof_take os port x c : x <> aid -> aloof aid a c -> aloof aid a (connect_adapter os x (c <| cc_sockets ::= mset port x |>)).
Proof. intros Hx H. apply aloof_upd; [done|]. by apply aloof_socket. Qed.

Lemma aloof_try os ports : forall c, aloof aid a c -> aloof aid a (fold_left (try_port os) ports c).
Proof.
  induction ports as [|port ports IH]; intros c H; [done|]. apply IH. unfold try_port, replace_adapter.
  destruct (port_connected port c); [done|]. apply aloof_take; [pose proof (al_old _ _ _ H); lia|].
  apply aloof_destroy; [apply (al_out _ _ _ H)|]. by apply (aloof_create port c).
Qed.

Lemma aloof_scan ports : forall c, aloof aid a c -> aloof aid a (scan ports c).
Proof.
  induction ports as [|port ports IH]; intros c H; cbn [scan]; [by apply (aloof_same c)|].
  destruct (negb (cc_watching c)); [by apply (aloof_same c)|]. destruct (port_connected port c); [by apply IH|].
  pose proof (aloof_destroy _ c (al_out _ _ _ H port) H) as [H1 H2 H3 H4]. split; cbn -[mkeys]; [done| |done|by apply NoDup_mdel].
  intros p. rewrite mget_mdel. case_decide; [done|apply H2].
Qed.

Lemma aloof_watch os c : aloof aid a c -> aloof aid a (watchClient os c).
Proof.
  intros H. unfold watchClient. destruct (negb (cc_watching c)); [done|]. destruct (isAndroid os); [|by apply aloof_try].
  destruct (cc_scanning c); [done|]. apply aloof_scan. by apply (aloof_same c).
Qed.

Lemma aloof_remove id c : aloof aid a c -> aloof aid a (removeConnection id c).2.
Proof.
  intros H. unfold removeConnection. destruct (mget id (cc_connections c)); cbn; (destruct (mget id (cc_clientInfos c)) as [port|];
    [destruct (port =? 0)|]); try done; by apply (aloof_same c).
Qed.

Lemma aloof_remove_all ids : forall c, aloof aid a c -> aloof aid a (remove_all ids c).2.
Proof.
  induction ids as [|id ids IH]; intros c H; [done|]. cbn [remove_all]. pose proof (aloof_remove id c H) as H1.
  destruct (removeConnection id c) as [e1 c1]. specialize (IH c1 H1). by destruct (remove_all ids c1).
Qed.

Lemma aloof_destroys aids : forall c, aid ∉ aids -> aloof aid a c -> aloof aid a (fold_left (fun c x => destroy_adapter x c) aids c).
Proof.
  induction aids as [|x aids IH]; intros c Hx H; [done|]. apply not_elem_of_cons in Hx as [Hne Hx]. apply IH; [done|]. by apply aloof_upd.
Qed.

Lemma aloof_close c : aloof aid a c -> aloof aid a (close_controller c).2.
Proof.
  intros H. apply aloof_remove_all. assert (aloof aid a (stopWatchClient c)) as H1 by (by apply (aloof_same c)).
  apply (aloof_destroys (mvals (cc_sockets (stopWatchClient c)))) in H1.
  - destruct H1 as [E1 E2 E3 E4]. split; [done|done|done|apply NoDup_nil_2].
  - intros ([port x] & -> & Hin)%list_elem_of_fmap. apply (al_out _ _ _ H port). by apply In_mget; [apply (al_keys _ _ _ H)|].
Qed.

(** Nothing is there, or a retired adapter with an open socket. *)
Definition inert (op : watch_op) : Prop :=
  match a with
  | None => True
  | Some a => ad_listener a = false /\ ad_tcpClient a = SockOpen /\ ad_tunnel a = false /\ op <> WOff aid
  end.

Lemma inert_upd g x c : (forall b, a = Some b -> g b = b) -> aloof aid a c -> aloof aid a (upd_adapter x g c).
Proof. intros Hg. apply aloof_upd. intros _. destruct a as [b|]; [|done]. cbn. by rewrite Hg. Qed.

Lemma aloof_step os autoFind op c : inert op -> aloof aid a c -> aloof aid a (watch_step os autoFind op c).2.
Proof.
  intros Hop H. pose proof (al_same _ _ _ H) as Hsame. unfold inert in Hop. destruct op as [| | | |x|x|x|x id q|x|r]; cbn [watch_step snd].
  - unfold startWatchClient. destruct (cc_watching c); [done|].
    assert (aloof aid a (watchClient os (c <| cc_watching := true |>))) as H1 by (apply aloof_watch; by apply (aloof_same c)).
    destruct autoFind; [|done]. by apply (aloof_same (watchClient os (c <| cc_watching := true |>))).
  - by apply (aloof_same c).
  - unfold watch_tick. destruct (cc_timer c); [by apply aloof_watch|done].
  - by apply aloof_close.
  - apply inert_upd; [|done]. intros b ->. destruct Hop as (_ & -> & _). done.
  - apply inert_upd; [|done]. intros b ->. destruct Hop as (_ & _ & -> & _). done.
  - apply inert_upd; [|done]. intros b ->. destruct Hop as (_ & _ & Ht & _). destruct b. cbn in *. by subst.
  - unfold runtime_registers. destruct (mget x (cc_adapters c)) as [b|] eqn:E; [|done].
    destruct (negb _ || _ || negb (ad_listener b)) eqn:Eg; [done|]. unfold addConnection.
    assert (x <> aid) as Hne. { intros ->. rewrite <- Hsame, E in Hop. destruct Hop as [Hl _]. rewrite Hl in Eg. by rewrite orb_true_r in Eg. }
    destruct (mget id (cc_connections c)); cbn [snd]; apply aloof_upd; try done. by apply (aloof_same c).
  - unfold socket_off. destruct (mget x (cc_adapters c)) as [b|] eqn:E; [|done].
    assert (x <> aid) as Hne. { intros ->. rewrite <- Hsame, E in Hop. by destruct Hop as (_ & _ & _ & []). }
    destruct (ad_listener b); cbn [snd]; [apply aloof_remove|]; by apply aloof_upd.
  - unfold port_checked. destruct (cc_scan c) as [[port ports]|]; [|done]. destruct (negb (cc_watching c)); [by apply (aloof_same c)|].
    destruct r; [|by apply aloof_scan|by apply (aloof_same c)]. apply aloof_scan, aloof_take; [pose proof (al_old _ _ _ H); lia|]. by apply (aloof_create port c).
Qed.

Lemma aloof_run os autoFind ops : forall c, Forall inert ops -> aloof aid a c -> aloof aid a (watch_run os autoFind ops c).2.
Proof.
  induction ops as [|op ops IH]; intros c Ho H; [done|]. inversion_clear Ho as [|? ? Ho1 Ho2]. cbn [watch_run].
  pose proof (aloof_step os autoFind op c Ho1 H) as H1. destruct (watch_step os autoFind op c) as [e1 c1]. specialize (IH c1 Ho2 H1).
  by destruct (watch_run os autoFind ops c1).
Qed.
End Aloof.

(** A number that is never an adapter keeps the keys of the sockets apart. *)
Lemma sockets_NoDup os autoFind ports ops : NoDup (mkeys (cc_sockets (watch_run os autoFind ops (new_controller ports)).2)).
Proof.
  apply (al_keys (-1) None), aloof_run; [by apply Forall_forall|]. unfold new_controller.
  assert (forall c, aloof (-1) None c -> 0 <= cc_nextAdapter c -> aloof (-1) None (fold_left (fun c port =>
    let '(aid, c) := createAdapter port c in c <| cc_sockets ::= mset port aid |> <| cc_ports ::= mset port false |>) ports c)) as H.
  { induction ports as [|port ports IH]; intros c H Hn; [done|]. cbn [fold_left]. apply IH; [|cbn; lia].
    eapply aloof_same, (aloof_socket _ _ port (cc_nextAdapter c) (createAdapter port c).2); [done..|lia|by apply aloof_create]. }
  apply H; [|done]. by split; [| | |apply NoDup_nil_2].
Qed.

(** On iOS a socket can outlive its watcher.  When the tunnel of an adapter
    opens after the adapter has been retired, its socket stays open whatever the
    watcher does afterwards, closing included, unless the other end closes it,
    and a runtime that registers through it never becomes a client. *)
Theorem late_tunnel_leaks os autoFind ports ops aid a later id q : NoDup ports -> Forall (fun p => 0 < p) ports -> ids_increase 0 ops = true ->
  let '(_, c) := watch_run os autoFind ops (new_controller ports) in
  mget aid (cc_adapters c) = Some a -> ad_listener a = false -> ad_tunnel a = true -> WOff aid ∉ later ->
  let '(_, c') := watch_run os autoFind (WTunnel aid :: later) c in
  ad_tcpClient <$> mget aid (cc_adapters c') = Some SockOpen /\ runtime_registers aid id q c' = ([], c').
Proof.
  intros Hnd Hpos Hi. destruct (new_controller_ok os ports Hnd Hpos) as [K0 _]. destruct (watch_run_ok os autoFind ops 0 _ K0 Hi) as [K _].
  pose proof (sockets_NoDup os autoFind ports ops) as Hk. destruct (watch_run os autoFind ops (new_controller ports)) as [es c]. cbn [fst snd] in *.
  intros Ha Hl Ht Hoff. set (b := a <| ad_tcpClient := SockOpen |> <| ad_tunnel := false |>).
  assert (aloof aid (Some b) (tunnel_opens aid c)) as H.
  { split; unfold tunnel_opens; rewrite ?upd_sockets, ?upd_next; [| |by apply (wk_store _ _ _ _ K aid a)|done].
    - rewrite upd_lookup, Z.eqb_refl, Ha. cbn. by rewrite Ht.
    - intros port Hp. destruct (wk_port _ _ _ _ K port aid Hp) as (a' & [Ha' Hl'] & _). congruence. }
  apply (aloof_run aid (Some b) os autoFind later) in H.
  - cbn [watch_run watch_step]. destruct (watch_run os autoFind later (tunnel_opens aid c)) as [es' c']. cbn [fst snd] in H.
    unfold runtime_registers. rewrite (al_same _ _ _ H). cbn -[bool_decide]. split; [done|]. by rewrite Hl, orb_true_r.
  - apply Forall_forall. intros op Hop. cbn. split; [done|]. split; [done|]. split; [done|]. intros ->. by apply list_elem_of_In in Hop.
Qed.

Lemma late_tunnel_leaks_example :
  let '(_, c) := watch_run (js "iOS") true [WStart; WTick] (new_controller [8901]) in
  let '(_, c') := watch_run (js "iOS") true [WTunnel 1; WTick; WClose] c in
  ad_tcpClient <$> mget 1 (cc_adapters c') = Some SockOpen /\ runtime_registers 1 1 sample_query c' = ([], c').
Proof.
  exact (late_tunnel_leaks (js "iOS") true [8901] [WStart; WTick] 1 (mkClientAdapter 8901 false false 0 SockDestroyed true) [WTick; WClose] 1 sample_query
    ltac:(apply (bool_decide_unpack _); vm_compute; reflexivity) ltac:(repeat constructor) eq_refl eq_refl eq_refl eq_refl
    ltac:(repeat (apply not_elem_of_cons; split; [discriminate|]); apply not_elem_of_nil)).
Defined.
