(* ===== verification/HdcTracker.v ===== *)
(** * The tracker of Harmony devices

    Models [utils/hdc/tracker.ts] with the parsing of [utils/hdc/command/host/targets.ts]
    and the error handling of [listTargets] of [utils/hdc/client.ts]: once a
    second the tracker lists the targets of the hdc server and tells its
    listeners what was added, changed and removed. *)

From Stdlib Require Import String.
From stdpp Require Import strings.
From S2P Require Import JsValue Json Trace.

(** ** Targets *)

Record Target := mkTarget { tg_connectKey : jstr; tg_connType : jstr; tg_connStatus : jstr; tg_devName : option jstr }.

#[export] Instance target_eq_dec : EqDecision Target.
Proof. solve_decision. Defined.

(** [split] at a character. *)
Fixpoint split_at (sep : Z) (s : jstr) : list jstr :=
  match s with
  | [] => [[]]
  | c :: s =>
      if c =? sep then [] :: split_at sep s
      else match split_at sep s with [] => [[c]] | x :: xs => (c :: x) :: xs end
  end.

(** [toString("ascii")] of bytes. *)
Definition ascii_decode (bytes : list Z) : jstr := List.map (fun b => b mod 128) bytes.

Definition parse_target (line : jstr) : Target :=
  let parts := split_at 9 line in
  mkTarget (default [] (parts !! 0%nat)) (default (js "TCP") (parts !! 2%nat)) (default (js "UNKONW") (parts !! 3%nat)) (parts !! 4%nat).

(** [None] is the exception of a line that reports a failure. *)
Definition parseDevices (value : list Z) : option (list Target) :=
  let lines := List.filter (fun e => truthy_str e && negb (startsWith e (js "[Empty]"))) (split_at 10 (ascii_decode value)) in
  if existsb (fun line => startsWith line (js "[Fail]")) lines then None else Some (List.map parse_target lines).

(** [listTargets]: [None] is a connection or a read that failed; every failure
    counts as no targets. *)
Definition listTargets (value : option (list Z)) : list Target := default [] (value ≫= parseDevices).

(** ** The tracker *)

Record Tracker := mkTracker {
  tk_targets : list Target;
  tk_targetMap : list (jstr * Target);
  tk_closed : bool;
  tk_timer : bool;
  tk_reading : bool       (* [listTargets] has not answered yet *)
}.

#[export] Instance eta_tracker : Eta Tracker := fun t =>
  mkTracker (tk_targets t) (tk_targetMap t) (tk_closed t) (tk_timer t) (tk_reading t).

Inductive tracker_event :=
  | TAdd (t : Target)
  | TChange (new old : Target)
  | TRemove (t : Target)
  | TChangeSet (added removed changed : list Target)
  | TError.

Definition tracker_read (t : Tracker) : Tracker := if tk_closed t then t else t <| tk_reading := true |>.

Definition new_tracker : Tracker := tracker_read (mkTracker [] [] false false false).

Definition unstable (t : Target) : bool := bool_decide (tg_devName t = Some (js "unknown...")).

(** What one listed target causes, given the map of the last round. *)
Definition target_event (old : list (jstr * Target)) (new : Target) : list tracker_event :=
  if unstable new then []
  else match mget (tg_connectKey new) old with
       | Some o => if bool_decide (tg_connStatus o <> tg_connStatus new) then [TChange new o] else []
       | None => [TAdd new]
       end.

(** The objects [targetMap] and [newMap] as maps: keys that every object inherits,
    such as [constructor], which no connect key is, would be found there in the
    source. *)
Definition new_map (new : list Target) : list (jstr * Target) :=
  fold_left (fun m t => if unstable t then m else mset (tg_connectKey t) t m) new [].

Definition gone (new : list (jstr * Target)) (old : Target) : bool :=
  match mget (tg_connectKey old) new with
  | None => true
  | Some t => bool_decide (tg_connStatus t = js "Offline") && bool_decide (tg_connStatus old = js "Connected")
  end.

Definition update (new : list Target) (t : Tracker) : list tracker_event * Tracker :=
  let es := List.concat (List.map (target_event (tk_targetMap t)) new) in
  let newMap := new_map new in
  let removed := List.filter (gone newMap) (tk_targets t) in
  let added := omap (fun e => match e with TAdd t => Some t | _ => None end) es in
  let changed := omap (fun e => match e with TChange t _ => Some t | _ => None end) es in
  (es ++ List.map TRemove removed ++ [TChangeSet added removed changed], t <| tk_targets := new |> <| tk_targetMap := newMap |>).

(** [listTargets] answers. *)
Definition tracker_listed (new : list Target) (t : Tracker) : list tracker_event * Tracker :=
  if negb (tk_reading t) then ([], t)
  else
    let t := t <| tk_reading := false |> in
    if tk_closed t then ([], t)
    else let '(es, t) := update new t in (es, t <| tk_timer := true |>).

(** A listener throws while it is told: no further round. *)
Definition tracker_fails (t : Tracker) : list tracker_event * Tracker :=
  if negb (tk_reading t) then ([], t)
  else let t := t <| tk_reading := false |> in (if tk_closed t then [] else [TError], t).

Definition tracker_timer (t : Tracker) : Tracker := if tk_timer t then tracker_read (t <| tk_timer := false |>) else t.

Definition tracker_end (t : Tracker) : Tracker := t <| tk_closed := true |> <| tk_timer := false |>.

(** ** What a listener knows *)

(** A listener that keeps the connected devices, as the device manager does. *)
Definition connected_status (t : Target) : bool := bool_decide (tg_connStatus t = js "Connected").

Definition told (s : list jstr) (e : tracker_event) : list jstr :=
  match e with
  | TAdd t => if connected_status t then sadd (tg_connectKey t) s else s
  | TChange t _ => if connected_status t then sadd (tg_connectKey t) s else sdel (tg_connectKey t) s
  | TRemove t => sdel (tg_connectKey t) s
  | TChangeSet _ _ _ | TError => s
  end.

(** A round: the answer of hdc, then the timer. *)
Definition round (new : list Target) (t : Tracker) : list tracker_event * Tracker :=
  let '(es, t) := tracker_listed new t in (es, tracker_timer t).

Fixpoint rounds (reads : list (list Target)) (t : Tracker) : list tracker_event * Tracker :=
  match reads with
  | [] => ([], t)
  | new :: reads => let '(e1, t) := round new t in let '(e2, t) := rounds reads t in (e1 ++ e2, t)
  end.

Definition keys_of (l : list Target) : list jstr := List.map tg_connectKey l.

Definition target_of (k : jstr) (l : list Target) : option Target := List.find (fun t => bool_decide (tg_connectKey t = k)) l.

(** ** Proofs *)

Definition event_key (e : tracker_event) : option jstr :=
  match e with TAdd t | TChange t _ | TRemove t => Some (tg_connectKey t) | _ => None end.

Lemma told_other k es : forall s, Forall (fun e => event_key e <> Some k) es -> k ∈ fold_left told es s <-> k ∈ s.
Proof.
  induction es as [|e es IH]; intros s He; [done|]. inversion_clear He as [|? ? He1 He2]. cbn [fold_left]. rewrite (IH _ He2).
  destruct e as [t|t o|t| |]; cbn in *; try done; try destruct (connected_status t); rewrite ?elem_of_sadd, ?elem_of_sdel; naive_solver.
Qed.

Lemma target_event_key old t : Forall (fun e => event_key e = Some (tg_connectKey t)) (target_event old t).
Proof. unfold target_event. destruct (unstable t); [done|]. destruct (mget _ _); [case_bool_decide|]; repeat constructor. Qed.

Lemma events_other old k l : k ∉ keys_of l -> Forall (fun e => event_key e <> Some k) (List.concat (List.map (target_event old) l)).
Proof.
  induction l as [|t l IH]; [done|]. intros [Hk Hl]%not_elem_of_cons. cbn [List.map List.concat]. apply Forall_app. split; [|by apply IH].
  apply (list.Forall_impl _ _ _ (target_event_key old t)). intros e ->. congruence.
Qed.

Lemma target_of_split k l t : target_of k l = Some t -> tg_connectKey t = k /\ exists a b, l = a ++ t :: b.
Proof.
  unfold target_of. induction l as [|x l IH]; [done|]. cbn. case_bool_decide; [intros [= <-]; split; [done|]; by exists [], l|].
  intros (Hk & a & b & ->)%IH. split; [done|]. by exists (x :: a), b.
Qed.

Lemma target_of_None k l : target_of k l = None <-> k ∉ keys_of l.
Proof.
  unfold target_of, keys_of. induction l as [|x l IH]; cbn; [split; [intros _; apply not_elem_of_nil|done]|].
  rewrite not_elem_of_cons. case_bool_decide as H; [split; [done|]; naive_solver|]. rewrite IH. naive_solver.
Qed.

Lemma target_of_mid k a t b : NoDup (keys_of (a ++ t :: b)) -> tg_connectKey t = k ->
  (k ∉ keys_of a) /\ (k ∉ keys_of b) /\ target_of k (a ++ t :: b) = Some t.
Proof.
  unfold keys_of. rewrite List.map_app. cbn. intros (Ha & Hab & Hb)%list.NoDup_app <-. apply list.NoDup_cons in Hb as [Hb _].
  assert (tg_connectKey t ∉ List.map tg_connectKey a) as Hn by (intros H; apply (Hab _ H); left). split; [done|]. split; [done|].
  clear -Hn. unfold target_of. induction a as [|x a IH]; cbn; [by rewrite bool_decide_eq_true_2|]. cbn in Hn. apply not_elem_of_cons in Hn as [H1 H2].
  rewrite bool_decide_eq_false_2 by congruence. auto.
Qed.

Lemma new_map_get l k : NoDup (keys_of l) -> Forall (fun t => unstable t = false) l -> mget k (new_map l) = target_of k l.
Proof.
  intros Hnd Hst. unfold new_map.
  assert (forall m, mget k (fold_left (fun m t => if unstable t then m else mset (tg_connectKey t) t m) l m) =
    match target_of k l with Some t => Some t | None => mget k m end) as H; [|rewrite H; by destruct (target_of k l)].
  induction l as [|t l IH]; intros m; [done|]. inversion_clear Hst as [|? ? Ht Hl]. apply list.NoDup_cons in Hnd as [Hk Hnd]. cbn [fold_left]. rewrite Ht.
  rewrite (IH Hnd Hl). unfold target_of at 2. cbn [List.find]. fold (target_of k l). rewrite mget_mset. case_bool_decide as E.
  - subst k. rewrite (proj2 (target_of_None _ _) Hk). by rewrite decide_True.
  - by rewrite decide_False by congruence.
Qed.

(** The lists a server answers with: no two targets share a key. *)
Definition settled (l : list Target) : Prop := NoDup (keys_of l) /\ Forall (fun t => unstable t = false) l.

Definition is_connected (k : jstr) (l : list Target) : Prop := exists t, target_of k l = Some t /\ connected_status t = true.

Record tracks (l : list Target) (s : list jstr) (t : Tracker) : Prop := {
  ts_targets : tk_targets t = l;
  ts_map : tk_targetMap t = new_map l;
  ts_settled : settled l;
  ts_known : forall k, k ∈ s <-> is_connected k l;
  ts_open : tk_closed t = false /\ tk_reading t = true
}.

Lemma target_of_elem k l t : NoDup (keys_of l) -> (t ∈ l /\ tg_connectKey t = k) <-> target_of k l = Some t.
Proof.
  intros Hnd. split.
  - intros [(a & b & ->)%list_elem_of_split Hk]. by destruct (target_of_mid k a t b Hnd Hk) as (_ & _ & ?).
  - intros (Hk & a & b & ->)%target_of_split. split; [|done]. apply elem_of_app. right. left.
Qed.

Lemma removed_out k newMap l s : (k ∈ fold_left told (List.map TRemove (List.filter (gone newMap) l)) s <-> k ∈ s /\ ~ exists t, t ∈ l /\ tg_connectKey t = k /\ gone newMap t = true).
Proof.
  revert s. induction l as [|t l IH]; intros s.
  - cbn. split; [intros H; split; [done|]; by intros (? & ?%not_elem_of_nil & _)|naive_solver].
  - assert ((exists t', t' ∈ t :: l /\ tg_connectKey t' = k /\ gone newMap t' = true) <->
      (tg_connectKey t = k /\ gone newMap t = true) \/ exists t', t' ∈ l /\ tg_connectKey t' = k /\ gone newMap t' = true) as ->.
    { split; [intros (t' & [->|H]%elem_of_cons & H'); eauto|intros [H|(t' & H & H')]; [exists t|exists t']; (split; [by constructor|done])]. }
    cbn [List.filter]. destruct (gone newMap t); cbn [List.map fold_left]; rewrite IH; cbn [told]; rewrite ?elem_of_sdel;
      generalize (exists t', t' ∈ l /\ tg_connectKey t' = k /\ gone newMap t' = true); intros P; clear; naive_solver congruence.
Qed.

Lemma ex_Some {A} (x : A) (P : A -> Prop) : (exists y, Some x = Some y /\ P y) <-> P x.
Proof. split; [by intros (y & [= <-] & H)|by exists x]. Qed.

Lemma ex_None {A} (P : A -> Prop) : (exists y, None = Some y /\ P y) <-> False.
Proof. split; [by intros (y & ? & H)|done]. Qed.

(** One round. *)
Lemma round_tracks old s new t : tracks old s t -> settled new ->
  tracks new (fold_left told (round new t).1 s) (round new t).2.
Proof.
  intros [H1 H2 H3 H4 [H5 H6]] Hnew. unfold round, tracker_listed, tracker_timer, tracker_read. rewrite H6. cbn. rewrite H5. cbn -[told].
  split; cbn; try done. intros k. rewrite H1, H2, !fold_left_app. cbn [fold_left told]. rewrite removed_out.
  destruct H3 as [Hnd Hst], Hnew as [Hnd' Hst']. unfold gone. setoid_rewrite (new_map_get new _ Hnd' Hst').
  set (es := List.concat _).
  assert (k ∈ fold_left told es s <-> match target_of k new, target_of k old with
      | Some t, Some o => if decide (tg_connStatus o = tg_connStatus t) then k ∈ s else connected_status t = true
      | Some t, None => connected_status t = true \/ k ∈ s
      | None, _ => k ∈ s
      end) as He.
  { destruct (target_of k new) as [n|] eqn:En.
    - destruct (target_of_split k new n En) as (Hk & a & b & ->). destruct (target_of_mid k a n b Hnd' Hk) as (Ha & Hb & _). subst es.
      rewrite List.map_app, List.concat_app, fold_left_app. cbn [List.map List.concat]. rewrite fold_left_app.
      rewrite told_other by (by apply events_other).
      assert (unstable n = false) as Hn by (rewrite list.Forall_forall in Hst'; apply Hst', elem_of_app; right; left).
      unfold target_event. rewrite Hn, Hk, (new_map_get old _ Hnd Hst).
      pose proof (told_other k _ s (events_other (new_map old) k a Ha)) as Hs.
      destruct (target_of k old) as [o|].
      + destruct (decide (tg_connStatus o = tg_connStatus n)) as [E|E]; [rewrite bool_decide_eq_false_2 by (by intros []); done|].
        rewrite bool_decide_eq_true_2 by done. cbn. destruct (connected_status n); rewrite ?elem_of_sadd, ?elem_of_sdel; naive_solver.
      + cbn. destruct (connected_status n); rewrite ?elem_of_sadd; naive_solver.
    - apply target_of_None in En. apply told_other, events_other, En. }
  rewrite He. clear He es. specialize (H4 k). unfold is_connected in *.
  assert ((exists t0, t0 ∈ old /\ tg_connectKey t0 = k /\ match target_of (tg_connectKey t0) new with
      | Some t => bool_decide (tg_connStatus t = js "Offline") && bool_decide (tg_connStatus t0 = js "Connected") | None => true end = true) <->
    exists o, target_of k old = Some o /\ match target_of k new with
      | Some t => tg_connStatus t = js "Offline" /\ tg_connStatus o = js "Connected" | None => True end) as ->.
  { split; intros (o & Ho).
    - destruct Ho as (Ho & Hk & Hg). exists o. split; [by apply (target_of_elem k old o Hnd)|]. rewrite Hk in Hg.
      destruct (target_of k new); [|done]. by apply andb_prop in Hg as [?%bool_decide_eq_true ?%bool_decide_eq_true].
    - destruct Ho as [Ho Hg]. apply (target_of_elem k old o Hnd) in Ho as [Ho Hk]. exists o. split; [done|]. split; [done|]. rewrite Hk.
      destruct (target_of k new); [|done]. destruct Hg. by rewrite !bool_decide_eq_true_2. }
  assert (js "Offline" <> js "Connected") as Hne by done. unfold connected_status in *.
  destruct (target_of k new) as [n|], (target_of k old) as [o|]; rewrite ?ex_Some, ?ex_None in *;
    [destruct (decide (tg_connStatus o = tg_connStatus n))|..]; rewrite ?H4; clear H4; rewrite ?bool_decide_eq_true; intuition congruence.
Qed.

Lemma last_cons {A} (l : list A) : forall x d, List.last (x :: l) d = List.last l x.
Proof. induction l as [|y l IH]; intros x d; [done|]. change (List.last (x :: y :: l) d) with (List.last (y :: l) d). by rewrite !IH. Qed.

Lemma rounds_track reads : forall old s t, tracks old s t -> Forall settled reads ->
  tracks (List.last reads old) (fold_left told (rounds reads t).1 s) (rounds reads t).2.
Proof.
  induction reads as [|new reads IH]; intros old s t K Hr; [done|]. inversion_clear Hr as [|? ? Hn Hr']. cbn [rounds].
  pose proof (round_tracks old s new t K Hn) as K1. destruct (round new t) as [e1 t1]. specialize (IH new _ t1 K1 Hr').
  destruct (rounds reads t1) as [e2 t2]. cbn [fst snd] in *. by rewrite fold_left_app, last_cons.
Qed.

(** C27: The tracker's events keep a listener up to date.  As long as the lists
    that hdc answers with name every target once and none of them as unstable,
    a listener that follows the events, as the device manager does, holds after
    every round exactly the keys of the targets that are connected in the last
    list, whatever came and went before. *)
Theorem tracker_follows_targets reads : Forall settled reads ->
  forall k, k ∈ fold_left told (rounds reads new_tracker).1 [] <-> is_connected k (List.last reads []).
Proof.
  intros Hr. apply (ts_known _ _ (rounds reads new_tracker).2). apply (rounds_track reads [] []); [|done].
  split; try done; [split; [apply NoDup_nil_2|done]|]. intros k. split; [by intros ?%not_elem_of_nil|by intros (t & ? & _)].
Qed.

Definition sample_target (status name : string) : Target := mkTarget (js "FMR0") (js "USB") (js status) (Some (js name)).

Lemma tracker_follows_targets_witness :
  js "FMR0" ∈ fold_left told (rounds [[sample_target "Offline" "phone"]; []; [sample_target "Connected" "phone"]] new_tracker).1 [].
Proof.
  apply (tracker_follows_targets [[sample_target "Offline" "phone"]; []; [sample_target "Connected" "phone"]]).
  - repeat apply Forall_cons_2; try apply Forall_nil_2; (split; [apply (bool_decide_unpack _); vm_compute; reflexivity|repeat constructor]).
  - exists (sample_target "Connected" "phone"). split; vm_compute; reflexivity.
Defined.

(** *** Unstable targets *)

Definition flaky (t : Target) : Target := mkTarget (tg_connectKey t) (tg_connType t) (tg_connStatus t) (Some (js "unknown...")).

Lemma known_quiet old l : (forall t, t ∈ l -> mget (tg_connectKey t) old = Some t) -> List.concat (List.map (target_event old) l) = [].
Proof.
  induction l as [|t l IH]; intros H; [done|]. cbn. rewrite IH by (intros; apply H; by right). unfold target_event.
  rewrite (H t) by left. destruct (unstable t); [done|]. by rewrite bool_decide_eq_false_2 by (by intros []).
Qed.

Lemma known_stays m l : (forall t, t ∈ l -> mget (tg_connectKey t) m = Some t) -> List.filter (gone m) l = [].
Proof.
  induction l as [|t l IH]; intros H; [done|]. cbn. rewrite IH by (intros; apply H; by right). unfold gone. rewrite (H t) by left.
  case_bool_decide as E; [|done]. rewrite E. by rewrite bool_decide_eq_false_2.
Qed.

(** A round with [flaky t] in the list, after one with [t] or [flaky t]. *)
Lemma flaky_round x t rest tr : settled (t :: rest) -> tg_connectKey x = tg_connectKey t -> tk_closed tr = false -> tk_reading tr = true ->
  tk_targets tr = x :: rest -> (forall r, r ∈ rest -> mget (tg_connectKey r) (tk_targetMap tr) = Some r) ->
  round (flaky t :: rest) tr =
    ([TRemove x; TChangeSet [] [x] []], mkTracker (flaky t :: rest) (new_map rest) false false true).
Proof.
  intros [Hnd Hst] Hx Hc Hr Ht Hm. inversion_clear Hst as [|? ? Hs1 Hs2]. cbn in Hnd. apply list.NoDup_cons in Hnd as [Hk Hnd].
  assert (forall r, r ∈ rest -> mget (tg_connectKey r) (new_map rest) = Some r) as Hn.
  { intros r Hin. rewrite new_map_get by done. by apply target_of_elem. }
  assert (gone (new_map rest) x = true) as Hg.
  { unfold gone. by rewrite Hx, (new_map_get rest _ Hnd Hs2), (proj2 (target_of_None _ _) Hk). }
  unfold round, tracker_listed, tracker_timer, tracker_read. rewrite Hr. cbn -[update]. rewrite Hc. unfold update. cbn [tk_targetMap tk_targets].
  change (new_map (flaky t :: rest)) with (new_map rest). rewrite Ht. cbn [List.map List.concat List.filter].
  change (target_event (tk_targetMap tr) (flaky t)) with (@nil tracker_event).
  by rewrite Hg, (known_quiet (tk_targetMap tr) rest Hm), (known_stays _ _ Hn).
Qed.

(** An unstable target does not stay as it was.  The tracker means to ignore
    a target whose name is unknown for the moment; but it then misses the target
    in the new list, tells its listeners that it is gone, and says so again in
    every round as long as the name stays unknown. *)
Theorem unstable_target_removed t rest n reads : Forall settled reads -> settled (t :: rest) ->
  let '(_, tr) := rounds (reads ++ [t :: rest]) new_tracker in
  let '(es, tr') := rounds (replicate (S n) (flaky t :: rest)) tr in
  es = [TRemove t; TChangeSet [] [t] []] ++ List.concat (replicate n [TRemove (flaky t); TChangeSet [] [flaky t] []]).
Proof.
  intros Hr Hs. assert (tracks [] [] new_tracker) as K0.
  { split; try done; [split; [apply NoDup_nil_2|done]|]. intros k. split; [by intros ?%not_elem_of_nil|by intros (x & ? & _)]. }
  pose proof (rounds_track (reads ++ [t :: rest]) [] [] new_tracker K0 ltac:(apply Forall_app; split; [done|by apply Forall_cons_2])) as K.
  rewrite List.last_last in K. destruct (rounds (reads ++ [t :: rest]) new_tracker) as [es0 tr]. cbn [fst snd] in K.
  destruct K as [K1 K2 K3 K4 [K5 K6]]. cbn [replicate rounds].
  assert (forall r, r ∈ rest -> mget (tg_connectKey r) (tk_targetMap tr) = Some r) as Hm.
  { intros r Hin. destruct Hs as [Hnd Hst]. rewrite K2, (new_map_get _ _ Hnd Hst). apply (target_of_elem _ _ _ Hnd). split; [by right|done]. }
  rewrite (flaky_round t t rest tr Hs eq_refl K5 K6 K1 Hm). clear -Hs.
  assert (rounds (replicate n (flaky t :: rest)) (mkTracker (flaky t :: rest) (new_map rest) false false true) =
    (List.concat (replicate n [TRemove (flaky t); TChangeSet [] [flaky t] []]), mkTracker (flaky t :: rest) (new_map rest) false false true)) as ->; [|done].
  induction n as [|n IH]; [done|]. cbn [replicate rounds].
  rewrite (flaky_round (flaky t) t rest); [by rewrite IH|done..|]. cbn. intros r Hin. destruct Hs as [Hnd Hst].
  apply list.NoDup_cons in Hnd as [Hk Hnd]. inversion_clear Hst. rewrite new_map_get by done. by apply target_of_elem.
Qed.

Lemma unstable_target_removed_example :
  let '(_, tr) := rounds [[]; [sample_target "Connected" "phone"]] new_tracker in
  let '(es, _) := rounds [[sample_target "Connected" "unknown..."]; [sample_target "Connected" "unknown..."]] tr in
  fold_left told es [js "FMR0"] = [].
Proof.
  pose proof (unstable_target_removed (sample_target "Connected" "phone") [] 1 [[]]
    ltac:(repeat constructor; apply NoDup_nil_2) ltac:(split; [apply (bool_decide_unpack _); vm_compute; reflexivity|repeat constructor])) as H.
  change ([[]] ++ [[sample_target "Connected" "phone"]]) with [[]; [sample_target "Connected" "phone"]] in H.
  destruct (rounds [[]; _] new_tracker) as [es0 tr].
  change (replicate 2 [flaky (sample_target "Connected" "phone")]) with [[sample_target "Connected" "unknown..."]; [sample_target "Connected" "unknown..."]] in H.
  destruct (rounds _ tr) as [es tr']. subst es. vm_compute. reflexivity.
Defined.
