(* ===== verification/DeviceManagers.v ===== *)
(** * Device managers

    Models [device/DeviceManager.ts], [device/android/AndroidDeviceManager.ts],
    [device/Harmony/HarmonyDeviceManager.ts], [device/ios/iOSDeviceManager.ts],
    [device/network/NetworkDeviceManager.ts] and
    [device/desktop/DesktopDeviceManager.ts], all managers of one
    [PhysicalConnector] together.  What they wait for (the adb or hdc server, its
    tracker, a device's properties and forwarded ports, a tunnel) is a table of
    continuations that are answered in any order; what trackers and sockets
    report are steps too.  A device is an object of a store with an identity,
    because a registered device is only removed by the manager that has the same
    object.  A tracker that was ended reports nothing any more. *)

From Stdlib Require Import SpecFloat String.
From stdpp Require Import strings.
From S2P Require Import JsValue Json Protocol Physical Entry.

(** ** State *)

Inductive WatchStatus := PrepareToWatch | Watching | StopWatching.

#[export] Instance watch_status_eq_dec : EqDecision WatchStatus.
Proof. solve_decision. Defined.

(** A device object; [ob_manager] is the manager that made it. *)
Record DeviceObject := mkObject { ob_info : Device; ob_manager : Z; ob_connected : bool }.

(** The fields of the managers of a platform.  Android and Harmony have the
    same ones; the device of a network or desktop manager is known from the start. *)
Inductive platform_state :=
  | TrackerState (status : WatchStatus) (retryCount : Z) (tracker : option Z) (client : bool)
  | IosState (listener : option Z) (tunnels : list Z)
  | FixedState (device : option Device).

Record DeviceManagerState := mkDeviceManagerState {
  mg_platform : Platform;
  mg_managedDevices : list (jstr * Z);
  mg_closed : bool;
  mg_retryTimer : bool;
  mg_state : platform_state
}.

(** [BaseDevice.remotePorts]; [portCount] is [process.env.DriverPortCount]. *)
Definition port_range (n : Z) : list Z := List.map (fun i => Z.of_nat i + 8901) (seq 0 (Z.to_nat n)).

Definition remotePorts (portCount : option jstr) : list Z :=
  match portCount with
  | None | Some [] => port_range 19
  | Some v =>
      match js_Number v with
      | NInt n => if (0 <=? n) && (n <? 2 ^ 32) then port_range n else port_range 19
      | NDbl (S754_zero _) => []
      | _ => port_range 19
      end
  end.

(** A device of adb with its type, or a target of hdc with its status. *)
Record tracked := mkTracked { tk_id : jstr; tk_type : jstr; tk_connType : jstr }.

(** What a manager waits for. *)
Inductive awaited :=
  | AwaitClient (kill : bool)
  | AwaitKill
  | AwaitTracker
  | AwaitProperties (d : tracked)
  | AwaitForwards (o : Z)
  | AwaitTunnel (udid : jstr) (listener : Z)
  | AwaitCreated (o : Z).

Inductive answer := AnsDone | AnsFailed | AnsName (name : jstr) | AnsPorts (ports : list Z).

Record Listener := mkListener { ls_manager : Z; ls_status : WatchStatus; ls_destroyed : bool }.
Record Tunnel := mkTunnel { tu_manager : Z; tu_listener : Z; tu_udid : jstr; tu_destroyed : bool }.

Record Managers := mkManagers {
  ms_driver : PhysicalConnector;
  ms_identity : list (jstr * Z);          (* which object an entry of [devices] is *)
  ms_objects : list (Z * DeviceObject);
  ms_managers : list (Z * DeviceManagerState);
  ms_awaits : list (Z * (Z * awaited));
  ms_trackers : list (Z * (Z * bool));    (* its manager, and whether it was ended *)
  ms_listeners : list (Z * Listener);
  ms_tunnels : list (Z * Tunnel);
  ms_next : Z
}.

#[export] Instance eta_object : Eta DeviceObject := fun o => mkObject (ob_info o) (ob_manager o) (ob_connected o).
#[export] Instance eta_manager_state : Eta DeviceManagerState := fun m =>
  mkDeviceManagerState (mg_platform m) (mg_managedDevices m) (mg_closed m) (mg_retryTimer m) (mg_state m).
#[export] Instance eta_listener : Eta Listener := fun l => mkListener (ls_manager l) (ls_status l) (ls_destroyed l).
#[export] Instance eta_tunnel : Eta Tunnel := fun t => mkTunnel (tu_manager t) (tu_listener t) (tu_udid t) (tu_destroyed t).
#[export] Instance eta_managers : Eta Managers := fun w =>
  mkManagers (ms_driver w) (ms_identity w) (ms_objects w) (ms_managers w) (ms_awaits w) (ms_trackers w) (ms_listeners w)
    (ms_tunnels w) (ms_next w).

Inductive manager_effect :=
  | MPhysical (e : phys_effect)
  | MPlug (serial : jstr)        (* recordDevicePlug *)
  | MUnplug (serial : jstr).     (* recordDeviceUnplug *)

(** Methods change the state and have effects. *)
Definition act := Managers -> list manager_effect * Managers.

Definition skip : act := fun w => ([], w).
Definition change (f : Managers -> Managers) : act := fun w => ([], f w).
Definition tell (e : manager_effect) : act := fun w => ([e], w).
Definition andThen (f g : act) : act := fun w =>
  let '(e1, w) := f w in let '(e2, w) := g w in (e1 ++ e2, w).
Definition read (f : Managers -> act) : act := fun w => f w w.

Infix ";>" := andThen (at level 60, right associativity) : js_scope.
Open Scope js_scope.

(** ** Access *)

Definition upd_mg (m : Z) (f : DeviceManagerState -> DeviceManagerState) (w : Managers) : Managers :=
  match mget m (ms_managers w) with Some s => w <| ms_managers ::= mset m (f s) |> | None => w end.

Definition set_state (m : Z) (f : platform_state -> platform_state) : act := change (upd_mg m (fun s => s <| mg_state ::= f |>)).

Definition is_closed (m : Z) (w : Managers) : bool :=
  match mget m (ms_managers w) with Some s => mg_closed s | None => true end.

Definition unless_closed (m : Z) (f : act) : act := read (fun w => if is_closed m w then skip else f).

Definition has_device (serial : jstr) (w : Managers) : bool := mhas serial (pc_devices (ms_driver w)).

Definition await_for (m : Z) (a : awaited) : act := change (fun w => w <| ms_awaits ::= mset (ms_next w) (m, a) |> <| ms_next ::= Z.succ |>).

(** ** [DeviceManager] *)

(** [device.disconnect()]. *)
Definition disconnect (o : Z) (w : Managers) : Managers :=
  match mget o (ms_objects w) with
  | Some ob => w <| ms_objects ::= mset o (ob <| ob_connected := false |>) |>
  | None => w
  end.

(** [driver.registerDevice(device)] and [driver.unregisterDevice(serial)]. *)
Definition driver_register (o : Z) (info : Device) : act := fun w =>
  let '(es, p) := registerDevice info (ms_driver w) in
  (MPhysical <$> es,
   (if has_device (dv_serial info) w then w else w <| ms_identity ::= mset (dv_serial info) o |>) <| ms_driver := p |>).

Definition driver_unregister (serial : jstr) : act := fun w =>
  let '(es, p) := unregisterDevice serial (ms_driver w) in
  (MPhysical <$> es,
   (match mget serial (ms_identity w) with
    | Some o => (disconnect o w) <| ms_identity ::= mdel serial |>
    | None => w
    end) <| ms_driver := p |>).

Definition registerManagedDevice (m o : Z) : act := read (fun w =>
  match mget o (ms_objects w) with
  | None => skip
  | Some ob =>
      let serial := dv_serial (ob_info ob) in
      if is_closed m w then change (disconnect o)
      else if bool_decide (is_Some (mget serial (ms_identity w))) && negb (bool_decide (mget serial (ms_identity w) = Some o)) then skip
      else change (upd_mg m (fun s => s <| mg_managedDevices ::= mset serial o |>)) ;> driver_register o (ob_info ob)
  end).

Definition managed (m : Z) (w : Managers) : list (jstr * Z) :=
  match mget m (ms_managers w) with Some s => mg_managedDevices s | None => [] end.

Definition unregisterManagedDevice (m : Z) (serial : jstr) : act := read (fun w =>
  let device := mget serial (managed m w) in
  change (upd_mg m (fun s => s <| mg_managedDevices ::= mdel serial |>)) ;>
  if bool_decide (is_Some device) && bool_decide (mget serial (ms_identity w) = device) then driver_unregister serial else skip).

Fixpoint each {A} (f : A -> act) (l : list A) : act :=
  match l with [] => skip | x :: l => f x ;> each f l end.

Definition unregisterManagedDevices (m : Z) : act := read (fun w => each (unregisterManagedDevice m) (mkeys (managed m w))).

Definition scheduleWatchRetry (m : Z) : act := unless_closed m (change (upd_mg m (fun s => s <| mg_retryTimer := true |>))).

Definition end_tracker (t : Z) (w : Managers) : Managers :=
  match mget t (ms_trackers w) with Some (m, _) => w <| ms_trackers ::= mset t (m, true) |> | None => w end.

Definition destroy_listener (l : Z) (w : Managers) : Managers :=
  match mget l (ms_listeners w) with Some s => w <| ms_listeners ::= mset l (s <| ls_destroyed := true |>) |> | None => w end.

Definition destroy_tunnel (t : Z) (w : Managers) : Managers :=
  match mget t (ms_tunnels w) with Some s => w <| ms_tunnels ::= mset t (s <| tu_destroyed := true |>) |> | None => w end.

Definition opt_act {A} (f : A -> Managers -> Managers) (x : option A) : act := change (fun w => match x with Some x => f x w | None => w end).

Definition stopWatching (m : Z) : act := read (fun w =>
  match mg_state <$> mget m (ms_managers w) with
  | Some (TrackerState _ n t c) => set_state m (fun _ => TrackerState StopWatching n None c) ;> opt_act end_tracker t
  | Some (IosState l ts) =>
      opt_act destroy_listener l ;> each (fun t => change (destroy_tunnel t)) ts ;> set_state m (fun _ => IosState None [])
  | _ => skip
  end).

Definition closeManager (m : Z) : act := unless_closed m
  (change (upd_mg m (fun s => s <| mg_closed := true |> <| mg_retryTimer := false |>)) ;> stopWatching m ;> unregisterManagedDevices m).

(** A new device object. *)
Definition new_object (m : Z) (info : Device) (k : Z -> act) : act := read (fun w =>
  change (fun w => w <| ms_objects ::= mset (ms_next w) (mkObject info m true) |> <| ms_next ::= Z.succ |>) ;> k (ms_next w)).

Definition trace_plug (serial : jstr) : act := read (fun w => if has_device serial w then skip else tell (MPlug serial)).

(** ** Android and Harmony *)

Definition is_android (m : Z) (w : Managers) : bool :=
  match mget m (ms_managers w) with Some s => bool_decide (mg_platform s = android) | None => false end.

(** [device.type === "device"], [connStatus === "Connected"]. *)
Definition ready (isAndroid : bool) (d : tracked) : bool :=
  bool_decide (tk_type d = if isAndroid then js "device" else js "Connected").

Definition reWatch (m : Z) : act :=
  set_state m (fun s => match s with TrackerState st n t c => TrackerState st (n + 1) t c | _ => s end) ;> scheduleWatchRetry m.

Definition set_status (m : Z) (st : WatchStatus) : act :=
  set_state m (fun s => match s with TrackerState _ n t c => TrackerState st n t c | _ => s end).

(** The tracker, or the attempt to get one, failed. *)
Definition tracking_failed (m : Z) : act :=
  unless_closed m (set_status m StopWatching ;> unregisterManagedDevices m ;> reWatch m).

(** The last part of [watchDevices]: a new tracker. *)
Definition watch_track (m : Z) : act := unless_closed m (read (fun w =>
  match mg_state <$> mget m (ms_managers w) with
  | Some (TrackerState st n t c) => opt_act end_tracker t ;> set_state m (fun _ => TrackerState st n None c) ;> await_for m AwaitTracker
  | _ => skip
  end)).

(** [watchDevices] with a client. *)
Definition watch_with_client (m : Z) (kill : bool) : act := unless_closed m (read (fun w =>
  match mg_state <$> mget m (ms_managers w) with
  | Some (TrackerState StopWatching n t c) =>
      set_status m PrepareToWatch ;> if kill && (3 <? n) then await_for m AwaitKill else watch_track m
  | _ => skip
  end)).

Definition client_answers (m : Z) (kill : bool) (a : answer) : act :=
  match a with
  | AnsDone => set_state m (fun s => match s with TrackerState st n t _ => TrackerState st n t true | _ => s end) ;> watch_with_client m kill
  | _ => skip
  end.

(** The call of [kill] is over; its failure is caught and changes nothing. *)
Definition kill_answers (m : Z) : act :=
  set_state m (fun s => match s with TrackerState st _ t c => TrackerState st 0 t c | _ => s end) ;> watch_track m.

Definition tracker_answers (m : Z) (a : answer) : act :=
  match a with
  | AnsDone => read (fun w =>
      let t := ms_next w in
      change (fun w => w <| ms_trackers ::= mset t (m, is_closed m w) |> <| ms_next ::= Z.succ |>) ;>
      unless_closed m (set_state m (fun s => match s with TrackerState st n _ c => TrackerState st n (Some t) c | _ => s end)))
  | _ => tracking_failed m
  end.

(** [registerDevice] with the first part of [createDevice]: an Android device
    is made when its properties are known, a Harmony device at once. *)
Definition registerDevice_adb (m : Z) (d : tracked) : act := await_for m (AwaitProperties d).

Definition registerDevice_hdc (m : Z) (host : jstr) (d : tracked) : act :=
  new_object m (mkDevice (js "Harmony") (js "Harmony") (tk_id d) [] host false) (fun o => await_for m (AwaitForwards o)).

Definition properties_answer (m : Z) (host : jstr) (d : tracked) (a : answer) : act :=
  match a with
  | AnsName name => unless_closed m
      (new_object m (mkDevice (js "Android") name (tk_id d) [] host true) (fun o => await_for m (AwaitForwards o)))
  | _ => skip
  end.

Definition set_ports (o : Z) (ports : list Z) (w : Managers) : Managers :=
  match mget o (ms_objects w) with
  | Some ob =>
      let i := ob_info ob in
      w <| ms_objects ::= mset o (ob <| ob_info := mkDevice (dv_os i) (dv_title i) (dv_serial i) ports (dv_host i) (dv_isAndroid i) |>) |>
  | None => w
  end.

(** The device has forwarded its ports, or the attempt threw. *)
Definition forwards_answer (m o : Z) (a : answer) : act :=
  match a with AnsPorts ports => change (set_ports o ports) ;> registerManagedDevice m o | _ => skip end.

Inductive tracker_report := TrackerError | TrackerAdd (d : tracked) | TrackerChange (d : tracked) | TrackerRemove (d : tracked).

(** A report is a sign of life. *)
Definition alive (m : Z) : act :=
  set_state m (fun s => match s with TrackerState _ _ t c => TrackerState Watching 0 t c | _ => s end).

Definition remove_tracked (m : Z) (serial : jstr) : act := read (fun w =>
  if has_device serial w then tell (MUnplug serial) ;> unregisterManagedDevice m serial else skip).

(** The handlers of the tracker of adb. *)
Definition adb_reports (m : Z) (r : tracker_report) : act := unless_closed m
  (match r with
   | TrackerError => tracking_failed m
   | TrackerAdd d => alive m ;> (if ready true d then trace_plug (tk_id d) ;> registerDevice_adb m d else skip)
   | TrackerChange d => alive m ;> (if ready true d then trace_plug (tk_id d) ;> registerDevice_adb m d else remove_tracked m (tk_id d))
   | TrackerRemove d => alive m ;> remove_tracked m (tk_id d)
   end).

(** The handlers of the tracker of hdc. *)
Definition hdc_reports (m : Z) (host : jstr) (r : tracker_report) : act := unless_closed m
  (match r with
   | TrackerError => tracking_failed m
   | TrackerAdd d => alive m ;>
       (if ready false d
        then trace_plug (if bool_decide (tk_id d = []) then tk_connType d else tk_id d) ;> registerDevice_hdc m host d else skip)
   | TrackerChange d => alive m ;> (if ready false d then trace_plug (tk_id d) ;> registerDevice_hdc m host d else remove_tracked m (tk_id d))
   | TrackerRemove d => alive m ;> remove_tracked m (tk_id d)
   end).

Definition tracker_reports (m : Z) (host : jstr) (r : tracker_report) : act :=
  read (fun w => if is_android m w then adb_reports m r else hdc_reports m host r).

(** ** iOS *)

Definition set_listener_status (l : Z) (st : WatchStatus) (w : Managers) : Managers :=
  match mget l (ms_listeners w) with Some s => w <| ms_listeners ::= mset l (s <| ls_status := st |>) |> | None => w end.

(** [created]: [createListener] did not throw. *)
Definition watch_ios (m : Z) (created : bool) : act := unless_closed m (read (fun w =>
  match mg_state <$> mget m (ms_managers w) with
  | Some (IosState l ts) =>
      if match l ≫= fun l => mget l (ms_listeners w) with Some s => negb (bool_decide (ls_status s = StopWatching)) | None => false end
      then skip
      else
        opt_act destroy_listener l ;> set_state m (fun _ => IosState None ts) ;>
        (if created
         then change (fun w => w <| ms_listeners ::= mset (ms_next w) (mkListener m PrepareToWatch false) |>) ;>
              read (fun w => set_state m (fun _ => IosState (Some (ms_next w)) ts)) ;> change (fun w => w <| ms_next ::= Z.succ |>)
         else scheduleWatchRetry m)
  | _ => skip
  end)).

Definition ios_stopped (m l : Z) : act :=
  unless_closed m (change (set_listener_status l StopWatching) ;> scheduleWatchRetry m).

Inductive listener_report := ListenerError | ListenerClose | Attached (udid : jstr) | Detached (udid : jstr).

Definition listener_reports (m l : Z) (r : listener_report) : act :=
  match r with
  | ListenerError | ListenerClose => ios_stopped m l
  | Attached udid => unless_closed m
      (change (set_listener_status l Watching) ;> trace_plug udid ;> await_for m (AwaitTunnel udid l))
  | Detached udid => unless_closed m
      (change (set_listener_status l Watching) ;> tell (MUnplug udid) ;> unregisterManagedDevice m udid)
  end.

Definition tunnel_answers (m : Z) (udid : jstr) (l : Z) (a : answer) : act :=
  match a with
  | AnsDone => read (fun w =>
      let t := ms_next w in
      change (fun w => w <| ms_tunnels ::= mset t (mkTunnel m l udid (is_closed m w)) |> <| ms_next ::= Z.succ |>) ;>
      unless_closed m (set_state m (fun s => match s with IosState ls ts => IosState ls (sadd t ts) | _ => s end)))
  | _ => ios_stopped m l
  end.

Inductive tunnel_report := TunnelName (name : jstr) | TunnelClose | TunnelError.

Definition tunnel_reports (m t l : Z) (udid : jstr) (ports : list Z) (r : tunnel_report) : act :=
  match r with
  | TunnelName name => unless_closed m (read (fun w =>
      if bool_decide (name = []) || has_device udid w then skip
      else new_object m (mkDevice (js "iOS") name udid ports (js "/var/run/usbmuxd") false) (fun o => await_for m (AwaitCreated o))))
  | TunnelClose =>
      set_state m (fun s => match s with IosState ls ts => IosState ls (sdel t ts) | _ => s end) ;>
      unless_closed m (change (destroy_tunnel t)) ;> ios_stopped m l
  | TunnelError => unless_closed m (change (destroy_tunnel t)) ;> ios_stopped m l
  end.

(** ** Network and desktop *)

Definition watch_fixed (m : Z) : act := unless_closed m (read (fun w =>
  match mget m (ms_managers w) with
  | Some s =>
      match mg_state s with
      | FixedState (Some info) =>
          let go := trace_plug (dv_serial info) ;> new_object m info (registerManagedDevice m) in
          if bool_decide (mg_platform s = desktop) && has_device (dv_serial info) w then skip else go
      | _ => skip
      end
  | None => skip
  end)).

(** ** All platforms *)

(** [watchDevices]; [created] is the answer of [createListener] on iOS. *)
Definition watchDevices (m : Z) (kill created : bool) : act := unless_closed m (read (fun w =>
  match mg_state <$> mget m (ms_managers w) with
  | Some (TrackerState _ _ _ c) => if c then watch_with_client m kill else await_for m (AwaitClient kill)
  | Some (IosState _ _) => watch_ios m created
  | Some (FixedState _) => watch_fixed m
  | None => skip
  end)).

Definition watch_retry_fires (m : Z) (created : bool) : act := read (fun w =>
  match mget m (ms_managers w) with
  | Some s =>
      if mg_retryTimer s
      then change (upd_mg m (fun s => s <| mg_retryTimer := false |>)) ;> watchDevices m true created
      else skip
  | None => skip
  end).

(** A network device, and the device of the machine by [process.platform]. *)
Definition network_device (ip : jstr) (ports : option (list Z)) (remote : list Z) : Device :=
  mkDevice (js "Network") (js "NetworkDevice_" ++ ip) ip (default remote ports) ip false.

Definition desktop_device (platform : jstr) (remote : list Z) : option Device :=
  let local name := Some (mkDevice (js name) (js name) (js name) remote (js "127.0.0.1") false) in
  if bool_decide (platform = js "darwin") then local "Mac"
  else if bool_decide (platform = js "win32") then local "Windows"
  else if bool_decide (platform = js "linux") then local "Linux"
  else None.

Definition new_device_manager (p : Platform) (fixed : option Device) : DeviceManagerState :=
  mkDeviceManagerState p [] false false
    (match p with
     | android | harmony => TrackerState StopWatching 0 None false
     | ios => IosState None []
     | desktop | network => FixedState fixed
     end).
