(* ===== verification/DeviceRun.v ===== *)
(** * Runs of the device managers

    However trackers, sockets and waits answer, and in whatever order managers
    are added, watched, retried and closed, a registered device belongs to one
    open manager, and a closed manager is over. *)

From Stdlib Require Import String.
From stdpp Require Import strings.
From S2P Require Import JsValue Json Protocol Physical DeviceManagers.

#[local] Arguments mdel : simpl never.
#[local] Arguments mset : simpl never.
#[local] Arguments mget : simpl never.
#[local] Arguments andThen : simpl never.

(** ** Steps *)

Inductive manager_op :=
  | OpAdd (p : Platform) (fixed : option Device)
  | OpWatch (m : Z) (created : bool)
  | OpRetry (m : Z) (created : bool)
  | OpClose (m : Z)
  | OpAnswer (k : Z) (host : jstr) (a : answer)
  | OpTracker (t : Z) (host : jstr) (r : tracker_report)
  | OpListener (l : Z) (r : listener_report)
  | OpTunnel (t : Z) (ports : list Z) (r : tunnel_report)
  | OpDisconnect (serial : jstr).            (* the host's [disconnectDevice] *)

Definition answered (m : Z) (host : jstr) (w : awaited) (a : answer) : act :=
  match w with
  | AwaitClient kill => client_answers m kill a
  | AwaitKill => kill_answers m
  | AwaitTracker => tracker_answers m a
  | AwaitProperties d => properties_answer m host d a
  | AwaitForwards o => forwards_answer m o a
  | AwaitTunnel udid l => tunnel_answers m udid l a
  | AwaitCreated o => registerManagedDevice m o
  end.

Definition manager_step (op : manager_op) : act :=
  match op with
  | OpAdd p fixed => change (fun w => w <| ms_managers ::= mset (ms_next w) (new_device_manager p fixed) |> <| ms_next ::= Z.succ |>)
  | OpWatch m created => watchDevices m false created
  | OpRetry m created => watch_retry_fires m created
  | OpClose m => closeManager m
  | OpAnswer k host a => read (fun w =>
      match mget k (ms_awaits w) with
      | Some (m, x) => change (fun w => w <| ms_awaits ::= mdel k |>) ;> answered m host x a
      | None => skip
      end)
  | OpTracker t host r => read (fun w =>
      match mget t (ms_trackers w) with
      | Some (m, false) => tracker_reports m host r
      | _ => skip
      end)
  | OpListener l r => read (fun w =>
      match mget l (ms_listeners w) with Some s => listener_reports (ls_manager s) l r | None => skip end)
  | OpTunnel t ports r => read (fun w =>
      match mget t (ms_tunnels w) with
      | Some s => tunnel_reports (tu_manager s) t (tu_listener s) (tu_udid s) ports r
      | None => skip
      end)
  | OpDisconnect serial => change (fun w => match mget serial (ms_identity w) with Some o => disconnect o w | None => w end)
  end.

Fixpoint manager_run (ops : list manager_op) : act :=
  match ops with [] => skip | op :: ops => manager_step op ;> manager_run ops end.

Definition no_managers : Managers := mkManagers new_physical [] [] [] [] [] [] [] 0.

(** ** The invariant *)

Definition harmless (a : awaited) : Prop := match a with AwaitForwards _ | AwaitCreated _ => False | _ => True end.
Definition awaits_object (a : awaited) (o : Z) : Prop := a = AwaitForwards o \/ a = AwaitCreated o.

Definition stopped (s : platform_state) : Prop :=
  match s with
  | TrackerState st _ t _ => st = StopWatching /\ t = None
  | IosState l ts => l = None /\ ts = []
  | FixedState _ => True
  end.

(** Who has which device. *)
Record books (w : Managers) : Prop := {
  bk_keys : forall s, is_Some (mget s (ms_identity w)) <-> is_Some (mget s (pc_devices (ms_driver w)));
  bk_owner : forall s o, mget s (ms_identity w) = Some o -> exists ob mg, mget o (ms_objects w) = Some ob /\
    mget (ob_manager ob) (ms_managers w) = Some mg /\ mget s (mg_managedDevices mg) = Some o;
  bk_managed : forall m mg s o, mget m (ms_managers w) = Some mg -> mget s (mg_managedDevices mg) = Some o ->
    mget s (ms_identity w) = Some o /\ exists ob, mget o (ms_objects w) = Some ob /\ ob_manager ob = m /\ dv_serial (ob_info ob) = s;
  bk_await : forall k m a o, mget k (ms_awaits w) = Some (m, a) -> awaits_object a o ->
    exists ob, mget o (ms_objects w) = Some ob /\ ob_manager ob = m;
  bk_objects : forall o ob, mget o (ms_objects w) = Some ob -> o < ms_next w;
  bk_managers : forall m mg, mget m (ms_managers w) = Some mg -> m < ms_next w
}.

(** What a closed manager has left. *)
Definition over (mg : DeviceManagerState) : Prop := mg_retryTimer mg = false /\ stopped (mg_state mg) /\ mg_managedDevices mg = [].

Definition shut (w : Managers) : Prop := forall m mg, mget m (ms_managers w) = Some mg -> mg_closed mg = true -> over mg.

(** ** Acts that keep the books *)

Definition keeps (f : act) : Prop := forall w, books w -> books (f w).2.

Definition ob_core (ob : DeviceObject) := (ob_manager ob, dv_serial (ob_info ob)).

Record framed (w w' : Managers) : Prop := {
  fr_driver : ms_driver w' = ms_driver w;
  fr_identity : ms_identity w' = ms_identity w;
  fr_objects : forall o, ob_core <$> mget o (ms_objects w') = ob_core <$> mget o (ms_objects w);
  fr_managers : forall m, mg_managedDevices <$> mget m (ms_managers w') = mg_managedDevices <$> mget m (ms_managers w);
  fr_awaits : forall k m a, mget k (ms_awaits w') = Some (m, a) -> mget k (ms_awaits w) = Some (m, a) \/ harmless a;
  fr_next : ms_next w <= ms_next w'
}.

Lemma frame_refl w : framed w w.
Proof. split; auto; lia. Qed.

Lemma frame_object w w' o ob' : framed w w' -> mget o (ms_objects w') = Some ob' ->
  exists ob, mget o (ms_objects w) = Some ob /\ ob_manager ob' = ob_manager ob /\ dv_serial (ob_info ob') = dv_serial (ob_info ob).
Proof.
  intros F H. pose proof (fr_objects _ _ F o) as E. rewrite H in E. destruct (mget o (ms_objects w)) as [ob|]; [|done]. exists ob.
  unfold ob_core in E. cbn in E. split; [done|]. split; congruence.
Qed.

Lemma frame_object' w w' o ob : framed w w' -> mget o (ms_objects w) = Some ob ->
  exists ob', mget o (ms_objects w') = Some ob' /\ ob_manager ob' = ob_manager ob /\ dv_serial (ob_info ob') = dv_serial (ob_info ob).
Proof.
  intros F H. pose proof (fr_objects _ _ F o) as E. rewrite H in E. destruct (mget o (ms_objects w')) as [ob'|]; [|done]. exists ob'.
  unfold ob_core in E. cbn in E. split; [done|]. split; congruence.
Qed.

Lemma frame_manager w w' m mg' : framed w w' -> mget m (ms_managers w') = Some mg' ->
  exists mg, mget m (ms_managers w) = Some mg /\ mg_managedDevices mg' = mg_managedDevices mg.
Proof.
  intros F H. pose proof (fr_managers _ _ F m) as E. rewrite H in E. destruct (mget m (ms_managers w)) as [mg|]; [|done]. exists mg. cbn in E. split; [done|congruence].
Qed.

Lemma frame_manager' w w' m mg : framed w w' -> mget m (ms_managers w) = Some mg ->
  exists mg', mget m (ms_managers w') = Some mg' /\ mg_managedDevices mg' = mg_managedDevices mg.
Proof.
  intros F H. pose proof (fr_managers _ _ F m) as E. rewrite H in E. destruct (mget m (ms_managers w')) as [mg'|]; [|done]. exists mg'. cbn in E. split; [done|congruence].
Qed.

Lemma frame_books w w' : framed w w' -> books w -> books w'.
Proof.
  intros F [K1 K2 K3 K4 K5 K6]. pose proof (fr_next _ _ F). split.
  - intros s. rewrite (fr_identity _ _ F), (fr_driver _ _ F). apply K1.
  - intros s o. rewrite (fr_identity _ _ F). intros (ob & mg & H1 & H2 & H3)%K2.
    destruct (frame_object' _ _ _ _ F H1) as (ob' & H1' & Hm & _). destruct (frame_manager' _ _ _ _ F H2) as (mg' & H2' & Hd).
    exists ob', mg'. rewrite Hm, Hd. done.
  - intros m mg' s o Hm Hs. rewrite (fr_identity _ _ F). destruct (frame_manager _ _ _ _ F Hm) as (mg & H1 & Hd). rewrite Hd in Hs.
    destruct (K3 m mg s o H1 Hs) as (H2 & ob & H3 & H4 & H5). split; [done|]. destruct (frame_object' _ _ _ _ F H3) as (ob' & H6 & H7 & H8).
    exists ob'. split; [done|]. split; congruence.
  - intros k m a o Hk Ho. destruct (fr_awaits _ _ F _ _ _ Hk) as [Hk'|Hh]; [|by destruct Ho as [->| ->]].
    destruct (K4 k m a o Hk' Ho) as (ob & H1 & H2). destruct (frame_object' _ _ _ _ F H1) as (ob' & H3 & H4 & _). exists ob'. split; [done|]. congruence.
  - intros o ob' Ho. destruct (frame_object _ _ _ _ F Ho) as (ob & H1 & _). specialize (K5 o ob H1). lia.
  - intros m mg' Hm. destruct (frame_manager _ _ _ _ F Hm) as (mg & H1 & _). specialize (K6 m mg H1). lia.
Qed.

Lemma keeps_change f : (forall w, books w -> framed w (f w)) -> keeps (change f).
Proof. intros H w K. apply (frame_books w); auto. Qed.

Lemma keeps_skip : keeps skip. Proof. by intros w. Qed.
Lemma keeps_cause e : keeps (tell e). Proof. by intros w. Qed.

Lemma then_snd f g w : (andThen f g w).2 = (g (f w).2).2.
Proof. unfold andThen. destruct (f w) as [e1 w1]. cbn. by destruct (g w1). Qed.

Lemma keeps_then f g : keeps f -> keeps g -> keeps (f ;> g).
Proof. intros Hf Hg w K. rewrite then_snd. auto. Qed.

Lemma keeps_read f : (forall w, keeps (f w)) -> keeps (read f).
Proof. intros H w. apply H. Qed.

Lemma keeps_unless m f : keeps f -> keeps (unless_closed m f).
Proof. intros H. apply keeps_read. intros w. destruct (is_closed m w); [apply keeps_skip|done]. Qed.

Lemma upd_mg_lookup m f w x : mget x (ms_managers (upd_mg m f w)) = if decide (x = m) then f <$> mget x (ms_managers w) else mget x (ms_managers w).
Proof.
  unfold upd_mg. destruct (mget m (ms_managers w)) as [s|] eqn:E; cbn.
  - rewrite mget_mset. case_decide; [subst; by rewrite E|done].
  - case_decide; [subst; by rewrite E|done].
Qed.

Lemma upd_mg_rest m f w :
  (ms_driver (upd_mg m f w), ms_identity (upd_mg m f w), ms_objects (upd_mg m f w), ms_awaits (upd_mg m f w), ms_next (upd_mg m f w)) =
  (ms_driver w, ms_identity w, ms_objects w, ms_awaits w, ms_next w).
Proof. unfold upd_mg. by destruct (mget m (ms_managers w)). Qed.

(** Forget how the managers changed. *)
Ltac generalize_upd w1 R1 R2 R3 R4 R5 L :=
  match goal with |- context [upd_mg ?m ?f ?w] =>
    let R := fresh in
    pose proof (upd_mg_rest m f w) as R; pose proof (upd_mg_lookup m f w) as L; revert R L; generalize (upd_mg m f w);
    intros w1 R L; injection R as R1 R2 R3 R4 R5
  end.

Lemma upd_mg_frame m f w : (forall s, mg_managedDevices (f s) = mg_managedDevices s) -> framed w (upd_mg m f w).
Proof.
  intros Hf. pose proof (upd_mg_rest m f w) as [= H1 H2 H3 H4 H5]. split; rewrite ?H1, ?H2, ?H3, ?H4, ?H5; auto; [|lia].
  intros x. rewrite upd_mg_lookup. case_decide; [|done]. destruct (mget x (ms_managers w)); [|done]. cbn. by rewrite Hf.
Qed.

Lemma keeps_upd m f : (forall s, mg_managedDevices (f s) = mg_managedDevices s) -> keeps (change (upd_mg m f)).
Proof. intros Hf. apply keeps_change. intros w _. by apply upd_mg_frame. Qed.

Lemma keeps_set_state m f : keeps (set_state m f).
Proof. by apply keeps_upd. Qed.

(** Changes of anything else. *)
Lemma keeps_rest f : (forall w, (ms_driver (f w), ms_identity (f w), ms_objects (f w), ms_managers (f w), ms_awaits (f w)) =
    (ms_driver w, ms_identity w, ms_objects w, ms_managers w, ms_awaits w) /\ ms_next w <= ms_next (f w)) -> keeps (change f).
Proof. intros Hf. apply keeps_change. intros w _. destruct (Hf w) as [[= H1 H2 H3 H4 H5] H6]. split; rewrite ?H1, ?H2, ?H3, ?H4, ?H5; auto. Qed.

Lemma keeps_await m a : harmless a -> keeps (await_for m a).
Proof.
  intros Ha. apply keeps_change. intros w _. split; cbn; auto; [|lia]. intros k m' a'. rewrite mget_mset. case_decide; [|auto]. intros [= <- <-]. auto.
Qed.

Lemma object_frame o g w : (forall ob, ob_core (g ob) = ob_core ob) -> framed w
  (match mget o (ms_objects w) with Some ob => w <| ms_objects ::= mset o (g ob) |> | None => w end).
Proof.
  intros Hg. destruct (mget o (ms_objects w)) as [ob|] eqn:E; [|apply frame_refl]. split; cbn; auto; [|lia].
  intros x. rewrite mget_mset. case_decide; [|done]. subst. rewrite E. cbn. by rewrite Hg.
Qed.

Lemma disconnect_frame o w : framed w (disconnect o w).
Proof. by apply (object_frame o (fun ob => ob <| ob_connected := false |>)). Qed.

Create HintDb keeps.
#[local] Hint Resolve keeps_skip keeps_cause keeps_then keeps_read keeps_unless keeps_set_state keeps_await : keeps.

(** *** Registering and unregistering *)

Lemma disconnect_rest o w :
  (ms_identity (disconnect o w), ms_managers (disconnect o w), ms_awaits (disconnect o w), ms_next (disconnect o w)) =
  (ms_identity w, ms_managers w, ms_awaits w, ms_next w).
Proof. unfold disconnect. by destruct (mget o (ms_objects w)). Qed.

(** The state after a device has been unregistered by its manager. *)
Record unregistered (m : Z) (serial : jstr) (w w' : Managers) : Prop := {
  un_identity : ms_identity w' = mdel serial (ms_identity w);
  un_devices : pc_devices (ms_driver w') = mdel serial (pc_devices (ms_driver w));
  un_objects : forall o, ob_core <$> mget o (ms_objects w') = ob_core <$> mget o (ms_objects w);
  un_managers : forall x, mg_managedDevices <$> mget x (ms_managers w') =
    (fun mg => if decide (x = m) then mdel serial (mg_managedDevices mg) else mg_managedDevices mg) <$> mget x (ms_managers w);
  un_awaits : ms_awaits w' = ms_awaits w;
  un_next : ms_next w' = ms_next w
}.

Lemma unregistered_books m serial w w' o : unregistered m serial w w' -> mget serial (managed m w) = Some o -> books w -> books w'.
Proof.
  intros [U1 U2 U3 U4 U5 U6] Ho [K1 K2 K3 K4 K5 K6]. unfold managed in Ho. destruct (mget m (ms_managers w)) as [mg0|] eqn:Em; [|done].
  destruct (K3 m mg0 serial o Em Ho) as (Hid & ob0 & Hob0 & Hm0 & _).
  assert (forall x ob, mget x (ms_objects w) = Some ob -> exists ob', mget x (ms_objects w') = Some ob' /\ ob_core ob' = ob_core ob) as Hob.
  { intros x ob Hx. specialize (U3 x). rewrite Hx in U3. destruct (mget x (ms_objects w')); [|done]. cbn in U3. eexists. split; [done|]. congruence. }
  assert (forall x ob, mget x (ms_objects w') = Some ob -> is_Some (mget x (ms_objects w))) as Hob'.
  { intros x ob Hx. specialize (U3 x). rewrite Hx in U3. by destruct (mget x (ms_objects w)). }
  assert (forall x mg', mget x (ms_managers w') = Some mg' -> exists mg, mget x (ms_managers w) = Some mg /\
    mg_managedDevices mg' = if decide (x = m) then mdel serial (mg_managedDevices mg) else mg_managedDevices mg) as Hmg.
  { intros x mg' Hx. specialize (U4 x). rewrite Hx in U4. destruct (mget x (ms_managers w)) as [mg|]; [|done]. exists mg. cbn in U4. split; [done|]. congruence. }
  split.
  - intros s. rewrite U1, U2, !mget_mdel. case_decide; [split; by intros [? ?]|apply K1].
  - intros s x. rewrite U1, mget_mdel. case_decide; [done|]. intros (ob & mg & H1 & H2 & H3)%K2.
    destruct (Hob x ob H1) as (ob' & H4 & H5). unfold ob_core in H5. injection H5 as H5 _.
    specialize (U4 (ob_manager ob)). rewrite H2 in U4. destruct (mget (ob_manager ob) (ms_managers w')) as [mg'|] eqn:E; [|done]. cbn in U4.
    exists ob', mg'. split; [done|]. rewrite H5. split; [done|]. assert (mg_managedDevices mg' = if decide (ob_manager ob = m) then mdel serial (mg_managedDevices mg) else mg_managedDevices mg) as -> by congruence.
    case_decide; [by rewrite mget_mdel, decide_False|done].
  - intros x mg' s y Hx Hs. destruct (Hmg x mg' Hx) as (mg & H1 & H2). rewrite H2 in Hs.
    assert (mget s (mg_managedDevices mg) = Some y /\ s <> serial) as [H3 Hne].
    { case_decide as Exm; [rewrite mget_mdel in Hs; by case_decide|]. split; [done|]. intros ->.
      destruct (K3 x mg serial y H1 Hs) as (H5 & ob & H6 & H7 & _). apply Exm. congruence. }
    destruct (K3 x mg s y H1 H3) as (H4 & ob & H5 & H6 & H7). split; [by rewrite U1, mget_mdel, decide_False|].
    destruct (Hob y ob H5) as (ob' & H8 & H9). unfold ob_core in H9. injection H9 as H9 H10. exists ob'. split; [done|]. split; congruence.
  - intros k x a y. rewrite U5. intros Hk Ha. destruct (K4 k x a y Hk Ha) as (ob & H1 & H2). destruct (Hob y ob H1) as (ob' & H3 & H4).
    unfold ob_core in H4. injection H4 as H4 _. exists ob'. split; [done|congruence].
  - intros x ob Hx. rewrite U6. destruct (Hob' x ob Hx) as [ob0' Hx']. by apply (K5 x ob0').
  - intros x mg' Hx. rewrite U6. destruct (Hmg x mg' Hx) as (mg & H1 & _). by apply (K6 x mg).
Qed.

Lemma unregister_managed m serial w o : books w -> mget serial (managed m w) = Some o ->
  unregistered m serial w (unregisterManagedDevice m serial w).2 /\
  exists d, mget serial (pc_devices (ms_driver w)) = Some d /\
    (unregisterManagedDevice m serial w).1 = [MPhysical (PDisconnect serial); MPhysical (PEmit (DeviceDisconnected d))].
Proof.
  intros K Ho. unfold managed in Ho. destruct (mget m (ms_managers w)) as [mg0|] eqn:Em; [|done].
  destruct (bk_managed _ K m mg0 serial o Em Ho) as (Hid & _). destruct (proj1 (bk_keys _ K serial) ltac:(eauto)) as [d Hd].
  unfold unregisterManagedDevice, read, managed. rewrite Em, Ho, Hid, !bool_decide_eq_true_2 by eauto. cbn [andb].
  unfold andThen, change, driver_unregister, unregisterDevice.
  generalize_upd w1 R1 R2 R3 R4 R5 L. rewrite R1, R2, Hd, Hid. cbn -[disconnect].
  split; [|by exists d]. pose proof (disconnect_frame o w1) as F. pose proof (disconnect_rest o w1) as D. revert F D. generalize (disconnect o w1).
  intros w2 F [= D1 D2 D3 D4]. split; cbn; rewrite ?D1, ?D2, ?D3, ?D4, ?R2, ?R4, ?R5; try done.
  - intros x. rewrite <- R3. apply (fr_objects _ _ F).
  - intros x. rewrite L. case_decide; [|done]. by destruct (mget x (ms_managers w)).
Qed.

Lemma keeps_unregister m serial : keeps (unregisterManagedDevice m serial).
Proof.
  intros w K. destruct (mget serial (managed m w)) as [o|] eqn:Ho.
  - destruct (unregister_managed m serial w o K Ho) as [U _]. exact (unregistered_books m serial w _ o U Ho K).
  - unfold unregisterManagedDevice, read. rewrite then_snd. rewrite Ho. rewrite bool_decide_eq_false_2 by (by intros [? ?]). cbn [andb skip snd change].
    apply (frame_books w); [|done].
    generalize_upd w1 R1 R2 R3 R4 R5 L.
    split; rewrite ?R1, ?R2, ?R3, ?R4, ?R5; auto; [|lia]. intros x. rewrite L. case_decide as E; [|done]. subst x. unfold managed in Ho.
    destruct (mget m (ms_managers w)) as [mg|]; [|done]. cbn. rewrite mdel_absent; [done|]. rewrite mkeys_mget, Ho. by intros [? ?].
Qed.

Lemma keeps_each {A} (f : A -> act) l : (forall x, keeps (f x)) -> keeps (each f l).
Proof. intros Hf. induction l as [|x l IH]; cbn; [apply keeps_skip|by apply keeps_then]. Qed.

Lemma keeps_unregister_all m : keeps (unregisterManagedDevices m).
Proof. apply keeps_read. intros w. apply keeps_each, keeps_unregister. Qed.

(** A device of its own manager is registered. *)
Lemma register_books m o w ob : books w -> mget o (ms_objects w) = Some ob -> ob_manager ob = m -> books (registerManagedDevice m o w).2.
Proof.
  intros K Ho Hm. unfold registerManagedDevice, read. rewrite Ho. destruct (is_closed m w) eqn:Hc; [apply (frame_books w); [apply disconnect_frame|done]|].
  set (s := dv_serial (ob_info ob)). destruct (bool_decide (is_Some (mget s (ms_identity w)))) eqn:E1; cbn [andb negb].
  - destruct (bool_decide (mget s (ms_identity w) = Some o)) eqn:E2; cbn [negb]; [|done]. apply bool_decide_eq_true in E2.
    (* the same object again *)
    rewrite then_snd. cbn [change snd]. unfold driver_register, registerDevice, has_device.
    destruct (bk_owner _ K s o E2) as (ob' & mg & H1 & H2 & H3). assert (ob' = ob) as -> by congruence. rewrite Hm in H2.
    assert (is_Some (mget s (pc_devices (ms_driver w)))) as Hd by (apply (bk_keys _ K); eauto).
    unfold upd_mg. rewrite H2. cbn -[mhas]. fold s. rewrite (proj2 (mhas_true s _) Hd). cbn.
    apply (frame_books w); [|done]. split; cbn; auto; [|lia]. intros x. rewrite mget_mset. case_decide; [subst x|done]. rewrite H2. cbn. f_equal.
    clear -H3. induction (mg_managedDevices mg) as [|[k v] l IH]; [done|]. cbn in *. unfold mget in H3; fold (@mget jstr Z _) in H3. unfold mset; fold (@mset jstr Z _).
    case_decide; [congruence|]. by rewrite IH.
  - apply bool_decide_eq_false in E1. rewrite then_snd. cbn [change snd].
    assert (mget s (pc_devices (ms_driver w)) = None) as Hd.
    { destruct (mget s (pc_devices (ms_driver w))) eqn:E; [|done]. exfalso. apply E1, (bk_keys _ K). eauto. }
    assert (exists mg, mget m (ms_managers w) = Some mg) as [mg Hmg] by (unfold is_closed in Hc; destruct (mget m (ms_managers w)); [eauto|done]).
    unfold upd_mg. rewrite Hmg. unfold driver_register, registerDevice, has_device. cbn -[mhas]. fold s. unfold mhas. rewrite Hd. cbn.
    destruct K as [K1 K2 K3 K4 K5 K6]. split; cbn.
    + intros x. rewrite !mget_mset. case_decide; [split; eauto|apply K1].
    + intros x y. rewrite mget_mset. case_decide as Ex.
      * intros [= <-]. exists ob. subst x. rewrite Hm, mget_mset_eq. eexists. split; [done|]. split; [done|]. cbn. by rewrite mget_mset_eq.
      * intros (ob' & mg' & H1 & H2 & H3)%K2. exists ob'. rewrite mget_mset. case_decide as Em; [|eauto]. rewrite Em in H2. simplify_eq.
        eexists. split; [done|]. split; [done|]. cbn. by rewrite mget_mset_ne.
    + intros x mg' y z. rewrite mget_mset. case_decide as Ex.
      * intros [= <-]. cbn. rewrite mget_mset. subst x. case_decide as Ey; [intros [= <-]; subst y; rewrite mget_mset_eq; eauto|].
        intros Hy. rewrite mget_mset_ne by done. by apply (K3 m mg).
      * intros Hx Hy. assert (y <> s) as Hne. { intros ->. apply E1. destruct (K3 x mg' s z Hx Hy) as [H _]. eauto. }
        rewrite mget_mset_ne by done. by apply (K3 x mg').
    + done.
    + done.
    + intros x mg'. rewrite mget_mset. case_decide as Ex; [intros _; subst; eauto|eauto].
Qed.

(** A new object, which a manager waits for or registers at once. *)
Lemma created_books m info k w : books w ->
  (forall o w', books w' -> (exists ob, mget o (ms_objects w') = Some ob /\ ob_manager ob = m) -> books (k o w').2) ->
  books (new_object m info k w).2.
Proof.
  intros K Hk. unfold new_object, read. rewrite then_snd. cbn [change snd]. apply Hk.
  - destruct K as [K1 K2 K3 K4 K5 K6].
    assert (forall o ob, mget o (ms_objects w) = Some ob -> mget o (mset (ms_next w) (mkObject info m true) (ms_objects w)) = Some ob) as Hold.
    { intros o ob Ho. specialize (K5 o ob Ho). rewrite mget_mset_ne by lia. done. }
    split; cbn.
    + done.
    + intros s o (ob & mg & H1 & H2)%K2. exists ob, mg. auto.
    + intros x mg s o Hx Hs. destruct (K3 x mg s o Hx Hs) as (H1 & ob & H2 & H3). eauto.
    + intros x y a o Hx Ha. destruct (K4 x y a o Hx Ha) as (ob & H1 & H2). eauto.
    + intros o ob. rewrite mget_mset. case_decide; [intros _; lia|]. intros Ho. specialize (K5 o ob Ho). lia.
    + intros x mg Hx. specialize (K6 x mg Hx). lia.
  - cbn. rewrite mget_mset_eq. eauto.
Qed.

Lemma await_books m a o w : books w -> awaits_object a o -> (exists ob, mget o (ms_objects w) = Some ob /\ ob_manager ob = m) ->
  books (await_for m a w).2.
Proof.
  intros [K1 K2 K3 K4 K5 K6] Ha Ho. split; cbn; try done.
  - intros x y b o'. rewrite mget_mset. case_decide; [|apply K4]. intros [= <- <-] Hb. assert (o' = o) as -> by (destruct Ha, Hb; congruence). done.
  - intros x ob Hx. specialize (K5 x ob Hx). lia.
  - intros x ob Hx. specialize (K6 x ob Hx). lia.
Qed.

Lemma keeps_object_await m info a : (forall o, awaits_object (a o) o) -> keeps (new_object m info (fun o => await_for m (a o))).
Proof. intros Ha w K. apply created_books; [done|]. intros o w' K' Ho. by apply (await_books m (a o) o). Qed.

Lemma keeps_object_register m info : keeps (new_object m info (registerManagedDevice m)).
Proof. intros w K. apply created_books; [done|]. intros o w' K' (ob & H1 & H2). by apply (register_books m o w' ob). Qed.

Lemma keeps_end_tracker t : keeps (change (end_tracker t)).
Proof. apply keeps_rest. intros w. unfold end_tracker. destruct (mget t (ms_trackers w)) as [[m b]|]; split; cbn; (done || lia). Qed.
Lemma keeps_destroy_listener l : keeps (change (destroy_listener l)).
Proof. apply keeps_rest. intros w. unfold destroy_listener. destruct (mget l (ms_listeners w)); split; cbn; (done || lia). Qed.
Lemma keeps_destroy_tunnel t : keeps (change (destroy_tunnel t)).
Proof. apply keeps_rest. intros w. unfold destroy_tunnel. destruct (mget t (ms_tunnels w)); split; cbn; (done || lia). Qed.
Lemma keeps_listener_status l st : keeps (change (set_listener_status l st)).
Proof. apply keeps_rest. intros w. unfold set_listener_status. destruct (mget l (ms_listeners w)); split; cbn; (done || lia). Qed.

Lemma keeps_opt {A} (f : A -> Managers -> Managers) x : (forall y, keeps (change (f y))) -> keeps (opt_act f x).
Proof. intros Hf w. destruct x as [y|]; [apply (Hf y)|done]. Qed.

#[local] Hint Resolve keeps_unregister keeps_unregister_all keeps_object_await keeps_object_register keeps_end_tracker keeps_destroy_listener
  keeps_destroy_tunnel keeps_listener_status keeps_opt keeps_each : keeps.

(** Follow the code of an act. *)
Ltac keep :=
  repeat match goal with
  | |- keeps skip => apply keeps_skip
  | |- keeps (tell _) => apply keeps_cause
  | |- keeps (_ ;> _) => apply keeps_then
  | |- keeps (unless_closed _ _) => apply keeps_unless
  | |- keeps (set_state _ _) => apply keeps_set_state
  | |- keeps (read _) => apply keeps_read; intros ?
  | |- keeps (await_for _ _) => apply keeps_await; exact I
  | |- keeps (change (upd_mg _ _)) => apply keeps_upd; done
  | |- keeps (opt_act _ _) => apply keeps_opt; intros ?
  | |- keeps (each _ _) => apply keeps_each; intros ?
  | |- keeps (match ?x with _ => _ end) => destruct x
  | |- keeps (change _) => first [solve [auto with keeps] | apply keeps_rest; intros ?; split; cbn; (done || lia)]
  | |- keeps _ => solve [auto with keeps]
  end.

Lemma keeps_retry m : keeps (scheduleWatchRetry m). Proof. unfold scheduleWatchRetry. keep. Qed.
#[local] Hint Resolve keeps_retry : keeps.
Lemma keeps_stop m : keeps (stopWatching m). Proof. unfold stopWatching. keep. Qed.
Lemma keeps_plug s : keeps (trace_plug s). Proof. unfold trace_plug. keep. Qed.
Lemma keeps_failed m : keeps (tracking_failed m). Proof. unfold tracking_failed, set_status, reWatch. keep. Qed.
Lemma keeps_track m : keeps (watch_track m). Proof. unfold watch_track. keep. Qed.
#[local] Hint Resolve keeps_stop keeps_plug keeps_failed keeps_track : keeps.
Lemma keeps_with_client m kill : keeps (watch_with_client m kill). Proof. unfold watch_with_client, set_status. keep. Qed.
Lemma keeps_remove m s : keeps (remove_tracked m s). Proof. unfold remove_tracked. keep. Qed.
Lemma keeps_register_hdc m host d : keeps (registerDevice_hdc m host d).
Proof. unfold registerDevice_hdc. keep. apply keeps_object_await. intros o. by left. Qed.
Lemma keeps_ios m created : keeps (watch_ios m created). Proof. unfold watch_ios. keep. Qed.
Lemma keeps_ios_stopped m l : keeps (ios_stopped m l). Proof. unfold ios_stopped. keep. Qed.
Lemma keeps_fixed m : keeps (watch_fixed m). Proof. unfold watch_fixed. keep. Qed.
#[local] Hint Resolve keeps_with_client keeps_remove keeps_register_hdc keeps_ios keeps_ios_stopped keeps_fixed : keeps.
Lemma keeps_watch m kill created : keeps (watchDevices m kill created). Proof. unfold watchDevices. keep. Qed.
#[local] Hint Resolve keeps_watch : keeps.
Lemma keeps_tracker_reports m host r : keeps (tracker_reports m host r). Proof. unfold tracker_reports, adb_reports, hdc_reports, registerDevice_adb, alive. keep. Qed.
Lemma keeps_listener_reports m l r : keeps (listener_reports m l r). Proof. unfold listener_reports. keep. Qed.
Lemma keeps_tunnel_reports m t l udid ports r : keeps (tunnel_reports m t l udid ports r).
Proof. unfold tunnel_reports. keep. apply keeps_object_await. intros o. by right. Qed.
Lemma keeps_close m : keeps (closeManager m). Proof. unfold closeManager. keep. Qed.
#[local] Hint Resolve keeps_tracker_reports keeps_listener_reports keeps_tunnel_reports keeps_close : keeps.

Lemma keeps_properties m host d a : keeps (properties_answer m host d a).
Proof. unfold properties_answer. keep. apply keeps_object_await. intros o. by left. Qed.

Lemma set_ports_frame o ports w : framed w (set_ports o ports w).
Proof.
  apply (object_frame o (fun ob => ob <| ob_info := let i := ob_info ob in
    mkDevice (dv_os i) (dv_title i) (dv_serial i) ports (dv_host i) (dv_isAndroid i) |>)). done.
Qed.

(** The answer to a wait; objects that are waited for belong to the manager. *)
Lemma answered_books m host x a w : books w ->
  (forall o, awaits_object x o -> exists ob, mget o (ms_objects w) = Some ob /\ ob_manager ob = m) -> books (answered m host x a w).2.
Proof.
  intros K Ho. destruct x as [kill| | |d|o|udid l|o]; cbn [answered].
  - revert w K Ho. intros w K _. revert w K. change (keeps (client_answers m kill a)). unfold client_answers. keep.
  - revert w K Ho. intros w K _. revert w K. change (keeps (kill_answers m)). unfold kill_answers. keep.
  - revert w K Ho. intros w K _. revert w K. change (keeps (tracker_answers m a)). unfold tracker_answers. keep.
  - by apply keeps_properties.
  - unfold forwards_answer. destruct a as [| | |ports]; try done. rewrite then_snd. cbn [change snd].
    destruct (Ho o ltac:(by left)) as (ob & H1 & H2). pose proof (set_ports_frame o ports w) as F. destruct (frame_object' _ _ _ _ F H1) as (ob' & H3 & H4 & _).
    apply (register_books m o _ ob'); [by apply (frame_books w)|done|congruence].
  - revert w K Ho. intros w K _. revert w K. change (keeps (tunnel_answers m udid l a)). unfold tunnel_answers. keep.
  - destruct (Ho o ltac:(by right)) as (ob & H1 & H2). by apply (register_books m o w ob).
Qed.

Lemma step_books op w : books w -> books (manager_step op w).2.
Proof.
  intros K. destruct op as [p fixed|m created|m created|m|k host a|t host r|l r|t ports r|serial]; cbn [manager_step].
  - destruct K as [K1 K2 K3 K4 K5 K6]. cbn. split; cbn; try done.
    + intros s o (ob & mg & H1 & H2 & H3)%K2. exists ob, mg. split; [done|]. split; [|done]. specialize (K6 _ mg H2). rewrite mget_mset_ne; [done|lia].
    + intros x mg s o. rewrite mget_mset. case_decide; [|apply K3]. intros [= <-]. by destruct p.
    + intros x ob Hx. specialize (K5 x ob Hx). lia.
    + intros x mg. rewrite mget_mset. case_decide; [lia|]. intros Hx. specialize (K6 x mg Hx). lia.
  - by apply keeps_watch.
  - revert w K. change (keeps (watch_retry_fires m created)). unfold watch_retry_fires. keep.
  - by apply keeps_close.
  - unfold read. destruct (mget k (ms_awaits w)) as [[m x]|] eqn:E; [|done]. rewrite then_snd. cbn [change snd].
    apply answered_books; [|intros o Ho; exact (bk_await _ K k m x o E Ho)].
    apply (frame_books w); [|done]. split; cbn; auto; [|lia]. intros j m' b. rewrite mget_mdel. case_decide; [done|auto].
  - unfold read. destruct (mget t (ms_trackers w)) as [[m []]|]; try done. by apply keeps_tracker_reports.
  - unfold read. destruct (mget l (ms_listeners w)); [|done]. by apply keeps_listener_reports.
  - unfold read. destruct (mget t (ms_tunnels w)); [|done]. by apply keeps_tunnel_reports.
  - cbn. destruct (mget serial (ms_identity w)) as [o|]; [|done]. apply (frame_books w); [apply disconnect_frame|done].
Qed.

Lemma run_books ops : forall w, books w -> books (manager_run ops w).2.
Proof. induction ops as [|op ops IH]; intros w K; [done|]. cbn [manager_run]. rewrite then_snd. by apply IH, step_books. Qed.

Lemma books_no_managers : books no_managers.
Proof. split; try done. intros s. split; by intros [? ?]. Qed.

(** ** Closed managers *)

(** An act of the manager [m] changes no other one and does not open or close it. *)
Definition local (m : Z) (f : act) : Prop := forall w,
  (forall x, x <> m -> mget x (ms_managers (f w).2) = mget x (ms_managers w)) /\
  mg_closed <$> mget m (ms_managers (f w).2) = mg_closed <$> mget m (ms_managers w).

Lemma local_change m f : (forall w, ms_managers (f w) = ms_managers w) -> local m (change f).
Proof. intros Hf w. cbn. by rewrite Hf. Qed.

Lemma local_skip m : local m skip. Proof. by intros w. Qed.
Lemma local_cause m e : local m (tell e). Proof. by intros w. Qed.

Lemma local_then m f g : local m f -> local m g -> local m (f ;> g).
Proof.
  intros Hf Hg w. rewrite then_snd. destruct (Hf w) as [F1 F2], (Hg (f w).2) as [G1 G2]. split; [|congruence].
  intros x Hx. rewrite G1, F1; done.
Qed.

Lemma local_read m f : (forall w, local m (f w)) -> local m (read f).
Proof. intros Hf w. apply Hf. Qed.

Lemma local_unless m f : local m f -> local m (unless_closed m f).
Proof. intros Hf. apply local_read. intros w. destruct (is_closed m w); [apply local_skip|done]. Qed.

Lemma local_upd m g : (forall s, mg_closed (g s) = mg_closed s) -> local m (change (upd_mg m g)).
Proof.
  intros Hg w. cbn. split.
  - intros x Hx. rewrite upd_mg_lookup. by rewrite decide_False.
  - rewrite upd_mg_lookup, decide_True by done. destruct (mget m (ms_managers w)); [|done]. cbn. by rewrite Hg.
Qed.

Lemma disconnect_managers o w : ms_managers (disconnect o w) = ms_managers w.
Proof. unfold disconnect. by destruct (mget o (ms_objects w)). Qed.

Lemma local_register m o info : local m (driver_register o info).
Proof. intros w. unfold driver_register. destruct (registerDevice _ _). cbn. by destruct (has_device _ _). Qed.

Lemma local_unregister m s : local m (driver_unregister s).
Proof.
  intros w. unfold driver_unregister. destruct (unregisterDevice _ _). cbn. destruct (mget s (ms_identity w)); [|done]. cbn. by rewrite disconnect_managers.
Qed.

Lemma local_each {A} m (f : A -> act) l : (forall x, local m (f x)) -> local m (each f l).
Proof. intros Hf. induction l as [|x l IH]; cbn; [apply local_skip|by apply local_then]. Qed.

Lemma local_opt {A} m (f : A -> Managers -> Managers) x : (forall y, local m (change (f y))) -> local m (opt_act f x).
Proof. intros Hf w. destruct x as [y|]; [apply (Hf y)|done]. Qed.

Ltac locally :=
  repeat match goal with
  | |- local _ skip => apply local_skip
  | |- local _ (tell _) => apply local_cause
  | |- local _ (_ ;> _) => apply local_then
  | |- local _ (unless_closed _ _) => apply local_unless
  | |- local _ (read _) => apply local_read; intros ?
  | |- local _ (set_state _ _) => apply local_upd; done
  | |- local _ (change (upd_mg _ _)) => apply local_upd; done
  | |- local _ (driver_register _ _) => apply local_register
  | |- local _ (driver_unregister _) => apply local_unregister
  | |- local _ (opt_act _ _) => apply local_opt; intros ?
  | |- local _ (each _ _) => apply local_each; intros ?
  | |- local _ (match ?x with _ => _ end) => destruct x
  | |- local _ (change (fun _ => _)) => apply local_change; done
  | |- local _ (change (?f ?x)) => apply local_change; intros ?; unfold f; repeat case_match; done
  | |- local _ (change (?f ?x ?y)) => apply local_change; intros ?; unfold f; repeat case_match; done
  | |- local _ (?f _) => unfold f
  | |- local _ (?f _ _) => unfold f
  | |- local _ (?f _ _ _) => unfold f
  | |- local _ (?f _ _ _ _) => unfold f
  | |- local _ (?f _ _ _ _ _) => unfold f
  end.

Lemma local_watch m kill created : local m (watchDevices m kill created). Proof. locally. Qed.
Lemma local_managed m o : local m (registerManagedDevice m o). Proof. locally. Qed.
Lemma local_tracker_reports m host r : local m (tracker_reports m host r). Proof. locally. Qed.

(** Acts after which closed managers are closed and over. *)
Definition closed_at (x : Z) (w : Managers) : Prop := exists mg, mget x (ms_managers w) = Some mg /\ mg_closed mg = true.

Definition shuts (f : act) : Prop := forall w, shut w -> shut (f w).2 /\ forall x, closed_at x w -> closed_at x (f w).2.

Lemma shuts_skip : shuts skip. Proof. by intros w. Qed.
Lemma shuts_cause e : shuts (tell e). Proof. by intros w. Qed.

Lemma shuts_change f : (forall w, ms_managers (f w) = ms_managers w) -> shuts (change f).
Proof. intros Hf w K. cbn. unfold shut, closed_at. by rewrite Hf. Qed.

Lemma shuts_read f : (forall w, shuts (f w)) -> shuts (read f).
Proof. intros Hf w. apply Hf. Qed.

Lemma shuts_then f g : shuts f -> shuts g -> shuts (f ;> g).
Proof. intros Hf Hg w K. rewrite then_snd. destruct (Hf w K) as [K1 C1], (Hg _ K1) as [K2 C2]. auto. Qed.

(** What an open manager does. *)
Lemma local_shuts m f w : local m f -> is_closed m w = false -> shut w -> shut (f w).2 /\ forall x, closed_at x w -> closed_at x (f w).2.
Proof.
  intros Hf Hm K. destruct (Hf w) as [F1 F2]. unfold is_closed in Hm. split.
  - intros x mg Hx Hc. destruct (decide (x = m)) as [->|Hne].
    + rewrite Hx in F2. destruct (mget m (ms_managers w)); [|done]. cbn in F2. congruence.
    + rewrite F1 in Hx by done. by apply (K x mg).
  - intros x (mg & Hx & Hc). destruct (decide (x = m)) as [->|Hne]; [by rewrite Hx, Hc in Hm|]. exists mg. by rewrite F1.
Qed.

Lemma shuts_unless m f : local m f -> shuts (unless_closed m f).
Proof.
  intros Hf w K. unfold unless_closed, read. destruct (is_closed m w) eqn:E; [by apply shuts_skip|by apply (local_shuts m)].
Qed.

Lemma shuts_upd m g : (forall s, mg_closed (g s) = mg_closed s) -> (forall s, over s -> over (g s)) -> shuts (change (upd_mg m g)).
Proof.
  intros Hc Ho w K. cbn. split.
  - intros x mg. rewrite upd_mg_lookup. case_decide; [|apply K]. destruct (mget x (ms_managers w)) as [s|] eqn:E; [|done]. cbn.
    intros [= <-]. rewrite Hc. intros Hs. by apply Ho, (K x s).
  - intros x (mg & Hx & Hm). unfold closed_at. rewrite upd_mg_lookup, Hx. case_decide; [|eauto]. cbn. exists (g mg). by rewrite Hc.
Qed.

Lemma shuts_register m o : shuts (registerManagedDevice m o).
Proof.
  intros w K. destruct (is_closed m w) eqn:E; [|by apply (local_shuts m); [apply local_managed|..]].
  unfold registerManagedDevice, read. destruct (mget o (ms_objects w)); [|done]. rewrite E. by apply shuts_change; [apply disconnect_managers|].
Qed.

Ltac shutting :=
  repeat match goal with
  | |- shuts skip => apply shuts_skip
  | |- shuts (tell _) => apply shuts_cause
  | |- shuts (_ ;> _) => apply shuts_then
  | |- shuts (unless_closed _ _) => apply shuts_unless; locally
  | |- shuts (read _) => apply shuts_read; intros ?
  | |- shuts (registerManagedDevice _ _) => apply shuts_register
  | |- shuts (set_state _ _) => apply shuts_upd; [done|intros [? ? ? ? []] (? & ? & ?); repeat split; cbn in *; intuition (subst; done)]
  | |- shuts (match ?x with _ => _ end) => destruct x
  | |- shuts (change (fun _ => _)) => apply shuts_change; done
  | |- shuts (change (?f ?x)) => apply shuts_change; intros ?; unfold f; repeat case_match; done
  | |- shuts (change (?f ?x ?y)) => apply shuts_change; intros ?; unfold f; repeat case_match; done
  | |- shuts (?f _) => unfold f
  | |- shuts (?f _ _) => unfold f
  | |- shuts (?f _ _ _) => unfold f
  | |- shuts (?f _ _ _ _) => unfold f
  | |- shuts (?f _ _ _ _ _) => unfold f
  | |- shuts (?f _ _ _ _ _ _) => unfold f
  end.

Lemma shuts_answered m host x a : shuts (answered m host x a).
Proof. destruct x; cbn [answered]; shutting. Qed.
Lemma shuts_tracker_reports m host r : shuts (tracker_reports m host r). Proof. shutting. Qed.
Lemma shuts_listener_reports m l r : shuts (listener_reports m l r). Proof. shutting. Qed.
Lemma shuts_tunnel_reports m t l udid ports r : shuts (tunnel_reports m t l udid ports r). Proof. shutting. Qed.
Lemma shuts_watch m kill created : shuts (watchDevices m kill created). Proof. shutting. Qed.

(** *** Closing *)

Lemma unregister_managers m serial w :
  ms_managers (unregisterManagedDevice m serial w).2 = ms_managers (upd_mg m (fun s => s <| mg_managedDevices ::= mdel serial |>) w).
Proof.
  unfold unregisterManagedDevice, read. rewrite then_snd. cbn [change snd]. destruct (_ && _); [|done]. unfold driver_unregister.
  destruct (unregisterDevice _ _). cbn. destruct (mget serial (ms_identity _)); [|done]. cbn. apply disconnect_managers.
Qed.

Lemma unregister_identity m serial w s : books w -> mget s (ms_identity (unregisterManagedDevice m serial w).2) =
  if decide (s = serial /\ is_Some (mget s (managed m w))) then None else mget s (ms_identity w).
Proof.
  intros K. destruct (mget serial (managed m w)) as [o|] eqn:Ho.
  - destruct (unregister_managed m serial w o K Ho) as [U _]. rewrite (un_identity _ _ _ _ U), mget_mdel.
    destruct (decide (s = serial)) as [->|Hne]; [by rewrite decide_True by eauto|]. by rewrite decide_False by naive_solver.
  - rewrite decide_False by (intros [-> [? ?]]; congruence). unfold unregisterManagedDevice, read. rewrite then_snd, Ho.
    rewrite bool_decide_eq_false_2 by (by intros [? ?]). cbn. pose proof (upd_mg_rest m (fun s => s <| mg_managedDevices ::= mdel serial |>) w) as R.
    injection R as _ R _ _ _. by rewrite R.
Qed.

Lemma unregister_each m l : forall w, books w ->
  (forall s, mget s (ms_identity (each (unregisterManagedDevice m) l w).2) =
     if decide (s ∈ l /\ is_Some (mget s (managed m w))) then None else mget s (ms_identity w)) /\
  (forall x, mget x (ms_managers (each (unregisterManagedDevice m) l w).2) =
     if decide (x = m) then (fun mg => mg <| mg_managedDevices ::= fold_left (fun d s => mdel s d) l |>) <$> mget x (ms_managers w)
     else mget x (ms_managers w)).
Proof.
  induction l as [|serial l IH]; intros w K; cbn [each].
  - split; [intros s; by rewrite decide_False by (intros [?%not_elem_of_nil _]; done)|]. intros x. cbn. case_decide; [|done]. by destruct (mget x (ms_managers w)) as [[]|].
  - rewrite then_snd. destruct (IH _ (keeps_unregister m serial w K)) as [I1 I2].
    assert (forall s, mget s (managed m (unregisterManagedDevice m serial w).2) = if decide (s = serial) then None else mget s (managed m w)) as Hm.
    { intros s. unfold managed. rewrite unregister_managers, upd_mg_lookup, decide_True by done. destruct (mget m (ms_managers w)) as [mg|]; [|by case_decide].
      cbn. apply mget_mdel. }
    split.
    + intros s. rewrite I1, Hm, (unregister_identity m serial w s K). repeat case_decide; try done; exfalso; rewrite ?elem_of_cons in *; naive_solver.
    + intros x. rewrite I2, unregister_managers, upd_mg_lookup. case_decide; [|done]. by destruct (mget x (ms_managers w)).
Qed.

Lemma managers_each_change {A} (f : A -> Managers -> Managers) l w :
  (forall x w, ms_managers (f x w) = ms_managers w) -> ms_managers (each (fun x => change (f x)) l w).2 = ms_managers w.
Proof. intros Hf. revert w. induction l as [|x l IH]; intros w; [done|]. cbn [each]. rewrite then_snd, IH. apply Hf. Qed.

Lemma opt_managers {A} (f : A -> Managers -> Managers) x w :
  (forall y w, ms_managers (f y w) = ms_managers w) -> ms_managers (opt_act f x w).2 = ms_managers w.
Proof. intros Hf. destruct x; [apply Hf|done]. Qed.

Lemma end_tracker_managers t w : ms_managers (end_tracker t w) = ms_managers w.
Proof. unfold end_tracker. by destruct (mget t (ms_trackers w)) as [[? ?]|]. Qed.
Lemma destroy_listener_managers l w : ms_managers (destroy_listener l w) = ms_managers w.
Proof. unfold destroy_listener. by destruct (mget l (ms_listeners w)). Qed.
Lemma destroy_tunnel_managers t w : ms_managers (destroy_tunnel t w) = ms_managers w.
Proof. unfold destroy_tunnel. by destruct (mget t (ms_tunnels w)). Qed.

Lemma set_state_lookup m f w mg : mget m (ms_managers w) = Some mg -> mget m (ms_managers (set_state m f w).2) = Some (mg <| mg_state ::= f |>).
Proof. intros Hm. cbn. by rewrite upd_mg_lookup, decide_True, Hm by done. Qed.

Lemma stop_result m w mg : mget m (ms_managers w) = Some mg -> exists st, stopped st /\
  mget m (ms_managers (stopWatching m w).2) = Some (mg <| mg_state := st |>).
Proof.
  intros Hm. unfold stopWatching, read. rewrite Hm. cbn [fmap option_fmap option_map]. destruct (mg_state mg) as [st n t c|l ts|d] eqn:Es.
  - exists (TrackerState StopWatching n None c). split; [done|]. rewrite then_snd, opt_managers by apply end_tracker_managers. by apply set_state_lookup.
  - exists (IosState None []). split; [done|]. rewrite !then_snd. apply set_state_lookup.
    rewrite managers_each_change by apply destroy_tunnel_managers. rewrite opt_managers by apply destroy_listener_managers. done.
  - exists (FixedState d). split; [done|]. cbn. rewrite Hm. f_equal. destruct mg. cbn in *. by subst.
Qed.

Lemma identity_each_change {A} (f : A -> Managers -> Managers) l w :
  (forall x w, ms_identity (f x w) = ms_identity w) -> ms_identity (each (fun x => change (f x)) l w).2 = ms_identity w.
Proof. intros Hf. revert w. induction l as [|x l IH]; intros w; [done|]. cbn [each]. rewrite then_snd, IH. apply Hf. Qed.

Lemma upd_mg_identity m f w : ms_identity (upd_mg m f w) = ms_identity w.
Proof. unfold upd_mg. by destruct (mget m (ms_managers w)). Qed.

Lemma stop_identity m w : ms_identity (stopWatching m w).2 = ms_identity w.
Proof.
  unfold stopWatching, read. destruct (mg_state <$> mget m (ms_managers w)) as [[st n t c|l ts|d]|]; try done; rewrite !then_snd.
  - destruct t as [t|]; cbn; [|apply upd_mg_identity]. unfold end_tracker. destruct (mget t _) as [[? ?]|]; cbn; apply upd_mg_identity.
  - cbn. rewrite upd_mg_identity, identity_each_change by (intros t v; unfold destroy_tunnel; by destruct (mget t (ms_tunnels v))).
    destruct l as [l|]; [|done]. cbn. unfold destroy_listener. by destruct (mget l (ms_listeners w)).
Qed.

(** Closing an open manager. *)
Lemma close_result m w mg : books w -> mget m (ms_managers w) = Some mg -> mg_closed mg = false ->
  let w' := (closeManager m w).2 in
  (exists mg', mget m (ms_managers w') = Some mg' /\ mg_closed mg' = true /\ over mg') /\
  (forall x, x <> m -> mget x (ms_managers w') = mget x (ms_managers w)) /\
  (forall s, mget s (ms_identity w') = if decide (is_Some (mget s (managed m w))) then None else mget s (ms_identity w)).
Proof.
  intros K Hm Hc. cbn zeta.
  assert ((closeManager m w).2 = (unregisterManagedDevices m (stopWatching m
    (upd_mg m (fun s => s <| mg_closed := true |> <| mg_retryTimer := false |>) w)).2).2) as ->.
  { unfold closeManager, unless_closed, is_closed, read. by rewrite Hm, Hc, !then_snd. }
  set (w1 := upd_mg m (fun s => s <| mg_closed := true |> <| mg_retryTimer := false |>) w).
  assert (books w1) as K1 by (apply (frame_books w); [by apply upd_mg_frame|done]).
  assert (mget m (ms_managers w1) = Some (mg <| mg_closed := true |> <| mg_retryTimer := false |>)) as Hm1
    by (subst w1; by rewrite upd_mg_lookup, decide_True, Hm by done).
  assert (ms_identity w1 = ms_identity w) as I1 by apply upd_mg_identity.
  assert (forall x, x <> m -> mget x (ms_managers w1) = mget x (ms_managers w)) as O1 by (intros x Hx; subst w1; by rewrite upd_mg_lookup, decide_False).
  clearbody w1. destruct (stop_result m w1 _ Hm1) as (st & Hst & Hm2). pose proof (keeps_stop m w1 K1) as K2. pose proof (stop_identity m w1) as I2.
  assert (local m (stopWatching m)) as L2 by locally. destruct (L2 w1) as [O2 _]. revert Hm2 K2 I2 O2. generalize (stopWatching m w1).2. intros w2 Hm2 K2 I2 O2.
  unfold unregisterManagedDevices, read. destruct (unregister_each m (mkeys (managed m w2)) w2 K2) as [U1 U2].
  assert (managed m w2 = managed m w) as Hmg by (unfold managed; by rewrite Hm2, Hm). split; [|split].
  - rewrite U2, decide_True, Hm2 by done. eexists. split; [done|]. split; [done|]. split; [done|]. split; [done|]. cbn.
    apply mdel_all. intros k Hk. unfold managed. by rewrite Hm2.
  - intros x Hx. rewrite U2, decide_False by done. by rewrite O2, O1.
  - intros s. rewrite U1, I2, I1, Hmg. pose proof (mkeys_mget s (managed m w)) as Hk. repeat case_decide; try done; exfalso; tauto.
Qed.

Lemma step_shuts op w : books w -> shut w -> shut (manager_step op w).2 /\ forall x, closed_at x w -> closed_at x (manager_step op w).2.
Proof.
  intros B K. destruct op as [p fixed|m created|m created|m|k host a|t host r|l r|t ports r|serial]; cbn [manager_step].
  - cbn. split.
    + intros x mg. cbn. rewrite mget_mset. case_decide; [|apply K]. intros [= <-]. done.
    + intros x (mg & Hx & Hc). exists mg. cbn. rewrite mget_mset_ne; [done|]. pose proof (bk_managers _ B x mg Hx). lia.
  - by apply shuts_watch.
  - revert w K B. intros w K _. revert w K. change (shuts (watch_retry_fires m created)). unfold watch_retry_fires. apply shuts_read. intros w.
    destruct (mget m (ms_managers w)) as [s|]; [|apply shuts_skip]. destruct (mg_retryTimer s); [|apply shuts_skip].
    apply shuts_then; [|apply shuts_watch]. apply shuts_upd; [done|]. by intros s' (? & ? & ?).
  - destruct (mget m (ms_managers w)) as [mg|] eqn:Hm; [destruct (mg_closed mg) eqn:Hc|].
    + unfold closeManager, unless_closed, is_closed, read. by rewrite Hm, Hc.
    + destruct (close_result m w mg B Hm Hc) as ((mg' & H1 & H2 & H3) & H4 & _). split.
      * intros x mg'' Hx Hx'. destruct (decide (x = m)) as [->|Hne]; [by simplify_eq|]. rewrite H4 in Hx by done. by apply (K x).
      * intros x (mg'' & Hx & Hx'). destruct (decide (x = m)) as [->|Hne]; [by exists mg'|]. exists mg''. by rewrite H4.
    + unfold closeManager, unless_closed, is_closed, read. by rewrite Hm.
  - unfold read. destruct (mget k (ms_awaits w)) as [[m x]|] eqn:E; [|done]. apply (shuts_then (change _) (answered m host x a)); [by apply shuts_change|apply shuts_answered|done].
  - unfold read. destruct (mget t (ms_trackers w)) as [[m []]|]; try done. by apply shuts_tracker_reports.
  - unfold read. destruct (mget l (ms_listeners w)); [|done]. by apply shuts_listener_reports.
  - unfold read. destruct (mget t (ms_tunnels w)); [|done]. by apply shuts_tunnel_reports.
  - apply shuts_change; [|done]. intros v. destruct (mget serial (ms_identity v)); [apply disconnect_managers|done].
Qed.

Lemma run_shuts ops : forall w, books w -> shut w -> shut (manager_run ops w).2 /\ forall x, closed_at x w -> closed_at x (manager_run ops w).2.
Proof.
  induction ops as [|op ops IH]; intros w B K; [done|]. cbn [manager_run]. rewrite then_snd.
  destruct (step_shuts op w B K) as [K1 C1]. destruct (IH _ (step_books op w B) K1) as [K2 C2]. auto.
Qed.

Lemma managers_run_ok ops : books (manager_run ops no_managers).2 /\ shut (manager_run ops no_managers).2.
Proof. split; [apply run_books, books_no_managers|by apply run_shuts; [apply books_no_managers|]]. Qed.

(** ** Theorems *)

(** C25: Every registered device has one manager.  Whatever the managers of all
    platforms do together, and in whatever order trackers, sockets, waits and
    timers answer, the serials that the physical connector has are those that an
    open manager holds, no two managers hold the same serial, and each holds the
    device object that is registered; so a manager never takes away the device
    of another. *)
Theorem managers_own_devices ops :
  let w := (manager_run ops no_managers).2 in
  (forall s, is_Some (mget s (pc_devices (ms_driver w))) <->
     exists m mg o, mget m (ms_managers w) = Some mg /\ mg_closed mg = false /\ mget s (mg_managedDevices mg) = Some o) /\
  (forall m mg m' mg' s o o', mget m (ms_managers w) = Some mg -> mget m' (ms_managers w) = Some mg' ->
     mget s (mg_managedDevices mg) = Some o -> mget s (mg_managedDevices mg') = Some o' -> m = m' /\ o = o') /\
  (forall m mg s o, mget m (ms_managers w) = Some mg -> mget s (mg_managedDevices mg) = Some o ->
     mget s (ms_identity w) = Some o /\ exists ob, mget o (ms_objects w) = Some ob /\ dv_serial (ob_info ob) = s).
Proof.
  cbn zeta. destruct (managers_run_ok ops) as [B K]. revert B K. generalize (manager_run ops no_managers).2. intros w B K. split; [|split].
  - intros s. rewrite <- (bk_keys _ B s). split.
    + intros [o Ho]. destruct (bk_owner _ B s o Ho) as (ob & mg & H1 & H2 & H3). exists (ob_manager ob), mg, o. split; [done|]. split; [|done].
      destruct (mg_closed mg) eqn:E; [|done]. destruct (K _ _ H2 E) as (_ & _ & Hn). by rewrite Hn in H3.
    + intros (m & mg & o & H1 & _ & H2). destruct (bk_managed _ B m mg s o H1 H2) as [H _]. eauto.
  - intros m mg m' mg' s o o' H1 H2 H3 H4. destruct (bk_managed _ B m mg s o H1 H3) as (H5 & ob & H6 & H7 & _).
    destruct (bk_managed _ B m' mg' s o' H2 H4) as (H8 & ob' & H9 & H10 & _). simplify_eq. done.
  - intros m mg s o H1 H2. destruct (bk_managed _ B m mg s o H1 H2) as (H3 & ob & H4 & _ & H5). eauto.
Qed.

(** A closed manager is over.  Closing a manager takes away exactly the
    devices it holds and leaves those of other managers; from then on, whatever
    trackers, sockets, timers and pending creations of devices do, it stays
    closed, holds no device, tracker, socket or timer, and no device it made is
    registered. *)
Theorem closed_manager_over ops m ops' :
  let w := (manager_run ops no_managers).2 in
  let w1 := (closeManager m w).2 in
  let w2 := (manager_run ops' w1).2 in
  is_Some (mget m (ms_managers w)) ->
  (forall s, mget s (ms_identity w1) = if decide (is_Some (mget s (managed m w))) then None else mget s (ms_identity w)) /\
  (exists mg, mget m (ms_managers w2) = Some mg /\ mg_closed mg = true /\ over mg) /\
  (forall s o ob, mget s (ms_identity w2) = Some o -> mget o (ms_objects w2) = Some ob -> ob_manager ob <> m).
Proof.
  cbn zeta. destruct (managers_run_ok ops) as [B K]. revert B K. generalize (manager_run ops no_managers).2. intros w B K [mg Hm].
  assert (books (closeManager m w).2 /\ shut (closeManager m w).2 /\ closed_at m (closeManager m w).2 /\
    forall s, mget s (ms_identity (closeManager m w).2) = if decide (is_Some (mget s (managed m w))) then None else mget s (ms_identity w)) as (B1 & K1 & C1 & I1).
  { split; [by apply keeps_close|]. split; [by apply (step_shuts (OpClose m))|]. destruct (mg_closed mg) eqn:Hc.
    - unfold closeManager, unless_closed, is_closed, read. rewrite Hm, Hc. split; [by exists mg|]. intros s. destruct (K m mg Hm Hc) as (_ & _ & Hn).
      unfold managed. rewrite Hm, Hn. by rewrite decide_False by (by intros [? ?]).
    - destruct (close_result m w mg B Hm Hc) as ((mg' & H1 & H2 & _) & _ & H3). split; [by exists mg'|done]. }
  split; [done|]. destruct (run_shuts ops' _ B1 K1) as [K2 C2]. destruct (C2 m C1) as (mg2 & H1 & H2). split; [exists mg2; split; [done|]; split; [done|]; by apply (K2 m)|].
  intros s o ob Hs Ho Hob. destruct (bk_owner _ (run_books ops' _ B1) s o Hs) as (ob' & mg' & H3 & H4 & H5).
  assert (ob' = ob) as -> by congruence. rewrite Hob in H4. assert (mg' = mg2) as -> by congruence. destruct (K2 _ _ H1 H2) as (_ & _ & Hn). by rewrite Hn in H5.
Qed.

Definition phone : tracked := mkTracked (js "emulator-5554") (js "device") [].

(** An Android manager with its client and a tracker. *)
Definition watching_android : list manager_op :=
  [OpAdd android None; OpWatch 0 true; OpAnswer 1 [] AnsDone; OpAnswer 2 [] AnsDone].

Lemma closed_manager_over_example :
  let w := (manager_run (watching_android ++ [OpTracker 3 [] (TrackerAdd phone); OpAnswer 4 [] (AnsName (js "pixel")); OpAnswer 6 [] (AnsPorts [10001])]) no_managers).2 in
  mkeys (ms_identity w) = [js "emulator-5554"] /\ mget (js "emulator-5554") (ms_identity (closeManager 0 w).2) = None.
Proof.
  split; [vm_compute; reflexivity|].
  destruct (closed_manager_over (watching_android ++ [OpTracker 3 [] (TrackerAdd phone); OpAnswer 4 [] (AnsName (js "pixel")); OpAnswer 6 [] (AnsPorts [10001])])
    0 []) as [H _]; [apply (bool_decide_unpack _); vm_compute; reflexivity|]. specialize (H (js "emulator-5554")).
  etransitivity; [exact H|]. vm_compute. reflexivity.
Defined.

(** A device that is gone can be registered.  Reading the properties of an
    Android device and forwarding its ports takes time; when adb reports it
    removed meanwhile, it is not registered yet and nothing happens, and when
    the ports are forwarded it is registered although it is gone, with nothing
    left that would take it away. *)
Theorem late_device_registered :
  let gone := [OpTracker 3 [] (TrackerAdd phone); OpAnswer 4 [] (AnsName (js "pixel")); OpTracker 3 [] (TrackerRemove phone);
               OpAnswer 6 [] (AnsPorts [10001])] in
  let w := (manager_run (watching_android ++ gone) no_managers).2 in
  mkeys (pc_devices (ms_driver w)) = [tk_id phone] /\ ms_awaits w = [] /\
  (ob_connected <$> (mget (tk_id phone) (ms_identity w) ≫= fun o => mget o (ms_objects w))) = Some true.
Proof. vm_compute. repeat split. Qed.

(** ** Recovery *)

Lemma unregister_all_managers m w mg : books w -> mget m (ms_managers w) = Some mg ->
  mget m (ms_managers (unregisterManagedDevices m w).2) = Some (mg <| mg_managedDevices := [] |>).
Proof.
  intros B Hm. unfold unregisterManagedDevices, read. destruct (unregister_each m (mkeys (managed m w)) w B) as [_ U].
  rewrite U, decide_True, Hm by done. cbn. do 2 f_equal. unfold managed. rewrite Hm. by apply mdel_all.
Qed.

Lemma open_read m w mg f : mget m (ms_managers w) = Some mg -> mg_closed mg = false -> unless_closed m f w = f w.
Proof. intros Hm Hc. unfold unless_closed, is_closed, read. by rewrite Hm, Hc. Qed.

Lemma failed_result m w mg st n t c : books w -> mget m (ms_managers w) = Some mg -> mg_closed mg = false -> mg_state mg = TrackerState st n t c ->
  mget m (ms_managers (tracking_failed m w).2) =
    Some (mkDeviceManagerState (mg_platform mg) [] false true (TrackerState StopWatching (n + 1) t c)).
Proof.
  intros B Hm Hc Hs. unfold tracking_failed. rewrite (open_read m w mg _ Hm Hc), then_snd, then_snd. unfold set_status.
  pose proof (set_state_lookup m (fun s => match s with TrackerState _ n t c => TrackerState StopWatching n t c | _ => s end) w mg Hm) as H1.
  pose proof (keeps_set_state m (fun s => match s with TrackerState _ n t c => TrackerState StopWatching n t c | _ => s end) w B) as B1.
  revert H1 B1. generalize (set_state m (fun s => match s with TrackerState _ n t c => TrackerState StopWatching n t c | _ => s end) w).2. intros w1 H1 B1.
  apply (unregister_all_managers m w1 _ B1) in H1. revert H1. generalize (unregisterManagedDevices m w1).2. intros w2 H2.
  unfold reWatch. rewrite then_snd.
  apply (set_state_lookup m (fun s => match s with TrackerState st n t c => TrackerState st (n + 1) t c | _ => s end)) in H2. revert H2.
  generalize (set_state m (fun s => match s with TrackerState st n t c => TrackerState st (n + 1) t c | _ => s end) w2).2. intros w3 H3.
  unfold scheduleWatchRetry. rewrite (open_read m w3 _ _ H3 Hc). cbn. rewrite upd_mg_lookup, decide_True, H3 by done. cbn. rewrite Hs, Hc. done.
Qed.

Lemma end_tracker_trackers t w x : mget x (ms_trackers (end_tracker t w)) =
  if decide (x = t) then (fun p => (p.1, true)) <$> mget x (ms_trackers w) else mget x (ms_trackers w).
Proof.
  unfold end_tracker. destruct (mget t (ms_trackers w)) as [[m b]|] eqn:E; cbn.
  - rewrite mget_mset. case_decide; [subst; by rewrite E|done].
  - case_decide; [subst; by rewrite E|done].
Qed.

Lemma upd_mg_trackers m f w : ms_trackers (upd_mg m f w) = ms_trackers w.
Proof. unfold upd_mg. by destruct (mget m (ms_managers w)). Qed.

(** [watch_track] ends the old tracker and asks for a new one. *)
Lemma track_result m w mg st n t c : mget m (ms_managers w) = Some mg -> mg_closed mg = false -> mg_state mg = TrackerState st n (Some t) c ->
  let w' := (watch_track m w).2 in
  mget m (ms_managers w') = Some (mg <| mg_state := TrackerState st n None c |>) /\
  (exists k, mget k (ms_awaits w') = Some (m, AwaitTracker)) /\
  (forall b, mget t (ms_trackers w) = Some (m, b) -> mget t (ms_trackers w') = Some (m, true)).
Proof.
  intros Hm Hc Hs. cbn zeta. unfold watch_track. rewrite (open_read m w mg _ Hm Hc). unfold read. rewrite Hm. cbn [fmap option_fmap option_map]. rewrite Hs, !then_snd.
  cbn -[upd_mg end_tracker]. split; [|split].
  - rewrite upd_mg_lookup, decide_True by done. rewrite end_tracker_managers, Hm. done.
  - eexists. by rewrite mget_mset_eq.
  - intros b Hb. rewrite upd_mg_trackers, end_tracker_trackers, decide_True, Hb by done. done.
Qed.

(** A new tracker takes its place. *)
Lemma tracked_result m w mg st n t c : mget m (ms_managers w) = Some mg -> mg_closed mg = false -> mg_state mg = TrackerState st n t c ->
  let w' := (tracker_answers m AnsDone w).2 in
  mg_state <$> mget m (ms_managers w') = Some (TrackerState st n (Some (ms_next w)) c) /\ mget (ms_next w) (ms_trackers w') = Some (m, false).
Proof.
  intros Hm Hc Hs. cbn zeta. unfold tracker_answers, read. rewrite then_snd. cbn [change snd].
  set (w1 := w <| ms_trackers ::= mset (ms_next w) (m, is_closed m w) |> <| ms_next ::= Z.succ |>).
  rewrite (open_read m w1 mg _ Hm Hc). split.
  - rewrite (set_state_lookup m _ w1 mg Hm). cbn. by rewrite Hs.
  - cbn -[upd_mg]. rewrite upd_mg_trackers. subst w1. cbn. rewrite mget_mset_eq. unfold is_closed. by rewrite Hm, Hc.
Qed.

Lemma disconnect_trackers o w : ms_trackers (disconnect o w) = ms_trackers w.
Proof. unfold disconnect. by destruct (mget o (ms_objects w)). Qed.

Lemma unregister_trackers m s w : ms_trackers (unregisterManagedDevice m s w).2 = ms_trackers w.
Proof.
  unfold unregisterManagedDevice, read. rewrite then_snd. cbn [change snd]. destruct (_ && _); [|apply upd_mg_trackers]. unfold driver_unregister.
  destruct (unregisterDevice _ _). cbn. destruct (mget s (ms_identity _)); cbn; rewrite ?disconnect_trackers; apply upd_mg_trackers.
Qed.

Lemma failed_trackers m w : ms_trackers (tracking_failed m w).2 = ms_trackers w.
Proof.
  unfold tracking_failed, unless_closed, read. destruct (is_closed m w); [done|]. unfold set_status, reWatch, scheduleWatchRetry, unless_closed, set_state. rewrite !then_snd.
  unfold read at 1. assert (forall l v, ms_trackers (each (unregisterManagedDevice m) l v).2 = ms_trackers v) as He.
  { induction l as [|s l IH]; intros v; [done|]. cbn [each]. rewrite then_snd, IH. apply unregister_trackers. }
  destruct (is_closed _ _); cbn; rewrite ?upd_mg_trackers; unfold unregisterManagedDevices, read; rewrite He; apply upd_mg_trackers.
Qed.

(** The state of an open tracker manager and the tracker it has. *)
Definition in_state (m : Z) (st : platform_state) (w : Managers) : Prop :=
  exists mg, mget m (ms_managers w) = Some mg /\ mg_closed mg = false /\ mg_state mg = st.

Lemma in_state_set m f st w : in_state m st w -> in_state m (f st) (set_state m f w).2.
Proof. intros (mg & H1 & H2 & <-). eexists. split; [by apply set_state_lookup|]. by split. Qed.

Lemma track_state m w st n t c : in_state m (TrackerState st n (Some t) c) w ->
  let w' := (watch_track m w).2 in
  in_state m (TrackerState st n None c) w' /\ (exists k, mget k (ms_awaits w') = Some (m, AwaitTracker)) /\
  (forall b, mget t (ms_trackers w) = Some (m, b) -> mget t (ms_trackers w') = Some (m, true)).
Proof.
  intros (mg & H1 & H2 & H3). destruct (track_result m w mg st n t c H1 H2 H3) as (H4 & H5). split; [|done]. eexists. split; [exact H4|done].
Qed.

Lemma with_client_state m w n t c : in_state m (TrackerState StopWatching n (Some t) c) w ->
  let w' := (watch_with_client m true w).2 in
  in_state m (TrackerState PrepareToWatch n (if 3 <? n then Some t else None) c) w' /\
  (exists k, mget k (ms_awaits w') = Some (m, if 3 <? n then AwaitKill else AwaitTracker)) /\
  (forall b, mget t (ms_trackers w) = Some (m, b) -> mget t (ms_trackers w') = Some (m, if 3 <? n then b else true)).
Proof.
  intros S. pose proof S as (mg & H1 & H2 & H3). cbn zeta. unfold watch_with_client. rewrite (open_read m w mg _ H1 H2). unfold read.
  rewrite H1. cbn [fmap option_fmap option_map]. rewrite H3, then_snd. unfold set_status.
  apply (in_state_set m (fun s => match s with TrackerState _ n t c => TrackerState PrepareToWatch n t c | _ => s end)) in S.
  assert (ms_trackers (set_state m (fun s => match s with TrackerState _ n t c => TrackerState PrepareToWatch n t c | _ => s end) w).2 = ms_trackers w) as T
    by apply upd_mg_trackers.
  revert S T. generalize (set_state m (fun s => match s with TrackerState _ n t c => TrackerState PrepareToWatch n t c | _ => s end) w).2. intros w1 S T.
  rewrite <- T. cbn [andb]. destruct (3 <? n); [|by apply track_state]. split; [exact S|]. split; [|done]. eexists. cbn. by rewrite mget_mset_eq.
Qed.

Lemma kill_state m w st n t c : in_state m (TrackerState st n (Some t) c) w ->
  let w' := (kill_answers m w).2 in
  in_state m (TrackerState st 0 None c) w' /\ (exists k, mget k (ms_awaits w') = Some (m, AwaitTracker)) /\
  (forall b, mget t (ms_trackers w) = Some (m, b) -> mget t (ms_trackers w') = Some (m, true)).
Proof.
  intros S. cbn zeta. unfold kill_answers. rewrite then_snd.
  apply (in_state_set m (fun s => match s with TrackerState st _ t c => TrackerState st 0 t c | _ => s end)) in S.
  assert (ms_trackers (set_state m (fun s => match s with TrackerState st _ t c => TrackerState st 0 t c | _ => s end) w).2 = ms_trackers w) as T
    by apply upd_mg_trackers.
  rewrite <- T. by apply track_state.
Qed.

(** C26: A lost tracker is replaced.  When the tracker of an open Android or
    Harmony manager fails, the manager takes away all its devices and arms its
    timer; when the timer fires it asks for a new tracker, on the fourth failure
    in a row only after it has called [kill] of the adb or hdc client and that
    call has come to an end, whether it succeeded or not; and then, when the
    tracker is there, it has the new tracker, which is alive, while the old one
    was ended.  (What [kill] achieves is not part of this: that of the hdc client
    ends its own connection and not the server.) *)
Theorem lost_tracker_replaced ops host m mg st n t b created :
  let w := (manager_run ops no_managers).2 in
  mget m (ms_managers w) = Some mg -> mg_closed mg = false -> mg_state mg = TrackerState st n (Some t) true -> mget t (ms_trackers w) = Some (m, b) ->
  let w1 := (tracker_reports m host TrackerError w).2 in
  let w2 := (watch_retry_fires m created w1).2 in
  let kill := 3 <? n + 1 in
  let w3 := if kill then (kill_answers m w2).2 else w2 in
  let w4 := (tracker_answers m AnsDone w3).2 in
  managed m w1 = [] /\ (mg_retryTimer <$> mget m (ms_managers w1) = Some true) /\
  (exists k, mget k (ms_awaits w2) = Some (m, if kill then AwaitKill else AwaitTracker)) /\
  (exists k, mget k (ms_awaits w3) = Some (m, AwaitTracker)) /\
  (exists t', mg_state <$> mget m (ms_managers w4) = Some (TrackerState PrepareToWatch (if kill then 0 else n + 1) (Some t') true) /\
     mget t' (ms_trackers w4) = Some (m, false)) /\
  mget t (ms_trackers w3) = Some (m, true).
Proof.
  cbn zeta. destruct (managers_run_ok ops) as [B _]. revert B. generalize (manager_run ops no_managers).2. intros w B Hm Hc Hs Ht.
  assert ((tracker_reports m host TrackerError w).2 = (tracking_failed m w).2) as ->
    by (unfold tracker_reports, adb_reports, hdc_reports, read; destruct (is_android m w); by rewrite (open_read m w mg _ Hm Hc)).
  pose proof (failed_result m w mg st n (Some t) true B Hm Hc Hs) as H1. pose proof (failed_trackers m w) as T1. revert H1 T1.
  generalize (tracking_failed m w).2. intros w1 H1 T1. unfold managed. rewrite H1. split; [done|]. split; [done|].
  assert (in_state m (TrackerState StopWatching (n + 1) (Some t) true) (upd_mg m (fun s => s <| mg_retryTimer := false |>) w1)) as S2.
  { eexists. split; [by rewrite upd_mg_lookup, decide_True, H1 by done|done]. }
  pose proof (upd_mg_trackers m (fun s => s <| mg_retryTimer := false |>) w1) as T2. rewrite T1 in T2.
  assert ((watch_retry_fires m created w1).2 = (watch_with_client m true (upd_mg m (fun s => s <| mg_retryTimer := false |>) w1)).2) as ->.
  { unfold watch_retry_fires, read. rewrite H1. cbn [mg_retryTimer]. rewrite then_snd. cbn [change snd]. destruct S2 as (mg2 & H2 & H3 & H4).
    unfold watchDevices. rewrite (open_read _ _ mg2 _ H2 H3). unfold read. rewrite H2. cbn [fmap option_fmap option_map]. by rewrite H4. }
  revert S2 T2. generalize (upd_mg m (fun s => s <| mg_retryTimer := false |>) w1). intros w2 S2 T2. rewrite <- T2 in Ht.
  destruct (with_client_state m w2 (n + 1) t true S2) as (S3 & A3 & T3). specialize (T3 b Ht). revert S3 A3 T3. generalize (watch_with_client m true w2).2.
  intros w3 S3 A3 T3. split; [done|].
  assert (in_state m (TrackerState PrepareToWatch (if 3 <? n + 1 then 0 else n + 1) None true) (if 3 <? n + 1 then (kill_answers m w3).2 else w3) /\
    (exists k, mget k (ms_awaits (if 3 <? n + 1 then (kill_answers m w3).2 else w3)) = Some (m, AwaitTracker)) /\
    mget t (ms_trackers (if 3 <? n + 1 then (kill_answers m w3).2 else w3)) = Some (m, true)) as (S4 & A4 & T4).
  { destruct (3 <? n + 1); [|done]. destruct (kill_state m w3 _ _ _ _ S3) as (? & ? & T). split; [done|]. split; [done|]. by apply (T b). }
  revert S4 A4 T4. generalize (if 3 <? n + 1 then (kill_answers m w3).2 else w3). intros w4 S4 A4 T4. split; [done|]. split; [|done].
  destruct S4 as (mg4 & H2 & H3 & H4). destruct (tracked_result m w4 mg4 _ _ _ _ H2 H3 H4) as [H5 H6]. by exists (ms_next w4).
Qed.

Lemma lost_tracker_replaced_witness :
  let w2 := (watch_retry_fires 0 true (tracker_reports 0 [] TrackerError (manager_run watching_android no_managers).2).2).2 in
  mget 3 (ms_trackers (if 3 <? 0 + 1 then (kill_answers 0 w2).2 else w2)) = Some (0, true).
Proof.
  pose proof (lost_tracker_replaced watching_android [] 0 (mkDeviceManagerState android [] false false
    (TrackerState PrepareToWatch 0 (Some 3) true)) PrepareToWatch 0 3 false true) as H. cbv zeta in H.
  specialize (H ltac:(vm_compute; reflexivity) eq_refl eq_refl ltac:(vm_compute; reflexivity)). destruct H as (_ & _ & _ & _ & _ & H). exact H.
Defined.
