(* ===== verification/AdbGuard.v ===== *)
(** * Android devices and their health guard

    Models [device/android/AdbHealthGuard.ts] and the parts of
    [device/android/AndroidDevice.ts] that use it: before a port is connected, a
    command on the device tries it, so that a frozen app cannot block adb.  The
    clock is an argument [now]; the connection to adb, the transport to the
    device, the command, its answer, alarms and closing are steps.  Several checks
    may be under way. *)

From Stdlib Require Import String.
From stdpp Require Import strings.
From S2P Require Import JsValue Json Ownership Watch.

(** ** The guard *)

Definition responseTimeoutMs : Z := 5000.
Definition retryDelayMs : Z := 5000.

(** Where [shell] waits: for the connection to adb, for the transport to the
    device, or for the end of the command. *)
Inductive probe_stage := Connecting | Transporting | Commanded.

(** A check that has not been answered; its alarm rings at [ck_started] and
    [responseTimeoutMs]. *)
Record Check := mkCheck { ck_port : Z; ck_started : Z; ck_stage : probe_stage }.

Record AdbHealthGuard := mkGuard {
  gd_closed : bool;
  gd_abort : option Z;              (* the check that [close] aborts *)
  gd_retryAt : Z;
  gd_portRetryAt : list (Z * Z);
  gd_checks : list (Z * Check);
  gd_nextCheck : Z
}.

#[export] Instance eta_guard : Eta AdbHealthGuard := fun g =>
  mkGuard (gd_closed g) (gd_abort g) (gd_retryAt g) (gd_portRetryAt g) (gd_checks g) (gd_nextCheck g).

Definition new_health_guard : AdbHealthGuard := mkGuard false None 0 [] [] 0.

Inductive guard_effect :=
  | GBegins (k port : Z)              (* a connection to adb is opened *)
  | GTransport (k : Z)                (* the transport to the device is asked for *)
  | GCommand (k port : Z)             (* the command for the device *)
  | GAnswer (k : Z) (r : port_check)
  | GUnresponsive (port : Z).         (* [onError] *)

(** The check [k] is over. *)
Definition settle_check (k : Z) (g : AdbHealthGuard) : AdbHealthGuard :=
  g <| gd_checks ::= mdel k |> <| gd_abort ::= (fun a => if bool_decide (a = Some k) then None else a) |>.

Definition check (now port : Z) (g : AdbHealthGuard) : (port_check + Z) * list guard_effect * AdbHealthGuard :=
  if gd_closed g || (now <? gd_retryAt g) then (inl PortPause, [], g)
  else if (port <? 1) || (65535 <? port) || (now <? default 0 (mget port (gd_portRetryAt g))) then (inl PortSkip, [], g)
  else
    let k := gd_nextCheck g in
    (inr k, [GBegins k port], g <| gd_checks ::= mset k (mkCheck port now Connecting) |> <| gd_abort := Some k |> <| gd_nextCheck ::= Z.succ |>).

Definition markUnresponsive (port : Z) (g : AdbHealthGuard) : list guard_effect := if gd_closed g then [] else [GUnresponsive port].

Definition alarm_rings (now k : Z) (g : AdbHealthGuard) : list guard_effect * AdbHealthGuard :=
  match mget k (gd_checks g) with
  | None => ([], g)
  | Some c => (markUnresponsive (ck_port c) g ++ [GAnswer k PortPause], settle_check k (g <| gd_retryAt := now + retryDelayMs |>))
  end.

(** [shell] goes on: adb is connected, then the transport is there and the command
    is sent.  A check that has been answered was aborted, which cancels [shell]
    (a transport that is still asked for leads to no command). *)
Definition adb_connected (k : Z) (g : AdbHealthGuard) : list guard_effect * AdbHealthGuard :=
  match mget k (gd_checks g) with
  | Some (mkCheck port started Connecting) => ([GTransport k], g <| gd_checks ::= mset k (mkCheck port started Transporting) |>)
  | _ => ([], g)
  end.

Definition transport_ready (k : Z) (g : AdbHealthGuard) : list guard_effect * AdbHealthGuard :=
  match mget k (gd_checks g) with
  | Some (mkCheck port started Transporting) => ([GCommand k port], g <| gd_checks ::= mset k (mkCheck port started Commanded) |>)
  | _ => ([], g)
  end.

(** [.replace(/\r/g, "").trim()]. *)
Definition clean (s : jstr) : jstr := trim (List.filter (fun c => negb (c =? 13)) s).

Definition timed_out (out : jstr) : bool := bool_decide (out = js "nc: Timeout") || bool_decide (out = js "netcat: Timeout").

(** The command ends with an output; an aborted check has been answered. *)
Definition probe_answers (now k : Z) (output : jstr) (g : AdbHealthGuard) : list guard_effect * AdbHealthGuard :=
  match mget k (gd_checks g) with
  | Some (mkCheck port _ Commanded) =>
      let out := clean output in
      if timed_out out
      then ([GAnswer k PortSkip], settle_check k (g <| gd_portRetryAt ::= mset port (now + retryDelayMs) |>))
      else
        let g := if bool_decide (out = []) then g <| gd_portRetryAt ::= mdel port |> else g in
        ([GAnswer k PortReady], settle_check k g)
  | _ => ([], g)
  end.

(** The check fails: no connection to adb, no transport, or the command broke. *)
Definition probe_fails (now k : Z) (g : AdbHealthGuard) : list guard_effect * AdbHealthGuard :=
  match mget k (gd_checks g) with
  | None => ([], g)
  | Some c => (markUnresponsive (ck_port c) g ++ [GAnswer k PortPause], settle_check k (g <| gd_retryAt := now + retryDelayMs |>))
  end.

Definition close_guard (g : AdbHealthGuard) : list guard_effect * AdbHealthGuard :=
  let g := g <| gd_closed := true |> in
  let '(es, g) := match gd_abort g with Some k => ([GAnswer k PortPause], settle_check k g) | None => ([], g) end in
  (es, g <| gd_portRetryAt := [] |>).

(** ** The device *)

(** [an_waits]: the checks whose answer [checkClientPort] awaits, with the port
    it was asked for and the port on the device. *)
Record AndroidDevice := mkAndroidDevice {
  an_connected : bool;
  an_guard : AdbHealthGuard;
  an_forwardedPorts : list (Z * Z);
  an_waits : list (Z * (Z * Z))
}.

#[export] Instance eta_android_device : Eta AndroidDevice := fun d =>
  mkAndroidDevice (an_connected d) (an_guard d) (an_forwardedPorts d) (an_waits d).

Inductive device_effect :=
  | DBegins (k remotePort : Z)
  | DTransport (k : Z)
  | DCommand (k remotePort : Z)
  | DChecked (port : Z) (r : port_check)       (* the promise of [checkClientPort] *)
  | DConnectorError (remotePort : Z).

(** An answer of the guard reaches [checkClientPort]. *)
Definition guard_effects (es : list guard_effect) (d : AndroidDevice) : list device_effect * AndroidDevice :=
  fold_left (fun '(out, d) e =>
    match e with
    | GBegins k remote => (out ++ [DBegins k remote], d)
    | GTransport k => (out ++ [DTransport k], d)
    | GCommand k remote => (out ++ [DCommand k remote], d)
    | GUnresponsive remote => (out ++ [DConnectorError remote], d)
    | GAnswer k r =>
        match mget k (an_waits d) with
        | None => (out, d)
        | Some (port, remote) =>
            (out ++ [DChecked port (if an_connected d && bool_decide (mget port (an_forwardedPorts d) = Some remote) then r else PortPause)],
             d <| an_waits ::= mdel k |>)
        end
    end) es ([], d).

Definition checkClientPort (now port : Z) (d : AndroidDevice) : list device_effect * AndroidDevice :=
  if negb (an_connected d) then ([DChecked port PortPause], d)
  else match mget port (an_forwardedPorts d) with
       | None => ([DChecked port PortSkip], d)
       | Some remote =>
           match check now remote (an_guard d) with
           | (inl r, _, _) => ([DChecked port r], d)
           | (inr k, es, g) => guard_effects es (d <| an_guard := g |> <| an_waits ::= mset k (port, remote) |>)
           end
       end.

Definition guard_acts (f : AdbHealthGuard -> list guard_effect * AdbHealthGuard) (d : AndroidDevice) : list device_effect * AndroidDevice :=
  let '(es, g) := f (an_guard d) in guard_effects es (d <| an_guard := g |>).

(** [disconnect] up to the watcher, which is closed too; the promises of the
    aborted check are answered after it. *)
Definition disconnect_android (d : AndroidDevice) : list device_effect * AndroidDevice :=
  let '(es, g) := close_guard (an_guard d) in
  guard_effects es (d <| an_guard := g |> <| an_forwardedPorts := [] |> <| an_connected := false |>).

(** [forward] begins and, after a port has been forwarded, goes on. *)
Definition forward_begins (d : AndroidDevice) : AndroidDevice := d <| an_forwardedPorts := [] |>.
Definition port_forwarded (host remote : Z) (d : AndroidDevice) : AndroidDevice := d <| an_forwardedPorts ::= mset host remote |>.

Definition new_android : AndroidDevice := mkAndroidDevice true new_health_guard [] [].

(** ** Runs *)

Inductive android_op :=
  | ACheck (port : Z)
  | AAlarm (k : Z)
  | AConnected (k : Z)
  | ATransported (k : Z)
  | AOutput (k : Z) (output : jstr)
  | AFails (k : Z)
  | ADisconnect
  | AForwardBegins
  | AForwarded (host remote : Z).

Definition android_step (now : Z) (op : android_op) (d : AndroidDevice) : list device_effect * AndroidDevice :=
  match op with
  | ACheck port => checkClientPort now port d
  | AAlarm k => guard_acts (alarm_rings now k) d
  | AConnected k => guard_acts (adb_connected k) d
  | ATransported k => guard_acts (transport_ready k) d
  | AOutput k output => guard_acts (probe_answers now k output) d
  | AFails k => guard_acts (probe_fails now k) d
  | ADisconnect => disconnect_android d
  | AForwardBegins => ([], forward_begins d)
  | AForwarded host remote => ([], port_forwarded host remote d)
  end.

(** The effects carry the time of their step. *)
Fixpoint android_run (ops : list (Z * android_op)) (d : AndroidDevice) : list (Z * device_effect) * AndroidDevice :=
  match ops with
  | [] => ([], d)
  | (now, op) :: ops =>
      let '(e1, d) := android_step now op d in
      let '(e2, d) := android_run ops d in (List.map (pair now) e1 ++ e2, d)
  end.

(** The clock does not go back. *)
Fixpoint clock (last : Z) (ops : list (Z * android_op)) : bool :=
  match ops with [] => true | (now, _) :: ops => (last <=? now) && clock now ops end.

(** ** Proofs *)

#[local] Arguments mdel : simpl never.
#[local] Arguments mset : simpl never.
#[local] Arguments mget : simpl never.

Record sound (last : Z) (d : AndroidDevice) : Prop := {
  so_flag : an_connected d = negb (gd_closed (an_guard d));
  so_retry : gd_retryAt (an_guard d) <= last + retryDelayMs;
  so_waits : forall k, is_Some (mget k (an_waits d)) -> is_Some (mget k (gd_checks (an_guard d)));
  so_keys : NoDup (mkeys (an_waits d));
  so_fresh : forall k, is_Some (mget k (gd_checks (an_guard d))) -> k < gd_nextCheck (an_guard d)
}.

Definition is_answer (e : device_effect) : bool := match e with DChecked _ _ => true | _ => false end.
Definition answers (es : list device_effect) : nat := List.length (List.filter is_answer es).

(** What a step may do to the guard's promises. *)
Record kept (now : Z) (asked : nat) (d : AndroidDevice) (res : list device_effect * AndroidDevice) : Prop := {
  kp_sound : sound now res.2;
  kp_later : gd_retryAt (an_guard d) <= gd_retryAt (an_guard res.2);
  kp_error : forall p, DConnectorError p ∈ res.1 -> now + retryDelayMs <= gd_retryAt (an_guard res.2) /\ forall k q, DBegins k q ∉ res.1;
  kp_probe : forall k q, DBegins k q ∈ res.1 -> gd_retryAt (an_guard d) <= now;
  kp_checks : forall k c, mget k (gd_checks (an_guard res.2)) = Some c ->
    (exists c0, mget k (gd_checks (an_guard d)) = Some c0 /\ ck_port c0 = ck_port c) \/ DBegins k (ck_port c) ∈ res.1;
  kp_command : forall k q, DCommand k q ∈ res.1 -> exists c, mget k (gd_checks (an_guard d)) = Some c /\ ck_port c = q;
  kp_count : (answers res.1 + List.length (an_waits res.2) = asked + List.length (an_waits d))%nat
}.

Lemma mdel_length {K V} `{EqDecision K} (k : K) (m : list (K * V)) : NoDup (mkeys m) -> is_Some (mget k m) ->
  S (List.length (mdel k m)) = List.length m.
Proof.
  intros Hnd [v Hv]. induction m as [|[j w] m IH]; [done|]. cbn in Hnd. apply list.NoDup_cons in Hnd as [Hj Hnd].
  unfold mget in Hv; fold (@mget K V _) in Hv. unfold mdel. rewrite filter_cons. cbn [fst]. case_decide as E1; case_decide as E2; try congruence.
  - subst j. fold (mdel k m). by rewrite mdel_absent.
  - fold (mdel k m). cbn [List.length]. f_equal. by apply IH.
Qed.

Lemma mset_length {K V} `{EqDecision K} (k : K) (v : V) (m : list (K * V)) : mget k m = None -> List.length (mset k v m) = S (List.length m).
Proof.
  induction m as [|[j w] m IH]; [done|]. unfold mget, mset; fold (@mget K V _) (@mset K V _). case_decide; [done|]. intros H'. cbn. by rewrite IH.
Qed.

Definition warning (warn : bool) (port : Z) : list device_effect := if warn then [DConnectorError port] else [].

Definition verdict (k : Z) (r : port_check) (d : AndroidDevice) : list device_effect :=
  match mget k (an_waits d) with
  | None => []
  | Some (port, remote) => [DChecked port (if an_connected d && bool_decide (mget port (an_forwardedPorts d) = Some remote) then r else PortPause)]
  end.

Lemma answer_effects (warn : bool) port k r d :
  guard_effects ((if warn then [GUnresponsive port] else []) ++ [GAnswer k r]) d = (warning warn port ++ verdict k r d, d <| an_waits ::= mdel k |>).
Proof.
  unfold guard_effects, verdict. destruct (mget k (an_waits d)) as [[p q]|] eqn:E.
  - by destruct warn; cbn; rewrite E.
  - assert (d <| an_waits ::= mdel k |> = d) as Hd.
    { destruct d as [a b e w]. cbn in *. unfold set_field. cbn. by rewrite mdel_absent by (rewrite mkeys_mget, E; by intros [? ?]). }
    rewrite Hd. by destruct warn; cbn; rewrite E.
Qed.

Lemma verdict_plain k r d e : e ∈ verdict k r d -> exists p v, e = DChecked p v.
Proof. unfold verdict. destruct (mget k (an_waits d)) as [[p q]|]; [intros ->%list_elem_of_singleton; eauto|by intros ?%not_elem_of_nil]. Qed.

Lemma verdict_count k r d : NoDup (mkeys (an_waits d)) ->
  (answers (verdict k r d) + List.length (mdel k (an_waits d)) = List.length (an_waits d))%nat.
Proof.
  intros Hnd. unfold verdict. destruct (mget k (an_waits d)) as [[p q]|] eqn:E; cbn.
  - apply mdel_length; eauto.
  - by rewrite mdel_absent by (rewrite mkeys_mget, E; by intros [? ?]).
Qed.

(** The guard settles a check, with an error before the answer or not. *)
Lemma settled_kept last now k r c (warn : bool) (g : AdbHealthGuard) d : sound last d -> last <= now -> mget k (gd_checks (an_guard d)) = Some c ->
  gd_closed g = gd_closed (an_guard d) -> gd_checks g = gd_checks (an_guard d) -> gd_nextCheck g = gd_nextCheck (an_guard d) ->
  gd_retryAt (an_guard d) <= gd_retryAt g <= now + retryDelayMs -> (warn = true -> now + retryDelayMs <= gd_retryAt g) ->
  kept now 0 d (guard_effects ((if warn then [GUnresponsive (ck_port c)] else []) ++ [GAnswer k r]) (d <| an_guard := settle_check k g |>)).
Proof.
  intros [S1 S2 S3 S4 S5] Hle Hk Hc Hch Hn [Hr1 Hr2] Hw. rewrite answer_effects.
  assert (forall e, e ∈ warning warn (ck_port c) ++ verdict k r (d <| an_guard := settle_check k g |>) ->
    (warn = true /\ e = DConnectorError (ck_port c)) \/ exists p v, e = DChecked p v) as He.
  { intros e [Hin|Hin%verdict_plain]%elem_of_app; [|by right]. destruct warn; [apply list_elem_of_singleton in Hin; auto|by apply not_elem_of_nil in Hin]. }
  split; cbn [fst snd].
  - split; cbn; rewrite ?Hc, ?Hch, ?Hn; try done; [|by apply NoDup_mdel|].
    + intros j. rewrite !mget_mdel. case_decide; [done|]. auto.
    + intros j. rewrite mget_mdel. case_decide; [by intros [? ?]|apply S5].
  - done.
  - intros p [[Hwt _]|(? & ? & ?)]%He; [|done]. split; [by apply Hw|]. intros k' q [[_ ?]|(? & ? & ?)]%He; done.
  - intros k' q [[_ ?]|(? & ? & ?)]%He; done.
  - intros k' c'. cbn. rewrite Hch, mget_mdel. case_decide; [done|]. eauto.
  - intros k' q [[_ ?]|(? & ? & ?)]%He; done.
  - unfold answers. rewrite List.filter_app, List.length_app.
    assert (List.length (List.filter is_answer (warning warn (ck_port c))) = 0%nat) as -> by (by destruct warn).
    rewrite !Nat.add_0_l. pose proof (verdict_count k r (d <| an_guard := settle_check k g |>)) as V. cbn -[verdict mkeys] in V |- *. by apply V.
Qed.

Lemma same_kept last now d : sound last d -> last <= now -> kept now 0 d ([], d).
Proof.
  intros [S1 S2 S3 S4 S5] Hle. split; cbn; try done; [split; try done; unfold retryDelayMs in *; lia|by intros ? ?%not_elem_of_nil|by intros ? ? ?%not_elem_of_nil|eauto|by intros ? ? ?%not_elem_of_nil].
Qed.

Lemma one_kept last now port r d : sound last d -> last <= now -> kept now 1 d ([DChecked port r], d).
Proof.
  intros [S1 S2 S3 S4 S5] Hle. split; cbn; try done; [split; try done; unfold retryDelayMs in *; lia|by intros ? ?%list_elem_of_singleton|by intros ? ? ?%list_elem_of_singleton|eauto|by intros ? ? ?%list_elem_of_singleton].
Qed.

Lemma check_kept last now port d : sound last d -> last <= now -> kept now 1 d (checkClientPort now port d).
Proof.
  intros K Hle. pose proof K as [S1 S2 S3 S4 S5]. unfold checkClientPort. destruct (negb (an_connected d)); [by apply (one_kept last)|].
  destruct (mget port (an_forwardedPorts d)) as [remote|]; [|by apply (one_kept last)]. unfold check.
  destruct (gd_closed (an_guard d) || (now <? gd_retryAt (an_guard d))) eqn:E1; [by apply (one_kept last)|].
  destruct (_ || _ || _); [by apply (one_kept last)|]. apply orb_false_elim in E1 as [_ E1%Z.ltb_ge]. cbn. set (k := gd_nextCheck (an_guard d)).
  assert (mget k (an_waits d) = None) as Hk. { destruct (mget k (an_waits d)) eqn:E; [|done]. specialize (S5 k (S3 k ltac:(eauto))). lia. }
  split; cbn -[mkeys]; try done.
  - split; cbn -[mkeys]; try done; [unfold retryDelayMs in *; lia| |by apply NoDup_mset|].
    + intros j. rewrite !mget_mset. case_decide; eauto.
    + intros j. rewrite mget_mset. case_decide; [lia|]. intros Hj. specialize (S5 j Hj). lia.
  - by intros p ?%list_elem_of_singleton.
  - intros j c. rewrite mget_mset. case_decide as Ej; [intros [= <-]; subst j; right; cbn; left|eauto].
  - by intros j q ?%list_elem_of_singleton.
  - rewrite mset_length by done. cbn. lia.
Qed.

(** [shell] goes on with a check that is not answered. *)
Lemma staged_kept last now k port started st st' e d : sound last d -> last <= now ->
  mget k (gd_checks (an_guard d)) = Some (mkCheck port started st) -> e = DTransport k \/ e = DCommand k port ->
  kept now 0 d ([e], d <| an_guard := (an_guard d) <| gd_checks ::= mset k (mkCheck port started st') |> |>).
Proof.
  intros [S1 S2 S3 S4 S5] Hle Hk He. split; cbn -[mkeys]; try done.
  - split; cbn -[mkeys]; try done; [unfold retryDelayMs in *; lia| |].
    + intros j Hj. rewrite mget_mset. case_decide; [eauto|auto].
    + intros j. rewrite mget_mset. case_decide; [intros _; subst; apply S5; eauto|apply S5].
  - intros p Hp%list_elem_of_singleton. destruct He; congruence.
  - intros j q Hp%list_elem_of_singleton. destruct He; congruence.
  - intros j c. rewrite mget_mset. case_decide; [intros [= <-]; subst; eauto|eauto].
  - intros j q Hp%list_elem_of_singleton. destruct He; [congruence|]. simplify_eq. eauto.
  - by destruct He as [->| ->].
Qed.

Definition asks (op : android_op) : nat := match op with ACheck _ => 1%nat | _ => 0%nat end.

Lemma failed_kept last now k c d : sound last d -> last <= now -> mget k (gd_checks (an_guard d)) = Some c ->
  kept now 0 d (guard_effects (markUnresponsive (ck_port c) (an_guard d) ++ [GAnswer k PortPause])
    (d <| an_guard := settle_check k ((an_guard d) <| gd_retryAt := now + retryDelayMs |>) |>)).
Proof.
  intros K Hle Hk. pose proof (so_retry _ _ K). unfold markUnresponsive.
  pose proof (settled_kept last now k PortPause c (negb (gd_closed (an_guard d))) ((an_guard d) <| gd_retryAt := now + retryDelayMs |>) d K Hle Hk) as H'.
  destruct (gd_closed (an_guard d)) eqn:Ec; apply H'; cbn; try done; unfold retryDelayMs in *; lia.
Qed.

Lemma disconnect_kept last now d : sound last d -> last <= now -> kept now 0 d (disconnect_android d).
Proof.
  intros [S1 S2 S3 S4 S5] Hle. unfold disconnect_android, close_guard. cbn [gd_abort].
  set (g := (an_guard d) <| gd_closed := true |>). change (gd_abort g) with (gd_abort (an_guard d)). destruct (gd_abort (an_guard d)) as [k|].
  - change [GAnswer k PortPause] with ((if false then [GUnresponsive 0] else []) ++ [GAnswer k PortPause]). rewrite answer_effects.
    match goal with |- kept _ _ _ (_ ++ verdict k _ ?d1, _) => pose proof (verdict_count k PortPause d1 S4) as V; pose proof (verdict_plain k PortPause d1) as P; revert V P; generalize (verdict k PortPause d1) end.
    intros v V P. split; cbn -[mkeys]; try done.
    + split; cbn -[mkeys]; try done; [unfold retryDelayMs in *; lia| |by apply NoDup_mdel|].
      * intros j. rewrite !mget_mdel. case_decide; [done|]. auto.
      * intros j. rewrite mget_mdel. case_decide; [by intros [? ?]|apply S5].
    + by intros p (? & ? & ?)%P.
    + by intros k' q (? & ? & ?)%P.
    + intros j c. rewrite mget_mdel. case_decide; [done|]. eauto.
    + by intros k' q (? & ? & ?)%P.
  - split; cbn; try done; [split; try done; cbn; unfold retryDelayMs in *; lia|by intros ? ?%not_elem_of_nil|by intros ? ? ?%not_elem_of_nil|eauto|by intros ? ? ?%not_elem_of_nil].
Qed.

Lemma step_kept last now op d : sound last d -> last <= now -> kept now (asks op) d (android_step now op d).
Proof.
  intros K Hle. pose proof (so_retry _ _ K). destruct op as [port|k|k|k|k output|k| | |host remote]; cbn [android_step asks].
  - by apply (check_kept last).
  - unfold guard_acts, alarm_rings. destruct (mget k (gd_checks (an_guard d))) as [c|] eqn:Hk; [by apply (failed_kept last)|].
    destruct d. by apply (same_kept last).
  - unfold guard_acts, adb_connected. destruct (mget k (gd_checks (an_guard d))) as [[port started []]|] eqn:Hk; try (destruct d; by apply (same_kept last)).
    apply (staged_kept last now k port started Connecting); auto.
  - unfold guard_acts, transport_ready. destruct (mget k (gd_checks (an_guard d))) as [[port started []]|] eqn:Hk; try (destruct d; by apply (same_kept last)).
    apply (staged_kept last now k port started Transporting); auto.
  - unfold guard_acts, probe_answers. destruct (mget k (gd_checks (an_guard d))) as [[port started []]|] eqn:Hk; try (destruct d; by apply (same_kept last)).
    destruct (timed_out (clean output)).
    + eapply (settled_kept last now k PortSkip _ false); cbn; try done; unfold retryDelayMs in *; lia.
    + case_bool_decide; eapply (settled_kept last now k PortReady _ false); cbn; try done; unfold retryDelayMs in *; lia.
  - unfold guard_acts, probe_fails. destruct (mget k (gd_checks (an_guard d))) as [c|] eqn:Hk; [by apply (failed_kept last)|].
    destruct d. by apply (same_kept last).
  - by apply (disconnect_kept last).
  - destruct K as [S1 S2 S3 S4 S5]. split; cbn; try done; [split; try done; cbn; unfold retryDelayMs in *; lia|by intros ? ?%not_elem_of_nil|by intros ? ? ?%not_elem_of_nil|eauto|by intros ? ? ?%not_elem_of_nil].
  - destruct K as [S1 S2 S3 S4 S5]. split; cbn; try done; [split; try done; cbn; unfold retryDelayMs in *; lia|by intros ? ?%not_elem_of_nil|by intros ? ? ?%not_elem_of_nil|eauto|by intros ? ? ?%not_elem_of_nil].
Qed.

(** The effects of a run as far as the beginnings of checks and errors go. *)
Record paced (start : Z) (es : list (Z * device_effect)) : Prop := {
  pa_first : forall t k q, (t, DBegins k q) ∈ es -> start <= t;
  pa_after : forall l1 t1 p l2 t2 k q, es = l1 ++ (t1, DConnectorError p) :: l2 -> (t2, DBegins k q) ∈ l2 -> t1 + retryDelayMs <= t2
}.

Lemma elem_stamped (now : Z) (es : list device_effect) (t : Z) (e : device_effect) : (t, e) ∈ List.map (pair now) es <-> t = now /\ e ∈ es.
Proof.
  rewrite list_elem_of_In, in_map_iff. split; [intros (x & [= <- <-] & H%list_elem_of_In); done|]. intros [-> H%list_elem_of_In]. eauto.
Qed.

Lemma paced_step start start' (now : Z) (es : list device_effect) es' : start <= start' ->
  (forall k q, DBegins k q ∈ es -> start <= now) ->
  (forall p, DConnectorError p ∈ es -> now + retryDelayMs <= start' /\ forall k q, DBegins k q ∉ es) ->
  paced start' es' -> paced start (List.map (pair now) es ++ es').
Proof.
  intros Hs Hp He [P1 P2]. split.
  - intros t k q [[-> Hin]%elem_stamped|Hin]%elem_of_app; [by apply (Hp k q)|]. specialize (P1 t k q Hin). lia.
  - intros l1 t1 p l2 t2 k q Heq Hin. apply app_eq_app in Heq as (m & [[H1 H2]|[H1 H2]]).
    + destruct m as [|x m]; cbn in H2.
      * rewrite app_nil_r in H1. subst l1. by apply (P2 [] t1 p l2 t2 k q).
      * injection H2 as <- ->. assert ((t1, DConnectorError p) ∈ List.map (pair now) es) as [-> He1]%elem_stamped
          by (rewrite H1; apply elem_of_app; right; left).
        destruct (He p He1) as [Hle Hno]. apply elem_of_app in Hin as [Hin|Hin]; [|specialize (P1 t2 k q Hin); lia].
        exfalso. assert ((t2, DBegins k q) ∈ List.map (pair now) es) as [_ ?]%elem_stamped by (rewrite H1; apply elem_of_app; right; right; done). by apply (Hno k q).
    + subst es'. by apply (P2 m t1 p l2 t2 k q).
Qed.

Definition stamped_answers (es : list (Z * device_effect)) : nat := List.length (List.filter (fun p => is_answer p.2) es).
Definition asked (ops : list (Z * android_op)) : nat := List.length (List.filter (fun p => match p.2 with ACheck _ => true | _ => false end) ops).

Lemma run_paced ops : forall last d, sound last d -> clock last ops = true ->
  let '(es, d') := android_run ops d in
  paced (gd_retryAt (an_guard d)) es /\ (stamped_answers es + List.length (an_waits d') = asked ops + List.length (an_waits d))%nat /\
  exists last', sound last' d'.
Proof.
  induction ops as [|[now op] ops IH]; intros last d K Hc; cbn [android_run].
  - split; [|split; [done|eauto]]. split; [by intros ? ? ? ?%not_elem_of_nil|]. intros [|? ?]; done.
  - cbn in Hc. apply andb_prop in Hc as [Hle%Z.leb_le Hc]. pose proof (step_kept last now op d K Hle) as [H1 H2 H3 H4 H5].
    destruct (android_step now op d) as [e1 d1]. cbn [fst snd] in *. specialize (IH now d1 H1 Hc).
    destruct (android_run ops d1) as [e2 d2]. destruct IH as (I1 & I2 & I3). split; [by apply (paced_step _ (gd_retryAt (an_guard d1)))|]. split; [|done].
    unfold stamped_answers, asked in *. rewrite List.filter_app, List.length_app.
    assert (List.length (List.filter (fun p => is_answer p.2) (List.map (pair now) e1)) = answers e1) as -> by (unfold answers; clear; induction e1 as [|[] e1 IH]; cbn; auto).
    destruct op; cbn [List.filter snd asks List.length] in *; lia.
Qed.

Lemma run_times ops : forall last d, clock last ops = true -> forall t e, (t, e) ∈ (android_run ops d).1 -> last <= t.
Proof.
  induction ops as [|[now op] ops IH]; intros last d Hc t e; cbn [android_run]; [by intros ?%not_elem_of_nil|].
  cbn in Hc. apply andb_prop in Hc as [Hle%Z.leb_le Hc]. destruct (android_step now op d) as [e1 d1]. specialize (IH now d1 Hc).
  destruct (android_run ops d1) as [e2 d2]. cbn [fst] in *. intros [[-> _]%elem_stamped|Hin]%elem_of_app; [done|]. specialize (IH t e Hin). lia.
Qed.

(** A command belongs to a check that was under way before the run or has begun
    in it. *)
Lemma run_commands ops : forall last d, sound last d -> clock last ops = true ->
  forall t k q, (t, DCommand k q) ∈ (android_run ops d).1 ->
  (exists t0, (t0, DBegins k q) ∈ (android_run ops d).1 /\ t0 <= t) \/ exists c, mget k (gd_checks (an_guard d)) = Some c /\ ck_port c = q.
Proof.
  induction ops as [|[now op] ops IH]; intros last d K Hc t k q; cbn [android_run]; [by intros ?%not_elem_of_nil|].
  cbn in Hc. apply andb_prop in Hc as [Hle%Z.leb_le Hc]. pose proof (step_kept last now op d K Hle) as [H1 _ _ _ H5 H6 _].
  pose proof (run_times ops now (android_step now op d).2 Hc) as Ht.
  destruct (android_step now op d) as [e1 d1]. cbn [fst snd] in *. specialize (IH now d1 H1 Hc t k q).
  destruct (android_run ops d1) as [e2 d2]. cbn [fst] in *. intros [[-> Hin]%elem_stamped|Hin]%elem_of_app; [right; by apply H6|].
  destruct (IH Hin) as [(t0 & Hb & H0)|(c & Hk & Hq)].
  - left. exists t0. split; [apply elem_of_app; by right|done].
  - destruct (H5 k c Hk) as [(c0 & X & Y)|Hb]; [right; exists c0; split; [done|congruence]|]. left. exists now. split; [|by apply (Ht t (DCommand k q))].
    apply elem_of_app. left. apply elem_stamped. by rewrite <- Hq.
Qed.

(** C30: A device that does not respond is left alone.  Whatever commands answer
    and however checks overlap, after an error about an unresponsive adb no check
    of a port begins for five seconds, and a command that is still sent to the
    device within that time belongs to a check that had begun before the error
    and was waiting for its connection; every check of a port is answered once or
    is still under way, and its alarm answers it. *)
Theorem adb_health_backoff ops : clock 0 ops = true ->
  let '(es, d) := android_run ops new_android in
  (forall l1 t1 p l2 t2 k q, es = l1 ++ (t1, DConnectorError p) :: l2 -> (t2, DBegins k q) ∈ l2 -> t1 + retryDelayMs <= t2) /\
  (forall l1 t1 p l2 t2 k q, es = l1 ++ (t1, DConnectorError p) :: l2 -> (t2, DCommand k q) ∈ l2 ->
     t1 + retryDelayMs <= t2 \/ exists t0, (t0, DBegins k q) ∈ l1 /\ t0 <= t2) /\
  (stamped_answers es + List.length (an_waits d) = asked ops)%nat /\
  (forall now k, is_Some (mget k (an_waits d)) -> mget k (an_waits (android_step now (AAlarm k) d).2) = None).
Proof.
  intros Hc. assert (sound 0 new_android) as K0 by (split; cbn; try done; [by intros k [? ?]|apply NoDup_nil_2|by intros k [? ?]]).
  pose proof (run_paced ops 0 new_android K0 Hc) as R. pose proof (run_commands ops 0 new_android K0 Hc) as C.
  destruct (android_run ops new_android) as [es d]. destruct R as (P & N & last & K). cbn [fst] in C.
  split; [apply P|]. split; [|split; [cbn in N; lia|]].
  { intros l1 t1 p l2 t2 k q E Hin. destruct (C t2 k q) as [(t0 & Hb & Hle)|(c & Hk & _)]; [rewrite E; apply elem_of_app; right; by right| |done].
    rewrite E in Hb. apply elem_of_app in Hb as [Hb|[?|Hb]%elem_of_cons]; [eauto|congruence|].
    left. pose proof (pa_after _ _ P l1 t1 p l2 t0 k q E Hb). lia. }
  intros now k Hk. destruct (so_waits _ _ K k Hk) as [c Hc']. cbn [android_step]. unfold guard_acts, alarm_rings.
  rewrite Hc'. unfold markUnresponsive. destruct (gd_closed (an_guard d)).
  - change ([] ++ [GAnswer k PortPause]) with ((if false then [GUnresponsive 0] else []) ++ [GAnswer k PortPause]). rewrite answer_effects. cbn.
    rewrite mget_mdel. by rewrite decide_True.
  - change ([GUnresponsive (ck_port c)] ++ [GAnswer k PortPause]) with ((if true then [GUnresponsive (ck_port c)] else []) ++ [GAnswer k PortPause]).
    rewrite answer_effects. cbn. rewrite mget_mdel. by rewrite decide_True.
Qed.

(** A port freezes while another check waits for its transport, whose command is
    sent after the error; the port is tried again after the delay. *)
Definition frozen_port : list (Z * android_op) :=
  [(0, AForwarded 10001 8901); (10, ACheck 10001); (11, AConnected 0); (12, ATransported 0); (20, ACheck 10001); (21, AConnected 1);
   (5010, AAlarm 0); (5011, ATransported 1); (6000, ACheck 10001); (6001, AOutput 1 (js "")); (10010, ACheck 10001); (10011, AConnected 2);
   (10012, ATransported 2); (10020, AOutput 2 (js ""))].

Lemma adb_health_backoff_witness :
  List.map snd (android_run frozen_port new_android).1 =
    [DBegins 0 8901; DTransport 0; DCommand 0 8901; DBegins 1 8901; DTransport 1; DConnectorError 8901; DChecked 10001 PortPause; DCommand 1 8901;
     DChecked 10001 PortPause; DChecked 10001 PortReady; DBegins 2 8901; DTransport 2; DCommand 2 8901; DChecked 10001 PortReady] /\
  let '(es, d) := android_run frozen_port new_android in (stamped_answers es + List.length (an_waits d) = asked frozen_port)%nat.
Proof.
  split; [vm_compute; reflexivity|]. pose proof (adb_health_backoff frozen_port ltac:(vm_compute; reflexivity)) as H.
  destruct (android_run frozen_port new_android) as [es d]. destruct H as (_ & _ & H & _). exact H.
Defined.

(** ** A disconnected device *)

Definition off (d : AndroidDevice) : Prop := an_connected d = false /\ gd_closed (an_guard d) = true.

Definition paused (e : device_effect) : Prop :=
  match e with DChecked _ r => r = PortPause | DTransport _ | DCommand _ _ => True | DBegins _ _ | DConnectorError _ => False end.

Lemma verdict_off k r d : an_connected d = false -> Forall paused (verdict k r d).
Proof. intros Hd. unfold verdict. rewrite Hd. destruct (mget k (an_waits d)) as [[p q]|]; by repeat constructor. Qed.

Lemma answer_off k r d : off d -> Forall paused (guard_effects [GAnswer k r] d).1 /\ off (guard_effects [GAnswer k r] d).2.
Proof.
  intros [Hc Hg]. change [GAnswer k r] with ((if false then [GUnresponsive 0] else []) ++ [GAnswer k r]). rewrite answer_effects.
  split; [by apply verdict_off|done].
Qed.

Lemma step_off now op d : off d -> Forall paused (android_step now op d).1 /\ off (android_step now op d).2.
Proof.
  intros Hd. pose proof Hd as [Hc Hg]. destruct op as [port|k|k|k|k output|k| | |host remote]; cbn [android_step].
  - unfold checkClientPort. rewrite Hc. split; [by repeat constructor|done].
  - unfold guard_acts, alarm_rings. destruct (mget k _); [|by destruct d]. unfold markUnresponsive. rewrite Hg. by apply answer_off.
  - unfold guard_acts, adb_connected. destruct (mget k _) as [[port started []]|]; try (by destruct d). by split; [repeat constructor|].
  - unfold guard_acts, transport_ready. destruct (mget k _) as [[port started []]|]; try (by destruct d). by split; [repeat constructor|].
  - unfold guard_acts, probe_answers. destruct (mget k _) as [[port started []]|]; try (by destruct d).
    destruct (timed_out _); [by apply answer_off|]. case_bool_decide; by apply answer_off.
  - unfold guard_acts, probe_fails. destruct (mget k _); [|by destruct d]. unfold markUnresponsive. rewrite Hg. by apply answer_off.
  - unfold disconnect_android, close_guard. cbn [gd_abort]. destruct (gd_abort _); [by apply answer_off|by split].
  - by split.
  - by split.
Qed.

Lemma run_off ops : forall d, off d -> Forall paused (List.map snd (android_run ops d).1) /\ off (android_run ops d).2.
Proof.
  induction ops as [|[now op] ops IH]; intros d Hd; [by split|]. cbn [android_run]. pose proof (step_off now op d Hd) as [S1 S2].
  destruct (android_step now op d) as [e1 d1]. specialize (IH d1 S2). destruct (android_run ops d1) as [e2 d2]. cbn [fst snd] in *. split; [|apply IH].
  rewrite List.map_app, List.map_map, List.map_id. apply Forall_app. split; [done|apply IH].
Qed.

(** A disconnected device is never connected to.  Once a device has been
    disconnected, each check of a port answers that the watcher should pause,
    also the checks that were under way and whatever ports are forwarded
    afterwards; no check begins and no error is reported any more.  (The steps of
    a check that was under way beside the one that is aborted may still go on.) *)
Theorem disconnected_device_pauses ops later :
  let '(_, d) := android_run ops new_android in
  let '(e0, d0) := disconnect_android d in
  let '(es, d') := android_run later d0 in
  Forall paused (e0 ++ List.map snd es) /\ an_connected d' = false.
Proof.
  destruct (android_run ops new_android) as [es0 d].
  assert (Forall paused (disconnect_android d).1 /\ off (disconnect_android d).2) as [H1 H2].
  { unfold disconnect_android, close_guard. cbn [gd_abort]. destruct (gd_abort _); [by apply answer_off|by split]. }
  destruct (disconnect_android d) as [e0 d0]. destruct (run_off later d0 H2) as [H3 H4]. destruct (android_run later d0) as [es d'].
  split; [by apply Forall_app|apply H4].
Qed.
