(* ===== verification/Hdc.v ===== *)
(** * The hdc protocol

    Models the client of the hdc server that drives Harmony devices
    ([utils/hdc]): the framing of commands ([command.ts]), the reader of answers
    ([parser.ts]) on a Node stream, the handshake ([connection.ts]), the texts of
    the commands and of their answers ([command/host], [command/host-serial]) and
    the error handling of [TargetClient.ts].

    [localeCompare] depends on the locale data of the runtime and is a
    parameter. *)

From Stdlib Require Import String.
From stdpp Require Import strings.
From S2P Require Import JsValue Json Transport Ownership Trace HdcTracker.

(** ** Frames *)

(** [Buffer.from(s, "ascii")]. *)
Definition ascii_encode (s : jstr) : list Z := List.map (fun c => c mod 256) s.

Definition encodeData (data : list Z) : list Z := be32 (zlen data) ++ data.

(** ** The reader *)

(** A socket: the bytes that have arrived and not been read, and whether the
    other side has ended it. *)
Record Stream := mkStream { st_buffer : list Z; st_ended : bool }.

(** [stream.read(n)] of Node for [n > 0]: all of [n] bytes or, when no more can
    arrive, what is left. *)
Definition stream_read (n : Z) (s : Stream) : option (list Z) * Stream :=
  if n <=? zlen (st_buffer s) then (Some (take (Z.to_nat n) (st_buffer s)), mkStream (drop (Z.to_nat n) (st_buffer s)) (st_ended s))
  else if st_ended s && bool_decide (st_buffer s <> []) then (Some (st_buffer s), mkStream [] (st_ended s))
  else (None, s).

(** [tryRead]: [inl] the number of bytes still awaited. *)
Definition tryRead (ended : bool) (howMany : Z) (s : Stream) : (Z + option (list Z)) * Stream :=
  if howMany =? 0 then (inr (Some []), s)
  else
    let '(chunk, s) := stream_read howMany s in
    let howMany := match chunk with Some c => howMany - zlen c | None => howMany end in
    match chunk with
    | Some c => if howMany =? 0 then (inr (Some c), s) else if ended then (inr None, s) else (inl howMany, s)
    | None => if ended then (inr None, s) else (inl howMany, s)
    end.

(** [readValue]: the promises it awaits, or how it was settled. *)
Inductive reading_state :=
  | ReadLength (howMany : Z)
  | ReadBody (howMany : Z)
  | ReadDone (value : list Z)
  | ReadFailed.

#[export] Instance reading_eq_dec : EqDecision reading_state.
Proof. solve_decision. Defined.

Record Reader := mkReader { rd_stream : Stream; rd_ended : bool; rd_state : reading_state }.

#[export] Instance eta_reader : Eta Reader := fun r => mkReader (rd_stream r) (rd_ended r) (rd_state r).

Definition read_body (n : Z) (r : Reader) : Reader :=
  match tryRead (rd_ended r) n (rd_stream r) with
  | (inl n, s) => mkReader s (rd_ended r) (ReadBody n)
  | (inr (Some v), s) => mkReader s (rd_ended r) (ReadDone v)
  | (inr None, s) => mkReader s (rd_ended r) ReadFailed
  end.

Definition read_length (n : Z) (r : Reader) : Reader :=
  match tryRead (rd_ended r) n (rd_stream r) with
  | (inl n, s) => mkReader s (rd_ended r) (ReadLength n)
  | (inr (Some v), s) => read_body (be32_value v) (mkReader s (rd_ended r) (ReadLength 0))
  | (inr None, s) => mkReader s (rd_ended r) ReadFailed
  end.

Definition readValue (r : Reader) : Reader := read_length 4 r.

Definition on_readable (r : Reader) : Reader :=
  match rd_state r with
  | ReadLength n => read_length n r
  | ReadBody n => read_body n r
  | ReadDone _ | ReadFailed => r
  end.

(** [endListener], [timeoutListener] and [errorListener]. *)
Definition reading_fails (r : Reader) : Reader :=
  match rd_state r with ReadLength _ | ReadBody _ => r <| rd_state := ReadFailed |> | _ => r end.

Definition on_end (r : Reader) : Reader := reading_fails (r <| rd_ended := true |>).

(** What happens on the socket: bytes arrive, the other side ends it (Node tells
    that it is readable and, once all has been read, that it has ended), or it
    breaks. *)
Inductive socket_event := SData (bytes : list Z) | SEnd | SError.

Definition reader_step (r : Reader) (e : socket_event) : Reader :=
  match e with
  | SData bytes => on_readable (r <| rd_stream := mkStream (st_buffer (rd_stream r) ++ bytes) (st_ended (rd_stream r)) |>)
  | SEnd =>
      let r := on_readable (r <| rd_stream := mkStream (st_buffer (rd_stream r)) true |>) in
      if bool_decide (st_buffer (rd_stream r) = []) then on_end r else r
  | SError => reading_fails r
  end.

Definition new_reader : Reader := mkReader (mkStream [] false) false (ReadLength 4).

(** ** Commands and their answers *)

(** [s.includes(p)]. *)
Fixpoint includes (s p : jstr) : bool := startsWith s p || match s with [] => false | _ :: s => includes s p end.

(** [s.replace(c, "")] with a character: the first one goes. *)
Fixpoint remove_first (c : Z) (s : jstr) : jstr :=
  match s with [] => [] | d :: s => if d =? c then s else d :: remove_first c s end.

(** [s.split(/\s+/).filter(Boolean)]. *)
Fixpoint split_spaces (s : jstr) : list jstr :=
  match s with
  | [] => [[]]
  | c :: s =>
      if is_js_space c then [] :: split_spaces s
      else match split_spaces s with [] => [[c]] | x :: xs => (c :: x) :: xs end
  end.

Definition nonempty (l : list jstr) : list jstr := List.filter truthy_str l.

(** A rule that forwards a port; [fw_local] is missing when the line is blank. *)
Record Forward := mkForward { fw_connectKey : jstr; fw_local : option jstr; fw_remote : jstr }.

#[export] Instance forward_eq_dec : EqDecision Forward.
Proof. solve_decision. Defined.

Definition forward_command (local remote : jstr) : list Z := ascii_encode (js "fport " ++ local ++ js " " ++ remote).
Definition list_command : list Z := ascii_encode (js "fport ls").
Definition remove_command (local remote : jstr) : list Z := ascii_encode (js "fport rm " ++ local ++ js " " ++ remote).

Definition forwarded_ok (value : list Z) : bool := includes (ascii_decode value) (js "Forwardport result:OK").
Definition removed_ok (value : list Z) : bool := includes (ascii_decode value) (js "Remove forward ruler success").

Definition parse_forward (line : jstr) : Forward :=
  let parts := nonempty (split_spaces (trim line)) in
  let '(connectKey, taskInfo) :=
    match parts with
    | a :: b :: c :: _ =>
        if includes b (js ":") && includes c (js ":") then (a, b ++ js " " ++ c)
        else if includes b (js ":") then (a, b) else ([], a)
    | [a; b] => if includes b (js ":") then (a, b) else ([], a)
    | [a] => ([], a)
    | [] => ([], [])
    end in
  let fields := nonempty (split_at 32 (remove_first 39 taskInfo)) in
  mkForward connectKey (fields !! 0%nat) (default [] (fields !! 1%nat)).

(** [None] is the exception of a line that reports a failure. *)
Definition parse_forwards (value : list Z) : option (list Forward) :=
  let lines := nonempty (split_at 10 (ascii_decode value)) in
  if existsb (fun line => startsWith line (js "[Fail]")) lines then None else Some (List.map parse_forward lines).

(** The methods of [TargetClient], given the bytes of the answer; [None] is a
    connection or a read that failed. *)
Definition target_forward (value : option (list Z)) : bool := match value with Some v => forwarded_ok v | None => false end.
Definition target_listForwards (value : option (list Z)) : list Forward := default [] (value ≫= parse_forwards).
Definition target_removeForward (value : option (list Z)) : bool := match value with Some v => removed_ok v | None => false end.

(** ** The handshake *)

Section Handshake.
Variable localeCompare : jstr -> jstr -> Z.

Definition HandShakeBannerSize : Z := 12.
Definition HandShakeConnectKeySize : Z := 32.

(** [buffer.write(text, offset, "ascii")]: what does not fit is left out. *)
Definition write_ascii (text : jstr) (offset : nat) (buffer : list Z) : list Z :=
  let bytes := take (List.length buffer - offset) (ascii_encode text) in
  take offset buffer ++ bytes ++ drop (offset + List.length bytes) buffer.

Definition handshake_response (banner connectKey : jstr) : list Z :=
  let response := be32 (HandShakeBannerSize + HandShakeConnectKeySize) ++ repeat 0 44 in
  let response := write_ascii banner 4 response in
  if truthy_str connectKey && (zlen connectKey <=? HandShakeConnectKeySize) then write_ascii connectKey 16 response else response.

Inductive handshake_result := HsLengthError | HsBannerError | HsRangeError | HsOk.
#[export] Instance handshake_result_eq_dec : EqDecision handshake_result.
Proof. solve_decision. Defined.

(** What [connect] does once the message of the server has been read: how its
    promise is settled and what is written, if anything.  The checks reject and
    do not return, so a response may follow a rejection. *)
Definition handshake (connectKey : jstr) (data : list Z) : handshake_result * option (list Z) :=
  let banner := ascii_decode (take (Z.to_nat (HandShakeBannerSize - 1)) data) in
  let rejected :=
    if zlen data <? HandShakeBannerSize + HandShakeConnectKeySize then Some HsLengthError
    else if negb (localeCompare banner (js "OHOS HDC") =? 0) then Some HsBannerError else None in
  if zlen data <? HandShakeBannerSize - 1 + 4 then (default HsRangeError rejected, None)
  else (default HsOk rejected, Some (handshake_response banner connectKey)).
End Handshake.

(** ** What a reader answers *)

(** The value that the bytes of a socket begin with, if all of it is there. *)
Definition value_of (bytes : list Z) : option (list Z) :=
  let n := be32_value bytes in
  if (zlen bytes <? 4) || (zlen bytes <? 4 + n) then None else Some (take (Z.to_nat n) (drop 4 bytes)).

Definition answer_of (r : Reader) : option (list Z) := match rd_state r with ReadDone v => Some v | _ => None end.

(** The reader after some bytes, however they were cut. *)
Definition reader_of (bytes : list Z) : Reader :=
  if zlen bytes <? 4 then mkReader (mkStream bytes false) false (ReadLength 4)
  else
    let n := be32_value bytes in
    if zlen bytes <? 4 + n then mkReader (mkStream (drop 4 bytes) false) false (ReadBody n)
    else mkReader (mkStream (drop (4 + Z.to_nat n) bytes) false) false (ReadDone (take (Z.to_nat n) (drop 4 bytes))).

Lemma be32_value_nonneg l : 0 <= be32_value l.
Proof. do 4 (destruct l as [|? l]; [done|]). cbn [be32_value]. pose proof (fun a => Z.mod_pos_bound a 256 eq_refl) as B. pose proof (B z). pose proof (B z0). pose proof (B z1). pose proof (B z2). lia. Qed.

Lemma be32_value_take l r : 4 <= zlen l -> be32_value (l ++ r) = be32_value l.
Proof. unfold zlen. do 4 (destruct l as [|? l]; [cbn; lia|]). done. Qed.

Lemma zlen_drop {A} n (l : list A) : 0 <= n <= zlen l -> zlen (drop (Z.to_nat n) l) = zlen l - n.
Proof. unfold zlen. rewrite length_drop. lia. Qed.

Lemma zlen_take {A} n (l : list A) : 0 <= n <= zlen l -> zlen (take (Z.to_nat n) l) = n.
Proof. unfold zlen. rewrite length_take. lia. Qed.

(** Bytes that are still to be read, on a socket that has not ended. *)
Lemma tryRead_waits n b : zlen b < n -> tryRead false n (mkStream b false) = (inl n, mkStream b false).
Proof.
  intros H. unfold tryRead, stream_read. cbn [st_buffer st_ended andb]. pose proof (Zle_0_nat (List.length b)). unfold zlen in *.
  rewrite (proj2 (Z.eqb_neq n 0)) by lia. by rewrite (proj2 (Z.leb_gt _ _)) by lia.
Qed.

Lemma tryRead_takes e n b : 0 <= n <= zlen b -> tryRead false n (mkStream b e) = (inr (Some (take (Z.to_nat n) b)), mkStream (drop (Z.to_nat n) b) e).
Proof.
  intros H. unfold tryRead, stream_read. cbn [st_buffer st_ended]. destruct (Z.eqb_spec n 0) as [->|Hn]; [done|].
  rewrite (proj2 (Z.leb_le _ _)) by lia. cbv zeta. rewrite zlen_take by lia. by rewrite Z.sub_diag.
Qed.

Lemma read_length_of bs e :
  read_length 4 (mkReader (mkStream bs false) false e) = reader_of bs.
Proof.
  unfold read_length, reader_of, read_body. cbn [rd_ended rd_stream]. destruct (Z.ltb_spec (zlen bs) 4).
  - by rewrite tryRead_waits by lia.
  - rewrite tryRead_takes by lia. cbn [rd_ended rd_stream]. change (Z.to_nat 4) with 4%nat.
    assert (be32_value (take 4 bs) = be32_value bs) as ->.
    { rewrite <- (take_drop 4 bs) at 2. rewrite be32_value_take; [done|]. rewrite (zlen_take 4) by lia. lia. }
    pose proof (be32_value_nonneg bs). pose proof (zlen_drop 4 bs ltac:(lia)) as Hd. change (Z.to_nat 4) with 4%nat in Hd.
    destruct (Z.ltb_spec (zlen bs) (4 + be32_value bs)).
    + by rewrite tryRead_waits by lia.
    + rewrite tryRead_takes by lia. by rewrite drop_drop.
Qed.

Lemma read_body_of bs e : 4 <= zlen bs -> read_body (be32_value bs) (mkReader (mkStream (drop 4 bs) false) false e) = reader_of bs.
Proof.
  intros H4. unfold reader_of, read_body. cbn [rd_ended rd_stream]. rewrite (proj2 (Z.ltb_ge (zlen bs) 4)) by lia.
  pose proof (be32_value_nonneg bs). pose proof (zlen_drop 4 bs ltac:(lia)) as Hd. change (Z.to_nat 4) with 4%nat in Hd.
  destruct (Z.ltb_spec (zlen bs) (4 + be32_value bs)).
  - by rewrite tryRead_waits by lia.
  - rewrite tryRead_takes by lia. by rewrite drop_drop.
Qed.

Lemma data_step bs c : reader_step (reader_of bs) (SData c) = reader_of (bs ++ c).
Proof.
  pose proof (be32_value_nonneg bs) as Hn. pose proof (Zle_0_nat (List.length c)) as Hc. fold (zlen c) in Hc.
  unfold reader_of at 1. destruct (Z.ltb_spec (zlen bs) 4) as [H4|H4]; [apply read_length_of|].
  assert (drop 4 bs ++ c = drop 4 (bs ++ c)) as Hd by (rewrite drop_app_le; [done|unfold zlen in *; lia]).
  destruct (Z.ltb_spec (zlen bs) (4 + be32_value bs)) as [Hw|Hw].
  - unfold reader_step, on_readable. cbn [rd_state rd_stream st_buffer set_field eta eta_reader]. cbn. rewrite Hd.
    rewrite <- (be32_value_take bs c) by lia. apply read_body_of. rewrite zlen_app. lia.
  - cbn. unfold reader_of. rewrite zlen_app, be32_value_take by lia. rewrite !(proj2 (Z.ltb_ge _ _)) by lia.
    unfold zlen in *. rewrite !drop_app_le by lia. rewrite take_app_le; [done|]. rewrite length_drop. lia.
Qed.

Lemma data_steps cs bs : fold_left reader_step (List.map SData cs) (reader_of bs) = reader_of (bs ++ concat cs).
Proof.
  revert bs. induction cs as [|c cs IH]; intros bs; cbn [List.map fold_left concat]; [by rewrite app_nil_r|]. by rewrite data_step, IH, <- app_assoc.
Qed.

Lemma reader_of_answer bs : answer_of (reader_of bs) = value_of bs.
Proof. unfold reader_of, value_of. destruct (zlen bs <? 4); [done|]. by destruct (zlen bs <? _). Qed.

(** Too few bytes on a socket that has ended: they are dropped. *)
Lemma tryRead_short n b : zlen b < n -> exists k, tryRead false n (mkStream b true) = (inl k, mkStream [] true).
Proof.
  intros H. unfold tryRead, stream_read. cbn [st_buffer st_ended andb]. pose proof (Zle_0_nat (List.length b)) as Hb. fold (zlen b) in Hb.
  rewrite (proj2 (Z.eqb_neq n 0)), (proj2 (Z.leb_gt _ _)) by lia. destruct (bool_decide_reflect (b <> [])) as [Hne|Hne].
  - rewrite (proj2 (Z.eqb_neq _ 0)) by lia. eauto.
  - destruct b; [eauto|by destruct Hne].
Qed.

#[local] Arguments tryRead : simpl never.

Lemma end_step bs : rd_state (reader_step (reader_of bs) SEnd) = match value_of bs with Some v => ReadDone v | None => ReadFailed end.
Proof.
  unfold reader_of, value_of. pose proof (be32_value_nonneg bs). destruct (Z.ltb_spec (zlen bs) 4) as [H4|H4]; cbn [orb].
  - destruct (tryRead_short 4 bs H4) as [k E]. cbn. unfold read_length. cbn. by rewrite E.
  - destruct (Z.ltb_spec (zlen bs) (4 + be32_value bs)) as [Hw|Hw].
    + pose proof (zlen_drop 4 bs ltac:(lia)) as Hd. change (Z.to_nat 4) with 4%nat in Hd.
      destruct (tryRead_short (be32_value bs) (drop 4 bs) ltac:(lia)) as [k E]. cbn. unfold read_body. cbn. by rewrite E.
    + cbn. by case_bool_decide.
Qed.

Lemma encoded_value data rest : zlen data < 2 ^ 32 -> value_of (encodeData data ++ rest) = Some data.
Proof.
  intros H. unfold value_of, encodeData. rewrite <- app_assoc. pose proof (Zle_0_nat (List.length data)) as Hd. fold (zlen data) in Hd.
  rewrite be32_value_be32 by lia. rewrite !zlen_app. change (zlen (be32 _)) with 4. pose proof (Zle_0_nat (List.length rest)) as Hr. fold (zlen rest) in Hr.
  rewrite !(proj2 (Z.ltb_ge _ _)) by lia. cbn [orb]. change (drop 4 (be32 ?n ++ ?l)) with l. unfold zlen. rewrite Nat2Z.id. by rewrite take_app_length.
Qed.

(** However the bytes of an hdc server are cut into chunks, the reader of
    the client answers with the value they begin with as soon as all of it has
    arrived, and not before; it keeps the answer when the socket ends or breaks,
    and fails then when the value is not complete.  What a command is framed as
    is such a value. *)
Theorem hdc_value_reassembled (cs : list (list Z)) :
  let r := fold_left reader_step (List.map SData cs) new_reader in
  let ending := match value_of (concat cs) with Some v => ReadDone v | None => ReadFailed end in
  answer_of r = value_of (concat cs) /\ rd_state (reader_step r SEnd) = ending /\ rd_state (reader_step r SError) = ending /\
  forall data rest, zlen data < 2 ^ 32 -> concat cs = encodeData data ++ rest -> rd_state r = ReadDone data.
Proof.
  cbv zeta. change new_reader with (reader_of []). rewrite data_steps. cbn [app]. split_and!.
  - apply reader_of_answer.
  - apply end_step.
  - unfold reader_step, reading_fails. pose proof (reader_of_answer (concat cs)) as <-. unfold answer_of. by destruct (rd_state (reader_of (concat cs))) eqn:E; cbn; rewrite ?E.
  - intros data rest Hd ->. pose proof (reader_of_answer (encodeData data ++ rest)) as E. rewrite encoded_value in E by done.
    unfold answer_of in E. by destruct (rd_state _); [| |injection E as ->|].
Qed.

(** The response to a handshake is 48 bytes, whatever the server sent; a key
    that is too long is left out of it. *)
Lemma write_ascii_length text offset buffer : (offset <= List.length buffer)%nat -> List.length (write_ascii text offset buffer) = List.length buffer.
Proof. intros H. unfold write_ascii. rewrite !length_app, length_drop, !length_take. lia. Qed.

Lemma handshake_response_length banner key : List.length (handshake_response banner key) = 48%nat.
Proof. unfold handshake_response. destruct (_ && _); repeat rewrite write_ascii_length; cbn [List.length app repeat be32]; lia. Qed.

(** A message of 15 to 43 bytes is answered although the connection was refused. *)
Lemma refused_and_answered localeCompare key data : 15 <= zlen data < 44 ->
  exists response, handshake localeCompare key data = (HsLengthError, Some response).
Proof.
  intros [H1 H2]. unfold handshake, HandShakeBannerSize, HandShakeConnectKeySize.
  rewrite (proj2 (Z.ltb_lt (zlen data) (12 + 32))), (proj2 (Z.ltb_ge (zlen data) (12 - 1 + 4))) by lia. cbn. eauto.
Qed.

Lemma hdc_value_reassembled_example :
  let r := fold_left reader_step (List.map SData [[0; 0]; [0; 2; 104]; [105; 7]]) new_reader in
  rd_state r = ReadDone (ascii_encode (js "hi")) /\ zlen (ascii_encode (js "hi")) < 2 ^ 32.
Proof.
  destruct (hdc_value_reassembled [[0; 0]; [0; 2; 104]; [105; 7]]) as (_ & _ & _ & H).
  split; [apply (H (ascii_encode (js "hi")) [7]); reflexivity|reflexivity].
Defined.

Example parsed_rules :
  parse_forwards (ascii_encode (js "MJE0    tcp:18501 tcp:8901    [Forward]" ++ [10])) = Some [mkForward (js "MJE0") (Some (js "tcp:18501")) (js "tcp:8901")].
Proof. reflexivity. Qed.
