(* ===== verification/HdcSession.v ===== *)
(** * A call of an hdc server

    One call of [utils/hdc/client.ts] or [utils/hdc/TargetClient.ts] from the
    socket it opens to its end: the handshake of [utils/hdc/connection.ts], the
    command, its answer ([Hdc]) and what the socket does meanwhile.  A socket has a
    listener for errors only while [readBytes] of [utils/hdc/parser.ts] runs. *)

From Stdlib Require Import String.
From stdpp Require Import strings.
From S2P Require Import JsValue Json Transport Ownership Trace HdcTracker Hdc.

(** ** State *)

(** [connection] and then nothing ([Client.connect]), [kill] or a command. *)
Inductive hdc_request := HrConnect | HrKill | HrCommand (data : list Z).

(** How the promise of [connect] is settled. *)
Inductive hdc_connected := ConnectedOk | Refused (r : handshake_result) | Broken.
#[export] Instance hdc_connected_eq_dec : EqDecision hdc_connected.
Proof. solve_decision. Defined.

(** What the call does: it reads the message of the server, waits for its
    response to be written, reads the answer, or nothing any more. *)
Inductive hdc_phase := ReadsHello | WritesHello | ReadsAnswer | CallOver.
#[export] Instance hdc_phase_eq_dec : EqDecision hdc_phase.
Proof. solve_decision. Defined.

Record Session := mkSession {
  ss_reader : Reader;                        (* [parser], on its [socket] *)
  ss_phase : hdc_phase;
  ss_connected : option hdc_connected;       (* the promise of [connect], settled once *)
  ss_handshakeOK : bool;
  ss_open : bool                             (* the socket has not closed *)
}.

#[export] Instance eta_session : Eta Session := fun s =>
  mkSession (ss_reader s) (ss_phase s) (ss_connected s) (ss_handshakeOK s) (ss_open s).

Inductive hdc_effect :=
  | HWrite (bytes : list Z)
  | HEndSocket
  | HDestroy
  | HSettle (value : option (list Z))        (* the call answers, or fails *)
  | HUncaught.                               (* an "error" nobody listens to *)

Inductive session_event :=
  | OnData (bytes : list Z)
  | OnEnd
  | OnError
  | OnTimeout
  | OnClose
  | OnWritten (failed : bool).               (* the callback of the response *)

(** [connection(connectKey)]: the socket is created and the length awaited. *)
Definition new_session : Session := mkSession new_reader ReadsHello None false true.

(** ** Operations *)

Section Session.
Variable localeCompare : jstr -> jstr -> Z.
Variable connectKey : jstr.
Variable request : hdc_request.

(** The promise of [connect] is settled unless it is; with a rejection the call
    has failed. *)
Definition connect_rejects (r : hdc_connected) (s : Session) : list hdc_effect * Session :=
  match ss_connected s with Some _ => ([], s) | None => ([HSettle None], s <| ss_connected := Some r |>) end.

(** The value of a command has been read, or not. *)
Definition answer_read (s : Session) : list hdc_effect * Session :=
  match rd_state (ss_reader s) with
  | ReadDone v => ([HSettle (Some v)], s <| ss_phase := CallOver |>)
  | ReadFailed => ([HSettle None], s <| ss_phase := CallOver |>)
  | ReadLength _ | ReadBody _ => ([], s)
  end.

(** A stream that has ended tells so once all of it has been read. *)
Definition tells_end (r : Reader) : Reader :=
  if st_ended (rd_stream r) && bool_decide (st_buffer (rd_stream r) = []) then on_end r else r.

(** [execute] of the commands, [kill], or just the connection. *)
Definition execute (s : Session) : list hdc_effect * Session :=
  match request with
  | HrConnect => ([HSettle (Some [])], s <| ss_phase := CallOver |>)
  | HrKill => ([HDestroy; HSettle (Some [])], s <| ss_phase := CallOver |> <| ss_open := false |>)
  | HrCommand data =>
      let '(e, s) := answer_read (s <| ss_phase := ReadsAnswer |> <| ss_reader ::= (fun r => tells_end (readValue r)) |>) in
      (HWrite (encodeData data) :: e, s)
  end.

(** [connect] after the reader has moved.  Its checks reject and go on. *)
Definition hello_read (s : Session) : list hdc_effect * Session :=
  match rd_state (ss_reader s) with
  | ReadLength _ => ([], s)
  | ReadBody length =>
      if length <? HandShakeBannerSize + HandShakeConnectKeySize then connect_rejects (Refused HsLengthError) s else ([], s)
  | ReadFailed => let '(e, s) := connect_rejects Broken s in (e, s <| ss_phase := CallOver |>)
  | ReadDone data =>
      let '(result, response) := handshake localeCompare connectKey data in
      let '(e, s) := match result with HsOk => ([], s) | _ => connect_rejects (Refused result) s end in
      match response with
      | Some bytes => (e ++ [HWrite bytes], s <| ss_phase := WritesHello |>)
      | None => (e, s <| ss_phase := CallOver |>)
      end
  end.

(** The callback of [write]. *)
Definition hello_written (failed : bool) (s : Session) : list hdc_effect * Session :=
  if failed then let '(e, s) := connect_rejects Broken s in (e, s <| ss_phase := CallOver |>)
  else
    let s := s <| ss_handshakeOK := true |> in
    match ss_connected s with
    | None => execute (s <| ss_connected := Some ConnectedOk |>)
    | Some _ => ([], s <| ss_phase := CallOver |>)
    end.

Definition reads_on (s : Session) : list hdc_effect * Session :=
  match ss_phase s with
  | ReadsHello => hello_read s
  | ReadsAnswer => answer_read s
  | WritesHello | CallOver => ([], s)
  end.

(** [readBytes] has its listeners on the socket. *)
Definition listens (s : Session) : bool := match ss_phase s with ReadsHello | ReadsAnswer => true | _ => false end.

(** Bytes and the end of the stream are kept for the next read while nobody reads. *)
Definition arrives (e : socket_event) (r : Reader) : Reader :=
  match e with
  | SData bytes => r <| rd_stream := mkStream (st_buffer (rd_stream r) ++ bytes) (st_ended (rd_stream r)) |>
  | SEnd => r <| rd_stream := mkStream (st_buffer (rd_stream r)) true |>
  | SError => r
  end.

(** What the socket tells.  Node closes a socket that was not destroyed after its
    end or an error, and fails the writes of a closed one. *)
Definition session_step (ev : session_event) (s : Session) : list hdc_effect * Session :=
  if negb (ss_open s) then match ev, ss_phase s with OnWritten _, WritesHello => hello_written true s | _, _ => ([], s) end
  else
    match ev with
    | OnData bytes =>
        if listens s then reads_on (s <| ss_reader ::= (fun r => reader_step r (SData bytes)) |>)
        else ([], s <| ss_reader ::= arrives (SData bytes) |>)
    | OnEnd =>
        if listens s then reads_on (s <| ss_reader ::= (fun r => reader_step r SEnd) |>)
        else ([], s <| ss_reader ::= arrives SEnd |>)
    | OnTimeout =>
        if listens s then let '(e, s) := reads_on (s <| ss_reader ::= (fun r => reader_step r SError) |>) in (HEndSocket :: e, s)
        else ([], s)
    | OnError =>
        if listens s then let '(e, s) := reads_on (s <| ss_reader ::= (fun r => reader_step r SError) |>) in (HEndSocket :: e, s <| ss_open := false |>)
        else ([HUncaught], s <| ss_open := false |>)
    | OnClose => ([], if listens s then s else s <| ss_open := false |>)
    | OnWritten failed => match ss_phase s with WritesHello => hello_written failed s | _ => ([], s) end
    end.

Fixpoint session_run (evs : list session_event) (s : Session) : list hdc_effect * Session :=
  match evs with
  | [] => ([], s)
  | ev :: evs' =>
      let '(e1, s) := session_step ev s in
      let '(e2, s) := session_run evs' s in (e1 ++ e2, s)
  end.
End Session.

(** The calls of a client, given what its session settled with. *)
Definition client_connect (value : option (list Z)) : bool := bool_decide (is_Some value).

(** ** A call that is answered *)

(** The session when these bytes have arrived, before and after its response was
    written. *)
Definition greeted (bs : list Z) : Session :=
  mkSession (reader_of bs) (match value_of bs with Some _ => WritesHello | None => ReadsHello end) None false true.
Definition asked (bs : list Z) : Session :=
  mkSession (reader_of bs) (match value_of bs with Some _ => CallOver | None => ReadsAnswer end) (Some ConnectedOk) true true.

(** What is caused when the value is completed. *)
Definition completes (bs bs' : list Z) (e : hdc_effect) : list hdc_effect :=
  match value_of bs, value_of bs' with None, Some _ => [e] | _, _ => [] end.

Lemma hdc_value_of_app bs c v : value_of bs = Some v -> value_of (bs ++ c) = Some v.
Proof.
  unfold value_of. pose proof (be32_value_nonneg bs). destruct (Z.ltb_spec (zlen bs) 4); [done|].
  destruct (Z.ltb_spec (zlen bs) (4 + be32_value bs)); [done|]. cbn [orb]. intros [= <-].
  pose proof (Zle_0_nat (List.length c)) as Hc. fold (zlen c) in Hc.
  rewrite be32_value_take, zlen_app by lia. rewrite !(proj2 (Z.ltb_ge _ _)) by lia. cbn [orb]. f_equal.
  unfold zlen in *. rewrite drop_app_le by lia. rewrite take_app_le; [done|]. rewrite length_drop. lia.
Qed.

Lemma done_of bs v : value_of bs = Some v -> rd_state (reader_of bs) = ReadDone v.
Proof. rewrite <- reader_of_answer. unfold answer_of. destruct (rd_state (reader_of bs)); [done|done| |done]. by intros [= ->]. Qed.

Lemma waits_of bs : value_of bs = None -> (exists n, rd_state (reader_of bs) = ReadLength n) \/ (4 <= zlen bs /\ rd_state (reader_of bs) = ReadBody (be32_value bs)).
Proof.
  unfold value_of, reader_of. destruct (Z.ltb_spec (zlen bs) 4); [left; by eexists|]. destruct (Z.ltb_spec (zlen bs) (4 + be32_value bs)); [by right|done].
Qed.

Lemma arrives_of bs v c : value_of bs = Some v -> arrives (SData c) (reader_of bs) = reader_of (bs ++ c).
Proof.
  intros Hv. rewrite <- data_step. unfold reader_step, on_readable, arrives. pose proof (done_of bs v Hv) as Hd.
  cbn [rd_state set_field eta eta_reader]. by rewrite Hd.
Qed.

Lemma completes_trans e a b c : completes a (a ++ b) e ++ completes (a ++ b) (a ++ b ++ c) e = completes a (a ++ b ++ c) e.
Proof.
  unfold completes. destruct (value_of a) as [v|] eqn:Ea.
  - by rewrite (hdc_value_of_app a b v Ea).
  - destruct (value_of (a ++ b)) as [v|] eqn:Eb; [|done]. rewrite app_assoc. by rewrite (hdc_value_of_app _ c v Eb).
Qed.

Lemma not_ended bs : st_ended (rd_stream (reader_of bs)) = false.
Proof. unfold reader_of. by repeat case_match. Qed.

Section Answered.
Variable localeCompare : jstr -> jstr -> Z.
Variable connectKey : jstr.
Variable data : list Z.

Abbreviation step := (session_step localeCompare connectKey (HrCommand data)).
Abbreviation run := (session_run localeCompare connectKey (HrCommand data)).

(** Chunks one after the other are as one. *)
Lemma chunks_run F e total :
  (forall bs c more, bs ++ c ++ more = total -> step (OnData c) (F bs) = (completes bs (bs ++ c) e, F (bs ++ c))) ->
  forall cs bs more, bs ++ concat cs ++ more = total ->
  run (List.map OnData cs) (F bs) = (completes bs (bs ++ concat cs) e, F (bs ++ concat cs)).
Proof.
  intros Hs cs. induction cs as [|c cs IH]; intros bs more Ht; cbn [List.map session_run concat].
  - rewrite app_nil_r. unfold completes. by destruct (value_of bs).
  - cbn [concat] in Ht. rewrite <- app_assoc in Ht. rewrite (Hs bs c (concat cs ++ more) Ht).
    rewrite (IH (bs ++ c) more) by (by rewrite <- app_assoc). rewrite <- app_assoc. by rewrite completes_trans.
Qed.

Variable hello answer rest : list Z.
Hypothesis Hhello : 44 <= zlen hello < 2 ^ 32.
Hypothesis Hanswer : zlen answer < 2 ^ 32.
Hypothesis Hbanner : localeCompare (ascii_decode (firstn 11 hello)) (js "OHOS HDC") = 0.

Abbreviation response := (handshake_response (ascii_decode (firstn 11 hello)) connectKey).

Lemma hello_chunk bs c more : bs ++ c ++ more = encodeData hello ++ rest ->
  step (OnData c) (greeted bs) = (completes bs (bs ++ c) (HWrite response), greeted (bs ++ c)).
Proof.
  intros Ht. unfold session_step, greeted, completes. cbn [ss_open negb]. destruct (value_of bs) as [v|] eqn:Ev; cbn [listens ss_phase].
  - cbn [set_field eta eta_session ss_reader]. rewrite (arrives_of bs v c Ev), (hdc_value_of_app bs c v Ev). done.
  - unfold reads_on. cbn [ss_phase set_field eta eta_session ss_reader]. rewrite data_step. unfold hello_read. cbn [ss_reader].
    pose proof (encoded_value hello rest (proj2 Hhello)) as Hv. rewrite <- Ht, app_assoc in Hv.
    destruct (value_of (bs ++ c)) as [v|] eqn:Ev'.
    + rewrite (done_of _ _ Ev'). rewrite (hdc_value_of_app _ more v Ev') in Hv. injection Hv as ->.
      unfold handshake, HandShakeBannerSize, HandShakeConnectKeySize. change (Z.to_nat (12 - 1)) with 11%nat.
      rewrite !(proj2 (Z.ltb_ge _ _)) by lia. change take with (@firstn Z). rewrite Hbanner. done.
    + destruct (waits_of _ Ev') as [[n ->]|[H4 ->]]; [done|].
      assert (be32_value (bs ++ c) = zlen hello) as ->.
      { rewrite <- (be32_value_take _ more H4), <- app_assoc, Ht. unfold encodeData. rewrite <- app_assoc. rewrite be32_value_be32 by lia. done. }
      unfold HandShakeBannerSize, HandShakeConnectKeySize. rewrite (proj2 (Z.ltb_ge _ _)) by lia. done.
Qed.

Lemma answer_chunk bs c more : bs ++ c ++ more = encodeData answer ++ rest ->
  step (OnData c) (asked bs) = (completes bs (bs ++ c) (HSettle (Some answer)), asked (bs ++ c)).
Proof.
  intros Ht. unfold session_step, asked, completes. cbn [ss_open negb]. destruct (value_of bs) as [v|] eqn:Ev; cbn [listens ss_phase].
  - cbn [set_field eta eta_session ss_reader]. rewrite (arrives_of bs v c Ev), (hdc_value_of_app bs c v Ev). done.
  - unfold reads_on. cbn [ss_phase set_field eta eta_session ss_reader]. rewrite data_step. unfold answer_read. cbn [ss_reader].
    pose proof (encoded_value answer rest Hanswer) as Hv. rewrite <- Ht, app_assoc in Hv.
    destruct (value_of (bs ++ c)) as [v|] eqn:Ev'.
    + rewrite (done_of _ _ Ev'). rewrite (hdc_value_of_app _ more v Ev') in Hv. by injection Hv as ->.
    + by destruct (waits_of _ Ev') as [[n ->]|[_ ->]].
Qed.

(** The callback of the response sends the command. *)
Lemma command_sent bs : step (OnWritten false) (greeted (encodeData hello ++ bs)) =
  (HWrite (encodeData data) :: completes [] bs (HSettle (value_of bs)), asked bs).
Proof.
  unfold session_step, greeted. rewrite (encoded_value hello bs (proj2 Hhello)). cbn [ss_open negb ss_phase ss_reader ss_handshakeOK hello_written ss_connected set_field eta eta_session execute].
  unfold readValue. assert (read_length 4 (reader_of (encodeData hello ++ bs)) = reader_of bs) as ->.
  { assert (exists e, reader_of (encodeData hello ++ bs) = mkReader (mkStream bs false) false e) as [e ->]; [|apply read_length_of].
    pose proof (encoded_value hello bs (proj2 Hhello)) as Hv. unfold value_of in Hv. unfold reader_of.
    destruct (zlen _ <? 4); [done|]. destruct (zlen _ <? _); [done|]. eexists. f_equal. f_equal.
    unfold encodeData. rewrite <- app_assoc. rewrite be32_value_be32 by lia. unfold zlen. rewrite Nat2Z.id.
    rewrite <- drop_drop. change (drop 4 (be32 ?n ++ ?l)) with l. by rewrite drop_app_length. }
  unfold tells_end. rewrite not_ended. cbn [andb]. unfold answer_read, asked, completes. cbn [ss_reader]. change (value_of []) with (@None (list Z)).
  destruct (value_of bs) as [v|] eqn:Ev; [by rewrite (done_of _ _ Ev)|]. by destruct (waits_of _ Ev) as [[n ->]|[_ ->]].
Qed.
End Answered.

Lemma session_run_app lc key q a b : forall s, session_run lc key q (a ++ b) s =
  let '(e1, s1) := session_run lc key q a s in let '(e2, s2) := session_run lc key q b s1 in (e1 ++ e2, s2).
Proof.
  induction a as [|ev a IH]; intros s; cbn [app session_run]; [by destruct (session_run lc key q b s)|].
  destruct (session_step lc key q ev s) as [e s1]. rewrite IH. destruct (session_run lc key q a s1) as [e1 s2].
  destruct (session_run lc key q b s2). by rewrite app_assoc.
Qed.

(** C28: A call of an hdc server is answered.  However the bytes of the server are
    cut, also when the answer comes with the greeting: to a greeting of the hdc
    server that is long enough the client responds with its 48 bytes, sends its
    command once the response is written, and the call answers with the value
    that follows the greeting, whatever comes after it. *)
Theorem hdc_call_answered localeCompare connectKey data hello answer rest before after :
  44 <= zlen hello < 2 ^ 32 -> zlen answer < 2 ^ 32 ->
  localeCompare (ascii_decode (firstn 11 hello)) (js "OHOS HDC") = 0 ->
  concat before ++ concat after = encodeData hello ++ encodeData answer ++ rest ->
  zlen (encodeData hello) <= zlen (concat before) ->
  let '(es, s) := session_run localeCompare connectKey (HrCommand data)
    (List.map OnData before ++ OnWritten false :: List.map OnData after) new_session in
  es = [HWrite (handshake_response (ascii_decode (firstn 11 hello)) connectKey); HWrite (encodeData data); HSettle (Some answer)] /\
  ss_phase s = CallOver /\ ss_handshakeOK s = true.
Proof.
  intros Hh Ha Hb Ht Hl. set (rest1 := encodeData answer ++ rest) in *.
  assert (exists x, concat before = encodeData hello ++ x) as [x Hx].
  { exists (drop (List.length (encodeData hello)) (concat before)). rewrite <- (take_drop (List.length (encodeData hello)) (concat before)) at 1. f_equal.
    unfold zlen in Hl. rewrite <- (take_app_le (concat before) (concat after)) by lia. by rewrite Ht, take_app_length. }
  rewrite Hx, <- app_assoc in Ht. apply app_inv_head in Ht. rewrite session_run_app. change new_session with (greeted []).
  rewrite (chunks_run localeCompare connectKey data greeted _ (encodeData hello ++ rest1)
    (hello_chunk localeCompare connectKey data hello rest1 Hh Hb) before [] (concat after)); [|cbn [app]; by rewrite Hx, <- app_assoc, Ht].
  cbn [app session_run]. rewrite Hx, (command_sent localeCompare connectKey data hello Hh x).
  rewrite (chunks_run localeCompare connectKey data asked _ rest1 (answer_chunk localeCompare connectKey data answer rest Ha) after x []) by (by rewrite app_nil_r).
  pose proof (encoded_value answer rest Ha) as Hv. fold rest1 in Hv. rewrite Ht. unfold completes, asked. rewrite Hv.
  change (value_of []) with (@None (list Z)). rewrite (encoded_value hello x (proj2 Hh)). cbn [app ss_phase ss_handshakeOK].
  destruct (value_of x) as [v|] eqn:Ev; [|done]. pose proof (hdc_value_of_app x (concat after) v Ev) as Hv'. rewrite Ht, Hv in Hv'. by injection Hv' as <-.
Qed.

(** ** Every call *)

Definition settlements (es : list hdc_effect) : list (option (list Z)) := omap (fun e => match e with HSettle v => Some v | _ => None end) es.
Definition writes (es : list hdc_effect) : list (list Z) := omap (fun e => match e with HWrite b => Some b | _ => None end) es.
Definition closings (es : list hdc_effect) : list hdc_effect := List.filter (fun e => match e with HEndSocket | HDestroy => true | _ => false end) es.

Lemma settlements_app a b : settlements (a ++ b) = settlements a ++ settlements b.
Proof. apply omap_app. Qed.
Lemma writes_app a b : writes (a ++ b) = writes a ++ writes b.
Proof. apply omap_app. Qed.
Lemma closings_app a b : closings (a ++ b) = closings a ++ closings b.
Proof. apply List.filter_app. Qed.

(** A read waits for more than has arrived. *)
Definition waiting (r : Reader) : Prop :=
  match rd_state r with ReadLength n | ReadBody n => zlen (st_buffer (rd_stream r)) < n | _ => False end.
Definition awaits_bytes (r : Reader) : Prop := match rd_state r with ReadLength _ | ReadBody _ => True | _ => False end.

(** The socket tells nothing more that could be read. *)
Definition gone_quiet (s : Session) : Prop := ss_open s = false \/ st_ended (rd_stream (ss_reader s)) = true.

Record readers (s : Session) : Prop := {
  rs_listens : listens s = true -> ~ gone_quiet s /\ waiting (ss_reader s);
  rs_ended : ss_phase s <> CallOver -> rd_ended (ss_reader s) = false
}.

(** What has been settled and written, in each phase. *)
Section Account.
Variable request : hdc_request.

Definition undecided (s : Session) (es : list hdc_effect) : Prop :=
  closings es = [] /\
  ((ss_connected s = None /\ settlements es = []) \/ ((exists r, ss_connected s = Some (Refused r)) /\ settlements es = [None])).

Definition greeting (es : list hdc_effect) : Prop := exists r, writes es = [r] /\ List.length r = 48%nat.
Definition commanded (es : list hdc_effect) : Prop :=
  exists r data, writes es = [r; encodeData data] /\ List.length r = 48%nat /\ request = HrCommand data.

Definition call_account (s : Session) (es : list hdc_effect) : Prop :=
  match ss_phase s with
  | ReadsHello => undecided s es /\ writes es = []
  | WritesHello => undecided s es /\ greeting es
  | ReadsAnswer => ss_connected s = Some ConnectedOk /\ ss_handshakeOK s = true /\ commanded es /\ settlements es = [] /\ closings es = []
  | CallOver =>
      (exists v, settlements es = [v] /\ (v <> None -> ss_connected s = Some ConnectedOk)) /\
      (if decide (ss_connected s = Some ConnectedOk)
       then ss_handshakeOK s = true /\ match request with
            | HrCommand _ => commanded es /\ (settlements es <> [None] -> closings es = [])
            | _ => greeting es
            end
       else writes es = [] \/ greeting es)
  end.
End Account.

(** ** The reader *)

(** A read gets its value, or waits; on a stream that has ended it has read all. *)
Record read_ok (r r' : Reader) : Prop := {
  ro_ended : rd_ended r' = false;
  ro_stream : st_ended (rd_stream r') = st_ended (rd_stream r);
  ro_state : (exists v, rd_state r' = ReadDone v) \/ (st_ended (rd_stream r) = false /\ waiting r') \/
    (st_ended (rd_stream r) = true /\ st_buffer (rd_stream r') = [] /\ awaits_bytes r')
}.

Lemma read_body_ok n r : 0 <= n -> rd_ended r = false -> read_ok r (read_body n r).
Proof.
  destruct r as [[b e] d st]. cbn. intros Hn ->. unfold read_body. cbn [rd_ended rd_stream]. destruct (Z.le_gt_cases n (zlen b)).
  - rewrite tryRead_takes by lia. split; cbn; eauto.
  - destruct e.
    + destruct (tryRead_short n b) as [k ->]; [lia|]. split; cbn; [done|done|]. by right; right.
    + rewrite tryRead_waits by lia. split; cbn; [done|done|]. by right; left.
Qed.

Lemma read_length_ok n r : 0 <= n -> rd_ended r = false -> read_ok r (read_length n r).
Proof.
  destruct r as [[b e] d st]. cbn. intros Hn ->. unfold read_length. cbn [rd_ended rd_stream]. destruct (Z.le_gt_cases n (zlen b)).
  - rewrite tryRead_takes by lia. match goal with |- read_ok _ (read_body ?m ?x) => destruct (read_body_ok m x (be32_value_nonneg _) eq_refl) as [A B C] end.
    split; cbn in *; [done|done|]. done.
  - destruct e.
    + destruct (tryRead_short n b) as [k ->]; [lia|]. split; cbn; [done|done|]. by right; right.
    + rewrite tryRead_waits by lia. split; cbn; [done|done|]. by right; left.
Qed.

Lemma on_readable_ok r : match rd_state r with ReadLength n | ReadBody n => 0 <= n | _ => False end -> rd_ended r = false -> read_ok r (on_readable r).
Proof. unfold on_readable. destruct (rd_state r); [apply read_length_ok|apply read_body_ok|done|done]. Qed.

(** Data keep a reader waiting or give it its value. *)
Lemma data_ok r bytes : waiting r -> rd_ended r = false -> st_ended (rd_stream r) = false ->
  let r' := reader_step r (SData bytes) in
  rd_ended r' = false /\ st_ended (rd_stream r') = false /\ ((exists v, rd_state r' = ReadDone v) \/ waiting r').
Proof.
  intros Hw He Hs. cbv zeta. unfold reader_step. match goal with |- context [on_readable ?x] => destruct (on_readable_ok x) as [A B C]; [|done|] end.
  { unfold waiting in Hw. cbn [rd_state set_field eta eta_reader]. destruct (rd_state r); try done; unfold zlen in Hw; lia. }
  cbn [rd_stream set_field eta eta_reader st_ended] in B, C. rewrite Hs in *. split; [done|]. split; [done|].
  destruct C as [C|[[_ C]|[? _]]]; [by left|by right|done].
Qed.

(** The end of the stream ends a read. *)
Lemma end_ok r : waiting r -> rd_ended r = false -> rd_state (reader_step r SEnd) = ReadFailed /\ st_ended (rd_stream (reader_step r SEnd)) = true.
Proof.
  destruct r as [[b e] d st]. unfold waiting. cbn [rd_state rd_stream st_buffer]. intros Hw He. cbn in He. subst d. destruct st; try done.
  all: destruct (tryRead_short _ _ Hw) as [k E]; unfold reader_step, on_readable; cbn [rd_state set_field eta eta_reader rd_stream st_buffer].
  all: unfold read_length, read_body; cbn [rd_ended rd_stream set_field eta eta_reader]; rewrite E; done.
Qed.

Lemma fails_ok r : waiting r -> rd_state (reader_step r SError) = ReadFailed.
Proof. unfold waiting, reader_step, reading_fails. by destruct (rd_state r). Qed.

(** A command reads what is there already. *)
Lemma value_ok r : rd_ended r = false -> let r' := tells_end (readValue r) in
  st_ended (rd_stream r') = st_ended (rd_stream r) /\
  ((exists v, rd_state r' = ReadDone v) \/ rd_state r' = ReadFailed \/ (st_ended (rd_stream r) = false /\ waiting r' /\ rd_ended r' = false)).
Proof.
  intros He. cbv zeta. destruct (read_length_ok 4 r ltac:(lia) He) as [A B C]. unfold tells_end, readValue. rewrite B.
  destruct C as [[v C]|[(C1 & C2)|(C1 & C2 & C3)]].
  - destruct (_ && _); [|eauto]. unfold on_end, reading_fails. cbn. rewrite C. cbn. eauto.
  - rewrite C1. cbn [andb]. rewrite B, C1. auto 8.
  - rewrite C1, C2, bool_decide_eq_true_2 by done. cbn [andb]. unfold on_end, reading_fails, awaits_bytes in *. cbn.
    destruct (rd_state (read_length 4 r)) eqn:E; try done; cbn; rewrite ?B, ?C1; auto.
Qed.

(** ** Steps *)

Ltac scbn := cbn [set_field eta eta_session ss_reader ss_phase ss_connected ss_handshakeOK ss_open listens fst snd].

Section Steps.
Variable localeCompare : jstr -> jstr -> Z.
Variable connectKey : jstr.
Variable request : hdc_request.

(** Nothing but a rejection. *)
Lemma rejects_ok c s es : c <> ConnectedOk -> undecided s es ->
  let '(e, s') := connect_rejects c s in
  settlements (es ++ e) = [None] /\ writes (es ++ e) = writes es /\ closings (es ++ e) = [] /\ ss_connected s' <> Some ConnectedOk /\
  s' = s <| ss_connected := ss_connected s' |> /\ ((exists r, c = Refused r) -> undecided s' (es ++ e)).
Proof.
  intros Hc [H1 H2]. unfold connect_rejects, undecided. destruct s as [r p cn ok op]. cbn [ss_connected] in H2. scbn.
  destruct H2 as [[-> H2]|[[x ->] H2]]; scbn; rewrite ?app_nil_r, ?settlements_app, ?writes_app, ?closings_app, ?H1, ?H2; cbn [app].
  - split_and!; try done; [cbn; by rewrite app_nil_r|congruence|]. intros [x ->]. split; [done|]. right. split; [by eexists|done].
  - split_and!; try done. intros _. split; [done|]. right. split; [by eexists|done].
Qed.

Lemma over_undecided c s es : c <> ConnectedOk -> undecided s es -> writes es = [] \/ greeting es ->
  let '(e, s') := connect_rejects c s in call_account request (s' <| ss_phase := CallOver |>) (es ++ e).
Proof.
  intros Hc Hu Hw. pose proof (rejects_ok c s es Hc Hu) as H. destruct (connect_rejects c s) as [e s'].
  destruct H as (H1 & H2 & H3 & H4 & _). unfold call_account. scbn. rewrite decide_False by done. split.
  - exists None. split; [done|]. done.
  - unfold greeting in *. by rewrite H2.
Qed.

Lemma answer_read_ok s es : ss_phase s = ReadsAnswer -> call_account request s es ->
  call_account request (answer_read s).2 (es ++ (answer_read s).1).
Proof.
  intros Hp. unfold call_account at 1. rewrite Hp. intros (H1 & H2 & (r & d & H3 & H4 & H5) & H6 & H7). unfold answer_read.
  assert (forall v, call_account request (s <| ss_phase := CallOver |>) (es ++ [HSettle v])) as Hv.
  { intros v. unfold call_account. scbn. rewrite H1, decide_True by done. rewrite settlements_app, H6. split; [by exists v|]. split; [done|]. rewrite H5.
    rewrite closings_app, H7. split; [|done]. exists r, d. by rewrite writes_app, H3, app_nil_r. }
  destruct (rd_state (ss_reader s)); try apply Hv; scbn; rewrite app_nil_r; unfold call_account; rewrite Hp; (split; [done|]; split; [done|]; split; [by exists r, d|done]).
Qed.

Lemma execute_ok s es : ss_connected s = Some ConnectedOk -> ss_handshakeOK s = true -> settlements es = [] -> closings es = [] -> greeting es ->
  call_account request (execute request s).2 (es ++ (execute request s).1).
Proof.
  intros H1 H2 H3 H4 (r & H5 & H6). unfold execute. destruct request as [| |data] eqn:Eq.
  1-2: cbn [fst snd]; unfold call_account; scbn; rewrite H1, decide_True by done; rewrite settlements_app, H3;
    split; [by exists (Some [])|]; split; [done|]; exists r; by rewrite writes_app, H5.
  match goal with |- context [answer_read ?x] => set (s1 := x) end.
  pose proof (answer_read_ok s1 (es ++ [HWrite (encodeData data)]) eq_refl) as H. rewrite Eq in H. destruct (answer_read s1) as [e s2]. cbn [fst snd] in *.
  rewrite <- app_assoc in H. apply H. unfold call_account. change (ss_phase s1) with ReadsAnswer. cbv iota.
  split; [done|]. split; [done|]. rewrite settlements_app, closings_app, H3, H4. split; [|done]. exists r, data. by rewrite writes_app, H5.
Qed.

Lemma handshake_response_48 key data res bytes : handshake localeCompare key data = (res, Some bytes) -> List.length bytes = 48%nat.
Proof. unfold handshake. destruct (_ <? _); [done|]. intros [= _ <-]. apply handshake_response_length. Qed.

Abbreviation hello_read' := (hello_read localeCompare connectKey).

Lemma hello_read_ok s es : ss_phase s = ReadsHello -> call_account request s es ->
  call_account request (hello_read' s).2 (es ++ (hello_read' s).1).
Proof.
  intros Hp Ha. pose proof Ha as Ha'. unfold call_account in Ha'. rewrite Hp in Ha'. destruct Ha' as [Hu Hw]. unfold hello_read.
  destruct (rd_state (ss_reader s)) as [|n|data|].
  - cbn [fst snd]. by rewrite app_nil_r.
  - destruct (n <? _); [|cbn [fst snd]; by rewrite app_nil_r]. pose proof (rejects_ok (Refused HsLengthError) s es ltac:(done) Hu) as H.
    destruct (connect_rejects _ s) as [e s']. destruct H as (H1 & H2 & H3 & H4 & H5 & H6). cbn [fst snd]. unfold call_account.
    assert (ss_phase s' = ReadsHello) as -> by (rewrite H5; done). split; [by apply H6; eexists|]. by rewrite H2.
  - destruct (handshake localeCompare connectKey data) as [res response] eqn:Eh.
    assert (forall e s', undecided s' (es ++ e) -> writes (es ++ e) = [] -> forall bytes, response = Some bytes ->
      call_account request (s' <| ss_phase := WritesHello |>) (es ++ e ++ [HWrite bytes])) as Hgo.
    { intros e s' Hu' Hw' bytes ->. unfold call_account. scbn. rewrite app_assoc. unfold undecided, greeting in *.
      rewrite settlements_app, closings_app, writes_app. cbn. rewrite !app_nil_r. split; [done|]. exists bytes. rewrite Hw'. split; [done|].
      by eapply handshake_response_48. }
    destruct (decide (res = HsOk)) as [->|Hne].
    + destruct response as [bytes|]; cbn [fst snd]; [apply (Hgo [] s); by rewrite ?app_nil_r|].
      revert Eh. unfold handshake, HandShakeBannerSize, HandShakeConnectKeySize. destruct (Z.ltb_spec (zlen data) (12 - 1 + 4)); [|done].
      rewrite (proj2 (Z.ltb_lt (zlen data) (12 + 32))) by lia. done.
    + assert (exists e s', (match res with HsOk => ([], s) | _ => connect_rejects (Refused res) s end) = (e, s') /\ (e, s') = connect_rejects (Refused res) s) as (e & s' & -> & E).
      { destruct (connect_rejects (Refused res) s) as [e s'] eqn:E. exists e, s'. by destruct res. }
      pose proof (rejects_ok (Refused res) s es ltac:(done) Hu) as H. pose proof (over_undecided (Refused res) s es ltac:(done) Hu ltac:(by left)) as Ho.
      rewrite <- E in H, Ho. destruct H as (H1 & H2 & H3 & H4 & H5 & H6). destruct response as [bytes|]; [|done]. cbn [fst snd].
      apply Hgo; [by apply H6; eexists|by rewrite H2|done].
  - pose proof (over_undecided Broken s es ltac:(done) Hu ltac:(by left)) as H. by destruct (connect_rejects Broken s).
Qed.

Lemma hello_written_ok failed s es : ss_phase s = WritesHello -> call_account request s es ->
  call_account request (hello_written request failed s).2 (es ++ (hello_written request failed s).1).
Proof.
  intros Hp Ha. unfold call_account in Ha. rewrite Hp in Ha. destruct Ha as [Hu Hg]. unfold hello_written. destruct failed.
  - pose proof (over_undecided Broken s es ltac:(done) Hu ltac:(by right)) as H. by destruct (connect_rejects Broken s).
  - destruct Hu as [Hc Hu]. scbn. destruct Hu as [[H1 H2]|[[r H1] H2]]; rewrite H1.
    + by apply execute_ok.
    + cbn [fst snd]. rewrite app_nil_r. unfold call_account. scbn. rewrite decide_False by congruence. split; [by exists None|by right].
Qed.

(** What nobody hears changes nothing of the account. *)
Lemma account_app s s' es e : settlements e = [] -> writes e = [] -> closings e = [] -> ss_phase s' = ss_phase s -> ss_connected s' = ss_connected s ->
  ss_handshakeOK s' = ss_handshakeOK s -> call_account request s es -> call_account request s' (es ++ e).
Proof.
  intros H1 H2 H3 H4 H5 H6. unfold call_account, undecided, greeting, commanded. rewrite H4, H5, H6, settlements_app, writes_app, closings_app, H1, H2, H3.
  by rewrite !app_nil_r.
Qed.

Lemma reads_on_ok s es : call_account request s es -> call_account request (reads_on localeCompare connectKey s).2 (es ++ (reads_on localeCompare connectKey s).1).
Proof.
  intros Ha. unfold reads_on. destruct (ss_phase s) eqn:Ep; [by apply hello_read_ok|cbn [fst snd]; by rewrite app_nil_r|by apply answer_read_ok|cbn [fst snd]; by rewrite app_nil_r].
Qed.

Lemma over_readers s : ss_phase s = CallOver -> readers s.
Proof. intros H. split; unfold listens; by rewrite H. Qed.

Lemma rejects_keeps c s : let s' := (connect_rejects c s).2 in ss_reader s' = ss_reader s /\ ss_open s' = ss_open s.
Proof. unfold connect_rejects. by destruct (ss_connected s). Qed.

Lemma reads_on_keeps s : let s' := (reads_on localeCompare connectKey s).2 in ss_reader s' = ss_reader s /\ ss_open s' = ss_open s.
Proof.
  unfold reads_on, hello_read, answer_read. pose proof (fun c => rejects_keeps c s) as R.
  destruct (ss_phase s), (rd_state (ss_reader s)); try done.
  - destruct (_ <? _); [apply R|done].
  - destruct (handshake _ _ _) as [res response].
    assert (let s' := (match res with HsOk => ([], s) | _ => connect_rejects (Refused res) s end).2 in ss_reader s' = ss_reader s /\ ss_open s' = ss_open s) as H
      by (destruct res; try done; apply R).
    destruct (match res with HsOk => _ | _ => _ end) as [e s']. by destruct response.
  - specialize (R Broken). by destruct (connect_rejects Broken s).
Qed.

(** After a read: it waits on an open socket, or has its end. *)
Lemma reads_on_readers s : listens s = true -> ss_open s = true ->
  (waiting (ss_reader s) /\ st_ended (rd_stream (ss_reader s)) = false /\ rd_ended (ss_reader s) = false) \/
  (exists v, rd_state (ss_reader s) = ReadDone v /\ (ss_phase s = ReadsHello -> rd_ended (ss_reader s) = false)) \/
  rd_state (ss_reader s) = ReadFailed ->
  readers (reads_on localeCompare connectKey s).2.
Proof.
  intros Hl Ho Hr. destruct (reads_on_keeps s) as [K1 K2].
  destruct Hr as [(W1 & W2 & W3)|[(v & Hv & He)|Hf]].
  - split; [|by rewrite K1]. intros _. unfold gone_quiet. rewrite K1, K2, Ho, W2. split; [|done]. by intros [|].
  - unfold reads_on, hello_read, answer_read in *. destruct (ss_phase s) eqn:Ep; unfold listens in Hl; rewrite Ep in Hl; try done; rewrite Hv in *; [|by apply over_readers].
    destruct (handshake _ _ _) as [res response]. destruct (match res with HsOk => _ | _ => _ end) as [e s']. destruct response; cbn [fst snd] in *; [|by apply over_readers].
    split; [done|]. intros _. scbn. change (ss_reader (s' <| ss_phase := WritesHello |>)) with (ss_reader s') in K1. rewrite K1. auto.
  - apply over_readers. unfold reads_on, hello_read, answer_read. unfold listens in Hl. destruct (ss_phase s) eqn:Ep; try done; rewrite Hf; [|done].
    by destruct (connect_rejects Broken s).
Qed.

Lemma execute_readers s : rd_ended (ss_reader s) = false -> ss_open s = true ->
  readers (execute request s).2 /\ (gone_quiet s -> gone_quiet (execute request s).2).
Proof.
  intros He Ho. unfold execute. destruct request as [| |data]; [by split; [apply over_readers|]|split; [by apply over_readers|by left]|].
  match goal with |- context [answer_read ?x] => set (s1 := x) end. destruct (value_ok (ss_reader s) He) as [V1 V2].
  change (tells_end (readValue (ss_reader s))) with (ss_reader s1) in *.
  assert (readers (answer_read s1).2 /\ ss_reader (answer_read s1).2 = ss_reader s1 /\ ss_open (answer_read s1).2 = ss_open s) as (R1 & R2 & R3).
  { split.
    - apply (reads_on_readers s1 eq_refl Ho). destruct V2 as [[v V2]|[V2|(V2 & V3 & V4)]]; [right; left; by exists v|by right; right|left; by rewrite V1].
    - destruct (reads_on_keeps s1). done. }
  destruct (answer_read s1) as [e s2]. cbn [fst snd] in *. split; [done|]. unfold gone_quiet. rewrite R2, R3, V1. done.
Qed.

(** An end that the client sent is no answer. *)
Lemma ended_account s a b : ss_phase s = CallOver -> settlements (a ++ b) = [None] -> call_account request s (a ++ b) ->
  call_account request s (a ++ HEndSocket :: b).
Proof.
  intros Hp Hs. assert (settlements (a ++ HEndSocket :: b) = settlements (a ++ b) /\ writes (a ++ HEndSocket :: b) = writes (a ++ b)) as [E1 E2]
    by (by rewrite !settlements_app, !writes_app).
  unfold call_account, greeting, commanded. rewrite Hp, E1, E2. intros [H1 H2]. split; [done|]. case_decide; [|done]. destruct request; try done.
  destruct H2 as (H2 & H3 & _). split; [done|]. split; [done|]. by rewrite Hs.
Qed.

(** A read that fails fails the call. *)
Lemma failed_account s es : listens s = true -> rd_state (ss_reader s) = ReadFailed -> call_account request s es ->
  let '(e, s') := reads_on localeCompare connectKey s in ss_phase s' = CallOver /\ call_account request s' (es ++ HEndSocket :: e).
Proof.
  intros Hl Hf Ha. pose proof (reads_on_ok s es Ha) as H. destruct (reads_on localeCompare connectKey s) as [e s'] eqn:E. cbn [fst snd] in H.
  assert (ss_phase s' = CallOver /\ settlements (es ++ e) = [None]) as [H1 H2]; [|split; [done|]; by apply ended_account].
  unfold reads_on, hello_read, answer_read in E. unfold listens in Hl. unfold call_account in Ha. destruct (ss_phase s); try done; rewrite Hf in E.
  - destruct Ha as [Hu _]. pose proof (rejects_ok Broken s es ltac:(done) Hu) as R. destruct (connect_rejects Broken s) as [e1 s1]. injection E as <- <-. by destruct R.
  - injection E as <- <-. split; [done|]. rewrite settlements_app. destruct Ha as (_ & _ & _ & -> & _). done.
Qed.

Abbreviation step := (session_step localeCompare connectKey request).

Record session_ok (s : Session) (es : list hdc_effect) : Prop := {
  so_readers : readers s;
  so_account : call_account request s es
}.

Lemma written_step failed s es : ss_phase s = WritesHello -> session_ok s es -> (failed = false -> ss_open s = true) ->
  session_ok (hello_written request failed s).2 (es ++ (hello_written request failed s).1) /\ (gone_quiet s -> gone_quiet (hello_written request failed s).2).
Proof.
  intros Hp [Hr Ha] Ho. assert (rd_ended (ss_reader s) = false) as He by (apply Hr; by rewrite Hp).
  pose proof (hello_written_ok failed s es Hp Ha) as Hw. unfold hello_written in *. destruct failed.
  - pose proof (rejects_keeps Broken s) as [K1 K2]. destruct (connect_rejects Broken s) as [e s']. cbn [fst snd] in *.
    split; [split; [by apply over_readers|done]|]. unfold gone_quiet. scbn. by rewrite K1, K2.
  - revert Hw. scbn. destruct (ss_connected s); intros Hw.
    + split; [split; [by apply over_readers|done]|done].
    + match goal with |- context [execute request ?x] => destruct (execute_readers x He (Ho eq_refl)) as [R1 R2] end. by split.
Qed.

(** Whoever listens waits on an open stream. *)
Lemma listening s es : session_ok s es -> listens s = true ->
  ~ gone_quiet s /\ waiting (ss_reader s) /\ rd_ended (ss_reader s) = false /\ st_ended (rd_stream (ss_reader s)) = false.
Proof.
  intros [Hr _] H. destruct (rs_listens s Hr H) as [Hg Hw]. split; [done|]. split; [done|].
  split; [apply Hr; unfold listens in H; by destruct (ss_phase s)|]. destruct (st_ended _) eqn:E; [|done]. exfalso. apply Hg. by right.
Qed.

Lemma reader_account s es g : session_ok s es -> call_account request (s <| ss_reader ::= g |>) es.
Proof. intros [_ Ha]. rewrite <- (app_nil_r es). by apply (account_app s). Qed.

(** A socket that fails while it is read. *)
Lemma failing_step s es : session_ok s es -> listens s = true ->
  let '(e, s') := reads_on localeCompare connectKey (s <| ss_reader ::= (fun r => reader_step r SError) |>) in
  session_ok s' (es ++ HEndSocket :: e) /\ session_ok (s' <| ss_open := false |>) (es ++ HEndSocket :: e).
Proof.
  intros Hs Hl. destruct (listening s es Hs Hl) as (_ & W & _ & _). set (s1 := s <| ss_reader ::= _ |>).
  pose proof (failed_account s1 es Hl (fails_ok _ W) (reader_account s es _ Hs)) as H. destruct (reads_on _ _ s1) as [e s']. destruct H as [H1 H2].
  split; (split; [by apply over_readers|]); [done|]. rewrite <- (app_nil_r (es ++ _)). by apply (account_app s').
Qed.

(** What nobody listens to. *)
Lemma quiet_step s s' es e : session_ok s es -> listens s = false -> ss_phase s' = ss_phase s -> ss_connected s' = ss_connected s ->
  ss_handshakeOK s' = ss_handshakeOK s -> rd_ended (ss_reader s') = rd_ended (ss_reader s) ->
  settlements e = [] -> writes e = [] -> closings e = [] -> session_ok s' (es ++ e).
Proof.
  intros [Hr Ha] L E1 E2 E3 E4 A1 A2 A3. split; [|by apply (account_app s)]. split; [unfold listens in *; rewrite E1; by rewrite L|]. rewrite E1, E4. apply Hr.
Qed.

Lemma session_step_ok ev s es : session_ok s es ->
  session_ok (step ev s).2 (es ++ (step ev s).1) /\ (gone_quiet s \/ ev = OnEnd \/ ev = OnError -> gone_quiet (step ev s).2).
Proof.
  intros Hs. pose proof Hs as [Hr Ha]. unfold session_step. destruct (ss_open s) eqn:Ho; cbn [negb].
  2: { assert (gone_quiet s) as Hg by by left. assert (session_ok (([] : list hdc_effect), s).2 (es ++ []) /\ gone_quiet (([] : list hdc_effect), s).2) as Hn
         by (cbn [snd]; by rewrite app_nil_r).
       destruct ev; try (by destruct Hn). destruct (ss_phase s) eqn:Ep; try (by destruct Hn).
       destruct (written_step true s es Ep Hs ltac:(done)) as [? Hq]. split; [done|]. intros _. by apply Hq. }
  destruct ev as [bytes| | | | |failed].
  - destruct (listens s) eqn:El; [|split; [by apply (quiet_step s)|by intros [[X|X]|[X|X]]; [left|right|done|done]]].
    destruct (listening s es Hs El) as (Hg & W1 & W2 & W3). destruct (data_ok (ss_reader s) bytes W1 W2 W3) as (D1 & D2 & D3).
    split; [|by intros [X|[X|X]]]. split; [|by apply reads_on_ok, reader_account].
    apply reads_on_readers; [done|done|]. destruct D3 as [[v D3]|D3]; [right; left; by exists v|by left].
  - destruct (listens s) eqn:El; [|split; [by apply (quiet_step s)|intros _; by right]].
    destruct (listening s es Hs El) as (Hg & W1 & W2 & W3). destruct (end_ok (ss_reader s) W1 W2) as (D1 & D2).
    match goal with |- context [reads_on _ _ ?x] => destruct (reads_on_keeps x) as [K1 K2] end.
    split; [|intros _; right; by rewrite K1]. split; [apply reads_on_readers; [done|done|by right; right]|by apply reads_on_ok, reader_account].
  - destruct (listens s) eqn:El; [|split; [by apply (quiet_step s)|by left]].
    pose proof (failing_step s es Hs El) as H. destruct (reads_on _ _ _) as [e s']. split; [by destruct H|by left].
  - destruct (listens s) eqn:El; [|split; [by apply (quiet_step s)|by intros [X|[X|X]]]]. destruct (listening s es Hs El) as (Hg & _).
    pose proof (failing_step s es Hs El) as H. destruct (reads_on _ _ _) as [e s']. split; [by destruct H|by intros [X|[X|X]]].
  - destruct (listens s) eqn:El; cbn [fst snd].
    + rewrite app_nil_r. split; [done|]. by intros [X|[X|X]].
    + split; [by apply (quiet_step s)|]. intros [X|[X|X]]; [by left|done|done].
  - destruct (ss_phase s) eqn:Ep; try (cbn [fst snd]; rewrite app_nil_r; split; [done|]; by intros [X|[X|X]]).
    destruct (written_step failed s es Ep Hs ltac:(done)) as [? Hq]. split; [done|]. intros [X|[X|X]]; [by apply Hq|done|done].
Qed.

Lemma session_run_ok evs : forall s es, session_ok s es ->
  let '(e, s') := session_run localeCompare connectKey request evs s in
  session_ok s' (es ++ e) /\ (gone_quiet s \/ OnEnd ∈ evs \/ OnError ∈ evs -> gone_quiet s').
Proof.
  induction evs as [|ev evs IH]; intros s es Hs; cbn [session_run].
  - rewrite app_nil_r. split; [done|]. by intros [?|[?%not_elem_of_nil|?%not_elem_of_nil]].
  - destruct (session_step_ok ev s es Hs) as [H1 H2]. destruct (step ev s) as [e1 s1]. specialize (IH s1 _ H1).
    destruct (session_run _ _ _ evs s1) as [e2 s2]. rewrite <- app_assoc in IH. destruct IH as [I1 I2]. split; [done|].
    rewrite !elem_of_cons. intros H. apply I2. cbn [snd] in H2. naive_solver.
Qed.
End Steps.

Lemma new_session_ok request : session_ok request new_session [].
Proof. split; [split; [|done]|]; [|by split; [split; [|left]|]]. intros _. split; [by intros [|]|]. reflexivity. Qed.

(** C29: Every call of an hdc server is settled once.  Whatever the server sends
    and the socket does in whatever order, a call never answers twice; it has
    answered or failed once the socket has ended or broken, unless a response
    still waits to be written.  The client writes its response of 48 bytes and
    then its command, the command only on a connection whose handshake was
    accepted, and nothing else; an answer with a value needs such a connection. *)
Theorem hdc_call_settled_once localeCompare connectKey request evs :
  let '(es, s) := session_run localeCompare connectKey request evs new_session in
  (List.length (settlements es) <= 1)%nat /\
  (OnEnd ∈ evs \/ OnError ∈ evs -> ss_phase s <> WritesHello -> List.length (settlements es) = 1%nat) /\
  (writes es = [] \/ (exists response, writes es = [response] /\ List.length response = 48%nat) \/
   exists response data, writes es = [response; encodeData data] /\ List.length response = 48%nat /\ request = HrCommand data /\
     ss_connected s = Some ConnectedOk /\ ss_handshakeOK s = true) /\
  (forall v, settlements es = [Some v] -> ss_connected s = Some ConnectedOk /\ ss_handshakeOK s = true).
Proof.
  pose proof (session_run_ok localeCompare connectKey request evs new_session [] (new_session_ok request)) as H.
  destruct (session_run _ _ _ evs new_session) as [es s]. cbn [app] in H. destruct H as [[Hr Ha] Hg].
  assert (OnEnd ∈ evs \/ OnError ∈ evs -> listens s = false) as Hl.
  { intros X. destruct (listens s) eqn:E; [|done]. destruct (rs_listens s Hr E) as [Hn _]. exfalso. apply Hn, Hg. by right. }
  unfold call_account in Ha. unfold listens in Hl. destruct (ss_phase s) eqn:Ep.
  - destruct Ha as [[_ Hu] Hw]. rewrite Hw. split_and!; [by destruct Hu as [[_ ->]|[_ ->]]; cbn; lia|intros X; discriminate (Hl X)|by left|].
    intros v E. rewrite E in Hu. by destruct Hu as [[_ ?]|[_ ?]].
  - destruct Ha as [[_ Hu] Hw]. split_and!; [by destruct Hu as [[_ ->]|[_ ->]]; cbn; lia|done|by right; left|]. intros v E. rewrite E in Hu. by destruct Hu as [[_ ?]|[_ ?]].
  - destruct Ha as (H1 & H2 & (r & d & H3 & H4 & H5) & H6 & _). rewrite H6. split_and!; [cbn; lia|intros X; discriminate (Hl X)|right; right; by exists r, d|done].
  - destruct Ha as [(v & H1 & H2) H3]. rewrite H1. split_and!; [done|done| |].
    + case_decide as Ed; [|destruct H3 as [H3|H3]; [by left|by right; left]]. destruct H3 as [H3 H4]. destruct request; [by right; left|by right; left|].
      destruct H4 as [(r & d & H5 & H6 & H7) _]. right. right. by exists r, d.
    + intros v' [= ->]. specialize (H2 ltac:(done)). rewrite H2, decide_True in H3 by done. by destruct H3.
Qed.

(** A call that was answered leaves its socket to the server: the client has not
    ended it, and if it breaks later nobody listens. *)
Theorem answered_socket_unguarded localeCompare connectKey data evs v :
  let '(es, s) := session_run localeCompare connectKey (HrCommand data) evs new_session in
  settlements es = [Some v] ->
  closings es = [] /\ (ss_open s = true -> (session_step localeCompare connectKey (HrCommand data) OnError s).1 = [HUncaught]).
Proof.
  pose proof (session_run_ok localeCompare connectKey (HrCommand data) evs new_session [] (new_session_ok _)) as H.
  destruct (session_run _ _ _ evs new_session) as [es s]. cbn [app] in H. destruct H as [[Hr Ha] _]. intros E. unfold call_account, undecided in Ha. rewrite E in Ha.
  unfold session_step, listens. destruct (ss_phase s); [by destruct Ha as [[_ [[_ ?]|[_ ?]]] _]|by destruct Ha as [[_ [[_ ?]|[_ ?]]] _]|by destruct Ha as (_ & _ & _ & ? & _)|].
  destruct Ha as [(v' & [= <-] & H2) H3]. rewrite H2, decide_True in H3 by done. destruct H3 as (_ & _ & H3). split; [by apply H3|]. by intros ->.
Qed.

(** ** Examples *)

(** A server's greeting, with a [localeCompare] that ignores what follows the banner. *)
Definition demo_hello : list Z := ascii_encode (js "OHOS HDC") ++ repeat 0 36.
Definition demo_compare (a b : jstr) : Z := if startsWith a b then 0 else 1.

Lemma hdc_call_answered_witness :
  let answer := ascii_encode (js "[Empty]") in
  let '(es, s) := session_run demo_compare [] (HrCommand (ascii_encode (js "list targets -v")))
    (List.map OnData [[0; 0]; [0; 44] ++ demo_hello ++ [0; 0]] ++ OnWritten false :: List.map OnData [[0]; [7] ++ answer]) new_session in
  settlements es = [Some answer] /\ ss_phase s = CallOver /\ listTargets (Some answer) = [].
Proof.
  cbv zeta. pose proof (hdc_call_answered demo_compare [] (ascii_encode (js "list targets -v")) demo_hello (ascii_encode (js "[Empty]")) []
    [[0; 0]; [0; 44] ++ demo_hello ++ [0; 0]] [[0]; [7] ++ ascii_encode (js "[Empty]")]) as H.
  destruct (session_run _ _ _ _ _) as [es s]. destruct H as (-> & H2 & _); [split; [discriminate|reflexivity]|reflexivity|reflexivity|reflexivity|discriminate|].
  split; [reflexivity|]. split; [exact H2|reflexivity].
Defined.

Lemma hdc_call_settled_once_witness :
  let '(es, s) := session_run demo_compare [] HrConnect [OnData (encodeData demo_hello); OnEnd; OnWritten false] new_session in
  List.length (settlements es) = 1%nat /\ ss_connected s = Some ConnectedOk.
Proof.
  pose proof (hdc_call_settled_once demo_compare [] HrConnect [OnData (encodeData demo_hello); OnEnd; OnWritten false]) as H.
  destruct (session_run _ _ _ _ _) as [es s] eqn:E. destruct H as (_ & H1 & _ & _). split.
  - apply H1; [left; right; left|]. vm_compute in E. injection E as <- <-. discriminate.
  - vm_compute in E. injection E as <- <-. reflexivity.
Defined.

(** A server that refuses the handshake is still answered, and the call fails. *)
Example refused_call :
  let '(es, s) := session_run demo_compare [] (HrCommand [1]) [OnData (encodeData (repeat 0 20)); OnWritten false; OnError] new_session in
  settlements es = [None] /\ List.length (writes es) = 1%nat /\ es !! 2%nat = Some HUncaught.
Proof. vm_compute. done. Qed.
