(* ===== verification/Forward.v ===== *)
(** * Forwarding the ports of a device

    Models [forward] and [adbForwardRemove] of [device/android/AndroidDevice.ts]
    and [forward] and [removeForward] of [device/Harmony/HarmonyDevice.ts]: the
    rules that an earlier process left are removed, then every port of the device
    gets a port of this host.

    Commands of adb and hdc, the search for a free port and the random number are
    calls of a program; the theorems hold for every environment that answers
    them. *)

From Stdlib Require Import String.
From stdpp Require Import strings.
From S2P Require Import JsValue Json Prog Ownership Trace HdcTracker Hdc.

(** ** Texts *)

Fixpoint leading_digits (s : jstr) : jstr :=
  match s with c :: s => if is_digit c then c :: leading_digits s else [] | [] => [] end.

(** [parseInt(s, 10)]; [None] is NaN. *)
Definition parseInt10 (s : jstr) : option Z :=
  let s := trim_start s in
  let '(neg, s) := match s with 45 :: s => (true, s) | 43 :: s => (false, s) | _ => (false, s) end in
  match leading_digits s with
  | [] => None
  | ds => Some (if neg then - digits_value ds else digits_value ds)
  end.

Definition port_of (remote : jstr) : option Z := parseInt10 (if startsWith remote (js "tcp:") then drop 4 remote else remote).

(** [this.remotePorts.includes(remotePort)]; no port is NaN. *)
Definition ours (remotePorts : list Z) (remote : jstr) : bool :=
  match port_of remote with Some p => bool_decide (p ∈ remotePorts) | None => false end.

(** ** The calls *)

Record AdbForward := mkAdbForward { af_serial : jstr; af_local : jstr; af_remote : jstr }.

Inductive forward_call :=
  | GetDevice
  | AdbListForwards
  | HdcListForwards
  | ExecCmd (cmd : jstr)
  | HdcRemoveForward (local : option jstr) (remote : jstr)
  | MathRandom20                       (* [Math.floor(Math.random() * 20)] *)
  | DetectPort (port : Z)
  | AdbForwardTo (host remote : Z)     (* `norebind:tcp:${host}`, `tcp:${remote}` *)
  | HdcForwardTo (host remote : Z).    (* `tcp:${host}`, `tcp:${remote}` *)

(** [None] is a promise that rejects.  [ExecCmd] resolves whatever the command
    does, and so do the methods of [TargetClient]. *)
Definition forward_reply (c : forward_call) : Type :=
  match c with
  | GetDevice => bool
  | AdbListForwards => option (list AdbForward)
  | HdcListForwards => list Forward
  | ExecCmd _ => unit
  | HdcRemoveForward _ _ => bool
  | MathRandom20 => Z
  | DetectPort _ => option Z
  | AdbForwardTo _ _ => option bool
  | HdcForwardTo _ _ => bool
  end.

(** ** The fields *)

Record Ports := mkPorts { po_port : list Z; po_forwardedPorts : list (Z * Z) }.

#[export] Instance eta_ports : Eta Ports := fun d => mkPorts (po_port d) (po_forwardedPorts d).

(** [FNever]: the promise is never settled, so nothing after [await] runs. *)
Inductive forward_error := FError | FNever.

Definition F (A : Type) : Type := M forward_call forward_reply Ports forward_error A.

Definition modify (f : Ports -> Ports) : F unit := mthen mget_state (fun d => mput (f d)).

(** [try { await p } catch { log }]. *)
Definition try_await (p : F unit) : F unit :=
  mcatch p (fun e => match e with FNever => mthrow FNever | FError => mret tt end).

(** ** Finding a port *)

(** The [do] loop, from the port before the first one asked for. *)
Fixpoint find_port (fuel : nat) (hostport : Z) : F Z :=
  match fuel with
  | O => mspin
  | S fuel =>
      mlet r := mcall (DetectPort (hostport + 1)) in
      match r with
      | None => mthrow FError
      | Some hostport =>
          mlet d := mget_state in
          if bool_decide (hostport ∈ po_port d) then find_port fuel hostport else mret hostport
      end
  end.

(** A forward that adb or hdc granted. *)
Definition android_granted (host remote : Z) (d : Ports) : Ports :=
  d <| po_port ::= (fun l => l ++ [host]) |> <| po_forwardedPorts ::= mset host remote |>.

Definition harmony_granted (host _ : Z) (d : Ports) : Ports := d <| po_port ::= (fun l => l ++ [host]) |>.

(** ** Both loops *)

(** What the two classes differ in: the base of the ports, how a rule is asked
    for (a failure counts as a refusal) and what is noted of one. *)
Record Forwarder := mkForwarder {
  fd_localBasePort : Z;
  fd_ask : Z -> Z -> F bool;
  fd_granted : Z -> Z -> Ports -> Ports
}.

Section Loops.
Variable fw : Forwarder.
Variable randomBase : Z.

(** The [while] loop: [left] attempts are left of five. *)
Fixpoint try_forward (left : nat) (i remotePort : Z) : F unit :=
  match left with
  | O => mret tt
  | S left' =>
      let tryCount := 5 - Z.of_nat left in
      mlet d := mget_state in
      mlet hostport := find_port (S (List.length (po_port d))) (fd_localBasePort fw + randomBase * 500 + i * 100 + tryCount * 10) in
      mlet result := fd_ask fw hostport remotePort in
      if result then modify (fd_granted fw hostport remotePort) else try_forward left' i remotePort
  end.

Fixpoint forward_each (i : Z) (remotePorts : list Z) : F unit :=
  match remotePorts with
  | [] => mret tt
  | p :: ps => try_forward 5 i p ;;; forward_each (i + 1) ps
  end.
End Loops.

(** ** Android *)

(** The adb server and tool: [ad_toolPath] is [getAdbToolPath()]. *)
Record AdbTool := mkAdbTool { ad_toolPath : option jstr; ad_win32 : bool; ad_host : jstr; ad_port : jstr; ad_serial : jstr }.

Definition adb_path (a : AdbTool) : jstr :=
  match ad_toolPath a with
  | None => if ad_win32 a then js "adb.exe" else js "adb"
  | Some path => path ++ (if ad_win32 a then js "/adb.exe" else js "/adb")
  end.

Definition remove_cmd (a : AdbTool) (local : jstr) : jstr :=
  adb_path a ++ js " -H " ++ ad_host a ++ js " -P " ++ ad_port a ++ js " -s " ++ ad_serial a ++ js " forward --remove " ++ local.

(** The executor of the promise is itself asynchronous: what it throws settles
    nothing. *)
Definition adbForwardRemove (a : AdbTool) (remotePorts : list Z) : F unit :=
  mlet forwards := mcall AdbListForwards in
  match forwards with
  | None => mthrow FNever
  | Some forwards =>
      mfor forwards (fun f =>
        if bool_decide (af_serial f <> ad_serial a) then mret tt
        else if ours remotePorts (af_remote f) then mlet _ := mcall (ExecCmd (remove_cmd a (af_local f))) in mret tt
        else mret tt)
  end.

Definition adb_ask (host remote : Z) : F bool :=
  mlet r := mcall (AdbForwardTo host remote) in mret (default false r).

Definition android_forwarder : Forwarder := mkForwarder 10000 adb_ask android_granted.

Definition android_forward (a : AdbTool) (remotePorts : list Z) : F unit :=
  modify (fun d => d <| po_forwardedPorts := [] |>) ;;;
  mlet device := mcall GetDevice in
  if negb device then mret tt
  else
    try_await (adbForwardRemove a remotePorts) ;;;
    modify (fun d => d <| po_port := [] |>) ;;;
    mlet randomBase := mcall MathRandom20 in
    forward_each android_forwarder randomBase 0 remotePorts.

(** ** Harmony *)

Definition removal (f : Forward) : forward_call := HdcRemoveForward (fw_local f) (fw_remote f).

Definition remove_rule (remotePorts : list Z) (f : Forward) : F unit :=
  if ours remotePorts (fw_remote f) then mlet _ := mcall (removal f) in mret tt else mret tt.

Definition harmony_removeForward (remotePorts : list Z) : F unit :=
  mlet forwards := mcall HdcListForwards in mfor forwards (remove_rule remotePorts).

Definition hdc_ask (host remote : Z) : F bool := mcall (HdcForwardTo host remote).

Definition harmony_forwarder : Forwarder := mkForwarder 15000 hdc_ask harmony_granted.

Definition harmony_forward (remotePorts : list Z) : F unit :=
  mlet device := mcall GetDevice in
  if negb device then mret tt
  else
    try_await (harmony_removeForward remotePorts) ;;;
    modify (fun d => d <| po_port := [] |>) ;;;
    mlet randomBase := mcall MathRandom20 in
    forward_each harmony_forwarder randomBase 0 remotePorts.

(** ** What is watched *)

(** The rules granted, the ports of the device that a rule was asked for, and
    how the other calls ended. *)
Record Watched := mkWatched {
  fq_device : bool;
  fq_listed : bool;
  fq_detected : bool;
  fq_granted : list (Z * Z);
  fq_tries : list Z
}.

#[export] Instance eta_watched : Eta Watched := fun q =>
  mkWatched (fq_device q) (fq_listed q) (fq_detected q) (fq_granted q) (fq_tries q).

Definition tries_of (p : Z) (tries : list Z) : nat := List.length (List.filter (Z.eqb p) tries).

Definition asked (host remote : Z) (granted : bool) (q : Watched) : Watched :=
  q <| fq_granted ::= (fun l => if granted then l ++ [(host, remote)] else l) |> <| fq_tries ::= (fun l => l ++ [remote]) |>.

(** A rule is asked for with a port of the host that no rule has yet, for a port
    of the device that has none, and at most five times. *)
Definition may_ask (host remote : Z) (q : Watched) : Prop :=
  (host ∉ mkeys (fq_granted q)) /\ (remote ∉ mvals (fq_granted q)) /\ (tries_of remote (fq_tries q) < 5)%nat.

(** detect-port tries the port it is given and those after it, then asks the
    system for a free one; a port that a rule listens on is not free. *)
Definition forward_monitor : Monitor forward_call forward_reply Watched := {|
  m_allow q c := match c with AdbForwardTo h r | HdcForwardTo h r => may_ask h r q | _ => True end;
  m_assume q c := match c return forward_reply c -> Prop with
                  | DetectPort p => fun r => match r with Some h => p <= h \/ h ∉ mkeys (fq_granted q) | None => True end
                  | _ => fun _ => True
                  end;
  m_next q c := match c return forward_reply c -> Watched with
                | GetDevice => fun r => q <| fq_device := r |>
                | AdbListForwards => fun r => q <| fq_listed := bool_decide (is_Some r) |>
                | DetectPort _ => fun r => q <| fq_detected := bool_decide (is_Some r) |>
                | AdbForwardTo h r => fun b => asked h r (default false b) q
                | HdcForwardTo h r => fun b => asked h r b q
                | _ => fun _ => q
                end
|}.

Definition unwatched : Watched := mkWatched false true true [] [].

(** What a class promises of its rules. *)
Class ForwarderLaws (fw : Forwarder) (noted : Ports -> list (Z * Z) -> Prop) := {
  fl_ask : forall h r Post s q, may_ask h r q -> (forall b, Post (Returned b) s (asked h r b q)) ->
    wp forward_monitor (fd_ask fw h r) Post s q;
  fl_port : forall h r d, po_port (fd_granted fw h r d) = po_port d ++ [h];
  fl_noted : forall h r d l, noted d l -> h ∉ mkeys l -> noted (fd_granted fw h r d) (l ++ [(h, r)])
}.

#[export] Instance android_laws : ForwarderLaws android_forwarder (fun d l => po_forwardedPorts d = l).
Proof.
  split.
  - intros h r Post s q Ha HP. unfold android_forwarder, fd_ask, adb_ask. wp_steps. apply wp_call; [done|]. intros b _. wp_steps. apply HP.
  - done.
  - intros h r d l <- Hh. cbn. by apply mset_fresh.
Qed.

#[export] Instance harmony_laws : ForwarderLaws harmony_forwarder (fun _ _ => True).
Proof. split; [|done..]. intros h r Post s q Ha HP. apply wp_call; [done|]. intros b _. apply HP. Qed.

Section Proof.
Context {fw : Forwarder} {noted : Ports -> list (Z * Z) -> Prop} `{!ForwarderLaws fw noted}.
Variable randomBase : Z.

Record kept_ports (s : Ports) (q : Watched) : Prop := {
  kp_port : po_port s = mkeys (fq_granted q);
  kp_nodup : NoDup (mkeys (fq_granted q));
  kp_noted : noted s (fq_granted q)
}.

(** The ports above one: each turn of the search leaves one behind. *)
Definition above (h : Z) (l : list Z) : nat := List.length (List.filter (Z.ltb h) l).

Lemma above_less h p l : h < p -> p ∈ l -> (above p l < above h l)%nat.
Proof.
  intros Hlt. unfold above. induction l as [|x l IH]; [by intros ?%not_elem_of_nil|].
  assert (List.length (List.filter (Z.ltb p) l) <= List.length (List.filter (Z.ltb h) l))%nat as Hle.
  { clear IH. induction l as [|y l IH]; [done|]. cbn. destruct (Z.ltb_spec p y), (Z.ltb_spec h y); cbn; lia. }
  intros [->|Hin]%elem_of_cons; cbn.
  - rewrite Z.ltb_irrefl, (proj2 (Z.ltb_lt h x)) by lia. cbn. lia.
  - specialize (IH Hin). destruct (Z.ltb_spec p x), (Z.ltb_spec h x); cbn; lia.
Qed.

Lemma above_length h l : (above h l <= List.length l)%nat.
Proof. unfold above. induction l as [|x l IH]; cbn; [done|]. destruct (h <? x); cbn; lia. Qed.

Lemma wp_find_port fuel h Post s q : kept_ports s q -> (above h (po_port s) < fuel)%nat ->
  (forall p b, p ∉ mkeys (fq_granted q) -> Post (Returned p) s (q <| fq_detected := b |>)) ->
  Post (Thrown FError) s (q <| fq_detected := false |>) -> wp forward_monitor (find_port fuel h) Post s q.
Proof.
  revert h q. induction fuel as [|fuel IH]; intros h q K Hf HP HE; [lia|]. cbn [find_port]. wp_steps. apply wp_call; [done|].
  intros [p|] Hp; cbn [m_assume m_next forward_monitor] in *; wp_steps; [|exact HE].
  pose proof K as [K1 K2 K3]. case_bool_decide as Hin; [|wp_steps; apply HP; by rewrite <- K1].
  destruct Hp as [Hp|Hp]; [|by rewrite K1 in Hin]. apply IH; [by split| |exact (fun p b => HP p b)|exact HE].
  pose proof (above_less h p (po_port s) ltac:(lia) Hin). lia.
Qed.

(** What the attempts for one port of the device did. *)
Definition tried (left : nat) (p : Z) (q : Watched) (o : outcome forward_error unit) (s' : Ports) (q' : Watched) : Prop :=
  kept_ports s' q' /\ fq_device q' = fq_device q /\ fq_listed q' = fq_listed q /\
  match o with
  | Returned _ => exists k, fq_tries q' = fq_tries q ++ repeat p k /\
      ((fq_granted q' = fq_granted q /\ k = left) \/ ((k <= left)%nat /\ exists h, fq_granted q' = fq_granted q ++ [(h, p)]))
  | Thrown FError => fq_detected q' = false /\ fq_granted q' = fq_granted q
  | Thrown FNever | NoFuel => False
  end.

Lemma tries_of_app p a b : tries_of p (a ++ b) = (tries_of p a + tries_of p b)%nat.
Proof. unfold tries_of. by rewrite List.filter_app, List.length_app. Qed.

Lemma wp_try_forward left i p s q : kept_ports s q -> p ∉ mvals (fq_granted q) -> (tries_of p (fq_tries q) + left <= 5)%nat ->
  wp forward_monitor (try_forward fw randomBase left i p) (tried left p q) s q.
Proof.
  revert s q. induction left as [|left IH]; intros s q K Hp Ht; cbn [try_forward]; wp_steps.
  - split_and!; try done. exists 0%nat. cbn. rewrite app_nil_r. auto.
  - pose proof K as [K1 K2 K3]. apply wp_find_port; [done|pose proof (above_length (fd_localBasePort fw + randomBase * 500 + i * 100 + (5 - Z.of_nat (S left)) * 10) (po_port s)); lia| |].
    2:{ split_and!; by try split. }
    intros h b Hh. wp_steps. apply (fl_ask (noted := noted)); [split_and!; cbn -[tries_of]; [done|done|lia]|].
    intros [] ; wp_steps.
    + unfold modify. wp_steps. split_and!; try done; cbn.
      * split; cbn; [by rewrite fl_port, K1; unfold mkeys; rewrite fmap_app| |by apply fl_noted].
        unfold mkeys. rewrite fmap_app. apply list.NoDup_app. split_and!; [done| |apply list.NoDup_singleton]. intros x Hx ->%list_elem_of_singleton. by apply Hh.
      * exists 1%nat. split; [done|]. right. split; [lia|eauto].
    + eapply wp_mono; [apply (IH s (asked h p false (q <| fq_detected := b |>))); [by split|done|]|].
      { cbn -[tries_of]. rewrite tries_of_app. change (tries_of p [p]) with (List.length (if Z.eqb p p then [p] else [])). rewrite Z.eqb_refl. cbn [List.length]. lia. }
      intros o s' q' (K' & Hd & Hl & Ho). split_and!; [done..|]. destruct o as [u|[]|]; [|done..].
      destruct Ho as (k & Hk & Ho). exists (S k). split; [rewrite Hk; cbn; by rewrite <- app_assoc|].
      cbn in Ho. destruct Ho as [[Ho ->]|[Hle [h' Ho]]]; [by left|right]. split; [lia|eauto].
Qed.

(** After the first [ps0] of the ports. *)
Record forwarded_so_far (ps0 : list Z) (s : Ports) (q : Watched) : Prop := {
  fs_kept : kept_ports s q;
  fs_sub : sublist (mvals (fq_granted q)) ps0;
  fs_tries : forall p, p ∈ fq_tries q -> p ∈ ps0;
  fs_done : forall p, p ∈ ps0 -> p ∈ mvals (fq_granted q) \/ tries_of p (fq_tries q) = 5%nat
}.

Lemma tries_of_absent p l : p ∉ l -> tries_of p l = 0%nat.
Proof.
  unfold tries_of. induction l as [|x l IH]; [done|]. intros [Hx H]%not_elem_of_cons. cbn. rewrite (proj2 (Z.eqb_neq p x)) by done. by apply IH.
Qed.

Lemma tries_of_repeat p k : tries_of p (repeat p k) = k.
Proof. unfold tries_of. induction k; cbn; [done|]. rewrite Z.eqb_refl. cbn. by f_equal. Qed.

Definition all_forwarded (ps : list Z) (q : Watched) (o : outcome forward_error unit) (s' : Ports) (q' : Watched) : Prop :=
  fq_device q' = fq_device q /\ fq_listed q' = fq_listed q /\
  match o with
  | Returned _ => forwarded_so_far ps s' q'
  | Thrown FError => fq_detected q' = false /\ kept_ports s' q' /\ sublist (mvals (fq_granted q')) ps
  | Thrown FNever | NoFuel => False
  end.

Lemma tried_so_far ps0 p s q s' q' u : p ∉ ps0 -> forwarded_so_far ps0 s q -> tried 5 p q (Returned u) s' q' -> forwarded_so_far (ps0 ++ [p]) s' q'.
Proof.
  intros Hp [K S1 T D] (K' & _ & _ & k & Hk & Ho).
  assert (tries_of p (fq_tries q) = 0%nat) as H0 by (apply tries_of_absent; auto).
  assert (forall x, x ∈ mvals (fq_granted q) -> x ∈ mvals (fq_granted q')) as Hmono.
  { intros x Hx. destruct Ho as [[-> _]|[_ [h ->]]]; [done|]. unfold mvals in *. rewrite fmap_app. apply elem_of_app. by left. }
  split; [done| | |].
  - destruct Ho as [[-> _]|[_ [h ->]]]; [by apply sublist_inserts_r|]. unfold mvals. rewrite fmap_app. by apply sublist_app.
  - intros x. rewrite Hk, !elem_of_app. intros [Hx|Hx]; [left; auto|right]. apply list_elem_of_In, repeat_spec in Hx as ->. by apply list_elem_of_singleton.
  - intros x. rewrite elem_of_app, Hk, tries_of_app. intros [Hx| ->%list_elem_of_singleton].
    + destruct (D x Hx) as [H1|H1]; [left; auto|right]. rewrite H1, (tries_of_absent x (repeat p k)); [done|].
      intros Hr. apply list_elem_of_In, repeat_spec in Hr as ->. done.
    + rewrite H0, tries_of_repeat. destruct Ho as [[_ ->]|[_ [h ->]]]; [by right|left]. unfold mvals. rewrite fmap_app. apply elem_of_app. right. by apply list_elem_of_singleton.
Qed.

Lemma wp_forward_each ps ps0 i s q : NoDup (ps0 ++ ps) -> forwarded_so_far ps0 s q ->
  wp forward_monitor (forward_each fw randomBase i ps) (all_forwarded (ps0 ++ ps) q) s q.
Proof.
  revert ps0 i s q. induction ps as [|p ps IH]; intros ps0 i s q Hnd H; cbn [forward_each]; wp_steps; [by rewrite app_nil_r|].
  assert (p ∉ ps0) as Hp by (apply list.NoDup_app in Hnd as (_ & Hd & _); intros Hin; apply (Hd p Hin); by left).
  pose proof H as [K S1 T D]. eapply wp_mono; [apply (wp_try_forward 5 i p s q K)|].
  - intros Hin. apply Hp. by eapply elem_of_submseteq, sublist_submseteq.
  - rewrite tries_of_absent; [lia|]. auto.
  - intros o s' q' Ho. unfold and_then. destruct o as [u|[]|]; [| |by destruct Ho as (_ & _ & _ & [])..].
    + pose proof (tried_so_far ps0 p s q s' q' u Hp H Ho) as H'. destruct Ho as (_ & Hd & Hl & _).
      rewrite (app_assoc ps0 [p] ps : ps0 ++ p :: ps = _) in *. eapply wp_mono; [by apply IH|].
      intros o2 s2 q2 (Hd2 & Hl2 & Ho2). split_and!; [congruence..|done].
    + destruct Ho as (K' & Hd & Hl & Hf & Hg). split_and!; try done. rewrite Hg. by apply sublist_inserts_r.
Qed.
End Proof.

(** The old rules are gone; the random base and the loops are left. *)
Lemma wp_forward_rest {fw noted} `{!ForwarderLaws fw noted} remotePorts s q : NoDup remotePorts -> fq_granted q = [] -> fq_tries q = [] ->
  noted (s <| po_port := [] |>) [] ->
  wp forward_monitor (modify (fun d => d <| po_port := [] |>) ;;; mlet randomBase := mcall MathRandom20 in forward_each fw randomBase 0 remotePorts)
    (all_forwarded (noted := noted) remotePorts q) s q.
Proof.
  intros Hnd Hg Ht Hn. unfold modify. wp_steps. apply wp_call; [done|]. intros rb _. cbn [m_next forward_monitor]. wp_steps.
  apply (wp_forward_each rb remotePorts [] 0); [done|]. split; rewrite ?Hg, ?Ht; try done.
  - split; rewrite ?Hg; [done|apply base.NoDup_nil_2|done].
  - by intros ? ?%not_elem_of_nil.
Qed.

(** C24: Whatever adb, its rules and the ports of the host do (detect-port looks
    upwards from the port it is given or finds a free one), forwarding the ports
    of an Android device ends, unless the list of old rules cannot be read.  It
    asks for a rule at most five times per port of the device, never with a port
    of the host that has one already.  In the end the ports of the device object
    are those that adb granted, different ones, with the port of the device they
    lead to; and every port of the device has one or was refused five times.
    Only a failing search for a port makes it throw. *)
Theorem android_ports_forwarded {W} a remotePorts (serve : forall c, W -> forward_reply c * W) s w tr o s' w' : NoDup remotePorts ->
  exec serve (android_forward a remotePorts s) w = (tr, (o, s'), w') -> assumed forward_monitor tr unwatched ->
  let q := watch forward_monitor tr unwatched in
  allowed forward_monitor tr unwatched /\
  match o with
  | Returned _ => fq_device q = true ->
      po_port s' = mkeys (fq_granted q) /\ po_forwardedPorts s' = fq_granted q /\ NoDup (po_port s') /\
      sublist (mvals (fq_granted q)) remotePorts /\
      forall p, p ∈ remotePorts -> p ∈ mvals (fq_granted q) \/ tries_of p (fq_tries q) = 5%nat
  | Thrown FError => fq_detected q = false /\ po_forwardedPorts s' = fq_granted q
  | Thrown FNever => fq_listed q = false /\ po_port s' = po_port s
  | NoFuel => False
  end /\ (fq_listed q = false -> o = Thrown FNever).
Proof.
  intros Hnd E Has q.
  set (Post := fun (o : outcome forward_error unit) (s' : Ports) (q : Watched) =>
    match o with
    | Returned _ => fq_device q = true -> forwarded_so_far (noted := fun d l => po_forwardedPorts d = l) remotePorts s' q
    | Thrown FError => fq_detected q = false /\ po_forwardedPorts s' = fq_granted q
    | Thrown FNever => fq_listed q = false /\ po_port s' = po_port s
    | NoFuel => False
    end /\ (fq_listed q = false -> o = Thrown FNever)).
  assert (wp forward_monitor (android_forward a remotePorts) Post s unwatched) as Hwp.
  { unfold android_forward, modify, try_await, adbForwardRemove. wp_steps. apply wp_call; [done|]. intros found _. cbn [m_next forward_monitor].
    wp_steps. destruct found; wp_steps; [|done]. apply wp_call; [done|]. intros [l|] _; cbn [m_next forward_monitor]; wp_steps; [|done].
    set (q1 := mkWatched true true true [] []).
    apply wp_for with (Inv := fun s1 q => q = q1 /\ po_forwardedPorts s1 = []); [| |done].
    - intros f s1 q0 _ [-> Hs]. case_bool_decide; wp_steps; [done|]. destruct (ours _ _); wp_steps; [|done]. by apply wp_call.
    - intros s1 q0 [-> Hs]. unfold and_then. eapply wp_mono; [by apply (wp_forward_rest remotePorts)|].
      intros [u|[]|] s2 q2 (Hd & Hl & Ho); try done; (split; [|rewrite Hl; done]); [done|]. destruct Ho as (Hf & K & _). split; [done|apply K]. }
  destruct (sat_exec forward_monitor serve _ _ unwatched w tr (o, s') w' Hwp E Has) as [Hal [Ho Hl]]. split; [done|]. split; [|done].
  destruct o as [u|[]|]; [|done..]. intros Hd. destruct (Ho Hd) as [[K1 K2 K3] S1 _ D]. split_and!; try done. by rewrite K1.
Qed.

(** A host on which adb refuses the first rule it is asked for. *)
Definition demo_host (c : forward_call) (refusals : nat) : forward_reply c * nat :=
  match c return forward_reply c * nat with
  | GetDevice => (true, refusals)
  | AdbListForwards => (Some [mkAdbForward (js "S1") (js "tcp:10011") (js "tcp:8901"); mkAdbForward (js "S2") (js "tcp:10012") (js "tcp:8901")], refusals)
  | HdcListForwards => ([mkForward (js "H1") (Some (js "tcp:15001")) (js "tcp:8901"); mkForward (js "H2") (Some (js "tcp:15002")) (js "tcp:9999")], refusals)
  | ExecCmd _ => (tt, refusals)
  | HdcRemoveForward _ _ => (true, refusals)
  | MathRandom20 => (3, refusals)
  | DetectPort p => (Some p, refusals)
  | AdbForwardTo _ _ => match refusals with S n => (Some false, n) | O => (Some true, O) end
  | HdcForwardTo _ _ => match refusals with S n => (false, n) | O => (true, O) end
  end.

Definition demo_adb : AdbTool := mkAdbTool None false (js "127.0.0.1") (js "5037") (js "S1").

Definition events_of {A} (r : list (event forward_call forward_reply) * A * nat) : list (event forward_call forward_reply) := r.1.1.

Lemma android_ports_forwarded_witness :
  let r := exec demo_host (android_forward demo_adb [8901; 8902] (mkPorts [8901; 8902] [])) 1%nat in
  po_port r.1.2.2 = [11511; 11601] /\ po_forwardedPorts r.1.2.2 = [(11511, 8901); (11601, 8902)] /\ NoDup (po_port r.1.2.2) /\
  List.map (@ev_call _ _) (events_of r) !! 2%nat = Some (ExecCmd (js "adb -H 127.0.0.1 -P 5037 -s S1 forward --remove tcp:10011")).
Proof.
  pose (r := exec demo_host (android_forward demo_adb [8901; 8902] (mkPorts [8901; 8902] [])) 1%nat).
  assert (assumed forward_monitor r.1.1 unwatched) as Has by (vm_compute; repeat split; left; discriminate).
  destruct (android_ports_forwarded demo_adb [8901; 8902] demo_host (mkPorts [8901; 8902] []) 1%nat r.1.1 (Returned tt) r.1.2.2 r.2
    ltac:(apply (bool_decide_unpack _); vm_compute; exact I) ltac:(vm_compute; reflexivity) Has) as (_ & H & _).
  destruct (H ltac:(vm_compute; reflexivity)) as (_ & _ & Hnd & _). split_and!; [vm_compute; reflexivity..|exact Hnd|].
  vm_compute. reflexivity.
Defined.

(** ** Removing old rules *)

Section Removed.
Context {W : Type} (serve : forall c, W -> forward_reply c * W).

Lemma removal_loop remotePorts l s w : exists evs w',
  exec serve (mfor l (remove_rule remotePorts) s) w = (evs, (Returned tt, s), w') /\
  List.map (@ev_call _ _) evs = List.map removal (List.filter (fun f => ours remotePorts (fw_remote f)) l).
Proof.
  revert w. induction l as [|f l IH]; intros w; cbn [mfor List.filter]; [by exists [], w|]. unfold mthen, remove_rule at 1. rewrite exec_bind.
  destruct (ours remotePorts (fw_remote f)).
  - change (exec serve ((mcall (removal f) ;;; mret tt) s) w) with
      (let '(r, w) := serve (removal f) w in ([mkEvent (removal f) r], (Returned tt : outcome forward_error unit, s), w)).
    destruct (serve (removal f) w) as [r w1]. destruct (IH w1) as (evs & w' & E1 & E2). exists (mkEvent (removal f) r :: evs), w'.
    rewrite E1. cbn. by rewrite E2.
  - cbn. destruct (IH w) as (evs & w' & E1 & E2). exists evs, w'. by rewrite E1.
Qed.
End Removed.

(** What forwarding the ports of a Harmony device removes: the rules that
    hdc lists whose port on the device is one of the connector's, all of them
    and no others, and the removal always ends.  The key of the device in a rule
    is not looked at: the rules of every connected Harmony device go. *)
Theorem harmony_rules_removed {W} remotePorts (serve : forall c, W -> forward_reply c * W) s w : exists l evs w',
  exec serve (harmony_removeForward remotePorts s) w = (mkEvent HdcListForwards l :: evs, (Returned tt, s), w') /\
  l = (serve HdcListForwards w).1 /\
  List.map (@ev_call _ _) evs = List.map removal (List.filter (fun f => ours remotePorts (fw_remote f)) l).
Proof.
  unfold harmony_removeForward, mthen. rewrite exec_bind. cbn [exec mcall].  destruct (serve HdcListForwards w) as [l w1].
  destruct (removal_loop serve remotePorts l s w1) as (evs & w' & E1 & E2). exists l, evs, w'. by rewrite E1.
Qed.

(** Forwarding the ports of a Harmony device always ends; only a failing search
    for a port makes it throw. *)
Lemma wp_harmony_forward remotePorts s : NoDup remotePorts ->
  wp forward_monitor (harmony_forward remotePorts) (fun o s' q =>
    match o with
    | Returned _ => fq_device q = true -> forwarded_so_far (noted := fun _ _ => True) remotePorts s' q
    | Thrown FError => fq_detected q = false
    | Thrown FNever | NoFuel => False
    end) s unwatched.
Proof.
  intros Hnd. unfold harmony_forward, try_await, harmony_removeForward. wp_steps. apply wp_call; [done|]. intros found _. cbn [m_next forward_monitor].
  wp_steps. destruct found; wp_steps; [|done]. apply wp_call; [done|]. intros l _. cbn [m_next forward_monitor]. wp_steps.
  set (q1 := mkWatched true true true [] []). apply wp_for with (Inv := fun _ q => q = q1); [| |done].
  - intros f s1 q0 _ ->. unfold remove_rule. destruct (ours _ _); wp_steps; [|done]. by apply wp_call.
  - intros s1 q0 ->. unfold and_then. eapply wp_mono; [by apply (wp_forward_rest remotePorts)|].
    intros [u|[]|] s2 q2 (Hd & Hl & Ho); try done. by destruct Ho as [? _].
Qed.
