(* ===== verification/Lockdown.v ===== *)
(** * Reading the name of an iOS device

    Models [makeParse] of [device/ios/iOSDeviceManager.ts] and the request that
    [handleDeviceConnect] writes: the lockdown service of a device answers with
    property lists, each after its length in four bytes; the parser is called
    with the chunks of the tunnel.

    [plist] is not part of the repository: [plist.parse] is a parameter. *)

From Stdlib Require Import String.
From stdpp Require Import strings.
From S2P Require Import JsValue Json Utf8 Transport Hdc.

(** The variables of the closure; [pa_len] is 0 before the first chunk, where the
    code has [undefined]. *)
Record Parse := mkParse { pa_len : Z; pa_msg : jstr }.

Definition new_parse : Parse := mkParse 0 [].

Section Parser.
Variable plist_parse : jstr -> option json.     (* [None]: it throws *)

(** The part after the header; [again] is the call of itself.  The results
    handed to [onComplete], the variables, and whether the call throws. *)
Definition parse_body (again : list Z -> Parse -> list json * Parse * bool) (data : list Z) (p : Parse) : list json * Parse * bool :=
  let body := take (Z.to_nat (pa_len p)) data in
  let p := mkParse (pa_len p - zlen body) (pa_msg p ++ utf8_decode body) in
  let data := drop (List.length body) data in
  let next rs := if bool_decide (data = []) then (rs, p, false) else let '(rs', p, threw) := again data p in (rs ++ rs', p, threw) in
  if pa_len p =? 0 then match plist_parse (pa_msg p) with None => ([], p, true) | Some r => next [r] end else next [].

(** Every call of itself has a shorter argument. *)
Fixpoint parse_data (fuel : nat) (data : list Z) (p : Parse) : list json * Parse * bool :=
  match fuel with
  | O => ([], p, false)
  | S fuel =>
      if negb (pa_len p =? 0) then parse_body (parse_data fuel) data p
      else if zlen data <? 4 then ([], p, true)
      else
        let p := mkParse (be32_value data) [] in
        let data := drop 4 data in
        if bool_decide (data = []) then ([], p, false) else parse_body (parse_data fuel) data p
  end.

Definition parse_chunk (data : list Z) (p : Parse) : list json * Parse * bool := parse_data (S (List.length data)) data p.

(** The chunks of a tunnel; an exception in the listener ends the process. *)
Fixpoint parse_chunks (cs : list (list Z)) (p : Parse) : list json * Parse * bool :=
  match cs with
  | [] => ([], p, false)
  | c :: cs =>
      let '(r1, p, threw) := parse_chunk c p in
      if threw then (r1, p, true) else let '(r2, p, threw) := parse_chunks cs p in (r1 ++ r2, p, threw)
  end.

(** The request for the name of a device; [payload] is the property list of it. *)
Definition name_request (payload : jstr) : list Z := let b := utf8_encode payload in be32 (zlen b) ++ b.

(** ** The messages of a stream *)

Fixpoint frames_fuel (fuel : nat) (bytes : list Z) : list (list Z) * list Z :=
  match fuel with
  | O => ([], bytes)
  | S fuel =>
      match value_of bytes with
      | Some v => let '(fs, rest) := frames_fuel fuel (drop (4 + List.length v) bytes) in (v :: fs, rest)
      | None => ([], bytes)
      end
  end.

Definition frames (bytes : list Z) : list (list Z) * list Z := frames_fuel (S (List.length bytes)) bytes.

Lemma value_of_length bytes v : value_of bytes = Some v -> (4 + List.length v <= List.length bytes)%nat.
Proof.
  unfold value_of. destruct (_ || _) eqn:E; [done|]. apply orb_false_elim in E as [E1%Z.ltb_ge E2%Z.ltb_ge]. intros [= <-].
  unfold zlen in *. rewrite length_take, length_drop. lia.
Qed.

Lemma frames_fuel_enough f1 f2 bytes : (List.length bytes < f1)%nat -> (List.length bytes < f2)%nat -> frames_fuel f1 bytes = frames_fuel f2 bytes.
Proof.
  revert f2 bytes. induction f1 as [|f1 IH]; intros f2 bytes H1 H2; [lia|]. destruct f2 as [|f2]; [lia|]. cbn.
  destruct (value_of bytes) as [v|] eqn:E; [|done]. apply value_of_length in E. rewrite (IH f2) by (rewrite length_drop; lia). done.
Qed.

Lemma frames_unfold bytes : frames bytes =
  match value_of bytes with Some v => let '(fs, rest) := frames (drop (4 + List.length v) bytes) in (v :: fs, rest) | None => ([], bytes) end.
Proof.
  unfold frames at 1. cbn. destruct (value_of bytes) as [v|] eqn:E; [|done]. apply value_of_length in E.
  unfold frames. rewrite (frames_fuel_enough (List.length bytes) (S (List.length (drop (4 + List.length v) bytes)))); [done|rewrite !length_drop; lia..].
Qed.

(** A chunk boundary that no header lies across: what is left of the stream is
    nothing or has a whole header. *)
Definition whole_header (bytes : list Z) : bool := let rest := (frames bytes).2 in bool_decide (rest = []) || (4 <=? zlen rest).

Definition ascii (l : list Z) : bool := forallb (fun b => (0 <=? b) && (b <? 128)) l.

(** Messages that are not empty and of ASCII characters; so is the beginning of
    one that is not complete. *)
Definition plain (bytes : list Z) : bool :=
  let '(fs, rest) := frames bytes in forallb (fun f => ascii f && negb (bool_decide (f = []))) fs && ascii (drop 4 rest).

(** The variables of the parser when [rest] is left of the stream. *)
Definition parse_of (rest : list Z) (p : Parse) : Prop :=
  if bool_decide (rest = []) then pa_len p = 0 else pa_len p = be32_value rest - (zlen rest - 4) /\ pa_msg p = drop 4 rest.

(** What the parser does with a chunk after [rest]. *)
Definition parsed (rest data : list Z) (res : list json * Parse * bool) : Prop :=
  forall rs, List.map plist_parse (frames (rest ++ data)).1 = List.map Some rs ->
  exists p, res = (rs, p, negb (whole_header (rest ++ data))) /\ (whole_header (rest ++ data) = true -> parse_of (frames (rest ++ data)).2 p).

Lemma utf8_ascii l : ascii l = true -> utf8_decode l = l.
Proof.
  induction l as [|b l IH]; [done|]. cbn [ascii forallb]. intros [Hb Hl]%andb_prop. rewrite decode_1 by lia. by rewrite IH.
Qed.

Lemma ascii_app a b : ascii (a ++ b) = ascii a && ascii b.
Proof. apply forallb_app. Qed.

(** A message whose last part is in a chunk, or is not. *)
Lemma value_ends rest data : let k := be32_value rest - (zlen rest - 4) in 4 <= zlen rest -> 0 < k <= zlen data ->
  let v := drop 4 rest ++ take (Z.to_nat k) data in
  value_of (rest ++ data) = Some v /\ drop (4 + List.length v) (rest ++ data) = drop (Z.to_nat k) data.
Proof.
  intros k H4 Hk v. set (r4 := drop 4 rest). assert (Z.of_nat (List.length r4) = zlen rest - 4) as Hr.
  { subst r4. rewrite length_drop. unfold zlen in *. lia. }
  assert (List.length v = Z.to_nat (be32_value rest)) as Hv.
  { subst v. fold r4. rewrite length_app, length_take. unfold k, zlen in *. lia. }
  assert (drop 4 (rest ++ data) = r4 ++ data) as Hd by (rewrite drop_app_le; [done|unfold zlen in *; lia]). split.
  - unfold value_of. rewrite be32_value_take, zlen_app by done. rewrite !(proj2 (Z.ltb_ge _ _)) by (unfold k in *; lia). cbn [orb]. f_equal.
    rewrite Hd, <- Hv. subst v. fold r4. rewrite length_app, take_app_ge by lia. f_equal. f_equal. rewrite length_take. unfold zlen in *. lia.
  - rewrite <- drop_drop, Hd, Hv. rewrite drop_app_ge by (unfold k, zlen in *; lia). f_equal. unfold k, zlen in *. lia.
Qed.

Lemma value_goes_on rest data : 4 <= zlen rest -> zlen data < be32_value rest - (zlen rest - 4) -> value_of (rest ++ data) = None.
Proof.
  intros H4 Hk. unfold value_of. rewrite be32_value_take, zlen_app by done. rewrite (proj2 (Z.ltb_lt (zlen rest + zlen data) (4 + _))) by lia. by rewrite orb_true_r.
Qed.

Lemma parse_body_ok again rest data p : 4 <= zlen rest -> zlen rest < 4 + be32_value rest -> parse_of rest p -> data <> [] ->
  plain (rest ++ data) = true ->
  (forall data' p', (List.length data' < List.length data)%nat -> data' <> [] -> pa_len p' = 0 -> plain data' = true ->
    parsed [] data' (again data' p')) ->
  parsed rest data (parse_body again data p).
Proof.
  intros H4 HL Hp Hd Hpl IH. unfold parse_of in Hp. rewrite bool_decide_eq_false_2 in Hp by (by intros ->). destruct Hp as [Hp1 Hp2].
  assert (drop 4 (rest ++ data) = drop 4 rest ++ data) as Hd4 by (rewrite drop_app_le; [done|unfold zlen in *; lia]).
  unfold parsed, plain, whole_header in *. rewrite frames_unfold in Hpl |- *. unfold parse_body. rewrite Hp1, Hp2.
  set (k := be32_value rest - (zlen rest - 4)) in *. destruct (Z.le_gt_cases k (zlen data)) as [Hle|Hgt].
  - destruct (value_ends rest data H4 ltac:(lia)) as [Hv Hdr]. fold k in Hv, Hdr. rewrite Hv, Hdr in *. clear Hv Hdr.
    rewrite zlen_take, Z.sub_diag by lia. cbn [pa_len pa_msg Z.eqb]. assert (List.length (take (Z.to_nat k) data) = Z.to_nat k) as Hk by (rewrite length_take; unfold zlen in *; lia).
    rewrite Hk. set (d' := drop (Z.to_nat k) data) in *. destruct (frames d') as [fs rest2] eqn:Ef. cbn [fst snd] in *.
    cbn [forallb] in Hpl. apply andb_prop in Hpl as [Hpl Hr]. apply andb_prop in Hpl as [Hpv Hpf]. apply andb_prop in Hpv as [Hpv _].
    rewrite ascii_app in Hpv. apply andb_prop in Hpv as [_ Hpv]. rewrite utf8_ascii by done. intros rs Hrs. cbn [List.map] in Hrs.
    destruct rs as [|r rs]; [done|]. cbn in Hrs. injection Hrs as Hr0 Hrs. rewrite Hr0. destruct (bool_decide_reflect (d' = [])) as [Hd'|Hd'].
    + rewrite Hd' in Ef. change (frames []) with (([], []) : list (list Z) * list Z) in Ef. injection Ef as <- <-. destruct rs; [|done]. eexists. split; [done|]. done.
    + destruct (IH d' (mkParse 0 (drop 4 rest ++ take (Z.to_nat k) data))) with (rs := rs) as (p' & -> & Hp'); try done.
      * subst d'. rewrite length_drop. destruct data; [done|]. cbn. lia.
      * by rewrite Ef, Hpf, Hr.
      * cbn [app]. by rewrite Ef.
      * exists p'. cbn [app] in Hp' |- *. rewrite Ef in Hp' |- *. done.
  - rewrite (value_goes_on rest data H4 ltac:(lia)) in *. cbn [fst snd] in *. intros rs Hrs. destruct rs; [|done].
    rewrite (take_ge data) by (unfold zlen in *; lia). cbn [pa_len pa_msg]. rewrite (proj2 (Z.eqb_neq _ 0)) by lia. rewrite drop_all. rewrite bool_decide_eq_true_2 by done.
    assert (zlen rest + zlen data >= 4) by (unfold zlen in *; lia). rewrite zlen_app, (proj2 (Z.leb_le 4 _)), orb_true_r by lia.
    eexists. split; [done|]. intros _. unfold parse_of. rewrite bool_decide_eq_false_2 by (by destruct rest; destruct data). cbn [pa_len pa_msg].
    rewrite be32_value_take, zlen_app, Hd4 by done. cbn in Hpl. rewrite Hd4, ascii_app in Hpl. apply andb_prop in Hpl as [_ Hpl]. rewrite utf8_ascii by done. split; [lia|done].
Qed.

Lemma parse_data_ok fuel rest data p : (List.length data < fuel)%nat -> data <> [] -> parse_of rest p ->
  (rest = [] \/ (4 <= zlen rest /\ zlen rest < 4 + be32_value rest)) -> plain (rest ++ data) = true ->
  parsed rest data (parse_data fuel data p).
Proof.
  revert rest data p. induction fuel as [|fuel IH]; intros rest data p Hf Hd Hp Hr Hpl; [lia|]. cbn [parse_data].
  assert (forall n data' p', (List.length data' < n)%nat -> (n <= fuel)%nat -> data' <> [] -> pa_len p' = 0 -> plain data' = true ->
    parsed [] data' (parse_data fuel data' p')) as Hagain by (intros; apply IH; auto; lia).
  destruct Hr as [->|[H4 HL]].
  - unfold parse_of in Hp. cbn in Hp. rewrite Hp. cbn [Z.eqb negb]. cbn [app] in *. destruct (Z.ltb_spec (zlen data) 4) as [Hlt|Hge].
    { unfold parsed, whole_header. cbn [app]. rewrite frames_unfold. unfold value_of. rewrite (proj2 (Z.ltb_lt _ _) Hlt). cbn [orb fst snd].
      rewrite bool_decide_eq_false_2, (proj2 (Z.leb_gt _ _) Hlt) by done. intros rs Hrs. destruct rs; [|done]. eexists. split; [done|done]. }
    assert (take 4 data ++ drop 4 data = data) as Hcut by apply take_drop. assert (zlen (take 4 data) = 4) as Ht by (apply (zlen_take 4); lia).
    assert (be32_value (take 4 data) = be32_value data) as Hbe by (rewrite <- Hcut at 2; rewrite be32_value_take; [done|lia]).
    assert (0 < be32_value data) as Hpos.
    { pose proof (be32_value_nonneg data). destruct (Z.eq_dec (be32_value data) 0) as [E0|]; [|lia]. exfalso. unfold plain in Hpl. rewrite frames_unfold in Hpl.
      unfold value_of in Hpl. rewrite E0, !(proj2 (Z.ltb_ge (zlen data) _)) in Hpl by lia. cbn [orb Z.to_nat take] in Hpl.
      match type of Hpl with context [frames ?x] => destruct (frames x) end. done. }
    destruct (bool_decide_reflect (drop 4 data = [])) as [Hd4|Hd4].
    + unfold parsed, whole_header. cbn [app]. rewrite frames_unfold. assert (value_of data = None) as ->.
      { rewrite Hd4, app_nil_r in Hcut. unfold value_of. rewrite <- Hcut at 1 2. rewrite Ht. rewrite (proj2 (Z.ltb_lt 4 (4 + _))) by lia. by rewrite orb_true_r. }
      intros rs Hrs. destruct rs; [|done]. cbn [snd]. rewrite (proj2 (Z.leb_le 4 _)), orb_true_r by lia. eexists. split; [done|]. intros _.
      unfold parse_of. rewrite bool_decide_eq_false_2 by done. cbn [pa_len pa_msg]. rewrite Hd4. rewrite Hd4, app_nil_r in Hcut. rewrite Hcut in Ht. rewrite Ht. split; [lia|done].
    + assert (parsed (take 4 data) (drop 4 data) (parse_body (parse_data fuel) (drop 4 data) (mkParse (be32_value data) []))) as H.
      { apply parse_body_ok; rewrite ?Ht, ?Hbe, ?Hcut; try done; try lia.
        - unfold parse_of. rewrite bool_decide_eq_false_2 by (intros E; by rewrite E in Ht). cbn. rewrite Ht, Hbe. split; [lia|]. symmetry. apply drop_ge. rewrite length_take. lia.
        - intros. apply (Hagain (List.length data)); try done; [rewrite length_drop in *; lia|lia]. }
      unfold parsed in *. cbn [app]. by rewrite Hcut in H.
  - pose proof Hp as Hp'. unfold parse_of in Hp'. rewrite bool_decide_eq_false_2 in Hp' by (by intros ->). destruct Hp' as [-> _].
    rewrite (proj2 (Z.eqb_neq _ 0)) by lia. cbn [negb]. apply parse_body_ok; try done. intros. by apply (Hagain (List.length data)); try lia.
Qed.

(** *** Streams in pieces *)

Lemma value_of_app a b v : value_of a = Some v -> value_of (a ++ b) = Some v.
Proof.
  unfold value_of. destruct (_ || _) eqn:E; [done|]. apply orb_false_elim in E as [E1%Z.ltb_ge E2%Z.ltb_ge]. intros [= <-].
  pose proof (Zle_0_nat (List.length b)) as Hb. fold (zlen b) in Hb. pose proof (be32_value_nonneg a).
  rewrite be32_value_take, zlen_app by done. rewrite !(proj2 (Z.ltb_ge _ _)) by lia. cbn [orb].
  rewrite drop_app_le by (unfold zlen in *; lia). rewrite take_app_le; [done|]. rewrite length_drop. unfold zlen in *. lia.
Qed.

Lemma frames_app a b : frames (a ++ b) = let '(fs, r) := frames a in let '(fs2, r2) := frames (r ++ b) in (fs ++ fs2, r2).
Proof.
  remember (List.length a) as n eqn:Hn. revert a Hn. induction n as [n IH] using lt_wf_ind. intros a ->.
  rewrite (frames_unfold a). destruct (value_of a) as [v|] eqn:E; [|by destruct (frames (a ++ b))].
  rewrite frames_unfold, (value_of_app a b v E). pose proof (value_of_length a v E). rewrite drop_app_le by lia.
  rewrite (IH (List.length (drop (4 + List.length v) a))); [|rewrite length_drop; lia|done].
  destruct (frames (drop _ a)) as [fs r]. by destruct (frames (r ++ b)).
Qed.

Lemma frames_rest a : value_of (frames a).2 = None.
Proof.
  remember (List.length a) as n eqn:Hn. revert a Hn. induction n as [n IH] using lt_wf_ind. intros a ->.
  rewrite frames_unfold. destruct (value_of a) as [v|] eqn:E; [|done]. pose proof (value_of_length a v E).
  specialize (IH (List.length (drop (4 + List.length v) a)) ltac:(rewrite length_drop; lia) _ eq_refl). by destruct (frames (drop _ a)).
Qed.

(** A rest with its header is not complete. *)
Lemma rest_open r : value_of r = None -> (bool_decide (r = []) || (4 <=? zlen r)) = true -> r = [] \/ (4 <= zlen r /\ zlen r < 4 + be32_value r).
Proof.
  intros Hv [H|H%Z.leb_le]%orb_true_iff; [left; by apply bool_decide_eq_true in H|right]. split; [done|]. unfold value_of in Hv.
  rewrite (proj2 (Z.ltb_ge (zlen r) 4)) in Hv by lia. cbn in Hv. destruct (Z.ltb_spec (zlen r) (4 + be32_value r)); [done|done].
Qed.

Lemma plain_app a b : plain (a ++ b) = true -> plain a = true /\ plain ((frames a).2 ++ b) = true.
Proof.
  unfold plain. rewrite frames_app. pose proof (frames_rest a) as Hr. destruct (frames a) as [fs r]. cbn [snd] in *.
  destruct (frames (r ++ b)) as [fs2 r2] eqn:E2. rewrite forallb_app, !andb_true_iff. intros [[H1 H2] H3]. split_and!; try done.
  destruct (decide (4 <= zlen r)) as [H4|H4]; [|rewrite drop_ge by (unfold zlen in H4; lia); done].
  assert (drop 4 (r ++ b) = drop 4 r ++ b) as Hd by (rewrite drop_app_le; [done|unfold zlen in *; lia]).
  rewrite frames_unfold in E2. destruct (value_of (r ++ b)) as [v|] eqn:Ev.
  - destruct (frames (drop _ (r ++ b))). injection E2 as <- <-. cbn [forallb] in H2. apply andb_prop in H2 as [H2 _]. apply andb_prop in H2 as [H2 _].
    unfold value_of in Ev, Hr. rewrite (proj2 (Z.ltb_ge (zlen r) 4)) in Hr by lia. cbn in Hr. destruct (Z.ltb_spec (zlen r) (4 + be32_value r)); [|done].
    rewrite be32_value_take in Ev by done. destruct (_ || _); [done|]. injection Ev as <-. rewrite Hd, take_app_ge, ascii_app in H2 by (rewrite length_drop; unfold zlen in *; lia).
    by apply andb_prop in H2 as [H2 _].
  - injection E2 as <- <-. rewrite Hd, ascii_app in H3. by apply andb_prop in H3 as [H3 _].
Qed.

Lemma map_split {A B} (f : A -> option B) (a b : list A) rs : List.map f (a ++ b) = List.map Some rs ->
  exists ra rb, rs = ra ++ rb /\ List.map f a = List.map Some ra /\ List.map f b = List.map Some rb.
Proof.
  revert rs. induction a as [|x a IH]; intros rs H; [by exists [], rs|]. destruct rs as [|r rs]; [done|]. cbn in H. injection H as Hx H.
  destruct (IH rs H) as (ra & rb & -> & Ha & Hb). exists (r :: ra), rb. cbn. by rewrite Hx, Ha.
Qed.

(** The chunk boundaries, all of them. *)
Fixpoint whole_headers (bytes : list Z) (cs : list (list Z)) : bool :=
  match cs with [] => true | c :: cs => whole_header (bytes ++ c) && whole_headers (bytes ++ c) cs end.

Lemma parse_chunks_ok cs rest p rs : value_of rest = None -> (bool_decide (rest = []) || (4 <=? zlen rest)) = true -> parse_of rest p ->
  (forall c, c ∈ cs -> c <> []) -> plain (rest ++ concat cs) = true -> List.map plist_parse (frames (rest ++ concat cs)).1 = List.map Some rs ->
  (whole_headers rest cs = true -> exists p', parse_chunks cs p = (rs, p', false)) /\
  (whole_headers rest cs = false -> exists rs' p', parse_chunks cs p = (rs', p', true)).
Proof.
  revert rest p rs. induction cs as [|c cs IH]; intros rest p rs Hv Hw Hp Hc Hpl Hrs.
  - cbn [concat] in Hrs. rewrite app_nil_r, frames_unfold, Hv in Hrs. destruct rs; [|done]. split; [|done]. intros _. by exists p.
  - cbn [concat] in Hpl, Hrs. rewrite app_assoc in Hpl, Hrs. destruct (plain_app _ _ Hpl) as [Hp1 Hp2]. rewrite frames_app in Hrs.
    pose proof (parse_data_ok (S (List.length c)) rest c p ltac:(lia) (Hc c ltac:(left)) Hp (rest_open rest Hv Hw) Hp1) as H.
    pose proof (frames_rest (rest ++ c)) as Hv2. unfold parsed in H. cbn [whole_headers parse_chunks]. fold (parse_chunk c p) in H.
    assert (whole_header (rest ++ c) = (let r := (frames (rest ++ c)).2 in bool_decide (r = []) || (4 <=? zlen r))) as Hwd by done. cbv zeta in Hwd.
    assert (forall l, whole_headers (rest ++ c) l = whole_headers (frames (rest ++ c)).2 l) as Hwh.
    { intros l. generalize (rest ++ c) as a. induction l as [|x l IHl]; intros a; [done|]. cbn [whole_headers].
      rewrite (IHl (a ++ x)), (IHl ((frames a).2 ++ x)). unfold whole_header. rewrite (frames_app a x). destruct (frames a) as [fa ra]. cbn [snd].
      by destruct (frames (ra ++ x)). }
    rewrite Hwh. destruct (frames (rest ++ c)) as [fs r] eqn:Ef. cbn [fst snd] in *. destruct (frames (r ++ concat cs)) as [fs2 r2] eqn:Ef2.
    apply map_split in Hrs as (ra & rb & -> & Ha & Hb). destruct (H ra Ha) as (p1 & -> & Hp1'). destruct (whole_header (rest ++ c)); cbn [negb andb].
    + destruct (IH r p1 rb) as [I1 I2]; [done|by rewrite <- Hwd|by apply Hp1'|intros; apply Hc; by right|done|by rewrite Ef2|]. split; intros Hx.
      * destruct (I1 Hx) as (p' & ->). by exists p'.
      * destruct (I2 Hx) as (rs' & p' & ->). by eexists _, p'.
    + split; [done|]. intros _. by eexists _, p1.
Qed.
End Parser.

(** C39: The answers of the lockdown service of an iOS device (not empty, of ASCII
    characters, each a property list) are read as they were sent however they
    are cut into chunks, as long as no chunk ends inside the four bytes of a
    length; when one does, the parser throws in the listener of the tunnel, which
    stops the daemon. *)
Theorem lockdown_answers_read plist_parse cs rs : (forall c, c ∈ cs -> c <> []) -> plain (concat cs) = true ->
  List.map plist_parse (frames (concat cs)).1 = List.map Some rs ->
  if whole_headers [] cs then exists p, parse_chunks plist_parse cs new_parse = (rs, p, false)
  else exists rs' p, parse_chunks plist_parse cs new_parse = (rs', p, true).
Proof.
  intros Hc Hpl Hrs. destruct (parse_chunks_ok plist_parse cs [] new_parse rs eq_refl eq_refl eq_refl Hc Hpl Hrs) as [H1 H2].
  destruct (whole_headers [] cs); auto.
Qed.

(** Property lists that are strings. *)
Definition demo_plist (s : jstr) : option json := Some (JStr s).

Lemma lockdown_answers_read_witness :
  (exists p, parse_chunks demo_plist [[0; 0; 0; 2; 104]; [105; 0; 0; 0; 1; 33]] new_parse = ([jstring "hi"; jstring "!"], p, false)) /\
  (exists rs p, parse_chunks demo_plist [[0; 0]; [0; 2; 104; 105]] new_parse = (rs, p, true)).
Proof.
  split.
  - apply (lockdown_answers_read demo_plist [[0; 0; 0; 2; 104]; [105; 0; 0; 0; 1; 33]] [jstring "hi"; jstring "!"]); [|reflexivity..].
    intros c Hc ->. repeat (apply elem_of_cons in Hc as [Hc|Hc]; [discriminate|]). by apply not_elem_of_nil in Hc.
  - apply (lockdown_answers_read demo_plist [[0; 0]; [0; 2; 104; 105]] [jstring "hi"]); [|reflexivity..].
    intros c Hc ->. repeat (apply elem_of_cons in Hc as [Hc|Hc]; [discriminate|]). by apply not_elem_of_nil in Hc.
Defined.

(** A character of two bytes that a chunk ends in becomes two replacement
    characters: the name of a device is garbled. *)
Example name_garbled : parse_chunks demo_plist [[0; 0; 0; 2; 195]; [169]] new_parse = ([JStr [65533; 65533]], mkParse 0 [65533; 65533], false).
Proof. reflexivity. Qed.
