(* ===== verification/RemoteDriver.v ===== *)
(** * The remote debug driver

    Models [remote_debug_driver/src]: the messages of a debug room
    ([proxy/message.ts], [proxy/message.model.ts], [server/interface/custom.ts]),
    the driver that joins a room over a socket and talks to the clients in it
    ([server/core/driver.ts]), and the browser's socket ([web/index.ts]).

    The callbacks of the application are effects, in the order they are called.
    The clock is an argument.  What a message of an unexpected shape makes the
    code throw is modelled; the effects before the exception stay. *)

From Stdlib Require Import String.
From stdpp Require Import strings.
From S2P Require Import JsValue Json Utf8 Transport Ownership Protocol Message Trace WebSocket Entry Hdc.

(** ** Messages *)

Inductive SocketEvents :=
  | Initialize | Register | Registered | CreateRoom | RoomCreated | JoinRoom | ListClients | ClientList | RoomJoined
  | LeaveRoom | RoomLeaved | CloseRoom | RoomClosed | Exception | Customized | Ping | Pong.

Definition socket_event_name (e : SocketEvents) : jstr :=
  js (match e with
      | Initialize => "Initialize" | Register => "Register" | Registered => "Registered" | CreateRoom => "CreateRoom"
      | RoomCreated => "RoomCreated" | JoinRoom => "JoinRoom" | ListClients => "ListClients" | ClientList => "ClientList"
      | RoomJoined => "RoomJoined" | LeaveRoom => "LeaveRoom" | RoomLeaved => "RoomLeaved" | CloseRoom => "CloseRoom"
      | RoomClosed => "RoomClosed" | Exception => "Exception" | Customized => "Customized" | Ping => "Ping" | Pong => "Pong"
      end).

Definition availableEvents : list SocketEvents :=
  [Initialize; Register; Registered; CreateRoom; RoomCreated; JoinRoom; ListClients; ClientList; RoomJoined;
   LeaveRoom; RoomLeaved; CloseRoom; RoomClosed; Exception; Customized; Ping; Pong].

Inductive SocketExceptions := PermissionDenied | NotFound | UselessAction | UnknownCommand | RoomIdAlreadyExists | CannotSendToSelf.

Definition exception_name (e : SocketExceptions) : jstr :=
  js (match e with
      | PermissionDenied => "PermissionDenied" | NotFound => "NotFound" | UselessAction => "UselessAction"
      | UnknownCommand => "UnknownCommand" | RoomIdAlreadyExists => "RoomIdAlreadyExists" | CannotSendToSelf => "CannotSendToSelf"
      end).

(** [encodeSocketMessage({ event, data, to })]. *)
Definition encodeSocketMessage (event : SocketEvents) (data to : jsval) : jstr :=
  stringify (JObj ((js "event", JStr (socket_event_name event)) :: opt_field "data" data ++ opt_field "to" to)).

Definition isTypedMessage (message : jsval) (event : SocketEvents) : bool := jeq_str (message@."event") (socket_event_name event).

(** [decodeSocketMessage(data)]: a text that is no JSON object with an event is
    no message.  The [data] it adds is [undefined]. *)
Definition decodeSocketMessage (text : jstr) : jsval :=
  match parse text with
  | Some (JObj kvs) => if mhas (js "event") kvs then Some (JObj kvs) else None
  | _ => None
  end.

(** [decodeSocketMessage(data, event)]. *)
Definition decodeTyped (text : jstr) (event : SocketEvents) : jsval :=
  match decodeSocketMessage text with
  | Some m => if isTypedMessage (Some m) event then Some m else None
  | None => None
  end.

Definition isUnknownMessage (message : jsval) : bool :=
  match message with
  | None => true
  | Some m => negb (existsb (fun e => jeq_str ((Some m)@."event") (socket_event_name e)) availableEvents)
  end.

(** [createMessageHandler(handler, connection, handleUnknownMessage)] given a
    text: what goes to the connection and what to the handler. *)
Definition message_handler (connection handleUnknownMessage : bool) (text : jstr) : option jstr * jsval :=
  let message := decodeSocketMessage text in
  if handleUnknownMessage && isUnknownMessage message
  then (if connection then Some (encodeSocketMessage Exception (Some (JStr (exception_name UnknownCommand))) None) else None, None)
  else (None, message).

Inductive ECustomDataType :=
  | CuClientList | CuSessionList | CuCDP | CuD2RStopAtEntry | CuR2DStopAtEntry | CuD2RStopLepusAtEntry | CuR2DStopLepusAtEntry
  | CuOpenCard | CuCardGenerated | CuUsbConnect | CuUsbConnectAck | CuHMR | CuRemoteCall.

Definition custom_name (t : ECustomDataType) : jstr :=
  js (match t with
      | CuClientList => "ClientList" | CuSessionList => "SessionList" | CuCDP => "CDP" | CuD2RStopAtEntry => "D2RStopAtEntry"
      | CuR2DStopAtEntry => "R2DStopAtEntry" | CuD2RStopLepusAtEntry => "D2RStopLepusAtEntry"
      | CuR2DStopLepusAtEntry => "R2DStopLepusAtEntry" | CuOpenCard => "OpenCard" | CuCardGenerated => "CardGenerated"
      | CuUsbConnect => "UsbConnect" | CuUsbConnectAck => "UsbConnectAck" | CuHMR => "HMR" | CuRemoteCall => "RemoteCall"
      end).

Definition isTypedCustomData (payload : jsval) (t : ECustomDataType) : bool := jeq_str (payload@."type") (custom_name t).

Definition createCustomData (t : ECustomDataType) (data : json) : json := JObj [(js "type", JStr (custom_name t)); (js "data", data)].

(** ** The driver *)

Inductive ERemoteDebugDriverStatus := Waiting | Connecting | Connected | Joined.

(** [ERemoteDebugDriverEventNames]. *)
Inductive driver_event :=
  | EvRoomJoined | EvRoomLeaved | EvClose | EvConnect | EvClientList | EvSessionList | EvCDP | EvPingPongDelay | EvR2DStopAtEntry
  | EvR2DStopLepusAtEntry | EvRemoteCall | EvUsbConnect | EvUsbConnectAck | EvHMR | EvAll | EvI.

#[export] Instance driver_event_eq_dec : EqDecision driver_event.
Proof. solve_decision. Defined.

(** [dr_client]: there is a socket; [dr_starting]: nobody has resolved the
    promise of [start]; [dr_timers]: pings that wait for their 30 seconds. *)
Record RemoteDebugDriver := mkRemoteDriver {
  dr_client : bool;
  dr_status : ERemoteDebugDriverStatus;
  dr_roomId : jsval;
  dr_socketServer : option jstr;
  dr_eventHandlers : list (driver_event * list Z);
  dr_deviceId : jsval;
  dr_lastPingTime : option Z;
  dr_clientType : jstr;
  dr_clientInfo : jsval;
  dr_floatWindowUrl : option jstr;
  dr_host : option jstr;
  dr_sharedHost : bool;
  dr_startPromiseResolve : bool;
  dr_sessionListRecord : option (list (jstr * json));
  dr_token : jsval;
  dr_timers : nat
}.

#[export] Instance eta_remote_driver : Eta RemoteDebugDriver := fun d =>
  mkRemoteDriver (dr_client d) (dr_status d) (dr_roomId d) (dr_socketServer d) (dr_eventHandlers d) (dr_deviceId d) (dr_lastPingTime d)
    (dr_clientType d) (dr_clientInfo d) (dr_floatWindowUrl d) (dr_host d) (dr_sharedHost d) (dr_startPromiseResolve d)
    (dr_sessionListRecord d) (dr_token d) (dr_timers d).

Inductive driver_effect :=
  | DPost (event : SocketEvents) (data to : jsval)      (* the text [encodeSocketMessage] makes of it *)
  | DFire (name : driver_event) (payload : jsval) (callback : Z)
  | DStarted                                             (* the promise of [start] *)
  | DOpenSocket (url : jstr)
  | DCloseSocket.

Definition new_remote_driver : RemoteDebugDriver :=
  mkRemoteDriver false Waiting None None [] None None [] None None None false false None None 0.

(** The effects and the new state; [None] instead of the value: it throws. *)
Definition D (A : Type) : Type := list driver_effect * RemoteDebugDriver * option A.

Definition dret {A} (a : A) (d : RemoteDebugDriver) : D A := ([], d, Some a).

Definition dseq {A B} (x : D A) (f : A -> RemoteDebugDriver -> D B) : D B :=
  let '(e1, d, a) := x in
  match a with
  | Some a => let '(e2, d, b) := f a d in (e1 ++ e2, d, b)
  | None => (e1, d, None)
  end.

Notation "x ';d;' d => f" := (dseq x (fun _ d => f)) (at level 100, d name, right associativity) : js_scope.

(** [`${v}`]; [None] when an object of its own [toString] makes it throw. *)
Definition template (v : jsval) : option jstr :=
  match v with None => Some (js "undefined") | Some JNull => Some (js "null") | Some v => js_to_string v end.

Definition post (event : SocketEvents) (data to : jsval) (d : RemoteDebugDriver) : D unit :=
  (if dr_client d then [DPost event data to] else [], d, Some tt).

Definition fireEvent (name : driver_event) (payload : jsval) (d : RemoteDebugDriver) : D unit :=
  (List.map (DFire name payload) (default [] (mget name (dr_eventHandlers d))), d, Some tt).

Definition driver_on (name : driver_event) (callback : Z) (d : RemoteDebugDriver) : RemoteDebugDriver :=
  match mget name (dr_eventHandlers d) with
  | Some l => d <| dr_eventHandlers ::= mset name (if bool_decide (callback ∈ l) then l else l ++ [callback]) |>
  | None => d <| dr_eventHandlers ::= mset name [callback] |>
  end.

Definition driver_off (name : driver_event) (callback : Z) (d : RemoteDebugDriver) : RemoteDebugDriver :=
  match mget name (dr_eventHandlers d) with
  | Some l => d <| dr_eventHandlers ::= mset name (List.filter (fun c => negb (c =? callback)) l) |>
  | None => d
  end.

(** *** Starting and stopping *)

Record DriverOption := mkDriverOption {
  op_floatWindowUrl : option jstr;
  op_host : option jstr;
  op_sharedHost : bool;
  op_socketServer : option jstr;
  op_clientType : option jstr
}.

(** An optional string in a template literal. *)
Definition shown (s : option jstr) : jstr := default (js "undefined") s.

(** [start(option, roomId, clientInfo)]; [uuid] is what [v4()] gives. *)
Definition driver_start (uuid : jstr) (opts : DriverOption) (roomId : option jstr) (clientInfo : jsval) (d : RemoteDebugDriver) : D unit :=
  let room := match roomId with None | Some [] => uuid | Some r => r end in
  let server := if op_sharedHost opts then Some (shown (op_socketServer opts) ++ js "/" ++ room) else op_socketServer opts in
  let d := d <| dr_roomId := Some (JStr room) |> <| dr_socketServer := server |> <| dr_clientType := default (js "Driver") (op_clientType opts) |>
             <| dr_clientInfo := clientInfo |> <| dr_floatWindowUrl := op_floatWindowUrl opts |> <| dr_host := op_host opts |>
             <| dr_sharedHost := op_sharedHost opts |> <| dr_startPromiseResolve := true |> <| dr_client := true |> in
  ([DOpenSocket (default [] server)], d, Some tt).

Definition driver_stop (d : RemoteDebugDriver) : D unit := (if dr_client d then [DCloseSocket] else [], d <| dr_client := false |>, Some tt).

(** *** Addresses *)

(** [v ?? x]. *)
Definition nullish_or (v : jsval) (x : json) : json := match v with None | Some JNull => x | Some v => v end.

Definition getToken (d : RemoteDebugDriver) : json := nullish_or (dr_token d) (JStr []).
Definition getRoomId (d : RemoteDebugDriver) : json := nullish_or (dr_roomId d) (JStr []).
Definition getDeviceId (d : RemoteDebugDriver) : json := nullish_or (dr_deviceId d) (jint 0).

(** Without a proxy of the application; [None] throws. *)
Definition getDevtoolSiteUrl (d : RemoteDebugDriver) : option jstr :=
  room ← template (dr_roomId d);
  Some (if dr_sharedHost d then shown (dr_host d) ++ js "?room=" ++ room
        else shown (dr_host d) ++ js "?ws=" ++ shown (dr_socketServer d) ++ js "&room=" ++ room).

Definition getRemoteDebugAppSchema (protocol : jstr) (floatingWindow : bool) (d : RemoteDebugDriver) : option jstr :=
  room ← template (dr_roomId d);
  Some (protocol ++ js "://remote_debug_lynx/enable?url=" ++ shown (dr_socketServer d) ++ js "&room=" ++ room ++
        (if floatingWindow then js "&float=" ++ shown (dr_floatWindowUrl d) else [])).

(** *** Pings *)

Definition sendPing (now : Z) (d : RemoteDebugDriver) : D unit := post Ping None None (d <| dr_lastPingTime := Some now |>).

Definition consumePong (now : Z) (d : RemoteDebugDriver) : D unit :=
  let distance := match dr_lastPingTime d with Some t => NInt (now - t) | None => NaN end in
  fireEvent EvPingPongDelay (Some (JNum distance)) d ;d; d =>
  ([], d <| dr_timers ::= S |>, Some tt).

(** The 30 seconds of a ping are over. *)
Definition ping_timer (now : Z) (d : RemoteDebugDriver) : D unit :=
  match dr_timers d with O => dret tt d | S n => sendPing now (d <| dr_timers := n |>) end.

(** *** The session lists *)

(** [record[key] = value]; [__proto__] is no key of its own. *)
Definition record_set (key : jstr) (value : json) (r : list (jstr * json)) : list (jstr * json) :=
  if bool_decide (key = js "__proto__") then r else obj_create key value r.

Definition getSessionList (sessionList : json) (d : RemoteDebugDriver) : D unit :=
  let d := d <| dr_sessionListRecord ::= (fun r => Some (default [] r)) |> in
  let hostId := (Some sessionList)@."sender" in
  if negb (truthy hostId) then dret tt d
  else match template hostId with
       | None => ([], d, None)
       | Some key => dret tt (d <| dr_sessionListRecord ::= fmap (record_set key sessionList) |>)
       end.

Definition forget_client (key : jstr) (d : RemoteDebugDriver) : RemoteDebugDriver :=
  if truthy_str key then d <| dr_sessionListRecord ::= fmap (mdel key) |> else d.

(** *** Incoming messages *)

Definition onConnected (payload : json) (d : RemoteDebugDriver) : D unit :=
  let deviceId := (Some payload)@."data" in
  let d := d <| dr_deviceId := deviceId |> in
  let info := if bool_decide (dr_clientType d = js "runtime") then opt_field "info" (dr_clientInfo d) else [] in
  post Register (Some (JObj (opt_field "id" deviceId ++ [(js "type", JStr (dr_clientType d))] ++ info))) None d.

Definition onRegistered (payload : json) (d : RemoteDebugDriver) : D unit :=
  let d := d <| dr_token := (Some payload)@."token" |> in
  if truthy (dr_roomId d) then post JoinRoom (dr_roomId d) None d else post CreateRoom None None d.

Definition onOpen (d : RemoteDebugDriver) : D unit := fireEvent EvConnect None (d <| dr_status := Connected |>).
Definition driver_onClose (d : RemoteDebugDriver) : D unit := fireEvent EvClose None d.

Definition onRoomJoined (now : Z) (payload : json) (d : RemoteDebugDriver) : D unit :=
  let data := (Some payload)@."data" in
  match data with
  | None | Some JNull => ([], d, None)
  | _ =>
      let d := d <| dr_roomId := data@."room" |> in
      (if dr_startPromiseResolve d then [DStarted] else [], d, Some tt) ;d; d =>
      fireEvent EvRoomJoined data d ;d; d =>
      post ListClients None None d ;d; d =>
      sendPing now d
  end.

Definition onRoomLeaved (payload : json) (d : RemoteDebugDriver) : D unit :=
  let data := (Some payload)@."data" in
  match template (data@."id") with
  | None => ([], d, None)
  | Some deleteClientId =>
      fireEvent EvRoomLeaved data (forget_client deleteClientId d) ;d; d =>
      post ListClients None None d
  end.

Definition onCustomized (payload : json) (d : RemoteDebugDriver) : D unit :=
  let customData := (Some payload)@."data" in
  let fire_if t ev (d : RemoteDebugDriver) : D unit := if isTypedCustomData customData t then fireEvent ev customData d else dret tt d in
  match customData with
  | Some c =>
      if isTypedCustomData customData CuSessionList then getSessionList c d ;d; d => fireEvent EvSessionList customData d
      else
        fire_if CuUsbConnect EvUsbConnect d ;d; d =>
        fire_if CuUsbConnectAck EvUsbConnectAck d ;d; d =>
        if isTypedCustomData customData CuCDP then fireEvent EvCDP customData d
        else if isTypedCustomData customData CuR2DStopAtEntry then fireEvent EvR2DStopAtEntry customData d
        else if isTypedCustomData customData CuR2DStopLepusAtEntry then fireEvent EvR2DStopLepusAtEntry customData d
        else if isTypedCustomData customData CuRemoteCall then fireEvent EvRemoteCall customData d
        else fire_if CuHMR EvHMR d
  | None => dret tt d
  end.

Definition onException (payload : json) (d : RemoteDebugDriver) : D unit :=
  if jeq_str ((Some payload)@."data") (exception_name NotFound)
  then post CreateRoom (match dr_roomId d with Some JNull => None | r => r end) None d
  else dret tt d.

Definition onMessage (now : Z) (message : jstr) (d : RemoteDebugDriver) : D unit :=
  match decodeSocketMessage message with
  | None => dret tt d
  | Some payload =>
      let has e := isTypedMessage (Some payload) e in
      fireEvent EvAll (Some payload) d ;d; d =>
      if has Pong then consumePong now d
      else if has Initialize then onConnected payload d
      else if has Registered then onRegistered payload d
      else if has RoomJoined then onRoomJoined now payload d
      else if has RoomLeaved then onRoomLeaved payload d
      else if has ClientList then fireEvent EvClientList ((Some payload)@."data") d
      else if has Customized then onCustomized payload d
      else if has Exception then onException payload d
      else dret tt d
  end.

(** *** Outgoing messages *)

(** [v > 0] with the coercions of JavaScript; [None] throws. *)
Definition positive (v : jsval) : option bool :=
  match v with
  | None | Some JNull => Some false
  | Some (JBool b) => Some b
  | Some (JNum n) => Some (num_ltb (NInt 0) n)
  | Some v => s ← js_to_string v; Some (num_ltb (NInt 0) (js_Number s))
  end.

(** [customData.sender = v]; a property that is [undefined] is not sent. *)
Definition assign (k : jstr) (v : jsval) (o : json) : json :=
  match o, v with
  | JObj kvs, Some x => JObj (mset k x kvs)
  | JObj kvs, None => JObj (mdel k kvs)
  | _, _ => o
  end.

Definition sendCustomMessage (customData : json) (messageTo : jsval) (d : RemoteDebugDriver) : D unit :=
  let customData := assign (js "sender") (dr_deviceId d) customData in
  if negb (dr_client d) then dret tt d
  else if truthy messageTo then post Customized (Some customData) messageTo d
  else match (Some customData)@."data" with
       | None | Some JNull => ([], d, None)
       | data => match positive (data@."client_id") with
                 | None => ([], d, None)
                 | Some to => post Customized (Some customData) (if to then data@."client_id" else None) d
                 end
       end.

Definition sendMessage (payload : jsval) (d : RemoteDebugDriver) : D unit := post Customized payload None d.

(** [encodeURIComponent]; [None] is the URIError of a lone surrogate. *)
Definition uri_unreserved (c : Z) : bool :=
  is_digit c || ((65 <=? c) && (c <=? 90)) || ((97 <=? c) && (c <=? 122)) || bool_decide (c ∈ js "-_.!~*'()").

Definition upper_hex (d : Z) : Z := if d <? 10 then 48 + d else 55 + d.

Definition uri_byte (b : Z) : jstr := if uri_unreserved b then [b] else [37; upper_hex (b / 16); upper_hex (b mod 16)].

Definition encodeURIComponent (s : jstr) : option jstr := if paired s then Some (concat (List.map uri_byte (utf8_encode s))) else None.

(** Whether a session shows the page [url]. *)
Definition url_matches (sessionUrl url : jstr) : option bool :=
  encoded ← encodeURIComponent sessionUrl;
  let n := match index_of (js "template.js") sessionUrl with Some i => (i + 11)%nat | None => 10%nat end in
  origin ← encodeURIComponent (take n sessionUrl);
  Some (includes sessionUrl url || includes url sessionUrl || includes url encoded || includes url origin).

Definition session_message (type : ECustomDataType) (client_id : num) (session_id : jsval) (message url : jstr) (path : option jstr) : json :=
  createCustomData type (JObj (opt_field "session_id" session_id ++
    [(js "client_id", JNum client_id); (js "message", JStr message); (js "url", JStr url)] ++ opt_field "path" (JStr <$> path))).

(** The inner loop, over the sessions of one client.  An array in the place of a
    session's url is taken for one that is not a string. *)
Fixpoint send_sessions (type : ECustomDataType) (client_id : num) (message url : jstr) (path : option jstr)
    (sessions : list json) (founded : bool) (d : RemoteDebugDriver) : D bool :=
  match sessions with
  | [] => dret founded d
  | session :: sessions =>
      match (Some session)@."url" with
      | Some (JStr sessionUrl) =>
          match url_matches sessionUrl url with
          | None => ([], d, None)
          | Some true =>
              dseq (sendCustomMessage (session_message type client_id ((Some session)@."session_id") message url path) None d)
                   (fun _ d => send_sessions type client_id message url path sessions true d)
          | Some false => send_sessions type client_id message url path sessions founded d
          end
      | _ => ([], d, None)
      end
  end.

Fixpoint send_clients (type : ECustomDataType) (message url : jstr) (path : option jstr) (client_ids : list num)
    (founded : bool) (d : RemoteDebugDriver) : D bool :=
  match client_ids with
  | [] => dret founded d
  | client_id :: client_ids =>
      match mget (num_toString client_id) (default [] (dr_sessionListRecord d)) with
      | None => send_clients type message url path client_ids founded d
      | Some sessions =>
          match (Some sessions)@."data" with
          | Some (JArr l) =>
              dseq (send_sessions type client_id message url path l founded d)
                   (fun founded d => send_clients type message url path client_ids founded d)
          | Some (JStr []) => send_clients type message url path client_ids founded d
          | _ => ([], d, None)
          end
      end
  end.

Definition sendCustomMessageToSessions (type : ECustomDataType) (message url : jstr) (path : option jstr) (d : RemoteDebugDriver) : D bool :=
  match dr_sessionListRecord d with
  | None => dret false d
  | Some r => send_clients type message url path (List.map js_Number (mkeys r)) false d
  end.

Definition reload_message : jstr := stringify (JObj [(js "method", jstring "Page.reload")]).

Definition reloadSessionWithUrlForAllClient (url path : jstr) (d : RemoteDebugDriver) : D bool :=
  sendCustomMessageToSessions CuCDP reload_message url (Some path) d.

(** ** Runs *)

Inductive driver_op :=
  | OMessage (text : jstr)
  | OTimer
  | OOpen
  | OClose
  | OStop
  | OOn (name : driver_event) (callback : Z)
  | OOff (name : driver_event) (callback : Z)
  | OSendCustom (customData : json) (messageTo : jsval)
  | OSend (payload : jsval)
  | OReload (url path : jstr).

Definition outcome_of {A} (x : D A) : list driver_effect * RemoteDebugDriver := x.1.

Definition driver_step (now : Z) (op : driver_op) (d : RemoteDebugDriver) : list driver_effect * RemoteDebugDriver :=
  match op with
  | OMessage text => outcome_of (onMessage now text d)
  | OTimer => outcome_of (ping_timer now d)
  | OOpen => outcome_of (onOpen d)
  | OClose => outcome_of (driver_onClose d)
  | OStop => outcome_of (driver_stop d)
  | OOn name callback => ([], driver_on name callback d)
  | OOff name callback => ([], driver_off name callback d)
  | OSendCustom customData messageTo => outcome_of (sendCustomMessage customData messageTo d)
  | OSend payload => outcome_of (sendMessage payload d)
  | OReload url path => outcome_of (reloadSessionWithUrlForAllClient url path d)
  end.

Fixpoint driver_run (ops : list (Z * driver_op)) (d : RemoteDebugDriver) : list driver_effect * RemoteDebugDriver :=
  match ops with
  | [] => ([], d)
  | (now, op) :: ops =>
      let '(e1, d) := driver_step now op d in
      let '(e2, d) := driver_run ops d in (e1 ++ e2, d)
  end.

(** ** Pings *)

Definition is_ping (e : driver_effect) : bool := match e with DPost Ping _ _ => true | _ => false end.
Definition pings (es : list driver_effect) : nat := List.length (List.filter is_ping es).

#[local] Arguments pings : simpl never.

Definition pong_message (text : jstr) : bool := isTypedMessage (decodeSocketMessage text) Pong.

Definition join_message (text : jstr) : bool :=
  let m := decodeSocketMessage text in
  isTypedMessage m RoomJoined && match m@."data" with None | Some JNull => false | _ => true end.

Definition counted (f : jstr -> bool) (ops : list (Z * driver_op)) : nat :=
  List.length (List.filter (fun '(_, op) => match op with OMessage text => f text | _ => false end) ops).

(** What a step did to the pings: as many more sent or waiting as [k] says. *)
Definition balanced (k : nat) (d : RemoteDebugDriver) (r : list driver_effect * RemoteDebugDriver) : Prop :=
  (pings r.1 + dr_timers r.2 = dr_timers d + k)%nat /\ dr_client r.2 = dr_client d.

Lemma pings_app a b : pings (a ++ b) = (pings a + pings b)%nat.
Proof. unfold pings. by rewrite List.filter_app, List.length_app. Qed.

Lemma pings_fire name payload l : pings (List.map (DFire name payload) l) = 0%nat.
Proof. unfold pings. induction l; cbn; auto. Qed.

Lemma balanced_fire name payload d : balanced 0 d (outcome_of (fireEvent name payload d)).
Proof. split; cbn; [|done]. rewrite pings_fire. lia. Qed.

Lemma balanced_post e data to d : e <> Ping -> balanced 0 d (outcome_of (post e data to d)).
Proof. intros He. split; cbn; [|done]. destruct (dr_client d); [|done]. by destruct e. Qed.

Lemma balanced_ping now d : dr_client d = true -> balanced 1 d (outcome_of (sendPing now d)).
Proof. intros H. split; cbn; [rewrite H; change (pings [DPost Ping None None]) with 1%nat; lia|done]. Qed.

Lemma balanced_seq {A B} (x : D A) (f : A -> RemoteDebugDriver -> D B) d j k : balanced j d (outcome_of x) ->
  (x.2 = None -> k = 0%nat) -> (forall a, x.2 = Some a -> balanced k x.1.2 (outcome_of (f a x.1.2))) -> balanced (j + k) d (outcome_of (dseq x f)).
Proof.
  destruct x as [[e1 d1] [a|]]; cbn; intros [B1 B2] H0 H; cbn in B1, B2.
  - destruct (H a eq_refl) as [C1 C2]. unfold outcome_of in *. destruct (f a d1) as [[e2 d2] b]. cbn in *. split; cbn; [|congruence]. rewrite pings_app. lia.
  - rewrite H0 by done. split; cbn; [lia|done].
Qed.

(** Steps that neither send a ping nor wait for one. *)
Lemma balanced_seq0 {A B} (x : D A) (f : A -> RemoteDebugDriver -> D B) d : balanced 0 d (outcome_of x) ->
  (forall a d, balanced 0 d (outcome_of (f a d))) -> balanced 0 d (outcome_of (dseq x f)).
Proof. intros H Hf. apply (balanced_seq x f d 0 0); auto. Qed.

Lemma balanced_same {A} (a : option A) d d' : dr_timers d' = dr_timers d -> dr_client d' = dr_client d -> balanced 0 d (outcome_of ([], d', a)).
Proof. intros H1 H2. split; cbn; [change (pings []) with 0%nat; lia|done]. Qed.

Lemma balanced_from k d0 d r : balanced k d0 r -> dr_timers d0 = dr_timers d -> dr_client d0 = dr_client d -> balanced k d r.
Proof. intros [H1 H2] E1 E2. split; congruence. Qed.

#[export] Hint Resolve balanced_fire balanced_seq0 : mux.
#[export] Hint Extern 1 (balanced 0 _ (outcome_of (post _ _ _ _))) => by apply balanced_post : mux.
#[export] Hint Extern 1 (balanced 0 _ (outcome_of ([], _, _))) => by apply balanced_same : mux.
#[export] Hint Extern 1 (balanced 0 _ (outcome_of (dret _ _))) => by apply balanced_same : mux.

(** *** The handlers *)

Lemma typed_data m e : isTypedMessage m e = true -> m@."event" = Some (JStr (socket_event_name e)).
Proof.
  unfold isTypedMessage, jeq_str. destruct (m@."event") as [[| | |s| |]|]; try done. by intros ->%bool_decide_eq_true.
Qed.

Lemma typed_other m e e' : isTypedMessage m e = true -> socket_event_name e <> socket_event_name e' -> isTypedMessage m e' = false.
Proof. intros H%typed_data Hne. unfold isTypedMessage. rewrite H. cbn. by apply bool_decide_eq_false. Qed.

Lemma sendCustom_balanced customData to d : balanced 0 d (outcome_of (sendCustomMessage customData to d)).
Proof.
  unfold sendCustomMessage. destruct (negb (dr_client d)); [auto with mux|]. destruct (truthy to); [auto with mux|].
  destruct ((Some _)@."data") as [[]|]; auto with mux; destruct (positive _); auto with mux.
Qed.

Lemma send_sessions_balanced type id message url path l : forall founded d, balanced 0 d (outcome_of (send_sessions type id message url path l founded d)).
Proof.
  induction l as [|s l IH]; intros founded d; cbn [send_sessions]; [auto with mux|]. destruct ((Some s)@."url") as [[]|]; auto with mux.
  destruct (url_matches _ _) as [[]|]; auto using sendCustom_balanced with mux.
Qed.

Lemma send_clients_balanced type message url path ids : forall founded d, balanced 0 d (outcome_of (send_clients type message url path ids founded d)).
Proof.
  induction ids as [|id ids IH]; intros founded d; cbn [send_clients]; [auto with mux|]. destruct (mget _ _) as [v|]; [|apply IH].
  destruct ((Some v)@."data") as [[| | |[]| |]|]; auto using send_sessions_balanced with mux.
Qed.

Lemma onCustomized_balanced payload d : balanced 0 d (outcome_of (onCustomized payload d)).
Proof.
  unfold onCustomized. destruct ((Some payload)@."data") as [c|]; [|auto with mux].
  destruct (isTypedCustomData (Some c) CuSessionList).
  - apply balanced_seq0; [|auto with mux]. unfold getSessionList. destruct (negb _); [auto with mux|]. destruct (template _); auto with mux.
  - repeat (apply balanced_seq0; [case_match; auto with mux|intros _ ?]). repeat case_match; auto with mux.
Qed.

Lemma onRoomJoined_balanced now payload d : dr_client d = true ->
  balanced (match (Some payload)@."data" with None | Some JNull => 0 | _ => 1 end) d (outcome_of (onRoomJoined now payload d)).
Proof.
  intros Hc. unfold onRoomJoined.
  assert (forall data, balanced 1 d (outcome_of ((if dr_startPromiseResolve d then [DStarted] else [], d <| dr_roomId := data@."room" |>, Some tt) ;d; d =>
    fireEvent EvRoomJoined data d ;d; d => post ListClients None None d ;d; d => sendPing now d))) as H.
  { intros data. apply (balanced_seq _ _ _ 0 1); [|done|].
    - split; [|done]. cbn. by destruct (dr_startPromiseResolve d).
    - intros a _. apply (balanced_seq _ _ _ 0 1); [auto with mux|done|]. intros b _. apply (balanced_seq _ _ _ 0 1); [auto with mux|done|].
      intros c _. by apply balanced_ping. }
  destruct ((Some payload)@."data") as [[]|]; auto with mux.
Qed.

Definition caused (text : jstr) : nat := ((if join_message text then 1 else 0) + (if pong_message text then 1 else 0))%nat.

Lemma onMessage_balanced now text d : dr_client d = true -> balanced (caused text) d (outcome_of (onMessage now text d)).
Proof.
  intros Hc. unfold onMessage, caused, join_message, pong_message. destruct (decodeSocketMessage text) as [m|]; [|apply balanced_same; done].
  apply (balanced_seq _ _ _ 0); [auto with mux|done|]. intros _ _. cbn [fireEvent fst snd].
  assert (forall e e', isTypedMessage (Some m) e = true -> socket_event_name e <> socket_event_name e' -> isTypedMessage (Some m) e' = false) as Ho
    by (intros; by eapply typed_other).
  destruct (isTypedMessage (Some m) Pong) eqn:Ep.
  { rewrite (Ho Pong RoomJoined Ep ltac:(done)). apply (balanced_seq _ _ _ 0 1); [auto with mux|done|]. intros _ _. split; [|done]. cbn. change (pings []) with 0%nat. lia. }
  destruct (isTypedMessage (Some m) Initialize) eqn:Ei.
  { rewrite (Ho Initialize RoomJoined Ei ltac:(done)). cbn [andb Nat.add]. eapply balanced_from; [by apply balanced_post|done..]. }
  destruct (isTypedMessage (Some m) Registered) eqn:Er.
  { rewrite (Ho Registered RoomJoined Er ltac:(done)). cbn [andb Nat.add]. unfold onRegistered.
    destruct (truthy _); (eapply balanced_from; [by apply balanced_post|done..]). }
  destruct (isTypedMessage (Some m) RoomJoined) eqn:Ej.
  { pose proof (onRoomJoined_balanced now m d Hc) as H. by destruct ((Some m)@."data") as [[]|]. }
  cbn [andb]. repeat (match goal with |- context [if isTypedMessage _ ?e then _ else _] => destruct (isTypedMessage (Some m) e) end);
    auto using onCustomized_balanced with mux.
  - unfold onRoomLeaved. destruct (template _) as [key|]; [|auto with mux]. apply (balanced_seq _ _ _ 0 0); [|done|auto with mux].
    unfold forget_client. destruct (truthy_str key); (split; [|done]); cbn; rewrite pings_fire; lia.
  - unfold onException. destruct (jeq_str _ _); auto with mux.
Qed.

Definition stops (op : driver_op) : bool := match op with OStop => true | _ => false end.

Definition op_causes (op : driver_op) : nat := match op with OMessage text => caused text | _ => 0%nat end.

Lemma step_balanced now op d : dr_client d = true -> stops op = false -> balanced (op_causes op) d (driver_step now op d).
Proof.
  intros Hc Hs. destruct op as [text| | | | |name cb|name cb|c to|p|url path]; cbn [driver_step op_causes]; try done.
  - by apply onMessage_balanced.
  - unfold ping_timer. destruct (dr_timers d) as [|n] eqn:E; [by apply balanced_same|]. split; cbn; [|done]. rewrite Hc, E. change (pings [_]) with 1%nat. lia.
  - eapply balanced_from; [apply balanced_fire|done..].
  - apply balanced_fire.
  - unfold driver_on. by destruct (mget _ _); apply (balanced_same (Some tt)).
  - unfold driver_off. by destruct (mget _ _); apply (balanced_same (Some tt)).
  - apply sendCustom_balanced.
  - by apply balanced_post.
  - unfold reloadSessionWithUrlForAllClient, sendCustomMessageToSessions. destruct (dr_sessionListRecord d); [apply send_clients_balanced|by apply balanced_same].
Qed.

(** As long as the driver is not stopped, whatever arrives and whatever the
    application does, the pings it has sent and those that wait for their timer
    are together the ones that waited before, one for every pong it got and one
    for every time it was told that it joined a room: each join begins a chain of
    pings of its own. *)
Theorem pings_conserved ops d : dr_client d = true -> forallb (fun '(_, op) => negb (stops op)) ops = true ->
  let '(es, d') := driver_run ops d in
  (pings es + dr_timers d' = dr_timers d + counted join_message ops + counted pong_message ops)%nat.
Proof.
  revert d. induction ops as [|[now op] ops IH]; intros d Hc Hs; cbn [driver_run]; [cbn; change (pings []) with 0%nat; lia|].
  cbn in Hs. apply andb_prop in Hs as [Hs1 Hs2]. apply negb_true_iff in Hs1.
  pose proof (step_balanced now op d Hc Hs1) as [B1 B2]. destruct (driver_step now op d) as [e1 d1]. cbn in B1, B2.
  specialize (IH d1 ltac:(congruence) Hs2). destruct (driver_run ops d1) as [e2 d2]. rewrite pings_app.
  assert (counted join_message ((now, op) :: ops) + counted pong_message ((now, op) :: ops) =
    op_causes op + counted join_message ops + counted pong_message ops)%nat as Hcount.
  { unfold counted, op_causes, caused. cbn [List.filter]. destruct op; cbn; try lia. destruct (join_message text), (pong_message text); cbn; lia. }
  lia.
Qed.

(** Texts of a server. *)
Definition joined_text : jstr := stringify (JObj [(js "event", jstring "RoomJoined"); (js "data", JObj [(js "room", jstring "r"); (js "id", jint 1)])]).
Definition pong_text : jstr := stringify (JObj [(js "event", jstring "Pong")]).

Definition started_driver : RemoteDebugDriver :=
  (driver_start (js "u") (mkDriverOption None None false (Some (js "ws://h")) None) (Some (js "r")) None new_remote_driver).1.2.

Lemma pings_conserved_example :
  let ops := [(0, OMessage joined_text); (5, OMessage pong_text); (9, OMessage joined_text); (30005, OTimer)] in
  let '(es, d') := driver_run ops started_driver in
  (pings es + dr_timers d' = dr_timers started_driver + counted join_message ops + counted pong_message ops)%nat /\ pings es = 3%nat.
Proof.
  set (ops := [(0, OMessage joined_text); (5, OMessage pong_text); (9, OMessage joined_text); (30005, OTimer)]).
  pose proof (pings_conserved ops started_driver eq_refl eq_refl) as H. cbv zeta.
  destruct (driver_run ops started_driver) as [es d'] eqn:E. split; [exact H|]. vm_compute in E. injection E as <- <-. reflexivity.
Defined.

(** ** The session lists the driver knows *)

Definition lists (d : RemoteDebugDriver) : list (jstr * json) := default [] (dr_sessionListRecord d).

(** What a message says about the client [k]: nothing, its list or its leaving. *)
Definition says (k : jstr) (text : jstr) : option (option json) :=
  let m := decodeSocketMessage text in
  let data := m@."data" in
  if isTypedMessage m RoomLeaved then
    match template (data@."id") with Some key => if bool_decide (key = k) && truthy_str k then Some None else None | None => None end
  else if isTypedMessage m Customized && isTypedCustomData data CuSessionList && truthy (data@."sender") then
    match template (data@."sender") with
    | Some key => if bool_decide (key = k) && negb (bool_decide (k = js "__proto__")) then Some data else None
    | None => None
    end
  else None.

Definition learn (k : jstr) (known : option json) (op : driver_op) : option json :=
  match op with OMessage text => default known (says k text) | _ => known end.

Definition keeps (d : RemoteDebugDriver) (r : list driver_effect * RemoteDebugDriver) : Prop := lists r.2 = lists d.

Lemma keeps_seq {A B} (x : D A) (f : A -> RemoteDebugDriver -> D B) d : keeps d (outcome_of x) ->
  (forall a d, keeps d (outcome_of (f a d))) -> keeps d (outcome_of (dseq x f)).
Proof.
  destruct x as [[e1 d1] [a|]]; unfold keeps, outcome_of, dseq; cbn; intros H Hf; [|done]. specialize (Hf a d1). destruct (f a d1) as [[e2 d2] b]. cbn in *. congruence.
Qed.

Lemma keeps_same {A} es (a : option A) d d' : dr_sessionListRecord d' = dr_sessionListRecord d -> keeps d (outcome_of (es, d', a)).
Proof. unfold keeps, lists. cbn. by intros ->. Qed.

#[export] Hint Resolve keeps_seq : mux.
#[export] Hint Extern 1 (keeps _ (outcome_of (_, _, _))) => by apply keeps_same : mux.
#[export] Hint Extern 1 (keeps _ (outcome_of (fireEvent _ _ _))) => by apply keeps_same : mux.
#[export] Hint Extern 1 (keeps _ (outcome_of (post _ _ _ _))) => by apply keeps_same : mux.
#[export] Hint Extern 1 (keeps _ (outcome_of (sendPing _ _))) => by apply keeps_same : mux.
#[export] Hint Extern 1 (keeps _ (outcome_of (dret _ _))) => by apply keeps_same : mux.

Lemma sendCustom_keeps customData to d : keeps d (outcome_of (sendCustomMessage customData to d)).
Proof.
  unfold sendCustomMessage. destruct (negb (dr_client d)); [auto with mux|]. destruct (truthy to); [auto with mux|].
  destruct ((Some _)@."data") as [[]|]; auto with mux; destruct (positive _); auto with mux.
Qed.

Lemma send_sessions_keeps type id message url path l : forall founded d, keeps d (outcome_of (send_sessions type id message url path l founded d)).
Proof.
  induction l as [|s l IH]; intros founded d; cbn [send_sessions]; [auto with mux|]. destruct ((Some s)@."url") as [[]|]; auto with mux.
  destruct (url_matches _ _) as [[]|]; auto using sendCustom_keeps with mux.
Qed.

Lemma send_clients_keeps type message url path ids : forall founded d, keeps d (outcome_of (send_clients type message url path ids founded d)).
Proof.
  induction ids as [|id ids IH]; intros founded d; cbn [send_clients]; [auto with mux|]. destruct (mget _ _) as [v|]; [|apply IH].
  destruct ((Some v)@."data") as [[| | |[]| |]|]; auto using send_sessions_keeps with mux.
Qed.

Lemma mget_obj_create k j v (r : list (jstr * json)) : mget k (obj_create j v r) = if bool_decide (j = k) then Some v else mget k r.
Proof.
  unfold obj_create, mhas. destruct (mget j r) as [w|] eqn:E; cbn.
  - rewrite mget_mset. by repeat case_bool_decide; repeat case_decide; try congruence.
  - induction r as [|[i w] r IH]; cbn [obj_place mget] in *; [by repeat case_decide; repeat case_bool_decide; try congruence|].
    destruct (decide (j = i)) as [->|Hji]; [done|].
    destruct (key_before j i); cbn [mget]; [by repeat case_decide; repeat case_bool_decide; try congruence|]. rewrite IH by done.
    by repeat case_decide; repeat case_bool_decide; try congruence.
Qed.

Lemma onCustomized_lists m k d : isTypedMessage (Some m) Customized = true ->
  mget k (lists (outcome_of (onCustomized m d)).2) =
    if isTypedCustomData ((Some m)@."data") CuSessionList && truthy ((Some m)@."data"@."sender") then
      match template ((Some m)@."data"@."sender") with
      | Some key => if bool_decide (key = k) && negb (bool_decide (k = js "__proto__")) then (Some m)@."data" else mget k (lists d)
      | None => mget k (lists d)
      end
    else mget k (lists d).
Proof.
  intros _. unfold onCustomized. destruct ((Some m)@."data") as [c|]; [|done]. destruct (isTypedCustomData (Some c) CuSessionList); cbn [andb].
  - unfold getSessionList. destruct (truthy ((Some c)@."sender")); cbn [negb]; [|done]. destruct (template _) as [key|]; [|done].
    cbn. unfold lists, record_set. cbn. case_bool_decide as E1; case_bool_decide as E2; cbn; try (case_bool_decide as E3; cbn); try congruence; try done;
      rewrite mget_obj_create; by repeat case_bool_decide; try congruence.
  - f_equal. apply keeps_seq; [case_match; auto with mux|]. intros _ d1. apply keeps_seq; [case_match; auto with mux|]. intros _ d2. repeat case_match; auto with mux.
Qed.

Lemma fire_then {B} name payload d (f : unit -> RemoteDebugDriver -> D B) :
  (outcome_of (dseq (fireEvent name payload d) f)).2 = (outcome_of (f tt d)).2.
Proof. unfold dseq, fireEvent. by destruct (f tt d) as [[? ?] ?]. Qed.

Lemma onMessage_lists now text k d : mget k (lists (outcome_of (onMessage now text d)).2) = learn k (mget k (lists d)) (OMessage text).
Proof.
  unfold onMessage, learn, says. destruct (decodeSocketMessage text) as [m|]; [|done].
  assert (forall e e', isTypedMessage (Some m) e = true -> socket_event_name e <> socket_event_name e' -> isTypedMessage (Some m) e' = false) as Ho
    by (intros; by eapply typed_other).
  rewrite fire_then.
  destruct (isTypedMessage (Some m) RoomLeaved) eqn:El.
  - rewrite !(Ho RoomLeaved _ El) by done. unfold onRoomLeaved. destruct (template _) as [key|]; [|done].
    transitivity (mget k (lists (forget_client key d))); [done|]. unfold forget_client, lists. destruct (truthy_str key) eqn:Ek.
    + cbn. assert (default [] (mdel key <$> dr_sessionListRecord d) = mdel key (default [] (dr_sessionListRecord d))) as -> by (by destruct (dr_sessionListRecord d)).
      rewrite mget_mdel. case_bool_decide as E; [subst; rewrite Ek; cbn; by rewrite decide_True|]. cbn. by rewrite decide_False by congruence.
    + case_bool_decide as E; [subst; by rewrite Ek|done].
  - destruct (isTypedMessage (Some m) Customized) eqn:Ec.
    + rewrite !(Ho Customized _ Ec) by done. rewrite (onCustomized_lists m k d Ec). cbn [andb].
      destruct (isTypedCustomData _ _ && truthy _) eqn:E; [|done]. destruct (template _) as [key|]; [|done].
      destruct (bool_decide (key = k) && _); [|done]. destruct ((Some m)@."data"); done.
    + cbn [andb]. cbv zeta. cbn. f_equal.
      assert (forall x : D unit, keeps d (outcome_of x) -> lists (outcome_of x).2 = lists d) as Hk by done. apply Hk.
      repeat case_match; auto with mux.
      * by apply keeps_same.
      * unfold onRegistered. case_match; auto with mux.
      * unfold onRoomJoined. repeat case_match; auto with mux; apply keeps_seq; auto with mux.
      * unfold onException. case_match; auto with mux.
Qed.

(** C31: The session lists of the driver refine a map from clients to what was
    last said about them: after any sequence of messages, timers and calls of the
    application, the list kept for a client is the last one that it sent, unless
    it has left the room since. *)
Theorem session_lists_known ops d k :
  mget k (lists (driver_run ops d).2) = fold_left (learn k) (List.map snd ops) (mget k (lists d)).
Proof.
  revert d. induction ops as [|[now op] ops IH]; intros d; cbn [driver_run List.map fold_left snd]; [done|].
  assert (mget k (lists (driver_step now op d).2) = learn k (mget k (lists d)) op) as H.
  { destruct op as [text| | | | |name cb|name cb|c to|p|url path]; cbn [driver_step learn]; [apply onMessage_lists|..]; try done.
    - unfold ping_timer. by destruct (dr_timers d).
    - unfold driver_on. by destruct (mget name _).
    - unfold driver_off. by destruct (mget name _).
    - f_equal. apply sendCustom_keeps.
    - f_equal. unfold reloadSessionWithUrlForAllClient, sendCustomMessageToSessions. destruct (dr_sessionListRecord d) as [r|]; [apply send_clients_keeps|done]. }
  destruct (driver_step now op d) as [e1 d1]. specialize (IH d1). destruct (driver_run ops d1) as [e2 d2]. cbn in *. by rewrite IH, H.
Qed.

(** ** Messages to sessions *)

(** *** What it means that a session shows a page *)

Definition occurs (p s : jstr) : Prop := exists a b, s = a ++ p ++ b.

(** The beginning of a session's url that is compared: up to and with the first
    [template.js] in it, and its first ten characters when there is none. *)
Definition beginning (s b : jstr) : Prop :=
  (exists rest, s = b ++ rest /\ (exists a, b = a ++ js "template.js") /\
     forall b' rest', s = b' ++ rest' -> (exists a, b' = a ++ js "template.js") -> (List.length b <= List.length b')%nat) \/
  (~ occurs (js "template.js") s /\ b = take 10 s).

(** The page and the session's url contain one another, or the page contains the
    encoding of that url or of its beginning. *)
Definition shows_page (s url : jstr) : Prop :=
  occurs url s \/ occurs s url \/ (exists e, encodeURIComponent s = Some e /\ occurs e url) \/
  (exists b e, beginning s b /\ encodeURIComponent b = Some e /\ occurs e url).

Lemma startsWith_iff s p : startsWith s p = true <-> exists b, s = p ++ b.
Proof.
  revert s. induction p as [|c p IH]; intros s; cbn.
  { split; [by exists s|by destruct s]. }
  destruct s as [|c' s]; cbn; [split; [done|by intros [? ?]]|]. rewrite andb_true_iff, Z.eqb_eq, IH. split.
  - intros [-> [b ->]]. by exists b.
  - intros [b E]. injection E as -> ->. eauto.
Qed.

Lemma includes_iff s p : includes s p = true <-> occurs p s.
Proof.
  unfold occurs. induction s as [|c s IH]; cbn [includes]; rewrite orb_true_iff, startsWith_iff.
  - split; [intros [[b E]|]; [by exists [], b|done]|]. intros (a & b & E). destruct a; [left; by exists b|done].
  - rewrite IH. split.
    + intros [[b ->]|(a & b & ->)]; [by exists [], b|by exists (c :: a), b].
    + intros ([|c' a] & b & E); [left; by exists b|]. injection E as -> ->. right. eauto.
Qed.

Lemma prefixb_iff p l : prefixb p l = true <-> exists b, l = p ++ b.
Proof.
  unfold prefixb. rewrite bool_decide_eq_true. split; [intros E; exists (drop (List.length p) l); rewrite <- E at 1; by rewrite take_drop|].
  intros [b ->]. apply take_app_length.
Qed.

Lemma index_of_none p l : index_of p l = None -> ~ occurs p l.
Proof.
  induction l as [|c l IH]; cbn [index_of]; destruct (prefixb p _) eqn:E; try done; intros H ([|c' a] & b & Hl).
  - assert (prefixb p [] = true) by (apply prefixb_iff; eauto). congruence.
  - done.
  - assert (prefixb p (c :: l) = true) by (apply prefixb_iff; eauto). congruence.
  - injection Hl as -> ->. destruct (index_of p _); [done|]. apply IH; [done|]. by exists a, b.
Qed.

Lemma index_of_some p l i : index_of p l = Some i ->
  exists a b, l = a ++ p ++ b /\ List.length a = i /\ forall a' b', l = a' ++ p ++ b' -> (i <= List.length a')%nat.
Proof.
  revert i. induction l as [|c l IH]; intros i; cbn [index_of]; destruct (prefixb p _) eqn:E.
  - intros [= <-]. apply prefixb_iff in E as [b E]. exists [], b. repeat split; [done|]. intros. cbn. lia.
  - done.
  - intros [= <-]. apply prefixb_iff in E as [b E]. exists [], b. repeat split; [done|]. intros. cbn. lia.
  - destruct (index_of p l) as [j|]; [|done]. intros [= <-]. destruct (IH j eq_refl) as (a & b & -> & Hl & Hm). exists (c :: a), b.
    split; [done|]. split; [cbn; lia|]. intros [|c' a'] b' E'; [|injection E' as -> E'; apply Hm in E'; cbn; lia].
    assert (prefixb p (c :: a ++ p ++ b) = true) by (apply prefixb_iff; eauto). congruence.
Qed.

Definition compared (s : jstr) : jstr :=
  take (match index_of (js "template.js") s with Some i => (i + 11)%nat | None => 10%nat end) s.

Lemma beginning_iff s b : beginning s b <-> b = compared s.
Proof.
  unfold compared. destruct (index_of _ s) as [i|] eqn:E.
  - apply index_of_some in E as (a & c & -> & <- & Hm). unfold beginning. set (T := js "template.js") in *.
    assert (List.length T = 11%nat) as HT by reflexivity. clearbody T. rewrite app_assoc.
    assert (take (List.length a + 11) ((a ++ T) ++ c) = a ++ T) as -> by (apply take_app_length'; rewrite length_app; lia). split.
    + intros [(rest & Hs & (a' & ->) & Hmin)|[Hno _]]; [|by destruct Hno; exists a, c; rewrite app_assoc].
      assert (List.length a' = List.length a) as Hl.
      { specialize (Hmin (a ++ T) c eq_refl (ex_intro _ a eq_refl)). rewrite !length_app in Hmin.
        assert (List.length a <= List.length a')%nat by (apply (Hm a' rest); by rewrite !app_assoc). lia. }
      apply (f_equal (take (List.length (a' ++ T)))) in Hs. rewrite take_app_length in Hs. rewrite <- Hs, take_app_length'; [done|].
      rewrite !length_app. lia.
    + intros ->. left. exists c. split; [done|]. split; [eauto|]. intros b' rest' Hs (a' & ->). rewrite !length_app.
      assert (List.length a <= List.length a')%nat by (apply (Hm a' rest'); by rewrite !app_assoc). lia.
  - apply index_of_none in E. split; [|by right]. intros [(rest & Hs & (a & ->) & _)|[_ ->]]; [|done].
    destruct E. exists a, rest. by rewrite Hs, <- app_assoc.
Qed.

Lemma url_matches_iff s url b : url_matches s url = Some b -> b = true <-> shows_page s url.
Proof.
  unfold url_matches, shows_page. destruct (encodeURIComponent s) as [e|]; [|done]. cbn -[compared]. fold (compared s).
  destruct (encodeURIComponent (compared s)) as [o|] eqn:Eo; [|done]. cbn. intros [= <-]. rewrite !orb_true_iff, !includes_iff. split.
  - intros [[[H|H]|H]|H]; [by left|right; by left|right; right; left; eauto|]. do 3 right. exists (compared s), o. by rewrite beginning_iff.
  - intros [H|[H|[(x & [= <-] & H)|(b & x & ->%beginning_iff & Hx & H)]]]; [tauto..|]. rewrite Eo in Hx. injection Hx as <-. tauto.
Qed.

(** *** The record and what is posted *)

(** A record as the clients fill it: an object, whose keys are positive ids and
    whose values have lists of sessions with string urls; neither these nor the
    beginnings that are compared have lone surrogates. *)
Definition session_ok (session : json) : bool :=
  match (Some session)@."url" with
  | Some (JStr s) => bool_decide (is_Some (encodeURIComponent s)) && bool_decide (is_Some (encodeURIComponent (compared s)))
  | _ => false
  end.

Definition client_ok (p : jstr * json) : bool :=
  match js_Number p.1 with NInt n => (0 <? n) && bool_decide (show_int n = p.1) | NDbl _ => false end &&
  match (Some p.2)@."data" with Some (JArr l) => forallb session_ok l | _ => false end.

Definition record_ok (r : list (jstr * json)) : Prop := NoDup (mkeys r) /\ forallb client_ok r = true.

(** The sessions of all the clients, each with its client's id. *)
Definition sessions_of (v : json) : list json := match (Some v)@."data" with Some (JArr l) => l | _ => [] end.

Definition all_sessions (r : list (jstr * json)) : list (num * json) :=
  concat (List.map (fun '(k, v) => List.map (pair (js_Number k)) (sessions_of v)) r).

Definition session_shows (url : jstr) (session : json) : Prop := exists s, (Some session)@."url" = Some (JStr s) /\ shows_page s url.

(** The message for one session, field by field. *)
Definition session_post (type : ECustomDataType) (message url : jstr) (path : option jstr) (sender : jsval) (p : num * json) : driver_effect :=
  let session_id := opt_field "session_id" ((Some p.2)@."session_id") in
  let data := JObj (session_id ++ [(js "client_id", JNum p.1); (js "message", JStr message); (js "url", JStr url)] ++ opt_field "path" (JStr <$> path)) in
  DPost Customized (Some (JObj ([(js "type", JStr (custom_name type)); (js "data", data)] ++ opt_field "sender" sender))) (Some (JNum p.1)).

(** The chosen among the items of a list, in its order. *)
Inductive chosen {A} (P : A -> Prop) : list A -> list A -> Prop :=
  | chosen_nil : chosen P [] []
  | chosen_take x l l' : P x -> chosen P l l' -> chosen P (x :: l) (x :: l')
  | chosen_skip x l l' : ~ P x -> chosen P l l' -> chosen P (x :: l) l'.

Lemma chosen_app {A} (P : A -> Prop) l1 l2 c1 c2 : chosen P l1 c1 -> chosen P l2 c2 -> chosen P (l1 ++ l2) (c1 ++ c2).
Proof. intros H H2. induction H; cbn; [done|by constructor..]. Qed.

Lemma chosen_empty {A} (P : A -> Prop) l c : chosen P l c -> c <> [] <-> exists x, x ∈ l /\ P x.
Proof.
  induction 1 as [|x l c Hx H IH|x l c Hx H IH].
  - split; [done|]. intros (x & Hin & _). by apply elem_of_nil in Hin.
  - split; [intros _; exists x; split; [left|done]|done].
  - rewrite IH. split; intros (y & Hin & Hy); [exists y; split; [by right|done]|]. apply elem_of_cons in Hin as [->|Hin]; [done|eauto].
Qed.

Lemma send_session type id session message url path d : num_ltb (NInt 0) id = true ->
  sendCustomMessage (session_message type id ((Some session)@."session_id") message url path) None d =
    (if dr_client d then [session_post type message url path (dr_deviceId d) (id, session)] else [], d, Some tt).
Proof.
  intros Hid. unfold sendCustomMessage, session_post. destruct (dr_client d) eqn:Hc; [|done]. cbn [negb truthy]. unfold session_message, createCustomData.
  set (o := opt_field _ _ ++ _).
  assert (forall x, assign (js "sender") (dr_deviceId d) (JObj [(js "type", JStr (custom_name type)); (js "data", x)]) =
    JObj ([(js "type", JStr (custom_name type)); (js "data", x)] ++ opt_field "sender" (dr_deviceId d))) as -> by (intros x; by destruct (dr_deviceId d)).
  assert ((Some (JObj o))@."client_id" = Some (JNum id)) as Ho by (subst o; by destruct ((Some session)@."session_id")).
  set (m := JObj ([_; _] ++ _)). assert ((Some m)@."data" = Some (JObj o)) as -> by reflexivity. cbv beta iota.
  rewrite Ho. cbn [positive]. rewrite Hid. unfold post. rewrite Hc. reflexivity.
Qed.

Lemma session_ok_matches session url : session_ok session = true ->
  exists s b, (Some session)@."url" = Some (JStr s) /\ url_matches s url = Some b /\ (b = true <-> session_shows url session).
Proof.
  unfold session_ok. destruct ((Some session)@."url") as [[| | |s| |]|] eqn:Es; try done. intros [H1 H2]%andb_prop.
  apply bool_decide_eq_true in H1 as [e He], H2 as [o Ho]. assert (exists b, url_matches s url = Some b) as [b Hb].
  { unfold url_matches. rewrite He. cbn -[compared]. fold (compared s). rewrite Ho. cbn. eauto. }
  exists s, b. split; [done|]. split; [done|]. rewrite (url_matches_iff s url b Hb). unfold session_shows. rewrite Es. split; [eauto|by intros (? & [= <-] & ?)].
Qed.

Section Sending.
Context (type : ECustomDataType) (message url : jstr) (path : option jstr) (d : RemoteDebugDriver).

(** What goes out for the chosen sessions: nothing without a socket. *)
Definition posts (c : list (num * json)) : list driver_effect :=
  if dr_client d then List.map (session_post type message url path (dr_deviceId d)) c else [].

Abbreviation fits := (fun p : num * json => session_shows url p.2).

Lemma posts_app a b : posts (a ++ b) = posts a ++ posts b.
Proof. unfold posts. destruct (dr_client d); [apply List.map_app|done]. Qed.

Lemma send_sessions_spec id l founded : num_ltb (NInt 0) id = true -> forallb session_ok l = true ->
  exists c, chosen fits (List.map (pair id) l) c /\
    send_sessions type id message url path l founded d = (posts c, d, Some (founded || negb (bool_decide (c = [])))).
Proof.
  intros Hid. revert founded. induction l as [|s l IH]; intros founded Hl; cbn [send_sessions List.map].
  { exists []. split; [constructor|]. unfold posts. destruct (dr_client d); by rewrite orb_false_r. }
  cbn in Hl. apply andb_prop in Hl as [Hs Hl]. destruct (session_ok_matches s url Hs) as (u & b & -> & -> & Hb). destruct b.
  - destruct (IH true Hl) as (c & Hc & E). exists ((id, s) :: c). split; [by constructor; [apply Hb|]|].
    rewrite send_session by done. unfold dseq. rewrite E. unfold posts. destruct (dr_client d); cbn; by destruct founded.
  - destruct (IH founded Hl) as (c & Hc & ->). exists c. split; [constructor; [|done]|done]. intros H. by apply Hb in H.
Qed.

Lemma send_clients_spec (r : list (jstr * json)) founded : forallb client_ok r = true -> (forall k v, (k, v) ∈ r -> mget k (lists d) = Some v) ->
  exists c, chosen fits (all_sessions r) c /\
    send_clients type message url path (List.map js_Number (mkeys r)) founded d = (posts c, d, Some (founded || negb (bool_decide (c = [])))).
Proof.
  revert founded. induction r as [|[k v] r IH]; intros founded Hr Hin.
  { exists []. split; [constructor|]. unfold posts. cbn. destruct (dr_client d); by rewrite orb_false_r. }
  cbn in Hr. apply andb_prop in Hr as [Hk Hr]. unfold client_ok in Hk. cbn [fst snd] in Hk. apply andb_prop in Hk as [Hk Hd].
  cbn [mkeys fmap list_fmap List.map send_clients fst]. unfold all_sessions. cbn [List.map concat]. fold (all_sessions r).
  destruct (js_Number k) as [n|] eqn:En; [|done]. apply andb_prop in Hk as [Hn Hs].
  apply bool_decide_eq_true in Hs. cbn [num_toString]. rewrite Hs. fold (lists d). rewrite (Hin k v) by left. unfold sessions_of.
  destruct ((Some v)@."data") as [[| | | |l|]|]; try done.
  destruct (send_sessions_spec (NInt n) l founded Hn Hd) as (c1 & Hc1 & ->). unfold dseq. change (List.map js_Number r.*1) with (List.map js_Number (mkeys r)).
  destruct (IH (founded || negb (bool_decide (c1 = []))) Hr) as (c2 & Hc2 & ->); [intros; apply Hin; by right|].
  exists (c1 ++ c2). split; [by apply chosen_app|]. rewrite posts_app. do 2 f_equal. rewrite <- orb_assoc. f_equal. by destruct c1.
Qed.

End Sending.

(** C32: A message for the sessions that show a page goes to exactly those: one
    message per such session, in the order of the clients and of their lists, of
    the given type, from this driver, to the session's client and with the
    session's id, the text, the page and the path; the answer says whether a
    session shows the page.  A session shows a page when its url contains the
    page, or the page contains its url, the encoding of its url, or the encoding
    of its beginning up to the first [template.js] (its first ten characters when
    there is none).  Without a socket nothing is sent and the answer is the
    same.  The record is one the clients fill: positive ids, lists of sessions
    with string urls, and no lone surrogate in what is encoded. *)
Theorem sessions_addressed type message url path d : record_ok (lists d) ->
  exists c found, chosen (fun p => session_shows url p.2) (all_sessions (lists d)) c /\
    sendCustomMessageToSessions type message url path d =
      (if dr_client d then List.map (session_post type message url path (dr_deviceId d)) c else [], d, Some found) /\
    (found = true <-> exists p, p ∈ all_sessions (lists d) /\ session_shows url p.2).
Proof.
  intros [Hnd Hok]. destruct (send_clients_spec type message url path d (lists d) false Hok) as (c & Hc & E).
  { intros k v Hin. by apply In_mget. }
  exists c, (negb (bool_decide (c = []))). split; [done|]. split.
  - unfold sendCustomMessageToSessions. destruct (dr_sessionListRecord d) as [r|] eqn:Er.
    + unfold lists in E. rewrite Er in E. exact E.
    + unfold lists in Hc. rewrite Er in Hc. inversion Hc. by destruct (dr_client d).
  - rewrite <- (chosen_empty _ _ _ Hc), negb_true_iff. apply bool_decide_eq_false.
Qed.

(** A session whose url has no [template.js] shows every page that mentions its
    first ten characters. *)
Lemma short_beginning_matches s url e e' : index_of (js "template.js") s = None -> encodeURIComponent s = Some e' ->
  encodeURIComponent (take 10 s) = Some e -> includes url e = true -> url_matches s url = Some true.
Proof. intros H1 H2 H3 H4. unfold url_matches. rewrite H2, H1. cbn. rewrite H3. cbn. rewrite H4. by rewrite orb_true_r. Qed.

Definition demo_lists : list (jstr * json) :=
  [(js "3", JObj [(js "type", jstring "SessionList"); (js "sender", jint 3);
      (js "data", JArr [JObj [(js "session_id", jint 1); (js "url", jstring "http://h/a/template.js?x=1")];
                        JObj [(js "session_id", jint 2); (js "url", jstring "http://h/b/template.js")]])])].

Lemma sessions_addressed_witness :
  let d := started_driver <| dr_sessionListRecord := Some demo_lists |> in
  let url := js "http://h/b/template.js" in
  (exists c found, chosen (fun p => session_shows url p.2) (all_sessions (lists d)) c /\
    sendCustomMessageToSessions CuCDP reload_message url None d =
      (if dr_client d then List.map (session_post CuCDP reload_message url None (dr_deviceId d)) c else [], d, Some found) /\
    (found = true <-> exists p, p ∈ all_sessions (lists d) /\ session_shows url p.2)) /\
  match sendCustomMessageToSessions CuCDP reload_message url None d with
  | ([DPost Customized (Some m) (Some to)], _, Some true) => to = jint 3 /\ (Some m)@."data"@."session_id" = Some (jint 2)
  | _ => False
  end.
Proof.
  cbv zeta. split; [|vm_compute; split; reflexivity]. apply sessions_addressed. split; [|vm_compute; reflexivity].
  apply (bool_decide_unpack _). vm_compute. exact I.
Defined.

(** ** Registering without a driver *)

(** [waitEvent(socket, event)]: the first message of that event among the texts
    that arrive before the socket closes, and the texts after it. *)
Fixpoint waitEvent (event : SocketEvents) (texts : list jstr) : option (json * list jstr) :=
  match texts with
  | [] => None
  | text :: texts => match decodeTyped text event with Some m => Some (m, texts) | None => waitEvent event texts end
  end.

(** [quickRegister(socket, extraDescriptors)]: what it sends and, unless the
    socket closes before, the identifier it returns. *)
Definition quickRegister (extra : list (jstr * json)) (texts : list jstr) : list jstr * option jsval :=
  match waitEvent Initialize texts with
  | None => ([], None)
  | Some (m, texts) =>
      let identifier := (Some m)@."data" in
      let descriptor := fold_left (fun o '(k, v) => mset k v o) extra (opt_field "id" identifier) in
      ([encodeSocketMessage Register (Some (JObj descriptor)) None],
       match waitEvent Registered texts with Some _ => Some identifier | None => None end)
  end.

(** ** The socket of the browser *)

Record WSClientImpl := mkWSClientImpl { wi_opened : bool; wi_openCallback : bool; wi_closeCallback : bool; wi_messageCallback : bool }.

#[export] Instance eta_ws_client : Eta WSClientImpl := fun c =>
  mkWSClientImpl (wi_opened c) (wi_openCallback c) (wi_closeCallback c) (wi_messageCallback c).

Inductive ws_effect := WOpened | WClosed | WMessage (text : jstr) | WDropped (text : jstr) | WCloseSocket.

Definition new_ws_client : WSClientImpl := mkWSClientImpl false false false false.

(** Two seconds after the socket was created. *)
Definition ws_timeout (c : WSClientImpl) : list ws_effect := if wi_opened c then [] else [WCloseSocket].
Definition ws_open (c : WSClientImpl) : list ws_effect * WSClientImpl := (if wi_openCallback c then [WOpened] else [], c <| wi_opened := true |>).
Definition ws_message (text : jstr) (c : WSClientImpl) : list ws_effect := if wi_messageCallback c then [WMessage text] else [WDropped text].

(** The listeners of [error] and of [close] are the same. *)
Definition ws_ends (c : WSClientImpl) : list ws_effect := if wi_closeCallback c then [WClosed] else [].

Definition ws_onMessage (c : WSClientImpl) : WSClientImpl := c <| wi_messageCallback := true |>.
Definition ws_onOpen (c : WSClientImpl) : list ws_effect * WSClientImpl :=
  if wi_opened c then ([WOpened], c) else ([], c <| wi_openCallback := true |>).
Definition ws_onClose (c : WSClientImpl) : WSClientImpl := c <| wi_closeCallback := true |>.

(** The driver registers its callbacks as soon as the socket exists; each turn
    of the event loop may come before or after. *)
Definition ws_registered (c : WSClientImpl) : list ws_effect * WSClientImpl :=
  let '(es, c) := ws_onOpen (ws_onMessage c) in (es, ws_onClose c).

(** The driver is told of the opening once, whether the socket opened before or
    after it registered. *)
Lemma opening_told_once :
  (let '(e1, c) := ws_open new_ws_client in let '(e2, _) := ws_registered c in e1 ++ e2) = [WOpened] /\
  (let '(e1, c) := ws_registered new_ws_client in let '(e2, _) := ws_open c in e1 ++ e2) = [WOpened].
Proof. done. Qed.
