(* ===== verification/Utilities.v ===== *)
(** * Utilities

    Models the helpers that the daemon and the devices use: the search for the
    address of this host ([utils/InternalIpDetector.ts]), the tools of Android and
    Harmony devices ([utils/adb.validator.ts], [utils/hdc.validator.ts],
    [utils/hdc/hdc.ts], the options of [utils/hdc/client.ts]), the lock directory
    of connectors before the multiplexer ([utils/file_lock.ts]) and the monitor of
    devices and clients that are lost soon ([physical/MonitorUtils.ts]). *)

From Stdlib Require Import String.
From stdpp Require Import strings.
From S2P Require Import JsValue Json Ownership Trace HdcTracker Paths Forward.

(** ** The address of this host *)

(** A part of an IPv4 address as [net.isIP] takes it: no leading zero, at most
    255. *)
Definition ipv4_part (s : jstr) : bool :=
  forallb is_digit s && match s with [] => false | [_] => true | c :: _ => negb (c =? 48) end &&
  (Z.of_nat (List.length s) <=? 3) && (digits_value s <=? 255).

(** [isIP(s) === 4]. *)
Definition isIPv4_text (s : jstr) : bool := let parts := split_at 46 s in bool_decide (List.length parts = 4%nat) && forallb ipv4_part parts.

(** [NetworkInterfaceInfo]; older versions of Node give the family as a number. *)
Inductive ip_family := FamilyName (s : jstr) | FamilyNumber (n : Z).

Record NetworkInterfaceInfo := mkInterfaceInfo {
  ni_address : jstr;
  ni_cidr : option jstr;
  ni_netmask : jstr;
  ni_internal : bool;
  ni_family : ip_family
}.

Record IPv4Interface := mkIPv4Interface {
  ip_interface : jstr;
  ip_address : jstr;
  ip_cidr : jstr;
  ip_netmask : jstr;
  ip_internal : bool;
  ip_linkLocal : bool
}.

Definition isIPv4 (item : NetworkInterfaceInfo) : bool :=
  match ni_family item with FamilyName s => bool_decide (s = js "IPv4") | FamilyNumber n => n =? 4 end.

Definition isLinkLocalIPv4 (address : jstr) : bool := startsWith address (js "169.254.").

(** [networkInterfaces()]: an object from names to lists. *)
Definition getIPv4Interfaces (interfaces : list (jstr * list NetworkInterfaceInfo)) : list IPv4Interface :=
  concat (List.map (fun '(name, items) =>
    List.map (fun i => mkIPv4Interface name (ni_address i) (default [] (ni_cidr i)) (ni_netmask i) (ni_internal i) (isLinkLocalIPv4 (ni_address i)))
      (List.filter isIPv4 items)) interfaces).

Definition findFallbackIPv4FromInterfaces (interfaces : list IPv4Interface) : option jstr :=
  ip_address <$> head (List.filter (fun i => negb (ip_internal i) && negb (ip_linkLocal i)) interfaces).

(** What may happen to the probe, in some order: the clock, an error of the
    socket or an exception of [connect], or that it is connected, with the local
    address. *)
Inductive udp_event := ProbeTimeout | ProbeError (message : jstr) | ProbeConnected (address : jstr).

Definition PROBE_TIMEOUT_MS : Z := 2000.

Definition probe_result (e : udp_event) : jstr + jstr :=
  match e with
  | ProbeTimeout => inr (js "UDP route probe timed out after " ++ show_int PROBE_TIMEOUT_MS ++ js " ms")
  | ProbeError m => inr m
  | ProbeConnected a =>
      if bool_decide (a = []) || bool_decide (a = js "0.0.0.0") then inr (js "The operating system did not select a local IPv4 address") else inl a
  end.

(** [findIPv4ViaUdp]: the first event settles the promise and closes the socket;
    what comes later finds [completed] set.  The result and how often the socket
    was closed. *)
Fixpoint findIPv4ViaUdp (completed : option (jstr + jstr)) (closes : nat) (events : list udp_event) : option (jstr + jstr) * nat :=
  match events with
  | [] => (completed, closes)
  | e :: events =>
      match completed with
      | Some r => findIPv4ViaUdp (Some r) closes events
      | None => findIPv4ViaUdp (Some (probe_result e)) (S closes) events
      end
  end.

Inductive ip_source := UdpRoute | InterfaceFallback (probeError : jstr).

Record InternalIpDetectionResult := mkDetection {
  dt_target : jstr;
  dt_address : jstr;
  dt_interface : option jstr;
  dt_source : ip_source;
  dt_interfaces : list IPv4Interface
}.

Definition interface_of (address : jstr) (interfaces : list IPv4Interface) : option jstr :=
  ip_interface <$> List.find (fun i => bool_decide (ip_address i = address)) interfaces.

(** [detectInternalIPv4(target)] given how the probe ended; [inr] is the message
    of the exception. *)
Definition detectInternalIPv4 (target : jstr) (interfaces : list (jstr * list NetworkInterfaceInfo)) (probe : jstr + jstr)
    : InternalIpDetectionResult + jstr :=
  if negb (isIPv4_text target) then inr (js "target must be a valid IPv4 address")
  else
    let interfaces := getIPv4Interfaces interfaces in
    match probe with
    | inl address => inl (mkDetection target address (interface_of address interfaces) UdpRoute interfaces)
    | inr probeError =>
        match findFallbackIPv4FromInterfaces interfaces with
        | None | Some [] => inr (probeError ++ js "; no fallback IPv4 address is available")
        | Some address => inl (mkDetection target address (interface_of address interfaces) (InterfaceFallback probeError) interfaces)
        end
    end.

(** ** The tools of devices *)

Inductive os_platform := Darwin | Win | OtherOs.

Definition getAdbToolPath (platform : os_platform) (home : jstr) : option jstr :=
  match platform with Darwin => Some (path_join home (js ".DebugRouterConnector/adb-tool")) | _ => None end.

(** [validate()] given whether [adb --version] works, whether the directory of
    the own tool exists and whether that tool works: the answer, and what becomes
    of the module's [adbPath]. *)
Definition validate_adb (onPath toolDir toolWorks : bool) (home : jstr) (adbPath : option jstr) : bool * option jstr :=
  if onPath then (true, adbPath)
  else if toolDir && toolWorks then (true, Some (home ++ js "/.DebugRouterConnector/adb-tool/"))
  else (false, adbPath).

(** [getAdbInstance]: the [bin] of the client; [fix] sets the path before it
    installs anything. *)
Definition adb_bin (platform : os_platform) (onPath toolDir toolWorks : bool) (home : jstr) (adbPath : option jstr) : option jstr :=
  let '(valid, adbPath) := validate_adb onPath toolDir toolWorks home adbPath in
  let adbPath := if valid then adbPath
                 else match platform with Darwin => Some (path_join (home ++ js "/.DebugRouterConnector") (js "adb-tool")) | _ => adbPath end in
  match adbPath with
  | None => None
  | Some path => Some (path_join path (match platform with Win => js "adb.exe" | _ => js "adb" end))
  end.

(** [parseInt(s)]: hexadecimal after [0x]. *)
Definition hex_char (c : Z) : option Z :=
  if is_digit c then Some (c - 48) else if (65 <=? c) && (c <=? 70) then Some (c - 55) else if (97 <=? c) && (c <=? 102) then Some (c - 87) else None.

Fixpoint hex_digits (s : jstr) (acc : option Z) : option Z :=
  match s with
  | c :: s => match hex_char c with Some d => hex_digits s (Some (default 0 acc * 16 + d)) | None => acc end
  | [] => acc
  end.

Definition parseInt (s : jstr) : option Z :=
  let t := trim_start s in
  let '(neg, t) := match t with 45 :: t => (true, t) | 43 :: t => (false, t) | _ => (false, t) end in
  match t with
  | 48 :: 120 :: h | 48 :: 88 :: h => (if neg then Z.opp else id) <$> hex_digits h None
  | _ => parseInt10 s
  end.

(** [Hdc.createClient(options)]: the host and port of the client;
    [env] is [process.env.ENV_SERVER_PORT]. *)
Definition hdc_createClient (env : option jstr) (host : option jstr) (port : option Z) : jstr * Z :=
  let host := match host with None | Some [] => js "127.0.0.1" | Some h => h end in
  let p := match port with None | Some 0 => 8710 | Some p => p end in
  let p := match port with
           | None | Some 0 => match parseInt (match env with None | Some [] => js "8710" | Some e => e end) with Some q => q | None => p end
           | Some _ => p
           end in
  (host, p).

(** [getHdcInstance(hdcOption)], whatever the hdc commands did. *)
Definition getHdcInstance (env : option jstr) (host : option jstr) (port : option Z) : jstr * Z :=
  hdc_createClient env (Some (default (js "127.0.0.1") host)) (Some (default 8710 port)).

(** ** The lock directory of connectors *)

(** The processes on this host whose [hasLock] is set, and the directory: what
    [rmdir] says of it depends on whether it holds a file. *)
Record LockWorld := mkLockWorld { lw_dir : option bool; lw_has : list Z }.

Definition has_lock (p : Z) (w : LockWorld) : bool := bool_decide (p ∈ lw_has w).

(** [lock(callback)]: what the callback is told. *)
Definition lock (p : Z) (w : LockWorld) : bool * LockWorld :=
  if has_lock p w then (true, w)
  else match lw_dir w with
       | Some _ => (false, w)
       | None => (true, mkLockWorld (Some false) (p :: lw_has w))
       end.

Definition drop_flag (p : Z) (w : LockWorld) : list Z := List.filter (fun q => negb (q =? p)) (lw_has w).

(** [unlock(afterUnlock)]: the calls of the callback, [true] without an error;
    [removable]: the directory can be removed. *)
Definition unlock (p : Z) (removable : bool) (w : LockWorld) : list bool * LockWorld :=
  let first := if has_lock p w then [] else [true] in
  if removable then (first ++ [true], mkLockWorld None (drop_flag p w)) else (first ++ [false], w).

Definition resetLockStatus (p : Z) (w : LockWorld) : LockWorld := mkLockWorld (lw_dir w) (drop_flag p w).

Definition clearLockFile (w : LockWorld) : LockWorld :=
  match lw_dir w with Some false => mkLockWorld None (lw_has w) | _ => w end.

(** [cleanup] when a process ends. *)
Definition process_exits (p : Z) (w : LockWorld) : LockWorld :=
  let w := if has_lock p w then clearLockFile w else w in mkLockWorld (lw_dir w) (drop_flag p w).

Inductive lock_op := LLock (p : Z) | LUnlock (p : Z) (removable : bool) | LExit (p : Z).

Definition lock_step (w : LockWorld) (op : lock_op) : LockWorld :=
  match op with
  | LLock p => (lock p w).2
  | LUnlock p removable => (unlock p removable w).2
  | LExit p => process_exits p w
  end.

(** A process unlocks only what it has locked. *)
Definition proper (op : lock_op) (w : LockWorld) : bool := match op with LUnlock p _ => has_lock p w | _ => true end.

Fixpoint proper_run (ops : list lock_op) (w : LockWorld) : bool :=
  match ops with [] => true | op :: ops => proper op w && proper_run ops (lock_step w op) end.

(** At most one process has the lock, and the directory is there while one has. *)
Definition exclusive (w : LockWorld) : Prop := match lw_has w with [] => True | [_] => lw_dir w = Some false | _ => False end.

Lemma lock_step_exclusive op w : proper op w = true -> exclusive w -> exclusive (lock_step w op).
Proof.
  unfold exclusive, has_lock. destruct w as [dir [|q [|]]]; cbn; intros Hp Hw; try done.
  - destruct op as [p|p r|p]; cbn in *; [unfold lock, has_lock; cbn; by destruct dir|done|].
    unfold process_exits, has_lock, drop_flag; cbn. done.
  - subst dir. destruct op as [p|p r|p]; cbn in *; unfold lock, unlock, process_exits, has_lock, drop_flag in *; cbn in *.
    + by case_bool_decide.
    + apply bool_decide_eq_true, list_elem_of_singleton in Hp as ->. destruct r; cbn; by rewrite ?Z.eqb_refl.
    + destruct (Z.eqb_spec q p) as [->|Hne]; [rewrite bool_decide_eq_true_2 by (by left); cbn; by rewrite Z.eqb_refl|].
      rewrite bool_decide_eq_false_2 by (by intros ?%list_elem_of_singleton). cbn. by rewrite (proj2 (Z.eqb_neq _ _)).
Qed.

Lemma connector_lock_excludes ops w : exclusive w -> proper_run ops w = true -> exclusive (fold_left lock_step ops w).
Proof.
  revert w. induction ops as [|op ops IH]; intros w Hw Hp; [done|]. cbn in *. apply andb_prop in Hp as [H1 H2]. apply IH; [by apply lock_step_exclusive|done].
Qed.

(** A process that unlocks without having the lock removes that of another and
    is called back twice; a third process then gets the lock as well. *)
Lemma foreign_unlock p q r w : p <> q -> p <> r -> q <> r -> w = mkLockWorld (Some false) [q] ->
  unlock p true w = ([true; true], mkLockWorld None [q]) /\ lock r (mkLockWorld None [q]) = (true, mkLockWorld (Some false) [r; q]).
Proof.
  intros Hpq Hpr Hqr ->. unfold unlock, lock, has_lock, drop_flag. cbn. rewrite !bool_decide_eq_false_2 by (by intros ?%list_elem_of_singleton).
  rewrite (proj2 (Z.eqb_neq q p)) by done. done.
Qed.

(** ** Devices and clients that are lost soon *)

Inductive device_class := AndroidDeviceC | IOSDeviceC | HarmonyDeviceC | MacDeviceC | WindowsDeviceC | LinuxDeviceC | NetworkDeviceC | OtherDeviceC.

Definition getDeviceType (c : device_class) : jstr :=
  js (match c with
      | AndroidDeviceC => "Android" | IOSDeviceC => "iOS" | HarmonyDeviceC => "Harmony" | MacDeviceC => "Mac"
      | WindowsDeviceC => "Windows" | LinuxDeviceC => "Linux" | NetworkDeviceC => "Network" | OtherDeviceC => "Unknown"
      end).

Record MonitorMaps := mkMonitorMaps { mm_devices : list (jstr * Z); mm_clients : list (Z * Z) }.

#[export] Instance eta_monitor_maps : Eta MonitorMaps := fun m => mkMonitorMaps (mm_devices m) (mm_clients m).

Inductive monitor_report :=
  | RegisterNewDevice (serial deviceType : jstr)
  | QuickLoseDevice (curTime : Z) (serial : jstr) (dur : Z) (deviceType : jstr)
  | RegisterNewClient (client : Z)
  | QuickLoseClient (curTime dur client : Z).

Definition setDeviceTimeMap (now : Z) (serial : jstr) (c : device_class) (m : MonitorMaps) : list monitor_report * MonitorMaps :=
  ([RegisterNewDevice serial (getDeviceType c)], m <| mm_devices ::= mset serial now |>).

Definition soon (time : option Z) (now retryTime : Z) : option Z :=
  match time with Some t => if negb (t =? 0) && (now - t <? retryTime) then Some (now - t) else None | None => None end.

Definition monitorUnregisterDevice (now retryTime : Z) (serial : jstr) (c : device_class) (m : MonitorMaps) : list monitor_report * MonitorMaps :=
  match soon (mget serial (mm_devices m)) now retryTime with
  | Some dur => ([QuickLoseDevice now serial dur (getDeviceType c)], m <| mm_devices ::= mdel serial |>)
  | None => ([], m)
  end.

Definition setClientTimeMap (now client : Z) (m : MonitorMaps) : list monitor_report * MonitorMaps :=
  ([RegisterNewClient client], m <| mm_clients ::= mset client now |>).

Definition monitorUnregisterClient (now retryTime client : Z) (m : MonitorMaps) : list monitor_report * MonitorMaps :=
  let dur := soon (mget client (mm_clients m)) now retryTime in
  (match dur with Some d => [QuickLoseClient now d client] | None => [] end, m <| mm_clients ::= mdel client |>).

(** A device that is not lost soon stays in the map; a client does not. *)
Lemma monitor_maps_after now retryTime serial c client m :
  mget client (mm_clients (monitorUnregisterClient now retryTime client m).2) = None /\
  (soon (mget serial (mm_devices m)) now retryTime = None -> (monitorUnregisterDevice now retryTime serial c m).2 = m).
Proof. split; [cbn; by rewrite mget_mdel, decide_True|]. unfold monitorUnregisterDevice. by intros ->. Qed.

(** ** Theorems *)

Lemma probe_settles_once events : findIPv4ViaUdp None 0 events =
  match events with [] => (None, 0%nat) | e :: _ => (Some (probe_result e), 1%nat) end.
Proof.
  destruct events as [|e events]; [done|]. cbn. generalize (probe_result e) as r. intros r. induction events as [|e' events IH]; [done|]. cbn. apply IH.
Qed.

(** The first address of the list that other hosts can reach. *)
Definition reachable (i : IPv4Interface) : bool := negb (ip_internal i) && negb (ip_linkLocal i).

(** The address of this host, whatever happens to the probe, in whatever
    order and how often: the first event settles it, and the socket is closed
    once.  The address is the one the system selected for the route, which is
    never empty nor 0.0.0.0; when there is none, that of the first interface with
    an IPv4 address that is neither internal nor link-local.  The call throws
    only when there is no such interface either, or for a target that is no IPv4
    address. *)
Theorem internal_address_found target interfaces e events : isIPv4_text target = true ->
  (forall i, i ∈ getIPv4Interfaces interfaces -> ip_address i <> []) ->
  let '(probe, closes) := findIPv4ViaUdp None 0 (e :: events) in
  let items := getIPv4Interfaces interfaces in
  closes = 1%nat /\ probe = Some (probe_result e) /\
  match detectInternalIPv4 target interfaces (probe_result e) with
  | inl r =>
      dt_interfaces r = items /\ dt_address r <> [] /\
      match dt_source r with
      | UdpRoute => e = ProbeConnected (dt_address r) /\ dt_address r <> js "0.0.0.0"
      | InterfaceFallback _ => exists before i after, items = before ++ i :: after /\ ip_address i = dt_address r /\
          reachable i = true /\ forallb (fun j => negb (reachable j)) before = true
      end
  | inr _ => (forall a, e = ProbeConnected a -> a = [] \/ a = js "0.0.0.0") /\ forall i, i ∈ items -> reachable i = false
  end.
Proof.
  intros Ht Hne. rewrite probe_settles_once. cbv zeta. split_and!; try done. unfold detectInternalIPv4. rewrite Ht. cbn [negb].
  set (items := getIPv4Interfaces interfaces). destruct (probe_result e) as [a|m] eqn:Ep.
  - cbn. destruct e as [|m|a']; try done. cbn in Ep. destruct (bool_decide (a' = [])) eqn:E1, (bool_decide (a' = js "0.0.0.0")) eqn:E2; try done.
    apply bool_decide_eq_false in E1, E2. cbn in Ep. injection Ep as ->. done.
  - unfold findFallbackIPv4FromInterfaces. fold reachable.
    assert (forall l, match head (List.filter reachable l) with
      | Some i => exists before after, l = before ++ i :: after /\ reachable i = true /\ forallb (fun j => negb (reachable j)) before = true
      | None => forall i, i ∈ l -> reachable i = false end) as Hf.
    { induction l as [|i l IH]; [by intros i ?%not_elem_of_nil|]. cbn. destruct (reachable i) eqn:Er; [by exists [], l|].
      destruct (head (List.filter reachable l)) as [j|].
      - destruct IH as (before & after & -> & Hj & Hb). exists (i :: before), after. cbn. by rewrite Er.
      - intros j [->|Hj]%elem_of_cons; auto. }
    assert (forall a, e = ProbeConnected a -> a = [] \/ a = js "0.0.0.0") as He.
    { intros a ->. cbn in Ep. destruct (bool_decide_reflect (a = [])); [by left|]. destruct (bool_decide_reflect (a = js "0.0.0.0")); [by right|done]. }
    specialize (Hf items). change (List.filter (fun i => negb (ip_internal i) && negb (ip_linkLocal i)) items) with (List.filter reachable items).
    destruct (head (List.filter reachable items)) as [i|]; cbn.
    + destruct Hf as (before & after & Hi & Hr & Hb). destruct (ip_address i) as [|c a] eqn:Ea.
      * exfalso. apply (Hne i); [|done]. fold items. rewrite Hi. apply elem_of_app. right. by left.
      * cbn. split_and!; try done. exists before, i, after. done.
    + done.
Qed.

Definition demo_interfaces : list (jstr * list NetworkInterfaceInfo) :=
  [(js "lo0", [mkInterfaceInfo (js "127.0.0.1") None (js "255.0.0.0") true (FamilyName (js "IPv4"))]);
   (js "en0", [mkInterfaceInfo (js "169.254.3.4") None (js "255.255.0.0") false (FamilyName (js "IPv4"));
               mkInterfaceInfo (js "10.0.0.5") None (js "255.0.0.0") false (FamilyNumber 4)])].

Lemma internal_address_found_example :
  match detectInternalIPv4 (js "192.0.2.1") demo_interfaces (probe_result ProbeTimeout) with
  | inl r => dt_address r = js "10.0.0.5" /\ dt_interface r = Some (js "en0") /\
      exists before i after, getIPv4Interfaces demo_interfaces = before ++ i :: after /\ ip_address i = js "10.0.0.5" /\ reachable i = true
  | inr _ => False
  end.
Proof.
  assert (forall i, i ∈ getIPv4Interfaces demo_interfaces -> ip_address i <> []) as Hne.
  { intros i Hi E. vm_compute in Hi. repeat (apply elem_of_cons in Hi as [->|Hi]; [discriminate E|]). by apply not_elem_of_nil in Hi. }
  destruct (internal_address_found (js "192.0.2.1") demo_interfaces ProbeTimeout [] eq_refl Hne) as (_ & _ & _ & _ & before & i & after & H1 & H2 & H3 & _).
  split; [reflexivity|]. split; [reflexivity|]. exists before, i, after. split; [exact H1|]. split; [exact H2|exact H3].
Defined.

(** The port of the environment is never used: [getHdcInstance] always gives
    one. *)
Lemma env_port_unused env host port : port <> Some 0 -> (getHdcInstance env host port).2 = default 8710 port.
Proof. intros Hp. unfold getHdcInstance, hdc_createClient. destruct port as [[]|]; done. Qed.
