(* ===== verification/Tools.v ===== *)
(** * The adb tool

    [utils/adb.connection.ts] and the programs of [utils/adb.validator.ts]:
    connections to the adb server that are given back, looking for adb on this
    machine and installing it.  What they ask of the adb server, the shell, the
    network and the file system are calls of [Prog]. *)

From Stdlib Require Import String.
From stdpp Require Import strings.
From S2P Require Import JsValue Json Prog Ownership Trace HdcTracker Paths Forward Utilities.

(** ** Calls *)

Inductive tool_call :=
  | AdbConnect
  | AdbExecute (conn : Z)
  | SocketOf (conn : Z)                     (* [getSocket()] *)
  | DestroySocket (conn : Z)                (* resolves with its "close" *)
  | ExeCmd (cmd : jstr)
  | ExistsSync (p : jstr)
  | EnsureDir (p : jstr)
  | Download (p : jstr)                     (* the stream has been written *)
  | StartExtract (archive dir : jstr)       (* [pipe(unzip.Extract(...))]: a stream, no promise *)
  | RemoveFile (p : jstr)
  | CopyFile (source target : jstr)
  | ChmodSync (p : jstr).

Inductive socket_of := SocketAbsent | SocketDestroyed | SocketThere.

(** [None] and [false] are exceptions and promises that reject. *)
Definition tool_reply (c : tool_call) : Type :=
  match c with
  | AdbConnect => option Z
  | AdbExecute _ => option jsval
  | SocketOf _ => socket_of
  | DestroySocket _ | StartExtract _ _ => unit
  | _ => bool
  end.

(** The module's variable [adbPath]. *)
Record ToolState := mkToolState { ts_adbPath : option jstr }.

Definition T (A : Type) : Type := M tool_call tool_reply ToolState unit A.

Definition ask (c : tool_call) : T (tool_reply c) := mcall c.

(** A call that may throw. *)
Definition must (c : tool_call) (ok : tool_reply c -> bool) : T unit :=
  mlet r := ask c in if ok r then mret tt else mthrow tt.

(** ** Connections to the adb server *)

Definition disposeAdbConnection (conn : Z) : T unit :=
  mlet s := ask (SocketOf conn) in
  match s with SocketThere => ask (DestroySocket conn) | _ => mret tt end.

Definition adb_connect : T Z := mlet r := ask AdbConnect in match r with Some c => mret c | None => mthrow tt end.

Definition withAdbConnection {A} (execute : Z -> T A) : T A :=
  mlet conn := adb_connect in mfinally (execute conn) (disposeAdbConnection conn).

(** ** Looking for adb and installing it *)

Section Install.
Variable home : jstr.
Variable platform : os_platform.

Definition adb_tool_dir : jstr := home ++ js "/.DebugRouterConnector/adb-tool".

Definition validate : T bool :=
  mlet onPath := ask (ExeCmd (js "adb --version")) in
  if onPath then mret true
  else
    mlet toolDir := ask (ExistsSync adb_tool_dir) in
    if negb toolDir then mret false
    else
      mlet works := ask (ExeCmd (adb_tool_dir ++ js "/adb --version")) in
      if works then mlet _ := mput (mkToolState (Some (adb_tool_dir ++ js "/"))) in mret true else mret false.

Definition data_dir : jstr := home ++ js "/.DebugRouterConnector".
Definition install_path : jstr := path_join data_dir (js "adb-tool").

(** The part of [tryInstallAdbTool] that waits. *)
Definition install_rest : T unit :=
  mlet _ := must (EnsureDir data_dir) id in
  mlet _ := must (EnsureDir install_path) id in
  mlet _ := must (Download (data_dir ++ js "/platform-tools.zip")) id in
  mlet _ := ask (StartExtract (data_dir ++ js "/platform-tools.zip") data_dir) in
  mlet _ := must (RemoveFile (data_dir ++ js "/platform-tools.zip")) id in
  mlet _ := must (CopyFile (path_join data_dir (js "platform-tools") ++ js "/adb") (install_path ++ js "/adb")) id in
  must (ChmodSync (install_path ++ js "/adb")) id.

Definition tryInstallAdbTool : T unit := mlet _ := mput (mkToolState (Some install_path)) in install_rest.

Definition fix_ : T bool := mcatch (mlet _ := tryInstallAdbTool in mret true) (fun _ => mret false).

(** [getAdbInstance]: the [bin] of its client, if any.  [fix] is not awaited: the
    client is created when it has set the path. *)
Definition getAdbInstance : T (option jstr) :=
  mlet isValid := validate in
  mlet _ := (if isValid then mret tt
             else match platform with Darwin => mput (mkToolState (Some install_path)) | _ => mret tt end) in
  mlet s := mget_state in
  mret (option_map (fun p => path_join p (match platform with Win => js "adb.exe" | _ => js "adb" end)) (ts_adbPath s)).
End Install.

(** ** Connections are given back *)

Lemma exec_then {A B W} (serve : forall c, W -> tool_reply c * W) (p : T A) (f : A -> T B) s w :
  exec serve (mthen p f s) w =
    let '(tr, (o, s), w) := exec serve (p s) w in
    match o with
    | Returned a => let '(tr', r, w) := exec serve (f a s) w in (tr ++ tr', r, w)
    | Thrown e => (tr, (Thrown e, s), w)
    | NoFuel => (tr, (NoFuel, s), w)
    end.
Proof.
  unfold mthen. rewrite exec_bind. destruct (exec serve (p s) w) as [[tr [[a|e|] s1]] w1]; cbn [exec]; by rewrite ?app_nil_r.
Qed.

(** What gives a connection back, and nothing else, happens after its use. *)
Definition disposal (conn : Z) (state : socket_of) : list (event tool_call tool_reply) :=
  mkEvent (SocketOf conn : tool_call) (state : tool_reply (SocketOf conn)) ::
  match state with SocketThere => [mkEvent (DestroySocket conn) tt] | _ => [] end.

Lemma exec_dispose {W} (serve : forall c, W -> tool_reply c * W) conn s w :
  exists state w', exec serve (disposeAdbConnection conn s) w = (disposal conn state, (Returned tt, s), w').
Proof.
  unfold disposeAdbConnection. rewrite exec_then. cbn [ask mcall exec]. destruct (serve (SocketOf conn) w) as [state w1] eqn:E1.
  destruct state; cbn; [by exists SocketAbsent, w1|by exists SocketDestroyed, w1|].
  destruct (serve (DestroySocket conn) w1) as [[] w2] eqn:E2. by exists SocketThere, w2.
Qed.

(** A connection to the adb server is given back once, after its use, whether the
    use returned or threw, and the outcome is that of the use; without a
    connection nothing is used. *)
Theorem adb_connection_given_back {A W} (serve : forall c, W -> tool_reply c * W) (execute : Z -> T A) s w :
  let '(r, w1) := serve AdbConnect w in
  match r with
  | None => exec serve (withAdbConnection execute s) w = ([mkEvent AdbConnect None], (Thrown tt, s), w1)
  | Some conn =>
      let '(tr, (o, s'), w2) := exec serve (execute conn s) w1 in
      o <> NoFuel ->
      exists state w3, exec serve (withAdbConnection execute s) w = (mkEvent AdbConnect (Some conn) :: tr ++ disposal conn state, (o, s'), w3)
  end.
Proof.
  destruct (serve AdbConnect w) as [r w1] eqn:E. unfold withAdbConnection, adb_connect. rewrite !exec_then. cbn [ask mcall exec]. rewrite E.
  destruct r as [conn|]; cbn; [|done]. unfold mfinally. rewrite exec_bind.
  destruct (exec serve (execute conn s) w1) as [[tr [o s']] w2]. intros Ho. destruct (exec_dispose serve conn s' w2) as (state & w3 & Ed).
  exists state, w3. destruct o as [a|e|]; [| |done]; rewrite exec_bind, Ed; cbn; by rewrite app_nil_r.
Qed.


(** ** The program finds what the reference says *)

Lemma run_ask {A W} (serve : forall c, W -> tool_reply c * W) c (f : tool_reply c -> T A) s w :
  run serve (mthen (ask c) f s) w = let '(r, w) := serve c w in run serve (f r s) w.
Proof. rewrite run_then. unfold ask, mcall. rewrite run_call. by destruct (serve c w). Qed.

Section Answers.
Context {W : Type} (serve : forall c, W -> tool_reply c * W) (home : jstr).
Variables onPath toolDir toolWorks : bool.
Hypothesis H1 : forall w, (serve (ExeCmd (js "adb --version")) w).1 = onPath.
Hypothesis H2 : forall w, (serve (ExistsSync (adb_tool_dir home)) w).1 = toolDir.
Hypothesis H3 : forall w, (serve (ExeCmd (adb_tool_dir home ++ js "/adb --version")) w).1 = toolWorks.

Lemma validate_refines adbPath w :
  (run serve (validate home (mkToolState adbPath)) w).1 =
    let '(valid, path) := validate_adb onPath toolDir toolWorks home adbPath in (Returned valid, mkToolState path).
Proof.
  unfold validate, validate_adb. rewrite run_ask. specialize (H1 w). destruct (serve _ w) as [r1 w1]. cbn in H1. subst r1. destruct onPath; [done|].
  rewrite run_ask. specialize (H2 w1). destruct (serve _ w1) as [r2 w2]. cbn in H2. subst r2. destruct toolDir; [cbn [negb andb]|done].
  rewrite run_ask. specialize (H3 w2). destruct (serve _ w2) as [r3 w3]. cbn in H3. subst r3. destruct toolWorks; [|done].
  unfold adb_tool_dir, run. cbn. by rewrite <- app_assoc.
Qed.

(** [getAdbInstance] gives its client the tool that [adb_bin] says, given what the
    shell and the file system answer. *)
Theorem adb_instance_found platform adbPath w :
  (run serve (getAdbInstance home platform (mkToolState adbPath)) w).1.1 = Returned (adb_bin platform onPath toolDir toolWorks home adbPath).
Proof.
  unfold getAdbInstance. rewrite run_then. pose proof (validate_refines adbPath w) as H. destruct (run serve (validate home _) w) as [[o s] w1]. cbn [fst] in H.
  unfold adb_bin. destruct (validate_adb _ _ _ _ _) as [valid path]. injection H as -> ->.
  destruct valid; [destruct path; by destruct platform|]. destruct platform; destruct path; reflexivity.
Qed.
End Answers.

(** ** Installing *)

Definition install_calls (home : jstr) : list tool_call :=
  [EnsureDir (data_dir home); EnsureDir (install_path home); Download (data_dir home ++ js "/platform-tools.zip");
   StartExtract (data_dir home ++ js "/platform-tools.zip") (data_dir home); RemoveFile (data_dir home ++ js "/platform-tools.zip");
   CopyFile (path_join (data_dir home) (js "platform-tools") ++ js "/adb") (install_path home ++ js "/adb"); ChmodSync (install_path home ++ js "/adb")].

(** A call that succeeded. *)
Definition succeeded (e : event tool_call tool_reply) : bool :=
  match e with
  | mkEvent (EnsureDir _) r | mkEvent (Download _) r | mkEvent (RemoveFile _) r | mkEvent (CopyFile _ _) r | mkEvent (ChmodSync _) r => r
  | _ => true
  end.

(** Installing makes its calls in order and stops at the first that fails; it
    answers whether all succeeded, and the path is set in any case.  The archive
    is removed and the tool copied with nothing in between that waits for the
    extraction, which has only been started. *)
Theorem install_in_order {W} (serve : forall c, W -> tool_reply c * W) home s w :
  let '(tr, (o, s'), w') := exec serve (fix_ home s) w in
  exists n, List.map ev_call tr = firstn n (install_calls home) /\ s' = mkToolState (Some (install_path home)) /\
    o = Returned (forallb succeeded tr) /\ (forallb succeeded tr = true -> n = 7%nat).
Proof.
  unfold fix_, mcatch. rewrite exec_bind. unfold tryInstallAdbTool. rewrite !exec_then. cbn [mput exec]. cbn [exec app].
  set (s1 := mkToolState (Some (install_path home))). unfold install_rest, must.
  assert (forall {A} c (ok : tool_reply c -> bool) (f : unit -> T A) s w,
    exec serve (mthen (mthen (ask c) (fun r => if ok r then mret tt else mthrow tt)) f s) w =
      let '(r, w) := serve c w in
      if ok r then let '(tr, a, w) := exec serve (f tt s) w in (mkEvent c r :: tr, a, w) else ([mkEvent c r], (Thrown tt, s), w)) as Hm.
  { intros A c ok f s2 w2. rewrite !exec_then. cbn [ask mcall exec]. destruct (serve c w2) as [r w3]. cbn. destruct (ok r); cbn; [|done].
    by destruct (exec serve (f tt s2) w3) as [[??]?]. }
  assert (forall c (ok : tool_reply c -> bool) s w, exec serve (mthen (ask c) (fun r => if ok r then mret tt else mthrow tt) s) w =
      let '(r, w) := serve c w in ([mkEvent c r], (if ok r then Returned tt else Thrown tt, s), w)) as Hl.
  { intros c ok s2 w2. rewrite exec_then. cbn [ask mcall exec]. destruct (serve c w2) as [r w3]. cbn. by destruct (ok r). }
  assert (forall {A} c (f : tool_reply c -> T A) s w, exec serve (mthen (ask c) f s) w =
      let '(r, w) := serve c w in let '(tr, a, w) := exec serve (f r s) w in (mkEvent c r :: tr, a, w)) as Ha.
  { intros A c f s2 w2. rewrite exec_then. cbn [ask mcall exec]. by destruct (serve c w2) as [r w3]. }
  rewrite Hm. destruct (serve _ w) as [[] w1]; cbn [id]; [|by exists 1%nat].
  rewrite Hm. destruct (serve _ w1) as [[] w2]; cbn [id]; [|by exists 2%nat].
  rewrite Hm. destruct (serve _ w2) as [[] w3]; cbn [id]; [|by exists 3%nat].
  rewrite Ha. destruct (serve _ w3) as [[] w4].
  rewrite Hm. destruct (serve _ w4) as [[] w5]; cbn [id]; [|by exists 5%nat].
  rewrite Hm. destruct (serve _ w5) as [[] w6]; cbn [id]; [|by exists 6%nat].
  rewrite Hl. destruct (serve _ w6) as [[] w7]; cbn [id]; by exists 7%nat.
Qed.
