(* ===== verification/Logger.v ===== *)
(** * The logger

    [utils/logger.ts]: levels, the output that can be replaced, the timers of
    [time] and [timeEnd], and the time stamps of the lines.  The colours of the
    chalk library are a parameter. *)

From Stdlib Require Import String.
From stdpp Require Import strings.
From S2P Require Import JsValue.

(** ** Time stamps *)

(** The local time of a [Date]; months count from 0. *)
Record LocalDate := mkLocalDate {
  dt_year : Z; dt_month : Z; dt_date : Z; dt_hours : Z; dt_minutes : Z; dt_seconds : Z; dt_milliseconds : Z
}.

(** The first match of a class of one character in a text: what is before it, its
    length and what is after it.  [many] is the [+] of the pattern. *)
Fixpoint run_length (c : Z) (s : jstr) : nat :=
  match s with d :: s => if d =? c then S (run_length c s) else O | [] => O end.

Fixpoint find_run (many : bool) (c : Z) (s : jstr) : option (jstr * nat * jstr) :=
  match s with
  | [] => None
  | d :: s' =>
      if d =? c then let n := if many then run_length c s else 1%nat in Some ([], n, drop n s)
      else match find_run many c s' with Some (before, n, after) => Some (d :: before, n, after) | None => None end
  end.

(** [s.substr(start)]: a negative start counts from the end. *)
Definition substr (start : Z) (s : jstr) : jstr :=
  drop (Z.to_nat (if start <? 0 then Z.max 0 (Z.of_nat (List.length s) + start) else start)) s.

(** [fmt.replace(RegExp.$1, f(RegExp.$1))]: a match is where its text occurs first. *)
Definition replace_run (many : bool) (c : Z) (f : nat -> jstr) (fmt : jstr) : jstr :=
  match find_run many c fmt with Some (before, n, after) => before ++ f n ++ after | None => fmt end.

Definition year_text (year : Z) (n : nat) : jstr :=
  substr (4 - Z.of_nat n) (if year <? 0 then 45 :: digits (- year) else digits year).

Definition field_text (v : Z) (n : nat) : jstr :=
  if (n =? 1)%nat then digits v else substr (Z.of_nat (List.length (digits v))) (js "00" ++ digits v).

(** The properties of [o], in their order. *)
Definition date_fields (d : LocalDate) : list (bool * Z * Z) :=
  [(true, 77, dt_month d + 1); (true, 100, dt_date d); (true, 104, dt_hours d); (true, 109, dt_minutes d);
   (true, 115, dt_seconds d); (true, 113, (dt_month d + 3) / 3); (false, 83, dt_milliseconds d)].

Definition default_format : jstr := js "yyyy-MM-dd hh:mm:ss".

Definition dateFormat (fmt : jstr) (d : LocalDate) : jstr :=
  fold_left (fun fmt '(many, c, v) => replace_run many c (field_text v) fmt) (date_fields d)
    (replace_run true 121 (year_text (dt_year d)) fmt).

(** ** Loggers *)

(** A level is whatever text it was set to. *)
Definition LogLevels (level : jstr) : option Z :=
  mget level [(js "error", 0); (js "silent", 1); (js "trace", 2); (js "warn", 3); (js "info", 4); (js "debug", 5)].

Record Logger := mkLogger {
  lg_level : jstr;
  lg_timesMap : list (jstr * Z);
  lg_output : option Z               (* a function that was set *)
}.

#[export] Instance eta_logger : Eta Logger := fun l => mkLogger (lg_level l) (lg_timesMap l) (lg_output l).

Inductive log_effect :=
  | ConsoleLog (message : list jstr)
  | CallOutput (f : Z) (level : jstr) (message : list jstr).

(** [new Logger(opts)]. *)
Definition new_logger (level : option jstr) : Logger :=
  mkLogger (match level with Some (_ :: _ as l) => l | _ => js "info" end) [] None.

Definition setOutput (f : Z) (l : Logger) : Logger := l <| lg_output := Some f |>.

Definition log_types : list jstr := [js "error"; js "warn"; js "info"; js "silent"; js "debug"; js "trace"].

Section Output.
(** [chalk.green], [chalk.bold.blue] and the like. *)
Variable chalk : string -> jstr -> jstr.

(** A level that is not known is not below another one. *)
Definition below (a b : jstr) : bool := match LogLevels a, LogLevels b with Some x, Some y => x <? y | _, _ => false end.

Definition defaultOutput (level : jstr) (message : list jstr) (now : LocalDate) (l : Logger) : list log_effect :=
  if below (lg_level l) level then []
  else [ConsoleLog (chalk "green" ([91] ++ dateFormat default_format now ++ [93]) :: message)].

Definition output (level : jstr) (message : list jstr) (now : LocalDate) (l : Logger) : list log_effect :=
  match lg_output l with Some f => [CallOutput f level message] | None => defaultOutput level message now l end.

Definition log_info (msg : jstr) := output (js "info") [chalk "bold.blue" (js "INFO"); msg].
Definition log_warn (msg : jstr) := output (js "warn") [chalk "bold.yellow" (js "WARN"); msg].
Definition log_error (msg : jstr) := output (js "error") [chalk "bold.red" (js "ERROR"); msg].
Definition log_debug (info : list jstr) := output (js "debug") (chalk "bold.bgYellowBright" (js "DEBUG") :: info).

Definition setLevel (level : jstr) (now : LocalDate) (l : Logger) : list log_effect * Logger :=
  (if bool_decide (level ∈ log_types) then []
   else log_error (js "logLevel's value should be one of error,warn,info,silent,debug,trace") now l,
   l <| lg_level := level |>).

(** [hrtime] is the value of [process.hrtime.bigint()]. *)
Definition time (label : jstr) (hrtime : Z) (l : Logger) : Logger := l <| lg_timesMap ::= mset label hrtime |>.

(** [None] is the exception of a label without a time. *)
Definition timeEnd (label : jstr) (hrtime : Z) (now : LocalDate) (l : Logger) : option (list log_effect * Logger) :=
  match mget label (lg_timesMap l) with
  | None => None
  | Some pervTime =>
      if pervTime =? 0 then None
      else
        let duration := Z.quot (hrtime - pervTime) 1000000 in
        let l := l <| lg_timesMap ::= mdel label |> in
        Some (log_info (label ++ js ": " ++ (if duration <? 0 then 45 :: digits (- duration) else digits duration) ++ js "ms") now l, l)
  end.

(** The logger of the process. *)
Definition defaultLogger (DriverEnv : option jstr) (now : LocalDate) : Logger :=
  let l := new_logger (Some (js "info")) in
  if bool_decide (DriverEnv = Some (js "dev")) then (setLevel (js "debug") now l).2 else l.
End Output.

(** ** The time stamp tells the time *)

Lemma find_run_spec c p n rest : (c ∉ p) -> head rest <> Some c -> (0 < n)%nat ->
  find_run true c (p ++ repeat c n ++ rest) = Some (p, n, rest).
Proof.
  intros Hp Hr Hn. induction p as [|d p IH]; cbn [app].
  - destruct n as [|n]; [lia|]. cbn [repeat app find_run]. rewrite Z.eqb_refl.
    assert (run_length c (c :: repeat c n ++ rest) = S n) as ->.
    { cbn [run_length]. rewrite Z.eqb_refl. f_equal. clear Hn. induction n as [|n IH]; cbn [repeat app run_length].
      - destruct rest as [|d rest]; [done|]. cbn. destruct (Z.eqb_spec d c) as [->|]; [by destruct Hr|done].
      - by rewrite Z.eqb_refl, IH. }
    f_equal. f_equal. cbn [drop]. by rewrite <- (repeat_length c n) at 1; rewrite drop_app_length.
  - apply not_elem_of_cons in Hp as [H1 H2]. cbn [find_run]. rewrite (proj2 (Z.eqb_neq d c)) by congruence. by rewrite (IH H2).
Qed.

Lemma find_run_none many c s : c ∉ s -> find_run many c s = None.
Proof.
  induction s as [|d s IH]; [done|]. intros [H1 H2]%not_elem_of_cons. cbn [find_run]. rewrite (proj2 (Z.eqb_neq d c)) by congruence. by rewrite (IH H2).
Qed.

(** Two digits. *)
Definition two (v : Z) : jstr := [48 + v / 10; 48 + v mod 10].

Lemma field_two v : 0 <= v < 100 -> field_text v 2 = two v.
Proof.
  intros H. assert (forallb (fun n => bool_decide (field_text (Z.of_nat n) 2 = two (Z.of_nat n))) (seq 0 100) = true) as Ha by (vm_compute; reflexivity).
  rewrite forallb_forall in Ha. specialize (Ha (Z.to_nat v)). rewrite in_seq, Z2Nat.id in Ha by lia. apply bool_decide_eq_true in Ha; [done|lia].
Qed.

Record valid_date (d : LocalDate) : Prop := {
  vd_year : 0 <= dt_year d;
  vd_month : 0 <= dt_month d < 12;
  vd_date : 1 <= dt_date d <= 31;
  vd_hours : 0 <= dt_hours d < 24;
  vd_minutes : 0 <= dt_minutes d < 60;
  vd_seconds : 0 <= dt_seconds d < 60
}.

(** Texts of digits and separators have no letters. *)
Definition no_letters (s : jstr) : bool := forallb (fun c => c <? 65) s.

Lemma no_letters_notin c s : no_letters s = true -> 65 <= c -> c ∉ s.
Proof. intros Hs Hc Hin. unfold no_letters in Hs. rewrite forallb_forall in Hs. apply list_elem_of_In in Hin. specialize (Hs c Hin). apply Z.ltb_lt in Hs. lia. Qed.

Lemma no_letters_digits n : 0 <= n -> no_letters (digits n) = true.
Proof.
  intros Hn. pose proof (digits_digit n Hn) as H. unfold no_letters. rewrite forallb_forall in *. intros c Hc. specialize (H c Hc).
  unfold is_digit in H. bprop. apply Z.ltb_lt. lia.
Qed.

Lemma no_letters_app a b : no_letters (a ++ b) = no_letters a && no_letters b.
Proof. apply forallb_app. Qed.

Lemma no_letters_two v : 0 <= v < 100 -> no_letters (two v) = true.
Proof.
  intros H. unfold no_letters, two. cbn [forallb]. pose proof (Z.mod_pos_bound v 10 eq_refl). assert (v / 10 < 10) by (apply Z.div_lt_upper_bound; lia).
  rewrite !andb_true_iff, !Z.ltb_lt. lia.
Qed.

(** One field of the format is replaced. *)
Lemma replace_two c p rest v : no_letters p = true -> 65 <= c -> head rest <> Some c -> 0 <= v < 100 ->
  replace_run true c (field_text v) (p ++ [c; c] ++ rest) = p ++ two v ++ rest.
Proof.
  intros Hp Hc Hr Hv. unfold replace_run. change ([c; c] ++ rest) with (repeat c 2 ++ rest).
  rewrite (find_run_spec c p 2 rest); [by rewrite field_two|by apply no_letters_notin|done|lia].
Qed.

Lemma replace_none many c f s : no_letters s = true -> 65 <= c -> replace_run many c f s = s.
Proof. intros Hs Hc. unfold replace_run. rewrite find_run_none; [done|]. by apply no_letters_notin. Qed.

Definition stamp (d : LocalDate) : jstr :=
  digits (dt_year d) ++ [45] ++ two (dt_month d + 1) ++ [45] ++ two (dt_date d) ++ [32] ++ two (dt_hours d) ++ [58] ++ two (dt_minutes d) ++ [58] ++ two (dt_seconds d).

Ltac nl := rewrite ?no_letters_app; cbn [no_letters forallb]; repeat match goal with H : _ -> no_letters _ = true |- _ => rewrite H by lia end;
  repeat match goal with H : no_letters _ = true |- _ => rewrite H end; reflexivity.

Lemma dateFormat_stamp d : valid_date d -> dateFormat default_format d = stamp d.
Proof.
  intros [H1 H2 H3 H4 H5 H6]. unfold dateFormat, date_fields. cbn [fold_left].
  assert (replace_run true 121 (year_text (dt_year d)) default_format = (digits (dt_year d) ++ [45]) ++ [77; 77] ++ js "-dd hh:mm:ss") as ->.
  { unfold year_text. rewrite (proj2 (Z.ltb_ge _ _) H1). cbn. by rewrite <- app_assoc. }
  pose proof (no_letters_digits _ H1) as Ny. pose proof (no_letters_two (dt_month d + 1)) as N1. pose proof (no_letters_two (dt_date d)) as N2.
  pose proof (no_letters_two (dt_hours d)) as N3. pose proof (no_letters_two (dt_minutes d)) as N4. pose proof (no_letters_two (dt_seconds d)) as N5.
  rewrite replace_two; [|nl|lia|done|lia].
  change (js "-dd hh:mm:ss") with ([45] ++ [100; 100] ++ js " hh:mm:ss"). rewrite !(app_assoc _ [45]), !(app_assoc _ _ ([100; 100] ++ _)).
  rewrite replace_two; [|nl|lia|done|lia].
  change (js " hh:mm:ss") with ([32] ++ [104; 104] ++ js ":mm:ss"). rewrite !(app_assoc _ _ ([32] ++ _)), !(app_assoc _ _ ([104; 104] ++ _)).
  rewrite replace_two; [|nl|lia|done|lia].
  change (js ":mm:ss") with ([58] ++ [109; 109] ++ js ":ss"). rewrite !(app_assoc _ _ ([58] ++ _)), !(app_assoc _ _ ([109; 109] ++ _)).
  rewrite replace_two; [|nl|lia|done|lia].
  change (js ":ss") with ([58] ++ [115; 115] ++ []). rewrite !(app_assoc _ _ ([58] ++ _)), !(app_assoc _ _ ([115; 115] ++ _)).
  rewrite replace_two; [|nl|lia|done|lia].
  rewrite (replace_none true 113); [|nl|lia]. rewrite (replace_none false 83); [|nl|lia]. unfold stamp. by rewrite app_nil_r, <- !app_assoc.
Qed.

(** Reading a stamp: the last fields have two digits each. *)
Definition read_stamp (s : jstr) : Z * Z * Z * Z * Z * Z :=
  let n := (List.length s - 15)%nat in
  let field i := digits_value (firstn 2 (drop (n + i) s)) in
  (digits_value (firstn n s), field 1%nat - 1, field 4%nat, field 7%nat, field 10%nat, field 13%nat).

Lemma two_value v : digits_value (two v) = v.
Proof. unfold digits_value, two. cbn [fold_left]. pose proof (Z.div_mod v 10). lia. Qed.

(** The stamp of a line tells the time to the second. *)
Theorem stamp_read d : valid_date d ->
  read_stamp (dateFormat default_format d) = (dt_year d, dt_month d, dt_date d, dt_hours d, dt_minutes d, dt_seconds d).
Proof.
  intros Hd. rewrite (dateFormat_stamp d Hd). unfold read_stamp, stamp.
  match goal with |- context [digits (dt_year d) ++ ?x] => set (t := x) end.
  assert (List.length (digits (dt_year d) ++ t) - 15 = List.length (digits (dt_year d)))%nat as -> by (rewrite length_app; unfold t; cbn; lia).
  rewrite take_app_length, (digits_value_digits _ (vd_year d Hd)).
  assert (forall i, drop (List.length (digits (dt_year d)) + i) (digits (dt_year d) ++ t) = drop i t) as Hi
    by (intros i; rewrite <- drop_drop, drop_app_length; done).
  rewrite !Hi. unfold t. cbn [drop app firstn two]. fold (two (dt_month d + 1)) (two (dt_date d)) (two (dt_hours d)) (two (dt_minutes d)) (two (dt_seconds d)).
  rewrite !two_value. repeat f_equal. lia.
Qed.

(** ** What is printed *)

Section Printed.
Variable chalk : string -> jstr -> jstr.

(** Under a known level exactly the messages up to it are printed; errors always
    are, also under "silent". *)
Theorem printed_up_to_level level message now l a b : lg_output l = None -> LogLevels (lg_level l) = Some a -> LogLevels level = Some b ->
  output chalk level message now l <> [] <-> b <= a.
Proof.
  intros Ho Ha Hb. unfold output, defaultOutput, below. rewrite Ho, Ha, Hb. destruct (Z.ltb_spec a b); split; intros H'; try done; lia.
Qed.

Lemma errors_printed msg now l : output chalk (js "error") msg now l <> [].
Proof.
  unfold output, defaultOutput, below. destruct (lg_output l); [done|]. change (LogLevels (js "error")) with (Some 0).
  destruct (LogLevels (lg_level l)) as [a|] eqn:E; [|done].
  assert (0 <= a) as Ha; [|by rewrite (proj2 (Z.ltb_ge a 0))]. unfold LogLevels in E. cbn [mget] in E. repeat case_decide; simplify_eq; lia.
Qed.

(** A level that is refused is set nevertheless, and everything is printed. *)
Lemma unknown_level_set level now l : LogLevels level = None -> lg_output l = None ->
  let '(es, l') := setLevel chalk level now l in es <> [] /\ forall m msg, output chalk m msg now l' <> [].
Proof.
  intros Hl Ho. unfold setLevel. split.
  - case_bool_decide as Hin; [|apply errors_printed]. exfalso. unfold log_types in Hin. repeat (apply elem_of_cons in Hin as [->|Hin]; [done|]). by apply not_elem_of_nil in Hin.
  - intros m msg. unfold output, defaultOutput, below. cbn [lg_output lg_level set_field eta eta_logger]. by rewrite Ho, Hl.
Qed.

(** A time that was taken is told once. *)
Lemma time_told_once label t0 t1 now l : 0 < t0 <= t1 ->
  exists es l', timeEnd chalk label t1 now (time label t0 l) = Some (es, l') /\
    es = log_info chalk (label ++ js ": " ++ digits ((t1 - t0) / 1000000) ++ js "ms") now l' /\ forall t, timeEnd chalk label t now l' = None.
Proof.
  intros Ht. unfold timeEnd, time. cbn [lg_timesMap set_field eta eta_logger]. rewrite mget_mset_eq, (proj2 (Z.eqb_neq t0 0)) by lia.
  rewrite Z.quot_div_nonneg by lia. rewrite (proj2 (Z.ltb_ge _ 0)) by (apply Z.div_pos; lia). eexists _, _. split; [done|]. split; [done|].
  intros t. cbn [lg_timesMap set_field eta eta_logger]. by rewrite mget_mdel, decide_True.
Qed.
End Printed.

Example a_stamp : dateFormat default_format (mkLocalDate 2024 0 9 8 7 6 5) = js "2024-01-09 08:07:06".
Proof. reflexivity. Qed.
