(* ===== verification/DeviceWatch.v ===== *)
(** * The watchers of a device

    Models [startWatchClient], [stopWatchClient] and [disconnect] of
    [device/BaseDevice.ts] over the client controllers of Watch.v: watching again
    closes the controller a device has and makes another one, for the ports the
    device has by then.  Sockets, timers and port checks of former controllers go
    on happening. *)

From Stdlib Require Import String.
From stdpp Require Import strings.
From S2P Require Import JsValue Json Protocol Physical Watch WatchRun.

#[local] Arguments mdel : simpl never.
#[local] Arguments mset : simpl never.
#[local] Arguments mget : simpl never.

(** [dv_controllers] is the store of all controllers; [dv_clientController] is the
    field of the device. *)
Record WatchedDevice := mkWatchedDevice {
  dv_connected : bool;
  dv_port : list Z;
  dv_clientController : option Z;
  dv_controllers : list (Z * ClientController);
  dv_nextController : Z
}.

#[export] Instance eta_watched_device : Eta WatchedDevice := fun d =>
  mkWatchedDevice (dv_connected d) (dv_port d) (dv_clientController d) (dv_controllers d) (dv_nextController d).

Definition new_watched_device (ports : list Z) : WatchedDevice := mkWatchedDevice true ports None [] 0.

Section Device.
Variable os : jstr.
Variable autoFind : bool.

(** A method of one of the controllers. *)
Definition controller_does (n : Z) (op : watch_op) (d : WatchedDevice) : list watch_effect * WatchedDevice :=
  match mget n (dv_controllers d) with
  | None => ([], d)
  | Some c => let '(es, c) := watch_step os autoFind op c in (es, d <| dv_controllers ::= mset n c |>)
  end.

(** [this.clientController?.method()]. *)
Definition current_does (op : watch_op) (d : WatchedDevice) : list watch_effect * WatchedDevice :=
  match dv_clientController d with Some n => controller_does n op d | None => ([], d) end.

Definition device_startWatchClient (d : WatchedDevice) : list watch_effect * WatchedDevice :=
  let '(e1, d) := current_does WClose d in
  let n := dv_nextController d in
  let d := d <| dv_controllers ::= mset n (new_controller (dv_port d)) |> <| dv_clientController := Some n |> <| dv_nextController ::= Z.succ |> in
  let '(e2, d) := controller_does n WStart d in (e1 ++ e2, d).

Definition device_stopWatchClient (d : WatchedDevice) : list watch_effect * WatchedDevice := current_does WStop d.

Definition device_disconnect (d : WatchedDevice) : list watch_effect * WatchedDevice := current_does WClose (d <| dv_connected := false |>).

(** ** Runs *)

(** What the device is asked to do, the ports it forwards, and what happens to a
    controller: its own methods are called by the device only. *)
Inductive device_op :=
  | DvStart | DvStop | DvDisconnect
  | DvPorts (ports : list Z)
  | DvHappens (n : Z) (op : watch_op).

Definition device_step (op : device_op) (d : WatchedDevice) : list watch_effect * WatchedDevice :=
  match op with
  | DvStart => device_startWatchClient d
  | DvStop => device_stopWatchClient d
  | DvDisconnect => device_disconnect d
  | DvPorts ports => ([], d <| dv_port := ports |>)
  | DvHappens n op => controller_does n op d
  end.

Fixpoint device_run (ops : list device_op) (d : WatchedDevice) : list watch_effect * WatchedDevice :=
  match ops with
  | [] => ([], d)
  | op :: ops => let '(e1, d) := device_step op d in let '(e2, d) := device_run ops d in (e1 ++ e2, d)
  end.

Definition happening (op : watch_op) : bool := match op with WStart | WStop | WClose => false | _ => true end.

(** Ids count up over all controllers, and the ports of a device are different. *)
Fixpoint fair (last : Z) (ops : list device_op) : bool :=
  match ops with
  | [] => true
  | DvHappens _ (WRegisters _ id _) :: ops => (last <? id) && fair id ops
  | DvHappens _ op :: ops => happening op && fair last ops
  | DvPorts ports :: ops => bool_decide (NoDup ports) && forallb (Z.ltb 0) ports && fair last ops
  | _ :: ops => fair last ops
  end.

(** The clients of the controller the device has. *)
Definition clients_of (d : WatchedDevice) : list (Z * UsbClient) :=
  match dv_clientController d ≫= (fun n => mget n (dv_controllers d)) with Some c => cc_connections c | None => [] end.

Record device_ok (last : Z) (d : WatchedDevice) : Prop := {
  do_ports : NoDup (dv_port d) /\ Forall (fun p => 0 < p) (dv_port d);
  do_store : forall n, is_Some (mget n (dv_controllers d)) -> n < dv_nextController d;
  do_current : forall n, dv_clientController d = Some n -> is_Some (mget n (dv_controllers d));
  do_all : forall n c, mget n (dv_controllers d) = Some c -> watch_ok (isAndroid os) (isIOS os) last c;
  do_former : forall n c, mget n (dv_controllers d) = Some c -> dv_clientController d <> Some n -> deserted c;
  do_last : 0 <= last
}.

Lemma watch_ok_later a i last last' c : watch_ok a i last c -> last <= last' -> watch_ok a i last' c.
Proof.
  intros [] Hle. split; try done. destruct wk_ids as (H1 & H2 & H3). split_and!; [lia| |].
  - intros aid b Hb. specialize (H2 aid b Hb). lia.
  - intros id cl Hcl. specialize (H3 id cl Hcl). lia.
Qed.

(** A step of the controller of the device. *)
Lemma current_ok last op n c d : device_ok last d -> dv_clientController d = Some n -> mget n (dv_controllers d) = Some c ->
  (forall aid id q, op = WRegisters aid id q -> last < id) ->
  let '(es, c') := watch_step os autoFind op c in
  device_ok (next_id last op) (d <| dv_controllers ::= mset n c' |>) /\ fold_left told_of es (clients_of d) = cc_connections c'.
Proof.
  intros [D1 D2 D3 D4 D5 D6] Hn Hc Hid. pose proof (watch_step_ok os autoFind last op c (D4 n c Hc) Hid) as S.
  destruct (watch_step os autoFind op c) as [es c']. destruct S as [K T]. split; [|unfold clients_of; by rewrite Hn; cbn; rewrite Hc].
  assert (last <= next_id last op) as Hle by (destruct op; cbn; try lia; specialize (Hid _ _ _ eq_refl); lia).
  split; cbn; try done.
  - intros m Hm. apply D2. rewrite mget_mset in Hm. case_decide; [subst; eauto|done].
  - intros m Hm. rewrite mget_mset. case_decide; eauto.
  - intros m x. rewrite mget_mset. case_decide; [by intros [= <-]|]. intros Hx. eapply watch_ok_later; [by apply (D4 m)|done].
  - intros m x. rewrite mget_mset. case_decide as E; [congruence|]. apply D5.
  - lia.
Qed.

(** A step of a former controller. *)
Lemma former_ok last op n c d : device_ok last d -> mget n (dv_controllers d) = Some c -> dv_clientController d <> Some n -> is_start op = false ->
  (forall aid id q, op = WRegisters aid id q -> last < id) ->
  let '(es, c') := watch_step os autoFind op c in es = [] /\ device_ok (next_id last op) (d <| dv_controllers ::= mset n c' |>).
Proof.
  intros [D1 D2 D3 D4 D5 D6] Hc Hn Hop Hid. pose proof (deserted_step os autoFind op c Hop (D5 n c Hc Hn)) as [E S].
  pose proof (watch_step_ok os autoFind last op c (D4 n c Hc) Hid) as K. destruct (watch_step os autoFind op c) as [es c']. cbn in E, S. destruct K as [K _].
  split; [done|]. assert (last <= next_id last op) as Hle by (destruct op; cbn; try lia; specialize (Hid _ _ _ eq_refl); lia).
  split; cbn; try done.
  - intros m Hm. apply D2. rewrite mget_mset in Hm. case_decide; [subst; eauto|done].
  - intros m Hm. rewrite mget_mset. case_decide; eauto.
  - intros m x. rewrite mget_mset. case_decide; [by intros [= <-]|]. intros Hx. eapply watch_ok_later; [by apply (D4 m)|done].
  - intros m x. rewrite mget_mset. case_decide as E'; [by intros [= <-]|]. apply D5.
  - lia.
Qed.

Definition steps_well (last : Z) (d : WatchedDevice) (r : list watch_effect * WatchedDevice) : Prop :=
  device_ok last r.2 /\ fold_left told_of r.1 (clients_of d) = clients_of r.2.

Lemma current_does_ok last op d : device_ok last d -> (forall aid id q, op <> WRegisters aid id q) -> steps_well last d (current_does op d).
Proof.
  intros K Hop. unfold current_does, controller_does. destruct (dv_clientController d) as [n|] eqn:Hn; [|by split].
  destruct (do_current _ _ K n Hn) as [c Hc]. rewrite Hc.
  pose proof (current_ok last op n c d K Hn Hc ltac:(intros ? ? ? ->; by edestruct Hop)) as S. destruct (watch_step os autoFind op c) as [es c'].
  destruct S as [S1 S2]. split; cbn.
  - by destruct op; try (by edestruct Hop).
  - rewrite S2. unfold clients_of. cbn. rewrite Hn. cbn. by rewrite mget_mset, decide_True.
Qed.

Lemma happens_ok last n op d : device_ok last d -> happening op = true -> (forall aid id q, op = WRegisters aid id q -> last < id) ->
  steps_well (next_id last op) d (controller_does n op d).
Proof.
  intros K Hop Hid. unfold controller_does. destruct (mget n (dv_controllers d)) as [c|] eqn:Hc.
  - destruct (decide (dv_clientController d = Some n)) as [Hn|Hn].
    + pose proof (current_ok last op n c d K Hn Hc Hid) as S. destruct (watch_step os autoFind op c) as [es c']. destruct S as [S1 S2]. split; [done|].
      cbn. rewrite S2. unfold clients_of. cbn. rewrite Hn. cbn. by rewrite mget_mset, decide_True.
    + pose proof (former_ok last op n c d K Hc Hn ltac:(by destruct op) Hid) as S. destruct (watch_step os autoFind op c) as [es c']. destruct S as [-> S]. split; [done|].
      cbn. unfold clients_of. cbn. destruct (dv_clientController d) as [m|]; [|done]. cbn. rewrite mget_mset. case_decide; [congruence|done].
  - split; [|done]. destruct K as [D1 D2 D3 D4 D5 D6]. assert (last <= next_id last op) as Hle by (destruct op; cbn; try lia; specialize (Hid _ _ _ eq_refl); lia).
    split; try done; [|lia]. intros m x Hx. eapply watch_ok_later; [by apply (D4 m)|done].
Qed.

(** After closing, no controller has a client or a socket of its own. *)
Definition all_deserted (d : WatchedDevice) : Prop := forall n c, mget n (dv_controllers d) = Some c -> deserted c.

Lemma close_current last d : device_ok last d -> all_deserted (current_does WClose d).2 /\
  dv_nextController (current_does WClose d).2 = dv_nextController d /\ dv_port (current_does WClose d).2 = dv_port d.
Proof.
  intros K. unfold current_does, controller_does. destruct (dv_clientController d) as [n|] eqn:Hn; [|split; [|done]; intros m c Hm; apply (do_former _ _ K m c Hm); by rewrite Hn].
  destruct (do_current _ _ K n Hn) as [c Hc]. rewrite Hc. pose proof (close_ok os last c (do_all _ _ K n c Hc)) as S. cbn [watch_step].
  destruct (close_controller c) as [es c']. destruct S as (S & _ & _). split; [|done]. intros m x. cbn. rewrite mget_mset. case_decide as E; [by intros [= <-]|].
  intros Hx. apply (do_former _ _ K m x Hx). congruence.
Qed.

Lemma deserted_clients d : all_deserted d -> clients_of d = [].
Proof.
  intros H. unfold clients_of. destruct (dv_clientController d) as [n|]; [|done]. cbn. destruct (mget n (dv_controllers d)) as [c|] eqn:E; [|done].
  apply (ds_connections _ (H n c E)).
Qed.

Lemma start_ok last d : device_ok last d -> steps_well last d (device_startWatchClient d).
Proof.
  intros K. unfold device_startWatchClient. pose proof (current_does_ok last WClose d K ltac:(done)) as [K1 T1].
  destruct (close_current last d K) as (Hall & Hnext & Hport). destruct (current_does WClose d) as [e1 d1]. cbn [fst snd] in *.
  set (n := dv_nextController d1). set (d2 := (d1 <| dv_controllers ::= mset n (new_controller (dv_port d1)) |>) <| dv_clientController := Some n |> <| dv_nextController ::= Z.succ |>).
  destruct K1 as [[D1 D1'] D2 D3 D4 D5 D6]. destruct (new_controller_ok os (dv_port d1) D1 D1') as [K0 C0].
  assert (mget n (dv_controllers d2) = Some (new_controller (dv_port d1))) as Hn by (cbn; by rewrite mget_mset, decide_True).
  assert (device_ok last d2) as K2.
  { split; cbn; try done.
    - intros m. rewrite mget_mset. case_decide as E; [subst n; lia|]. intros Hm. specialize (D2 m Hm). lia.
    - intros m [= <-]. rewrite mget_mset, decide_True by done. eauto.
    - intros m x. rewrite mget_mset. case_decide; [intros [= <-]; by eapply watch_ok_later|apply D4].
    - intros m x. rewrite mget_mset. case_decide as E; [congruence|]. intros Hx _. by apply (Hall m). }
  unfold controller_does. rewrite Hn. pose proof (current_ok last WStart n _ d2 K2 eq_refl Hn ltac:(done)) as S.
  destruct (watch_step os autoFind WStart (new_controller (dv_port d1))) as [e2 c']. destruct S as [S1 S2]. split; [done|]. cbn [fst snd].
  rewrite fold_left_app, T1, (deserted_clients d1 Hall). assert (clients_of d2 = []) as E2 by (unfold clients_of; change (dv_clientController d2) with (Some n); cbn [mbind option_bind]; by rewrite Hn).
  rewrite <- E2 at 1. rewrite S2. unfold clients_of. cbn. by rewrite !mget_mset, !decide_True.
Qed.

Definition next_last (last : Z) (op : device_op) : Z := match op with DvHappens _ op => next_id last op | _ => last end.

Lemma device_step_ok last op d : device_ok last d -> fair last [op] = true -> steps_well (next_last last op) d (device_step op d).
Proof.
  intros K Hf. destruct op as [| | |ports|n op]; cbn [device_step next_last].
  - by apply start_ok.
  - by apply current_does_ok.
  - pose proof (current_does_ok last WClose (d <| dv_connected := false |>)) as H. apply H; [|done]. by destruct K; split.
  - split; [|done]. cbn in Hf. apply andb_prop in Hf as [Hf _]. apply andb_prop in Hf as [H1 H2]. apply bool_decide_eq_true in H1.
    destruct K. split; cbn; try done. split; [done|]. apply list.Forall_forall. intros p Hp. apply Z.ltb_lt. by eapply forallb_forall, list_elem_of_In.
  - apply happens_ok; [done|by destruct op; cbn in *; try done; apply andb_prop in Hf as [? _]|].
    intros aid id q ->. cbn in Hf. apply andb_prop in Hf as [Hf _]. lia.
Qed.
End Device.

(** C23: A device and the daemon agree on its clients however its watching is
    started again, stopped and ended by disconnecting, whatever ports it has
    forwarded by then, and whatever the sockets, timers and port checks of its
    present and former controllers do: the clients the physical connector has
    been told of are at every moment those of the controller the device has, and
    no former controller has a client or serves a socket. *)
Theorem device_clients_exact os autoFind ports ops : NoDup ports -> Forall (fun p => 0 < p) ports -> fair 0 ops = true ->
  let '(es, d) := device_run os autoFind ops (new_watched_device ports) in
  fold_left told_of es [] = clients_of d /\
  forall n c, mget n (dv_controllers d) = Some c -> dv_clientController d <> Some n ->
    cc_connections c = [] /\ cc_sockets c = [] /\ cc_timer c = false /\ forall aid a, mget aid (cc_adapters c) = Some a -> ad_listener a = false.
Proof.
  intros Hnd Hpos. change (@nil (Z * UsbClient)) with (clients_of (new_watched_device ports)) at 1.
  assert (device_ok os 0 (new_watched_device ports)) as K by (split; cbn; try done; by intros n [? ?]).
  revert K. generalize (new_watched_device ports) as d, 0 as last. clear Hnd Hpos. induction ops as [|op ops IH]; intros d last K Hf; cbn [device_run].
  - split; [done|]. intros n c Hc Hn. destruct (do_former _ _ _ K n c Hc Hn). done.
  - assert (fair last [op] = true /\ fair (next_last last op) ops = true) as [F1 F2].
    { destruct op as [| | |ps|n op]; cbn in *; rewrite ?andb_true_r; try done; [by apply andb_prop in Hf|]. destruct op; cbn in *; rewrite ?andb_true_r; try done; by apply andb_prop in Hf. }
    pose proof (device_step_ok os autoFind last op d K F1) as [K1 T1]. destruct (device_step os autoFind op d) as [e1 d1]. cbn [fst snd] in *.
    specialize (IH d1 _ K1 F2). destruct (device_run os autoFind ops d1) as [e2 d2]. rewrite fold_left_app, T1. done.
Qed.

(** Watched twice: the first controller's client goes when the second begins. *)
Definition sample_device : list device_op :=
  [DvStart; DvHappens 0 (WConnects 1); DvHappens 0 (WRegisters 1 1 sample_query); DvPorts [8902]; DvStart; DvHappens 1 (WConnects 1);
   DvHappens 0 (WOff 1); DvHappens 1 (WRegisters 1 2 sample_query)].

Lemma device_clients_exact_witness :
  let '(es, d) := device_run (js "Harmony") true sample_device (new_watched_device [8901]) in
  fold_left told_of es [] = clients_of d /\ mkeys (clients_of d) = [2].
Proof.
  pose proof (device_clients_exact (js "Harmony") true [8901] sample_device
    ltac:(apply (bool_decide_unpack _); vm_compute; reflexivity) ltac:(repeat constructor; lia) ltac:(vm_compute; reflexivity)) as H.
  assert (mkeys (clients_of (device_run (js "Harmony") true sample_device (new_watched_device [8901])).2) = [2]) as E by (vm_compute; reflexivity).
  destruct (device_run _ _ _ _) as [es d]. destruct H as [H _]. exact (conj H E).
Defined.
