(* ===== verification/UsbConnection.v ===== *)
(** * Connections of USB runtimes

    Models [usb/Connection.ts], [usb/USBConnection.ts] and [usb/Client.ts]: the
    requests that wait for a response of a runtime, the listeners of its events,
    and sending over its socket.  Promises and listeners are numbered; a Node
    [EventEmitter] calls the listeners an event has when it is emitted, in their
    order, and throws for [error] without one. *)

From Stdlib Require Import String.
From stdpp Require Import strings.
From S2P Require Import JsValue Json Utf8 Transport Protocol WebSocket Usb.

#[local] Arguments mdel : simpl never.
#[local] Arguments mset : simpl never.
#[local] Arguments mget : simpl never.

(** ** Event emitters *)

(** The listeners of an event; the flag is that of [once]. *)
Definition Emitter : Type := list (jstr * list (Z * bool)).

Definition listeners (event : jstr) (e : Emitter) : list (Z * bool) := default [] (mget event e).

Definition emitter_on (event : jstr) (l : Z) (e : Emitter) : Emitter := mset event (listeners event e ++ [(l, false)]) e.
Definition emitter_once (event : jstr) (l : Z) (e : Emitter) : Emitter := mset event (listeners event e ++ [(l, true)]) e.

(** [off] removes the registration of [l] that was added last. *)
Fixpoint remove_last (l : Z) (ls : list (Z * bool)) : list (Z * bool) :=
  match ls with
  | [] => []
  | x :: r => if (x.1 =? l) && negb (existsb (fun y => y.1 =? l) r) then r else x :: remove_last l r
  end.

Definition emitter_off (event : jstr) (l : Z) (e : Emitter) : Emitter := mset event (remove_last l (listeners event e)) e.

(** The listeners called, and whether it throws. *)
Definition emitter_emit (event : jstr) (e : Emitter) : list Z * Emitter * bool :=
  let ls := listeners event e in
  if bool_decide (event = js "error") && bool_decide (ls = []) then ([], e, true)
  else (List.map fst ls, mset event (List.filter (fun x => negb x.2) ls) e, false).

(** ** The connection *)

Record UsbConnection := mkUsbConnection {
  us_events : Emitter;
  us_pendingRequests : list (jstr * Z);
  us_writable : bool;
  us_traceClientId : option Z
}.

#[export] Instance eta_usb_connection : Eta UsbConnection := fun c =>
  mkUsbConnection (us_events c) (us_pendingRequests c) (us_writable c) (us_traceClientId c).

Inductive usb_effect :=
  | USend (data : json)                              (* [packMessage] of it is written *)
  | UEndSocket
  | UTraceClosed (clientId : option Z)
  | UCall (listener : Z) (event : jstr) (args : list jsval)
  | UResolve (promise : Z) (response : json)
  | UReject (promise : Z).

Definition new_usb_connection : UsbConnection := mkUsbConnection [] [] true None.

Definition setTraceClientId (id : Z) (c : UsbConnection) : UsbConnection := c <| us_traceClientId := Some id |>.

Definition usb_close (c : UsbConnection) : list usb_effect * UsbConnection :=
  ([UTraceClosed (us_traceClientId c); UEndSocket], c <| us_writable := false |>).

Definition usb_send (data : json) (c : UsbConnection) : list usb_effect := if us_writable c then [USend data] else [].

(** The key a request waits under: [inl] the exception that rejects its promise,
    [inr None] when the promise waits for nothing.  A type is a string. *)
Definition request_key (require : json) : unit + option jstr :=
  let event := (Some require)@."event" in
  let data := (Some require)@."data" in
  if jeq_str event (js "Initialize") then inr (Some (js "Initialize"))
  else if jeq_str event (js "Customized") then
    if isNullish data then inl tt
    else if jeq_str (data@."type") (js "CDP") || jeq_str (data@."type") (js "App") then
      match data@."data"@."message"@."id" with
      | None | Some JNull => inl tt
      | Some id => match js_to_string id with Some key => inr (Some key) | None => inl tt end
      end
    else match data@."type" with Some (JStr t) => inr (Some t) | _ => inr None end
  else inr None.

Definition sendExpectResponse (promise : Z) (require : json) (c : UsbConnection) : list usb_effect * UsbConnection :=
  match request_key require with
  | inl _ => ([UReject promise], c)
  | inr key =>
      let c := match key with Some k => c <| us_pendingRequests ::= mset k promise |> | None => c end in
      (usb_send require c, c)
  end.

(** [matchPendingRequest(id)] and the resolution of what it finds. *)
Definition usb_response (key : jstr) (response : json) (c : UsbConnection) : list usb_effect * UsbConnection :=
  match mget key (us_pendingRequests c) with
  | None => ([], c)
  | Some promise => ([UResolve promise response], c <| us_pendingRequests ::= mdel key |>)
  end.

Definition ALL_CDP : jstr := js "all-cdp-message".

(** [handleClientEvent]; the flag is an exception. *)
Definition usb_handleClientEvent (event : jstr) (params session_id : jsval) (c : UsbConnection) : list usb_effect * UsbConnection * bool :=
  let '(l1, e, threw) := emitter_emit event (us_events c) in
  let c := c <| us_events := e |> in
  let es := List.map (fun l => UCall l event [params; session_id]) l1 in
  if threw then (es, c, true)
  else
    let '(l2, e, _) := emitter_emit ALL_CDP (us_events c) in
    (es ++ List.map (fun l => UCall l ALL_CDP [Some (JStr event); params; session_id]) l2, c <| us_events := e |>, false).

Definition usb_handleSessionList (sessionList : jsval) (c : UsbConnection) : list usb_effect * UsbConnection :=
  let '(ls, e, _) := emitter_emit (js "SessionList") (us_events c) in
  (List.map (fun l => UCall l (js "SessionList") [sessionList]) ls, c <| us_events := e |>).

Definition usb_on (event : jstr) (l : Z) (c : UsbConnection) : UsbConnection := c <| us_events ::= emitter_on event l |>.
Definition usb_onAllEvents (l : Z) (c : UsbConnection) : UsbConnection := c <| us_events ::= emitter_on ALL_CDP l |>.
Definition usb_off (event : jstr) (l : Z) (c : UsbConnection) : UsbConnection := c <| us_events ::= emitter_off event l |>.
Definition usb_offAllEvents (l : Z) (c : UsbConnection) : UsbConnection := c <| us_events ::= emitter_off ALL_CDP l |>.
Definition usb_once (event : jstr) (l : Z) (c : UsbConnection) : UsbConnection := c <| us_events ::= emitter_once event l |>.

(** ** The client object *)

(** [UsbClient]: its connection is closed and written to; what used to wait for
    responses has moved to the mirrors of the connectors and answers at once with
    nothing. *)
Definition usb_client_close (c : UsbConnection) : list usb_effect * UsbConnection := usb_close c.
Definition usb_client_sendMessage (message : json) (c : UsbConnection) : list usb_effect := usb_send message c.
Definition usb_client_rawSend (message : json) : json := JObj [].
Definition usb_client_sendCustomizedMessage (method : jstr) (params : json) (sessionId : num) (type : jstr) : jstr := [].
Definition usb_client_sendRawMessage (message : json) : json := JObj [].
Definition usb_client_sendClientMessage (method : jstr) (params : json) : jstr := [].

(** ** Requests over time *)

Inductive usb_op :=
  | URequest (promise : Z) (require : json)
  | UResponse (key : jstr) (response : json)
  | UClose.

Definition usb_step (op : usb_op) (c : UsbConnection) : list usb_effect * UsbConnection :=
  match op with
  | URequest p r => sendExpectResponse p r c
  | UResponse k v => usb_response k v c
  | UClose => usb_close c
  end.

Fixpoint usb_run (ops : list usb_op) (c : UsbConnection) : list usb_effect * UsbConnection :=
  match ops with
  | [] => ([], c)
  | op :: ops => let '(e1, c) := usb_step op c in let '(e2, c) := usb_run ops c in (e1 ++ e2, c)
  end.

Definition promises (ops : list usb_op) : list Z := omap (fun op => match op with URequest p _ => Some p | _ => None end) ops.
Definition settled (es : list usb_effect) : list Z := omap (fun e => match e with UResolve p _ | UReject p => Some p | _ => None end) es.

(** A promise is settled or waits, at most one of them and once; what neither is
    done for has been replaced by a later request of the same key, or was of a
    kind that has no response. *)
Lemma step_promises op c : settled (usb_step op c).1 ++ mvals (us_pendingRequests (usb_step op c).2) ⊆+ promises [op] ++ mvals (us_pendingRequests c).
Proof.
  assert (forall k p (m : list (jstr * Z)), mvals (mset k p m) ⊆+ p :: mvals m) as Hset.
  { intros k p m. induction m as [|[j v] m IH]; [done|]. unfold mset; fold (@mset jstr Z _). case_decide; cbn.
    - apply submseteq_skip. by apply submseteq_cons.
    - etransitivity; [apply submseteq_skip, IH|]. by rewrite submseteq_swap. }
  assert (forall k p (m : list (jstr * Z)), mget k m = Some p -> p :: mvals (mdel k m) ⊆+ mvals m) as Hdel.
  { intros k p m. induction m as [|[j v] m IH]; [done|]. unfold mget; fold (@mget jstr Z _). unfold mdel. rewrite filter_cons. cbn [fst].
    destruct (decide (k = j)) as [->|Hne].
    - intros [= ->]. rewrite decide_False by (intros H; by apply H). apply submseteq_skip. apply sublist_submseteq, fmap_sublist, sublist_filter.
    - intros Hm. rewrite decide_True by done. cbn. etransitivity; [apply submseteq_swap|]. apply submseteq_skip. by apply IH. }
  assert (forall r c, settled (usb_send r c) = []) as Hsend by (intros r c0; unfold usb_send; by destruct (us_writable c0)).
  destruct op as [p r|k v|]; cbn [usb_step promises omap list_omap].
  - unfold sendExpectResponse. destruct (request_key r) as [|[k|]]; cbn -[settled usb_send mvals]; [done| |].
    + rewrite Hsend. apply Hset.
    + rewrite Hsend. by apply submseteq_cons.
  - unfold usb_response. destruct (mget k (us_pendingRequests c)) as [p|] eqn:E; cbn; [by apply Hdel|done].
  - done.
Qed.

Lemma usb_requests_settled_once ops c : NoDup (promises ops ++ mvals (us_pendingRequests c)) ->
  let '(es, c') := usb_run ops c in NoDup (settled es ++ mvals (us_pendingRequests c')) /\
  settled es ++ mvals (us_pendingRequests c') ⊆+ promises ops ++ mvals (us_pendingRequests c).
Proof.
  intros Hnd.
  assert (let '(es, c') := usb_run ops c in settled es ++ mvals (us_pendingRequests c') ⊆+ promises ops ++ mvals (us_pendingRequests c)) as H.
  { clear Hnd. revert c. induction ops as [|op ops IH]; intros c; cbn [usb_run]; [done|]. pose proof (step_promises op c) as S. destruct (usb_step op c) as [e1 c1].
    specialize (IH c1). destruct (usb_run ops c1) as [e2 c2]. cbn [fst snd] in S. unfold settled, promises in *. rewrite omap_app. change (op :: ops) with ([op] ++ ops). rewrite (omap_app _ [op] ops).
    rewrite <- !app_assoc. etransitivity; [apply submseteq_app; [reflexivity|exact IH]|]. rewrite !app_assoc.
    rewrite (Permutation_app_comm (omap _ e1) (omap _ ops)), <- !app_assoc. rewrite (Permutation_app_comm (omap _ [op]) (omap _ ops ++ _)), <- app_assoc.
    apply submseteq_app; [done|]. rewrite (Permutation_app_comm (mvals _) (omap _ [op])). exact S. }
  destruct (usb_run ops c) as [es c']. split; [|done]. apply submseteq_Permutation in H as [l H]. rewrite H in Hnd. by apply list.NoDup_app in Hnd as [Hnd _].
Qed.

(** Two requests of one key, and a close: the first promise is left alone, and
    so is the second. *)
Example request_left_alone : let r := JObj [(js "event", jstring "Customized"); (js "data", JObj [(js "type", jstring "T")])] in
  settled (usb_run [URequest 1 r; URequest 2 r; UClose] new_usb_connection).1 = [].
Proof. reflexivity. Qed.

(** ** The adapter of a registered runtime *)

(** [onConnect] of the adapter: the message that opens a session, as it is
    written to a socket that can be; the encoder may throw, which is caught. *)
Definition initialize : json := JObj [(js "event", jstring "Initialize"); (js "data", JNum (NInt (-1)))].

Definition adapter_onConnect `{UsbPack} (writable destroyed : bool) : list (list Z) :=
  if writable && negb destroyed then option_list (packMessage initialize) else [].

(** [handleClientEvent] of the adapter.  A method that is no string names the
    listeners of its text, and never throws for want of them. *)
Definition adapter_handleClientEvent (message : json) (session_id : jsval) (c : UsbConnection) : list usb_effect * UsbConnection * bool :=
  let method := (Some message)@."method" in
  let params := (Some message)@."params" in
  let session := Some (JObj [(js "session_id", match session_id with Some s => s | None => JNum (NInt (-1)) end)]) in
  match method with
  | Some (JStr event) => if truthy method then usb_handleClientEvent event params session c else ([], c, false)
  | Some v =>
      if negb (truthy method) then ([], c, false)
      else match js_to_string v with
           | None => ([], c, true)
           | Some key =>
               let ls := List.map fst (listeners key (us_events c)) in
               let c := c <| us_events ::= mset key (List.filter (fun x => negb x.2) (listeners key (us_events c))) |> in
               let '(all, e, _) := emitter_emit ALL_CDP (us_events c) in
               (List.map (fun l => UCall l key [params; session]) ls ++ List.map (fun l => UCall l ALL_CDP [method; params; session]) all,
                c <| us_events := e |>, false)
           end
  | None => ([], c, false)
  end.

(** [handleMessage] of a registered runtime with the connection it has; the flag
    is a rejection. *)
Definition adapter_handleMessage (message : jstr) (c : UsbConnection) : list usb_effect * UsbConnection * bool :=
  let respond key response := let '(es, c) := usb_response key response c in (es, c, false) in
  match parse message with
  | None | Some JNull => ([], c, true)
  | Some response =>
      let data := (Some response)@."data" in
      if negb (jeq_str ((Some response)@."event") (js "Customized")) then ([], c, false)
      else if jeq_str (data@."type") (js "CDP") || jeq_str (data@."type") (js "App") then
        if isNullish (data@."data") then ([], c, true)
        else
          match parse_any (data@."data"@."message") with
          | None => ([], c, true)
          | Some cdp =>
              if truthy ((Some cdp)@."id") then
                match (Some cdp)@."id" ≫= js_to_string with None => ([], c, true) | Some key => respond key response end
              else adapter_handleClientEvent cdp (data@."data"@."session_id") c
          end
      else if jeq_str (data@."type") (js "SessionList") then let '(es, c) := usb_handleSessionList (data@."data") c in (es, c, false)
      else if isNullish data then ([], c, true)
      else match data@."type" with Some (JStr k) => respond k response | _ => ([], c, false) end
  end.

(** ** The two views of a message agree *)

(** What [Usb] keeps of a connection. *)
Definition resolutions (es : list usb_effect) : list (Z * json) := omap (fun e => match e with UResolve p v => Some (p, v) | _ => None end) es.

Definition resolving {W} (L : AdapterListener W) (rs : list (Z * json)) (w : W) : W := fold_left (fun w '(cb, v) => al_resolve L cb v w) rs w.

Lemma resolutions_calls {A} (f : A -> usb_effect) l : (forall x, resolutions [f x] = []) -> resolutions (List.map f l) = [].
Proof. intros Hf. induction l as [|x l IH]; [done|]. specialize (Hf x). unfold resolutions in *. cbn in *. by destruct (f x). Qed.

(** Events call listeners and resolve nothing. *)
Lemma emit_resolutions event args es (ls : list Z) : es = List.map (fun l => UCall l event args) ls -> resolutions es = [].
Proof. intros ->. by apply resolutions_calls. Qed.

Lemma resolutions_app a b : resolutions (a ++ b) = resolutions a ++ resolutions b.
Proof. apply omap_app. Qed.

Lemma client_event_spec cdp session c : listeners (js "error") (us_events c) = [] ->
  let '(es, c', rejects) := adapter_handleClientEvent cdp session c in
  resolutions es = [] /\ us_pendingRequests c' = us_pendingRequests c /\
  rejects = truthy ((Some cdp)@."method") &&
    (jeq_str ((Some cdp)@."method") (js "error") || bool_decide ((Some cdp)@."method" ≫= js_to_string = None)).
Proof.
  intros He. unfold adapter_handleClientEvent. destruct ((Some cdp)@."method") as [v|]; [|done].
  assert (forall v, match v with JStr _ => False | _ => True end -> jeq_str (Some v) (js "error") = false) as Hj by (by intros []).
  destruct v as [| | |event| |] eqn:Ev; try (rewrite Hj by done; cbn [orb mbind option_bind];
    destruct (truthy _); cbn [negb andb]; [|done]; destruct (js_to_string _) as [key|]; [|done];
    match goal with |- context [emitter_emit ALL_CDP ?e] => destruct (emitter_emit ALL_CDP e) as [[all e'] t] end;
    rewrite resolutions_app, !resolutions_calls by done; done).
  destruct (truthy (Some (JStr event))); [|done]. cbn [andb mbind option_bind js_to_string jeq_str]. rewrite (bool_decide_eq_false_2 (Some event = None)) by done.
  rewrite orb_false_r. unfold usb_handleClientEvent, emitter_emit at 1. destruct (bool_decide_reflect (event = js "error")) as [->|Hne]; cbn [andb].
  - rewrite He, bool_decide_eq_true_2 by done. done.
  - match goal with |- context [emitter_emit ALL_CDP ?e] => destruct (emitter_emit ALL_CDP e) as [[all e'] t] end.
    by rewrite resolutions_app, !resolutions_calls.
Qed.

Lemma response_spec {W} (L : AdapterListener W) key response c a w : ad_connection a = Some (us_pendingRequests c) ->
  let '(es, c') := usb_response key response c in
  matchPendingRequest L (Some (JStr key)) response a w = (a <| ad_connection := Some (us_pendingRequests c') |>, resolving L (resolutions es) w).
Proof.
  intros Ha. unfold usb_response, matchPendingRequest. rewrite Ha. destruct (mget key (us_pendingRequests c)); [done|]. cbn. rewrite <- Ha. by destruct a.
Qed.

(** A message of a registered runtime does to the connection's requests what
    [Usb] says of the adapter, besides calling the listeners of its events. *)
Theorem adapter_message_refines {W} (L : AdapterListener W) message c a w :
  ad_connection a = Some (us_pendingRequests c) -> listeners (js "error") (us_events c) = [] ->
  let '(es, c', rejects) := adapter_handleMessage message c in
  dispatchMessage L message a w = (rejects, a <| ad_connection := Some (us_pendingRequests c') |>, resolving L (resolutions es) w).
Proof.
  intros Ha He. assert (forall b : bool, (b, a, w) = (b, a <| ad_connection := Some (us_pendingRequests c) |>, resolving L (resolutions []) w)) as Hn
    by (intros b; rewrite <- Ha; by destruct a).
  unfold adapter_handleMessage, dispatchMessage. destruct (parse message) as [response|]; [|apply Hn].
  destruct response as [|b|n|t|l|kvs]; [apply Hn|..].
  all: match goal with |- context [jeq_str (Some ?r)@."event" _] => set (response := r) end.
  all: destruct (jeq_str ((Some response)@."event") (js "Customized")); cbn [negb]; [|apply Hn].
  all: set (data := (Some response)@."data"); destruct (jeq_str (data@."type") (js "CDP") || jeq_str (data@."type") (js "App")).
  all: try (destruct (jeq_str (data@."type") (js "SessionList"));
    [unfold usb_handleSessionList; destruct (emitter_emit _ _) as [[ls e] t']; rewrite resolutions_calls by done; apply Hn|
     rewrite Ha; destruct (isNullish data); [apply Hn|]; unfold matchPendingRequest at 1; rewrite Ha;
     destruct (data@."type") as [[| | |k| |]|]; try apply Hn;
     pose proof (response_spec L k response c a w Ha) as H; unfold matchPendingRequest in H; rewrite Ha in H; destruct (usb_response k response c) as [es c']; by rewrite H]).
  all: unfold handleCdp; fold data; destruct (isNullish (data@."data")); [apply Hn|]; destruct (parse_any _) as [cdp|]; [|apply Hn].
  all: rewrite Ha; rewrite (bool_decide_eq_true_2 (Some (us_pendingRequests c) <> None)) by done; rewrite !andb_true_r.
  all: destruct (truthy ((Some cdp)@."id"));
    [destruct (_ ≫= js_to_string) as [key|]; [|apply Hn]; pose proof (response_spec L key response c a w Ha) as H; destruct (usb_response key response c) as [es c']; by rewrite H|].
  all: pose proof (client_event_spec cdp (data@."data"@."session_id") c He) as H; destruct (adapter_handleClientEvent _ _ _) as [[es c'] rejects];
    destruct H as (-> & -> & ->); apply Hn.
Qed.

(** An opened socket starts with the packet of the Initialize message. *)
Lemma initialize_sent `{UL : UsbPackLaws} : exists bytes, adapter_onConnect true false = [bytes] /\ packets_of bytes = ([stringify initialize], []).
Proof.
  assert (wf_json initialize = true) as Hw by (vm_compute; reflexivity).
  assert (zlen (utf8_encode (stringify initialize)) < 2 ^ 32 - 4) as Hl by (vm_compute; reflexivity).
  unfold adapter_onConnect. cbn [andb negb]. pose proof (packMessage_bytes initialize Hw Hl) as Hp. cbv zeta in Hp.
  eexists. rewrite Hp. split; [done|]. pose proof (packets_of_message initialize _ [] Hw Hl Hp) as Hq. rewrite app_nil_r in Hq. rewrite Hq. done.
Qed.
