(* ===== verification/Listeners.v ===== *)
(** * The listeners of a connector

    [on], [off] and [emit] of [connector/DebugRouterConnector.ts]: the functions
    its user registers for events, with the connector of [Facade] under the runs
    of [FacadeRun].  A function is a number; it does not call the connector back. *)

From Stdlib Require Import String.
From stdpp Require Import strings.
From S2P Require Import JsValue Json Protocol Physical Host Mirror Facade Mirroring FacadeRun UsbConnection.

#[local] Arguments mset : simpl never.
#[local] Arguments mget : simpl never.

(** The keys of [DebugerRouterDriverEvents]. *)
Definition connector_event_name (e : facade_event) : jstr :=
  js match e with
     | DeviceConnected _ => "device-connected"
     | DeviceDisconnected _ => "device-disconnected"
     | ClientConnected _ => "client-connected"
     | ClientDisconnected _ => "client-disconnected"
     | AppClientConnected _ => "app-client-connected"
     | AppClientDisconnected _ => "app-client-disconnected"
     | WebsocketAppClientConnected _ => "websocket-app-client-connected"
     | WebsocketAppClientDisconnected _ => "websocket-app-client-disconnected"
     | WebsocketWebClientConnected _ => "websocket-web-client-connected"
     | WebsocketWebClientDisconnected _ => "websocket-web-client-disconnected"
     | UsbClientMessage _ _ => "usb-client-message"
     | WsClientMessage _ _ => "ws-client-message"
     | WsWebMessage _ _ => "ws-web-message"
     | ConnectorError _ _ _ _ => "connector-error"
     end.

Record ListenedConnector := mkListened { lc_facade : Facade; lc_events : Emitter }.

#[export] Instance eta_listened : Eta ListenedConnector := fun c => mkListened (lc_facade c) (lc_events c).

Definition connector_on (event : jstr) (l : Z) (c : ListenedConnector) : ListenedConnector := c <| lc_events ::= emitter_on event l |>.
Definition connector_off (event : jstr) (l : Z) (c : ListenedConnector) : ListenedConnector := c <| lc_events ::= emitter_off event l |>.

(** [emit]: the calls of listeners.  No event is named [error] and none of the
    listeners is for one event only. *)
Definition connector_emit (e : facade_event) (c : ListenedConnector) : list (Z * facade_event) :=
  List.map (fun l => (l.1, e)) (listeners (connector_event_name e) (lc_events c)).

Definition emit_effect (c : ListenedConnector) (e : facade_effect) : list (Z * facade_event) :=
  match e with FEmit e => connector_emit e c | _ => [] end.

Inductive listened_op :=
  | UserOn (event : jstr) (l : Z)
  | UserOff (event : jstr) (l : Z)
  | ConnectorDoes (op : facade_op).

Definition listened_step (op : listened_op) (c : ListenedConnector) : list (Z * facade_event) * ListenedConnector :=
  match op with
  | UserOn event l => ([], connector_on event l c)
  | UserOff event l => ([], connector_off event l c)
  | ConnectorDoes op =>
      let '(es, f) := facade_step op (lc_facade c) in
      (concat (List.map (emit_effect c) es), c <| lc_facade := f |>)
  end.

Fixpoint listened_run (ops : list listened_op) (c : ListenedConnector) : list (Z * facade_event) * ListenedConnector :=
  match ops with
  | [] => ([], c)
  | op :: ops => let '(h1, c) := listened_step op c in let '(h2, c) := listened_run ops c in (h1 ++ h2, c)
  end.

(** ** A listener that keeps what it is told *)

Definition watched (e : facade_event) : bool :=
  match e with
  | DeviceConnected _ | DeviceDisconnected _ | ClientConnected _ | ClientDisconnected _
  | WebsocketAppClientConnected _ | WebsocketAppClientDisconnected _ | WebsocketWebClientConnected _ | WebsocketWebClientDisconnected _ => true
  | _ => false
  end.

Definition watched_names : list jstr :=
  List.map js ["device-connected"; "device-disconnected"; "client-connected"; "client-disconnected"; "websocket-app-client-connected";
    "websocket-app-client-disconnected"; "websocket-web-client-connected"; "websocket-web-client-disconnected"]%string.

Definition heard_by (l : Z) (h : list (Z * facade_event)) : list facade_event := omap (fun x => if x.1 =? l then Some x.2 else None) h.

Definition by_user (l : Z) (op : listened_op) : bool :=
  match op with UserOn _ l' | UserOff _ l' => l' =? l | ConnectorDoes _ => false end.

Definition connector_ops (ops : list listened_op) : list facade_op := omap (fun op => match op with ConnectorDoes op => Some op | _ => None end) ops.

(** ** Proofs *)

Definition registered_times (l : Z) (ls : list (Z * bool)) : nat := List.length (List.filter (fun x => x.1 =? l) ls).

Definition hears_once (l : Z) (em : Emitter) : Prop :=
  forall name, registered_times l (listeners name em) = if bool_decide (name ∈ watched_names) then 1%nat else 0%nat.

Lemma watched_name e : bool_decide (connector_event_name e ∈ watched_names) = watched e.
Proof. by destruct e. Qed.

Lemma listeners_mset name name' ls em : listeners name (mset name' ls em) = if decide (name = name') then ls else listeners name em.
Proof. unfold listeners. rewrite mget_mset. by case_decide. Qed.

Lemma times_app l a b : registered_times l (a ++ b) = (registered_times l a + registered_times l b)%nat.
Proof. unfold registered_times. by rewrite List.filter_app, length_app. Qed.

Lemma times_remove l l' ls : l' <> l -> registered_times l (remove_last l' ls) = registered_times l ls.
Proof.
  intros Hne. unfold registered_times. induction ls as [|x ls IH]; [done|]. cbn [remove_last]. destruct ((x.1 =? l') && _) eqn:E.
  - bprop. cbn [List.filter]. rewrite (proj2 (Z.eqb_neq x.1 l)) by congruence. done.
  - cbn [List.filter]. destruct (x.1 =? l); cbn [List.length]; by rewrite IH.
Qed.

Lemma registered_step l op c : by_user l op = false -> hears_once l (lc_events c) -> hears_once l (lc_events (listened_step op c).2).
Proof.
  intros Hop Hr name. destruct op as [event l'|event l'|op]; cbn [by_user listened_step] in *; [| |destruct (facade_step op (lc_facade c)); apply Hr].
  - apply Z.eqb_neq in Hop. cbn. unfold emitter_on. rewrite listeners_mset. case_decide as E; [|apply Hr]. subst name. rewrite times_app, Hr.
    unfold registered_times at 1. cbn. rewrite (proj2 (Z.eqb_neq l' l)) by done. cbn. lia.
  - apply Z.eqb_neq in Hop. cbn. unfold emitter_off. rewrite listeners_mset. case_decide as E; [|apply Hr]. subst name. rewrite times_remove by done. apply Hr.
Qed.

(** It hears each of its events once. *)
Lemma listened_heard_emit l e c : hears_once l (lc_events c) -> heard_by l (connector_emit e c) = if watched e then [e] else [].
Proof.
  intros Hr. specialize (Hr (connector_event_name e)). rewrite watched_name in Hr. unfold connector_emit, heard_by. revert Hr. unfold registered_times.
  generalize (listeners (connector_event_name e) (lc_events c)). intros ls.
  assert (omap (fun x : Z * facade_event => if x.1 =? l then Some x.2 else None) (List.map (fun x : Z * bool => (x.1, e)) ls) =
    repeat e (List.length (List.filter (fun x : Z * bool => x.1 =? l) ls))) as ->.
  { induction ls as [|x ls IH]; [done|]. cbn. destruct (x.1 =? l); cbn; by rewrite <- IH. }
  intros ->. by destruct (watched e).
Qed.

Lemma listened_heard_app l a b : heard_by l (a ++ b) = heard_by l a ++ heard_by l b.
Proof. apply omap_app. Qed.

Definition told_events (es : list facade_effect) : list facade_event :=
  omap (fun e => match e with FEmit e => if watched e then Some e else None | _ => None end) es.

Lemma heard_effects l es c : hears_once l (lc_events c) -> heard_by l (concat (List.map (emit_effect c) es)) = told_events es.
Proof.
  intros Hr. induction es as [|e es IH]; [done|]. cbn [List.map concat]. rewrite listened_heard_app, IH. unfold told_events. cbn.
  destruct e as [e| | | | | | | |]; cbn [emit_effect]; try done. rewrite (listened_heard_emit l e c Hr). by destruct (watched e).
Qed.

Lemma told_events_app a b : told_events (a ++ b) = told_events a ++ told_events b.
Proof. apply omap_app. Qed.

Lemma listened_run_spec l ops : forallb (fun op => negb (by_user l op)) ops = true -> forall c, hears_once l (lc_events c) ->
  let '(h, c') := listened_run ops c in
  let '(es, f) := facade_run (connector_ops ops) (lc_facade c) in heard_by l h = told_events es /\ lc_facade c' = f.
Proof.
  induction ops as [|op ops IH]; intros Hops c Hr; [done|]. cbn [forallb] in Hops. bprop. cbn [listened_run].
  pose proof (registered_step l op c ltac:(done) Hr) as Hr'. specialize (IH ltac:(done)).
  destruct op as [event l'|event l'|op]; cbn [listened_step] in *.
  - specialize (IH _ Hr'). by destruct (listened_run ops _) as [h2 c2].
  - specialize (IH _ Hr'). by destruct (listened_run ops _) as [h2 c2].
  - change (connector_ops (_ :: ops)) with (op :: connector_ops ops). unfold facade_run in *. cbn [for_each]. destruct (facade_step op (lc_facade c)) as [es1 f1]. cbn [fst snd] in *.
  match goal with |- context [listened_run ops ?x] => specialize (IH x Hr'); destruct (listened_run ops x) as [h2 c2] end.
  cbn [lc_facade set_field eta eta_listened] in IH.
  destruct (for_each facade_step (connector_ops ops) f1) as [es2 f2]. destruct IH as [I1 I2]. split; [|done].
  by rewrite listened_heard_app, (heard_effects l es1 c Hr), I1, told_events_app.
Qed.

(** What it is not told does not matter to it. *)
Lemma observe_told es v : fold_left observe (List.map FEmit (told_events es)) v = fold_left observe es v.
Proof.
  revert v. induction es as [|e es IH]; intros v; [done|]. unfold told_events. cbn. fold (told_events es).
  destruct e as [e| | | | | | | |]; cbn; try apply IH. destruct e; cbn; apply IH.
Qed.

Definition subscribed (l : Z) (o : FacadeOption) : ListenedConnector :=
  fold_left (fun c name => connector_on name l c) watched_names (mkListened (new_facade o).2 []).

Lemma on_times l names : NoDup names -> forall c name,
  registered_times l (listeners name (lc_events (fold_left (fun c name => connector_on name l c) names c))) =
  (registered_times l (listeners name (lc_events c)) + if bool_decide (name ∈ names) then 1 else 0)%nat.
Proof.
  induction 1 as [|n names Hn Hnd IH]; intros c name; [cbn [fold_left]; rewrite (bool_decide_eq_false_2 _ (not_elem_of_nil _)); lia|]. cbn [fold_left]. rewrite IH.
  assert (registered_times l (listeners name (lc_events (connector_on n l c))) =
    (registered_times l (listeners name (lc_events c)) + if bool_decide (name = n) then 1 else 0)%nat) as ->.
  { unfold connector_on, emitter_on. cbn. rewrite listeners_mset. case_decide as E; [subst|]; [rewrite bool_decide_eq_true_2 by done|rewrite bool_decide_eq_false_2 by done; lia].
    rewrite times_app. unfold registered_times at 2. cbn. by rewrite Z.eqb_refl. }
  destruct (bool_decide_reflect (name = n)) as [->|Hne].
  - rewrite (bool_decide_eq_false_2 (n ∈ names)) by done. rewrite (bool_decide_eq_true_2 (n ∈ n :: names)) by left. lia.
  - rewrite (bool_decide_ext (name ∈ n :: names) (name ∈ names)); [lia|]. rewrite elem_of_cons. tauto.
Qed.

Lemma subscribed_registered l o : hears_once l (lc_events (subscribed l o)).
Proof.
  intros name. unfold subscribed. rewrite on_times; [done|]. apply (bool_decide_eq_true_1 (NoDup watched_names)). vm_compute. reflexivity.
Qed.

(** A user that listens sees what the connector shows.  A function
    registered at the start for the eight events of devices, USB clients and
    WebSocket clients, and never taken away, hears each of them once and in
    order, whatever other functions are registered and removed meanwhile, so that
    by adding and removing what it is told it holds at every moment exactly the
    devices and clients of the connector. *)
Theorem listener_sees_mirrors o l ops :
  forallb (fun op => negb (by_user l op)) ops = true ->
  let '(h, c) := listened_run ops (subscribed l o) in
  fold_left observe (List.map FEmit (heard_by l h)) (mkView [] [] [] []) = view_of (lc_facade c).
Proof.
  intros Hops. pose proof (listened_run_spec l ops Hops (subscribed l o) (subscribed_registered l o)) as H.
  destruct (listened_run ops (subscribed l o)) as [h c].
  assert (lc_facade (subscribed l o) = (new_facade o).2) as E by done. rewrite E in H.
  pose proof (facade_run_explained (connector_ops ops) _ (new_facade_wf o)) as X.
  destruct (facade_run (connector_ops ops) (new_facade o).2) as [es f]. destruct H as [-> ->]. rewrite observe_told.
  destruct X as [_ V _]. cbn [fst snd] in V. rewrite <- V. f_equal. unfold new_facade. by destruct (default false (fo_manualConnect o)).
Qed.

(** Another function comes and goes while a device arrives. *)
Lemma listener_sees_mirrors_example :
  let o := mkFacadeOption (Some true) false None None None None None None None None None None None None in
  let ops := [UserOn (js "device-connected") 2; ConnectorDoes (OpDevicesAnswered [mkDeviceSnapshot (js "Android") (js "Pixel") (js "S1") [8901] (js "127.0.0.1")]);
              UserOff (js "device-connected") 2] in
  let '(h, c) := listened_run ops (subscribed 1 o) in
  (List.map fst h = [1; 2]) /\ fold_left observe (List.map FEmit (heard_by 1 h)) (mkView [] [] [] []) = view_of (lc_facade c).
Proof.
  cbv zeta. match goal with |- context [listened_run ?ops (subscribed 1 ?o)] =>
    pose proof (listener_sees_mirrors o 1 ops ltac:(reflexivity)) as H; destruct (listened_run ops (subscribed 1 o)) as [h c] eqn:E end.
  split; [|exact H]. vm_compute in E. by injection E as <- <-.
Qed.
